(* ===== verification/_CoqProject ===== *)
-Q . S2P
Prelude.v
SamplingParams.v
KVCacheBlock.v
Request.v
FreeQueue.v
BlockHash.v
KVCacheManager.v
KVInvariant.v
KVOps.v
KVSwap.v
KVSafety.v
KVTheorems.v
EncoderCache.v
Scheduler.v
SchedInv.v
SchedStep.v
SchedFuel.v
SchedOutput.v
SchedTheorems.v
SchedLife.v
LRUCache.v
MMInputMapper.v
EngineCore.v
EngineTheorems.v
InputBatch.v
BatchTheorems.v
ModelRunner.v
RunnerInputs.v
RunnerStates.v
Detokenizer.v
DetokTheorems.v
Processor.v
Frontend.v
FrontTheorems.v
Evictor.v
NaiveBlocks.v
NaiveTheorems.v
CacheMetric.v
PrefixCaching.v
PrefixBooks.v
PrefixHash.v
PrefixOps.v
PrefixInv.v
PrefixAlloc.v
PrefixTheorems.v
SequenceData.v
Sequences.v
SequenceTheorems.v
BlockTable.v
CpuGpu.v
BlockManager.v
TableLaws.v
TableOps.v
TableInst.v
PrefixTables.v
ManagerInv.v
ManagerTheorems.v
AllocTheorems.v
ManagerDemos.v
SchedConfig.v
V0Types.v
V0Sched.v
V0Phases.v
V0Schedule.v
V0Frame.v
V0Running.v
V0Admission.v
V0SchedTheorems.v
V0Quiet.v
V0Order.v
V0Demos.v
V0Outputs.v
V0Engine.v
V0ProcTheorems.v
V0SchedFrame.v
V0EngineFrame.v
V0EngineInv.v
V0EngineProps.v
V0EngineDemos.v
