(* ===== verification/Prelude.v ===== *)
(** * SuperInfer: the serving core

    This library models the scheduling core of SuperInfer (a fork of vLLM) and
    proves what makes it correct. The sources are under src/vllm.

    ** The program

    A request enters the engine core ([v1/engine/core.py]), which wraps it in a
    [Request] ([v1/request.py]) and hands it to the scheduler
    ([v1/core/scheduler.py]). At every step the scheduler chooses, within a token
    budget, how many tokens of which requests the model computes next. A request
    needs KV-cache blocks; the [KVCacheManager] ([v1/core/kv_cache_manager.py])
    allocates them on the GPU, shares blocks of equal prompt prefixes, and swaps
    blocks to the CPU and back. Free blocks form an intrusive doubly linked list,
    and block hashes identify prefixes ([v1/core/kv_cache_utils.py]). Encoder
    (image) inputs have a budget and a cache of their own
    ([v1/core/encoder_cache_manager.py]). The engine sends the schedule to the
    executor process, schedules the next step while the model runs (lookahead),
    collects the result, appends the sampled tokens, finishes requests and drops
    what was scheduled for them in vain. In the executor process the model runner
    ([v1/worker/gpu_model_runner.py]) keeps the state of every request and a
    persistent batch ([v1/worker/gpu_input_batch.py]) with a row per running
    request, from which it builds the inputs of the model. The outputs go back to
    the client, where the detokenizer ([v1/engine/detokenizer.py]) turns the
    tokens into text, watches for stop strings and streams the new text.

    The repository also holds the engine that came before (V0), with sequences and
    sequence groups ([sequence.py]) instead of requests, and a memory manager in
    layers: block allocators with and without prefix caching ([core/block]), a pair
    of them for GPU and CPU, a table of blocks per sequence, and the block manager
    ([core/block_manager.py]). Its scheduler ([core/scheduler.py]) keeps sequence
    groups in three queues (waiting, running, swapped), schedules decodes, swap-ins
    and prefills within a token budget, preempts groups by recomputation or by
    swapping, and writes the metadata that the workers receive. The V0 engine
    ([engine/llm_engine.py]) takes requests, splits those for several samples into
    groups of one sequence, runs the scheduler and the model, lets an output
    processor ([engine/output_processor]) append and check the sampled tokens, at
    once or while the next step runs, and builds the outputs ([outputs.py]).

    ** The files

    - [Prelude]: exceptions, results, the state-and-exception monad [M] with its
      weakest preconditions [wp] and the tactics [wp_step], [wp_steps] and
      [by_wp]; Python dictionaries ([dict]: association lists in insertion
      order), sets of strings, slices, integer division; lemmas on lists.
    - [SamplingParams]: sampling_params.py, [__post_init__] and [_verify_args].
    - [KVCacheBlock], [FreeQueue], [BlockHash]: the three parts of
      kv_cache_utils.py. Python's [hash] of a block is a parameter [py_hash] of
      which nothing is assumed; the theorem on keys exhibits the colliding arguments
      where a key does not identify its prefix.
    - [Request]: request.py and the message [EngineCoreRequest].
    - [KVCacheManager]: kv_cache_manager.py, one definition per method, over a
      record with the block pools, the two free queues, the cache dictionary and
      the block tables. Block objects are indices into the pools, so that sharing
      between tables is visible. [KVInvariant], [KVOps] and [KVSwap] prove that
      every method keeps the invariant [kv_inv]; [KVSafety] defines runs of calls
      ([kv_reach]); [KVTheorems] states the properties.
    - [EncoderCache]: encoder_cache_manager.py.
    - [Scheduler]: scheduler.py, whole methods. Requests live in a heap and the
      queues hold references; the local variables of [schedule] that are passed to
      helper methods are the record [Locals]. [SchedInv] states the invariant
      [sinv]; [SchedStep] and [SchedOutput] carry it through a step and through
      output processing; [SchedFuel] shows that the loops stop; [SchedTheorems]
      and [SchedLife] define runs ([sched_reach]) and state the properties.
    - [LRUCache]: class LRUCache of utils.py. [MMInputMapper]: the client and the
      server half of the multi-modal input cache (v1/engine/mm_input_mapper.py).
    - [EngineCore]: core.py, with the executor as an environment that answers
      every execution with one arbitrary result; [EngineTheorems]: runs
      ([engine_reach]) and properties.
    - [InputBatch]: gpu_input_batch.py; [BatchTheorems]: its invariant and
      [condense].
    - [ModelRunner]: the state update, the inputs, the encoder cache and the
      recording of sampled tokens of gpu_model_runner.py, with numpy's int32
      arithmetic; the forward pass, the encoder and the sampler are parameters of
      [execute_model]. [RunnerInputs]: the inputs against a reference;
      [RunnerStates]: the invariant [runner_inv] between states and batch.
    - [Detokenizer]: detokenizer.py, transformers_utils/detokenizer_utils.py and
      the stop-string search of engine/output_processor/stop_checker.py, with the
      tokenizer as the record [Tokenizer]; [DetokTheorems]: the only thing
      assumed of a tokenizer, that it does not raise (the class [Total]), and the
      properties.
    - [Processor]: processor.py, the inputs adapter of inputs/data.py and the image
      hashes; [Frontend]: async_llm.py and the messages of core_client.py: each
      coroutine is cut at its awaits into sections ([run_event]), and a run
      ([fe_run]) is any sequence of enabled sections. It uses the processor
      through the class [RequestProcessor], which [processor_requests] implements.
      [FrontTheorems]: its invariant [fe_inv], the tracking of one call among the
      others, and the properties.
    - [Evictor]: core/evictor.py. [NaiveBlocks]: block objects, reference counts,
      copy on write and the pool of core/block/common.py and naive_block.py, the
      base of the V0 block manager; [NaiveTheorems]: its invariant and properties.
    - [CacheMetric], [PrefixCaching]: the prefix-caching allocator of the V0 block
      manager (prefix_caching_block.py), over the hashless allocator of
      [NaiveBlocks] and the evictor of [Evictor], as in the code; the hash
      function is a parameter. [PrefixBooks] keeps the accounts of block ids
      (where each id is and how often it is used), [PrefixHash] the pool of block
      objects, the memoised hashes and the content of the cache; [PrefixOps],
      [PrefixInv] and [PrefixAlloc] carry both through the operations, and
      [PrefixTheorems] defines runs ([pc_reach]) and states the properties.
    - [SequenceData], [Sequences]: sequence.py, the stop checker
      (engine/output_processor/stop_checker.py) and the V0 detokenizer
      (transformers_utils/detokenizer.py), which uses the incremental functions of
      [Detokenizer]; [SequenceTheorems]: the deltas that keep the copies of the
      workers in sync ([seq_run]), streaming, text and stop conditions.
    - [BlockTable]: block_table.py over the class [DeviceAwareBlockAllocator] of
      interfaces.py. [CpuGpu]: cpu_gpu_block_allocator.py over the class
      [BlockAllocator], with an instance for each of the two allocators and
      [cpu_gpu_allocator] as the instance that the tables use; block objects stay
      in the pool of the GPU allocator, and what the CPU allocator does to such a
      foreign object are the operations named [_away].
    - [BlockManager]: block_manager.py and the two trackers of
      prefix_caching_block.py. [TableLaws]: the class of laws that a table needs of
      its allocator, in terms of chains of block objects ([chained]);
      [TableOps]: what the operations of a table do, proved from the laws alone;
      [TableInst] and [PrefixTables] prove the laws for the two allocators.
      [ManagerInv]: who owns which blocks ([owns]) and the contract of each
      operation of the manager; [ManagerTheorems]: runs ([mgr_reach]) and
      properties, and the hashes of the tracker; [AllocTheorems]: that admitted
      groups can be allocated; [ManagerDemos]: managers as the code
      creates them, the properties applied to them, and defects.
    - [SchedConfig]: the configuration the V0 scheduler reads, with its checks
      (config.py). [V0Types], [V0Sched], [V0Phases], [V0Schedule]: scheduler.py in
      the order of the file, over any block manager (class [BlockSpaceManager] of
      [V0Types], with the block manager and the placeholder as instances); groups
      live in a heap and the queues hold references. [V0Frame]: what the helpers
      leave unchanged; [V0Running] and [V0Admission]: the loops over the running,
      swapped and waiting queues; [V0SchedTheorems]: the contract of a whole step
      ([v0_schedule_spec]) and what follows for its callers; [V0Quiet]: block
      managers that change no group and do not run out of fuel, which both
      instances are; [V0Order]: the order of the queues under both policies;
      [V0Demos]: schedulers as the code creates them, the properties applied to
      them, and defects.
    - [V0Outputs], [V0Engine]: llm_engine.py (class LLMEngine), its output
      processors, the outputs of requests and the assembly of several samples.
      The state is the scheduler's, over the pair of a block manager and the
      context of the engine ([V0Ctx]); a scheduler over such pairs is the
      scheduler over the block manager ([engine_manager]). The executor is a
      stream of answers that may call back. [V0ProcTheorems]: the two output
      processors compared; [V0SchedFrame] and [V0EngineFrame]: what a schedule and
      the output processing leave alone; [V0EngineInv]: the invariant [engine_ok]
      through a step, an abort and a new request; [V0EngineProps]: where the
      tokens of a step go, runs ([reaches]) and the properties; [V0EngineDemos]:
      engines as the code creates them, and defects.

    ** The theorems

    - KV cache: in every state reachable by calls of the manager the reference
      counts are the numbers of uses, the free queue holds exactly the unused
      blocks once each, and a block in a table is not free; what each method
      does on every branch; the longest cached prefix is found; the key of a
      block identifies the tokens of the block, and those before it up to
      collisions of [hash].
    - Scheduler: queues, statuses and tables agree in every reachable state; the
      four checks of the schedule behind the loops hold (those on the token counts
      of single requests, behind them, are not covered); a step stays within the token budget;
      all its loops terminate; finishing, stopping and rescheduling remove
      exactly the requests they should; encoder inputs are complete; a request
      that receives tokens finishes.
    - Engine: an execution is in flight exactly when there is a schedule to
      execute, results are matched with the schedule they belong to, a turn of the
      busy loop cannot wait for ever, and the scheduler is only used within its
      preconditions, so its theorems hold for the running engine.
    - Caches and batch: LRU eviction, mirrored caches in two processes, and
      condensing without loss.
    - Model runner: [_update_states] keeps the batch a mirror of the request
      states: the requests that were in it and did not stop, and the added ones; the flattened index
      arithmetic of [_prepare_inputs] gives each request its tokens, positions and
      cache slots; every sampled token is accounted for.
    - Detokenizer: text decoded token by token comes in segments that cover the
      tokens, each decoded behind the one before; the
      search window for stop strings suffices; streamed deltas put together are
      the final text, so that nothing sent is taken back at a stop string.
    - Client: every call of [generate] receives the detokenized outputs of its own
      request, whatever is interleaved with it; the output handler survives every
      engine output; what the processor hands on is well formed, and the stop ids
      of a request are those [min_tokens] suppresses.
    - V0 blocks: reference counts and free list count the block objects exactly;
      a write goes to a block of its own; eviction is least recently used. In
      the prefix-caching allocator every id is free, in use, or cached and
      evictable, in exactly one place and with the right count; objects that
      share a full block have equal token prefixes, up to collisions of [hash];
      memoised hashes are those computed from scratch; the search of the cache
      finds the longest cached prefix.
    - V0 block manager, without sliding windows and swapping: for both allocators,
      its tables represent a map from sequences to tokens through every operation;
      with the naive allocator, a block is free exactly when no table lists it, and
      a new group that [can_allocate] admits can be allocated; with the
      prefix-caching one, sequences share full blocks of equal prefixes only, up to
      collisions of [hash]; the
      hashes kept per sequence are those computed from scratch, and they find the
      blocks of the sequence in the cache.
    - V0 sequences: the copy of a sequence at the workers, kept from deltas, is the
      sequence of the scheduler; streamed token ids are the output; both engines
      produce the same text; when a sequence stops.
    - V0 scheduler: a step moves groups between the queues and ends the ones it
      ignores, and none is lost or duplicated; its loops stop; three of its
      assertions hold (swapping in one direction, the number of prefills, the set of
      LoRA ids); groups that wait are admitted in the order of the queue and preempted ones
      go back to its front; the priority policy sorts the waiting queue stably and
      preempts only for a group that is more urgent.
    - V0 engine, without asynchronous processing: it loses no request, whatever is
      added, aborted, scheduled and finished; with single-step scheduling a step
      appends to each sequence the token sampled for it and nothing else; a step
      comes back. A burst of tokens of a multi-step run is processed as its tokens
      one by one, if [max_tokens] is set and no LoRA request changes the length limit.
    - Some theorems exhibit defects: references kept by failed allocations, a CPU
      block freed twice, blocks of swapped requests never released, encoder slots
      overdrawn and never returned, prefix keys that ignore earlier images, an
      abort request that raises, which makes a stop string end the engine, an id that
      stays taken after a refused request, an unchecked [n], evictor entries of
      an earlier use that stop the prefix-caching allocator, and, in the V0 block
      manager, pool indices given to the wrong pool when a swapped-out sequence
      ends, admission that ignores blocks out of the window, swapping that cannot
      handle them, and forked sequences whose end raises with prefix caching; in
      the V0 scheduler, victims of the priority policy that are swapped out and
      put on the waiting queue, and swapped groups that can never fit, which are
      ended with their blocks kept; in the V0 engine, streamed samples that are
      cut when the first one ends, and requests for several samples that cannot
      be aborted.

    ** Bounds

    Loops that are not structural take fuel and raise [OutOfFuel] without it:
    walking the free queue takes the size of the pool; [schedule] gives its loops
    the lengths of [running] and [waiting] plus one, since each turn advances an
    index, shortens a queue or returns; preemption shortens [running]; an LRU
    eviction shortens the cache; [condense] takes the number of empty rows plus
    one; the V0 scheduler gives its loops the lengths of its queues plus one; the
    output of a group takes the length of its id plus one, since a group that is
    one of several samples hands over to a group with a shorter id.
    [schedule_terminates], [kv_init_returns], [lru_put_evicts_oldest],
    [condense_closes_gaps], [v0_schedule_terminates] and [engine_step_returns] show
    that these are enough.

    ** What is not modelled

    Integers are unbounded as in Python, except for the int32 arithmetic of
    [_prepare_inputs]; token and block ids are taken to fit the arrays that hold
    them. Time is a stream of clock readings. Logging, timers, sockets, process
    start-up, CUDA streams, copies to the GPU and the neural network are left out.
    Exceptions end the modelled run, except where the code goes on after them (a
    call of [generate]). Tokenization of prompts and the image processors are
    parameters. The synchronous LLMEngine of V1, the executors (processes and messages),
    the CUDA swapper and the network code are not modelled.
    Of the V0 block manager, swapping is modelled but the theorems about runs leave
    it and sliding windows out: the defects above break the invariant there. A
    fork of a sequence while it is on the CPU is not modelled. The V0 scheduler
    reuses objects through PyObjectCache; the model makes fresh ones. Of the V0
    engine, pooling, cached output objects, the callback of the asynchronous engine,
    statistics, tracing, guided decoding, logits processors and pipelines are left
    out; its asynchronous output processing is modelled and run, but the theorems
    about runs are for the synchronous one. *)
From Stdlib Require Import ssreflect ZArith Lia.
From stdpp Require Import base numbers list gmap strings sorting.
#[global] Open Scope general_if_scope.

(** * Exceptions and results *)

(** The Python exceptions the modelled code raises or lets through.  The
    string tells apart the raise sites of one function. [OutOfFuel] is not a
    Python exception: it marks a model loop that ran out of its bound, and the
    termination theorems show that it does not occur. Nor is [Deadlock]: it
    marks a wait for a message that nobody is going to send. *)
Inductive exn :=
  | ValueError (msg : string)
  | AssertionError (msg : string)
  | KeyError (msg : string)
  | IndexError (msg : string)
  | RuntimeError (msg : string)
  | AttributeError (msg : string)
  | TypeError (msg : string)
  | NotImplementedError
  | OverflowError (msg : string)
  | StopIteration
  | OutOfFuel
  | Deadlock.

#[export] Instance exn_eq_dec : EqDecision exn.
Proof. solve_decision. Defined.

Inductive result (A : Type) :=
  | Ok (a : A)
  | Raise (e : exn).
Arguments Ok {A} a.
Arguments Raise {A} e.

(** Pure code that may raise. *)
#[export] Instance result_ret : MRet result := λ A a, Ok a.
#[export] Instance result_bind : MBind result := λ A B f m,
  match m with Ok a => f a | Raise e => Raise e end.

(** * The state and exception monad

    [M S A] is a Python statement block that reads and writes a state [S],
    and returns an [A] or raises. *)
Definition M (S A : Type) : Type := S → result (A * S).

#[export] Instance M_ret S : MRet (M S) := λ A a s, Ok (a, s).
#[export] Instance M_bind S : MBind (M S) := λ A B f m s,
  match m s with Ok (a, s') => f a s' | Raise e => Raise e end.

Section ops.
Context {S : Type}.

Definition mget : M S S := λ s, Ok (s, s).
Definition mgets {A} (f : S → A) : M S A := λ s, Ok (f s, s).
Definition mput (s : S) : M S unit := λ _, Ok (tt, s).
Definition mmodify (f : S → S) : M S unit := λ s, Ok (tt, f s).
Definition mraise {A} (e : exn) : M S A := λ _, Raise e.
(** [assert cond, msg] *)
Definition massert (b : bool) (msg : string) : M S unit :=
  if b then mret tt else mraise (AssertionError msg).
(** a pure computation that may raise *)
Definition mlift {A} (r : result A) : M S A :=
  λ s, match r with Ok a => Ok (a, s) | Raise e => Raise e end.
(** [if c: m] *)
Definition mwhen (b : bool) (m : M S unit) : M S unit :=
  if b then m else mret tt.
(** [for x in l: f(x)] *)
Fixpoint mfor {A} (l : list A) (f : A → M S unit) : M S unit :=
  match l with
  | [] => mret tt
  | x :: l' => _ ← f x; mfor l' f
  end.
(** a [for] loop that also updates a local variable *)
Fixpoint mfold {A B} (l : list A) (b : B) (f : B → A → M S B) : M S B :=
  match l with
  | [] => mret b
  | x :: l' => b' ← f b x; mfold l' b' f
  end.
End ops.

(** Running a block on a component of a larger state. *)
Definition zoom {S T A} (get : S → T) (set : T → S → S) (m : M T A) : M S A :=
  λ s, match m (get s) with
       | Ok (a, t) => Ok (a, set t s)
       | Raise e => Raise e
       end.

Declare Scope py_scope.
Delimit Scope py_scope with py.
Notation "m ;;; k" := (mbind (λ _, k) m)
  (at level 100, k at level 200, right associativity) : py_scope.
Open Scope py_scope.

(** * Weakest preconditions

    [wp m s Q E]: from state [s], block [m] either returns [a] in a state [s']
    with [Q a s'], or raises an [e] with [E e]. *)
Definition wp {S A} (m : M S A) (s : S) (Q : A → S → Prop) (E : exn → Prop) : Prop :=
  match m s with Ok (a, s') => Q a s' | Raise e => E e end.

(** Any exception is accepted: what holds if the block returns. *)
Definition any_exn : exn → Prop := λ _, True.
(** No exception is accepted: the block returns. *)
Definition no_exn : exn → Prop := λ _, False.

Create HintDb py discriminated.

Section wp_rules.
Context {S : Type}.
Implicit Types (s : S) (E : exn → Prop).

Lemma wp_ret {A} (a : A) s Q E : Q a s → wp (mret a) s Q E.
Proof. done. Qed.
Lemma wp_bind {A B} (m : M S A) (f : A → M S B) s Q E :
  wp m s (λ a s', wp (f a) s' Q E) E → wp (m ≫= f) s Q E.
Proof.
  rw /wp /mbind /M_bind. destruct (m s) as [[a s']|e]; done.
Qed.
Lemma wp_mono {A} (m : M S A) s (Q Q' : A → S → Prop) (E E' : exn → Prop) :
  wp m s Q E → (∀ a s', Q a s' → Q' a s') → (∀ e, E e → E' e) → wp m s Q' E'.
Proof. rw /wp. destruct (m s) as [[a s']|e]; eauto. Qed.
Lemma wp_get s Q E : Q s s → wp (@mget S) s Q E.
Proof. done. Qed.
Lemma wp_gets {A} (f : S → A) s Q E : Q (f s) s → wp (mgets f) s Q E.
Proof. done. Qed.
Lemma wp_put t s Q E : Q tt t → wp (mput t) s Q E.
Proof. done. Qed.
Lemma wp_modify f s Q E : Q tt (f s) → wp (mmodify f) s Q E.
Proof. done. Qed.
Lemma wp_raise {A} e s (Q : A → S → Prop) E : E e → wp (mraise e) s Q E.
Proof. done. Qed.
Lemma wp_assert b msg s Q E :
  (b = true → Q tt s) → (b = false → E (AssertionError msg)) →
  wp (massert b msg) s Q E.
Proof. rw /wp /massert. destruct b; simpl; auto. Qed.
Lemma wp_when b m s Q E :
  (b = true → wp m s Q E) → (b = false → Q tt s) → wp (mwhen b m) s Q E.
Proof. destruct b => /= H1 H2; [by apply H1|by apply wp_ret, H2]. Qed.
Lemma wp_lift {A} (r : result A) s Q E :
  (∀ a, r = Ok a → Q a s) → (∀ e, r = Raise e → E e) → wp (mlift r) s Q E.
Proof. rw /wp /mlift. destruct r; eauto. Qed.
Lemma wp_and {A} (m : M S A) s (Q1 Q2 : A → S → Prop) E :
  wp m s Q1 E → wp m s Q2 E → wp m s (λ a s', Q1 a s' ∧ Q2 a s') E.
Proof. rw /wp. destruct (m s) as [[a s']|e]; eauto. Qed.
Lemma wp_ok {A} (m : M S A) s (Q : A → S → Prop) E a s' :
  wp m s Q E → m s = Ok (a, s') → Q a s'.
Proof. rw /wp => H Heq. by rw Heq in H. Qed.
Lemma wp_ok_pair {A B} (m : M S (A * B)) s (Q : A → B → S → Prop) E a b s' :
  m s = Ok ((a, b), s') → wp m s (λ p t, Q p.1 p.2 t) E → Q a b s'.
Proof. rw /wp => Heq H. by rw Heq in H. Qed.
Lemma wp_returns {A} (m : M S A) s (Q : A → S → Prop) :
  wp m s Q no_exn → ∃ a s', m s = Ok (a, s') ∧ Q a s'.
Proof. rw /wp. destruct (m s) as [[a s']|e] => H; [by eexists _, _|by destruct H]. Qed.

(** Loop rule: [I k s] holds after the first [k] iterations. *)
Lemma wp_for_idx {A} (l : list A) (f : A → M S unit) (I : nat → S → Prop) s Q E :
  I 0 s →
  (∀ k x s, l !! k = Some x → I k s → wp (f x) s (λ _, I (Datatypes.S k)) E) →
  (∀ s, I (length l) s → Q tt s) →
  wp (mfor l f) s Q E.
Proof.
  move: s I. elim: l => [|x l IH] s I H0 Hstep Hend /=; first by apply wp_ret, Hend.
  apply wp_bind. eapply wp_mono; [by apply (Hstep 0 x)| |done].
  move=> a s' HI. apply (IH s' (λ k, I (Datatypes.S k))); eauto.
Qed.
Lemma wp_for {A} (l : list A) (f : A → M S unit) (I : S → Prop) s E :
  I s →
  (∀ x s, x ∈ l → I s → wp (f x) s (λ _, I) E) →
  wp (mfor l f) s (λ _, I) E.
Proof.
  move=> H0 Hstep. apply (wp_for_idx l f (λ _, I)); eauto.
  move=> k x t Hk. apply Hstep. by eapply list_elem_of_lookup_2.
Qed.
(** The processed and the remaining part of the list are both visible. *)
Lemma wp_for_split {A} (l : list A) (f : A → M S unit)
    (I : list A → list A → S → Prop) s Q E :
  I [] l s →
  (∀ d x r s, l = d ++ x :: r → I d (x :: r) s →
     wp (f x) s (λ _, I (d ++ [x]) r) E) →
  (∀ s, I l [] s → Q tt s) →
  wp (mfor l f) s Q E.
Proof.
  move=> H0 Hstep Hend.
  apply (wp_for_idx l f (λ k, I (take k l) (drop k l))).
  - by rw take_0 drop_0.
  - move=> k x t Hk HI. rw (take_S_r _ _ _ Hk). apply Hstep.
    + by rw (take_drop_middle _ _ _ Hk).
    + by rw -(drop_S _ _ _ Hk).
  - move=> t. rw firstn_all drop_all. apply Hend.
Qed.
Lemma wp_fold {A B} (l : list A) (f : B → A → M S B) (b : B)
    (I : B → S → Prop) s E :
  I b s →
  (∀ b x s, x ∈ l → I b s → wp (f b x) s I E) →
  wp (mfold l b f) s I E.
Proof.
  move: b s. elim: l => [|x l IH] b s H0 Hstep /=; first by apply wp_ret.
  apply wp_bind. eapply wp_mono; [apply Hstep; [by left|done]| |done].
  move=> b' s' HI. apply IH; first done. move=> *. apply Hstep; [by right|done].
Qed.
End wp_rules.

Lemma wp_zoom {S T A} (get : S → T) set (m : M T A) s (Q : A → S → Prop) E :
  wp m (get s) (λ a t, Q a (set t s)) E → wp (zoom get set m) s Q E.
Proof. rw /wp /zoom. destruct (m (get s)) as [[a t]|e]; done. Qed.

(** Stepping through a block. *)
Ltac wp_step :=
  lazymatch goal with
  | |- wp (mbind _ _) _ _ _ => apply wp_bind
  | |- wp (mret _) _ _ _ => apply wp_ret
  | |- wp mget _ _ _ => apply wp_get
  | |- wp (mgets _) _ _ _ => apply wp_gets
  | |- wp (mput _) _ _ _ => apply wp_put
  | |- wp (mmodify _) _ _ _ => apply wp_modify
  | |- wp (mraise _) _ _ _ => apply wp_raise
  | |- wp (massert _ _) _ _ _ => apply wp_assert; intros
  | |- wp (mwhen _ _) _ _ _ => apply wp_when; intros
  | |- wp (zoom _ _ _) _ _ _ => apply wp_zoom
  | |- wp (if ?b then _ else _) _ _ _ => destruct b eqn:?
  | |- wp (match ?o with _ => _ end) _ _ _ => destruct o eqn:?
  | |- any_exn _ => exact I
  end; cbn beta.
Ltac wp_steps := repeat wp_step.

(** From a run [H : m s = Ok ((a, b), s')] or [H : m s = Ok (a, s')] to the
    weakest precondition of [m] for the goal. *)
Ltac by_wp H :=
  lazymatch type of H with
  | _ = Ok ((?a, ?b), ?t) => pattern a, b, t; refine (wp_ok_pair _ _ _ any_exn _ _ _ H _)
  | _ = Ok (?a, ?t) => pattern a, t; refine (wp_ok _ _ _ any_exn _ _ _ H)
  end.

(** * Dictionaries

    A Python [dict]: keys are unique and iteration follows insertion order. A
    store to an existing key keeps its place. *)
Definition dict (K V : Type) : Type := list (K * V).

Section dict.
Context {K V : Type} `{EqDecision K}.
Implicit Types (d : dict K V) (k : K) (v : V).

(** [d.get(k)] *)
Fixpoint dget d k : option V :=
  match d with
  | [] => None
  | (k', v) :: d' => if decide (k = k') then Some v else dget d' k
  end.
(** [k in d] *)
Definition dmem d k : bool := match dget d k with Some _ => true | None => false end.
(** [d[k] = v] *)
Fixpoint dset d k v : dict K V :=
  match d with
  | [] => [(k, v)]
  | (k', v') :: d' => if decide (k = k') then (k', v) :: d' else (k', v') :: dset d' k v
  end.
(** [del d[k]], and [d.pop(k, None)] for its effect *)
Fixpoint ddel d k : dict K V :=
  match d with
  | [] => []
  | (k', v') :: d' => if decide (k = k') then d' else (k', v') :: ddel d' k
  end.
Definition dkeys d : list K := d.*1.
Definition dvalues d : list V := d.*2.
Definition dict_wf d : Prop := NoDup (dkeys d).

(** Sum of a nonnegative or signed weight over the entries. *)
Fixpoint dsum (f : V → Z) d : Z :=
  match d with [] => 0 | (_, v) :: d' => f v + dsum f d' end%Z.

Lemma dget_dset_eq d k v : dget (dset d k v) k = Some v.
Proof.
  elim: d => [|[k' v'] d IH] /=; first by rw decide_True.
  case_decide; simpl; first by rw decide_True.
  by rw decide_False.
Qed.
Lemma dget_dset_ne d k k' v : k' ≠ k → dget (dset d k v) k' = dget d k'.
Proof.
  move=> Hne. elim: d => [|[k0 v0] d IH] /=; first by rw decide_False.
  case_decide; subst; simpl; [by rw !decide_False|by case_decide].
Qed.
Lemma dget_dset d k k' v :
  dget (dset d k v) k' = if decide (k' = k) then Some v else dget d k'.
Proof. case_decide; subst; [apply dget_dset_eq|by apply dget_dset_ne]. Qed.

Lemma dget_Some_elem d k v : dget d k = Some v → (k, v) ∈ d.
Proof.
  elim: d => [|[k0 v0] d IH] //=. case_decide; subst => ?; simplify_eq;
    [by left|right; auto].
Qed.
Lemma dget_None d k : dget d k = None ↔ k ∉ dkeys d.
Proof.
  elim: d => [|[k0 v0] d IH] /=; first by split; [move=> _; apply not_elem_of_nil|].
  rw not_elem_of_cons. case_decide; subst.
  - split; [done|by move=> [? _]].
  - rw IH. split; [by move=> ?|by move=> [??]].
Qed.
Lemma dget_is_Some d k : is_Some (dget d k) ↔ k ∈ dkeys d.
Proof.
  rw -not_eq_None_Some dget_None. split; [by apply dec_stable|by move=> ? []].
Qed.
Lemma dkeys_dset_in d k v : k ∈ dkeys d → dkeys (dset d k v) = dkeys d.
Proof.
  elim: d => [|[k0 v0] d IH] /=; first by move=> /elem_of_nil.
  rw /dkeys /= elem_of_cons. case_decide; subst; first done.
  move=> [//|Hin] /=. f_equal. by apply IH.
Qed.
Lemma dkeys_dset_notin d k v : k ∉ dkeys d → dkeys (dset d k v) = dkeys d ++ [k].
Proof.
  elim: d => [|[k0 v0] d IH] //=. rw /dkeys /= not_elem_of_cons => -[Hne Hin].
  rw decide_False //=. f_equal. by apply IH.
Qed.
Lemma elem_of_dkeys_dset d k k' v : k' ∈ dkeys (dset d k v) ↔ k' = k ∨ k' ∈ dkeys d.
Proof.
  rw -!dget_is_Some dget_dset. case_decide; subst.
  - split; [by left|by eexists].
  - split; [by right|by move=> [?|?]].
Qed.
Lemma dict_wf_nil : dict_wf [].
Proof. constructor. Qed.
Lemma dict_wf_dset d k v : dict_wf d → dict_wf (dset d k v).
Proof.
  rw /dict_wf. destruct (decide (k ∈ dkeys d)) as [?|Hn].
  - by rw dkeys_dset_in.
  - rw dkeys_dset_notin // => ?. apply NoDup_app. split; first done.
    split; [|apply NoDup_singleton]. move=> x Hx /list_elem_of_singleton Hk. by subst.
Qed.
Lemma dkeys_ddel_subseteq d k k' : k' ∈ dkeys (ddel d k) → k' ∈ dkeys d.
Proof.
  elim: d => [|[k0 v0] d IH] //=. rw /dkeys /=. case_decide => /=.
  - by move=> ?; right.
  - move=> /elem_of_cons [->|?]; [by left|right; by apply IH].
Qed.
Lemma dict_wf_ddel d k : dict_wf d → dict_wf (ddel d k).
Proof.
  rw /dict_wf. elim: d => [|[k0 v0] d IH] //= /NoDup_cons [H1 H2].
  case_decide; first done. apply NoDup_cons. split; last by apply IH.
  move=> /dkeys_ddel_subseteq. done.
Qed.
Lemma dget_ddel_ne d k k' : k' ≠ k → dget (ddel d k) k' = dget d k'.
Proof.
  move=> Hne. elim: d => [|[k0 v0] d IH] //=.
  case_decide; subst; simpl; [by rw decide_False|by case_decide].
Qed.
Lemma dget_ddel_eq d k : dict_wf d → dget (ddel d k) k = None.
Proof.
  rw /dict_wf. elim: d => [|[k0 v0] d IH] //= /NoDup_cons [H1 H2].
  case_decide; subst; simpl; first by apply dget_None.
  rw decide_False //. by apply IH.
Qed.
Lemma dget_ddel d k k' : dict_wf d →
  dget (ddel d k) k' = if decide (k' = k) then None else dget d k'.
Proof. move=> ?. case_decide; subst; [by apply dget_ddel_eq|by apply dget_ddel_ne]. Qed.
Lemma ddel_notin d k : dget d k = None → ddel d k = d.
Proof.
  elim: d => [|[k0 v0] d IH] //=. case_decide => // ?. f_equal. by apply IH.
Qed.
Lemma dget_elem d k v : dict_wf d → (k, v) ∈ d → dget d k = Some v.
Proof.
  rw /dict_wf. elim: d => [|[k0 v0] d IH] /=; first by move=> _ /elem_of_nil.
  move=> /NoDup_cons [H1 H2] /elem_of_cons [[-> ->]|Hin]; first by rw decide_True.
  case_decide; subst; last by apply IH.
  exfalso. apply H1. apply list_elem_of_fmap. by exists (k0, v).
Qed.
Lemma ddel_nil_cases d k : ddel d k = [] → ∀ k', k' ∈ dkeys d → k' = k.
Proof.
  case: d => [|[k0 v0] d] /=; first by move=> _ k' /elem_of_nil.
  case_decide; subst => //. move=> -> k' /elem_of_cons [->//|/elem_of_nil//].
Qed.

Lemma dsum_dset f d k v :
  dsum f (dset d k v) = (dsum f d - from_option f 0 (dget d k) + f v)%Z.
Proof.
  elim: d => [|[k0 v0] d IH] /=; first lia. case_decide; simpl; [lia|]. rw IH. lia.
Qed.
Lemma dsum_ddel f d k :
  dsum f (ddel d k) = (dsum f d - from_option f 0 (dget d k))%Z.
Proof.
  elim: d => [|[k0 v0] d IH] /=; first lia. case_decide; simpl; [lia|]. rw IH. lia.
Qed.
Lemma dsum_nonneg f d : (∀ v, 0 ≤ f v)%Z → (0 ≤ dsum f d)%Z.
Proof. move=> Hf. elim: d => [|[k v] d IH] /=; [lia|]. move: (Hf v). lia. Qed.
Lemma dsum_lookup_le f d k v :
  (∀ v, 0 ≤ f v)%Z → dget d k = Some v → (f v ≤ dsum f d)%Z.
Proof.
  move=> Hf. elim: d => [|[k0 v0] d IH] //=. case_decide => Hv; simplify_eq.
  - move: (dsum_nonneg f d Hf). lia.
  - move: (Hf v0) (IH Hv). lia.
Qed.
Lemma dkeys_app d1 d2 : dkeys (d1 ++ d2) = dkeys d1 ++ dkeys d2.
Proof. apply fmap_app. Qed.
Lemma ddel_dset d k v : ddel (dset d k v) k = ddel d k.
Proof.
  elim: d => [|[k0 v0] d IH] /=; first by rw decide_True.
  case_decide; simpl; first by rw decide_True. by rw decide_False // IH.
Qed.
Lemma length_ddel d k v : dget d k = Some v → length d = S (length (ddel d k)).
Proof.
  elim: d => [|[k0 v0] d IH] //=. case_decide; first done. move=> /IH -> //.
Qed.
Lemma dkeys_ddel d k k' : dict_wf d → k' ∈ dkeys (ddel d k) ↔ k' ≠ k ∧ k' ∈ dkeys d.
Proof.
  move=> Hd. rw -!dget_is_Some dget_ddel //. case_decide; last tauto.
  split; [by move=> []|tauto].
Qed.
Lemma length_dset d k v :
  length (dset d k v) = if decide (is_Some (dget d k)) then length d else S (length d).
Proof.
  elim: d => [|[k0 v0] d IH] /=; first done.
  destruct (decide (k = k0)) as [?|Hk]; simpl.
  - destruct (decide (is_Some (Some v0))) as [_|H]; [done|destruct H; by eexists].
  - rw IH. by destruct (decide _).
Qed.
End dict.

#[export] Hint Resolve dict_wf_nil dict_wf_dset dict_wf_ddel : py.

(** * Integers *)

(** [cdiv] of vllm/utils.py: [-(a // -b)], with Python's floor division. *)
Definition cdiv (a b : Z) : Z := (- (a / (- b)))%Z.

Lemma cdiv_spec a b : (0 < b)%Z → ((cdiv a b - 1) * b < a ≤ cdiv a b * b)%Z.
Proof. rw /cdiv => Hb. pose proof (Z.div_mod a (-b)). pose proof (Z.mod_neg_bound a (-b)). nia. Qed.
Lemma cdiv_le a b c : (0 < b)%Z → (cdiv a b ≤ c ↔ a ≤ c * b)%Z.
Proof. move=> Hb. pose proof (cdiv_spec a b Hb). nia. Qed.
Lemma cdiv_pos a b : (0 < b)%Z → (0 < a)%Z → (0 < cdiv a b)%Z.
Proof. move=> Hb Ha. pose proof (cdiv_spec a b Hb). nia. Qed.
Lemma cdiv_mul a b : (0 < b)%Z → cdiv (a * b) b = a.
Proof. move=> Hb. pose proof (cdiv_spec (a * b) b Hb). nia. Qed.
Lemma div_le_cdiv a b : (0 < b)%Z → (a / b ≤ cdiv a b ≤ a / b + 1)%Z.
Proof.
  move=> Hb. pose proof (cdiv_spec a b Hb). pose proof (Z.div_mod a b).
  pose proof (Z.mod_pos_bound a b). nia.
Qed.

(** * Slices and counting *)

(** A slice bound: negative bounds count from the end, all are clamped. *)
Definition slice_bound (n i : Z) : nat :=
  Z.to_nat (if bool_decide (i < 0)%Z then Z.max 0 (i + n) else Z.min i n).
(** [l[a:b]] *)
Definition slice {A} (l : list A) (a b : Z) : list A :=
  let n := Z.of_nat (length l) in
  drop (slice_bound n a) (take (slice_bound n b) l).

Lemma slice_nonneg {A} (l : list A) a b : (0 ≤ a)%Z → (0 ≤ b)%Z →
  slice l a b = drop (Z.to_nat a) (take (Z.to_nat b) l).
Proof.
  move=> Ha Hb. rw /slice /slice_bound !bool_decide_eq_false_2; try lia.
  have -> : take (Z.to_nat (Z.min b (Z.of_nat (length l)))) l = take (Z.to_nat b) l.
  { destruct (decide (b ≤ Z.of_nat (length l))%Z); first by rw Z.min_l.
    rw Z.min_r; first lia. rw !take_ge //; lia. }
  destruct (decide (a ≤ Z.of_nat (length l))%Z); first by rw Z.min_l.
  rw Z.min_r; first lia. rw !drop_ge // ?length_take; lia.
Qed.
Lemma slice_sublist {A} (l : list A) a b : sublist (slice l a b) l.
Proof.
  rw /slice. etrans; [apply sublist_drop|apply sublist_take].
Qed.
Lemma elem_of_slice {A} (l : list A) a b x : x ∈ slice l a b → x ∈ l.
Proof. move=> Hx. by eapply elem_of_submseteq, sublist_submseteq, slice_sublist. Qed.

(** Occurrences of [x]. *)
Definition occ (x : nat) (l : list nat) : Z := Z.of_nat (length (filter (λ y, x = y) l)).

Lemma occ_nil x : occ x [] = 0%Z.
Proof. done. Qed.
Lemma occ_cons x y l : occ x (y :: l) = ((if decide (x = y) then 1 else 0) + occ x l)%Z.
Proof. rw /occ filter_cons. case_decide; simpl; lia. Qed.
Lemma occ_app x l1 l2 : occ x (l1 ++ l2) = (occ x l1 + occ x l2)%Z.
Proof. rw /occ filter_app length_app. lia. Qed.
Lemma occ_nonneg x l : (0 ≤ occ x l)%Z.
Proof. rw /occ. lia. Qed.
Lemma occ_pos x l : x ∈ l ↔ (0 < occ x l)%Z.
Proof.
  elim: l => [|y l IH]; first by rw occ_nil elem_of_nil; lia.
  rw occ_cons elem_of_cons IH. pose proof (occ_nonneg x l). case_decide; subst.
  - split; [lia|by left].
  - split; [move=> [//|?]; lia|right; lia].
Qed.
Lemma occ_zero x l : x ∉ l ↔ occ x l = 0%Z.
Proof. rw occ_pos. pose proof (occ_nonneg x l). lia. Qed.
Lemma occ_NoDup x l : NoDup l → (occ x l ≤ 1)%Z.
Proof.
  elim: l => [|y l IH]; first by rw occ_nil; lia.
  move=> /NoDup_cons [Hy Hl]. rw occ_cons. case_decide; subst.
  - apply occ_zero in Hy. lia.
  - move: (IH Hl). lia.
Qed.
Lemma occ_rev x l : occ x (reverse l) = occ x l.
Proof.
  elim: l => [|y l IH]; first done. rw reverse_cons occ_app IH !occ_cons occ_nil. lia.
Qed.
Lemma occ_Permutation x l1 l2 : l1 ≡ₚ l2 → occ x l1 = occ x l2.
Proof. induction 1; rw ?occ_cons; lia. Qed.

Create Rewrite HintDb pyrw.
#[export] Hint Rewrite occ_nil occ_cons occ_app occ_rev : pyrw.

(** * In-place updates of an array of records *)
Section alter.
Context {A B : Type} `{!Inhabited A}.
Implicit Types (l : list A) (f : A → A) (g : A → B).

(** A field the update does not store keeps its value everywhere. *)
Lemma alter_field g f l i j :
  (∀ a, g (f a) = g a) → g (alter f i l !!! j) = g (l !!! j).
Proof.
  move=> Hf. rw list_lookup_total_alter.
  case_decide as Hd; [destruct Hd as [<- _]; apply Hf|done].
Qed.
Lemma alter_field_eq g f l i :
  i < length l → g (alter f i l !!! i) = g (f (l !!! i)).
Proof. move=> Hi. by rw list_lookup_total_alter_eq. Qed.
Lemma alter_field_ne g f l i j : i ≠ j → g (alter f i l !!! j) = g (l !!! j).
Proof. move=> Hi. by rw list_lookup_total_alter_ne. Qed.
End alter.

(** * Sets of strings

    A Python [set] of strings, as a list without repetition. *)
Definition set_add (x : string) (l : list string) : list string :=
  if bool_decide (x ∈ l) then l else l ++ [x].
Definition set_discard (x : string) (l : list string) : list string := filter (λ y, y ≠ x) l.
Lemma elem_of_set_add x y l : x ∈ set_add y l ↔ x = y ∨ x ∈ l.
Proof.
  rw /set_add. case_bool_decide as Hy.
  - split; [by right|by move=> [->|?]].
  - rw elem_of_app list_elem_of_singleton. tauto.
Qed.

Lemma filter_all {A} (P : A → Prop) `{∀ x, Decision (P x)} (l : list A) :
  (∀ x, x ∈ l → P x) → filter P l = l.
Proof.
  elim: l => [|x l IH] Hl //. rw filter_cons decide_True; first by apply Hl; left.
  f_equal. apply IH => y Hy. apply Hl. by right.
Qed.
