(* ===== verification/SamplingParams.v ===== *)
(** Sampling parameters: class [SamplingParams] of vllm/sampling_params.py with
    its normalisation ([__post_init__]) and validation ([_verify_args]).

    The fields that only build logits processors ([logits_processors],
    [guided_decoding], [logit_bias], [allowed_token_ids]) are left out. Floats
    are binary64. A Python string is a string of characters, so [len] is the
    length. *)
From Stdlib Require Import ssreflect ZArith Lia PrimFloat.
From stdpp Require Import base numbers list strings.
From S2P Require Import Prelude.

Inductive SamplingType := GREEDY | RANDOM | RANDOM_SEED.
#[export] Instance SamplingType_eq_dec : EqDecision SamplingType.
Proof. solve_decision. Defined.
Inductive RequestOutputKind := CUMULATIVE | DELTA | FINAL_ONLY.
#[export] Instance RequestOutputKind_eq_dec : EqDecision RequestOutputKind.
Proof. solve_decision. Defined.

(** [Optional[Union[str, List[str]]]] *)
Inductive StopArg := StopNone | StopStr (s : string) | StopList (l : list string).
(** A number of log probabilities: [True] means one. *)
Inductive CountArg := CountTrue | Count (n : Z).

Record SamplingParams := {
  sp_n : Z;
  sp_best_of : option Z;
  sp_real_n : option Z;
  presence_penalty : float;
  frequency_penalty : float;
  repetition_penalty : float;
  temperature : float;
  top_p : float;
  top_k : Z;
  min_p : float;
  seed : option Z;
  sp_stop : StopArg;
  stop_token_ids : option (list Z);
  bad_words : option (list string);
  ignore_eos : bool;
  sp_max_tokens : option Z;
  min_tokens : Z;
  sp_logprobs : option CountArg;
  prompt_logprobs : option CountArg;
  detokenize : bool;
  skip_special_tokens : bool;
  spaces_between_special_tokens : bool;
  include_stop_str_in_output : bool;
  truncate_prompt_tokens : option Z;
  output_kind : RequestOutputKind;
  output_text_buffer_length : Z;
  all_stop_token_ids : list Z;
}.

(** Attribute stores. *)
Definition set_sp_n (v : Z) (r : SamplingParams) : SamplingParams :=
  {| sp_n := v; sp_best_of := sp_best_of r; sp_real_n := sp_real_n r; presence_penalty := presence_penalty r; frequency_penalty := frequency_penalty r; repetition_penalty := repetition_penalty r; temperature := temperature r; top_p := top_p r; top_k := top_k r; min_p := min_p r; seed := seed r; sp_stop := sp_stop r; stop_token_ids := stop_token_ids r; bad_words := bad_words r; ignore_eos := ignore_eos r; sp_max_tokens := sp_max_tokens r; min_tokens := min_tokens r; sp_logprobs := sp_logprobs r; prompt_logprobs := prompt_logprobs r; detokenize := detokenize r; skip_special_tokens := skip_special_tokens r; spaces_between_special_tokens := spaces_between_special_tokens r; include_stop_str_in_output := include_stop_str_in_output r; truncate_prompt_tokens := truncate_prompt_tokens r; output_kind := output_kind r; output_text_buffer_length := output_text_buffer_length r; all_stop_token_ids := all_stop_token_ids r |}.
Definition set_sp_real_n (v : option Z) (r : SamplingParams) : SamplingParams :=
  {| sp_n := sp_n r; sp_best_of := sp_best_of r; sp_real_n := v; presence_penalty := presence_penalty r; frequency_penalty := frequency_penalty r; repetition_penalty := repetition_penalty r; temperature := temperature r; top_p := top_p r; top_k := top_k r; min_p := min_p r; seed := seed r; sp_stop := sp_stop r; stop_token_ids := stop_token_ids r; bad_words := bad_words r; ignore_eos := ignore_eos r; sp_max_tokens := sp_max_tokens r; min_tokens := min_tokens r; sp_logprobs := sp_logprobs r; prompt_logprobs := prompt_logprobs r; detokenize := detokenize r; skip_special_tokens := skip_special_tokens r; spaces_between_special_tokens := spaces_between_special_tokens r; include_stop_str_in_output := include_stop_str_in_output r; truncate_prompt_tokens := truncate_prompt_tokens r; output_kind := output_kind r; output_text_buffer_length := output_text_buffer_length r; all_stop_token_ids := all_stop_token_ids r |}.
Definition set_temperature (v : float) (r : SamplingParams) : SamplingParams :=
  {| sp_n := sp_n r; sp_best_of := sp_best_of r; sp_real_n := sp_real_n r; presence_penalty := presence_penalty r; frequency_penalty := frequency_penalty r; repetition_penalty := repetition_penalty r; temperature := v; top_p := top_p r; top_k := top_k r; min_p := min_p r; seed := seed r; sp_stop := sp_stop r; stop_token_ids := stop_token_ids r; bad_words := bad_words r; ignore_eos := ignore_eos r; sp_max_tokens := sp_max_tokens r; min_tokens := min_tokens r; sp_logprobs := sp_logprobs r; prompt_logprobs := prompt_logprobs r; detokenize := detokenize r; skip_special_tokens := skip_special_tokens r; spaces_between_special_tokens := spaces_between_special_tokens r; include_stop_str_in_output := include_stop_str_in_output r; truncate_prompt_tokens := truncate_prompt_tokens r; output_kind := output_kind r; output_text_buffer_length := output_text_buffer_length r; all_stop_token_ids := all_stop_token_ids r |}.
Definition set_top_p (v : float) (r : SamplingParams) : SamplingParams :=
  {| sp_n := sp_n r; sp_best_of := sp_best_of r; sp_real_n := sp_real_n r; presence_penalty := presence_penalty r; frequency_penalty := frequency_penalty r; repetition_penalty := repetition_penalty r; temperature := temperature r; top_p := v; top_k := top_k r; min_p := min_p r; seed := seed r; sp_stop := sp_stop r; stop_token_ids := stop_token_ids r; bad_words := bad_words r; ignore_eos := ignore_eos r; sp_max_tokens := sp_max_tokens r; min_tokens := min_tokens r; sp_logprobs := sp_logprobs r; prompt_logprobs := prompt_logprobs r; detokenize := detokenize r; skip_special_tokens := skip_special_tokens r; spaces_between_special_tokens := spaces_between_special_tokens r; include_stop_str_in_output := include_stop_str_in_output r; truncate_prompt_tokens := truncate_prompt_tokens r; output_kind := output_kind r; output_text_buffer_length := output_text_buffer_length r; all_stop_token_ids := all_stop_token_ids r |}.
Definition set_top_k (v : Z) (r : SamplingParams) : SamplingParams :=
  {| sp_n := sp_n r; sp_best_of := sp_best_of r; sp_real_n := sp_real_n r; presence_penalty := presence_penalty r; frequency_penalty := frequency_penalty r; repetition_penalty := repetition_penalty r; temperature := temperature r; top_p := top_p r; top_k := v; min_p := min_p r; seed := seed r; sp_stop := sp_stop r; stop_token_ids := stop_token_ids r; bad_words := bad_words r; ignore_eos := ignore_eos r; sp_max_tokens := sp_max_tokens r; min_tokens := min_tokens r; sp_logprobs := sp_logprobs r; prompt_logprobs := prompt_logprobs r; detokenize := detokenize r; skip_special_tokens := skip_special_tokens r; spaces_between_special_tokens := spaces_between_special_tokens r; include_stop_str_in_output := include_stop_str_in_output r; truncate_prompt_tokens := truncate_prompt_tokens r; output_kind := output_kind r; output_text_buffer_length := output_text_buffer_length r; all_stop_token_ids := all_stop_token_ids r |}.
Definition set_min_p (v : float) (r : SamplingParams) : SamplingParams :=
  {| sp_n := sp_n r; sp_best_of := sp_best_of r; sp_real_n := sp_real_n r; presence_penalty := presence_penalty r; frequency_penalty := frequency_penalty r; repetition_penalty := repetition_penalty r; temperature := temperature r; top_p := top_p r; top_k := top_k r; min_p := v; seed := seed r; sp_stop := sp_stop r; stop_token_ids := stop_token_ids r; bad_words := bad_words r; ignore_eos := ignore_eos r; sp_max_tokens := sp_max_tokens r; min_tokens := min_tokens r; sp_logprobs := sp_logprobs r; prompt_logprobs := prompt_logprobs r; detokenize := detokenize r; skip_special_tokens := skip_special_tokens r; spaces_between_special_tokens := spaces_between_special_tokens r; include_stop_str_in_output := include_stop_str_in_output r; truncate_prompt_tokens := truncate_prompt_tokens r; output_kind := output_kind r; output_text_buffer_length := output_text_buffer_length r; all_stop_token_ids := all_stop_token_ids r |}.
Definition set_seed (v : option Z) (r : SamplingParams) : SamplingParams :=
  {| sp_n := sp_n r; sp_best_of := sp_best_of r; sp_real_n := sp_real_n r; presence_penalty := presence_penalty r; frequency_penalty := frequency_penalty r; repetition_penalty := repetition_penalty r; temperature := temperature r; top_p := top_p r; top_k := top_k r; min_p := min_p r; seed := v; sp_stop := sp_stop r; stop_token_ids := stop_token_ids r; bad_words := bad_words r; ignore_eos := ignore_eos r; sp_max_tokens := sp_max_tokens r; min_tokens := min_tokens r; sp_logprobs := sp_logprobs r; prompt_logprobs := prompt_logprobs r; detokenize := detokenize r; skip_special_tokens := skip_special_tokens r; spaces_between_special_tokens := spaces_between_special_tokens r; include_stop_str_in_output := include_stop_str_in_output r; truncate_prompt_tokens := truncate_prompt_tokens r; output_kind := output_kind r; output_text_buffer_length := output_text_buffer_length r; all_stop_token_ids := all_stop_token_ids r |}.
Definition set_sp_stop (v : StopArg) (r : SamplingParams) : SamplingParams :=
  {| sp_n := sp_n r; sp_best_of := sp_best_of r; sp_real_n := sp_real_n r; presence_penalty := presence_penalty r; frequency_penalty := frequency_penalty r; repetition_penalty := repetition_penalty r; temperature := temperature r; top_p := top_p r; top_k := top_k r; min_p := min_p r; seed := seed r; sp_stop := v; stop_token_ids := stop_token_ids r; bad_words := bad_words r; ignore_eos := ignore_eos r; sp_max_tokens := sp_max_tokens r; min_tokens := min_tokens r; sp_logprobs := sp_logprobs r; prompt_logprobs := prompt_logprobs r; detokenize := detokenize r; skip_special_tokens := skip_special_tokens r; spaces_between_special_tokens := spaces_between_special_tokens r; include_stop_str_in_output := include_stop_str_in_output r; truncate_prompt_tokens := truncate_prompt_tokens r; output_kind := output_kind r; output_text_buffer_length := output_text_buffer_length r; all_stop_token_ids := all_stop_token_ids r |}.
Definition set_stop_token_ids (v : option (list Z)) (r : SamplingParams) : SamplingParams :=
  {| sp_n := sp_n r; sp_best_of := sp_best_of r; sp_real_n := sp_real_n r; presence_penalty := presence_penalty r; frequency_penalty := frequency_penalty r; repetition_penalty := repetition_penalty r; temperature := temperature r; top_p := top_p r; top_k := top_k r; min_p := min_p r; seed := seed r; sp_stop := sp_stop r; stop_token_ids := v; bad_words := bad_words r; ignore_eos := ignore_eos r; sp_max_tokens := sp_max_tokens r; min_tokens := min_tokens r; sp_logprobs := sp_logprobs r; prompt_logprobs := prompt_logprobs r; detokenize := detokenize r; skip_special_tokens := skip_special_tokens r; spaces_between_special_tokens := spaces_between_special_tokens r; include_stop_str_in_output := include_stop_str_in_output r; truncate_prompt_tokens := truncate_prompt_tokens r; output_kind := output_kind r; output_text_buffer_length := output_text_buffer_length r; all_stop_token_ids := all_stop_token_ids r |}.
Definition set_bad_words (v : option (list string)) (r : SamplingParams) : SamplingParams :=
  {| sp_n := sp_n r; sp_best_of := sp_best_of r; sp_real_n := sp_real_n r; presence_penalty := presence_penalty r; frequency_penalty := frequency_penalty r; repetition_penalty := repetition_penalty r; temperature := temperature r; top_p := top_p r; top_k := top_k r; min_p := min_p r; seed := seed r; sp_stop := sp_stop r; stop_token_ids := stop_token_ids r; bad_words := v; ignore_eos := ignore_eos r; sp_max_tokens := sp_max_tokens r; min_tokens := min_tokens r; sp_logprobs := sp_logprobs r; prompt_logprobs := prompt_logprobs r; detokenize := detokenize r; skip_special_tokens := skip_special_tokens r; spaces_between_special_tokens := spaces_between_special_tokens r; include_stop_str_in_output := include_stop_str_in_output r; truncate_prompt_tokens := truncate_prompt_tokens r; output_kind := output_kind r; output_text_buffer_length := output_text_buffer_length r; all_stop_token_ids := all_stop_token_ids r |}.
Definition set_sp_max_tokens (v : option Z) (r : SamplingParams) : SamplingParams :=
  {| sp_n := sp_n r; sp_best_of := sp_best_of r; sp_real_n := sp_real_n r; presence_penalty := presence_penalty r; frequency_penalty := frequency_penalty r; repetition_penalty := repetition_penalty r; temperature := temperature r; top_p := top_p r; top_k := top_k r; min_p := min_p r; seed := seed r; sp_stop := sp_stop r; stop_token_ids := stop_token_ids r; bad_words := bad_words r; ignore_eos := ignore_eos r; sp_max_tokens := v; min_tokens := min_tokens r; sp_logprobs := sp_logprobs r; prompt_logprobs := prompt_logprobs r; detokenize := detokenize r; skip_special_tokens := skip_special_tokens r; spaces_between_special_tokens := spaces_between_special_tokens r; include_stop_str_in_output := include_stop_str_in_output r; truncate_prompt_tokens := truncate_prompt_tokens r; output_kind := output_kind r; output_text_buffer_length := output_text_buffer_length r; all_stop_token_ids := all_stop_token_ids r |}.
Definition set_sp_logprobs (v : option CountArg) (r : SamplingParams) : SamplingParams :=
  {| sp_n := sp_n r; sp_best_of := sp_best_of r; sp_real_n := sp_real_n r; presence_penalty := presence_penalty r; frequency_penalty := frequency_penalty r; repetition_penalty := repetition_penalty r; temperature := temperature r; top_p := top_p r; top_k := top_k r; min_p := min_p r; seed := seed r; sp_stop := sp_stop r; stop_token_ids := stop_token_ids r; bad_words := bad_words r; ignore_eos := ignore_eos r; sp_max_tokens := sp_max_tokens r; min_tokens := min_tokens r; sp_logprobs := v; prompt_logprobs := prompt_logprobs r; detokenize := detokenize r; skip_special_tokens := skip_special_tokens r; spaces_between_special_tokens := spaces_between_special_tokens r; include_stop_str_in_output := include_stop_str_in_output r; truncate_prompt_tokens := truncate_prompt_tokens r; output_kind := output_kind r; output_text_buffer_length := output_text_buffer_length r; all_stop_token_ids := all_stop_token_ids r |}.
Definition set_prompt_logprobs (v : option CountArg) (r : SamplingParams) : SamplingParams :=
  {| sp_n := sp_n r; sp_best_of := sp_best_of r; sp_real_n := sp_real_n r; presence_penalty := presence_penalty r; frequency_penalty := frequency_penalty r; repetition_penalty := repetition_penalty r; temperature := temperature r; top_p := top_p r; top_k := top_k r; min_p := min_p r; seed := seed r; sp_stop := sp_stop r; stop_token_ids := stop_token_ids r; bad_words := bad_words r; ignore_eos := ignore_eos r; sp_max_tokens := sp_max_tokens r; min_tokens := min_tokens r; sp_logprobs := sp_logprobs r; prompt_logprobs := v; detokenize := detokenize r; skip_special_tokens := skip_special_tokens r; spaces_between_special_tokens := spaces_between_special_tokens r; include_stop_str_in_output := include_stop_str_in_output r; truncate_prompt_tokens := truncate_prompt_tokens r; output_kind := output_kind r; output_text_buffer_length := output_text_buffer_length r; all_stop_token_ids := all_stop_token_ids r |}.
Definition set_output_text_buffer_length (v : Z) (r : SamplingParams) : SamplingParams :=
  {| sp_n := sp_n r; sp_best_of := sp_best_of r; sp_real_n := sp_real_n r; presence_penalty := presence_penalty r; frequency_penalty := frequency_penalty r; repetition_penalty := repetition_penalty r; temperature := temperature r; top_p := top_p r; top_k := top_k r; min_p := min_p r; seed := seed r; sp_stop := sp_stop r; stop_token_ids := stop_token_ids r; bad_words := bad_words r; ignore_eos := ignore_eos r; sp_max_tokens := sp_max_tokens r; min_tokens := min_tokens r; sp_logprobs := sp_logprobs r; prompt_logprobs := prompt_logprobs r; detokenize := detokenize r; skip_special_tokens := skip_special_tokens r; spaces_between_special_tokens := spaces_between_special_tokens r; include_stop_str_in_output := include_stop_str_in_output r; truncate_prompt_tokens := truncate_prompt_tokens r; output_kind := output_kind r; output_text_buffer_length := v; all_stop_token_ids := all_stop_token_ids r |}.
Definition set_all_stop_token_ids (v : list Z) (r : SamplingParams) : SamplingParams :=
  {| sp_n := sp_n r; sp_best_of := sp_best_of r; sp_real_n := sp_real_n r; presence_penalty := presence_penalty r; frequency_penalty := frequency_penalty r; repetition_penalty := repetition_penalty r; temperature := temperature r; top_p := top_p r; top_k := top_k r; min_p := min_p r; seed := seed r; sp_stop := sp_stop r; stop_token_ids := stop_token_ids r; bad_words := bad_words r; ignore_eos := ignore_eos r; sp_max_tokens := sp_max_tokens r; min_tokens := min_tokens r; sp_logprobs := sp_logprobs r; prompt_logprobs := prompt_logprobs r; detokenize := detokenize r; skip_special_tokens := skip_special_tokens r; spaces_between_special_tokens := spaces_between_special_tokens r; include_stop_str_in_output := include_stop_str_in_output r; truncate_prompt_tokens := truncate_prompt_tokens r; output_kind := output_kind r; output_text_buffer_length := output_text_buffer_length r; all_stop_token_ids := v |}.

(** The defaults of the fields. *)
Definition default_sampling_params : SamplingParams :=
  {| sp_n := 1; sp_best_of := None; sp_real_n := None; presence_penalty := 0; frequency_penalty := 0;
     repetition_penalty := 1; temperature := 1; top_p := 1; top_k := -1; min_p := 0; seed := None;
     sp_stop := StopNone; stop_token_ids := None; bad_words := None; ignore_eos := false;
     sp_max_tokens := Some 16%Z; min_tokens := 0; sp_logprobs := None; prompt_logprobs := None;
     detokenize := true; skip_special_tokens := true; spaces_between_special_tokens := true;
     include_stop_str_in_output := false; truncate_prompt_tokens := None; output_kind := CUMULATIVE;
     output_text_buffer_length := 0; all_stop_token_ids := [] |}.

(** The binary64 values of [1e-5] and [1e-2]. *)
Definition SAMPLING_EPS : float := 0x1.4f8b588e368f1p-17%float.
Definition MAX_TEMP : float := 0x1.47ae147ae147bp-7%float.

Definition sampling_type (p : SamplingParams) : SamplingType :=
  if PrimFloat.ltb (temperature p) SAMPLING_EPS then GREEDY
  else match seed p with Some _ => RANDOM_SEED | None => RANDOM end.

(** [self.stop] once it has been normalised. *)
Definition stop_list (p : SamplingParams) : list string :=
  match sp_stop p with StopNone => [] | StopStr s => [s] | StopList l => l end.
Definition count_value (c : CountArg) : Z := match c with CountTrue => 1 | Count n => n end.
(** [a <= x <= b] and [a < x <= b] on floats *)
Definition within (a x b : float) : bool := PrimFloat.leb a x && PrimFloat.leb x b.
Definition within_open (a x b : float) : bool := PrimFloat.ltb a x && PrimFloat.leb x b.

(** [x is not None and f(x)] *)
Definition opt_test {A} (f : A → bool) (o : option A) : bool :=
  match o with Some x => f x | None => false end.

(** [_verify_args]: the conditions in order, each with its message; the first
    one that holds is raised. The [isinstance] tests hold by typing. *)
Definition arg_checks (p : SamplingParams) : list (bool * string) :=
  [((sp_n p <? 1)%Z, "n must be at least 1"%string);
   (negb (within (-2) (presence_penalty p) 2), "presence_penalty must be in [-2, 2]"%string);
   (negb (within (-2) (frequency_penalty p) 2), "frequency_penalty must be in [-2, 2]"%string);
   (negb (within_open 0 (repetition_penalty p) 2), "repetition_penalty must be in (0, 2]"%string);
   (PrimFloat.ltb (temperature p) 0, "temperature must be non-negative"%string);
   (negb (within_open 0 (top_p p) 1), "top_p must be in (0, 1]"%string);
   ((top_k p <? -1)%Z || (top_k p =? 0)%Z, "top_k must be -1 (disable), or at least 1"%string);
   (negb (within 0 (min_p p) 1), "min_p must be in [0, 1]"%string);
   (opt_test (λ m, (m <? 1)%Z) (sp_max_tokens p), "max_tokens must be at least 1"%string);
   ((min_tokens p <? 0)%Z, "min_tokens must be greater than or equal to 0"%string);
   (opt_test (λ m, (m <? min_tokens p)%Z) (sp_max_tokens p), "min_tokens must be less than or equal to max_tokens"%string);
   (opt_test (λ c, (count_value c <? 0)%Z) (sp_logprobs p), "logprobs must be non-negative"%string);
   (opt_test (λ c, (count_value c <? 0)%Z) (prompt_logprobs p), "prompt_logprobs must be non-negative"%string);
   (opt_test (λ n, (n <? 1)%Z) (truncate_prompt_tokens p), "truncate_prompt_tokens must be >= 1"%string);
   (existsb (λ s, bool_decide (s = EmptyString)) (stop_list p), "stop cannot contain an empty string"%string);
   (negb (bool_decide (stop_list p = [])) && negb (detokenize p),
      "stop strings are only supported when detokenize is True"%string);
   (negb (bool_decide (sp_best_of p = sp_real_n p)) && bool_decide (output_kind p = DELTA),
      "best_of must equal n to use output_kind=DELTA"%string)].
Definition verify_args (p : SamplingParams) : result unit :=
  match List.find fst (arg_checks p) with
  | Some (_, msg) => Raise (ValueError msg)
  | None => Ok tt
  end.

(** [best_of]: [n] becomes [best_of] and the original [n] is kept. Zero counts
    as not set. *)
Definition normalise_best_of (p : SamplingParams) : result SamplingParams :=
  match sp_best_of p with
  | None | Some 0%Z => Ok p
  | Some b =>
    if (b <? sp_n p)%Z then Raise (ValueError "best_of must be greater than or equal to n")
    else match sp_real_n p with
         | None | Some 0%Z => Ok (set_sp_n b (set_sp_real_n (Some (sp_n p)) p))
         | Some _ => Ok p
         end
  end.

Definition normalise_temperature (p : SamplingParams) : SamplingParams :=
  if PrimFloat.ltb 0 (temperature p) && PrimFloat.ltb (temperature p) MAX_TEMP
  then set_temperature MAX_TEMP p else p.
Definition normalise_lists (p : SamplingParams) : SamplingParams :=
  let p := set_seed (if bool_decide (seed p = Some (-1)%Z) then None else seed p) p in
  let p := set_sp_stop (StopList (stop_list p)) p in
  let p := set_stop_token_ids (Some (default [] (stop_token_ids p))) p in
  let p := set_bad_words (Some (default [] (bad_words p))) p in
  let p := set_sp_logprobs (Count ∘ count_value <$> sp_logprobs p) p in
  set_prompt_logprobs (Count ∘ count_value <$> prompt_logprobs p) p.
(** Characters held back for the evaluation of stop strings. *)
Definition hold_back (p : SamplingParams) : SamplingParams :=
  if negb (bool_decide (stop_list p = [])) && negb (include_stop_str_in_output p)
  then set_output_text_buffer_length
         (foldr (λ s m, Z.max (Z.of_nat (String.length s)) m) 0 (stop_list p) - 1)%Z p
  else p.
(** Zero temperature means greedy sampling. *)
Definition normalise_greedy (p : SamplingParams) : result SamplingParams :=
  if PrimFloat.ltb (temperature p) SAMPLING_EPS then
    let p := set_top_p 1 (set_top_k (-1) (set_min_p 0 p)) in
    if (1 <? sp_n p)%Z then Raise (ValueError "n must be 1 when using greedy sampling") else Ok p
  else Ok p.

Definition post_init (p : SamplingParams) : result SamplingParams :=
  p ← normalise_best_of p;
  let p := hold_back (normalise_lists (normalise_temperature p)) in
  _ ← verify_args p;
  p ← normalise_greedy p;
  mret (set_all_stop_token_ids (remove_dups (default [] (stop_token_ids p))) p).

(** * [update_from_generation_config] *)

(** [generation_config["eos_token_id"]]: one id or a list of ids *)
Inductive EosArg := EosId (id : Z) | EosIds (ids : list Z).
(** A set of token ids, as a list without repetitions. *)
Definition id_set_add (x : Z) (l : list Z) : list Z := if bool_decide (x ∈ l) then l else l ++ [x].
Definition id_set_update (l ids : list Z) : list Z := foldl (λ acc x, id_set_add x acc) l ids.

Definition update_from_generation_config (eos : option EosArg) (model_eos_token_id : option Z) (p : SamplingParams)
    : result SamplingParams :=
  let p := match model_eos_token_id with
           | Some e => set_all_stop_token_ids (id_set_add e (all_stop_token_ids p)) p
           | None => p
           end in
  match eos with
  | None => Ok p
  | Some eos =>
    let eos_ids := id_set_update [] (match eos with EosId i => [i] | EosIds l => l end) in
    let eos_ids := match model_eos_token_id with Some e => filter (λ x, x ≠ e) eos_ids | None => eos_ids end in
    if bool_decide (eos_ids = []) then Ok p
    else
      let p := set_all_stop_token_ids (id_set_update (all_stop_token_ids p) eos_ids) p in
      if ignore_eos p then Ok p
      else match stop_token_ids p with
           | None => Raise (TypeError "'NoneType' object is not iterable")
           | Some l => Ok (set_stop_token_ids (Some (id_set_update eos_ids l)) p)
           end
  end.

(** * Theorems *)

(** What [_verify_args] guarantees. *)
Record valid_args (p : SamplingParams) : Prop := {
  va_n : (1 ≤ sp_n p)%Z;
  va_penalties : within (-2) (presence_penalty p) 2 = true ∧ within (-2) (frequency_penalty p) 2 = true ∧
    within_open 0 (repetition_penalty p) 2 = true;
  va_temperature : PrimFloat.ltb (temperature p) 0 = false;
  va_top_p : within_open 0 (top_p p) 1 = true;
  va_top_k : (top_k p = -1 ∨ 1 ≤ top_k p)%Z;
  va_min_p : within 0 (min_p p) 1 = true;
  va_tokens : (0 ≤ min_tokens p)%Z ∧ ∀ m, sp_max_tokens p = Some m → (1 ≤ m ∧ min_tokens p ≤ m)%Z;
  va_logprobs : ∀ c, sp_logprobs p = Some c ∨ prompt_logprobs p = Some c → (0 ≤ count_value c)%Z;
  va_truncate : ∀ n, truncate_prompt_tokens p = Some n → (1 ≤ n)%Z;
  va_stop : ∀ s, s ∈ stop_list p → s ≠ EmptyString ∧ detokenize p = true;
  va_best_of : output_kind p = DELTA → sp_best_of p = sp_real_n p;
}.

Lemma find_none_false (l : list (bool * string)) : List.find fst l = None ↔ Forall (λ c, c.1 = false) l.
Proof.
  elim: l => [|[b m] l IH] /=; first by split; [constructor|].
  rw Forall_cons /=. destruct b; [split; [done|by move=> [? _]]|]. rw IH. tauto.
Qed.
Lemma opt_test_false {A} f (o : option A) : opt_test f o = false ↔ ∀ x, o = Some x → f x = false.
Proof. destruct o; split; [move=> H x [<-]; exact H|by move=> H; apply H|done|done]. Qed.
Lemma existsb_false {A} (f : A → bool) l : existsb f l = false ↔ ∀ x, x ∈ l → f x = false.
Proof.
  elim: l => [|y l IH] /=; first by split; [move=> _ x /elem_of_nil|].
  rw orb_false_iff IH. split.
  - move=> [H1 H2] x /elem_of_cons [-> //|]. apply H2.
  - move=> H. split; [apply H; by left|move=> x Hx; apply H; by right].
Qed.

Lemma verify_args_valid p : verify_args p = Ok tt ↔ valid_args p.
Proof.
  have Hv : verify_args p = Ok tt ↔ Forall (λ c, c.1 = false) (arg_checks p).
  { rw -find_none_false /verify_args. by destruct (List.find _ _) as [[? ?]|]. }
  rw Hv /arg_checks !Forall_cons Forall_nil /= !negb_false_iff !opt_test_false existsb_false. split.
  - move=> [C1 [C2 [C3 [C4 [C5 [C6 [C7 [C8 [C9 [C10 [C11 [C12 [C13 [C14 [C15 [C16 [C17 _]]]]]]]]]]]]]]]]].
    split; [lia|done|done|done|lia|done| | | | |].
    + split; [lia|]. move=> m Hm. have := C9 m Hm. have := C11 m Hm. lia.
    + move=> c [Hc|Hc]; [have := C12 c Hc|have := C13 c Hc]; lia.
    + move=> n Hn. have := C14 n Hn. lia.
    + move=> s Hs. have := C15 s Hs. rw bool_decide_eq_false => Hne. split; first done.
      destruct (detokenize p); first done. rw andb_true_r negb_false_iff bool_decide_eq_true in C16.
      rw C16 in Hs. by apply elem_of_nil in Hs.
    + move=> Hk. by rw (bool_decide_eq_true_2 _ Hk) andb_true_r negb_false_iff bool_decide_eq_true in C17.
  - move=> [D1 [D2 [D3 D4]] D5 D6 D7 D8 [D9 D10] D11 D12 D13 D14].
    split_and!; try done; try lia.
    + move=> m Hm. destruct (D10 m Hm). lia.
    + move=> m Hm. destruct (D10 m Hm). lia.
    + move=> c Hc. have := D11 c (or_introl Hc). lia.
    + move=> c Hc. have := D11 c (or_intror Hc). lia.
    + move=> n Hn. have := D12 n Hn. lia.
    + move=> s Hs. destruct (D13 s Hs). by rw bool_decide_eq_false_2.
    + destruct (stop_list p) as [|s l] eqn:E; first done.
      destruct (D13 s) as [_ ->]; [by left|by rw andb_false_r].
    + destruct (decide (output_kind p = DELTA)) as [Hk|Hk]; [|by rw (bool_decide_eq_false_2 _ Hk) andb_false_r].
      by rw (bool_decide_eq_true_2 _ (D14 Hk)).
Qed.

(** The phases of [__post_init__] on a successful run. *)
Lemma post_init_inv p q :
  post_init p = Ok q →
  ∃ p1 p2, normalise_best_of p = Ok p1 ∧
    verify_args (hold_back (normalise_lists (normalise_temperature p1))) = Ok tt ∧
    normalise_greedy (hold_back (normalise_lists (normalise_temperature p1))) = Ok p2 ∧
    q = set_all_stop_token_ids (remove_dups (default [] (stop_token_ids p2))) p2.
Proof.
  rw /post_init /mbind /result_bind. destruct (normalise_best_of p) as [p1|]; last done.
  destruct (verify_args _) as [[]|] eqn:Hv; last done.
  destruct (normalise_greedy _) as [p2|] eqn:Hg; last done. move=> [<-]. by exists p1, p2.
Qed.
Lemma max_length_ge s l :
  s ∈ l → (Z.of_nat (String.length s) ≤ foldr (λ s m, Z.max (Z.of_nat (String.length s)) m) 0 l)%Z.
Proof. elim: l => [|x l IH]; first by move=> /elem_of_nil. move=> /elem_of_cons [-> | /IH] /=; lia. Qed.

(** What the normalised parameters have before and after the greedy phase. *)
Definition holds_enough (p : SamplingParams) : Prop :=
  include_stop_str_in_output p = false →
  ∀ s, s ∈ stop_list p → (Z.of_nat (String.length s) ≤ output_text_buffer_length p + 1)%Z.
Lemma hold_back_enough p : holds_enough (hold_back p).
Proof.
  rw /holds_enough /hold_back. case_match eqn:Hc; simpl; move=> Hi s Hs.
  - have := max_length_ge _ _ Hs. rw /stop_list /=. lia.
  - exfalso. move: Hc. rw Hi andb_true_r negb_false_iff bool_decide_eq_true => Hn.
    rw Hn in Hs. by apply elem_of_nil in Hs.
Qed.
Lemma hold_back_stop_token_ids p : stop_token_ids (hold_back p) = stop_token_ids p.
Proof. rw /hold_back. by case_match. Qed.
Lemma greedy_normal h p :
  valid_args h → normalise_greedy h = Ok p →
  valid_args p ∧
  (sampling_type p = GREEDY → sp_n p = 1%Z ∧ top_p p = 1%float ∧ top_k p = (-1)%Z ∧ min_p p = 0%float) ∧
  stop_token_ids p = stop_token_ids h ∧ (holds_enough h → holds_enough p).
Proof.
  move=> [D1 D2 D3 D4 D5 D6 D7 D8 D9 D10 D11]. rw /normalise_greedy.
  destruct (PrimFloat.ltb (temperature h) SAMPLING_EPS) eqn:Ht.
  - destruct (Z.ltb_spec 1 (sp_n (set_top_p 1 (set_top_k (-1) (set_min_p 0 h))))) as [?|Hn]; first done.
    move=> [<-]. simpl in Hn. split_and!; [| |done|by destruct h].
    + split; try done. by left.
    + move=> _. split_and!; [simpl; lia|done|done|done].
  - move=> [<-]. split_and!; [by split| |done|done]. rw /sampling_type Ht. by destruct (seed h).
Qed.

(** What a successful construction of sampling parameters guarantees: every
    documented range, the greedy normal form at zero temperature, and enough
    characters held back to recognise every stop string. *)
Theorem sampling_params_validated p q :
  post_init p = Ok q →
  valid_args q ∧
  (sampling_type q = GREEDY → sp_n q = 1%Z ∧ top_p q = 1%float ∧ top_k q = (-1)%Z ∧ min_p q = 0%float) ∧
  (∃ l, stop_token_ids q = Some l ∧ all_stop_token_ids q = remove_dups l) ∧
  (include_stop_str_in_output q = false →
     ∀ s, s ∈ stop_list q → (Z.of_nat (String.length s) ≤ output_text_buffer_length q + 1)%Z).
Proof.
  move=> /post_init_inv [p1 [p2 [_ [Hv [Hg ->]]]]]. apply verify_args_valid in Hv.
  destruct (greedy_normal _ _ Hv Hg) as (H1 & H2 & H3 & H4).
  have {H4} := H4 (hold_back_enough _). rw hold_back_stop_token_ids in H3. clear Hv Hg.
  destruct p2. simpl in *. subst. move=> H4. split_and!; [by destruct H1; split|exact H2|by eexists|exact H4].
Qed.
Definition demo_stop_params : SamplingParams := set_sp_stop (StopStr "END") (set_temperature 0 default_sampling_params).
Lemma sampling_params_validated_witness :
  ∃ q, post_init demo_stop_params = Ok q ∧ sampling_type q = GREEDY ∧ output_text_buffer_length q = 2%Z ∧
    valid_args q.
Proof.
  eexists. split; [vm_compute; reflexivity|]. split; [vm_compute; reflexivity|]. split; [vm_compute; reflexivity|].
  apply (sampling_params_validated demo_stop_params). vm_compute; reflexivity.
Defined.

(** The check of [n] is bypassed by [best_of]: [n] is replaced by [best_of]
    before it is validated, so a negative number of sequences is accepted and
    kept as the number of results to return. *)
Theorem best_of_hides_invalid_n :
  ∃ p q, sp_n p = (-5)%Z ∧ post_init p = Ok q ∧ sp_real_n q = Some (-5)%Z ∧ sp_n q = 1%Z.
Proof.
  exists {| sp_n := -5; sp_best_of := Some 1%Z; sp_real_n := None; presence_penalty := 0; frequency_penalty := 0;
     repetition_penalty := 1; temperature := 1; top_p := 1; top_k := -1; min_p := 0; seed := None;
     sp_stop := StopNone; stop_token_ids := None; bad_words := None; ignore_eos := false;
     sp_max_tokens := Some 16%Z; min_tokens := 0; sp_logprobs := None; prompt_logprobs := None;
     detokenize := true; skip_special_tokens := true; spaces_between_special_tokens := true;
     include_stop_str_in_output := false; truncate_prompt_tokens := None; output_kind := CUMULATIVE;
     output_text_buffer_length := 0; all_stop_token_ids := [] |}.
  eexists. vm_compute. split_and!; reflexivity.
Qed.

(** * Stop tokens and [min_tokens] *)
Lemma elem_of_id_set_add x y l : x ∈ id_set_add y l ↔ x = y ∨ x ∈ l.
Proof.
  rw /id_set_add. case_bool_decide; [split; [by right|by move=> [->|]]|].
  rw elem_of_app list_elem_of_singleton. tauto.
Qed.
Lemma elem_of_id_set_update x ids : ∀ l, x ∈ id_set_update l ids ↔ x ∈ l ∨ x ∈ ids.
Proof.
  rw /id_set_update. elim: ids => [|y ids IH] l /=; first by rw elem_of_nil; tauto.
  rw IH elem_of_id_set_add elem_of_cons. tauto.
Qed.

(** The token ids that may end a request are all known to the penalty of
    [min_tokens]. *)
Definition stops_suppressed (p : SamplingParams) : Prop :=
  ∃ l, stop_token_ids p = Some l ∧ ∀ t, t ∈ l → t ∈ all_stop_token_ids p.

Lemma post_init_suppressed p q : post_init p = Ok q → stops_suppressed q.
Proof.
  move=> /post_init_inv [p1 [p2 [_ [Hv [Hg ->]]]]]. apply verify_args_valid in Hv.
  destruct (greedy_normal _ _ Hv Hg) as (_ & _ & H3 & _). rw hold_back_stop_token_ids in H3. clear Hv Hg.
  destruct p2. simpl in *. subst. eexists. split; first done. move=> t Ht /=. by apply elem_of_remove_dups.
Qed.
Lemma add_all_suppressed ids p : stops_suppressed p →
  stops_suppressed (set_all_stop_token_ids (id_set_update (all_stop_token_ids p) ids) p).
Proof.
  destruct p. move=> [l [Hl Hs]]. exists l. split; first done. simpl in *. move=> t Ht.
  apply elem_of_id_set_update. by left; apply Hs.
Qed.
Lemma add_stops_suppressed ids p l : stop_token_ids p = Some l → (∀ t, t ∈ l → t ∈ all_stop_token_ids p) →
  (∀ t, t ∈ ids → t ∈ all_stop_token_ids p) →
  stops_suppressed (set_stop_token_ids (Some (id_set_update ids l)) p).
Proof.
  destruct p. simpl. move=> _ Hs Hi. eexists. split; first done. move=> t. simpl.
  rw elem_of_id_set_update. naive_solver.
Qed.

(** After construction and after the engine has merged the model's
    generation config, every token id that can end the request is in
    [_all_stop_token_ids], the set that [min_tokens] suppresses, and so is the
    model's end-of-sequence token; the merge raises on no input that
    construction accepted. *)
Theorem stop_ids_suppressed p p1 eos model_eos :
  post_init p = Ok p1 →
  ∃ p2, update_from_generation_config eos model_eos p1 = Ok p2 ∧ stops_suppressed p2 ∧
    (∀ e, model_eos = Some e → e ∈ all_stop_token_ids p2) ∧
    (ignore_eos p1 = false → ∀ i, eos = Some (EosId i) → model_eos ≠ Some i →
       ∃ l, stop_token_ids p2 = Some l ∧ i ∈ l).
Proof.
  move=> /post_init_suppressed Hp. rw /update_from_generation_config.
  set q := match model_eos with Some _ => _ | None => _ end.
  have [Hq [He Hig]] : stops_suppressed q ∧ (∀ e, model_eos = Some e → e ∈ all_stop_token_ids q) ∧
    ignore_eos q = ignore_eos p1.
  { rw /q. destruct model_eos as [e|]; last done. split; last split; last done.
    - exact (add_all_suppressed [e] _ Hp).
    - move=> ? [= <-]. apply elem_of_id_set_add. by left. }
  rw -Hig. move: q Hq He {Hp Hig} => q Hq He.
  destruct eos as [eos|]; last by exists q.
  set ids := match model_eos with Some _ => _ | None => _ end.
  have Hids : ∀ i, eos = EosId i → model_eos ≠ Some i → i ∈ ids.
  { move=> i Ei Hne. rw /ids Ei. destruct model_eos as [e|]; last by left.
    apply list_elem_of_filter. split; [congruence|by left]. }
  move: ids Hids => ids Hids. case_bool_decide as Hnil.
  { exists q. split_and!; [done..|]. move=> _ i [= /Hids Hi] /Hi. rw Hnil. by move=> /elem_of_nil. }
  set r := set_all_stop_token_ids _ q.
  have Hr : stops_suppressed r by apply add_all_suppressed.
  have Hall : ∀ t, t ∈ all_stop_token_ids q ∨ t ∈ ids → t ∈ all_stop_token_ids r.
  { move=> t Ht. rw /r. by destruct q; apply elem_of_id_set_update. }
  have Hig : ignore_eos r = ignore_eos q by [].
  rw -Hig. move: r Hr Hall {Hig Hq} => r [l [Hl Hs]] Hall.
  destruct (ignore_eos r) eqn:Eig.
  { exists r. split_and!; [done|by exists l|naive_solver|done]. }
  rw Hl. eexists. split; first done. split; first by apply add_stops_suppressed; naive_solver.
  split; first by destruct r; naive_solver.
  move=> _ i [= Hi] Hne. eexists. split; first by destruct r. apply elem_of_id_set_update. left. by apply Hids.
Qed.
(** The merge touches nothing but the stop ids. *)
Definition only_stops (p q : SamplingParams) : Prop := ∃ a b, q = set_stop_token_ids a (set_all_stop_token_ids b p).
Lemma only_stops_refl p : only_stops p p.
Proof. exists (stop_token_ids p), (all_stop_token_ids p). by destruct p. Qed.
Lemma only_stops_all b p q : only_stops p q → only_stops p (set_all_stop_token_ids b q).
Proof. move=> [a [b' ->]]. exists a, b. by destruct p. Qed.
Lemma only_stops_ids a p q : only_stops p q → only_stops p (set_stop_token_ids a q).
Proof. move=> [a' [b ->]]. exists a, b. by destruct p. Qed.
#[local] Hint Resolve only_stops_refl only_stops_all only_stops_ids : core.

Lemma update_only_stops eos model_eos p q : update_from_generation_config eos model_eos p = Ok q → only_stops p q.
Proof.
  rw /update_from_generation_config. set p1 := match model_eos with Some _ => _ | None => _ end.
  have H1 : only_stops p p1 by rw /p1; destruct model_eos; auto.
  move: p1 H1 => p1 H1. destruct eos as [eos|]; last by move=> [<-].
  set ids := match model_eos with Some _ => _ | None => _ end. move: ids => ids.
  case_bool_decide; first by move=> [<-].
  set p2 := set_all_stop_token_ids _ p1. have H2 : only_stops p p2 by apply only_stops_all. move: p2 H2 => p2 H2.
  destruct (ignore_eos p2); first by move=> [<-].
  destruct (stop_token_ids p2); last done. move=> [<-]. by apply only_stops_ids.
Qed.
Lemma only_stops_valid p q : only_stops p q → valid_args p → valid_args q.
Proof. move=> [a [b ->]]. destruct p. move=> [? ? ? ? ? ? ? ? ? ? ?]. by split. Qed.
Lemma post_init_valid p q : post_init p = Ok q → valid_args q.
Proof.
  move=> /post_init_inv [p1 [p2 [_ [Hv [Hg ->]]]]]. apply verify_args_valid in Hv.
  destruct (greedy_normal _ _ Hv Hg) as (H1 & _). clear Hv Hg. destruct p2. destruct H1. by split.
Qed.
Lemma stop_ids_suppressed_witness :
  ∃ p1 p2, post_init demo_stop_params = Ok p1 ∧
    update_from_generation_config (Some (EosId 7)) (Some 2%Z) p1 = Ok p2 ∧ stops_suppressed p2 ∧
    ∃ l, stop_token_ids p2 = Some l ∧ 7%Z ∈ l.
Proof.
  destruct (post_init demo_stop_params) as [p1|e] eqn:E; last by vm_compute in E.
  destruct (stop_ids_suppressed demo_stop_params p1 (Some (EosId 7)) (Some 2%Z) E) as (p2 & H1 & H2 & _ & H4).
  exists p1, p2. split; first reflexivity. split; first exact H1. split; first exact H2.
  apply (H4 ltac:(vm_compute in E; injection E as <-; reflexivity) 7%Z); [reflexivity|done].
Defined.
