(* ===== verification/KVCacheBlock.v ===== *)
(** KV-cache blocks: vllm/v1/core/kv_cache_utils.py, the enum
    [KVCacheBlockStatus], the key type [BlockHashType] and the metadata record
    [KVCacheBlock] with its methods.

    A block object is named by its index in the pool that created it (the
    manager keeps one pool of GPU blocks and one of CPU blocks), so the Python
    references [prev_free_block], [next_free_block] (same pool) and
    [mapped_cpu_block] (CPU pool) are optional indices. *)
From Stdlib Require Import ssreflect ZArith Lia.
From stdpp Require Import base numbers list strings.
From S2P Require Import Prelude.

(** * Status *)
Inductive KVCacheBlockStatus :=
  | FREE | FULL_CLEAN | FULL_DIRTY | FULL_SWAPPED
  | HALF_CLEAN | HALF_DIRTY | HALF_SWAPPED | EMPTY.

#[export] Instance status_eq_dec : EqDecision KVCacheBlockStatus.
Proof. solve_decision. Defined.

(** * Block hash keys *)

(** The key of the prefix cache: the chained hash value, the tokens of the
    block and the multi-modal keys [(mm_hash, start_offset)]. *)
Record BlockHashType := {
  hash_value : Z;
  token_ids : list Z;
  extra_keys : option (list (string * Z));
}.

#[export] Instance BlockHashType_eq_dec : EqDecision BlockHashType.
Proof. solve_decision. Defined.

(** * Block metadata *)
Record KVCacheBlock := {
  block_id : nat;
  ref_cnt : Z;
  block_hash : option BlockHashType;
  prev_free_block : option nat;
  next_free_block : option nat;
  status : KVCacheBlockStatus;
  mapped_cpu_block : option nat;
}.

#[export] Instance KVCacheBlock_inhabited : Inhabited KVCacheBlock :=
  populate {| block_id := 0; ref_cnt := 0; block_hash := None;
              prev_free_block := None; next_free_block := None;
              status := FREE; mapped_cpu_block := None |}.

(** [KVCacheBlock(idx)] with the dataclass defaults. *)
Definition new_block (idx : nat) : KVCacheBlock :=
  {| block_id := idx; ref_cnt := 0; block_hash := None;
     prev_free_block := None; next_free_block := None;
     status := FREE; mapped_cpu_block := None |}.

(** Attribute stores. *)
Definition set_ref_cnt (v : Z) (r : KVCacheBlock) : KVCacheBlock :=
  {| block_id := block_id r; ref_cnt := v; block_hash := block_hash r; prev_free_block := prev_free_block r; next_free_block := next_free_block r; status := status r; mapped_cpu_block := mapped_cpu_block r |}.
Definition set_block_hash (v : option BlockHashType) (r : KVCacheBlock) : KVCacheBlock :=
  {| block_id := block_id r; ref_cnt := ref_cnt r; block_hash := v; prev_free_block := prev_free_block r; next_free_block := next_free_block r; status := status r; mapped_cpu_block := mapped_cpu_block r |}.
Definition set_prev_free_block (v : option nat) (r : KVCacheBlock) : KVCacheBlock :=
  {| block_id := block_id r; ref_cnt := ref_cnt r; block_hash := block_hash r; prev_free_block := v; next_free_block := next_free_block r; status := status r; mapped_cpu_block := mapped_cpu_block r |}.
Definition set_next_free_block (v : option nat) (r : KVCacheBlock) : KVCacheBlock :=
  {| block_id := block_id r; ref_cnt := ref_cnt r; block_hash := block_hash r; prev_free_block := prev_free_block r; next_free_block := v; status := status r; mapped_cpu_block := mapped_cpu_block r |}.
Definition set_status (v : KVCacheBlockStatus) (r : KVCacheBlock) : KVCacheBlock :=
  {| block_id := block_id r; ref_cnt := ref_cnt r; block_hash := block_hash r; prev_free_block := prev_free_block r; next_free_block := next_free_block r; status := v; mapped_cpu_block := mapped_cpu_block r |}.
Definition set_mapped_cpu_block (v : option nat) (r : KVCacheBlock) : KVCacheBlock :=
  {| block_id := block_id r; ref_cnt := ref_cnt r; block_hash := block_hash r; prev_free_block := prev_free_block r; next_free_block := next_free_block r; status := status r; mapped_cpu_block := v |}.

(** * Status predicates and transitions *)
Definition is_clean (b : KVCacheBlock) : bool :=
  bool_decide (status b = FULL_CLEAN) || bool_decide (status b = HALF_CLEAN).
Definition is_dirty (b : KVCacheBlock) : bool :=
  bool_decide (status b = FULL_DIRTY) || bool_decide (status b = HALF_DIRTY).
Definition is_swapped (b : KVCacheBlock) : bool :=
  bool_decide (status b = FULL_SWAPPED) || bool_decide (status b = HALF_SWAPPED).
Definition is_full (b : KVCacheBlock) : bool :=
  bool_decide (status b = FULL_CLEAN) || bool_decide (status b = FULL_DIRTY)
  || bool_decide (status b = FULL_SWAPPED).
Definition is_free (b : KVCacheBlock) : bool := bool_decide (status b = FREE).
Definition is_half (b : KVCacheBlock) : bool :=
  bool_decide (status b = HALF_CLEAN) || bool_decide (status b = HALF_DIRTY)
  || bool_decide (status b = HALF_SWAPPED).
Definition is_used (b : KVCacheBlock) : bool := is_full b || is_half b.

Definition mark_free (b : KVCacheBlock) : KVCacheBlock := set_status FREE b.
Definition mark_empty (b : KVCacheBlock) : KVCacheBlock := set_status EMPTY b.

Definition mark_clean (b : KVCacheBlock) : result KVCacheBlock :=
  if is_full b then Ok (set_status FULL_CLEAN b)
  else if is_half b then Ok (set_status HALF_CLEAN b)
  else Raise (ValueError "Invalid status").

Definition mark_swapped (b : KVCacheBlock) : result KVCacheBlock :=
  if is_full b then Ok (set_status FULL_SWAPPED b)
  else if is_half b then Ok (set_status HALF_SWAPPED b)
  else Raise (ValueError "Invalid status").

(** [assert clean + dirty + swapped == 1] *)
Definition exactly_one (clean dirty swapped : bool) : bool :=
  (Z.b2z clean + Z.b2z dirty + Z.b2z swapped =? 1)%Z.

Definition mark_full (clean dirty swapped : bool) (b : KVCacheBlock) : result KVCacheBlock :=
  if negb (exactly_one clean dirty swapped) then Raise (AssertionError "mark_full")
  else if clean then Ok (set_status FULL_CLEAN b)
  else if dirty then Ok (set_status FULL_DIRTY b)
  else if swapped then Ok (set_status FULL_SWAPPED b)
  else Raise (ValueError "Invalid status").

Definition mark_half (clean dirty swapped : bool) (b : KVCacheBlock) : result KVCacheBlock :=
  if negb (exactly_one clean dirty swapped) then Raise (AssertionError "mark_half")
  else if clean then Ok (set_status HALF_CLEAN b)
  else if dirty then Ok (set_status HALF_DIRTY b)
  else if swapped then Ok (set_status HALF_SWAPPED b)
  else Raise (ValueError "Invalid status").

(** The [block_hash] property setter refuses to overwrite a hash. *)
Definition block_hash_setter (h : BlockHashType) (b : KVCacheBlock) : result KVCacheBlock :=
  if bool_decide (block_hash b = None) then Ok (set_block_hash (Some h) b)
  else Raise (AssertionError "The block already has a hash. This should not happen.").
Definition reset_hash (b : KVCacheBlock) : KVCacheBlock := set_block_hash None b.

(** The statuses partition: a block is free, empty, or used; used blocks are
    full or half, and clean, dirty or swapped, each in exactly one way. *)
Lemma status_partition b :
  (Z.b2z (is_free b) + Z.b2z (bool_decide (status b = EMPTY))
   + Z.b2z (is_full b) + Z.b2z (is_half b) = 1)%Z ∧
  (Z.b2z (is_clean b) + Z.b2z (is_dirty b) + Z.b2z (is_swapped b) = Z.b2z (is_used b))%Z.
Proof. destruct b as [? ? ? ? ? [] ?]; done. Qed.

(** [mark_clean] succeeds exactly on used blocks, keeps full/half and leaves a
    clean block; [mark_swapped] likewise. *)
Lemma mark_clean_spec b :
  match mark_clean b with
  | Ok b' => is_used b = true ∧ is_clean b' = true ∧ is_full b' = is_full b
             ∧ is_half b' = is_half b ∧ ∃ st, b' = set_status st b
  | Raise e => is_used b = false
  end.
Proof. destruct b as [? ? ? ? ? [] ?]; rw /mark_clean /=; eauto 8. Qed.
Lemma mark_swapped_spec b :
  match mark_swapped b with
  | Ok b' => is_used b = true ∧ is_swapped b' = true ∧ is_full b' = is_full b
             ∧ is_half b' = is_half b ∧ ∃ st, b' = set_status st b
  | Raise e => is_used b = false
  end.
Proof. destruct b as [? ? ? ? ? [] ?]; rw /mark_swapped /=; eauto 8. Qed.
