(* ===== verification/Request.v ===== *)
(** Requests: vllm/v1/request.py (class [Request], [RequestStatus] and the
    [RequestLookaheadContextManager]) and the request message of
    vllm/v1/engine/__init__.py.

    Attributes that no modelled code reads are left out: [metrics], the raw
    [inputs] adapter and [lora_request] (the scheduler asserts that LoRA is
    off).  Clock readings ([time.time()]) are integers: the code only stores
    and compares them. *)
From Stdlib Require Import ssreflect ZArith Lia.
From stdpp Require Import base numbers list strings.
From S2P Require Import Prelude SamplingParams KVCacheBlock.

(** * Data *)
Inductive RequestStatus :=
  | WAITING | RUNNING | PREEMPTED | SWAPPED
  | FINISHED_STOPPED | FINISHED_LENGTH_CAPPED | FINISHED_ABORTED | FINISHED_IGNORED.

#[export] Instance RequestStatus_eq_dec : EqDecision RequestStatus.
Proof. solve_decision. Defined.

(** The value of the [IntEnum] member. *)
Definition status_value (s : RequestStatus) : Z :=
  match s with
  | WAITING => 0 | RUNNING => 1 | PREEMPTED => 2 | SWAPPED => 3
  | FINISHED_STOPPED => 4 | FINISHED_LENGTH_CAPPED => 5
  | FINISHED_ABORTED => 6 | FINISHED_IGNORED => 7
  end.

Definition status_is_finished (s : RequestStatus) : bool :=
  (status_value SWAPPED <? status_value s)%Z.

Definition get_finished_reason (s : RequestStatus) : option string :=
  match s with
  | FINISHED_STOPPED => Some "stop"
  | FINISHED_LENGTH_CAPPED => Some "length"
  | FINISHED_ABORTED => Some "abort"
  | FINISHED_IGNORED => Some "length"
  | _ => None
  end%string.

(** A multi-modal placeholder [{"offset": ..., "length": ...}]. *)
Record PlaceholderRange := { pr_offset : Z; pr_length : Z }.

(** Pre-processed multi-modal data; only its presence matters here, so a
    value is an opaque handle. *)
Record MultiModalKwargs := { mmk_handle : Z }.

(** [EngineCoreRequest] *)
Record EngineCoreRequest := {
  ecr_request_id : string;
  ecr_prompt : option string;
  ecr_prompt_token_ids : list Z;
  ecr_mm_inputs : option (list (option MultiModalKwargs));
  ecr_mm_hashes : option (list string);
  ecr_mm_placeholders : option (dict string (list PlaceholderRange));
  ecr_sampling_params : SamplingParams;
  ecr_eos_token_id : option Z;
  ecr_arrival_time : Z;
}.

Record Request := {
  request_id : string;
  sampling_params : SamplingParams;
  eos_token_id : option Z;
  request_status : RequestStatus;
  stop_reason : option Z;
  max_tokens : Z;
  lookahead : bool;
  prompt : option string;
  prompt_token_ids : list Z;
  num_prompt_tokens : Z;
  output_token_ids : list Z;
  all_token_ids : list Z;
  num_computed_tokens : Z;
  num_cached_tokens : Z;
  num_tokens_next : Z;
  num_computed_tokens_next : Z;
  in_running_since : option Z;
  in_waiting_since : option Z;
  mm_positions : list PlaceholderRange;
  mm_inputs : list (option MultiModalKwargs);
  mm_hashes : list string;
  kv_block_hashes : list BlockHashType;
}.

(** Attribute stores. *)
Definition set_request_status (v : RequestStatus) (r : Request) : Request :=
  {| request_id := request_id r; sampling_params := sampling_params r; eos_token_id := eos_token_id r; request_status := v; stop_reason := stop_reason r; max_tokens := max_tokens r; lookahead := lookahead r; prompt := prompt r; prompt_token_ids := prompt_token_ids r; num_prompt_tokens := num_prompt_tokens r; output_token_ids := output_token_ids r; all_token_ids := all_token_ids r; num_computed_tokens := num_computed_tokens r; num_cached_tokens := num_cached_tokens r; num_tokens_next := num_tokens_next r; num_computed_tokens_next := num_computed_tokens_next r; in_running_since := in_running_since r; in_waiting_since := in_waiting_since r; mm_positions := mm_positions r; mm_inputs := mm_inputs r; mm_hashes := mm_hashes r; kv_block_hashes := kv_block_hashes r |}.
Definition set_stop_reason (v : option Z) (r : Request) : Request :=
  {| request_id := request_id r; sampling_params := sampling_params r; eos_token_id := eos_token_id r; request_status := request_status r; stop_reason := v; max_tokens := max_tokens r; lookahead := lookahead r; prompt := prompt r; prompt_token_ids := prompt_token_ids r; num_prompt_tokens := num_prompt_tokens r; output_token_ids := output_token_ids r; all_token_ids := all_token_ids r; num_computed_tokens := num_computed_tokens r; num_cached_tokens := num_cached_tokens r; num_tokens_next := num_tokens_next r; num_computed_tokens_next := num_computed_tokens_next r; in_running_since := in_running_since r; in_waiting_since := in_waiting_since r; mm_positions := mm_positions r; mm_inputs := mm_inputs r; mm_hashes := mm_hashes r; kv_block_hashes := kv_block_hashes r |}.
Definition set_lookahead (v : bool) (r : Request) : Request :=
  {| request_id := request_id r; sampling_params := sampling_params r; eos_token_id := eos_token_id r; request_status := request_status r; stop_reason := stop_reason r; max_tokens := max_tokens r; lookahead := v; prompt := prompt r; prompt_token_ids := prompt_token_ids r; num_prompt_tokens := num_prompt_tokens r; output_token_ids := output_token_ids r; all_token_ids := all_token_ids r; num_computed_tokens := num_computed_tokens r; num_cached_tokens := num_cached_tokens r; num_tokens_next := num_tokens_next r; num_computed_tokens_next := num_computed_tokens_next r; in_running_since := in_running_since r; in_waiting_since := in_waiting_since r; mm_positions := mm_positions r; mm_inputs := mm_inputs r; mm_hashes := mm_hashes r; kv_block_hashes := kv_block_hashes r |}.
Definition set_output_token_ids (v : list Z) (r : Request) : Request :=
  {| request_id := request_id r; sampling_params := sampling_params r; eos_token_id := eos_token_id r; request_status := request_status r; stop_reason := stop_reason r; max_tokens := max_tokens r; lookahead := lookahead r; prompt := prompt r; prompt_token_ids := prompt_token_ids r; num_prompt_tokens := num_prompt_tokens r; output_token_ids := v; all_token_ids := all_token_ids r; num_computed_tokens := num_computed_tokens r; num_cached_tokens := num_cached_tokens r; num_tokens_next := num_tokens_next r; num_computed_tokens_next := num_computed_tokens_next r; in_running_since := in_running_since r; in_waiting_since := in_waiting_since r; mm_positions := mm_positions r; mm_inputs := mm_inputs r; mm_hashes := mm_hashes r; kv_block_hashes := kv_block_hashes r |}.
Definition set_all_token_ids (v : list Z) (r : Request) : Request :=
  {| request_id := request_id r; sampling_params := sampling_params r; eos_token_id := eos_token_id r; request_status := request_status r; stop_reason := stop_reason r; max_tokens := max_tokens r; lookahead := lookahead r; prompt := prompt r; prompt_token_ids := prompt_token_ids r; num_prompt_tokens := num_prompt_tokens r; output_token_ids := output_token_ids r; all_token_ids := v; num_computed_tokens := num_computed_tokens r; num_cached_tokens := num_cached_tokens r; num_tokens_next := num_tokens_next r; num_computed_tokens_next := num_computed_tokens_next r; in_running_since := in_running_since r; in_waiting_since := in_waiting_since r; mm_positions := mm_positions r; mm_inputs := mm_inputs r; mm_hashes := mm_hashes r; kv_block_hashes := kv_block_hashes r |}.
Definition set_num_computed_tokens (v : Z) (r : Request) : Request :=
  {| request_id := request_id r; sampling_params := sampling_params r; eos_token_id := eos_token_id r; request_status := request_status r; stop_reason := stop_reason r; max_tokens := max_tokens r; lookahead := lookahead r; prompt := prompt r; prompt_token_ids := prompt_token_ids r; num_prompt_tokens := num_prompt_tokens r; output_token_ids := output_token_ids r; all_token_ids := all_token_ids r; num_computed_tokens := v; num_cached_tokens := num_cached_tokens r; num_tokens_next := num_tokens_next r; num_computed_tokens_next := num_computed_tokens_next r; in_running_since := in_running_since r; in_waiting_since := in_waiting_since r; mm_positions := mm_positions r; mm_inputs := mm_inputs r; mm_hashes := mm_hashes r; kv_block_hashes := kv_block_hashes r |}.
Definition set_num_cached_tokens (v : Z) (r : Request) : Request :=
  {| request_id := request_id r; sampling_params := sampling_params r; eos_token_id := eos_token_id r; request_status := request_status r; stop_reason := stop_reason r; max_tokens := max_tokens r; lookahead := lookahead r; prompt := prompt r; prompt_token_ids := prompt_token_ids r; num_prompt_tokens := num_prompt_tokens r; output_token_ids := output_token_ids r; all_token_ids := all_token_ids r; num_computed_tokens := num_computed_tokens r; num_cached_tokens := v; num_tokens_next := num_tokens_next r; num_computed_tokens_next := num_computed_tokens_next r; in_running_since := in_running_since r; in_waiting_since := in_waiting_since r; mm_positions := mm_positions r; mm_inputs := mm_inputs r; mm_hashes := mm_hashes r; kv_block_hashes := kv_block_hashes r |}.
Definition set_num_tokens_next (v : Z) (r : Request) : Request :=
  {| request_id := request_id r; sampling_params := sampling_params r; eos_token_id := eos_token_id r; request_status := request_status r; stop_reason := stop_reason r; max_tokens := max_tokens r; lookahead := lookahead r; prompt := prompt r; prompt_token_ids := prompt_token_ids r; num_prompt_tokens := num_prompt_tokens r; output_token_ids := output_token_ids r; all_token_ids := all_token_ids r; num_computed_tokens := num_computed_tokens r; num_cached_tokens := num_cached_tokens r; num_tokens_next := v; num_computed_tokens_next := num_computed_tokens_next r; in_running_since := in_running_since r; in_waiting_since := in_waiting_since r; mm_positions := mm_positions r; mm_inputs := mm_inputs r; mm_hashes := mm_hashes r; kv_block_hashes := kv_block_hashes r |}.
Definition set_num_computed_tokens_next (v : Z) (r : Request) : Request :=
  {| request_id := request_id r; sampling_params := sampling_params r; eos_token_id := eos_token_id r; request_status := request_status r; stop_reason := stop_reason r; max_tokens := max_tokens r; lookahead := lookahead r; prompt := prompt r; prompt_token_ids := prompt_token_ids r; num_prompt_tokens := num_prompt_tokens r; output_token_ids := output_token_ids r; all_token_ids := all_token_ids r; num_computed_tokens := num_computed_tokens r; num_cached_tokens := num_cached_tokens r; num_tokens_next := num_tokens_next r; num_computed_tokens_next := v; in_running_since := in_running_since r; in_waiting_since := in_waiting_since r; mm_positions := mm_positions r; mm_inputs := mm_inputs r; mm_hashes := mm_hashes r; kv_block_hashes := kv_block_hashes r |}.
Definition set_in_running_since (v : option Z) (r : Request) : Request :=
  {| request_id := request_id r; sampling_params := sampling_params r; eos_token_id := eos_token_id r; request_status := request_status r; stop_reason := stop_reason r; max_tokens := max_tokens r; lookahead := lookahead r; prompt := prompt r; prompt_token_ids := prompt_token_ids r; num_prompt_tokens := num_prompt_tokens r; output_token_ids := output_token_ids r; all_token_ids := all_token_ids r; num_computed_tokens := num_computed_tokens r; num_cached_tokens := num_cached_tokens r; num_tokens_next := num_tokens_next r; num_computed_tokens_next := num_computed_tokens_next r; in_running_since := v; in_waiting_since := in_waiting_since r; mm_positions := mm_positions r; mm_inputs := mm_inputs r; mm_hashes := mm_hashes r; kv_block_hashes := kv_block_hashes r |}.
Definition set_in_waiting_since (v : option Z) (r : Request) : Request :=
  {| request_id := request_id r; sampling_params := sampling_params r; eos_token_id := eos_token_id r; request_status := request_status r; stop_reason := stop_reason r; max_tokens := max_tokens r; lookahead := lookahead r; prompt := prompt r; prompt_token_ids := prompt_token_ids r; num_prompt_tokens := num_prompt_tokens r; output_token_ids := output_token_ids r; all_token_ids := all_token_ids r; num_computed_tokens := num_computed_tokens r; num_cached_tokens := num_cached_tokens r; num_tokens_next := num_tokens_next r; num_computed_tokens_next := num_computed_tokens_next r; in_running_since := in_running_since r; in_waiting_since := v; mm_positions := mm_positions r; mm_inputs := mm_inputs r; mm_hashes := mm_hashes r; kv_block_hashes := kv_block_hashes r |}.
Definition set_kv_block_hashes (v : list BlockHashType) (r : Request) : Request :=
  {| request_id := request_id r; sampling_params := sampling_params r; eos_token_id := eos_token_id r; request_status := request_status r; stop_reason := stop_reason r; max_tokens := max_tokens r; lookahead := lookahead r; prompt := prompt r; prompt_token_ids := prompt_token_ids r; num_prompt_tokens := num_prompt_tokens r; output_token_ids := output_token_ids r; all_token_ids := all_token_ids r; num_computed_tokens := num_computed_tokens r; num_cached_tokens := num_cached_tokens r; num_tokens_next := num_tokens_next r; num_computed_tokens_next := num_computed_tokens_next r; in_running_since := in_running_since r; in_waiting_since := in_waiting_since r; mm_positions := mm_positions r; mm_inputs := mm_inputs r; mm_hashes := mm_hashes r; kv_block_hashes := v |}.

#[export] Instance Request_inhabited : Inhabited Request :=
  populate {| request_id := ""; sampling_params := default_sampling_params;
    eos_token_id := None; request_status := WAITING; stop_reason := None; max_tokens := 0;
    lookahead := false; prompt := None; prompt_token_ids := []; num_prompt_tokens := 0;
    output_token_ids := []; all_token_ids := []; num_computed_tokens := 0;
    num_cached_tokens := 0; num_tokens_next := 0; num_computed_tokens_next := 0;
    in_running_since := None; in_waiting_since := None; mm_positions := [];
    mm_inputs := []; mm_hashes := []; kv_block_hashes := [] |}.

(** * Construction *)

(** [Request.from_engine_core_request]: [token_inputs(...)], the adapter's
    defaults ([[]], [{}]) and [Request.__init__]. *)
Definition from_engine_core_request (m : EngineCoreRequest) : result Request :=
  match sp_max_tokens (ecr_sampling_params m) with
  | None => Raise (AssertionError "sampling_params.max_tokens is not None")
  | Some max_tokens =>
    let placeholders := default [] (ecr_mm_placeholders m) in
    Ok {| request_id := ecr_request_id m;
          sampling_params := ecr_sampling_params m;
          eos_token_id := ecr_eos_token_id m;
          request_status := WAITING;
          stop_reason := None;
          max_tokens := max_tokens;
          lookahead := false;
          prompt := ecr_prompt m;
          prompt_token_ids := ecr_prompt_token_ids m;
          num_prompt_tokens := Z.of_nat (length (ecr_prompt_token_ids m));
          output_token_ids := [];
          all_token_ids := ecr_prompt_token_ids m;
          num_computed_tokens := 0;
          num_cached_tokens := 0;
          num_tokens_next := Z.of_nat (length (ecr_prompt_token_ids m));
          num_computed_tokens_next := 0;
          in_running_since := None;
          in_waiting_since := Some (ecr_arrival_time m);
          mm_positions := default [] (dget placeholders "image"%string);
          mm_inputs := default [] (ecr_mm_inputs m);
          mm_hashes := default [] (ecr_mm_hashes m);
          kv_block_hashes := [] |}
  end.

(** * Methods *)
Definition append_output_token_ids (token_ids : list Z) (r : Request) : Request :=
  set_all_token_ids (all_token_ids r ++ token_ids)
    (set_output_token_ids (output_token_ids r ++ token_ids) r).

Definition num_tokens (r : Request) : Z :=
  if lookahead r then num_tokens_next r else Z.of_nat (length (all_token_ids r)).
Definition num_output_tokens (r : Request) : Z := Z.of_nat (length (output_token_ids r)).
Definition is_finished (r : Request) : bool := status_is_finished (request_status r).
Definition request_finished_reason (r : Request) : option string :=
  get_finished_reason (request_status r).
Definition has_encoder_inputs (r : Request) : bool := (0 <? Z.of_nat (length (mm_inputs r)))%Z.
Definition num_encoder_inputs (r : Request) : Z := Z.of_nat (length (mm_positions r)).
Definition get_num_encoder_tokens (r : Request) (input_id : nat) : result Z :=
  match mm_positions r !! input_id with
  | Some p => Ok (pr_length p)
  | None => Raise (AssertionError "input_id < len(self.mm_positions)")
  end.
Definition append_kv_block_hashes (h : BlockHashType) (r : Request) : Request :=
  set_kv_block_hashes (kv_block_hashes r ++ [h]) r.
Definition clear_kv_block_hashes (r : Request) : Request := set_kv_block_hashes [] r.

(** [RequestLookaheadContextManager]: [__enter__] saves [num_computed_tokens]
    and shows the next-step value; [__exit__] restores it. *)
Definition lookahead_enter (la : bool) (r : Request) : Request * Z :=
  if la then (set_num_computed_tokens (num_computed_tokens_next r) (set_lookahead true r),
              num_computed_tokens r)
  else (r, num_computed_tokens r).
Definition lookahead_exit (la : bool) (original : Z) (r : Request) : Request :=
  if la then set_num_computed_tokens original (set_lookahead false r) else r.

(** * Invariant

    The token lists agree: [_all_token_ids] is the prompt followed by the
    output, and [num_prompt_tokens] is the length of the prompt. *)
Record request_wf (r : Request) : Prop := {
  rw_tokens : all_token_ids r = prompt_token_ids r ++ output_token_ids r;
  rw_prompt : num_prompt_tokens r = Z.of_nat (length (prompt_token_ids r));
  rw_max_tokens : sp_max_tokens (sampling_params r) = Some (max_tokens r);
}.

Lemma from_engine_core_request_wf m r :
  from_engine_core_request m = Ok r →
  request_wf r ∧ request_status r = WAITING ∧ num_tokens r = num_tokens_next r
  ∧ num_tokens r = Z.of_nat (length (ecr_prompt_token_ids m)) ∧ num_output_tokens r = 0%Z.
Proof.
  rw /from_engine_core_request. destruct (sp_max_tokens _) eqn:E; last done.
  move=> [<-]. split; last done. split; [by rw /= app_nil_r|done|done].
Qed.
Lemma append_output_token_ids_wf ts r :
  request_wf r → request_wf (append_output_token_ids ts r).
Proof. move=> [H1 H2 H3]. split; simpl; [by rw H1 app_assoc|done..]. Qed.
Lemma num_tokens_split r : request_wf r → lookahead r = false →
  num_tokens r = (num_prompt_tokens r + num_output_tokens r)%Z.
Proof. move=> [H1 H2 _] Hl. rw /num_tokens Hl H1 H2 length_app /num_output_tokens. lia. Qed.

(** Leaving the context restores the request, up to what the block changed. *)
Lemma lookahead_exit_enter la r :
  lookahead r = false →
  lookahead_exit la (lookahead_enter la r).2 (lookahead_enter la r).1 = r.
Proof. destruct la; last done. destruct r; rw /lookahead_exit /lookahead_enter /=. by move=> ->. Qed.

(** Finished is a terminal class: exactly the statuses with a finish reason. *)
Lemma is_finished_reason s :
  status_is_finished s = true ↔ is_Some (get_finished_reason s).
Proof. by destruct s; split => //; try (by move=> []); eauto. Qed.
