(* ===== verification/FreeQueue.v ===== *)
(** The free-block queue: class [FreeKVCacheBlockQueue] of
    vllm/v1/core/kv_cache_utils.py, a doubly linked list threaded through the
    [prev_free_block]/[next_free_block] attributes of the blocks of a pool.

    The model keeps the pointer structure: a queue operation maps the block
    list of the pool and the queue object to new ones. [queue_repr] relates
    that structure to the mathematical list of free blocks, and the refinement
    lemmas show that [popleft], [remove], [append] and [get_all_free_blocks]
    act on it as their names say. *)
From Stdlib Require Import ssreflect ZArith Lia.
From stdpp Require Import base numbers list strings.
From S2P Require Import Prelude KVCacheBlock.

(** * The queue object *)
Record FreeKVCacheBlockQueue := {
  num_free_blocks : Z;
  free_list_head : option nat;
  free_list_tail : option nat;
}.

Abbreviation blocks := (list KVCacheBlock).

(** [FreeKVCacheBlockQueue(blocks)]: [blocks[0]] raises on an empty pool; the
    loop links each block to its neighbours. *)
Definition queue_init (bs : blocks) : result (blocks * FreeKVCacheBlockQueue) :=
  match bs with
  | [] => Raise (IndexError "list index out of range")
  | _ =>
    let n := length bs in
    let link (i : nat) (b : KVCacheBlock) :=
      let b := if decide (0 < i) then set_prev_free_block (Some (i - 1)) b else b in
      if decide (i < n - 1) then set_next_free_block (Some (i + 1)) b else b in
    Ok (imap link bs,
        {| num_free_blocks := Z.of_nat n; free_list_head := Some 0;
           free_list_tail := Some (n - 1) |})
  end.

(** [remove(block)]. [block == self.free_list_head] compares dataclasses of
    one pool, whose [block_id]s differ: it is identity. *)
Definition remove (r : nat) (bs : blocks) (q : FreeKVCacheBlockQueue)
    : blocks * FreeKVCacheBlockQueue :=
  let bs :=
    match prev_free_block (bs !!! r) with
    | Some p => alter (set_next_free_block (next_free_block (bs !!! r))) p bs
    | None => bs
    end in
  let bs :=
    match next_free_block (bs !!! r) with
    | Some n => alter (set_prev_free_block (prev_free_block (bs !!! r))) n bs
    | None => bs
    end in
  let head :=
    if decide (free_list_head q = Some r) then next_free_block (bs !!! r)
    else free_list_head q in
  let tail :=
    if decide (free_list_tail q = Some r) then prev_free_block (bs !!! r)
    else free_list_tail q in
  (alter (λ b, set_next_free_block None (set_prev_free_block None b)) r bs,
   {| num_free_blocks := num_free_blocks q - 1;
      free_list_head := head; free_list_tail := tail |}).

Definition popleft (bs : blocks) (q : FreeKVCacheBlockQueue)
    : result (nat * (blocks * FreeKVCacheBlockQueue)) :=
  match free_list_head q with
  | None => Raise (ValueError "No free blocks available")
  | Some r => Ok (r, remove r bs q)
  end.

Definition append (r : nat) (bs : blocks) (q : FreeKVCacheBlockQueue)
    : result (blocks * FreeKVCacheBlockQueue) :=
  match free_list_tail q with
  | Some t =>
    let bs := alter (set_next_free_block (Some r)) t bs in
    let bs := alter (set_prev_free_block (Some t)) r bs in
    Ok (alter (set_next_free_block None) r bs,
        {| num_free_blocks := num_free_blocks q + 1;
           free_list_head := free_list_head q; free_list_tail := Some r |})
  | None =>
    if bool_decide (free_list_head q = None) then
      Ok (alter (set_next_free_block None) r bs,
          {| num_free_blocks := num_free_blocks q + 1;
             free_list_head := Some r; free_list_tail := Some r |})
    else Raise (AssertionError "free_list_head is None")
  end.

(** The [while curr_block is not None] loop, with a bound on its iterations. *)
Fixpoint walk (fuel : nat) (bs : blocks) (curr : option nat) : option (list nat) :=
  match curr with
  | None => Some []
  | Some r =>
    match fuel with
    | 0 => None
    | S fuel => (r ::.) <$> walk fuel bs (next_free_block (bs !!! r))
    end
  end.
Definition get_all_free_blocks (fuel : nat) (bs : blocks) (q : FreeKVCacheBlockQueue)
    : option (list nat) := walk fuel bs (free_list_head q).

(** * Representation of a list *)

(** First element of [l], or [n] when [l] is empty; and the last, or [p]. *)
Definition hd_or (n : option nat) (l : list nat) : option nat :=
  match l with [] => n | x :: _ => Some x end.
Definition last_or (p : option nat) (l : list nat) : option nat :=
  match last l with None => p | Some x => Some x end.

(** [l] is a linked segment of [bs] entered from [p] and left to [n]. *)
Fixpoint dseg (bs : blocks) (p : option nat) (l : list nat) (n : option nat) : Prop :=
  match l with
  | [] => True
  | x :: l' => prev_free_block (bs !!! x) = p ∧ next_free_block (bs !!! x) = hd_or n l'
               ∧ dseg bs (Some x) l' n
  end.

Record queue_repr (bs : blocks) (q : FreeKVCacheBlockQueue) (l : list nat) : Prop := {
  qr_nodup : NoDup l;
  qr_range : ∀ r, r ∈ l → r < length bs;
  qr_seg : dseg bs None l None;
  qr_head : free_list_head q = hd_or None l;
  qr_tail : free_list_tail q = last_or None l;
  qr_num : num_free_blocks q = Z.of_nat (length l);
  qr_off : ∀ r, r < length bs → r ∉ l →
             prev_free_block (bs !!! r) = None ∧ next_free_block (bs !!! r) = None;
}.

(** Queue operations touch only the links: everything else in a block is its
    [data]. *)
Definition data (b : KVCacheBlock) : KVCacheBlock :=
  set_prev_free_block None (set_next_free_block None b).
Record same_data (bs bs' : blocks) : Prop := {
  sd_length : length bs' = length bs;
  sd_data : ∀ r, data (bs' !!! r) = data (bs !!! r);
}.

Lemma same_data_refl bs : same_data bs bs.
Proof. done. Qed.
Lemma same_data_trans bs1 bs2 bs3 : same_data bs1 bs2 → same_data bs2 bs3 → same_data bs1 bs3.
Proof. move=> [? H1] [? H2]. split; first congruence. move=> r. by rw H2 H1. Qed.
Lemma same_data_alter f r bs : (∀ b, data (f b) = data b) → same_data bs (alter f r bs).
Proof.
  move=> Hf. split; first by rw length_alter.
  move=> r'. rw list_lookup_total_alter. case_decide as Hd; [destruct Hd as [-> _]; by rw Hf|done].
Qed.
Lemma data_proj b b' : data b = data b' →
  block_id b = block_id b' ∧ ref_cnt b = ref_cnt b' ∧ block_hash b = block_hash b' ∧
  status b = status b' ∧ mapped_cpu_block b = mapped_cpu_block b'.
Proof. rw /data => Heq. by injection Heq. Qed.

Lemma last_or_snoc p l x : last_or p (l ++ [x]) = Some x.
Proof. by rw /last_or last_snoc. Qed.
Lemma last_or_cons p x l : last_or p (x :: l) = last_or (Some x) l.
Proof. rw /last_or last_cons. by destruct (last l). Qed.
Lemma last_or_app p l1 l2 : last_or p (l1 ++ l2) = last_or (last_or p l1) l2.
Proof. elim: l1 p => [|x l1 IH] p //=. by rw !last_or_cons. Qed.
Lemma hd_or_app n l1 l2 : hd_or n (l1 ++ l2) = hd_or (hd_or n l2) l1.
Proof. by destruct l1. Qed.

Lemma dseg_app bs p l1 l2 n :
  dseg bs p (l1 ++ l2) n ↔ dseg bs p l1 (hd_or n l2) ∧ dseg bs (last_or p l1) l2 n.
Proof.
  elim: l1 p => [|x l1 IH] p /=; first by rw /last_or /=; tauto.
  rw IH last_or_cons hd_or_app. tauto.
Qed.
(** A segment depends on the links of its members only. *)
Lemma dseg_frame bs bs' p l n :
  (∀ x, x ∈ l → prev_free_block (bs' !!! x) = prev_free_block (bs !!! x)
              ∧ next_free_block (bs' !!! x) = next_free_block (bs !!! x)) →
  dseg bs p l n → dseg bs' p l n.
Proof.
  elim: l p => [|x l IH] p //= Hl [H1 [H2 H3]].
  destruct (Hl x) as [-> ->]; first by left.
  split_and!; [done|done|]. apply IH; last done. move=> y Hy. apply Hl. by right.
Qed.
(** Redirecting the link out of a segment, and the link into it. *)
Lemma dseg_exit bs bs' p l n n' :
  NoDup l →
  (∀ x, x ∈ l → prev_free_block (bs' !!! x) = prev_free_block (bs !!! x)) →
  (∀ x, x ∈ l → next_free_block (bs' !!! x) =
     if decide (last l = Some x) then n' else next_free_block (bs !!! x)) →
  dseg bs p l n → dseg bs' p l n'.
Proof.
  elim: l p => [|x l IH] p //= /NoDup_cons [Hx Hnd] Hp Hn [H1 [H2 H3]].
  split_and!.
  - rw Hp; [by left|done].
  - rw Hn; first by left. destruct l as [|y l]; first by rw /= decide_True.
    rw decide_False; last done. rw last_cons_cons => Hl. apply Hx.
    by apply last_Some_elem_of.
  - apply IH; [done| | |done].
    + move=> y Hy. apply Hp. by right.
    + move=> y Hy. rw Hn; first by right. destruct l as [|z l]; first by apply elem_of_nil in Hy.
      by rw last_cons_cons.
Qed.
Lemma dseg_entry bs bs' p p' l n :
  NoDup l →
  (∀ x, x ∈ l → next_free_block (bs' !!! x) = next_free_block (bs !!! x)) →
  (∀ x, x ∈ l → prev_free_block (bs' !!! x) =
     if decide (hd_or None l = Some x) then p' else prev_free_block (bs !!! x)) →
  dseg bs p l n → dseg bs' p' l n.
Proof.
  destruct l as [|x l]; first done. move=> /= /NoDup_cons [Hx Hnd] Hn Hp [H1 [H2 H3]].
  split_and!.
  - rw Hp; [by left|by rw decide_True].
  - rw Hn; [by left|done].
  - apply (dseg_frame bs); last done. move=> y Hy. split; last by apply Hn; right.
    rw Hp; [by right|]. rw decide_False //. congruence.
Qed.

(** * Refinement *)

(** What [remove] stores in the links, given what they were. *)
Lemma remove_links r bs q p n :
  r < length bs → (∀ x, p = Some x → x < length bs ∧ x ≠ r) →
  (∀ x, n = Some x → x < length bs ∧ x ≠ r) →
  prev_free_block (bs !!! r) = p → next_free_block (bs !!! r) = n →
  let bs' := (remove r bs q).1 in
  same_data bs bs' ∧
  (∀ x, prev_free_block (bs' !!! x) =
     if decide (x = r) then None else if decide (n = Some x) then p
     else prev_free_block (bs !!! x)) ∧
  (∀ x, next_free_block (bs' !!! x) =
     if decide (x = r) then None else if decide (p = Some x) then n
     else next_free_block (bs !!! x)) ∧
  free_list_head (remove r bs q).2 =
    (if decide (free_list_head q = Some r) then n else free_list_head q) ∧
  free_list_tail (remove r bs q).2 =
    (if decide (free_list_tail q = Some r) then p else free_list_tail q) ∧
  num_free_blocks (remove r bs q).2 = (num_free_blocks q - 1)%Z.
Proof.
  move=> Hr Hp Hn Ep En bs'.
  pose (bs1 := match p with Some x => alter (set_next_free_block n) x bs | None => bs end).
  have Er1 : bs1 !!! r = bs !!! r.
  { rw /bs1. destruct p as [x|]; last done. destruct (Hp x eq_refl).
    by rw list_lookup_total_alter_ne. }
  pose (bs2 := match n with Some x => alter (set_prev_free_block p) x bs1 | None => bs1 end).
  have Er2 : bs2 !!! r = bs !!! r.
  { rw /bs2. destruct n as [x|]; last done. destruct (Hn x eq_refl).
    by rw list_lookup_total_alter_ne. }
  have Hrem : remove r bs q =
    (alter (λ b, set_next_free_block None (set_prev_free_block None b)) r bs2,
     {| num_free_blocks := num_free_blocks q - 1;
        free_list_head := if decide (free_list_head q = Some r) then n else free_list_head q;
        free_list_tail := if decide (free_list_tail q = Some r) then p else free_list_tail q |}).
  { rw /remove. rw Ep En. fold bs1. rw Er1 En Ep. fold bs2. by rw Er2 En Ep. }
  have Hd1 : same_data bs bs1.
  { rw /bs1. destruct p; [by apply same_data_alter|done]. }
  have Hd2 : same_data bs1 bs2.
  { rw /bs2. destruct n; [by apply same_data_alter|done]. }
  have Hlen : length bs2 = length bs by rw (sd_length _ _ Hd2) (sd_length _ _ Hd1).
  rw /bs' Hrem /=. split_and!; [|move=> x|move=> x|done..].
  - eapply same_data_trans; [exact Hd1|eapply same_data_trans; [exact Hd2|]].
    by apply same_data_alter.
  - destruct (decide (x = r)) as [->|Hx]; first by rw (alter_field_eq prev_free_block) // Hlen.
    rw (alter_field_ne prev_free_block) //. rw /bs2. destruct n as [y|].
    + destruct (Hn y eq_refl) as [Hy Hy'], (decide (y = x)) as [->|Hxy].
      * rw (alter_field_eq prev_free_block) ?(sd_length _ _ Hd1) //. by rw decide_True.
      * rw (alter_field_ne prev_free_block) // decide_False; [congruence|].
        rw /bs1. destruct p; [by apply alter_field|done].
    + rw /bs1. destruct p; [by apply alter_field|done].
  - destruct (decide (x = r)) as [->|Hx]; first by rw (alter_field_eq next_free_block) // Hlen.
    rw (alter_field_ne next_free_block) //.
    have -> : next_free_block (bs2 !!! x) = next_free_block (bs1 !!! x).
    { rw /bs2. destruct n; [by apply alter_field|done]. }
    rw /bs1. destruct p as [y|]; last done.
    destruct (Hp y eq_refl) as [Hy Hy'], (decide (y = x)) as [->|Hxy].
    + by rw (alter_field_eq next_free_block) // decide_True.
    + rw (alter_field_ne next_free_block) // decide_False; [congruence|done].
Qed.

(** Both neighbours of a member, in the list. *)
Lemma queue_repr_neighbours bs q l1 r l2 :
  queue_repr bs q (l1 ++ r :: l2) →
  prev_free_block (bs !!! r) = last_or None l1 ∧ next_free_block (bs !!! r) = hd_or None l2 ∧
  (∀ x, last_or None l1 = Some x → x ∈ l1) ∧ (∀ x, hd_or None l2 = Some x → x ∈ l2).
Proof.
  move=> [_ _ /dseg_app [_ /= [? [? _]]] _ _ _ _]. split_and!; [done..| |].
  - move=> x. rw /last_or. destruct (last l1) eqn:E => // -[<-]. by apply last_Some_elem_of.
  - destruct l2; simpl => x; [done|]. move=> [<-]. by left.
Qed.

Theorem remove_refines bs q l1 r l2 :
  queue_repr bs q (l1 ++ r :: l2) →
  queue_repr (remove r bs q).1 (remove r bs q).2 (l1 ++ l2) ∧ same_data bs (remove r bs q).1.
Proof.
  move=> HR. destruct (queue_repr_neighbours _ _ _ _ _ HR) as (Ep & En & Hlast & Hhd).
  destruct HR as [Hnd Hrange Hseg Hhead Htail Hnum Hoff].
  apply NoDup_app in Hnd as (Hnd1 & Hdisj & Hnd2). apply NoDup_cons in Hnd2 as (Hr2 & Hnd2).
  have Hr1 : r ∉ l1 by move=> Hin; apply (Hdisj _ Hin); left.
  have Hr : r < length bs by apply Hrange, elem_of_app; right; left.
  have Hp : ∀ x, last_or None l1 = Some x → x < length bs ∧ x ≠ r.
  { move=> x /Hlast Hx. split; [apply Hrange, elem_of_app; by left|by move=> ?; subst]. }
  have Hn : ∀ x, hd_or None l2 = Some x → x < length bs ∧ x ≠ r.
  { move=> x /Hhd Hx. split; [apply Hrange, elem_of_app; by right; right|by move=> ?; subst]. }
  destruct (remove_links r bs q _ _ Hr Hp Hn Ep En) as (Hsd & Hprev & Hnext & Hh & Ht & Hnb).
  split; last done. apply dseg_app in Hseg as [Hs1 [_ [_ Hs2]]].
  have Hd12 : ∀ x, x ∈ l1 → x ∈ l2 → False by move=> x H1 H2; apply (Hdisj x H1); right.
  split.
  - apply NoDup_app. split_and!; [done| |done]. move=> x H1 H2. by apply (Hd12 x).
  - move=> x Hx. rw (sd_length _ _ Hsd). apply Hrange. rw elem_of_app in Hx.
    rw elem_of_app elem_of_cons. tauto.
  - apply dseg_app. split.
    + eapply dseg_exit; [done| | |exact Hs1]; move=> x Hx; rw ?Hprev ?Hnext decide_False;
        try (by move=> ?; subst).
      * rw decide_False //. move=> /Hhd ?. by apply (Hd12 x).
      * rw /last_or. by destruct (last l1).
    + eapply dseg_entry; [done| | |exact Hs2]; move=> x Hx; rw ?Hprev ?Hnext decide_False;
        try (by move=> ?; subst); [|done].
      rw decide_False //. move=> /Hlast ?. by apply (Hd12 x).
  - rw Hh Hhead. destruct l1 as [|y l1]; simpl; first by rw decide_True.
    rw decide_False //. move=> [?]; subst. apply Hr1. by left.
  - rw Ht Htail !last_or_app last_or_cons. destruct l2 as [|y l2 _] using rev_ind.
    + by rw /= decide_True.
    + rw !last_or_snoc decide_False //. move=> [?]; subst. apply Hr2, elem_of_app. right. by left.
  - rw Hnb Hnum !length_app /=. lia.
  - move=> x Hx Hnin. rw Hprev Hnext. destruct (decide (x = r)) as [->|Hxr]; first done.
    rw elem_of_app in Hnin. rw (sd_length _ _ Hsd) in Hx.
    rw !decide_False; [by move=> /Hhd ?; apply Hnin; right|by move=> /Hlast ?; apply Hnin; left|].
    apply Hoff; first done. rw elem_of_app elem_of_cons. tauto.
Qed.

Theorem popleft_refines bs q l :
  queue_repr bs q l →
  match l with
  | [] => popleft bs q = Raise (ValueError "No free blocks available")
  | r :: l' => ∃ bs' q', popleft bs q = Ok (r, (bs', q')) ∧ queue_repr bs' q' l' ∧ same_data bs bs'
  end.
Proof.
  move=> HR. rw /popleft (qr_head _ _ _ HR). destruct l as [|r l]; first done. simpl.
  destruct (remove_refines bs q [] r l HR) as [H1 H2].
  exists (remove r bs q).1, (remove r bs q).2. split_and!; [by destruct (remove r bs q)|done..].
Qed.

Theorem append_refines bs q l r :
  queue_repr bs q l → r < length bs → r ∉ l →
  ∃ bs' q', append r bs q = Ok (bs', q') ∧ queue_repr bs' q' (l ++ [r]) ∧ same_data bs bs'.
Proof.
  move=> [Hnd Hrange Hseg Hhead Htail Hnum Hoff] Hr Hrl.
  have Hnd' : NoDup (l ++ [r]).
  { apply NoDup_app. split_and!; [done| |apply NoDup_singleton].
    move=> x Hx /list_elem_of_singleton ?. by subst. }
  rw /append Htail. destruct l as [|t l _] using rev_ind.
  - rw /= bool_decide_eq_true_2; [by rw Hhead|]. eexists _, _. split; first done.
    split; last by apply same_data_alter. split; simpl; [done| | |done|done| |].
    + move=> x /list_elem_of_singleton ->. by rw length_alter.
    + split_and!; [|by rw (alter_field_eq next_free_block)|done].
      rw (alter_field prev_free_block) //. by apply Hoff.
    + rw Hnum. simpl. lia.
    + rw length_alter => x Hx Hin. rw (alter_field prev_free_block) //.
      rw (alter_field_ne next_free_block); [|by apply Hoff; [done|apply not_elem_of_nil]].
      move=> ?; subst. apply Hin. by left.
  - rw last_or_snoc. eexists _, _. split; first done.
    have Htl : t < length bs by apply Hrange, elem_of_app; right; left.
    have Htr : t ≠ r by move=> ?; subst; apply Hrl, elem_of_app; right; left.
    set bs1 := alter (set_next_free_block (Some r)) t bs.
    set bs2 := alter (set_prev_free_block (Some t)) r bs1.
    have Hl2 : length bs2 = length bs by rw !length_alter.
    set bs3 := alter (set_next_free_block None) r bs2.
    have Hprev : ∀ x, prev_free_block (bs3 !!! x) =
      if decide (x = r) then Some t else prev_free_block (bs !!! x).
    { move=> x. rw (alter_field prev_free_block) //. case_decide; subst.
      - by rw (alter_field_eq prev_free_block) ?length_alter.
      - rw (alter_field_ne prev_free_block) //. by apply alter_field. }
    have Hnext : ∀ x, next_free_block (bs3 !!! x) =
      if decide (x = r) then None else if decide (x = t) then Some r
      else next_free_block (bs !!! x).
    { move=> x. case_decide; subst; first by rw (alter_field_eq next_free_block) ?Hl2.
      rw (alter_field_ne next_free_block) // (alter_field next_free_block) //.
      case_decide; subst; [by rw (alter_field_eq next_free_block)|by rw (alter_field_ne next_free_block)]. }
    have Hsd : same_data bs bs3.
    { do 2 (eapply same_data_trans; last by apply same_data_alter). by apply same_data_alter. }
    split; last done. split; simpl; [done| | | |by rw last_or_snoc| |].
    + move=> x /elem_of_app Hx. rw (sd_length _ _ Hsd).
      destruct Hx as [Hx| ->%list_elem_of_singleton]; [by apply Hrange|done].
    + apply dseg_app. split; last by rw /= last_or_snoc Hprev Hnext !decide_True.
      eapply dseg_exit; [by apply NoDup_app in Hnd'; tauto| | |exact Hseg]; move=> x Hx.
      * rw Hprev decide_False //. by move=> ?; subst.
      * rw Hnext decide_False; [by move=> ?; subst|]. rw last_snoc.
        case_decide; subst; first by rw decide_True. by rw decide_False; [congruence|].
    + rw Hhead. by destruct l.
    + rw Hnum !length_app /=. lia.
    + rw (sd_length _ _ Hsd) => x Hx /not_elem_of_app [Hin Hxr].
      rw Hprev Hnext !decide_False; [by move=> ?; subst; apply Hxr; left
        |by move=> ?; subst; apply Hxr; left|by move=> ?; subst; apply Hin, elem_of_app; right; left|].
      by apply Hoff.
Qed.

Lemma dseg_seq bs n i k :
  (∀ j, j < n → prev_free_block (bs !!! j) = (if decide (0 < j) then Some (j - 1) else None)
              ∧ next_free_block (bs !!! j) = (if decide (j < n - 1) then Some (j + 1) else None)) →
  i + k = n → dseg bs (if decide (0 < i) then Some (i - 1) else None) (seq i k) None.
Proof.
  move=> Hl. elim: k i => [|k IH] i Hik //=. destruct (Hl i) as [-> ->]; first lia.
  split_and!; [done| |].
  - destruct k; simpl; [by rw decide_False; [lia|]|rw decide_True; [lia|f_equal; lia]].
  - have Hi := IH (S i) ltac:(lia). by rw /= Nat.sub_0_r in Hi.
Qed.

(** A fresh queue over unlinked blocks holds all of them, in order. *)
Theorem queue_init_refines bs :
  bs ≠ [] →
  (∀ r, prev_free_block (bs !!! r) = None ∧ next_free_block (bs !!! r) = None) →
  ∃ bs' q, queue_init bs = Ok (bs', q) ∧ queue_repr bs' q (seq 0 (length bs)) ∧ same_data bs bs'.
Proof.
  move=> Hne Hun. set n := length bs.
  pose (link := λ (i : nat) (b : KVCacheBlock),
    let b := if decide (0 < i) then set_prev_free_block (Some (i - 1)) b else b in
    if decide (i < n - 1) then set_next_free_block (Some (i + 1)) b else b).
  have -> : queue_init bs = Ok (imap link bs,
    {| num_free_blocks := Z.of_nat n; free_list_head := Some 0; free_list_tail := Some (n - 1) |})
    by destruct bs.
  have Hn0 : 0 < n by rw /n; destruct bs; simpl; [done|lia].
  have Hat : ∀ r, r < n → imap link bs !!! r = link r (bs !!! r).
  { move=> r Hr. destruct (lookup_lt_is_Some_2 bs r Hr) as [x Hx].
    rw !list_lookup_total_alt list_lookup_imap Hx //. }
  have Hlen : length (imap link bs) = n by rw length_imap.
  have Hlinks : ∀ j, j < n →
    prev_free_block (imap link bs !!! j) = (if decide (0 < j) then Some (j - 1) else None)
    ∧ next_free_block (imap link bs !!! j) = (if decide (j < n - 1) then Some (j + 1) else None).
  { move=> j Hj. rw Hat // /link. destruct (Hun j) as [Hp Hn].
    destruct (decide (0 < j)), (decide (j < n - 1)); by rw /= ?Hp ?Hn. }
  eexists _, _. split; first done. split; split; simpl.
  - apply NoDup_seq.
  - move=> r /elem_of_seq. lia.
  - apply (dseg_seq _ n 0 n Hlinks). lia.
  - by destruct n; [lia|].
  - have [k Hk] : ∃ k, n = S k by exists (n - 1); lia. rw Hk. rw seq_S last_or_snoc. f_equal. lia.
  - by rw length_seq.
  - move=> r Hr Hin. exfalso. apply Hin, elem_of_seq. lia.
  - done.
  - move=> r. destruct (decide (r < n)) as [Hr|Hr].
    + rw Hat // /link. by repeat case_decide.
    + rw !list_lookup_total_alt list_lookup_imap lookup_ge_None_2 //. lia.
Qed.

Lemma walk_dseg bs p l fuel :
  dseg bs p l None → length l ≤ fuel → walk fuel bs (hd_or None l) = Some l.
Proof.
  elim: l p fuel => [|x l IH] p fuel /=; first by destruct fuel.
  move=> [_ [Hn Hs]] Hf. destruct fuel as [|fuel]; first lia. simpl.
  rw Hn (IH (Some x)) //. lia.
Qed.

(** The walk stops after [num_free_blocks] steps with the queue's list. *)
Theorem get_all_free_blocks_refines bs q l fuel :
  queue_repr bs q l → (num_free_blocks q ≤ Z.of_nat fuel)%Z →
  get_all_free_blocks fuel bs q = Some l.
Proof.
  move=> HR Hf. rw /get_all_free_blocks (qr_head _ _ _ HR).
  eapply walk_dseg; [apply (qr_seg _ _ _ HR)|]. rw (qr_num _ _ _ HR) in Hf. lia.
Qed.

(** The represented list is a function of the pointers. *)
Lemma queue_repr_inj bs q l l' : queue_repr bs q l → queue_repr bs q l' → l = l'.
Proof.
  move=> H1 H2. set f := length l + length l'.
  have E1 : get_all_free_blocks f bs q = Some l.
  { apply get_all_free_blocks_refines; first done. rw (qr_num _ _ _ H1) /f. lia. }
  have E2 : get_all_free_blocks f bs q = Some l'.
  { apply get_all_free_blocks_refines; first done. rw (qr_num _ _ _ H2) /f. lia. }
  congruence.
Qed.

(** Updates of other attributes do not disturb the queue. *)
Lemma queue_repr_alter bs q l f r :
  (∀ b, prev_free_block (f b) = prev_free_block b) →
  (∀ b, next_free_block (f b) = next_free_block b) →
  queue_repr bs q l → queue_repr (alter f r bs) q l.
Proof.
  move=> Hp Hn [Hnd Hrange Hseg Hhead Htail Hnum Hoff]. split; [done| | |done..|].
  - move=> x Hx. rw length_alter. by apply Hrange.
  - eapply dseg_frame; last done. move=> x _. by rw (alter_field prev_free_block) // (alter_field next_free_block).
  - rw length_alter => x Hx Hin. rw (alter_field prev_free_block) // (alter_field next_free_block) //. by apply Hoff.
Qed.
