(* ===== verification/BlockHash.v ===== *)
(** Block hashes for prefix caching: [generate_block_hash_extra_keys],
    [hash_block_tokens] and [hash_request_tokens] of
    vllm/v1/core/kv_cache_utils.py.

    The Python built-in [hash] of the tuple [(parent, *tokens)] is the
    parameter [py_hash]: its value is not fixed by the language. *)
From Stdlib Require Import ssreflect ZArith Lia.
From stdpp Require Import base numbers countable list strings.
From S2P Require Import Prelude SamplingParams KVCacheBlock Request.

(** * Extra keys of multi-modal inputs *)

(** The [while] loop, on the remaining inputs (placeholder and hash). It
    returns the collected keys and the next multi-modal index. *)
Fixpoint extra_keys_loop (rest : list (PlaceholderRange * string)) (curr_mm_idx : Z)
    (start_token_idx end_token_idx : Z) (keys : list (string * Z))
    : list (string * Z) * Z :=
  match rest with
  | [] => (keys, curr_mm_idx)
  | (p, h) :: rest =>
    let offset := pr_offset p in
    let len := pr_length p in
    if (offset <? end_token_idx)%Z then
      if (offset + len <? start_token_idx)%Z then
        extra_keys_loop rest (curr_mm_idx + 1) start_token_idx end_token_idx keys
      else
        let mm_start := Z.max 0 (start_token_idx - offset) in
        let keys := keys ++ [(h, mm_start)] in
        if (offset + len <=? end_token_idx)%Z then
          extra_keys_loop rest (curr_mm_idx + 1) start_token_idx end_token_idx keys
        else (keys, curr_mm_idx)
    else (keys, curr_mm_idx)
  end.

Definition generate_block_hash_extra_keys (r : Request)
    (start_token_idx end_token_idx start_mm_idx : Z)
    : result (option (list (string * Z)) * Z) :=
  let positions := mm_positions r in
  let hashes := mm_hashes r in
  match last positions with
  | None => Ok (None, start_mm_idx)
  | Some lastp =>
    if negb (length positions =? length hashes)%nat then
      Raise (ValueError "The number of multi-modal positions and hashes must match.")
    else if (pr_offset lastp + pr_length lastp <? start_token_idx)%Z then
      Ok (None, start_mm_idx)
    else
      let n := Z.of_nat (length positions) in
      if (start_mm_idx <? 0)%Z && (n <? - start_mm_idx)%Z then
        Raise (AssertionError "-start_mm_idx <= len(mm_positions)")
      else
        let start_mm_idx := if (start_mm_idx <? 0)%Z then (n + start_mm_idx)%Z else start_mm_idx in
        let '(keys, curr) :=
          extra_keys_loop (drop (Z.to_nat start_mm_idx) (zip positions hashes))
            start_mm_idx start_token_idx end_token_idx [] in
        Ok (Some keys, curr)
  end.

Section hash.
(** [hash((parent_block_hash, *curr_block_token_ids))] *)
Variable py_hash : option Z → list Z → Z.

Definition hash_block_tokens (parent_block_hash : option Z) (curr_block_token_ids : list Z)
    (extra : option (list (string * Z))) : BlockHashType :=
  {| hash_value := py_hash parent_block_hash curr_block_token_ids;
     token_ids := curr_block_token_ids;
     extra_keys := extra |}.

(** [range(0, n, step)] for a positive step. *)
Definition py_range (n step : Z) : list Z :=
  (λ i, Z.of_nat i * step)%Z <$> seq 0 (Z.to_nat (cdiv n step)).

(** The loop over the block starts; it stops at the first partial block. *)
Fixpoint hash_request_loop (starts : list Z) (block_size : Z) (r : Request)
    (extra : option (list (string * Z))) (curr_mm_idx : Z) (parent : option Z)
    (ret : list BlockHashType) : result (list BlockHashType) :=
  match starts with
  | [] => Ok ret
  | start :: starts =>
    let fin := (start + block_size)%Z in
    let block_token_ids := slice (all_token_ids r) start fin in
    if (Z.of_nat (length block_token_ids) <? block_size)%Z then Ok ret
    else
      '(extra, curr_mm_idx) ←
        (if bool_decide (mm_positions r = []) then Ok (extra, curr_mm_idx)
         else generate_block_hash_extra_keys r start fin curr_mm_idx);
      let block_hash := hash_block_tokens parent block_token_ids extra in
      hash_request_loop starts block_size r extra curr_mm_idx
        (Some (hash_value block_hash)) (ret ++ [block_hash])
  end.

Definition hash_request_tokens (block_size : Z) (r : Request) : result (list BlockHashType) :=
  if negb (bool_decide (mm_positions r = []))
     && negb (length (mm_positions r) =? length (mm_hashes r))%nat then
    Raise (ValueError "The number of multi-modal positions and hashes must match.")
  else if (block_size =? 0)%Z then Raise (ValueError "range() arg 3 must not be zero")
  else hash_request_loop (py_range (Z.of_nat (length (all_token_ids r))) block_size)
         block_size r None 0 None [].

(** * What the loop computes *)

(** The [i]-th block of tokens. *)
Definition nth_block (bs : Z) (tokens : list Z) (i : nat) : list Z :=
  slice tokens (Z.of_nat i * bs) ((Z.of_nat i + 1) * bs).
(** The chained hash value of the first [n] blocks. *)
Fixpoint chain_value (bs : Z) (tokens : list Z) (n : nat) : option Z :=
  match n with
  | 0 => None
  | S i => Some (py_hash (chain_value bs tokens i) (nth_block bs tokens i))
  end.
(** [h] is the key of block [i] of [tokens], up to its extra keys. *)
Definition is_block_key (bs : Z) (tokens : list Z) (i : nat) (h : BlockHashType) : Prop :=
  token_ids h = nth_block bs tokens i
  ∧ hash_value h = py_hash (chain_value bs tokens i) (nth_block bs tokens i).

Lemma nth_block_take_drop bs tokens i : (0 < bs)%Z →
  nth_block bs tokens i = take (Z.to_nat bs) (drop (i * Z.to_nat bs) tokens).
Proof.
  move=> Hb. rw /nth_block slice_nonneg; [nia|nia|].
  have -> : Z.to_nat (Z.of_nat i * bs) = i * Z.to_nat bs by rw Z2Nat.inj_mul; lia.
  have -> : Z.to_nat ((Z.of_nat i + 1) * bs) = i * Z.to_nat bs + Z.to_nat bs
    by rw Z2Nat.inj_mul; lia.
  rw -take_drop_commute //.
Qed.
Lemma length_nth_block bs tokens i : (0 < bs)%Z →
  Z.of_nat (length (nth_block bs tokens i))
  = Z.max 0 (Z.min bs (Z.of_nat (length tokens) - Z.of_nat i * bs)).
Proof. move=> Hb. rw nth_block_take_drop // length_take length_drop. nia. Qed.

Lemma hash_request_loop_spec bs r (Hb : (0 < bs)%Z) k i extra curr parent ret res :
  parent = chain_value bs (all_token_ids r) i →
  (Z.of_nat i + Z.of_nat k = cdiv (Z.of_nat (length (all_token_ids r))) bs)%Z →
  hash_request_loop ((λ j, Z.of_nat j * bs)%Z <$> seq i k) bs r extra curr parent ret = Ok res →
  ∃ hs, res = ret ++ hs
    ∧ (Z.of_nat i + Z.of_nat (length hs))%Z = Z.max (Z.of_nat i) (Z.of_nat (length (all_token_ids r)) / bs)
    ∧ ∀ j h, hs !! j = Some h → is_block_key bs (all_token_ids r) (i + j) h.
Proof.
  set n := Z.of_nat (length (all_token_ids r)). move=> Hp Hk.
  have Hc := cdiv_spec n bs Hb. have Hd := Z.div_mod n bs. have Hm := Z.mod_pos_bound n bs.
  elim: k i extra curr parent ret Hp Hk => [|k IH] i extra curr parent ret Hp Hk /=.
  { move=> [<-]. exists []. rw app_nil_r. split_and!; [done|simpl; nia|by move=> j h]. }
  have -> : slice (all_token_ids r) (Z.of_nat i * bs) (Z.of_nat i * bs + bs)
    = nth_block bs (all_token_ids r) i by rw /nth_block; f_equal; lia.
  have Hl := length_nth_block bs (all_token_ids r) i Hb. fold n in Hl.
  destruct (Z.ltb_spec (Z.of_nat (length (nth_block bs (all_token_ids r) i))) bs) as [Hs|Hs].
  { move=> [<-]. exists []. rw app_nil_r. split_and!; [done|simpl; nia|by move=> j h]. }
  rw /mbind /result_bind.
  destruct (if bool_decide _ then _ else _) as [[extra' curr']|e] eqn:Eg; last done.
  move=> Hr. edestruct (IH (S i)) as (hs & -> & Hlen & Hkey); [|lia|exact Hr|].
  { by rw /= Hp. }
  eexists (_ :: hs). rw -app_assoc. split_and!; [done|simpl; nia|].
  move=> [|j] h /=.
  - move=> [<-]. rw Nat.add_0_r. by rw /is_block_key /= Hp.
  - move=> /Hkey. by rw Nat.add_succ_r.
Qed.

(** One key per full block, each the key of its block. *)
Lemma hash_request_tokens_spec bs r res :
  (0 < bs)%Z → hash_request_tokens bs r = Ok res →
  Z.of_nat (length res) = (Z.of_nat (length (all_token_ids r)) / bs)%Z
  ∧ ∀ j h, res !! j = Some h → is_block_key bs (all_token_ids r) j h.
Proof.
  move=> Hb. rw /hash_request_tokens. case_match; first done.
  destruct (Z.eqb_spec bs 0) as [?|_]; first lia. rw /py_range.
  set n := Z.of_nat (length (all_token_ids r)).
  have Hc := cdiv_spec n bs Hb.
  move=> /(hash_request_loop_spec bs r Hb (Z.to_nat (cdiv n bs)) 0) Hs.
  destruct Hs as (hs & -> & Hlen & Hkey); [done|rw -/n; nia|].
  rw app_nil_l. split; last done. rw -/n in Hlen. have := Z.div_pos n bs. lia.
Qed.

(** Without multi-modal inputs hashing always succeeds. *)
Lemma hash_request_tokens_text bs r :
  (0 < bs)%Z → mm_positions r = [] → ∃ res, hash_request_tokens bs r = Ok res.
Proof.
  move=> Hb Hm. rw /hash_request_tokens Hm bool_decide_eq_true_2 //=.
  destruct (Z.eqb_spec bs 0) as [?|_]; first lia. rw /py_range. move: (seq _ _) => l.
  move: (None : option (list (string * Z))) 0%Z (None : option Z) (@nil BlockHashType).
  elim: l => [|i l IH] extra curr parent ret /=; first by eauto.
  case_match; first by eauto. rw Hm bool_decide_eq_true_2 //=.
Qed.

(** What is hashed for the first [n] blocks of [tokens], and two different
    arguments for which [hash] gives the same value. *)
Fixpoint hashed_inputs (bs : Z) (tokens : list Z) (n : nat) : list (option Z * list Z) :=
  match n with
  | 0 => []
  | S i => (chain_value bs tokens i, nth_block bs tokens i) :: hashed_inputs bs tokens i
  end.
Definition collide (x y : option Z * list Z) : Prop := x ≠ y ∧ py_hash x.1 x.2 = py_hash y.1 y.2.
Definition collision (l1 l2 : list (option Z * list Z)) : Prop := ∃ x y, x ∈ l1 ∧ y ∈ l2 ∧ collide x y.
Lemma collision_cons x y l1 l2 : collision l1 l2 → collision (x :: l1) (y :: l2).
Proof. move=> [a [b [Ha [Hb Hab]]]]. exists a, b. split_and!; [by right|by right|done]. Qed.

(** Equal chained values come from equal blocks or show a collision. *)
Lemma chain_value_same bs t1 t2 n1 n2 :
  chain_value bs t1 n1 = chain_value bs t2 n2 →
  (n1 = n2 ∧ ∀ i, i < n1 → nth_block bs t1 i = nth_block bs t2 i) ∨
  collision (hashed_inputs bs t1 n1) (hashed_inputs bs t2 n2).
Proof.
  elim: n1 n2 => [|n1 IH] [|n2] //=; first by left; split; [|lia].
  move=> [Hv]. destruct (decide ((chain_value bs t1 n1, nth_block bs t1 n1) = (chain_value bs t2 n2, nth_block bs t2 n2))) as [[= Hc Hl]|Hne].
  - destruct (IH _ Hc) as [[<- Hb]|Hx]; last by right; apply collision_cons.
    left. split; first done. move=> i Hi. destruct (decide (i = n1)) as [->|]; [done|apply Hb; lia].
  - right. do 2 eexists. split_and!; [by left|by left|by split].
Qed.

Lemma take_blocks bs tokens n : (0 < bs)%Z →
  take (n * Z.to_nat bs) tokens = concat (nth_block bs tokens <$> seq 0 n).
Proof.
  move=> Hb. elim: n => [|n IH]; first done.
  rw seq_S fmap_app concat_app -IH /= app_nil_r nth_block_take_drop //.
  rw take_take_drop. f_equal. lia.
Qed.
End hash.

(** * Correctness of the keys *)

(** C4: A prefix-cache key identifies its prefix up to collisions of [hash], of
    which nothing is assumed: if two requests compute the same key, at positions
    [i] and [j], then these two blocks have the same tokens; and [i = j] and the
    requests agree on all tokens up to the end of that block, or among what was
    hashed for the blocks up to there are two different arguments of equal hash. *)
Theorem block_key_identifies_prefix py_hash bs r1 r2 res1 res2 i j h :
  (0 < bs)%Z →
  hash_request_tokens py_hash bs r1 = Ok res1 →
  hash_request_tokens py_hash bs r2 = Ok res2 →
  res1 !! i = Some h → res2 !! j = Some h →
  nth_block bs (all_token_ids r1) i = nth_block bs (all_token_ids r2) j ∧
  ((i = j ∧ take ((i + 1) * Z.to_nat bs) (all_token_ids r1)
            = take ((i + 1) * Z.to_nat bs) (all_token_ids r2)) ∨
   collision py_hash (hashed_inputs py_hash bs (all_token_ids r1) (S i))
     (hashed_inputs py_hash bs (all_token_ids r2) (S j))).
Proof.
  move=> Hb /(hash_request_tokens_spec _ _ _ _ Hb) [_ H1].
  move=> /(hash_request_tokens_spec _ _ _ _ Hb) [_ H2] /H1 [T1 E1] /H2 [T2 E2]. split; first congruence.
  destruct (chain_value_same py_hash bs (all_token_ids r1) (all_token_ids r2) (S i) (S j))
    as [[[= <-] Hn]|Hc]; [by rw /= -E1 -E2| |by right].
  left. split; first done. rw !take_blocks //. f_equal. apply list_fmap_ext => k x.
  move=> /lookup_seq [-> ?]. apply Hn. lia.
Qed.

(** A collision-free instance of the hash parameter. *)
Definition pairing_hash (p : option Z) (t : list Z) : Z := Z.pos (encode (p, t)).
Lemma pairing_hash_injective l1 l2 : ¬ collision pairing_hash l1 l2.
Proof. move=> [[p1 t1] [[p2 t2] [_ [_ [Hne [Heq]]]]]]. by apply (inj encode) in Heq. Qed.

(** A text request with the given tokens, and one with an image placeholder
    over tokens 0 to 2. *)
Definition text_request (id : string) (tokens : list Z) : Request :=
  match from_engine_core_request
    {| ecr_request_id := id; ecr_prompt := None; ecr_prompt_token_ids := tokens;
       ecr_mm_inputs := None; ecr_mm_hashes := None; ecr_mm_placeholders := None;
       ecr_sampling_params := default_sampling_params;
       ecr_eos_token_id := None; ecr_arrival_time := 0 |} with
  | Ok r => r | Raise _ => inhabitant end.
Definition image_request (id : string) (tokens : list Z) (image : string) : Request :=
  match from_engine_core_request
    {| ecr_request_id := id; ecr_prompt := None; ecr_prompt_token_ids := tokens;
       ecr_mm_inputs := Some [Some {| mmk_handle := 0 |}]; ecr_mm_hashes := Some [image];
       ecr_mm_placeholders := Some [("image"%string, [{| pr_offset := 0; pr_length := 2 |}])];
       ecr_sampling_params := default_sampling_params;
       ecr_eos_token_id := None; ecr_arrival_time := 0 |} with
  | Ok r => r | Raise _ => inhabitant end.

Lemma block_key_identifies_prefix_witness :
  ∃ res1 res2 h,
    hash_request_tokens pairing_hash 2 (text_request "a" [1; 2; 3; 4; 5]%Z) = Ok res1 ∧
    hash_request_tokens pairing_hash 2 (text_request "b" [1; 2; 3; 4; 9; 9]%Z) = Ok res2 ∧
    res1 !! 1 = Some h ∧ res2 !! 1 = Some h ∧
    (1 = 1 ∧ take ((1 + 1) * Z.to_nat 2) (all_token_ids (text_request "a" [1; 2; 3; 4; 5]%Z))
      = take ((1 + 1) * Z.to_nat 2) (all_token_ids (text_request "b" [1; 2; 3; 4; 9; 9]%Z))).
Proof.
  do 3 eexists. split; [vm_compute; reflexivity|]. split; [vm_compute; reflexivity|].
  split; [reflexivity|]. split; [reflexivity|]. eassert (H : _ ∧ (_ ∨ _)).
  { eapply (block_key_identifies_prefix pairing_hash 2 (text_request "a" [1; 2; 3; 4; 5]%Z) (text_request "b" [1; 2; 3; 4; 9; 9]%Z)
      _ _ 1 1); [lia| | | |];
      [vm_compute; reflexivity|vm_compute; reflexivity|reflexivity|reflexivity]. }
  destruct H as [_ [H|H]]; [exact H|by apply pairing_hash_injective in H].
Defined.
(** With a hash that collides, a key says no more than the tokens of its block. *)
Example colliding_keys :
  let key r := match hash_request_tokens (λ _ _, 0%Z) 2 r with Ok l => l !! 1 | Raise _ => None end in
  key (text_request "a" [1; 2; 3; 4]%Z) = key (text_request "b" [7; 8; 3; 4]%Z) ∧
  is_Some (key (text_request "a" [1; 2; 3; 4]%Z)).
Proof. vm_compute. by eauto. Qed.

(** The chained hash value does not cover the extra keys of earlier
    blocks: whatever [hash] is, two requests with the same tokens and different
    images in block 0 have different keys for block 0 but the same key for
    block 1. *)
Theorem extra_keys_not_chained py_hash :
  ∃ r1 r2 k1 k2 h, all_token_ids r1 = all_token_ids r2 ∧ mm_hashes r1 ≠ mm_hashes r2 ∧
    hash_request_tokens py_hash 4 r1 = Ok [k1; h] ∧
    hash_request_tokens py_hash 4 r2 = Ok [k2; h] ∧ k1 ≠ k2.
Proof.
  exists (image_request "a" [0; 0; 1; 2; 3; 4; 5; 6]%Z "cat").
  exists (image_request "b" [0; 0; 1; 2; 3; 4; 5; 6]%Z "dog").
  do 3 eexists. split; [done|]. split; [done|]. split; [reflexivity|]. split; [reflexivity|].
  by move=> [].
Qed.
