(* ===== verification/KVCacheManager.v ===== *)
(** The KV-cache manager: class [KVCacheManager] of
    vllm/v1/core/kv_cache_manager.py, with the block methods [incr_ref] and
    [decr_ref] of kv_cache_utils.py that reach across the GPU and CPU pools.

    Every method is a block of the state and exception monad over the manager
    object. Block objects are indices into [block_pool] or [block_pool_cpu]; a
    method that mutates its [Request] argument returns the new request. *)
From Stdlib Require Import ssreflect ZArith Lia PrimFloat Uint63.
From stdpp Require Import base numbers list strings.
From S2P Require Import Prelude SamplingParams KVCacheBlock Request FreeQueue BlockHash.

(** * State *)

(** Attributes that [__init__] sets and nothing else stores. *)
Record KVConfig := {
  block_size : Z;
  max_num_blocks_per_req : Z;
  sliding_window : option Z;
  enable_caching : bool;
  fix_wrong_prefix_caching : bool;
  num_preallocate_blocks : Z;
}.

Record KVCacheManager := {
  kv_cfg : KVConfig;
  block_pool : blocks;
  block_pool_cpu : blocks;
  free_block_queue : FreeKVCacheBlockQueue;
  free_block_queue_cpu : FreeKVCacheBlockQueue;
  cached_block_hash_to_block : dict BlockHashType (dict nat nat);
  req_to_blocks : dict string (list nat);
  req_to_blocks_cpu : dict string (list nat);
  pending_blocks_to_swap_out : list (nat * nat);
  pending_blocks_to_swap_in : list (nat * nat);
}.

#[export] Instance KVCacheManager_inhabited : Inhabited KVCacheManager :=
  populate {| kv_cfg := {| block_size := 1; max_num_blocks_per_req := 0; sliding_window := None;
                           enable_caching := false; fix_wrong_prefix_caching := false;
                           num_preallocate_blocks := 0 |};
              block_pool := []; block_pool_cpu := [];
              free_block_queue := {| num_free_blocks := 0; free_list_head := None; free_list_tail := None |};
              free_block_queue_cpu := {| num_free_blocks := 0; free_list_head := None; free_list_tail := None |};
              cached_block_hash_to_block := []; req_to_blocks := []; req_to_blocks_cpu := [];
              pending_blocks_to_swap_out := []; pending_blocks_to_swap_in := [] |}.

(** Attribute stores. *)
Definition set_block_pool (v : blocks) (r : KVCacheManager) : KVCacheManager :=
  {| kv_cfg := kv_cfg r; block_pool := v; block_pool_cpu := block_pool_cpu r; free_block_queue := free_block_queue r; free_block_queue_cpu := free_block_queue_cpu r; cached_block_hash_to_block := cached_block_hash_to_block r; req_to_blocks := req_to_blocks r; req_to_blocks_cpu := req_to_blocks_cpu r; pending_blocks_to_swap_out := pending_blocks_to_swap_out r; pending_blocks_to_swap_in := pending_blocks_to_swap_in r |}.
Definition set_block_pool_cpu (v : blocks) (r : KVCacheManager) : KVCacheManager :=
  {| kv_cfg := kv_cfg r; block_pool := block_pool r; block_pool_cpu := v; free_block_queue := free_block_queue r; free_block_queue_cpu := free_block_queue_cpu r; cached_block_hash_to_block := cached_block_hash_to_block r; req_to_blocks := req_to_blocks r; req_to_blocks_cpu := req_to_blocks_cpu r; pending_blocks_to_swap_out := pending_blocks_to_swap_out r; pending_blocks_to_swap_in := pending_blocks_to_swap_in r |}.
Definition set_free_block_queue (v : FreeKVCacheBlockQueue) (r : KVCacheManager) : KVCacheManager :=
  {| kv_cfg := kv_cfg r; block_pool := block_pool r; block_pool_cpu := block_pool_cpu r; free_block_queue := v; free_block_queue_cpu := free_block_queue_cpu r; cached_block_hash_to_block := cached_block_hash_to_block r; req_to_blocks := req_to_blocks r; req_to_blocks_cpu := req_to_blocks_cpu r; pending_blocks_to_swap_out := pending_blocks_to_swap_out r; pending_blocks_to_swap_in := pending_blocks_to_swap_in r |}.
Definition set_free_block_queue_cpu (v : FreeKVCacheBlockQueue) (r : KVCacheManager) : KVCacheManager :=
  {| kv_cfg := kv_cfg r; block_pool := block_pool r; block_pool_cpu := block_pool_cpu r; free_block_queue := free_block_queue r; free_block_queue_cpu := v; cached_block_hash_to_block := cached_block_hash_to_block r; req_to_blocks := req_to_blocks r; req_to_blocks_cpu := req_to_blocks_cpu r; pending_blocks_to_swap_out := pending_blocks_to_swap_out r; pending_blocks_to_swap_in := pending_blocks_to_swap_in r |}.
Definition set_cached_block_hash_to_block (v : dict BlockHashType (dict nat nat)) (r : KVCacheManager) : KVCacheManager :=
  {| kv_cfg := kv_cfg r; block_pool := block_pool r; block_pool_cpu := block_pool_cpu r; free_block_queue := free_block_queue r; free_block_queue_cpu := free_block_queue_cpu r; cached_block_hash_to_block := v; req_to_blocks := req_to_blocks r; req_to_blocks_cpu := req_to_blocks_cpu r; pending_blocks_to_swap_out := pending_blocks_to_swap_out r; pending_blocks_to_swap_in := pending_blocks_to_swap_in r |}.
Definition set_req_to_blocks (v : dict string (list nat)) (r : KVCacheManager) : KVCacheManager :=
  {| kv_cfg := kv_cfg r; block_pool := block_pool r; block_pool_cpu := block_pool_cpu r; free_block_queue := free_block_queue r; free_block_queue_cpu := free_block_queue_cpu r; cached_block_hash_to_block := cached_block_hash_to_block r; req_to_blocks := v; req_to_blocks_cpu := req_to_blocks_cpu r; pending_blocks_to_swap_out := pending_blocks_to_swap_out r; pending_blocks_to_swap_in := pending_blocks_to_swap_in r |}.
Definition set_req_to_blocks_cpu (v : dict string (list nat)) (r : KVCacheManager) : KVCacheManager :=
  {| kv_cfg := kv_cfg r; block_pool := block_pool r; block_pool_cpu := block_pool_cpu r; free_block_queue := free_block_queue r; free_block_queue_cpu := free_block_queue_cpu r; cached_block_hash_to_block := cached_block_hash_to_block r; req_to_blocks := req_to_blocks r; req_to_blocks_cpu := v; pending_blocks_to_swap_out := pending_blocks_to_swap_out r; pending_blocks_to_swap_in := pending_blocks_to_swap_in r |}.
Definition set_pending_blocks_to_swap_out (v : list (nat * nat)) (r : KVCacheManager) : KVCacheManager :=
  {| kv_cfg := kv_cfg r; block_pool := block_pool r; block_pool_cpu := block_pool_cpu r; free_block_queue := free_block_queue r; free_block_queue_cpu := free_block_queue_cpu r; cached_block_hash_to_block := cached_block_hash_to_block r; req_to_blocks := req_to_blocks r; req_to_blocks_cpu := req_to_blocks_cpu r; pending_blocks_to_swap_out := v; pending_blocks_to_swap_in := pending_blocks_to_swap_in r |}.
Definition set_pending_blocks_to_swap_in (v : list (nat * nat)) (r : KVCacheManager) : KVCacheManager :=
  {| kv_cfg := kv_cfg r; block_pool := block_pool r; block_pool_cpu := block_pool_cpu r; free_block_queue := free_block_queue r; free_block_queue_cpu := free_block_queue_cpu r; cached_block_hash_to_block := cached_block_hash_to_block r; req_to_blocks := req_to_blocks r; req_to_blocks_cpu := req_to_blocks_cpu r; pending_blocks_to_swap_out := pending_blocks_to_swap_out r; pending_blocks_to_swap_in := v |}.

Abbreviation KV := (M KVCacheManager).

(** * Access to blocks and queues *)
Definition gblk (r : nat) : KV KVCacheBlock := mgets (λ s, block_pool s !!! r).
Definition cblk (c : nat) : KV KVCacheBlock := mgets (λ s, block_pool_cpu s !!! c).
Definition upd_gpu (r : nat) (f : KVCacheBlock → KVCacheBlock) : KV unit :=
  mmodify (λ s, set_block_pool (alter f r (block_pool s)) s).
Definition upd_cpu (c : nat) (f : KVCacheBlock → KVCacheBlock) : KV unit :=
  mmodify (λ s, set_block_pool_cpu (alter f c (block_pool_cpu s)) s).
(** a block method that may raise *)
Definition try_gpu (r : nat) (f : KVCacheBlock → result KVCacheBlock) : KV unit :=
  b ← gblk r; b' ← mlift (f b); upd_gpu r (λ _, b').

Definition gpu_popleft : KV nat := λ s,
  match popleft (block_pool s) (free_block_queue s) with
  | Ok (r, (bs, q)) => Ok (r, set_free_block_queue q (set_block_pool bs s))
  | Raise e => Raise e
  end.
Definition gpu_remove (r : nat) : KV unit := λ s,
  let '(bs, q) := remove r (block_pool s) (free_block_queue s) in
  Ok (tt, set_free_block_queue q (set_block_pool bs s)).
Definition gpu_append (r : nat) : KV unit := λ s,
  match append r (block_pool s) (free_block_queue s) with
  | Ok (bs, q) => Ok (tt, set_free_block_queue q (set_block_pool bs s))
  | Raise e => Raise e
  end.
Definition cpu_popleft : KV nat := λ s,
  match popleft (block_pool_cpu s) (free_block_queue_cpu s) with
  | Ok (c, (bs, q)) => Ok (c, set_free_block_queue_cpu q (set_block_pool_cpu bs s))
  | Raise e => Raise e
  end.
Definition cpu_append (c : nat) : KV unit := λ s,
  match append c (block_pool_cpu s) (free_block_queue_cpu s) with
  | Ok (bs, q) => Ok (tt, set_free_block_queue_cpu q (set_block_pool_cpu bs s))
  | Raise e => Raise e
  end.

Definition num_free : KV Z := mgets (λ s, num_free_blocks (free_block_queue s)).
Definition config : KV KVConfig := mgets kv_cfg.

(** * Reference counts

    [incr_ref]/[decr_ref] of a GPU block also count on its mapped CPU block.
    CPU blocks have no mapped block, so their method is the count alone. *)
Definition bump (d : Z) (b : KVCacheBlock) : KVCacheBlock := set_ref_cnt (ref_cnt b + d) b.

Definition cpu_decr_ref (c : nat) : KV unit := upd_cpu c (bump (-1)).

Definition incr_ref (r : nat) : KV unit :=
  upd_gpu r (bump 1);;;
  b ← gblk r;
  match mapped_cpu_block b with
  | Some c => upd_cpu c (bump 1)
  | None => mret tt
  end.

Definition decr_ref (r : nat) (keep_cpu : bool) : KV unit :=
  upd_gpu r (bump (-1));;;
  b ← gblk r;
  match mapped_cpu_block b with
  | Some c => if keep_cpu then mret tt else cpu_decr_ref c
  | None => mret tt
  end.

(** * Construction *)
Definition kv_init (block_size : Z) (num_gpu_blocks num_cpu_blocks : nat) (max_model_len : Z)
    (sliding_window : option Z) (enable_caching : bool) (num_preallocate_tokens : Z)
    (prefix_cache_fix : bool) : result KVCacheManager :=
  '(pool, q) ← queue_init (new_block <$> seq 0 num_gpu_blocks);
  '(pool_cpu, q_cpu) ← queue_init (new_block <$> seq 0 num_cpu_blocks);
  let s :=
    {| kv_cfg := {| block_size := block_size;
                    max_num_blocks_per_req := cdiv max_model_len block_size;
                    sliding_window := sliding_window;
                    enable_caching := enable_caching;
                    fix_wrong_prefix_caching := prefix_cache_fix;
                    num_preallocate_blocks := cdiv num_preallocate_tokens block_size |};
       block_pool := pool; block_pool_cpu := pool_cpu;
       free_block_queue := q; free_block_queue_cpu := q_cpu;
       cached_block_hash_to_block := []; req_to_blocks := []; req_to_blocks_cpu := [];
       pending_blocks_to_swap_out := []; pending_blocks_to_swap_in := [] |} in
  match mfor (seq 0 num_gpu_blocks) (λ r,
      upd_gpu r mark_free;;;
      c ← cpu_popleft;
      upd_gpu r (set_mapped_cpu_block (Some c))) s with
  | Ok (_, s) => Ok s
  | Raise e => Raise e
  end.

Definition get_and_reset_pending_blocks_to_swap_in : KV (list (nat * nat)) :=
  ret ← mgets pending_blocks_to_swap_in;
  mmodify (set_pending_blocks_to_swap_in []);;; mret ret.
Definition get_and_reset_pending_blocks_to_swap_out : KV (list (nat * nat)) :=
  ret ← mgets pending_blocks_to_swap_out;
  mmodify (set_pending_blocks_to_swap_out []);;; mret ret.

(** * The prefix cache *)

(** [_get_cached_block]: the first block in the entry. *)
Definition get_cached_block (h : BlockHashType) : KV (option nat) :=
  cached ← mgets cached_block_hash_to_block;
  match dget cached h with
  | None => mret None
  | Some inner =>
    match dkeys inner with
    | [] => mraise (IndexError "list index out of range")
    | first_block_id :: _ =>
      match dget inner first_block_id with
      | Some b => mret (Some b)
      | None => mraise (KeyError "first_block_id")
      end
    end
  end.

(** [_evict_cached_block] *)
Definition evict_cached_block (r : nat) : KV unit :=
  b ← gblk r;
  cached ← mgets cached_block_hash_to_block;
  match block_hash b with
  | None => mret tt
  | Some h =>
    match dget cached h with
    | None => mret tt
    | Some inner =>
      upd_gpu r reset_hash;;;
      if negb (dmem inner (block_id b)) then mraise (KeyError "block_id")
      else
        let inner := ddel inner (block_id b) in
        mmodify (set_cached_block_hash_to_block
          (if bool_decide (length inner = 0) then ddel cached h else dset cached h inner))
    end
  end.

Fixpoint computed_loop (block_hashes : list BlockHashType) : KV (list nat) :=
  match block_hashes with
  | [] => mret []
  | h :: hs =>
    o ← get_cached_block h;
    match o with
    | Some b => bs ← computed_loop hs; mret (b :: bs)
    | None => mret []
    end
  end.

(** [_touch] *)
Definition touch (bs : list nat) : KV unit :=
  mfor bs (λ r,
    b ← gblk r;
    mwhen (ref_cnt b =? 0)%Z (gpu_remove r;;; try_gpu r (mark_full true false false));;;
    incr_ref r).

(** [_get_new_blocks] *)
Fixpoint new_blocks_loop (n : nat) : KV (list nat) :=
  match n with
  | 0 => mret []
  | S n =>
    r ← gpu_popleft;
    upd_gpu r mark_empty;;;
    b ← gblk r;
    massert (ref_cnt b =? 0)%Z "curr_block.ref_cnt == 0";;;
    match mapped_cpu_block b with
    | None => mraise (AssertionError "curr_block.mapped_cpu_block is not None")
    | Some c =>
      cb ← cblk c;
      mwhen (0 <? ref_cnt cb)%Z
        (c' ← cpu_popleft; upd_gpu r (set_mapped_cpu_block (Some c')));;;
      cfg ← config;
      mwhen (enable_caching cfg) (evict_cached_block r);;;
      incr_ref r;;;
      rs ← new_blocks_loop n;
      mret (r :: rs)
    end
  end.
Definition get_new_blocks (num_blocks : Z) : KV (list nat) :=
  nf ← num_free;
  if (nf <? num_blocks)%Z then mraise (ValueError "Cannot get free blocks from the pool")
  else new_blocks_loop (Z.to_nat num_blocks).

(** Reading an attribute chain [block.mapped_cpu_block.block_id]. *)
Definition mapped_block_id (r : nat) : KV nat :=
  b ← gblk r;
  match mapped_cpu_block b with
  | Some c => cb ← cblk c; mret (block_id cb)
  | None => mraise (AttributeError "block_id")
  end.

Section ops.
Variable py_hash : option Z → list Z → Z.

Definition get_computed_blocks (request : Request) : KV (list nat * Request) :=
  cfg ← config;
  if negb (enable_caching cfg) then mret ([], request)
  else
    request ←
      (if bool_decide (kv_block_hashes request = []) then
         hs ← mlift (hash_request_tokens py_hash (block_size cfg) request);
         mret (set_kv_block_hashes hs request)
       else mret request);
    bs ← computed_loop (kv_block_hashes request);
    mret (bs, request).

(** [_cache_full_blocks]: the loop body on block [blk] at position
    [blk_idx], threading the request and the previous hash value. *)
Definition cache_full_block (num_cached_block_hashes : Z) (st : Request * option Z)
    (ib : Z * nat) : KV (Request * option Z) :=
  let '(request, prev) := st in
  let '(blk_idx, blk) := ib in
  cfg ← config;
  '(request, h) ←
    (if (blk_idx <? num_cached_block_hashes)%Z then
       match kv_block_hashes request !! Z.to_nat blk_idx with
       | Some h => mret (request, h)
       | None => mraise (IndexError "kv_block_hashes")
       end
     else
       let start_token_idx := (blk_idx * block_size cfg)%Z in
       let end_token_idx := ((blk_idx + 1) * block_size cfg)%Z in
       let block_tokens := slice (all_token_ids request) start_token_idx end_token_idx in
       massert (Z.of_nat (length block_tokens) =? block_size cfg)%Z "len(block_tokens)";;;
       '(extra, _) ← mlift (generate_block_hash_extra_keys request start_token_idx end_token_idx (-1));
       let h := hash_block_tokens py_hash prev block_tokens extra in
       mret (append_kv_block_hashes h request, h));
  try_gpu blk (block_hash_setter h);;;
  b ← gblk blk;
  mmodify (λ s, set_cached_block_hash_to_block
    (dset (cached_block_hash_to_block s) h
       (dset (default [] (dget (cached_block_hash_to_block s) h)) (block_id b) blk)) s);;;
  mret (request, Some (hash_value h)).

Definition cache_full_blocks (request : Request) (blk_start_idx : Z)
    (full_blocks : list nat) (prev_block : option nat) : KV Request :=
  prev ←
    (match prev_block with
     | None => mret None
     | Some p =>
       pb ← gblk p;
       match block_hash pb with
       | None => mraise (AssertionError "prev_block.block_hash is not None")
       | Some h => mret (Some (hash_value h))
       end
     end);
  let n := Z.of_nat (length (kv_block_hashes request)) in
  '(request, _) ← mfold (imap (λ i b, (blk_start_idx + Z.of_nat i, b)%Z) full_blocks)
                    (request, prev) (cache_full_block n);
  mret request.

(** * Appending slots *)
Definition get_append_slots_num_new_blocks (request : Request) (num_tokens : Z) : KV Z :=
  cfg ← config;
  table ← mgets req_to_blocks;
  match dget table (request_id request) with
  | None => mraise (KeyError "req_to_blocks")
  | Some req_blocks =>
    let num_required := cdiv (num_computed_tokens request + num_tokens) (block_size cfg) in
    mret (Z.max (num_required - Z.of_nat (length req_blocks)) 0)
  end.

(** Element [i] of a block list, as [req_blocks[i]]. *)
Definition block_at (l : list nat) (i : Z) : KV nat :=
  match l !! Z.to_nat i with
  | Some b => mret b
  | None => mraise (IndexError "req_blocks")
  end.

(** The bookkeeping of [append_slots] after the allocation, with the fix. *)
Definition append_slots_fixed (request : Request) (req_blocks : list nat)
    (num_required_blocks : Z) : KV Request :=
  cfg ← config;
  let bs := block_size cfg in
  let num_cached_full_blocks := (num_cached_tokens request / bs)%Z in
  let num_hashable_tokens :=
    Z.min (num_computed_tokens request) (Z.of_nat (length (all_token_ids request))) in
  let num_hashable_full_blocks := (num_hashable_tokens / bs)%Z in
  let new_full_blocks := slice req_blocks num_cached_full_blocks num_hashable_full_blocks in
  request ←
    (if bool_decide (new_full_blocks = []) then mret request
     else
       prev ← (if (1 <=? num_cached_full_blocks)%Z
               then (b ← block_at req_blocks (num_cached_full_blocks - 1); mret (Some b))
               else mret None);
       request ← cache_full_blocks request num_cached_full_blocks new_full_blocks prev;
       mret (set_num_cached_tokens (num_hashable_full_blocks * bs) request));
  mfor new_full_blocks (λ r,
    try_gpu r (mark_full true false false);;;
    b ← gblk r;
    c_id ← mapped_block_id r;
    mmodify (λ s, set_pending_blocks_to_swap_out
                    (pending_blocks_to_swap_out s ++ [(block_id b, c_id)]) s));;;
  mfor (slice req_blocks num_hashable_full_blocks num_required_blocks)
    (λ r, try_gpu r (mark_half false true false));;;
  mret request.

(** And without it ([--no-prefix-cache-fix]). *)
Definition append_slots_unfixed (request : Request) (req_blocks : list nat)
    (num_tokens : Z) : KV Request :=
  cfg ← config;
  let bs := block_size cfg in
  let num_computed_full_blocks := (num_computed_tokens request / bs)%Z in
  let num_full_blocks_after_append := ((num_computed_tokens request + num_tokens) / bs)%Z in
  massert (num_full_blocks_after_append <=? Z.of_nat (length req_blocks))%Z
    "num_full_blocks_after_append <= len(req_blocks)";;;
  let new_full_blocks := slice req_blocks num_computed_full_blocks num_full_blocks_after_append in
  if bool_decide (new_full_blocks = []) then mret request
  else
    prev ← (if (1 <=? num_computed_full_blocks)%Z
            then (b ← block_at req_blocks (num_computed_full_blocks - 1); mret (Some b))
            else mret None);
    cache_full_blocks request num_computed_full_blocks new_full_blocks prev.

Definition append_slots (request : Request) (num_tokens : Z)
    : KV (option (list nat) * Request) :=
  cfg ← config;
  table ← mgets req_to_blocks;
  let num_required_blocks :=
    cdiv (num_computed_tokens request + num_tokens) (block_size cfg) in
  match dget table (request_id request) with
  | None => mraise (KeyError "req_to_blocks")
  | Some req_blocks =>
    let num_new_blocks := (num_required_blocks - Z.of_nat (length req_blocks))%Z in
    nf ← num_free;
    if (nf <? num_new_blocks)%Z then mret (None, request)
    else
      new_blocks ←
        (if (num_new_blocks <=? 0)%Z then mret []
         else
           let num_new_blocks :=
             Z.min (num_new_blocks + num_preallocate_blocks cfg)
               (Z.min nf (max_num_blocks_per_req cfg - Z.of_nat (length req_blocks))) in
           massert (0 <? num_new_blocks)%Z "num_new_blocks > 0";;;
           new_blocks ← get_new_blocks num_new_blocks;
           mmodify (λ s, set_req_to_blocks
             (dset (req_to_blocks s) (request_id request) (req_blocks ++ new_blocks)) s);;;
           mret new_blocks);
      let req_blocks := req_blocks ++ new_blocks in
      if negb (enable_caching cfg) then mret (Some new_blocks, request)
      else
        request ←
          (if fix_wrong_prefix_caching cfg
           then append_slots_fixed request req_blocks num_required_blocks
           else append_slots_unfixed request req_blocks num_tokens);
        mret (Some new_blocks, request)
  end.

(** * Allocating for a new or resumed request *)
Definition get_allocated_slots_num_new_blocks (num_tokens : Z) (computed_blocks : list nat)
    : KV Z :=
  cfg ← config;
  if (num_tokens =? 0)%Z then mret 0%Z
  else mret (Z.min (cdiv num_tokens (block_size cfg))
               (max_num_blocks_per_req cfg - Z.of_nat (length computed_blocks))).

Definition allocate_slots (request : Request) (num_tokens : Z) (computed_blocks : list nat)
    (no_preallocate : bool) : KV (option (list nat) * Request) :=
  if (num_tokens =? 0)%Z then mraise (ValueError "num_tokens must be greater than 0")
  else
    cfg ← config;
    (if enable_caching cfg then touch computed_blocks
     else massert (bool_decide (computed_blocks = []))
            "Computed blocks should be empty when prefix caching is disabled");;;
    let num_required_blocks := cdiv num_tokens (block_size cfg) in
    nf ← num_free;
    if (nf <? num_required_blocks)%Z then mret (None, request)
    else
      let num_new_blocks :=
        Z.min (num_required_blocks + (if no_preallocate then 0 else num_preallocate_blocks cfg))%Z
          (Z.min nf (max_num_blocks_per_req cfg - Z.of_nat (length computed_blocks))) in
      massert (0 <? num_new_blocks)%Z "num_new_blocks > 0";;;
      new_blocks ← get_new_blocks num_new_blocks;
      mmodify (λ s, set_req_to_blocks
        (dset (req_to_blocks s) (request_id request) (computed_blocks ++ new_blocks)) s);;;
      if negb (enable_caching cfg) then mret (Some new_blocks, request)
      else if fix_wrong_prefix_caching cfg then
        let request :=
          set_num_cached_tokens (Z.of_nat (length computed_blocks) * block_size cfg) request in
        mfor (seq 0 (Z.to_nat num_required_blocks)) (λ i,
          b ← block_at new_blocks (Z.of_nat i);
          try_gpu b (mark_half false true false));;;
        mret (Some new_blocks, request)
      else
        let num_computed_tokens := (Z.of_nat (length computed_blocks) * block_size cfg)%Z in
        let num_full_blocks := ((num_computed_tokens + num_tokens) / block_size cfg)%Z in
        let new_full_blocks :=
          slice (computed_blocks ++ new_blocks) (Z.of_nat (length computed_blocks)) num_full_blocks in
        if bool_decide (new_full_blocks = []) then mret (Some new_blocks, request)
        else
          request ← cache_full_blocks request (Z.of_nat (length computed_blocks))
                      new_full_blocks (last computed_blocks);
          mret (Some new_blocks, request).

(** * Freeing *)
Definition free_block (keep_cpu swapped : bool) (r : nat) : KV unit :=
  decr_ref r keep_cpu;;;
  b ← gblk r;
  if (ref_cnt b =? 0)%Z then upd_gpu r mark_free;;; gpu_append r
  else mwhen swapped (try_gpu r mark_clean).

Definition free (rid : string) (keep_cpu swapped : bool) : KV unit :=
  cfg ← config;
  table ← mgets req_to_blocks;
  let bs := default [] (dget table rid) in
  mmodify (set_req_to_blocks (ddel table rid));;;
  mfor (if enable_caching cfg then reverse bs else bs) (free_block keep_cpu swapped).

(** * Swapping *)
Definition get_swap_in_num_new_blocks (request : Request) (computed_blocks : list nat) : KV Z :=
  cfg ← config;
  table ← mgets req_to_blocks_cpu;
  match dget table (request_id request) with
  | None => mraise (KeyError "req_to_blocks_cpu")
  | Some cpu_blocks =>
    get_allocated_slots_num_new_blocks
      ((Z.of_nat (length cpu_blocks) - Z.of_nat (length computed_blocks)) * block_size cfg)
      computed_blocks
  end.

(** "free useless swapping blocks" *)
Definition release_cpu_block (c : nat) : KV unit :=
  cpu_decr_ref c;;;
  cb ← cblk c;
  mwhen (ref_cnt cb =? 0)%Z (cpu_append c).

(** "relocate the mapping" *)
Definition relocate (gc : nat * nat) : KV unit :=
  let '(r, c) := gc in
  b ← gblk r;
  match mapped_cpu_block b with
  | None => mraise (AssertionError "gpu_block.mapped_cpu_block is not None")
  | Some old =>
    cpu_decr_ref old;;;
    ob ← cblk old;
    mwhen (ref_cnt ob =? 0)%Z (cpu_append old);;;
    upd_gpu r (set_mapped_cpu_block (Some c))
  end.

(** "restore block status" of the block at position [blk_idx] *)
Definition restore_status (num_computed : Z) (ib : Z * nat) : KV unit :=
  let '(blk_idx, r) := ib in
  cfg ← config;
  let bs := block_size cfg in
  if (blk_idx * bs + 1 <=? num_computed)%Z then
    (if ((blk_idx + 1) * bs <=? num_computed)%Z then try_gpu r (mark_full true false false)
     else try_gpu r (mark_half false true false));;;
    b ← gblk r;
    c_id ← mapped_block_id r;
    mmodify (λ s, set_pending_blocks_to_swap_in
                    (pending_blocks_to_swap_in s ++ [(c_id, block_id b)]) s)
  else upd_gpu r mark_empty.

Definition swap_in (request : Request) (computed_blocks : list nat)
    : KV (option (list nat) * Request) :=
  cfg ← config;
  table ← mgets req_to_blocks_cpu;
  match dget table (request_id request) with
  | None => mraise (KeyError "req_to_blocks_cpu")
  | Some cpu_blocks =>
    let k := length computed_blocks in
    let num_new_tokens :=
      ((Z.of_nat (length cpu_blocks) - Z.of_nat k) * block_size cfg)%Z in
    '(o, request) ← allocate_slots request num_new_tokens computed_blocks true;
    match o with
    | None => mret (None, request)
    | Some new_blocks =>
      mfor (take k cpu_blocks) release_cpu_block;;;
      mfor (zip new_blocks (drop k cpu_blocks)) relocate;;;
      mfor (imap (λ i b, (Z.of_nat (k + i), b)) new_blocks)
        (restore_status (num_computed_tokens request));;;
      mmodify (λ s, set_req_to_blocks_cpu (ddel (req_to_blocks_cpu s) (request_id request)) s);;;
      mret (Some new_blocks, request)
    end
  end.

(** The list comprehension [[b.mapped_cpu_block for b in gpu_blocks]]. *)
Definition mapped_blocks (bs : list nat) : KV (list nat) :=
  mfold bs [] (λ acc r,
    b ← gblk r;
    match mapped_cpu_block b with
    | Some c => mret (acc ++ [c])
    | None => mraise (AttributeError "mapped_cpu_block")
    end).

Definition swap_out (rid : string) : KV Z :=
  start ← num_free;
  table ← mgets req_to_blocks;
  match dget table rid with
  | None => mraise (KeyError "req_to_blocks")
  | Some gpu_blocks =>
    cpu_blocks ← mapped_blocks gpu_blocks;
    mfor gpu_blocks (λ r,
      b ← gblk r;
      mwhen (is_dirty b)
        (c_id ← mapped_block_id r;
         mmodify (λ s, set_pending_blocks_to_swap_out
                         (pending_blocks_to_swap_out s ++ [(block_id b, c_id)]) s)));;;
    free rid true true;;;
    mmodify (λ s, set_req_to_blocks_cpu (dset (req_to_blocks_cpu s) rid cpu_blocks) s);;;
    fin ← num_free;
    mret (fin - start)%Z
  end.

(** * Queries *)
Fixpoint hold_running (running : list Request) (nf : Z) : KV (option Z) :=
  match running with
  | [] => mret (Some nf)
  | r :: rs =>
    n ← get_append_slots_num_new_blocks r (num_tokens r - num_computed_tokens r);
    let nf := (nf - n)%Z in
    if (nf <? 0)%Z then mret None else hold_running rs nf
  end.
(** Returns the waiting requests with the hashes [get_computed_blocks]
    stored in them. *)
Fixpoint hold_waiting (waiting : list Request) (nf : Z) : KV (bool * list Request) :=
  match waiting with
  | [] => mret (true, [])
  | r :: rs =>
    cfg ← config;
    '(computed, r) ← get_computed_blocks r;
    n ← get_allocated_slots_num_new_blocks
          (num_tokens r - Z.of_nat (length computed) * block_size cfg) computed;
    let nf := (nf - n)%Z in
    if (nf <? 0)%Z then mret (false, r :: rs)
    else '(b, rs) ← hold_waiting rs nf; mret (b, r :: rs)
  end.
Definition can_hold_all_requests (running waiting : list Request) : KV (bool * list Request) :=
  nf ← num_free;
  o ← hold_running running nf;
  match o with
  | None => mret (false, waiting)
  | Some nf => hold_waiting waiting nf
  end.

Definition get_num_blocks_to_free (rid : string) : KV Z :=
  table ← mgets req_to_blocks;
  match dget table rid with
  | None => mraise (KeyError "req_to_blocks")
  | Some bs => mgets (λ s, Z.of_nat (length (filter (λ r, ref_cnt (block_pool s !!! r) = 1%Z) bs)))
  end.

Definition get_num_free_blocks : KV Z := num_free.

(** Python floats are binary64: [1 - free / total]. *)
Definition float_of_Z (z : Z) : float := PrimFloat.of_uint63 (Uint63.of_Z z).
Definition usage (q : FreeKVCacheBlockQueue) (pool : blocks) : float :=
  PrimFloat.sub PrimFloat.one (PrimFloat.div (float_of_Z (num_free_blocks q))
                     (float_of_Z (Z.of_nat (length pool)))).
Definition get_kv_caches_usage : KV (float * float) :=
  mgets (λ s, (usage (free_block_queue s) (block_pool s),
               usage (free_block_queue_cpu s) (block_pool_cpu s))).
End ops.
