(* ===== verification/KVInvariant.v ===== *)
(** The invariant of the KV-cache manager and its preservation by the
    building blocks of its methods.

    [kv_inv foc ext l s] describes a manager state [s] whose free queue holds
    the list [l]. [ext] is the multiset of references to GPU blocks that live
    outside [req_to_blocks] (in a local variable of a running method, or lost),
    so that every reference is accounted for. [foc] is the block a method is
    just moving in or out of the free queue. *)
From Stdlib Require Import ssreflect ZArith Lia.
From stdpp Require Import base numbers list strings.
From S2P Require Import Prelude SamplingParams KVCacheBlock Request FreeQueue BlockHash KVCacheManager.

(** * Definitions *)

(** References to block [r] from the block tables. *)
Definition held (s : KVCacheManager) (r : nat) : Z := dsum (occ r) (req_to_blocks s).

(** The prefix cache and the hashes stored in the blocks agree. *)
Record cache_inv (bs : blocks) (cached : dict BlockHashType (dict nat nat)) : Prop := {
  ci_wf : dict_wf cached;
  ci_sound : ∀ h inner, dget cached h = Some inner →
    inner ≠ [] ∧ dict_wf inner ∧
    ∀ id b, dget inner id = Some b → id = b ∧ b < length bs ∧ block_hash (bs !!! b) = Some h;
  ci_complete : ∀ r h, r < length bs → block_hash (bs !!! r) = Some h →
    ∃ inner, dget cached h = Some inner ∧ dget inner r = Some r;
}.

Record kv_inv (foc : option nat) (ext l : list nat) (s : KVCacheManager) : Prop := {
  ki_queue : queue_repr (block_pool s) (free_block_queue s) l;
  ki_ids : ∀ r, r < length (block_pool s) → block_id (block_pool s !!! r) = r;
  ki_free : ∀ r, r < length (block_pool s) →
    ref_cnt (block_pool s !!! r) = 0%Z ↔ r ∈ l ∨ foc = Some r;
  ki_foc : ∀ r, foc = Some r → r < length (block_pool s) ∧ r ∉ l;
  ki_refs : ∀ r, r < length (block_pool s) →
    ref_cnt (block_pool s !!! r) = (held s r + occ r ext)%Z;
  ki_table_range : ∀ rid bs r, dget (req_to_blocks s) rid = Some bs → r ∈ bs →
    r < length (block_pool s);
  ki_ext_range : ∀ r, r ∈ ext → r < length (block_pool s);
  ki_status : ∀ r, r < length (block_pool s) → foc ≠ Some r →
    status (block_pool s !!! r) = FREE ↔ r ∈ l;
  ki_mapped : ∀ r, r < length (block_pool s) → mapped_cpu_block (block_pool s !!! r) ≠ None;
  ki_tables : dict_wf (req_to_blocks s);
  ki_cache : cache_inv (block_pool s) (cached_block_hash_to_block s);
}.

(** What the block-level steps leave alone. *)
Record kv_frame (s s' : KVCacheManager) : Prop := {
  kf_cfg : kv_cfg s' = kv_cfg s;
  kf_len : length (block_pool s') = length (block_pool s);
  kf_tables : req_to_blocks s' = req_to_blocks s;
  kf_tables_cpu : req_to_blocks_cpu s' = req_to_blocks_cpu s;
}.

Lemma kv_frame_refl s : kv_frame s s.
Proof. by split. Qed.
Lemma kv_frame_trans s1 s2 s3 : kv_frame s1 s2 → kv_frame s2 s3 → kv_frame s1 s3.
Proof. move=> [????] [????]. split; congruence. Qed.
#[export] Hint Resolve kv_frame_refl : py.

Lemma held_nonneg s r : (0 ≤ held s r)%Z.
Proof. apply dsum_nonneg, occ_nonneg. Qed.
Lemma kv_inv_ref_nonneg foc ext l s r :
  kv_inv foc ext l s → r < length (block_pool s) → (0 ≤ ref_cnt (block_pool s !!! r))%Z.
Proof. move=> HI Hr. rw (ki_refs _ _ _ _ HI) //. have := held_nonneg s r. have := occ_nonneg r ext. lia. Qed.

(** Reordering the outside references. *)
Lemma kv_inv_ext foc ext ext' l s :
  (∀ r, occ r ext = occ r ext') → kv_inv foc ext l s → kv_inv foc ext' l s.
Proof.
  move=> He [???? Hrefs ? Hr ????]. split => //.
  - move=> r Hr'. rw -He. by apply Hrefs.
  - move=> r. rw occ_pos -He -occ_pos. apply Hr.
Qed.

(** * Updates of one block *)

Lemma cache_inv_alter bs cached f r :
  (∀ b, block_hash (f b) = block_hash b) → cache_inv bs cached → cache_inv (alter f r bs) cached.
Proof.
  move=> Hf [Hc1 Hc2 Hc3]. split; [done| |].
  - move=> h inner /Hc2 [? [? Hin]]. split_and!; [done..|]. move=> id b /Hin [? [? ?]].
    rw length_alter (alter_field block_hash) //.
  - move=> x h. rw length_alter (alter_field block_hash) //. apply Hc3.
Qed.

(** An update of [status] or [mapped_cpu_block]. *)
Lemma kv_inv_upd foc ext l s r f :
  (∀ b, prev_free_block (f b) = prev_free_block b) →
  (∀ b, next_free_block (f b) = next_free_block b) →
  (∀ b, block_id (f b) = block_id b) → (∀ b, ref_cnt (f b) = ref_cnt b) →
  (∀ b, block_hash (f b) = block_hash b) →
  (mapped_cpu_block (block_pool s !!! r) ≠ None →
   mapped_cpu_block (f (block_pool s !!! r)) ≠ None) →
  (foc = Some r ∨ (status (f (block_pool s !!! r)) = FREE ↔ status (block_pool s !!! r) = FREE)) →
  kv_inv foc ext l s → kv_inv foc ext l (set_block_pool (alter f r (block_pool s)) s).
Proof.
  move=> Hp Hn Hid Href Hhash Hmap Hst [Hq Hids Hfree Hfoc Hrefs Htab Hext Hstat Hmapped Htabs Hc].
  split; simpl; rw ?length_alter; try done.
  - by apply queue_repr_alter.
  - move=> x Hx. rw (alter_field block_id) //. by apply Hids.
  - move=> x Hx. rw (alter_field ref_cnt) //. by apply Hfree.
  - move=> x Hx. rw (alter_field ref_cnt) //. by apply Hrefs.
  - move=> x Hx Hne. destruct (decide (r = x)) as [<-|Hrx].
    + rw (alter_field_eq status) //. destruct Hst as [Hf|Hf]; [done|]. rw Hf. by apply Hstat.
    + rw (alter_field_ne status) //. by apply Hstat.
  - move=> x Hx. destruct (decide (r = x)) as [<-|Hrx].
    + rw (alter_field_eq mapped_cpu_block) //. apply Hmap. by apply Hmapped.
    + rw (alter_field_ne mapped_cpu_block) //. by apply Hmapped.
  - by apply cache_inv_alter.
Qed.

(** Taking a reference: out of focus when the block is being (re)activated. *)
Lemma kv_inv_bump_up foc ext l s r :
  r < length (block_pool s) →
  (foc = Some r ∧ status (block_pool s !!! r) ≠ FREE
   ∨ foc = None ∧ ref_cnt (block_pool s !!! r) ≠ 0%Z) →
  kv_inv foc ext l s →
  kv_inv None (r :: ext) l (set_block_pool (alter (bump 1) r (block_pool s)) s).
Proof.
  move=> Hr Hfr HI. have Hpos := kv_inv_ref_nonneg _ _ _ _ r HI Hr.
  destruct HI as [Hq Hids Hfree Hfoc Hrefs Htab Hext Hstat Hmapped Htabs Hc].
  have Hrl : r ∉ l.
  { destruct Hfr as [[Hf _]|[_ Hz]]; [by apply Hfoc|].
    move=> Hin. apply Hz, Hfree; [done|by left]. }
  split; simpl; rw ?length_alter; try done.
  - by apply queue_repr_alter.
  - move=> x Hx. rw (alter_field block_id) //. by apply Hids.
  - move=> x Hx. destruct (decide (r = x)) as [<-|Hrx].
    + rw (alter_field_eq ref_cnt) //=. split; [lia|by move=> [?|?]].
    + rw (alter_field_ne ref_cnt) // Hfree //.
      split; [move=> [?|Hf]; [by left|]|by move=> [?|?]; [left|]].
      destruct Hfr as [[Hf' _]|[Hf' _]]; congruence.
  - move=> x Hx. rw occ_cons. destruct (decide (r = x)) as [<-|Hrx].
    + rw (alter_field_eq ref_cnt) //= decide_True // Hrefs // /held /=. lia.
    + rw (alter_field_ne ref_cnt) // decide_False // Hrefs //.
  - move=> x /elem_of_cons [->//|?]. by apply Hext.
  - move=> x Hx _. rw (alter_field status) //. destruct (decide (r = x)) as [<-|Hrx].
    + destruct Hfr as [[Hf Hs]|[Hf Hs]]; [|by apply Hstat; rw ?Hf]. split; [by move=> ?|by move=> ?].
    + apply Hstat; [done|]. destruct Hfr as [[-> _]|[-> _]]; congruence.
  - move=> x Hx. rw (alter_field mapped_cpu_block) //. by apply Hmapped.
  - by apply cache_inv_alter.
Qed.

(** Dropping an outside reference; the block comes into focus when it was the
    last one. *)
Lemma kv_inv_bump_down ext l s r :
  kv_inv None (r :: ext) l s →
  kv_inv (if decide (ref_cnt (block_pool s !!! r) = 1%Z) then Some r else None) ext l
    (set_block_pool (alter (bump (-1)) r (block_pool s)) s).
Proof.
  move=> HI. have Hr : r < length (block_pool s) by apply (ki_ext_range _ _ _ _ HI); left.
  have Href := ki_refs _ _ _ _ HI r Hr. rw occ_cons decide_True // in Href.
  have Hh := held_nonneg s r. have Ho := occ_nonneg r ext.
  destruct HI as [Hq Hids Hfree Hfoc Hrefs Htab Hext Hstat Hmapped Htabs Hc].
  have Hrl : r ∉ l by move=> Hin; have := proj2 (Hfree r Hr) (or_introl Hin); lia.
  split; simpl; rw ?length_alter; try done.
  - by apply queue_repr_alter.
  - move=> x Hx. rw (alter_field block_id) //. by apply Hids.
  - move=> x Hx. destruct (decide (r = x)) as [<-|Hrx].
    + rw (alter_field_eq ref_cnt) //=. case_decide; split => //; try lia; [by right|by move=> [?|?]].
    + rw (alter_field_ne ref_cnt) // Hfree //.
      split; [by move=> [?|?]; [left|]|]. move=> [?|Hf]; [by left|]. case_decide; congruence.
  - move=> x Hx. case_decide; last done. injection Hx as <-. done.
  - move=> x Hx. destruct (decide (r = x)) as [<-|Hrx].
    + rw (alter_field_eq ref_cnt) //= Href /held /=. lia.
    + rw (alter_field_ne ref_cnt) // Hrefs // occ_cons decide_False //.
  - move=> x Hx. apply Hext. by right.
  - move=> x Hx Hne. rw (alter_field status) //. by apply Hstat.
  - move=> x Hx. rw (alter_field mapped_cpu_block) //. by apply Hmapped.
  - by apply cache_inv_alter.
Qed.

(** A block method that returns stores its result into the block. *)
Lemma wp_try_gpu r f g s Q E :
  f (block_pool s !!! r) = Ok (g (block_pool s !!! r)) →
  Q tt (set_block_pool (alter g r (block_pool s)) s) → wp (try_gpu r f) s Q E.
Proof.
  move=> Hf HQ. rw /try_gpu /gblk /upd_gpu. wp_steps. rw Hf. apply wp_lift => // a [<-].
  wp_step. have -> : alter (λ _, g (block_pool s !!! r)) r (block_pool s) = alter g r (block_pool s);
    last done.
  apply list_alter_ext; last done. move=> x Hx. by rw list_lookup_total_alt Hx.
Qed.

(** * Queue steps *)

(** The invariant reads only part of the state. *)
Lemma kv_inv_same foc ext l s s' :
  block_pool s' = block_pool s → free_block_queue s' = free_block_queue s →
  req_to_blocks s' = req_to_blocks s →
  cached_block_hash_to_block s' = cached_block_hash_to_block s →
  kv_inv foc ext l s → kv_inv foc ext l s'.
Proof.
  move=> H1 H2 H3 H4 []. rw -H1 -H2 -H3 -H4 => ???? Hrefs *. split => // r.
  rw /held H3. apply Hrefs.
Qed.

(** Relinking the queue moves blocks between the list and the focus. *)
Lemma kv_inv_requeue foc foc' ext l l' s bs q :
  same_data (block_pool s) bs → queue_repr bs q l' →
  (∀ r, r ∈ l ∨ foc = Some r ↔ r ∈ l' ∨ foc' = Some r) →
  (∀ r, foc' = Some r → r < length bs ∧ r ∉ l') →
  (∀ r, r < length bs → foc' ≠ Some r → status (block_pool s !!! r) = FREE ↔ r ∈ l') →
  kv_inv foc ext l s → kv_inv foc' ext l' (set_free_block_queue q (set_block_pool bs s)).
Proof.
  move=> [Hlen Hd] Hq' Hmem Hf Hs [Hq Hids Hfree Hfoc Hrefs Htab Hext Hstat Hmapped Htabs [Hc1 Hc2 Hc3]].
  have Hdp := λ r, data_proj _ _ (Hd r). rw Hlen in Hf Hs.
  split; simpl; rw ?Hlen; try done.
  - move=> r Hr. destruct (Hdp r) as (-> & _). by apply Hids.
  - move=> r Hr. destruct (Hdp r) as (_ & -> & _). by rw Hfree.
  - move=> r Hr. destruct (Hdp r) as (_ & -> & _). by apply Hrefs.
  - move=> r Hr. destruct (Hdp r) as (_ & _ & _ & -> & _). by apply Hs.
  - move=> r Hr. destruct (Hdp r) as (_ & _ & _ & _ & ->). by apply Hmapped.
  - split; [done| |].
    + move=> h inner /Hc2 [? [? Hin]]. split_and!; [done..|]. move=> id b /Hin [? [? ?]].
      rw Hlen. destruct (Hdp b) as (_ & _ & -> & _). done.
    + move=> r h. rw Hlen. destruct (Hdp r) as (_ & _ & -> & _). apply Hc3.
Qed.

Lemma wp_gpu_popleft ext r l s Q E :
  kv_inv None ext (r :: l) s →
  (∀ bs q, same_data (block_pool s) bs →
     kv_inv (Some r) ext l (set_free_block_queue q (set_block_pool bs s)) →
     Q r (set_free_block_queue q (set_block_pool bs s))) →
  wp gpu_popleft s Q E.
Proof.
  move=> HI HQ. have Hq := ki_queue _ _ _ _ HI. have Hnd := qr_nodup _ _ _ Hq.
  apply NoDup_cons in Hnd as [Hr Hnd].
  destruct (popleft_refines _ _ _ Hq) as (bs & q & Hp & Hq' & Hd).
  rw /wp /gpu_popleft Hp. apply HQ; first done.
  have Hlen := sd_length _ _ Hd.
  eapply kv_inv_requeue; [done|done| | | |done].
  - move=> x. rw elem_of_cons. naive_solver.
  - move=> x [<-]. split; [|done]. rw Hlen. apply (qr_range _ _ _ Hq). by left.
  - move=> x Hx Hne. rw (ki_status _ _ _ _ HI) ?elem_of_cons; [by rw -Hlen|done|naive_solver].
Qed.

Lemma wp_gpu_remove ext r l s Q E :
  kv_inv None ext l s → r ∈ l →
  (∀ bs q l', same_data (block_pool s) bs → length l = S (length l') →
     kv_inv (Some r) ext l' (set_free_block_queue q (set_block_pool bs s)) →
     Q tt (set_free_block_queue q (set_block_pool bs s))) →
  wp (gpu_remove r) s Q E.
Proof.
  move=> HI Hr HQ. have Hq := ki_queue _ _ _ _ HI. have Hnd := qr_nodup _ _ _ Hq.
  apply list_elem_of_split in Hr as (l1 & l2 & ->).
  destruct (remove_refines _ _ _ _ _ Hq) as (Hq' & Hd).
  rw /wp /gpu_remove. destruct (remove r (block_pool s) (free_block_queue s)) as [bs q].
  simpl in *. have Hlen := sd_length _ _ Hd.
  have [Hr1 Hr2] : (r ∉ l1) ∧ (r ∉ l2).
  { apply NoDup_app in Hnd as (_ & Hd1 & Hnd). apply NoDup_cons in Hnd as [? _].
    split; last done. move=> /Hd1 Hx. apply Hx. by left. }
  apply (HQ _ _ (l1 ++ l2)); [done|rw !length_app /=; lia|].
  eapply kv_inv_requeue; [done|done| | | |done].
  - move=> x. rw !elem_of_app elem_of_cons. naive_solver.
  - move=> x [<-]. rw Hlen elem_of_app. split; [|tauto].
    apply (qr_range _ _ _ Hq), elem_of_app. by right; left.
  - move=> x Hx Hne. rw (ki_status _ _ _ _ HI) ?elem_of_app ?elem_of_cons;
      [by rw -Hlen|done|naive_solver].
Qed.

Lemma wp_gpu_append ext r l s Q E :
  kv_inv (Some r) ext l s → status (block_pool s !!! r) = FREE →
  (∀ bs q, same_data (block_pool s) bs →
     kv_inv None ext (l ++ [r]) (set_free_block_queue q (set_block_pool bs s)) →
     Q tt (set_free_block_queue q (set_block_pool bs s))) →
  wp (gpu_append r) s Q E.
Proof.
  move=> HI Hs HQ. have Hq := ki_queue _ _ _ _ HI.
  destruct (ki_foc _ _ _ _ HI r eq_refl) as [Hr Hrl].
  destruct (append_refines _ _ _ r Hq Hr Hrl) as (bs & q & Hp & Hq' & Hd).
  rw /wp /gpu_append Hp. apply HQ; first done. have Hlen := sd_length _ _ Hd.
  eapply kv_inv_requeue; [done|done| |done| |done].
  - move=> x. rw elem_of_app list_elem_of_singleton. naive_solver.
  - move=> x Hx _. rw elem_of_app list_elem_of_singleton.
    destruct (decide (x = r)) as [->|Hxr]; first by split; [right|].
    rw (ki_status _ _ _ _ HI); [by rw -Hlen|congruence|naive_solver].
Qed.

(** * CPU-side steps *)
Lemma wp_cpu_popleft s Q E :
  E (ValueError "No free blocks available") →
  (∀ c bs q, Q c (set_free_block_queue_cpu q (set_block_pool_cpu bs s))) →
  wp cpu_popleft s Q E.
Proof.
  move=> HE HQ. rw /wp /cpu_popleft /popleft. destruct (free_list_head _); last done.
  destruct (remove _ _ _). apply HQ.
Qed.
Lemma wp_cpu_append c s Q E :
  E (AssertionError "free_list_head is None") →
  (∀ bs q, Q tt (set_free_block_queue_cpu q (set_block_pool_cpu bs s))) →
  wp (cpu_append c) s Q E.
Proof.
  move=> HE HQ. rw /wp /cpu_append /append. destruct (free_list_tail _); first apply HQ.
  case_bool_decide; [apply HQ|done].
Qed.

(** * Reference steps *)
Lemma wp_incr_ref foc ext l s r Q E :
  kv_inv foc ext l s → r < length (block_pool s) →
  (foc = Some r ∧ status (block_pool s !!! r) ≠ FREE
   ∨ foc = None ∧ ref_cnt (block_pool s !!! r) ≠ 0%Z) →
  (∀ s', kv_frame s s' → kv_inv None (r :: ext) l s' →
     block_pool s' = alter (bump 1) r (block_pool s) →
     free_block_queue s' = free_block_queue s → Q tt s') →
  wp (incr_ref r) s Q E.
Proof.
  move=> HI Hr Hf HQ. have HI' := kv_inv_bump_up _ _ _ _ _ Hr Hf HI.
  rw /incr_ref /upd_gpu /gblk /upd_cpu. wp_steps; simpl; apply HQ => //=;
    try (split => //=; by rw length_alter). by eapply kv_inv_same; last exact HI'.
Qed.

Lemma wp_decr_ref ext l s r keep_cpu Q E :
  kv_inv None (r :: ext) l s →
  (∀ s', kv_frame s s' →
     kv_inv (if decide (ref_cnt (block_pool s !!! r) = 1%Z) then Some r else None) ext l s' →
     block_pool s' = alter (bump (-1)) r (block_pool s) →
     free_block_queue s' = free_block_queue s → Q tt s') →
  wp (decr_ref r keep_cpu) s Q E.
Proof.
  move=> HI HQ. have HI' := kv_inv_bump_down _ _ _ _ HI.
  rw /decr_ref /upd_gpu /gblk /cpu_decr_ref /upd_cpu. wp_steps; simpl; apply HQ => //=;
    try (split => //=; by rw length_alter). by eapply kv_inv_same; last exact HI'.
Qed.

(** * The prefix cache *)

(** Replacing the entry of a key, dropping it when it becomes empty. *)
Lemma cache_inv_evict bs cached r h inner :
  cache_inv bs cached → r < length bs → block_hash (bs !!! r) = Some h →
  dget cached h = Some inner →
  cache_inv (alter reset_hash r bs)
    (if bool_decide (length (ddel inner r) = 0) then ddel cached h else dset cached h (ddel inner r)).
Proof.
  move=> [Hwf Hs Hc] Hr Hh Hin. destruct (Hs _ _ Hin) as (Hne & Hwi & Hent).
  have Hothers : ∀ x, x ≠ r → block_hash (alter reset_hash r bs !!! x) = block_hash (bs !!! x)
    by move=> x Hx; rw (alter_field_ne block_hash).
  have Hother_key : ∀ h' inner', h' ≠ h → dget cached h' = Some inner' →
    inner' ≠ [] ∧ dict_wf inner' ∧ ∀ id b, dget inner' id = Some b →
      id = b ∧ b < length (alter reset_hash r bs) ∧ block_hash (alter reset_hash r bs !!! b) = Some h'.
  { move=> h' inner' Hne' /Hs [? [? He]]. split_and!; [done..|]. move=> id b /He [? [? Hb]].
    rw length_alter Hothers //. move=> ?; subst. congruence. }
  have Hcase : length (ddel inner r) = 0 ↔ ddel inner r = [] by rw length_zero_iff_nil.
  split.
  - case_bool_decide; auto with py.
  - move=> h' inner'. case_bool_decide as Hl.
    + rw dget_ddel //. case_decide; first done. by apply Hother_key.
    + rw dget_dset. case_decide as Hh'; last by apply Hother_key.
      move=> [<-]; subst h'. split_and!; [tauto|auto with py|].
      move=> id b. rw dget_ddel //. case_decide as Hid; first done.
      move=> /Hent [? [? Hb]]; subst. rw length_alter Hothers //.
  - move=> x h'. rw length_alter => Hx. destruct (decide (x = r)) as [->|Hxr].
    { by rw (alter_field_eq block_hash). }
    rw Hothers // => /(Hc _ _ Hx) [inner' [Hi' Hx']].
    destruct (decide (h' = h)) as [->|Hh'].
    + rw Hin in Hi'. injection Hi' as <-.
      have Hd : dget (ddel inner r) x = Some x by rw dget_ddel_ne.
      exists (ddel inner r). rw bool_decide_eq_false_2; last by rw dget_dset_eq.
      rw Hcase => Hnil. by rw Hnil in Hd.
    + exists inner'. case_bool_decide; [by rw dget_ddel_ne|by rw dget_dset_ne].
Qed.

Lemma cache_inv_add bs cached r h :
  cache_inv bs cached → r < length bs → block_hash (bs !!! r) = None →
  cache_inv (alter (set_block_hash (Some h)) r bs)
    (dset cached h (dset (default [] (dget cached h)) r r)).
Proof.
  move=> [Hwf Hs Hc] Hr Hh.
  have Hothers : ∀ x, x ≠ r →
    block_hash (alter (set_block_hash (Some h)) r bs !!! x) = block_hash (bs !!! x)
    by move=> x Hx; rw (alter_field_ne block_hash).
  have Hself : block_hash (alter (set_block_hash (Some h)) r bs !!! r) = Some h
    by rw (alter_field_eq block_hash).
  have Hent : ∀ h' inner' id b, dget cached h' = Some inner' → dget inner' id = Some b →
      id = b ∧ b < length (alter (set_block_hash (Some h)) r bs)
      ∧ block_hash (alter (set_block_hash (Some h)) r bs !!! b) = Some h'.
  { move=> h' inner' id b /Hs [? [? He]] /He [? [? Hb]]. rw length_alter Hothers //.
    move=> ?; subst. congruence. }
  split; first auto with py.
  - move=> h' inner'. rw dget_dset. case_decide as Hh'; subst.
    + move=> [<-]. split_and!.
      * destruct (dget cached h) as [[|[??] ?]|]; simpl; [done| |done]. by case_decide.
      * destruct (dget cached h) as [i0|] eqn:E; simpl; [|apply NoDup_singleton].
        apply dict_wf_dset. by apply (Hs _ _ E).
      * move=> id b. rw dget_dset. case_decide; subst; first by move=> [<-]; rw length_alter.
        destruct (dget cached h) as [i0|] eqn:E; simpl; [by apply Hent|done].
    + move=> Hi. have Hi' := Hi. move: Hi' => /Hs [? [? _]]. split_and!; [done..|].
      move=> id b. by apply Hent.
  - move=> x h'. rw length_alter => Hx. destruct (decide (x = r)) as [->|Hxr].
    + rw Hself => -[<-]. eexists. rw dget_dset_eq. split; first done. by rw dget_dset_eq.
    + rw Hothers // => /(Hc _ _ Hx) [inner' [Hi' Hx']].
      destruct (decide (h' = h)) as [->|Hh'].
      * eexists. rw dget_dset_eq Hi'. split; first done. by rw dget_dset_ne.
      * exists inner'. by rw dget_dset_ne.
Qed.

(** Changing hashes and the cache together. *)
Lemma kv_inv_rehash foc ext l s r f cached :
  (∀ b, data (f b) = data (set_block_hash (block_hash (f b)) b)) →
  (∀ b, prev_free_block (f b) = prev_free_block b) →
  (∀ b, next_free_block (f b) = next_free_block b) →
  cache_inv (alter f r (block_pool s)) cached →
  kv_inv foc ext l s →
  kv_inv foc ext l (set_cached_block_hash_to_block cached
                      (set_block_pool (alter f r (block_pool s)) s)).
Proof.
  move=> Hd Hp Hn Hc' [Hq Hids Hfree Hfoc Hrefs Htab Hext Hstat Hmapped Htabs Hc].
  have Hproj : ∀ b, block_id (f b) = block_id b ∧ ref_cnt (f b) = ref_cnt b
    ∧ status (f b) = status b ∧ mapped_cpu_block (f b) = mapped_cpu_block b.
  { move=> b. destruct (data_proj _ _ (Hd b)) as (-> & -> & _ & -> & ->). done. }
  split; simpl; rw ?length_alter; try done.
  - by apply queue_repr_alter.
  - move=> x Hx. rw (alter_field block_id); [apply Hproj|by apply Hids].
  - move=> x Hx. rw (alter_field ref_cnt); [apply Hproj|by apply Hfree].
  - move=> x Hx. rw (alter_field ref_cnt); [apply Hproj|by apply Hrefs].
  - move=> x Hx Hne. rw (alter_field status); [apply Hproj|by apply Hstat].
  - move=> x Hx. rw (alter_field mapped_cpu_block); [apply Hproj|by apply Hmapped].
Qed.

(** Blocks outside [rs] keep their metadata. *)
Definition same_others (rs : list nat) (s s' : KVCacheManager) : Prop :=
  ∀ x, x ∉ rs → data (block_pool s' !!! x) = data (block_pool s !!! x).

Lemma same_others_trans rs1 rs2 s1 s2 s3 :
  same_others rs1 s1 s2 → same_others rs2 s2 s3 → same_others (rs1 ++ rs2) s1 s3.
Proof. move=> H1 H2 x /not_elem_of_app [Hx1 Hx2]. by rw H2 // H1. Qed.
Lemma same_others_alter r f s s' :
  block_pool s' = alter f r (block_pool s) → same_others [r] s s'.
Proof. move=> Hp x Hx. rw Hp (alter_field_ne data) //. move=> ?; subst. apply Hx. by left. Qed.
Lemma same_others_mono rs rs' s s' :
  (∀ x, x ∈ rs → x ∈ rs') → same_others rs s s' → same_others rs' s s'.
Proof. move=> Hs H x Hx. apply H. by move=> /Hs. Qed.
Lemma same_others_data rs s s' x : same_others rs s s' → x ∉ rs →
  ref_cnt (block_pool s' !!! x) = ref_cnt (block_pool s !!! x)
  ∧ block_hash (block_pool s' !!! x) = block_hash (block_pool s !!! x)
  ∧ status (block_pool s' !!! x) = status (block_pool s !!! x)
  ∧ mapped_cpu_block (block_pool s' !!! x) = mapped_cpu_block (block_pool s !!! x).
Proof. move=> H Hx. by destruct (data_proj _ _ (H x Hx)) as (_ & ? & ? & ? & ?). Qed.

(** A state change that leaves references, statuses and mappings alone. *)
Record meta_same (s s' : KVCacheManager) : Prop := {
  ms_frame : kv_frame s s';
  ms_ref : ∀ x, ref_cnt (block_pool s' !!! x) = ref_cnt (block_pool s !!! x);
  ms_status : ∀ x, status (block_pool s' !!! x) = status (block_pool s !!! x);
  ms_mapped : ∀ x, mapped_cpu_block (block_pool s' !!! x) = mapped_cpu_block (block_pool s !!! x);
  ms_queue : free_block_queue s' = free_block_queue s;
}.

Lemma wp_evict_cached_block foc ext l s r Q E :
  kv_inv foc ext l s → r < length (block_pool s) →
  (∀ s', kv_inv foc ext l s' → meta_same s s' → same_others [r] s s' →
     block_hash (block_pool s' !!! r) = None → Q tt s') →
  wp (evict_cached_block r) s Q E.
Proof.
  move=> HI Hr HQ. rw /evict_cached_block /gblk /upd_gpu. do 4 wp_step.
  have Hid := ki_ids _ _ _ _ HI r Hr. have Hc := ki_cache _ _ _ _ HI.
  destruct (block_hash (block_pool s !!! r)) as [h|] eqn:Eh; last first.
  { apply wp_ret, HQ; [done|by split; auto with py|by move=> x|done]. }
  destruct (ci_complete _ _ Hc r h Hr Eh) as (inner & Hin & Hin'). rw Hin.
  rw Hid /dmem Hin' /=. wp_steps. apply HQ.
  - by apply kv_inv_rehash; [..|apply cache_inv_evict|].
  - split; simpl; [split => //=; by rw length_alter|by move=> x; apply alter_field..|done].
  - by eapply same_others_alter.
  - by rw (alter_field_eq block_hash).
Qed.

(** * Allocation and release of blocks *)

(** One block of [_touch]. *)
Lemma wp_touch_one ext l s r E :
  kv_inv None ext l s → r < length (block_pool s) →
  wp (b ← gblk r;
      mwhen (ref_cnt b =? 0)%Z (gpu_remove r;;; try_gpu r (mark_full true false false));;;
      incr_ref r) s
    (λ _ s', (∃ l', kv_inv None (r :: ext) l' s') ∧ kv_frame s s' ∧ same_others [r] s s'
       ∧ ref_cnt (block_pool s' !!! r) = (ref_cnt (block_pool s !!! r) + 1)%Z
       ∧ block_hash (block_pool s' !!! r) = block_hash (block_pool s !!! r)
       ∧ mapped_cpu_block (block_pool s' !!! r) = mapped_cpu_block (block_pool s !!! r)) E.
Proof.
  move=> HI Hr. rw /gblk. do 3 wp_step. wp_step; last first.
  { eapply wp_incr_ref; [done|done|right; split; [done|lia]|].
    move=> s' Hfr HI' Hp _. split_and!; [eauto|done|by eapply same_others_alter|..];
      by rw Hp ?(alter_field_eq ref_cnt) ?(alter_field_eq block_hash) ?(alter_field_eq mapped_cpu_block). }
  wp_step. eapply wp_gpu_remove; [done|apply (ki_free _ _ _ _ HI) in Hr as Hz|].
  { have Hz0 : ref_cnt (block_pool s !!! r) = 0%Z by lia. by destruct (proj1 Hz Hz0) as [?|?]. }
  move=> bs q l' [Hlen Hd] _ HI1. apply (wp_try_gpu _ _ (set_status FULL_CLEAN)); first done.
  destruct (data_proj _ _ (Hd r)) as (_ & Hd1 & Hd2 & _ & Hd3).
  eapply wp_incr_ref; [by apply kv_inv_upd; [..|exact HI1]; auto|by rw /= length_alter Hlen| |].
  { left. split; first done. by rw /= (alter_field_eq status) ?Hlen. }
  move=> s' [Hf1 Hf2 Hf3 Hf4] HI' Hp _. simpl in *. rw !length_alter Hlen in Hf2.
  split_and!; [eauto|done| |rw Hp..].
  - move=> x Hx. rw Hp. rw !(alter_field_ne data); try (by move=> ?; subst; apply Hx; left). done.
  - rw (alter_field_eq ref_cnt) ?length_alter ?Hlen //= (alter_field ref_cnt) //. by rw Hd1.
  - rw (alter_field block_hash) // (alter_field block_hash) //.
  - rw (alter_field mapped_cpu_block) // (alter_field mapped_cpu_block) //.
Qed.

(** [_touch]: one more reference per occurrence; hashes and mappings stay. *)
Lemma wp_touch ext l s bs Q E :
  kv_inv None ext l s → (∀ r, r ∈ bs → r < length (block_pool s)) →
  (∀ s' l', kv_inv None (bs ++ ext) l' s' → kv_frame s s' → same_others bs s s' →
     (∀ x, x < length (block_pool s) →
        ref_cnt (block_pool s' !!! x) = (ref_cnt (block_pool s !!! x) + occ x bs)%Z) →
     (∀ x, block_hash (block_pool s' !!! x) = block_hash (block_pool s !!! x)) →
     (∀ x, mapped_cpu_block (block_pool s' !!! x) = mapped_cpu_block (block_pool s !!! x)) →
     Q tt s') →
  wp (touch bs) s Q E.
Proof.
  move=> HI Hbs HQ.
  apply (wp_for_split _ _ (λ d _ s', ∃ l', kv_inv None (d ++ ext) l' s' ∧ kv_frame s s'
    ∧ same_others d s s'
    ∧ (∀ x, block_hash (block_pool s' !!! x) = block_hash (block_pool s !!! x))
    ∧ (∀ x, mapped_cpu_block (block_pool s' !!! x) = mapped_cpu_block (block_pool s !!! x)))).
  - exists l. split_and!; auto with py. by move=> x.
  - intros d r rest s1 Heq (l1 & HI1 & Hf1 & Hso & Hh & Hm).
    have Hr : r < length (block_pool s1).
    { rw (kf_len _ _ Hf1). apply Hbs. rw Heq. apply elem_of_app. right. by left. }
    eapply wp_mono; [by eapply wp_touch_one| |done].
    intros _ s2 ([l2 HI2] & Hf2 & Hso2 & _ & Hh2 & Hm2). exists l2. split_and!.
    + eapply kv_inv_ext; last exact HI2. move=> x. autorewrite with pyrw. lia.
    + by eapply kv_frame_trans.
    + by eapply same_others_trans.
    + move=> x. rw -Hh. destruct (decide (x = r)) as [->|Hx]; first done.
      apply (same_others_data _ _ _ x Hso2). by move=> /list_elem_of_singleton.
    + move=> x. rw -Hm. destruct (decide (x = r)) as [->|Hx]; first done.
      apply (same_others_data _ _ _ x Hso2). by move=> /list_elem_of_singleton.
  - intros s' (l' & HI' & Hf & Hso & Hh & Hm). apply (HQ _ l') => //.
    move=> x Hx. rw (ki_refs _ _ _ _ HI') ?(kf_len _ _ Hf) // (ki_refs _ _ _ _ HI) //.
    rw /held (kf_tables _ _ Hf) occ_app. lia.
Qed.

(** The body of [_get_new_blocks]: the head of the queue becomes an empty
    block with one reference and no hash. *)
Lemma wp_new_block ext r l s Q E k :
  kv_inv None ext (r :: l) s → E (ValueError "No free blocks available") →
  (∀ s', kv_inv None (r :: ext) l s' → kv_frame s s' → same_others [r] s s' →
     status (block_pool s' !!! r) = EMPTY →
     (enable_caching (kv_cfg s) = true → block_hash (block_pool s' !!! r) = None) →
     wp (rs ← new_blocks_loop k; mret (r :: rs)) s' Q E) →
  wp (new_blocks_loop (S k)) s Q E.
Proof.
  move=> HI HE HQ. simpl. wp_step. eapply wp_gpu_popleft; first done.
  move=> bs q [Hlen Hd] HI1. set s1 := set_free_block_queue _ _ in HI1 *.
  have Hr : r < length bs by rw Hlen; apply (qr_range _ _ _ (ki_queue _ _ _ _ HI)); left.
  rw /upd_gpu. do 2 wp_step.
  have HI2 : kv_inv (Some r) ext l (set_block_pool (alter mark_empty r (block_pool s1)) s1)
    by apply kv_inv_upd; auto.
  set s2 := set_block_pool _ _ in HI2 *.
  have Hr2 : r < length (block_pool s2) by rw /s2 /= length_alter.
  have Href2 : ref_cnt (block_pool s2 !!! r) = 0%Z by apply (ki_free _ _ _ _ HI2); [|right].
  rw /gblk. do 3 wp_step. rw Href2 /=. wp_step.
  destruct (mapped_cpu_block _) as [c|] eqn:Em; last first.
  { exfalso. apply (ki_mapped _ _ _ _ HI2 r); [by rw /s2 /= length_alter|done]. }
  rw /cblk. do 3 wp_step.
  have Hst2 : status (block_pool s2 !!! r) = EMPTY by rw (alter_field_eq status).
  have Hso2 : same_others [r] s s2.
  { move=> x Hx. rw (alter_field_ne data); [by move=> ?; subst; apply Hx; left|apply Hd]. }
  have Hfr2 : kv_frame s s2 by split => //=; rw length_alter.
  (* after the copy-on-write of the mapping *)
  enough (Hrest : ∀ s3 : KVCacheManager, kv_inv (Some r) ext l s3 → kv_frame s s3 → same_others [r] s s3 →
    status (block_pool s3 !!! r) = EMPTY →
    wp (cfg ← config; mwhen (enable_caching cfg) (evict_cached_block r);;; incr_ref r;;;
        rs ← new_blocks_loop k; mret (r :: rs)) s3 Q E).
  { wp_step; last by apply Hrest.
    wp_step. apply wp_cpu_popleft; first done. move=> c' bsc qc. wp_step. apply Hrest => /=.
    - apply (kv_inv_upd (Some r) ext l (set_free_block_queue_cpu qc (set_block_pool_cpu bsc s2))
        r (set_mapped_cpu_block (Some c'))); auto.
      by eapply kv_inv_same; last exact HI2.
    - split => //=; by rw !length_alter.
    - move=> x Hx. rw (alter_field_ne data); [by move=> ?; subst; apply Hx; left|by apply Hso2].
    - rw (alter_field status) //. }
  move=> s3 HI3 Hfr3 Hso3 Hst3. rw /config. do 3 wp_step.
  have Hr3 : r < length (block_pool s3) by apply (ki_foc _ _ _ _ HI3).
  assert (Hfin : ∀ s4 : KVCacheManager, kv_inv (Some r) ext l s4 → kv_frame s s4 → same_others [r] s s4 →
    status (block_pool s4 !!! r) = EMPTY →
    (enable_caching (kv_cfg s) = true → block_hash (block_pool s4 !!! r) = None) →
    wp (incr_ref r;;; rs ← new_blocks_loop k; mret (r :: rs)) s4 Q E).
  { move=> s4 HI4 Hfr4 Hso4 Hst4 Hh4. wp_step.
    have Hr4 : r < length (block_pool s4) by apply (ki_foc _ _ _ _ HI4).
    eapply wp_incr_ref; [done|done|left; split; [done|by rw Hst4]|].
    move=> s5 Hfr5 HI5 Hp5 _. apply HQ; [done|by eapply kv_frame_trans| | |].
    - move=> x Hx. rw Hp5 (alter_field_ne data); [by move=> ?; subst; apply Hx; left|by apply Hso4].
    - rw Hp5 (alter_field status) //.
    - rw Hp5 (alter_field block_hash) //. }
  wp_step.
  - eapply wp_evict_cached_block; [done|done|]. move=> s4 HI4 [Hf Hrf Hst Hmp _] Hso4 Hh4.
    apply Hfin; [done|by eapply kv_frame_trans| |by rw Hst|done].
    eapply same_others_mono; [|by eapply same_others_trans]. move=> x. rw elem_of_app. tauto.
  - apply Hfin => //. rw (kf_cfg _ _ Hfr3) in H. congruence.
Qed.

Lemma wp_new_blocks_loop k ext l s Q E :
  kv_inv None ext l s → k ≤ length l → E (ValueError "No free blocks available") →
  (∀ s', kv_inv None (take k l ++ ext) (drop k l) s' → kv_frame s s' →
     same_others (take k l) s s' →
     (∀ r, r ∈ take k l → status (block_pool s' !!! r) = EMPTY) →
     (enable_caching (kv_cfg s) = true →
        ∀ r, r ∈ take k l → block_hash (block_pool s' !!! r) = None) →
     Q (take k l) s') →
  wp (new_blocks_loop k) s Q E.
Proof.
  elim: k ext l s Q => [|k IH] ext l s Q HI Hk HE HQ.
  { apply wp_ret. rw /= in HQ. apply HQ; rw ?drop_0; auto with py; [by move=> x|..];
      try (by move=> ? /elem_of_nil); by move=> _ ? /elem_of_nil. }
  destruct l as [|r l]; first (simpl in Hk; lia).
  have Hnd := qr_nodup _ _ _ (ki_queue _ _ _ _ HI). apply NoDup_cons in Hnd as [Hrl _].
  eapply wp_new_block; [done|done|]. move=> s1 HI1 Hf1 Hso1 Hst1 Hh1. wp_step.
  eapply IH; [done|simpl in Hk; lia|done|]. move=> s2 HI2 Hf2 Hso2 Hst2 Hh2. wp_step.
  have Hr2 : r ∉ take k l by move=> /elem_of_take [i [Hi _]]; apply Hrl; by eapply list_elem_of_lookup_2.
  destruct (same_others_data _ _ _ r Hso2 Hr2) as (_ & Hd1 & Hd2 & _).
  apply (HQ s2); simpl.
  - eapply kv_inv_ext; last exact HI2. move=> x. autorewrite with pyrw. lia.
  - by eapply kv_frame_trans.
  - apply (same_others_trans [r] _ _ _ _ Hso1 Hso2).
  - move=> x /elem_of_cons [->|?]; [by rw Hd2|by apply Hst2].
  - move=> Hc x /elem_of_cons [->|?]; [rw Hd1; by apply Hh1|].
    apply Hh2; [by rw (kf_cfg _ _ Hf1)|done].
Qed.

Lemma kv_inv_num_free foc ext l s :
  kv_inv foc ext l s → num_free_blocks (free_block_queue s) = Z.of_nat (length l).
Proof. move=> HI. apply (qr_num _ _ _ (ki_queue _ _ _ _ HI)). Qed.

Lemma wp_get_new_blocks n ext l s Q E :
  kv_inv None ext l s → (n ≤ Z.of_nat (length l))%Z →
  E (ValueError "No free blocks available") →
  (∀ s' k, k = Z.to_nat n → kv_inv None (take k l ++ ext) (drop k l) s' → kv_frame s s' →
     same_others (take k l) s s' →
     (∀ r, r ∈ take k l → status (block_pool s' !!! r) = EMPTY) →
     (enable_caching (kv_cfg s) = true →
        ∀ r, r ∈ take k l → block_hash (block_pool s' !!! r) = None) →
     Q (take k l) s') →
  wp (get_new_blocks n) s Q E.
Proof.
  move=> HI Hn HE HQ. rw /get_new_blocks /num_free. do 2 wp_step.
  rw (kv_inv_num_free _ _ _ _ HI). destruct (Z.ltb_spec (Z.of_nat (length l)) n); first lia.
  eapply wp_new_blocks_loop; [done|lia|done|]. move=> *. by apply HQ.
Qed.

(** Releasing one reference. The block returns to the tail of the queue when it
    was the last one. *)
Lemma wp_free_block keep_cpu swapped ext l s r Q E :
  kv_inv None (r :: ext) l s →
  (swapped = true → ref_cnt (block_pool s !!! r) ≠ 1%Z →
     is_used (block_pool s !!! r) = false → E (ValueError "Invalid status")) →
  (∀ s', kv_inv None ext (if decide (ref_cnt (block_pool s !!! r) = 1%Z) then l ++ [r] else l) s' →
     kv_frame s s' → same_others [r] s s' →
     block_hash (block_pool s' !!! r) = block_hash (block_pool s !!! r) →
     mapped_cpu_block (block_pool s' !!! r) = mapped_cpu_block (block_pool s !!! r) → Q tt s') →
  wp (free_block keep_cpu swapped r) s Q E.
Proof.
  move=> HI HE HQ. have Hr : r < length (block_pool s) by apply (ki_ext_range _ _ _ _ HI); left.
  rw /free_block. wp_step. eapply wp_decr_ref; first done. move=> s1 Hf1 HI1 Hp1 _.
  have Hr1 : r < length (block_pool s1) by rw (kf_len _ _ Hf1).
  have Href1 : ref_cnt (block_pool s1 !!! r) = (ref_cnt (block_pool s !!! r) - 1)%Z
    by rw Hp1 (alter_field_eq ref_cnt).
  have Hso1 : same_others [r] s s1 by eapply same_others_alter.
  have Hh1 : block_hash (block_pool s1 !!! r) = block_hash (block_pool s !!! r)
    by rw Hp1 (alter_field block_hash).
  have Hm1 : mapped_cpu_block (block_pool s1 !!! r) = mapped_cpu_block (block_pool s !!! r)
    by rw Hp1 (alter_field mapped_cpu_block).
  rw /gblk. do 2 wp_step. rw Href1. case_decide as Hone.
  - rw Hone /= /upd_gpu. do 2 wp_step.
    have HI2 : kv_inv (Some r) ext l (set_block_pool (alter mark_free r (block_pool s1)) s1)
      by apply kv_inv_upd; auto.
    eapply wp_gpu_append; [exact HI2|by rw /= (alter_field_eq status)|].
    move=> bs q [Hlen Hd] HI3. simpl in *. destruct (data_proj _ _ (Hd r)) as (_ & _ & Hdh & _ & Hdm).
    apply HQ; [done| | | |]; simpl.
    + eapply kv_frame_trans; [done|]. split => //=. by rw Hlen length_alter.
    + move=> x Hx. rw Hd (alter_field_ne data); [by move=> ?; subst; apply Hx; left|by apply Hso1].
    + by rw Hdh (alter_field block_hash).
    + by rw Hdm (alter_field mapped_cpu_block).
  - destruct (Z.eqb_spec (ref_cnt (block_pool s !!! r) - 1) 0); first lia.
    wp_step; last by apply HQ.
    have Hst : status (block_pool s1 !!! r) = status (block_pool s !!! r) by rw Hp1 (alter_field status).
    pose proof (mark_clean_spec (block_pool s1 !!! r)) as Hmc.
    destruct (mark_clean (block_pool s1 !!! r)) as [b'|e] eqn:Emc.
    + destruct Hmc as (Hu & Hcl & _ & _ & [st ->]).
      apply (wp_try_gpu _ _ (set_status st)); first done.
      have Hnf : st ≠ FREE by move=> ?; subst st.
      have Hnf1 : status (block_pool s1 !!! r) ≠ FREE
        by move=> Hst1; move: Hu; rw /is_used /is_full /is_half Hst1.
      apply HQ; simpl.
      * apply kv_inv_upd; auto. right. by split.
      * eapply kv_frame_trans; [done|]. split => //=. by rw length_alter.
      * move=> x Hx. rw (alter_field_ne data); [by move=> ?; subst; apply Hx; left|by apply Hso1].
      * by rw (alter_field block_hash).
      * by rw (alter_field mapped_cpu_block).
    + rw /try_gpu /gblk. do 3 wp_step. rw Emc. apply wp_lift => // e' [<-].
      have -> : e = ValueError "Invalid status"
        by move: Emc; rw /mark_clean; repeat case_match; congruence.
      apply HE; [done|done|]. move: Hmc. by rw /is_used /is_full /is_half Hst.
Qed.
