(* ===== verification/KVOps.v ===== *)
(** The methods of [KVCacheManager] preserve its invariant, and what each
    returns on every branch. *)
From Stdlib Require Import ssreflect ZArith Lia.
From stdpp Require Import base numbers list strings.
From S2P Require Import Prelude SamplingParams KVCacheBlock Request FreeQueue BlockHash KVCacheManager KVInvariant.

(** * Block tables *)

(** Storing a table takes its references from outside and releases those of
    the table it replaces. *)
Lemma kv_inv_table_set foc ext l s rid bs :
  kv_inv foc (bs ++ ext) l s →
  kv_inv foc (default [] (dget (req_to_blocks s) rid) ++ ext) l
    (set_req_to_blocks (dset (req_to_blocks s) rid bs) s).
Proof.
  move=> [Hq Hids Hfree Hfoc Hrefs Htab Hext Hstat Hmapped Htabs Hc].
  have Hocc : ∀ r, from_option (occ r) 0%Z (dget (req_to_blocks s) rid)
    = occ r (default [] (dget (req_to_blocks s) rid)) by move=> r; destruct (dget _ _).
  split => //=; auto with py.
  - move=> r Hr. rw Hrefs // /held /= dsum_dset Hocc !occ_app. lia.
  - move=> rid' bs' r. rw dget_dset. case_decide; last by apply Htab.
    move=> [<-] Hr. apply Hext, elem_of_app. by left.
  - move=> r /elem_of_app [|?]; last by apply Hext, elem_of_app; right.
    destruct (dget (req_to_blocks s) rid) eqn:E; last by move=> /elem_of_nil. by apply (Htab rid).
Qed.

(** Extending a table. *)
Lemma kv_inv_table_extend foc ext l s rid bs new :
  dget (req_to_blocks s) rid = Some bs → kv_inv foc (new ++ ext) l s →
  kv_inv foc ext l (set_req_to_blocks (dset (req_to_blocks s) rid (bs ++ new)) s).
Proof.
  move=> Ht [Hq Hids Hfree Hfoc Hrefs Htab Hext Hstat Hmapped Htabs Hc].
  split => //=; auto with py.
  - move=> r Hr. rw Hrefs // /held /= dsum_dset Ht /= !occ_app. lia.
  - move=> rid' bs' r. rw dget_dset. case_decide; last by apply Htab.
    move=> [<-] /elem_of_app [Hr|Hr]; [by apply (Htab rid bs)|].
    apply Hext, elem_of_app. by left.
  - move=> r Hr. by apply Hext, elem_of_app; right.
Qed.

Lemma kv_inv_table_del foc ext l s rid :
  kv_inv foc ext l s →
  kv_inv foc (default [] (dget (req_to_blocks s) rid) ++ ext) l
    (set_req_to_blocks (ddel (req_to_blocks s) rid) s).
Proof.
  move=> [Hq Hids Hfree Hfoc Hrefs Htab Hext Hstat Hmapped Htabs Hc].
  have Hocc : ∀ r, from_option (occ r) 0%Z (dget (req_to_blocks s) rid)
    = occ r (default [] (dget (req_to_blocks s) rid)) by move=> r; destruct (dget _ _).
  split => //=; auto with py.
  - move=> r Hr. rw Hrefs // /held /= dsum_ddel Hocc occ_app. lia.
  - move=> rid' bs' r. rw dget_ddel //. case_decide; [done|by apply Htab].
  - move=> r /elem_of_app [|?]; last by apply Hext.
    destruct (dget (req_to_blocks s) rid) eqn:E; last by move=> /elem_of_nil. by apply (Htab rid).
Qed.

(** * [free] *)

Lemma occ_app_cons_middle x d r rest : occ x (d ++ r :: rest) = (occ x (r :: d) + occ x rest)%Z.
Proof. autorewrite with pyrw. lia. Qed.

(** Releasing a list of references. *)
Lemma wp_free_blocks keep_cpu swapped bs ext l s Q E :
  kv_inv None (bs ++ ext) l s →
  (swapped = true → E (ValueError "Invalid status")) →
  (∀ s' l', kv_inv None ext l' s' → kv_frame s s' → same_others bs s s' →
     (∀ x, block_hash (block_pool s' !!! x) = block_hash (block_pool s !!! x)) →
     (∀ x, mapped_cpu_block (block_pool s' !!! x) = mapped_cpu_block (block_pool s !!! x)) →
     (NoDup bs → l' = l ++ filter (λ r, ref_cnt (block_pool s !!! r) = 1%Z) bs) → Q tt s') →
  wp (mfor bs (free_block keep_cpu swapped)) s Q E.
Proof.
  move=> HI HE HQ.
  apply (wp_for_split _ _ (λ d rest s', ∃ l', kv_inv None (rest ++ ext) l' s' ∧ kv_frame s s'
    ∧ same_others d s s'
    ∧ (∀ x, block_hash (block_pool s' !!! x) = block_hash (block_pool s !!! x))
    ∧ (∀ x, mapped_cpu_block (block_pool s' !!! x) = mapped_cpu_block (block_pool s !!! x))
    ∧ (NoDup bs → l' = l ++ filter (λ r, ref_cnt (block_pool s !!! r) = 1%Z) d))).
  - exists l. split_and!; auto with py; [by move=> x|by rw app_nil_r].
  - intros d r rest s1 Heq (l1 & HI1 & Hf1 & Hso1 & Hh1 & Hm1 & Hl1).
    apply (wp_free_block _ _ (rest ++ ext) l1); [done|by move=> ? _ _; apply HE|].
    move=> s2 HI2 Hf2 Hso2 Hh2 Hm2. eexists. split_and!; [exact HI2|by eapply kv_frame_trans
      |by eapply same_others_trans| | |].
    + move=> x. rw -Hh1. destruct (decide (x = r)) as [->|Hx]; first done.
      apply (same_others_data _ _ _ x Hso2). by move=> /list_elem_of_singleton.
    + move=> x. rw -Hm1. destruct (decide (x = r)) as [->|Hx]; first done.
      apply (same_others_data _ _ _ x Hso2). by move=> /list_elem_of_singleton.
    + move=> Hnd. have Hrd : r ∉ d.
      { rw Heq in Hnd. apply NoDup_app in Hnd as (_ & Hd & _). move=> /Hd Hx. apply Hx. by left. }
      destruct (same_others_data _ _ _ r Hso1 Hrd) as [Hr _].
      rw Hr filter_app (Hl1 Hnd) filter_cons filter_nil.
      destruct (decide (ref_cnt (block_pool s !!! r) = 1%Z)); [by rw -app_assoc|by rw app_nil_r].
  - intros s' (l' & HI' & Hf & Hso & Hh & Hm & Hl). by apply (HQ _ l').
Qed.

Lemma wp_free rid keep_cpu swapped ext l s Q E :
  kv_inv None ext l s →
  (swapped = true → E (ValueError "Invalid status")) →
  let bs := default [] (dget (req_to_blocks s) rid) in
  let ordered := if enable_caching (kv_cfg s) then reverse bs else bs in
  (∀ s' l', kv_inv None ext l' s' → kv_cfg s' = kv_cfg s →
     length (block_pool s') = length (block_pool s) →
     req_to_blocks s' = ddel (req_to_blocks s) rid → req_to_blocks_cpu s' = req_to_blocks_cpu s →
     same_others bs s s' →
     (∀ x, block_hash (block_pool s' !!! x) = block_hash (block_pool s !!! x)) →
     (∀ x, mapped_cpu_block (block_pool s' !!! x) = mapped_cpu_block (block_pool s !!! x)) →
     (NoDup bs → l' = l ++ filter (λ r, ref_cnt (block_pool s !!! r) = 1%Z) ordered) → Q tt s') →
  wp (free rid keep_cpu swapped) s Q E.
Proof.
  move=> HI HE bs ordered HQ. rw /free /config. do 6 wp_step.
  have HI1 := kv_inv_table_del _ _ _ _ rid HI. fold bs in HI1.
  eapply wp_free_blocks; [|done|].
  - eapply kv_inv_ext; last exact HI1. move=> x. rw !occ_app.
    destruct (enable_caching (kv_cfg s)); by rw ?occ_rev.
  - move=> s' l' HI' [Hf1 Hf2 Hf3 Hf4] Hso Hh Hm Hl. apply (HQ _ l') => //.
    + eapply same_others_mono; last exact Hso. move=> x.
      destruct (enable_caching _); [by rw elem_of_reverse|done].
    + move=> Hnd. apply Hl. destruct (enable_caching _); [by rw reverse_Permutation|done].
Qed.

(** * Looking up the prefix cache *)

(** A hit is a block of the pool that carries the key. No exception. *)
Lemma wp_get_cached_block foc ext l s h Q E :
  kv_inv foc ext l s →
  (∀ o, match o with
        | Some b => b < length (block_pool s) ∧ block_hash (block_pool s !!! b) = Some h
        | None => dget (cached_block_hash_to_block s) h = None
        end → Q o s) →
  wp (get_cached_block h) s Q E.
Proof.
  move=> HI HQ. rw /get_cached_block. do 2 wp_step.
  destruct (dget (cached_block_hash_to_block s) h) as [inner|] eqn:Eh; last by apply wp_ret, HQ.
  destruct (ci_sound _ _ (ki_cache _ _ _ _ HI) _ _ Eh) as (Hne & Hwf & Hent).
  destruct inner as [|[id b] inner]; first done. simpl.
  destruct (decide (id = id)); last done. apply wp_ret, HQ.
  destruct (Hent id b) as (_ & ? & ?); [by rw /= decide_True|done].
Qed.

(** [computed_loop] returns the blocks of the longest cached prefix. *)
Lemma wp_computed_loop foc ext l s hs Q E :
  kv_inv foc ext l s →
  (∀ bs, Forall2 (λ b h, b < length (block_pool s) ∧ block_hash (block_pool s !!! b) = Some h)
           bs (take (length bs) hs) →
         (∀ h, hs !! length bs = Some h → dget (cached_block_hash_to_block s) h = None) → Q bs s) →
  wp (computed_loop hs) s Q E.
Proof.
  move=> HI. elim: hs Q => [|h hs IH] Q HQ /=; first by apply wp_ret, HQ; [constructor|].
  wp_step. eapply wp_get_cached_block; first done. move=> [b|] Hb.
  - wp_step. apply IH. move=> bs H2 Hn. wp_step. apply HQ; simpl; [by constructor|done].
  - wp_step. apply HQ; simpl; [constructor|by move=> h' [<-]].
Qed.

(** A request after [_cache_full_blocks]: only its hash bookkeeping changes. *)
Definition same_request (r r' : Request) : Prop :=
  ∃ hs n, r' = set_kv_block_hashes hs (set_num_cached_tokens n r).
Lemma same_request_refl r : same_request r r.
Proof. exists (kv_block_hashes r), (num_cached_tokens r). by destruct r. Qed.
Lemma same_request_trans r1 r2 r3 : same_request r1 r2 → same_request r2 r3 → same_request r1 r3.
Proof. intros (h1 & n1 & ->) (h2 & n2 & ->). by exists h2, n2. Qed.
Lemma same_request_hashes r hs : same_request r (set_kv_block_hashes hs r).
Proof. exists hs, (num_cached_tokens r). by destruct r. Qed.
Lemma same_request_cached r n : same_request r (set_num_cached_tokens n r).
Proof. exists (kv_block_hashes r), n. by destruct r. Qed.
#[export] Hint Resolve same_request_refl same_request_hashes same_request_cached : py.

Lemma meta_same_refl s : meta_same s s.
Proof. by split; auto with py. Qed.
Lemma meta_same_trans s1 s2 s3 : meta_same s1 s2 → meta_same s2 s3 → meta_same s1 s3.
Proof.
  move=> [F1 R1 S1 M1 Q1] [F2 R2 S2 M2 Q2]. split; [by eapply kv_frame_trans|..].
  - move=> x. by rw R2.
  - move=> x. by rw S2.
  - move=> x. by rw M2.
  - congruence.
Qed.

Section with_hash.
Context (py_hash : option Z → list Z → Z).

Lemma wp_get_computed_blocks foc ext l s r Q :
  kv_inv foc ext l s →
  (∀ bs r', same_request r r' →
     (enable_caching (kv_cfg s) = false → bs = []) →
     Forall2 (λ b h, b < length (block_pool s) ∧ block_hash (block_pool s !!! b) = Some h)
         bs (take (length bs) (kv_block_hashes r')) →
     (∀ h, enable_caching (kv_cfg s) = true → kv_block_hashes r' !! length bs = Some h →
           dget (cached_block_hash_to_block s) h = None) →
     (kv_block_hashes r = [] → enable_caching (kv_cfg s) = true →
      hash_request_tokens py_hash (block_size (kv_cfg s)) r = Ok (kv_block_hashes r')) →
     Q (bs, r') s) →
  wp (get_computed_blocks py_hash r) s Q any_exn.
Proof.
  move=> HI HQ. rw /get_computed_blocks /config. do 2 wp_step.
  destruct (enable_caching (kv_cfg s)) eqn:Ec; simpl; last first.
  { wp_step. apply HQ; auto with py; done. }
  wp_step. case_bool_decide as Hk.
  - wp_step. apply wp_lift => // hs Hhs. do 2 wp_step. eapply wp_computed_loop; first done.
    move=> bs H2 Hn. wp_step. apply HQ; auto with py. done.
  - wp_step. wp_step. eapply wp_computed_loop; first done. move=> bs H2 Hn. wp_step.
    apply HQ; auto with py; done.
Qed.

(** * Caching full blocks *)
Lemma wp_cache_full_block foc ext l s n r prev idx blk Q :
  kv_inv foc ext l s → blk < length (block_pool s) →
  (∀ s' r' h, kv_inv foc ext l s' → meta_same s s' → same_request r r' →
     block_hash (block_pool s' !!! blk) = Some h →
     (∀ x, x ≠ blk → block_hash (block_pool s' !!! x) = block_hash (block_pool s !!! x)) →
     Q (r', Some (hash_value h)) s') →
  wp (cache_full_block py_hash n (r, prev) (idx, blk)) s Q any_exn.
Proof.
  move=> HI Hb HQ. rw /cache_full_block /config. do 2 wp_step.
  assert (Hrest : ∀ r' h, same_request r r' →
    wp (try_gpu blk (block_hash_setter h);;;
        b ← gblk blk;
        mmodify (λ s, set_cached_block_hash_to_block
          (dset (cached_block_hash_to_block s) h
             (dset (default [] (dget (cached_block_hash_to_block s) h)) (block_id b) blk)) s);;;
        mret (r', Some (hash_value h))) s Q any_exn).
  { move=> r' h Hr'. wp_step. destruct (block_hash (block_pool s !!! blk)) as [h0|] eqn:Eh.
    - rw /try_gpu /gblk /block_hash_setter. do 3 wp_step. rw Eh /=. apply wp_lift => //.
    - apply (wp_try_gpu _ _ (set_block_hash (Some h))); first by rw /block_hash_setter Eh.
      rw /gblk. do 5 wp_step. apply HQ.
      + rw /= (alter_field block_id) // (ki_ids _ _ _ _ HI) //.
        apply kv_inv_rehash => //. apply cache_inv_add => //. apply (ki_cache _ _ _ _ HI).
      + split; simpl; [split => //=; by rw length_alter|by move=> x; apply alter_field..|done].
      + done.
      + by rw /= (alter_field_eq block_hash).
      + move=> x Hx. by rw /= (alter_field_ne block_hash). }
  wp_step. destruct (idx <? n)%Z.
  - destruct (kv_block_hashes r !! Z.to_nat idx); [|by apply wp_raise].
    wp_step. apply Hrest. auto with py.
  - wp_step. wp_step; last done. wp_step. apply wp_lift => // -[extra ?] _.
    wp_step. apply Hrest. rw /append_kv_block_hashes. auto with py.
Qed.

Lemma wp_cache_full_blocks foc ext l s r start bs prev Q :
  kv_inv foc ext l s → (∀ b, b ∈ bs → b < length (block_pool s)) →
  (∀ s' r', kv_inv foc ext l s' → meta_same s s' → same_request r r' →
     (∀ x, x ∉ bs → block_hash (block_pool s' !!! x) = block_hash (block_pool s !!! x)) →
     Q r' s') →
  wp (cache_full_blocks py_hash r start bs prev) s Q any_exn.
Proof.
  move=> HI Hbs HQ. rw /cache_full_blocks. wp_step.
  assert (Hrest : ∀ pv, wp ('(r', _) ← mfold (imap (λ i b, (start + Z.of_nat i, b)%Z) bs) (r, pv)
    (cache_full_block py_hash (Z.of_nat (length (kv_block_hashes r)))); mret r') s Q any_exn).
  { move=> pv. wp_step. eapply wp_mono.
    - apply (wp_fold _ _ _ (λ st s', kv_inv foc ext l s' ∧ meta_same s s' ∧ same_request r st.1
        ∧ (∀ x, x ∉ bs → block_hash (block_pool s' !!! x) = block_hash (block_pool s !!! x)))).
      + split_and!; auto using meta_same_refl with py.
      + intros [r1 pv1] [idx blk] s1 Hin (HI1 & Hm1 & Hr1 & Hh1). simpl in Hr1.
        have Hblk : blk ∈ bs.
        { apply elem_of_lookup_imap in Hin as (i & b & Heq & Hi). injection Heq as -> ->.
          by eapply list_elem_of_lookup_2. }
        apply (wp_cache_full_block foc ext l); [done| |].
        { rw (kf_len _ _ (ms_frame _ _ Hm1)). by apply Hbs. }
        move=> s2 r2 h HI2 Hm2 Hr2 _ Hh2. split_and!; [done|by eapply meta_same_trans
          |by eapply same_request_trans|].
        move=> x Hx. rw Hh2; [by move=> ?; subst|by apply Hh1].
    - intros [r1 pv1] s1 (HI1 & Hm1 & Hr1 & Hh1). wp_step. by apply HQ.
    - done. }
  destruct prev as [p|]; last by wp_step; apply Hrest.
  rw /gblk. do 2 wp_step. destruct (block_hash _); wp_step; [apply Hrest|done].
Qed.
End with_hash.

(** * Marking blocks in use *)

(** A status change between used statuses. *)
Lemma wp_mark f st ext l s r Q E :
  kv_inv None ext l s → r < length (block_pool s) → r ∉ l →
  f (block_pool s !!! r) = Ok (set_status st (block_pool s !!! r)) → st ≠ FREE →
  (∀ s', s' = set_block_pool (alter (set_status st) r (block_pool s)) s →
     kv_inv None ext l s' → kv_frame s s' → Q tt s') →
  wp (try_gpu r f) s Q E.
Proof.
  move=> HI Hr Hrl Hf Hst HQ. apply (wp_try_gpu _ _ (set_status st)); first done.
  apply HQ; first done; last by split => //=; rw length_alter.
  apply kv_inv_upd; auto. right. split; first done.
  by move=> /(ki_status _ _ _ _ HI r Hr ltac:(done)).
Qed.

(** Marking each block of a list in use keeps the invariant. *)
Lemma wp_mark_all f st bs ext l s Q E :
  kv_inv None ext l s → (∀ r, r ∈ bs → r < length (block_pool s) ∧ r ∉ l) →
  (∀ b, f b = Ok (set_status st b)) → st ≠ FREE →
  (∀ s', kv_inv None ext l s' → kv_frame s s' → same_others bs s s' →
     (∀ x, mapped_cpu_block (block_pool s' !!! x) = mapped_cpu_block (block_pool s !!! x)) →
     (∀ x, block_hash (block_pool s' !!! x) = block_hash (block_pool s !!! x)) →
     (∀ x, ref_cnt (block_pool s' !!! x) = ref_cnt (block_pool s !!! x)) → Q tt s') →
  wp (mfor bs (λ r, try_gpu r f)) s Q E.
Proof.
  move=> HI Hbs Hf Hst HQ.
  apply (wp_for_split _ _ (λ d _ s', kv_inv None ext l s' ∧ kv_frame s s' ∧ same_others d s s'
    ∧ (∀ x, mapped_cpu_block (block_pool s' !!! x) = mapped_cpu_block (block_pool s !!! x))
    ∧ (∀ x, block_hash (block_pool s' !!! x) = block_hash (block_pool s !!! x))
    ∧ (∀ x, ref_cnt (block_pool s' !!! x) = ref_cnt (block_pool s !!! x)))).
  - split_and!; auto with py. by move=> x.
  - intros d r rest s1 Heq (HI1 & Hf1 & Hso & Hm & Hh & Hrf).
    have Hrb : r ∈ bs by rw Heq; apply elem_of_app; right; left.
    destruct (Hbs r Hrb) as [Hr Hrl].
    eapply (wp_mark _ st); [done|by rw (kf_len _ _ Hf1)|done|apply Hf|done|].
    move=> s2 Hs2 HI2 Hf2. have Hp : block_pool s2 = alter (set_status st) r (block_pool s1) by rw Hs2.
    split_and!; [done|by eapply kv_frame_trans|..].
    + eapply same_others_trans; [done|by eapply same_others_alter].
    + move=> x. rw Hp (alter_field mapped_cpu_block) //.
    + move=> x. rw Hp (alter_field block_hash) //.
    + move=> x. rw Hp (alter_field ref_cnt) //.
  - intros s' (HI' & Hf' & Hso & Hm & Hh & Hrf). by apply HQ.
Qed.

(** * [allocate_slots] *)

(** What the free list tells about a block on it. *)
Lemma kv_inv_free_block ext l s r :
  kv_inv None ext l s → r ∈ l →
  r < length (block_pool s) ∧ held s r = 0%Z ∧ (r ∉ ext) ∧ ref_cnt (block_pool s !!! r) = 0%Z.
Proof.
  move=> HI Hrl. have Hr := qr_range _ _ _ (ki_queue _ _ _ _ HI) r Hrl.
  have Hz := proj2 (ki_free _ _ _ _ HI r Hr) (or_introl Hrl).
  have Hs := ki_refs _ _ _ _ HI r Hr. have := held_nonneg s r. have := occ_nonneg r ext.
  rw occ_zero. lia.
Qed.

Section with_hash2.
Context (py_hash : option Z → list Z → Z).

(** The number of new blocks [allocate_slots] takes when [nf] are free. *)
Definition alloc_count (cfg : KVConfig) (num_tokens nf : Z) (k : nat) (no_prealloc : bool) : Z :=
  Z.min (cdiv num_tokens (block_size cfg) + (if no_prealloc then 0 else num_preallocate_blocks cfg))%Z
    (Z.min nf (max_num_blocks_per_req cfg - Z.of_nat k)).

(** The free list once [computed] has been touched. *)
Lemma wp_alloc_touch ext l s computed Q E :
  kv_inv None ext l s → (∀ b, b ∈ computed → b < length (block_pool s)) →
  E (AssertionError "Computed blocks should be empty when prefix caching is disabled") →
  (∀ s1 l1, kv_inv None (computed ++ ext) l1 s1 → kv_frame s s1 → same_others computed s s1 →
     (∀ x, mapped_cpu_block (block_pool s1 !!! x) = mapped_cpu_block (block_pool s !!! x)) →
     (∀ x, block_hash (block_pool s1 !!! x) = block_hash (block_pool s !!! x)) → Q tt s1) →
  wp (if enable_caching (kv_cfg s) then touch computed
      else massert (bool_decide (computed = []))
             "Computed blocks should be empty when prefix caching is disabled") s Q E.
Proof.
  move=> HI Hc HE HQ. destruct (enable_caching (kv_cfg s)).
  - eapply wp_touch; [done|done|]. move=> s1 l1 *. by apply (HQ _ l1).
  - case_bool_decide as Hnil; wp_step; try done. subst. apply (HQ _ l); auto with py. by move=> x.
Qed.

Lemma wp_allocate_slots ext l s r num_tokens computed no_prealloc Q E :
  kv_inv None ext l s → (∀ b, b ∈ computed → b < length (block_pool s)) →
  dget (req_to_blocks s) (request_id r) = None →
  E (ValueError "num_tokens must be greater than 0") →
  E (AssertionError "Computed blocks should be empty when prefix caching is disabled") →
  E (AssertionError "num_new_blocks > 0") →
  E (ValueError "No free blocks available") →
  E (IndexError "req_blocks") →
  (fix_wrong_prefix_caching (kv_cfg s) = false → ∀ e, E e) →
  (* not enough free blocks *)
  (∀ s' l', kv_inv None (computed ++ ext) l' s' → kv_frame s s' → same_others computed s s' →
     (Z.of_nat (length l') < cdiv num_tokens (block_size (kv_cfg s)))%Z → Q (None, r) s') →
  (* success *)
  (∀ s' l1 new r', kv_inv None ext (drop (length new) l1) s' → new = take (length new) l1 →
     Z.of_nat (length new)
       = alloc_count (kv_cfg s) num_tokens (Z.of_nat (length l1)) (length computed) no_prealloc →
     (cdiv num_tokens (block_size (kv_cfg s)) ≤ Z.of_nat (length l1))%Z →
     new ≠ [] → NoDup new →
     (∀ b, b ∈ new → held s b = 0%Z ∧ (b ∉ computed) ∧ (b ∉ ext) ∧ b < length (block_pool s)) →
     kv_cfg s' = kv_cfg s → length (block_pool s') = length (block_pool s) →
     req_to_blocks s' = dset (req_to_blocks s) (request_id r) (computed ++ new) →
     req_to_blocks_cpu s' = req_to_blocks_cpu s → same_request r r' →
     Q (Some new, r') s') →
  wp (allocate_slots py_hash r num_tokens computed no_prealloc) s Q E.
Proof.
  move=> HI Hc Hrid HE1 HE2 HE3 HE4 HE5 HE6 HQ1 HQ2. rw /allocate_slots.
  destruct (num_tokens =? 0)%Z; first by wp_step.
  rw /config. do 3 wp_step. eapply wp_alloc_touch; [done|done|done|].
  move=> s1 l1 HI1 Hf1 Hso1 Hm1 Hh1. rw /num_free. do 2 wp_step.
  rw (kv_inv_num_free _ _ _ _ HI1).
  destruct (Z.ltb_spec (Z.of_nat (length l1)) (cdiv num_tokens (block_size (kv_cfg s)))) as [Hlt|Hge].
  { wp_step. by eapply HQ1. }
  fold (alloc_count (kv_cfg s) num_tokens (Z.of_nat (length l1)) (length computed) no_prealloc).
  set cnt := alloc_count _ _ _ _ _. have Hcnt : (cnt ≤ Z.of_nat (length l1))%Z.
  { rw /cnt /alloc_count. lia. }
  wp_step. wp_step; last done. wp_step.
  apply (wp_get_new_blocks _ _ _ _ _ _ HI1 Hcnt HE4).
  move=> s2 k Hk HI2 Hf2 Hso2 Hst2 Hh2. do 2 wp_step. set new := take k l1.
  have Hlen : length new = k by rw /new length_take; lia.
  have Hnewl : ∀ b, b ∈ new → b ∈ l1 by move=> b /elem_of_take [i [Hi _]]; eapply list_elem_of_lookup_2.
  have Hnd1 := qr_nodup _ _ _ (ki_queue _ _ _ _ HI1).
  have Hnd : NoDup new by eapply sublist_NoDup; [done|apply sublist_take].
  have Hnew : ∀ b, b ∈ new → held s b = 0%Z ∧ (b ∉ computed) ∧ (b ∉ ext) ∧ b < length (block_pool s).
  { move=> b /Hnewl /(kv_inv_free_block _ _ _ _ HI1) [Hb [Hh [Hne _]]].
    rw (kf_len _ _ Hf1) in Hb. rw /held (kf_tables _ _ Hf1) in Hh.
    rw elem_of_app in Hne. tauto. }
  have HI3 : kv_inv None ext (drop k l1)
    (set_req_to_blocks (dset (req_to_blocks s2) (request_id r) (computed ++ new)) s2).
  { have Ht : dget (req_to_blocks s2) (request_id r) = None
      by rw (kf_tables _ _ Hf2) (kf_tables _ _ Hf1).
    have HI3 := kv_inv_table_set None ext (drop k l1) s2 (request_id r) (computed ++ new).
    rw Ht in HI3. apply HI3. eapply kv_inv_ext; last exact HI2.
    move=> x. rw /new. autorewrite with pyrw. lia. }
  set s3 := set_req_to_blocks _ _ in HI3 *.
  assert (Hdone : ∀ s4 r', kv_inv None ext (drop k l1) s4 → kv_frame s3 s4 → same_request r r' →
    Q (Some new, r') s4).
  { move=> s4 r' HI4 [F1 F2 F3 F4] Hr'. eapply (HQ2 s4 l1 new); rw ?Hlen; try done.
    - rw Hk Z2Nat.id //. lia.
    - move=> Hnil. have : length new = 0 by rw Hnil. lia.
    - by rw F1 /= (kf_cfg _ _ Hf2) (kf_cfg _ _ Hf1).
    - by rw F2 /= (kf_len _ _ Hf2) (kf_len _ _ Hf1).
    - by rw F3 /= (kf_tables _ _ Hf2) (kf_tables _ _ Hf1).
    - by rw F4 /= (kf_tables_cpu _ _ Hf2) (kf_tables_cpu _ _ Hf1). }
  destruct (negb (enable_caching (kv_cfg s))); first by wp_step; apply Hdone; auto with py.
  have Hnew3 : ∀ b, b ∈ new → b < length (block_pool s3) ∧ b ∉ drop k l1.
  { move=> b Hb. split.
    - rw /= (kf_len _ _ Hf2) (kf_len _ _ Hf1). by apply Hnew.
    - rw -(take_drop k l1) in Hnd1. apply NoDup_app in Hnd1 as (_ & Hd & _). by apply Hd. }
  destruct (fix_wrong_prefix_caching (kv_cfg s)).
  - wp_step.
    eapply (wp_mono _ _ (λ _ s', kv_inv None ext (drop k l1) s' ∧ kv_frame s3 s'));
      [apply wp_for| |done].
    + split; auto with py.
    + intros i s4 _ [HI4 Hf4]. wp_step. rw /block_at.
      destruct (new !! Z.to_nat (Z.of_nat i)) as [b|] eqn:Eb; last by wp_step.
      wp_step. apply list_elem_of_lookup_2 in Eb. destruct (Hnew3 b Eb) as [Hb1 Hb2].
      eapply (wp_mark _ HALF_DIRTY); [done|by rw (kf_len _ _ Hf4)|done|done|done|].
      move=> s5 _ HI5 Hf5. split; [done|by eapply kv_frame_trans].
    + intros _ s4 [HI4 Hf4]. wp_step. apply Hdone; auto with py.
  - have HEall := HE6 eq_refl.
    case_bool_decide; first by wp_step; apply Hdone; auto with py.
    wp_step. apply (wp_mono _ _ (λ r' s4, wp (mret (Some new, r')) s4 Q E) _ any_exn);
      [eapply wp_cache_full_blocks; first exact HI3|done|by move=> ? _].
    + intros b Hb%elem_of_slice. apply elem_of_app in Hb as [Hb|Hb]; last by apply Hnew3.
      rw /= (kf_len _ _ Hf2) (kf_len _ _ Hf1). by apply Hc.
    + move=> s4 r' HI4 [Hf4 _ _ _ _] Hr' _. wp_step. by apply Hdone.
Qed.
End with_hash2.

(** * [append_slots] *)

(** Blocks of a table are in the pool and not free. *)
Lemma kv_inv_table_used ext l s rid bs b :
  kv_inv None ext l s → dget (req_to_blocks s) rid = Some bs → b ∈ bs →
  b < length (block_pool s) ∧ b ∉ l.
Proof.
  move=> HI Ht Hb. have Hr := ki_table_range _ _ _ _ HI _ _ _ Ht Hb. split; first done.
  move=> /(kv_inv_free_block _ _ _ _ HI) [_ [Hh _]].
  have := dsum_lookup_le (occ b) _ _ _ (occ_nonneg b) Ht. apply occ_pos in Hb.
  rw /held in Hh. lia.
Qed.

Lemma wp_mapped_block_id r s Q :
  (∀ c, mapped_cpu_block (block_pool s !!! r) = Some c → Q (block_id (block_pool_cpu s !!! c)) s) →
  wp (mapped_block_id r) s Q any_exn.
Proof.
  move=> HQ. rw /mapped_block_id /gblk /cblk. do 2 wp_step.
  destruct (mapped_cpu_block _) eqn:E; [do 3 wp_step; by apply HQ|by wp_step].
Qed.

Section with_hash3.
Context (py_hash : option Z → list Z → Z).

(** The bookkeeping after the allocation keeps the invariant, the tables and
    the queue; [bs] is the request's table. *)
Definition bookkeeping_post (ext l : list nat) (s : KVCacheManager) (r : Request)
    (r' : Request) (s' : KVCacheManager) : Prop :=
  kv_inv None ext l s' ∧ kv_frame s s' ∧ same_request r r'.

Lemma wp_append_slots_fixed ext l s r bs n :
  kv_inv None ext l s → (∀ b, b ∈ bs → b < length (block_pool s) ∧ b ∉ l) →
  wp (append_slots_fixed py_hash r bs n) s (bookkeeping_post ext l s r) any_exn.
Proof.
  move=> HI Hbs. rw /append_slots_fixed /config. do 2 wp_step.
  have Hsl : ∀ b i j, b ∈ slice bs i j → b < length (block_pool s) ∧ b ∉ l
    by intros b i j Hb%elem_of_slice; apply Hbs.
  cbv zeta. set new_full := slice bs (num_cached_tokens r / _) _.
  have Hnf : ∀ b, b ∈ new_full → b < length (block_pool s) ∧ b ∉ l by move=> b; apply Hsl.
  wp_step. apply (wp_mono _ _ (bookkeeping_post ext l s r) _ any_exn); [|move=> r1 s1|done].
  { case_bool_decide; first by wp_step; split_and!; auto with py.
    wp_step. destruct (1 <=? _)%Z.
    - wp_step. rw /block_at. destruct (bs !! _); wp_steps; try done.
      eapply wp_cache_full_blocks; [done|by intros; apply Hnf|].
      move=> s1 r1 HI1 [Hf1 _ _ _ _] Hr1 _. wp_step. split_and!; [done|done|].
      eapply same_request_trans; [done|auto with py].
    - do 2 wp_step. eapply wp_cache_full_blocks; [done|by intros; apply Hnf|].
      move=> s1 r1 HI1 [Hf1 _ _ _ _] Hr1 _. wp_step. split_and!; [done|done|].
      eapply same_request_trans; [done|auto with py]. }
  intros (HI1 & Hf1 & Hr1). wp_step.
  apply (wp_mono _ _ (λ _ s', kv_inv None ext l s' ∧ kv_frame s s') _ any_exn);
    [apply wp_for; [done|]|intros _ s2 [HI2 Hf2]|done].
  { intros b s2 Hb [HI2 Hf2]. wp_step. destruct (Hnf b Hb).
    eapply (wp_mark _ FULL_CLEAN); [done|by rw (kf_len _ _ Hf2)|done|done|done|].
    move=> s3 _ HI3 Hf3. rw /gblk. do 3 wp_step. apply wp_mapped_block_id => c _. wp_step.
    split; [by eapply kv_inv_same; last exact HI3|].
    eapply kv_frame_trans; [exact Hf2|]. by destruct Hf3; split. }
  wp_step. eapply (wp_mark_all _ HALF_DIRTY); [done| |done|done|].
  { move=> b /Hsl. by rw (kf_len _ _ Hf2). }
  move=> s3 HI3 Hf3 _ _ _ _. wp_step. split_and!; [done|by eapply kv_frame_trans|done].
Qed.

Lemma wp_append_slots_unfixed ext l s r bs n :
  kv_inv None ext l s → (∀ b, b ∈ bs → b < length (block_pool s) ∧ b ∉ l) →
  wp (append_slots_unfixed py_hash r bs n) s (bookkeeping_post ext l s r) any_exn.
Proof.
  move=> HI Hbs. rw /append_slots_unfixed /config. do 3 wp_step. wp_step; last done.
  case_bool_decide; first by wp_step; split_and!; auto with py.
  have Hnf : ∀ b a c, b ∈ slice bs a c → b < length (block_pool s)
    by intros b a c Hb%elem_of_slice; apply Hbs.
  wp_step. destruct (1 <=? _)%Z.
  - wp_step. rw /block_at. destruct (bs !! _); wp_steps; try done.
    eapply wp_cache_full_blocks; [done|by intros; eapply Hnf|].
    move=> s1 r1 HI1 [Hf1 _ _ _ _] Hr1 _. by split_and!.
  - wp_step. eapply wp_cache_full_blocks; [done|by intros; eapply Hnf|].
    move=> s1 r1 HI1 [Hf1 _ _ _ _] Hr1 _. by split_and!.
Qed.

(** How many blocks a running request with [have] blocks gets. *)
Definition append_count (cfg : KVConfig) (need : Z) (nf : Z) (have_ : nat) : Z :=
  if (need <=? 0)%Z then 0%Z
  else Z.min (need + num_preallocate_blocks cfg)%Z
         (Z.min nf (max_num_blocks_per_req cfg - Z.of_nat have_)).

Lemma wp_append_slots ext l s r num_tokens bs Q :
  kv_inv None ext l s → dget (req_to_blocks s) (request_id r) = Some bs →
  let need := (cdiv (num_computed_tokens r + num_tokens) (block_size (kv_cfg s))
               - Z.of_nat (length bs))%Z in
  ((Z.of_nat (length l) < need)%Z → Q (None, r) s) →
  (∀ s' new r', (need ≤ Z.of_nat (length l))%Z →
     Z.of_nat (length new) = append_count (kv_cfg s) need (Z.of_nat (length l)) (length bs) →
     new = take (length new) l → kv_inv None ext (drop (length new) l) s' →
     (∀ b, b ∈ new → held s b = 0%Z ∧ b ∉ ext) →
     kv_cfg s' = kv_cfg s → length (block_pool s') = length (block_pool s) →
     dget (req_to_blocks s') (request_id r) = Some (bs ++ new) →
     (∀ rid, rid ≠ request_id r → dget (req_to_blocks s') rid = dget (req_to_blocks s) rid) →
     req_to_blocks_cpu s' = req_to_blocks_cpu s → same_request r r' → Q (Some new, r') s') →
  wp (append_slots py_hash r num_tokens) s Q any_exn.
Proof.
  move=> HI Ht need HQ1 HQ2. rw /append_slots /config. do 4 wp_step. rw Ht -/need /num_free.
  do 2 wp_step. rw (kv_inv_num_free _ _ _ _ HI).
  destruct (Z.ltb_spec (Z.of_nat (length l)) need) as [Hlt|Hge]; first by wp_step; apply HQ1.
  assert (Hrest : ∀ s1 new, kv_inv None ext (drop (length new) l) s1 → new = take (length new) l →
    Z.of_nat (length new) = append_count (kv_cfg s) need (Z.of_nat (length l)) (length bs) →
    kv_cfg s1 = kv_cfg s → length (block_pool s1) = length (block_pool s) →
    dget (req_to_blocks s1) (request_id r) = Some (bs ++ new) →
    (∀ rid, rid ≠ request_id r → dget (req_to_blocks s1) rid = dget (req_to_blocks s) rid) →
    req_to_blocks_cpu s1 = req_to_blocks_cpu s →
    wp (let req_blocks := bs ++ new in
        if negb (enable_caching (kv_cfg s)) then mret (Some new, r)
        else
          request ←
            (if fix_wrong_prefix_caching (kv_cfg s)
             then append_slots_fixed py_hash r req_blocks
                    (cdiv (num_computed_tokens r + num_tokens) (block_size (kv_cfg s)))
             else append_slots_unfixed py_hash r req_blocks num_tokens);
          mret (Some new, request)) s1 Q any_exn).
  { move=> s1 new HI1 Hnew Hlen Hc1 Hl1 Ht1 Hto1 Hcpu1.
    assert (Hdone : ∀ s2 r', bookkeeping_post ext (drop (length new) l) s1 r r' s2 →
      Q (Some new, r') s2).
    { intros s2 r' (HI2 & [F1 F2 F3 F4] & Hr'). eapply HQ2; try done; rw ?F1 ?F2 ?F3 ?F4 //.
      rw Hnew. move=> b /elem_of_take [i [Hi _]]. apply list_elem_of_lookup_2 in Hi.
      by destruct (kv_inv_free_block _ _ _ _ HI Hi) as (_ & ? & ? & _). }
    simpl. destruct (negb _).
    { wp_step. apply Hdone. split_and!; auto with py. }
    wp_step. apply (wp_mono _ _ (bookkeeping_post ext (drop (length new) l) s1 r) _ any_exn);
      [|move=> r' s2 ?; wp_step; by apply Hdone|done].
    have Hused : ∀ b, b ∈ bs ++ new → b < length (block_pool s1) ∧ b ∉ drop (length new) l
      by move=> b; apply (kv_inv_table_used _ _ _ _ _ _ HI1 Ht1).
    destruct (fix_wrong_prefix_caching _); [by apply wp_append_slots_fixed|by apply wp_append_slots_unfixed]. }
  wp_step. destruct (Z.leb_spec need 0) as [Hn|Hn].
  { wp_step. apply Hrest => //=; rw ?drop_0 ?app_nil_r // /append_count.
    destruct (Z.leb_spec need 0); [done|lia]. }
  set cnt := Z.min (need + _) _. have Hcnt : (cnt ≤ Z.of_nat (length l))%Z by rw /cnt; lia.
  wp_step. wp_step; last done. wp_step.
  apply (wp_get_new_blocks _ _ _ _ _ _ HI Hcnt I).
  move=> s2 k Hk HI2 Hf2 _ _ _. do 3 wp_step. set new := take k l.
  have Hlen : length new = k by rw /new length_take; lia.
  apply Hrest; rw ?Hlen; simpl; try done.
  - apply kv_inv_table_extend; [by rw (kf_tables _ _ Hf2)|done].
  - rw Hk Z2Nat.id; first lia. rw /append_count. destruct (Z.leb_spec need 0); [lia|done].
  - apply (kf_cfg _ _ Hf2).
  - apply (kf_len _ _ Hf2).
  - rw (kf_tables _ _ Hf2) dget_dset_eq //.
  - move=> rid Hne. rw (kf_tables _ _ Hf2) dget_dset_ne //.
  - apply (kf_tables_cpu _ _ Hf2).
Qed.
End with_hash3.
