(* ===== verification/KVSwap.v ===== *)
(** Swapping requests between the GPU and the CPU pool: [swap_out] and
    [swap_in] preserve the invariant, and what they return. *)
From Stdlib Require Import ssreflect ZArith Lia.
From stdpp Require Import base numbers list strings.
From S2P Require Import Prelude SamplingParams KVCacheBlock Request FreeQueue BlockHash KVCacheManager KVInvariant KVOps.

(** * [swap_out] *)

(** The mapped CPU blocks of a list of GPU blocks. *)
Definition mapped_of (s : KVCacheManager) (bs : list nat) : list nat :=
  omap (λ r, mapped_cpu_block (block_pool s !!! r)) bs.

Lemma wp_mapped_blocks s bs Q E :
  (∀ r, r ∈ bs → mapped_cpu_block (block_pool s !!! r) ≠ None) →
  Q (mapped_of s bs) s → wp (mapped_blocks bs) s Q E.
Proof.
  rw /mapped_blocks => Hm HQ. change (Q ([] ++ mapped_of s bs) s) in HQ. move: Hm HQ.
  set body := λ acc r, _. generalize (@nil nat). rw /body. elim: bs => [|r bs IH] acc Hm HQ /=; first by apply wp_ret; rw app_nil_r in HQ.
  rw /gblk. do 3 wp_step. have Hr := Hm r ltac:(by left).
  destruct (mapped_cpu_block (block_pool s !!! r)) as [c|] eqn:E0; last done.
  wp_step. apply IH; [by move=> x Hx; apply Hm; right|].
  move: HQ. by rw /mapped_of /= E0 -app_assoc.
Qed.

(** The state a queueing of copies leaves. *)
Record only_pending (s s' : KVCacheManager) : Prop := {
  op_frame : kv_frame s s';
  op_pool : block_pool s' = block_pool s;
  op_queue : free_block_queue s' = free_block_queue s;
  op_cached : cached_block_hash_to_block s' = cached_block_hash_to_block s;
}.
Lemma only_pending_refl s : only_pending s s.
Proof. by split; auto with py. Qed.
#[export] Hint Resolve only_pending_refl : py.
Lemma only_pending_inv foc ext l s s' : only_pending s s' → kv_inv foc ext l s → kv_inv foc ext l s'.
Proof. move=> [[_ _ Ht _] Hp Hq Hc]. by apply kv_inv_same. Qed.

(** The copies [swap_out] queues: one per dirty block, in table order. *)
Definition dirty_copies (s : KVCacheManager) (bs : list nat) : list (nat * nat) :=
  omap (λ r, if is_dirty (block_pool s !!! r) then
               (λ c, (block_id (block_pool s !!! r), block_id (block_pool_cpu s !!! c)))
                 <$> mapped_cpu_block (block_pool s !!! r)
             else None) bs.

Lemma wp_queue_dirty s bs Q E :
  (∀ r, r ∈ bs → mapped_cpu_block (block_pool s !!! r) ≠ None) →
  (∀ s', only_pending s s' →
     pending_blocks_to_swap_out s' = pending_blocks_to_swap_out s ++ dirty_copies s bs →
     Q tt s') →
  wp (mfor bs (λ r,
        b ← gblk r;
        mwhen (is_dirty b)
          (c_id ← mapped_block_id r;
           mmodify (λ s, set_pending_blocks_to_swap_out
                           (pending_blocks_to_swap_out s ++ [(block_id b, c_id)]) s)))) s Q E.
Proof.
  move=> Hm HQ. apply (wp_for_split _ _ (λ d _ s', only_pending s s'
    ∧ block_pool_cpu s' = block_pool_cpu s
    ∧ pending_blocks_to_swap_out s' = pending_blocks_to_swap_out s ++ dirty_copies s d)).
  - split_and!; auto with py. by rw app_nil_r.
  - intros d r rest s1 Heq ([Hf Hp Hq Hc] & Hcpu & Hpend). rw /gblk. do 2 wp_step.
    have Hr : mapped_cpu_block (block_pool s !!! r) ≠ None
      by apply Hm; rw Heq; apply elem_of_app; right; left.
    rw {1}/dirty_copies omap_app /= -/(dirty_copies s d) Hp. wp_step.
    + rw /mapped_block_id /gblk /cblk. do 3 wp_step. rw Hp.
      destruct (mapped_cpu_block (block_pool s !!! r)) as [c|] eqn:E0; last done.
      do 4 wp_step. split_and!; simpl; [by split; [destruct Hf; split|..]|done|].
      by rw H /= Hpend Hcpu app_assoc.
    + by rw H /= app_nil_r.
  - intros s' (Hop & _ & Hpend). by apply HQ.
Qed.

(** [swap_out] frees the blocks only this request references, remembers the
    CPU copy of every block, and returns how many blocks it freed. *)
Lemma wp_swap_out rid ext l s gpu_blocks Q E :
  kv_inv None ext l s → dget (req_to_blocks s) rid = Some gpu_blocks →
  E (ValueError "Invalid status") →
  (∀ s' l', kv_inv None ext l' s' → kv_cfg s' = kv_cfg s →
     length (block_pool s') = length (block_pool s) →
     req_to_blocks s' = ddel (req_to_blocks s) rid →
     req_to_blocks_cpu s' = dset (req_to_blocks_cpu s) rid (mapped_of s gpu_blocks) →
     (∀ x, block_hash (block_pool s' !!! x) = block_hash (block_pool s !!! x)) →
     (∀ x, mapped_cpu_block (block_pool s' !!! x) = mapped_cpu_block (block_pool s !!! x)) →
     (NoDup gpu_blocks → l' = l ++ filter (λ r, ref_cnt (block_pool s !!! r) = 1%Z)
        (if enable_caching (kv_cfg s) then reverse gpu_blocks else gpu_blocks)) →
     Q (Z.of_nat (length l') - Z.of_nat (length l))%Z s') →
  wp (swap_out rid) s Q E.
Proof.
  move=> HI Ht HE HQ. rw /swap_out /num_free. do 4 wp_step. rw Ht.
  have Hm : ∀ r, r ∈ gpu_blocks → mapped_cpu_block (block_pool s !!! r) ≠ None
    by move=> r Hr; apply (ki_mapped _ _ _ _ HI), (ki_table_range _ _ _ _ HI _ _ _ Ht Hr).
  wp_step. apply wp_mapped_blocks; first done. wp_step. apply wp_queue_dirty; first done.
  move=> s1 Hop Hpend. have HI1 := only_pending_inv _ _ _ _ _ Hop HI.
  destruct Hop as [[F1 F2 F3 F4] Hp1 Hq1 _]. wp_step.
  eapply wp_free; [exact HI1|done|]. rw F1 F2 F3 F4 Ht Hp1 /=.
  move=> s2 l2 HI2 C2 L2 T2 TC2 Hso Hh2 Hm2 Hl2. do 4 wp_step.
  rw (kv_inv_num_free _ _ _ _ HI) (kv_inv_num_free _ _ _ _ HI2).
  wp_step. apply (HQ _ l2) => //=; [by eapply kv_inv_same; last exact HI2|by rw TC2].
Qed.

(** * [swap_in] *)

(** Statements that only touch the CPU pool and its queue. *)
Record cpu_only (s s' : KVCacheManager) : Prop := {
  co_pending : only_pending s s';
  co_out : pending_blocks_to_swap_out s' = pending_blocks_to_swap_out s;
  co_in : pending_blocks_to_swap_in s' = pending_blocks_to_swap_in s;
}.

Lemma wp_release_cpu_block c s Q :
  (∀ s', cpu_only s s' → Q tt s') → wp (release_cpu_block c) s Q any_exn.
Proof.
  move=> HQ. rw /release_cpu_block /cpu_decr_ref /upd_cpu /cblk. do 4 wp_step. wp_step.
  - apply wp_cpu_append; first done. move=> bs q. by apply HQ.
  - by apply HQ.
Qed.

Lemma cpu_only_trans s1 s2 s3 : cpu_only s1 s2 → cpu_only s2 s3 → cpu_only s1 s3.
Proof.
  move=> [[F1 ???] ??] [[F2 ???] ??].
  split; [split; [by eapply kv_frame_trans|congruence..]|congruence..].
Qed.

Lemma wp_release_cpu_blocks cs s Q :
  (∀ s', cpu_only s s' → Q tt s') → wp (mfor cs release_cpu_block) s Q any_exn.
Proof.
  move=> HQ. eapply (wp_mono _ _ (λ _ s', cpu_only s s')); [apply wp_for|move=> [] s'; apply HQ|done].
  - by split; auto with py.
  - move=> c s1 _ H1. apply wp_release_cpu_block => s2 H2. by eapply cpu_only_trans.
Qed.

(** Moving the mapping of a block in use: the GPU side only sees a new
    [mapped_cpu_block]. *)
Lemma wp_relocate ext l s r c Q :
  kv_inv None ext l s →
  (∀ s', kv_inv None ext l s' → kv_frame s s' →
     (∀ x, status (block_pool s' !!! x) = status (block_pool s !!! x)) →
     (∀ x, mapped_cpu_block (block_pool s' !!! x)
       = if bool_decide (x = r ∧ r < length (block_pool s)) then Some c
         else mapped_cpu_block (block_pool s !!! x)) →
     Q tt s') →
  wp (relocate (r, c)) s Q any_exn.
Proof.
  move=> HI HQ. rw /relocate /gblk /cpu_decr_ref /upd_cpu /cblk. do 2 wp_step.
  destruct (mapped_cpu_block _) as [old|]; last by wp_step.
  do 5 wp_step.
  enough (Hrest : ∀ s1, cpu_only s s1 → wp (upd_gpu r (set_mapped_cpu_block (Some c))) s1 Q any_exn).
  { wp_step; last by apply Hrest. apply wp_cpu_append; first done. move=> bs q. by apply Hrest. }
  move=> s1 [Hop _ _]. rw /upd_gpu. wp_step. have HI1 := only_pending_inv _ _ _ _ _ Hop HI.
  destruct Hop as [Hf Hp _ _]. apply HQ.
  - by apply kv_inv_upd; auto.
  - eapply kv_frame_trans; [exact Hf|]. by split => //=; rw length_alter.
  - move=> x. by rw /= (alter_field status) // Hp.
  - move=> x. rw /= Hp. case_bool_decide as Hx; first by destruct Hx as [-> ?]; rw (alter_field_eq mapped_cpu_block).
    destruct (decide (r = x)) as [->|?]; last by rw (alter_field_ne mapped_cpu_block).
    rw !list_lookup_total_alt list_lookup_alter_eq.
    by rw (lookup_ge_None_2 _ x); first lia.
Qed.

Lemma wp_relocate_all ext l s gcs Q :
  kv_inv None ext l s →
  (∀ s', kv_inv None ext l s' → kv_frame s s' → Q tt s') →
  wp (mfor gcs relocate) s Q any_exn.
Proof.
  move=> HI HQ.
  eapply (wp_mono _ _ (λ _ s', kv_inv None ext l s' ∧ kv_frame s s'));
    [apply wp_for; [by split; auto with py|]|move=> [] s' []; by apply HQ|done].
  move=> [r c] s1 _ [HI1 Hf1]. eapply wp_relocate; first done.
  move=> s2 HI2 Hf2 _ _. split; [done|by eapply kv_frame_trans].
Qed.

Lemma wp_restore_status ext l s n idx r Q :
  kv_inv None ext l s → r < length (block_pool s) → r ∉ l →
  (∀ s', kv_inv None ext l s' → kv_frame s s' → Q tt s') →
  wp (restore_status n (idx, r)) s Q any_exn.
Proof.
  move=> HI Hr Hl HQ. rw /restore_status /config. do 2 wp_step.
  assert (Hcopy : ∀ s1, kv_inv None ext l s1 → kv_frame s s1 →
    wp (b ← gblk r; c_id ← mapped_block_id r;
        mmodify (λ s, set_pending_blocks_to_swap_in
                        (pending_blocks_to_swap_in s ++ [(c_id, block_id b)]) s)) s1 Q any_exn).
  { move=> s1 HI1 Hf1. rw /gblk. do 3 wp_step. apply wp_mapped_block_id => c _. wp_step.
    apply HQ; [by eapply kv_inv_same; last exact HI1|]. by destruct Hf1; split. }
  wp_step.
  - wp_step. wp_step.
    + eapply (wp_mark _ FULL_CLEAN); [done..|]. move=> s1 _ HI1 Hf1. by apply Hcopy.
    + eapply (wp_mark _ HALF_DIRTY); [done..|]. move=> s1 _ HI1 Hf1. by apply Hcopy.
  - rw /upd_gpu. wp_step. apply HQ; last by split => //=; rw length_alter.
    apply kv_inv_upd; auto. right. split; first done.
    by move=> /(ki_status _ _ _ _ HI r Hr ltac:(done)).
Qed.

Lemma wp_restore_all ext l s n ibs Q :
  kv_inv None ext l s → (∀ ib, ib ∈ ibs → ib.2 < length (block_pool s) ∧ ib.2 ∉ l) →
  (∀ s', kv_inv None ext l s' → kv_frame s s' → Q tt s') →
  wp (mfor ibs (restore_status n)) s Q any_exn.
Proof.
  move=> HI Hib HQ.
  eapply (wp_mono _ _ (λ _ s', kv_inv None ext l s' ∧ kv_frame s s'));
    [apply wp_for; [by split; auto with py|]|move=> [] s' []; by apply HQ|done].
  move=> [i r] s1 /Hib /= [Hr Hl] [HI1 Hf1].
  eapply wp_restore_status; [done|by rw (kf_len _ _ Hf1)|done|].
  move=> s2 HI2 Hf2. split; [done|by eapply kv_frame_trans].
Qed.

Section with_hash.
Context (py_hash : option Z → list Z → Z).

Lemma wp_swap_in ext l s r computed cpu_blocks Q :
  kv_inv None ext l s → (∀ b, b ∈ computed → b < length (block_pool s)) →
  dget (req_to_blocks s) (request_id r) = None →
  dget (req_to_blocks_cpu s) (request_id r) = Some cpu_blocks →
  (∀ s' l', kv_inv None (computed ++ ext) l' s' → kv_frame s s' → Q (None, r) s') →
  (∀ s' l' new r', kv_inv None ext l' s' → kv_cfg s' = kv_cfg s →
     length (block_pool s') = length (block_pool s) → NoDup new → new ≠ [] →
     (∀ b, b ∈ new → held s b = 0%Z ∧ (b ∉ computed) ∧ (b ∉ ext)) →
     req_to_blocks s' = dset (req_to_blocks s) (request_id r) (computed ++ new) →
     req_to_blocks_cpu s' = ddel (req_to_blocks_cpu s) (request_id r) →
     same_request r r' → Q (Some new, r') s') →
  wp (swap_in py_hash r computed) s Q any_exn.
Proof.
  move=> HI Hc Ht Htc HQ1 HQ2. rw /swap_in /config. do 4 wp_step. rw Htc. wp_step.
  eapply wp_allocate_slots; [done|done|done|done..| |].
  { move=> s1 l1 HI1 Hf1 _ _. wp_step. by eapply HQ1. }
  move=> s1 l1 new r1 HI1 Hnew _ _ Hne Hnd Hfresh C1 L1 T1 TC1 Hr1.
  have Hused : ∀ b, b ∈ new → b < length (block_pool s1) ∧ b ∉ drop (length new) l1.
  { move=> b Hb. apply (kv_inv_table_used _ _ _ (request_id r) (computed ++ new) _ HI1);
      [by rw T1 dget_dset_eq|by apply elem_of_app; right]. }
  wp_step. apply wp_release_cpu_blocks => s2 [Hop2 _ _].
  have HI2 := only_pending_inv _ _ _ _ _ Hop2 HI1. have Hf2 := op_frame _ _ Hop2.
  wp_step. eapply wp_relocate_all; [exact HI2|]. move=> s3 HI3 Hf3.
  wp_step. eapply wp_restore_all; [exact HI3| |].
  { move=> ib Hib. apply elem_of_lookup_imap in Hib as (i & b & -> & Hi). simpl.
    rw (kf_len _ _ Hf3) (kf_len _ _ Hf2). by apply Hused, list_elem_of_lookup_2 with i. }
  move=> s4 HI4 Hf4. do 3 wp_step.
  have [F1 F2 F3 F4] := kv_frame_trans _ _ _ (kv_frame_trans _ _ _ Hf2 Hf3) Hf4.
  have Hid : request_id r1 = request_id r by destruct Hr1 as (? & ? & ->).
  eapply HQ2; simpl; rw ?F1 ?F2 ?F3 ?F4 ?C1 ?L1 ?T1 ?TC1 ?Hid; try done;
    [by eapply kv_inv_same; last exact HI4|].
  move=> b /Hfresh. tauto.
Qed.
End with_hash.
