(* ===== verification/KVSafety.v ===== *)
(** Runs of the KV-cache manager: construction, sequences of method calls,
    and the safety theorems that hold in every reachable state. *)
From Stdlib Require Import ssreflect ZArith Lia.
From stdpp Require Import base numbers list strings.
From S2P Require Import Prelude SamplingParams KVCacheBlock Request FreeQueue BlockHash KVCacheManager KVInvariant KVOps KVSwap.

(** * Construction *)

(** The constructor's loop after [i] blocks. *)
Record init_loop (n m i : nat) (s : KVCacheManager) : Prop := {
  il_queue : queue_repr (block_pool s) (free_block_queue s) (seq 0 n);
  il_len : length (block_pool s) = n;
  il_cpu : queue_repr (block_pool_cpu s) (free_block_queue_cpu s) (seq i (m - i));
  il_cpu_len : length (block_pool_cpu s) = m;
  il_data : ∀ r, r < n → block_id (block_pool s !!! r) = r ∧ ref_cnt (block_pool s !!! r) = 0%Z
    ∧ block_hash (block_pool s !!! r) = None ∧ status (block_pool s !!! r) = FREE
    ∧ (r < i → mapped_cpu_block (block_pool s !!! r) = Some r);
  il_cpu_ref : ∀ c, c < m → ref_cnt (block_pool_cpu s !!! c) = 0%Z;
  il_tables : req_to_blocks s = [] ∧ req_to_blocks_cpu s = [] ∧ cached_block_hash_to_block s = [];
}.

Lemma wp_cpu_popleft_queue c l s Q E :
  queue_repr (block_pool_cpu s) (free_block_queue_cpu s) (c :: l) →
  (∀ bs q, same_data (block_pool_cpu s) bs → queue_repr bs q l →
     Q c (set_free_block_queue_cpu q (set_block_pool_cpu bs s))) →
  wp cpu_popleft s Q E.
Proof.
  move=> Hq HQ. destruct (popleft_refines _ _ _ Hq) as (bs & q & Hp & Hq' & Hd).
  rw /wp /cpu_popleft Hp. by apply HQ.
Qed.

Lemma seq_head i m : i < m → seq i (m - i) = i :: seq (S i) (m - S i).
Proof. move=> Hi. by have -> : m - i = S (m - S i) by lia. Qed.

Lemma init_loop_step n m i s Q E :
  i < n → n ≤ m → init_loop n m i s →
  (∀ s', init_loop n m (S i) s' → Q tt s') →
  wp (upd_gpu i mark_free;;; c ← cpu_popleft; upd_gpu i (set_mapped_cpu_block (Some c))) s Q E.
Proof.
  move=> Hi Hnm [Hq Hl Hqc Hlc Hd Hrc Ht] HQ. rw /upd_gpu. do 3 wp_step.
  rw seq_head in Hqc; first lia. eapply wp_cpu_popleft_queue; [exact Hqc|]. move=> bs q [Hlb Hdb] Hq'. simpl in *.
  wp_step. apply HQ. split; simpl.
  - apply queue_repr_alter; [done|done|]. by apply queue_repr_alter.
  - by rw !length_alter.
  - done.
  - by rw Hlb.
  - move=> r Hr. destruct (Hd r Hr) as (H1 & H2 & H3 & H4 & H5).
    rw !(alter_field block_id) // !(alter_field ref_cnt) // !(alter_field block_hash) //.
    rw (alter_field status) //. split_and!; try done.
    + destruct (decide (i = r)) as [->|?]; [by rw (alter_field_eq status) ?Hl|by rw (alter_field_ne status)].
    + move=> Hri. destruct (decide (i = r)) as [->|?].
      * by rw (alter_field_eq mapped_cpu_block) ?length_alter ?Hl.
      * rw (alter_field_ne mapped_cpu_block) // (alter_field mapped_cpu_block) //. apply H5. lia.
  - move=> c Hc. destruct (data_proj _ _ (Hdb c)) as (_ & -> & _). by apply Hrc.
  - done.
Qed.

Lemma new_pool_lookup n r : r < n → (new_block <$> seq 0 n) !!! r = new_block r.
Proof.
  move=> Hr. rw list_lookup_total_alt list_lookup_fmap lookup_seq_lt //.
Qed.

Lemma new_pool_unlinked n r :
  prev_free_block ((new_block <$> seq 0 n) !!! r) = None
  ∧ next_free_block ((new_block <$> seq 0 n) !!! r) = None.
Proof.
  destruct (decide (r < n)) as [Hr|Hr]; first by rw new_pool_lookup.
  rw list_lookup_total_alt lookup_ge_None_2 //. rw length_fmap length_seq. lia.
Qed.

(** [KVCacheManager(...)] returns when both pools are non-empty and every GPU
    block finds a CPU block to map to. *)
Lemma kv_init_spec bs n m len sw ec pre fix_ :
  0 < n → n ≤ m →
  ∃ s, kv_init bs n m len sw ec pre fix_ = Ok s ∧ init_loop n m n s
    ∧ kv_cfg s = {| block_size := bs; max_num_blocks_per_req := cdiv len bs; sliding_window := sw;
         enable_caching := ec; fix_wrong_prefix_caching := fix_;
         num_preallocate_blocks := cdiv pre bs |}.
Proof.
  move=> Hn Hm. rw /kv_init.
  have Hne : ∀ k, 0 < k → new_block <$> seq 0 k ≠ [] by move=> [|k]; [lia|].
  destruct (queue_init_refines _ (Hne n Hn) (new_pool_unlinked n)) as (p & q & -> & Hq & [Hl Hd]).
  destruct (queue_init_refines _ (Hne m ltac:(lia)) (new_pool_unlinked m)) as (pc & qc & -> & Hqc & [Hlc Hdc]).
  rw !length_fmap !length_seq in Hl Hq. rw !length_fmap !length_seq in Hlc Hqc.
  simpl. set s0 := {| kv_cfg := _ |}.
  have HI0 : init_loop n m 0 s0.
  { split => //=; [by rw Nat.sub_0_r| |].
    - move=> r Hr. destruct (data_proj _ _ (Hd r)) as (-> & -> & -> & -> & _).
      rw new_pool_lookup //=. split_and!; try done. lia.
    - move=> c Hc. destruct (data_proj _ _ (Hdc c)) as (_ & -> & _). by rw new_pool_lookup. }
  assert (Hloop : wp (mfor (seq 0 n) (λ r, upd_gpu r mark_free;;; c ← cpu_popleft;
    upd_gpu r (set_mapped_cpu_block (Some c)))) s0
      (λ _ s, init_loop n m n s ∧ kv_cfg s = kv_cfg s0) no_exn).
  { apply (wp_for_idx _ _ (λ k s, init_loop n m k s ∧ kv_cfg s = kv_cfg s0)); [done| |by rw length_seq].
    intros k x s [-> Hk]%lookup_seq [HI Hc]. simpl. apply wp_and; last first.
    - rw /upd_gpu. do 3 wp_step. rw /wp /cpu_popleft.
      have Hqk := il_cpu _ _ _ _ HI. rw seq_head in Hqk; first lia. destruct (popleft_refines _ _ _ Hqk) as (? & ? & Hp & _).
      simpl. by rw Hp.
    - eapply init_loop_step; [exact Hk|exact Hm|exact HI|done]. }
  destruct (wp_returns _ _ _ Hloop) as ([] & s & -> & HI & Hc). by exists s.
Qed.

Lemma init_loop_inv n m s : init_loop n m n s → kv_inv None [] (seq 0 n) s.
Proof.
  move=> [Hq Hl _ _ Hd _ [Ht1 [Ht2 Ht3]]]. split; rw ?Hl; try done.
  - move=> r Hr. by destruct (Hd r Hr).
  - move=> r Hr. destruct (Hd r Hr) as (_ & -> & _).
    split; [move=> _; left; apply elem_of_seq; lia|done].
  - move=> r Hr. destruct (Hd r Hr) as (_ & -> & _). by rw /held Ht1.
  - move=> rid bs r. by rw Ht1.
  - by move=> r /elem_of_nil.
  - move=> r Hr _. destruct (Hd r Hr) as (_ & _ & _ & -> & _).
    split; [move=> _; apply elem_of_seq; lia|done].
  - move=> r Hr. destruct (Hd r Hr) as (_ & _ & _ & _ & Hmap). by rw Hmap.
  - rw Ht1. apply dict_wf_nil.
  - rw Ht3. split; [apply dict_wf_nil|done|].
    move=> r h. rw Hl => Hr. destruct (Hd r Hr) as (_ & _ & -> & _). done.
Qed.

(** * Calls *)

(** The state-changing methods the scheduler calls, with their arguments. *)
Inductive kv_call :=
  | GetComputed (r : Request)
  | Append (r : Request) (num_tokens : Z)
  | Allocate (r : Request) (num_tokens : Z) (computed : list nat) (no_preallocate : bool)
  | Free (rid : string) (keep_cpu swapped : bool)
  | SwapIn (r : Request) (computed : list nat)
  | SwapOut (rid : string)
  | ResetSwapIn
  | ResetSwapOut.

(** [Some] new blocks, or [None] when the method gave up. *)
Definition kv_run (py_hash : option Z → list Z → Z) (c : kv_call) : KV (option (list nat)) :=
  match c with
  | GetComputed r => '(bs, _) ← get_computed_blocks py_hash r; mret (Some bs)
  | Append r n => '(o, _) ← append_slots py_hash r n; mret o
  | Allocate r n computed no_pre => '(o, _) ← allocate_slots py_hash r n computed no_pre; mret o
  | Free rid keep swapped => free rid keep swapped;;; mret (Some [])
  | SwapIn r computed => '(o, _) ← swap_in py_hash r computed; mret o
  | SwapOut rid => swap_out rid;;; mret (Some [])
  | ResetSwapIn => get_and_reset_pending_blocks_to_swap_in;;; mret (Some [])
  | ResetSwapOut => get_and_reset_pending_blocks_to_swap_out;;; mret (Some [])
  end.

(** The callers' side: a request is given blocks when it has none, and the
    cached blocks handed in are blocks of the pool. *)
Definition kv_call_ok (c : kv_call) (s : KVCacheManager) : Prop :=
  match c with
  | Allocate r _ computed _ | SwapIn r computed =>
    dget (req_to_blocks s) (request_id r) = None ∧ ∀ b, b ∈ computed → b < length (block_pool s)
  | _ => True
  end.

(** The references a failed call keeps although nobody will release them. *)
Definition kv_lost (c : kv_call) (o : option (list nat)) : list nat :=
  match c, o with
  | Allocate _ _ computed _, None | SwapIn _ computed, None => computed
  | _, _ => []
  end.

(** States the manager can reach, with the multiset of lost references. *)
Inductive kv_reach (py_hash : option Z → list Z → Z) : list nat → KVCacheManager → Prop :=
  | kv_reach_init bs n m len sw ec pre fix_ s :
      0 < n → n ≤ m → kv_init bs n m len sw ec pre fix_ = Ok s → kv_reach py_hash [] s
  | kv_reach_call ext s c o s' :
      kv_reach py_hash ext s → kv_call_ok c s → kv_run py_hash c s = Ok (o, s') →
      kv_reach py_hash (kv_lost c o ++ ext) s'.

Lemma wp_kv_run py_hash c ext l s :
  kv_inv None ext l s → kv_call_ok c s →
  wp (kv_run py_hash c) s (λ o s', ∃ l', kv_inv None (kv_lost c o ++ ext) l' s') any_exn.
Proof.
  move=> HI Hok. destruct c as [r|r n|r n comp np|rid keep sw|r comp|rid| |]; simpl in *.
  - wp_step. eapply wp_get_computed_blocks; first done. intros. wp_step. eauto.
  - wp_step. destruct (dget (req_to_blocks s) (request_id r)) as [bs|] eqn:Ht.
    + eapply wp_append_slots; [done|done|by intros; wp_step; eauto|]. intros. wp_step. eauto.
    + rw /append_slots /config. do 4 wp_step. by rw Ht; wp_step.
  - destruct Hok as [Ht Hc]. wp_step. eapply wp_allocate_slots; try done;
      intros; wp_step; eauto.
  - wp_step. eapply wp_free; [done|done|]. intros. wp_step. eauto.
  - destruct Hok as [Ht Hc]. wp_step.
    destruct (dget (req_to_blocks_cpu s) (request_id r)) as [cpu|] eqn:Htc; last first.
    { rw /swap_in /config. do 4 wp_step. by rw Htc; wp_step. }
    eapply wp_swap_in; try done; intros; wp_step; eauto.
  - wp_step. destruct (dget (req_to_blocks s) rid) as [bs|] eqn:Ht; last first.
    { rw /swap_out /num_free. do 4 wp_step. by rw Ht; wp_step. }
    eapply wp_swap_out; [done|done|done|]. intros. wp_step. eauto.
  - rw /get_and_reset_pending_blocks_to_swap_in. wp_steps. exists l. by eapply kv_inv_same; last exact HI.
  - rw /get_and_reset_pending_blocks_to_swap_out. wp_steps. exists l. by eapply kv_inv_same; last exact HI.
Qed.

Lemma kv_reach_inv py_hash ext s : kv_reach py_hash ext s → ∃ l, kv_inv None ext l s.
Proof.
  induction 1 as [bs n m len sw ec pre fix_ s Hn Hm Hs|ext s c o s' _ [l HI] Hok Hrun].
  - destruct (kv_init_spec bs n m len sw ec pre fix_ Hn Hm) as (s' & Hs' & HI & _).
    rw Hs in Hs'. injection Hs' as ->. eauto using init_loop_inv.
  - by apply (wp_ok _ _ _ _ _ _ (wp_kv_run py_hash c ext l s HI Hok)).
Qed.

(** The free list is computable from the state. *)
Lemma kv_inv_walk foc ext l s : kv_inv foc ext l s →
  get_all_free_blocks (length (block_pool s)) (block_pool s) (free_block_queue s) = Some l.
Proof.
  move=> HI. have Hq := ki_queue _ _ _ _ HI. apply get_all_free_blocks_refines; first done.
  rw (qr_num _ _ _ Hq).
  have Hsub : l ⊆+ seq 0 (length (block_pool s)).
  { apply NoDup_submseteq; first apply (qr_nodup _ _ _ Hq).
    move=> x /(qr_range _ _ _ Hq) ?. apply elem_of_seq. lia. }
  apply submseteq_length in Hsub. rw length_seq in Hsub. lia.
Qed.

(** A call that does not give up loses nothing. *)
Lemma kv_reach_some py_hash ext s c bs s' :
  kv_reach py_hash ext s → kv_call_ok c s → kv_run py_hash c s = Ok (Some bs, s') →
  kv_reach py_hash ext s'.
Proof.
  move=> Hre Hok Hrun. have := kv_reach_call _ _ _ _ _ _ Hre Hok Hrun. by destruct c.
Qed.
