(* ===== verification/KVTheorems.v ===== *)
(** The theorems on the KV-cache manager: what holds in every reachable state,
    what each method does on each branch, and the defects of the swap paths. *)
From Stdlib Require Import ssreflect ZArith Lia.
From stdpp Require Import base numbers list strings.
From S2P Require Import Prelude SamplingParams KVCacheBlock Request FreeQueue BlockHash KVCacheManager KVInvariant KVOps KVSwap KVSafety.

(** * A concrete manager for the witnesses *)

(** 6 GPU and 10 CPU blocks of 4 tokens, prefix caching on. *)
Definition demo_manager : KVCacheManager :=
  match kv_init 4 6 10 64 None true 0 true with Ok s => s | Raise _ => inhabitant end.
Definition demo_request (id : string) (n : nat) : Request :=
  text_request id (Z.of_nat <$> seq 0 n).
(** Running calls and keeping the state. *)
Fixpoint kv_runs (py_hash : option Z → list Z → Z) (cs : list kv_call) (s : KVCacheManager)
    : result KVCacheManager :=
  match cs with
  | [] => Ok s
  | c :: cs => match kv_run py_hash c s with Ok (_, s) => kv_runs py_hash cs s | Raise e => Raise e end
  end.
Definition demo_run (cs : list kv_call) : KVCacheManager :=
  match kv_runs pairing_hash cs demo_manager with Ok s => s | Raise _ => inhabitant end.
Definition demo_state : KVCacheManager := demo_run [Allocate (demo_request "R" 10) 10 [] false].

Lemma demo_manager_reach : kv_reach pairing_hash [] demo_manager.
Proof. eapply (kv_reach_init _ 4 6 10 64 None true 0 true); [lia..|vm_compute; reflexivity]. Qed.
Lemma demo_state_reach : kv_reach pairing_hash [] demo_state.
Proof.
  eapply (kv_reach_some _ [] demo_manager (Allocate (demo_request "R" 10) 10 [] false));
    [apply demo_manager_reach|split; [reflexivity|by move=> b /elem_of_nil]|vm_compute; reflexivity].
Qed.

(** * Invariants of every reachable state *)

(** C2: In every reachable state the free queue, walked from its head, yields
    without repetition exactly the blocks whose reference count is zero, and
    [num_free_blocks] is their number. *)
Theorem free_queue_exact py_hash ext s :
  kv_reach py_hash ext s →
  ∃ l, get_all_free_blocks (length (block_pool s)) (block_pool s) (free_block_queue s) = Some l
    ∧ NoDup l ∧ num_free_blocks (free_block_queue s) = Z.of_nat (length l)
    ∧ ∀ r, r < length (block_pool s) → r ∈ l ↔ ref_cnt (block_pool s !!! r) = 0%Z.
Proof.
  move=> /kv_reach_inv [l HI]. have Hq := ki_queue _ _ _ _ HI. exists l.
  have Hn := qr_num _ _ _ Hq. have Hnd := qr_nodup _ _ _ Hq.
  split_and!; [by eapply kv_inv_walk|done..|].
  move=> r Hr. rw (ki_free _ _ _ _ HI r Hr). naive_solver.
Qed.
Lemma free_queue_exact_witness :
  ∃ l, get_all_free_blocks 6 (block_pool demo_state) (free_block_queue demo_state) = Some l
    ∧ NoDup l ∧ num_free_blocks (free_block_queue demo_state) = Z.of_nat (length l)
    ∧ ∀ r, r < 6 → r ∈ l ↔ ref_cnt (block_pool demo_state !!! r) = 0%Z.
Proof. apply (free_queue_exact pairing_hash [] demo_state), demo_state_reach. Defined.

(** C1: Reference counts are conserved: in every reachable state the count of a
    block is the number of its occurrences in the block tables plus the
    references lost by failed allocations; with none lost, tables and counts
    agree exactly. *)
Theorem refcount_conservation py_hash ext s r :
  kv_reach py_hash ext s → r < length (block_pool s) →
  ref_cnt (block_pool s !!! r) = (dsum (occ r) (req_to_blocks s) + occ r ext)%Z.
Proof. move=> /kv_reach_inv [l HI] Hr. apply (ki_refs _ _ _ _ HI r Hr). Qed.
Lemma refcount_conservation_witness :
  ref_cnt (block_pool demo_state !!! 1)
    = (dsum (occ 1) (req_to_blocks demo_state) + occ 1 [])%Z.
Proof.
  apply (refcount_conservation pairing_hash [] demo_state 1 demo_state_reach). vm_compute. lia.
Defined.

(** C3: No use after free and no eviction of a block in use: in every reachable
    state a block of some request's table is a block of the pool with a
    positive reference count, it is not FREE and not on the free queue. *)
Theorem table_blocks_in_use py_hash ext s rid bs b :
  kv_reach py_hash ext s → dget (req_to_blocks s) rid = Some bs → b ∈ bs →
  b < length (block_pool s) ∧ (0 < ref_cnt (block_pool s !!! b))%Z ∧
  status (block_pool s !!! b) ≠ FREE ∧
  ∀ l, get_all_free_blocks (length (block_pool s)) (block_pool s) (free_block_queue s) = Some l →
       b ∉ l.
Proof.
  move=> Hre Ht Hb. destruct (kv_reach_inv _ _ _ Hre) as [l HI].
  destruct (kv_inv_table_used _ _ _ _ _ _ HI Ht Hb) as [Hr Hl].
  have Hnz : ref_cnt (block_pool s !!! b) ≠ 0%Z by move=> /(ki_free _ _ _ _ HI b Hr) [].
  have Hpos := kv_inv_ref_nonneg _ _ _ _ b HI Hr.
  split_and!; [done|lia|by move=> /(ki_status _ _ _ _ HI b Hr ltac:(done))|].
  move=> l'. rw (kv_inv_walk _ _ _ _ HI). by move=> [<-].
Qed.
Lemma table_blocks_in_use_witness :
  1 < length (block_pool demo_state) ∧ (0 < ref_cnt (block_pool demo_state !!! 1%nat))%Z ∧
  status (block_pool demo_state !!! 1) ≠ FREE ∧
  ∀ l, get_all_free_blocks (length (block_pool demo_state)) (block_pool demo_state)
         (free_block_queue demo_state) = Some l → 1 ∉ l.
Proof.
  apply (table_blocks_in_use pairing_hash [] demo_state "R" [0; 1; 2]);
    [apply demo_state_reach|vm_compute; reflexivity|right; left].
Defined.

(** The constructor succeeds exactly as the code intends: with a non-empty
    GPU pool and at least as many CPU blocks, it returns a manager whose free
    queue holds every block in order and in which block [r] is mapped to CPU
    block [r]. *)
Theorem kv_init_returns bs n m len sw ec pre fix_ :
  0 < n → n ≤ m →
  ∃ s, kv_init bs n m len sw ec pre fix_ = Ok s
    ∧ get_all_free_blocks n (block_pool s) (free_block_queue s) = Some (seq 0 n)
    ∧ num_free_blocks (free_block_queue_cpu s) = Z.of_nat (m - n)
    ∧ ∀ r, r < n → mapped_cpu_block (block_pool s !!! r) = Some r
                 ∧ status (block_pool s !!! r) = FREE.
Proof.
  move=> Hn Hm. destruct (kv_init_spec bs n m len sw ec pre fix_ Hn Hm) as (s & Hs & HI & _).
  exists s. have Hw := kv_inv_walk _ _ _ _ (init_loop_inv _ _ _ HI).
  destruct HI as [Hq Hl Hqc _ Hd _ _]. rw Hl in Hw. split_and!; [done|done| |].
  - by rw (qr_num _ _ _ Hqc) length_seq.
  - move=> r Hr. destruct (Hd r Hr) as (_ & _ & _ & Hst & Hmap). auto.
Qed.
Lemma kv_init_returns_witness :
  ∃ s, kv_init 4 3 5 64 None true 0 true = Ok s
    ∧ get_all_free_blocks 3 (block_pool s) (free_block_queue s) = Some (seq 0 3)
    ∧ num_free_blocks (free_block_queue_cpu s) = Z.of_nat (5 - 3)
    ∧ ∀ r, r < 3 → mapped_cpu_block (block_pool s !!! r) = Some r
                 ∧ status (block_pool s !!! r) = FREE.
Proof. apply (kv_init_returns 4 3 5 64 None true 0 true); lia. Defined.

(** * The methods *)

(** Allocation is exclusive: when [allocate_slots] returns new blocks, they are distinct, no request's table contained any of them, the
    request's table becomes the old blocks followed by the new ones, and every
    other table is unchanged. *)
Theorem allocation_exclusive py_hash ext s r n computed no_pre new r' s' :
  kv_reach py_hash ext s → kv_call_ok (Allocate r n computed no_pre) s →
  allocate_slots py_hash r n computed no_pre s = Ok ((Some new, r'), s') →
  NoDup new ∧ new ≠ [] ∧
  (∀ b, b ∈ new → ∀ rid bs, dget (req_to_blocks s) rid = Some bs → b ∉ bs) ∧
  dget (req_to_blocks s') (request_id r) = Some (computed ++ new) ∧
  ∀ rid, rid ≠ request_id r → dget (req_to_blocks s') rid = dget (req_to_blocks s) rid.
Proof.
  move=> /kv_reach_inv [l HI] [Ht Hc] Hrun.
  remember (Some new) as o eqn:Ho in Hrun. revert Ho. by_wp Hrun.
  eapply wp_allocate_slots; try done.
  move=> s1 l1 new1 r1 _ _ _ _ Hne Hnd Hfresh _ _ Ht1 _ _ [<-]. rw Ht1.
  split_and!; [done|done| |by rw dget_dset_eq|by move=> rid Hne'; rw dget_dset_ne].
  move=> b Hb rid bs Hd Hin. destruct (Hfresh b Hb) as (Hh & _).
  have := dsum_lookup_le (occ b) _ _ _ (occ_nonneg b) Hd. apply occ_pos in Hin. rw /held in Hh. lia.
Qed.
Lemma allocation_exclusive_witness :
  ∃ r' s', allocate_slots pairing_hash (demo_request "Q" 5) 5 [] false demo_state
             = Ok ((Some [3; 4], r'), s') ∧
  NoDup [3; 4] ∧ [3; 4] ≠ [] ∧
  (∀ b, b ∈ [3; 4] → ∀ rid bs, dget (req_to_blocks demo_state) rid = Some bs → b ∉ bs) ∧
  dget (req_to_blocks s') "Q"%string = Some ([] ++ [3; 4]) ∧
  ∀ rid, rid ≠ "Q"%string → dget (req_to_blocks s') rid = dget (req_to_blocks demo_state) rid.
Proof.
  do 2 eexists. split; [vm_compute; reflexivity|].
  eapply (allocation_exclusive pairing_hash [] demo_state (demo_request "Q" 5) 5 [] false);
    [apply demo_state_reach|split; [reflexivity|by move=> b /elem_of_nil]|vm_compute; reflexivity].
Defined.

(** [append_slots] on a running request: it returns [None] without any
    change exactly when fewer blocks are free than the request needs; otherwise
    it takes from the front of the free queue as many blocks as needed plus the
    preallocation, capped by the free blocks and by the longest sequence, and
    appends them to the request's table. *)
Theorem append_slots_behaviour py_hash ext s r n bs l o r' s' :
  kv_reach py_hash ext s → dget (req_to_blocks s) (request_id r) = Some bs →
  get_all_free_blocks (length (block_pool s)) (block_pool s) (free_block_queue s) = Some l →
  append_slots py_hash r n s = Ok ((o, r'), s') →
  let need := (cdiv (num_computed_tokens r + n) (block_size (kv_cfg s)) - Z.of_nat (length bs))%Z in
  match o with
  | None => (Z.of_nat (length l) < need)%Z ∧ s' = s ∧ r' = r
  | Some new =>
    (need ≤ Z.of_nat (length l))%Z ∧ new = take (length new) l ∧
    Z.of_nat (length new) = append_count (kv_cfg s) need (Z.of_nat (length l)) (length bs) ∧
    dget (req_to_blocks s') (request_id r) = Some (bs ++ new) ∧
    get_all_free_blocks (length (block_pool s')) (block_pool s') (free_block_queue s')
      = Some (drop (length new) l) ∧
    ∀ rid, rid ≠ request_id r → dget (req_to_blocks s') rid = dget (req_to_blocks s) rid
  end.
Proof.
  move=> /kv_reach_inv [l0 HI] Ht. rw (kv_inv_walk _ _ _ _ HI) => -[<-] Hrun need.
  by_wp Hrun. eapply wp_append_slots; [done|done|done|].
  move=> s1 new r1 Hneed Hlen Hnew HI1 _ _ _ Ht1 Hto1 _ _ /=.
  split_and!; auto. by eapply kv_inv_walk.
Qed.
Lemma append_slots_behaviour_witness :
  ∃ r' s', append_slots pairing_hash (demo_request "R" 10) 17 demo_state = Ok ((Some [3; 4], r'), s') ∧
    (2 ≤ Z.of_nat 3)%Z ∧ [3; 4] = take 2 [3; 4; 5] ∧
    Z.of_nat 2 = append_count (kv_cfg demo_state) 2 (Z.of_nat 3) 3 ∧
    dget (req_to_blocks s') "R"%string = Some ([0; 1; 2] ++ [3; 4]) ∧
    get_all_free_blocks (length (block_pool s')) (block_pool s') (free_block_queue s')
      = Some (drop 2 [3; 4; 5]) ∧
    ∀ rid, rid ≠ "R"%string → dget (req_to_blocks s') rid = dget (req_to_blocks demo_state) rid.
Proof.
  do 2 eexists. split; [vm_compute; reflexivity|].
  eapply (append_slots_behaviour pairing_hash [] demo_state (demo_request "R" 10) 17 [0; 1; 2]
    [3; 4; 5] (Some [3; 4])); [apply demo_state_reach|vm_compute; reflexivity..].
Defined.

(** [free] always returns, removes the request's table, and with prefix
    caching returns the blocks no other request uses to the tail of the free
    queue in reverse table order, so that the tail of a sequence is evicted
    before its prefix. *)
Theorem free_behaviour py_hash ext s rid keep bs l :
  kv_reach py_hash ext s → dget (req_to_blocks s) rid = Some bs → NoDup bs →
  enable_caching (kv_cfg s) = true →
  get_all_free_blocks (length (block_pool s)) (block_pool s) (free_block_queue s) = Some l →
  ∃ s', free rid keep false s = Ok (tt, s') ∧ req_to_blocks s' = ddel (req_to_blocks s) rid ∧
    get_all_free_blocks (length (block_pool s')) (block_pool s') (free_block_queue s')
      = Some (l ++ filter (λ r, ref_cnt (block_pool s !!! r) = 1%Z) (reverse bs)).
Proof.
  move=> /kv_reach_inv [l0 HI] Ht Hnd Hc. rw (kv_inv_walk _ _ _ _ HI) => -[<-].
  assert (Hwp : wp (free rid keep false) s (λ _ s', req_to_blocks s' = ddel (req_to_blocks s) rid ∧
    get_all_free_blocks (length (block_pool s')) (block_pool s') (free_block_queue s')
      = Some (l0 ++ filter (λ r, ref_cnt (block_pool s !!! r) = 1%Z) (reverse bs))) no_exn).
  { eapply wp_free; [done|done|]. rw Ht Hc /=. move=> s1 l1 HI1 _ _ Ht1 _ _ _ _ Hl1.
    split; first done. rw (kv_inv_walk _ _ _ _ HI1). by rw Hl1. }
  destruct (wp_returns _ _ _ Hwp) as ([] & s' & Hrun & HP). by exists s'.
Qed.
Lemma free_behaviour_witness :
  ∃ s', free "R" false false demo_state = Ok (tt, s') ∧
    req_to_blocks s' = ddel (req_to_blocks demo_state) "R"%string ∧
    get_all_free_blocks (length (block_pool s')) (block_pool s') (free_block_queue s')
      = Some ([3; 4; 5] ++ filter (λ r, ref_cnt (block_pool demo_state !!! r) = 1%Z) (reverse [0; 1; 2])).
Proof.
  apply (free_behaviour pairing_hash [] demo_state "R" false [0; 1; 2] [3; 4; 5] demo_state_reach);
    try (vm_compute; reflexivity). apply (bool_decide_unpack _). vm_compute. exact I.
Defined.

Lemma length_filter_reverse {A} (P : A → Prop) `{!∀ x, Decision (P x)} (l : list A) :
  length (filter P (reverse l)) = length (filter P l).
Proof. by rw (Permutation_length (filter_Permutation P _ _ (reverse_Permutation l))). Qed.

(** [get_num_blocks_to_free] predicts [swap_out]: when it returns, the
    number of blocks [swap_out] reports as freed is the number the query gave
    before, the GPU table is gone and the CPU table lists the CPU copy of every
    block in order. *)
Theorem swap_out_frees_predicted py_hash ext s rid bs freed s' :
  kv_reach py_hash ext s → dget (req_to_blocks s) rid = Some bs → NoDup bs →
  swap_out rid s = Ok (freed, s') →
  get_num_blocks_to_free rid s = Ok (freed, s) ∧
  num_free_blocks (free_block_queue s') = (num_free_blocks (free_block_queue s) + freed)%Z ∧
  dget (req_to_blocks s') rid = None ∧
  ∃ cpu, dget (req_to_blocks_cpu s') rid = Some cpu ∧
         Forall2 (λ b c, mapped_cpu_block (block_pool s !!! b) = Some c) bs cpu.
Proof.
  move=> /kv_reach_inv [l HI] Ht Hnd Hrun. by_wp Hrun.
  eapply wp_swap_out; [done|done|done|].
  move=> s1 l1 HI1 _ _ Ht1 Htc1 _ _ Hl1. specialize (Hl1 Hnd).
  rw (kv_inv_num_free _ _ _ _ HI) (kv_inv_num_free _ _ _ _ HI1) Ht1 Htc1 dget_dset_eq.
  split_and!; [|lia|by apply dget_ddel_eq, (ki_tables _ _ _ _ HI)|].
  - rw /get_num_blocks_to_free /mgets /mbind /M_bind Ht. repeat f_equal. rw Hl1 length_app.
    destruct (enable_caching _); rw ?length_filter_reverse; lia.
  - eexists. split; first done.
    have Hm : ∀ b, b ∈ bs → is_Some (mapped_cpu_block (block_pool s !!! b)).
    { move=> b Hb. apply not_eq_None_Some, (ki_mapped _ _ _ _ HI).
      by apply (ki_table_range _ _ _ _ HI _ _ _ Ht). }
    clear Ht Hnd Hl1 Htc1 Ht1. elim: bs Hm => [|b bs IH] Hm; rw /mapped_of /=; first done.
    destruct (Hm b ltac:(by left)) as [c Hc]. rw Hc. constructor; first done.
    apply IH => x Hx. apply Hm. by right.
Qed.
Lemma swap_out_frees_predicted_witness :
  ∃ s', swap_out "R" demo_state = Ok (3%Z, s') ∧
  get_num_blocks_to_free "R" demo_state = Ok (3%Z, demo_state) ∧
  num_free_blocks (free_block_queue s') = (num_free_blocks (free_block_queue demo_state) + 3)%Z ∧
  dget (req_to_blocks s') "R"%string = None ∧
  ∃ cpu, dget (req_to_blocks_cpu s') "R"%string = Some cpu ∧
         Forall2 (λ b c, mapped_cpu_block (block_pool demo_state !!! b) = Some c) [0; 1; 2] cpu.
Proof.
  eexists. split; [vm_compute; reflexivity|].
  eapply (swap_out_frees_predicted pairing_hash [] demo_state "R" [0; 1; 2] 3);
    [apply demo_state_reach|vm_compute; reflexivity| |vm_compute; reflexivity].
  apply (bool_decide_unpack _). vm_compute. exact I.
Defined.

(** C5: [get_computed_blocks] returns the longest cached prefix: with caching on
    it changes nothing in the manager, stores the block keys in the request, and
    returns one pool block per key of a prefix of the keys, each carrying that
    key, and the first key after the prefix is not cached. *)
Theorem computed_blocks_longest_prefix py_hash ext s r keys :
  kv_reach py_hash ext s → enable_caching (kv_cfg s) = true → kv_block_hashes r = [] →
  hash_request_tokens py_hash (block_size (kv_cfg s)) r = Ok keys →
  ∃ bs, get_computed_blocks py_hash r s = Ok ((bs, set_kv_block_hashes keys r), s) ∧
    Forall2 (λ b h, b < length (block_pool s) ∧ block_hash (block_pool s !!! b) = Some h)
      bs (take (length bs) keys) ∧
    ∀ h, keys !! length bs = Some h → ∀ b, b < length (block_pool s) →
      block_hash (block_pool s !!! b) ≠ Some h.
Proof.
  move=> /kv_reach_inv [l HI] Hc Hr Hk.
  assert (Hwp : wp (computed_loop keys) s (λ bs s', s' = s ∧
    Forall2 (λ b h, b < length (block_pool s) ∧ block_hash (block_pool s !!! b) = Some h)
      bs (take (length bs) keys) ∧
    ∀ h, keys !! length bs = Some h → dget (cached_block_hash_to_block s) h = None) no_exn).
  { by eapply wp_computed_loop. }
  destruct (wp_returns _ _ _ Hwp) as (bs & s' & Hrun & -> & HF & Hn). exists bs.
  split_and!; [|done|].
  - rw /get_computed_blocks /config /mbind /M_bind /mgets Hc /= Hr /= /mlift Hk /=.
    by rw Hrun.
  - move=> h /Hn Hnone b Hb Hh.
    destruct (ci_complete _ _ (ki_cache _ _ _ _ HI) b h Hb Hh) as (inner & Hin & _). congruence.
Qed.

(** "R" computes its 10 tokens and takes one more slot: two full blocks become
    cached; then it finishes. *)
Definition demo_appended : KVCacheManager :=
  demo_run [Allocate (demo_request "R" 10) 10 [] false;
            Append (set_num_computed_tokens 10 (demo_request "R" 10)) 1].
Definition demo_cached : KVCacheManager :=
  demo_run [Allocate (demo_request "R" 10) 10 [] false;
            Append (set_num_computed_tokens 10 (demo_request "R" 10)) 1;
            Free "R" false false].
Lemma demo_cached_reach : kv_reach pairing_hash [] demo_cached.
Proof.
  eapply (kv_reach_some _ _ demo_appended (Free "R" false false)); [|done|vm_compute; reflexivity].
  eapply (kv_reach_some _ _ demo_state (Append (set_num_computed_tokens 10 (demo_request "R" 10)) 1));
    [apply demo_state_reach|done|vm_compute; reflexivity].
Qed.

Lemma computed_blocks_longest_prefix_witness :
  ∃ keys, hash_request_tokens pairing_hash 4 (demo_request "Q" 9) = Ok keys ∧
  ∃ bs, get_computed_blocks pairing_hash (demo_request "Q" 9) demo_cached
      = Ok ((bs, set_kv_block_hashes keys (demo_request "Q" 9)), demo_cached) ∧
    Forall2 (λ b h, b < length (block_pool demo_cached)
                    ∧ block_hash (block_pool demo_cached !!! b) = Some h)
      bs (take (length bs) keys) ∧
    ∀ h, keys !! length bs = Some h → ∀ b, b < length (block_pool demo_cached) →
      block_hash (block_pool demo_cached !!! b) ≠ Some h.
Proof.
  eexists. split; [vm_compute; reflexivity|].
  eapply (computed_blocks_longest_prefix pairing_hash [] demo_cached);
    [apply demo_cached_reach|vm_compute; reflexivity..].
Defined.

(** * Defects *)

(** A failed [allocate_slots] leaks: it takes a reference on every cached
    block before it checks the capacity, so when it returns [None] the counts
    of those blocks have grown although no table holds them. *)
Theorem failed_allocation_leaks py_hash ext s r n computed no_pre r' s' b :
  kv_reach py_hash ext s → kv_call_ok (Allocate r n computed no_pre) s →
  allocate_slots py_hash r n computed no_pre s = Ok ((None, r'), s') → b < length (block_pool s) →
  req_to_blocks s' = req_to_blocks s ∧
  ref_cnt (block_pool s' !!! b) = (ref_cnt (block_pool s !!! b) + occ b computed)%Z.
Proof.
  move=> /kv_reach_inv [l HI] [Ht Hc] Hrun Hb.
  remember None as o eqn:Ho in Hrun. revert Ho. by_wp Hrun.
  eapply wp_allocate_slots; try done. move=> s1 l1 HI1 [_ Hl1 Ht1 _] _ _ _. split; first done.
  rw (ki_refs _ _ _ _ HI1) ?Hl1 // (ki_refs _ _ _ _ HI) // /held Ht1 occ_app. lia.
Qed.
(** "Q" hits the two cached blocks, then needs six more of the four left. *)
Lemma failed_allocation_leaks_witness :
  ∃ r' s', allocate_slots pairing_hash (demo_request "Q" 30) 22 [0; 1] false demo_cached
             = Ok ((None, r'), s') ∧
  req_to_blocks demo_cached = [] ∧ ref_cnt (block_pool demo_cached !!! 0) = 0%Z ∧
  req_to_blocks s' = req_to_blocks demo_cached ∧
  ref_cnt (block_pool s' !!! 0) = (ref_cnt (block_pool demo_cached !!! 0%nat) + occ 0 [0; 1]%nat)%Z.
Proof.
  do 2 eexists. split; [vm_compute; reflexivity|]. do 2 (split; [vm_compute; reflexivity|]).
  eapply (failed_allocation_leaks pairing_hash [] demo_cached (demo_request "Q" 30) 22 [0; 1] false);
    [apply demo_cached_reach|split; [vm_compute; reflexivity|]|vm_compute; reflexivity|vm_compute; lia].
  move=> b Hb. have : b ≤ 1 by repeat (apply elem_of_cons in Hb as [->|Hb]; [lia|]); apply elem_of_nil in Hb.
  have -> : length (block_pool demo_cached) = 6 by vm_compute. lia.
Defined.

(** [free] of a swapped-out request does nothing: the request has no GPU
    table any more and [free] never looks at [req_to_blocks_cpu], so the CPU
    blocks of an aborted swapped request stay allocated. *)
Theorem free_swapped_is_noop s rid keep swapped :
  dget (req_to_blocks s) rid = None → free rid keep swapped s = Ok (tt, s).
Proof.
  move=> Ht. rw /free /config /mbind /M_bind /mgets /mmodify Ht ddel_notin //=.
  destruct (enable_caching _); by destruct s.
Qed.
Lemma free_swapped_is_noop_witness :
  free "R" false false (demo_run [Allocate (demo_request "R" 10) 10 [] false; SwapOut "R"])
    = Ok (tt, demo_run [Allocate (demo_request "R" 10) 10 [] false; SwapOut "R"]) ∧
  dget (req_to_blocks_cpu (demo_run [Allocate (demo_request "R" 10) 10 [] false; SwapOut "R"]))
    "R"%string = Some [0; 1; 2].
Proof. split; [apply free_swapped_is_noop; vm_compute; reflexivity|vm_compute; reflexivity]. Defined.

(** The calls of a run in which "R" is swapped out and in and finishes, and
    then "Q" is swapped out and in twice. *)
Definition double_free_calls : list kv_call :=
  [Allocate (demo_request "R" 8) 8 [] false; Allocate (demo_request "Q" 7) 7 [] false;
   SwapOut "R"; SwapIn (demo_request "R" 8) []; Free "R" false false;
   SwapOut "Q"; SwapIn (demo_request "Q" 7) []; SwapOut "Q"; SwapIn (demo_request "Q" 7) []].
(** The CPU blocks with no reference. *)
Definition cpu_unreferenced (s : KVCacheManager) : list nat :=
  filter (λ c, ref_cnt (block_pool_cpu s !!! c) = 0%Z) (seq 0 (length (block_pool_cpu s))).

(** The CPU pool is freed twice: swapping in leaves the old mapping in the
    blocks it was copied from, so two GPU blocks map to one CPU block and each
    relocation returns that block to the CPU queue. After the run the queue
    claims ten free CPU blocks, a walk finds eight, and the CPU blocks 2 and 3
    still hold the data of "Q". *)
Theorem cpu_blocks_double_free :
  ∃ s, kv_runs pairing_hash double_free_calls demo_manager = Ok s ∧
    length (block_pool_cpu s) = 10 ∧
    num_free_blocks (free_block_queue_cpu s) = 10%Z ∧
    get_all_free_blocks 10 (block_pool_cpu s) (free_block_queue_cpu s) = Some [6; 7; 8; 9; 4; 5; 1; 0] ∧
    cpu_unreferenced s = [0; 1; 4; 5; 6; 7; 8; 9].
Proof. eexists. split; [vm_compute; reflexivity|]. vm_compute. auto. Qed.
