(* ===== verification/EncoderCache.v ===== *)
(** The encoder cache: class [EncoderCacheManager] of
    vllm/v1/core/encoder_cache_manager.py. *)
From Stdlib Require Import ssreflect ZArith Lia.
From stdpp Require Import base numbers list gmap strings.
From S2P Require Import Prelude SamplingParams KVCacheBlock Request.

Record EncoderCacheManager := {
  cache_size : Z;
  num_free_slots : Z;
  cached : dict string (gset nat);
  freed : list (string * nat);
}.

Definition encoder_cache_init (size : Z) : EncoderCacheManager :=
  {| cache_size := size; num_free_slots := size; cached := []; freed := [] |}.

Definition has_cache (m : EncoderCacheManager) (r : Request) (input_id : nat) : bool :=
  match dget (cached m) (request_id r) with
  | Some ids => bool_decide (input_id ∈ ids)
  | None => false
  end.

Definition can_allocate (m : EncoderCacheManager) (r : Request) (input_id : nat) : result bool :=
  n ← get_num_encoder_tokens r input_id;
  mret (n <=? num_free_slots m)%Z.

Definition encoder_allocate (r : Request) (input_id : nat) : M EncoderCacheManager unit := λ m,
  let ids := default ∅ (dget (cached m) (request_id r)) in
  n ← get_num_encoder_tokens r input_id;
  Ok (tt, {| cache_size := cache_size m; num_free_slots := num_free_slots m - n;
             cached := dset (cached m) (request_id r) ({[input_id]} ∪ ids);
             freed := freed m |}).

Definition get_cached_input_ids (m : EncoderCacheManager) (r : Request) : gset nat :=
  default ∅ (dget (cached m) (request_id r)).

Definition encoder_free (r : Request) (input_id : nat) : M EncoderCacheManager unit := λ m,
  match dget (cached m) (request_id r) with
  | None => Ok (tt, m)
  | Some ids =>
    let ids := ids ∖ {[input_id]} in
    n ← get_num_encoder_tokens r input_id;
    Ok (tt, {| cache_size := cache_size m; num_free_slots := num_free_slots m + n;
               cached := if bool_decide (size ids = 0) then ddel (cached m) (request_id r)
                         else dset (cached m) (request_id r) ids;
               freed := freed m ++ [(request_id r, input_id)] |})
  end.

Definition get_freed_ids : M EncoderCacheManager (list (string * nat)) := λ m,
  Ok (freed m, {| cache_size := cache_size m; num_free_slots := num_free_slots m;
                  cached := cached m; freed := [] |}).
