(* ===== verification/Scheduler.v ===== *)
(** The scheduler: class [Scheduler] of vllm/v1/core/scheduler.py and its
    output records.

    Request objects live in a heap and are shared by reference between
    [waiting], [running], [requests] and the local lists of a scheduling step;
    so are the cached [RunningRequestData] objects, which consecutive outputs
    share. The local lists and dictionaries that [schedule] passes to its helper
    methods by reference are the fields of [Locals]. *)
From Stdlib Require Import ssreflect ZArith Lia PrimFloat.
From stdpp Require Import base numbers list gmap strings.
From S2P Require Import Prelude SamplingParams KVCacheBlock Request FreeQueue BlockHash KVCacheManager EncoderCache.

(** * Data *)

(** What the scheduler reads of [SchedulerConfig] and [CacheConfig]. *)
Record SchedulerConfig := {
  max_num_seqs : Z;
  max_num_batched_tokens : Z;
  max_model_len : Z;
  preemption_mode : option string;
  max_num_encoder_input_tokens : Z;
  encoder_cache_size : Z;
  proactive_swap_budget : Z;
  prefix_cache_fix : bool;
}.
Record CacheConfig := {
  cc_block_size : Z;
  num_gpu_blocks : nat;
  num_cpu_blocks : nat;
  cc_sliding_window : option Z;
  enable_prefix_caching : bool;
}.

Record NewRequestData := {
  nrd_req_id : string;
  nrd_prompt_token_ids : list Z;
  nrd_prompt : option string;
  nrd_mm_inputs : list (option MultiModalKwargs);
  nrd_mm_hashes : list string;
  nrd_mm_positions : list PlaceholderRange;
  nrd_sampling_params : SamplingParams;
  nrd_block_ids : list nat;
  nrd_num_computed_tokens : Z;
  nrd_num_tokens : Z;
}.
Definition new_request_data (r : Request) (block_ids : list nat) (num_computed : Z) : NewRequestData :=
  {| nrd_req_id := request_id r; nrd_prompt_token_ids := prompt_token_ids r;
     nrd_prompt := prompt r; nrd_mm_inputs := mm_inputs r; nrd_mm_hashes := mm_hashes r;
     nrd_mm_positions := mm_positions r; nrd_sampling_params := sampling_params r;
     nrd_block_ids := block_ids; nrd_num_computed_tokens := num_computed;
     nrd_num_tokens := num_tokens r |}.

Record ResumedRequestData := {
  rrd_req_id : string;
  rrd_block_ids : list nat;
  rrd_num_computed_tokens : Z;
  rrd_num_tokens : Z;
}.
Definition resumed_request_data (r : Request) (block_ids : list nat) (num_computed : Z)
    : ResumedRequestData :=
  {| rrd_req_id := request_id r; rrd_block_ids := block_ids;
     rrd_num_computed_tokens := num_computed; rrd_num_tokens := num_tokens r |}.

Record RunningRequestData := {
  run_req_id : string;
  run_new_block_ids : list nat;
  run_num_computed_tokens : Z;
  run_num_tokens : Z;
}.
#[export] Instance RunningRequestData_inhabited : Inhabited RunningRequestData :=
  populate {| run_req_id := ""; run_new_block_ids := []; run_num_computed_tokens := 0; run_num_tokens := 0 |}.
Definition running_request_data (r : Request) (new_block_ids : list nat) (num_computed n : Z)
    : RunningRequestData :=
  {| run_req_id := request_id r; run_new_block_ids := new_block_ids;
     run_num_computed_tokens := num_computed; run_num_tokens := n |}.

(** [RunningRequestData] objects are references into the scheduler's
    [data_heap]; the engine sets the swap lists to [None] once it has copied
    the blocks. *)
Record SchedulerOutput := {
  out_scheduled_new_reqs : list NewRequestData;
  out_scheduled_resumed_reqs : list ResumedRequestData;
  out_scheduled_running_reqs : list nat;
  out_num_scheduled_tokens : dict string Z;
  total_num_scheduled_tokens : Z;
  out_scheduled_encoder_inputs : dict string (list nat);
  preempted_req_ids : list string;
  out_finished_req_ids : list string;
  free_encoder_input_ids : list (string * nat);
  blocks_to_swap_in : option (list (nat * nat));
  blocks_to_swap_out : option (list (nat * nat));
  counter : Z;
}.

(** A line of [time_record]: the tag, the time it shows and the request. *)
Record TimeEvent := { ev_tag : string; ev_time : Z; ev_req : string }.

(** * State *)
Record Scheduler := {
  config : SchedulerConfig;
  kv_cache_manager : KVCacheManager;
  heap : list Request;
  requests : dict string nat;
  waiting : list nat;
  running : list nat;
  finished_req_ids : list string;
  data_heap : list RunningRequestData;
  running_reqs_data : dict string nat;
  encoder_cache_manager : EncoderCacheManager;
  schedule_counter : Z;
  time_record : list TimeEvent;
  clock : nat → Z;
}.
(** The local variables of one scheduling step. *)
Record Locals := {
  scheduled_new_reqs : list nat;
  scheduled_resumed_reqs : list nat;
  scheduled_running_reqs : list nat;
  preempted_reqs : list nat;
  req_to_new_block_ids : dict string (list nat);
  num_scheduled_tokens : dict string Z;
  scheduled_encoder_inputs : dict string (list nat);
}.
Record SchedState := { sched : Scheduler; locals : Locals }.

(** Attribute stores. *)
Definition set_kv_cache_manager (v : KVCacheManager) (r : Scheduler) : Scheduler :=
  {| config := config r; kv_cache_manager := v; heap := heap r; requests := requests r; waiting := waiting r; running := running r; finished_req_ids := finished_req_ids r; data_heap := data_heap r; running_reqs_data := running_reqs_data r; encoder_cache_manager := encoder_cache_manager r; schedule_counter := schedule_counter r; time_record := time_record r; clock := clock r |}.
Definition set_heap (v : list Request) (r : Scheduler) : Scheduler :=
  {| config := config r; kv_cache_manager := kv_cache_manager r; heap := v; requests := requests r; waiting := waiting r; running := running r; finished_req_ids := finished_req_ids r; data_heap := data_heap r; running_reqs_data := running_reqs_data r; encoder_cache_manager := encoder_cache_manager r; schedule_counter := schedule_counter r; time_record := time_record r; clock := clock r |}.
Definition set_requests (v : dict string nat) (r : Scheduler) : Scheduler :=
  {| config := config r; kv_cache_manager := kv_cache_manager r; heap := heap r; requests := v; waiting := waiting r; running := running r; finished_req_ids := finished_req_ids r; data_heap := data_heap r; running_reqs_data := running_reqs_data r; encoder_cache_manager := encoder_cache_manager r; schedule_counter := schedule_counter r; time_record := time_record r; clock := clock r |}.
Definition set_waiting (v : list nat) (r : Scheduler) : Scheduler :=
  {| config := config r; kv_cache_manager := kv_cache_manager r; heap := heap r; requests := requests r; waiting := v; running := running r; finished_req_ids := finished_req_ids r; data_heap := data_heap r; running_reqs_data := running_reqs_data r; encoder_cache_manager := encoder_cache_manager r; schedule_counter := schedule_counter r; time_record := time_record r; clock := clock r |}.
Definition set_running (v : list nat) (r : Scheduler) : Scheduler :=
  {| config := config r; kv_cache_manager := kv_cache_manager r; heap := heap r; requests := requests r; waiting := waiting r; running := v; finished_req_ids := finished_req_ids r; data_heap := data_heap r; running_reqs_data := running_reqs_data r; encoder_cache_manager := encoder_cache_manager r; schedule_counter := schedule_counter r; time_record := time_record r; clock := clock r |}.
Definition set_finished_req_ids (v : list string) (r : Scheduler) : Scheduler :=
  {| config := config r; kv_cache_manager := kv_cache_manager r; heap := heap r; requests := requests r; waiting := waiting r; running := running r; finished_req_ids := v; data_heap := data_heap r; running_reqs_data := running_reqs_data r; encoder_cache_manager := encoder_cache_manager r; schedule_counter := schedule_counter r; time_record := time_record r; clock := clock r |}.
Definition set_data_heap (v : list RunningRequestData) (r : Scheduler) : Scheduler :=
  {| config := config r; kv_cache_manager := kv_cache_manager r; heap := heap r; requests := requests r; waiting := waiting r; running := running r; finished_req_ids := finished_req_ids r; data_heap := v; running_reqs_data := running_reqs_data r; encoder_cache_manager := encoder_cache_manager r; schedule_counter := schedule_counter r; time_record := time_record r; clock := clock r |}.
Definition set_running_reqs_data (v : dict string nat) (r : Scheduler) : Scheduler :=
  {| config := config r; kv_cache_manager := kv_cache_manager r; heap := heap r; requests := requests r; waiting := waiting r; running := running r; finished_req_ids := finished_req_ids r; data_heap := data_heap r; running_reqs_data := v; encoder_cache_manager := encoder_cache_manager r; schedule_counter := schedule_counter r; time_record := time_record r; clock := clock r |}.
Definition set_encoder_cache_manager (v : EncoderCacheManager) (r : Scheduler) : Scheduler :=
  {| config := config r; kv_cache_manager := kv_cache_manager r; heap := heap r; requests := requests r; waiting := waiting r; running := running r; finished_req_ids := finished_req_ids r; data_heap := data_heap r; running_reqs_data := running_reqs_data r; encoder_cache_manager := v; schedule_counter := schedule_counter r; time_record := time_record r; clock := clock r |}.
Definition set_schedule_counter (v : Z) (r : Scheduler) : Scheduler :=
  {| config := config r; kv_cache_manager := kv_cache_manager r; heap := heap r; requests := requests r; waiting := waiting r; running := running r; finished_req_ids := finished_req_ids r; data_heap := data_heap r; running_reqs_data := running_reqs_data r; encoder_cache_manager := encoder_cache_manager r; schedule_counter := v; time_record := time_record r; clock := clock r |}.
Definition set_time_record (v : list TimeEvent) (r : Scheduler) : Scheduler :=
  {| config := config r; kv_cache_manager := kv_cache_manager r; heap := heap r; requests := requests r; waiting := waiting r; running := running r; finished_req_ids := finished_req_ids r; data_heap := data_heap r; running_reqs_data := running_reqs_data r; encoder_cache_manager := encoder_cache_manager r; schedule_counter := schedule_counter r; time_record := v; clock := clock r |}.
Definition set_clock (v : nat → Z) (r : Scheduler) : Scheduler :=
  {| config := config r; kv_cache_manager := kv_cache_manager r; heap := heap r; requests := requests r; waiting := waiting r; running := running r; finished_req_ids := finished_req_ids r; data_heap := data_heap r; running_reqs_data := running_reqs_data r; encoder_cache_manager := encoder_cache_manager r; schedule_counter := schedule_counter r; time_record := time_record r; clock := v |}.

Definition set_scheduled_new_reqs (v : list nat) (r : Locals) : Locals :=
  {| scheduled_new_reqs := v; scheduled_resumed_reqs := scheduled_resumed_reqs r; scheduled_running_reqs := scheduled_running_reqs r; preempted_reqs := preempted_reqs r; req_to_new_block_ids := req_to_new_block_ids r; num_scheduled_tokens := num_scheduled_tokens r; scheduled_encoder_inputs := scheduled_encoder_inputs r |}.
Definition set_scheduled_resumed_reqs (v : list nat) (r : Locals) : Locals :=
  {| scheduled_new_reqs := scheduled_new_reqs r; scheduled_resumed_reqs := v; scheduled_running_reqs := scheduled_running_reqs r; preempted_reqs := preempted_reqs r; req_to_new_block_ids := req_to_new_block_ids r; num_scheduled_tokens := num_scheduled_tokens r; scheduled_encoder_inputs := scheduled_encoder_inputs r |}.
Definition set_scheduled_running_reqs (v : list nat) (r : Locals) : Locals :=
  {| scheduled_new_reqs := scheduled_new_reqs r; scheduled_resumed_reqs := scheduled_resumed_reqs r; scheduled_running_reqs := v; preempted_reqs := preempted_reqs r; req_to_new_block_ids := req_to_new_block_ids r; num_scheduled_tokens := num_scheduled_tokens r; scheduled_encoder_inputs := scheduled_encoder_inputs r |}.
Definition set_preempted_reqs (v : list nat) (r : Locals) : Locals :=
  {| scheduled_new_reqs := scheduled_new_reqs r; scheduled_resumed_reqs := scheduled_resumed_reqs r; scheduled_running_reqs := scheduled_running_reqs r; preempted_reqs := v; req_to_new_block_ids := req_to_new_block_ids r; num_scheduled_tokens := num_scheduled_tokens r; scheduled_encoder_inputs := scheduled_encoder_inputs r |}.
Definition set_req_to_new_block_ids (v : dict string (list nat)) (r : Locals) : Locals :=
  {| scheduled_new_reqs := scheduled_new_reqs r; scheduled_resumed_reqs := scheduled_resumed_reqs r; scheduled_running_reqs := scheduled_running_reqs r; preempted_reqs := preempted_reqs r; req_to_new_block_ids := v; num_scheduled_tokens := num_scheduled_tokens r; scheduled_encoder_inputs := scheduled_encoder_inputs r |}.
Definition set_num_scheduled_tokens (v : dict string Z) (r : Locals) : Locals :=
  {| scheduled_new_reqs := scheduled_new_reqs r; scheduled_resumed_reqs := scheduled_resumed_reqs r; scheduled_running_reqs := scheduled_running_reqs r; preempted_reqs := preempted_reqs r; req_to_new_block_ids := req_to_new_block_ids r; num_scheduled_tokens := v; scheduled_encoder_inputs := scheduled_encoder_inputs r |}.
Definition set_scheduled_encoder_inputs (v : dict string (list nat)) (r : Locals) : Locals :=
  {| scheduled_new_reqs := scheduled_new_reqs r; scheduled_resumed_reqs := scheduled_resumed_reqs r; scheduled_running_reqs := scheduled_running_reqs r; preempted_reqs := preempted_reqs r; req_to_new_block_ids := req_to_new_block_ids r; num_scheduled_tokens := num_scheduled_tokens r; scheduled_encoder_inputs := v |}.
Definition set_sched (v : Scheduler) (s : SchedState) : SchedState := {| sched := v; locals := locals s |}.
Definition set_locals (v : Locals) (s : SchedState) : SchedState := {| sched := sched s; locals := v |}.

Definition no_locals : Locals :=
  {| scheduled_new_reqs := []; scheduled_resumed_reqs := []; scheduled_running_reqs := [];
     preempted_reqs := []; req_to_new_block_ids := []; num_scheduled_tokens := [];
     scheduled_encoder_inputs := [] |}.

(** [SM A]: code inside a scheduling step. [SC A]: a method of the scheduler
    that has no step locals. *)
Abbreviation SM := (M SchedState).
Abbreviation SC := (M Scheduler).
Definition on_sched {A} (m : SC A) : SM A := zoom sched set_sched m.

(** ** Access *)
Definition on_kv {A} (m : KV A) : SC A := zoom kv_cache_manager set_kv_cache_manager m.
Definition on_encoder {A} (m : M EncoderCacheManager A) : SC A :=
  zoom encoder_cache_manager set_encoder_cache_manager m.
(** the request object at [r] *)
Definition req (r : nat) : SC Request := mgets (λ s, heap s !!! r).
Definition upd_req (r : nat) (f : Request → Request) : SC unit :=
  mmodify (λ s, set_heap (alter f r (heap s)) s).
(** a manager method that stores into its request argument *)
Definition kv_on_req {A} (r : nat) (f : Request → KV (A * Request)) : SC A :=
  q ← req r; '(a, q') ← on_kv (f q); upd_req r (λ _, q');;; mret a.
Definition sched_config : SC SchedulerConfig := mgets config.
(** [time.time()]: the next reading of the clock *)
Definition time_time : SC Z :=
  c ← mgets clock; mmodify (set_clock (λ n, c (S n)));;; mret (c 0).
Definition log_event (tag : string) (t : Z) (rid : string) : SC unit :=
  mmodify (λ s, set_time_record (time_record s ++ [{| ev_tag := tag; ev_time := t; ev_req := rid |}]) s).
Definition log_now (tag : string) (rid : string) : SC unit := t ← time_time; log_event tag t rid.

(** [list.remove] by identity: the first occurrence, or [ValueError]. *)
Fixpoint remove_first (x : nat) (l : list nat) : option (list nat) :=
  match l with
  | [] => None
  | y :: l => if bool_decide (x = y) then Some l else cons y <$> remove_first x l
  end.
Definition py_remove (x : nat) (l : list nat) : result (list nat) :=
  match remove_first x l with Some l => Ok l | None => Raise (ValueError "list.remove(x): x not in list") end.

(** * Construction *)
Definition scheduler_init (sc : SchedulerConfig) (cc : CacheConfig) (c : nat → Z) : result Scheduler :=
  if negb (bool_decide (0 < num_gpu_blocks cc)) then Raise (AssertionError "num_gpu_blocks > 0")
  else
    kv ← kv_init (cc_block_size cc) (num_gpu_blocks cc) (num_cpu_blocks cc) (max_model_len sc)
           (cc_sliding_window cc) (enable_prefix_caching cc) 64 (prefix_cache_fix sc);
    mret {| config := sc; kv_cache_manager := kv; heap := []; requests := []; waiting := [];
            running := []; finished_req_ids := []; data_heap := []; running_reqs_data := [];
            encoder_cache_manager := encoder_cache_init (encoder_cache_size sc);
            schedule_counter := 0; time_record := []; clock := c |}.

Definition proactive_swapping (c : SchedulerConfig) : bool := (0 <? proactive_swap_budget c)%Z.

(** * Queries *)
Definition can_extend_after_full_step (c : SchedulerConfig) (r : Request) (la : bool) : bool :=
  let n := if la then num_tokens_next r else num_tokens r in
  let n_out := if la then (n - num_prompt_tokens r)%Z else num_output_tokens r in
  (n <? max_model_len c)%Z && (n_out + 1 <? max_tokens r)%Z.

Definition pending_lookahead_output (r : Request) : bool :=
  (num_tokens r <=? num_computed_tokens r)%Z
  || (num_tokens_next r <=? num_computed_tokens_next r)%Z
  || (1 <? num_tokens_next r - num_tokens r)%Z
  || (1 <? num_computed_tokens_next r - num_computed_tokens r)%Z.
Definition has_pending_lookahead_outputs (s : Scheduler) : bool :=
  existsb (λ r, pending_lookahead_output (heap s !!! r)) (running s).

Definition get_num_unfinished_requests (s : Scheduler) : Z :=
  Z.of_nat (length (waiting s)) + Z.of_nat (length (running s)).
Definition has_unfinished_requests (s : Scheduler) : bool :=
  (0 <? get_num_unfinished_requests s)%Z.
Definition get_running_len (s : Scheduler) : Z := Z.of_nat (length (running s)).
Definition get_total_waiting (s : Scheduler) : Z := Z.of_nat (length (waiting s)).
Definition get_waiting_len (s : Scheduler) : Z :=
  Z.of_nat (length (filter (λ r, request_status (heap s !!! r) ≠ SWAPPED) (waiting s))).
Definition get_swapped_len (s : Scheduler) : Z :=
  Z.of_nat (length (filter (λ r, request_status (heap s !!! r) = SWAPPED) (waiting s))).
Definition get_time_record : SC (list TimeEvent) :=
  t ← mgets time_record; mmodify (set_time_record []);;; mret t.

(** * Adding and finishing requests *)
Definition add_request (request : Request) : SC unit :=
  r ← mgets (λ s, length (heap s));
  mmodify (λ s, set_heap (heap s ++ [request]) s);;;
  mmodify (λ s, set_waiting (waiting s ++ [r]) s);;;
  log_now "ADDED" (request_id request);;;
  mmodify (λ s, set_requests (dset (requests s) (request_id request) r) s).

(** [_free_request] *)
Definition free_request (r : nat) : SC unit :=
  q ← req r;
  massert (is_finished q) "request.is_finished()";;;
  on_kv (free (request_id q) false false);;;
  mmodify (λ s, set_running_reqs_data (ddel (running_reqs_data s) (request_id q)) s);;;
  known ← mgets requests;
  if negb (dmem known (request_id q)) then mraise (KeyError "requests")
  else
    mmodify (λ s, set_requests (ddel (requests s) (request_id q)) s);;;
    mmodify (λ s, set_finished_req_ids (set_add (request_id q) (finished_req_ids s)) s).

(** One id of [finish_requests]. *)
Definition finish_request (finished_status : RequestStatus) (rid : string) : SC unit :=
  known ← mgets requests;
  match dget known rid with
  | None => mret tt
  | Some r =>
    q ← req r;
    (if bool_decide (request_status q = RUNNING)
     then (l ← mgets running; l ← mlift (py_remove r l); mmodify (set_running l))
     else (l ← mgets waiting; l ← mlift (py_remove r l); mmodify (set_waiting l)));;;
    log_now "FINISHED" (request_id q);;;
    upd_req r (set_request_status finished_status);;;
    free_request r
  end.
(** [set(request_ids)] drops repetitions. *)
Definition finish_requests (request_ids : list string) (finished_status : RequestStatus) : SC unit :=
  massert (status_is_finished finished_status) "RequestStatus.is_finished(finished_status)";;;
  mfor (foldl (λ acc x, set_add x acc) [] request_ids) (finish_request finished_status).

(** [_check_stop] *)
Definition check_stop (r : nat) : SC bool :=
  c ← sched_config;
  q ← req r;
  if (max_model_len c <=? num_tokens q)%Z || (max_tokens q <=? num_output_tokens q)%Z then
    upd_req r (set_request_status FINISHED_LENGTH_CAPPED);;; free_request r;;; mret true
  else
    match last (output_token_ids q) with
    | None => mraise (IndexError "output_token_ids[-1]")
    | Some last_token_id =>
      if negb (ignore_eos (sampling_params q))
         && bool_decide (Some last_token_id = eos_token_id q) then
        upd_req r (set_request_status FINISHED_STOPPED);;; free_request r;;; mret true
      else if bool_decide (last_token_id ∈ default [] (stop_token_ids (sampling_params q))) then
        upd_req r (set_request_status FINISHED_STOPPED);;;
        upd_req r (set_stop_reason (Some last_token_id));;;
        free_request r;;; mret true
      else mret false
    end.

(** * Encoder inputs *)

(** [_try_schedule_encoder_inputs]: the loop over [enumerate(mm_positions)]
    from position [i]. *)
Fixpoint encoder_inputs_loop (m : EncoderCacheManager) (request : Request) (num_computed : Z)
    (i : nat) (positions : list PlaceholderRange) (to_schedule : list nat)
    (num_new_tokens encoder_budget : Z) : result (list nat * Z * Z) :=
  match positions with
  | [] => Ok (to_schedule, num_new_tokens, encoder_budget)
  | pos_info :: positions =>
    let start_pos := pr_offset pos_info in
    let num_encoder_tokens := pr_length pos_info in
    let next := encoder_inputs_loop m request num_computed (S i) positions in
    if (num_computed + num_new_tokens <=? start_pos)%Z then
      Ok (to_schedule, num_new_tokens, encoder_budget)
    else if (start_pos + num_encoder_tokens <=? num_computed)%Z then
      next to_schedule num_new_tokens encoder_budget
    else if has_cache m request i then next to_schedule num_new_tokens encoder_budget
    else
      fits ← can_allocate m request i;
      if negb fits || (encoder_budget <? num_encoder_tokens)%Z then
        Ok (to_schedule, (start_pos - num_computed)%Z, encoder_budget)
      else next (to_schedule ++ [i]) num_new_tokens (encoder_budget - num_encoder_tokens)%Z
  end.
Definition try_schedule_encoder_inputs (m : EncoderCacheManager) (request : Request)
    (num_computed num_new_tokens encoder_budget : Z) : result (list nat * Z * Z) :=
  if negb (has_encoder_inputs request) then Ok ([], num_new_tokens, encoder_budget)
  else if bool_decide (mm_positions request = []) then Raise (AssertionError "len(mm_positions) > 0")
  else encoder_inputs_loop m request num_computed 0 (mm_positions request) [] num_new_tokens
         encoder_budget.

Section step.
Variable py_hash : option Z → list Z → Z.

(** * One running request *)

(** The preemption of the lowest-priority request. *)
Definition preempt_last : SM nat :=
  l ← mgets (λ s, running (sched s));
  match last l with
  | None => mraise (IndexError "pop from empty list")
  | Some p =>
    on_sched (mmodify (set_running (removelast l)));;;
    c ← on_sched sched_config;
    q ← on_sched (req p);
    let mode := match preemption_mode c with
                | None | Some ""%string => "recompute"%string
                | Some m => m
                end in
    (if bool_decide (mode = "recompute"%string) then
       on_sched (on_kv (free (request_id q) false false));;;
       on_sched (upd_req p (set_request_status PREEMPTED));;;
       on_sched (upd_req p (set_num_computed_tokens 0));;;
       on_sched (upd_req p (set_num_computed_tokens_next 0));;;
       on_sched (upd_req p (λ q, set_num_tokens_next (num_tokens q) q))
     else if bool_decide (mode = "swap"%string) then
       on_sched (on_kv (swap_out (request_id q)));;;
       on_sched (upd_req p (set_request_status SWAPPED))
     else mraise (ValueError "Invalid preemption mode"));;;
    on_sched (mmodify (λ s, set_waiting (waiting s ++ [p]) s));;;
    on_sched (log_now "WAITING" (request_id q));;;
    mmodify (λ s, set_locals (set_preempted_reqs (preempted_reqs (locals s) ++ [p]) (locals s)) s);;;
    mret p
  end.

(** The [while True] loop: whether the request can be scheduled, and the last
    result of [append_slots]. Every turn but the last shortens [running]. *)
Fixpoint append_or_preempt (fuel : nat) (r : nat) (num_new_tokens : Z) (allow_preemption : bool)
    : SM (bool * option (list nat)) :=
  match fuel with
  | 0 => mraise OutOfFuel
  | S fuel =>
    o ← on_sched (kv_on_req r (λ q, append_slots py_hash q num_new_tokens));
    if allow_preemption && bool_decide (o = None) then
      p ← preempt_last;
      if bool_decide (p = r) then mret (false, o)
      else append_or_preempt fuel r num_new_tokens allow_preemption
    else mret (true, o)
  end.

(** [[b.block_id for b in blocks]] *)
Definition block_ids (bs : list nat) : SC (list nat) :=
  mgets (λ s, (λ b, block_id (block_pool (kv_cache_manager s) !!! b)) <$> bs).

Definition record_schedule (rid : string) (ids : list nat) (num_new_tokens : Z) : SM unit :=
  mmodify (λ s, set_locals
    (set_num_scheduled_tokens (dset (num_scheduled_tokens (locals s)) rid num_new_tokens)
       (set_req_to_new_block_ids (dset (req_to_new_block_ids (locals s)) rid ids) (locals s))) s).

(** The encoder part shared by the running and the waiting path. *)
Definition schedule_encoder (r : nat) (inputs : list nat) (encoder_budget new_budget : Z) : SM Z :=
  if bool_decide (inputs = []) then mret encoder_budget
  else
    q ← on_sched (req r);
    mmodify (λ s, set_locals (set_scheduled_encoder_inputs
      (dset (scheduled_encoder_inputs (locals s)) (request_id q) inputs) (locals s)) s);;;
    mfor inputs (λ i, on_sched (on_encoder (encoder_allocate q i)));;;
    mret new_budget.

Definition schedule_single_running_request (r : nat) (token_budget encoder_budget : Z)
    (allow_preemption : bool) : SM (option Z * Z * Z) :=
  request ← on_sched (req r);
  let num_new_tokens := (num_tokens request - num_computed_tokens request)%Z in
  massert (0 <? token_budget)%Z "token_budget > 0";;;
  let num_new_tokens := Z.min num_new_tokens token_budget in
  massert (0 <? num_new_tokens)%Z "num_new_tokens > 0";;;
  enc ← mgets (λ s, encoder_cache_manager (sched s));
  '(inputs, num_new_tokens, new_encoder_budget) ←
    mlift (try_schedule_encoder_inputs enc request (num_computed_tokens request)
             num_new_tokens encoder_budget);
  massert (0 <? num_new_tokens)%Z "num_new_tokens > 0";;;
  n ← mgets (λ s, length (running (sched s)));
  '(can_schedule, o) ← append_or_preempt (S n) r num_new_tokens allow_preemption;
  if negb can_schedule then mret (None, token_budget, encoder_budget)
  else
    match o with
    | None => mraise (AssertionError "new_blocks is not None")
    | Some new_blocks =>
      mmodify (λ s, set_locals (set_scheduled_running_reqs
        (scheduled_running_reqs (locals s) ++ [r]) (locals s)) s);;;
      ids ← on_sched (block_ids new_blocks);
      record_schedule (request_id request) ids num_new_tokens;;;
      encoder_budget ← schedule_encoder r inputs encoder_budget new_encoder_budget;
      mret (Some num_new_tokens, (token_budget - num_new_tokens)%Z, encoder_budget)
    end.

(** * One waiting request *)

(** The cached blocks and token counts for a WAITING or PREEMPTED request, or
    [None] when nothing of it can be scheduled. *)
Definition place_waiting (r : nat) (computed_blocks : list nat) (token_budget encoder_budget : Z)
    : SC (option (list nat * list nat * Z * Z * list nat * Z)) :=
  bs ← mgets (λ s, block_size (kv_cfg (kv_cache_manager s)));
  request ← req r;
  let num_computed := (Z.of_nat (length computed_blocks) * bs)%Z in
  let num_new := (num_tokens request - num_computed)%Z in
  '(computed_blocks, num_computed, num_new) ←
    (if (num_new =? 0)%Z then
       if bool_decide (computed_blocks = []) then mraise (IndexError "pop from empty list")
       else mret (removelast computed_blocks, (num_computed - bs)%Z, bs)
     else mret (computed_blocks, num_computed, num_new));
  let num_new := Z.min num_new token_budget in
  massert (0 <? num_new)%Z "num_new_tokens > 0";;;
  enc ← mgets encoder_cache_manager;
  '(inputs, num_new, new_encoder_budget) ←
    mlift (try_schedule_encoder_inputs enc request num_computed num_new encoder_budget);
  if (num_new =? 0)%Z then mret None
  else
    o ← kv_on_req r (λ q, allocate_slots py_hash q num_new computed_blocks false);
    match o with
    | None => mret None
    | Some new_blocks =>
      mret (Some (computed_blocks, new_blocks, num_computed, num_new, inputs, new_encoder_budget))
    end.

(** The same for a SWAPPED request. After the assertion the test for zero new
    tokens cannot succeed. *)
Definition place_swapped (r : nat) (computed_blocks : list nat) (token_budget encoder_budget : Z)
    : SC (option (list nat * list nat * Z * Z * list nat * Z)) :=
  bs ← mgets (λ s, block_size (kv_cfg (kv_cache_manager s)));
  request ← req r;
  let num_computed :=
    Z.max (num_computed_tokens request) (Z.of_nat (length computed_blocks) * bs) in
  let num_new := (num_tokens request - num_computed)%Z in
  massert (0 <? num_new)%Z "num_new_tokens > 0";;;
  let num_new := Z.min num_new token_budget in
  o ← kv_on_req r (λ q, swap_in py_hash q computed_blocks);
  match o with
  | None => mret None
  | Some new_blocks =>
    mret (Some (computed_blocks, new_blocks, num_computed, num_new, [], encoder_budget))
  end.

Definition schedule_single_waiting_request (r : nat) (token_budget encoder_budget : Z)
    : SM (option Z * Z * Z) :=
  request ← on_sched (req r);
  massert (negb (lookahead request)) "not request.lookahead";;;
  computed_blocks ← on_sched (kv_on_req r (get_computed_blocks py_hash));
  placed ←
    on_sched (match request_status request with
     | WAITING | PREEMPTED => place_waiting r computed_blocks token_budget encoder_budget
     | SWAPPED => place_swapped r computed_blocks token_budget encoder_budget
     | _ => mraise (RuntimeError "Invalid request status")
     end);
  match placed with
  | None => mret (None, token_budget, encoder_budget)
  | Some (computed_blocks, new_blocks, num_computed, num_new, inputs, new_encoder_budget) =>
    mmodify (λ s, set_locals
      (match request_status request with
       | WAITING => set_scheduled_new_reqs (scheduled_new_reqs (locals s) ++ [r]) (locals s)
       | _ => set_scheduled_resumed_reqs (scheduled_resumed_reqs (locals s) ++ [r]) (locals s)
       end) s);;;
    ids ← on_sched (block_ids (computed_blocks ++ new_blocks));
    record_schedule (request_id request) ids num_new;;;
    on_sched (upd_req r (set_request_status RUNNING));;;
    on_sched (upd_req r (set_num_computed_tokens num_computed));;;
    encoder_budget ← schedule_encoder r inputs encoder_budget new_encoder_budget;
    mret (Some num_new, (token_budget - num_new)%Z, encoder_budget)
  end.

(** * Proactive swapping *)

(** The binary64 values of the literals [0.95] and [0.9]. *)
Definition float_0_95 : float := 0x1.e666666666666p-1%float.
Definition float_0_9 : float := 0x1.ccccccccccccdp-1%float.

(** [sorted(..., key=...)] is stable; comparing a [None] key raises. *)
Fixpoint insert_by (key : nat → Z) (x : nat) (l : list nat) : list nat :=
  match l with
  | [] => [x]
  | y :: l' => if (key x <? key y)%Z then x :: l else y :: insert_by key x l'
  end.
Definition sort_by (key : nat → Z) (l : list nat) : list nat :=
  foldl (λ acc x, insert_by key x acc) [] l.
Definition sorted_by (key : nat → option Z) (l : list nat) : result (list nat) :=
  if bool_decide (2 ≤ length l) && existsb (λ x, bool_decide (key x = None)) l
  then Raise (TypeError "'<' not supported")
  else Ok (sort_by (λ x, default 0%Z (key x)) l).

(** The choice of the requests to swap out: the positions in [running] of
    decoding requests, oldest first, until the budget is reached. *)
Fixpoint choose_victims (candidates : list nat) (block_count : Z) : SC (list nat) :=
  match candidates with
  | [] => mret []
  | r :: candidates =>
    c ← sched_config;
    q ← req r;
    if (num_tokens q - num_computed_tokens q =? 1)%Z then
      n ← on_kv (get_num_blocks_to_free (request_id q));
      if (proactive_swap_budget c <=? block_count + n)%Z then mret []
      else rs ← choose_victims candidates (block_count + n)%Z; mret (r :: rs)
    else choose_victims candidates block_count
  end.

(** [running.remove(req)] and the swap-out of one victim. *)
Definition swap_out_victim (r : nat) : SM unit :=
  q ← on_sched (req r);
  on_sched (on_kv (swap_out (request_id q)));;;
  on_sched (upd_req r (set_request_status SWAPPED));;;
  mmodify (λ s, set_locals (set_preempted_reqs (preempted_reqs (locals s) ++ [r]) (locals s)) s);;;
  l ← mgets (λ s, running (sched s));
  l ← mlift (py_remove r l);
  on_sched (mmodify (set_running l));;;
  on_sched (mmodify (λ s, set_waiting (waiting s ++ [r]) s));;;
  on_sched (log_now "WAITING" (request_id q)).

(** [can_hold_all_requests(self.running, self.waiting)], which stores block
    hashes into the waiting requests. *)
Definition can_hold_all : SC bool :=
  s ← mget;
  '(b, ws) ← on_kv (can_hold_all_requests py_hash ((λ r, heap s !!! r) <$> running s)
                      ((λ r, heap s !!! r) <$> waiting s));
  mfor (zip (waiting s) ws) (λ '(r, q), upd_req r (λ _, q));;;
  mret b.

(** The positions of [sorted(zip(running, range(...)))] are used to index
    [running] again, so a victim is named by its request. *)
Definition schedule_early : SM unit :=
  fits ← on_sched can_hold_all;
  if (fits : bool) then mret tt
  else
    s ← mgets sched;
    w ← mlift (sorted_by (λ r, in_waiting_since (heap s !!! r)) (waiting s));
    on_sched (mmodify (set_waiting w));;;
    sorted_running ← mlift (sorted_by (λ r, in_running_since (heap s !!! r)) (running s));
    '(_, cpu_usage) ← on_sched (on_kv get_kv_caches_usage);
    nf ← on_sched (on_kv num_free);
    let budget := proactive_swap_budget (config s) in
    let swap_cond := PrimFloat.ltb cpu_usage float_0_95 && (nf <? budget)%Z in
    victims ← (if (0 <? budget)%Z && swap_cond then on_sched (choose_victims sorted_running 0)
               else mret []);
    mfor victims swap_out_victim.

(** * The scheduling step *)

(** The early phase: whether it preempted requests
    ([reqs_id_preempted_early is not None]), and the ids it scheduled. *)
Definition early_phase : SM (bool * option (list string)) :=
  c ← on_sched sched_config;
  if negb (proactive_swapping c) then mret (false, None)
  else
    schedule_early;;;
    s ← mget;
    let early := scheduled_new_reqs (locals s) ++ scheduled_resumed_reqs (locals s) in
    mfor early (λ r, q ← on_sched (req r);
                     massert (bool_decide (request_status q = RUNNING)) "req.status");;;
    mret (negb (bool_decide (preempted_reqs (locals s) = [])),
          if bool_decide (early = []) then None
          else Some ((λ r, request_id (heap (sched s) !!! r)) <$> early)).

(** The loop over [running], from [req_index]. *)
Fixpoint running_loop (fuel : nat) (la : bool) (early : option (list string)) (req_index : nat)
    (has_partial : bool) (token_budget encoder_budget : Z) : SM (bool * Z * Z) :=
  match fuel with
  | 0 => mraise OutOfFuel
  | S fuel =>
    l ← mgets (λ s, running (sched s));
    match l !! req_index with
    | None => mret (has_partial, token_budget, encoder_budget)
    | Some r =>
      massert (negb has_partial) "not has_partial_request";;;
      massert (0 <? token_budget)%Z "token_budget > 0";;;
      request ← on_sched (req r);
      if match early with Some ids => bool_decide (request_id request ∈ ids) | None => false end
      then running_loop fuel la early (S req_index) has_partial token_budget encoder_budget
      else
        let '(entered, original) := lookahead_enter la request in
        on_sched (upd_req r (λ _, entered));;;
        '(o, token_budget, encoder_budget) ←
          schedule_single_running_request r token_budget encoder_budget true;
        on_sched (upd_req r (lookahead_exit la original));;;
        match o with
        | None | Some 0%Z => mret (has_partial, token_budget, encoder_budget)
        | Some num_new =>
          request ← on_sched (req r);
          let partial :=
            if la then (num_computed_tokens_next request + num_new <? num_tokens_next request)%Z
            else (num_computed_tokens request + num_new <? num_tokens request)%Z in
          running_loop fuel la early (S req_index) partial token_budget encoder_budget
        end
    end
  end.

(** The loop over [waiting]; returns the requests it set aside. *)
Fixpoint waiting_loop (fuel : nat) (cpu_usage : float) (excluded : list nat) (has_partial : bool)
    (token_budget encoder_budget : Z) : SM (list nat * Z * Z) :=
  match fuel with
  | 0 => mraise OutOfFuel
  | S fuel =>
    s ← mgets sched;
    match waiting s with
    | [] => mret (excluded, token_budget, encoder_budget)
    | r :: rest =>
      if has_partial || (Z.of_nat (length (running s)) =? max_num_seqs (config s))%Z
         || (token_budget =? 0)%Z
      then mret (excluded, token_budget, encoder_budget)
      else if PrimFloat.ltb float_0_9 cpu_usage && bool_decide (request_status (heap s !!! r) = WAITING)
      then
        on_sched (mmodify (set_waiting rest));;;
        waiting_loop fuel cpu_usage (excluded ++ [r]) has_partial token_budget encoder_budget
      else
        '(o, token_budget, encoder_budget) ←
          schedule_single_waiting_request r token_budget encoder_budget;
        match o with
        | None | Some 0%Z => mret (excluded, token_budget, encoder_budget)
        | Some num_new =>
          on_sched (mmodify (λ s, set_waiting (tail (waiting s)) s));;;
          on_sched (mmodify (λ s, set_running (running s ++ [r]) s));;;
          request ← on_sched (req r);
          on_sched (log_now "RUNNING" (request_id request));;;
          waiting_loop fuel cpu_usage excluded
            (num_computed_tokens request + num_new <? num_tokens request)%Z
            token_budget encoder_budget
        end
    end
  end.

(** Everything up to the final checks: the remaining token budget. *)
Definition schedule_requests (la : bool) : SM Z :=
  c ← on_sched sched_config;
  '(preempted_early, scheduled_early) ← early_phase;
  n ← mgets (λ s, length (running (sched s)));
  '(has_partial, token_budget, encoder_budget) ←
    running_loop (S n) la scheduled_early 0 false (max_num_batched_tokens c)
      (max_num_encoder_input_tokens c);
  '(_, cpu_usage) ← on_sched (on_kv get_kv_caches_usage);
  pre ← mgets (λ s, preempted_reqs (locals s));
  if bool_decide (pre = []) || preempted_early then
    n ← mgets (λ s, length (waiting (sched s)));
    '(excluded, token_budget, _) ←
      waiting_loop (S n) cpu_usage [] has_partial token_budget encoder_budget;
    on_sched (mmodify (λ s, set_waiting (waiting s ++ excluded) s));;;
    t ← on_sched time_time;
    mfor excluded (λ r, q ← on_sched (req r); on_sched (log_event "WAITING" t (request_id q)));;;
    mret token_budget
  else mret token_budget.

(** The final checks. *)
Definition schedule_checks (token_budget : Z) : SM Z :=
  s ← mget;
  let c := config (sched s) in
  let l := locals s in
  let total := dsum id (num_scheduled_tokens l) in
  massert (total <=? max_num_batched_tokens c)%Z "total_num_scheduled_tokens";;;
  massert (0 <=? token_budget)%Z "token_budget >= 0";;;
  massert (Z.of_nat (length (running (sched s))) <=? max_num_seqs c)%Z "len(self.running)";;;
  massert (bool_decide (length (scheduled_new_reqs l) + length (scheduled_resumed_reqs l)
             + length (scheduled_running_reqs l) = length (running (sched s)))) "len(scheduled)";;;
  mret total.

(** ** The output *)

(** [_make_running_request_data]: a cached object is overwritten in place. *)
Definition make_running_request_data (request : Request) (new_block_ids : list nat)
    (num_computed n : Z) : SC nat :=
  known ← mgets running_reqs_data;
  match dget known (request_id request) with
  | Some d =>
    mmodify (λ s, set_data_heap
      (alter (λ o, {| run_req_id := run_req_id o; run_new_block_ids := new_block_ids;
                      run_num_computed_tokens := num_computed; run_num_tokens := n |})
         d (data_heap s)) s);;;
    mret d
  | None =>
    d ← mgets (λ s, length (data_heap s));
    mmodify (λ s, set_data_heap
      (data_heap s ++ [running_request_data request new_block_ids num_computed n]) s);;;
    mmodify (λ s, set_running_reqs_data (dset (running_reqs_data s) (request_id request) d) s);;;
    mret d
  end.

(** [d[k]] *)
Definition dindex {A} (d : dict string A) (k : string) : SM A :=
  match dget d k with Some v => mret v | None => mraise (KeyError "d[k]") end.

(** A list comprehension over requests. *)
Definition map_reqs {A} (l : list nat) (f : Request → SM A) : SM (list A) :=
  mfold l [] (λ acc r, q ← on_sched (req r); a ← f q; mret (acc ++ [a])).

(** "update time" *)
Definition update_times : SC unit :=
  now ← time_time;
  s ← mget;
  mfor (running s) (λ r, q ← req r;
    mwhen (bool_decide (in_running_since q = None))
      (upd_req r (λ q, set_in_waiting_since None (set_in_running_since (Some now) q))));;;
  mfor (waiting s) (λ r, q ← req r;
    mwhen (bool_decide (in_waiting_since q = None))
      (upd_req r (λ q, set_in_waiting_since (Some now) (set_in_running_since None q)))).

(** The next-step token counts of a running request under lookahead. *)
Definition advance_lookahead (r : nat) (st : Z) : SC unit :=
  c ← sched_config;
  q ← req r;
  massert (0 <? num_computed_tokens_next q)%Z "req.num_computed_tokens_next > 0";;;
  massert (0 <? num_tokens_next q)%Z "req.num_tokens_next > 0";;;
  massert (num_computed_tokens_next q + st <=? num_tokens_next q)%Z
    "req.num_computed_tokens_next + st <= req.num_tokens_next";;;
  let partial := (num_computed_tokens_next q + st <? num_tokens_next q)%Z in
  mwhen (negb partial && can_extend_after_full_step c q true)
    (upd_req r (λ q, set_num_tokens_next (num_tokens_next q + 1) q));;;
  upd_req r (λ q, set_num_computed_tokens_next (num_computed_tokens_next q + st) q).

(** And of a request scheduled without lookahead. *)
Definition advance_next (r : nat) (st : Z) : SC unit :=
  c ← sched_config;
  q ← req r;
  massert (num_computed_tokens q + st <=? num_tokens q)%Z "req.num_computed_tokens + st <= req.num_tokens";;;
  let partial := (num_computed_tokens q + st <? num_tokens q)%Z in
  upd_req r (λ q, set_num_tokens_next
    (if partial then num_tokens q
     else if can_extend_after_full_step c q false then num_tokens q + 1 else num_tokens q)%Z q);;;
  upd_req r (λ q, set_num_computed_tokens_next (num_computed_tokens q + st) q).

Definition advance_running (la : bool) (r : nat) : SM unit :=
  q ← on_sched (req r);
  sts ← mgets (λ s, num_scheduled_tokens (locals s));
  st ← dindex sts (request_id q);
  if la then on_sched (advance_lookahead r st)
  else
    massert (0 <? num_computed_tokens q)%Z "req.num_computed_tokens > 0";;;
    massert (0 <? num_tokens q)%Z "req.num_tokens > 0";;;
    on_sched (advance_next r st).
Definition advance_new (r : nat) : SM unit :=
  q ← on_sched (req r);
  sts ← mgets (λ s, num_scheduled_tokens (locals s));
  st ← dindex sts (request_id q);
  on_sched (advance_next r st).

Definition make_output (la : bool) (total : Z) : SM SchedulerOutput :=
  swap_in_blocks ← on_sched (on_kv get_and_reset_pending_blocks_to_swap_in);
  swap_out_blocks ← on_sched (on_kv get_and_reset_pending_blocks_to_swap_out);
  on_sched update_times;;;
  l ← mgets locals;
  new_reqs_data ← map_reqs (scheduled_new_reqs l) (λ q,
    ids ← dindex (req_to_new_block_ids l) (request_id q);
    mret (new_request_data q ids (num_computed_tokens q)));
  resumed_reqs_data ← map_reqs (scheduled_resumed_reqs l) (λ q,
    ids ← dindex (req_to_new_block_ids l) (request_id q);
    mret (resumed_request_data q ids (num_computed_tokens q)));
  running_data ← map_reqs (scheduled_running_reqs l) (λ q,
    ids ← dindex (req_to_new_block_ids l) (request_id q);
    on_sched (make_running_request_data q ids
      (if la then num_computed_tokens_next q else num_computed_tokens q)
      (if la then num_tokens_next q else num_tokens q)));
  preempted ← map_reqs (preempted_reqs l) (λ q, mret (request_id q));
  mfor (scheduled_running_reqs l) (advance_running la);;;
  mfor (scheduled_new_reqs l ++ scheduled_resumed_reqs l) advance_new;;;
  finished ← mgets (λ s, finished_req_ids (sched s));
  freed ← on_sched (on_encoder get_freed_ids);
  n ← mgets (λ s, schedule_counter (sched s));
  on_sched (mmodify (set_schedule_counter (n + 1)));;;
  on_sched (mmodify (set_finished_req_ids []));;;
  mret {| out_scheduled_new_reqs := new_reqs_data;
          out_scheduled_resumed_reqs := resumed_reqs_data;
          out_scheduled_running_reqs := running_data;
          out_num_scheduled_tokens := num_scheduled_tokens l;
          total_num_scheduled_tokens := total;
          out_scheduled_encoder_inputs := scheduled_encoder_inputs l;
          preempted_req_ids := foldl (λ acc x, set_add x acc) [] preempted;
          out_finished_req_ids := finished;
          free_encoder_input_ids := freed;
          blocks_to_swap_in := Some swap_in_blocks;
          blocks_to_swap_out := Some swap_out_blocks;
          counter := n |}.

Definition schedule_step (la : bool) : SM SchedulerOutput :=
  token_budget ← schedule_requests la;
  total ← schedule_checks token_budget;
  make_output la total.

(** [schedule]: the step from fresh local variables. *)
Definition schedule (la : bool) : SC SchedulerOutput := λ s,
  match schedule_step la {| sched := s; locals := no_locals |} with
  | Ok (o, s') => Ok (o, sched s')
  | Raise e => Raise e
  end.
End step.

(** * After the step *)

(** [reschedule]: drops the stopped requests from an output. The data object of
    a running request is looked up in the heap for its id. *)
Definition reschedule (s : Scheduler) (o : SchedulerOutput) (stopped_ids : list string)
    : SchedulerOutput :=
  let live (rid : string) : Prop := rid ∉ stopped_ids in
  let nst := foldl (λ d rid, ddel d rid) (out_num_scheduled_tokens o) stopped_ids in
  {| out_scheduled_new_reqs := filter (λ d, live (nrd_req_id d)) (out_scheduled_new_reqs o);
     out_scheduled_resumed_reqs := filter (λ d, live (rrd_req_id d)) (out_scheduled_resumed_reqs o);
     out_scheduled_running_reqs :=
       filter (λ d, live (run_req_id (data_heap s !!! d))) (out_scheduled_running_reqs o);
     out_num_scheduled_tokens := nst;
     total_num_scheduled_tokens := dsum id nst;
     out_scheduled_encoder_inputs :=
       filter (λ '(rid, _), live rid) (out_scheduled_encoder_inputs o);
     preempted_req_ids := filter live (preempted_req_ids o);
     out_finished_req_ids := foldl (λ acc x, set_add x acc) (out_finished_req_ids o) stopped_ids;
     free_encoder_input_ids := filter (λ x, live x.1) (free_encoder_input_ids o);
     blocks_to_swap_in := blocks_to_swap_in o;
     blocks_to_swap_out := blocks_to_swap_out o;
     counter := counter o |}.

(** [ModelRunnerOutput]: what the scheduler reads of it. *)
Record ModelRunnerOutput := {
  req_id_to_index : dict string nat;
  sampled_token_ids : list Z;
  mro_new_token_ids : dict string Z;
  bad_ids : list string;
}.
Record EngineCoreOutput := {
  eco_request_id : string;
  eco_new_token_ids : list Z;
  eco_finished : bool;
  eco_finish_reason : option string;
  eco_stop_reason : option Z;
}.

(** [l[-1:]] *)
Definition last_slice (l : list Z) : list Z := slice l (-1) (Z.of_nat (length l)).

(** A sampled token: append, check for a stop, and report. *)
Definition take_token (r : nat) (rid : string) (token_id : Z)
    (acc : list EngineCoreOutput * list string) : SC (list EngineCoreOutput * list string) :=
  upd_req r (append_output_token_ids [token_id]);;;
  stopped ← check_stop r;
  q ← req r;
  let output := {| eco_request_id := rid; eco_new_token_ids := last_slice (output_token_ids q);
                   eco_finished := is_finished q; eco_finish_reason := request_finished_reason q;
                   eco_stop_reason := stop_reason q |} in
  mret (acc.1 ++ [output], if (stopped : bool) then set_add rid acc.2 else acc.2).

(** One request of [update_from_output]. *)
Definition update_request (m : ModelRunnerOutput)
    (acc : list EngineCoreOutput * list string) (rn : string * Z)
    : SC (list EngineCoreOutput * list string) :=
  let '(rid, n) := rn in
  known ← mgets requests;
  match dget known rid with
  | None => mraise (KeyError "self.requests")
  | Some r =>
    upd_req r (λ q, set_num_computed_tokens (num_computed_tokens q + n) q);;;
    let checked : SC unit :=
      q ← req r; massert (num_computed_tokens q <=? num_tokens q)%Z
                   "request.num_computed_tokens <= request.num_tokens" in
    match dget (mro_new_token_ids m) rid with
    | Some token_id => acc ← take_token r rid token_id acc; checked;;; mret acc
    | None =>
      checked;;;
      if bool_decide (rid ∈ bad_ids m) then mret acc
      else
        q ← req r;
        if (num_computed_tokens q =? num_tokens q)%Z then
          match dget (req_id_to_index m) rid with
          | None => mraise (KeyError "req_id_to_index")
          | Some i =>
            match sampled_token_ids m !! i with
            | None => mraise (IndexError "sampled_token_ids")
            | Some token_id => take_token r rid token_id acc
            end
          end
        else mret acc
    end
  end.

Definition update_from_output (o : SchedulerOutput) (m : ModelRunnerOutput)
    : SC (list EngineCoreOutput * list string) :=
  '(outputs, stopped_ids) ← mfold (out_num_scheduled_tokens o) ([], []) (update_request m);
  mmodify (λ s, set_running (filter (λ r, request_id (heap s !!! r) ∉ stopped_ids) (running s)) s);;;
  mmodify (λ s, set_waiting (filter (λ r, request_id (heap s !!! r) ∉ stopped_ids) (waiting s)) s);;;
  t ← time_time;
  mfor stopped_ids (log_event "STOPPED" t);;;
  mret (outputs, stopped_ids).
