(* ===== verification/SchedInv.v ===== *)
(** The scheduler's invariant: every live request is in exactly one of
    [running] and [waiting], its status says which, and the KV-cache manager
    holds a block table for exactly the running ones. *)
From Stdlib Require Import ssreflect ZArith Lia.
From stdpp Require Import base numbers list gmap strings.
From S2P Require Import Prelude SamplingParams KVCacheBlock Request FreeQueue BlockHash KVCacheManager KVInvariant KVOps KVSwap KVSafety EncoderCache Scheduler.

(** * Definitions *)
Definition rid_of (s : Scheduler) (r : nat) : string := request_id (heap s !!! r).
Definition status_of (s : Scheduler) (r : nat) : RequestStatus := request_status (heap s !!! r).
Definition table_of (s : Scheduler) (rid : string) : option (list nat) :=
  dget (req_to_blocks (kv_cache_manager s)) rid.
Definition cpu_table_of (s : Scheduler) (rid : string) : option (list nat) :=
  dget (req_to_blocks_cpu (kv_cache_manager s)) rid.

Definition kv_ok (k : KVCacheManager) : Prop := ∃ ext l, kv_inv None ext l k.

Definition running_ok (s : Scheduler) (r : nat) : Prop :=
  status_of s r = RUNNING ∧ is_Some (table_of s (rid_of s r)).
Definition waiting_ok (s : Scheduler) (r : nat) : Prop :=
  (status_of s r = WAITING ∨ status_of s r = PREEMPTED ∨ status_of s r = SWAPPED) ∧
  table_of s (rid_of s r) = None ∧
  (status_of s r = SWAPPED → is_Some (cpu_table_of s (rid_of s r))).

(** [sinv R W s]: [R] are the running and [W] the waiting requests. *)
Record sinv (R W : list nat) (s : Scheduler) : Prop := {
  si_kv : kv_ok (kv_cache_manager s);
  si_nodup : NoDup (R ++ W);
  si_range : ∀ r, r ∈ R ++ W → r < length (heap s);
  si_known : ∀ r, r ∈ R ++ W → dget (requests s) (rid_of s r) = Some r;
  si_run : ∀ r, r ∈ R → running_ok s r;
  si_wait : ∀ r, r ∈ W → waiting_ok s r;
  si_requests : dict_wf (requests s);
  si_only : ∀ rid r, dget (requests s) rid = Some r → r ∈ R ++ W ∧ rid_of s r = rid;
  si_tables : ∀ rid, is_Some (table_of s rid) → is_Some (dget (requests s) rid);
}.
Definition sched_inv (s : Scheduler) : Prop := sinv (running s) (waiting s) s.

Lemma sinv_ids R W s r1 r2 :
  sinv R W s → r1 ∈ R ++ W → r2 ∈ R ++ W → rid_of s r1 = rid_of s r2 → r1 = r2.
Proof.
  move=> HI H1 H2 Heq. have E1 := si_known _ _ _ HI _ H1. have E2 := si_known _ _ _ HI _ H2.
  rw Heq in E1. congruence.
Qed.

(** * Steps that concern one request *)

(** [s'] differs from [s] only in the request [r], its block tables, and parts
    of the state the invariant does not read. *)
Record only_req (r : nat) (s s' : Scheduler) : Prop := {
  oq_cfg : config s' = config s;
  oq_len : length (heap s') = length (heap s);
  oq_id : ∀ x, rid_of s' x = rid_of s x;
  oq_heap : ∀ x, x ≠ r → heap s' !!! x = heap s !!! x;
  oq_requests : requests s' = requests s;
  oq_running : running s' = running s;
  oq_waiting : waiting s' = waiting s;
  oq_table : ∀ rid, rid ≠ rid_of s r → table_of s' rid = table_of s rid;
  oq_cpu : ∀ rid, rid ≠ rid_of s r → cpu_table_of s' rid = cpu_table_of s rid;
}.

Lemma only_req_refl r s : only_req r s s.
Proof. by split. Qed.
Lemma only_req_trans r s1 s2 s3 : only_req r s1 s2 → only_req r s2 s3 → only_req r s1 s3.
Proof.
  move=> [A1 A2 A3 A4 A5 A6 A7 A8 A9] [B1 B2 B3 B4 B5 B6 B7 B8 B9]. split; try congruence.
  - move=> x Hx. rw B4 //. by apply A4.
  - move=> rid Hr. rw B8; [by rw A3|by apply A8].
  - move=> rid Hr. rw B9; [by rw A3|by apply A9].
Qed.
#[export] Hint Resolve only_req_refl : py.

Lemma running_ok_other r s s' x : only_req r s s' → x ≠ r → rid_of s x ≠ rid_of s r →
  running_ok s x → running_ok s' x.
Proof.
  move=> Ho Hx Hid [H1 H2]. split; [by rw /status_of (oq_heap _ _ _ Ho)|].
  rw (oq_id _ _ _ Ho) (oq_table _ _ _ Ho) //.
Qed.
Lemma waiting_ok_other r s s' x : only_req r s s' → x ≠ r → rid_of s x ≠ rid_of s r →
  waiting_ok s x → waiting_ok s' x.
Proof.
  move=> Ho Hx Hid [H1 [H2 H3]].
  rw /waiting_ok (oq_id _ _ _ Ho) (oq_table _ _ _ Ho) // (oq_cpu _ _ _ Ho) //.
  rw /status_of (oq_heap _ _ _ Ho) //.
Qed.

(** A step on one request [r] that moves it between the lists, or leaves it. *)
Lemma sinv_step r R W R' W' s s' :
  sinv R W s → r ∈ R ++ W → kv_ok (kv_cache_manager s') → only_req r s s' →
  NoDup (R' ++ W') →
  (∀ x, x ∈ R' → x = r ∨ x ∈ R) → (∀ x, x ∈ W' → x = r ∨ x ∈ W) →
  (∀ x, x ∈ R ++ W → x ∈ R' ++ W') →
  (r ∈ R' → running_ok s' r) → (r ∈ W' → waiting_ok s' r) →
  sinv R' W' s'.
Proof.
  move=> HI Hr Hkv Ho Hnd HR HW Hsup Hr1 Hr2.
  have Hsub : ∀ x, x ∈ R' ++ W' → x ∈ R ++ W.
  { move=> x /elem_of_app [/HR [->//|?]|/HW [->//|?]]; apply elem_of_app; tauto. }
  have Hne : ∀ x, x ∈ R ++ W → x ≠ r → rid_of s x ≠ rid_of s r
    by move=> x Hx Hn Heq; apply Hn; eapply sinv_ids.
  split; [done|done| | | | |by rw (oq_requests _ _ _ Ho); apply (si_requests _ _ _ HI)| |].
  - move=> x /Hsub Hx. rw (oq_len _ _ _ Ho). by apply (si_range _ _ _ HI).
  - move=> x /Hsub Hx. rw (oq_requests _ _ _ Ho) (oq_id _ _ _ Ho). by apply (si_known _ _ _ HI).
  - move=> x Hx. destruct (decide (x = r)) as [->|Hn]; first by apply Hr1.
    destruct (HR x Hx) as [->|HxR]; first done.
    have HxRW : x ∈ R ++ W by apply elem_of_app; left.
    eapply running_ok_other; [done|done|by apply Hne|by apply (si_run _ _ _ HI)].
  - move=> x Hx. destruct (decide (x = r)) as [->|Hn]; first by apply Hr2.
    destruct (HW x Hx) as [->|HxW]; first done.
    have HxRW : x ∈ R ++ W by apply elem_of_app; right.
    eapply waiting_ok_other; [done|done|by apply Hne|by apply (si_wait _ _ _ HI)].
  - move=> rid x. rw (oq_requests _ _ _ Ho) (oq_id _ _ _ Ho) => /(si_only _ _ _ HI) [? ?]. auto.
  - move=> rid. rw (oq_requests _ _ _ Ho). destruct (decide (rid = rid_of s r)) as [->|Hn].
    + by rw (si_known _ _ _ HI r Hr).
    + rw (oq_table _ _ _ Ho) //. apply (si_tables _ _ _ HI).
Qed.

(** The common case: [r] stays where it is. *)
Lemma sinv_stay r R W s s' :
  sinv R W s → r ∈ R ++ W → kv_ok (kv_cache_manager s') → only_req r s s' →
  (r ∈ R → running_ok s' r) → (r ∈ W → waiting_ok s' r) → sinv R W s'.
Proof. move=> HI Hr Hkv Ho H1 H2. eapply sinv_step; eauto using si_nodup. Qed.

(** The invariant reads only part of the state. *)
Lemma sinv_same R W s s' :
  kv_cache_manager s' = kv_cache_manager s → heap s' = heap s → requests s' = requests s →
  sinv R W s → sinv R W s'.
Proof.
  move=> H1 H2 H3 [A1 A2 A3 A4 A5 A6 A7 A8 A9]. split; rw ?H1 ?H2 ?H3 //.
  - move=> r Hr. rw /rid_of H2. by apply A4.
  - move=> r Hr. rw /running_ok /status_of /table_of /rid_of H1 H2. by apply A5.
  - move=> r Hr. rw /waiting_ok /status_of /table_of /cpu_table_of /rid_of H1 H2. by apply A6.
  - move=> rid r. rw /rid_of H2. apply A8.
  - move=> rid. rw /table_of H1. apply A9.
Qed.

(** A store into the request object that keeps id and status. *)
Lemma wp_upd_req_keep R W r f s Q E :
  sinv R W s → r ∈ R ++ W →
  request_id (f (heap s !!! r)) = request_id (heap s !!! r) →
  request_status (f (heap s !!! r)) = request_status (heap s !!! r) →
  (∀ s', s' = set_heap (alter f r (heap s)) s → sinv R W s' → only_req r s s' → Q tt s') →
  wp (upd_req r f) s Q E.
Proof.
  move=> HI Hr Hid Hst HQ. rw /upd_req. wp_step. have Hlt := si_range _ _ _ HI r Hr.
  set s' := set_heap _ _.
  have Hrid : ∀ x, rid_of s' x = rid_of s x.
  { move=> x. rw /rid_of /s' /=. destruct (decide (r = x)) as [<-|?];
      [by rw (alter_field_eq request_id)|by rw (alter_field_ne request_id)]. }
  have Hstat : ∀ x, status_of s' x = status_of s x.
  { move=> x. rw /status_of /s' /=. destruct (decide (r = x)) as [<-|?];
      [by rw (alter_field_eq request_status)|by rw (alter_field_ne request_status)]. }
  have Ho : only_req r s s'.
  { split => //=; [by rw length_alter|]. move=> x Hx. by rw list_lookup_total_alter_ne. }
  apply HQ; [done| |done]. destruct HI as [A1 A2 A3 A4 A5 A6 A7 A8 A9].
  eapply sinv_stay; [by split|done|done|done| |].
  - move=> /A5 [B1 B2]. by rw /running_ok Hstat Hrid.
  - move=> /A6 [B1 [B2 B3]]. by rw /waiting_ok Hstat Hrid.
Qed.

(** * Manager calls on a request *)

(** The state after a manager call that left [k] and returned request [q]. *)
Definition after_call (r : nat) (q : Request) (k : KVCacheManager) (s : Scheduler) : Scheduler :=
  set_heap (alter (λ _, q) r (heap s)) (set_kv_cache_manager k s).

Lemma wp_kv_on_req {A} r (f : Request → KV (A * Request)) s Q E :
  wp (f (heap s !!! r)) (kv_cache_manager s) (λ p k, Q p.1 (after_call r p.2 k s)) E →
  wp (kv_on_req r f) s Q E.
Proof.
  move=> H. rw /kv_on_req /req /on_kv /upd_req. do 3 wp_step. wp_step.
  eapply wp_mono; [exact H| |done]. move=> [a q] k HQ. do 3 wp_step. exact HQ.
Qed.

Section after_call.
Context (r : nat) (q : Request) (k : KVCacheManager) (s : Scheduler).
Hypothesis Hr : r < length (heap s).
Hypothesis Hid : request_id q = rid_of s r.

Lemma after_call_rid x : rid_of (after_call r q k s) x = rid_of s x.
Proof.
  rw /rid_of /after_call /=. destruct (decide (r = x)) as [<-|?].
  - by rw list_lookup_total_alter_eq.
  - by rw list_lookup_total_alter_ne.
Qed.
Lemma after_call_status : status_of (after_call r q k s) r = request_status q.
Proof. by rw /status_of /after_call /= list_lookup_total_alter_eq. Qed.
Lemma after_call_only :
  (∀ rid, rid ≠ rid_of s r → dget (req_to_blocks k) rid = table_of s rid) →
  (∀ rid, rid ≠ rid_of s r → dget (req_to_blocks_cpu k) rid = cpu_table_of s rid) →
  only_req r s (after_call r q k s).
Proof.
  move=> H1 H2. split => //=; [by rw length_alter|apply after_call_rid|].
  move=> x Hx. by rw list_lookup_total_alter_ne.
Qed.
End after_call.

Lemma same_request_id r r' : same_request r r' → request_id r' = request_id r.
Proof. by intros (? & ? & ->). Qed.
Lemma same_request_status r r' : same_request r r' → request_status r' = request_status r.
Proof. by intros (? & ? & ->). Qed.

Section calls.
Context (py_hash : option Z → list Z → Z).

(** [append_slots] on a running request. *)
Lemma wp_append_call R W r n s Q :
  sinv R W s → r ∈ R →
  (∀ o s', sinv R W s' → only_req r s s' →
     (∃ q, same_request (heap s !!! r) q ∧ heap s' !!! r = q) → Q o s') →
  wp (kv_on_req r (λ q, append_slots py_hash q n)) s Q any_exn.
Proof.
  move=> HI Hr HQ. destruct (si_run _ _ _ HI r Hr) as [Hst [bs Ht]].
  have HrRW : r ∈ R ++ W by apply elem_of_app; left.
  have Hlt := si_range _ _ _ HI r HrRW. destruct (si_kv _ _ _ HI) as (ext & l & Hkv).
  assert (Hgo : ∀ o q k, kv_ok k → same_request (heap s !!! r) q →
    is_Some (dget (req_to_blocks k) (rid_of s r)) →
    (∀ rid, rid ≠ rid_of s r → dget (req_to_blocks k) rid = table_of s rid) →
    req_to_blocks_cpu k = req_to_blocks_cpu (kv_cache_manager s) → Q o (after_call r q k s)).
  { move=> o q k Hk Hq Hsome Hoth Hcpu. have Hidq := same_request_id _ _ Hq.
    have Ho : only_req r s (after_call r q k s)
      by apply after_call_only => //; move=> rid _; rw /cpu_table_of Hcpu.
    apply HQ; [|done|exists q; by rw /= list_lookup_total_alter_eq].
    eapply sinv_stay; [done|done|done|done| |].
    - move=> _. split; [by rw after_call_status // (same_request_status _ _ Hq)|].
      by rw after_call_rid.
    - move=> HW. exfalso. have Hnd := si_nodup _ _ _ HI. apply NoDup_app in Hnd as (_ & Hd & _).
      by apply (Hd r). }
  apply wp_kv_on_req. eapply wp_append_slots; [exact Hkv|exact Ht| |].
  - move=> _. apply Hgo; [by exists ext, l|auto with py|by rw -/(table_of s _) Ht|done|done].
  - move=> k new q _ _ _ Hk _ _ _ Htn Hoth Hcpu Hq.
    apply Hgo; [by eexists _, _|done|by rw Htn|done|done].
Qed.

(** [get_computed_blocks] on any live request. *)
Lemma wp_computed_call R W r s Q :
  sinv R W s → r ∈ R ++ W →
  (∀ bs s', sinv R W s' → only_req r s s' →
     kv_cache_manager s' = kv_cache_manager s →
     (∃ q, same_request (heap s !!! r) q ∧ heap s' !!! r = q) →
     (∀ b, b ∈ bs → b < length (block_pool (kv_cache_manager s))) → Q bs s') →
  wp (kv_on_req r (get_computed_blocks py_hash)) s Q any_exn.
Proof.
  move=> HI Hr HQ. have Hlt := si_range _ _ _ HI r Hr. destruct (si_kv _ _ _ HI) as (ext & l & Hkv).
  apply wp_kv_on_req. eapply wp_get_computed_blocks; first exact Hkv.
  move=> bs q Hq _ HF _ _ /=. have Hidq := same_request_id _ _ Hq.
  have Ho : only_req r s (after_call r q (kv_cache_manager s) s) by apply after_call_only.
  apply HQ; [|done|done|exists q; by rw /= list_lookup_total_alter_eq|].
  - eapply sinv_stay; [done|done|by exists ext, l|done| |].
    + move=> /(si_run _ _ _ HI) [H1 H2].
      split; [by rw after_call_status // (same_request_status _ _ Hq)|by rw after_call_rid].
    + move=> /(si_wait _ _ _ HI) H1. rw /waiting_ok after_call_status //.
      by rw (same_request_status _ _ Hq) after_call_rid.
  - move=> b /list_elem_of_lookup [i Hi]. destruct (Forall2_lookup_l _ _ _ _ _ HF Hi) as (h & _ & H1 & _).
    done.
Qed.

(** What [allocate_slots] and [swap_in] do for a waiting request: give up and
    leave it waiting, or give it a table. *)
Definition placed (r : nat) (W : list nat) (R : list nat) (s : Scheduler) (o : option (list nat))
    (s' : Scheduler) : Prop :=
  only_req r s s' ∧ (∃ q, same_request (heap s !!! r) q ∧ heap s' !!! r = q) ∧
  kv_ok (kv_cache_manager s') ∧
  match o with
  | None => sinv R W s'
  | Some _ => is_Some (table_of s' (rid_of s r))
  end.

Lemma waiting_not_running R W s r : sinv R W s → r ∈ W → r ∉ R.
Proof.
  move=> HI HW HR. have Hnd := si_nodup _ _ _ HI. apply NoDup_app in Hnd as (_ & Hd & _).
  by apply (Hd r).
Qed.

Lemma placed_none R W r s q k :
  sinv R W s → r ∈ W → kv_ok k → same_request (heap s !!! r) q →
  req_to_blocks k = req_to_blocks (kv_cache_manager s) →
  req_to_blocks_cpu k = req_to_blocks_cpu (kv_cache_manager s) →
  placed r W R s None (after_call r q k s).
Proof.
  move=> HI HW Hk Hq H1 H2. have HrRW : r ∈ R ++ W by apply elem_of_app; right.
  have Hlt := si_range _ _ _ HI r HrRW. have Hidq := same_request_id _ _ Hq.
  have Ho : only_req r s (after_call r q k s)
    by apply after_call_only => //; move=> rid _; rw /table_of /cpu_table_of ?H1 ?H2.
  split_and!; [done|exists q; by rw /= list_lookup_total_alter_eq|done|].
  eapply sinv_stay; [done|done|done|done|by move=> /(waiting_not_running _ _ _ _ HI HW)|].
  move=> _. destruct (si_wait _ _ _ HI r HW) as (B1 & B2 & B3).
  rw /waiting_ok after_call_status // (same_request_status _ _ Hq) after_call_rid //.
  by rw /table_of /cpu_table_of /= H1 H2.
Qed.

Lemma placed_some R W r s q k new tbl :
  sinv R W s → r ∈ W → kv_ok k → same_request (heap s !!! r) q →
  req_to_blocks k = dset (req_to_blocks (kv_cache_manager s)) (rid_of s r) tbl →
  (∀ rid, rid ≠ rid_of s r → dget (req_to_blocks_cpu k) rid = cpu_table_of s rid) →
  placed r W R s (Some new) (after_call r q k s).
Proof.
  move=> HI HW Hk Hq H1 H2. have HrRW : r ∈ R ++ W by apply elem_of_app; right.
  have Hlt := si_range _ _ _ HI r HrRW. have Hidq := same_request_id _ _ Hq.
  split_and!; [|exists q; by rw /= list_lookup_total_alter_eq|done|by rw /table_of /= H1 dget_dset_eq].
  apply after_call_only => //. move=> rid Hne. by rw H1 dget_dset_ne.
Qed.

Lemma wp_allocate_call R W r n computed s :
  sinv R W s → r ∈ W →
  (∀ b, b ∈ computed → b < length (block_pool (kv_cache_manager s))) →
  wp (kv_on_req r (λ q, allocate_slots py_hash q n computed false)) s (placed r W R s) any_exn.
Proof.
  move=> HI HW Hc. destruct (si_kv _ _ _ HI) as (ext & l & Hkv).
  destruct (si_wait _ _ _ HI r HW) as (_ & Ht & _).
  apply wp_kv_on_req. eapply wp_allocate_slots; [exact Hkv|done|exact Ht|done..| |].
  - move=> k l' Hk [_ _ F1 F2] _ _. apply placed_none; [done|done|by eexists _, _|auto with py|done|done].
  - move=> k l' new q Hk _ _ _ _ _ _ _ _ F1 F2 Hq.
    eapply placed_some; [done|done|by eexists _, _|done|done|]. move=> rid _. by rw F2.
Qed.

Lemma wp_swap_in_call R W r computed s :
  sinv R W s → r ∈ W → status_of s r = SWAPPED →
  (∀ b, b ∈ computed → b < length (block_pool (kv_cache_manager s))) →
  wp (kv_on_req r (λ q, swap_in py_hash q computed)) s (placed r W R s) any_exn.
Proof.
  move=> HI HW Hst Hc. destruct (si_kv _ _ _ HI) as (ext & l & Hkv).
  destruct (si_wait _ _ _ HI r HW) as (_ & Ht & Hs). destruct (Hs Hst) as [cpu Hcpu].
  apply wp_kv_on_req. eapply wp_swap_in; [exact Hkv|done|exact Ht|exact Hcpu| |].
  - move=> k l' Hk [_ _ F1 F2]. apply placed_none; [done|done|by eexists _, _|auto with py|done|done].
  - move=> k l' new q Hk _ _ _ _ _ F1 F2 Hq.
    eapply placed_some; [done|done|by eexists _, _|done|done|].
    move=> rid Hne. rw F2. by rw dget_ddel_ne.
Qed.
End calls.

(** * Taking a request off the GPU *)

Lemma wp_upd_req r f s Q E :
  r < length (heap s) → request_id (f (heap s !!! r)) = request_id (heap s !!! r) →
  (∀ s', s' = set_heap (alter f r (heap s)) s → only_req r s s' →
     heap s' !!! r = f (heap s !!! r) → kv_cache_manager s' = kv_cache_manager s → Q tt s') →
  wp (upd_req r f) s Q E.
Proof.
  move=> Hlt Hid HQ. rw /upd_req. wp_step. apply HQ; [done| |by rw /= list_lookup_total_alter_eq|done].
  split => //=; [by rw length_alter| |].
  - move=> x. rw /rid_of /=. destruct (decide (r = x)) as [<-|?];
      [by rw (alter_field_eq request_id)|by rw (alter_field_ne request_id)].
  - move=> x Hx. by rw list_lookup_total_alter_ne.
Qed.

(** [free] of a request: its table is gone; the call returns. *)
Lemma wp_free_call r s Q E :
  kv_ok (kv_cache_manager s) →
  (∀ s', only_req r s s' → kv_ok (kv_cache_manager s') → heap s' = heap s →
     table_of s' (rid_of s r) = None → (∀ rid, cpu_table_of s' rid = cpu_table_of s rid) →
     s' = set_kv_cache_manager (kv_cache_manager s') s → Q tt s') →
  wp (on_kv (free (rid_of s r) false false)) s Q E.
Proof.
  intros (ext & l & Hkv) HQ. rw /on_kv. wp_step. eapply wp_free; [exact Hkv|done|].
  move=> k l' Hk _ _ Ht Hcpu _ _ _ _. apply HQ => //=.
  - split => //=; [move=> rid Hne; by rw /table_of /= Ht dget_ddel_ne|move=> rid _; by rw /cpu_table_of /= Hcpu].
  - by eexists _, _.
  - rw /table_of /= Ht. apply dget_ddel_eq, (ki_tables _ _ _ _ Hkv).
  - move=> rid. by rw /cpu_table_of /= Hcpu.
Qed.

Lemma wp_swap_out_call r s Q :
  kv_ok (kv_cache_manager s) →
  (∀ n s', only_req r s s' → kv_ok (kv_cache_manager s') → heap s' = heap s →
     table_of s' (rid_of s r) = None → is_Some (cpu_table_of s' (rid_of s r)) →
     s' = set_kv_cache_manager (kv_cache_manager s') s → Q n s') →
  wp (on_kv (swap_out (rid_of s r))) s Q any_exn.
Proof.
  intros (ext & l & Hkv) HQ. rw /on_kv. wp_step.
  destruct (dget (req_to_blocks (kv_cache_manager s)) (rid_of s r)) as [bs|] eqn:Ht; last first.
  { rw /swap_out /num_free. do 4 wp_step. rw Ht. by wp_step. }
  eapply wp_swap_out; [exact Hkv|exact Ht|done|].
  move=> k l' Hk _ _ Ht' Hcpu _ _ _. apply HQ => //=.
  - split => //=; [move=> rid Hne; by rw /table_of /= Ht' dget_ddel_ne|].
    move=> rid Hne. by rw /cpu_table_of /= Hcpu dget_dset_ne.
  - by eexists _, _.
  - rw /table_of /= Ht'. apply dget_ddel_eq, (ki_tables _ _ _ _ Hkv).
  - by rw /cpu_table_of /= Hcpu dget_dset_eq.
Qed.

(** Logging and the clock change nothing the invariant reads. *)
Definition same_sched (s s' : Scheduler) : Prop :=
  ∃ c t, s' = set_clock c (set_time_record t s).
Lemma same_sched_refl s : same_sched s s.
Proof. exists (clock s), (time_record s). by destruct s. Qed.
Lemma same_sched_trans s1 s2 s3 : same_sched s1 s2 → same_sched s2 s3 → same_sched s1 s3.
Proof. intros (c1 & t1 & ->) (c2 & t2 & ->). by exists c2, t2. Qed.
Lemma same_sched_only r s s' : same_sched s s' → only_req r s s'.
Proof. by intros (c & t & ->). Qed.
Lemma same_sched_inv R W s s' : same_sched s s' → sinv R W s → sinv R W s'.
Proof. intros (c & t & ->). by apply sinv_same. Qed.
#[export] Hint Resolve same_sched_refl same_sched_only : py.

Lemma wp_time_time s Q E :
  (∀ t s', same_sched s s' → Q t s') → wp time_time s Q E.
Proof.
  move=> HQ. rw /time_time. wp_steps. apply HQ. exists (λ n, clock s (S n)), (time_record s). by destruct s.
Qed.
Lemma wp_log_event tag t rid s Q E :
  (∀ s', same_sched s s' → Q tt s') → wp (log_event tag t rid) s Q E.
Proof.
  move=> HQ. rw /log_event. wp_steps. apply HQ. exists (clock s),
    (time_record s ++ [{| ev_tag := tag; ev_time := t; ev_req := rid |}]). by destruct s.
Qed.
Lemma wp_log_now tag rid s Q E :
  (∀ s', same_sched s s' → Q tt s') → wp (log_now tag rid) s Q E.
Proof.
  move=> HQ. rw /log_now. wp_step. apply wp_time_time => t s1 H1.
  apply wp_log_event => s2 H2. apply HQ. by eapply same_sched_trans.
Qed.

(** A request that loses its blocks while it is not in the lists [R], [W]. *)
Lemma sinv_rejoin R W p s s' :
  sinv (R ++ [p]) W s → only_req p s s' → kv_ok (kv_cache_manager s') → waiting_ok s' p →
  sinv R (W ++ [p]) s'.
Proof.
  move=> HI Ho Hk Hw.
  eapply (sinv_step p _ _ _ _ _ _ HI); [|done|done| | | | | |done].
  - rw !elem_of_app. left. right. by left.
  - have Hperm : (R ++ [p]) ++ W ≡ₚ R ++ W ++ [p] by rw -app_assoc (Permutation_app_comm W).
    rw -Hperm. apply (si_nodup _ _ _ HI).
  - move=> x Hx. right. apply elem_of_app. by left.
  - move=> x /elem_of_app [?|/list_elem_of_singleton ->]; [by right|by left].
  - move=> x. rw !elem_of_app. tauto.
  - move=> HR. exfalso. have Hnd := si_nodup _ _ _ HI. apply NoDup_app in Hnd as (Hnd & _ & _).
    apply NoDup_app in Hnd as (_ & Hd & _). apply (Hd p HR). by left.
Qed.
