(* ===== verification/SchedStep.v ===== *)
(** The scheduling step preserves the scheduler's invariant, spends the token
    budget exactly, and schedules each request at most once. *)
From Stdlib Require Import ssreflect ZArith Lia PrimFloat.
From stdpp Require Import base numbers list gmap strings.
From S2P Require Import Prelude SamplingParams KVCacheBlock Request FreeQueue BlockHash KVCacheManager KVInvariant KVOps KVSwap KVSafety EncoderCache Scheduler SchedInv.

(** What no statement of a step changes. *)
Record sframe (s s' : Scheduler) : Prop := {
  sf_cfg : config s' = config s;
  sf_len : length (heap s') = length (heap s);
  sf_id : ∀ x, rid_of s' x = rid_of s x;
  sf_requests : requests s' = requests s;
}.
Lemma sframe_refl s : sframe s s.
Proof. by split. Qed.
Lemma sframe_trans s1 s2 s3 : sframe s1 s2 → sframe s2 s3 → sframe s1 s3.
Proof. move=> [????] [????]. split; congruence. Qed.
Lemma only_req_frame r s s' : only_req r s s' → sframe s s'.
Proof. by move=> []. Qed.
#[export] Hint Resolve sframe_refl : py.

(** The lists of [s] are [R] and [W], and the invariant holds for them. *)
Record lists_are (R W : list nat) (s : Scheduler) : Prop := {
  la_running : running s = R;
  la_waiting : waiting s = W;
  la_inv : sinv R W s;
}.
Lemma lists_are_inv R W s : lists_are R W s → sched_inv s.
Proof. by move=> [<- <-]. Qed.

Lemma wp_on_sched {A} (m : SC A) (st : SchedState) Q E :
  wp m (sched st) (λ a s', Q a (set_sched s' st)) E → wp (on_sched m) st Q E.
Proof. move=> H. by apply wp_zoom. Qed.

Ltac ss_step :=
  lazymatch goal with
  | |- wp (on_sched _) _ _ _ => apply wp_on_sched; cbn beta
  | _ => wp_step
  end.

(** * Preemption *)
Lemma wp_preempt_last R W p st Q :
  lists_are (R ++ [p]) W (sched st) →
  (∀ s', lists_are R (W ++ [p]) s' → sframe (sched st) s' →
     Q p {| sched := s'; locals := set_preempted_reqs (preempted_reqs (locals st) ++ [p]) (locals st) |}) →
  wp preempt_last st Q any_exn.
Proof.
  move=> [HR HW HI] HQ. rw /preempt_last. do 2 wp_step. rw HR last_snoc removelast_last.
  have HpRW : p ∈ (R ++ [p]) ++ W by rw !elem_of_app; left; right; left.
  have Hlt := si_range _ _ _ HI p HpRW.
  do 3 ss_step. set s1 := set_running R (sched st).
  have HI1 : sinv (R ++ [p]) W s1 by eapply sinv_same; last exact HI.
  rw /sched_config /req. do 6 ss_step. rw -/(rid_of s1 p).
  (* once the request has lost its blocks *)
  assert (Hrest : ∀ s2, only_req p s1 s2 → kv_ok (kv_cache_manager s2) → waiting_ok s2 p →
    wp (on_sched (mmodify (λ s, set_waiting (waiting s ++ [p]) s));;;
        on_sched (log_now "WAITING" (rid_of s1 p));;;
        mmodify (λ s, set_locals (set_preempted_reqs (preempted_reqs (locals s) ++ [p]) (locals s)) s);;;
        mret p) {| sched := s2; locals := locals st |} Q any_exn).
  { move=> s2 Ho Hk Hw. do 4 ss_step. apply wp_on_sched, wp_log_now => s3 Hs3. wp_steps. simpl.
    have HI3 : sinv R (W ++ [p]) s3.
    { eapply same_sched_inv; [exact Hs3|].
      eapply sinv_same; last exact (sinv_rejoin _ _ _ _ _ HI1 Ho Hk Hw); done. }
    apply HQ.
    - destruct Hs3 as (? & ? & ->). split; simpl; [by rw (oq_running _ _ _ Ho)| |done].
      by rw (oq_waiting _ _ _ Ho) /= HW.
    - destruct Ho, Hs3 as (? & ? & ->). by split. }
  wp_step. case_bool_decide as Hm.
  - wp_step. apply wp_on_sched. apply (wp_free_call p s1); first apply (si_kv _ _ _ HI1).
    move=> s2 O2 K2 H2 T2 _ _. wp_step. apply wp_on_sched, wp_upd_req; [by rw /= H2|done|].
    move=> s3 _ O3 H3 K3. wp_step. apply wp_on_sched, wp_upd_req; [by rw (oq_len _ _ _ O3) /= H2|done|].
    move=> s4 _ O4 H4 K4. wp_step.
    apply wp_on_sched, wp_upd_req; [by rw (oq_len _ _ _ O4) (oq_len _ _ _ O3) /= H2|done|].
    move=> s5 _ O5 H5 K5.
    apply wp_on_sched, wp_upd_req; [by rw (oq_len _ _ _ O5) (oq_len _ _ _ O4) (oq_len _ _ _ O3) /= H2|done|].
    move=> s6 _ O6 H6 K6. simpl in *.
    have Ho : only_req p s1 s6 by do 4 (eapply only_req_trans; last eassumption).
    apply Hrest; [done|by rw K6 K5 K4 K3|].
    rw /waiting_ok /status_of H6 H5 H4 H3 (oq_id _ _ _ Ho). split_and!; [by right; left| |done].
    by rw /table_of K6 K5 K4 K3.
  - case_bool_decide as Hm2; last by wp_step.
    wp_step. apply wp_on_sched. apply (wp_swap_out_call p s1); first apply (si_kv _ _ _ HI1).
    move=> n s2 O2 K2 H2 T2 C2 _. apply wp_on_sched, wp_upd_req; [by rw /= H2|done|].
    move=> s3 _ O3 H3 K3. simpl in *. have Ho : only_req p s1 s3 by eapply only_req_trans.
    apply Hrest; [done|by rw K3|].
    rw /waiting_ok /status_of H3 (oq_id _ _ _ Ho). split_and!; [by right; right| |].
    + by rw /table_of K3.
    + move=> _. by rw /cpu_table_of K3.
Qed.

(** Only [preempted_reqs] of the locals changed. *)
Definition same_locals (l l' : Locals) : Prop := ∃ pre, l' = set_preempted_reqs pre l.
Lemma same_locals_refl l : same_locals l l.
Proof. exists (preempted_reqs l). by destruct l. Qed.
Lemma same_locals_trans l1 l2 l3 : same_locals l1 l2 → same_locals l2 l3 → same_locals l1 l3.
Proof. intros [p1 ->] [p2 ->]. by exists p2. Qed.
#[export] Hint Resolve same_locals_refl : py.

Section step.
Context (py_hash : option Z → list Z → Z).

(** The request [r] follows the already scheduled [D]; the loop preempts from
    the tail and never touches [D]. *)
Lemma wp_append_or_preempt fuel r n D T W st Q :
  lists_are (D ++ r :: T) W (sched st) →
  (∀ st' o T' W', lists_are (D ++ r :: T') W' (sched st') → sframe (sched st) (sched st') →
     same_locals (locals st) (locals st') → length T' ≤ length T → Q (true, o) st') →
  (∀ st' o W', lists_are D W' (sched st') → sframe (sched st) (sched st') →
     same_locals (locals st) (locals st') → Q (false, o) st') →
  wp (append_or_preempt py_hash fuel r n true) st Q any_exn.
Proof.
  elim: fuel T W st => [|fuel IH] T W st HL HQ1 HQ2 /=; first by wp_step.
  destruct (HL) as [HR HW HI].
  have HrR : r ∈ D ++ r :: T by apply elem_of_app; right; left.
  do 2 ss_step. eapply wp_append_call; [exact HI|done|].
  move=> o s1 HI1 O1 _.
  have HL1 : lists_are (D ++ r :: T) W s1.
  { split; [by rw (oq_running _ _ _ O1)|by rw (oq_waiting _ _ _ O1)|done]. }
  case_bool_decide as Ho; last first.
  { wp_step. eapply (HQ1 _ o T W); simpl; [done|by eapply only_req_frame|auto with py|done]. }
  simpl. wp_step. destruct T as [|p T _] using rev_ind.
  - eapply (wp_preempt_last D W r); first done.
    move=> s2 HL2 F2. simpl. rw bool_decide_eq_true_2 //. wp_step.
    eapply HQ2; simpl; [done| |by eexists].
    eapply sframe_trans; [by eapply only_req_frame|done].
  - rw app_comm_cons app_assoc in HL1.
    eapply (wp_preempt_last (D ++ r :: T) W p); first exact HL1.
    move=> s2 HL2 F2. have F : sframe (sched st) s2
      by eapply sframe_trans; [by eapply only_req_frame|done].
    case_bool_decide as Hp.
    + exfalso. subst p. have Hnd := si_nodup _ _ _ (la_inv _ _ _ HL1).
      apply NoDup_app in Hnd as (Hnd & _ & _). apply NoDup_app in Hnd as (_ & Hd & _).
      apply (Hd r); [apply elem_of_app; right|]; by left.
    + eapply (IH T (W ++ [p])); [done| |].
      * move=> st' o' T' W' H1 H2 H3 H4. eapply HQ1; [done|by eapply sframe_trans| |].
        -- eapply same_locals_trans; [|exact H3]. by eexists.
        -- rw length_app. lia.
      * move=> st' o' W' H1 H2 H3. eapply HQ2; [done|by eapply sframe_trans|].
        eapply same_locals_trans; [|exact H3]. by eexists.
Qed.

(** * Token accounting *)

(** After the requests [D] have been scheduled, [b] tokens of the budget are
    left: what was handed out is recorded, one entry per scheduled request. *)
Record accounts (D : list nat) (b : Z) (s : Scheduler) (l : Locals) : Prop := {
  ac_sum : (dsum id (num_scheduled_tokens l) + b = max_num_batched_tokens (config s))%Z;
  ac_left : (0 ≤ b)%Z;
  ac_keys : ∀ rid, rid ∈ dkeys (num_scheduled_tokens l) → ∃ r, r ∈ D ∧ rid = rid_of s r;
  ac_count : length (scheduled_new_reqs l) + length (scheduled_resumed_reqs l)
             + length (scheduled_running_reqs l) = length D;
  ac_wf : dict_wf (num_scheduled_tokens l);
}.

Lemma accounts_frame D b s s' l l' :
  sframe s s' → same_locals l l' → accounts D b s l → accounts D b s' l'.
Proof.
  intros [F1 F2 F3 F4] [pre ->] [A1 A2 A3 A4 A5]. split; simpl; [by rw F1|done| |done|done].
  move=> rid /A3 [r [Hr ->]]. exists r. by rw F3.
Qed.

(** One more request [r] gets [n] tokens. *)
Lemma accounts_add D b s l l' r n :
  accounts D b s l → (n ≤ b)%Z →
  (∀ x, x ∈ D → rid_of s x ≠ rid_of s r) →
  num_scheduled_tokens l' = dset (num_scheduled_tokens l) (rid_of s r) n →
  length (scheduled_new_reqs l') + length (scheduled_resumed_reqs l')
    + length (scheduled_running_reqs l')
    = S (length (scheduled_new_reqs l) + length (scheduled_resumed_reqs l)
         + length (scheduled_running_reqs l)) →
  accounts (D ++ [r]) (b - n) s l'.
Proof.
  move=> [A1 A2 A3 A4 A5] Hn Hne Hd Hc.
  have Hnone : dget (num_scheduled_tokens l) (rid_of s r) = None.
  { apply dget_None => /A3 [x [Hx Heq]]. by apply (Hne x). }
  split.
  - rw Hd dsum_dset Hnone /=. change (id n) with n. lia.
  - lia.
  - move=> rid. rw Hd elem_of_dkeys_dset. move=> [->|/A3 [x [Hx ->]]].
    + exists r. split; [apply elem_of_app; right; by left|done].
    + exists x. split; [apply elem_of_app; by left|done].
  - rw Hc A4 length_app /=. lia.
  - rw Hd. auto with py.
Qed.

(** The encoder part of a placement changes only the encoder cache and its own
    local dictionary. *)
Lemma wp_schedule_encoder r inputs eb eb' st Q :
  (∀ b m d, Q b {| sched := set_encoder_cache_manager m (sched st);
                   locals := set_scheduled_encoder_inputs d (locals st) |}) →
  wp (schedule_encoder r inputs eb eb') st Q any_exn.
Proof.
  move=> HQ. rw /schedule_encoder. case_bool_decide.
  { wp_step. have := HQ eb (encoder_cache_manager (sched st)) (scheduled_encoder_inputs (locals st)).
    by destruct st as [[] []]. }
  rw /req. do 6 ss_step.
  apply (wp_mono _ _ (λ _ st', ∃ m d, st' = {| sched := set_encoder_cache_manager m (sched st);
      locals := set_scheduled_encoder_inputs d (locals st) |}) _ any_exn); [apply wp_for| |done].
  - exists (encoder_cache_manager (sched st)). eexists. by destruct st as [[] ?].
  - intros i st1 _ (m & d & ->). ss_step. rw /on_encoder. wp_step.
    rw /wp /encoder_allocate. destruct (get_num_encoder_tokens _ _); last done. simpl. by eexists _, _.
  - intros [] st1 (m & d & ->). wp_step. apply HQ.
Qed.

Lemma lists_are_encoder R W m s : lists_are R W s → lists_are R W (set_encoder_cache_manager m s).
Proof. move=> [H1 H2 H3]. split; [done|done|by eapply sinv_same; last exact H3]. Qed.
Lemma only_req_encoder r m s : only_req r s (set_encoder_cache_manager m s).
Proof. by split. Qed.

(** The encoder limits can only lower the number of tokens. *)
Lemma encoder_inputs_loop_le m q nc i ps acc n eb res n' eb' :
  encoder_inputs_loop m q nc i ps acc n eb = Ok (res, n', eb') → (n' ≤ n)%Z.
Proof.
  elim: ps i acc n eb => [|p ps IH] i acc n eb /=; first by move=> [_ <- _].
  destruct (Z.leb_spec (nc + n) (pr_offset p)); first by move=> [_ <- _].
  repeat case_match; try by apply IH.
  rw /can_allocate. destruct (get_num_encoder_tokens q i) as [k|]; last done. simpl.
  case_match; [move=> [_ <- _]; lia|apply IH].
Qed.
Lemma try_schedule_encoder_inputs_le m q nc n eb res n' eb' :
  try_schedule_encoder_inputs m q nc n eb = Ok (res, n', eb') → (n' ≤ n)%Z.
Proof.
  rw /try_schedule_encoder_inputs. case_match; first by move=> [_ <- _].
  case_match; first done. apply encoder_inputs_loop_le.
Qed.

(** * One running request *)
Lemma wp_single_running r D T W b eb st Q :
  lists_are (D ++ r :: T) W (sched st) → accounts D b (sched st) (locals st) →
  (∀ n eb' st' T' W', lists_are (D ++ r :: T') W' (sched st') → sframe (sched st) (sched st') →
     accounts (D ++ [r]) (b - n) (sched st') (locals st') → (0 < n)%Z →
     length T' ≤ length T → Q (Some n, (b - n)%Z, eb') st') →
  (∀ eb' st' W', lists_are D W' (sched st') → sframe (sched st) (sched st') →
     accounts D b (sched st') (locals st') → Q (None, b, eb') st') →
  wp (schedule_single_running_request py_hash r b eb true) st Q any_exn.
Proof.
  move=> HL HA HQ1 HQ2. rw /schedule_single_running_request /req. do 4 ss_step. wp_step; last done.
  wp_step. wp_step; last done. do 3 wp_step. apply wp_lift => // -[[inputs n] eb'] Henc.
  apply try_schedule_encoder_inputs_le in Henc. do 2 wp_step; last done. do 3 wp_step.
  eapply wp_append_or_preempt; [exact HL| |].
  - move=> st1 o T' W' HL1 F1 L1 HT. simpl. destruct o as [new|]; last by wp_step.
    rw /block_ids /record_schedule. do 6 ss_step. do 2 wp_step.
    apply wp_schedule_encoder => eb2 m d. wp_step. simpl.
    have HL2 := lists_are_encoder _ _ m _ HL1. set s2 := set_encoder_cache_manager _ _ in HL2 *.
    have F : sframe (sched st) s2
      by eapply sframe_trans; [exact F1|exact (only_req_frame r _ _ (only_req_encoder _ _ _))].
    have HA1 := accounts_frame _ _ _ _ _ _ F L1 HA.
    eapply HQ1; [exact HL2|done| |lia|done]. simpl.
    apply (accounts_add _ _ _ (locals st1) _ r); [done| | | |].
    + lia.
    + move=> x Hx Heq. have Hnd := si_nodup _ _ _ (la_inv _ _ _ HL2).
      have Hxr : x = r.
      { eapply (sinv_ids _ _ _ _ _ (la_inv _ _ _ HL2)); [..|exact Heq];
          apply elem_of_app; left; apply elem_of_app; [by left|by right; left]. }
      subst x. apply NoDup_app in Hnd as (Hnd & _ & _). apply NoDup_app in Hnd as (_ & Hd' & _).
      apply (Hd' r Hx). by left.
    + by rw /= (sf_id _ _ F).
    + rw /= length_app /=. lia.
  - move=> st1 o W' HL1 F1 L1. simpl. wp_step.
    eapply HQ2; [exact HL1|done|by eapply accounts_frame].
Qed.

(** * The loop over the running requests *)

(** A store that keeps id and status, into any request object. *)
Lemma upd_keep R W r f s :
  (∀ q, request_id (f q) = request_id q) → (∀ q, request_status (f q) = request_status q) →
  lists_are R W s →
  lists_are R W (set_heap (alter f r (heap s)) s) ∧ sframe s (set_heap (alter f r (heap s)) s).
Proof.
  move=> Hid Hst [H1 H2 [A1 A2 A3 A4 A5 A6 A7 A8 A9]]. set s' := set_heap _ _.
  have Hrid : ∀ x, rid_of s' x = rid_of s x by move=> x; rw /rid_of /= (alter_field request_id).
  have Hstat : ∀ x, status_of s' x = status_of s x by move=> x; rw /status_of /= (alter_field request_status).
  split; last by split => //=; rw length_alter.
  split; [done|done|]. split; simpl; rw ?length_alter; try done.
  - move=> x Hx. rw Hrid. by apply A4.
  - move=> x Hx. rw /running_ok Hstat Hrid. by apply A5.
  - move=> x Hx. rw /waiting_ok Hstat Hrid. by apply A6.
  - move=> rid x. rw Hrid. apply A8.
Qed.

Lemma lookahead_exit_id la n q : request_id (lookahead_exit la n q) = request_id q.
Proof. by destruct la. Qed.
Lemma lookahead_exit_status la n q : request_status (lookahead_exit la n q) = request_status q.
Proof. by destruct la. Qed.

Lemma wp_running_loop fuel la idx R W hp b eb st Q :
  lists_are R W (sched st) → idx ≤ length R → accounts (take idx R) b (sched st) (locals st) →
  (∀ hp' b' eb' st' R' W', lists_are R' W' (sched st') → sframe (sched st) (sched st') →
     accounts R' b' (sched st') (locals st') → length R' ≤ length R → Q (hp', b', eb') st') →
  wp (running_loop py_hash fuel la None idx hp b eb) st Q any_exn.
Proof.
  elim: fuel idx R W hp b eb st => [|fuel IH] idx R W hp b eb st HL Hidx HA HQ /=; first by wp_step.
  do 2 wp_step. rw (la_running _ _ _ HL). destruct (R !! idx) as [r|] eqn:Er; last first.
  { wp_step. apply lookup_ge_None in Er. eapply HQ; [exact HL|auto with py| |done].
    by rw take_ge in HA. }
  wp_step. wp_step; last done. wp_step. wp_step; last done.
  rw /req. do 3 ss_step. destruct (lookahead_enter la (heap (sched st) !!! r)) as [entered orig] eqn:Een.
  have Hent : request_id entered = request_id (heap (sched st) !!! r)
    ∧ request_status entered = request_status (heap (sched st) !!! r).
  { move: Een. rw /lookahead_enter. destruct la; by move=> [<- _]. }
  have HR := take_drop_middle _ _ _ Er. set D := take idx R in HR HA *. set T := drop (S idx) R in HR *.
  have HrR : r ∈ R ++ W by apply elem_of_app; left; apply list_elem_of_lookup_2 with idx.
  do 2 ss_step. eapply wp_upd_req_keep; [exact (la_inv _ _ _ HL)|exact HrR|apply Hent|apply Hent|].
  move=> s1 _ HI1 O1. have F1 := only_req_frame _ _ _ O1. wp_step.
  eapply (wp_single_running r D T W); simpl.
  { rw HR. split; [by rw (oq_running _ _ _ O1) (la_running _ _ _ HL)|by rw (oq_waiting _ _ _ O1) (la_waiting _ _ _ HL)|done]. }
  { eapply accounts_frame; [exact F1|auto with py|exact HA]. }
  - move=> n eb2 st2 T2 W2 HL2 F2 HA2 Hn HT. do 2 ss_step. rw /upd_req. wp_step.
    destruct (upd_keep _ _ r (lookahead_exit la orig) _ (lookahead_exit_id la orig)
      (lookahead_exit_status la orig) HL2) as [HL3 F3].
    have Hn0 : n ≠ 0%Z by lia.
    destruct n as [|n|n]; [done| |lia]. rw /req. do 3 ss_step.
    eapply (IH (S idx) (D ++ r :: T2) W2); simpl; [exact HL3| | |].
    + rw length_app /= /D length_take. apply lookup_lt_Some in Er. lia.
    + have -> : take (S idx) (D ++ r :: T2) = D ++ [r].
      { have Hl : length D = idx by rw /D length_take; apply lookup_lt_Some in Er; lia.
        change (r :: T2) with ([r] ++ T2). rw app_assoc take_app_length' //.
        rw length_app /=. lia. }
      eapply accounts_frame; [exact F3|auto with py|exact HA2].
    + move=> hp' b' eb' st' R' W' H1 H2 H3 H4. eapply HQ; [exact H1| |exact H3|].
      * eapply sframe_trans; [exact F1|]. eapply sframe_trans; [exact F2|]. by eapply sframe_trans.
      * rw -HR. rw !length_app /= in H4 |- *. lia.
  - move=> eb2 st2 W2 HL2 F2 HA2. do 2 ss_step. rw /upd_req. wp_step.
    destruct (upd_keep _ _ r (lookahead_exit la orig) _ (lookahead_exit_id la orig)
      (lookahead_exit_status la orig) HL2) as [HL3 F3].
    wp_step. eapply HQ; simpl; [exact HL3| | |].
    + eapply sframe_trans; [exact F1|]. by eapply sframe_trans.
    + eapply accounts_frame; [exact F3|auto with py|exact HA2].
    + rw /D length_take. lia.
Qed.

(** * One waiting request *)

(** A waiting request has received its blocks but not yet its new status. *)
Definition has_blocks (r : nat) (s s' : Scheduler) : Prop :=
  only_req r s s' ∧ (∃ q, same_request (heap s !!! r) q ∧ heap s' !!! r = q) ∧
  kv_ok (kv_cache_manager s') ∧ is_Some (table_of s' (rid_of s r)).

Lemma wp_place_waiting R W r computed tb eb s Q :
  sinv R W s → r ∈ W →
  (∀ b, b ∈ computed → b < length (block_pool (kv_cache_manager s))) →
  (∀ s', sinv R W s' → only_req r s s' → Q None s') →
  (∀ comp new nc n inputs eb' s', has_blocks r s s' → (n ≤ tb)%Z → n ≠ 0%Z →
     Q (Some (comp, new, nc, n, inputs, eb')) s') →
  wp (place_waiting py_hash r computed tb eb) s Q any_exn.
Proof.
  move=> HI HW Hc HQ1 HQ2. rw /place_waiting /req. do 5 wp_step.
  assert (Hrest : ∀ comp nc nn, (∀ b, b ∈ comp → b < length (block_pool (kv_cache_manager s))) →
    wp (let num_new := Z.min nn tb in
        massert (0 <? num_new)%Z "num_new_tokens > 0";;;
        enc ← mgets encoder_cache_manager;
        '(inputs, num_new, new_encoder_budget) ←
          mlift (try_schedule_encoder_inputs enc (heap s !!! r) nc num_new eb);
        if (num_new =? 0)%Z then mret None
        else
          o ← kv_on_req r (λ q, allocate_slots py_hash q num_new comp false);
          match o with
          | None => mret None
          | Some new_blocks => mret (Some (comp, new_blocks, nc, num_new, inputs, new_encoder_budget))
          end) s Q any_exn).
  { move=> comp nc nn Hcomp. simpl. wp_step. wp_step; last done. do 3 wp_step.
    apply wp_lift => // -[[inputs n] eb'] /try_schedule_encoder_inputs_le Hle.
    destruct (Z.eqb_spec n 0); first by wp_step; apply HQ1; auto with py.
    wp_step. eapply wp_mono; [by eapply wp_allocate_call| |done].
    intros [new|] s1 (O1 & S1 & K1 & H1); wp_step; [|by apply HQ1].
    apply HQ2; [by split_and!|lia|done]. }
  destruct (_ =? 0)%Z.
  - case_bool_decide; first by wp_step. wp_step. apply Hrest.
    move=> b Hb. apply Hc. destruct computed as [|x l _] using rev_ind; first done.
    rw removelast_last in Hb. apply elem_of_app. by left.
  - wp_step. by apply Hrest.
Qed.

Lemma wp_place_swapped R W r computed tb eb s Q :
  sinv R W s → r ∈ W → status_of s r = SWAPPED → (0 < tb)%Z →
  (∀ b, b ∈ computed → b < length (block_pool (kv_cache_manager s))) →
  (∀ s', sinv R W s' → only_req r s s' → Q None s') →
  (∀ comp new nc n inputs eb' s', has_blocks r s s' → (n ≤ tb)%Z → n ≠ 0%Z →
     Q (Some (comp, new, nc, n, inputs, eb')) s') →
  wp (place_swapped py_hash r computed tb eb) s Q any_exn.
Proof.
  move=> HI HW Hst Htb Hc HQ1 HQ2. rw /place_swapped /req. do 5 wp_step. wp_step; last done. wp_step.
  eapply wp_mono; [by eapply wp_swap_in_call| |done].
  intros [new|] s1 (O1 & S1 & K1 & H1); wp_step; [|by apply HQ1].
  apply HQ2; [by split_and!|lia|lia].
Qed.

(** The request becomes RUNNING and moves to the running side. *)
Lemma sinv_activate R W r s s' :
  sinv R (r :: W) s → only_req r s s' → kv_ok (kv_cache_manager s') → running_ok s' r →
  sinv (R ++ [r]) W s'.
Proof.
  move=> HI Ho Hk Hrun. have Hnd := si_nodup _ _ _ HI.
  eapply (sinv_step r _ _ _ _ _ _ HI); [|done|done| | | | |done|].
  - apply elem_of_app. right. by left.
  - by rw -app_assoc.
  - move=> x /elem_of_app [?|/list_elem_of_singleton ->]; [by right|by left].
  - move=> x Hx. right. by right.
  - move=> x. rw !elem_of_app elem_of_cons list_elem_of_singleton. tauto.
  - move=> Hx. exfalso. apply NoDup_app in Hnd as (_ & _ & Hnd). by apply NoDup_cons in Hnd as [? _].
Qed.

Lemma wp_single_waiting R W r b eb st Q :
  sinv R (r :: W) (sched st) → accounts R b (sched st) (locals st) → (0 < b)%Z →
  (∀ n eb' st', n ≠ 0%Z → sinv (R ++ [r]) W (sched st') → only_req r (sched st) (sched st') →
     accounts (R ++ [r]) (b - n) (sched st') (locals st') → Q (Some n, (b - n)%Z, eb') st') →
  (∀ eb' st', sinv R (r :: W) (sched st') → only_req r (sched st) (sched st') →
     accounts R b (sched st') (locals st') → Q (None, b, eb') st') →
  wp (schedule_single_waiting_request py_hash r b eb) st Q any_exn.
Proof.
  move=> HI HA Hb HQ1 HQ2. have HrW : r ∈ r :: W by left.
  have HrRW : r ∈ R ++ r :: W by apply elem_of_app; right.
  rw /schedule_single_waiting_request {1}/req. do 4 ss_step. wp_step; last done. do 2 ss_step.
  eapply wp_computed_call; [exact HI|exact HrRW|].
  intros computed s1 HI1 O1 K1 (q1 & Hq1 & Hh1) Hc. rw -K1 in Hc. ss_step.
  set stat := request_status (heap (sched st) !!! r).
  have Hs1 : status_of s1 r = stat by rw /status_of Hh1 (same_request_status _ _ Hq1).
  have Hlt1 := si_range _ _ _ HI1 r HrRW.
  assert (Hnone : ∀ s2, sinv R (r :: W) s2 → only_req r s1 s2 →
    Q (None, b, eb) {| sched := s2; locals := locals st |}).
  { move=> s2 HI2 O2. have O := only_req_trans _ _ _ _ O1 O2.
    apply HQ2; simpl; [done|done|].
    eapply accounts_frame; [eapply only_req_frame; exact O|auto with py|done]. }
  assert (Hsome : ∀ (comp new : list nat) (nc n : Z) (inputs : list nat) (eb' : Z) s2,
    has_blocks r s1 s2 → (n ≤ b)%Z → n ≠ 0%Z → (stat = WAITING ∨ stat = PREEMPTED ∨ stat = SWAPPED) →
    wp (mmodify (λ s, set_locals
          (match stat with
           | WAITING => set_scheduled_new_reqs (scheduled_new_reqs (locals s) ++ [r]) (locals s)
           | _ => set_scheduled_resumed_reqs (scheduled_resumed_reqs (locals s) ++ [r]) (locals s)
           end) s);;;
        ids ← on_sched (block_ids (comp ++ new));
        record_schedule (rid_of (sched st) r) ids n;;;
        on_sched (upd_req r (set_request_status RUNNING));;;
        on_sched (upd_req r (set_num_computed_tokens nc));;;
        encoder_budget ← schedule_encoder r inputs eb eb';
        mret (Some n, (b - n)%Z, encoder_budget))
      {| sched := s2; locals := locals st |} Q any_exn).
  { intros comp new nc n inputs eb' s2 (O2 & (q2 & Hq2 & Hh2) & K2 & T2) Hn Hn0 Hst.
    rw /block_ids /record_schedule. do 9 ss_step. simpl.
    have Hlt2 : r < length (heap s2) by rw (oq_len _ _ _ O2).
    apply wp_upd_req; [done|done|]. move=> s3 _ O3 H3 K3. do 2 ss_step. simpl.
    apply wp_upd_req; [by rw (oq_len _ _ _ O3)|done|]. move=> s4 _ O4 H4 K4. wp_step.
    have O24 := only_req_trans _ _ _ _ O2 (only_req_trans _ _ _ _ O3 O4).
    have O := only_req_trans _ _ _ _ O1 O24.
    have HI4 : sinv (R ++ [r]) W s4.
    { eapply (sinv_activate _ _ _ _ _ HI1 O24); [by rw K4 K3|].
      split; [by rw /status_of H4 H3|]. by rw (oq_id _ _ _ O24) /table_of K4 K3. }
    apply wp_schedule_encoder => eb2 m d. wp_step. simpl.
    have O5 := only_req_trans _ _ _ _ O (only_req_encoder r m s4).
    apply HQ1; simpl; [done|by eapply sinv_same; last exact HI4|done|].
    have HA5 := accounts_frame _ _ _ _ _ _ (only_req_frame _ _ _ O5) (same_locals_refl _) HA.
    apply (accounts_add _ _ _ _ _ r _ HA5); [done| | |].
    - move=> x Hx. rw !(oq_id _ _ _ O5) => Heq.
      have Hxr : x = r by eapply (sinv_ids _ _ _ _ _ HI); [apply elem_of_app; left|exact HrRW|].
      subst x. by apply (waiting_not_running _ _ _ _ HI HrW).
    - rw (oq_id _ _ _ O5). by destruct stat.
    - destruct stat; simpl; rw length_app /=; lia. }
  have Hok := si_wait _ _ _ HI1 r HrW. destruct Hok as (Hst & _). rw Hs1 in Hst.
  rw -/stat in Hst *.
  destruct stat eqn:Est; try (by destruct Hst as [?|[?|?]]).
  - ss_step. eapply wp_place_waiting; [exact HI1|done|exact Hc|by intros; wp_step; apply Hnone|].
    intros comp new nc n inputs eb' s2 HB Hn Hn0. by apply Hsome.
  - ss_step. eapply wp_place_waiting; [exact HI1|done|exact Hc|by intros; wp_step; apply Hnone|].
    intros comp new nc n inputs eb' s2 HB Hn Hn0. by apply Hsome.
  - ss_step. eapply wp_place_swapped; [exact HI1|done|done|done|exact Hc|by intros; wp_step; apply Hnone|].
    intros comp new nc n inputs eb' s2 HB Hn Hn0. by apply Hsome.
Qed.

(** * The loop over the waiting requests *)
Lemma sinv_perm R R' W W' s : R ≡ₚ R' → W ≡ₚ W' → sinv R W s → sinv R' W' s.
Proof.
  move=> HR HW [A1 A2 A3 A4 A5 A6 A7 A8 A9].
  split; [done|by rw -HR -HW|by move=> r; rw -HR -HW; apply A3|by move=> r; rw -HR -HW; apply A4
    |by move=> r; rw -HR; apply A5|by move=> r; rw -HW; apply A6|done| |done].
  move=> rid r. rw -HR -HW. apply A8.
Qed.

(** [X] are the requests the loop has set aside. *)
Record waiting_state (R W X : list nat) (b : Z) (st : SchedState) : Prop := {
  ws_running : running (sched st) = R;
  ws_waiting : waiting (sched st) = W;
  ws_inv : sinv R (W ++ X) (sched st);
  ws_accounts : accounts R b (sched st) (locals st);
  ws_max : (Z.of_nat (length R) ≤ max_num_seqs (config (sched st)))%Z;
}.

Lemma wp_waiting_loop fuel u X hp b eb R W st Q :
  waiting_state R W X b st →
  (∀ X' b' eb' st' R' W', waiting_state R' W' X' b' st' → sframe (sched st) (sched st') →
     Q (X', b', eb') st') →
  wp (waiting_loop py_hash fuel u X hp b eb) st Q any_exn.
Proof.
  elim: fuel X hp b eb R W st => [|fuel IH] X hp b eb R W st HS HQ /=; first by wp_step.
  destruct (HS) as [HR HW HI HA Hm]. do 2 wp_step. rw HW. destruct W as [|r W].
  { wp_step. eapply HQ; [exact HS|auto with py]. }
  rw HR. wp_step; first by wp_step; eapply HQ; [exact HS|auto with py].
  apply orb_false_iff in Heqb0 as [Hb1 Hb2]. apply orb_false_iff in Hb1 as [_ Hb1].
  have Hb0 : (0 < b)%Z by destruct HA; lia.
  wp_step.
  - do 2 ss_step. eapply (IH (X ++ [r]) _ _ _ R W);
      [|by intros; eapply HQ; [eassumption|]; destruct H0; split].
    split; simpl; [done|done| |by destruct HA|done].
    eapply (sinv_same _ _ (sched st)); [done|done|done|]. eapply sinv_perm; [done| |exact HI].
    by rw /= Permutation_cons_append app_assoc.
  - wp_step. eapply (wp_single_waiting R (W ++ X)); [exact HI|exact HA|done| |].
    + move=> n eb' st1 Hn HI1 O1 HA1.
      assert (Hgo : wp (on_sched (mmodify (λ s, set_waiting (tail (waiting s)) s));;;
          on_sched (mmodify (λ s, set_running (running s ++ [r]) s));;;
          request ← on_sched (req r);
          on_sched (log_now "RUNNING" (request_id request));;;
          waiting_loop py_hash fuel u X (num_computed_tokens request + n <? num_tokens request)%Z
            (b - n) eb') st1 Q any_exn).
      { rw /req. do 11 ss_step. apply wp_log_now => s2 Hs2.
        have E2 : s2 = set_clock (clock s2) (set_time_record (time_record s2)
          (set_running (R ++ [r]) (set_waiting W (sched st1)))).
        { destruct Hs2 as (? & ? & ->). simpl. rw (oq_running _ _ _ O1) (oq_waiting _ _ _ O1) HR HW //. }
        eapply (IH X _ _ _ (R ++ [r]) W).
        - rw E2. split; simpl; [done|done|by eapply sinv_same; last exact HI1|by destruct HA1|].
          rw (oq_cfg _ _ _ O1) length_app /=. lia.
        - move=> X' b' eb2 st' R' W' H1 H2. eapply HQ; [exact H1|].
          eapply sframe_trans; [eapply only_req_frame; exact O1|].
          eapply sframe_trans; [|exact H2]. simpl. rw E2. by split. }
      destruct n as [|n|n]; [done|exact Hgo|exact Hgo].
    + move=> eb' st1 HI1 O1 HA1. wp_step. eapply HQ; [|by eapply only_req_frame].
      split; [by rw (oq_running _ _ _ O1)|by rw (oq_waiting _ _ _ O1)|done|done
        |by rw (oq_cfg _ _ _ O1)].
Qed.

(** * Proactive swapping *)
Lemma insert_by_perm key x l : insert_by key x l ≡ₚ x :: l.
Proof.
  elim: l => [|y l IH] //=. destruct (_ <? _)%Z; first done. rw IH. apply Permutation_swap.
Qed.
Lemma sort_by_perm key l : sort_by key l ≡ₚ l.
Proof.
  rw /sort_by -{2}(app_nil_r l). move: (@nil nat) => acc. elim: l acc => [|x l IH] acc //=.
  rw IH insert_by_perm. by rw -Permutation_middle.
Qed.
Lemma sorted_by_perm key l l' : sorted_by key l = Ok l' → l' ≡ₚ l.
Proof. rw /sorted_by. case_match => // -[<-]. apply sort_by_perm. Qed.

Lemma wp_hold_running rs nf k Q :
  (∀ o, Q o k) → wp (hold_running rs nf) k Q any_exn.
Proof.
  move=> HQ. elim: rs nf => [|r rs IH] nf /=; first by wp_step.
  rw /get_append_slots_num_new_blocks /KVCacheManager.config. do 5 wp_step. wp_step; wp_step; [|done].
  wp_step; [by wp_step|apply IH].
Qed.
Lemma wp_hold_waiting ext l ws nf k Q :
  kv_inv None ext l k → (∀ b ws', Forall2 same_request ws ws' → Q (b, ws') k) →
  wp (hold_waiting py_hash ws nf) k Q any_exn.
Proof.
  move=> HI. elim: ws nf Q => [|r ws IH] nf Q HQ /=; first by wp_step; apply HQ.
  rw /KVCacheManager.config. do 3 wp_step. eapply wp_get_computed_blocks; [exact HI|].
  move=> bs r' Hr _ _ _ _. wp_step. rw /get_allocated_slots_num_new_blocks /KVCacheManager.config.
  do 2 wp_step.
  have Hrefl : Forall2 same_request ws ws by apply Forall_Forall2_diag, Forall_true; auto with py.
  assert (Hk : ∀ n : Z, wp (if (nf - n <? 0)%Z then mret (false, r' :: ws)
      else '(b, rs) ← hold_waiting py_hash ws (nf - n)%Z; mret (b, r' :: rs)) k Q any_exn).
  { move=> n. destruct (_ <? 0)%Z; first by wp_step; apply HQ; constructor.
    wp_step. apply IH. move=> b ws' HF. wp_step. apply HQ. by constructor. }
  destruct (_ =? 0)%Z; wp_step; apply Hk.
Qed.

Lemma wp_can_hold_all R W s Q :
  lists_are R W s →
  (∀ b s', lists_are R W s' → sframe s s' → config s' = config s → Q b s') →
  wp (can_hold_all py_hash) s Q any_exn.
Proof.
  move=> HL HQ. rw /can_hold_all. do 3 wp_step. rw /on_kv. wp_step.
  destruct (si_kv _ _ _ (la_inv _ _ _ HL)) as (ext & l & Hkv).
  rw /can_hold_all_requests /num_free. do 2 wp_step. wp_step. apply wp_hold_running => o.
  assert (Hrest : ∀ b ws, Forall2 same_request ((λ r, heap s !!! r) <$> waiting s) ws →
    wp (mfor (zip (waiting s) ws) (λ '(r, q), upd_req r (λ _, q));;; mret b)
      (set_kv_cache_manager (kv_cache_manager s) s) Q any_exn).
  { move=> b ws HF. wp_step.
    apply (wp_mono _ _ (λ _ s', lists_are R W s' ∧ sframe s s'
      ∧ ∀ x, status_of s' x = status_of s x) _ any_exn); [apply wp_for| |done].
    - have -> : set_kv_cache_manager (kv_cache_manager s) s = s by destruct s.
      split_and!; auto with py.
    - intros [r q] s1 Hin (HL1 & F1 & S1).
      have [Hr Hq] : r ∈ W ∧ same_request (heap s !!! r) q.
      { rw (la_waiting _ _ _ HL) in HF, Hin. apply list_elem_of_lookup in Hin as [i Hi].
        apply lookup_zip_Some in Hi as [Hi1 Hi2]. split; first by eapply list_elem_of_lookup_2.
        eapply Forall2_lookup_lr; [exact HF| |exact Hi2]. by rw list_lookup_fmap Hi1. }
      eapply wp_upd_req_keep; [exact (la_inv _ _ _ HL1)|by apply elem_of_app; right| | |].
      + rw (same_request_id _ _ Hq). symmetry. apply (sf_id _ _ F1).
      + rw (same_request_status _ _ Hq). symmetry. apply S1.
      + move=> s2 E2 HI2 O2. split_and!.
        * split; [by rw (oq_running _ _ _ O2) (la_running _ _ _ HL1)
            |by rw (oq_waiting _ _ _ O2) (la_waiting _ _ _ HL1)|done].
        * eapply sframe_trans; [exact F1|by eapply only_req_frame].
        * move=> x. rw -S1. destruct (decide (x = r)) as [->|Hx].
          -- rw {1}/status_of E2 /= list_lookup_total_alter_eq;
               [apply (si_range _ _ _ (la_inv _ _ _ HL1)), elem_of_app; by right|].
             rw (same_request_status _ _ Hq) S1 //.
          -- by rw /status_of (oq_heap _ _ _ O2).
    - intros [] s1 (HL1 & F1 & S1). wp_step. apply HQ; [done|done|apply (sf_cfg _ _ F1)]. }
  destruct o as [nf|].
  - eapply wp_hold_waiting; [exact Hkv|]. move=> b ws HF. by apply Hrest.
  - wp_step. apply Hrest. apply Forall_Forall2_diag, Forall_true; auto with py.
Qed.

(** The victims are some of the candidates, in order; nothing changes. *)
Lemma wp_choose_victims cs n s Q :
  (∀ vs, sublist vs cs → Q vs s) → wp (choose_victims cs n) s Q any_exn.
Proof.
  elim: cs n Q => [|r cs IH] n Q HQ /=; first by wp_step; apply HQ.
  rw /sched_config /req. do 4 wp_step. wp_step.
  - wp_step. rw /on_kv. wp_step. rw /get_num_blocks_to_free. do 2 wp_step. wp_step; wp_step; try done.
    have -> : set_kv_cache_manager (kv_cache_manager s) s = s by destruct s.
    wp_step; first by wp_step; apply HQ, sublist_nil_l.
    wp_step. apply IH => vs Hvs. wp_step. apply HQ. by constructor.
  - apply IH => vs Hvs. apply HQ. by constructor.
Qed.

Lemma py_remove_spec r l : r ∈ l →
  ∃ l1 l2, l = l1 ++ r :: l2 ∧ py_remove r l = Ok (l1 ++ l2).
Proof.
  move=> Hr. enough (∃ l1 l2, l = l1 ++ r :: l2 ∧ remove_first r l = Some (l1 ++ l2)) as (l1 & l2 & -> & H).
  { exists l1, l2. by rw /py_remove H. }
  elim: l Hr => [|y l IH] /=; first by move=> /elem_of_nil.
  case_bool_decide as Hy.
  - subst y. by exists [], l.
  - move=> /elem_of_cons [//|/IH [l1 [l2 [-> ->]]]]. by exists (y :: l1), l2.
Qed.

Lemma wp_swap_out_victim R W r st Q :
  lists_are R W (sched st) → r ∈ R →
  (∀ st' R', R ≡ₚ r :: R' → lists_are R' (W ++ [r]) (sched st') → sframe (sched st) (sched st') →
     locals st' = set_preempted_reqs (preempted_reqs (locals st) ++ [r]) (locals st) → Q tt st') →
  wp (swap_out_victim r) st Q any_exn.
Proof.
  move=> [HR HW HI] Hr HQ. rw /swap_out_victim /req. do 5 ss_step.
  have Hlt : r < length (heap (sched st)) by apply (si_range _ _ _ HI), elem_of_app; left.
  rw -/(rid_of (sched st) r). apply (wp_swap_out_call r (sched st)); first apply (si_kv _ _ _ HI).
  move=> n s1 O1 K1 H1 T1 C1 _. do 2 ss_step. apply wp_upd_req; [by rw /= H1|done|].
  move=> s2 _ O2 H2 K2. simpl in *. do 5 wp_step. simpl.
  have Ho : only_req r (sched st) s2 by eapply only_req_trans.
  rw (oq_running _ _ _ Ho) HR. destruct (py_remove_spec r R Hr) as (l1 & l2 & HRe & Hrem).
  rw Hrem. apply wp_lift => // l [<-]. do 6 ss_step. simpl.
  apply wp_on_sched, wp_log_now => s3 Hs3. simpl in *.
  have HpR : R ≡ₚ r :: l1 ++ l2 by rw HRe -Permutation_middle.
  have HI2 : sinv (l1 ++ l2) (W ++ [r]) s2.
  { eapply (sinv_rejoin _ _ _ (sched st)); [|done|by rw K2|].
    - eapply sinv_perm; [|done|exact HI]. by rw HpR Permutation_cons_append.
    - rw /waiting_ok /status_of H2 (oq_id _ _ _ Ho). split_and!; [by right; right| |].
      + by rw /table_of K2.
      + move=> _. by rw /cpu_table_of K2. }
  apply (HQ _ (l1 ++ l2)); simpl; [done| | |done].
  - destruct Hs3 as (? & ? & ->). split; simpl; [done|by rw (oq_waiting _ _ _ Ho) HW|].
    by eapply sinv_same; last exact HI2.
  - eapply sframe_trans; [eapply only_req_frame; exact Ho|]. destruct Hs3 as (? & ? & ->). by split.
Qed.

Lemma wp_swap_out_victims vs R W st Q :
  lists_are R W (sched st) → NoDup vs → (∀ v, v ∈ vs → v ∈ R) →
  (∀ st' R' W', lists_are R' W' (sched st') → sframe (sched st) (sched st') →
     same_locals (locals st) (locals st') → length R' ≤ length R → Q tt st') →
  wp (mfor vs swap_out_victim) st Q any_exn.
Proof.
  elim: vs R W st => [|v vs IH] R W st HL Hnd Hin HQ /=.
  { wp_step. eapply HQ; [exact HL|auto with py|auto with py|done]. }
  apply NoDup_cons in Hnd as [Hv Hnd]. wp_step.
  eapply wp_swap_out_victim; [exact HL|by apply Hin; left|].
  move=> st1 R1 HR1 HL1 F1 L1. eapply IH; [exact HL1|done| |].
  - move=> x Hx. have Hxr : x ∈ R by apply Hin; right. rw HR1 in Hxr.
    apply elem_of_cons in Hxr as [->|?]; done.
  - move=> st2 R2 W2 H1 H2 H3 H4. eapply HQ; [exact H1|by eapply sframe_trans| |].
    + eapply same_locals_trans; [|exact H3]. rw L1. by eexists.
    + have := Permutation_length HR1. simpl. lia.
Qed.

Lemma wp_schedule_early R W st Q :
  lists_are R W (sched st) →
  (∀ st' R' W', lists_are R' W' (sched st') → sframe (sched st) (sched st') →
     same_locals (locals st) (locals st') → length R' ≤ length R → Q tt st') →
  wp (schedule_early py_hash) st Q any_exn.
Proof.
  move=> HL HQ. rw /schedule_early. do 2 ss_step. eapply wp_can_hold_all; [exact HL|].
  move=> b s1 HL1 F1 _. destruct b; first by wp_step; eapply HQ; [exact HL1|done|auto with py|done].
  do 3 wp_step. apply wp_lift => // w Hw. simpl in Hw. do 3 ss_step.
  wp_step. apply wp_lift => // sr Hsr. simpl in Hsr.
  apply sorted_by_perm in Hw, Hsr. rw (la_waiting _ _ _ HL1) in Hw. rw (la_running _ _ _ HL1) in Hsr.
  set s2 := set_waiting w s1.
  have HL2 : lists_are R w s2.
  { destruct HL1 as [H1 H2 H3]. split; [done|done|]. eapply (sinv_same _ _ s1); [done|done|done|].
    apply (sinv_perm R R W w); [done|by symmetry|done]. }
  have F2 : sframe (sched st) s2 by eapply sframe_trans; [exact F1|by split].
  rw /get_kv_caches_usage /num_free /on_kv. do 6 ss_step. do 2 ss_step. simpl.
  wp_step.
  have Hvict : ∀ vs, sublist vs sr → wp (mfor vs swap_out_victim) {| sched := s2; locals := locals st |} Q any_exn.
  { move=> vs Hvs. eapply wp_swap_out_victims; [exact HL2| | |].
    - eapply sublist_NoDup; [|exact Hvs]. rw Hsr.
      have Hnd := si_nodup _ _ _ (la_inv _ _ _ HL2). by apply NoDup_app in Hnd as [? _].
    - move=> v Hv. rw -Hsr. by eapply elem_of_submseteq, sublist_submseteq.
    - move=> st3 R3 W3 H1 H2 H3 H4. eapply HQ; [exact H1|by eapply sframe_trans|done|done]. }
  match goal with |- wp _ ?st' _ _ => have -> : st' = {| sched := s2; locals := locals st |} by destruct s1 end.
  destruct (_ && _); [ss_step|wp_step; apply Hvict, sublist_nil_l].
  apply wp_choose_victims => vs Hvs. by apply Hvict.
Qed.

(** * The whole step *)

(** The state a step starts from. *)
Record start_state (R W : list nat) (st : SchedState) : Prop := {
  st_lists : lists_are R W (sched st);
  st_locals : locals st = no_locals;
  st_max : (Z.of_nat (length R) ≤ max_num_seqs (config (sched st)))%Z;
  st_budget : (0 ≤ max_num_batched_tokens (config (sched st)))%Z;
}.

Lemma wp_early_phase R W st Q :
  start_state R W st →
  (∀ b st' R' W', lists_are R' W' (sched st') → sframe (sched st) (sched st') →
     same_locals no_locals (locals st') → length R' ≤ length R → Q (b, None) st') →
  wp (early_phase py_hash) st Q any_exn.
Proof.
  move=> [HL Hloc Hm _] HQ. rw /early_phase /sched_config. do 3 ss_step.
  have -> : set_sched (sched st) st = st by destruct st.
  destruct (negb _); first by wp_step; eapply HQ; [exact HL|auto with py|rw Hloc; auto with py|done].
  wp_step. eapply wp_schedule_early; [exact HL|]. move=> st1 R1 W1 H1 H2 H3 H4. rw Hloc in H3. do 2 wp_step.
  destruct (H3) as [pre Hpre]. rw Hpre /=. do 3 wp_step. by eapply HQ.
Qed.

Lemma wp_schedule_requests la R W st Q :
  start_state R W st →
  (∀ b st' R' W', waiting_state R' W' [] b st' → sframe (sched st) (sched st') → Q b st') →
  wp (schedule_requests py_hash la) st Q any_exn.
Proof.
  move=> HS HQ. destruct (HS) as [HL Hloc Hm Hb]. rw /schedule_requests /sched_config. do 4 ss_step.
  have -> : set_sched (sched st) st = st by destruct st.
  eapply wp_early_phase; [exact HS|]. move=> early st1 R1 W1 HL1 F1 L1 Hlen1.
  do 3 wp_step. eapply (wp_running_loop _ _ 0 R1 W1); [exact HL1|lia| |].
  { rw take_0. destruct L1 as [pre ->]. split; simpl; [rw (sf_cfg _ _ F1); lia|done|by move=> rid /elem_of_nil|done|apply dict_wf_nil]. }
  move=> hp b eb st2 R2 W2 HL2 F2 HA2 Hlen2. rw /get_kv_caches_usage /on_kv. do 4 ss_step.
  match goal with |- wp _ ?st' _ _ => have -> : st' = st2 by destruct st2 as [[] ?] end.
  have F : sframe (sched st) (sched st2) by eapply sframe_trans.
  have HW2 : waiting_state R2 W2 [] b st2.
  { destruct HL2 as [H1 H2 H3]. split; [done|done|by rw app_nil_r|done|]. rw (sf_cfg _ _ F). lia. }
  do 2 wp_step. destruct (_ || _); last by wp_step; eapply HQ.
  do 3 wp_step. eapply wp_waiting_loop; [exact HW2|].
  move=> X b' eb' st3 R3 W3 [H1 H2 H3 H4 H5] F3. do 3 ss_step. do 2 ss_step.
  apply wp_time_time => t s4 Hs4. wp_step.
  assert (HS4 : waiting_state R3 (W3 ++ X) [] b' {| sched := s4; locals := locals st3 |}
    ∧ sframe (sched st) s4).
  { destruct Hs4 as (c & tr & ->). split.
    - split; simpl; [done|by rw H2|by rw app_nil_r; eapply sinv_same; last exact H3|by destruct H4|done].
    - eapply sframe_trans; [exact F|]. eapply sframe_trans; [exact F3|]. by split. }
  apply (wp_mono _ _ (λ _ st', waiting_state R3 (W3 ++ X) [] b' st' ∧ sframe (sched st) (sched st')) _ any_exn);
    [apply wp_for| |done].
  - exact HS4.
  - intros r st5 _ [[A1 A2 A3 A4 A5] F5]. rw /req. do 3 ss_step. ss_step.
    apply wp_log_event => s6 Hs6. destruct Hs6 as (c & tr & ->). split.
    + split; simpl; [done|done|by eapply sinv_same; last exact A3|by destruct A4|done].
    + eapply sframe_trans; [exact F5|]. by split.
  - intros [] st5 [Hw F5]. wp_step. by eapply HQ.
Qed.
End step.
