(* ===== verification/SchedFuel.v ===== *)
(** Termination of the scheduling step: the bounds given to its [while] loops
    are never exhausted, in any state. *)
From Stdlib Require Import ssreflect ZArith Lia PrimFloat.
From stdpp Require Import base numbers list gmap strings.
From S2P Require Import Prelude SamplingParams KVCacheBlock Request FreeQueue BlockHash KVCacheManager EncoderCache Scheduler SchedInv SchedStep.

Create HintDb fuel discriminated.
(** The exceptions that the step must not end in: a loop without end, a wait
    without end, and a lookup of a request that is not registered. *)
Definition fatal (e : exn) : bool :=
  match e with
  | OutOfFuel | Deadlock => true
  | KeyError m => bool_decide (m = "self.requests"%string)
  | _ => false
  end.
Definition in_fuel (e : exn) : Prop := fatal e = false.

(** [safe I m]: [m] ends in no fatal exception and moves the state along [I]. *)
Definition safe {S A} (I : S → S → Prop) (m : M S A) : Prop :=
  ∀ s, wp m s (λ _ s', I s s') in_fuel.
(** The same for pure code. *)
Definition safe_result {A} (r : result A) : Prop :=
  match r with Ok _ => True | Raise e => in_fuel e end.

Section safe.
Context {S : Type} (I : S → S → Prop).
Context (Irefl : ∀ s, I s s) (Itrans : ∀ s1 s2 s3, I s1 s2 → I s2 s3 → I s1 s3).

Lemma safe_bind {A B} (m : M S A) (f : A → M S B) :
  safe I m → (∀ a, safe I (f a)) → safe I (m ≫= f).
Proof.
  move=> Hm Hf s. wp_step. eapply wp_mono; [apply Hm| |done]. move=> a s1 H1.
  eapply wp_mono; [apply Hf| |done]. move=> b s2 H2. exact (Itrans _ _ _ H1 H2).
Qed.
Lemma safe_ret {A} (a : A) : safe I (mret a : M S A).
Proof. move=> s. wp_step. apply Irefl. Qed.
Lemma safe_get : safe I mget.
Proof. move=> s. wp_step. apply Irefl. Qed.
Lemma safe_gets {A} (f : S → A) : safe I (mgets f).
Proof. move=> s. wp_step. apply Irefl. Qed.
Lemma safe_modify f : (∀ s, I s (f s)) → safe I (mmodify f).
Proof. move=> H s. wp_step. apply H. Qed.
Lemma safe_raise {A} e : in_fuel e → safe I (mraise e : M S A).
Proof. move=> H s. by wp_step. Qed.
Lemma safe_assert b msg : safe I (massert b msg).
Proof. move=> s. wp_step; [apply Irefl|done]. Qed.
Lemma safe_when b m : safe I m → safe I (mwhen b m).
Proof. move=> H s. wp_step; [apply H|apply Irefl]. Qed.
Lemma safe_lift {A} (r : result A) : safe_result r → safe I (mlift r).
Proof. move=> H s. apply wp_lift; [by move=> *; apply Irefl|].
  move=> e He. by rw He in H. Qed.
Lemma safe_for {A} (l : list A) f : (∀ x, safe I (f x)) → safe I (mfor l f).
Proof.
  move=> Hf. elim: l => [|x l IH] /=; first apply safe_ret. apply safe_bind; [apply Hf|done].
Qed.
Lemma safe_fold {A B} (l : list A) (b : B) f : (∀ b x, safe I (f b x)) → safe I (mfold l b f).
Proof.
  move=> Hf. elim: l b => [|x l IH] b /=; first apply safe_ret. apply safe_bind; [apply Hf|done].
Qed.
Lemma safe_zoom {T A} (get : S → T) set (m : M T A) (J : T → T → Prop) :
  (∀ s t, I s (set t s)) → safe J m → safe I (zoom get set m).
Proof. move=> HI H s. wp_step. eapply wp_mono; [apply H| |done]. move=> a t _. apply HI. Qed.
End safe.

(** * The manager's methods *)
Definition anywhere (s s' : KVCacheManager) : Prop := True.

(** Side conditions: reflexivity and transitivity of the relation. *)
Ltac safe_side := done.
Ltac safe_step :=
  lazymatch goal with
  | |- safe _ (mbind _ _) => apply safe_bind; [safe_side| |intros]
  | |- safe _ (mret _) => apply safe_ret; safe_side
  | |- safe _ mget => apply safe_get; safe_side
  | |- safe _ (mgets _) => apply safe_gets; safe_side
  | |- safe _ (mmodify _) => apply safe_modify; try safe_side
  | |- safe _ (mraise _) => apply safe_raise; done
  | |- safe _ (massert _ _) => apply safe_assert; safe_side
  | |- safe _ (mwhen _ _) => apply safe_when; [safe_side|]
  | |- safe _ (mlift _) => apply safe_lift; [safe_side|]
  | |- safe _ (mfor _ _) => apply safe_for; [safe_side|safe_side|intros]
  | |- safe _ (mfold _ _ _) => apply safe_fold; [safe_side|safe_side|intros]
  | |- safe _ (if ?b then _ else _) => destruct b
  | |- safe _ (match ?o with _ => _ end) => destruct o
  | |- safe _ (let _ := _ in _) => cbv zeta
  end.
Ltac safe := repeat (safe_step; simpl); try done.

Lemma safe_generate r a b c : safe_result (generate_block_hash_extra_keys r a b c).
Proof. rw /generate_block_hash_extra_keys. repeat case_match; done. Qed.
Lemma safe_hash_request_tokens py_hash bs r : safe_result (hash_request_tokens py_hash bs r).
Proof.
  rw /hash_request_tokens. repeat case_match; try done.
  move: (py_range _ _) None (0%Z) None (@nil BlockHashType) => l.
  elim: l => [|x l IH] // extra idx par ret. cbn [hash_request_loop]. case_match; first done.
  case_bool_decide; simpl; first apply IH.
  have := safe_generate r x (x + bs) idx.
  destruct (generate_block_hash_extra_keys r x (x + bs) idx) as [[e i]|e]; simpl; [move=> _; apply IH|done].
Qed.

Lemma safe_try_gpu r f : (∀ b, safe_result (f b)) → safe anywhere (try_gpu r f).
Proof. move=> H. rw /try_gpu /gblk /upd_gpu. safe. Qed.
Lemma safe_mark_full a b c x : safe_result (mark_full a b c x).
Proof. rw /mark_full. repeat case_match; done. Qed.
Lemma safe_mark_half a b c x : safe_result (mark_half a b c x).
Proof. rw /mark_half. repeat case_match; done. Qed.
Lemma safe_mark_clean x : safe_result (mark_clean x).
Proof. rw /mark_clean. repeat case_match; done. Qed.
Lemma safe_hash_setter h x : safe_result (block_hash_setter h x).
Proof. rw /block_hash_setter. repeat case_match; done. Qed.

Lemma safe_gpu_popleft : safe anywhere gpu_popleft.
Proof. move=> s. rw /wp /gpu_popleft /popleft. repeat case_match; simplify_eq; done. Qed.
Lemma safe_gpu_append r : safe anywhere (gpu_append r).
Proof. move=> s. rw /wp /gpu_append /append. repeat case_match; simplify_eq; done. Qed.
Lemma safe_gpu_remove r : safe anywhere (gpu_remove r).
Proof. move=> s. rw /wp /gpu_remove. by repeat case_match. Qed.
Lemma safe_cpu_popleft : safe anywhere cpu_popleft.
Proof. move=> s. rw /wp /cpu_popleft /popleft. repeat case_match; simplify_eq; done. Qed.
Lemma safe_cpu_append c : safe anywhere (cpu_append c).
Proof. move=> s. rw /wp /cpu_append /append. repeat case_match; simplify_eq; done. Qed.

#[export] Hint Resolve safe_hash_request_tokens safe_generate safe_try_gpu safe_mark_full safe_mark_half
  safe_mark_clean safe_hash_setter safe_gpu_popleft safe_gpu_append safe_gpu_remove safe_cpu_popleft
  safe_cpu_append : py.

Lemma safe_incr_ref r : safe anywhere (incr_ref r).
Proof. rw /incr_ref /upd_gpu /gblk /upd_cpu. safe. Qed.
Lemma safe_decr_ref r k : safe anywhere (decr_ref r k).
Proof. rw /decr_ref /cpu_decr_ref /upd_gpu /gblk /upd_cpu. safe. Qed.
Lemma safe_touch bs : safe anywhere (touch bs).
Proof. rw /touch /gblk. safe; auto using safe_incr_ref with py. Qed.
Lemma safe_evict r : safe anywhere (evict_cached_block r).
Proof. rw /evict_cached_block /gblk /upd_gpu. safe. Qed.
Lemma safe_new_blocks_loop n : safe anywhere (new_blocks_loop n).
Proof.
  elim: n => [|n IH]; rw /= /upd_gpu /gblk /cblk /config; safe;
    auto using safe_evict, safe_incr_ref with py.
Qed.
Lemma safe_get_new_blocks n : safe anywhere (get_new_blocks n).
Proof. rw /get_new_blocks /num_free. safe. apply safe_new_blocks_loop. Qed.
Lemma safe_get_cached_block h : safe anywhere (get_cached_block h).
Proof. rw /get_cached_block. safe. Qed.
Lemma safe_computed_loop hs : safe anywhere (computed_loop hs).
Proof. elim: hs => [|h hs IH] /=; safe. apply safe_get_cached_block. Qed.
Lemma safe_mapped_block_id r : safe anywhere (mapped_block_id r).
Proof. rw /mapped_block_id /gblk /cblk. safe. Qed.
#[export] Hint Resolve safe_incr_ref safe_decr_ref safe_touch safe_get_new_blocks safe_computed_loop
  safe_mapped_block_id : py.

Section kv.
Context (py_hash : option Z → list Z → Z).

Lemma safe_get_computed_blocks r : safe anywhere (get_computed_blocks py_hash r).
Proof. rw /get_computed_blocks /config. safe; auto with py. Qed.
Lemma safe_cache_full_blocks r a bs p : safe anywhere (cache_full_blocks py_hash r a bs p).
Proof.
  rw /cache_full_blocks /gblk. safe. rw /cache_full_block /config /gblk. safe; auto with py.
Qed.
Lemma safe_block_at l i : safe anywhere (block_at l i).
Proof. rw /block_at. safe. Qed.
#[local] Hint Resolve safe_get_computed_blocks safe_cache_full_blocks safe_block_at : py.
Lemma safe_append_slots r n : safe anywhere (append_slots py_hash r n).
Proof.
  rw /append_slots /append_slots_fixed /append_slots_unfixed /config /num_free /gblk.
  safe; auto with py.
Qed.
Lemma safe_allocate_slots r n bs np : safe anywhere (allocate_slots py_hash r n bs np).
Proof. rw /allocate_slots /config /num_free. safe; auto with py. Qed.
Lemma safe_free rid k sw : safe anywhere (free rid k sw).
Proof.
  rw /free /free_block /config /gblk /upd_gpu. safe; auto with py.
Qed.
Lemma safe_swap_in r bs : safe anywhere (swap_in py_hash r bs).
Proof.
  rw /swap_in /release_cpu_block /relocate /restore_status /cpu_decr_ref /config /cblk /gblk /upd_cpu /upd_gpu.
  safe; auto using safe_allocate_slots with py.
Qed.
Lemma safe_swap_out rid : safe anywhere (swap_out rid).
Proof.
  rw /swap_out /mapped_blocks /num_free /gblk. safe; auto using safe_free with py.
Qed.
Lemma safe_hold_waiting ws nf : safe anywhere (hold_waiting py_hash ws nf).
Proof.
  elim: ws nf => [|w ws IH] nf /=; rw /config /get_allocated_slots_num_new_blocks; safe; auto with py.
Qed.
Lemma safe_hold_running rs nf : safe anywhere (hold_running rs nf).
Proof.
  elim: rs nf => [|w rs IH] nf /=; safe; auto with py.
  rw /get_append_slots_num_new_blocks /config. safe.
Qed.
Lemma safe_can_hold_all_requests rs ws : safe anywhere (can_hold_all_requests py_hash rs ws).
Proof.
  rw /can_hold_all_requests /num_free. safe; auto using safe_hold_waiting, safe_hold_running.
Qed.
End kv.

(** * The step *)

(** Relations on scheduler and step states that only look at the lists. *)
Section lists.
Context (py_hash : option Z → list Z → Z).
Context (I : Scheduler → Scheduler → Prop) (J : SchedState → SchedState → Prop).
Context (Irefl : ∀ s, I s s) (Itrans : ∀ s1 s2 s3, I s1 s2 → I s2 s3 → I s1 s3).
Context (Jrefl : ∀ s, J s s) (Jtrans : ∀ s1 s2 s3, J s1 s2 → J s2 s3 → J s1 s3).
Context (Isame : ∀ s s', running s' = running s → waiting s' = waiting s → I s s').
Context (Jsched : ∀ st s', I (sched st) s' → J st (set_sched s' st)).
Context (Jlocals : ∀ st l, J st (set_locals l st)).

Lemma safe_on_sched {A} (m : SC A) : safe I m → safe J (on_sched m).
Proof.
  move=> H st. rw /on_sched. wp_step. eapply wp_mono; [apply H| |done]. move=> a s' Hs. by apply Jsched.
Qed.
Lemma safe_on_kv {A} (m : KV A) : safe anywhere m → safe I (on_kv m).
Proof. move=> H. eapply safe_zoom; [|exact H]. move=> s k. by apply Isame. Qed.
Lemma safe_on_encoder {A} (m : M EncoderCacheManager A) :
  safe (λ _ _, True) m → safe I (on_encoder m).
Proof. move=> H. eapply safe_zoom; [|exact H]. move=> s k. by apply Isame. Qed.
Lemma safe_req r : safe I (req r).
Proof. rw /req. safe. Qed.
Lemma safe_upd_req r f : safe I (upd_req r f).
Proof. rw /upd_req. safe. move=> s. by apply Isame. Qed.
Lemma safe_kv_on_req {A} r (f : Request → KV (A * Request)) :
  (∀ q, safe anywhere (f q)) → safe I (kv_on_req r f).
Proof.
  move=> H. rw /kv_on_req. safe; auto using safe_req, safe_upd_req. by apply safe_on_kv.
Qed.
Lemma safe_log_now tag rid : safe I (log_now tag rid).
Proof.
  rw /log_now /time_time /log_event. safe; move=> s; by apply Isame.
Qed.
Lemma safe_encoder_inputs m q nc n eb : safe_result (try_schedule_encoder_inputs m q nc n eb).
Proof.
  rw /try_schedule_encoder_inputs. case_match; first done. case_match; first done.
  move: 0 (mm_positions q) (@nil nat) n eb => i ps acc n eb. elim: ps i acc n eb => [|p ps IH] i acc n eb //.
  cbn [encoder_inputs_loop]. repeat (case_match; [by try apply IH|]).
  rw /can_allocate /get_num_encoder_tokens. destruct (mm_positions q !! i); simpl; last done.
  case_match; [done|apply IH].
Qed.
Lemma safe_encoder_allocate q i : safe (λ _ _, True) (encoder_allocate q i).
Proof. move=> m. rw /wp /encoder_allocate /get_num_encoder_tokens. by destruct (mm_positions q !! i). Qed.
Hint Resolve safe_on_sched safe_on_kv safe_req safe_upd_req safe_kv_on_req safe_log_now
  safe_encoder_inputs safe_encoder_allocate safe_on_encoder safe_append_slots safe_allocate_slots
  safe_swap_in safe_swap_out safe_free safe_get_computed_blocks : fuel.

Lemma safe_schedule_encoder r inputs a b : safe J (schedule_encoder r inputs a b).
Proof. rw /schedule_encoder. safe; auto with fuel. Qed.
Lemma safe_place_waiting r bs a b : safe I (place_waiting py_hash r bs a b).
Proof. rw /place_waiting. safe; auto with fuel. Qed.
Lemma safe_place_swapped r bs a b : safe I (place_swapped py_hash r bs a b).
Proof. rw /place_swapped. safe; auto with fuel. Qed.
Hint Resolve safe_schedule_encoder safe_place_waiting safe_place_swapped : fuel.
Lemma safe_single_waiting r a b : safe J (schedule_single_waiting_request py_hash r a b).
Proof.
  rw /schedule_single_waiting_request /block_ids /record_schedule. safe; auto with fuel;
    try (apply safe_on_sched; safe; auto with fuel).
Qed.
End lists.

(** * The loops *)

(** [running] does not get longer; [waiting] is not touched. *)
Definition run_le (s s' : Scheduler) : Prop := length (running s') ≤ length (running s).
Definition step_run_le (s s' : SchedState) : Prop := run_le (sched s) (sched s').
Definition wait_eq (s s' : Scheduler) : Prop := waiting s' = waiting s.
Definition step_wait_eq (s s' : SchedState) : Prop := wait_eq (sched s) (sched s').

Lemma run_le_refl s : run_le s s.
Proof. rw /run_le. lia. Qed.
Lemma run_le_trans s1 s2 s3 : run_le s1 s2 → run_le s2 s3 → run_le s1 s3.
Proof. rw /run_le. lia. Qed.
Lemma run_le_same s s' : running s' = running s → waiting s' = waiting s → run_le s s'.
Proof. by rw /run_le => -> _. Qed.
Lemma step_run_le_refl s : step_run_le s s.
Proof. rw /step_run_le /run_le. lia. Qed.
Lemma step_run_le_trans s1 s2 s3 : step_run_le s1 s2 → step_run_le s2 s3 → step_run_le s1 s3.
Proof. rw /step_run_le /run_le. lia. Qed.
Lemma step_wait_eq_trans s1 s2 s3 : step_wait_eq s1 s2 → step_wait_eq s2 s3 → step_wait_eq s1 s3.
Proof. rw /step_wait_eq /wait_eq. congruence. Qed.
Lemma wait_eq_trans s1 s2 s3 : wait_eq s1 s2 → wait_eq s2 s3 → wait_eq s1 s3.
Proof. rw /wait_eq. congruence. Qed.

Ltac safe_side ::=
  first [exact run_le_refl|exact run_le_trans|exact step_run_le_refl|exact step_run_le_trans
        |exact step_wait_eq_trans|exact wait_eq_trans|done
        |by intros; apply run_le_same|by intros; apply step_run_le_refl].
Section loops.
Context (py_hash : option Z → list Z → Z).

Abbreviation safe_run := (safe run_le).
Abbreviation safe_step_run := (safe step_run_le).

Lemma safe_run_on_sched {A} (m : SC A) : safe_run m → safe_step_run (on_sched m).
Proof. by apply safe_on_sched. Qed.
Hint Resolve safe_run_on_sched : fuel.
Hint Extern 2 (safe run_le (on_kv _)) => apply safe_on_kv; [exact run_le_same|] : fuel.
Hint Extern 2 (safe run_le (req _)) => apply safe_req; exact run_le_refl : fuel.
Hint Extern 2 (safe run_le (upd_req _ _)) => apply safe_upd_req; exact run_le_same : fuel.
Hint Extern 2 (safe run_le (log_now _ _)) =>
  apply safe_log_now; [exact run_le_refl|exact run_le_trans|exact run_le_same] : fuel.
Hint Extern 2 (safe run_le (sched_config)) => apply safe_gets; exact run_le_refl : fuel.
Hint Resolve safe_free safe_swap_out safe_append_slots : fuel.

(** Preemption shortens [running]. *)
Lemma wp_preempt_shortens st :
  wp preempt_last st (λ _ st', S (length (running (sched st'))) ≤ length (running (sched st))) in_fuel.
Proof.
  rw /preempt_last. do 2 wp_step. destruct (running (sched st)) as [|p l _] using rev_ind; first by wp_step.
  rw last_snoc removelast_last. wp_step. rw {1}/on_sched. do 2 wp_step. set st1 := set_sched _ _.
  match goal with |- wp ?m _ _ _ => assert (Hs : safe step_run_le m) end.
  { safe; auto with fuel; try (apply safe_run_on_sched; safe; auto with fuel). }
  eapply wp_mono; [apply Hs| |done]. rw /step_run_le /run_le /= length_app /=. lia.
Qed.

Lemma safe_append_or_preempt fuel r n allow st :
  length (running (sched st)) < fuel →
  wp (append_or_preempt py_hash fuel r n allow) st (λ _ st', step_run_le st st') in_fuel.
Proof.
  elim: fuel st => [|fuel IH] st Hf /=; first lia. wp_step.
  have Ha : safe step_run_le (on_sched (kv_on_req r (λ q, append_slots py_hash q n))).
  { apply safe_run_on_sched, safe_kv_on_req; [exact run_le_refl|exact run_le_trans|exact run_le_same|].
    auto with fuel. }
  eapply wp_mono; [apply Ha| |done]. move=> o st1 H1. rw /step_run_le /run_le in H1.
  wp_step; last by wp_step.
  wp_step. eapply wp_mono; [apply wp_preempt_shortens| |done]. move=> p st2 /= H2.
  wp_step; first by wp_step; rw /step_run_le /run_le; lia.
  eapply wp_mono; [apply IH; lia| |done]. move=> a st3 /=. rw /step_run_le /run_le. lia.
Qed.

Lemma safe_single_running r a b : safe_step_run (schedule_single_running_request py_hash r a b true).
Proof.
  have Henc : ∀ i x y, safe_step_run (schedule_encoder r i x y).
  { move=> i x y. eapply (safe_schedule_encoder run_le); try safe_side. }
  move=> st. rw /schedule_single_running_request /req. do 4 ss_step. wp_step; last done.
  wp_step. wp_step; last done. do 3 wp_step. apply wp_lift; last first.
  { move=> e He. match type of He with ?m = _ => have Hs : safe_result m by apply safe_encoder_inputs end.
    by rw He in Hs. }
  move=> [[inputs n] eb'] _. do 2 wp_step; last done. do 3 wp_step.
  eapply wp_mono; [apply safe_append_or_preempt; simpl; lia| |done].
  move=> [can o] st1 Hle. rw /step_run_le /run_le in Hle. simpl in Hle.
  match goal with |- wp ?m _ _ _ => assert (Hs : safe step_run_le m) end.
  { rw /block_ids /record_schedule. safe; auto with fuel. apply safe_run_on_sched. safe. }
  eapply wp_mono; [apply Hs| |done]. rw /step_run_le /run_le. move=> x st2 /=. lia.
Qed.

(** [n] bounds the length of [running]; the index never passes it. *)
Lemma safe_running_loop n fuel la early idx hp a b st :
  length (running (sched st)) ≤ n → idx ≤ n → fuel + idx = S n →
  wp (running_loop py_hash fuel la early idx hp a b) st (λ _ _, True) in_fuel.
Proof.
  elim: fuel idx hp a b st => [|fuel IH] idx hp a b st Hn Hi Hf /=; first lia.
  do 2 wp_step. destruct (running (sched st) !! idx) as [r|] eqn:Er; last by wp_step.
  apply lookup_lt_Some in Er. wp_step. wp_step; last done. wp_step. wp_step; last done.
  rw /req. do 3 ss_step.
  have -> : set_sched (sched st) st = st by destruct st.
  wp_step; first by apply IH; lia.
  destruct (lookahead_enter _ _) as [entered orig]. wp_step.
  eapply wp_mono; [apply safe_run_on_sched; auto with fuel| |done].
  move=> [] st1 Hle1. wp_step. eapply wp_mono; [apply safe_single_running| |done].
  move=> [[o a'] b'] st2 Hle2. wp_step.
  eapply wp_mono; [apply safe_run_on_sched; auto with fuel| |done].
  move=> [] st3 Hle3. rw /step_run_le /run_le in Hle1, Hle2, Hle3.
  destruct o as [[|k|k]|]; try (by wp_step); do 3 ss_step;
    (have -> : set_sched (sched st3) st3 = st3 by destruct st3); apply IH; lia.
Qed.

Lemma safe_single_waiting_lists r a b :
  safe step_wait_eq (schedule_single_waiting_request py_hash r a b).
Proof. by eapply (safe_single_waiting py_hash wait_eq); try safe_side. Qed.

Lemma safe_waiting_loop fuel u X hp a b st :
  length (waiting (sched st)) < fuel →
  wp (waiting_loop py_hash fuel u X hp a b) st (λ _ _, True) in_fuel.
Proof.
  elim: fuel X hp a b st => [|fuel IH] X hp a b st Hf /=; first lia.
  do 2 wp_step. destruct (waiting (sched st)) as [|r rest] eqn:Ew; first by wp_step.
  simpl in Hf. wp_step; first by wp_step. wp_step.
  { do 2 ss_step. apply IH. simpl. lia. }
  wp_step. eapply wp_mono; [apply safe_single_waiting_lists| |done].
  move=> [[o a'] b'] st1 H1. rw /step_wait_eq /wait_eq in H1.
  destruct o as [[|k|k]|]; try (by wp_step); rw /req /log_now /time_time /log_event;
    do 8 ss_step; ss_step; wp_steps; apply IH; simpl; rw H1 Ew /=; lia.
Qed.
End loops.

(** * The rest of the step *)
Definition any_sched (s s' : Scheduler) : Prop := True.
Definition any_step (s s' : SchedState) : Prop := True.
Ltac safe_side ::= done.

Section rest.
Context (py_hash : option Z → list Z → Z).

Lemma safe_any_on_sched {A} (m : SC A) : safe any_sched m → safe any_step (on_sched m).
Proof. by apply safe_on_sched. Qed.
Lemma safe_any_on_kv {A} (m : KV A) : safe anywhere m → safe any_sched (on_kv m).
Proof. by apply safe_on_kv. Qed.
Lemma safe_any_req r : safe any_sched (req r).
Proof. by apply safe_req. Qed.
Lemma safe_any_upd r f : safe any_sched (upd_req r f).
Proof. by apply safe_upd_req. Qed.
Lemma safe_any_time : safe any_sched time_time.
Proof. rw /time_time. safe. Qed.
Lemma safe_any_log tag rid : safe any_sched (log_now tag rid).
Proof. rw /log_now /log_event. safe. Qed.
Lemma safe_dindex {A} (d : dict string A) k : safe any_step (dindex d k).
Proof. rw /dindex. safe. Qed.
Lemma safe_map_reqs {A} l (f : Request → SM A) : (∀ q, safe any_step (f q)) → safe any_step (map_reqs l f).
Proof. move=> H. rw /map_reqs. safe. Qed.
Lemma safe_sorted_by key l : safe_result (sorted_by key l).
Proof. rw /sorted_by. by case_match. Qed.
Lemma safe_py_remove x l : safe_result (py_remove x l).
Proof. rw /py_remove. by case_match. Qed.
Hint Resolve safe_any_on_sched safe_any_on_kv safe_any_req safe_any_upd safe_any_time safe_any_log
  safe_dindex safe_map_reqs safe_sorted_by safe_py_remove safe_free safe_swap_out
  safe_can_hold_all_requests : fuel.

Lemma safe_choose_victims cs n : safe any_sched (choose_victims cs n).
Proof.
  elim: cs n => [|c cs IH] n /=; rw /sched_config; safe; auto with fuel.
  apply safe_any_on_kv. rw /get_num_blocks_to_free. safe.
Qed.
Lemma safe_swap_out_victim r : safe any_step (swap_out_victim r).
Proof. rw /swap_out_victim. safe; auto with fuel; apply safe_any_on_sched; safe. Qed.
Lemma safe_can_hold_all : safe any_sched (can_hold_all py_hash).
Proof. rw /can_hold_all. safe; auto with fuel. Qed.
Lemma safe_early_phase : safe any_step (early_phase py_hash).
Proof.
  rw /early_phase /schedule_early /sched_config. safe;
    auto using safe_can_hold_all, safe_swap_out_victim, safe_choose_victims with fuel;
    apply safe_any_on_sched; try (rw /get_kv_caches_usage /num_free /on_kv /zoom); safe.
Qed.
Lemma safe_advance r st : safe any_sched (advance_next r st) ∧ safe any_sched (advance_lookahead r st).
Proof. rw /advance_next /advance_lookahead /sched_config. split; safe; auto with fuel. Qed.
Lemma safe_make_output la total : safe any_step (make_output la total).
Proof.
  have Ha : ∀ r st, safe any_sched (advance_next r st) by move=> r st; apply safe_advance.
  have Hb : ∀ r st, safe any_sched (advance_lookahead r st) by move=> r st; apply safe_advance.
  rw /make_output /advance_running /advance_new /update_times /make_running_request_data.
  safe; auto with fuel; try (apply safe_map_reqs; intros; safe; auto with fuel);
    apply safe_any_on_sched; safe; auto with fuel.
Qed.

Lemma safe_schedule_checks b : safe any_step (schedule_checks b).
Proof. rw /schedule_checks. safe. Qed.

Lemma safe_schedule_requests la : safe any_step (schedule_requests py_hash la).
Proof.
  move=> st. rw /schedule_requests /sched_config. do 3 ss_step.
  wp_step. eapply wp_mono; [apply safe_early_phase| |done].
  move=> [early ids] st1 _. do 3 wp_step.
  eapply wp_mono; [apply (safe_running_loop _ (length (running (sched st1)))); lia| |done].
  move=> [[hp a] b] st2 _. rw /get_kv_caches_usage /on_kv. do 6 ss_step.
  wp_step; last by wp_step. do 3 wp_step.
  eapply wp_mono; [apply safe_waiting_loop; simpl; lia| |done].
  move=> [[X a'] b'] st3 _.
  match goal with |- wp ?m _ _ _ => assert (Hs : safe any_step m); last (by eapply wp_mono; [apply Hs|done|done]) end.
  rw /log_event. safe; auto with fuel.
Qed.

Lemma safe_schedule la : safe any_sched (schedule py_hash la).
Proof.
  move=> s. have Hs : safe any_step (schedule_step py_hash la).
  { rw /schedule_step. safe; auto using safe_schedule_requests, safe_schedule_checks, safe_make_output. }
  have := Hs {| sched := s; locals := no_locals |}. rw /wp /schedule. by destruct (schedule_step _ _ _) as [[]|].
Qed.
End rest.
