(* ===== verification/SchedOutput.v ===== *)
(** The output of a scheduling step, and what happens to the requests after it:
    [make_output], [update_from_output], [finish_requests]. *)
From Stdlib Require Import ssreflect ZArith Lia PrimFloat.
From stdpp Require Import base numbers list gmap strings.
From S2P Require Import Prelude SamplingParams KVCacheBlock Request FreeQueue BlockHash KVCacheManager KVInvariant KVOps KVSwap KVSafety EncoderCache Scheduler SchedInv SchedStep SchedFuel.

(** * Building the output *)

(** Statements that keep the lists, the ids and the statuses. *)
Definition keeps (R W : list nat) (s s' : Scheduler) : Prop := lists_are R W s' ∧ sframe s s'.

Lemma keeps_refl R W s : lists_are R W s → keeps R W s s.
Proof. by split; auto with py. Qed.
Lemma keeps_same R W s s1 s' :
  kv_cache_manager s' = kv_cache_manager s1 → heap s' = heap s1 → requests s' = requests s1 →
  running s' = running s1 → waiting s' = waiting s1 → config s' = config s1 →
  keeps R W s s1 → keeps R W s s'.
Proof.
  move=> E1 E2 E3 E4 E5 E6 [[H1 H2 H3] [F1 F2 F3 F4]]. split.
  - split; [by rw E4|by rw E5|by eapply sinv_same; last exact H3].
  - split; [by rw E6|by rw E2|by move=> x; rw /rid_of E2; apply F3|by rw E3].
Qed.
Lemma keeps_upd R W s s1 r f :
  (∀ q, request_id (f q) = request_id q) → (∀ q, request_status (f q) = request_status q) →
  keeps R W s s1 → keeps R W s (set_heap (alter f r (heap s1)) s1).
Proof.
  move=> Hid Hst [HL F]. destruct (upd_keep R W r f s1 Hid Hst HL) as [HL' F'].
  split; [done|by eapply sframe_trans].
Qed.
Lemma wp_keeps_upd R W s s1 r f (Q : unit → Scheduler → Prop) E :
  (∀ q, request_id (f q) = request_id q) → (∀ q, request_status (f q) = request_status q) →
  keeps R W s s1 → (∀ s2, keeps R W s s2 → Q tt s2) → wp (upd_req r f) s1 Q E.
Proof. move=> Hid Hst HK HQ. rw /upd_req. wp_step. apply HQ. by apply keeps_upd. Qed.

Lemma wp_make_running_request_data R W s s1 q ids nc n Q E :
  keeps R W s s1 → (∀ d s2, keeps R W s s2 → Q d s2) →
  wp (make_running_request_data q ids nc n) s1 Q E.
Proof.
  move=> HK HQ. rw /make_running_request_data. do 2 wp_step. destruct (dget _ _).
  - do 3 wp_step. apply HQ. by eapply keeps_same; last exact HK.
  - do 7 wp_step. apply HQ. by eapply keeps_same; last exact HK.
Qed.

Lemma wp_update_times R W s s1 Q :
  keeps R W s s1 → (∀ s2, keeps R W s s2 → Q tt s2) → wp update_times s1 Q any_exn.
Proof.
  move=> HK HQ. rw /update_times. wp_step. apply wp_time_time => now s2 Hs2.
  have HK2 : keeps R W s s2 by destruct Hs2 as (? & ? & ->); eapply keeps_same; last exact HK.
  assert (Hloop : ∀ l c f s3 (Q' : unit → Scheduler → Prop), (∀ q, request_id (f q) = request_id q) →
    (∀ q, request_status (f q) = request_status q) → keeps R W s s3 →
    (∀ s4, keeps R W s s4 → Q' tt s4) →
    wp (mfor l (λ r, q ← req r; mwhen (c q) (upd_req r f))) s3 Q' any_exn).
  { move=> l c f s3 Q' Hid Hst HK3 HQ'.
    apply (wp_mono _ _ (λ _ s4, keeps R W s s4) _ any_exn); [apply wp_for; [done|]|by move=> []|done].
    move=> r s4 _ HK4. rw /req. do 2 wp_step. wp_step; last done.
    by eapply wp_keeps_upd; [..|exact HK4|]. }
  do 3 wp_step. eapply Hloop; [done|done|exact HK2|]. move=> s3 HK3.
  by eapply Hloop; [..|exact HK3|].
Qed.

(** A step part that keeps the lists and does not touch the local variables. *)
Definition keeps_step (R W : list nat) (s : Scheduler) (l : Locals) (st : SchedState) : Prop :=
  keeps R W s (sched st) ∧ locals st = l.

Lemma wp_map_reqs {A} R W s lo (l : list nat) (f : Request → SM A) st Q :
  keeps_step R W s lo st →
  (∀ q st1 Q', keeps_step R W s lo st1 → (∀ a st2, keeps_step R W s lo st2 → Q' a st2) →
     wp (f q) st1 Q' any_exn) →
  (∀ res st', keeps_step R W s lo st' → Q res st') →
  wp (map_reqs l f) st Q any_exn.
Proof.
  move=> HK Hf HQ. rw /map_reqs.
  apply (wp_mono _ _ (λ _ st', keeps_step R W s lo st') _ any_exn); [apply wp_fold; [done|]|by intros; apply HQ|done].
  move=> acc r st1 _ HK1. rw /req. do 3 ss_step. ss_step.
  have -> : set_sched (sched st1) st1 = st1 by destruct st1.
  apply Hf; [exact HK1|]. move=> a st2 HK2. by wp_step.
Qed.

Lemma wp_dindex {A} (d : dict string A) k st Q : (∀ v, Q v st) → wp (dindex d k) st Q any_exn.
Proof. move=> HQ. rw /dindex. destruct (dget d k); by wp_step. Qed.

Lemma wp_advance_next R W s r n s1 Q :
  keeps R W s s1 → (∀ s2, keeps R W s s2 → Q tt s2) → wp (advance_next r n) s1 Q any_exn.
Proof.
  move=> HK HQ. rw /advance_next /sched_config /req. do 5 wp_step. wp_step; last done. wp_step.
  eapply wp_keeps_upd; [done|done|exact HK|]. move=> s2 HK2.
  by eapply wp_keeps_upd; [..|exact HK2|].
Qed.
Lemma wp_advance_lookahead R W s r n s1 Q :
  keeps R W s s1 → (∀ s2, keeps R W s s2 → Q tt s2) → wp (advance_lookahead r n) s1 Q any_exn.
Proof.
  move=> HK HQ. rw /advance_lookahead /sched_config /req. do 5 wp_step. wp_step; last done.
  wp_step. wp_step; last done. wp_step. wp_step; last done. wp_step. wp_step.
  - eapply wp_keeps_upd; [done|done|exact HK|]. move=> s2 HK2.
    by eapply wp_keeps_upd; [..|exact HK2|].
  - by eapply wp_keeps_upd; [..|exact HK|].
Qed.

Lemma wp_advance_running_all R W s lo la rs st Q :
  keeps_step R W s lo st → (∀ st', keeps_step R W s lo st' → Q tt st') →
  wp (mfor rs (advance_running la)) st Q any_exn.
Proof.
  move=> HK HQ.
  apply (wp_mono _ _ (λ _ st', keeps_step R W s lo st') _ any_exn); [apply wp_for; [done|]|by move=> []|done].
  intros r st1 _ [HK1 HL1]. rw /advance_running /req. do 6 ss_step. apply wp_dindex => n.
  destruct la.
  - ss_step. eapply wp_advance_lookahead; [exact HK1|]. move=> s2 HK2. by split.
  - wp_step. wp_step; last done. wp_step. wp_step; last done. ss_step.
    eapply wp_advance_next; [exact HK1|]. move=> s2 HK2. by split.
Qed.
Lemma wp_advance_new_all R W s lo ns st Q :
  keeps_step R W s lo st → (∀ st', keeps_step R W s lo st' → Q tt st') →
  wp (mfor ns advance_new) st Q any_exn.
Proof.
  move=> HK HQ.
  apply (wp_mono _ _ (λ _ st', keeps_step R W s lo st') _ any_exn); [apply wp_for; [done|]|by move=> []|done].
  intros r st2 _ [HK2 HL2]. rw /advance_new /req. do 6 ss_step. apply wp_dindex => n.
  ss_step. eapply wp_advance_next; [exact HK2|]. move=> s3 HK3. by split.
Qed.

(** Resetting the pending copies. *)
Lemma keeps_kv R W s s1 k :
  req_to_blocks k = req_to_blocks (kv_cache_manager s1) →
  req_to_blocks_cpu k = req_to_blocks_cpu (kv_cache_manager s1) → kv_ok k →
  keeps R W s s1 → keeps R W s (set_kv_cache_manager k s1).
Proof.
  move=> E1 E2 Hk [[H1 H2 [A1 A2 A3 A4 A5 A6 A7 A8 A9]] [F1 F2 F3 F4]]. split; last by split.
  split; [done|done|]. split; [done..| | |done|done|].
  - move=> r /A5. by rw /running_ok /status_of /table_of /= E1.
  - move=> r /A6. by rw /waiting_ok /status_of /table_of /cpu_table_of /= E1 E2.
  - move=> rid. rw /table_of /= E1. apply A9.
Qed.

(** [make_output] keeps the invariant; the token counts it reports are the
    recorded ones. *)
Lemma wp_make_output R W la total st Q :
  lists_are R W (sched st) →
  (∀ o st', keeps R W (sched st) (sched st') →
     out_num_scheduled_tokens o = num_scheduled_tokens (locals st) →
     total_num_scheduled_tokens o = total →
     counter o = schedule_counter (sched st') - 1 →
     finished_req_ids (sched st') = [] → Q o st')%Z →
  wp (make_output la total) st Q any_exn.
Proof.
  move=> HL HQ. rw /make_output. have HK := keeps_refl _ _ _ HL.
  rw /on_kv /get_and_reset_pending_blocks_to_swap_in /get_and_reset_pending_blocks_to_swap_out.
  do 3 ss_step. do 5 wp_step. do 3 ss_step. do 5 wp_step. do 2 ss_step.
  set s1 := set_kv_cache_manager _ _.
  have HK1 : keeps R W (sched st) s1.
  { destruct (si_kv _ _ _ (la_inv _ _ _ HL)) as (ext & l & Hkv). rw /s1 /=.
    apply keeps_kv; [done|done| |apply keeps_kv; [done|done| |done]];
      exists ext, l; by eapply kv_inv_same; last exact Hkv. }
  eapply wp_update_times; [exact HK1|]. move=> s2 HK2. do 2 wp_step.
  set st2 := set_sched s2 _. have HS2 : keeps_step R W (sched st) (locals st) st2 by split.
  change (locals st2) with (locals st).
  wp_step. eapply wp_map_reqs; [exact HS2| |].
  { move=> q st3 Q' H3 HQ'. wp_step. apply wp_dindex => v. wp_step. by apply HQ'. }
  move=> r3 st3 HS3. wp_step. eapply wp_map_reqs; [exact HS3| |].
  { move=> q st4 Q' H4 HQ'. wp_step. apply wp_dindex => v. wp_step. by apply HQ'. }
  move=> r4 st4 HS4. wp_step. eapply wp_map_reqs; [exact HS4| |].
  { intros q st5 Q' [H5 H5'] HQ'. wp_step. apply wp_dindex => v. ss_step.
    eapply wp_make_running_request_data; [exact H5|]. move=> d s6 HK6. by apply HQ'. }
  move=> r5 st5 HS5. wp_step. eapply wp_map_reqs; [exact HS5| |].
  { move=> q st6 Q' H6 HQ'. wp_step. by apply HQ'. }
  move=> r6 st6 HS6. wp_step.
  eapply wp_advance_running_all; [exact HS6|]. move=> st7 HS7. wp_step.
  eapply wp_advance_new_all; [exact HS7|]. intros st8 [HK8 _].
  do 3 wp_step. rw /on_encoder. do 2 ss_step. rw /wp /get_freed_ids /=.
  apply HQ => //=; [|lia]. by eapply keeps_same; last exact HK8.
Qed.

(** * The scheduling step *)
Section step.
Context (py_hash : option Z → list Z → Z).

Lemma wp_schedule_checks R W b st Q E :
  waiting_state R W [] b st →
  Q (dsum id (num_scheduled_tokens (locals st))) st →
  wp (schedule_checks b) st Q E.
Proof.
  move=> [H1 H2 H3 [A1 A2 A3 A4 A5] H5] HQ. rw /schedule_checks. do 2 wp_step. rw H1.
  rw (_ : (_ <=? max_num_batched_tokens _)%Z = true); first lia.
  rw (_ : (0 <=? b)%Z = true); first lia.
  rw (_ : (_ <=? max_num_seqs _)%Z = true); first lia.
  rw bool_decide_eq_true_2; first lia. wp_steps; by try exact HQ.
Qed.

Lemma wp_schedule_step R W la st Q :
  start_state R W st →
  (∀ o st' R' W', lists_are R' W' (sched st') → sframe (sched st) (sched st') →
     (Z.of_nat (length R') ≤ max_num_seqs (config (sched st)))%Z →
     total_num_scheduled_tokens o = dsum id (out_num_scheduled_tokens o) →
     (total_num_scheduled_tokens o ≤ max_num_batched_tokens (config (sched st)))%Z →
     (∀ rid, rid ∈ dkeys (out_num_scheduled_tokens o) → ∃ r, r ∈ R' ∧ rid = rid_of (sched st) r) →
     finished_req_ids (sched st') = [] → dict_wf (out_num_scheduled_tokens o) → Q o st') →
  wp (schedule_step py_hash la) st Q any_exn.
Proof.
  move=> HS HQ. rw /schedule_step. wp_step. eapply wp_schedule_requests; [exact HS|].
  move=> b st1 R1 W1 HW1 F1. wp_step. eapply wp_schedule_checks; [exact HW1|].
  destruct HW1 as [H1 H2 H3 [A1 A2 A3 A4 A5] H5]. rw app_nil_r in H3.
  have HL1 : lists_are R1 W1 (sched st1) by split.
  eapply wp_make_output; [exact HL1|]. intros o st2 [HL2 F2] E1 E2 _ E4.
  have F : sframe (sched st) (sched st2) by eapply sframe_trans.
  apply (HQ o st2 R1 W1); [done|done|by rw -(sf_cfg _ _ F1)|by rw E1 E2| | |done|by rw E1].
  - rw E2 -(sf_cfg _ _ F1). lia.
  - rw E1. move=> rid /A3 [r [Hr ->]]. exists r. by rw (sf_id _ _ F1).
Qed.
End step.

(** * Removing requests *)

(** Like [only_req], but the lists and the request dictionary may change. *)
Record req_frame (r : nat) (s s' : Scheduler) : Prop := {
  rf_cfg : config s' = config s;
  rf_len : length (heap s') = length (heap s);
  rf_id : ∀ x, rid_of s' x = rid_of s x;
  rf_heap : ∀ x, x ≠ r → heap s' !!! x = heap s !!! x;
  rf_table : ∀ rid, rid ≠ rid_of s r → table_of s' rid = table_of s rid;
  rf_cpu : ∀ rid, rid ≠ rid_of s r → cpu_table_of s' rid = cpu_table_of s rid;
}.
Lemma only_req_req_frame r s s' : only_req r s s' → req_frame r s s'.
Proof. by move=> []. Qed.
Lemma req_frame_trans r s1 s2 s3 : req_frame r s1 s2 → req_frame r s2 s3 → req_frame r s1 s3.
Proof.
  move=> [A1 A2 A3 A4 A5 A6] [B1 B2 B3 B4 B5 B6]. split; try congruence.
  - move=> x Hx. rw B4 //. by apply A4.
  - move=> rid Hr. rw B5; [by rw A3|by apply A5].
  - move=> rid Hr. rw B6; [by rw A3|by apply A6].
Qed.

(** A finished request leaves the lists and the dictionary. *)
Lemma sinv_remove r R W R' W' s s' :
  sinv R W s → R ++ W ≡ₚ r :: R' ++ W' →
  (∀ x, x ∈ R' → x ∈ R) → (∀ x, x ∈ W' → x ∈ W) →
  kv_ok (kv_cache_manager s') → req_frame r s s' →
  requests s' = ddel (requests s) (rid_of s r) → table_of s' (rid_of s r) = None →
  sinv R' W' s'.
Proof.
  move=> HI Hperm HR HW Hk Hf Hreq Htab. have Hnd := si_nodup _ _ _ HI. rw Hperm in Hnd.
  apply NoDup_cons in Hnd as [Hr Hnd].
  have Hr0 : r ∈ R ++ W by rw Hperm; left.
  have Hin : ∀ x, x ∈ R' ++ W' → x ∈ R ++ W ∧ x ≠ r ∧ rid_of s x ≠ rid_of s r.
  { move=> x Hx. have Hx0 : x ∈ R ++ W by rw Hperm; right.
    have Hxr : x ≠ r by move=> ?; subst. split_and!; [done|done|].
    move=> Heq. apply Hxr. by eapply sinv_ids. }
  split; [done|done| | | | |by rw Hreq; apply dict_wf_ddel, (si_requests _ _ _ HI)| |].
  - move=> x /Hin [Hx _]. rw (rf_len _ _ _ Hf). by apply (si_range _ _ _ HI).
  - move=> x /Hin [Hx [_ Hid]]. rw Hreq (rf_id _ _ _ Hf) dget_ddel_ne //. by apply (si_known _ _ _ HI).
  - move=> x Hx. have [Hx0 [Hxr Hid]] : x ∈ R ++ W ∧ x ≠ r ∧ rid_of s x ≠ rid_of s r
      by apply Hin, elem_of_app; left.
    destruct (si_run _ _ _ HI x (HR x Hx)) as [B1 B2].
    rw /running_ok /status_of (rf_heap _ _ _ Hf) // (rf_id _ _ _ Hf) (rf_table _ _ _ Hf) //.
  - move=> x Hx. have [Hx0 [Hxr Hid]] : x ∈ R ++ W ∧ x ≠ r ∧ rid_of s x ≠ rid_of s r
      by apply Hin, elem_of_app; right.
    have := si_wait _ _ _ HI x (HW x Hx).
    by rw /waiting_ok /status_of (rf_heap _ _ _ Hf) // (rf_id _ _ _ Hf) (rf_table _ _ _ Hf) // (rf_cpu _ _ _ Hf).
  - move=> rid x. rw Hreq dget_ddel; first apply (si_requests _ _ _ HI). case_decide as Hd; first done.
    move=> Hx. destruct (si_only _ _ _ HI _ _ Hx) as [Hx0 Hid]. rw (rf_id _ _ _ Hf).
    split; last done. rw Hperm in Hx0. apply elem_of_cons in Hx0 as [->|?]; [|done].
    by rw Hid in Hd.
  - move=> rid. rw Hreq. destruct (decide (rid = rid_of s r)) as [->|Hne]; first by rw Htab => -[].
    rw (rf_table _ _ _ Hf) // dget_ddel_ne //. apply (si_tables _ _ _ HI).
Qed.

(** [_free_request] of a finished, known request returns. *)
Lemma wp_free_request r s Q E :
  kv_ok (kv_cache_manager s) → is_finished (heap s !!! r) = true →
  is_Some (dget (requests s) (rid_of s r)) →
  (∀ s', req_frame r s s' → kv_ok (kv_cache_manager s') → heap s' = heap s →
     requests s' = ddel (requests s) (rid_of s r) → running s' = running s → waiting s' = waiting s →
     table_of s' (rid_of s r) = None →
     finished_req_ids s' = set_add (rid_of s r) (finished_req_ids s) → Q tt s') →
  wp (free_request r) s Q E.
Proof.
  move=> Hk Hfin [x Hx] HQ. rw /free_request /req. do 3 wp_step. rw Hfin. wp_step; last done.
  wp_step. rw -/(rid_of s r). apply (wp_free_call r s); first done.
  move=> s1 O1 K1 H1 T1 C1 E1. rw E1. do 4 wp_step. simpl.
  rw {1}/dmem Hx /=. do 3 wp_step. apply HQ => //=.
  destruct (only_req_req_frame _ _ _ O1) as [B1 B2 B3 B4 B5 B6]. by split.
Qed.

(** Taking [r] out of the list its status names. *)
Lemma remove_from_lists R W r s :
  lists_are R W s → r ∈ R ++ W →
  ∃ R' W', R ++ W ≡ₚ r :: R' ++ W' ∧ (∀ x, x ∈ R' → x ∈ R) ∧ (∀ x, x ∈ W' → x ∈ W) ∧
    length R' ≤ length R ∧
    if decide (status_of s r = RUNNING)
    then py_remove r (running s) = Ok R' ∧ W' = W else py_remove r (waiting s) = Ok W' ∧ R' = R.
Proof.
  move=> [HR HW HI] /elem_of_app [Hr|Hr].
  - destruct (si_run _ _ _ HI r Hr) as [Hst _]. destruct (py_remove_spec r R Hr) as (l1 & l2 & E1 & E2).
    exists (l1 ++ l2), W. rw decide_True // HR E1. split_and!; [|by move=> x; rw !elem_of_app elem_of_cons; tauto
      |done|rw !length_app /=; lia|by rw -E1|done].
    by rw -!Permutation_middle.
  - destruct (si_wait _ _ _ HI r Hr) as [Hst _]. destruct (py_remove_spec r W Hr) as (l1 & l2 & E1 & E2).
    exists R, (l1 ++ l2). rw decide_False; [by move=> H; rw H in Hst; destruct Hst as [?|[?|?]]|].
    rw HW E1. split_and!; [|done|by move=> x; rw !elem_of_app elem_of_cons; tauto|done|by rw -E1|done].
    by rw app_assoc -Permutation_middle -app_assoc.
Qed.

(** What finishing leaves behind. *)
Record finished_one (rid : string) (s s' : Scheduler) : Prop := {
  fo_inv : sched_inv s';
  fo_cfg : config s' = config s;
  fo_requests : requests s' = ddel (requests s) rid;
  fo_len : length (running s') ≤ length (running s);
}.

Lemma wp_finish_request fs rid s Q E :
  sched_inv s → status_is_finished fs = true →
  (∀ s', finished_one rid s s' → Q tt s') →
  wp (finish_request fs rid) s Q E.
Proof.
  move=> HI Hfs HQ. rw /finish_request. do 2 wp_step.
  destruct (dget (requests s) rid) as [r|] eqn:Er; last first.
  { wp_step. apply HQ. split; [done|done|by rw ddel_notin|done]. }
  destruct (si_only _ _ _ HI _ _ Er) as [HrRW Hid].
  have HL : lists_are (running s) (waiting s) s by split.
  destruct (remove_from_lists _ _ _ _ HL HrRW) as (R' & W' & Hperm & HR' & HW' & Hlen & Hrem).
  rw /req. do 3 wp_step. rw -/(status_of s r).
  assert (Hrest : wp (log_now "FINISHED" (rid_of s r);;; upd_req r (set_request_status fs);;; free_request r)
    (set_running R' (set_waiting W' s)) Q E).
  { wp_step. apply wp_log_now => s1 Hs1. wp_step.
    have Hlt := si_range _ _ _ HI r HrRW. destruct Hs1 as (c & t & ->).
    apply wp_upd_req; [done|done|]. move=> s2 _ O2 H2 K2.
    apply wp_free_request; [rw K2; apply (si_kv _ _ _ HI)|by rw H2|rw (oq_requests _ _ _ O2) (oq_id _ _ _ O2) /rid_of /=|].
    { change (is_Some (dget (requests s) (rid_of s r))). rw Hid Er. by eexists. }
    move=> s3 F3 K3 H3 Q3 R3 W3 T3 _.
    have F : req_frame r s s3.
    { eapply (req_frame_trans _ _ (set_clock c (set_time_record t (set_running R' (set_waiting W' s)))));
        [by split|]. eapply req_frame_trans; [by eapply only_req_req_frame|done]. }
    have Hreq : requests s3 = ddel (requests s) (rid_of s r)
      by rw Q3 (oq_requests _ _ _ O2) (oq_id _ _ _ O2).
    have ER : running s3 = R' by rw R3 (oq_running _ _ _ O2).
    have EW : waiting s3 = W' by rw W3 (oq_waiting _ _ _ O2).
    apply HQ. split; [|apply (rf_cfg _ _ _ F)|by rw Hreq Hid|by rw ER].
    rw /sched_inv ER EW. eapply sinv_remove; try done. by rw (oq_id _ _ _ O2) in T3. }
  have Hrun : ∀ (R0 : list nat), set_running R0 s = set_running R0 (set_waiting (waiting s) s) by destruct s.
  have Hwt : ∀ (W0 : list nat), set_waiting W0 s = set_running (running s) (set_waiting W0 s) by destruct s.
  case_bool_decide as Hst.
  - rw decide_True // in Hrem. destruct Hrem as [Hrm ->]. do 3 wp_step.
    rw Hrm. apply wp_lift => // l [<-]. wp_step. by rw Hrun.
  - rw decide_False // in Hrem. destruct Hrem as [Hrm ->]. do 3 wp_step.
    rw Hrm. apply wp_lift => // l [<-]. wp_step. by rw Hwt.
Qed.

Lemma wp_finish_requests fs ids s Q E :
  sched_inv s → status_is_finished fs = true →
  (∀ s', sched_inv s' → config s' = config s → length (running s') ≤ length (running s) →
     requests s' = foldl (λ d rid, ddel d rid) (requests s) (foldl (λ acc x, set_add x acc) [] ids) → Q tt s') →
  wp (finish_requests ids fs) s Q E.
Proof.
  move=> HI Hfs HQ. rw /finish_requests Hfs. wp_step. wp_step; last done.
  move: (foldl _ [] ids) HQ => l. elim: l s HI => [|rid l IH] s HI HQ /=; first by wp_step; apply HQ.
  wp_step. apply wp_finish_request; [done|done|]. move=> s1 [H1 H2 H3 H4].
  apply IH; first done. move=> s2 G1 G2 G3 G4. apply HQ; [done|congruence|lia|by rw G4 H3].
Qed.

(** * Processing the model's output *)

(** [_check_stop]: the request is untouched and goes on, or it is finished and
    freed. *)
Lemma wp_check_stop R W r s Q E :
  sinv R W s → r ∈ R ++ W → E (IndexError "output_token_ids[-1]") →
  (Q false s) →
  (∀ s', req_frame r s s' → kv_ok (kv_cache_manager s') → is_finished (heap s' !!! r) = true →
     requests s' = ddel (requests s) (rid_of s r) → running s' = running s → waiting s' = waiting s →
     table_of s' (rid_of s r) = None → Q true s') →
  wp (check_stop r) s Q E.
Proof.
  move=> HI Hr HE HQ1 HQ2. have Hlt := si_range _ _ _ HI r Hr. have Hkn := si_known _ _ _ HI r Hr.
  assert (Hfree : ∀ s1, only_req r s s1 → kv_cache_manager s1 = kv_cache_manager s →
    is_finished (heap s1 !!! r) = true →
    wp (free_request r;;; mret true) s1 Q E).
  { move=> s1 O1 K1 H1. wp_step.
    apply wp_free_request; [rw K1; apply (si_kv _ _ _ HI)|done|by rw (oq_requests _ _ _ O1) (oq_id _ _ _ O1) Hkn|].
    move=> s2 F2 K2 H2 Q2 R2 W2 T2 _. wp_step. apply HQ2; [|done|by rw H2|..].
    - eapply req_frame_trans; [by eapply only_req_req_frame|done].
    - by rw Q2 (oq_requests _ _ _ O1) (oq_id _ _ _ O1).
    - by rw R2 (oq_running _ _ _ O1).
    - by rw W2 (oq_waiting _ _ _ O1).
    - by rw -(oq_id _ _ _ O1). }
  rw /check_stop /sched_config {1}/req. do 4 wp_step. wp_step.
  { wp_step. apply wp_upd_req; [done|done|]. move=> s1 _ O1 H1 K1. apply Hfree; [done|done|by rw H1]. }
  destruct (last _) as [tok|]; last by wp_step; exact HE.
  wp_step.
  { wp_step. apply wp_upd_req; [done|done|]. move=> s1 _ O1 H1 K1. apply Hfree; [done|done|by rw H1]. }
  wp_step; last by wp_step.
  wp_step. apply wp_upd_req; [done|done|]. move=> s1 _ O1 H1 K1.
  wp_step. apply wp_upd_req; [by rw (oq_len _ _ _ O1)|done|]. move=> s2 _ O2 H2 K2.
  apply Hfree; [by eapply only_req_trans|by rw K2|by rw H2 H1].
Qed.

Definition live (s : Scheduler) (stopped : list string) (l : list nat) : list nat :=
  filter (λ r, rid_of s r ∉ stopped) l.

(** The state between two requests of [update_from_output]: the stopped ones are
    still in the lists. *)
Record updating (s0 s : Scheduler) (acc : list EngineCoreOutput * list string) : Prop := {
  up_running : running s = running s0;
  up_waiting : waiting s = waiting s0;
  up_cfg : config s = config s0;
  up_id : ∀ x, rid_of s x = rid_of s0 x;
  up_inv : sinv (live s0 acc.2 (running s0)) (live s0 acc.2 (waiting s0)) s;
  up_stopped : ∀ rid, rid ∈ acc.2 ↔
    ∃ o, o ∈ acc.1 ∧ eco_request_id o = rid ∧ eco_finished o = true;
}.

Lemma live_app s st l1 l2 : live s st l1 ++ live s st l2 = live s st (l1 ++ l2).
Proof. by rw /live filter_app. Qed.
Lemma elem_of_live s st l x : x ∈ live s st l ↔ (rid_of s x ∉ st) ∧ x ∈ l.
Proof. by rw /live list_elem_of_filter. Qed.

(** Stopping [r] removes exactly [r] from the live requests. *)
Lemma live_stop s0 s st R W r :
  NoDup (R ++ W) → sinv (live s0 st R) (live s0 st W) s → (∀ x, rid_of s x = rid_of s0 x) →
  r ∈ live s0 st R ++ live s0 st W →
  live s0 st R ++ live s0 st W
    ≡ₚ r :: live s0 (set_add (rid_of s0 r) st) R ++ live s0 (set_add (rid_of s0 r) st) W.
Proof.
  move=> Hnd HI Hid Hr. rw !live_app. apply NoDup_Permutation.
  - by apply NoDup_filter.
  - apply NoDup_cons. split; [|by apply NoDup_filter].
    rw elem_of_live elem_of_set_add. tauto.
  - move=> x. rw elem_of_cons !elem_of_live elem_of_set_add. split.
    + move=> [H1 H2]. destruct (decide (x = r)) as [->|Hx]; [by left|right]. split; last done.
      move=> [Heq|//]. apply Hx. eapply (sinv_ids _ _ _ _ _ HI); [|exact Hr|by rw !Hid].
      by rw live_app elem_of_live.
    + move=> [->|[H1 H2]]; last tauto. by rw live_app elem_of_live in Hr.
Qed.
Lemma live_mono s0 rid st l x : x ∈ live s0 (set_add rid st) l → x ∈ live s0 st l.
Proof. rw !elem_of_live elem_of_set_add. tauto. Qed.

(** A live request is not finished. *)
Lemma live_not_finished R W s r : sinv R W s → r ∈ R ++ W → is_finished (heap s !!! r) = false.
Proof.
  move=> HI /elem_of_app [Hr|Hr]; rw /is_finished.
  - destruct (si_run _ _ _ HI r Hr) as [Hst _]. by rw -/(status_of s r) Hst.
  - destruct (si_wait _ _ _ HI r Hr) as [[Hst|[Hst|Hst]] _]; by rw -/(status_of s r) Hst.
Qed.

(** All exceptions but the fatal ones are accepted. *)
Definition requests_found (E : exn → Prop) : Prop := ∀ e, in_fuel e → E e.

Lemma wp_take_token s0 s r rid tok acc Q E :
  NoDup (running s0 ++ waiting s0) → updating s0 s acc → dget (requests s) rid = Some r →
  requests_found E →
  (∀ acc' s', updating s0 s' acc' → (∀ x, x ∈ acc'.2 → x = rid ∨ x ∈ acc.2) → Q acc' s') →
  wp (take_token r rid tok acc) s Q E.
Proof.
  move=> Hnd [U1 U2 U3 U4 U5 U6] Hk HE HQ. destruct (si_only _ _ _ U5 _ _ Hk) as [Hr Hid].
  rw /take_token. wp_step. eapply wp_upd_req_keep; [exact U5|exact Hr|done|done|].
  move=> s1 _ HI1 O1. wp_step. eapply wp_check_stop; [exact HI1|exact Hr|by apply HE| |].
  - rw /req. do 3 wp_step. apply HQ; last by move=> x ?; right. split; simpl; [by rw (oq_running _ _ _ O1)|by rw (oq_waiting _ _ _ O1)
      |by rw (oq_cfg _ _ _ O1)|by move=> x; rw (oq_id _ _ _ O1)|done|].
    move=> x. rw U6. split.
    + move=> [o [Ho Hx]]. exists o. split; [apply elem_of_app; by left|done].
    + move=> [o [/elem_of_app [Ho|/list_elem_of_singleton ->] [Hx Hf]]]; first by exists o.
      simpl in Hf. by rw (live_not_finished _ _ _ _ HI1 Hr) in Hf.
  - move=> s2 F2 K2 Hfin Q2 R2 W2 T2. rw /req. do 3 wp_step. apply HQ; last by move=> x /elem_of_set_add.
    have Hids : ∀ x, rid_of s2 x = rid_of s0 x by move=> x; rw (rf_id _ _ _ F2) (oq_id _ _ _ O1).
    have Hrid : rid_of s0 r = rid by rw -U4.
    split; simpl; [by rw R2 (oq_running _ _ _ O1)|by rw W2 (oq_waiting _ _ _ O1)
      |by rw (rf_cfg _ _ _ F2) (oq_cfg _ _ _ O1)|done| |].
    + rw -Hrid. eapply (sinv_remove r _ _ _ _ s1 s2 HI1).
      * eapply live_stop; [done|exact HI1|by move=> x; rw (oq_id _ _ _ O1)|done].
      * move=> x. apply live_mono.
      * move=> x. apply live_mono.
      * done.
      * done.
      * done.
      * done.
    + move=> x. rw elem_of_set_add U6. split.
      * move=> [->|[o [Ho Hx]]]; [eexists; split; [apply elem_of_app; right; by left|done]|].
        exists o. split; [apply elem_of_app; by left|done].
      * move=> [o [/elem_of_app [Ho|/list_elem_of_singleton ->] [Hx Hf]]]; [right; by exists o|by left].
Qed.

Lemma wp_update_request s0 s m acc rn Q E :
  NoDup (running s0 ++ waiting s0) → updating s0 s acc → requests_found E →
  (is_Some (dget (requests s) rn.1) ∨ E (KeyError "self.requests")) →
  (∀ acc' s', updating s0 s' acc' → (∀ x, x ∈ acc'.2 → x = rn.1 ∨ x ∈ acc.2) → Q acc' s') →
  wp (update_request m acc rn) s Q E.
Proof.
  move=> Hnd HU HE Hk HQ. destruct rn as [rid n]. simpl in *. rw /update_request. do 2 wp_step.
  destruct (dget (requests s) rid) as [r|] eqn:Er; last by wp_step; destruct Hk as [[? ?]|?].
  have HQ' : ∀ s', updating s0 s' acc → Q acc s' by move=> s' ?; apply HQ; [done|by right].
  destruct (HU) as [U1 U2 U3 U4 U5 U6]. destruct (si_only _ _ _ U5 _ _ Er) as [Hr Hid].
  wp_step. eapply wp_upd_req_keep; [exact U5|exact Hr|done|done|]. move=> s1 _ HI1 O1.
  have HU1 : updating s0 s1 acc.
  { split; [by rw (oq_running _ _ _ O1)|by rw (oq_waiting _ _ _ O1)|by rw (oq_cfg _ _ _ O1)
      |by move=> x; rw (oq_id _ _ _ O1)|done|done]. }
  have Er1 : dget (requests s1) rid = Some r by rw (oq_requests _ _ _ O1).
  destruct (dget (mro_new_token_ids m) rid) as [tok|].
  - wp_step. eapply wp_take_token; [done|exact HU1|exact Er1|done|]. move=> acc' s2 HU2 Hst.
    rw /req. do 3 wp_step. wp_step; last by apply HE. wp_step. by apply HQ.
  - rw /req. do 3 wp_step. wp_step; last by apply HE.
    case_bool_decide; first by wp_step; apply HQ'. do 2 wp_step. wp_step; last by wp_step; apply HQ'.
    destruct (dget (req_id_to_index m) rid); last by wp_step; apply HE.
    destruct (sampled_token_ids m !! _); last by wp_step; apply HE.
    by eapply wp_take_token; [|exact HU1|exact Er1|done|].
Qed.

(** A request that was registered and has not stopped is still registered. *)
Lemma updating_known s0 s acc rid :
  sched_inv s0 → updating s0 s acc → is_Some (dget (requests s0) rid) → rid ∉ acc.2 →
  is_Some (dget (requests s) rid).
Proof.
  move=> HI [U1 U2 U3 U4 U5 U6] [r Hr] Hn. destruct (si_only _ _ _ HI _ _ Hr) as [Hin Hid].
  exists r. rw -Hid -U4. apply (si_known _ _ _ U5). rw live_app elem_of_live. split; [by rw Hid|done].
Qed.

Lemma wp_update_requests s0 m l E : sched_inv s0 → requests_found E →
  ∀ acc s, updating s0 s acc →
  (E (KeyError "self.requests") ∨
     NoDup (l.*1) ∧ ∀ rid, rid ∈ (l.*1) → (rid ∉ acc.2) ∧ is_Some (dget (requests s0) rid)) →
  wp (mfold l acc (update_request m)) s (λ acc s, updating s0 s acc) E.
Proof.
  move=> HI HE. have Hnd := si_nodup _ _ _ HI.
  induction l as [|rn l IH] => acc s HU Hk; first by apply wp_ret.
  cbn [mfold]. wp_step. apply (wp_update_request s0); [done|done|done| |].
  - destruct Hk as [?|[_ Hk]]; [by right|left]. destruct (Hk rn.1) as [H1 H2]; first by left.
    by eapply updating_known.
  - move=> acc' s' HU' Hst. apply IH; first done. destruct Hk as [?|[Hn Hk]]; [by left|right].
    apply NoDup_cons in Hn as [Hn1 Hn2]. split; first done. move=> rid Hr.
    destruct (Hk rid) as [H1 H2]; first by right. split; last done.
    move=> /Hst [Heq|?]; [|done]. by subst.
Qed.

Lemma wp_update_from_output o m s Q E :
  sched_inv s → requests_found E →
  (E (KeyError "self.requests") ∨
     dict_wf (out_num_scheduled_tokens o) ∧
     ∀ rid, rid ∈ dkeys (out_num_scheduled_tokens o) → is_Some (dget (requests s) rid)) →
  (∀ outs stopped s', sched_inv s' → config s' = config s → length (running s') ≤ length (running s) →
     (∀ rid, rid ∈ stopped ↔ ∃ o, o ∈ outs ∧ eco_request_id o = rid ∧ eco_finished o = true) →
     (∀ r, r ∈ running s' ++ waiting s' → rid_of s' r ∉ stopped) →
     (∀ r, r ∈ running s ++ waiting s → rid_of s r ∉ stopped → r ∈ running s' ++ waiting s') →
     (∀ r, rid_of s' r = rid_of s r) →
     Q (outs, stopped) s') →
  wp (update_from_output o m) s Q E.
Proof.
  move=> HI HE Hk HQ. have Hnd := si_nodup _ _ _ HI. rw /update_from_output. wp_step.
  apply (wp_mono _ _ (λ acc s1, updating s s1 acc) _ E);
    [apply wp_update_requests; [done|done| |]| |done].
  - split; [done..| |]; simpl.
    + have Hl : ∀ l, live s [] l = l.
      { move=> l. rw /live. induction l as [|x l IH]; first done. rw filter_cons IH.
        case_decide as Hx; first done. by apply elem_of_nil in Hx. }
      by rw !Hl.
    + move=> rid. split; [by move=> /elem_of_nil|by move=> [o' [/elem_of_nil]]].
  - destruct Hk as [?|[H1 H2]]; [by left|right]. split; first done. move=> rid Hr.
    split; [apply not_elem_of_nil|by apply H2].
  - intros [outs stopped] s1 [U1 U2 U3 U4 U5 U6]. simpl in *. do 5 wp_step.
    have Hflt : ∀ l, filter (λ r, request_id (heap s1 !!! r) ∉ stopped) l = live s stopped l.
    { move=> l. rw /live. apply list_filter_iff => x. by rw -/(rid_of s1 x) U4. }
    apply wp_time_time => t s2 Hs2. wp_step. simpl in *. rw U1 U2 !Hflt in Hs2.
    apply (wp_mono _ _ (λ _ s3, same_sched s2 s3) _ E); [apply wp_for| |done].
    + auto with py.
    + move=> x s3 _ H3. apply wp_log_event => s4 H4. by eapply same_sched_trans.
    + intros [] s3 H3. wp_step. have {Hs2} H3 := same_sched_trans _ _ _ Hs2 H3.
      destruct H3 as (c & tr & ->). apply HQ; [|done| |done| | |]; simpl.
      * by eapply sinv_same; last exact U5.
      * rw /live. apply length_filter.
      * move=> r. rw live_app elem_of_live => -[Hr _]. move: Hr. by rw -U4.
      * move=> r Hr Hs. by rw live_app elem_of_live.
      * move=> r. apply U4.
Qed.
