(* ===== verification/SchedTheorems.v ===== *)
(** Runs of the scheduler and the theorems that hold in every reachable state. *)
From Stdlib Require Import ssreflect ZArith Lia PrimFloat.
From stdpp Require Import base numbers list gmap strings.
From S2P Require Import Prelude SamplingParams KVCacheBlock Request FreeQueue BlockHash KVCacheManager KVInvariant KVOps KVSwap KVSafety EncoderCache Scheduler SchedInv SchedStep SchedOutput SchedFuel.

(** * Calls *)

(** The public methods that change the scheduler. *)
Inductive sched_call :=
  | Add (r : Request)
  | Finish (ids : list string) (status : RequestStatus)
  | Schedule (lookahead : bool)
  | Update (o : SchedulerOutput) (m : ModelRunnerOutput)
  | TimeRecord.

Definition sched_run (py_hash : option Z → list Z → Z) (c : sched_call) : SC unit :=
  match c with
  | Add r => add_request r
  | Finish ids status => finish_requests ids status
  | Schedule la => schedule py_hash la;;; mret tt
  | Update o m => update_from_output o m;;; mret tt
  | TimeRecord => get_time_record;;; mret tt
  end.

(** The engine's side: a new request is fresh. *)
Definition sched_call_ok (c : sched_call) (s : Scheduler) : Prop :=
  match c with
  | Add r => dget (requests s) (request_id r) = None ∧ request_status r = WAITING
  | Finish _ status => status_is_finished status = true
  | _ => True
  end.

Inductive sched_reach (py_hash : option Z → list Z → Z) : Scheduler → Prop :=
  | sched_reach_init sc cc c s :
      num_gpu_blocks cc ≤ num_cpu_blocks cc → (0 ≤ max_num_seqs sc)%Z →
      (0 ≤ max_num_batched_tokens sc)%Z →
      scheduler_init sc cc c = Ok s → sched_reach py_hash s
  | sched_reach_call s c s' :
      sched_reach py_hash s → sched_call_ok c s → sched_run py_hash c s = Ok (tt, s') →
      sched_reach py_hash s'.

Record sched_ok (s : Scheduler) : Prop := {
  so_inv : sched_inv s;
  so_max : (Z.of_nat (length (running s)) ≤ max_num_seqs (config s))%Z;
  so_budget : (0 ≤ max_num_batched_tokens (config s))%Z;
}.

Lemma lookup_total_snoc_lt {A} `{!Inhabited A} (l : list A) x i : i < length l → (l ++ [x]) !!! i = l !!! i.
Proof. move=> Hi. by rw lookup_total_app_l. Qed.
Lemma lookup_total_snoc_eq {A} `{!Inhabited A} (l : list A) x : (l ++ [x]) !!! length l = x.
Proof. rw lookup_total_app_r; first lia. by rw Nat.sub_diag. Qed.

(** Adding a fresh request. *)
Lemma wp_add_request q s Q E :
  sched_ok s → dget (requests s) (request_id q) = None → request_status q = WAITING →
  (∀ s', sched_ok s' → running s' = running s → waiting s' = waiting s ++ [length (heap s)] →
     heap s' = heap s ++ [q] → requests s' = dset (requests s) (request_id q) (length (heap s)) → Q tt s') →
  wp (add_request q) s Q E.
Proof.
  move=> [[A1 A2 A3 A4 A5 A6 A7 A8 A9] Hm Hb] Hfresh Hst HQ. rw /add_request. do 7 wp_step.
  apply wp_log_now => s1 Hs1. wp_step. destruct Hs1 as (c & t & ->). apply HQ => //=.
  set n := length (heap s). set s2 := set_requests _ _.
  have Hold : ∀ r, r ∈ running s ++ waiting s → rid_of s2 r = rid_of s r ∧ status_of s2 r = status_of s r
    by move=> r /A3 Hr; rw /rid_of /status_of /= lookup_total_snoc_lt.
  have Hnew : rid_of s2 n = request_id q by rw /rid_of /= lookup_total_snoc_eq.
  have Hnn : n ∉ running s ++ waiting s by move=> /A3; rw /n; lia.
  have Htab : table_of s (request_id q) = None.
  { apply eq_None_not_Some => /A9 [x Hx]. congruence. }
  split; [|done|done]. split; simpl.
  - done.
  - rw app_assoc. apply NoDup_app. split_and!; [done| |apply NoDup_singleton].
    move=> x Hx /list_elem_of_singleton ?. by subst.
  - move=> r. rw app_assoc elem_of_app list_elem_of_singleton length_app /=. move=> [/A3|->]; rw ?/n; lia.
  - move=> r. rw app_assoc elem_of_app list_elem_of_singleton. move=> [Hr| ->].
    + destruct (Hold r Hr) as [-> _]. rw dget_dset_ne; [|by apply A4].
      move=> Heq. have := A4 r Hr. rw Heq. congruence.
    + by rw Hnew dget_dset_eq.
  - move=> r Hr. have HrRW : r ∈ running s ++ waiting s by apply elem_of_app; left.
    destruct (Hold r HrRW) as [Hi Hs]. rw /running_ok Hs Hi. by apply A5.
  - move=> r. rw elem_of_app list_elem_of_singleton. move=> [Hr| ->].
    + have HrRW : r ∈ running s ++ waiting s by apply elem_of_app; right.
      destruct (Hold r HrRW) as [Hi Hs]. rw /waiting_ok Hs Hi. by apply A6.
    + have Hs : status_of s2 n = WAITING by rw /status_of /= lookup_total_snoc_eq.
      rw /waiting_ok Hs Hnew. split_and!; [by left|done|done].
  - auto with py.
  - move=> rid r. rw dget_dset. case_decide as Hd.
    + move=> [<-]. split; [rw app_assoc elem_of_app list_elem_of_singleton; by right|by rw Hnew].
    + move=> /A8 [Hr Hi]. destruct (Hold r Hr) as [-> _].
      split; [rw app_assoc elem_of_app; by left|done].
  - move=> rid /A9. rw -!not_eq_None_Some dget_dset. by case_decide.
Qed.

Lemma scheduler_init_ok sc cc c s :
  num_gpu_blocks cc ≤ num_cpu_blocks cc → (0 ≤ max_num_seqs sc)%Z →
  (0 ≤ max_num_batched_tokens sc)%Z → scheduler_init sc cc c = Ok s → sched_ok s.
Proof.
  move=> Hcpu Hmax Hb. rw /scheduler_init. case_bool_decide as Hg; last done. simpl.
  destruct (kv_init_spec (cc_block_size cc) (num_gpu_blocks cc) (num_cpu_blocks cc) (max_model_len sc)
    (cc_sliding_window cc) (enable_prefix_caching cc) 64 (prefix_cache_fix sc) Hg Hcpu) as (k & -> & HI & _).
  simpl. move=> [<-]. split; simpl; [|done|done].
  have Hk : kv_ok k by exists [], (seq 0 (num_gpu_blocks cc)); apply init_loop_inv with (num_cpu_blocks cc).
  split; simpl; try done; try by move=> ? /elem_of_nil.
  - constructor.
  - apply dict_wf_nil.
  - move=> rid. rw /table_of /=. destruct (il_tables _ _ _ _ HI) as [-> _]. by move=> [].
Qed.

Lemma start_of s : sched_ok s →
  start_state (running s) (waiting s) {| sched := s; locals := no_locals |}.
Proof. move=> [HI Hm Hb]. by split. Qed.

Lemma wp_schedule py_hash la s Q :
  sched_ok s →
  (∀ o s', sched_ok s' → sframe s s' →
     total_num_scheduled_tokens o = dsum id (out_num_scheduled_tokens o) →
     (total_num_scheduled_tokens o ≤ max_num_batched_tokens (config s))%Z →
     (∀ rid, rid ∈ dkeys (out_num_scheduled_tokens o) → ∃ r, r ∈ running s' ∧ rid = rid_of s r) →
     finished_req_ids s' = [] → dict_wf (out_num_scheduled_tokens o) → Q o s') →
  wp (schedule py_hash la) s Q any_exn.
Proof.
  move=> Hok HQ. pose (st0 := {| sched := s; locals := no_locals |}).
  assert (Hwp : wp (schedule_step py_hash la) st0 (λ o st, Q o (sched st)) any_exn).
  { eapply wp_schedule_step; [exact (start_of s Hok)|].
    move=> o st' R' W' HL F Hm H1 H2 H3 H4 H5. apply HQ => //.
    - destruct Hok as [_ _ Hb]. split; [by eapply lists_are_inv| |by rw (sf_cfg _ _ F)].
      by rw (la_running _ _ _ HL) (sf_cfg _ _ F).
    - by rw (la_running _ _ _ HL). }
  move: Hwp. rw /wp /schedule -/st0. by destruct (schedule_step py_hash la st0) as [[o st]|e].
Qed.

Lemma wp_sched_run py_hash c s :
  sched_ok s → sched_call_ok c s → wp (sched_run py_hash c) s (λ _ s', sched_ok s') any_exn.
Proof.
  move=> Hok Hc. destruct c as [q|ids st|la|o m|]; simpl in *.
  - destruct Hc as [H1 H2]. by apply wp_add_request.
  - destruct Hok as [HI Hm Hb]. apply wp_finish_requests; [done|done|].
    move=> s' H1 H2 H3 _. split; [done|rw H2; lia|by rw H2].
  - wp_step. apply wp_schedule; first done. move=> o s' H1 _ _ _ _ _ _. by wp_step.
  - wp_step. destruct Hok as [HI Hm Hb]. apply wp_update_from_output; [done|done|by left|].
    move=> outs stopped s' H1 H2 H3 _ _ _ _. wp_step. split; [done|rw H2; lia|by rw H2].
  - rw /get_time_record. wp_steps. destruct Hok as [HI Hm Hb].
    split; [|done|done]. by eapply sinv_same; last exact HI.
Qed.

Lemma sched_reach_ok py_hash s : sched_reach py_hash s → sched_ok s.
Proof.
  induction 1 as [sc cc c s H1 H2 H3 H4|s c s' _ IH Hc Hrun]; first by eapply scheduler_init_ok.
  exact (wp_ok _ _ _ _ tt s' (wp_sched_run py_hash c s IH Hc) Hrun).
Qed.

(** * A concrete scheduler for the witnesses *)

(** 8 GPU and 20 CPU blocks of 16 tokens, at most 4 requests and 32 tokens a
    step. *)
Definition demo_config : SchedulerConfig :=
  {| max_num_seqs := 4; max_num_batched_tokens := 32; max_model_len := 64; preemption_mode := None;
     max_num_encoder_input_tokens := 8; encoder_cache_size := 4; proactive_swap_budget := 0;
     prefix_cache_fix := true |}.
Definition demo_cache : CacheConfig :=
  {| cc_block_size := 16; num_gpu_blocks := 8; num_cpu_blocks := 20; cc_sliding_window := None;
     enable_prefix_caching := true |}.
#[export] Instance Scheduler_inhabited : Inhabited Scheduler :=
  populate {| config := demo_config; kv_cache_manager := inhabitant; heap := []; requests := [];
    waiting := []; running := []; finished_req_ids := []; data_heap := []; running_reqs_data := [];
    encoder_cache_manager := encoder_cache_init 0; schedule_counter := 0; time_record := [];
    clock := Z.of_nat |}.
Definition demo_scheduler : Scheduler :=
  match scheduler_init demo_config demo_cache Z.of_nat with Ok s => s | Raise _ => inhabitant end.
Fixpoint sched_runs (py_hash : option Z → list Z → Z) (cs : list sched_call) (s : Scheduler)
    : result Scheduler :=
  match cs with
  | [] => Ok s
  | c :: cs => match sched_run py_hash c s with Ok (_, s) => sched_runs py_hash cs s | Raise e => Raise e end
  end.
Definition demo_sched_run (cs : list sched_call) : Scheduler :=
  match sched_runs pairing_hash cs demo_scheduler with Ok s => s | Raise _ => inhabitant end.
Definition ten (id : string) : Request := text_request id (Z.of_nat <$> seq 0 10).
Definition demo_added : Scheduler := demo_sched_run [Add (ten "a"); Add (ten "b")].
Definition demo_scheduled : Scheduler := demo_sched_run [Add (ten "a"); Add (ten "b"); Schedule false].

Lemma demo_scheduler_reach : sched_reach pairing_hash demo_scheduler.
Proof.
  eapply (sched_reach_init _ demo_config demo_cache Z.of_nat); [vm_compute; lia|vm_compute; done
    |vm_compute; done|vm_compute; reflexivity].
Qed.
Lemma demo_added_reach : sched_reach pairing_hash demo_added.
Proof.
  eapply (sched_reach_call _ (demo_sched_run [Add (ten "a")]) (Add (ten "b")));
    [|vm_compute; done|vm_compute; reflexivity].
  eapply (sched_reach_call _ demo_scheduler (Add (ten "a")));
    [apply demo_scheduler_reach|vm_compute; done|vm_compute; reflexivity].
Qed.
Lemma demo_scheduled_reach : sched_reach pairing_hash demo_scheduled.
Proof.
  eapply (sched_reach_call _ demo_added (Schedule false));
    [apply demo_added_reach|done|vm_compute; reflexivity].
Qed.

(** * Theorems *)

(** C6: The scheduler's bookkeeping is consistent in every reachable state: no
    request is listed twice, at most [max_num_seqs] run, a running request has
    status RUNNING and a block table, a waiting one has a waiting status and
    none, and every block table belongs to a running request. *)
Theorem scheduler_consistent py_hash s :
  sched_reach py_hash s →
  NoDup (running s ++ waiting s) ∧
  (Z.of_nat (length (running s)) ≤ max_num_seqs (config s))%Z ∧
  (∀ r, r ∈ running s → request_status (heap s !!! r) = RUNNING ∧
     is_Some (dget (req_to_blocks (kv_cache_manager s)) (request_id (heap s !!! r)))) ∧
  (∀ r, r ∈ waiting s → request_status (heap s !!! r) ∈ [WAITING; PREEMPTED; SWAPPED] ∧
     dget (req_to_blocks (kv_cache_manager s)) (request_id (heap s !!! r)) = None) ∧
  (∀ rid, is_Some (dget (req_to_blocks (kv_cache_manager s)) rid) →
     ∃ r, r ∈ running s ∧ request_id (heap s !!! r) = rid).
Proof.
  move=> /sched_reach_ok [HI Hm _]. destruct (HI) as [A1 A2 A3 A4 A5 A6 A7 A8 A9].
  split_and!; [done|done|done| |].
  - move=> r /A6 [Hst [Ht _]]. split; last done. rw -/(status_of s r).
    destruct Hst as [-> | [-> | ->]]; set_solver.
  - move=> rid Ht. destruct (A9 rid Ht) as [r Hr]. destruct (A8 rid r Hr) as [Hin Hid].
    apply elem_of_app in Hin as [Hin|Hin]; first by exists r.
    destruct (A6 r Hin) as [_ [Hnone _]]. rw Hid /table_of in Hnone. rw Hnone in Ht. by destruct Ht.
Qed.
Lemma scheduler_consistent_witness :
  NoDup (running demo_scheduled ++ waiting demo_scheduled) ∧
  (Z.of_nat (length (running demo_scheduled)) ≤ max_num_seqs (config demo_scheduled))%Z ∧
  (∀ r, r ∈ running demo_scheduled → request_status (heap demo_scheduled !!! r) = RUNNING ∧
     is_Some (dget (req_to_blocks (kv_cache_manager demo_scheduled)) (request_id (heap demo_scheduled !!! r)))) ∧
  (∀ r, r ∈ waiting demo_scheduled →
     request_status (heap demo_scheduled !!! r) ∈ [WAITING; PREEMPTED; SWAPPED] ∧
     dget (req_to_blocks (kv_cache_manager demo_scheduled)) (request_id (heap demo_scheduled !!! r)) = None) ∧
  (∀ rid, is_Some (dget (req_to_blocks (kv_cache_manager demo_scheduled)) rid) →
     ∃ r, r ∈ running demo_scheduled ∧ request_id (heap demo_scheduled !!! r) = rid).
Proof. exact (scheduler_consistent pairing_hash demo_scheduled demo_scheduled_reach). Defined.

(** The scheduler uses the manager soundly: in every reachable state the
    free queue is intact and no block of a running request is on it. *)
Theorem running_blocks_not_free py_hash s :
  sched_reach py_hash s →
  let kv := kv_cache_manager s in
  ∃ l, get_all_free_blocks (length (block_pool kv)) (block_pool kv) (free_block_queue kv) = Some l ∧
    NoDup l ∧ num_free_blocks (free_block_queue kv) = Z.of_nat (length l) ∧
    ∀ r bs b, r ∈ running s → dget (req_to_blocks kv) (request_id (heap s !!! r)) = Some bs →
      b ∈ bs → b < length (block_pool kv) ∧ b ∉ l.
Proof.
  move=> /sched_reach_ok [HI _ _] kv. destruct (si_kv _ _ _ HI) as (ext & l & Hkv).
  have Hq := ki_queue _ _ _ _ Hkv. exists l.
  split_and!; [by eapply kv_inv_walk|apply (qr_nodup _ _ _ Hq)|apply (qr_num _ _ _ Hq)|].
  move=> r bs b _ Ht Hb. exact (kv_inv_table_used _ _ _ _ _ _ Hkv Ht Hb).
Qed.
Lemma running_blocks_not_free_witness :
  let kv := kv_cache_manager demo_scheduled in
  ∃ l, get_all_free_blocks (length (block_pool kv)) (block_pool kv) (free_block_queue kv) = Some l ∧
    NoDup l ∧ num_free_blocks (free_block_queue kv) = Z.of_nat (length l) ∧
    ∀ r bs b, r ∈ running demo_scheduled →
      dget (req_to_blocks kv) (request_id (heap demo_scheduled !!! r)) = Some bs →
      b ∈ bs → b < length (block_pool kv) ∧ b ∉ l.
Proof. exact (running_blocks_not_free pairing_hash demo_scheduled demo_scheduled_reach). Defined.

(** C7: The four constraint checks of [schedule] behind its loops never fire: from
    a reachable state, when the scheduling loops have run, the total is within the
    token budget, the budget left is not negative, [running] is not too long, and
    there are as many scheduled requests as running ones. The assertions on the
    token counts of each request, in the loops that prepare the next step, are not
    among them: they ask that outputs have come back since the step before. *)
Theorem schedule_checks_pass py_hash la s b st :
  sched_reach py_hash s →
  schedule_requests py_hash la {| sched := s; locals := no_locals |} = Ok (b, st) →
  schedule_checks b st = Ok (dsum id (num_scheduled_tokens (locals st)), st).
Proof.
  move=> /sched_reach_ok Hok Hrun. by_wp Hrun.
  eapply wp_schedule_requests; [exact (start_of s Hok)|].
  move=> b' st' R' W' HW _.
  assert (Hwp : wp (schedule_checks b') st'
    (λ t st2, t = dsum id (num_scheduled_tokens (locals st')) ∧ st2 = st') no_exn)
    by (eapply wp_schedule_checks; [exact HW|done]).
  by destruct (wp_returns _ _ _ Hwp) as (t & st2 & Hc & -> & ->).
Qed.
Lemma schedule_checks_pass_witness :
  ∃ b st, schedule_requests pairing_hash false {| sched := demo_added; locals := no_locals |} = Ok (b, st) ∧
    schedule_checks b st = Ok (dsum id (num_scheduled_tokens (locals st)), st).
Proof.
  do 2 eexists. split; [vm_compute; reflexivity|].
  eapply (schedule_checks_pass pairing_hash false demo_added);
    [apply demo_added_reach|vm_compute; reflexivity].
Defined.

(** C8: Token budget: the output of [schedule] reports the sum of the tokens it
    hands out, the sum is within [max_num_batched_tokens], and only requests
    that are running afterwards get tokens. *)
Theorem schedule_within_budget py_hash la s o s' :
  sched_reach py_hash s → schedule py_hash la s = Ok (o, s') →
  total_num_scheduled_tokens o = dsum id (out_num_scheduled_tokens o) ∧
  (total_num_scheduled_tokens o ≤ max_num_batched_tokens (config s))%Z ∧
  (∀ rid, rid ∈ dkeys (out_num_scheduled_tokens o) →
     ∃ r, r ∈ running s' ∧ request_id (heap s' !!! r) = rid) ∧
  finished_req_ids s' = [].
Proof.
  move=> /sched_reach_ok Hok Hrun. by_wp Hrun. apply wp_schedule; first done.
  move=> o1 s1 _ F H1 H2 H3 H4 _. split_and!; [done|done| |done].
  move=> rid /H3 [r [Hr ->]]. exists r. split; [done|apply (sf_id _ _ F)].
Qed.
Lemma schedule_within_budget_witness :
  ∃ o s', schedule pairing_hash false demo_added = Ok (o, s') ∧
  out_num_scheduled_tokens o = [("a"%string, 10%Z); ("b"%string, 10%Z)] ∧
  total_num_scheduled_tokens o = dsum id (out_num_scheduled_tokens o) ∧
  (total_num_scheduled_tokens o ≤ max_num_batched_tokens (config demo_added))%Z ∧
  (∀ rid, rid ∈ dkeys (out_num_scheduled_tokens o) →
     ∃ r, r ∈ running s' ∧ request_id (heap s' !!! r) = rid) ∧
  finished_req_ids s' = [].
Proof.
  do 2 eexists. split; [vm_compute; reflexivity|]. split; [vm_compute; reflexivity|].
  eapply (schedule_within_budget pairing_hash false demo_added);
    [apply demo_added_reach|vm_compute; reflexivity].
Defined.

(** C9: [schedule] terminates: in any state whatsoever, its three [while] loops
    stop within the bounds the model gives them. *)
Theorem schedule_terminates py_hash la s : schedule py_hash la s ≠ Raise OutOfFuel.
Proof.
  have := safe_schedule py_hash la s. rw /wp. destruct (schedule py_hash la s) as [[? ?]|e]; first done.
  by move=> H [Heq]; subst.
Qed.
