(* ===== verification/SchedLife.v ===== *)
(** The life cycle of requests in the scheduler: finishing and aborting,
    processing the model's output, stop conditions, rescheduling after a stop,
    and the encoder cache. *)
From Stdlib Require Import ssreflect ZArith Lia PrimFloat.
From stdpp Require Import base numbers list gmap strings.
From S2P Require Import Prelude SamplingParams KVCacheBlock Request FreeQueue BlockHash KVCacheManager KVInvariant KVOps KVSwap KVSafety EncoderCache Scheduler SchedInv SchedStep SchedOutput SchedFuel SchedTheorems.

(** * Deleting keys *)
Lemma elem_of_set_of x ids l : x ∈ foldl (λ acc x, set_add x acc) l ids ↔ x ∈ l ∨ x ∈ ids.
Proof.
  elim: ids l => [|y ids IH] l /=; first by rw elem_of_nil; tauto.
  rw IH elem_of_set_add elem_of_cons. tauto.
Qed.
Lemma dget_ddel_all {V} ids (d : dict string V) rid :
  dict_wf d →
  dget (foldl (λ d x, ddel d x) d ids) rid = if decide (rid ∈ ids) then None else dget d rid.
Proof.
  elim: ids d => [|x ids IH] d Hd; first by case_decide as Hin; [apply elem_of_nil in Hin|].
  cbn [foldl]. rw IH; first auto with py. rw dget_ddel //. repeat case_decide; set_solver.
Qed.

(** * Finishing *)

(** [finish_requests] (the abort path) returns from every reachable state
    and forgets exactly the given requests: they are in no queue and have no
    block table, every other request stays registered as it was, and the
    bookkeeping stays consistent. *)
Theorem finish_requests_removes py_hash s ids fs :
  sched_reach py_hash s → status_is_finished fs = true →
  ∃ s', finish_requests ids fs s = Ok (tt, s') ∧
    (∀ rid, dget (requests s') rid = if decide (rid ∈ ids) then None else dget (requests s) rid) ∧
    (∀ r, r ∈ running s' ++ waiting s' → request_id (heap s' !!! r) ∉ ids) ∧
    (∀ r, r ∈ running s ++ waiting s → request_id (heap s !!! r) ∉ ids → r ∈ running s' ++ waiting s') ∧
    (∀ rid, rid ∈ ids → dget (req_to_blocks (kv_cache_manager s')) rid = None) ∧
    sched_inv s'.
Proof.
  move=> /sched_reach_ok [HI _ _] Hfs.
  assert (Hwp : wp (finish_requests ids fs) s (λ _ s', sched_inv s' ∧
    ∀ rid, dget (requests s') rid = if decide (rid ∈ ids) then None else dget (requests s) rid) no_exn).
  { apply wp_finish_requests; [done|done|]. move=> s' HI' _ _ Hr. split; first done. move=> rid.
    rw Hr dget_ddel_all; first apply (si_requests _ _ _ HI).
    apply decide_ext. rw elem_of_set_of elem_of_nil. tauto. }
  destruct (wp_returns _ _ _ Hwp) as ([] & s' & Hrun & HI' & Hreq).
  exists s'. split_and!; [done|done| | | |done].
  - move=> r Hr Hin. have := si_known _ _ _ HI' r Hr. by rw Hreq decide_True.
  - move=> r Hr Hin. have Hk := si_known _ _ _ HI r Hr.
    apply (si_only _ _ _ HI' (rid_of s r)). by rw Hreq decide_False.
  - move=> rid Hin. apply eq_None_not_Some => Ht. have := si_tables _ _ _ HI' rid Ht.
    rw Hreq decide_True //.
Qed.
Lemma finish_requests_removes_witness :
  ∃ s', finish_requests ["a"] FINISHED_ABORTED demo_scheduled = Ok (tt, s') ∧
    (∀ rid, dget (requests s') rid = if decide (rid ∈ ["a"]) then None else dget (requests demo_scheduled) rid) ∧
    (∀ r, r ∈ running s' ++ waiting s' → request_id (heap s' !!! r) ∉ ["a"]) ∧
    (∀ r, r ∈ running demo_scheduled ++ waiting demo_scheduled →
       request_id (heap demo_scheduled !!! r) ∉ ["a"] → r ∈ running s' ++ waiting s') ∧
    (∀ rid, rid ∈ ["a"] → dget (req_to_blocks (kv_cache_manager s')) rid = None) ∧
    sched_inv s'.
Proof.
  exact (finish_requests_removes pairing_hash demo_scheduled ["a"%string] FINISHED_ABORTED
    demo_scheduled_reach eq_refl).
Defined.

(** * Processing the model's output *)

(** [update_from_output]: the ids it reports as stopped are exactly those
    of the outputs marked finished; no stopped request is left in a queue, and
    every request that did not stop is still queued. *)
Theorem update_from_output_stops py_hash s o m outs stopped s' :
  sched_reach py_hash s → update_from_output o m s = Ok ((outs, stopped), s') →
  (∀ rid, rid ∈ stopped ↔ ∃ e, e ∈ outs ∧ eco_request_id e = rid ∧ eco_finished e = true) ∧
  (∀ r, r ∈ running s' ++ waiting s' → request_id (heap s' !!! r) ∉ stopped) ∧
  (∀ r, r ∈ running s ++ waiting s → request_id (heap s !!! r) ∉ stopped → r ∈ running s' ++ waiting s').
Proof.
  move=> /sched_reach_ok [HI _ _] Hrun. by_wp Hrun. apply wp_update_from_output; [done|done|by left|].
  move=> outs1 stopped1 s1 _ _ _ H1 H2 H3 _. by split_and!.
Qed.
(** The runner sampled token 7 for request a and nothing for b yet. *)
Definition demo_model_output : ModelRunnerOutput :=
  {| req_id_to_index := [("a"%string, 0); ("b"%string, 1)]; sampled_token_ids := [7; 8]%Z;
     mro_new_token_ids := []; bad_ids := [] |}.
Definition demo_output : SchedulerOutput :=
  {| out_scheduled_new_reqs := []; out_scheduled_resumed_reqs := []; out_scheduled_running_reqs := [];
     out_num_scheduled_tokens := [("a"%string, 10%Z); ("b"%string, 10%Z)]; total_num_scheduled_tokens := 20;
     out_scheduled_encoder_inputs := []; preempted_req_ids := []; out_finished_req_ids := [];
     free_encoder_input_ids := []; blocks_to_swap_in := None; blocks_to_swap_out := None; counter := 0 |}.
Lemma update_from_output_stops_witness :
  ∃ outs stopped s', update_from_output demo_output demo_model_output demo_scheduled = Ok ((outs, stopped), s') ∧
  (∀ rid, rid ∈ stopped ↔ ∃ e, e ∈ outs ∧ eco_request_id e = rid ∧ eco_finished e = true) ∧
  (∀ r, r ∈ running s' ++ waiting s' → request_id (heap s' !!! r) ∉ stopped) ∧
  (∀ r, r ∈ running demo_scheduled ++ waiting demo_scheduled →
     request_id (heap demo_scheduled !!! r) ∉ stopped → r ∈ running s' ++ waiting s').
Proof.
  do 3 eexists. split; [vm_compute; reflexivity|].
  eapply (update_from_output_stops pairing_hash demo_scheduled demo_output demo_model_output);
    [apply demo_scheduled_reach|vm_compute; reflexivity].
Defined.

(** * Stop conditions *)

(** What [_check_stop] does to a registered request that has a last token. *)
Lemma wp_check_stop_decides R W r s tok :
  sinv R W s → r ∈ R ++ W → last (output_token_ids (heap s !!! r)) = Some tok →
  let q := heap s !!! r in
  let capped := (max_model_len (config s) <= num_tokens q ∨ max_tokens q <= num_output_tokens q)%Z in
  let eos := ignore_eos (sampling_params q) = false ∧ eos_token_id q = Some tok in
  let stop := tok ∈ default [] (stop_token_ids (sampling_params q)) in
  wp (check_stop r) s (λ b s',
    (b = true ↔ capped ∨ eos ∨ stop) ∧
    (b = false → s' = s) ∧
    (b = true →
      (request_status (heap s' !!! r) = FINISHED_LENGTH_CAPPED ∧ capped ∨
       request_status (heap s' !!! r) = FINISHED_STOPPED ∧ ¬ capped) ∧
      (¬ capped → ¬ eos → stop_reason (heap s' !!! r) = Some tok) ∧
      dget (requests s') (request_id q) = None ∧
      dget (req_to_blocks (kv_cache_manager s')) (request_id q) = None ∧
      request_id q ∈ finished_req_ids s')) no_exn.
Proof.
  move=> HI HrRW Hlast q capped eos stop.
  have Hlt := si_range _ _ _ HI r HrRW. have Hkn := si_known _ _ _ HI r HrRW.
  assert (Hfree : ∀ s1 (Q : bool → Scheduler → Prop), only_req r s s1 → kv_cache_manager s1 = kv_cache_manager s →
    is_finished (heap s1 !!! r) = true →
    (∀ s', heap s' = heap s1 → dget (requests s') (request_id q) = None ∧
      dget (req_to_blocks (kv_cache_manager s')) (request_id q) = None ∧
      request_id q ∈ finished_req_ids s' → Q true s') →
    wp (free_request r;;; mret true) s1 Q no_exn).
  { move=> s1 Q O1 K1 H1 HQ. wp_step.
    apply wp_free_request; [rw K1; apply (si_kv _ _ _ HI)|done|by rw (oq_requests _ _ _ O1) (oq_id _ _ _ O1) Hkn|].
    rw (oq_id _ _ _ O1) (oq_requests _ _ _ O1).
    move=> s2 F2 K2 H2 Q2 R2 W2 T2 F3. wp_step. apply HQ; first done. split_and!; [|done|].
    - rw Q2 dget_ddel_eq //. apply (si_requests _ _ _ HI).
    - rw F3 elem_of_set_add. by left. }
  rw /check_stop /sched_config {1}/req. do 4 wp_step. fold q. wp_step.
  { have Hc : capped by rw /capped; lia.
    wp_step. apply wp_upd_req; [done|done|]. move=> s1 _ O1 H1 K1. apply Hfree; [done|done|by rw H1|].
    move=> s' Hh Hg. rw Hh H1. split_and!; [tauto|done|]. move=> _. split; [left; done|tauto]. }
  have Hnc : ¬ capped by rw /capped; lia.
  fold q in Hlast. rw Hlast. wp_step.
  { have He : eos by rw /eos; destruct (ignore_eos _); [done|]; case_bool_decide; [done|done].
    wp_step. apply wp_upd_req; [done|done|]. move=> s1 _ O1 H1 K1. apply Hfree; [done|done|by rw H1|].
    move=> s' Hh Hg. rw Hh H1. split_and!; [tauto|done|]. move=> _. split; [right; done|tauto]. }
  have Hne : ¬ eos by move=> [E1 E2]; rw E1 E2 bool_decide_eq_true_2 // in Heqb0.
  wp_step.
  { apply bool_decide_eq_true in Heqb1. fold stop in Heqb1.
    wp_step. apply wp_upd_req; [done|done|]. move=> s1 _ O1 H2 K1.
    wp_step. apply wp_upd_req; [by rw (oq_len _ _ _ O1)|done|]. move=> s2 _ O2 H3 K2.
    apply Hfree; [by eapply only_req_trans|by rw K2|by rw H3 H2|].
    move=> s' Hh Hg. rw Hh H3 H2. split_and!; [tauto|done|]. move=> _. split; [right; done|tauto]. }
  apply bool_decide_eq_false in Heqb1. wp_step. split_and!; [|done|done]. split; [done|tauto].
Qed.

(** C10: [_check_stop] on a running request that has produced a token: it
    returns, and says stop exactly when the length cap is reached or the last
    token is the end-of-sequence token (unless ignored) or a stop token. When it
    goes on nothing changes; when it stops the request gets the right final
    status, its blocks are released and it is reported as finished. *)
Theorem check_stop_decides py_hash s r tok :
  sched_reach py_hash s → r ∈ running s →
  last (output_token_ids (heap s !!! r)) = Some tok →
  let q := heap s !!! r in
  let capped := (max_model_len (config s) <= num_tokens q ∨ max_tokens q <= num_output_tokens q)%Z in
  let eos := ignore_eos (sampling_params q) = false ∧ eos_token_id q = Some tok in
  let stop := tok ∈ default [] (stop_token_ids (sampling_params q)) in
  ∃ b s', check_stop r s = Ok (b, s') ∧
    (b = true ↔ capped ∨ eos ∨ stop) ∧
    (b = false → s' = s) ∧
    (b = true →
      (request_status (heap s' !!! r) = FINISHED_LENGTH_CAPPED ∧ capped ∨
       request_status (heap s' !!! r) = FINISHED_STOPPED ∧ ¬ capped) ∧
      (¬ capped → ¬ eos → stop_reason (heap s' !!! r) = Some tok) ∧
      dget (requests s') (request_id q) = None ∧
      dget (req_to_blocks (kv_cache_manager s')) (request_id q) = None ∧
      request_id q ∈ finished_req_ids s').
Proof.
  move=> /sched_reach_ok [HI _ _] Hin Hlast q capped eos stop. apply (wp_returns (check_stop r)).
  apply (wp_check_stop_decides _ _ r s tok HI); [apply elem_of_app; by left|done].
Qed.
(** Request a has produced its first token. *)
Definition demo_updated : Scheduler :=
  demo_sched_run [Add (ten "a"); Add (ten "b"); Schedule false; Update demo_output demo_model_output].
Lemma demo_updated_reach : sched_reach pairing_hash demo_updated.
Proof.
  eapply (sched_reach_call _ demo_scheduled (Update demo_output demo_model_output));
    [apply demo_scheduled_reach|done|vm_compute; reflexivity].
Qed.
Lemma check_stop_decides_witness :
  0 ∈ running demo_updated ∧ last (output_token_ids (heap demo_updated !!! 0)) = Some 7%Z ∧
  ∃ b s', check_stop 0 demo_updated = Ok (b, s') ∧ (b = false → s' = demo_updated).
Proof.
  have Hr : 0 ∈ running demo_updated by apply (bool_decide_unpack _); vm_compute.
  have Hl : last (output_token_ids (heap demo_updated !!! 0)) = Some 7%Z by vm_compute.
  split_and!; [exact Hr|exact Hl|].
  destruct (check_stop_decides pairing_hash demo_updated 0 7%Z demo_updated_reach Hr Hl)
    as (b & s' & H1 & _ & H2 & _).
  exists b, s'. split; [exact H1|exact H2].
Defined.

(** * Every request finishes *)

(** The tokens sampled for one request, step after step, until it stops. *)
Fixpoint feed_tokens (r : nat) (rid : string) (toks : list Z) (acc : list EngineCoreOutput * list string)
    : SC (list EngineCoreOutput * list string) :=
  match toks with
  | [] => mret acc
  | tok :: toks =>
    acc ← take_token r rid tok acc;
    if bool_decide (rid ∈ acc.2) then mret acc else feed_tokens r rid toks acc
  end.

Lemma wp_feed_tokens R W r rid toks : ∀ s acc,
  sinv R W s → r ∈ R ++ W → rid_of s r = rid → rid ∉ acc.2 → toks ≠ [] →
  (max_tokens (heap s !!! r) - num_output_tokens (heap s !!! r) ≤ Z.of_nat (length toks))%Z →
  wp (feed_tokens r rid toks acc) s
    (λ acc' s', rid ∈ acc'.2 ∧ is_finished (heap s' !!! r) = true ∧ dget (requests s') rid = None ∧
       (Z.of_nat (length acc'.1) ≤ Z.of_nat (length acc.1) +
          Z.max 1 (max_tokens (heap s !!! r) - num_output_tokens (heap s !!! r)))%Z) no_exn.
Proof.
  induction toks as [|tok toks IH] => s acc HI Hr Hid Hacc Hne Hlen; first done.
  have Hlt := si_range _ _ _ HI r Hr. cbn [feed_tokens]. rw /take_token. do 2 wp_step.
  eapply wp_upd_req_keep; [exact HI|exact Hr|done|done|]. move=> s1 Es1 HI1 O1.
  have Hq : heap s1 !!! r = append_output_token_ids [tok] (heap s !!! r).
  { by rw Es1 /= list_lookup_total_alter_eq. }
  have Hlast : last (output_token_ids (heap s1 !!! r)) = Some tok by rw Hq /= last_snoc.
  have Hnum : num_output_tokens (heap s1 !!! r) = (num_output_tokens (heap s !!! r) + 1)%Z.
  { rw Hq /num_output_tokens /= length_app /=. lia. }
  have Hmax : max_tokens (heap s1 !!! r) = max_tokens (heap s !!! r) by rw Hq.
  wp_step. eapply wp_mono; [exact (wp_check_stop_decides R W r s1 tok HI1 Hr Hlast)| |done].
  move=> b s2. cbn zeta. rw Hnum Hmax. move=> [D1 [D2 D3]]. rw /req. do 3 wp_step.
  destruct b; simpl.
  - rw bool_decide_eq_true_2; first by apply elem_of_set_add; left. wp_step.
    destruct (D3 eq_refl) as (Hst & _ & Hrq & _). rw -/(rid_of s1 r) (oq_id _ _ _ O1) Hid in Hrq.
    split_and!; [apply elem_of_set_add; by left| |done|rw length_app /=; lia].
    rw /is_finished. by destruct Hst as [[-> _]|[-> _]].
  - rw bool_decide_eq_false_2 //. have Es := D2 eq_refl. subst s2.
    have Hnc : ¬ (max_tokens (heap s !!! r) ≤ num_output_tokens (heap s !!! r) + 1)%Z.
    { move=> Hc. have : false = true; [|done]. apply D1. left. by right. }
    rw length_cons in Hlen. eapply wp_mono; [apply IH| |done].
    + exact HI1.
    + done.
    + by rw (oq_id _ _ _ O1).
    + done.
    + destruct toks; [simpl in Hlen; lia|done].
    + rw Hnum Hmax. lia.
    + move=> acc' s' [? [? [? Hb]]]. split_and!; try done. rw Hnum Hmax length_app /= in Hb. lia.
Qed.

(** C11: every request finishes. In a reachable scheduler, a registered request
    that is given sampled tokens one after the other stops after at most
    [max_tokens] minus the tokens it already has (at least one): it is reported as
    stopped, gets a final status and is no longer registered, so a request cannot
    occupy the engine for ever as long as the model produces tokens for it. *)
Theorem request_finishes py_hash s r toks :
  sched_reach py_hash s → r ∈ running s ++ waiting s → toks ≠ [] →
  let q := heap s !!! r in
  (max_tokens q - num_output_tokens q ≤ Z.of_nat (length toks))%Z →
  ∃ acc s', feed_tokens r (request_id q) toks ([], []) s = Ok (acc, s') ∧
    request_id q ∈ acc.2 ∧ is_finished (heap s' !!! r) = true ∧ dget (requests s') (request_id q) = None ∧
    (Z.of_nat (length acc.1) ≤ Z.max 1 (max_tokens q - num_output_tokens q))%Z.
Proof.
  move=> /sched_reach_ok [HI _ _] Hr Hne q Hlen. apply (wp_returns (feed_tokens r (request_id q) toks ([], []))).
  apply (wp_feed_tokens (running s) (waiting s) r (request_id q) toks s ([], [])); try done. by apply not_elem_of_nil.
Qed.
Lemma request_finishes_witness :
  0 ∈ running demo_updated ++ waiting demo_updated ∧
  ∃ acc s', feed_tokens 0 (request_id (heap demo_updated !!! 0)) (replicate 40 5%Z) ([], []) demo_updated = Ok (acc, s') ∧
    is_finished (heap s' !!! 0) = true.
Proof.
  assert (Hr : 0 ∈ running demo_updated ++ waiting demo_updated) by (apply (bool_decide_unpack _); vm_compute; exact I).
  split; [exact Hr|].
  destruct (request_finishes pairing_hash demo_updated 0 (replicate 40 5%Z) demo_updated_reach Hr)
    as (acc & s' & H1 & _ & H2 & _); [discriminate|apply (bool_decide_unpack _); vm_compute; exact I|].
  exists acc, s'. split; [exact H1|exact H2].
Defined.

(** * Rescheduling *)
Lemma dsum_ddel_all f (d : dict string Z) ids :
  dict_wf d → NoDup ids →
  dsum f (foldl (λ d x, ddel d x) d ids) =
    (dsum f d - foldr (λ x t, from_option f 0 (dget d x) + t) 0 ids)%Z.
Proof.
  elim: ids d => [|x ids IH] d Hd /=; first lia. move=> /NoDup_cons [Hx Hn].
  rw IH //; first auto with py. rw dsum_ddel.
  have -> : foldr (λ y t, from_option f 0 (dget (ddel d x) y) + t)%Z 0%Z ids
    = foldr (λ y t, from_option f 0 (dget d y) + t)%Z 0%Z ids; last lia.
  elim: ids Hx {IH Hn} => [|y ids IH] Hx //=. rw IH; first set_solver.
  rw dget_ddel_ne //. set_solver.
Qed.

(** [reschedule] drops exactly the stopped requests from an output that is
    already being prepared: none of them is handed to the workers, the other
    entries stay, the total is the sum of the rest, and the tokens of the
    stopped requests are what is missing from it. *)
Theorem reschedule_drops s o stopped :
  dict_wf (out_num_scheduled_tokens o) → NoDup stopped →
  let o' := reschedule s o stopped in
  (∀ rid, dget (out_num_scheduled_tokens o') rid =
     if decide (rid ∈ stopped) then None else dget (out_num_scheduled_tokens o) rid) ∧
  total_num_scheduled_tokens o' = dsum id (out_num_scheduled_tokens o') ∧
  (total_num_scheduled_tokens o' + foldr (λ rid t, default 0 (dget (out_num_scheduled_tokens o) rid) + t) 0 stopped
     = dsum id (out_num_scheduled_tokens o))%Z ∧
  (∀ d, d ∈ out_scheduled_running_reqs o' ↔
     d ∈ out_scheduled_running_reqs o ∧ run_req_id (data_heap s !!! d) ∉ stopped) ∧
  (∀ d, d ∈ out_scheduled_new_reqs o' ↔ d ∈ out_scheduled_new_reqs o ∧ nrd_req_id d ∉ stopped) ∧
  (∀ d, d ∈ out_scheduled_resumed_reqs o' ↔ d ∈ out_scheduled_resumed_reqs o ∧ rrd_req_id d ∉ stopped) ∧
  (∀ rid, rid ∈ out_finished_req_ids o' ↔ rid ∈ out_finished_req_ids o ∨ rid ∈ stopped).
Proof.
  move=> Hd Hn o'. split_and!.
  - move=> rid. by apply dget_ddel_all.
  - done.
  - rw /o' /= dsum_ddel_all //. set f := foldr _ _ stopped. lia.
  - move=> d. rw /o' /= list_elem_of_filter. tauto.
  - move=> d. rw /o' /= list_elem_of_filter. tauto.
  - move=> d. rw /o' /= list_elem_of_filter. tauto.
  - move=> rid. apply elem_of_set_of.
Qed.
Lemma reschedule_drops_witness :
  let o' := reschedule demo_scheduled demo_output ["a"%string] in
  total_num_scheduled_tokens o' = 10%Z ∧
  (total_num_scheduled_tokens o' +
    foldr (λ rid t, default 0 (dget (out_num_scheduled_tokens demo_output) rid) + t) 0 ["a"%string]
     = dsum id (out_num_scheduled_tokens demo_output))%Z.
Proof.
  split; [reflexivity|].
  apply (reschedule_drops demo_scheduled demo_output ["a"%string]);
    apply (bool_decide_unpack _); vm_compute; reflexivity.
Defined.

(** * Encoder inputs *)

(** The encoder tokens of some inputs of a request. *)
Definition encoder_tokens (q : Request) (ids : list nat) : Z :=
  foldr (λ i t, (default 0 (pr_length <$> mm_positions q !! i) + t)%Z) 0%Z ids.
(** Input [p] overlaps the tokens computed in this step. *)
Definition overlaps (c n : Z) (p : PlaceholderRange) : Prop :=
  (pr_offset p < c + n ∧ c < pr_offset p + pr_length p)%Z.

Lemma encoder_tokens_snoc q ids i p :
  mm_positions q !! i = Some p → encoder_tokens q (ids ++ [i]) = (encoder_tokens q ids + pr_length p)%Z.
Proof.
  move=> Hp. rw /encoder_tokens foldr_app /= Hp /=. elim: ids => [|j ids IH] /=; [lia|].
  rw IH. lia.
Qed.

Section encoder.
Context (m : EncoderCacheManager) (q : Request) (c : Z).
Context (Hsorted : ∀ i j p p', i < j → mm_positions q !! i = Some p → mm_positions q !! j = Some p' →
  (pr_offset p < pr_offset p')%Z).

(** Every input before position [k] that the step needs is cached or taken. *)
Definition covered (k : nat) (n : Z) (acc : list nat) : Prop :=
  ∀ i p, i < k → mm_positions q !! i = Some p → overlaps c n p → has_cache m q i = true ∨ i ∈ acc.
(** What the loop from position [k] returns. *)
Record encoder_post (k : nat) (acc : list nat) (n b : Z) (ids : list nat) (n' b' : Z) : Prop := {
  ep_tokens : (n' ≤ n)%Z;
  ep_covered : covered (length (mm_positions q)) n' ids;
  ep_new : ∃ new, ids = acc ++ new ∧ b = (b' + encoder_tokens q new)%Z ∧
    ∀ i, i ∈ new → has_cache m q i = false ∧ k ≤ i;
  ep_budget : (0 ≤ b)%Z → (0 ≤ b')%Z;
}.

Lemma encoder_post_refl k acc n n' b :
  (n' ≤ n)%Z → covered (length (mm_positions q)) n' acc → encoder_post k acc n b acc n' b.
Proof.
  move=> H1 H2. split; [done|done| |done]. exists []. rw app_nil_r /=. split_and!; [done|lia|set_solver].
Qed.
Lemma covered_stop k acc n n' p :
  mm_positions q !! k = Some p → covered k n acc → (n' ≤ n)%Z → (c + n' ≤ pr_offset p)%Z →
  covered (length (mm_positions q)) n' acc.
Proof.
  move=> Hp Hc Hn Hs i p' _ Hp' [Ho1 Ho2].
  destruct (decide (i < k)); first by apply (Hc i p'); [done|done|rw /overlaps; lia].
  destruct (decide (i = k)) as [->|]; first by simplify_eq; lia.
  have := Hsorted k i p p' ltac:(lia) Hp Hp'. lia.
Qed.
Lemma covered_next k acc n p :
  mm_positions q !! k = Some p → covered k n acc →
  (overlaps c n p → has_cache m q k = true ∨ k ∈ acc) → covered (S k) n acc.
Proof.
  move=> Hp Hc Hk i p' Hi Hp'. destruct (decide (i = k)) as [-> |]; first by simplify_eq.
  apply Hc; [lia|done].
Qed.
Lemma encoder_post_skip k acc n b ids n' b' :
  encoder_post (S k) acc n b ids n' b' → encoder_post k acc n b ids n' b'.
Proof.
  move=> [H1 H2 [new [H3 [H4 H5]]] H6]. split; [done|done| |done]. exists new.
  split_and!; [done|done|]. move=> i /H5 [? ?]. split; [done|lia].
Qed.
Lemma encoder_post_take k acc n b ids n' b' p :
  mm_positions q !! k = Some p → has_cache m q k = false → (pr_length p ≤ b)%Z →
  encoder_post (S k) (acc ++ [k]) n (b - pr_length p) ids n' b' → encoder_post k acc n b ids n' b'.
Proof.
  move=> Hp Hc Hb [H1 H2 [new [H3 [H4 H5]]] H6]. split; [done|done| |lia]. exists (k :: new).
  split_and!; [by rw H3 -app_assoc|rw /= Hp /=; lia|].
  move=> i /elem_of_cons [Hi|Hi]; [subst; split; [done|lia]|]. destruct (H5 i Hi). split; [done|lia].
Qed.

Lemma encoder_loop_covers positions : ∀ k acc n b ids n' b',
  drop k (mm_positions q) = positions → covered k n acc →
  encoder_inputs_loop m q c k positions acc n b = Ok (ids, n', b') →
  encoder_post k acc n b ids n' b'.
Proof.
  induction positions as [|p positions IH] => k acc n b ids n' b' Hk Hacc /=.
  { move=> [<- <- <-]. apply encoder_post_refl; [done|]. move=> i p Hi. apply Hacc.
    move: (f_equal length Hk). rw length_drop /=. lia. }
  have Hp : mm_positions q !! k = Some p by rw -(Nat.add_0_r k) -lookup_drop Hk.
  have Hk' : drop (S k) (mm_positions q) = positions by rw -Nat.add_1_r -drop_drop Hk.
  destruct (Z.leb_spec (c + n) (pr_offset p)) as [H1|H1].
  { move=> [<- <- <-]. apply encoder_post_refl; [done|by eapply covered_stop]. }
  destruct (Z.leb_spec (pr_offset p + pr_length p) c) as [H2|H2].
  { move=> /(IH _ _ _ _ _ _ _ Hk') H. apply encoder_post_skip, H. eapply covered_next; [done|done|].
    rw /overlaps. lia. }
  destruct (has_cache m q k) eqn:Hc.
  { move=> /(IH _ _ _ _ _ _ _ Hk') H. apply encoder_post_skip, H.
    eapply covered_next; [done|done|]. by left. }
  rw /can_allocate /get_num_encoder_tokens Hp /=.
  destruct (negb _ || _) eqn:Hfull.
  { move=> [<- <- <-]. apply encoder_post_refl; [lia|eapply covered_stop; [done|done|lia|lia]]. }
  move=> /(IH _ _ _ _ _ _ _ Hk') H. apply (encoder_post_take _ _ _ _ _ _ _ p); [done|done| |apply H].
  - apply orb_false_iff in Hfull as [_ Hb]. lia.
  - eapply covered_next; [done| |].
    + move=> i p' H3 H4 H5. destruct (Hacc i p' H3 H4 H5); [by left|right; set_solver].
    + right. set_solver.
Qed.
End encoder.

(** [_try_schedule_encoder_inputs], for placeholders in the order of their
    offsets: it never schedules more tokens than asked for, every encoder input
    that overlaps the tokens it lets through is cached or scheduled now, an
    input it schedules is not cached yet, and the encoder budget pays exactly
    for the scheduled inputs without being overdrawn. *)
Theorem encoder_inputs_complete m q c n b ids n' b' :
  (∀ i j p p', i < j → mm_positions q !! i = Some p → mm_positions q !! j = Some p' →
     (pr_offset p < pr_offset p')%Z) →
  has_encoder_inputs q = true →
  try_schedule_encoder_inputs m q c n b = Ok (ids, n', b') →
  (n' ≤ n)%Z ∧
  (∀ i p, mm_positions q !! i = Some p → overlaps c n' p → has_cache m q i = true ∨ i ∈ ids) ∧
  (∀ i, i ∈ ids → has_cache m q i = false) ∧
  b = (b' + encoder_tokens q ids)%Z ∧ ((0 ≤ b)%Z → (0 ≤ b')%Z).
Proof.
  move=> Hs He. rw /try_schedule_encoder_inputs He /=. case_bool_decide; first done.
  move=> /(encoder_loop_covers m q c Hs (mm_positions q) 0 [] n b ids n' b' eq_refl) Hpost.
  destruct Hpost as [H1 H2 (new & -> & H4 & H5) H6]; first by move=> i p Hi; lia.
  split_and!; [done| |by move=> i /H5 []|done|done].
  move=> i p Hp. eapply H2; [by eapply lookup_lt_Some|done].
Qed.

(** Two images of three tokens each in a ten-token prompt. *)
Definition two_images (id : string) : Request :=
  match from_engine_core_request
    {| ecr_request_id := id; ecr_prompt := None; ecr_prompt_token_ids := Z.of_nat <$> seq 0 10;
       ecr_mm_inputs := Some [Some {| mmk_handle := 0 |}; Some {| mmk_handle := 1 |}];
       ecr_mm_hashes := Some ["x"; "y"]%string;
       ecr_mm_placeholders := Some [("image"%string,
         [{| pr_offset := 0; pr_length := 3 |}; {| pr_offset := 4; pr_length := 3 |}])];
       ecr_sampling_params := default_sampling_params;
       ecr_eos_token_id := None; ecr_arrival_time := 0 |} with
  | Ok r => r | Raise _ => inhabitant end.
Lemma encoder_inputs_complete_witness :
  try_schedule_encoder_inputs (encoder_cache_init 8) (two_images "a") 0 10 8 = Ok ([0; 1]%nat, 10%Z, 2%Z) ∧
  (10 ≤ 10)%Z ∧
  (∀ i p, mm_positions (two_images "a") !! i = Some p → overlaps 0 10 p →
     has_cache (encoder_cache_init 8) (two_images "a") i = true ∨ i ∈ [0; 1]%nat) ∧
  (∀ i, i ∈ [0; 1]%nat → has_cache (encoder_cache_init 8) (two_images "a") i = false) ∧
  8%Z = (2 + encoder_tokens (two_images "a") [0; 1]%nat)%Z ∧ ((0 ≤ 8)%Z → (0 ≤ 2)%Z).
Proof.
  split; [vm_compute; reflexivity|].
  apply (encoder_inputs_complete (encoder_cache_init 8) (two_images "a") 0 10 8);
    [|vm_compute; reflexivity|vm_compute; reflexivity].
  intros [|[|i]] [|[|j]] p p' Hij Hp Hp'; try lia; vm_compute in Hp, Hp'; simplify_eq; simpl; lia.
Defined.

(** Scheduling it with a cache of four slots and a budget of eight tokens. *)
Definition demo_images : Scheduler := demo_sched_run [Add (two_images "a"); Schedule false].
Definition demo_images_aborted : Scheduler :=
  demo_sched_run [Add (two_images "a"); Schedule false; Finish ["a"%string] FINISHED_ABORTED].
Lemma demo_images_reach : sched_reach pairing_hash demo_images.
Proof.
  eapply (sched_reach_call _ (demo_sched_run [Add (two_images "a")]) (Schedule false));
    [|done|vm_compute; reflexivity].
  eapply (sched_reach_call _ demo_scheduler (Add (two_images "a")));
    [apply demo_scheduler_reach|vm_compute; done|vm_compute; reflexivity].
Qed.

(** The encoder cache can be overdrawn: [can_allocate] is asked for every
    input against the slots that are free before the step, so two inputs that
    fit only one at a time are both scheduled and the number of free slots
    becomes negative. *)
Theorem encoder_cache_overdrawn :
  ∃ s, sched_reach pairing_hash s ∧ num_free_slots (encoder_cache_manager s) = (-2)%Z.
Proof. exists demo_images. split; [apply demo_images_reach|vm_compute; reflexivity]. Qed.

(** The scheduler never returns encoder slots: after the only request has
    been aborted and nothing is registered or queued, its inputs still occupy
    the encoder cache. *)
Theorem encoder_slots_not_returned :
  ∃ s, sched_reach pairing_hash s ∧ requests s = [] ∧ running s = [] ∧ waiting s = [] ∧
    (num_free_slots (encoder_cache_manager s) < cache_size (encoder_cache_manager s))%Z ∧
    freed (encoder_cache_manager s) = [].
Proof.
  exists demo_images_aborted. split; [|vm_compute; done].
  eapply (sched_reach_call _ demo_images (Finish ["a"%string] FINISHED_ABORTED));
    [apply demo_images_reach|done|vm_compute; reflexivity].
Qed.
