(* ===== verification/LRUCache.v ===== *)
(** The LRU cache: class [LRUCache] of vllm/utils.py. The [OrderedDict] is a
    dictionary whose order is the order of use, oldest first. *)
From Stdlib Require Import ssreflect ZArith Lia.
From stdpp Require Import base numbers list gmap strings.
From S2P Require Import Prelude.

Record LRUCache (K V : Type) := {
  lru_cache : dict K V;
  pinned_items : list K;
  lru_capacity : Z;
}.
Arguments lru_cache {K V} l.
Arguments pinned_items {K V} l.
Arguments lru_capacity {K V} l.

Section lru.
Context {K V : Type} `{EqDecision K}.
Implicit Types (c : LRUCache K V) (k : K) (v : V).

Definition lru_init (capacity : Z) : LRUCache K V :=
  {| lru_cache := []; pinned_items := []; lru_capacity := capacity |}.
Definition set_lru_cache (d : dict K V) c : LRUCache K V :=
  {| lru_cache := d; pinned_items := pinned_items c; lru_capacity := lru_capacity c |}.
Definition set_pinned_items (p : list K) c : LRUCache K V :=
  {| lru_cache := lru_cache c; pinned_items := p; lru_capacity := lru_capacity c |}.

Definition lru_contains (k : K) (c : LRUCache K V) : bool := dmem (lru_cache c) k.
Definition lru_len (c : LRUCache K V) : Z := Z.of_nat (length (lru_cache c)).

(** [OrderedDict.move_to_end] *)
Definition move_to_end (d : dict K V) (k : K) : result (dict K V) :=
  match dget d k with
  | Some v => Ok (ddel d k ++ [(k, v)])
  | None => Raise (KeyError "move_to_end")
  end.
Definition lru_touch (k : K) : M (LRUCache K V) unit :=
  c ← mget; d ← mlift (move_to_end (lru_cache c) k); mput (set_lru_cache d c).

(** [__getitem__] *)
Definition lru_getitem (k : K) : M (LRUCache K V) V :=
  c ← mget;
  match dget (lru_cache c) k with
  | None => mraise (KeyError "self.cache[key]")
  | Some v => lru_touch k;;; mret v
  end.

Definition lru_get (k : K) (default : option V) : M (LRUCache K V) (option V) :=
  c ← mget;
  match dget (lru_cache c) k with
  | Some v => lru_touch k;;; mret (Some v)
  | None => mret default
  end.

Definition lru_pop (k : K) (default : option V) : M (LRUCache K V) (option V) :=
  c ← mget;
  let value := match dget (lru_cache c) k with Some v => Some v | None => default end in
  mput (set_pinned_items (filter (λ x, x ≠ k) (pinned_items c)) (set_lru_cache (ddel (lru_cache c) k) c));;;
  mret value.

(** The first key that is not pinned. *)
Definition oldest_unpinned (pinned : list K) (d : dict K V) : option K :=
  head (filter (λ x, x ∉ pinned) (dkeys d)).
Definition lru_remove_oldest (remove_pinned : bool) : M (LRUCache K V) unit :=
  c ← mget;
  match lru_cache c with
  | [] => mret tt
  | (k0, _) :: _ =>
    if negb remove_pinned then
      match oldest_unpinned (pinned_items c) (lru_cache c) with
      | None => mraise (RuntimeError "All items are pinned")
      | Some k => lru_pop k None;;; mret tt
      end
    else lru_pop k0 None;;; mret tt
  end.

(** [while len(self.cache) > self.capacity]: every turn removes an item, so one
    more turn than there are items is enough. *)
Fixpoint remove_old_loop (fuel : nat) : M (LRUCache K V) unit :=
  match fuel with
  | 0 => mraise OutOfFuel
  | S fuel =>
    c ← mget;
    if (lru_capacity c <? lru_len c)%Z then lru_remove_oldest false;;; remove_old_loop fuel
    else mret tt
  end.
Definition remove_old_if_needed : M (LRUCache K V) unit :=
  n ← mgets (λ c, length (lru_cache c)); remove_old_loop (S n).

Definition lru_put (k : K) (v : V) : M (LRUCache K V) unit :=
  mmodify (λ c, set_lru_cache (dset (lru_cache c) k v) c);;;
  lru_touch k;;;
  remove_old_if_needed.

Definition lru_pin (k : K) : M (LRUCache K V) unit :=
  c ← mget;
  if negb (lru_contains k c) then mraise (ValueError "Cannot pin key")
  else mput (set_pinned_items (if bool_decide (k ∈ pinned_items c) then pinned_items c
                               else pinned_items c ++ [k]) c).

Fixpoint clear_loop (fuel : nat) : M (LRUCache K V) unit :=
  match fuel with
  | 0 => mraise OutOfFuel
  | S fuel =>
    c ← mget;
    if (0 <? lru_len c)%Z then lru_remove_oldest true;;; clear_loop fuel else mret tt
  end.
Definition lru_clear : M (LRUCache K V) unit :=
  n ← mgets (λ c, length (lru_cache c));
  clear_loop (S n);;;
  mmodify (set_lru_cache []).

(** * Invariant *)

(** Keys are unique, pinned keys are present, and the size is bounded. *)
Record lru_wf (c : LRUCache K V) : Prop := {
  lw_keys : dict_wf (lru_cache c);
  lw_pinned : ∀ k, k ∈ pinned_items c → k ∈ dkeys (lru_cache c);
  lw_size : (lru_len c ≤ lru_capacity c)%Z;
}.

(** * Ordered dictionaries *)
(** The dictionary after a key has been used with a value. *)
Definition used (d : dict K V) k v : dict K V := ddel d k ++ [(k, v)].
Lemma used_wf (d : dict K V) k v : dict_wf d → dict_wf (used d k v).
Proof.
  move=> Hd. rw /used /dict_wf dkeys_app. apply NoDup_app. split_and!.
  - by apply dict_wf_ddel.
  - move=> x Hx /list_elem_of_singleton Hk. subst x. by apply dkeys_ddel in Hx as [? _].
  - apply NoDup_singleton.
Qed.
Lemma elem_of_used (d : dict K V) k v k' : dict_wf d → k' ∈ dkeys (used d k v) ↔ k' = k ∨ k' ∈ dkeys d.
Proof.
  move=> Hd. rw /used dkeys_app elem_of_app dkeys_ddel // list_elem_of_singleton.
  destruct (decide (k' = k)); tauto.
Qed.
Lemma length_used (d : dict K V) k v :
  length (used d k v) = if decide (is_Some (dget d k)) then length d else S (length d).
Proof.
  rw /used length_app /=. case_decide as H.
  - destruct H as [x Hx]. rw (length_ddel _ _ _ Hx). lia.
  - apply eq_None_not_Some in H. rw ddel_notin //. lia.
Qed.
Lemma dget_used (d : dict K V) k v k' : dict_wf d →
  dget (used d k v) k' = if decide (k' = k) then Some v else dget d k'.
Proof.
  move=> Hd. have Hu := used_wf d k v Hd. case_decide as Hk.
  - subst. apply dget_elem; first done. rw /used elem_of_app. right. by left.
  - destruct (dget d k') as [v'|] eqn:E.
    + apply dget_elem; first done. rw /used elem_of_app. left. apply dget_Some_elem. by rw dget_ddel_ne.
    + apply dget_None. rw elem_of_used //. apply dget_None in E. tauto.
Qed.

(** * Behaviour *)
Lemma lru_get_spec c k dflt :
  lru_get k dflt c =
    match dget (lru_cache c) k with
    | Some v => Ok (Some v, set_lru_cache (used (lru_cache c) k v) c)
    | None => Ok (dflt, c)
    end.
Proof.
  rw /lru_get /lru_touch /move_to_end /used /mbind /M_bind /mget /mlift /=.
  by destruct (dget (lru_cache c) k) as [v|] eqn:E; rw ?E.
Qed.

(** The cache after [put] before anything is evicted. *)
Definition inserted c k v : LRUCache K V := set_lru_cache (used (lru_cache c) k v) c.
Lemma lru_put_unfold c k v : lru_put k v c = remove_old_if_needed (inserted c k v).
Proof.
  rw /lru_put /lru_touch /move_to_end /mbind /M_bind /mget /mlift /mmodify /mput /=.
  by rw dget_dset_eq /= ddel_dset.
Qed.
Lemma lru_remove_oldest_spec c k :
  oldest_unpinned (pinned_items c) (lru_cache c) = Some k →
  lru_remove_oldest false c =
    Ok (tt, set_pinned_items (filter (λ x, x ≠ k) (pinned_items c)) (set_lru_cache (ddel (lru_cache c) k) c)).
Proof.
  rw /lru_remove_oldest /lru_pop /mbind /M_bind /mget /mput /=.
  destruct (lru_cache c) as [|[k0 v0] d] eqn:E; first done. move=> -> /=. by rw E.
Qed.
Lemma oldest_unpinned_spec p (d : dict K V) k :
  oldest_unpinned p d = Some k → k ∈ dkeys d ∧ k ∉ p.
Proof.
  rw /oldest_unpinned => Hh. have : k ∈ filter (λ x, x ∉ p) (dkeys d).
  { destruct (filter _ _); simplify_eq/=. by left. }
  rw list_elem_of_filter. tauto.
Qed.
Lemma oldest_unpinned_None p (d : dict K V) k :
  oldest_unpinned p d = None → k ∈ dkeys d → k ∈ p.
Proof.
  rw /oldest_unpinned => H Hk. apply head_None in H. apply dec_stable => Hn.
  have : k ∈ filter (λ x, x ∉ p) (dkeys d) by apply list_elem_of_filter.
  rw H. apply not_elem_of_nil.
Qed.

Lemma inserted_len c k v :
  lru_len (inserted c k v) = (lru_len c + if decide (k ∈ dkeys (lru_cache c)) then 0 else 1)%Z.
Proof.
  rw /lru_len /inserted /= length_used. rw (decide_ext _ _ _ _ (dget_is_Some (lru_cache c) k)).
  case_decide; lia.
Qed.

(** [put] on every branch: the cache without eviction, or without the oldest
    key that is not pinned. *)
Definition evicted c k v (victim : K) : LRUCache K V :=
  set_lru_cache (ddel (used (lru_cache c) k v) victim) c.
Lemma lru_put_spec c k v :
  lru_wf c →
  ∃ c', lru_put k v c = Ok (tt, c') ∧ lru_wf c' ∧
    if decide (k ∈ dkeys (lru_cache c) ∨ (lru_len c < lru_capacity c)%Z)
    then c' = inserted c k v
    else ∃ victim, oldest_unpinned (pinned_items c) (used (lru_cache c) k v) = Some victim ∧
           c' = evicted c k v victim.
Proof.
  move=> [H1 H2 H3]. have Hu := used_wf _ k v H1. have Hlen := inserted_len c k v.
  have Hkeys := elem_of_used (lru_cache c) k v.
  rw lru_put_unfold /remove_old_if_needed. cbn [mbind M_bind mgets remove_old_loop].
  rw /mgets /mbind /M_bind /mget.
  destruct (decide (k ∈ dkeys (lru_cache c) ∨ (lru_len c < lru_capacity c)%Z)) as [Hroom|Hroom].
  - have Hfit : (lru_len (inserted c k v) ≤ lru_capacity c)%Z by rw Hlen; case_decide; [lia|destruct Hroom; [done|lia]].
    rw (_ : (lru_capacity (inserted c k v) <? lru_len (inserted c k v))%Z = false); first by simpl; lia.
    eexists. split; [done|]. split; [|done]. split; [done| |done].
    move=> x /H2 Hx. rw /= Hkeys //. by right.
  - have Hnew : k ∉ dkeys (lru_cache c) by tauto.
    have Hfull : lru_len (inserted c k v) = (lru_capacity c + 1)%Z by rw decide_False // in Hlen; lia.
    rw (_ : (lru_capacity (inserted c k v) <? lru_len (inserted c k v))%Z = true); first by simpl; lia.
    destruct (oldest_unpinned (pinned_items c) (used (lru_cache c) k v)) as [victim|] eqn:Ev; last first.
    { exfalso. apply Hnew, H2. apply (oldest_unpinned_None _ _ _ Ev). rw Hkeys //. by left. }
    destruct (oldest_unpinned_spec _ _ _ Ev) as [Hin Hnp].
    destruct (proj2 (dget_is_Some _ _) Hin) as [w Hw].
    rw (lru_remove_oldest_spec (inserted c k v) victim Ev) /inserted.
    have Hp : filter (λ x, x ≠ victim) (pinned_items c) = pinned_items c.
    { apply filter_all. move=> x Hx ?. by subst. }
    have Hlen' := length_ddel _ _ _ Hw. rw /lru_len /= in Hfull.
    rw [pinned_items (set_lru_cache _ _)]/= Hp /=.
    rw Hlen'. cbn [remove_old_loop]. rw /mbind /M_bind /mget /= (_ : (_ <? _)%Z = false); first by rw /lru_len /=; lia.
    eexists. split; [done|]. split; [|by exists victim; destruct c].
    split; simpl; [by apply dict_wf_ddel| |rw /lru_len /=; lia].
    move=> x Hx. rw dkeys_ddel // Hkeys //. split; [by move=> ?; subst|right; by apply H2].
Qed.
End lru.

(** [put] in a cache with room for at least one item and nothing pinned: it
    returns, the key is the most recently used one and has the new value, an
    item is evicted only when the key is new and the cache is full, and the
    evicted item is the least recently used one; the bound on the size and the
    uniqueness of keys are kept. *)
Theorem lru_put_evicts_oldest (c : LRUCache string Z) k v :
  lru_wf c → pinned_items c = [] → (0 < lru_capacity c)%Z →
  ∃ c', lru_put k v c = Ok (tt, c') ∧ lru_wf c' ∧
    lru_cache c' =
      (if decide (k ∈ dkeys (lru_cache c) ∨ (lru_len c < lru_capacity c)%Z)
       then ddel (lru_cache c) k else tail (lru_cache c)) ++ [(k, v)].
Proof.
  move=> Hwf Hp Hcap. destruct (lru_put_spec c k v Hwf) as (c' & H1 & H2 & H3). exists c'.
  split_and!; [done|done|]. destruct (decide (_ ∨ _)) as [Hr|Hr]; first by rw H3.
  destruct H3 as (victim & Hv & ->). simpl. rw Hp in Hv.
  have Hnew : dget (lru_cache c) k = None by apply dget_None; tauto.
  rw /used ddel_notin // in Hv |- *. destruct (lru_cache c) as [|[k0 v0] d] eqn:E.
  { exfalso. apply Hr. right. rw /lru_len E /=. lia. }
  rw /oldest_unpinned filter_all /= in Hv; first by move=> *; apply not_elem_of_nil.
  injection Hv as ->. by rw /= decide_True.
Qed.
Definition lru_demo : LRUCache string Z :=
  {| lru_cache := [("x"%string, 1%Z); ("y"%string, 2%Z)]; pinned_items := []; lru_capacity := 2 |}.
Lemma lru_put_evicts_oldest_witness :
  ∃ c', lru_put "z"%string 3%Z lru_demo = Ok (tt, c') ∧ lru_wf c' ∧
    lru_cache c' = [("y"%string, 2%Z); ("z"%string, 3%Z)].
Proof.
  apply (lru_put_evicts_oldest lru_demo "z"%string 3%Z); [|reflexivity|reflexivity].
  split; [apply (bool_decide_unpack _); vm_compute; exact I|by move=> k /elem_of_nil|vm_compute; discriminate].
Defined.
