(* ===== verification/MMInputMapper.v ===== *)
(** The two halves of the multi-modal input cache: [MMInputMapperClient] in the
    frontend process and [MMInputMapperServer] in the core process
    (vllm/v1/engine/mm_input_mapper.py). The client sends [None] for an input it
    believes the server has cached. *)
From Stdlib Require Import ssreflect ZArith Lia.
From stdpp Require Import base numbers list gmap strings.
From S2P Require Import Prelude Request LRUCache.

Definition MM_CACHE_SIZE : Z := 256.
Abbreviation MMCache := (LRUCache string MultiModalKwargs).

Record MMInputMapperClient := {
  mc_use_cache : bool;
  mc_cache : MMCache;
  mm_cache_hits : Z;
  mm_cache_total : Z;
}.
Definition mm_client_init (disable_mm_preprocessor_cache : bool) : MMInputMapperClient :=
  {| mc_use_cache := negb disable_mm_preprocessor_cache; mc_cache := lru_init MM_CACHE_SIZE;
     mm_cache_hits := 0; mm_cache_total := 0 |}.
Definition set_mc_cache (v : MMCache) (c : MMInputMapperClient) : MMInputMapperClient :=
  {| mc_use_cache := mc_use_cache c; mc_cache := v; mm_cache_hits := mm_cache_hits c;
     mm_cache_total := mm_cache_total c |}.
Definition count_input (c : MMInputMapperClient) : MMInputMapperClient :=
  {| mc_use_cache := mc_use_cache c; mc_cache := mc_cache c; mm_cache_hits := mm_cache_hits c;
     mm_cache_total := mm_cache_total c + 1 |}.
Definition count_hit (c : MMInputMapperClient) : MMInputMapperClient :=
  {| mc_use_cache := mc_use_cache c; mc_cache := mc_cache c; mm_cache_hits := mm_cache_hits c + 1;
     mm_cache_total := mm_cache_total c |}.

Record MMInputMapperServer := { ms_use_cache : bool; ms_cache : MMCache }.
Definition mm_server_init (disable_mm_preprocessor_cache : bool) : MMInputMapperServer :=
  {| ms_use_cache := negb disable_mm_preprocessor_cache; ms_cache := lru_init MM_CACHE_SIZE |}.
Definition set_ms_cache (v : MMCache) (s : MMInputMapperServer) : MMInputMapperServer :=
  {| ms_use_cache := ms_use_cache s; ms_cache := v |}.

Section mapper.
(** The model's image processor and its arguments. *)
Context {Image ProcKwargs : Type}.
Variable multi_modal_input_mapper : Image → ProcKwargs → MultiModalKwargs.

(** [mm_data["image"]]: one image or a list of images. *)
Inductive ImageData := OneImage (i : Image) | Images (l : list Image).
Definition image_list (d : ImageData) : list Image :=
  match d with OneImage i => [i] | Images l => l end.

(** One turn of the client's loop. [precomputed] and [images] are the sources
    of the input; [i] is its position. *)
Definition client_input (images : list Image) (precomputed : option (list MultiModalKwargs))
    (mm_hashes : list string) (kwargs : ProcKwargs) (ret_inputs : list (option MultiModalKwargs)) (i : nat)
    : M MMInputMapperClient (list (option MultiModalKwargs)) :=
  use_cache ← mgets mc_use_cache;
  let hashed {A} (k : string → M MMInputMapperClient A) : M MMInputMapperClient A :=
    match mm_hashes !! i with Some h => k h | None => mraise (IndexError "mm_hashes[input_id]") end in
  mm_input ← (if (use_cache : bool)
              then hashed (λ h, zoom mc_cache set_mc_cache (lru_get h None)) else mret None);
  mmodify count_input;;;
  match mm_input with
  | None =>
    mm_input ←
      match precomputed with
      | Some l => match l !! i with Some x => mret x | None => mraise (IndexError "precomputed_mm_inputs") end
      | None =>
        match images !! i with
        | Some im => mret (multi_modal_input_mapper im kwargs)
        | None => mraise (IndexError "image_inputs")
        end
      end;
    (if (use_cache : bool) then hashed (λ h, zoom mc_cache set_mc_cache (lru_put h mm_input)) else mret tt);;;
    mret (ret_inputs ++ [Some mm_input])
  | Some _ => mmodify count_hit;;; mret (ret_inputs ++ [None])
  end.

Definition client_process_inputs (mm_data : dict string ImageData) (mm_hashes : option (list string))
    (kwargs : ProcKwargs) (precomputed : option (list MultiModalKwargs))
    : M MMInputMapperClient (list (option MultiModalKwargs)) :=
  use_cache ← mgets mc_use_cache;
  images ←
    match precomputed with
    | Some _ => mret []
    | None => match dget mm_data "image"%string with
              | Some d => mret (image_list d)
              | None => mraise (KeyError "image")
              end
    end;
  let num_inputs := match precomputed with Some l => length l | None => length images end in
  (if (use_cache : bool) then
     massert (bool_decide (mm_hashes ≠ None)) "mm_hashes is not None";;;
     massert (bool_decide (num_inputs = length (default [] mm_hashes))) "num_inputs == len(mm_hashes)"
   else mret tt);;;
  mfold (seq 0 num_inputs) [] (client_input images precomputed (default [] mm_hashes) kwargs).
End mapper.

Definition server_input (acc : list MultiModalKwargs) (x : option MultiModalKwargs * string)
    : M MMInputMapperServer (list MultiModalKwargs) :=
  let '(mm_input, mm_hash) := x in
  match mm_input with
  | None =>
    o ← zoom ms_cache set_ms_cache (lru_get mm_hash None);
    match o with
    | None => mraise (AssertionError "mm_input is not None")
    | Some v => mret (acc ++ [v])
    end
  | Some v => zoom ms_cache set_ms_cache (lru_put mm_hash v);;; mret (acc ++ [v])
  end.
(** Without the cache the inputs are passed on as they are. *)
Definition server_process_inputs (mm_inputs : list (option MultiModalKwargs)) (mm_hashes : list string)
    : M MMInputMapperServer (list (option MultiModalKwargs)) :=
  massert (bool_decide (length mm_inputs = length mm_hashes)) "len(mm_inputs) == len(mm_hashes)";;;
  use_cache ← mgets ms_use_cache;
  if negb use_cache then mret mm_inputs
  else full ← mfold (zip mm_inputs mm_hashes) [] server_input; mret (Some <$> full).

(** * Mirrored caches *)

(** The frontend and the core process have the same cache. *)
Record mirrored (c : MMInputMapperClient) (s : MMInputMapperServer) : Prop := {
  mi_cache : mc_cache c = ms_cache s;
  mi_client : mc_use_cache c = true;
  mi_server : ms_use_cache s = true;
  mi_wf : lru_wf (mc_cache c);
  mi_cap : lru_capacity (mc_cache c) = MM_CACHE_SIZE;
}.
(** A hash determines the processed input. *)
Definition faithful (content : string → MultiModalKwargs) (c : MMCache) : Prop :=
  ∀ h v, dget (lru_cache c) h = Some v → v = content h.

Lemma used_wf_cache (c : MMCache) h v :
  lru_wf c → dget (lru_cache c) h = Some v → lru_wf (set_lru_cache (used (lru_cache c) h v) c).
Proof.
  move=> [H1 H2 H3] Hv. split; simpl; [by apply used_wf| |].
  - move=> k /H2 Hk. rw elem_of_used //. by right.
  - rw /lru_len /= length_used. case_decide as Hd; [done|by rw Hv in Hd; destruct Hd].
Qed.
Lemma put_faithful content (c c' : MMCache) h v :
  lru_wf c → faithful content c → v = content h → lru_put h v c = Ok (tt, c') →
  faithful content c' ∧ lru_capacity c' = lru_capacity c.
Proof.
  move=> Hwf Hf Hv Hrun. destruct (lru_put_spec c h v Hwf) as (c1 & H1 & H2 & H3).
  rw Hrun in H1. injection H1 as <-.
  have Hu : ∀ k w, dget (used (lru_cache c) h v) k = Some w → w = content k.
  { move=> k w. rw dget_used; first apply (lw_keys _ Hwf).
    destruct (decide (k = h)); [by move=> [<-]; subst|apply Hf]. }
  destruct (decide _); first by rw H3; split; [exact Hu|].
  destruct H3 as (victim & _ & ->). split; last done. move=> k w. simpl.
  have Hd := used_wf _ h v (lw_keys _ Hwf). rw dget_ddel //. case_decide; [done|apply Hu].
Qed.

Section mirror.
Context {Image ProcKwargs : Type} (mapper : Image → ProcKwargs → MultiModalKwargs).
Context (content : string → MultiModalKwargs).
Context (images : list Image) (precomputed : option (list MultiModalKwargs)) (kwargs : ProcKwargs).
Context (hashes : list string).

(** The processed inputs, before caching. *)
Definition inputs_of : list MultiModalKwargs :=
  match precomputed with Some l => l | None => (λ im, mapper im kwargs) <$> images end.
Context (Hcontent : inputs_of = content <$> hashes).

Lemma source_lookup (i : nat) h (k : MultiModalKwargs → M MMInputMapperClient (list (option MultiModalKwargs))) c :
  hashes !! i = Some h →
  (match precomputed with
   | Some l => match l !! i with Some x => mret x | None => mraise (IndexError "precomputed_mm_inputs") end
   | None => match images !! i with
             | Some im => mret (mapper im kwargs)
             | None => mraise (IndexError "image_inputs")
             end
   end ≫= k) c = k (content h) c.
Proof.
  move=> Hh. have Hi : inputs_of !! i = Some (content h) by rw Hcontent list_lookup_fmap Hh.
  move: Hi. rw /inputs_of. destruct precomputed as [l|]; first by move=> ->.
  rw list_lookup_fmap. by destruct (images !! i) as [im|]; move=> //= [<-].
Qed.

(** One input through both halves. *)
Lemma mirror_input c s ret full i h :
  mirrored c s → faithful content (mc_cache c) → hashes !! i = Some h →
  ∃ o c' s', client_input mapper images precomputed hashes kwargs ret i c = Ok (ret ++ [o], c') ∧
    server_input full (o, h) s = Ok (full ++ [content h], s') ∧
    mirrored c' s' ∧ faithful content (mc_cache c').
Proof.
  move=> [M1 M2 M3 M4 M5] Hf Hh.
  rw /client_input. rw {1}/mbind /M_bind {1}/mgets M2 Hh.
  rw {1}/mbind /M_bind /zoom lru_get_spec. destruct (dget (lru_cache (mc_cache c)) h) as [v|] eqn:Ev.
  - have Hv := Hf _ _ Ev. subst v. do 3 eexists. split; [reflexivity|]. rw /server_input /mbind /M_bind /zoom.
    rw -M1 lru_get_spec Ev. split; [reflexivity|]. split.
    + split; [done|done|done|by apply used_wf_cache|done].
    + move=> k w. rw /= dget_used; first apply (lw_keys _ M4). case_decide; [by move=> [<-]; subst|apply Hf].
  - rw {1}/mbind /M_bind {1}/mmodify (source_lookup i h) //.
    destruct (lru_put_spec (mc_cache c) h (content h) M4) as (k & H1 & H2 & _).
    destruct (put_faithful content _ _ _ _ M4 Hf eq_refl H1) as [Hf' Hcap].
    do 3 eexists. split; [by rw /mbind /M_bind /= H1|].
    rw /server_input /mbind /M_bind /zoom -M1 H1. split; [reflexivity|].
    split; [split; [done|done|done|done|by rw /= Hcap]|done].
Qed.

Lemma mirror_inputs k hs : ∀ c s ret full,
  drop k hashes = hs → mirrored c s → faithful content (mc_cache c) →
  ∃ outs c' s',
    mfold (seq k (length hs)) ret (client_input mapper images precomputed hashes kwargs) c = Ok (ret ++ outs, c') ∧
    length outs = length hs ∧
    mfold (zip outs hs) full server_input s = Ok (full ++ (content <$> hs), s') ∧
    mirrored c' s' ∧ faithful content (mc_cache c').
Proof.
  revert k. induction hs as [|h hs IH] => k c s ret full Hk HM Hf.
  { exists [], c, s. rw /= !app_nil_r. by split_and!. }
  have Hh : hashes !! k = Some h by rw -(Nat.add_0_r k) -lookup_drop Hk.
  have Hk' : drop (S k) hashes = hs by rw -Nat.add_1_r -drop_drop Hk.
  destruct (mirror_input c s ret full k h HM Hf Hh) as (o & c1 & s1 & H1 & H2 & HM1 & Hf1).
  destruct (IH (S k) c1 s1 (ret ++ [o]) (full ++ [content h]) Hk' HM1 Hf1)
    as (outs & c2 & s2 & G1 & G2 & G3 & HM2 & Hf2).
  exists (o :: outs), c2, s2. split_and!; [|by rw /= G2| |done|done].
  - by rw /= /mbind /M_bind H1 G1 -app_assoc.
  - cbn [zip_with mfold]. by rw /mbind /M_bind H2 G3 -app_assoc.
Qed.
End mirror.

Section runs.
Context {Image ProcKwargs : Type} (mapper : Image → ProcKwargs → MultiModalKwargs).
Context (content : string → MultiModalKwargs).

(** A multi-modal prompt as the frontend processes it. *)
Record Prompt := {
  pt_data : dict string (@ImageData Image);
  pt_hashes : list string;
  pt_kwargs : ProcKwargs;
  pt_precomputed : option (list MultiModalKwargs);
}.
(** Its hashes name the processed inputs. *)
Definition prompt_ok (p : Prompt) : Prop :=
  match pt_precomputed p with
  | Some l => l = content <$> pt_hashes p
  | None => ∃ d, dget (pt_data p) "image"%string = Some d ∧
              (λ im, mapper im (pt_kwargs p)) <$> image_list d = content <$> pt_hashes p
  end.
(** The prompts in order: first through the client, then through the server. *)
Fixpoint serve (ps : list Prompt) (c : MMInputMapperClient) (s : MMInputMapperServer)
    : result (list (list (option MultiModalKwargs)) * MMInputMapperClient * MMInputMapperServer) :=
  match ps with
  | [] => Ok ([], c, s)
  | p :: ps =>
    '(sent, c) ← client_process_inputs mapper (pt_data p) (Some (pt_hashes p)) (pt_kwargs p) (pt_precomputed p) c;
    '(full, s) ← server_process_inputs sent (pt_hashes p) s;
    '(fulls, c, s) ← serve ps c s;
    mret (full :: fulls, c, s)
  end.

Lemma serve_one p c s :
  prompt_ok p → mirrored c s → faithful content (mc_cache c) →
  ∃ sent c' s', client_process_inputs mapper (pt_data p) (Some (pt_hashes p)) (pt_kwargs p)
                  (pt_precomputed p) c = Ok (sent, c') ∧
    server_process_inputs sent (pt_hashes p) s = Ok (Some <$> (content <$> pt_hashes p), s') ∧
    mirrored c' s' ∧ faithful content (mc_cache c').
Proof.
  move=> Hp HM Hf. destruct (HM) as [M1 M2 M3 M4 M5].
  set images := match pt_precomputed p with Some _ => [] | None =>
    match dget (pt_data p) "image"%string with Some d => image_list d | None => [] end end.
  have Hin : inputs_of mapper images (pt_precomputed p) (pt_kwargs p) = content <$> pt_hashes p.
  { rw /inputs_of /images. rw /prompt_ok in Hp. destruct (pt_precomputed p); first done.
    by destruct Hp as (d & -> & ?). }
  have Hlen : match pt_precomputed p with Some l => length l | None => length images end = length (pt_hashes p).
  { rw -(length_fmap content (pt_hashes p)) -Hin /inputs_of. by destruct (pt_precomputed p); rw ?length_fmap. }
  destruct (mirror_inputs mapper content images (pt_precomputed p) (pt_kwargs p) (pt_hashes p) Hin
    0 (pt_hashes p) c s [] [] eq_refl HM Hf) as (outs & c' & s' & H1 & H2 & H3 & HM' & Hf').
  exists outs, c', s'. split_and!; [| |done|done].
  - rw /client_process_inputs /mbind /M_bind {1}/mgets M2.
    have -> : (match pt_precomputed p with
               | Some _ => mret []
               | None => match dget (pt_data p) "image"%string with
                         | Some d => mret (image_list d)
                         | None => mraise (KeyError "image") end end : M _ _) c = Ok (images, c).
    { rw /images. rw /prompt_ok in Hp. destruct (pt_precomputed p); first done. by destruct Hp as (d & -> & _). }
    rw /massert bool_decide_eq_true_2 //= bool_decide_eq_true_2 //=. by rw Hlen.
  - rw /server_process_inputs /massert bool_decide_eq_true_2 // /mbind /M_bind /mgets /= M3 /= H3. done.
Qed.
End runs.

(** C19: The client's and the server's caches stay mirrored: for any sequence of
    prompts whose hashes identify their inputs, the server never misses (its
    assertion holds), it hands the scheduler the processed inputs in full, and
    the two caches are equal again afterwards, whatever was evicted. *)
Theorem mm_caches_mirrored {Image ProcKwargs} (mapper : Image → ProcKwargs → MultiModalKwargs) content ps :
  (∀ p, p ∈ ps → prompt_ok mapper content p) →
  ∃ c s, serve mapper ps (mm_client_init false) (mm_server_init false)
           = Ok ((λ p, Some <$> (content <$> pt_hashes p)) <$> ps, c, s) ∧
         mc_cache c = ms_cache s ∧ (lru_len (mc_cache c) ≤ MM_CACHE_SIZE)%Z.
Proof.
  have HM : mirrored (mm_client_init false) (mm_server_init false).
  { split; [done|done|done| |done]. split; simpl; [apply dict_wf_nil|by move=> k /elem_of_nil|done]. }
  have Hf : faithful content (mc_cache (mm_client_init false)) by [].
  move: (mm_client_init false) (mm_server_init false) HM Hf.
  induction ps as [|p ps IH] => c s HM Hf Hps.
  { exists c, s. destruct HM as [M1 _ _ M4 Hcap]. split_and!; [done|done|]. rw -Hcap. apply (lw_size _ M4). }
  destruct (serve_one mapper content p c s (Hps p ltac:(by left)) HM Hf) as (sent & c1 & s1 & H1 & H2 & HM1 & Hf1).
  destruct (IH c1 s1 HM1 Hf1) as (c2 & s2 & H3 & H4 & H5); first by move=> q Hq; apply Hps; right.
  exists c2, s2. split_and!; [|done|done]. by rw /= /mbind /result_bind H1 H2 H3.
Qed.

Definition demo_mapper (i : Z) (_ : unit) : MultiModalKwargs := {| mmk_handle := i |}.
Definition demo_content (h : string) : MultiModalKwargs :=
  {| mmk_handle := if bool_decide (h = "x"%string) then 1%Z else 2%Z |}.
(** Image x twice in one prompt, then y and x again. *)
Definition demo_prompts : list Prompt :=
  [{| pt_data := [("image"%string, Images [1; 1]%Z)]; pt_hashes := ["x"; "x"]%string; pt_kwargs := tt;
      pt_precomputed := None |};
   {| pt_data := [("image"%string, Images [2; 1]%Z)]; pt_hashes := ["y"; "x"]%string; pt_kwargs := tt;
      pt_precomputed := None |}].
Lemma mm_caches_mirrored_witness :
  (∀ p, p ∈ demo_prompts → prompt_ok demo_mapper demo_content p) ∧
  ∃ c s, serve demo_mapper demo_prompts (mm_client_init false) (mm_server_init false)
           = Ok ((λ p, Some <$> (demo_content <$> pt_hashes p)) <$> demo_prompts, c, s) ∧
         mc_cache c = ms_cache s ∧ (lru_len (mc_cache c) ≤ MM_CACHE_SIZE)%Z.
Proof.
  assert (Hok : ∀ p, p ∈ demo_prompts → prompt_ok demo_mapper demo_content p).
  { rw /demo_prompts. move=> p /elem_of_cons [-> | /list_elem_of_singleton ->]; eexists; split; reflexivity. }
  split; [exact Hok|]. exact (mm_caches_mirrored demo_mapper demo_content demo_prompts Hok).
Defined.
