(* ===== verification/EngineCore.v ===== *)
(** The engine core: classes [EngineCore] and [EngineCoreProc] of
    vllm/v1/engine/core.py.

    The executor process is the environment: the engine sends it commands
    ([sent]) and it answers every execution with one result, in order
    ([results], whose values are arbitrary); [in_flight] are the executions
    whose result the engine has not collected yet. Collecting a result when none
    is in flight waits for ever and is the exception [Deadlock]. The two socket
    threads are the ends of [input_queue] and [output_queue]. Timers and logging
    are left out. *)
From Stdlib Require Import ssreflect ZArith Lia PrimFloat.
From stdpp Require Import base numbers list gmap strings.
From S2P Require Import Prelude SamplingParams KVCacheBlock Request FreeQueue BlockHash KVCacheManager EncoderCache Scheduler LRUCache MMInputMapper.

(** * Messages *)
Inductive ExecutorCommand :=
  | Initialize (num_gpu_blocks num_cpu_blocks : nat)
  | InitSwapper (num_cpu_blocks : nat)
  | Swap (blocks_in blocks_out : list (nat * nat))
  | Execute (o : SchedulerOutput) (running : list RunningRequestData)
  | Profile (is_start : bool).

(** [EngineCoreRequestUnion] *)
Inductive ClientRequest :=
  | ReqAdd (r : EngineCoreRequest)
  | ReqProfile (is_start : bool)
  | ReqStats
  | ReqTimeRecord
  | ReqAbort (request_ids : list string).

Record Stats := {
  st_running : Z;
  st_waiting : Z;
  st_swapped : Z;
  st_total_waiting : Z;
  st_gpu : float;
  st_cpu : float;
}.
(** The observability fields that are not times. *)
Record Observability := {
  ob_scheduler_counter : Z;
  ob_blocks_swap_in : Z;
  ob_blocks_swap_out : Z;
}.
Inductive OutputMessage :=
  | Outputs (outputs : list EngineCoreOutput) (observability : option Observability)
  | StatsMessage (s : Stats).

(** * State *)
Record EngineCore := {
  scheduler : Scheduler;
  scheduler_output_prev : option SchedulerOutput;
  prev_lookahead : bool;
  mm_input_mapper_server : MMInputMapperServer;
  need_collection : bool;
  sent : list ExecutorCommand;
  in_flight : list SchedulerOutput;
  results : nat → ModelRunnerOutput;
  input_queue : list ClientRequest;
  output_queue : list OutputMessage;
}.

(** Attribute stores. *)
Definition set_scheduler (v : Scheduler) (r : EngineCore) : EngineCore :=
  {| scheduler := v; scheduler_output_prev := scheduler_output_prev r; prev_lookahead := prev_lookahead r; mm_input_mapper_server := mm_input_mapper_server r; need_collection := need_collection r; sent := sent r; in_flight := in_flight r; results := results r; input_queue := input_queue r; output_queue := output_queue r |}.
Definition set_scheduler_output_prev (v : option SchedulerOutput) (r : EngineCore) : EngineCore :=
  {| scheduler := scheduler r; scheduler_output_prev := v; prev_lookahead := prev_lookahead r; mm_input_mapper_server := mm_input_mapper_server r; need_collection := need_collection r; sent := sent r; in_flight := in_flight r; results := results r; input_queue := input_queue r; output_queue := output_queue r |}.
Definition set_prev_lookahead (v : bool) (r : EngineCore) : EngineCore :=
  {| scheduler := scheduler r; scheduler_output_prev := scheduler_output_prev r; prev_lookahead := v; mm_input_mapper_server := mm_input_mapper_server r; need_collection := need_collection r; sent := sent r; in_flight := in_flight r; results := results r; input_queue := input_queue r; output_queue := output_queue r |}.
Definition set_mm_input_mapper_server (v : MMInputMapperServer) (r : EngineCore) : EngineCore :=
  {| scheduler := scheduler r; scheduler_output_prev := scheduler_output_prev r; prev_lookahead := prev_lookahead r; mm_input_mapper_server := v; need_collection := need_collection r; sent := sent r; in_flight := in_flight r; results := results r; input_queue := input_queue r; output_queue := output_queue r |}.
Definition set_sent (v : list ExecutorCommand) (r : EngineCore) : EngineCore :=
  {| scheduler := scheduler r; scheduler_output_prev := scheduler_output_prev r; prev_lookahead := prev_lookahead r; mm_input_mapper_server := mm_input_mapper_server r; need_collection := need_collection r; sent := v; in_flight := in_flight r; results := results r; input_queue := input_queue r; output_queue := output_queue r |}.
Definition set_in_flight (v : list SchedulerOutput) (r : EngineCore) : EngineCore :=
  {| scheduler := scheduler r; scheduler_output_prev := scheduler_output_prev r; prev_lookahead := prev_lookahead r; mm_input_mapper_server := mm_input_mapper_server r; need_collection := need_collection r; sent := sent r; in_flight := v; results := results r; input_queue := input_queue r; output_queue := output_queue r |}.
Definition set_results (v : nat → ModelRunnerOutput) (r : EngineCore) : EngineCore :=
  {| scheduler := scheduler r; scheduler_output_prev := scheduler_output_prev r; prev_lookahead := prev_lookahead r; mm_input_mapper_server := mm_input_mapper_server r; need_collection := need_collection r; sent := sent r; in_flight := in_flight r; results := v; input_queue := input_queue r; output_queue := output_queue r |}.
Definition set_input_queue (v : list ClientRequest) (r : EngineCore) : EngineCore :=
  {| scheduler := scheduler r; scheduler_output_prev := scheduler_output_prev r; prev_lookahead := prev_lookahead r; mm_input_mapper_server := mm_input_mapper_server r; need_collection := need_collection r; sent := sent r; in_flight := in_flight r; results := results r; input_queue := v; output_queue := output_queue r |}.
Definition set_output_queue (v : list OutputMessage) (r : EngineCore) : EngineCore :=
  {| scheduler := scheduler r; scheduler_output_prev := scheduler_output_prev r; prev_lookahead := prev_lookahead r; mm_input_mapper_server := mm_input_mapper_server r; need_collection := need_collection r; sent := sent r; in_flight := in_flight r; results := results r; input_queue := input_queue r; output_queue := v |}.
Abbreviation EC := (M EngineCore).
Definition on_scheduler {A} (m : SC A) : EC A := zoom scheduler set_scheduler m.

(** * Construction *)

(** [_initialize_kv_caches]: the profiled numbers of blocks, the GPU one
    possibly overridden. *)
Definition initialize_kv_caches (override : option nat) (profiled : nat * nat) : result (nat * nat) :=
  match override with
  | None => Ok profiled
  | Some n => if bool_decide (n ≤ profiled.1) then Ok (n, profiled.2)
              else Raise (AssertionError "num_gpu_blocks_override exceeds the profiled budget")
  end.
Definition engine_init (sc : SchedulerConfig) (cc : CacheConfig) (override : option nat)
    (profiled : nat * nat) (disable_mm_preprocessor_cache need_coll : bool) (c : nat → Z)
    (rs : nat → ModelRunnerOutput) : result EngineCore :=
  '(n_gpu, n_cpu) ← initialize_kv_caches override profiled;
  let cc := {| cc_block_size := cc_block_size cc; num_gpu_blocks := n_gpu; num_cpu_blocks := n_cpu;
               cc_sliding_window := cc_sliding_window cc;
               enable_prefix_caching := enable_prefix_caching cc |} in
  s ← scheduler_init sc cc c;
  mret {| scheduler := s; scheduler_output_prev := None; prev_lookahead := false;
          mm_input_mapper_server := mm_server_init disable_mm_preprocessor_cache;
          need_collection := need_coll; sent := [Initialize n_gpu n_cpu; InitSwapper n_cpu];
          in_flight := []; results := rs; input_queue := []; output_queue := [] |}.

(** * Requests *)
Definition with_mm_inputs (r : EngineCoreRequest) (l : list (option MultiModalKwargs)) : EngineCoreRequest :=
  {| ecr_request_id := ecr_request_id r; ecr_prompt := ecr_prompt r;
     ecr_prompt_token_ids := ecr_prompt_token_ids r; ecr_mm_inputs := Some l; ecr_mm_hashes := ecr_mm_hashes r;
     ecr_mm_placeholders := ecr_mm_placeholders r; ecr_sampling_params := ecr_sampling_params r;
     ecr_eos_token_id := ecr_eos_token_id r; ecr_arrival_time := ecr_arrival_time r |}.
Definition engine_add_request (request : EngineCoreRequest) : EC unit :=
  request ←
    match ecr_mm_hashes request with
    | None => mret request
    | Some hashes =>
      match ecr_mm_inputs request with
      | None => mraise (AssertionError "request.mm_inputs is not None")
      | Some inputs =>
        l ← zoom mm_input_mapper_server set_mm_input_mapper_server (server_process_inputs inputs hashes);
        mret (with_mm_inputs request l)
      end
    end;
  r ← mlift (from_engine_core_request request);
  on_scheduler (add_request r).

Definition get_stats : EC Stats :=
  s ← mgets scheduler;
  '(gpu, cpu) ← on_scheduler (on_kv get_kv_caches_usage);
  mret {| st_running := get_running_len s; st_waiting := get_waiting_len s; st_swapped := get_swapped_len s;
          st_total_waiting := get_total_waiting s; st_gpu := gpu; st_cpu := cpu |}.
(** [core_get_time_record] returns the statistics. *)
Definition core_get_time_record : EC Stats := get_stats.

Definition put_output (m : OutputMessage) : EC unit :=
  mmodify (λ e, set_output_queue (output_queue e ++ [m]) e).
Definition send (c : ExecutorCommand) : EC unit := mmodify (λ e, set_sent (sent e ++ [c]) e).

(** [_handle_client_request]. There is no method [abort_requests]. *)
Definition handle_client_request (request : ClientRequest) : EC unit :=
  match request with
  | ReqAdd r => engine_add_request r
  | ReqProfile is_start => send (Profile is_start)
  | ReqStats => s ← get_stats; put_output (StatsMessage s)
  | ReqTimeRecord => s ← core_get_time_record; put_output (StatsMessage s)
  | ReqAbort _ => mraise (AttributeError "abort_requests")
  end.

(** * The step *)

(** [queue_out_execute_model.get()] *)
Definition get_result : EC ModelRunnerOutput :=
  e ← mget;
  match in_flight e with
  | [] => mraise Deadlock
  | _ :: rest =>
    mput (set_results (λ n, results e (S n)) (set_in_flight rest e));;; mret (results e 0)
  end.
(** [zmq_start_model_execute_async] pickles the output, and with it the current
    values of the shared request data. *)
Definition start_execution (o : SchedulerOutput) : EC unit :=
  d ← mgets (λ e, data_heap (scheduler e));
  send (Execute o ((λ i, d !!! i) <$> out_scheduled_running_reqs o));;;
  mmodify (λ e, set_in_flight (in_flight e ++ [o]) e).

Definition has_work (o : option SchedulerOutput) : bool :=
  match o with Some o => (0 <? total_num_scheduled_tokens o)%Z | None => false end.
(** Wait for the running execution and process its result. *)
Definition collect : EC (list EngineCoreOutput * list string) :=
  m ← get_result;
  prev ← mgets scheduler_output_prev;
  match prev with
  | None => mraise (AttributeError "num_scheduled_tokens")
  | Some o => on_scheduler (update_from_output o m)
  end.

Definition without_swaps (o : SchedulerOutput) : SchedulerOutput :=
  {| out_scheduled_new_reqs := out_scheduled_new_reqs o; out_scheduled_resumed_reqs := out_scheduled_resumed_reqs o;
     out_scheduled_running_reqs := out_scheduled_running_reqs o; out_num_scheduled_tokens := out_num_scheduled_tokens o;
     total_num_scheduled_tokens := total_num_scheduled_tokens o;
     out_scheduled_encoder_inputs := out_scheduled_encoder_inputs o; preempted_req_ids := preempted_req_ids o;
     out_finished_req_ids := out_finished_req_ids o; free_encoder_input_ids := free_encoder_input_ids o;
     blocks_to_swap_in := None; blocks_to_swap_out := None; counter := counter o |}.
(** The swapping phase: the output and the numbers of blocks swapped. [len] of a
    missing list raises. *)
Definition swap_phase (so : option SchedulerOutput) : EC (option SchedulerOutput * Z * Z) :=
  match so with
  | None => mret (None, 0, 0)%Z
  | Some o =>
    match blocks_to_swap_in o, blocks_to_swap_out o with
    | Some i, Some out =>
      if bool_decide (i = []) && bool_decide (out = []) then mret (Some o, 0, 0)%Z
      else send (Swap i out);;;
           mret (Some (without_swaps o), Z.of_nat (length i), Z.of_nat (length out))
    | _, _ => mraise (TypeError "object of type 'NoneType' has no len()")
    end
  end.

Section engine.
Variable py_hash : option Z → list Z → Z.

(** When the lookahead is exhausted, the running execution is collected first.
    Returns its outputs, whether an execution is still running, and whether
    there are unfinished requests. *)
Definition update_before_schedule : EC (list EngineCoreOutput * bool * bool) :=
  e ← mget;
  let has_unfinished := has_unfinished_requests (scheduler e) in
  let executing := has_work (scheduler_output_prev e) in
  if executing && has_pending_lookahead_outputs (scheduler e) then
    '(outputs, _) ← collect;
    mmodify (λ e, set_prev_lookahead false (set_scheduler_output_prev None e));;;
    has_unfinished ← mgets (λ e, has_unfinished_requests (scheduler e));
    mret (outputs, false, has_unfinished)
  else mret ([], executing, has_unfinished).

(** Collect the execution that ran in the background and drop what it stopped
    from the new schedule. *)
Definition update_after_schedule (so : option SchedulerOutput) (executing : bool)
    (outputs : list EngineCoreOutput) : EC (list EngineCoreOutput) :=
  if executing then
    '(outputs, stopped_ids) ← collect;
    s ← mgets scheduler;
    mmodify (set_scheduler_output_prev ((λ o, reschedule s o stopped_ids) <$> so));;;
    mmodify (set_prev_lookahead executing);;;
    mret outputs
  else
    mmodify (set_scheduler_output_prev so);;;
    mmodify (set_prev_lookahead false);;;
    mret outputs.

Definition engine_step : EC (list EngineCoreOutput * option Observability) :=
  '(outputs, executing, has_unfinished) ← update_before_schedule;
  so ← (if (has_unfinished : bool) then o ← on_scheduler (schedule py_hash executing); mret (Some o)
        else mret None);
  '(so, n_in, n_out) ← swap_phase so;
  outputs ← update_after_schedule so executing outputs;
  prev ← mgets scheduler_output_prev;
  match prev with
  | Some o => mwhen (has_work (Some o)) (start_execution o)
  | None => mret tt
  end;;;
  e ← mget;
  mret (outputs,
        if need_collection e
        then Some {| ob_scheduler_counter := schedule_counter (scheduler e); ob_blocks_swap_in := n_in;
                     ob_blocks_swap_out := n_out |}
        else None).

(** * The busy loop *)

(** One turn of [run_busy_loop]. An idle engine whose queue is empty polls
    again. *)
Definition busy_turn : EC unit :=
  e ← mget;
  if negb (has_unfinished_requests (scheduler e)) && bool_decide (input_queue e = []) then mret tt
  else
    mmodify (set_input_queue []);;;
    mfor (input_queue e) handle_client_request;;;
    unfinished ← mgets (λ e, has_unfinished_requests (scheduler e));
    mwhen unfinished
      ('(outputs, observability) ← engine_step; put_output (Outputs outputs observability)).

(** The input thread puts a request into the queue. *)
Definition receive (r : ClientRequest) : EC unit :=
  mmodify (λ e, set_input_queue (input_queue e ++ [r]) e).
End engine.
