(* ===== verification/EngineTheorems.v ===== *)
(** The engine core: its invariant, the protocol with the executor process, and
    what a turn of the busy loop can end in. *)
From Stdlib Require Import ssreflect ZArith Lia PrimFloat.
From stdpp Require Import base numbers list gmap strings.
From S2P Require Import Prelude SamplingParams KVCacheBlock Request FreeQueue BlockHash KVCacheManager KVInvariant KVOps KVSwap KVSafety EncoderCache Scheduler SchedInv SchedStep SchedFuel SchedOutput SchedTheorems LRUCache MMInputMapper EngineCore.

(** * Invariant *)
Section engine.
Context (py_hash : option Z → list Z → Z).
Abbreviation sched_good := (sched_reach py_hash).

(** An output whose requests are all registered. *)
Record known_output (s : Scheduler) (o : SchedulerOutput) : Prop := {
  ko_wf : dict_wf (out_num_scheduled_tokens o);
  ko_total : total_num_scheduled_tokens o = dsum id (out_num_scheduled_tokens o);
  ko_known : ∀ rid, rid ∈ dkeys (out_num_scheduled_tokens o) → is_Some (dget (requests s) rid);
}.
Definition add_ids (l : list ClientRequest) : list string :=
  omap (λ r, match r with ReqAdd r => Some (ecr_request_id r) | _ => None end) l.
Definition flight_of (o : option SchedulerOutput) : list SchedulerOutput :=
  match o with Some o => if (0 <? total_num_scheduled_tokens o)%Z then [o] else [] | None => [] end.

Record engine_inv (e : EngineCore) : Prop := {
  ei_sched : sched_good (scheduler e);
  ei_prev : ∀ o, scheduler_output_prev e = Some o → known_output (scheduler e) o;
  ei_flight : in_flight e = flight_of (scheduler_output_prev e);
  ei_mm : lru_wf (ms_cache (mm_input_mapper_server e));
}.
(** Queued additions are fresh and distinct. *)
Record queue_ok (e : EngineCore) (l : list ClientRequest) : Prop := {
  qo_nodup : NoDup (add_ids l);
  qo_fresh : ∀ rid, rid ∈ add_ids l → dget (requests (scheduler e)) rid = None;
}.

Lemma wp_both {S A} (m : M S A) s (Q : A → S → Prop) E E' :
  wp m s Q E' → wp m s (λ _ _, True) E → wp m s Q E.
Proof. rw /wp. by destruct (m s) as [[a s']|e]. Qed.

Lemma known_output_mono s s' o :
  (∀ rid, is_Some (dget (requests s) rid) → is_Some (dget (requests s') rid)) →
  known_output s o → known_output s' o.
Proof. move=> H [K1 K2 K3]. split; [done|done|auto]. Qed.

(** A public method of the scheduler keeps it reachable. *)
Lemma wp_reach {A} (m : SC A) c s (Q : A → Scheduler → Prop) E :
  sched_good s → sched_call_ok c s → (∀ a s', m s = Ok (a, s') → sched_run py_hash c s = Ok (tt, s')) →
  wp m s (λ a s', sched_good s' → Q a s') E → wp m s Q E.
Proof.
  move=> Hs Hc Hm. rw /wp. destruct (m s) as [[a s']|e] eqn:E1; last done. move=> HQ. apply HQ.
  eapply sched_reach_call; [exact Hs|exact Hc|by apply Hm with a].
Qed.

(** * Scheduling *)
Lemma wp_engine_schedule la s Q :
  sched_good s →
  (∀ o s', sched_good s' → requests s' = requests s → known_output s' o → Q o s') →
  wp (schedule py_hash la) s Q in_fuel.
Proof.
  move=> Hok HQ. eapply wp_both.
  - apply (wp_reach _ (Schedule la)); [done|done|by move=> a s'; rw /= /mbind /M_bind => ->|].
    apply wp_schedule; first by eapply sched_reach_ok.
    move=> o s' Hok' F H1 H2 H3 _ H5 Hr'. apply HQ; [done|apply (sf_requests _ _ F)|].
    split; [done|done|]. move=> rid /H3 [r [Hr ->]]. rw -(sf_id _ _ F).
    have := si_known _ _ _ (so_inv _ Hok') r. rw elem_of_app => -> //; by [left|eexists].
  - apply (wp_mono _ _ (λ _ _, True) _ in_fuel); [|done|done].
    eapply wp_mono; [apply (safe_schedule py_hash la s)|done|done].
Qed.

(** * Collecting a result *)

(** The registered requests that did not stop stay registered. *)
Definition keeps_unstopped (s s' : Scheduler) (stopped : list string) : Prop :=
  ∀ rid, is_Some (dget (requests s) rid) → rid ∉ stopped → is_Some (dget (requests s') rid).

Lemma wp_engine_update o m s Q :
  sched_good s → known_output s o →
  (∀ outs stopped s', sched_good s' → keeps_unstopped s s' stopped → Q (outs, stopped) s') →
  wp (update_from_output o m) s Q in_fuel.
Proof.
  move=> Hr [K1 K2 K3] HQ. destruct (sched_reach_ok _ _ Hr) as [HI Hm Hb].
  apply (wp_reach _ (Update o m)); [done|done|by move=> a s'; rw /= /mbind /M_bind => ->|].
  apply wp_update_from_output; [done|by move=> ? ?|by right|].
  move=> outs stopped s' HI' Hc Hlen _ _ Hkeep Hid Hr'. apply HQ; first done.
  move=> rid [r Hrr] Hns. destruct (si_only _ _ _ HI _ _ Hrr) as [Hin Hrid].
  exists r. rw -Hrid -Hid. apply (si_known _ _ _ HI'). apply Hkeep; [done|by rw Hrid].
Qed.

Lemma wp_collect e o Q :
  sched_good (scheduler e) → known_output (scheduler e) o → scheduler_output_prev e = Some o →
  in_flight e = [o] →
  (∀ outs stopped s', sched_good s' → keeps_unstopped (scheduler e) s' stopped →
     Q (outs, stopped) (set_scheduler s' (set_results (λ n, results e (S n)) (set_in_flight [] e)))) →
  wp collect e Q in_fuel.
Proof.
  move=> Hok Hk Hp Hf HQ. rw /collect /get_result. do 3 wp_step. rw Hf. do 5 wp_step.
  cbn [scheduler_output_prev set_results set_in_flight]. rw Hp /on_scheduler. wp_step. apply wp_engine_update; [done|done|]. exact HQ.
Qed.

(** A rescheduled output names no stopped request. *)
Lemma dict_wf_ddel_all ids (d : dict string Z) : dict_wf d → dict_wf (foldl (λ d x, ddel d x) d ids).
Proof. elim: ids d => [|x ids IH] d Hd //=. apply IH. auto with py. Qed.
Lemma dkeys_ddel_all ids (d : dict string Z) rid :
  dict_wf d → rid ∈ dkeys (foldl (λ d x, ddel d x) d ids) → (rid ∉ ids) ∧ rid ∈ dkeys d.
Proof.
  elim: ids d => [|x ids IH] d Hd /=; first by split; [apply not_elem_of_nil|].
  move=> /(IH _ (dict_wf_ddel _ _ Hd)) [H1 H2]. rw -dget_is_Some dget_ddel // in H2.
  case_decide; first by destruct H2. rw not_elem_of_cons -dget_is_Some. tauto.
Qed.
Lemma reschedule_known s s' o stopped :
  known_output s o → keeps_unstopped s s' stopped → known_output s' (reschedule s' o stopped).
Proof.
  move=> [K1 K2 K3] Hk. split; simpl; [by apply dict_wf_ddel_all|done|].
  move=> rid Hr. destruct (dkeys_ddel_all _ _ _ K1 Hr) as [H1 H2]. by apply Hk; [apply K3|].
Qed.

(** * The step *)
(** The executor's side after a collected result. *)
Lemma wp_update_before e Q :
  engine_inv e →
  (∀ outs executing unfinished e', engine_inv e' → executing = has_work (scheduler_output_prev e') →
     unfinished = has_unfinished_requests (scheduler e') → input_queue e' = input_queue e →
     Q (outs, executing, unfinished) e') →
  wp update_before_schedule e Q in_fuel.
Proof.
  move=> HI HQ. destruct (HI) as [H1 H2 H3 H4]. rw /update_before_schedule. do 2 wp_step. wp_step; last by wp_step; apply HQ.
  apply andb_true_iff in Heqb as [Hw _].
  destruct (scheduler_output_prev e) as [o|] eqn:Ep; last done.
  rw /= in Hw. rw /= Hw in H3. wp_step. apply (wp_collect _ o); [done|by apply H2|done|done|].
  move=> outs stopped s' Hok' _. do 5 wp_step. apply HQ; [|done..]. by split.
Qed.

Lemma wp_swap_phase so e Q E :
  engine_inv e → requests_found E →
  (∀ so' a b e', engine_inv e' → scheduler e' = scheduler e → scheduler_output_prev e' = scheduler_output_prev e →
     (∀ o', so' = Some o' → ∃ o, so = Some o ∧ out_num_scheduled_tokens o' = out_num_scheduled_tokens o ∧
        total_num_scheduled_tokens o' = total_num_scheduled_tokens o) →
     input_queue e' = input_queue e → Q (so', a, b) e') →
  wp (swap_phase so) e Q E.
Proof.
  move=> HI HE HQ. rw /swap_phase. destruct so as [o|]; last by wp_step; apply HQ.
  destruct (blocks_to_swap_in o) as [i|]; last by wp_step; apply HE.
  destruct (blocks_to_swap_out o) as [out|]; last by wp_step; apply HE.
  wp_step; first by wp_step; apply HQ => // o' [<-]; exists o.
  rw /send. do 3 wp_step. apply HQ => //; first by destruct HI; split.
  move=> o' [<-]. by exists o.
Qed.

Lemma wp_update_after so executing outs e Q :
  engine_inv e → executing = has_work (scheduler_output_prev e) →
  (∀ o, so = Some o → known_output (scheduler e) o) →
  (∀ outs' e', sched_good (scheduler e') → in_flight e' = [] → lru_wf (ms_cache (mm_input_mapper_server e')) →
     (∀ o, scheduler_output_prev e' = Some o → known_output (scheduler e') o) →
     input_queue e' = input_queue e → Q outs' e') →
  wp (update_after_schedule so executing outs) e Q in_fuel.
Proof.
  move=> [H1 H2 H3 H4] Hx Hso HQ. rw /update_after_schedule Hx.
  destruct (has_work (scheduler_output_prev e)) eqn:Hw; last first.
  { do 5 wp_step. apply HQ => //. rw /= H3. destruct (scheduler_output_prev e) as [o|]; last done.
    simpl in Hw. by rw /= Hw. }
  destruct (scheduler_output_prev e) as [o|] eqn:Ep; last done. simpl in Hw. rw /= Hw in H3.
  wp_step. apply (wp_collect _ o); [done|by apply H2|done|done|].
  move=> outs' stopped s' Hok' Hk. do 7 wp_step. apply HQ => //.
  move=> o'. destruct so as [o1|]; last done. move=> [<-]. by eapply reschedule_known; [apply Hso|].
Qed.

Lemma wp_engine_step e Q :
  engine_inv e → (∀ r e', engine_inv e' → input_queue e' = input_queue e → Q r e') →
  wp (engine_step py_hash) e Q in_fuel.
Proof.
  move=> HI HQ. rw /engine_step. wp_step. apply wp_update_before; first done.
  move=> outs executing unfinished e1 HI1 Hx Hu Hq1. wp_step.
  apply (wp_mono _ _ (λ so e2, engine_inv e2 ∧ scheduler_output_prev e2 = scheduler_output_prev e1 ∧
    input_queue e2 = input_queue e1 ∧ ∀ o, so = Some o → known_output (scheduler e2) o) _ in_fuel).
  { wp_step; last by wp_step. wp_step. rw /on_scheduler. wp_step. destruct (HI1) as [H1 H2 H3 H4].
    apply wp_engine_schedule; first done. move=> o s' Hok Hreq Hk. wp_step. split_and!; [|done|done|by move=> o' [<-]].
    split; [done| |done|done]. move=> o' Ho'. eapply known_output_mono; [|by apply H2].
    by move=> rid; rw /= Hreq. }
  2: done.
  move=> so e2 [HI2 [Hp2 [Hq2 Hk2]]]. wp_step. apply wp_swap_phase; [done|by move=> ? ?|].
  move=> so' a b e3 HI3 Hs3 Hp3 Hso Hq3. wp_step. apply wp_update_after; [done|by rw Hp3 Hp2| |].
  { move=> o' /Hso [o [Ho [E1 E2]]]. destruct (Hk2 o Ho) as [K1 K2 K3].
    split; [by rw E1|by rw E1 E2|by rw E1 Hs3]. }
  move=> outs' e4 Hok4 Hf4 Hm4 Hk4 Hq4. wp_step. wp_step. wp_step.
  have Hq : input_queue e4 = input_queue e by rw Hq4 Hq3 Hq2.
  apply (wp_mono _ _ (λ _ e5, engine_inv e5 ∧ input_queue e5 = input_queue e4) _ in_fuel);
    [|by move=> [] e5 [HI5 Hq5]; do 3 wp_step; apply HQ; [|rw Hq5]|done].
  destruct (scheduler_output_prev e4) as [o|] eqn:Ep; last first.
  { wp_step. split; last done. split; [done|by rw Ep|by rw Hf4 Ep|done]. }
  wp_step.
  - rw /start_execution /send. do 5 wp_step. split; last done. split; simpl; [done|by rw Ep|by rw Hf4 Ep /=; simpl in *; match goal with H : _ = true |- _ => rw H end|done].
  - split; last done. split; [done|by rw Ep| |done]. rw Hf4 Ep /=. simpl in *. by match goal with H : _ = false |- _ => rw H end.
Qed.

(** * Client requests *)
Lemma wp_server_process ins hs s Q :
  lru_wf (ms_cache s) → (∀ l s', lru_wf (ms_cache s') → Q l s') →
  wp (server_process_inputs ins hs) s Q in_fuel.
Proof.
  move=> Hwf HQ. rw /server_process_inputs. wp_step. wp_step; last done. do 2 wp_step.
  wp_step; first by wp_step; apply HQ. wp_step.
  apply (wp_mono _ _ (λ _ s', lru_wf (ms_cache s')) _ in_fuel); [|by move=> l s' Hs'; wp_step; apply HQ|done].
  apply (wp_fold _ _ _ (λ _ s', lru_wf (ms_cache s'))); first done.
  move=> acc [o h] s1 _ Hs1. rw /server_input. destruct o as [v|].
  - do 2 wp_step. destruct (lru_put_spec (ms_cache s1) h v Hs1) as (c' & Hp & Hc' & _).
    rw /wp Hp. done.
  - do 2 wp_step. rw {1}/wp lru_get_spec. destruct (dget _ _) as [v|] eqn:Ev; last done.
    wp_step. by apply used_wf_cache.
Qed.

Lemma wp_engine_add r e Q :
  engine_inv e → dget (requests (scheduler e)) (ecr_request_id r) = None →
  (∀ e', engine_inv e' → (∀ rid, rid ≠ ecr_request_id r →
     dget (requests (scheduler e')) rid = dget (requests (scheduler e)) rid) →
     input_queue e' = input_queue e → Q tt e') →
  wp (engine_add_request r) e Q in_fuel.
Proof.
  move=> HI Hfresh HQ. destruct (HI) as [H1 H2 H3 H4]. rw /engine_add_request. wp_step.
  apply (wp_mono _ _ (λ r' e1, ecr_request_id r' = ecr_request_id r ∧
    ∃ m, lru_wf (ms_cache m) ∧ e1 = set_mm_input_mapper_server m e) _ in_fuel); [| |done].
  { wp_step; last by wp_step; split; [done|]; eexists; split; [exact H4|by destruct e].
    wp_step; last by wp_step. do 2 wp_step. apply wp_server_process; first done.
    move=> l1 s' Hs'. wp_step. split; [done|by exists s']. }
  move=> r' e1 [Hid [m [Hm ->]]]. wp_step. apply wp_lift.
  2: by move=> ex; rw /from_engine_core_request; case_match; move=> // [<-].
  move=> q Hq. have [Hqid Hqst] : request_id q = ecr_request_id r' ∧ request_status q = WAITING.
  { move: Hq. rw /from_engine_core_request. case_match; last done. by move=> [<-]. }
  rw /on_scheduler. wp_step.
  apply (wp_reach _ (Add q)); [done|split; [by rw /= Hqid Hid|done]|by move=> [] s' Heq|].
  apply wp_add_request; [by eapply sched_reach_ok|by rw /= Hqid Hid|done|].
  move=> s' _ _ _ _ Hreq Hok'. simpl in Hreq. rw Hqid Hid in Hreq. apply HQ.
  - split; [done| |done|done]. move=> o Ho. eapply known_output_mono; [|by apply H2].
    move=> rid [x Hx]. rw /= Hreq dget_dset. case_decide; by eexists.
  - move=> rid Hne. by rw /= Hreq dget_dset_ne.
  - done.
Qed.

Lemma wp_handle r e Q :
  engine_inv e → (∀ q, r = ReqAdd q → dget (requests (scheduler e)) (ecr_request_id q) = None) →
  (∀ e', engine_inv e' → (∀ rid, rid ∉ add_ids [r] →
     dget (requests (scheduler e')) rid = dget (requests (scheduler e)) rid) →
     input_queue e' = input_queue e → Q tt e') →
  wp (handle_client_request r) e Q in_fuel.
Proof.
  move=> HI Hfresh HQ.
  have Hsame : ∀ e', scheduler e' = scheduler e → scheduler_output_prev e' = scheduler_output_prev e →
    in_flight e' = in_flight e → mm_input_mapper_server e' = mm_input_mapper_server e →
    input_queue e' = input_queue e → Q tt e'.
  { move=> e' E1 E2 E3 E4 E5. destruct HI as [H1 H2 H3 H4]. apply HQ; [|by rw E1|done].
    split; [by rw E1|by rw E1 E2|by rw E2 E3|by rw E4]. }
  have Hset : set_scheduler (set_kv_cache_manager (kv_cache_manager (scheduler e)) (scheduler e)) e = e
    by destruct e as [[] ? ? ? ? ? ? ? ? ?].
  destruct r as [q|b| | |ids]; simpl.
  - apply wp_engine_add; [done|by apply Hfresh|]. move=> e' HI' Hr He. apply HQ; [done| |done].
    move=> rid Hn. apply Hr. by move: Hn; rw list_elem_of_singleton.
  - rw /send. wp_step. by apply Hsame.
  - rw /get_stats /put_output /on_scheduler /on_kv /get_kv_caches_usage. do 8 wp_step.
    rw Hset. wp_step. by apply Hsame.
  - rw /core_get_time_record /get_stats /put_output /on_scheduler /on_kv /get_kv_caches_usage. do 8 wp_step.
    rw Hset. wp_step. by apply Hsame.
  - by wp_step.
Qed.

Lemma wp_handle_all l : ∀ e Q,
  engine_inv e → queue_ok e l → (∀ e', engine_inv e' → input_queue e' = input_queue e → Q tt e') →
  wp (mfor l handle_client_request) e Q in_fuel.
Proof.
  induction l as [|r l IH] => e Q HI Hq HQ; first by apply HQ.
  cbn [mfor]. wp_step. destruct Hq as [Hn Hf].
  have Hsplit : add_ids (r :: l) = add_ids [r] ++ add_ids l by rw /add_ids -omap_app.
  rw Hsplit in Hn Hf. apply NoDup_app in Hn as (Hn1 & Hn2 & Hn3).
  apply wp_handle; [done| |].
  - move=> q Hrq. subst r. apply Hf, elem_of_app. left. by left.
  - move=> e' HI' Hr He. apply IH; [done| |by move=> e2 H2 E2; apply HQ; [|rw E2]]. split; first done.
    move=> rid Hin. rw Hr; first by move=> ?; apply (Hn2 rid). apply Hf, elem_of_app. by right.
Qed.

(** * Runs *)
Lemma wp_busy_turn e :
  engine_inv e → queue_ok e (input_queue e) →
  wp (busy_turn py_hash) e (λ _ e', engine_inv e' ∧ input_queue e' = []) in_fuel.
Proof.
  move=> HI Hq. rw /busy_turn. do 2 wp_step. wp_step.
  { wp_step. split; first done. apply andb_true_iff in Heqb as [_ Hb]. by case_bool_decide. }
  do 3 wp_step.
  apply wp_handle_all; [by destruct HI; split|by destruct Hq; split|].
  move=> e1 HI1 Hq1. do 2 wp_step. wp_step; last done. wp_step.
  apply wp_engine_step; first done. move=> [outs ob] e2 HI2 Hq2. rw /put_output. wp_step.
  split; [by destruct HI2; split|by rw /= Hq2 Hq1].
Qed.
End engine.

(** Runs of the engine: requests arrive and the busy loop turns. The client
    does not use an id twice while it is in use. *)
Inductive engine_reach (py_hash : option Z → list Z → Z) : EngineCore → Prop :=
  | er_init sc cc override profiled no_mm coll c rs e :
      profiled.1 ≤ profiled.2 → (0 ≤ max_num_seqs sc)%Z → (0 ≤ max_num_batched_tokens sc)%Z →
      engine_init sc cc override profiled no_mm coll c rs = Ok e → engine_reach py_hash e
  | er_receive e r e' :
      engine_reach py_hash e →
      (∀ q, r = ReqAdd q → dget (requests (scheduler e)) (ecr_request_id q) = None ∧
                          ecr_request_id q ∉ add_ids (input_queue e)) →
      receive r e = Ok (tt, e') → engine_reach py_hash e'
  | er_turn e e' :
      engine_reach py_hash e → busy_turn py_hash e = Ok (tt, e') → engine_reach py_hash e'.

Lemma engine_init_inv py_hash sc cc override profiled no_mm coll c rs e :
  profiled.1 ≤ profiled.2 → (0 ≤ max_num_seqs sc)%Z → (0 ≤ max_num_batched_tokens sc)%Z →
  engine_init sc cc override profiled no_mm coll c rs = Ok e →
  engine_inv py_hash e ∧ queue_ok e (input_queue e).
Proof.
  move=> Hb H1 H2. rw /engine_init /mbind /result_bind.
  destruct (initialize_kv_caches override profiled) as [[g p]|] eqn:Ek; last done. simpl.
  have Hg : g ≤ p.
  { move: Ek. rw /initialize_kv_caches. destruct profiled as [g0 p0]. destruct override; last by move=> [<- <-].
    case_bool_decide; last done. move=> [<- <-]. simpl in *. lia. }
  destruct (scheduler_init sc _ c) as [s|] eqn:Es; last done. move=> [<-]. split.
  - split; [by refine (sched_reach_init _ _ _ _ _ _ H1 H2 Es)|done|done|]. split; [apply dict_wf_nil|by move=> k /elem_of_nil|done].
  - split; [constructor|by move=> rid /elem_of_nil].
Qed.

Lemma engine_reach_inv py_hash e :
  engine_reach py_hash e → engine_inv py_hash e ∧ queue_ok e (input_queue e).
Proof.
  induction 1 as [sc cc ov pr no_mm coll c rs e H1 H2 H3 H4|e r e' _ [HI [Hn Hf]] Hfresh [= <-]|e e' _ [HI Hq] Hrun].
  - by eapply engine_init_inv.
  - split; first by destruct HI; split. rw /=.
    have Hsplit : add_ids (input_queue e ++ [r]) = add_ids (input_queue e) ++ add_ids [r] by rw /add_ids omap_app.
    split; rw Hsplit.
    + apply NoDup_app. split_and!; [done| |destruct r; simpl; try apply NoDup_singleton; constructor].
      move=> rid Hin. destruct r as [q| | | |]; try apply not_elem_of_nil.
      move=> /list_elem_of_singleton ?. subst. by destruct (Hfresh q eq_refl).
    + move=> rid /elem_of_app [Hin|Hin]; first by apply Hf.
      destruct r as [q| | | |]; try by apply elem_of_nil in Hin.
      apply list_elem_of_singleton in Hin. subst. by destruct (Hfresh q eq_refl).
  - destruct (wp_ok _ _ _ _ _ _ (wp_busy_turn py_hash e HI Hq) Hrun) as [HI' Hq']. split; first done.
    rw Hq'. split; [constructor|by move=> rid /elem_of_nil].
Qed.

(** * A concrete engine *)
Definition demo_results (n : nat) : ModelRunnerOutput :=
  {| req_id_to_index := [("a"%string, 0)]; sampled_token_ids := [7%Z]; mro_new_token_ids := []; bad_ids := [] |}.
Definition demo_request (id : string) : EngineCoreRequest :=
  {| ecr_request_id := id; ecr_prompt := None; ecr_prompt_token_ids := Z.of_nat <$> seq 0 10;
     ecr_mm_inputs := None; ecr_mm_hashes := None; ecr_mm_placeholders := None;
     ecr_sampling_params := set_sp_max_tokens (Some 3%Z) default_sampling_params;
     ecr_eos_token_id := None; ecr_arrival_time := 0 |}.
#[export] Instance EngineCore_inhabited : Inhabited EngineCore :=
  populate {| scheduler := inhabitant; scheduler_output_prev := None; prev_lookahead := false;
    mm_input_mapper_server := mm_server_init true; need_collection := false; sent := []; in_flight := [];
    results := demo_results; input_queue := []; output_queue := [] |}.
Definition demo_engine : EngineCore :=
  match engine_init demo_config demo_cache None (8, 20) false false Z.of_nat demo_results with
  | Ok e => e | Raise _ => inhabitant end.
Definition after {A} (m : EC A) (e : EngineCore) : EngineCore :=
  match m e with Ok (_, e') => e' | Raise _ => inhabitant end.
Definition demo_received : EngineCore := after (receive (ReqAdd (demo_request "a"))) demo_engine.
Definition demo_turned : EngineCore := after (busy_turn pairing_hash) demo_received.

Lemma demo_engine_reach : engine_reach pairing_hash demo_engine.
Proof.
  eapply (er_init _ demo_config demo_cache None (8, 20) false false Z.of_nat demo_results);
    [vm_compute; lia|vm_compute; done|vm_compute; done|vm_compute; reflexivity].
Qed.
Lemma demo_received_reach : engine_reach pairing_hash demo_received.
Proof.
  eapply (er_receive _ demo_engine (ReqAdd (demo_request "a"))); [apply demo_engine_reach| |vm_compute; reflexivity].
  move=> q [<-]. split; [vm_compute; reflexivity|apply not_elem_of_nil].
Qed.
Lemma demo_turned_reach : engine_reach pairing_hash demo_turned.
Proof. eapply (er_turn _ demo_received); [apply demo_received_reach|vm_compute; reflexivity]. Qed.

(** * Theorems *)

(** C13: The engine drives the scheduler only through its public methods and
    within their preconditions: in every reachable state of the engine the
    scheduler is in a state its own theorems speak about. *)
Theorem engine_refines_scheduler py_hash e :
  engine_reach py_hash e → sched_reach py_hash (scheduler e).
Proof. move=> /engine_reach_inv [HI _]. apply (ei_sched _ _ HI). Qed.
Lemma engine_refines_scheduler_witness : sched_reach pairing_hash (scheduler demo_turned).
Proof. exact (engine_refines_scheduler pairing_hash demo_turned demo_turned_reach). Defined.

(** C12: The protocol with the executor: an execution is in flight exactly when
    the previous schedule handed out tokens, it is the execution of that
    schedule (so a result is always processed against the schedule it was
    computed for), and every request it names is still registered and queued. *)
Theorem executor_protocol py_hash e :
  engine_reach py_hash e →
  in_flight e = match scheduler_output_prev e with
                | Some o => if (0 <? total_num_scheduled_tokens o)%Z then [o] else []
                | None => []
                end ∧
  ∀ o rid, scheduler_output_prev e = Some o → rid ∈ dkeys (out_num_scheduled_tokens o) →
    ∃ r, dget (requests (scheduler e)) rid = Some r ∧ r ∈ running (scheduler e) ++ waiting (scheduler e).
Proof.
  move=> /engine_reach_inv [[H1 H2 H3 H4] _]. split; first exact H3.
  move=> o rid Ho Hr. destruct (ko_known _ _ (H2 o Ho) rid Hr) as [r Hk]. exists r. split; first done.
  by destruct (si_only _ _ _ (so_inv _ (sched_reach_ok _ _ H1)) _ _ Hk).
Qed.
Lemma executor_protocol_witness :
  length (in_flight demo_turned) = 1 ∧
  in_flight demo_turned = match scheduler_output_prev demo_turned with
                | Some o => if (0 <? total_num_scheduled_tokens o)%Z then [o] else []
                | None => []
                end ∧
  ∀ o rid, scheduler_output_prev demo_turned = Some o → rid ∈ dkeys (out_num_scheduled_tokens o) →
    ∃ r, dget (requests (scheduler demo_turned)) rid = Some r ∧
      r ∈ running (scheduler demo_turned) ++ waiting (scheduler demo_turned).
Proof.
  split; [vm_compute; reflexivity|]. exact (executor_protocol pairing_hash demo_turned demo_turned_reach).
Defined.

(** C14: A turn of the busy loop never waits for a result that nobody computes,
    never loops for ever, and never looks up a request that is gone, whatever
    the executor answers and whatever the clients sent. *)
Theorem busy_turn_not_stuck py_hash e :
  engine_reach py_hash e →
  busy_turn py_hash e ≠ Raise Deadlock ∧ busy_turn py_hash e ≠ Raise OutOfFuel ∧
  busy_turn py_hash e ≠ Raise (KeyError "self.requests").
Proof.
  move=> /engine_reach_inv [HI Hq]. have := wp_busy_turn py_hash e HI Hq. rw /wp.
  destruct (busy_turn py_hash e) as [[? ?]|x]; first by move=> _; split_and!.
  move=> Hx. split_and!; move=> [Heq]; by subst x.
Qed.
Lemma busy_turn_not_stuck_witness :
  busy_turn pairing_hash demo_turned ≠ Raise Deadlock ∧ busy_turn pairing_hash demo_turned ≠ Raise OutOfFuel ∧
  busy_turn pairing_hash demo_turned ≠ Raise (KeyError "self.requests").
Proof. exact (busy_turn_not_stuck pairing_hash demo_turned demo_turned_reach). Defined.

(** When no request is unfinished nothing is being executed: the engine can
    go idle without leaving a result behind. *)
Theorem idle_engine_quiet py_hash e :
  engine_reach py_hash e → has_unfinished_requests (scheduler e) = false → in_flight e = [].
Proof.
  move=> /engine_reach_inv [[H1 H2 H3 H4] _] Hidle. rw H3 /flight_of.
  destruct (scheduler_output_prev e) as [o|]; last done.
  destruct (H2 o eq_refl) as [K1 K2 K3]. case_match eqn:Ht; last done. exfalso.
  destruct (out_num_scheduled_tokens o) as [|[rid n] d]; first by rw K2 /= in Ht.
  destruct (K3 rid) as [r Hr]; first by left.
  destruct (si_only _ _ _ (so_inv _ (sched_reach_ok _ _ H1)) _ _ Hr) as [Hin _].
  have : length (running (scheduler e) ++ waiting (scheduler e)) ≠ 0 by destruct (_ ++ _); [set_solver|].
  rw length_app. move: Hidle. rw /has_unfinished_requests /get_num_unfinished_requests. lia.
Qed.
Lemma idle_engine_quiet_witness :
  has_unfinished_requests (scheduler demo_engine) = false ∧ in_flight demo_engine = [].
Proof.
  split; [vm_compute; reflexivity|].
  apply (idle_engine_quiet pairing_hash demo_engine demo_engine_reach). vm_compute; reflexivity.
Defined.

(** An abort request stops the engine: [_handle_client_request] calls a
    method the class does not have, so a turn with an abort in the queue ends in
    an [AttributeError]. *)
Theorem abort_request_raises :
  ∃ e, engine_reach pairing_hash e ∧ input_queue e = [ReqAbort ["a"%string]] ∧
    busy_turn pairing_hash e = Raise (AttributeError "abort_requests").
Proof.
  exists (after (receive (ReqAbort ["a"%string])) demo_turned). split; [|vm_compute; done].
  eapply (er_receive _ demo_turned (ReqAbort ["a"%string])); [apply demo_turned_reach|done|reflexivity].
Qed.
