(* ===== verification/InputBatch.v ===== *)
(** The persistent batch of the model runner: classes [CachedRequestState] and
    [InputBatch] of vllm/v1/worker/gpu_input_batch.py.

    The arrays that are indexed by a batch row (token ids, block table, sampling
    parameters, ...) are the fields of a [Row]; the GPU copies of the arrays are
    left out. Torch generators are references into the model runner's heap. *)
From Stdlib Require Import ssreflect ZArith Lia PrimFloat.
From stdpp Require Import base numbers list gmap strings.
From S2P Require Import Prelude SamplingParams KVCacheBlock Request.

Record CachedRequestState := {
  crs_req_id : string;
  crs_prompt_token_ids : list Z;
  crs_prompt : option string;
  crs_mm_inputs : list (option MultiModalKwargs);
  crs_mm_positions : list PlaceholderRange;
  crs_sampling_params : SamplingParams;
  crs_generator : option nat;
  crs_block_ids : list nat;
  crs_num_computed_tokens : Z;
  crs_output_token_ids : list Z;
}.
Definition crs_num_tokens (r : CachedRequestState) : Z :=
  Z.of_nat (length (crs_prompt_token_ids r)) + Z.of_nat (length (crs_output_token_ids r)).

Record Row := {
  row_token_ids : list Z;
  row_num_prompt_tokens : Z;
  row_num_computed_tokens : Z;
  row_block_table : list nat;
  row_temperature : float;
  row_top_p : float;
  row_top_k : Z;
  row_frequency_penalty : float;
  row_presence_penalty : float;
  row_repetition_penalty : float;
  row_min_tokens : Z;
  row_stop_token_ids : list Z;
}.

Record InputBatch := {
  max_num_reqs : nat;
  req_ids : list (option string);
  req_index : dict string nat;
  rows : list Row;
  greedy_reqs : list string;
  random_reqs : list string;
  top_p_reqs : list string;
  top_k_reqs : list string;
  frequency_penalties_reqs : list string;
  presence_penalties_reqs : list string;
  repetition_penalties_reqs : list string;
  generators : dict nat nat;
  num_logprobs : dict string Z;
  prompt_logprob_reqs : list string;
}.
Definition set_req_ids (v : list (option string)) (r : InputBatch) : InputBatch :=
  {| max_num_reqs := max_num_reqs r; req_ids := v; req_index := req_index r; rows := rows r; greedy_reqs := greedy_reqs r; random_reqs := random_reqs r; top_p_reqs := top_p_reqs r; top_k_reqs := top_k_reqs r; frequency_penalties_reqs := frequency_penalties_reqs r; presence_penalties_reqs := presence_penalties_reqs r; repetition_penalties_reqs := repetition_penalties_reqs r; generators := generators r; num_logprobs := num_logprobs r; prompt_logprob_reqs := prompt_logprob_reqs r |}.
Definition set_req_index (v : dict string nat) (r : InputBatch) : InputBatch :=
  {| max_num_reqs := max_num_reqs r; req_ids := req_ids r; req_index := v; rows := rows r; greedy_reqs := greedy_reqs r; random_reqs := random_reqs r; top_p_reqs := top_p_reqs r; top_k_reqs := top_k_reqs r; frequency_penalties_reqs := frequency_penalties_reqs r; presence_penalties_reqs := presence_penalties_reqs r; repetition_penalties_reqs := repetition_penalties_reqs r; generators := generators r; num_logprobs := num_logprobs r; prompt_logprob_reqs := prompt_logprob_reqs r |}.
Definition set_rows (v : list Row) (r : InputBatch) : InputBatch :=
  {| max_num_reqs := max_num_reqs r; req_ids := req_ids r; req_index := req_index r; rows := v; greedy_reqs := greedy_reqs r; random_reqs := random_reqs r; top_p_reqs := top_p_reqs r; top_k_reqs := top_k_reqs r; frequency_penalties_reqs := frequency_penalties_reqs r; presence_penalties_reqs := presence_penalties_reqs r; repetition_penalties_reqs := repetition_penalties_reqs r; generators := generators r; num_logprobs := num_logprobs r; prompt_logprob_reqs := prompt_logprob_reqs r |}.
Definition set_generators (v : dict nat nat) (r : InputBatch) : InputBatch :=
  {| max_num_reqs := max_num_reqs r; req_ids := req_ids r; req_index := req_index r; rows := rows r; greedy_reqs := greedy_reqs r; random_reqs := random_reqs r; top_p_reqs := top_p_reqs r; top_k_reqs := top_k_reqs r; frequency_penalties_reqs := frequency_penalties_reqs r; presence_penalties_reqs := presence_penalties_reqs r; repetition_penalties_reqs := repetition_penalties_reqs r; generators := v; num_logprobs := num_logprobs r; prompt_logprob_reqs := prompt_logprob_reqs r |}.

(** The arrays created by [np.empty] and [torch.empty] start with whatever is
    in memory: [uninit] stands for it. *)
Definition blank_row (max_model_len max_num_blocks_per_req : nat) (uninit : float) (uninit_int : Z) : Row :=
  {| row_token_ids := replicate max_model_len 0%Z; row_num_prompt_tokens := 0;
     row_num_computed_tokens := uninit_int; row_block_table := replicate max_num_blocks_per_req 0;
     row_temperature := uninit; row_top_p := uninit; row_top_k := uninit_int;
     row_frequency_penalty := uninit; row_presence_penalty := uninit; row_repetition_penalty := uninit;
     row_min_tokens := 0; row_stop_token_ids := [] |}.
Definition batch_init (n max_model_len max_num_blocks_per_req : nat) (uninit : float) (uninit_int : Z)
    : InputBatch :=
  {| max_num_reqs := n; req_ids := replicate n None; req_index := [];
     rows := replicate n (blank_row max_model_len max_num_blocks_per_req uninit uninit_int);
     greedy_reqs := []; random_reqs := []; top_p_reqs := []; top_k_reqs := [];
     frequency_penalties_reqs := []; presence_penalties_reqs := []; repetition_penalties_reqs := [];
     generators := []; num_logprobs := []; prompt_logprob_reqs := [] |}.

Definition num_reqs (b : InputBatch) : nat := length (req_index b).
Definition all_greedy (b : InputBatch) : bool := bool_decide (random_reqs b = []).
Definition all_random (b : InputBatch) : bool := bool_decide (greedy_reqs b = []).
Definition no_top_p (b : InputBatch) : bool := bool_decide (top_p_reqs b = []).
Definition no_top_k (b : InputBatch) : bool := bool_decide (top_k_reqs b = []).
Definition no_penalties (b : InputBatch) : bool :=
  bool_decide (presence_penalties_reqs b = []) && bool_decide (frequency_penalties_reqs b = [])
  && bool_decide (repetition_penalties_reqs b = []).
Definition max_num_logprobs (b : InputBatch) : Z := foldr Z.max 0%Z (dvalues (num_logprobs b)).
Definition no_logprob (b : InputBatch) : bool := bool_decide (num_logprobs b = []).
Definition no_prompt_logprob (b : InputBatch) : bool := bool_decide (prompt_logprob_reqs b = []).

(** [row[start:start + len(l)] = l] on a numpy row: the slice is clipped to the
    row, and a length that does not fit raises, unless a single value is
    broadcast into the empty slice. *)
Definition slice_assign {A} (row : list A) (start : nat) (l : list A) : result (list A) :=
  if bool_decide (min (start + length l) (length row) - min start (length row) = length l)
  then Ok (take start row ++ l ++ drop (start + length l) row)
  else if bool_decide (length l = 1) then Ok row
  else Raise (ValueError "could not broadcast input array").

Section batch.
(** The rounding of a Python float to float32. *)
Variable float32 : float → float.

(** The row of a request, written over the previous content. *)
Definition fill_row (r : CachedRequestState) (old : Row) : result Row :=
  let p := crs_sampling_params r in
  let num_prompt_tokens := length (crs_prompt_token_ids r) in
  tokens ← slice_assign (row_token_ids old) 0 (crs_prompt_token_ids r);
  tokens ← slice_assign tokens num_prompt_tokens (crs_output_token_ids r);
  blocks ← slice_assign (row_block_table old) 0 (crs_block_ids r);
  mret {| row_token_ids := tokens; row_num_prompt_tokens := Z.of_nat num_prompt_tokens;
          row_num_computed_tokens := crs_num_computed_tokens r; row_block_table := blocks;
          row_temperature := float32 (temperature p); row_top_p := float32 (top_p p); row_top_k := top_k p;
          row_frequency_penalty := float32 (frequency_penalty p);
          row_presence_penalty := float32 (presence_penalty p);
          row_repetition_penalty := float32 (repetition_penalty p);
          row_min_tokens := min_tokens p; row_stop_token_ids := all_stop_token_ids p |}.

Definition add_if (b : bool) (x : string) (l : list string) : list string := if b then set_add x l else l.

Definition batch_add_request (r : CachedRequestState) (index : option nat) : M InputBatch unit :=
  b ← mget;
  let i := default (num_reqs b) index in
  massert (bool_decide (i < max_num_reqs b)) "req_index < self.max_num_reqs";;;
  let req_id := crs_req_id r in
  let p := crs_sampling_params r in
  match rows b !! i with
  | None => mraise (IndexError "rows")
  | Some old =>
    row ← mlift (fill_row r old);
    let greedy := bool_decide (sampling_type p = GREEDY) in
    mput {| max_num_reqs := max_num_reqs b;
            req_ids := <[i := Some req_id]> (req_ids b);
            req_index := dset (req_index b) req_id i;
            rows := <[i := row]> (rows b);
            greedy_reqs := add_if greedy req_id (greedy_reqs b);
            random_reqs := add_if (negb greedy) req_id (random_reqs b);
            top_p_reqs := add_if (PrimFloat.ltb (top_p p) 1) req_id (top_p_reqs b);
            top_k_reqs := add_if (0 <? top_k p)%Z req_id (top_k_reqs b);
            frequency_penalties_reqs :=
              add_if (negb (PrimFloat.eqb (frequency_penalty p) 0)) req_id (frequency_penalties_reqs b);
            presence_penalties_reqs :=
              add_if (negb (PrimFloat.eqb (presence_penalty p) 0)) req_id (presence_penalties_reqs b);
            repetition_penalties_reqs :=
              add_if (negb (PrimFloat.eqb (repetition_penalty p) 1)) req_id (repetition_penalties_reqs b);
            generators := match crs_generator r with
                          | Some g => dset (generators b) i g
                          | None => generators b
                          end;
            num_logprobs := match sp_logprobs p with
                            | Some c => if (0 <? count_value c)%Z
                                        then dset (num_logprobs b) req_id (count_value c) else num_logprobs b
                            | None => num_logprobs b
                            end;
            prompt_logprob_reqs :=
              add_if (opt_test (λ c, negb (count_value c =? 0)%Z) (prompt_logprobs p)) req_id
                (prompt_logprob_reqs b) |}
  end.

Definition batch_remove_request (req_id : string) : M InputBatch (option nat) :=
  b ← mget;
  match dget (req_index b) req_id with
  | None => mret None
  | Some i =>
    mput {| max_num_reqs := max_num_reqs b;
            req_ids := <[i := None]> (req_ids b);
            req_index := ddel (req_index b) req_id;
            rows := rows b;
            greedy_reqs := set_discard req_id (greedy_reqs b);
            random_reqs := set_discard req_id (random_reqs b);
            top_p_reqs := set_discard req_id (top_p_reqs b);
            top_k_reqs := set_discard req_id (top_k_reqs b);
            frequency_penalties_reqs := set_discard req_id (frequency_penalties_reqs b);
            presence_penalties_reqs := set_discard req_id (presence_penalties_reqs b);
            repetition_penalties_reqs := set_discard req_id (repetition_penalties_reqs b);
            generators := ddel (generators b) i;
            num_logprobs := ddel (num_logprobs b) req_id;
            prompt_logprob_reqs := set_discard req_id (prompt_logprob_reqs b) |};;;
    mret (Some i)
  end.
End batch.

Definition batch_clear : M InputBatch unit :=
  mmodify (λ b,
    {| max_num_reqs := max_num_reqs b; req_ids := replicate (max_num_reqs b) None; req_index := [];
       rows := rows b; greedy_reqs := []; random_reqs := []; top_p_reqs := []; top_k_reqs := [];
       frequency_penalties_reqs := []; presence_penalties_reqs := []; repetition_penalties_reqs := [];
       generators := []; num_logprobs := []; prompt_logprob_reqs := [] |}).

(** ** [condense] *)

(** [while last_req_index in empty_req_indices: last_req_index -= 1]. Each turn
    passes another of the indices. *)
Fixpoint skip_empty (fuel : nat) (empty : list nat) (last : Z) : result Z :=
  match fuel with
  | 0 => Raise OutOfFuel
  | S fuel => if bool_decide (last ∈ (Z.of_nat <$> empty)) then skip_empty fuel empty (last - 1) else Ok last
  end.
(** Move the request in row [last] to the empty row [e]. *)
Definition move_row (e last : nat) : M InputBatch unit :=
  b ← mget;
  match req_ids b !! last with
  | None => mraise (IndexError "self.req_ids[last_req_index]")
  | Some None => mraise (AssertionError "req_id is not None")
  | Some (Some req_id) =>
    mmodify (λ b, set_req_index (dset (req_index b) req_id e)
      (set_req_ids (<[last := None]> (<[e := Some req_id]> (req_ids b))) b));;;
    mmodify (λ b, match rows b !! last with Some r => set_rows (<[e := r]> (rows b)) b | None => b end);;;
    match dget (generators b) last with
    | Some g => mmodify (λ b, set_generators (dset (ddel (generators b) last) e g) b)
    | None => mret tt
    end
  end.
(** [empty] is sorted in descending order; [pop()] takes the smallest. *)
Fixpoint condense_loop (fuel : nat) (empty : list nat) (last_req_index : Z) : M InputBatch unit :=
  match fuel with
  | 0 => mraise OutOfFuel
  | S fuel =>
    match last empty with
    | None => mret tt
    | Some e =>
      l ← mlift (skip_empty (S (length empty)) empty last_req_index);
      if (l <=? Z.of_nat e)%Z then mret tt
      else move_row e (Z.to_nat l);;; condense_loop fuel (removelast empty) (l - 1)
    end
  end.
Definition condense (empty_req_indices : list nat) : M InputBatch unit :=
  n ← mgets num_reqs;
  if bool_decide (n = 0) then mret tt
  else condense_loop (S (length empty_req_indices)) empty_req_indices
         (Z.of_nat n + Z.of_nat (length empty_req_indices) - 1).
