(* ===== verification/BatchTheorems.v ===== *)
(** The persistent batch: its invariant, and what adding, removing and
    condensing do to the requests in it. *)
From Stdlib Require Import ssreflect ZArith Lia PrimFloat Sorting.Sorted.
From stdpp Require Import base numbers list gmap strings.
From S2P Require Import Prelude SamplingParams KVCacheBlock Request InputBatch.

(** * Invariant *)

(** The rows below [n] hold a request, except the rows [E]; the two directions
    of the index agree. *)
Record batch_inv (b : InputBatch) (E : list nat) (n : nat) : Prop := {
  bi_ids : length (req_ids b) = max_num_reqs b;
  bi_rows : length (rows b) = max_num_reqs b;
  bi_wf : dict_wf (req_index b);
  bi_index : ∀ id i, dget (req_index b) id = Some i ↔ req_ids b !! i = Some (Some id);
  bi_used : ∀ i, (∃ id, req_ids b !! i = Some (Some id)) ↔ i < n ∧ i ∉ E;
  bi_empty : ∀ e, e ∈ E → e < n;
  bi_nodup : NoDup E;
  bi_num : num_reqs b + length E = n;
  bi_gens : dict_wf (generators b);
  bi_gen_used : ∀ i g, dget (generators b) i = Some g → ∃ id, req_ids b !! i = Some (Some id);
}.

Lemma bi_bound b E n : batch_inv b E n → ∀ i id, req_ids b !! i = Some (Some id) → i < max_num_reqs b.
Proof. move=> HI i id H. rw -(bi_ids _ _ _ HI). by eapply lookup_lt_Some. Qed.

(** What a request's row holds: its data and its generator. *)
Definition row_of (b : InputBatch) (id : string) : option (Row * option nat) :=
  i ← dget (req_index b) id; r ← rows b !! i; mret (r, dget (generators b) i).

Lemma row_of_is_Some b E n id : batch_inv b E n → is_Some (row_of b id) ↔ is_Some (dget (req_index b) id).
Proof.
  move=> HI. rw /row_of. destruct (dget (req_index b) id) as [i|] eqn:Ei; simpl; last done.
  have Hi := bi_bound _ _ _ HI i id (proj1 (bi_index _ _ _ HI id i) Ei).
  destruct (lookup_lt_is_Some_2 (rows b) i) as [r ->]; [by rw (bi_rows _ _ _ HI)|]. split; by eexists.
Qed.

Lemma batch_init_inv n m k u z : batch_inv (batch_init n m k u z) [] 0.
Proof.
  split; simpl; try done; try (by rw length_replicate); try (by apply dict_wf_nil); try constructor.
  - done.
  - move=> H. apply lookup_replicate in H as [? _]. done.
  - move=> [id H]. by apply lookup_replicate in H as [? _].
  - lia.
  - by move=> e /elem_of_nil.
Qed.

(** * Removing *)
Lemma batch_remove_spec b E n id :
  batch_inv b E n →
  match dget (req_index b) id with
  | None => batch_remove_request id b = Ok (None, b)
  | Some i => ∃ b', batch_remove_request id b = Ok (Some i, b') ∧ batch_inv b' (i :: E) n ∧
      max_num_reqs b' = max_num_reqs b ∧ rows b' = rows b ∧ req_index b' = ddel (req_index b) id ∧
      ∀ id', id' ≠ id → row_of b' id' = row_of b id'
  end.
Proof.
  move=> HI. rw /batch_remove_request /mbind /M_bind /mget /mput.
  destruct (dget (req_index b) id) as [i|] eqn:Ei; last done.
  destruct HI as [H1 H2 H3 H4 H5 H6 H7 H8 H9 H10].
  have Hi := proj1 (H4 id i) Ei. have Hlt := lookup_lt_Some _ _ _ Hi.
  destruct (proj1 (H5 i) (ex_intro _ id Hi)) as [Hn HE].
  eexists. split; [reflexivity|]. split_and!; [|done|done|done|].
  - split; simpl; [by rw length_insert|done|by apply dict_wf_ddel| | | |by apply NoDup_cons| |by apply dict_wf_ddel|].
    + move=> id' j. rw dget_ddel //. destruct (decide (j = i)) as [->|Hj].
      * rw list_lookup_insert_eq //. split; [|done]. case_decide; first done. rw H4 Hi. congruence.
      * rw list_lookup_insert_ne //. case_decide; last done. subst id'. split; first done.
        rw -H4 Ei. congruence.
    + move=> j. rw not_elem_of_cons. destruct (decide (j = i)) as [->|Hj].
      * rw list_lookup_insert_eq //. split; [by move=> [? ?]|tauto].
      * rw list_lookup_insert_ne // H5. tauto.
    + move=> e /elem_of_cons [-> //|]. apply H6.
    + rw /num_reqs /= in H8 |- *. rw (length_ddel _ _ _ Ei) in H8. lia.
    + move=> j g. rw dget_ddel //. case_decide as Hj; first done. rw list_lookup_insert_ne //. apply H10.
  - move=> id' Hid. rw /row_of /= dget_ddel_ne //.
    destruct (dget (req_index b) id') as [j|] eqn:Ej; last done. simpl.
    have Hj : j ≠ i. { move=> Hj. subst j. apply H4 in Ej. congruence. }
    by rw dget_ddel_ne.
Qed.

(** * Adding *)

(** A request that is not in the batch is put into the empty row [i]. *)
Lemma batch_add_spec float32 b E E' n n' r i old row :
  batch_inv b E n → dget (req_index b) (crs_req_id r) = None →
  (∀ id, req_ids b !! i ≠ Some (Some id)) → i < max_num_reqs b →
  (∀ j, j < n' ∧ j ∉ E' ↔ j = i ∨ j < n ∧ j ∉ E) → (∀ e, e ∈ E' → e < n') → NoDup E' →
  S (num_reqs b) + length E' = n' →
  rows b !! i = Some old → fill_row float32 r old = Ok row →
  ∃ b', (∀ index, default (num_reqs b) index = i → batch_add_request float32 r index b = Ok (tt, b')) ∧
    batch_inv b' E' n' ∧ max_num_reqs b' = max_num_reqs b ∧ rows b' = <[i := row]> (rows b) ∧
    req_index b' = dset (req_index b) (crs_req_id r) i ∧
    row_of b' (crs_req_id r) = Some (row, crs_generator r) ∧
    ∀ id', id' ≠ crs_req_id r → row_of b' id' = row_of b id'.
Proof.
  move=> HI Hnew Hfree Hi Hused HE' Hnd Hnum Hold Hrow. destruct HI as [H1 H2 H3 H4 H5 H6 H7 H8 H9 H10].
  have Hgen : dget (generators b) i = None.
  { apply eq_None_not_Some => -[g Hg]. destruct (H10 _ _ Hg) as [id Hid]. by apply (Hfree id). }
  eexists. split.
  { move=> index Hx. rw /batch_add_request /mbind /M_bind /mget Hx /massert bool_decide_eq_true_2 // /= Hold.
    by rw /mlift Hrow. }
  have Hgi : ∀ j, j ≠ i → dget (match crs_generator r with Some g => dset (generators b) i g | None => generators b end) j
    = dget (generators b) j by move=> j Hj; destruct (crs_generator r); [rw dget_dset_ne|].
  split_and!; [|done|done|done| |].
  - split; simpl; [by rw length_insert|by rw length_insert|by apply dict_wf_dset| | |done|done| | |].
    + move=> id j. rw dget_dset. destruct (decide (j = i)) as [->|Hj].
      * rw list_lookup_insert_eq; first by rw H1. case_decide; first by subst.
        split; [|congruence]. move=> /H4 Hx. by destruct (Hfree id).
      * rw list_lookup_insert_ne //. case_decide; last done. subst id. rw -H4 Hnew. split; congruence.
    + move=> j. rw Hused. destruct (decide (j = i)) as [->|Hj].
      * rw list_lookup_insert_eq; first by rw H1. split; [by left|by eexists].
      * rw list_lookup_insert_ne // H5. tauto.
    + rw /num_reqs /= length_dset. case_decide as Hd; [rw Hnew in Hd; by destruct Hd|exact Hnum].
    + destruct (crs_generator r); auto with py.
    + move=> j g. destruct (decide (j = i)) as [->|Hj]; first by rw list_lookup_insert_eq; [rw H1|eexists].
      rw Hgi // list_lookup_insert_ne //. apply H10.
  - rw /row_of /= dget_dset_eq /= list_lookup_insert_eq; first by rw H2.
    destruct (crs_generator r); [by rw /= dget_dset_eq|by rw /= Hgen].
  - move=> id Hid. rw /row_of /= dget_dset_ne //.
    destruct (dget (req_index b) id) as [j|] eqn:Ej; last done. simpl.
    have Hj : j ≠ i. { move=> ?. subst j. apply H4 in Ej. by apply (Hfree id). }
    by rw list_lookup_insert_ne // Hgi.
Qed.

(** * Condensing *)

(** Moving the request in the last row to an empty row below it. *)
Lemma move_row_spec b e l id :
  dict_wf (req_index b) → dict_wf (generators b) → length (rows b) = length (req_ids b) →
  (∀ id i, dget (req_index b) id = Some i ↔ req_ids b !! i = Some (Some id)) →
  (∀ i g, dget (generators b) i = Some g → ∃ id, req_ids b !! i = Some (Some id)) →
  e < l → req_ids b !! l = Some (Some id) → (∀ id', req_ids b !! e ≠ Some (Some id')) →
  ∃ b', move_row e l b = Ok (tt, b') ∧ max_num_reqs b' = max_num_reqs b ∧
    req_ids b' = <[l := None]> (<[e := Some id]> (req_ids b)) ∧
    req_index b' = dset (req_index b) id e ∧ length (rows b') = length (rows b) ∧
    dict_wf (generators b') ∧
    (∀ i g, dget (generators b') i = Some g → i = e ∨ i ≠ l ∧ dget (generators b) i = Some g) ∧
    (∀ id', row_of b' id' = row_of b id') ∧ rows b' ⊆ rows b.
Proof.
  move=> Hw Hg Hlen Hix Hgu Hel Hl He. have Hll := lookup_lt_Some _ _ _ Hl.
  destruct (lookup_lt_is_Some_2 (rows b) l) as [r Hr]; first lia.
  have Hge : dget (generators b) e = None.
  { apply eq_None_not_Some => -[g Hg']. destruct (Hgu _ _ Hg') as [id' Hid]. by apply (He id'). }
  rw /move_row /mbind /M_bind /mget Hl /mmodify /= Hr.
  set gens := match dget (generators b) l with
    | Some g => dset (ddel (generators b) l) e g | None => generators b end.
  have Hgens : ∀ i, dget gens i = if decide (i = e) then dget (generators b) l
      else if decide (i = l) then None else dget (generators b) i.
  { move=> i. rw /gens. destruct (dget (generators b) l) as [g|] eqn:E.
    - rw dget_dset. case_decide; first done. by rw dget_ddel.
    - repeat case_decide; by subst. }
  exists (set_generators gens (set_rows (<[e := r]> (rows b)) (set_req_index (dset (req_index b) id e)
    (set_req_ids (<[l := None]> (<[e := Some id]> (req_ids b))) b)))).
  split; [rw /gens; by destruct (dget (generators b) l)|]. split_and!; try done.
  - by rw /= length_insert.
  - rw /= /gens. destruct (dget (generators b) l); auto with py.
  - move=> i g. rw /= Hgens. repeat case_decide; [by left|done|by right].
  - move=> id'. rw /row_of /= dget_dset. case_decide as Hid.
    + subst id'. rw /= list_lookup_insert_eq; first lia. by rw (proj2 (Hix id l) Hl) /= Hr Hgens decide_True.
    + destruct (dget (req_index b) id') as [j|] eqn:Ej; last done. simpl. apply Hix in Ej.
      have Hje : j ≠ e by move=> ?; subst j; apply (He id').
      have Hjl : j ≠ l by move=> ?; subst j; congruence.
      by rw list_lookup_insert_ne // Hgens decide_False // decide_False.
  - move=> x /= /list_elem_of_lookup [j]. rw list_lookup_insert_Some => -[[_ [<- _]]|[_ Hx]];
      by eapply list_elem_of_lookup_2.
Qed.

(** The empty rows up to [l]. *)
Definition empties (E : list nat) (l : Z) : nat := length (filter (λ e, Z.of_nat e ≤ l)%Z E).

Lemma empties_le E l : empties E l ≤ length E.
Proof. apply length_filter. Qed.
Lemma empties_step E l : NoDup E → l ∈ (Z.of_nat <$> E) → empties E l = S (empties E (l - 1)).
Proof.
  move=> Hn /list_elem_of_fmap [k [-> Hk]]. rw /empties.
  have Hp : filter (λ e, Z.of_nat e ≤ Z.of_nat k)%Z E ≡ₚ k :: filter (λ e, Z.of_nat e ≤ Z.of_nat k - 1)%Z E.
  { apply NoDup_Permutation; [by apply NoDup_filter| |].
    - apply NoDup_cons. split; [|by apply NoDup_filter]. rw list_elem_of_filter. lia.
    - move=> x. rw elem_of_cons !list_elem_of_filter. destruct (decide (x = k)); [subst; split; [by left|split; [lia|done]]|].
      split; [move=> [? ?]; right; split; [lia|done]|move=> [?|[? ?]]; [done|split; [lia|done]]]. }
  by rw Hp.
Qed.
Lemma empties_skip E l : l ∉ (Z.of_nat <$> E) → empties E l = empties E (l - 1).
Proof.
  move=> Hl. rw /empties. f_equal. elim: E Hl => [|e E IH] Hl //.
  rw fmap_cons not_elem_of_cons in Hl. destruct Hl as [H1 H2]. rw !filter_cons IH //.
  repeat case_decide; try done; lia.
Qed.
Lemma empties_snoc E e l : (Z.of_nat e ≤ l)%Z → empties (E ++ [e]) l = S (empties E l).
Proof. move=> H. rw /empties filter_app filter_cons decide_True // length_app /=. lia. Qed.

Lemma skip_empty_spec E : NoDup E → ∀ fuel l, empties E l < fuel →
  ∃ l', skip_empty fuel E l = Ok l' ∧ (l' ≤ l)%Z ∧ (l' ∉ (Z.of_nat <$> E)) ∧
    (l - Z.of_nat (empties E l) = l' - Z.of_nat (empties E l'))%Z ∧
    ∀ x, (l' < x ≤ l)%Z → x ∈ (Z.of_nat <$> E).
Proof.
  move=> Hn fuel. induction fuel as [|fuel IH] => l Hf; first lia. cbn [skip_empty]. case_bool_decide as Hin.
  - have Hs := empties_step E l Hn Hin. destruct (IH (l - 1)%Z) as (l' & H1 & H2 & H3 & H4 & H5); first lia.
    exists l'. split_and!; [done|lia|done|lia|]. move=> x Hx.
    destruct (decide (x = l)) as [->|]; [done|apply H5; lia].
  - exists l. split_and!; [done|lia|done|lia|]. lia.
Qed.

(** The state between two moves: rows up to [l] are used unless they are in [E]. *)
Record cond_inv (b0 b : InputBatch) (E : list nat) (l : Z) : Prop := {
  ci_ids : length (req_ids b) = max_num_reqs b;
  ci_rows : length (rows b) = max_num_reqs b;
  ci_max : max_num_reqs b = max_num_reqs b0;
  ci_wf : dict_wf (req_index b);
  ci_index : ∀ id i, dget (req_index b) id = Some i ↔ req_ids b !! i = Some (Some id);
  ci_used : ∀ i, (∃ id, req_ids b !! i = Some (Some id)) ↔ (Z.of_nat i ≤ l)%Z ∧ i ∉ E;
  ci_sorted : StronglySorted gt E;
  ci_num : (Z.of_nat (num_reqs b) = l + 1 - Z.of_nat (empties E l))%Z;
  ci_gens : dict_wf (generators b);
  ci_gen_used : ∀ i g, dget (generators b) i = Some g → ∃ id, req_ids b !! i = Some (Some id);
  ci_keep : ∀ id, row_of b id = row_of b0 id;
  ci_from : rows b ⊆ rows b0;
}.

Lemma sorted_gt_nodup E : StronglySorted gt E → NoDup E.
Proof.
  induction 1 as [|x E _ IH Hx]; constructor; [|done].
  move=> Hin. rw Forall_forall in Hx. have := Hx x Hin. lia.
Qed.
Lemma sorted_gt_snoc E e : StronglySorted gt (E ++ [e]) → StronglySorted gt E ∧ ∀ x, x ∈ E → e < x.
Proof.
  elim: E => [|y E IH] /=; first by split; [constructor|move=> x /elem_of_nil].
  move=> H. inversion H as [|? ? Hs Hf]; subst. destruct (IH Hs) as [H1 H2].
  rw Forall_app Forall_singleton in Hf. destruct Hf as [F1 F2]. split; [by constructor|].
  move=> x /elem_of_cons [-> | Hx]; [lia|by apply H2].
Qed.

Lemma cond_done b0 b E l :
  cond_inv b0 b E l → (∀ e, e ∈ E → (l < Z.of_nat e)%Z) → batch_inv b [] (num_reqs b).
Proof.
  move=> [C1 C2 C3 C4 C5 C6 C7 C8 C9 C10 C11 C12] Hall.
  have Hz : empties E l = 0.
  { rw /empties. have -> : filter (λ e, Z.of_nat e ≤ l)%Z E = []; last done.
    elim: E Hall {C6 C7 C8} => [|e E IH] H //. rw filter_cons decide_False; first by have := H e (list_elem_of_here _ _); lia.
    apply IH => x Hx. apply H. by right. }
  split; [done|done|done|done| |by move=> e /elem_of_nil|constructor|by rw Nat.add_0_r|done|done].
  move=> i. rw C6. split.
  - move=> [H1 _]. split; [lia|apply not_elem_of_nil].
  - move=> [H1 _]. split; [lia|]. move=> /Hall. lia.
Qed.

Lemma cond_move b0 b E e l :
  cond_inv b0 b (E ++ [e]) l → (Z.of_nat e < l)%Z → l ∉ (Z.of_nat <$> (E ++ [e])) →
  ∃ b', move_row e (Z.to_nat l) b = Ok (tt, b') ∧ cond_inv b0 b' E (l - 1).
Proof.
  move=> [C1 C2 C3 C4 C5 C6 C7 C8 C9 C10 C11 C12] Hel Hl.
  destruct (sorted_gt_snoc _ _ C7) as [Hs Hlow].
  have [k Hk] : ∃ k, l = Z.of_nat k by exists (Z.to_nat l); lia. subst l. rw Nat2Z.id.
  have Hk' : k ∉ E ++ [e] by move=> H; apply Hl; apply list_elem_of_fmap; by exists k.
  destruct (proj2 (C6 k)) as [id Hid]; first by split; [lia|].
  have He : ∀ id', req_ids b !! e ≠ Some (Some id').
  { move=> id' H. destruct (proj1 (C6 e) (ex_intro _ id' H)) as [_ Hn]. apply Hn. set_solver. }
  destruct (move_row_spec b e k id) as (b' & M1 & M2 & M3 & M4 & M5 & M6 & M7 & M8 & M9);
    [done|done|by rw C1 C2|done|done|lia|done|done|].
  have Hkl := lookup_lt_Some _ _ _ Hid.
  have Hids : ∀ i, req_ids b' !! i = if decide (i = k) then Some None else if decide (i = e) then Some (Some id)
      else req_ids b !! i.
  { move=> i. rw M3. destruct (decide (i = k)) as [->|Hik]; first by rw list_lookup_insert_eq // length_insert.
    rw list_lookup_insert_ne //. destruct (decide (i = e)) as [->|]; [rw list_lookup_insert_eq //; lia|].
    by rw list_lookup_insert_ne. }
  exists b'. split; first done. split.
  - by rw M3 !length_insert M2.
  - by rw M5 M2.
  - by rw M2.
  - rw M4. auto with py.
  - move=> id' i. rw M4 dget_dset Hids. case_decide as Hi.
    + subst id'. destruct (decide (i = k)) as [->|]; first by split; [move=> [?]; lia|].
      case_decide; first by subst. split; [move=> [?]; congruence|]. rw -C5 (proj2 (C5 id k) Hid). congruence.
    + destruct (decide (i = k)) as [->|]; first by rw C5 Hid; split; congruence.
      destruct (decide (i = e)) as [->|]; last apply C5. rw C5. split; [by move=> /He|congruence].
  - move=> i. rw Hids. destruct (decide (i = k)) as [->|Hik]; first by split; [move=> [? ?]|lia].
    destruct (decide (i = e)) as [->|Hie].
    + split; [|by eexists]. move=> _. split; [lia|]. move=> /Hlow. lia.
    + rw C6 not_elem_of_app list_elem_of_singleton. split; [move=> [? [? _]]; split; [lia|done]|].
      move=> [? ?]. split_and!; [lia|done|done].
  - done.
  - rw /num_reqs M4 length_dset. case_decide as Hd; last by destruct Hd; rw (proj2 (C5 id k) Hid); eexists.
    rw -/(num_reqs b) C8 empties_snoc; first lia. rw -(empties_skip E); last lia.
    move=> H. apply Hl. set_solver.
  - done.
  - move=> i g /M7 [->|[Hi Hg]]; rw Hids.
    + rw decide_False; first lia. rw decide_True //. by eexists.
    + rw decide_False //. case_decide; [by eexists|by eapply C10].
  - move=> id'. by rw M8.
  - by etrans.
Qed.

Lemma condense_loop_spec b0 fuel : ∀ b E l,
  cond_inv b0 b E l → length E < fuel →
  ∃ b', condense_loop fuel E l b = Ok (tt, b') ∧ batch_inv b' [] (num_reqs b') ∧
    max_num_reqs b' = max_num_reqs b0 ∧ rows b' ⊆ rows b0 ∧ ∀ id, row_of b' id = row_of b0 id.
Proof.
  induction fuel as [|fuel IH] => b E l HC Hf; first lia. cbn [condense_loop].
  destruct E as [|e E _] using rev_ind.
  { exists b. split_and!; [done|eapply cond_done; [done|by move=> e /elem_of_nil]|apply (ci_max _ _ _ _ HC)|apply (ci_from _ _ _ _ HC)|apply (ci_keep _ _ _ _ HC)]. }
  rw last_snoc. have Hn := sorted_gt_nodup _ (ci_sorted _ _ _ _ HC).
  destruct (skip_empty_spec _ Hn (S (length (E ++ [e]))) l) as (l' & S1 & S2 & S3 & S4 & S5).
  { have := empties_le (E ++ [e]) l. lia. }
  have HC' : cond_inv b0 b (E ++ [e]) l'.
  { destruct HC as [C1 C2 C3 C4 C5 C6 C7 C8 C9 C10 C11 C12]. split; [done..| |done|lia|done|done|done|done].
    move=> i. rw C6. split; [|move=> [? ?]; split; [lia|done]]. move=> [Hi HiE]. split; last done.
    destruct (decide (Z.of_nat i ≤ l')%Z); first done. exfalso. apply HiE.
    have /list_elem_of_fmap [j [Hj Hin]] := S5 (Z.of_nat i) ltac:(lia). by apply Nat2Z.inj in Hj as ->. }
  rw /mbind /M_bind /mlift S1. destruct (Z.leb_spec l' (Z.of_nat e)) as [Hle|Hgt].
  - exists b. split_and!; [done| |apply (ci_max _ _ _ _ HC)|apply (ci_from _ _ _ _ HC)|apply (ci_keep _ _ _ _ HC)]. eapply cond_done; first exact HC'.
    destruct (sorted_gt_snoc _ _ (ci_sorted _ _ _ _ HC)) as [_ Hlow].
    have Hne : l' ≠ Z.of_nat e by move=> ?; apply S3; subst; apply list_elem_of_fmap; exists e; set_solver.
    move=> x /elem_of_app [/Hlow|/list_elem_of_singleton ->]; lia.
  - destruct (cond_move _ _ _ _ _ HC' Hgt S3) as (b1 & M1 & HC1). rw M1 removelast_last.
    apply IH; [done|]. rw length_app /= in Hf. lia.
Qed.

Lemma condense_spec b E n :
  batch_inv b E n → StronglySorted gt E →
  ∃ b', condense E b = Ok (tt, b') ∧ num_reqs b' = num_reqs b ∧ max_num_reqs b' = max_num_reqs b ∧
    batch_inv b' [] (num_reqs b) ∧ rows b' ⊆ rows b ∧ ∀ id, row_of b' id = row_of b id.
Proof.
  move=> HI Hs. destruct (HI) as [H1 H2 H3 H4 H5 H6 H7 H8 H9 H10]. rw /condense /mbind /M_bind /mgets.
  case_bool_decide as Hz.
  { have Hix : req_index b = [] by apply nil_length_inv.
    exists b. split_and!; [done|done|done| |done|done]. rw Hz.
    split; [done|done|done|done| |by move=> e /elem_of_nil|constructor|by rw Hz|done|done].
    move=> i. split; [|lia]. move=> [id /H4]. by rw Hix. }
  destruct (condense_loop_spec b (S (length E)) b E (Z.of_nat (num_reqs b) + Z.of_nat (length E) - 1))
    as (b' & R1 & R2 & R3 & R5 & R4); [|lia|].
  - have Hall : empties E (Z.of_nat (num_reqs b) + Z.of_nat (length E) - 1) = length E.
    { rw /empties filter_all //. move=> e /H6. lia. }
    split; [done..| |done|rw Hall; lia|done|done|done|done].
    move=> i. rw H5. split; (move=> [? ?]; split; [lia|done]).
  - have Hnum : num_reqs b' = num_reqs b.
    { rw /num_reqs -!(length_fmap fst). apply Permutation_length, NoDup_Permutation;
        [apply (bi_wf _ _ _ R2)|done|]. move=> id. rw -!dget_is_Some.
      by rw -(row_of_is_Some _ _ _ _ R2) -(row_of_is_Some _ _ _ _ HI) R4. }
    exists b'. by rw Hnum in R2.
Qed.

(** [condense] returns and closes the gaps: for a batch whose empty rows are
    given in descending order, afterwards exactly the first [num_reqs] rows are
    used, and every request keeps its token ids, block table, sampling
    parameters and generator, wherever it was moved. *)
Theorem condense_closes_gaps b E n :
  batch_inv b E n → StronglySorted gt E →
  ∃ b', condense E b = Ok (tt, b') ∧ num_reqs b' = num_reqs b ∧
    batch_inv b' [] (num_reqs b) ∧ ∀ id, row_of b' id = row_of b id.
Proof. move=> HI Hs. destruct (condense_spec b E n HI Hs) as (b' & ? & ? & ? & ? & ? & ?). by exists b'. Qed.

(** Three requests, of which the first two have left. *)
Definition demo_state (id : string) (toks : list Z) : CachedRequestState :=
  {| crs_req_id := id; crs_prompt_token_ids := toks; crs_prompt := None; crs_mm_inputs := []; crs_mm_positions := [];
     crs_sampling_params := default_sampling_params; crs_generator := Some 7; crs_block_ids := [3];
     crs_num_computed_tokens := 0; crs_output_token_ids := [] |}.
Definition demo_batch_run : result (unit * InputBatch) :=
  (batch_add_request id (demo_state "a" [1%Z]) None;;;
   batch_add_request id (demo_state "b" [2%Z]) None;;;
   batch_add_request id (demo_state "c" [3%Z]) None;;;
   batch_remove_request "a";;; batch_remove_request "b";;; mret tt) (batch_init 4 8 2 0 0).
Definition demo_batch : InputBatch :=
  match demo_batch_run with Ok (_, b) => b | Raise _ => batch_init 0 0 0 0 0 end.
Lemma one_left_inv b :
  max_num_reqs b = 4 → length (rows b) = 4 → req_ids b = [None; None; Some "c"%string; None] →
  req_index b = [("c"%string, 2)] → generators b = [(2, 7)] → batch_inv b [1; 0] 3.
Proof.
  move=> Hm Hr Hids Hix Hg. split; rw ?/num_reqs ?Hids ?Hix ?Hg ?Hm ?Hr //.
  - apply NoDup_singleton.
  - move=> id i. rw /=. destruct (decide (id = "c"%string)) as [->|Hne];
      destruct i as [|[|[|[|i]]]]; simpl; split; rw ?lookup_nil; congruence.
  - move=> [|[|[|[|i]]]]; simpl; rw ?lookup_nil !not_elem_of_cons; split; try (by move=> [? ?]); try lia.
    + move=> _. split_and!; [lia|lia|lia|apply not_elem_of_nil].
    + move=> _. by eexists.
  - move=> e. rw !elem_of_cons elem_of_nil. lia.
  - apply NoDup_cons. split; [|apply NoDup_singleton]. by rw list_elem_of_singleton.
  - apply NoDup_singleton.
  - move=> i g /=. case_decide; [subst; by eexists|done].
Qed.
Lemma demo_batch_inv : batch_inv demo_batch [1; 0] 3.
Proof. by apply one_left_inv; vm_compute. Qed.
Lemma condense_closes_gaps_witness :
  StronglySorted gt [1; 0] ∧
  ∃ b', condense [1; 0] demo_batch = Ok (tt, b') ∧ num_reqs b' = num_reqs demo_batch ∧
    batch_inv b' [] (num_reqs demo_batch) ∧ ∀ id, row_of b' id = row_of demo_batch id.
Proof.
  assert (Hs : StronglySorted gt [1; 0]) by (repeat constructor).
  split; [exact Hs|]. exact (condense_closes_gaps demo_batch [1; 0] 3 demo_batch_inv Hs).
Defined.
