(* ===== verification/ModelRunner.v ===== *)
(** The bookkeeping of the model runner (class [GPUModelRunner] of
    vllm/v1/worker/gpu_model_runner.py): the cached request states and the
    persistent batch ([_update_states]), the inputs of the forward pass
    ([_prepare_inputs], with its numpy index arithmetic), the gathering of encoder
    outputs, and what is recorded of the sampled tokens.

    The model is a parameter of nothing here: its forward pass and the sampler
    stand between [prepare_inputs] and [record_tokens] and only provide the
    sampled tokens. Copies to the GPU are left out. *)
From Stdlib Require Import ssreflect ZArith Lia PrimFloat.
From stdpp Require Import base numbers list gmap strings.
From S2P Require Import Prelude SamplingParams KVCacheBlock Request FreeQueue BlockHash KVCacheManager EncoderCache Scheduler InputBatch.

(** A torch generator: its seed and its offset. *)
Record Generator := { gen_seed : Z; gen_offset : Z }.

Record ModelRunner := {
  mr_block_size : nat;
  mr_max_model_len : nat;
  mr_max_num_blocks_per_req : nat;
  mr_max_num_tokens : nat;
  mr_requests : dict string CachedRequestState;
  encoder_cache : dict string (dict nat (list Z));
  input_batch : InputBatch;
  gen_heap : list Generator;
}.
Definition set_mr_requests (v : dict string CachedRequestState) (r : ModelRunner) : ModelRunner :=
  {| mr_block_size := mr_block_size r; mr_max_model_len := mr_max_model_len r; mr_max_num_blocks_per_req := mr_max_num_blocks_per_req r; mr_max_num_tokens := mr_max_num_tokens r; mr_requests := v; encoder_cache := encoder_cache r; input_batch := input_batch r; gen_heap := gen_heap r |}.
Definition set_encoder_cache (v : dict string (dict nat (list Z))) (r : ModelRunner) : ModelRunner :=
  {| mr_block_size := mr_block_size r; mr_max_model_len := mr_max_model_len r; mr_max_num_blocks_per_req := mr_max_num_blocks_per_req r; mr_max_num_tokens := mr_max_num_tokens r; mr_requests := mr_requests r; encoder_cache := v; input_batch := input_batch r; gen_heap := gen_heap r |}.
Definition set_input_batch (v : InputBatch) (r : ModelRunner) : ModelRunner :=
  {| mr_block_size := mr_block_size r; mr_max_model_len := mr_max_model_len r; mr_max_num_blocks_per_req := mr_max_num_blocks_per_req r; mr_max_num_tokens := mr_max_num_tokens r; mr_requests := mr_requests r; encoder_cache := encoder_cache r; input_batch := v; gen_heap := gen_heap r |}.
Definition set_gen_heap (v : list Generator) (r : ModelRunner) : ModelRunner :=
  {| mr_block_size := mr_block_size r; mr_max_model_len := mr_max_model_len r; mr_max_num_blocks_per_req := mr_max_num_blocks_per_req r; mr_max_num_tokens := mr_max_num_tokens r; mr_requests := mr_requests r; encoder_cache := encoder_cache r; input_batch := input_batch r; gen_heap := v |}.
Abbreviation MR := (M ModelRunner).
Definition on_batch {A} (m : M InputBatch A) : MR A := zoom input_batch set_input_batch m.

Definition set_block_ids (l : list nat) (r : CachedRequestState) : CachedRequestState :=
  {| crs_req_id := crs_req_id r; crs_prompt_token_ids := crs_prompt_token_ids r; crs_prompt := crs_prompt r;
     crs_mm_inputs := crs_mm_inputs r; crs_mm_positions := crs_mm_positions r;
     crs_sampling_params := crs_sampling_params r; crs_generator := crs_generator r; crs_block_ids := l;
     crs_num_computed_tokens := crs_num_computed_tokens r; crs_output_token_ids := crs_output_token_ids r |}.
Definition set_num_computed (n : Z) (r : CachedRequestState) : CachedRequestState :=
  {| crs_req_id := crs_req_id r; crs_prompt_token_ids := crs_prompt_token_ids r; crs_prompt := crs_prompt r;
     crs_mm_inputs := crs_mm_inputs r; crs_mm_positions := crs_mm_positions r;
     crs_sampling_params := crs_sampling_params r; crs_generator := crs_generator r; crs_block_ids := crs_block_ids r;
     crs_num_computed_tokens := n; crs_output_token_ids := crs_output_token_ids r |}.
Definition set_output_tokens (l : list Z) (r : CachedRequestState) : CachedRequestState :=
  {| crs_req_id := crs_req_id r; crs_prompt_token_ids := crs_prompt_token_ids r; crs_prompt := crs_prompt r;
     crs_mm_inputs := crs_mm_inputs r; crs_mm_positions := crs_mm_positions r;
     crs_sampling_params := crs_sampling_params r; crs_generator := crs_generator r; crs_block_ids := crs_block_ids r;
     crs_num_computed_tokens := crs_num_computed_tokens r; crs_output_token_ids := l |}.

(** [self.requests[req_id]] *)
Definition cached_request (id : string) : MR CachedRequestState :=
  s ← mget;
  match dget (mr_requests s) id with
  | Some r => mret r
  | None => mraise (KeyError "self.requests[req_id]")
  end.
Definition store_request (id : string) (r : CachedRequestState) : MR unit :=
  mmodify (λ s, set_mr_requests (dset (mr_requests s) id r) s).

(** Rows of the batch. *)
Definition with_computed (n : Z) (r : Row) : Row :=
  {| row_token_ids := row_token_ids r; row_num_prompt_tokens := row_num_prompt_tokens r;
     row_num_computed_tokens := n; row_block_table := row_block_table r; row_temperature := row_temperature r;
     row_top_p := row_top_p r; row_top_k := row_top_k r; row_frequency_penalty := row_frequency_penalty r;
     row_presence_penalty := row_presence_penalty r; row_repetition_penalty := row_repetition_penalty r;
     row_min_tokens := row_min_tokens r; row_stop_token_ids := row_stop_token_ids r |}.
Definition with_blocks (l : list nat) (r : Row) : Row :=
  {| row_token_ids := row_token_ids r; row_num_prompt_tokens := row_num_prompt_tokens r;
     row_num_computed_tokens := row_num_computed_tokens r; row_block_table := l; row_temperature := row_temperature r;
     row_top_p := row_top_p r; row_top_k := row_top_k r; row_frequency_penalty := row_frequency_penalty r;
     row_presence_penalty := row_presence_penalty r; row_repetition_penalty := row_repetition_penalty r;
     row_min_tokens := row_min_tokens r; row_stop_token_ids := row_stop_token_ids r |}.
Definition with_tokens (l : list Z) (r : Row) : Row :=
  {| row_token_ids := l; row_num_prompt_tokens := row_num_prompt_tokens r;
     row_num_computed_tokens := row_num_computed_tokens r; row_block_table := row_block_table r;
     row_temperature := row_temperature r;
     row_top_p := row_top_p r; row_top_k := row_top_k r; row_frequency_penalty := row_frequency_penalty r;
     row_presence_penalty := row_presence_penalty r; row_repetition_penalty := row_repetition_penalty r;
     row_min_tokens := row_min_tokens r; row_stop_token_ids := row_stop_token_ids r |}.
Definition batch_row (i : nat) : M InputBatch Row :=
  b ← mget; match rows b !! i with Some r => mret r | None => mraise (IndexError "row") end.
Definition store_row (i : nat) (r : Row) : M InputBatch unit := mmodify (λ b, set_rows (<[i := r]> (rows b)) b).

(** * [_update_states] *)
Section runner.
Variable float32 : float → float.

Definition drop_finished (id : string) : MR unit :=
  mmodify (λ s, set_encoder_cache (ddel (encoder_cache s) id) (set_mr_requests (ddel (mr_requests s) id) s)).

Definition free_encoder_input (x : string * nat) : MR unit :=
  let '(id, input_id) := x in
  mmodify (λ s,
    match dget (encoder_cache s) id with
    | None => s
    | Some outs =>
      let outs := ddel outs input_id in
      set_encoder_cache (if bool_decide (outs = []) then ddel (encoder_cache s) id
                         else dset (encoder_cache s) id outs) s
    end).

Definition remove_stopped (removed : list nat) (id : string) : MR (list nat) :=
  o ← on_batch (batch_remove_request id);
  mret (match o with Some i => removed ++ [i] | None => removed end).

Definition update_running (d : RunningRequestData) : MR unit :=
  let id := run_req_id d in
  state ← cached_request id;
  s ← mget;
  match dget (req_index (input_batch s)) id with
  | None => mraise (KeyError "self.input_batch.req_id_to_index[req_id]")
  | Some i =>
    store_request id (set_num_computed (run_num_computed_tokens d) state);;;
    row ← on_batch (batch_row i);
    on_batch (store_row i (with_computed (run_num_computed_tokens d) row));;;
    if bool_decide (run_new_block_ids d = []) then mret tt
    else
      state ← cached_request id;
      let start_index := length (crs_block_ids state) in
      store_request id (set_block_ids (crs_block_ids state ++ run_new_block_ids d) state);;;
      row ← on_batch (batch_row i);
      blocks ← mlift (slice_assign (row_block_table row) start_index (run_new_block_ids d));
      on_batch (store_row i (with_blocks blocks row))
  end.

Definition add_new (d : NewRequestData) : MR unit :=
  let p := nrd_sampling_params d in
  generator ←
    (if bool_decide (sampling_type p = RANDOM_SEED) then
       n ← mgets (λ s, length (gen_heap s));
       mmodify (λ s, set_gen_heap (gen_heap s ++ [{| gen_seed := default 0%Z (seed p); gen_offset := 0 |}]) s);;;
       mret (Some n)
     else mret None);
  store_request (nrd_req_id d)
    {| crs_req_id := nrd_req_id d; crs_prompt_token_ids := nrd_prompt_token_ids d; crs_prompt := nrd_prompt d;
       crs_mm_inputs := nrd_mm_inputs d; crs_mm_positions := nrd_mm_positions d; crs_sampling_params := p;
       crs_generator := generator; crs_block_ids := nrd_block_ids d;
       crs_num_computed_tokens := nrd_num_computed_tokens d; crs_output_token_ids := [] |}.

Definition update_resumed (d : ResumedRequestData) : MR unit :=
  state ← cached_request (rrd_req_id d);
  store_request (rrd_req_id d) (set_num_computed (rrd_num_computed_tokens d) (set_block_ids (rrd_block_ids d) state)).

(** [sorted(l, reverse=True)] *)
Fixpoint insert_desc (x : nat) (l : list nat) : list nat :=
  match l with
  | [] => [x]
  | y :: l' => if bool_decide (y < x) then x :: l else y :: insert_desc x l'
  end.
Definition sort_desc (l : list nat) : list nat := foldr insert_desc [] l.

(** A request fills the smallest empty row, or is appended. *)
Definition add_to_batch (removed : list nat) (id : string) : MR (list nat) :=
  state ← cached_request id;
  on_batch (batch_add_request float32 state (last removed));;;
  mret (removelast removed).

(** The iteration order of the set [stopped_req_ids] does not matter: the
    removed rows are sorted. *)
Definition update_states (o : SchedulerOutput) (running_reqs : list RunningRequestData) : MR unit :=
  mfor (out_finished_req_ids o) drop_finished;;;
  mfor (free_encoder_input_ids o) free_encoder_input;;;
  removed ← mfold (foldl (λ acc x, set_add x acc) [] (preempted_req_ids o ++ out_finished_req_ids o)) []
              remove_stopped;
  mfor running_reqs update_running;;;
  mfor (out_scheduled_new_reqs o) add_new;;;
  mfor (out_scheduled_resumed_reqs o) update_resumed;;;
  removed ← mfold ((nrd_req_id <$> out_scheduled_new_reqs o) ++ (rrd_req_id <$> out_scheduled_resumed_reqs o))
              (sort_desc removed) add_to_batch;
  if bool_decide (removed = []) then mret tt else on_batch (condense removed).
End runner.

(** * [_prepare_inputs] *)

(** numpy and torch arrays of dtype int32 wrap around. *)
Definition int32 (z : Z) : Z := ((z + 2 ^ 31) mod 2 ^ 32 - 2 ^ 31)%Z.

(** The attention metadata and the model inputs. *)
Record ModelInputs := {
  mi_input_ids : list Z;
  mi_positions : list Z;
  mi_slot_mapping : list Z;
  mi_query_start_loc : list Z;
  mi_seq_start_loc : list Z;
  mi_max_query_len : Z;
  mi_max_seq_len : Z;
  mi_logits_indices : list Z;
}.

(** [for req_id in req_ids[:num_reqs]: assert req_id is not None] *)
Fixpoint batch_ids (l : list (option string)) : result (list string) :=
  match l with
  | [] => Ok []
  | Some id :: l => ids ← batch_ids l; mret (id :: ids)
  | None :: _ => Raise (AssertionError "req_id is not None")
  end.
(** [num_scheduled_tokens[req_id]] of each request *)
Fixpoint token_counts (scheduled : dict string Z) (ids : list string) : result (list Z) :=
  match ids with
  | [] => Ok []
  | id :: ids =>
    match dget scheduled id with
    | None => Raise (KeyError "num_scheduled_tokens[req_id]")
    | Some n => ns ← token_counts scheduled ids; mret (n :: ns)
    end
  end.

(** [np.repeat(arange[:num_reqs], counts)] *)
Definition np_repeat (counts : list nat) : list nat := mjoin (imap (λ i n, replicate n i) counts).
(** [np.concatenate([arange[:n] for n in counts])] for an [arange] of [size]. *)
Definition np_arange (size : nat) (counts : list nat) : list nat := mjoin ((λ n, seq 0 (min n size)) <$> counts).
(** [out[0] = 0; np.cumsum(l, out=out[1:])] in an int32 array *)
Fixpoint np_cumsum (acc : Z) (l : list Z) : list Z :=
  match l with [] => [acc] | x :: l => acc :: np_cumsum (int32 (acc + x)) l end.
(** An operand of a numpy operation whose result has [n] elements. *)
Definition np_broadcast {A} (n : nat) (l : list A) : result (list A) :=
  if bool_decide (length l = n) then Ok l
  else match l with
       | [x] => Ok (replicate n x)
       | _ => Raise (ValueError "operands could not be broadcast together")
       end.
(** [torch.index_select(flat, 0, indices)] *)
Definition index_select {A} (flat : list A) (indices : list Z) : result (list A) :=
  match mapM (λ i, if (i <? 0)%Z then None else flat !! Z.to_nat i) indices with
  | Some l => Ok l
  | None => Raise (IndexError "index out of range in self")
  end.
(** [flat[indices]]: negative indices count from the end. *)
Definition fancy_index {A} (flat : list A) (indices : list Z) : result (list A) :=
  index_select flat ((λ i, if (i <? 0)%Z then (i + Z.of_nat (length flat))%Z else i) <$> indices).

(** [m = 0; for n in l: m = max(m, n)] *)
Definition max_of (l : list Z) : Z := foldr Z.max 0%Z l.
(** [l.max()] of a nonempty array *)
Definition np_max (l : list Z) : Z := match l with [] => 0%Z | x :: l => foldr Z.max x l end.

Definition prepare_inputs (s : ModelRunner) (o : SchedulerOutput) : result ModelInputs :=
  let b := input_batch s in
  let total := total_num_scheduled_tokens o in
  if negb (0 <? total)%Z then Raise (AssertionError "total_num_scheduled_tokens > 0")
  else if bool_decide (num_reqs b = 0) then Raise (AssertionError "num_reqs > 0")
  else
    ids ← batch_ids (take (num_reqs b) (req_ids b));
    num_scheduled_tokens ← token_counts (out_num_scheduled_tokens o) ids;
    if negb (0 <? max_of num_scheduled_tokens)%Z then Raise (AssertionError "max_num_scheduled_tokens > 0")
    else if existsb (λ n, n <? 0)%Z num_scheduled_tokens then Raise (ValueError "counts cannot be negative")
    else
      let counts := Z.to_nat <$> num_scheduled_tokens in
      let req_indices := np_repeat counts in
      let arange := np_arange (Nat.max (max_num_reqs b) (mr_max_model_len s)) counts in
      let out := min (Z.to_nat total) (mr_max_num_tokens s) in
      computed ← fancy_index (row_num_computed_tokens <$> rows b) (Z.of_nat <$> req_indices);
      computed ← np_broadcast out computed;
      arange ← np_broadcast out arange;
      req_indices ← np_broadcast out req_indices;
      let positions := zip_with (λ c a, int32 (c + Z.of_nat a)) computed arange in
      let token_indices :=
        zip_with (λ p r, (p + int32 (Z.of_nat r * Z.of_nat (mr_max_model_len s)))%Z) positions req_indices in
      input_ids ← index_select (mjoin (row_token_ids <$> rows b)) token_indices;
      let block_table_indices :=
        zip_with (λ r p, (int32 (Z.of_nat r * Z.of_nat (mr_max_num_blocks_per_req s))
                          + p / Z.of_nat (mr_block_size s))%Z) req_indices positions in
      block_numbers ← fancy_index (mjoin (row_block_table <$> rows b)) block_table_indices;
      let slot_mapping :=
        zip_with (λ n p, int32 (int32 (Z.of_nat n * Z.of_nat (mr_block_size s)) + p mod Z.of_nat (mr_block_size s)))
          block_numbers positions in
      let seq_lens :=
        zip_with (λ c n, int32 (c + n)) (row_num_computed_tokens <$> take (num_reqs b) (rows b)) num_scheduled_tokens in
      let query_start_loc := np_cumsum 0 num_scheduled_tokens in
      mret {| mi_input_ids := input_ids; mi_positions := positions; mi_slot_mapping := slot_mapping;
              mi_query_start_loc := query_start_loc; mi_seq_start_loc := np_cumsum 0 seq_lens;
              mi_max_query_len := max_of num_scheduled_tokens; mi_max_seq_len := np_max seq_lens;
              mi_logits_indices := (λ n, int32 (n - 1)) <$> tail query_start_loc |}.

(** * The encoder *)

(** The multi-modal inputs of the step, each with its request and its index. *)
Fixpoint batch_mm_inputs (reqs : dict string CachedRequestState) (scheduled : list (string * list nat))
    : result (list (option MultiModalKwargs * (string * nat))) :=
  match scheduled with
  | [] => Ok []
  | (id, input_ids) :: scheduled =>
    match dget reqs id with
    | None => Raise (KeyError "self.requests[req_id]")
    | Some state =>
      match mapM (λ i, x ← crs_mm_inputs state !! i; Some (x, (id, i))) input_ids with
      | None => Raise (IndexError "req_state.mm_inputs[input_id]")
      | Some l => rest ← batch_mm_inputs reqs scheduled; mret (l ++ rest)
      end
    end
  end.
(** [self.encoder_cache[req_id][input_id] = output] *)
Definition cache_output (cache : dict string (dict nat (list Z))) (x : (string * nat) * list Z)
    : dict string (dict nat (list Z)) :=
  let '((id, input_id), output) := x in
  dset cache id (dset (default [] (dget cache id)) input_id output).

(** The encoder of the model: one output, a list of embeddings, per input. *)
Definition execute_encoder (get_multimodal_embeddings : list (option MultiModalKwargs) → list (list Z))
    (o : SchedulerOutput) : MR unit :=
  if bool_decide (out_scheduled_encoder_inputs o = []) then mret tt
  else
    reqs ← mgets mr_requests;
    l ← mlift (batch_mm_inputs reqs (out_scheduled_encoder_inputs o));
    let encoder_outputs := get_multimodal_embeddings (l.*1) in
    mmodify (λ s, set_encoder_cache (foldl cache_output (encoder_cache s) (zip (l.*2) encoder_outputs)) s).


(** The parts of the encoder outputs of one request that the step needs, from
    position [i] of [mm_positions]. *)
Fixpoint gather_request (cache : option (dict nat (list Z))) (num_computed n : Z) (i : nat)
    (positions : list PlaceholderRange) : result (list (list Z)) :=
  match positions with
  | [] => Ok []
  | pos_info :: positions =>
    let start_pos := pr_offset pos_info in
    let num_encoder_tokens := pr_length pos_info in
    if (num_computed + n <=? start_pos)%Z then Ok []
    else if (start_pos + num_encoder_tokens <=? num_computed)%Z
    then gather_request cache num_computed n (S i) positions
    else
      let start_idx := Z.max (num_computed - start_pos) 0 in
      let end_idx := Z.min (num_computed - start_pos + n) num_encoder_tokens in
      if negb (start_idx <? end_idx)%Z then Raise (AssertionError "start_idx < end_idx")
      else
        match cache with
        | None => Raise (AssertionError "req_id in self.encoder_cache")
        | Some outs =>
          match dget outs i with
          | None => Raise (AssertionError "i in self.encoder_cache[req_id]")
          | Some out => rest ← gather_request cache num_computed n (S i) positions;
                        mret (slice out start_idx end_idx :: rest)
          end
        end
  end.

Fixpoint gather_loop (s : ModelRunner) (o : SchedulerOutput) (ids : list (option string)) : result (list (list Z)) :=
  match ids with
  | [] => Ok []
  | None :: _ => Raise (AssertionError "req_id is not None")
  | Some id :: ids =>
    match dget (out_num_scheduled_tokens o) id with
    | None => Raise (KeyError "scheduler_output.num_scheduled_tokens[req_id]")
    | Some n =>
      match dget (mr_requests s) id with
      | None => Raise (KeyError "self.requests[req_id]")
      | Some state =>
        l ← gather_request (dget (encoder_cache s) id) (crs_num_computed_tokens state) n 0 (crs_mm_positions state);
        rest ← gather_loop s o ids; mret (l ++ rest)
      end
    end
  end.
Definition gather_encoder_outputs (s : ModelRunner) (o : SchedulerOutput) : result (list (list Z)) :=
  gather_loop s o (take (num_reqs (input_batch s)) (req_ids (input_batch s))).

(** * The sampled tokens *)

(** [generator.set_offset(generator.get_offset() - 4)] for the generator of row
    [i], if it has one *)
Definition rewind_generator (i : nat) : MR unit :=
  mmodify (λ s,
    match dget (generators (input_batch s)) i with
    | None => s
    | Some g => set_gen_heap (alter (λ x, {| gen_seed := gen_seed x; gen_offset := gen_offset x - 4 |})
                                g (gen_heap s)) s
    end).

(** One request of the loop after sampling: a complete request gets its token;
    the token of a partial one is ignored and its generator rewound. *)
Definition record_token (o : SchedulerOutput) (scheduled : dict string Z) (sampled : list Z)
    (acc : dict string Z * list string) (x : nat * option string) : MR (dict string Z * list string) :=
  let '(i, req_id) := x in
  match req_id with
  | None => mraise (AssertionError "req_id is not None")
  | Some id =>
    state ← cached_request id;
    match dget scheduled id, dget (out_num_scheduled_tokens o) id with
    | Some num_tokens, Some n =>
      let seq_len := (crs_num_computed_tokens state + n)%Z in
      massert (seq_len <=? num_tokens)%Z "seq_len <= num_tokens";;;
      if (seq_len =? num_tokens)%Z then
        match sampled !! i with
        | None => mraise (IndexError "sampled_token_ids[i]")
        | Some token_id =>
          row ← on_batch (batch_row i);
          massert (0 <=? seq_len)%Z "index";;;
          if bool_decide (Z.to_nat seq_len < length (row_token_ids row)) then
            on_batch (store_row i (with_tokens (<[Z.to_nat seq_len := token_id]> (row_token_ids row)) row));;;
            store_request id (set_output_tokens (crs_output_token_ids state ++ [token_id]) state);;;
            mret (dset acc.1 id token_id, acc.2)
          else mraise (IndexError "token_ids_cpu[i, seq_len]")
        end
      else
        rewind_generator i;;;
        mret (acc.1, acc.2 ++ [id])
    | _, _ => mraise (KeyError "scheduled_num_tokens[req_id]")
    end
  end.
(** [scheduled_num_tokens] *)
Definition scheduled_num_tokens (o : SchedulerOutput) (running_reqs : list RunningRequestData) : dict string Z :=
  foldl (λ d '(k, v), dset d k v) []
    (((λ d, (nrd_req_id d, nrd_num_tokens d)) <$> out_scheduled_new_reqs o)
     ++ ((λ d, (rrd_req_id d, rrd_num_tokens d)) <$> out_scheduled_resumed_reqs o)
     ++ ((λ d, (run_req_id d, run_num_tokens d)) <$> running_reqs)).
Definition record_tokens (o : SchedulerOutput) (running_reqs : list RunningRequestData) (sampled : list Z)
    : MR ModelRunnerOutput :=
  b ← mgets input_batch;
  '(new_token_ids, bad_ids) ←
    mfold (imap (λ i x, (i, x)) (take (num_reqs b) (req_ids b))) ([], [])
      (record_token o (scheduled_num_tokens o running_reqs) sampled);
  mret {| req_id_to_index := req_index b; sampled_token_ids := sampled; mro_new_token_ids := new_token_ids;
          bad_ids := bad_ids |}.

(** * [execute_model]

    The forward pass, the computation of the logits and the sampler are the
    parameter [sample]: from the inputs and the encoder outputs it gives the
    sampled tokens, one per index of [logits_indices], and the generators as the
    sampler leaves them. *)
Definition execute_model (float32 : float → float) (is_multimodal_model : bool)
    (get_multimodal_embeddings : list (option MultiModalKwargs) → list (list Z))
    (sample : ModelRunner → ModelInputs → list (list Z) → list Z * list Generator)
    (o : SchedulerOutput) (running_reqs : list RunningRequestData) : MR ModelRunnerOutput :=
  update_states float32 o running_reqs;;;
  encoder_outputs ←
    (if is_multimodal_model then
       execute_encoder get_multimodal_embeddings o;;;
       s ← mget; mlift (gather_encoder_outputs s o)
     else mret []);
  s ← mget;
  inputs ← mlift (prepare_inputs s o);
  let '(sampled, generators) := sample s inputs encoder_outputs in
  mmodify (set_gen_heap generators);;;
  record_tokens o running_reqs sampled.
