(* ===== verification/RunnerInputs.v ===== *)
(** The inputs of the forward pass: [prepare_inputs], with its flattened tables,
    repeated indices and int32 arithmetic, computes what one would write down
    request by request. *)
From Stdlib Require Import ssreflect ZArith Lia PrimFloat.
From stdpp Require Import base numbers list gmap strings.
From S2P Require Import Prelude SamplingParams KVCacheBlock Request FreeQueue BlockHash KVCacheManager EncoderCache Scheduler InputBatch BatchTheorems ModelRunner.

(** * The reference *)

(** The positions of [n] tokens after [c] computed ones. *)
Definition span (c : Z) (n : nat) : list Z := (λ k, c + Z.of_nat k)%Z <$> seq 0 n.
(** Where the key and value of position [p] are stored. *)
Definition slot_of (bs : Z) (table : list nat) (p : Z) : Z :=
  (Z.of_nat (table !!! Z.to_nat (p / bs)) * bs + p mod bs)%Z.
Fixpoint partial_sums (acc : Z) (l : list Z) : list Z :=
  match l with [] => [acc] | x :: l => acc :: partial_sums (acc + x) l end.

#[export] Instance row_inhabited : Inhabited Row := populate (blank_row 0 0 0 0).

(** The inputs for the used rows and their token counts. *)
Definition reference_inputs (bs : Z) (used : list Row) (counts : list nat) : ModelInputs :=
  let ns := Z.of_nat <$> counts in
  let seq_lens := zip_with (λ r n, row_num_computed_tokens r + n)%Z used ns in
  {| mi_input_ids := mjoin (zip_with (λ r n, take n (drop (Z.to_nat (row_num_computed_tokens r)) (row_token_ids r)))
                              used counts);
     mi_positions := mjoin (zip_with (λ r n, span (row_num_computed_tokens r) n) used counts);
     mi_slot_mapping := mjoin (zip_with (λ r n, slot_of bs (row_block_table r) <$> span (row_num_computed_tokens r) n)
                                 used counts);
     mi_query_start_loc := partial_sums 0 ns;
     mi_seq_start_loc := partial_sums 0 seq_lens;
     mi_max_query_len := max_of ns;
     mi_max_seq_len := np_max seq_lens;
     mi_logits_indices := (λ e, e - 1)%Z <$> tail (partial_sums 0 ns) |}.

(** * Arithmetic and arrays *)
Lemma int32_id z : (- 2 ^ 31 ≤ z < 2 ^ 31)%Z → int32 z = z.
Proof. move=> H. rw /int32 Z.mod_small; lia. Qed.

Definition total_of (l : list Z) : Z := foldr Z.add 0%Z l.
Lemma total_of_cons x l : total_of (x :: l) = (x + total_of l)%Z.
Proof. done. Qed.
Lemma total_of_nonneg l : Forall (λ x, 0 ≤ x)%Z l → (0 ≤ total_of l)%Z.
Proof. elim=> [|x l' Hx _ IH] /=; lia. Qed.
Lemma np_cumsum_sums l : ∀ acc, Forall (λ x, 0 ≤ x)%Z l → (0 ≤ acc)%Z → (acc + total_of l < 2 ^ 31)%Z →
  np_cumsum acc l = partial_sums acc l.
Proof.
  elim: l => [|x l IH] acc //= Hl Ha Hb. apply Forall_cons in Hl as [Hx Hl].
  have H0 := total_of_nonneg _ Hl. by rw int32_id; [lia|rw IH //; lia].
Qed.
Lemma partial_sums_bound l : ∀ acc, Forall (λ x, 0 ≤ x)%Z l → (0 ≤ acc)%Z →
  Forall (λ e, 0 ≤ e ≤ acc + total_of l)%Z (partial_sums acc l).
Proof.
  elim: l => [|x l IH] acc /= Hl Ha; first by constructor; [lia|].
  apply Forall_cons in Hl as [Hx Hl]. have H0 := total_of_nonneg _ Hl. constructor; first lia.
  eapply Forall_impl; [apply IH; [done|lia]|]. simpl. lia.
Qed.

Lemma max_of_pos l : (0 < total_of l)%Z → (0 < max_of l)%Z.
Proof. rw /total_of /max_of. elim: l => [|x l IH] //=. lia. Qed.

(** A flattened array of rows of [m] elements. *)
Lemma mjoin_lookup {A} m (ls : list (list A)) : Forall (λ l, length l = m) ls → ∀ r l p,
  ls !! r = Some l → p < m → mjoin ls !! (r * m + p) = l !! p.
Proof.
  elim=> [|l' ls' Hl _ IH] r l p; first by rw lookup_nil.
  destruct r as [|r] => /= Hr Hp.
  - injection Hr as ->. by rw lookup_app_l; [lia|].
  - rw lookup_app_r; first lia. rw -(IH r l p Hr Hp). f_equal. lia.
Qed.

Lemma to_of_nat (l : list nat) : Z.to_nat <$> (Z.of_nat <$> l) = l.
Proof. elim: l => [|x l IH] //. by rw !fmap_cons Nat2Z.id IH. Qed.

(** The pairs (row, offset) of the tokens of a step, in order. *)
Definition tokens_of (counts : list nat) : list (nat * nat) := mjoin (imap (λ i n, (λ k, (i, k)) <$> seq 0 n) counts).

Lemma fmap_mjoin {A B} (f : A → B) (ls : list (list A)) : f <$> mjoin ls = mjoin (fmap f <$> ls).
Proof. elim: ls => [|l ls IH] //=. by rw fmap_app IH. Qed.
Lemma fmap_const {A B} (x : B) (l : list A) : (λ _, x) <$> l = replicate (length l) x.
Proof. elim: l => [|y l IH] //=. by f_equal. Qed.
Lemma np_repeat_tokens counts : np_repeat counts = fst <$> tokens_of counts.
Proof.
  rw /np_repeat /tokens_of fmap_mjoin. f_equal. apply list_eq => j.
  rw list_lookup_fmap !list_lookup_imap. destruct (counts !! j) as [n|]; last done. simpl. f_equal.
  rw -list_fmap_compose. by rw (list_fmap_ext _ (λ _, j)) // fmap_const length_seq.
Qed.
Lemma np_arange_tokens size counts : Forall (λ n, n ≤ size) counts → np_arange size counts = snd <$> tokens_of counts.
Proof.
  move=> H. rw /np_arange /tokens_of fmap_mjoin. f_equal. apply list_eq => j.
  rw !list_lookup_fmap list_lookup_imap. destruct (counts !! j) as [n|] eqn:Hj; last done. simpl. f_equal.
  rw Nat.min_l; first by apply (Forall_lookup_1 _ _ _ _ H Hj).
  rw -list_fmap_compose. symmetry. by rw (list_fmap_ext _ id) // list_fmap_id.
Qed.
Lemma elem_of_tokens counts i k : (i, k) ∈ tokens_of counts ↔ ∃ n, counts !! i = Some n ∧ k < n.
Proof.
  rw /tokens_of list_elem_of_join. split.
  - move=> [l [H1 H2]]. apply list_elem_of_lookup in H2 as [j Hj]. rw list_lookup_imap in Hj.
    destruct (counts !! j) as [n|] eqn:Hn; last done. injection Hj as <-.
    apply list_elem_of_fmap in H1 as [k' [[= -> ->] Hk]]. apply elem_of_seq in Hk. exists n. split; [done|lia].
  - move=> [n [Hn Hk]]. exists ((λ k, (i, k)) <$> seq 0 n). split.
    + apply list_elem_of_fmap. exists k. split; [done|]. apply elem_of_seq. lia.
    + apply list_elem_of_lookup. exists i. by rw list_lookup_imap Hn.
Qed.
Lemma length_tokens counts : Z.of_nat (length (tokens_of counts)) = total_of (Z.of_nat <$> counts).
Proof.
  rw /tokens_of. assert (H : ∀ (f : nat → nat → list (nat * nat)), (∀ i n, length (f i n) = n) →
    Z.of_nat (length (mjoin (imap f counts))) = total_of (Z.of_nat <$> counts)).
  { elim: counts => [|n counts IH] f Hf //=. rw length_app Hf Nat2Z.inj_add IH //. by move=> i m /=. }
  apply H => i n. by rw length_fmap length_seq.
Qed.

(** An operation on arrays that are functions of the tokens. *)
Lemma zip_with_tokens {A B C X} (f : A → B → C) (g : X → A) (h : X → B) (T : list X) :
  zip_with f (g <$> T) (h <$> T) = (λ x, f (g x) (h x)) <$> T.
Proof. elim: T => [|x T IH] //=. by rw IH. Qed.
Lemma index_select_tokens {A X} (flat : list A) (g : X → Z) (h : X → A) (T : list X) :
  (∀ x, x ∈ T → (0 ≤ g x)%Z ∧ flat !! Z.to_nat (g x) = Some (h x)) →
  index_select flat (g <$> T) = Ok (h <$> T).
Proof.
  move=> H. rw /index_select. assert (mapM (λ i, if (i <? 0)%Z then None else flat !! Z.to_nat i) (g <$> T) = Some (h <$> T)) as ->; last done.
  apply mapM_Some, Forall2_fmap_2, Forall_Forall2_diag, Forall_forall => x /H [H1 H2].
  destruct (Z.ltb_spec (g x) 0); [lia|done].
Qed.
Lemma fancy_index_tokens {A X} (flat : list A) (g : X → Z) (h : X → A) (T : list X) :
  (∀ x, x ∈ T → (0 ≤ g x)%Z ∧ flat !! Z.to_nat (g x) = Some (h x)) →
  fancy_index flat (g <$> T) = Ok (h <$> T).
Proof.
  move=> H. rw /fancy_index -list_fmap_compose. apply index_select_tokens => x /H [H1 H2] /=.
  destruct (Z.ltb_spec (g x) 0); [lia|done].
Qed.
Lemma np_broadcast_same {A} n (l : list A) : length l = n → np_broadcast n l = Ok l.
Proof. move=> H. by rw /np_broadcast bool_decide_eq_true_2. Qed.

(** Grouping the tokens by request again. *)
Lemma fmap_tokens_rows {A} (f : nat * nat → A) (F : Row → nat → list A) (used : list Row) (counts : list nat) :
  length used = length counts →
  (∀ i r n, used !! i = Some r → counts !! i = Some n → (λ k, f (i, k)) <$> seq 0 n = F r n) →
  f <$> tokens_of counts = mjoin (zip_with F used counts).
Proof.
  move=> Hl H. rw /tokens_of fmap_mjoin. f_equal. apply list_eq => j.
  rw list_lookup_fmap list_lookup_imap lookup_zip_with.
  destruct (counts !! j) as [n|] eqn:Hn; simpl.
  - destruct (lookup_lt_is_Some_2 used j) as [r Hr]; first by rw Hl; eapply lookup_lt_Some.
    rw Hr /=. f_equal. rw -list_fmap_compose. by apply H.
  - by destruct (used !! j).
Qed.
Lemma fmap_seq_lookup {A} (l : list A) (f : nat → A) c n : c + n ≤ length l →
  (∀ k, k < n → l !! (c + k) = Some (f k)) → f <$> seq 0 n = take n (drop c l).
Proof.
  move=> Hl H. apply list_eq => k. destruct (decide (k < n)) as [Hk|Hk].
  - rw list_lookup_fmap lookup_seq_lt //= lookup_take_lt // lookup_drop. by rw H.
  - rw !lookup_ge_None_2 //; [rw length_fmap length_seq; lia|rw length_take; lia].
Qed.

(** * [prepare_inputs] *)

(** What the scheduler and the batch guarantee: every request in the batch is
    scheduled for [counts] tokens that fit its row, the buffers are large enough,
    and the flattened tables can be indexed with int32. *)
Record step_fits (s : ModelRunner) (o : SchedulerOutput) (counts : list nat) : Prop := {
  sf_counts : Forall2 (λ x n, ∃ id, x = Some id ∧ dget (out_num_scheduled_tokens o) id = Some (Z.of_nat n))
    (take (num_reqs (input_batch s)) (req_ids (input_batch s))) counts;
  sf_total : total_num_scheduled_tokens o = total_of (Z.of_nat <$> counts);
  sf_work : (0 < total_num_scheduled_tokens o ≤ Z.of_nat (mr_max_num_tokens s))%Z;
  sf_size : 0 < num_reqs (input_batch s) ≤ length (rows (input_batch s));
  sf_tokens : Forall (λ r, length (row_token_ids r) = mr_max_model_len s) (rows (input_batch s));
  sf_tables : Forall (λ r, length (row_block_table r) = mr_max_num_blocks_per_req s) (rows (input_batch s));
  sf_block : 0 < mr_block_size s;
  sf_cover : mr_max_model_len s ≤ mr_max_num_blocks_per_req s * mr_block_size s;
  sf_fit : Forall2 (λ r n, 0 ≤ row_num_computed_tokens r ∧
      row_num_computed_tokens r + Z.of_nat n ≤ Z.of_nat (mr_max_model_len s))%Z
    (take (num_reqs (input_batch s)) (rows (input_batch s))) counts;
  sf_width : (Z.of_nat (length (rows (input_batch s)) * mr_max_model_len s) < 2 ^ 31)%Z;
  sf_width' : (Z.of_nat (length (rows (input_batch s)) * mr_max_num_blocks_per_req s) < 2 ^ 31)%Z;
  sf_slots : Forall (λ r, Forall (λ t, (Z.of_nat t + 1) * Z.of_nat (mr_block_size s) ≤ 2 ^ 31)%Z (row_block_table r))
    (rows (input_batch s));
}.

Section inputs.
Context (s : ModelRunner) (o : SchedulerOutput) (counts : list nat) (HF : step_fits s o counts).
Let b := input_batch s.
Let used := take (num_reqs b) (rows b).

Lemma fits_length : length counts = num_reqs b ∧ length used = num_reqs b.
Proof.
  have [_ H] := sf_size _ _ _ HF. rw -(Forall2_length _ _ _ (sf_fit _ _ _ HF)) -/b -/used.
  rw /used length_take. fold b in H. lia.
Qed.
Lemma fits_token i k : (i, k) ∈ tokens_of counts → ∃ r n,
  rows b !! i = Some r ∧ used !! i = Some r ∧ counts !! i = Some n ∧ k < n ∧ (0 ≤ row_num_computed_tokens r)%Z ∧
  (row_num_computed_tokens r + Z.of_nat n ≤ Z.of_nat (mr_max_model_len s))%Z.
Proof.
  move=> /elem_of_tokens [n [Hn Hk]]. destruct (Forall2_lookup_r _ _ _ _ _ (sf_fit _ _ _ HF) Hn) as [r [Hr [H1 H2]]].
  exists r, n. split_and!; try done. by apply lookup_take_Some in Hr as [? _].
Qed.
Lemma fits_index i k r : (i, k) ∈ tokens_of counts → rows b !! i = Some r →
  let p := (row_num_computed_tokens r + Z.of_nat k)%Z in
  int32 p = p ∧ int32 (Z.of_nat i * Z.of_nat (mr_max_model_len s)) = Z.of_nat (i * mr_max_model_len s) ∧
  int32 (Z.of_nat i * Z.of_nat (mr_max_num_blocks_per_req s)) = Z.of_nat (i * mr_max_num_blocks_per_req s) ∧
  (0 ≤ p < Z.of_nat (mr_max_model_len s))%Z ∧
  Z.to_nat (p / Z.of_nat (mr_block_size s)) < mr_max_num_blocks_per_req s.
Proof.
  move=> HT Hr p. destruct (fits_token i k HT) as (r' & n & Hr' & _ & Hn & Hk & H0 & H1).
  rw Hr in Hr'. injection Hr' as <-. have Hi := lookup_lt_Some _ _ _ Hr.
  have W1 := sf_width _ _ _ HF. have W2 := sf_width' _ _ _ HF. have B0 := sf_block _ _ _ HF.
  have HC := sf_cover _ _ _ HF. fold b in W1, W2.
  split_and!; [apply int32_id; nia|rw int32_id; nia|rw int32_id; nia|lia|lia|].
  apply Nat2Z.inj_lt. rw Z2Nat.id; first by apply Z.div_pos; lia. apply Z.div_lt_upper_bound; nia.
Qed.

(** Row and position of a token. *)
Let row_at (x : nat * nat) : Row := rows b !!! x.1.
Let pos (x : nat * nat) : Z := (row_num_computed_tokens (row_at x) + Z.of_nat x.2)%Z.

Lemma row_at_lookup x : x ∈ tokens_of counts → rows b !! x.1 = Some (row_at x).
Proof.
  destruct x as [i k] => HT. destruct (fits_token i k HT) as (r & n & Hr & _).
  by rw /row_at /= (list_lookup_total_correct _ _ _ Hr).
Qed.

Lemma pos_index x : x ∈ tokens_of counts →
  int32 (pos x) = pos x ∧ int32 (Z.of_nat x.1 * Z.of_nat (mr_max_model_len s)) = Z.of_nat (x.1 * mr_max_model_len s) ∧
  int32 (Z.of_nat x.1 * Z.of_nat (mr_max_num_blocks_per_req s)) = Z.of_nat (x.1 * mr_max_num_blocks_per_req s) ∧
  (0 ≤ pos x < Z.of_nat (mr_max_model_len s))%Z ∧
  Z.to_nat (pos x / Z.of_nat (mr_block_size s)) < mr_max_num_blocks_per_req s.
Proof. destruct x as [i k] => Hx. exact (fits_index i k _ Hx (row_at_lookup _ Hx)). Qed.

Lemma fits_ids : ∃ ids, batch_ids (take (num_reqs b) (req_ids b)) = Ok ids ∧
  token_counts (out_num_scheduled_tokens o) ids = Ok (Z.of_nat <$> counts).
Proof.
  have H := sf_counts _ _ _ HF. fold b in H. clear HF.
  induction H as [|x n l ns [id [-> Hd]] _ [ids [IH1 IH2]]]; first by exists [].
  exists (id :: ids). simpl. by rw IH1 Hd /= IH2.
Qed.
Lemma fits_max : (0 < max_of (Z.of_nat <$> counts))%Z.
Proof.
  have [H _] := sf_work _ _ _ HF. rw (sf_total _ _ _ HF) in H. by apply max_of_pos.
Qed.
Lemma fits_nonneg : Forall (λ x, 0 ≤ x)%Z (Z.of_nat <$> counts).
Proof. apply Forall_fmap, Forall_true => n /=. lia. Qed.

Lemma fits_computed : fancy_index (row_num_computed_tokens <$> rows b) (Z.of_nat <$> (fst <$> tokens_of counts)) =
  Ok ((λ x, row_num_computed_tokens (row_at x)) <$> tokens_of counts).
Proof.
  rw -list_fmap_compose. apply fancy_index_tokens => x Hx /=. split; first lia.
  by rw Nat2Z.id list_lookup_fmap (row_at_lookup x Hx).
Qed.
Lemma fits_positions :
  (λ x, int32 (row_num_computed_tokens (row_at x) + Z.of_nat x.2)) <$> tokens_of counts = pos <$> tokens_of counts.
Proof.
  apply list_fmap_ext => j x Hx. apply list_elem_of_lookup_2 in Hx. exact (proj1 (pos_index x Hx)).
Qed.
Lemma fits_token_ids :
  index_select (mjoin (row_token_ids <$> rows b))
    ((λ x, (pos x + int32 (Z.of_nat x.1 * Z.of_nat (mr_max_model_len s)))%Z) <$> tokens_of counts) =
  Ok ((λ x, row_token_ids (row_at x) !!! Z.to_nat (pos x)) <$> tokens_of counts).
Proof.
  apply index_select_tokens => x Hx. have Hr := row_at_lookup x Hx.
  destruct (pos_index x Hx) as (_ & W & _ & [P0 P1] & _). rw W.
  split; first lia. have -> : Z.to_nat (pos x + Z.of_nat (x.1 * mr_max_model_len s)) = x.1 * mr_max_model_len s + Z.to_nat (pos x) by lia.
  have HL := sf_tokens _ _ _ HF. fold b in HL. rw (mjoin_lookup (mr_max_model_len s) _ _ x.1 (row_token_ids (row_at x))).
  - by apply Forall_fmap.
  - by rw list_lookup_fmap Hr.
  - lia.
  - apply list_lookup_lookup_total_lt. rw (Forall_lookup_1 _ _ _ _ HL Hr). lia.
Qed.
Lemma fits_block_numbers :
  fancy_index (mjoin (row_block_table <$> rows b))
    ((λ x, (int32 (Z.of_nat x.1 * Z.of_nat (mr_max_num_blocks_per_req s)) + pos x / Z.of_nat (mr_block_size s))%Z)
       <$> tokens_of counts) =
  Ok ((λ x, row_block_table (row_at x) !!! Z.to_nat (pos x / Z.of_nat (mr_block_size s))) <$> tokens_of counts).
Proof.
  apply fancy_index_tokens => x Hx. have Hr := row_at_lookup x Hx.
  destruct (pos_index x Hx) as (_ & _ & W & [P0 P1] & PB). rw W.
  have B0 := sf_block _ _ _ HF.
  have HQ : (0 ≤ pos x / Z.of_nat (mr_block_size s))%Z by apply Z.div_pos; lia.
  split; first lia. rw Z2Nat.inj_add; [lia|done|]. rw Nat2Z.id.
  have HL := sf_tables _ _ _ HF. fold b in HL.
  rw (mjoin_lookup (mr_max_num_blocks_per_req s) _ _ x.1 (row_block_table (row_at x))).
  - by apply Forall_fmap.
  - by rw list_lookup_fmap Hr.
  - done.
  - apply list_lookup_lookup_total_lt. by rw (Forall_lookup_1 _ _ _ _ HL Hr).
Qed.
Lemma fits_slots :
  (λ x, int32 (int32 (Z.of_nat (row_block_table (row_at x) !!! Z.to_nat (pos x / Z.of_nat (mr_block_size s)))
                      * Z.of_nat (mr_block_size s)) + pos x mod Z.of_nat (mr_block_size s))) <$> tokens_of counts =
  (λ x, slot_of (Z.of_nat (mr_block_size s)) (row_block_table (row_at x)) (pos x)) <$> tokens_of counts.
Proof.
  apply list_fmap_ext => j x Hx. apply list_elem_of_lookup_2 in Hx. have Hr := row_at_lookup x Hx.
  destruct (pos_index x Hx) as (_ & _ & _ & _ & PB). have B0 := sf_block _ _ _ HF.
  have HL := sf_tables _ _ _ HF. fold b in HL. have HS := sf_slots _ _ _ HF. fold b in HS.
  have Ht := Forall_lookup_1 _ _ _ _ (Forall_lookup_1 _ _ _ _ HS Hr)
    (list_lookup_lookup_total_lt _ _ (eq_ind_r (λ m, _ < m) PB (Forall_lookup_1 _ _ _ _ HL Hr))).
  specialize (Ht _). simpl in Ht. have Hm := Z.mod_pos_bound (pos x) (Z.of_nat (mr_block_size s)) ltac:(lia).
  rw /slot_of. rw (int32_id (_ * _)); first nia. rw int32_id //. nia.
Qed.

(** The sequence lengths stay in range. *)
Lemma fits_seq_lens :
  let lens := zip_with (λ r n, row_num_computed_tokens r + n)%Z used (Z.of_nat <$> counts) in
  zip_with (λ c n, int32 (c + n)) (row_num_computed_tokens <$> used) (Z.of_nat <$> counts) = lens ∧
  Forall (λ x, 0 ≤ x)%Z lens ∧ (total_of lens ≤ Z.of_nat (length used * mr_max_model_len s))%Z ∧
  (total_of (Z.of_nat <$> counts) ≤ total_of lens)%Z.
Proof.
  have H := sf_fit _ _ _ HF. have W := sf_width _ _ _ HF. have [_ HZ] := sf_size _ _ _ HF.
  have Hm : length used = 0 ∨ (Z.of_nat (mr_max_model_len s) < 2 ^ 31)%Z.
  { rw /used length_take. fold b in W, HZ |- *. destruct (num_reqs b); [by left|right]. nia. }
  fold b used in H. clear HF W HZ. clearbody used b. revert Hm. induction H as [|r n l ns [H0 H1] _ IH] => Hm; first by simpl.
  rw !fmap_cons. cbn [zip_with length]. rw !total_of_cons Nat.mul_succ_l.
  have Hm' : (Z.of_nat (mr_max_model_len s) < 2 ^ 31)%Z by destruct Hm.
  destruct (IH (or_intror Hm')) as (I1 & I2 & I3 & I4). rw I1 int32_id; first lia.
  split_and!; [done|by constructor; [lia|]|lia|lia].
Qed.

(** The per-token arrays, request by request. *)
Lemma by_request {A} (f : nat * nat → A) (F : Row → nat → list A) :
  (∀ i r n, used !! i = Some r → counts !! i = Some n → (λ k, f (i, k)) <$> seq 0 n = F r n) →
  f <$> tokens_of counts = mjoin (zip_with F used counts).
Proof. apply fmap_tokens_rows. have [-> ->] := fits_length. done. Qed.
Lemma row_at_used i r k : used !! i = Some r → row_at (i, k) = r.
Proof. move=> /lookup_take_Some [H _]. by rw /row_at /= (list_lookup_total_correct _ _ _ H). Qed.
Lemma positions_by_request :
  pos <$> tokens_of counts = mjoin (zip_with (λ r n, span (row_num_computed_tokens r) n) used counts).
Proof.
  apply by_request => i r n Hr Hn. apply list_fmap_ext => j k _. by rw /pos (row_at_used i r).
Qed.
Lemma slots_by_request bs :
  (λ x, slot_of bs (row_block_table (row_at x)) (pos x)) <$> tokens_of counts =
  mjoin (zip_with (λ r n, slot_of bs (row_block_table r) <$> span (row_num_computed_tokens r) n) used counts).
Proof.
  apply by_request => i r n Hr Hn. rw -list_fmap_compose. apply list_fmap_ext => j k _. by rw /pos /= !(row_at_used i r).
Qed.
Lemma token_ids_by_request :
  (λ x, row_token_ids (row_at x) !!! Z.to_nat (pos x)) <$> tokens_of counts =
  mjoin (zip_with (λ r n, take n (drop (Z.to_nat (row_num_computed_tokens r)) (row_token_ids r))) used counts).
Proof.
  apply by_request => i r n Hr Hn. have HL := sf_tokens _ _ _ HF. fold b in HL.
  destruct (Forall2_lookup_lr _ _ _ _ _ _ (sf_fit _ _ _ HF) Hr Hn) as [H0 H1].
  have Hlen := Forall_lookup_1 _ _ _ _ HL (proj1 (proj1 (lookup_take_Some _ _ _ _) Hr)). simpl in Hlen.
  apply fmap_seq_lookup; first lia. move=> k Hk. rw /pos (row_at_used i r) //=.
  rw list_lookup_lookup_total_lt; [|f_equal; f_equal]; lia.
Qed.
Lemma logits_by_request :
  (λ n, int32 (n - 1)) <$> tail (partial_sums 0 (Z.of_nat <$> counts)) =
  (λ e, e - 1)%Z <$> tail (partial_sums 0 (Z.of_nat <$> counts)).
Proof.
  destruct fits_seq_lens as (_ & _ & L3 & L4). have W := sf_width _ _ _ HF. have [_ S1] := sf_size _ _ _ HF.
  have [_ LU] := fits_length. fold b in W, S1.
  have HB := partial_sums_bound _ 0 fits_nonneg ltac:(lia).
  apply list_fmap_ext => j e He. apply int32_id.
  have He' : e ∈ partial_sums 0 (Z.of_nat <$> counts).
  { apply list_elem_of_lookup_2 in He. destruct (partial_sums 0 _); [done|by right]. }
  rw Forall_forall in HB. have := HB e He'. simpl. nia.
Qed.

Lemma prepare_inputs_spec :
  prepare_inputs s o = Ok (reference_inputs (Z.of_nat (mr_block_size s)) used counts).
Proof.
  have [LC LU] := fits_length. have [W0 W1] := sf_work _ _ _ HF. have [S0 S1] := sf_size _ _ _ HF.
  destruct fits_ids as (ids & I1 & I2). have HN := fits_nonneg. have W := sf_width _ _ _ HF. fold b in S0, S1, W.
  destruct fits_seq_lens as (L1 & L2 & L3 & L4).
  have LT := length_tokens counts. rw -(sf_total _ _ _ HF) in LT.
  have Hout : length (tokens_of counts) = min (Z.to_nat (total_num_scheduled_tokens o)) (mr_max_num_tokens s) by lia.
  have HL : length used * mr_max_model_len s ≤ length (rows b) * mr_max_model_len s by rw LU; nia.
  have Hsize : Forall (λ n, n ≤ Nat.max (max_num_reqs b) (mr_max_model_len s)) counts.
  { apply Forall_lookup => i n Hn. destruct (Forall2_lookup_r _ _ _ _ _ (sf_fit _ _ _ HF) Hn) as [r [_ [? ?]]]. lia. }
  rw /prepare_inputs. fold b. destruct (Z.ltb_spec 0 (total_num_scheduled_tokens o)); last lia. cbn [negb].
  rw bool_decide_eq_false_2; first lia. rw I1 [mbind _ _]/= I2 [mbind _ _]/=.
  destruct (Z.ltb_spec 0 (max_of (Z.of_nat <$> counts))); last by have := fits_max; lia. cbn [negb].
  have -> : existsb (λ n, n <? 0)%Z (Z.of_nat <$> counts) = false.
  { apply not_true_is_false => /existsb_exists [x [/list_elem_of_In Hx /Z.ltb_lt Hneg]].
    rw Forall_forall in HN. have := HN x Hx. simpl. lia. }
  rw to_of_nat np_repeat_tokens np_arange_tokens // fits_computed [mbind _ _]/= !np_broadcast_same ?length_fmap // [mbind _ _]/=.
  rw zip_with_tokens fits_positions !zip_with_tokens fits_token_ids [mbind _ _]/= fits_block_numbers [mbind _ _]/=.
  rw zip_with_tokens fits_slots -/used L1 !np_cumsum_sums //; [lia|lia|].
  by rw token_ids_by_request positions_by_request slots_by_request logits_by_request.
Qed.
End inputs.

(** C21: the inputs of the forward pass are those one would write down request by
    request. For requests whose scheduled tokens fit their rows, in a batch whose
    flattened tables can be indexed with int32: the token ids are the scheduled
    slices of the rows; the positions follow the computed tokens; each token is
    stored in the slot its request's block table names; the boundaries are the
    partial sums of the token counts and of the sequence lengths; and the sampled
    logits are those of the last token of each request. *)
Theorem prepare_inputs_by_request s o counts :
  step_fits s o counts →
  prepare_inputs s o =
    Ok (reference_inputs (Z.of_nat (mr_block_size s))
          (take (num_reqs (input_batch s)) (rows (input_batch s))) counts).
Proof. apply prepare_inputs_spec. Qed.

(** Two requests: the first with two computed tokens and two more scheduled, the
    second with its three prompt tokens. *)
Definition demo_request (id : string) (tokens : list Z) (blocks : list nat) (computed : Z) : CachedRequestState :=
  {| crs_req_id := id; crs_prompt_token_ids := tokens; crs_prompt := None; crs_mm_inputs := []; crs_mm_positions := [];
     crs_sampling_params := default_sampling_params; crs_generator := None; crs_block_ids := blocks;
     crs_num_computed_tokens := computed; crs_output_token_ids := [] |}.
Definition demo_runner : ModelRunner :=
  {| mr_block_size := 2; mr_max_model_len := 6; mr_max_num_blocks_per_req := 3; mr_max_num_tokens := 16;
     mr_requests := []; encoder_cache := [];
     input_batch :=
       match (batch_add_request id (demo_request "a" [10; 11; 12; 13]%Z [5; 2] 2) None;;;
              batch_add_request id (demo_request "b" [20; 21; 22]%Z [7; 1] 0) None) (batch_init 4 6 3 0 0) with
       | Ok (_, b) => b
       | Raise _ => batch_init 0 0 0 0 0
       end;
     gen_heap := [] |}.
Definition demo_output : SchedulerOutput :=
  {| out_scheduled_new_reqs := []; out_scheduled_resumed_reqs := []; out_scheduled_running_reqs := [];
     out_num_scheduled_tokens := [("a", 2); ("b", 3)]%Z; total_num_scheduled_tokens := 5;
     out_scheduled_encoder_inputs := []; preempted_req_ids := []; out_finished_req_ids := [];
     free_encoder_input_ids := []; blocks_to_swap_in := None; blocks_to_swap_out := None; counter := 0 |}.
Lemma demo_step_fits : step_fits demo_runner demo_output [2; 3].
Proof.
  split; first (assert (take (num_reqs (input_batch demo_runner)) (req_ids (input_batch demo_runner))
    = [Some "a"; Some "b"]%string) as -> by (by vm_compute); repeat constructor; by eexists).
  all: by apply (bool_decide_unpack _); vm_compute.
Qed.
Lemma prepare_inputs_by_request_witness :
  step_fits demo_runner demo_output [2; 3] ∧
  prepare_inputs demo_runner demo_output =
    Ok {| mi_input_ids := [12; 13; 20; 21; 22]%Z; mi_positions := [2; 3; 0; 1; 2]%Z; mi_slot_mapping := [4; 5; 14; 15; 2]%Z;
          mi_query_start_loc := [0; 2; 5]%Z; mi_seq_start_loc := [0; 4; 7]%Z; mi_max_query_len := 3; mi_max_seq_len := 4;
          mi_logits_indices := [1; 4]%Z |}.
Proof.
  split; [exact demo_step_fits|].
  rw (prepare_inputs_by_request demo_runner demo_output [2; 3] demo_step_fits). vm_compute. reflexivity.
Defined.
