(* ===== verification/RunnerStates.v ===== *)
(** The cached request states of the model runner and the persistent batch stay
    mirror images of each other: [_update_states] and the recording of sampled
    tokens keep every row of the batch equal to the state of its request. *)
From Stdlib Require Import ssreflect ZArith Lia PrimFloat Sorting.Sorted.
From stdpp Require Import base numbers list gmap strings.
From S2P Require Import Prelude SamplingParams KVCacheBlock Request FreeQueue BlockHash KVCacheManager EncoderCache Scheduler InputBatch BatchTheorems ModelRunner.

(** * The mirror invariant *)

(** A row holds the data of a request state. *)
Record row_matches (st : CachedRequestState) (row : Row) (g : option nat) : Prop := {
  rm_tokens : crs_prompt_token_ids st ++ crs_output_token_ids st `prefix_of` row_token_ids row;
  rm_blocks : crs_block_ids st `prefix_of` row_block_table row;
  rm_computed : row_num_computed_tokens row = crs_num_computed_tokens st;
  rm_generator : g = crs_generator st;
}.

(** The sizes of the arrays: columns of the token table and of the block table. *)
Definition shape (s : ModelRunner) : nat * nat := (mr_max_model_len s, mr_max_num_blocks_per_req s).
Definition row_shape (c : nat * nat) (r : Row) : Prop :=
  length (row_token_ids r) = c.1 ∧ length (row_block_table r) = c.2.
Definition in_batch (s : ModelRunner) (id : string) : Prop := is_Some (dget (req_index (input_batch s)) id).

(** The invariant, for a batch with the empty rows [E] and the requests [X]
    whose state has been dropped but that are still in the batch. *)
Record runner_inv (s : ModelRunner) (E : list nat) (n : nat) (X : list string) : Prop := {
  ri_batch : batch_inv (input_batch s) E n;
  ri_size : n ≤ max_num_reqs (input_batch s);
  ri_shape : Forall (row_shape (shape s)) (rows (input_batch s));
  ri_wf : dict_wf (mr_requests s);
  ri_ids : ∀ id st, dget (mr_requests s) id = Some st → crs_req_id st = id;
  ri_mirror : ∀ id row g, id ∉ X → row_of (input_batch s) id = Some (row, g) →
    ∃ st, dget (mr_requests s) id = Some st ∧ row_matches st row g;
}.

Lemma in_batch_row s E n X id : runner_inv s E n X → in_batch s id → ∃ row g, row_of (input_batch s) id = Some (row, g).
Proof.
  move=> HI Hin. destruct (proj2 (row_of_is_Some _ _ _ id (ri_batch _ _ _ _ HI)) Hin) as [[row g] H]. by exists row, g.
Qed.
Lemma row_of_shape s E n X id row g : runner_inv s E n X → row_of (input_batch s) id = Some (row, g) →
  row_shape (shape s) row.
Proof.
  move=> HI. rw /row_of. destruct (dget _ id) as [i|]; last done. simpl.
  destruct (rows _ !! i) as [r|] eqn:Hr; last done. move=> [= <- _]. exact (Forall_lookup_1 _ _ _ _ (ri_shape _ _ _ _ HI) Hr).
Qed.

(** * Rows *)
Lemma slice_assign_ok {A} (row : list A) start l : start + length l ≤ length row →
  slice_assign row start l = Ok (take start row ++ l ++ drop (start + length l) row).
Proof. move=> H. rw /slice_assign bool_decide_eq_true_2 //. lia. Qed.
Lemma length_assigned {A} (row : list A) start l : start + length l ≤ length row →
  length (take start row ++ l ++ drop (start + length l) row) = length row.
Proof. move=> H. rw !length_app length_take length_drop. lia. Qed.
(** Writing right after a prefix extends it. *)
Lemma prefix_assigned {A} (p row l : list A) : p `prefix_of` row →
  p ++ l `prefix_of` take (length p) row ++ l ++ drop (length p + length l) row.
Proof.
  move=> [k ->]. rw take_app_length app_assoc. by eexists.
Qed.

Lemma fill_row_ok float32 st old c : row_shape c old →
  length (crs_prompt_token_ids st) + length (crs_output_token_ids st) ≤ c.1 → length (crs_block_ids st) ≤ c.2 →
  ∃ row, fill_row float32 st old = Ok row ∧ row_matches st row (crs_generator st) ∧ row_shape c row.
Proof.
  move=> [Ht Hb] H1 H2. rw /fill_row (slice_assign_ok (row_token_ids old)); first lia. cbn [take app Nat.add].
  rw [mbind _ _]/= (slice_assign_ok (_ ++ _)); first by rw length_app length_drop; lia.
  rw [mbind _ _]/= slice_assign_ok /=; first lia. eexists. split; first done. split.
  - split; simpl; [|by eexists|done|done].
    rw take_app_length app_assoc. by eexists.
  - rw /row_shape /= !length_app !length_take !length_drop !length_app !length_drop. split; lia.
Qed.

(** Replacing the row of a request. *)
Lemma store_row_spec b E n id i row row' g :
  batch_inv b E n → dget (req_index b) id = Some i → row_of b id = Some (row, g) →
  let b' := set_rows (<[i := row']> (rows b)) b in
  batch_inv b' E n ∧ row_of b' id = Some (row', g) ∧ ∀ id', id' ≠ id → row_of b' id' = row_of b id'.
Proof.
  move=> [H1 H2 H3 H4 H5 H6 H7 H8 H9 H10] Hi Hrow b'.
  have Hlt : i < length (rows b). { rw H2 -H1. by eapply lookup_lt_Some, H4. }
  split_and!.
  - split; try done. simpl. by rw length_insert.
  - rw /row_of /b' /= Hi /= list_lookup_insert_eq //=. move: Hrow. rw /row_of Hi /=.
    destruct (rows b !! i); last done. by move=> [= _ <-].
  - move=> id' Hne. rw /row_of /b' /=. destruct (dget (req_index b) id') as [j|] eqn:Hj; last done. simpl.
    rw list_lookup_insert_ne //. move=> ?. subst j. apply H4 in Hj. apply H4 in Hi. congruence.
Qed.

(** The order in which the empty rows are listed does not matter. *)
Lemma batch_inv_perm b E E' n : E ≡ₚ E' → batch_inv b E n → batch_inv b E' n.
Proof.
  move=> HP [H1 H2 H3 H4 H5 H6 H7 H8 H9 H10]. split; try done.
  - move=> i. by rw -HP H5.
  - move=> e. rw -HP. apply H6.
  - by rw -HP.
  - by rw -HP.
Qed.
#[export] Instance batch_inv_proper : Proper ((=) ==> (≡ₚ) ==> (=) ==> iff) batch_inv.
Proof. move=> b ? <- E E' HP n ? <-. split; apply batch_inv_perm; [done|by symmetry]. Qed.

(** * The steps of [update_states] *)

(** Two runners with the same batch and the same states. *)
Definition same_states (s s' : ModelRunner) : Prop :=
  input_batch s' = input_batch s ∧ mr_requests s' = mr_requests s ∧ shape s' = shape s.

Lemma drop_finished_spec l : ∀ s, dict_wf (mr_requests s) →
  ∃ s', mfor l drop_finished s = Ok (tt, s') ∧ input_batch s' = input_batch s ∧ shape s' = shape s ∧
    dict_wf (mr_requests s') ∧
    ∀ id, dget (mr_requests s') id = if decide (id ∈ l) then None else dget (mr_requests s) id.
Proof.
  induction l as [|x l IH] => s Hwf; first by exists s.
  destruct (IH (set_encoder_cache (ddel (encoder_cache s) x) (set_mr_requests (ddel (mr_requests s) x) s)))
    as (s' & R1 & R2 & R3 & R4 & R5); first by apply dict_wf_ddel.
  exists s'. split; first exact R1. split_and!; [done|done|done|]. move=> id. rw R5 /= dget_ddel //.
  destruct (decide (id ∈ l)) as [Hin|Hin], (decide (id = x)) as [->|Hne], (decide (_ ∈ _ :: _)) as [Hc|Hc];
    set_solver.
Qed.

Lemma free_encoder_spec l : ∀ s, ∃ s', mfor l free_encoder_input s = Ok (tt, s') ∧ same_states s s'.
Proof.
  induction l as [|[id i] l IH] => s; first by exists s.
  assert (∃ s1, free_encoder_input (id, i) s = Ok (tt, s1) ∧ same_states s s1) as (s1 & E1 & F1 & F2 & F3).
  { eexists. split; [reflexivity|]. by destruct (dget (encoder_cache s) id). }
  destruct (IH s1) as (s' & R1 & R2 & R3 & R4). exists s'. cbn [mfor]. rw /mbind /M_bind E1.
  split; first done. rw /same_states. split_and!; congruence.
Qed.

Lemma remove_stopped_spec n X l : ∀ s R, runner_inv s R n X →
  ∃ s' R', mfold l R remove_stopped s = Ok (R', s') ∧ runner_inv s' R' n X ∧ mr_requests s' = mr_requests s ∧
    shape s' = shape s ∧ max_num_reqs (input_batch s') = max_num_reqs (input_batch s) ∧
    (∀ id, in_batch s' id ↔ in_batch s id ∧ id ∉ l) ∧
    ∀ id, id ∉ l → row_of (input_batch s') id = row_of (input_batch s) id.
Proof.
  induction l as [|x l IH] => s R HI; first by exists s, R; split_and!; try done; set_solver.
  cbn [mfold]. rw /remove_stopped /on_batch /zoom /mbind /M_bind. fold remove_stopped.
  have HB := ri_batch _ _ _ _ HI. have := batch_remove_spec _ _ _ x HB.
  destruct (dget (req_index (input_batch s)) x) as [i|] eqn:Hx.
  - move=> [b' [-> [B1 [B2 [B3 [B4 B5]]]]]]. cbn [mret M_ret].
    destruct (IH (set_input_batch b' s) (R ++ [i])) as (s' & R' & I1 & I2 & I3 & I4 & I5 & I6 & I7).
    + destruct HI as [G1 G2 G3 G4 G5 G6]. split; simpl; [|by rw B2|by rw B3|done|done|].
      * by rw -Permutation_cons_append.
      * move=> id row g Hid Hrow. apply (G6 id row g); [done|]. rw -B5 //.
        move=> ?. subst id. by rw /row_of B4 (dget_ddel_eq _ _ (bi_wf _ _ _ HB)) in Hrow.
    + exists s', R'. split; first exact I1. split_and!; [done|done|done|by rw I5|..].
      * move=> id. rw I6 /in_batch /= B4 dget_ddel; first apply (bi_wf _ _ _ HB).
        rw not_elem_of_cons. case_decide; [subst; rw is_Some_alt; tauto|tauto].
      * move=> id Hid. rw I7; first set_solver. apply B5. set_solver.
  - move=> ->. cbn [mret M_ret]. have -> : set_input_batch (input_batch s) s = s by destruct s.
    destruct (IH s R HI) as (s' & R' & I1 & I2 & I3 & I4 & I5 & I6 & I7).
    exists s', R'. split; first exact I1. split_and!; [done|done|done|done|..].
    + move=> id. rw I6 not_elem_of_cons. split; [|tauto]. move=> [Hin Hid]. split_and!; [done| |done].
      move=> ?. subst id. rw /in_batch Hx in Hin. by destruct Hin.
    + move=> id Hid. apply I7. set_solver.
Qed.

(** Replacing the state of a request together with its row. *)
Lemma replace_row_inv s s' E n id i row row' g st' :
  runner_inv s E n [] → dget (req_index (input_batch s)) id = Some i → row_of (input_batch s) id = Some (row, g) →
  input_batch s' = set_rows (<[i := row']> (rows (input_batch s))) (input_batch s) → shape s' = shape s →
  dict_wf (mr_requests s') →
  (∀ id', dget (mr_requests s') id' = if decide (id' = id) then Some st' else dget (mr_requests s) id') →
  crs_req_id st' = id → row_matches st' row' g → row_shape (shape s) row' → runner_inv s' E n [].
Proof.
  move=> [G1 G2 G3 G4 G5 G6] Hi Hrow Hb Hs Hwf Hd Hid Hm Hsh.
  destruct (store_row_spec _ _ _ _ _ _ row' g G1 Hi Hrow) as (B1 & B2 & B3). rw -Hb in B1 B2 B3.
  split; [done|by rw Hb| |done| |].
  - rw Hs Hb /=. by apply Forall_insert.
  - move=> id' st. rw Hd. case_decide; [by move=> [= <-]; subst|apply G5].
  - move=> id' r g' Hn. rw Hd. case_decide as Hc; last by rw B3 //; apply G6.
    subst id'. rw B2. move=> [= <- <-]. by exists st'.
Qed.
Lemma row_of_lookup b id i row g : dget (req_index b) id = Some i → row_of b id = Some (row, g) → rows b !! i = Some row.
Proof. rw /row_of. move=> -> /=. destruct (rows b !! i); [by move=> [= -> _]|done]. Qed.

(** The state of a running request after the step's update. *)
Definition advance_state (d : RunningRequestData) (st : CachedRequestState) : CachedRequestState :=
  set_block_ids (crs_block_ids st ++ run_new_block_ids d) (set_num_computed (run_num_computed_tokens d) st).

(** [update_running] in one go. *)
Lemma update_running_run s d st i row :
  dget (mr_requests s) (run_req_id d) = Some st → dget (req_index (input_batch s)) (run_req_id d) = Some i →
  rows (input_batch s) !! i = Some row →
  length (crs_block_ids st) + length (run_new_block_ids d) ≤ length (row_block_table row) →
  ∃ s', update_running d s = Ok (tt, s') ∧ shape s' = shape s ∧
    (dict_wf (mr_requests s) → dict_wf (mr_requests s')) ∧
    input_batch s' = set_rows (<[i := with_blocks
      (take (length (crs_block_ids st)) (row_block_table row) ++ run_new_block_ids d ++
       drop (length (crs_block_ids st) + length (run_new_block_ids d)) (row_block_table row))
      (with_computed (run_num_computed_tokens d) row)]> (rows (input_batch s))) (input_batch s) ∧
    ∀ id, dget (mr_requests s') id = if decide (id = run_req_id d) then Some (advance_state d st)
                                     else dget (mr_requests s) id.
Proof.
  move=> Hst Hi Hrow Hfit. have Hlt := lookup_lt_Some _ _ _ Hrow.
  rw /update_running /cached_request /mbind /M_bind /mget Hst /mret /M_ret Hi
     /store_request /mmodify /on_batch /zoom /batch_row /mbind /M_bind /mget /= Hrow /=.
  case_bool_decide as Hnew.
  - eexists. split; first reflexivity. split_and!; simpl; [done|auto with py| |].
    + rw Hnew /= Nat.add_0_r take_drop. by destruct row.
    + move=> id. rw dget_dset /advance_state Hnew app_nil_r. by destruct st.
  - rw dget_dset_eq /= list_lookup_insert_eq //=.
    rw /mlift slice_assign_ok /=; first done. eexists. split; first reflexivity.
    split_and!; simpl; [done|auto with py| |].
    + by rw /set_rows /= list_insert_insert_eq.
    + move=> id. rw !dget_dset. by case_decide.
Qed.
Lemma update_running_spec s E n d st :
  runner_inv s E n [] → in_batch s (run_req_id d) → dget (mr_requests s) (run_req_id d) = Some st →
  length (crs_block_ids st) + length (run_new_block_ids d) ≤ (shape s).2 →
  ∃ s', update_running d s = Ok (tt, s') ∧ runner_inv s' E n [] ∧ shape s' = shape s ∧
    req_index (input_batch s') = req_index (input_batch s) ∧
    max_num_reqs (input_batch s') = max_num_reqs (input_batch s) ∧
    ∀ id, dget (mr_requests s') id = if decide (id = run_req_id d) then Some (advance_state d st)
                                     else dget (mr_requests s) id.
Proof.
  move=> HI Hin Hst Hfit. destruct (in_batch_row _ _ _ _ _ HI Hin) as (row & g & Hrow).
  destruct (Hin) as [i Hi]. have [Hs1 Hs2] := row_of_shape _ _ _ _ _ _ _ HI Hrow.
  destruct (ri_mirror _ _ _ _ HI _ _ _ (not_elem_of_nil _) Hrow) as (st0 & Hst0 & [M1 M2 M3 M4]).
  rw Hst in Hst0. injection Hst0 as <-.
  destruct (update_running_run s d st i row Hst Hi (row_of_lookup _ _ _ _ _ Hi Hrow)) as (s' & R1 & R2 & R3 & R4 & R5);
    first by rw Hs2.
  exists s'. split; first done. split_and!; [|done|by rw R4|by rw R4|done].
  eapply replace_row_inv; [exact HI|exact Hi|exact Hrow|exact R4|exact R2|by apply R3, (ri_wf _ _ _ _ HI)|exact R5| | |].
  - exact (ri_ids _ _ _ _ HI _ _ Hst).
  - split; simpl; [done|by apply prefix_assigned|done|done].
  - split; simpl; [done|]. by rw length_assigned // Hs2.
Qed.

(** States may be stored for requests that are not in the batch. *)
Lemma store_state_inv s s' E n id st :
  runner_inv s E n [] → ¬ in_batch s id → input_batch s' = input_batch s → shape s' = shape s →
  mr_requests s' = dset (mr_requests s) id st → crs_req_id st = id → runner_inv s' E n [].
Proof.
  move=> [G1 G2 G3 G4 G5 G6] Hnin Hb Hs Hr Hid. split; rw ?Hb ?Hs ?Hr; [done|done|done|by apply dict_wf_dset| |].
  - move=> id' st'. rw dget_dset. case_decide; [by move=> [= <-]; subst|apply G5].
  - move=> id' row g Hn Hrow. rw dget_dset_ne; last by apply G6.
    move=> ?. subst id'. apply Hnin. apply (row_of_is_Some _ _ _ _ G1). by eexists.
Qed.

Lemma update_running_all E n ds : ∀ s, runner_inv s E n [] → NoDup (run_req_id <$> ds) →
  Forall (λ d, in_batch s (run_req_id d) ∧ ∃ st, dget (mr_requests s) (run_req_id d) = Some st ∧
    length (crs_block_ids st) + length (run_new_block_ids d) ≤ (shape s).2) ds →
  ∃ s', mfor ds update_running s = Ok (tt, s') ∧ runner_inv s' E n [] ∧ shape s' = shape s ∧
    req_index (input_batch s') = req_index (input_batch s) ∧
    max_num_reqs (input_batch s') = max_num_reqs (input_batch s) ∧
    (∀ d st, d ∈ ds → dget (mr_requests s) (run_req_id d) = Some st →
       dget (mr_requests s') (run_req_id d) = Some (advance_state d st)) ∧
    ∀ id, id ∉ run_req_id <$> ds → dget (mr_requests s') id = dget (mr_requests s) id.
Proof.
  induction ds as [|d ds IH] => s HI Hnd HF; first by exists s; split_and!; try done; set_solver.
  rw fmap_cons in Hnd. apply NoDup_cons in Hnd as [Hd Hnd]. apply Forall_cons in HF as [[Hin (st & Hst & Hfit)] HF].
  destruct (update_running_spec s E n d st HI Hin Hst Hfit) as (s1 & R1 & R2 & R3 & R4 & R5 & R6).
  destruct (IH s1 R2 Hnd) as (s' & I1 & I2 & I3 & I4 & I5 & I6 & I7).
  { apply Forall_forall => d' Hd'. rw Forall_forall in HF. destruct (HF d' Hd') as [Hin' (st' & Hst' & Hfit')].
    rw /in_batch R4 R3. split; first done. exists st'. rw R6 decide_False //. by move=> ?; apply Hd; apply list_elem_of_fmap; exists d'. }
  exists s'. cbn [mfor]. rw /mbind /M_bind R1. split; first done. split_and!; [done|congruence|congruence|congruence|..].
  - move=> d' st' /elem_of_cons [->|Hd'] Hst'.
    + rw I7 // R6 decide_True //. congruence.
    + apply I6; first done. rw R6 decide_False //. by move=> ?; apply Hd; apply list_elem_of_fmap; exists d'.
  - move=> id Hid. rw fmap_cons not_elem_of_cons in Hid. rw I7; [tauto|]. rw R6 decide_False; tauto.
Qed.

(** The state of a new request, with the generator it was given. *)
Definition new_state (d : NewRequestData) (g : option nat) : CachedRequestState :=
  {| crs_req_id := nrd_req_id d; crs_prompt_token_ids := nrd_prompt_token_ids d; crs_prompt := nrd_prompt d;
     crs_mm_inputs := nrd_mm_inputs d; crs_mm_positions := nrd_mm_positions d;
     crs_sampling_params := nrd_sampling_params d;
     crs_generator := g; crs_block_ids := nrd_block_ids d;
     crs_num_computed_tokens := nrd_num_computed_tokens d; crs_output_token_ids := [] |}.

(** What storing states changes: the states of [ids], not the batch. *)
Record stores (s s' : ModelRunner) (E : list nat) (n : nat) (ids : list string) : Prop := {
  st_inv : runner_inv s' E n [];
  st_batch : input_batch s' = input_batch s;
  st_shape : shape s' = shape s;
  st_rest : ∀ id, id ∉ ids → dget (mr_requests s') id = dget (mr_requests s) id;
}.

Lemma add_new_all E n ds : ∀ s, runner_inv s E n [] → NoDup (nrd_req_id <$> ds) →
  Forall (λ d, ¬ in_batch s (nrd_req_id d)) ds →
  ∃ s', mfor ds add_new s = Ok (tt, s') ∧ stores s s' E n (nrd_req_id <$> ds) ∧
    ∀ d, d ∈ ds → ∃ g, dget (mr_requests s') (nrd_req_id d) = Some (new_state d g).
Proof.
  induction ds as [|d ds IH] => s HI Hnd HF; first by exists s; split_and!; try done; set_solver.
  rw fmap_cons in Hnd. apply NoDup_cons in Hnd as [Hd Hnd]. apply Forall_cons in HF as [Hin HF].
  assert (∃ s1 g, add_new d s = Ok (tt, s1) ∧ input_batch s1 = input_batch s ∧ shape s1 = shape s ∧
    mr_requests s1 = dset (mr_requests s) (nrd_req_id d) (new_state d g)) as (s1 & g & R1 & R2 & R3 & R4).
  { rw /add_new /mbind /M_bind. case_bool_decide; eexists _, _; (split; [reflexivity|done]). }
  have HI1 := store_state_inv s s1 E n _ _ HI Hin R2 R3 R4 eq_refl.
  destruct (IH s1 HI1 Hnd) as (s' & I1 & [I2 I3 I4 I5] & I6).
  { eapply Forall_impl; [exact HF|]. move=> d' Hd'. by rw /in_batch R2. }
  exists s'. cbn [mfor]. rw /mbind /M_bind R1. split; first done. split.
  - split; [done|congruence|congruence|]. move=> id. rw fmap_cons not_elem_of_cons => -[? ?].
    rw I5 // R4 dget_dset_ne //.
  - move=> d' /elem_of_cons [->|Hd']; [|by apply I6]. exists g. rw I5 // R4. apply dget_dset_eq.
Qed.

Definition resume_state (d : ResumedRequestData) (st : CachedRequestState) : CachedRequestState :=
  set_num_computed (rrd_num_computed_tokens d) (set_block_ids (rrd_block_ids d) st).

Lemma update_resumed_all E n ds : ∀ s, runner_inv s E n [] → NoDup (rrd_req_id <$> ds) →
  Forall (λ d, ¬ in_batch s (rrd_req_id d) ∧ is_Some (dget (mr_requests s) (rrd_req_id d))) ds →
  ∃ s', mfor ds update_resumed s = Ok (tt, s') ∧ stores s s' E n (rrd_req_id <$> ds) ∧
    ∀ d st, d ∈ ds → dget (mr_requests s) (rrd_req_id d) = Some st →
      dget (mr_requests s') (rrd_req_id d) = Some (resume_state d st).
Proof.
  induction ds as [|d ds IH] => s HI Hnd HF; first by exists s; split_and!; try done; set_solver.
  rw fmap_cons in Hnd. apply NoDup_cons in Hnd as [Hd Hnd]. apply Forall_cons in HF as [[Hin [st Hst]] HF].
  have Hne : ∀ d', d' ∈ ds → rrd_req_id d' ≠ rrd_req_id d.
  { move=> d' Hd' He. apply Hd. apply list_elem_of_fmap. by exists d'. }
  set s1 := set_mr_requests (dset (mr_requests s) (rrd_req_id d) (resume_state d st)) s.
  have R1 : update_resumed d s = Ok (tt, s1).
  { by rw /update_resumed /cached_request /mbind /M_bind /mget Hst. }
  have HI1 : runner_inv s1 E n [].
  { apply (store_state_inv s s1 E n (rrd_req_id d) (resume_state d st)); try done. exact (ri_ids _ _ _ _ HI _ _ Hst). }
  destruct (IH s1 HI1 Hnd) as (s' & I1 & [I2 I3 I4 I5] & I6).
  { apply Forall_forall => d' Hd'. rw Forall_forall in HF. destruct (HF d' Hd') as [H1 H2]. split; first done.
    by rw /s1 /= dget_dset_ne; [apply Hne|]. }
  exists s'. cbn [mfor]. rw /mbind /M_bind R1. split; first done. split.
  - split; [done|by rw I3|by rw I4|]. move=> id. rw fmap_cons not_elem_of_cons => -[? ?].
    rw I5 // /s1 /= dget_dset_ne //.
  - move=> d' st' /elem_of_cons [->|Hd'] Hst'.
    + rw I5 // /s1 /= dget_dset_eq. congruence.
    + apply I6; first done. by rw /s1 /= dget_dset_ne; [apply Hne|].
Qed.

(** ** Adding to the batch *)
Lemma elem_of_insert_desc x y l : x ∈ insert_desc y l ↔ x = y ∨ x ∈ l.
Proof.
  elim: l => [|z l IH] /=; first set_solver. case_bool_decide; [set_solver|]. rw !elem_of_cons IH. tauto.
Qed.
Lemma insert_desc_perm y l : insert_desc y l ≡ₚ y :: l.
Proof. elim: l => [|z l IH] //=. case_bool_decide; [done|]. rw IH. constructor. Qed.
Lemma sort_desc_perm l : sort_desc l ≡ₚ l.
Proof. elim: l => [|y l IH] //=. by rw insert_desc_perm IH. Qed.
Lemma insert_desc_sorted y l : y ∉ l → StronglySorted gt l → StronglySorted gt (insert_desc y l).
Proof.
  move=> Hy Hs. induction Hs as [|z l Hs IH Hz] => /=; first by repeat constructor.
  apply not_elem_of_cons in Hy as [Hne Hy]. case_bool_decide as Hlt.
  - constructor; first by constructor. constructor; first lia. eapply Forall_impl; [exact Hz|]. simpl. lia.
  - constructor; first by apply IH. rw Forall_forall in Hz. apply Forall_forall => x /elem_of_insert_desc [->|/Hz //]. lia.
Qed.
Lemma sort_desc_sorted l : NoDup l → StronglySorted gt (sort_desc l).
Proof.
  induction 1 as [|y l Hy _ IH]; first constructor. apply insert_desc_sorted; last done. change (y ∉ sort_desc l). by rw sort_desc_perm.
Qed.

(** A state fits the rows. *)
Definition state_fits (c : nat * nat) (st : CachedRequestState) : Prop :=
  length (crs_prompt_token_ids st) + length (crs_output_token_ids st) ≤ c.1 ∧ length (crs_block_ids st) ≤ c.2.

Section adding.
Variable float32 : float → float.

(** Putting a request into row [i]. *)
Lemma add_row_spec s E E' n n' id st i index :
  runner_inv s E n [] → ¬ in_batch s id → dget (mr_requests s) id = Some st → state_fits (shape s) st →
  default (num_reqs (input_batch s)) index = i →
  (∀ x, req_ids (input_batch s) !! i ≠ Some (Some x)) → i < max_num_reqs (input_batch s) →
  (∀ j, j < n' ∧ j ∉ E' ↔ j = i ∨ j < n ∧ j ∉ E) → (∀ e, e ∈ E' → e < n') → NoDup E' →
  S (num_reqs (input_batch s)) + length E' = n' → n' ≤ max_num_reqs (input_batch s) →
  ∃ s', on_batch (batch_add_request float32 st index) s = Ok (tt, s') ∧ runner_inv s' E' n' [] ∧
    mr_requests s' = mr_requests s ∧ shape s' = shape s ∧
    max_num_reqs (input_batch s') = max_num_reqs (input_batch s) ∧
    ∀ x, in_batch s' x ↔ x = id ∨ in_batch s x.
Proof.
  move=> HI Hnin Hst [F1 F2] Hix Hfree Hi Hused HE' Hnd Hnum Hmax. have Hid := ri_ids _ _ _ _ HI _ _ Hst. subst id.
  destruct HI as [G1 G2 G3 G4 G5 G6].
  destruct (lookup_lt_is_Some_2 (rows (input_batch s)) i) as [old Hold]; first by rw (bi_rows _ _ _ G1).
  destruct (fill_row_ok float32 st old _ (Forall_lookup_1 _ _ _ _ G3 Hold) F1 F2) as (row & Hfill & Hm & Hsh).
  destruct (batch_add_spec float32 (input_batch s) E E' n n' st i old row) as (b' & B1 & B2 & B3 & B4 & B5 & B6 & B7);
    try done; first by apply eq_None_not_Some.
  exists (set_input_batch b' s). rw /on_batch /zoom (B1 index Hix). split; first done. split_and!; try done.
  - split; simpl; [done|by rw B3|rw B4; by apply Forall_insert|done|done|].
    move=> id r g Hn. destruct (decide (id = crs_req_id st)) as [->|Hne].
    + rw B6 => -[<- <-]. by exists st.
    + rw B7 //. by apply G6.
  - move=> x. rw /in_batch /= B5 dget_dset. case_decide; [split; [by left|done]|]. split; [by right|by move=> [?|]].
Qed.

Lemma add_to_batch_spec s R n id st :
  runner_inv s R n [] → StronglySorted gt R → ¬ in_batch s id → dget (mr_requests s) id = Some st →
  state_fits (shape s) st → num_reqs (input_batch s) < max_num_reqs (input_batch s) →
  ∃ s' n', add_to_batch float32 R id s = Ok (removelast R, s') ∧ runner_inv s' (removelast R) n' [] ∧
    mr_requests s' = mr_requests s ∧ shape s' = shape s ∧
    max_num_reqs (input_batch s') = max_num_reqs (input_batch s) ∧
    num_reqs (input_batch s') = S (num_reqs (input_batch s)) ∧
    ∀ x, in_batch s' x ↔ x = id ∨ in_batch s x.
Proof.
  move=> HI Hs Hnin Hst Hf Hlt. have HB := ri_batch _ _ _ _ HI. have Hn := ri_size _ _ _ _ HI.
  rw /add_to_batch /cached_request /mbind /M_bind /mget Hst /mret /M_ret.
  destruct R as [|e R _] using rev_ind.
  - have Hnum := bi_num _ _ _ HB. rw /= Nat.add_0_r in Hnum.
    destruct (add_row_spec s [] [] n (S n) id st (num_reqs (input_batch s)) None) as (s' & A1 & A2);
      [done|done|done|done|done| |done| |by move=> e /elem_of_nil|constructor|by rw Nat.add_0_r Hnum|lia|].
    + move=> x Hx. destruct (proj1 (bi_used _ _ _ HB _) (ex_intro _ x Hx)). lia.
    + move=> j. split; [move=> [? _]; destruct (decide (j = n)); [left; lia|right; split; [lia|apply not_elem_of_nil]]|].
      move=> H. split; [lia|apply not_elem_of_nil].
    + destruct A2 as (A2 & ? & ? & ? & ?). have := bi_num _ _ _ (ri_batch _ _ _ _ A2) => /= ?.
      exists s', (S n). rw A1. split_and!; try done. lia.
  - destruct (sorted_gt_snoc _ _ Hs) as [Hs' Hlow]. have Hnd := bi_nodup _ _ _ HB.
    have Hen := bi_empty _ _ _ HB e ltac:(set_solver). apply NoDup_app in Hnd as (Hnd & _ & _).
    have Hnum := bi_num _ _ _ HB. rw length_app /= in Hnum. rw last_snoc removelast_last.
    destruct (add_row_spec s (R ++ [e]) R n n id st e (Some e)) as (s' & A1 & A2);
      [done|done|done|done|done| |lia| | |done|lia|done|].
    + move=> x Hx. destruct (proj1 (bi_used _ _ _ HB _) (ex_intro _ x Hx)). set_solver.
    + move=> j. rw not_elem_of_app not_elem_of_cons. split.
      * move=> [? ?]. destruct (decide (j = e)); [by left|right; split_and!; try done; apply not_elem_of_nil].
      * move=> [->|[? [? _]]]; [split; [done|]; move=> /Hlow; lia|done].
    + move=> x Hx. apply (bi_empty _ _ _ HB). set_solver.
    + destruct A2 as (A2 & ? & ? & ? & ?). have := bi_num _ _ _ (ri_batch _ _ _ _ A2) => /= ?.
      exists s', n. rw A1. split_and!; try done. lia.
Qed.

Lemma add_all ids : ∀ s R n, runner_inv s R n [] → StronglySorted gt R → NoDup ids →
  Forall (λ id, ¬ in_batch s id ∧ ∃ st, dget (mr_requests s) id = Some st ∧ state_fits (shape s) st) ids →
  num_reqs (input_batch s) + length ids ≤ max_num_reqs (input_batch s) →
  ∃ s' R' n', mfold ids R (add_to_batch float32) s = Ok (R', s') ∧ runner_inv s' R' n' [] ∧ StronglySorted gt R' ∧
    mr_requests s' = mr_requests s ∧ shape s' = shape s ∧ ∀ x, in_batch s' x ↔ x ∈ ids ∨ in_batch s x.
Proof.
  induction ids as [|id ids IH] => s R n HI Hs Hnd HF Hroom.
  { exists s, R, n. split_and!; try done. set_solver. }
  apply NoDup_cons in Hnd as [Hid Hnd]. apply Forall_cons in HF as [[Hnin (st & Hst & Hfit)] HF]. simpl in Hroom.
  destruct (add_to_batch_spec s R n id st) as (s1 & n1 & R1 & R2 & R3 & R4 & R5 & R6 & R7); try done; first lia.
  destruct (IH s1 (removelast R) n1) as (s' & R' & n' & I1 & I2 & I3 & I4 & I5 & I6); [done| |done| |lia|].
  - destruct R as [|e R _] using rev_ind; [done|]. rw removelast_last. apply (sorted_gt_snoc _ _ Hs).
  - apply Forall_forall => x Hx. rw Forall_forall in HF. destruct (HF x Hx) as [H1 H2]. rw R3 R4 R7. split; [|done].
    move=> [?|?]; [by subst|done].
  - exists s', R', n'. cbn [mfold]. rw /mbind /M_bind R1. split; first done. split_and!; [done|done|congruence|congruence|].
    move=> x. rw I6 R7 elem_of_cons. tauto.
Qed.
End adding.

(** * [update_states] *)

Definition stopped_ids (o : SchedulerOutput) : list string := preempted_req_ids o ++ out_finished_req_ids o.
Definition added_ids (o : SchedulerOutput) : list string :=
  (nrd_req_id <$> out_scheduled_new_reqs o) ++ (rrd_req_id <$> out_scheduled_resumed_reqs o).

(** What the runner relies on: running requests are in the batch, new and
    resumed ones are not (or are being removed), resumed ones are known, the data
    of each request fits its row, and the batch has room for all of them. *)
Record output_fits (s : ModelRunner) (o : SchedulerOutput) (running : list RunningRequestData) : Prop := {
  of_nodup : NoDup (run_req_id <$> running);
  of_running : Forall (λ d, in_batch s (run_req_id d) ∧ (run_req_id d ∉ stopped_ids o) ∧
    ∃ st, dget (mr_requests s) (run_req_id d) = Some st ∧
      length (crs_block_ids st) + length (run_new_block_ids d) ≤ (shape s).2) running;
  of_added : NoDup (added_ids o);
  of_outside : ∀ id, id ∈ added_ids o → in_batch s id → id ∈ stopped_ids o;
  of_new : Forall (λ d, state_fits (shape s) (new_state d None)) (out_scheduled_new_reqs o);
  of_resumed : Forall (λ d, (rrd_req_id d ∉ out_finished_req_ids o) ∧
    ∃ st, dget (mr_requests s) (rrd_req_id d) = Some st ∧ state_fits (shape s) (resume_state d st))
    (out_scheduled_resumed_reqs o);
  of_room : length (filter (λ id, id ∉ stopped_ids o) (dkeys (req_index (input_batch s)))) + length (added_ids o)
    ≤ max_num_reqs (input_batch s);
}.

Lemma elem_of_set_fold x l : ∀ acc, x ∈ foldl (λ acc y, set_add y acc) acc l ↔ x ∈ acc ∨ x ∈ l.
Proof. elim: l => [|y l IH] acc /=; first set_solver. rw IH elem_of_set_add elem_of_cons. tauto. Qed.

(** The requests left after the stopped ones are removed. *)
Lemma remaining_count s s' E E' n n' (l : list string) : batch_inv (input_batch s) E n → batch_inv (input_batch s') E' n' →
  (∀ id, in_batch s' id ↔ in_batch s id ∧ id ∉ l) →
  num_reqs (input_batch s') = length (filter (λ id, id ∉ l) (dkeys (req_index (input_batch s)))).
Proof.
  move=> HB HB' H. rw /num_reqs -(length_fmap fst). apply Permutation_length, NoDup_Permutation.
  - apply (bi_wf _ _ _ HB').
  - apply NoDup_filter, (bi_wf _ _ _ HB).
  - move=> id. rw list_elem_of_filter -!dget_is_Some. specialize (H id). unfold in_batch in H. tauto.
Qed.

(** Dropping the finished states, freeing encoder outputs and removing the
    stopped requests. *)
Lemma removal_phase s o n k : runner_inv s [] n [] →
  ∃ s' R, (∀ (m : list nat → MR unit),
      (mfor (out_finished_req_ids o) drop_finished;;; mfor (free_encoder_input_ids o) free_encoder_input;;;
       removed ← mfold (foldl (λ acc x, set_add x acc) [] (stopped_ids o)) [] remove_stopped; m removed) s = m R s') ∧
    runner_inv s' R n [] ∧ shape s' = shape s ∧ max_num_reqs (input_batch s') = max_num_reqs (input_batch s) ∧
    (∀ id, in_batch s' id ↔ in_batch s id ∧ id ∉ stopped_ids o) ∧
    (∀ id, id ∉ out_finished_req_ids o → dget (mr_requests s') id = dget (mr_requests s) id) ∧
    (length (filter (λ id, id ∉ stopped_ids o) (dkeys (req_index (input_batch s)))) + k
      ≤ max_num_reqs (input_batch s) → num_reqs (input_batch s') + k ≤ max_num_reqs (input_batch s')).
Proof.
  move=> HI. destruct (drop_finished_spec (out_finished_req_ids o) s (ri_wf _ _ _ _ HI)) as (s1 & A1 & A2 & A3 & A4 & A5).
  destruct (free_encoder_spec (free_encoder_input_ids o) s1) as (s2 & B1 & B2 & B3 & B4).
  have HI2 : runner_inv s2 [] n (out_finished_req_ids o).
  { destruct HI as [G1 G2 G3 G4 G5 G6]. split; rw ?B2 ?B3 ?B4 ?A2 ?A3; try done.
    - move=> id st. rw A5. case_decide; [done|apply G5].
    - move=> id row g Hid Hrow. rw A5 decide_False //. apply (G6 id row g); [apply not_elem_of_nil|done]. }
  set l := foldl (λ acc x, set_add x acc) [] (stopped_ids o).
  have Hl : ∀ id, id ∈ l ↔ id ∈ stopped_ids o by move=> id; rw /l elem_of_set_fold elem_of_nil; tauto.
  destruct (remove_stopped_spec n _ l s2 [] HI2) as (s3 & R & C1 & C2 & C3 & C4 & C5 & C6 & C7).
  have Hin : ∀ id, in_batch s3 id ↔ in_batch s id ∧ id ∉ stopped_ids o.
  { move=> id. rw C6 Hl /in_batch. by rw B2 A2. }
  exists s3, R. split.
  { move=> m. by rw /mbind /M_bind A1 B1 C1. }
  split_and!; [|congruence|congruence|done| |].
  - destruct C2 as [G1 G2 G3 G4 G5 G6]. split; try done. move=> id row g _ Hrow. apply G6; [|done].
    have : in_batch s3 id by apply (row_of_is_Some _ _ _ _ G1); eexists. rw Hin /stopped_ids. set_solver.
  - move=> id Hid. by rw C3 B3 A5 decide_False.
  - move=> Hk. rw (remaining_count s s3 _ _ _ _ _ (ri_batch _ _ _ _ HI) (ri_batch _ _ _ _ C2) Hin) C5 B2 A2. done.
Qed.

(** Closing the gaps at the end. *)
Lemma condense_phase s R n : runner_inv s R n [] → StronglySorted gt R →
  ∃ s', (if bool_decide (R = []) then mret tt else on_batch (condense R)) s = Ok (tt, s') ∧
    runner_inv s' [] (num_reqs (input_batch s')) [] ∧ mr_requests s' = mr_requests s ∧
    ∀ x, in_batch s' x ↔ in_batch s x.
Proof.
  move=> HI Hs. case_bool_decide as HR.
  - subst R. exists s. split_and!; try done. have := bi_num _ _ _ (ri_batch _ _ _ _ HI). by rw Nat.add_0_r => ->.
  - destruct HI as [G1 G2 G3 G4 G5 G6].
    destruct (condense_spec _ _ _ G1 Hs) as (b' & C1 & C2 & C3 & C4 & C5 & C6).
    have Hn := bi_num _ _ _ G1. rw -C2 in C4.
    exists (set_input_batch b' s). rw /on_batch /zoom C1. split; first done. split_and!; [|done|].
    + split; simpl; [done|rw C2 C3; lia| |done|done|].
      * apply Forall_forall => r /C5 Hr. rw Forall_forall in G3. by apply G3.
      * move=> id row g Hid. rw C6. by apply G6.
    + move=> x. rw /in_batch -(row_of_is_Some _ _ _ x G1) -C6. symmetry. exact (row_of_is_Some _ _ _ x C4).
Qed.

(** The three loops over the scheduled requests. *)
Lemma scheduling_phase s o running R n :
  runner_inv s R n [] → NoDup (run_req_id <$> running) → NoDup (added_ids o) →
  Forall (λ d, in_batch s (run_req_id d) ∧ ∃ st, dget (mr_requests s) (run_req_id d) = Some st ∧
    length (crs_block_ids st) + length (run_new_block_ids d) ≤ (shape s).2) running →
  (∀ id, id ∈ added_ids o → ¬ in_batch s id) →
  Forall (λ d, is_Some (dget (mr_requests s) (rrd_req_id d))) (out_scheduled_resumed_reqs o) →
  ∃ s', (∀ A (m : MR A), (mfor running update_running;;; mfor (out_scheduled_new_reqs o) add_new;;;
      mfor (out_scheduled_resumed_reqs o) update_resumed;;; m) s = m s') ∧
    runner_inv s' R n [] ∧ shape s' = shape s ∧ (∀ id, in_batch s' id ↔ in_batch s id) ∧
    num_reqs (input_batch s') = num_reqs (input_batch s) ∧
    max_num_reqs (input_batch s') = max_num_reqs (input_batch s) ∧
    (∀ d st, d ∈ running → dget (mr_requests s) (run_req_id d) = Some st →
       dget (mr_requests s') (run_req_id d) = Some (advance_state d st)) ∧
    (∀ d, d ∈ out_scheduled_new_reqs o → ∃ g, dget (mr_requests s') (nrd_req_id d) = Some (new_state d g)) ∧
    (∀ d st, d ∈ out_scheduled_resumed_reqs o → dget (mr_requests s) (rrd_req_id d) = Some st →
       dget (mr_requests s') (rrd_req_id d) = Some (resume_state d st)).
Proof.
  move=> HI F1 F3 F2 Hadd Hres. destruct (update_running_all R n running s HI F1 F2) as (s2 & B1 & B2 & B3 & B4 & B5 & B6 & B7).
  apply NoDup_app in F3 as (N1 & N2 & N3).
  have Hnew : ∀ d, d ∈ out_scheduled_new_reqs o → nrd_req_id d ∈ added_ids o.
  { move=> d Hd. apply elem_of_app. left. by apply list_elem_of_fmap_2. }
  have Hrsm : ∀ d, d ∈ out_scheduled_resumed_reqs o → rrd_req_id d ∈ added_ids o.
  { move=> d Hd. apply elem_of_app. right. by apply list_elem_of_fmap_2. }
  have Hrun : ∀ id, id ∈ run_req_id <$> running → id ∉ added_ids o.
  { move=> id /list_elem_of_fmap [d [-> Hd]] Ha. rw Forall_forall in F2. by destruct (Hadd _ Ha), (F2 d Hd). }
  have Hin2 : ∀ id, in_batch s2 id ↔ in_batch s id by move=> id; rw /in_batch B4.
  destruct (add_new_all R n (out_scheduled_new_reqs o) s2 B2 N1) as (s3 & C1 & [C2 C3 C4 C5] & C6).
  { apply Forall_forall => d Hd. rw Hin2. by apply Hadd, Hnew. }
  have Hkeep : ∀ d, d ∈ out_scheduled_resumed_reqs o → dget (mr_requests s3) (rrd_req_id d) = dget (mr_requests s) (rrd_req_id d).
  { move=> d Hd. rw C5; first by move=> Hx; apply (N2 _ Hx); apply list_elem_of_fmap_2. apply B7 => /Hrun Hx. by apply Hx, Hrsm. }
  destruct (update_resumed_all R n (out_scheduled_resumed_reqs o) s3 C2 N3) as (s4 & D1 & [D2 D3 D4 D5] & D6).
  { apply Forall_forall => d Hd. rw Forall_forall in Hres. rw Hkeep //. split; [|by apply Hres].
    rw /in_batch C3. rw -/(in_batch s2 _) Hin2. by apply Hadd, Hrsm. }
  exists s4. split; first by move=> A m; rw /mbind /M_bind B1 C1 D1.
  split_and!; [done|congruence| |rw /num_reqs; congruence|congruence|..].
  - move=> id. by rw -Hin2 /in_batch D3 C3.
  - move=> d st Hd Hst. have Hx : run_req_id d ∉ added_ids o by apply Hrun, list_elem_of_fmap_2.
    apply not_elem_of_app in Hx as [Hx1 Hx2]. rw D5 // C5 //. by apply B6.
  - move=> d Hd. destruct (C6 d Hd) as [g Hg]. exists g. rw D5 //. apply N2. by apply list_elem_of_fmap_2.
  - move=> d st Hd Hst. apply D6; [done|]. by rw Hkeep.
Qed.

Lemma update_states_spec float32 s o running n :
  runner_inv s [] n [] → output_fits s o running →
  ∃ s', update_states float32 o running s = Ok (tt, s') ∧
    runner_inv s' [] (num_reqs (input_batch s')) [] ∧
    (∀ id, in_batch s' id ↔ in_batch s id ∧ (id ∉ stopped_ids o) ∨ id ∈ added_ids o) ∧
    (∀ d st, d ∈ running → dget (mr_requests s) (run_req_id d) = Some st →
       dget (mr_requests s') (run_req_id d) = Some (advance_state d st)) ∧
    (∀ d, d ∈ out_scheduled_new_reqs o → ∃ g, dget (mr_requests s') (nrd_req_id d) = Some (new_state d g)) ∧
    (∀ d st, d ∈ out_scheduled_resumed_reqs o → dget (mr_requests s) (rrd_req_id d) = Some st →
       dget (mr_requests s') (rrd_req_id d) = Some (resume_state d st)).
Proof.
  move=> HI [F1 F2 F3 F4 F5 F6 F7].
  destruct (removal_phase s o n (length (added_ids o)) HI) as (s1 & R & A1 & A2 & A3 & A4 & A5 & A6 & A7).
  have Hfin : ∀ id, id ∉ stopped_ids o → id ∉ out_finished_req_ids o by rw /stopped_ids; set_solver.
  have HR := sort_desc_sorted _ (bi_nodup _ _ _ (ri_batch _ _ _ _ A2)).
  destruct (scheduling_phase s1 o running R n A2 F1 F3) as (s2 & B1 & B2 & B3 & B4 & B5 & B6 & B7 & B8 & B9).
  { eapply Forall_impl; [exact F2|]. move=> d [D1 [D2 [st [D3 D4]]]]. rw A5 A3. split; first done. exists st.
    by rw A6; [apply Hfin|]. }
  { move=> id Hid /A5 [H1 H2]. by apply H2, F4. }
  { eapply Forall_impl; [exact F6|]. move=> d [D1 [st [D2 D3]]]. by rw A6 // D2. }
  have Hsort : runner_inv s2 (sort_desc R) n [].
  { destruct B2 as [G1 G2 G3 G4 G5 G6]. split; try done. by rw sort_desc_perm. }
  destruct (add_all float32 (added_ids o) s2 (sort_desc R) n Hsort HR F3) as (s3 & R3 & n3 & C1 & C2 & C3 & C4 & C5 & C6).
  { apply Forall_forall => id Hid. rw B4 A5. split; [move=> [H1 H2]; by apply H2, F4|].
    apply elem_of_app in Hid as [Hid|Hid]; apply list_elem_of_fmap in Hid as [d [-> Hd]]; rw B3 A3.
    - destruct (B8 d Hd) as [g Hg]. exists (new_state d g). split; [done|]. rw Forall_forall in F5. exact (F5 d Hd).
    - rw Forall_forall in F6. destruct (F6 d Hd) as [D1 [st [D2 D3]]]. exists (resume_state d st).
      split; [|done]. apply B9; [done|]. by rw A6. }
  { rw B5 B6. by apply A7. }
  destruct (condense_phase s3 R3 n3 C2 C3) as (s' & E1 & E2 & E3 & E4).
  exists s'. split. { rw /update_states A1 B1 /mbind /M_bind. by rw C1. }
  split_and!; [done| |..]; rw ?E3 ?C4.
  - move=> id. rw E4 C6 B4 A5. tauto.
  - move=> d st Hd Hst. apply B7; [done|]. rw Forall_forall in F2. destruct (F2 d Hd) as [_ [Hx _]]. rw A6 //. by apply Hfin.
  - exact B8.
  - move=> d st Hd Hst. apply B9; [done|]. rw A6 //. rw Forall_forall in F6. by destruct (F6 d Hd).
Qed.

(** * The sampled tokens *)

(** The state of a request after its sampled token. *)
Definition token_state (tok : Z) (st : CachedRequestState) : CachedRequestState :=
  set_output_tokens (crs_output_token_ids st ++ [tok]) st.

(** What is known of a request in row [i] of the batch when its token arrives:
    its state, the tokens it has, the tokens scheduled, the sampled token. A
    request whose last token was computed has all its tokens in the row, with
    room for one more. *)
Record sample_fits (s : ModelRunner) (o : SchedulerOutput) (scheduled : dict string Z) (sampled : list Z)
    (i : nat) (id : string) (st : CachedRequestState) (num_tokens k tok : Z) : Prop := {
  sa_state : dget (mr_requests s) id = Some st;
  sa_tokens : dget scheduled id = Some num_tokens;
  sa_count : dget (out_num_scheduled_tokens o) id = Some k;
  sa_sampled : sampled !! i = Some tok;
  sa_le : (crs_num_computed_tokens st + k ≤ num_tokens)%Z;
  sa_complete : (crs_num_computed_tokens st + k = num_tokens)%Z →
    num_tokens = crs_num_tokens st ∧ (num_tokens < Z.of_nat (shape s).1)%Z;
}.
(** The last scheduled token is the request's last token. *)
Definition complete (st : CachedRequestState) (num_tokens k : Z) : bool :=
  (crs_num_computed_tokens st + k =? num_tokens)%Z.

Lemma token_prefix {A} (l row : list A) x : l `prefix_of` row → length l < length row →
  l ++ [x] `prefix_of` <[length l := x]> row.
Proof.
  move=> [k ->] H. rw length_app in H. destruct k as [|y k]; first by simpl in H; lia.
  rw insert_app_r_alt; first done. rw Nat.sub_diag /=. exists k. by rw -app_assoc.
Qed.

Lemma record_token_spec s n o scheduled sampled acc i id st num_tokens k tok :
  runner_inv s [] n [] → dget (req_index (input_batch s)) id = Some i →
  sample_fits s o scheduled sampled i id st num_tokens k tok →
  let c := complete st num_tokens k in
  ∃ s', record_token o scheduled sampled acc (i, Some id) s =
      Ok (if c then (dset acc.1 id tok, acc.2) else (acc.1, acc.2 ++ [id]), s') ∧
    runner_inv s' [] n [] ∧ shape s' = shape s ∧ req_index (input_batch s') = req_index (input_batch s) ∧
    ∀ id', dget (mr_requests s') id' = if decide (id' = id) then Some (if c then token_state tok st else st)
                                       else dget (mr_requests s) id'.
Proof.
  move=> HI Hi [S1 S2 S3 S4 S5 S6] c.
  destruct (in_batch_row _ _ _ _ id HI) as (row & g & Hrow); first by rw /in_batch Hi.
  have Hr := row_of_lookup _ _ _ _ _ Hi Hrow. have [Hs1 Hs2] := row_of_shape _ _ _ _ _ _ _ HI Hrow.
  destruct (ri_mirror _ _ _ _ HI _ _ _ (not_elem_of_nil _) Hrow) as (st0 & Hst0 & [M1 M2 M3 M4]).
  rw S1 in Hst0. injection Hst0 as <-.
  rw /record_token /cached_request /mbind /M_bind /mget S1 /mret /M_ret S2 S3 /massert.
  destruct (Z.leb_spec (crs_num_computed_tokens st + k) num_tokens); last lia. cbn [massert].
  rw /c /complete. destruct (Z.eqb_spec (crs_num_computed_tokens st + k) num_tokens) as [Hc|Hc].
  - destruct (S6 Hc) as [N1 N2]. rw S4 /on_batch /zoom /batch_row /mbind /M_bind /mget. cbn [mret M_ret]. rw Hr. cbn [mret M_ret].
    rw Hc. rw /crs_num_tokens in N1. have -> : (0 <=? num_tokens)%Z = true by lia.
    have Hn : Z.to_nat num_tokens = length (crs_prompt_token_ids st ++ crs_output_token_ids st) by rw length_app; lia.
    have Hlt : length (crs_prompt_token_ids st ++ crs_output_token_ids st) < length (row_token_ids row) by rw Hs1; lia.
    rw Hn. destruct s as [bs mm mk mt rq ec ib gh]. simpl in *. rw bool_decide_eq_true_2 //.
    eexists. split; first reflexivity. split_and!; try done; last first.
    { move=> id'. rw /= dget_dset. by case_decide. }
    eapply replace_row_inv; [exact HI|exact Hi|exact Hrow|reflexivity|done| | | | |].
    + simpl. apply dict_wf_dset, (ri_wf _ _ _ _ HI).
    + move=> id'. apply dget_dset.
    + exact (ri_ids _ _ _ _ HI _ _ S1).
    + split; simpl; [|done|done|done]. rw app_assoc. by apply token_prefix.
    + split; simpl; [by rw length_insert|done].
  - assert (∃ s', rewind_generator i s = Ok (tt, s') ∧ same_states s s') as (s' & E1 & T1 & T2 & T3).
    { eexists. split; [reflexivity|]. by destruct (dget (generators (input_batch s)) i). }
    exists s'. cbn [mret M_ret]. rw E1. split; first done. split_and!; [|done|by rw T1|].
    + destruct HI as [G1 G2 G3 G4 G5 G6]. by split; rw ?T1 ?T2 ?T3.
    + move=> id'. rw T2. case_decide; by subst.
Qed.

(** What the loop does to one request, from [acc] to [acc']. *)
Definition recorded (acc acc' : dict string Z * list string) (s' : ModelRunner) (id : string)
    (st : CachedRequestState) (c : bool) (tok : Z) : Prop :=
  if c then dget acc'.1 id = Some tok ∧ (id ∈ acc'.2 ↔ id ∈ acc.2) ∧ dget (mr_requests s') id = Some (token_state tok st)
  else dget acc'.1 id = dget acc.1 id ∧ id ∈ acc'.2 ∧ dget (mr_requests s') id = Some st.

Lemma record_all n o scheduled sampled xs : ∀ s acc, runner_inv s [] n [] → NoDup (xs.*2) →
  Forall (λ x, dget (req_index (input_batch s)) x.2 = Some x.1 ∧
    ∃ st num_tokens k tok, sample_fits s o scheduled sampled x.1 x.2 st num_tokens k tok) xs →
  ∃ s' acc', mfold ((λ x, (x.1, Some x.2)) <$> xs) acc (record_token o scheduled sampled) s = Ok (acc', s') ∧
    runner_inv s' [] n [] ∧ req_index (input_batch s') = req_index (input_batch s) ∧
    (∀ i id st num_tokens k tok, (i, id) ∈ xs → sample_fits s o scheduled sampled i id st num_tokens k tok →
       recorded acc acc' s' id st (complete st num_tokens k) tok) ∧
    ∀ id, id ∉ xs.*2 → dget acc'.1 id = dget acc.1 id ∧ (id ∈ acc'.2 ↔ id ∈ acc.2) ∧
      dget (mr_requests s') id = dget (mr_requests s) id.
Proof.
  induction xs as [|[i id] xs IH] => s acc HI Hnd HF; first by exists s, acc; split_and!; try done; set_solver.
  rw fmap_cons /= in Hnd. apply NoDup_cons in Hnd as [Hid Hnd].
  apply Forall_cons in HF as [[Hi (st & nt & k & tok & Hs)] HF]. simpl in Hi, Hs.
  destruct (record_token_spec s n o scheduled sampled acc i id st nt k tok HI Hi Hs) as (s1 & R1 & R2 & R3 & R4 & R5).
  have Hne : ∀ i' id', (i', id') ∈ xs → id' ≠ id.
  { move=> i' id' Hx ?. subst id'. apply Hid. apply list_elem_of_fmap. by exists (i', id). }
  have Hkeep : ∀ i' id' st' nt' k' tok', id' ≠ id →
    sample_fits s o scheduled sampled i' id' st' nt' k' tok' → sample_fits s1 o scheduled sampled i' id' st' nt' k' tok'.
  { move=> i' id' st' nt' k' tok' Hx [S1 S2 S3 S4 S5 S6]. split; try done; [by rw R5 decide_False|by rw R3]. }
  cbn [fmap list_fmap mfold]. rw /mbind /M_bind. cbn [fst snd]. rw R1.
  match goal with |- context [mfold _ ?a] => destruct (IH s1 a R2 Hnd) as (s' & acc' & I1 & I2 & I3 & I4 & I5) end.
  { apply Forall_forall => -[i' id'] Hx. rw Forall_forall in HF. destruct (HF _ Hx) as [H1 (st' & nt' & k' & tok' & H2)].
    rw R4. split; first done. exists st', nt', k', tok'. apply Hkeep; [by eapply Hne|done]. }
  exists s', acc'. split; first exact I1. split_and!; [done|congruence| |].
  - move=> i' id' st' nt' k' tok' /elem_of_cons [[= -> ->]|Hx] Hs'.
    + have [? [? [? ?]]] : st' = st ∧ nt' = nt ∧ k' = k ∧ tok' = tok.
      { destruct Hs as [A1 A2 A3 A4 _ _], Hs' as [B1 B2 B3 B4 _ _]. split_and!; congruence. }
      subst. destruct (I5 id Hid) as (J1 & J2 & J3). rw R5 decide_True // in J3. rw /recorded.
      revert J1 J2 J3. destruct (complete st nt k) => /= J1 J2 J3; split_and!; try done.
      * by rw J1 dget_dset_eq.
      * apply J2. set_solver.
    + have Hn := Hne _ _ Hx. have := I4 i' id' st' nt' k' tok' Hx (Hkeep _ _ _ _ _ _ Hn Hs').
      rw /recorded. destruct (complete st' nt' k'), (complete st nt k); simpl; rw ?dget_dset_ne //; set_solver.
  - move=> id'. rw not_elem_of_cons => -[/= Hn Hx]. destruct (I5 id' Hx) as (J1 & J2 & J3).
    rw R5 decide_False // in J3. revert J1 J2 J3. destruct (complete st nt k) => /= J1 J2 J3; split_and!; try done.
    + by rw J1 dget_dset_ne.
    + rw J2. set_solver.
Qed.

(** The used rows with their requests. *)
Lemma batch_rows b n : batch_inv b [] n → ∃ xs, imap (λ i x, (i, x)) (take (num_reqs b) (req_ids b))
    = (λ x, (x.1, Some x.2)) <$> xs ∧ NoDup (xs.*2) ∧ ∀ i id, (i, id) ∈ xs ↔ dget (req_index b) id = Some i.
Proof.
  move=> [H1 H2 H3 H4 H5 H6 H7 H8 H9 H10]. rw /= Nat.add_0_r in H8. rw H8.
  have Hall : ∀ i, i < n → ∃ id, req_ids b !! i = Some (Some id).
  { move=> i Hi. apply H5. split; [done|apply not_elem_of_nil]. }
  set xs := imap (λ i x, (i, default "" x)) (take n (req_ids b)).
  have Hx : ∀ j x, xs !! j = Some x ↔ x.1 = j ∧ req_ids b !! j = Some (Some x.2).
  { move=> j [i id]. rw /xs list_lookup_imap /=. destruct (decide (j < n)) as [Hj|Hj].
    - rw lookup_take_lt //. destruct (Hall j Hj) as [id' ->]. simpl. split; [by move=> [= -> ->]|by move=> [-> [= ->]]].
    - rw lookup_take_ge; first lia. split; [done|]. move=> [_ Hr]. destruct (proj1 (H5 j) (ex_intro _ id Hr)). lia. }
  exists xs. split_and!.
  - apply list_eq => j. rw list_lookup_fmap /xs !list_lookup_imap. destruct (decide (j < n)) as [Hj|Hj].
    + rw lookup_take_lt //. by destruct (Hall j Hj) as [id ->].
    + by rw lookup_take_ge; first lia.
  - apply NoDup_alt => j j' id. rw !list_lookup_fmap.
    destruct (xs !! j) as [x|] eqn:Ex, (xs !! j') as [x'|] eqn:Ex'; try done. simpl. move=> [= <-] [= He].
    apply Hx in Ex as [_ Ex]. apply Hx in Ex' as [_ Ex']. rw He in Ex'.
    apply H4 in Ex. apply H4 in Ex'. congruence.
  - move=> i id. rw list_elem_of_lookup H4. split.
    + move=> [j /Hx [/= <- Hr]]. done.
    + move=> Hr. exists i. by apply Hx.
Qed.

(** A new runner is consistent. *)
Lemma runner_init_inv s size u z : input_batch s = batch_init size (shape s).1 (shape s).2 u z → mr_requests s = [] →
  runner_inv s [] 0 [].
Proof.
  move=> Hb Hr. split; rw ?Hb ?Hr; [apply batch_init_inv|lia| |apply dict_wf_nil|done|done].
  rw /=. apply Forall_replicate. by split; rw /= length_replicate.
Qed.

(** * The properties *)

(** C20: [_update_states] keeps the persistent batch a mirror of the cached
    request states. From a consistent runner and a scheduler output that fits it,
    it returns; afterwards the batch holds exactly the requests that were in it
    and were neither finished nor preempted, scheduled in this step or not, and
    the new and resumed ones, in the rows from zero on
    without gaps; every row holds the tokens, block table, computed count and
    generator of its request; running requests have their new count and blocks
    appended, and new and resumed ones start from the scheduled data. *)
Theorem update_states_mirrors float32 s o running n :
  runner_inv s [] n [] → output_fits s o running →
  ∃ s', update_states float32 o running s = Ok (tt, s') ∧
    runner_inv s' [] (num_reqs (input_batch s')) [] ∧
    (∀ id, in_batch s' id ↔ in_batch s id ∧ (id ∉ stopped_ids o) ∨ id ∈ added_ids o) ∧
    (∀ d st, d ∈ running → dget (mr_requests s) (run_req_id d) = Some st →
       dget (mr_requests s') (run_req_id d) = Some (advance_state d st)) ∧
    (∀ d, d ∈ out_scheduled_new_reqs o → ∃ g, dget (mr_requests s') (nrd_req_id d) = Some (new_state d g)) ∧
    (∀ d st, d ∈ out_scheduled_resumed_reqs o → dget (mr_requests s) (rrd_req_id d) = Some st →
       dget (mr_requests s') (rrd_req_id d) = Some (resume_state d st)).
Proof. apply update_states_spec. Qed.

(** A runner of two rows: the first step brings "a" and "b"; the
    second runs "a" on with a new block, preempts "b" and brings "c". *)
Definition demo_new (id : string) (tokens : list Z) (blocks : list nat) : NewRequestData :=
  {| nrd_req_id := id; nrd_prompt_token_ids := tokens; nrd_prompt := None; nrd_mm_inputs := []; nrd_mm_hashes := [];
     nrd_mm_positions := []; nrd_sampling_params := default_sampling_params; nrd_block_ids := blocks;
     nrd_num_computed_tokens := 0; nrd_num_tokens := Z.of_nat (length tokens) |}.
Definition demo_step (news : list NewRequestData) (counts : dict string Z) (preempted : list string) : SchedulerOutput :=
  {| out_scheduled_new_reqs := news; out_scheduled_resumed_reqs := []; out_scheduled_running_reqs := [];
     out_num_scheduled_tokens := counts; total_num_scheduled_tokens := 5;
     out_scheduled_encoder_inputs := []; preempted_req_ids := preempted; out_finished_req_ids := [];
     free_encoder_input_ids := []; blocks_to_swap_in := None; blocks_to_swap_out := None; counter := 0 |}.
Definition demo_start : ModelRunner :=
  {| mr_block_size := 2; mr_max_model_len := 6; mr_max_num_blocks_per_req := 3; mr_max_num_tokens := 16;
     mr_requests := []; encoder_cache := []; input_batch := batch_init 2 6 3 0 0; gen_heap := [] |}.
Definition demo_first : SchedulerOutput :=
  demo_step [demo_new "a" [10; 11]%Z [5]; demo_new "b" [20; 21; 22]%Z [7; 1]] [("a", 2); ("b", 2)]%Z [].
Definition demo_second : SchedulerOutput := demo_step [demo_new "c" [30]%Z [1]] [("a", 1); ("c", 1)]%Z ["b"%string].
Definition demo_runner1 : ModelRunner :=
  match update_states id demo_first [] demo_start with Ok (_, s) => s | Raise _ => demo_start end.
Definition demo_running : list RunningRequestData :=
  [{| run_req_id := "a"; run_new_block_ids := [4]; run_num_computed_tokens := 2; run_num_tokens := 3 |}].
Lemma demo_first_fits : output_fits demo_start demo_first [].
Proof.
  split; try (by constructor).
  - by apply (bool_decide_unpack _); vm_compute.
  - move=> id _ [i Hi]. done.
  - repeat constructor; simpl; lia.
Qed.
Lemma demo_runner1_inv : runner_inv demo_runner1 [] 2 [].
Proof.
  destruct (update_states_spec id demo_start demo_first [] 0 (runner_init_inv demo_start 2 0 0 eq_refl eq_refl) demo_first_fits)
    as (s' & H1 & H2 & _).
  assert (update_states id demo_first [] demo_start = Ok (tt, demo_runner1)) as H3 by (by vm_compute).
  rw H1 in H3. injection H3 as ->. exact H2.
Qed.
Lemma demo_batch1 : req_index (input_batch demo_runner1) = [("a", 0); ("b", 1)]%string ∧
  mr_requests demo_runner1 = [("a"%string, new_state (demo_new "a" [10; 11]%Z [5]) None);
                              ("b"%string, new_state (demo_new "b" [20; 21; 22]%Z [7; 1]) None)].
Proof. by vm_compute. Qed.
Lemma demo_second_fits : output_fits demo_runner1 demo_second demo_running.
Proof.
  destruct demo_batch1 as [Hix Hrq].
  split; rw ?/in_batch ?Hix ?Hrq; try (by constructor); try (by apply (bool_decide_unpack _); vm_compute).
  - repeat constructor; [by eexists|set_solver|]. eexists. split; [reflexivity|]. simpl. lia.
  - move=> id. rw list_elem_of_singleton => -> [i Hi]. done.
Qed.
Lemma update_states_mirrors_witness :
  output_fits demo_runner1 demo_second demo_running ∧
  ∃ s', update_states id demo_second demo_running demo_runner1 = Ok (tt, s') ∧
    runner_inv s' [] (num_reqs (input_batch s')) [] ∧ in_batch s' "a" ∧ ¬ in_batch s' "b" ∧ in_batch s' "c".
Proof.
  split; [exact demo_second_fits|].
  destruct (update_states_mirrors id demo_runner1 demo_second demo_running 2 demo_runner1_inv demo_second_fits)
    as (s' & H1 & H2 & H3 & _).
  exists s'. split; [exact H1|]. split; [exact H2|]. split; [|split]; apply H3 || rw H3.
  - left. split; [unfold in_batch; rw (proj1 demo_batch1); exists 0; reflexivity|].
    apply (bool_decide_unpack _). vm_compute. exact I.
  - intros [[_ Hn]|Ha].
    + apply Hn. apply (bool_decide_unpack _). vm_compute. exact I.
    + apply (bool_decide_pack _) in Ha. vm_compute in Ha. exact Ha.
  - right. apply (bool_decide_unpack _). vm_compute. exact I.
Defined.

(** after sampling, every request of the batch is accounted for exactly once.
    A request whose last token was computed gets the token sampled for its row,
    reported under its id, appended to its state and written behind its tokens
    in the row; a partial request is reported as bad and its state is unchanged.
    The batch stays the mirror of the states. *)
Theorem record_tokens_accounts s n o running sampled :
  runner_inv s [] n [] →
  (∀ i id, dget (req_index (input_batch s)) id = Some i →
     ∃ st num_tokens k tok, sample_fits s o (scheduled_num_tokens o running) sampled i id st num_tokens k tok) →
  ∃ s' out, record_tokens o running sampled s = Ok (out, s') ∧ runner_inv s' [] n [] ∧
    (∀ i id st num_tokens k tok, dget (req_index (input_batch s)) id = Some i →
       sample_fits s o (scheduled_num_tokens o running) sampled i id st num_tokens k tok →
       if complete st num_tokens k
       then dget (mro_new_token_ids out) id = Some tok ∧ (id ∉ bad_ids out) ∧
            dget (mr_requests s') id = Some (token_state tok st)
       else dget (mro_new_token_ids out) id = None ∧ id ∈ bad_ids out ∧ dget (mr_requests s') id = Some st) ∧
    ∀ id, ¬ in_batch s id → dget (mro_new_token_ids out) id = None ∧ id ∉ bad_ids out.
Proof.
  move=> HI HS. destruct (batch_rows _ _ (ri_batch _ _ _ _ HI)) as (xs & X1 & X2 & X3).
  destruct (record_all n o (scheduled_num_tokens o running) sampled xs s ([], []) HI X2)
    as (s' & [toks bad] & R1 & R2 & R3 & R4 & R5).
  { apply Forall_forall => -[i id] /X3 Hx. by split; [|apply HS]. }
  rw /record_tokens /mgets /mbind /M_bind X1 R1. eexists s', _. split; first reflexivity. split_and!; [done|..]; simpl.
  - move=> i id st nt k tok Hi Hs. have := R4 _ _ _ _ _ _ (proj2 (X3 i id) Hi) Hs. rw /recorded.
    destruct (complete st nt k); simpl; [|done]. move=> [? [Hb ?]]. split_and!; try done. by rw Hb; apply not_elem_of_nil.
  - move=> id Hn. destruct (R5 id) as (J1 & J2 & _).
    { move=> /list_elem_of_fmap [[i id'] [/= He /X3 Hx]]. subst id'. apply Hn. by eexists. }
    rw /= in J1, J2. rw J1 J2. split; [done|apply not_elem_of_nil].
Qed.

Lemma demo_sample_fits i id : dget (req_index (input_batch demo_runner1)) id = Some i →
  ∃ st num_tokens k tok,
    sample_fits demo_runner1 demo_first (scheduled_num_tokens demo_first []) [99; 77]%Z i id st num_tokens k tok.
Proof.
  destruct demo_batch1 as [Hix Hrq]. rw Hix /=. repeat case_decide; try done; move=> [= <-]; subst id.
  all: eexists _, _, _, _; split; rw ?Hrq; try reflexivity; try done.
Qed.
Lemma record_tokens_accounts_witness :
  ∃ s' out, record_tokens demo_first [] [99; 77]%Z demo_runner1 = Ok (out, s') ∧ runner_inv s' [] 2 [] ∧
    dget (mro_new_token_ids out) "a" = Some 99%Z ∧ "b"%string ∈ bad_ids out.
Proof.
  destruct (record_tokens_accounts demo_runner1 2 demo_first [] [99; 77]%Z demo_runner1_inv demo_sample_fits)
    as (s' & out & H1 & H2 & H3 & _).
  exists s', out. split; [exact H1|]. split; [exact H2|]. destruct demo_batch1 as [Hix Hrq]. split.
  - apply (H3 0 "a"%string (new_state (demo_new "a" [10; 11]%Z [5]) None) 2%Z 2%Z 99%Z).
    + rw Hix. reflexivity.
    + split; rw ?Hrq; try reflexivity; try done.
  - apply (H3 1 "b"%string (new_state (demo_new "b" [20; 21; 22]%Z [7; 1]) None) 3%Z 2%Z 77%Z).
    + rw Hix. reflexivity.
    + split; rw ?Hrq; try reflexivity; try done.
Defined.
