(* ===== verification/Detokenizer.v ===== *)
(** Incremental detokenization: the functions of
    vllm/transformers_utils/detokenizer_utils.py, the stop-string check of
    vllm/engine/output_processor/stop_checker.py, and the classes
    [IncrementalDetokenizer] and [Detokenizer] of vllm/v1/engine/detokenizer.py.

    Python strings are lists of code points. The tokenizer (a third-party
    library) is the record [Tokenizer] of the functions the code calls: given a
    list of ids it returns a list of tokens, in which an unknown id has no
    token. *)
From Stdlib Require Import ssreflect ZArith Lia.
From stdpp Require Import base numbers list gmap strings.
From S2P Require Import Prelude SamplingParams KVCacheBlock Request FreeQueue BlockHash KVCacheManager EncoderCache Scheduler.

Abbreviation text := (list Z).
(** [None] for an id that is not in the vocabulary *)
Abbreviation token := (option text).

Record Tokenizer := {
  convert_ids_to_tokens : list Z → bool → list token;
  convert_tokens_to_string : list token → result text;
  all_special_tokens : list text;
  get_added_vocab : list text;
  is_fast : bool;
  vocab_len : Z;
}.

(** * detokenizer_utils.py *)

Definition replace_none_with_empty (tokens : list token) : list token :=
  (λ t, match t with None => Some [] | Some _ => t end) <$> tokens.

(** [sep.join(l)] *)
Fixpoint join (sep : text) (l : list text) : text :=
  match l with
  | [] => []
  | [x] => x
  | x :: l => x ++ sep ++ join sep l
  end.

Section tokenizer.
Variable tokenizer : Tokenizer.

(** [sub_texts.append(tokenizer.convert_tokens_to_string(current_sub_text))],
    when there is a current sub-text *)
Definition flush_sub_text (sub_texts : list text) (current : list token) : result (list text) :=
  if bool_decide (current = []) then Ok sub_texts
  else sub_text ← convert_tokens_to_string tokenizer current; mret (sub_texts ++ [sub_text]).

Fixpoint added_encoders_loop (skip_special_tokens : bool) (tokens : list token)
    (sub_texts : list text) (current : list token) : result (list text) :=
  match tokens with
  | [] => flush_sub_text sub_texts current
  | token :: tokens =>
    if skip_special_tokens && bool_decide (token ∈ (Some <$> all_special_tokens tokenizer))
    then added_encoders_loop skip_special_tokens tokens sub_texts current
    else
      match token with
      | Some t =>
        if bool_decide (t ∈ get_added_vocab tokenizer) then
          sub_texts ← flush_sub_text sub_texts current;
          added_encoders_loop skip_special_tokens tokens (sub_texts ++ [t]) []
        else added_encoders_loop skip_special_tokens tokens sub_texts (current ++ [token])
      | None => added_encoders_loop skip_special_tokens tokens sub_texts (current ++ [token])
      end
  end.
Definition convert_tokens_to_string_with_added_encoders (output_tokens : list token)
    (skip_special_tokens spaces_between_special_tokens : bool) : result text :=
  sub_texts ← added_encoders_loop skip_special_tokens output_tokens [] [];
  mret (join (if spaces_between_special_tokens then [32%Z] else []) sub_texts).

Definition INITIAL_INCREMENTAL_DETOKENIZATION_OFFSET : Z := 5.

Definition convert_prompt_ids_to_tokens (prompt_ids : list Z) (skip_special_tokens : bool) : list token * Z * Z :=
  let new_tokens :=
    convert_ids_to_tokens tokenizer
      (slice prompt_ids (- INITIAL_INCREMENTAL_DETOKENIZATION_OFFSET - 2) (Z.of_nat (length prompt_ids)))
      skip_special_tokens in
  let read_offset := Z.of_nat (length new_tokens) in
  let prefix_offset := Z.max (read_offset - INITIAL_INCREMENTAL_DETOKENIZATION_OFFSET) 0 in
  (replace_none_with_empty new_tokens, prefix_offset, read_offset).

Definition REPLACEMENT_CHARACTER : Z := 65533.
(** [s.endswith("�")] *)
Definition ends_incomplete (s : text) : bool := bool_decide (last s = Some REPLACEMENT_CHARACTER).

(** The text of [output_tokens[a:b]]. *)
Definition tokens_text (skip_special_tokens spaces_between_special_tokens : bool) (tokens : list token) : result text :=
  if is_fast tokenizer || bool_decide (get_added_vocab tokenizer = [])
  then convert_tokens_to_string tokenizer tokens
  else convert_tokens_to_string_with_added_encoders tokens skip_special_tokens spaces_between_special_tokens.

(** The new tokens, their text and the new offsets. *)
Definition detokenize_incrementally (all_input_ids : list Z) (prev_tokens : option (list token))
    (prefix_offset read_offset : Z) (skip_special_tokens spaces_between_special_tokens : bool)
    : result (list token * text * Z * Z) :=
  match last all_input_ids with
  | None => Raise (IndexError "all_input_ids[-1]")
  | Some new_token_id =>
    let is_first_iter := match prev_tokens with None => true | Some _ => false end in
    let '(prev_tokens, prefix_offset, read_offset) :=
      match prev_tokens with
      | None => convert_prompt_ids_to_tokens (removelast all_input_ids) skip_special_tokens
      | Some l => (l, prefix_offset, read_offset)
      end in
    let new_tokens :=
      if ((0 <=? new_token_id) && (new_token_id <? vocab_len tokenizer))%Z
      then convert_ids_to_tokens tokenizer [new_token_id] skip_special_tokens
      else [Some []] in
    let output_tokens := prev_tokens ++ new_tokens in
    let new_tokens := if is_first_iter then output_tokens else new_tokens in
    let len := Z.of_nat (length output_tokens) in
    prefix_text ← tokens_text skip_special_tokens spaces_between_special_tokens
                    (slice output_tokens prefix_offset read_offset);
    new_text ← tokens_text skip_special_tokens spaces_between_special_tokens (slice output_tokens prefix_offset len);
    if bool_decide (length new_text ≤ length prefix_text) || ends_incomplete new_text
    then mret (new_tokens, [], prefix_offset, read_offset)
    else mret (new_tokens, drop (length prefix_text) new_text, read_offset, len)
  end.
End tokenizer.

(** * Stop strings *)

(** The first occurrence of [sub] in [t], whose first character has index [i]. *)
Fixpoint find_at (sub t : text) (i : nat) : option nat :=
  if bool_decide (sub `prefix_of` t) then Some i
  else match t with [] => None | _ :: t => find_at sub t (S i) end.
(** [t.find(sub, start)]; [None] is -1. *)
Definition py_find (t sub : text) (start : Z) : option nat :=
  let len := Z.of_nat (length t) in
  let start := if (start <? 0)%Z then Z.max 0 (start + len) else start in
  if (len <? start)%Z then None else find_at sub (drop (Z.to_nat start) t) (Z.to_nat start).

(** The stop string and the length to truncate to, [None] for no truncation. *)
Fixpoint stop_strings_loop (output_text : text) (new_char_count : Z) (stop : list text) (include_in_output : bool)
    : option (text * option nat) :=
  match stop with
  | [] => None
  | stop_str :: stop =>
    match py_find output_text stop_str (- new_char_count - Z.of_nat (length stop_str)) with
    | None => stop_strings_loop output_text new_char_count stop include_in_output
    | Some stop_index =>
      if include_in_output then
        let stop_index := stop_index + length stop_str in
        if bool_decide (length output_text ≤ stop_index) then Some (stop_str, None) else Some (stop_str, Some stop_index)
      else Some (stop_str, Some stop_index)
    end
  end.
Definition check_stop_strings (output_text : text) (new_char_count : Z) (stop : list text) (include_in_output : bool)
    : option (text * option nat) :=
  if (new_char_count =? 0)%Z || bool_decide (stop = []) then None
  else stop_strings_loop output_text new_char_count stop include_in_output.

(** * [IncrementalDetokenizer] *)

Inductive StopReason := ReasonToken (id : Z) | ReasonString (s : text).

Record DetokenizerRequest := {
  dr_request_id : string;
  dr_prompt : option string;
  dr_prompt_token_ids : list Z;
  dr_skip_special_tokens : bool;
  dr_spaces_between_special_tokens : bool;
  dr_output_kind : RequestOutputKind;
  dr_stop : list text;
  dr_include_stop_str_in_output : bool;
}.

(** A request output with its single completion. *)
Record RequestOutput := {
  ro_request_id : string;
  ro_prompt : option string;
  ro_prompt_token_ids : list Z;
  ro_text : text;
  ro_token_ids : list Z;
  ro_finished : bool;
  ro_finish_reason : option string;
  ro_stop_reason : option StopReason;
}.

Record IncrementalDetokenizer := {
  det_output_text : text;
  det_tokens : list token;
  det_token_ids : list Z;
  det_stop : list text;
  det_include_stop_str_in_output : bool;
  det_prefix_offset : Z;
  det_read_offset : Z;
  det_skip_special_tokens : bool;
  det_spaces_between_special_tokens : bool;
  det_output_kind : RequestOutputKind;
  det_request_id : string;
  det_prompt : option string;
  det_prompt_token_ids : list Z;
  det_stop_buffer_length : Z;
  det_last_output_text_offset : Z;
}.
Definition set_det_output_text (v : text) (r : IncrementalDetokenizer) : IncrementalDetokenizer :=
  {| det_output_text := v; det_tokens := det_tokens r; det_token_ids := det_token_ids r; det_stop := det_stop r; det_include_stop_str_in_output := det_include_stop_str_in_output r; det_prefix_offset := det_prefix_offset r; det_read_offset := det_read_offset r; det_skip_special_tokens := det_skip_special_tokens r; det_spaces_between_special_tokens := det_spaces_between_special_tokens r; det_output_kind := det_output_kind r; det_request_id := det_request_id r; det_prompt := det_prompt r; det_prompt_token_ids := det_prompt_token_ids r; det_stop_buffer_length := det_stop_buffer_length r; det_last_output_text_offset := det_last_output_text_offset r |}.
Definition set_det_tokens (v : list token) (r : IncrementalDetokenizer) : IncrementalDetokenizer :=
  {| det_output_text := det_output_text r; det_tokens := v; det_token_ids := det_token_ids r; det_stop := det_stop r; det_include_stop_str_in_output := det_include_stop_str_in_output r; det_prefix_offset := det_prefix_offset r; det_read_offset := det_read_offset r; det_skip_special_tokens := det_skip_special_tokens r; det_spaces_between_special_tokens := det_spaces_between_special_tokens r; det_output_kind := det_output_kind r; det_request_id := det_request_id r; det_prompt := det_prompt r; det_prompt_token_ids := det_prompt_token_ids r; det_stop_buffer_length := det_stop_buffer_length r; det_last_output_text_offset := det_last_output_text_offset r |}.
Definition set_det_token_ids (v : list Z) (r : IncrementalDetokenizer) : IncrementalDetokenizer :=
  {| det_output_text := det_output_text r; det_tokens := det_tokens r; det_token_ids := v; det_stop := det_stop r; det_include_stop_str_in_output := det_include_stop_str_in_output r; det_prefix_offset := det_prefix_offset r; det_read_offset := det_read_offset r; det_skip_special_tokens := det_skip_special_tokens r; det_spaces_between_special_tokens := det_spaces_between_special_tokens r; det_output_kind := det_output_kind r; det_request_id := det_request_id r; det_prompt := det_prompt r; det_prompt_token_ids := det_prompt_token_ids r; det_stop_buffer_length := det_stop_buffer_length r; det_last_output_text_offset := det_last_output_text_offset r |}.
Definition set_det_prefix_offset (v : Z) (r : IncrementalDetokenizer) : IncrementalDetokenizer :=
  {| det_output_text := det_output_text r; det_tokens := det_tokens r; det_token_ids := det_token_ids r; det_stop := det_stop r; det_include_stop_str_in_output := det_include_stop_str_in_output r; det_prefix_offset := v; det_read_offset := det_read_offset r; det_skip_special_tokens := det_skip_special_tokens r; det_spaces_between_special_tokens := det_spaces_between_special_tokens r; det_output_kind := det_output_kind r; det_request_id := det_request_id r; det_prompt := det_prompt r; det_prompt_token_ids := det_prompt_token_ids r; det_stop_buffer_length := det_stop_buffer_length r; det_last_output_text_offset := det_last_output_text_offset r |}.
Definition set_det_read_offset (v : Z) (r : IncrementalDetokenizer) : IncrementalDetokenizer :=
  {| det_output_text := det_output_text r; det_tokens := det_tokens r; det_token_ids := det_token_ids r; det_stop := det_stop r; det_include_stop_str_in_output := det_include_stop_str_in_output r; det_prefix_offset := det_prefix_offset r; det_read_offset := v; det_skip_special_tokens := det_skip_special_tokens r; det_spaces_between_special_tokens := det_spaces_between_special_tokens r; det_output_kind := det_output_kind r; det_request_id := det_request_id r; det_prompt := det_prompt r; det_prompt_token_ids := det_prompt_token_ids r; det_stop_buffer_length := det_stop_buffer_length r; det_last_output_text_offset := det_last_output_text_offset r |}.
Definition set_det_last_output_text_offset (v : Z) (r : IncrementalDetokenizer) : IncrementalDetokenizer :=
  {| det_output_text := det_output_text r; det_tokens := det_tokens r; det_token_ids := det_token_ids r; det_stop := det_stop r; det_include_stop_str_in_output := det_include_stop_str_in_output r; det_prefix_offset := det_prefix_offset r; det_read_offset := det_read_offset r; det_skip_special_tokens := det_skip_special_tokens r; det_spaces_between_special_tokens := det_spaces_between_special_tokens r; det_output_kind := det_output_kind r; det_request_id := det_request_id r; det_prompt := det_prompt r; det_prompt_token_ids := det_prompt_token_ids r; det_stop_buffer_length := det_stop_buffer_length r; det_last_output_text_offset := v |}.
Abbreviation DT := (M IncrementalDetokenizer).

(** [self.token_ids[len(self.prompt_token_ids):]] *)
Definition output_token_ids (d : IncrementalDetokenizer) : result (list Z) :=
  if bool_decide (length (det_prompt_token_ids d) ≤ length (det_token_ids d))
  then Ok (drop (length (det_prompt_token_ids d)) (det_token_ids d))
  else Raise (AssertionError "len(self.token_ids) >= len(self.prompt_token_ids)").

(** [max(len(s) for s in stops) - 1] when stop strings are to be held back *)
Definition buffer_length (stops : list text) (include : bool) : Z :=
  if negb (bool_decide (stops = [])) && negb include
  then (Z.of_nat (foldr Nat.max 0%nat (length <$> stops)) - 1)%Z
  else 0%Z.

Section detokenizer.
Variable tokenizer : Tokenizer.

Definition from_new_request (request : DetokenizerRequest) : IncrementalDetokenizer :=
  let '(toks, prefix_offset, read_offset) :=
    convert_prompt_ids_to_tokens tokenizer (dr_prompt_token_ids request) (dr_skip_special_tokens request) in
  {| det_output_text := []; det_tokens := toks; det_token_ids := dr_prompt_token_ids request;
     det_stop := dr_stop request; det_include_stop_str_in_output := dr_include_stop_str_in_output request;
     det_prefix_offset := prefix_offset; det_read_offset := read_offset;
     det_skip_special_tokens := dr_skip_special_tokens request;
     det_spaces_between_special_tokens := dr_spaces_between_special_tokens request;
     det_output_kind := dr_output_kind request; det_request_id := dr_request_id request;
     det_prompt := dr_prompt request; det_prompt_token_ids := dr_prompt_token_ids request;
     det_stop_buffer_length := buffer_length (dr_stop request) (dr_include_stop_str_in_output request);
     det_last_output_text_offset := 0 |}.

(** One turn of the loop over the new ids; [decoded_text] is its local. *)
Definition decode_token (decoded_text : text) (new_token_id : Z) : DT text :=
  mmodify (λ d, set_det_token_ids (det_token_ids d ++ [new_token_id]) d);;;
  d ← mget;
  '(new_tokens, new_decoded_token_text, prefix_offset, read_offset) ←
    mlift (detokenize_incrementally tokenizer (det_token_ids d) (Some (det_tokens d)) (det_prefix_offset d)
             (det_read_offset d) (det_skip_special_tokens d) (det_spaces_between_special_tokens d));
  mmodify (λ d, set_det_tokens (det_tokens d ++ new_tokens) d);;;
  mmodify (set_det_prefix_offset prefix_offset);;;
  mmodify (set_det_read_offset read_offset);;;
  mmodify (λ d, set_det_output_text (det_output_text d ++ new_decoded_token_text) d);;;
  mret (decoded_text ++ new_decoded_token_text).

(** [_get_next_output_text] *)
Definition get_next_output_text (finished delta : bool) : DT text :=
  d ← mget;
  let buffer_length := if finished then 0%Z else det_stop_buffer_length d in
  if negb delta then
    mret (if (buffer_length =? 0)%Z then det_output_text d else slice (det_output_text d) 0 (- buffer_length))
  else
    let length := (Z.of_nat (length (det_output_text d)) - buffer_length)%Z in
    let last_offset := det_last_output_text_offset d in
    if (last_offset <? length)%Z then
      mmodify (set_det_last_output_text_offset length);;;
      mret (slice (det_output_text d) last_offset length)
    else mret [].

(** The stop criteria: the finish reason and the stop reason after them. *)
Definition apply_stop_strings (decoded_text : text) (finish_reason : option string) (stop_reason : option StopReason)
    : DT (option string * option StopReason) :=
  d ← mget;
  match check_stop_strings (det_output_text d) (Z.of_nat (length decoded_text)) (det_stop d)
          (det_include_stop_str_in_output d) with
  | None => mret (finish_reason, stop_reason)
  | Some (stop_str, truncate_to) =>
    match truncate_to with
    | None => mret tt
    | Some n => mmodify (λ d, set_det_output_text (take n (det_output_text d)) d)
    end;;;
    mret (Some "stop"%string, Some (ReasonString stop_str))
  end.

(** [bool(finish_reason)]: an empty reason counts as none. *)
Definition is_reason (r : option string) : bool :=
  match r with Some s => negb (bool_decide (s = ""%string)) | None => false end.

Definition add_tokens (new_token_ids : list Z) (finish_reason : option string) (stop_reason : option StopReason)
    : DT (option RequestOutput) :=
  decoded_text ← mfold new_token_ids [] decode_token;
  '(finish_reason, stop_reason) ← apply_stop_strings decoded_text finish_reason stop_reason;
  d ← mget;
  let finished := is_reason finish_reason in
  if bool_decide (det_output_kind d = FINAL_ONLY) && negb finished then mret None
  else
    let delta := bool_decide (det_output_kind d = DELTA) in
    output_text ← get_next_output_text finished delta;
    token_ids ← (if delta then mret new_token_ids else d ← mget; mlift (output_token_ids d));
    mret (Some {| ro_request_id := det_request_id d; ro_prompt := det_prompt d;
                  ro_prompt_token_ids := det_prompt_token_ids d; ro_text := output_text; ro_token_ids := token_ids;
                  ro_finished := finished;
                  ro_finish_reason := if finished then finish_reason else None;
                  ro_stop_reason := if finished then stop_reason else None |}).

(** * [Detokenizer] *)

(** The state of [Detokenizer] besides the tokenizer: [request_states]. *)
Abbreviation DS := (M (dict string IncrementalDetokenizer)).

Definition is_request_active (s : dict string IncrementalDetokenizer) (request_id : string) : bool := dmem s request_id.
Definition det_get_num_unfinished_requests (s : dict string IncrementalDetokenizer) : nat := length s.
Definition det_has_unfinished_requests (s : dict string IncrementalDetokenizer) : bool := bool_decide (0 < length s).

Definition abort_requests (request_ids : list string) : DS unit :=
  mfor request_ids (λ id, mmodify (λ s, ddel s id)).

Definition det_add_request (request : DetokenizerRequest) : DS unit :=
  s ← mget;
  massert (negb (dmem s (dr_request_id request))) "request.request_id not in self.request_states";;;
  mmodify (λ s, dset s (dr_request_id request) (from_new_request request)).

(** One engine output; [acc] holds the request outputs and the ids to abort. *)
Definition step_output (acc : list RequestOutput * list string) (o : EngineCoreOutput)
    : DS (list RequestOutput * list string) :=
  let request_id := eco_request_id o in
  s ← mget;
  match dget s request_id with
  | None => mret acc
  | Some detokenizer =>
    '(request_output, detokenizer) ←
      mlift (add_tokens (eco_new_token_ids o) (eco_finish_reason o) (ReasonToken <$> eco_stop_reason o) detokenizer);
    mmodify (λ s, dset s request_id detokenizer);;;
    match request_output with
    | None => mret acc
    | Some request_output =>
      if ro_finished request_output then
        mmodify (λ s, ddel s request_id);;;
        mret (acc.1 ++ [request_output], if eco_finished o then acc.2 else acc.2 ++ [request_id])
      else mret (acc.1 ++ [request_output], acc.2)
    end
  end.
Definition step (engine_core_outputs : list EngineCoreOutput) : DS (list RequestOutput * list string) :=
  mfold engine_core_outputs ([], []) step_output.
End detokenizer.
