(* ===== verification/DetokTheorems.v ===== *)
(** Incremental detokenization: the stop-string search over a window finds what
    a search of the whole text finds, the streamed pieces put together are the
    final text, and the text produced token by token is made of segments that
    cover the tokens. *)
From Stdlib Require Import ssreflect ZArith Lia.
From stdpp Require Import base numbers list gmap strings.
From S2P Require Import Prelude SamplingParams KVCacheBlock Request FreeQueue BlockHash KVCacheManager EncoderCache Scheduler Detokenizer.

(** * Searching *)

(** [sub] occurs in [t] at index [j]. *)
Definition occurs_at (sub t : text) (j : nat) : Prop := sub `prefix_of` drop j t.
Definition occurs (sub t : text) : Prop := ∃ j, occurs_at sub t j.

Lemma find_at_Some sub t : ∀ i j, find_at sub t i = Some j →
  i ≤ j ∧ occurs_at sub t (j - i) ∧ ∀ k, k < j - i → ¬ occurs_at sub t k.
Proof.
  elim: t => [|x t IH] i j /=.
  - case_bool_decide as Hp; [|done]. move=> [= <-]. rw Nat.sub_diag. split_and!; [done|done|lia].
  - case_bool_decide as Hp.
    + move=> [= <-]. rw Nat.sub_diag. split_and!; [done|done|lia].
    + move=> /IH [H1 [H2 H3]]. have -> : j - i = S (j - S i) by lia. split_and!; [lia|exact H2|].
      move=> [|k] Hk; [exact Hp|]. apply (H3 k). lia.
Qed.
Lemma find_at_None sub t : ∀ i, find_at sub t i = None → ¬ occurs sub t.
Proof.
  elim: t => [|x t IH] i /=; case_bool_decide as Hp; try done.
  - move=> _ [j Hj]. apply Hp. by rw /occurs_at drop_nil in Hj.
  - move=> /IH H [[|j] Hj]; [by apply Hp|]. apply H. by exists j.
Qed.
Lemma occurs_at_length sub t j : sub ≠ [] → occurs_at sub t j → j + length sub ≤ length t.
Proof.
  move=> Hs [k Hk]. have := f_equal length Hk. rw length_drop length_app.
  destruct sub; [done|simpl; lia].
Qed.
(** An occurrence within the first [m] characters is one of the prefix. *)
Lemma occurs_at_take sub t m j : j + length sub ≤ m → occurs_at sub t j → occurs_at sub (take m t) j.
Proof.
  move=> H [k Hk]. rw /occurs_at skipn_firstn_comm Hk take_app_ge; first lia. by eexists.
Qed.
(** The search reports the first occurrence. *)
Lemma py_find_0 t sub : match py_find t sub 0 with
  | Some j => occurs_at sub t j ∧ ∀ k, k < j → ¬ occurs_at sub t k
  | None => ¬ occurs sub t
  end.
Proof.
  rw /py_find /=. destruct (Z.ltb_spec (Z.of_nat (length t)) 0); first lia. rw drop_0. change (Z.to_nat 0) with 0.
  destruct (find_at sub t 0) as [j|] eqn:E; [|by eapply find_at_None].
  destruct (find_at_Some _ _ _ _ E) as (_ & H1 & H2). by rw Nat.sub_0_r in H1 H2.
Qed.
(** Searching from a point before which there is no occurrence. *)
Lemma find_at_skip sub t : ∀ i n, n ≤ length t → (∀ k, k < n → ¬ occurs_at sub t k) →
  find_at sub (drop n t) (i + n) = find_at sub t i.
Proof.
  elim: t => [|x t IH] i [|n] //= Hn H; try (rw Nat.add_0_r //); try lia.
  rw [in RHS]bool_decide_eq_false_2; first by apply (H 0); lia.
  rw -(IH (S i) n); [lia| |f_equal; lia]. move=> k Hk. apply (H (S k)). lia.
Qed.
(** The search window suffices when the text before the new characters has no
    occurrence. *)
Lemma py_find_window old new sub : sub ≠ [] → ¬ occurs sub old →
  py_find (old ++ new) sub (- Z.of_nat (length new) - Z.of_nat (length sub)) = py_find (old ++ new) sub 0.
Proof.
  move=> Hs Hold. have Hlen : 0 < length sub by destruct sub; [done|simpl; lia].
  set n := length old - length sub.
  have Hn : ∀ k, k < n → ¬ occurs_at sub (old ++ new) k.
  { move=> k Hk Ho. apply Hold. exists k. rw -(take_app_length old new). apply occurs_at_take; [rw /n in Hk; lia|done]. }
  have HZ : (if (- Z.of_nat (length new) - Z.of_nat (length sub) <? 0)%Z
     then Z.max 0 (- Z.of_nat (length new) - Z.of_nat (length sub) + Z.of_nat (length (old ++ new)))
     else (- Z.of_nat (length new) - Z.of_nat (length sub))%Z) = Z.of_nat n.
  { rw length_app. destruct (Z.ltb_spec (- Z.of_nat (length new) - Z.of_nat (length sub)) 0); lia. }
  rw /py_find HZ. destruct (Z.ltb_spec (Z.of_nat (length (old ++ new))) (Z.of_nat n)).
  { rw length_app in H. lia. }
  destruct (Z.ltb_spec (Z.of_nat (length (old ++ new))) 0); first lia. rw Nat2Z.id /= drop_0.
  rw -(find_at_skip sub (old ++ new) 0 n) //; first lia.
  by destruct (Z.ltb_spec (Z.of_nat (length (old ++ new))) 0); first lia.
Qed.

(** * Stop strings *)

(** The stop check that searches the whole text. *)
Fixpoint reference_stop (t : text) (stop : list text) (include : bool) : option (text * option nat) :=
  match stop with
  | [] => None
  | s :: stop =>
    match py_find t s 0 with
    | None => reference_stop t stop include
    | Some j => Some (s, if include then (if bool_decide (length t ≤ j + length s) then None else Some (j + length s))
                         else Some j)
    end
  end.

Lemma check_stop_reference old new stop include :
  Forall (λ s, s ≠ []) stop → (∀ s, s ∈ stop → ¬ occurs s old) →
  check_stop_strings (old ++ new) (Z.of_nat (length new)) stop include = reference_stop (old ++ new) stop include.
Proof.
  move=> Hne Hold. rw /check_stop_strings.
  destruct (Z.eqb_spec (Z.of_nat (length new)) 0) as [Hz|Hz].
  - have -> : new = [] by apply nil_length_inv; lia. rw app_nil_r. elim: stop Hne Hold => [|s stop IH] //=.
    move=> /Forall_cons [Hs Hne] Hold. have := py_find_0 old s. destruct (py_find old s 0).
    + move=> [Ho _]. destruct (Hold s); [set_solver|by eexists].
    + move=> _. apply IH; [done|]. set_solver.
  - simpl. case_bool_decide as He; first by subst. clear He. elim: stop Hne Hold => [|s stop IH] //=.
    move=> /Forall_cons [Hs Hne] Hold. rw py_find_window //; first by apply Hold; set_solver.
    destruct (py_find (old ++ new) s 0) as [j|]; [by destruct include; [case_bool_decide|]|].
    apply IH; [done|]. set_solver.
Qed.
(** A stop string that was not in the old text ends in the new text. *)
Lemma reference_stop_Some old new stop include s tr :
  Forall (λ s, s ≠ []) stop → (∀ s, s ∈ stop → ¬ occurs s old) →
  reference_stop (old ++ new) stop include = Some (s, tr) →
  ∃ j, s ∈ stop ∧ occurs_at s (old ++ new) j ∧ length old < j + length s ≤ length (old ++ new) ∧
    take (default (length (old ++ new)) tr) (old ++ new) = take (if include then j + length s else j) (old ++ new).
Proof.
  elim: stop => [|s' stop IH] //= /Forall_cons [Hs Hne] Hold. have := py_find_0 (old ++ new) s'.
  destruct (py_find (old ++ new) s' 0) as [j|].
  - move=> [Ho _] [= <- <-]. exists j. split_and!; [set_solver|done| |by apply occurs_at_length|].
    + apply Nat.nle_gt => Hle. apply (Hold s'); [set_solver|]. exists j. rw -(take_app_length old new).
      by apply occurs_at_take.
    + have := occurs_at_length _ _ _ Hs Ho. destruct include; [|done]. case_bool_decide; [|done]. simpl => ?. f_equal. lia.
  - move=> _ Hr. destruct IH as (j & H1 & H2); [done|set_solver|done|]. exists j. split; [set_solver|done].
Qed.
Lemma reference_stop_None t stop include : reference_stop t stop include = None → ∀ s, s ∈ stop → ¬ occurs s t.
Proof.
  elim: stop => [|s' stop IH] /= H s; first by move=> /elem_of_nil. have := py_find_0 t s'.
  destruct (py_find t s' 0) as [j|]; first done. move=> Hs /elem_of_cons [->|Hin]; [done|by apply IH].
Qed.

(** * Streaming *)

(** The attributes that decoding does not change. *)
Record same_stream (d d' : IncrementalDetokenizer) : Prop := {
  ss_stop : det_stop d' = det_stop d;
  ss_include : det_include_stop_str_in_output d' = det_include_stop_str_in_output d;
  ss_kind : det_output_kind d' = det_output_kind d;
  ss_buffer : det_stop_buffer_length d' = det_stop_buffer_length d;
  ss_last : det_last_output_text_offset d' = det_last_output_text_offset d;
}.
#[export] Instance same_stream_preorder : PreOrder same_stream.
Proof. split; [done|]. move=> a b c [? ? ? ? ?] [? ? ? ? ?]. split; congruence. Qed.

(** A tokenizer that does not raise. *)
Class Total (tokenizer : Tokenizer) : Prop :=
  total : ∀ l, ∃ t, convert_tokens_to_string tokenizer l = Ok t.

Section stream.
Context (tokenizer : Tokenizer) {HTot : Total tokenizer}.

Lemma flush_total subs cur : ∃ l, flush_sub_text tokenizer subs cur = Ok l.
Proof. rw /flush_sub_text. case_bool_decide; [by eexists|]. destruct (total cur) as [t ->]. by eexists. Qed.
Lemma added_encoders_total skip toks : ∀ subs cur, ∃ l, added_encoders_loop tokenizer skip toks subs cur = Ok l.
Proof.
  elim: toks => [|t toks IH] subs cur /=; first apply flush_total. destruct (_ && _); first done.
  destruct t as [t|]; [|done]. case_bool_decide; [|done]. by destruct (flush_total subs cur) as [l ->] => /=.
Qed.
Lemma tokens_text_total skip spaces toks : ∃ t, tokens_text tokenizer skip spaces toks = Ok t.
Proof.
  rw /tokens_text. destruct (_ || _); [done|]. rw /convert_tokens_to_string_with_added_encoders.
  destruct (added_encoders_total skip toks [] []) as [l ->] => /=. by eexists.
Qed.

Lemma decode_token_spec acc x d : ∃ t d', decode_token tokenizer acc x d = Ok (acc ++ t, d') ∧
  det_output_text d' = det_output_text d ++ t ∧ same_stream d d'.
Proof.
  rw /decode_token /mbind /M_bind /mmodify /mget. set d1 := set_det_token_ids _ d.
  assert (∃ r, detokenize_incrementally tokenizer (det_token_ids d1) (Some (det_tokens d1)) (det_prefix_offset d1)
     (det_read_offset d1) (det_skip_special_tokens d1) (det_spaces_between_special_tokens d1) = Ok r) as [[[[nt t] po] ro] Hr].
  { rw /detokenize_incrementally /d1 /= last_snoc.
    match goal with |- context [tokens_text _ ?a ?b ?l] => destruct (tokens_text_total a b l) as [? ->] => /= end.
    match goal with |- context [tokens_text _ ?a ?b ?l] => destruct (tokens_text_total a b l) as [? ->] => /= end.
    destruct (_ || _); by eexists. }
  rw /mlift Hr. by exists t; eexists.
Qed.
Lemma decode_all xs : ∀ acc d, ∃ t d', mfold xs acc (decode_token tokenizer) d = Ok (acc ++ t, d') ∧
  det_output_text d' = det_output_text d ++ t ∧ same_stream d d'.
Proof.
  elim: xs => [|x xs IH] acc d; first by exists [], d; rw !app_nil_r.
  destruct (decode_token_spec acc x d) as (t & d1 & R1 & R2 & R3).
  destruct (IH (acc ++ t) d1) as (t' & d' & I1 & I2 & I3). exists (t ++ t'), d'. cbn [mfold]. rw /mbind /M_bind R1 app_assoc.
  split_and!; [done|by rw I2 R2 app_assoc|by etrans].
Qed.

(** The state of a streamed request: no stop string is in its text, and [e], what
    has been sent, is the text up to the last offset, which lags behind by at
    least the stop buffer. *)
Record stream_inv (d : IncrementalDetokenizer) (e : text) : Prop := {
  si_kind : det_output_kind d = DELTA;
  si_stops : Forall (λ s, s ≠ []) (det_stop d);
  si_none : ∀ s, s ∈ det_stop d → ¬ occurs s (det_output_text d);
  si_buffer : det_stop_buffer_length d = buffer_length (det_stop d) (det_include_stop_str_in_output d);
  si_last : (0 ≤ det_last_output_text_offset d ≤
    Z.max 0 (Z.of_nat (length (det_output_text d)) - det_stop_buffer_length d))%Z;
  si_lag : (Z.of_nat (length (det_output_text d)) - det_stop_buffer_length d ≤ det_last_output_text_offset d)%Z;
  si_sent : e = take (Z.to_nat (det_last_output_text_offset d)) (det_output_text d);
}.

Lemma stop_length_max (stops : list text) s : s ∈ stops → length s ≤ foldr Nat.max 0 (length <$> stops).
Proof.
  elim: stops => [|x l IH]; first by move=> /elem_of_nil. rw fmap_cons. cbn [foldr]. move=> /elem_of_cons [->|/IH]; lia.
Qed.
Lemma buffer_covers stops include s : s ∈ stops → Forall (λ s, s ≠ []) stops →
  (0 ≤ buffer_length stops include)%Z ∧
  (if include then buffer_length stops include = 0%Z else Z.of_nat (length s) ≤ buffer_length stops include + 1)%Z.
Proof.
  move=> Hs Hne. rw /buffer_length bool_decide_eq_false_2; first by destruct stops; [by apply elem_of_nil in Hs|].
  have := stop_length_max _ _ Hs. rw Forall_forall in Hne. have Hn : 0 < length s by have := Hne s Hs; destruct s; [done|simpl; lia].
  destruct include; simpl; lia.
Qed.
Lemma buffer_nonneg stops include : Forall (λ s, s ≠ []) stops → (0 ≤ buffer_length stops include)%Z.
Proof.
  move=> H. destruct stops as [|s stops]; [done|]. by apply (buffer_covers (s :: stops) include s); [left|].
Qed.

(** What the client receives, once the text of the step is settled. *)
Lemma next_delta d (finished : bool) : (0 ≤ det_last_output_text_offset d)%Z →
  (det_last_output_text_offset d ≤ Z.of_nat (length (det_output_text d)))%Z →
  let last := det_last_output_text_offset d in
  let len := (Z.of_nat (length (det_output_text d)) - (if finished then 0 else det_stop_buffer_length d))%Z in
  (len ≤ Z.of_nat (length (det_output_text d)))%Z →
  ∃ t d', get_next_output_text finished true d = Ok (t, d') ∧ same_stream (set_det_last_output_text_offset (Z.max last len) d) d' ∧
    det_output_text d' = det_output_text d ∧
    take (Z.to_nat last) (det_output_text d) ++ t = take (Z.to_nat (Z.max last len)) (det_output_text d).
Proof.
  move=> H0 H1 last len H2. rw /get_next_output_text /mbind /M_bind /mget. cbn [negb].
  rw -/len -/last. destruct (Z.ltb_spec last len) as [Hlt|Hge].
  - rw /mmodify. eexists _, _. split; [reflexivity|]. rw Z.max_r; first lia. split_and!; [done|done|].
    rw slice_nonneg; [done|lia|]. rw skipn_firstn_comm.
    rw take_take_drop. f_equal. lia.
  - exists [], d. rw Z.max_l //. split; first done. split_and!; [by destruct d|done|by rw app_nil_r].
Qed.

(** The stop criteria on the new text. *)
Lemma apply_stop_spec d e t d1 fr sr :
  stream_inv d e → det_output_text d1 = det_output_text d ++ t → same_stream d d1 →
  ∃ fr' sr' d2, apply_stop_strings t fr sr d1 = Ok ((fr', sr'), d2) ∧ same_stream d1 d2 ∧
    det_output_text d2 `prefix_of` det_output_text d1 ∧
    (det_last_output_text_offset d2 ≤ Z.of_nat (length (det_output_text d2)))%Z ∧
    e = take (Z.to_nat (det_last_output_text_offset d2)) (det_output_text d2) ∧
    (is_reason fr' = true ∨ d2 = d1 ∧ ∀ s, s ∈ det_stop d2 → ¬ occurs s (det_output_text d2)).
Proof.
  move=> [S1 S2 S3 S4 S5 S7 S6] Ht HS. destruct (HS) as [E1 E2 E3 E4 E5].
  have HB := buffer_nonneg _ (det_include_stop_str_in_output d) S2. rw -S4 in HB.
  rw /apply_stop_strings /mbind /M_bind /mget Ht E1 E2 check_stop_reference //.
  destruct (reference_stop _ _ _) as [[s tr]|] eqn:HR.
  - destruct (reference_stop_Some _ _ _ _ _ _ S2 S3 HR) as (j & J1 & J2 & J3 & J4).
    set T := if det_include_stop_str_in_output d then j + length s else j. fold T in J4.
    have HT : (det_last_output_text_offset d ≤ Z.of_nat T)%Z.
    { destruct (buffer_covers _ (det_include_stop_str_in_output d) s J1 S2) as [_ Hc]. rw -S4 in Hc.
      rw /T. destruct (det_include_stop_str_in_output d); lia. }
    have HT' : T ≤ length (det_output_text d ++ t) by rw /T; destruct (det_include_stop_str_in_output d); lia.
    assert (∃ d2, match tr with None => mret tt
        | Some n => mmodify (λ d0, set_det_output_text (take n (det_output_text d0)) d0) end d1 = Ok (tt, d2) ∧
      same_stream d1 d2 ∧ det_output_text d2 = take T (det_output_text d ++ t)) as (d2 & D1 & D2 & D3).
    { destruct tr as [n|]; simpl in J4; eexists; (split; [reflexivity|]); (split; [done|]).
      - by rw /= Ht J4.
      - by rw Ht -J4 take_ge. }
    exists (Some "stop"%string), (Some (ReasonString s)), d2. rw D1. split; first done. rw D3 length_take (ss_last _ _ D2) E5.
    split_and!; [done|apply prefix_take|lia| |by left].
    rw S6 take_take Nat.min_l; first lia. rw take_app_le //. lia.
  - have HN := reference_stop_None _ _ _ HR. exists fr, sr, d1. split; first done. rw Ht E5 length_app.
    split_and!; [done|done|lia| |right; split; [done|by rw E1]].
    rw S6 take_app_le //. lia.
Qed.

(** One step of a streamed request. *)
Lemma add_tokens_delta d e ids fr sr : stream_inv d e →
  ∃ out d', add_tokens tokenizer ids fr sr d = Ok (Some out, d') ∧ det_stop d' = det_stop d ∧
    det_include_stop_str_in_output d' = det_include_stop_str_in_output d ∧
    if ro_finished out then e ++ ro_text out = det_output_text d' else stream_inv d' (e ++ ro_text out).
Proof.
  move=> HI. destruct (decode_all ids [] d) as (t & d1 & R1 & R2 & R3). simpl in R1.
  destruct (apply_stop_spec d e t d1 fr sr HI R2 R3) as (fr' & sr' & d2 & A1 & A2 & A3 & A4 & A5 & A6).
  have HS : same_stream d d2 by etrans. destruct HI as [S1 S2 S3 S4 S5 S7 S6]. destruct (HS) as [E1 E2 E3 E4 E5].
  have HB := buffer_nonneg _ (det_include_stop_str_in_output d) S2. rw -S4 -E4 in HB.
  destruct (next_delta d2 (is_reason fr')) as (o & d3 & N1 & N2 & N3 & N4); [lia|lia|destruct (is_reason fr'); lia|].
  rw /add_tokens /mbind /M_bind R1 A1 /mget E3 S1. cbn [bool_decide andb]. simpl. rw N1.
  eexists _, d3. split; first reflexivity. simpl.
  split; [by rw (ss_stop _ _ N2) /= E1|]. split; [by rw (ss_include _ _ N2) /= E2|].
  rw A5 N4 N3. destruct (is_reason fr') eqn:Hf.
  - by rw take_ge; first lia.
  - destruct A6 as [?|[? HN]]; first done. subst d2. destruct N2 as [M1 M2 M3 M4 M5]; simpl in *.
    split; rw ?M1 ?M2 ?M3 ?M4 ?M5 ?N3 ?E1 ?E2 ?E4 ?E5; try done.
    + by rw E3.
    + by rw -E1.
    + rw E4 in HB. rw R2 length_app. lia.
    + lia.
Qed.

(** ** The life of a request *)

(** The engine outputs of one request are added until one finishes it, as
    [Detokenizer.step] does; the request outputs are collected. *)
Fixpoint stream (chunks : list (list Z * option string * option StopReason)) (d : IncrementalDetokenizer)
    : result (list RequestOutput * IncrementalDetokenizer) :=
  match chunks with
  | [] => Ok ([], d)
  | (ids, fr, sr) :: chunks =>
    '(o, d) ← add_tokens tokenizer ids fr sr d;
    match o with
    | None => stream chunks d
    | Some out => if ro_finished out then Ok ([out], d) else '(outs, d) ← stream chunks d; mret (out :: outs, d)
    end
  end.
Definition sent (outs : list RequestOutput) : text := mjoin (ro_text <$> outs).
Definition stream_finished (outs : list RequestOutput) : bool := existsb ro_finished outs.

Lemma stream_spec chunks : ∀ d e, stream_inv d e →
  ∃ outs d', stream chunks d = Ok (outs, d') ∧ det_stop d' = det_stop d ∧
    det_include_stop_str_in_output d' = det_include_stop_str_in_output d ∧
    if stream_finished outs then e ++ sent outs = det_output_text d' else stream_inv d' (e ++ sent outs).
Proof.
  elim: chunks => [|[[ids fr] sr] chunks IH] d e HI; first by exists [], d; rw /= app_nil_r.
  destruct (add_tokens_delta d e ids fr sr HI) as (out & d1 & R1 & R3 & R4 & R2). simpl. rw R1 /=.
  destruct (ro_finished out) eqn:Hf.
  - exists [out], d1. split_and!; [done|done|done|]. by rw /stream_finished /= Hf /= /sent /= app_nil_r.
  - destruct (IH d1 _ R2) as (outs & d' & I1 & I3 & I4 & I2). rw I1 /=. exists (out :: outs), d'.
    split_and!; [done|congruence|congruence|]. by rw /stream_finished /= Hf /= /sent /= app_assoc.
Qed.
End stream.

(** ** Token by token or all at once *)

(** The tokens of a generated id. *)
Definition tokens_of_id (tokenizer : Tokenizer) (skip : bool) (id : Z) : list token :=
  if ((0 <=? id) && (id <? vocab_len tokenizer))%Z then convert_ids_to_tokens tokenizer [id] skip else [Some []].

Lemma ends_incomplete_app a b : b ≠ [] → ends_incomplete (a ++ b) = ends_incomplete b.
Proof. move=> Hb. rw /ends_incomplete last_app. destruct (last b) eqn:E; [done|]. by apply last_None in E. Qed.

Lemma slice_of_nat {A} (l : list A) a b : slice l (Z.of_nat a) (Z.of_nat b) = drop a (take b l).
Proof. rw slice_nonneg; [lia|lia|]. by rw !Nat2Z.id. Qed.

Section segments.
Context (tokenizer : Tokenizer) (skip spaces : bool) (n0 : nat).

(** The text of the tokens from [a] to [b]. *)
Definition shown (T : list token) (a b : nat) (t : text) : Prop := tokens_text tokenizer skip spaces (drop a (take b T)) = Ok t.
(** A text made of segments of the tokens [T], of which the first [n0] are the
    prompt's: each segment is decoded together with the one before it, whose text
    is cut off again; it adds text and does not end within a character. The last
    segment is the one from [P] to [R], and [out] is the text up to [R]. *)
Inductive segments (T : list token) : nat → nat → text → Prop :=
  | sg_start : segments T (n0 - 5) n0 []
  | sg_next P R N out before whole : segments T P R out → R < N ≤ length T →
      shown T P R before → shown T P N whole → length before < length whole → ends_incomplete whole = false →
      segments T R N (out ++ drop (length before) whole).
(** Nothing is held back that could be shown. *)
Definition held_back (T : list token) (P R : nat) : Prop :=
  ∃ before whole, shown T P R before ∧ shown T P (length T) whole ∧
    (length whole ≤ length before ∨ ends_incomplete whole = true).

Lemma segments_bounds T P R out : n0 ≤ length T → segments T P R out → P ≤ R ≤ length T.
Proof. move=> H0. induction 1; lia. Qed.
Lemma segments_app T nt P R out : n0 ≤ length T → segments T P R out → segments (T ++ nt) P R out.
Proof.
  move=> H0 H. induction H as [|P R N out before whole H IH HN Hb Hw Hl He]; first by constructor.
  have HB := segments_bounds _ _ _ _ H0 H. eapply sg_next; [done|rw length_app; lia| | |done|done].
  - rw /shown take_app_le //. lia.
  - rw /shown take_app_le //. lia.
Qed.
Lemma segments_complete T P R out : segments T P R out → ends_incomplete out = false.
Proof.
  induction 1 as [|P R N out before whole H IH HN Hb Hw Hl He]; first done.
  have Hne : drop (length before) whole ≠ [] by move=> H1; apply (f_equal length) in H1; rw length_drop /= in H1; lia.
  rw ends_incomplete_app //. have := He. by rw -{1}(take_drop (length before) whole) ends_incomplete_app.
Qed.

(** The state after some tokens. *)
Record segmented (P R : nat) (d : IncrementalDetokenizer) : Prop := {
  se_prefix : det_prefix_offset d = Z.of_nat P;
  se_read : det_read_offset d = Z.of_nat R;
  se_prompt : n0 ≤ length (det_tokens d);
  se_skip : det_skip_special_tokens d = skip;
  se_spaces : det_spaces_between_special_tokens d = spaces;
  se_text : segments (det_tokens d) P R (det_output_text d);
  se_eager : held_back (det_tokens d) P R;
}.
Context {HTot : Total tokenizer}.
Lemma shown_total T a b : ∃ t, shown T a b t.
Proof. apply tokens_text_total, _. Qed.
Lemma held_back_all T P : held_back T P (length T).
Proof. destruct (shown_total T P (length T)) as [t Ht]. exists t, t. split_and!; [done|done|by left]. Qed.

Lemma decode_token_segments P R acc id d : segmented P R d →
  ∃ t d' P' R', decode_token tokenizer acc id d = Ok (acc ++ t, d') ∧ segmented P' R' d' ∧
    det_output_text d' = det_output_text d ++ t ∧ det_tokens d' = det_tokens d ++ tokens_of_id tokenizer skip id.
Proof.
  move=> [W1 W2 W3 W4 W5 W6 W7]. set nt := tokens_of_id tokenizer skip id. set T := det_tokens d ++ nt.
  have [O1 O2] := segments_bounds _ _ _ _ W3 W6. have HT : length (det_tokens d) ≤ length T by rw /T length_app; lia.
  destruct (shown_total T P R) as [before Hb], (shown_total T P (length T)) as [whole Hw].
  rw /decode_token /mbind /M_bind /mmodify /mget /mlift /detokenize_incrementally /= last_snoc W4 W5.
  rw -/(tokens_of_id tokenizer skip id) -/nt -/T W1 W2 !slice_of_nat. rw /shown in Hb Hw. rw Hb Hw /=.
  destruct (bool_decide (length whole ≤ length before) || ends_incomplete whole) eqn:Hstop; simpl.
  - eexists [], _, P, R. split; first reflexivity. split_and!; [|done|done]. split; simpl; rw -/T ?app_nil_r; try done; [lia|by apply segments_app|].
    exists before, whole. split_and!; [done|done|]. apply orb_true_iff in Hstop as [H|H]; [left; by apply bool_decide_eq_true_1 in H|by right].
  - apply orb_false_iff in Hstop as [Hlen He]. apply bool_decide_eq_false_1 in Hlen.
    eexists (drop (length before) whole), _, R, (length T). split; first reflexivity. split_and!; [|done|done].
    split; simpl; rw -/T; try done; [lia| |apply held_back_all].
    apply (sg_next _ P); [by apply segments_app| |done|done|lia|done]. split; last done.
    destruct (decide (R = length T)) as [E|]; last lia. rw E Hw in Hb. injection Hb as ->. lia.
Qed.
Lemma decode_all_segments ids : ∀ P R acc d, segmented P R d →
  ∃ t d' P' R', mfold ids acc (decode_token tokenizer) d = Ok (acc ++ t, d') ∧ segmented P' R' d' ∧
    det_output_text d' = det_output_text d ++ t ∧
    det_tokens d' = det_tokens d ++ mjoin (tokens_of_id tokenizer skip <$> ids).
Proof.
  induction ids as [|id ids IH] => P R acc d HI; first by exists [], d, P, R; rw /= !app_nil_r.
  destruct (decode_token_segments P R acc id d HI) as (t & d1 & P1 & R1 & A1 & A2 & A3 & A4).
  destruct (IH P1 R1 (acc ++ t) d1 A2) as (t' & d' & P' & R' & B1 & B2 & B3 & B4).
  exists (t ++ t'), d', P', R'. cbn [mfold]. rw /mbind /M_bind A1 app_assoc. split_and!; [done|done| |].
  - by rw B3 A3 app_assoc.
  - by rw B4 A4 /= app_assoc.
Qed.
End segments.

(** * The properties *)

(** C22: put together, the pieces a client receives are the final text. For a
    tokenizer that does not raise and a streaming request whose stop strings are
    not empty, the detokenizer handles any sequence of engine outputs; when the
    request has finished, by the engine or by a stop string, the concatenation of
    the deltas is exactly its output text; until then it is a prefix of the text
    that lags behind by at most the stop buffer, and no stop string has been
    missed. In particular no character sent is taken back by the truncation at a
    stop string. *)
Theorem delta_stream_reassembles tokenizer request chunks :
  Total tokenizer → dr_output_kind request = DELTA → Forall (λ s, s ≠ []) (dr_stop request) →
  ∃ outs d, stream tokenizer chunks (from_new_request tokenizer request) = Ok (outs, d) ∧
    if stream_finished outs then sent outs = det_output_text d
    else sent outs `prefix_of` det_output_text d ∧
      (Z.of_nat (length (det_output_text d)) ≤ Z.of_nat (length (sent outs)) +
         buffer_length (dr_stop request) (dr_include_stop_str_in_output request))%Z ∧
      ∀ s, s ∈ dr_stop request → ¬ occurs s (det_output_text d).
Proof.
  move=> HT Hk Hs.
  destruct (stream_spec tokenizer chunks (from_new_request tokenizer request) []) as (outs & d & R1 & R3 & R4 & R2).
  - have HB := buffer_nonneg _ (dr_include_stop_str_in_output request) Hs. split; simpl; try done; try lia.
    move=> s Hin [j Hj]. rw Forall_forall in Hs. have Hne := Hs s Hin. simpl in Hne.
    have := occurs_at_length s [] j Hne Hj. destruct s; [done|simpl; lia].
  - exists outs, d. split; first done. destruct (stream_finished outs); first done. simpl in R2, R3, R4.
    destruct R2 as [S1 S2 S3 S4 S5 S7 S6]. rw -R3. split_and!; [rw S6; apply prefix_take| |done].
    have HB := buffer_nonneg _ (dr_include_stop_str_in_output request) S2. rw S4 R4 in S7. rw S6 length_take. lia.
Qed.

(** A tokenizer whose tokens are single characters. *)
Definition demo_tokenizer : Tokenizer :=
  {| convert_ids_to_tokens ids _ := (λ i, Some [i]) <$> ids;
     convert_tokens_to_string l := Ok (mjoin (default [] <$> l));
     all_special_tokens := []; get_added_vocab := []; is_fast := true; vocab_len := 200 |}.
#[local] Instance demo_total : Total demo_tokenizer.
Proof. move=> l. by eexists. Qed.
(** A request with the stop string "bc". *)
Definition demo_detok_request : DetokenizerRequest :=
  {| dr_request_id := "r"; dr_prompt := None; dr_prompt_token_ids := [65; 66]%Z; dr_skip_special_tokens := true;
     dr_spaces_between_special_tokens := true; dr_output_kind := DELTA; dr_stop := [[98; 99]%Z];
     dr_include_stop_str_in_output := false |}.
(** "abc" arrives as "ab", "c": the client receives "a" and then nothing more. *)
Lemma delta_stream_reassembles_witness :
  ∃ outs d, stream demo_tokenizer [([97; 98]%Z, None, None); ([99; 100]%Z, None, None)]
              (from_new_request demo_tokenizer demo_detok_request) = Ok (outs, d) ∧
    stream_finished outs = true ∧ sent outs = [97%Z] ∧ det_output_text d = [97%Z].
Proof.
  destruct (delta_stream_reassembles demo_tokenizer demo_detok_request
    [([97; 98]%Z, None, None); ([99; 100]%Z, None, None)]) as (outs & d & H1 & H2).
  - exact demo_total.
  - reflexivity.
  - repeat constructor. discriminate.
  - exists outs, d. split; [exact H1|]. vm_compute in H1. injection H1 as <- <-. repeat split; reflexivity.
Defined.

(** the windowed search for stop strings is as good as a search of the whole
    text: when no stop string was in the text before, looking only at the new
    characters and one stop string's length before them gives the same stop
    string and the same truncation. *)
Theorem stop_window_suffices old new stop include :
  Forall (λ s, s ≠ []) stop → (∀ s, s ∈ stop → ¬ occurs s old) →
  check_stop_strings (old ++ new) (Z.of_nat (length new)) stop include = reference_stop (old ++ new) stop include.
Proof. apply check_stop_reference. Qed.
Lemma stop_window_suffices_witness :
  (∀ s, s ∈ [[98; 99]%Z] → ¬ occurs s [97; 98]%Z) ∧
  check_stop_strings ([97; 98] ++ [99; 100])%Z 2 [[98; 99]%Z] true = Some ([98; 99]%Z, Some 3).
Proof.
  assert (H : ∀ s, s ∈ [[98; 99]%Z] → ¬ occurs s [97; 98]%Z).
  { intros s Hs. apply list_elem_of_singleton in Hs. subst s. exact (find_at_None [98; 99]%Z [97; 98]%Z 0 eq_refl). }
  split; [exact H|].
  assert (Hn : Forall (λ s, s ≠ []) [[98; 99]%Z]) by (repeat constructor; discriminate).
  exact (eq_trans (stop_window_suffices [97; 98]%Z [99; 100]%Z [[98; 99]%Z] true Hn H) eq_refl).
Defined.

(** C23: text decoded token by token comes in segments that cover the generated
    tokens, whatever the tokenizer makes of a list of tokens, if it does not raise.
    After any generated ids the tokens are those of the prompt and of the ids, and
    the offsets [P] and [R] delimit the last segment: the output text is made of
    one piece for each segment, what decoding the segment behind the one before
    adds to decoding the one before, each of them not empty; the text never ends
    within a character; and nothing is held back that could be shown: the tokens
    behind [R] add no text to the last segment, or end within a character. *)
Theorem incremental_text_segments tokenizer request ids : Total tokenizer →
  let d := from_new_request tokenizer request in
  let skip := dr_skip_special_tokens request in
  let spaces := dr_spaces_between_special_tokens request in
  ∃ d' P R, mfold ids [] (decode_token tokenizer) d = Ok (det_output_text d', d') ∧
    det_tokens d' = det_tokens d ++ mjoin (tokens_of_id tokenizer skip <$> ids) ∧
    det_prefix_offset d' = Z.of_nat P ∧ det_read_offset d' = Z.of_nat R ∧
    segments tokenizer skip spaces (length (det_tokens d)) (det_tokens d') P R (det_output_text d') ∧
    ends_incomplete (det_output_text d') = false ∧ held_back tokenizer skip spaces (det_tokens d') P R.
Proof.
  move=> HTot d skip spaces. set n0 := length (det_tokens d).
  have HI : segmented tokenizer skip spaces n0 (n0 - 5) n0 d.
  { have Hr : det_read_offset d = Z.of_nat n0 by rw /n0 /d /from_new_request /= /replace_none_with_empty length_fmap.
    have Hp : det_prefix_offset d = Z.max (det_read_offset d - 5) 0 by [].
    split; try done; [rw Hp Hr; lia|by constructor|by apply held_back_all]. }
  destruct (decode_all_segments tokenizer skip spaces n0 ids _ _ [] d HI) as (t & d' & P & R & A1 & [S1 S2 S3 S4 S5 S6 S7] & A3 & A4).
  exists d', P, R. split_and!; try done; [by rw A1 A3|by eapply segments_complete].
Qed.

Lemma incremental_text_segments_witness :
  ∃ d' P R, mfold [97; 98]%Z [] (decode_token demo_tokenizer) (from_new_request demo_tokenizer demo_detok_request) = Ok ([97; 98]%Z, d')
    ∧ segments demo_tokenizer true true 2 (det_tokens d') P R [97; 98]%Z ∧ P = 3 ∧ R = 4.
Proof.
  destruct (incremental_text_segments demo_tokenizer demo_detok_request [97; 98]%Z demo_total)
    as (d' & P & R & H1 & H2 & H3 & H4 & H5 & _).
  assert (Hd : match mfold [97; 98]%Z [] (decode_token demo_tokenizer) (from_new_request demo_tokenizer demo_detok_request) with
               | Ok (_, d) => d | Raise _ => d' end = d') by (rw H1; reflexivity).
  vm_compute in Hd. subst d'. eexists _, P, R. split; [exact H1|]. split; [exact H5|]. change (3 = Z.of_nat P)%Z in H3. change (4 = Z.of_nat R)%Z in H4. lia.
Defined.
