(* ===== verification/Processor.v ===== *)
(** The request processor: class [Processor] of vllm/v1/engine/processor.py, the
    adapter of vllm/inputs/data.py through which it reads its inputs, and
    [MMHasher] of vllm/v1/engine/mm_input_mapper.py.

    What stays a parameter: the input preprocessing (tokenization of the prompt
    and the model's input processor) as one function that may raise, the image
    processor, and the hash of the bytes of an image, which is [None] for a value
    that is not an image. A prompt is text or a dictionary, of which only the
    entry for multi-modal data is looked at here. *)
From Stdlib Require Import ssreflect ZArith Lia.
From stdpp Require Import base numbers list gmap strings.
From S2P Require Import Prelude SamplingParams KVCacheBlock Request FreeQueue BlockHash KVCacheManager EncoderCache Scheduler LRUCache MMInputMapper Detokenizer DetokTheorems.

Section processor.
Context {Image ProcKwargs PromptBody : Type}.
Abbreviation MMData := (dict string (ImageData (Image:=Image))).

(** * Inputs *)
Inductive PromptType :=
  | PromptText (s : string)
  | PromptDict (multi_modal_data : option (option MMData)) (body : PromptBody).

(** [SingletonInputs]: the keys that need not be present are options. *)
Inductive SingletonInputs :=
  | TokenInputs (prompt : option string) (prompt_token_ids : option (list Z)) (multi_modal_data : option MMData)
      (multi_modal_placeholders : option (dict string (list PlaceholderRange))) (mm_processor_kwargs : option ProcKwargs)
  | MultiModalInputsV2 (prompt : option string) (prompt_token_ids : option (list Z)) (mm_kwargs : MultiModalKwargs)
      (mm_placeholders : option (dict string (list PlaceholderRange))).
Inductive ProcessorInputs :=
  | DecoderOnlyInputs (i : SingletonInputs)
  | EncoderDecoderInputs (encoder decoder : SingletonInputs).

(** The properties of [SingletonInputsAdapter]. *)
Definition in_prompt (i : SingletonInputs) : option string :=
  match i with TokenInputs p _ _ _ _ | MultiModalInputsV2 p _ _ _ => p end.
Definition in_prompt_token_ids (i : SingletonInputs) : list Z :=
  match i with TokenInputs _ ids _ _ _ | MultiModalInputsV2 _ ids _ _ => default [] ids end.
Inductive MultiModalData := RawData (d : MMData) | Kwargs (k : MultiModalKwargs).
Definition in_multi_modal_data (i : SingletonInputs) : MultiModalData :=
  match i with TokenInputs _ _ d _ _ => RawData (default [] d) | MultiModalInputsV2 _ _ k _ => Kwargs k end.
Definition in_multi_modal_placeholders (i : SingletonInputs) : dict string (list PlaceholderRange) :=
  match i with TokenInputs _ _ _ p _ | MultiModalInputsV2 _ _ _ p => default [] p end.

Variable no_kwargs : ProcKwargs.
Definition in_mm_processor_kwargs (i : SingletonInputs) : ProcKwargs :=
  match i with TokenInputs _ _ _ _ k => default no_kwargs k | MultiModalInputsV2 _ _ _ _ => no_kwargs end.

Variable kwargs_len : MultiModalKwargs → nat.
Definition multi_modal_len (d : MultiModalData) : nat :=
  match d with RawData d => length d | Kwargs k => kwargs_len k end.

(** * [MMHasher] *)
Variable image_hash : Image → option string.

Definition hash_images (image_inputs : ImageData (Image:=Image)) : result (list string) :=
  let image_inputs := image_list image_inputs in
  if bool_decide (image_inputs = []) then Raise (AssertionError "len(image_inputs) > 0")
  else
    foldl (λ ret image,
      ret ← ret;
      match image_hash image with
      | Some h => Ok (ret ++ [h])
      | None => Raise (AssertionError "isinstance(image, PIL.Image.Image)")
      end) (Ok []) image_inputs.

(** [sub in s] on strings *)
Definition str_contains (sub s : string) : bool := bool_decide (is_Some (String.index 0 sub s)).

(** The test for the key is a test for a substring when the prompt is text, and
    text cannot be indexed by a string. *)
Definition hash_prompt_mm_data (prompt : PromptType) : result (option (list string)) :=
  match prompt with
  | PromptText s =>
    if str_contains "multi_modal_data" s then Raise (TypeError "string indices must be integers") else Ok None
  | PromptDict mm_data _ =>
    match mm_data with
    | None | Some None | Some (Some []) => Ok None
    | Some (Some mm_data) =>
      match dget mm_data "image"%string with
      | None => Raise (KeyError "image")
      | Some image_inputs => l ← hash_images image_inputs; mret (Some l)
      end
    end
  end.

(** * [Processor] *)
Record Processor := {
  pc_lora_config : bool;
  pc_generation_config_eos : option EosArg;
  pc_is_multimodal_model : bool;
  pc_max_model_len : Z;
  pc_use_hash : bool;
  pc_eos_token_id : option Z;
}.
Definition processor_init (lora_config : bool) (eos : option EosArg) (is_multimodal_model : bool) (max_model_len : Z)
    (disable_mm_preprocessor_cache enable_prefix_caching : bool) (eos_token_id : option Z) : Processor :=
  {| pc_lora_config := lora_config; pc_generation_config_eos := eos; pc_is_multimodal_model := is_multimodal_model;
     pc_max_model_len := max_model_len;
     pc_use_hash := negb disable_mm_preprocessor_cache || enable_prefix_caching; pc_eos_token_id := eos_token_id |}.

Definition validate_model_inputs (c : Processor) (inputs : ProcessorInputs) : result unit :=
  let prompt_inputs :=
    match inputs with
    | EncoderDecoderInputs encoder decoder => if pc_is_multimodal_model c then decoder else encoder
    | DecoderOnlyInputs i => i
    end in
  let prompt_ids := in_prompt_token_ids prompt_inputs in
  if bool_decide (prompt_ids = []) then Raise (ValueError "Prompt cannot be empty")
  else if pc_is_multimodal_model c && (pc_max_model_len c <? Z.of_nat (length prompt_ids))%Z
  then Raise (ValueError "The prompt is too long to fit into the model")
  else Ok tt.

(** The arguments of a request. *)
Inductive Params := ParamsSampling (p : SamplingParams) | ParamsPooling.
Record RequestArgs := {
  ra_prompt : PromptType;
  ra_params : Params;
  ra_arrival_time : option Z;
  ra_lora_request : bool;
  ra_trace_headers : bool;
  ra_priority : Z;
}.

Variable preprocess : string → PromptType → result ProcessorInputs.

(** Everything before the multi-modal mapper: the decoder's inputs, the sampling
    parameters and the hashes. None of it changes state. *)
Definition check_inputs (c : Processor) (request_id : string) (a : RequestArgs)
    : result (SingletonInputs * SamplingParams * option (list string)) :=
  if ra_lora_request a && negb (pc_lora_config c) then Raise (ValueError "LoRA is not enabled")
  else if negb (ra_priority a =? 0)%Z then Raise (AssertionError "vLLM V1 does not support priority at the moment.")
  else if ra_trace_headers a then Raise (AssertionError "vLLM V1 does not support tracing yet.")
  else
    mm_hashes ← (if pc_use_hash c then hash_prompt_mm_data (ra_prompt a) else Ok None);
    processed_inputs ← preprocess request_id (ra_prompt a);
    _ ← validate_model_inputs c processed_inputs;
    match processed_inputs with
    | EncoderDecoderInputs _ _ => Raise NotImplementedError
    | DecoderOnlyInputs decoder_inputs =>
      match ra_params a with
      | ParamsPooling => Raise (AssertionError "isinstance(params, SamplingParams)")
      | ParamsSampling params =>
        sampling_params ← update_from_generation_config (pc_generation_config_eos c) (pc_eos_token_id c) params;
        mret (decoder_inputs, sampling_params, mm_hashes)
      end
    end.

(** The code points of a string. *)
Definition code_points (s : string) : text := (λ a, Z.of_N (Ascii.N_of_ascii a)) <$> String.list_ascii_of_string s.

Definition make_detokenizer_request (request_id : string) (i : SingletonInputs) (p : SamplingParams)
    : DetokenizerRequest :=
  {| dr_request_id := request_id; dr_prompt := in_prompt i; dr_prompt_token_ids := in_prompt_token_ids i;
     dr_skip_special_tokens := skip_special_tokens p;
     dr_spaces_between_special_tokens := spaces_between_special_tokens p; dr_output_kind := output_kind p;
     dr_stop := code_points <$> stop_list p; dr_include_stop_str_in_output := include_stop_str_in_output p |}.

Variable multi_modal_input_mapper : Image → ProcKwargs → MultiModalKwargs.

(** [process_inputs]: [now] is the time, used when no arrival time is given. *)
Definition process_inputs (c : Processor) (request_id : string) (a : RequestArgs) (now : Z)
    : M MMInputMapperClient (DetokenizerRequest * EngineCoreRequest) :=
  let arrival_time := default now (ra_arrival_time a) in
  '(decoder_inputs, sampling_params, mm_hashes) ← mlift (check_inputs c request_id a);
  let mm_data := in_multi_modal_data decoder_inputs in
  let precomputed_mm_inputs := match mm_data with Kwargs k => Some [k] | RawData _ => None end in
  mm_inputs ←
    (if bool_decide (0 < multi_modal_len mm_data) then
       l ← client_process_inputs multi_modal_input_mapper
             (match mm_data with RawData d => d | Kwargs _ => [] end) mm_hashes
             (in_mm_processor_kwargs decoder_inputs) precomputed_mm_inputs;
       mret (Some l)
     else mret None);
  mret (make_detokenizer_request request_id decoder_inputs sampling_params,
        {| ecr_request_id := request_id; ecr_prompt := in_prompt decoder_inputs;
           ecr_prompt_token_ids := in_prompt_token_ids decoder_inputs; ecr_mm_inputs := mm_inputs;
           ecr_mm_hashes := mm_hashes; ecr_mm_placeholders := Some (in_multi_modal_placeholders decoder_inputs);
           ecr_sampling_params := sampling_params; ecr_eos_token_id := pc_eos_token_id c;
           ecr_arrival_time := arrival_time |}).

(** * Theorems *)
Lemma code_points_nonempty s : s ≠ EmptyString → code_points s ≠ [].
Proof. by destruct s. Qed.

(** What the checks before the mapper establish. *)
Lemma check_inputs_ok c rid a i p hs : check_inputs c rid a = Ok (i, p, hs) →
  preprocess rid (ra_prompt a) = Ok (DecoderOnlyInputs i) ∧ in_prompt_token_ids i ≠ [] ∧
  (pc_is_multimodal_model c = true → Z.of_nat (length (in_prompt_token_ids i)) ≤ pc_max_model_len c)%Z ∧
  ∃ p0, ra_params a = ParamsSampling p0 ∧
    update_from_generation_config (pc_generation_config_eos c) (pc_eos_token_id c) p0 = Ok p.
Proof.
  rw /check_inputs. destruct (_ && _) => //. destruct (negb _) => //. destruct (ra_trace_headers a) => //.
  destruct (if pc_use_hash c then _ else _) as [h|] => //=. destruct (preprocess rid (ra_prompt a)) as [pi|] => //=.
  rw /validate_model_inputs. destruct pi as [j|]; last by destruct (pc_is_multimodal_model c); repeat case_match.
  case_bool_decide as Hne => //=. destruct (_ && _) eqn:Hlen => //=. destruct (ra_params a) as [p0|] => //=.
  destruct (update_from_generation_config _ _ p0) as [q|] eqn:Hu => //=. move=> [<- <- _].
  split_and!; [done|done| |by eauto]. move=> Hm. rw Hm /= in Hlen. lia.
Qed.
Lemma process_inputs_ok c rid a now m dr er m' :
  process_inputs c rid a now m = Ok (dr, er, m') →
  ∃ i p hs, check_inputs c rid a = Ok (i, p, hs) ∧ dr = make_detokenizer_request rid i p ∧
    ecr_request_id er = rid ∧ ecr_prompt_token_ids er = in_prompt_token_ids i ∧ ecr_sampling_params er = p ∧
    ecr_eos_token_id er = pc_eos_token_id c.
Proof.
  rw /process_inputs /mbind /M_bind /mlift. destruct (check_inputs c rid a) as [[[i p] hs]|] => //.
  destruct (bool_decide _) => //; [|by move=> [<- <- _]; exists i, p, hs].
  destruct (client_process_inputs _ _ _ _ _ m) as [[l m1]|] => //. by move=> [<- <- _]; exists i, p, hs.
Qed.

(** C25: What the processor hands on, for parameters that were constructed: the
    detokenizer and the engine get the same non-empty prompt under the same id
    (within the context length for a multi-modal model), the parameters are
    within their documented ranges, the stop strings the detokenizer looks for
    are not empty, and every token id that can end the request, the model's
    end-of-sequence token included, is one that [min_tokens] suppresses. *)
Theorem processed_request_wf c rid a now m dr er m' p0 p :
  ra_params a = ParamsSampling p → post_init p0 = Ok p →
  process_inputs c rid a now m = Ok (dr, er, m') →
  dr_request_id dr = rid ∧ ecr_request_id er = rid ∧
  dr_prompt_token_ids dr = ecr_prompt_token_ids er ∧ ecr_prompt_token_ids er ≠ [] ∧
  (pc_is_multimodal_model c = true → Z.of_nat (length (ecr_prompt_token_ids er)) ≤ pc_max_model_len c)%Z ∧
  valid_args (ecr_sampling_params er) ∧ Forall (λ s, s ≠ []) (dr_stop dr) ∧
  stops_suppressed (ecr_sampling_params er) ∧
  (∀ e, ecr_eos_token_id er = Some e → e ∈ all_stop_token_ids (ecr_sampling_params er)).
Proof.
  move=> Hp Hi /process_inputs_ok [i [q [hs [/check_inputs_ok [_ [Hne [Hlen [p1 [Hp1 Hu]]]]] [-> [-> [-> [-> ->]]]]]]]].
  rw Hp in Hp1. injection Hp1 as <-.
  destruct (stop_ids_suppressed _ _ (pc_generation_config_eos c) (pc_eos_token_id c) Hi) as (q' & Hu' & Hs & He & _).
  rw Hu in Hu'. injection Hu' as <-.
  have Hv : valid_args q by apply (only_stops_valid p); [by eapply update_only_stops|by eapply post_init_valid].
  split_and!; try done. rw /= Forall_forall => t /list_elem_of_fmap [s [-> /(va_stop _ Hv) [Hs' _]]].
  by apply code_points_nonempty.
Qed.

(** A text prompt that contains the name of the dictionary key is taken for a
    dictionary and refused with a [TypeError]. *)
Lemma prompt_text_mistaken c rid a s :
  pc_use_hash c = true → ra_lora_request a = false → ra_priority a = 0%Z → ra_trace_headers a = false →
  ra_prompt a = PromptText s → str_contains "multi_modal_data" s = true →
  check_inputs c rid a = Raise (TypeError "string indices must be integers").
Proof. move=> H1 H2 H3 H4 H5 H6. by rw /check_inputs H1 H2 H3 H4 H5 /= H6. Qed.
End processor.

(** A processor over code points: the prompt is its own tokenization. *)
Definition demo_preprocess (rid : string) (p : PromptType (Image:=unit) (PromptBody:=unit))
    : result (ProcessorInputs (Image:=unit) (ProcKwargs:=unit)) :=
  match p with
  | PromptText s => Ok (DecoderOnlyInputs (TokenInputs (Some s) (Some (code_points s)) None None None))
  | PromptDict _ _ => Raise (ValueError "prompt")
  end.
Definition demo_processor : Processor := processor_init false (Some (EosId 7)) false 100 false true (Some 2%Z).
Definition demo_args (s : string) (p : SamplingParams) : RequestArgs (Image:=unit) (PromptBody:=unit) :=
  {| ra_prompt := PromptText s; ra_params := ParamsSampling p; ra_arrival_time := None; ra_lora_request := false;
     ra_trace_headers := false; ra_priority := 0 |}.
Lemma processed_request_wf_witness :
  ∃ p dr er m', post_init demo_stop_params = Ok p ∧
    process_inputs tt (λ _, 0) (λ _, None) demo_preprocess (λ _ _, {| mmk_handle := 0 |}) demo_processor "a"
      (demo_args "hi" p) 5 (mm_client_init false) = Ok (dr, er, m') ∧
    dr_prompt_token_ids dr = ecr_prompt_token_ids er ∧ dr_stop dr = [[69; 78; 68]%Z] ∧
    valid_args (ecr_sampling_params er).
Proof.
  destruct (post_init demo_stop_params) as [p|] eqn:E; last by vm_compute in E.
  destruct (process_inputs tt (λ _, 0) (λ _, None) demo_preprocess (λ _ _, {| mmk_handle := 0 |}) demo_processor "a"
      (demo_args "hi" p) 5 (mm_client_init false)) as [[[dr er] m']|] eqn:R.
  2: { vm_compute in E. injection E as <-. by vm_compute in R. }
  destruct (processed_request_wf tt (λ _, 0) (λ _, None) demo_preprocess (λ _ _, {| mmk_handle := 0 |})
    demo_processor "a" (demo_args "hi" p) 5 (mm_client_init false) dr er m' demo_stop_params p eq_refl E R)
    as (_ & _ & H3 & _ & _ & H6 & _).
  exists p, dr, er, m'. split; first reflexivity. split; first exact R. split; first exact H3. split; last exact H6.
  vm_compute in E. injection E as <-. vm_compute in R. injection R as <- _ _. reflexivity.
Defined.
