(* ===== verification/Frontend.v ===== *)
(** The asynchronous client: [AsyncLLM] of vllm/v1/engine/async_llm.py with the
    messages [AsyncMPClient] of core_client.py puts on the input socket.

    The coroutines run in one thread and are interleaved only where they await.
    The model has one operation per section of code between two such points, and
    the runs ([fe_run]) are the sequences of these sections: a call of [generate]
    up to the sending of the request, its continuation, each item it takes from
    its queue, its cancellation, the two halves of [abort], and a turn of the
    output handler. The queues are objects: [rid_to_queue] holds their addresses,
    and so does the coroutine that reads one, which may keep it longer. A message
    counts as sent when its sending is started.

    The processor is used through the class [RequestProcessor]. An exception of
    the output handler or of the multi-modal mapper ends the modelled run; an
    exception of [generate] ends that coroutine. Logging and times are left out. *)
From Stdlib Require Import ssreflect ZArith Lia.
From stdpp Require Import base numbers list gmap strings.
From S2P Require Import Prelude SamplingParams KVCacheBlock Request FreeQueue BlockHash KVCacheManager EncoderCache Scheduler LRUCache MMInputMapper EngineCore Detokenizer DetokTheorems Processor.

(** * What the client needs of the processor *)
Class RequestProcessor (Args : Type) := {
  (** the checks before the multi-modal mapper *)
  rp_check : string → Args → result unit;
  rp_process : string → Args → Z → M MMInputMapperClient (DetokenizerRequest * EngineCoreRequest);
  rp_check_raises rid a now m e : rp_check rid a = Raise e → rp_process rid a now m = Raise e;
  rp_id rid a now m dr er m' : rp_process rid a now m = Ok (dr, er, m') →
    dr_request_id dr = rid ∧ ecr_request_id er = rid;
}.
#[global] Hint Mode RequestProcessor ! : typeclass_instances.

Section processor_instance.
Context {Image ProcKwargs PromptBody : Type} (no_kwargs : ProcKwargs) (kwargs_len : MultiModalKwargs → nat)
  (image_hash : Image → option string)
  (preprocess : string → PromptType (Image:=Image) (PromptBody:=PromptBody) → result (ProcessorInputs (Image:=Image) (ProcKwargs:=ProcKwargs)))
  (mapper : Image → ProcKwargs → MultiModalKwargs) (c : Processor).
#[program] Definition processor_requests : RequestProcessor (RequestArgs (Image:=Image) (PromptBody:=PromptBody)) := {|
  rp_check rid a := _ ← check_inputs image_hash preprocess c rid a; mret tt;
  rp_process rid a now := process_inputs no_kwargs kwargs_len image_hash preprocess mapper c rid a now;
|}.
Next Obligation.
  move=> rid a now m e. rw /= /process_inputs /mbind /M_bind /mlift.
  by destruct (check_inputs image_hash preprocess c rid a) as [[[? ?] ?]|] => //= [[->]].
Qed.
Next Obligation.
  intros rid a now m dr er m' H. destruct (process_inputs_ok _ _ _ _ _ _ _ _ _ _ _ _ _ H) as (i & p & hs & _ & -> & -> & _). done.
Qed.
End processor_instance.

(** * State *)
Inductive TaskStatus := Adding | Streaming | Done | Cancelled | Failed (e : exn).

(** An item of a queue: a request output and the observability put on it. *)
Abbreviation Item := (RequestOutput * option Observability)%type.

(** A call of [generate]: [tk_queue] is its local [q]. *)
Record Task := {
  tk_request_id : string;
  tk_queue : option nat;
  tk_yielded : list Item;
  tk_status : TaskStatus;
}.
Record AsyncLLM := {
  mm_client : MMInputMapperClient;
  rid_to_queue : dict string nat;
  queues : list (list Item);
  request_states : dict string IncrementalDetokenizer;
  to_core : list ClientRequest;
  output_handler : bool;
  aborting : list string;
  tasks : list Task;
}.

(** Attribute stores. *)
Definition set_tk_queue (v : option nat) (r : Task) : Task :=
  {| tk_request_id := tk_request_id r; tk_queue := v; tk_yielded := tk_yielded r; tk_status := tk_status r |}.
Definition set_tk_yielded (v : list Item) (r : Task) : Task :=
  {| tk_request_id := tk_request_id r; tk_queue := tk_queue r; tk_yielded := v; tk_status := tk_status r |}.
Definition set_tk_status (v : TaskStatus) (r : Task) : Task :=
  {| tk_request_id := tk_request_id r; tk_queue := tk_queue r; tk_yielded := tk_yielded r; tk_status := v |}.
Definition set_mm_client (v : MMInputMapperClient) (r : AsyncLLM) : AsyncLLM :=
  {| mm_client := v; rid_to_queue := rid_to_queue r; queues := queues r; request_states := request_states r; to_core := to_core r; output_handler := output_handler r; aborting := aborting r; tasks := tasks r |}.
Definition set_rid_to_queue (v : dict string nat) (r : AsyncLLM) : AsyncLLM :=
  {| mm_client := mm_client r; rid_to_queue := v; queues := queues r; request_states := request_states r; to_core := to_core r; output_handler := output_handler r; aborting := aborting r; tasks := tasks r |}.
Definition set_queues (v : list (list Item)) (r : AsyncLLM) : AsyncLLM :=
  {| mm_client := mm_client r; rid_to_queue := rid_to_queue r; queues := v; request_states := request_states r; to_core := to_core r; output_handler := output_handler r; aborting := aborting r; tasks := tasks r |}.
Definition set_request_states (v : dict string IncrementalDetokenizer) (r : AsyncLLM) : AsyncLLM :=
  {| mm_client := mm_client r; rid_to_queue := rid_to_queue r; queues := queues r; request_states := v; to_core := to_core r; output_handler := output_handler r; aborting := aborting r; tasks := tasks r |}.
Definition set_to_core (v : list ClientRequest) (r : AsyncLLM) : AsyncLLM :=
  {| mm_client := mm_client r; rid_to_queue := rid_to_queue r; queues := queues r; request_states := request_states r; to_core := v; output_handler := output_handler r; aborting := aborting r; tasks := tasks r |}.
Definition set_output_handler (v : bool) (r : AsyncLLM) : AsyncLLM :=
  {| mm_client := mm_client r; rid_to_queue := rid_to_queue r; queues := queues r; request_states := request_states r; to_core := to_core r; output_handler := v; aborting := aborting r; tasks := tasks r |}.
Definition set_aborting (v : list string) (r : AsyncLLM) : AsyncLLM :=
  {| mm_client := mm_client r; rid_to_queue := rid_to_queue r; queues := queues r; request_states := request_states r; to_core := to_core r; output_handler := output_handler r; aborting := v; tasks := tasks r |}.
Definition set_tasks (v : list Task) (r : AsyncLLM) : AsyncLLM :=
  {| mm_client := mm_client r; rid_to_queue := rid_to_queue r; queues := queues r; request_states := request_states r; to_core := to_core r; output_handler := output_handler r; aborting := aborting r; tasks := v |}.
Abbreviation FE := (M AsyncLLM).

Definition async_llm_init (disable_mm_preprocessor_cache : bool) : AsyncLLM :=
  {| mm_client := mm_client_init disable_mm_preprocessor_cache; rid_to_queue := []; queues := [];
     request_states := []; to_core := []; output_handler := false; aborting := []; tasks := [] |}.

(** [_send_input] of the client; the abort message is left out when it names no
    request. *)
Definition send_input (r : ClientRequest) : FE unit := mmodify (λ s, set_to_core (to_core s ++ [r]) s).
Definition add_request_async (r : EngineCoreRequest) : FE unit := send_input (ReqAdd r).
Definition abort_requests_async (request_ids : list string) : FE unit :=
  mwhen (bool_decide (0 < length request_ids)) (send_input (ReqAbort request_ids)).

Definition new_task (request_id : string) (st : TaskStatus) : FE unit :=
  mmodify (λ s, set_tasks (tasks s ++ [{| tk_request_id := request_id; tk_queue := None; tk_yielded := [];
                                         tk_status := st |}]) s).
Definition update_task (t : nat) (f : Task → Task) : FE unit := mmodify (λ s, set_tasks (alter f t (tasks s)) s).
Definition finish_task (t : nat) (st : TaskStatus) : FE unit := update_task t (set_tk_status st).

(** [self.rid_to_queue[request_id] = asyncio.Queue()] *)
Definition register_queue (request_id : string) : FE unit :=
  mmodify (λ s, set_rid_to_queue (dset (rid_to_queue s) request_id (length (queues s)))
                  (set_queues (queues s ++ [[]]) s)).

(** Run a computation that raises, if at all, before it changes the state, and
    go on with its result. *)
Definition attempt {A} (m : FE A) : FE (result A) :=
  λ s, match m s with Ok (a, s') => Ok (Ok a, s') | Raise e => Ok (Raise e, s) end.

Section client.
Context (tokenizer : Tokenizer) {Args : Type} {RP : RequestProcessor Args}.

(** * [generate] *)

(** A call up to the sending of the request. The queue is registered before the
    request is checked. *)
Definition generate (request_id : string) (a : Args) (now : Z) : FE unit :=
  mmodify (set_output_handler true);;;
  s ← mget;
  if dmem (rid_to_queue s) request_id then new_task request_id (Failed (ValueError "already running"))
  else
    register_queue request_id;;;
    match rp_check request_id a with
    | Raise e => new_task request_id (Failed e)
    | Ok _ =>
      '(detokenizer_req, engine_core_req) ← zoom mm_client set_mm_client (rp_process request_id a now);
      added ← attempt (zoom request_states set_request_states (det_add_request tokenizer detokenizer_req));
      match added with
      | Raise e => new_task request_id (Failed e)
      | Ok _ => add_request_async engine_core_req;;; new_task request_id Adding
      end
    end.

(** [return self.rid_to_queue[request_id]] and the assignment to [q] *)
Definition resume_add (t : nat) : FE unit :=
  s ← mget;
  match tasks s !! t with
  | None => mret tt
  | Some tk =>
    match dget (rid_to_queue s) (tk_request_id tk) with
    | Some q => update_task t (λ tk, set_tk_status Streaming (set_tk_queue (Some q) tk))
    | None => finish_task t (Failed (KeyError "request_id"))
    end
  end.

(** One turn of the loop; on an empty queue the coroutine keeps waiting. *)
Definition next_output (t : nat) : FE unit :=
  s ← mget;
  match tasks s !! t with
  | None => mret tt
  | Some tk =>
    match tk_queue tk with
    | None => mret tt
    | Some q =>
      match queues s !! q with
      | Some (out :: rest) =>
        mmodify (λ s, set_queues (<[q := rest]> (queues s)) s);;;
        let yield := update_task t (λ tk, set_tk_yielded (tk_yielded tk ++ [out]) tk) in
        if ro_finished out.1 then
          if dmem (rid_to_queue s) (tk_request_id tk) then
            mmodify (λ s, set_rid_to_queue (ddel (rid_to_queue s) (tk_request_id tk)) s);;;
            yield;;;
            finish_task t Done
          else finish_task t (Failed (KeyError "request_id"))
        else yield
      | _ => mret tt
      end
    end
  end.

(** * [abort] *)
Definition abort_call (request_id : string) : FE unit :=
  abort_requests_async [request_id];;;
  mmodify (λ s, set_aborting (aborting s ++ [request_id]) s).
Definition remove_first (x : string) (l : list string) : list string :=
  match list_find (x =.) l with Some (i, _) => delete i l | None => l end.
Definition abort_return (request_id : string) : FE unit :=
  mmodify (λ s, set_aborting (remove_first request_id (aborting s)) s);;;
  zoom request_states set_request_states (Detokenizer.abort_requests [request_id]);;;
  mmodify (λ s, set_rid_to_queue (ddel (rid_to_queue s) request_id) s).

(** The coroutine is cancelled where it waits, and aborts its request. *)
Definition cancel (t : nat) : FE unit :=
  s ← mget;
  match tasks s !! t with
  | None => mret tt
  | Some tk => finish_task t Cancelled;;; abort_call (tk_request_id tk)
  end.

(** * The output handler *)
Definition process_request_outputs (request_outputs : list RequestOutput) (observability : option Observability)
    : FE unit :=
  mfor request_outputs (λ o,
    s ← mget;
    match dget (rid_to_queue s) (ro_request_id o) with
    | Some q => mmodify (λ s, set_queues (alter (λ l, l ++ [(o, observability)]) q (queues s)) s)
    | None => mret tt
    end).
(** One turn of [_run_output_handler]. *)
Definition handle_outputs (outputs : list EngineCoreOutput) (observability : option Observability) : FE unit :=
  '(request_outputs, reqs_to_abort) ←
    zoom request_states set_request_states (Detokenizer.step tokenizer outputs);
  process_request_outputs request_outputs observability;;;
  abort_requests_async reqs_to_abort.

(** * Runs *)
Inductive Event :=
  | Generate (request_id : string) (a : Args) (now : Z)
  | ResumeAdd (t : nat)
  | NextOutput (t : nat)
  | Cancel (t : nat)
  | AbortCall (request_id : string)
  | AbortReturn (request_id : string)
  | HandleOutputs (outputs : list EngineCoreOutput) (observability : option Observability).

Definition has_status (s : AsyncLLM) (t : nat) (st : TaskStatus) : Prop :=
  ∃ tk, tasks s !! t = Some tk ∧ tk_status tk = st.
(** The sections that can run next. *)
Definition enabled (s : AsyncLLM) (ev : Event) : Prop :=
  match ev with
  | Generate _ _ _ | AbortCall _ => True
  | ResumeAdd t => has_status s t Adding
  | NextOutput t => has_status s t Streaming
  | Cancel t => has_status s t Adding ∨ has_status s t Streaming
  | AbortReturn rid => rid ∈ aborting s
  | HandleOutputs _ _ => output_handler s = true
  end.
Definition run_event (ev : Event) : FE unit :=
  match ev with
  | Generate rid a now => generate rid a now
  | ResumeAdd t => resume_add t
  | NextOutput t => next_output t
  | Cancel t => cancel t
  | AbortCall rid => abort_call rid
  | AbortReturn rid => abort_return rid
  | HandleOutputs outputs obs => handle_outputs outputs obs
  end.
Inductive fe_run (s : AsyncLLM) : list Event → AsyncLLM → Prop :=
  | fr_nil : fe_run s [] s
  | fr_snoc evs s1 ev s2 :
      fe_run s evs s1 → enabled s1 ev → run_event ev s1 = Ok (tt, s2) → fe_run s (evs ++ [ev]) s2.
Definition fe_reach (s : AsyncLLM) : Prop := ∃ no_cache evs, fe_run (async_llm_init no_cache) evs s.
End client.
Arguments Event Args : clear implicits.
