(* ===== verification/FrontTheorems.v ===== *)
(** The asynchronous client: every call of [generate] receives exactly the outputs
    of its own request, the output handler does not die, and what a refused
    request and a stop string leave behind. *)
From Stdlib Require Import ssreflect ZArith Lia.
From stdpp Require Import base numbers list gmap strings.
From S2P Require Import Prelude SamplingParams KVCacheBlock Request FreeQueue BlockHash KVCacheManager EncoderCache Scheduler LRUCache MMInputMapper EngineCore EngineTheorems Detokenizer DetokTheorems Processor Frontend.

(** * One request of the detokenizer *)

(** What adding tokens does not change or only extends. *)
Record grown (d d' : IncrementalDetokenizer) : Prop := {
  gr_id : det_request_id d' = det_request_id d;
  gr_prompt : det_prompt_token_ids d' = det_prompt_token_ids d;
  gr_ids : length (det_token_ids d) ≤ length (det_token_ids d');
}.
#[export] Instance grown_preorder : PreOrder grown.
Proof. split; [by split|]. move=> a b c [? ? ?] [? ? ?]. split; [congruence|congruence|lia]. Qed.

(** A computation that moves the state along a preorder. *)
Definition moves {S A} (R : relation S) (m : M S A) : Prop := ∀ s a s', m s = Ok (a, s') → R s s'.
Section moves.
Context {S : Type} (R : relation S) `{!PreOrder R}.
Lemma moves_ret {A} (a : A) : moves R (mret a).
Proof. by move=> s ? ? [= _ <-]. Qed.
Lemma moves_get : moves R mget.
Proof. by move=> s ? ? [= _ <-]. Qed.
Lemma moves_lift {A} (r : result A) : moves R (mlift r).
Proof. rw /mlift. move=> s ? ?. by destruct r; [move=> [= _ <-]|]. Qed.
Lemma moves_modify f : (∀ s, R s (f s)) → moves R (mmodify f).
Proof. by move=> H s ? ? [= _ <-]. Qed.
Lemma moves_bind {A B} (m : M S A) (f : A → M S B) : moves R m → (∀ a, moves R (f a)) → moves R (mbind f m).
Proof.
  move=> Hm Hf s b s'. rw /mbind /M_bind. destruct (m s) as [[a s1]|] eqn:E => //. move=> H.
  transitivity s1; [by eapply Hm|by eapply Hf].
Qed.
Lemma moves_fold {A B} (l : list A) (f : B → A → M S B) : (∀ b x, moves R (f b x)) → ∀ b, moves R (mfold l b f).
Proof. move=> Hf. elim: l => [|x l IH] b /=; [apply moves_ret|apply moves_bind; auto]. Qed.
End moves.

Abbreviation chunk := (list Z * option string * option StopReason)%type.

Section detok.
Context (tokenizer : Tokenizer).

Lemma decode_token_grown acc x : moves grown (decode_token tokenizer acc x).
Proof.
  rw /decode_token. apply moves_bind; [apply _|apply moves_modify|move=> _].
  { move=> s. split; simpl; rw ?length_app //; lia. }
  apply moves_bind; [apply _|apply moves_get, _|move=> d].
  apply moves_bind; [apply _|apply moves_lift, _|move=> [[[? ?] ?] ?]].
  repeat (apply moves_bind; [apply _|apply moves_modify => ?; by split|move=> _]). apply moves_ret, _.
Qed.
Lemma apply_stop_grown t fr sr : moves grown (apply_stop_strings t fr sr).
Proof.
  rw /apply_stop_strings. apply moves_bind; [apply _|apply moves_get, _|move=> d].
  destruct (check_stop_strings _ _ _ _) as [[s [n|]]|].
  - apply moves_bind; [apply _|apply moves_modify => ?; by split|move=> _]. apply moves_ret, _.
  - apply moves_bind; [apply _|apply moves_ret, _|move=> _]. apply moves_ret, _.
  - apply moves_ret, _.
Qed.
Lemma next_text_grown finished delta : moves grown (get_next_output_text finished delta).
Proof.
  rw /get_next_output_text. apply moves_bind; [apply _|apply moves_get, _|move=> d].
  destruct (negb delta); [apply moves_ret, _|]. destruct (_ <? _)%Z; [|apply moves_ret, _].
  apply moves_bind; [apply _|apply moves_modify => ?; by split|move=> _]. apply moves_ret, _.
Qed.
Lemma add_tokens_grown ids fr sr : moves grown (add_tokens tokenizer ids fr sr).
Proof.
  rw /add_tokens. apply moves_bind; [apply _|apply moves_fold; [apply _|move=> *; apply decode_token_grown]|move=> t].
  apply moves_bind; [apply _|apply apply_stop_grown|move=> [fr' sr']].
  apply moves_bind; [apply _|apply moves_get, _|move=> d]. destruct (_ && _); [apply moves_ret, _|].
  apply moves_bind; [apply _|apply next_text_grown|move=> ?].
  apply moves_bind; [apply _| |move=> ?; apply moves_ret, _]. case_bool_decide; [apply moves_ret, _|].
  apply moves_bind; [apply _|apply moves_get, _|move=> ?]. apply moves_lift, _.
Qed.
(** The output carries the id of the request. *)
Lemma add_tokens_id ids fr sr d out d' :
  add_tokens tokenizer ids fr sr d = Ok (Some out, d') → ro_request_id out = det_request_id d.
Proof.
  rw /add_tokens /mbind /M_bind.
  destruct (mfold ids [] _ d) as [[t d1]|] eqn:E1 => //. apply (moves_fold grown) in E1; last by move=> *; apply decode_token_grown.
  destruct (apply_stop_strings t fr sr d1) as [[[fr' sr'] d2]|] eqn:E2 => //. apply apply_stop_grown in E2. rw /mget.
  destruct (_ && _) => //. destruct (get_next_output_text _ _ d2) as [[o d3]|] => //.
  match goal with |- context [match ?m with Ok _ => _ | Raise _ => _ end] => destruct m as [[? ?]|] => // end.
  move=> [= <- _] /=. by rw (gr_id _ _ E2) (gr_id _ _ E1).
Qed.

(** ** A request among the others *)
Definition chunk_of (o : EngineCoreOutput) : chunk :=
  (eco_new_token_ids o, eco_finish_reason o, ReasonToken <$> eco_stop_reason o).
(** The chunks addressed to a request. *)
Definition chunks_of (rid : string) (outputs : list EngineCoreOutput) : list chunk :=
  chunk_of <$> filter (λ o, eco_request_id o = rid) outputs.
Definition outputs_of (rid : string) (l : list RequestOutput) : list RequestOutput :=
  filter (λ o, ro_request_id o = rid) l.

Lemma stream_app c1 c2 : ∀ d o1 d1, stream tokenizer c1 d = Ok (o1, d1) →
  stream tokenizer (c1 ++ c2) d = if stream_finished o1 then Ok (o1, d1)
    else '(o2, d2) ← stream tokenizer c2 d1; mret (o1 ++ o2, d2).
Proof.
  elim: c1 => [|[[ids fr] sr] c1 IH] d o1 d1; cbn [stream app].
  { move=> [= <- <-] /=. by destruct (stream tokenizer c2 d) as [[? ?]|]. }
  destruct (add_tokens tokenizer ids fr sr d) as [[[out|] d']|] => //=; last by apply IH.
  destruct (ro_finished out) eqn:Hf; first by move=> [= <- <-] /=; rw /stream_finished /= Hf.
  destruct (stream tokenizer c1 d') as [[o d'']|] eqn:E => //= [= <- <-].
  rw (IH _ _ _ E) /stream_finished /= Hf /=. destruct (existsb ro_finished o); first done.
  by destruct (stream tokenizer c2 d'') as [[? ?]|].
Qed.
Lemma stream_grown chunks : ∀ d outs d', stream tokenizer chunks d = Ok (outs, d') → grown d d'.
Proof.
  elim: chunks => [|[[ids fr] sr] c IH] d outs d'; cbn [stream]; first by move=> [= _ <-].
  destruct (add_tokens tokenizer ids fr sr d) as [[r d1]|] eqn:E => //=. have Hg := add_tokens_grown _ _ _ _ _ _ E.
  destruct r as [o|]; last by move=> /IH ?; etrans.
  destruct (ro_finished o); first by move=> [= _ <-].
  destruct (stream tokenizer c d1) as [[os d2]|] eqn:E2 => //= [= _ <-]. etrans; [exact Hg|by eapply IH].
Qed.
Lemma stream_finished_last chunks : ∀ d outs d', stream tokenizer chunks d = Ok (outs, d') →
  ∀ pre out suf, outs = pre ++ out :: suf → ro_finished out = true → suf = [].
Proof.
  elim: chunks => [|[[ids fr] sr] c IH] d outs d'; cbn [stream]; first by move=> [= <- _] [].
  destruct (add_tokens tokenizer ids fr sr d) as [[[o|] d1]|] => //=; last by apply IH.
  destruct (ro_finished o) eqn:Hf; first by move=> [= <- _] [|? [|? ?]] out suf [=].
  destruct (stream tokenizer c d1) as [[os d2]|] eqn:E => //= [= <- _].
  move=> [|x pre] out suf /= [= H1 H2] Ho; [congruence|by eapply IH].
Qed.

(** The states are kept under their ids. *)
Definition keyed (st : dict string IncrementalDetokenizer) : Prop :=
  dict_wf st ∧ ∀ k d, dget st k = Some d → det_request_id d = k.

Lemma keyed_dset st k d : keyed st → det_request_id d = k → keyed (dset st k d).
Proof.
  move=> [H1 H2] Hd. split; first by apply dict_wf_dset. move=> k' d'. rw dget_dset. case_decide; [|by apply H2].
  by move=> [= <-]; subst.
Qed.
Lemma keyed_ddel st k : keyed st → keyed (ddel st k).
Proof.
  move=> [H1 H2]. split; first by apply dict_wf_ddel. move=> k' d'. rw dget_ddel //. case_decide; [done|by apply H2].
Qed.

Lemma step_output_ok acc o st acc' st' : step_output tokenizer acc o st = Ok (acc', st') →
  match dget st (eco_request_id o) with
  | None => acc' = acc ∧ st' = st
  | Some d => ∃ r d', add_tokens tokenizer (eco_new_token_ids o) (eco_finish_reason o) (ReasonToken <$> eco_stop_reason o) d
        = Ok (r, d') ∧
      match r with
      | None => acc' = acc ∧ st' = dset st (eco_request_id o) d'
      | Some out => acc'.1 = acc.1 ++ [out] ∧
          st' = if ro_finished out then ddel st (eco_request_id o) else dset st (eco_request_id o) d'
      end
  end.
Proof.
  rw /step_output /mbind /M_bind /mget. destruct (dget st (eco_request_id o)) as [d|]; last by move=> [= <- <-].
  rw /mlift. destruct (add_tokens _ _ _ _ d) as [[r d']|] eqn:E => //. rw /mmodify. move=> H. exists r, d'.
  split; first done. destruct r as [out|]; last by injection H as <- <-.
  destruct (ro_finished out); injection H as <- <-; [|done]. by rw ddel_dset.
Qed.

(** The run of the detokenizer, seen by one request. *)
Lemma step_project outputs : ∀ acc st acc' st', keyed st →
  mfold outputs acc (step_output tokenizer) st = Ok (acc', st') →
  keyed st' ∧ ∀ rid,
    match dget st rid with
    | None => dget st' rid = None ∧ outputs_of rid acc'.1 = outputs_of rid acc.1
    | Some d => ∃ outs d', stream tokenizer (chunks_of rid outputs) d = Ok (outs, d') ∧
        outputs_of rid acc'.1 = outputs_of rid acc.1 ++ outs ∧
        dget st' rid = if stream_finished outs then None else Some d'
    end.
Proof.
  elim: outputs => [|o outputs IH] acc st acc' st' HK.
  { move=> [= <- <-]. split; first done. move=> rid. destruct (dget st rid) as [d|] eqn:E; [|done].
    exists [], d. by rw app_nil_r. }
  cbn [mfold]. rw {1}/mbind /M_bind. destruct (step_output _ acc o st) as [[acc1 st1]|] eqn:E => // Hrun.
  apply step_output_ok in E. destruct (dget st (eco_request_id o)) as [d|] eqn:Ed; last first.
  { destruct E as [-> ->]. destruct (IH _ _ _ _ HK Hrun) as [HK' H]. split; first done. move=> rid. have {H} := H rid.
    rw /chunks_of filter_cons. case_decide as Hr; [subst; by rw Ed|done]. }
  destruct E as (r & d' & Hadd & Hr). have Hg := add_tokens_grown _ _ _ _ _ _ Hadd. have Hid := proj2 HK _ _ Ed.
  have Hid' : det_request_id d' = eco_request_id o by rw (gr_id _ _ Hg).
  have HK1 : keyed st1.
  { destruct r as [out|]; destruct Hr as [_ ->]; [destruct (ro_finished out)|]; by [apply keyed_ddel|apply keyed_dset]. }
  destruct (IH _ _ _ _ HK1 Hrun) as [HK' H]. split; first done. move=> rid. have {H} := H rid.
  rw /chunks_of filter_cons. case_decide as Hrid; last first.
  { have -> : dget st1 rid = dget st rid.
    { destruct r as [out|]; destruct Hr as [_ ->]; [destruct (ro_finished out)|]; by [rw dget_ddel_ne|rw dget_dset_ne]. }
    have -> : outputs_of rid acc1.1 = outputs_of rid acc.1; last done.
    destruct r as [out|]; destruct Hr as [Ha _]; last by subst.
    rw Ha /outputs_of filter_app filter_cons_False ?app_nil_r //. by rw (add_tokens_id _ _ _ _ _ _ Hadd) Hid. }
  subst rid. rw Ed fmap_cons /chunk_of. cbn [stream]. rw Hadd. cbn.
  destruct r as [out|]; destruct Hr as [Ha ->]; last by rw dget_dset_eq Ha.
  have Hout := add_tokens_id _ _ _ _ _ _ Hadd.
  have Hacc : outputs_of (eco_request_id o) acc1.1 = outputs_of (eco_request_id o) acc.1 ++ [out].
  { rw Ha /outputs_of filter_app filter_cons_True //. congruence. }
  destruct (ro_finished out) eqn:Hf.
  - rw dget_ddel_eq; first by destruct HK. move=> [H1 H2]. exists [out], d'. rw H2 Hacc /stream_finished /= Hf. done.
  - rw dget_dset_eq. move=> [outs [d2 [H1 [H2 H3]]]]. rw H1. exists (out :: outs), d2. cbn.
    rw H2 Hacc -app_assoc /stream_finished /= Hf. done.
Qed.

(** ** Nothing raises with a tokenizer that does not *)
Lemma apply_stop_total t fr sr d : ∃ r d', apply_stop_strings t fr sr d = Ok (r, d') ∧ grown d d'.
Proof.
  have [r [d' H]] : ∃ r d', apply_stop_strings t fr sr d = Ok (r, d').
  { rw /apply_stop_strings /mbind /M_bind /mget. destruct (check_stop_strings _ _ _ _) as [[? [?|]]|]; by do 2 eexists. }
  exists r, d'. split; [done|by eapply apply_stop_grown].
Qed.
Lemma next_text_total finished delta d : ∃ r d', get_next_output_text finished delta d = Ok (r, d') ∧ grown d d'.
Proof.
  have [r [d' H]] : ∃ r d', get_next_output_text finished delta d = Ok (r, d').
  { rw /get_next_output_text /mbind /M_bind /mget. destruct (negb delta); [by do 2 eexists|].
    destruct (_ <? _)%Z; by do 2 eexists. }
  exists r, d'. split; [done|by eapply next_text_grown].
Qed.
Lemma add_tokens_total ids fr sr d : Total tokenizer →
  length (det_prompt_token_ids d) ≤ length (det_token_ids d) → ∃ r d', add_tokens tokenizer ids fr sr d = Ok (r, d').
Proof.
  move=> HT Hlen. rw /add_tokens /mbind /M_bind. destruct (decode_all tokenizer ids [] d) as (t & d1 & R1 & _). rw R1.
  have G1 : grown d d1 by apply (moves_fold grown ids (decode_token tokenizer) decode_token_grown [] _ _ _ R1).
  destruct (apply_stop_total ([] ++ t) fr sr d1) as ([fr' sr'] & d2 & -> & G2). rw /mget.
  destruct (_ && _); first by do 2 eexists.
  match goal with |- context [get_next_output_text ?f ?b d2] => destruct (next_text_total f b d2) as (o & d3 & -> & G3) end.
  have [G4 G5 G6] : grown d d3 by do 2 (etrans; [eassumption|]).
  case_bool_decide; first by do 2 eexists. rw /mlift /output_token_ids G5 bool_decide_eq_true_2; [lia|by do 2 eexists].
Qed.
Definition prompts_kept (st : dict string IncrementalDetokenizer) : Prop :=
  ∀ k d, dget st k = Some d → length (det_prompt_token_ids d) ≤ length (det_token_ids d).
Lemma step_total outputs : Total tokenizer → ∀ acc st, keyed st → prompts_kept st →
  ∃ r, mfold outputs acc (step_output tokenizer) st = Ok r.
Proof.
  move=> HT. elim: outputs => [|o outputs IH] acc st HK HP; first by eexists.
  assert (∃ acc1 st1, step_output tokenizer acc o st = Ok (acc1, st1)) as (acc1 & st1 & E).
  { rw /step_output /mbind /M_bind /mget. destruct (dget st (eco_request_id o)) as [d|] eqn:Ed; [|by do 2 eexists].
    destruct (add_tokens_total (eco_new_token_ids o) (eco_finish_reason o) (ReasonToken <$> eco_stop_reason o) d HT
      (HP _ _ Ed)) as ([out|] & d' & Ha); rw /mlift Ha /mmodify; [|by do 2 eexists].
    by destruct (ro_finished out); do 2 eexists. }
  cbn [mfold]. rw /mbind /M_bind E.
  have E' : mfold [o] acc (step_output tokenizer) st = Ok (acc1, st1) by cbn [mfold]; rw /mbind /M_bind E.
  destruct (step_project [o] acc st acc1 st1 HK E') as [HK1 H1]. apply IH; first done.
  move=> k d1 Hd1. have := H1 k. destruct (dget st k) as [d|] eqn:Ed; last by move=> []; congruence.
  move=> [outs [d' [S1 [_ S3]]]]. apply stream_grown in S1 as [G1 G2 G3]. rw Hd1 in S3.
  destruct (stream_finished outs); first done. injection S3 as ->. have := HP _ _ Ed. rw G2. lia.
Qed.
End detok.

(** * The client *)
Lemma alter_alter {A} (f g : A → A) (l : list A) i : alter f i (alter g i l) = alter (f ∘ g) i l.
Proof. elim: l i => [|x l IH] [|i] //=. by rw /alter in IH; rw IH. Qed.

(** An abort in the input queue ends the turn of the busy loop. *)
Lemma mfor_raises {S A} (f : A → M S unit) l x : x ∈ l → (∀ s, ∃ e, f x s = Raise e) → ∀ s, ∃ e, mfor l f s = Raise e.
Proof.
  move=> Hx Hf. elim: l Hx => [|y l IH]; first by move=> /elem_of_nil. cbn [mfor].
  move=> /elem_of_cons [<-|Hx] s; rw /mbind /M_bind.
  - destruct (Hf s) as [e ->]. by eexists.
  - destruct (f y s) as [[u s']|e]; [by apply IH|by eexists].
Qed.

Lemma abort_ends_turn py_hash ids e : ReqAbort ids ∈ input_queue e → ∃ x, busy_turn py_hash e = Raise x.
Proof.
  move=> Hin. rw /busy_turn /mbind /M_bind /mget bool_decide_eq_false_2.
  { move=> Hq. rw Hq in Hin. by apply elem_of_nil in Hin. }
  rw andb_false_r /mmodify.
  destruct (mfor_raises handle_client_request (input_queue e) (ReqAbort ids) Hin (λ _, ex_intro _ _ eq_refl)
      (set_input_queue [] e)) as [x Hx]. exists x. by rw Hx.
Qed.
Lemma snoc_lookup {A} (l : list A) x : (l ++ [x]) !! length l = Some x.
Proof. by rw lookup_app_r // Nat.sub_diag. Qed.

Section client.
Context (tokenizer : Tokenizer) {Args : Type} {RP : RequestProcessor Args}.
Implicit Types s : AsyncLLM.

Definition mk_task (rid : string) (st : TaskStatus) : Task :=
  {| tk_request_id := rid; tk_queue := None; tk_yielded := []; tk_status := st |}.

(** ** What each section does *)

(** How a call of [generate] ends its first section. *)
Inductive generated (rid : string) (a : Args) (now : Z) s : AsyncLLM → Prop :=
  | gen_running s' : is_Some (dget (rid_to_queue s) rid) →
      s' = set_tasks (tasks s ++ [mk_task rid (Failed (ValueError "already running"))]) (set_output_handler true s) →
      generated rid a now s s'
  | gen_refused e s' : dget (rid_to_queue s) rid = None →
      rp_check rid a = Raise e ∨ is_Some (dget (request_states s) rid) →
      tasks s' = tasks s ++ [mk_task rid (Failed e)] → queues s' = queues s ++ [[]] →
      rid_to_queue s' = dset (rid_to_queue s) rid (length (queues s)) →
      request_states s' = request_states s → to_core s' = to_core s →
      generated rid a now s s'
  | gen_added dr er m' s' : dget (rid_to_queue s) rid = None → dget (request_states s) rid = None →
      rp_process rid a now (mm_client s) = Ok (dr, er, m') →
      tasks s' = tasks s ++ [mk_task rid Adding] → queues s' = queues s ++ [[]] →
      rid_to_queue s' = dset (rid_to_queue s) rid (length (queues s)) →
      request_states s' = dset (request_states s) rid (from_new_request tokenizer dr) →
      to_core s' = to_core s ++ [ReqAdd er] →
      generated rid a now s s'.
Lemma generate_ok rid a now s s' : generate tokenizer rid a now s = Ok (tt, s') → generated rid a now s s'.
Proof.
  rw /generate /mbind /M_bind /mmodify /mget. cbn. rw /dmem. destruct (dget (rid_to_queue s) rid) as [q|] eqn:Eq.
  { move=> [= <-]. apply gen_running; [by exists q|by destruct s]. }
  rw /register_queue /mmodify. destruct (rp_check rid a) as [[]|e] eqn:Ec; last first.
  { move=> [= <-]. by eapply (gen_refused _ _ _ _ e); [|left|..]. }
  rw {1}/zoom. cbn. destruct (rp_process rid a now (mm_client s)) as [[[dr er] m']|] eqn:Ep => //.
  rw /attempt /zoom /det_add_request /mbind /M_bind /mget /massert. cbn.
  destruct (rp_id _ _ _ _ _ _ _ Ep) as [Hid _]. rw /dmem Hid.
  destruct (dget (request_states s) rid) as [d|] eqn:Es; cbn; move=> [= <-].
  - by eapply gen_refused; [|right; exists d|..].
  - eapply (gen_added _ _ _ _ dr er m'); cbn; rw ?Hid; done.
Qed.

Lemma next_output_ok t s s' : next_output t s = Ok (tt, s') →
  s' = s ∨ ∃ tk q out rest, tasks s !! t = Some tk ∧ tk_queue tk = Some q ∧ queues s !! q = Some (out :: rest) ∧
    queues s' = <[q := rest]> (queues s) ∧ request_states s' = request_states s ∧
    ((ro_finished out.1 = false ∧ rid_to_queue s' = rid_to_queue s ∧
      tasks s' = alter (λ tk, set_tk_yielded (tk_yielded tk ++ [out]) tk) t (tasks s)) ∨
     (ro_finished out.1 = true ∧ is_Some (dget (rid_to_queue s) (tk_request_id tk)) ∧
      rid_to_queue s' = ddel (rid_to_queue s) (tk_request_id tk) ∧
      tasks s' = alter (λ tk, set_tk_status Done (set_tk_yielded (tk_yielded tk ++ [out]) tk)) t (tasks s)) ∨
     (ro_finished out.1 = true ∧ dget (rid_to_queue s) (tk_request_id tk) = None ∧ rid_to_queue s' = rid_to_queue s ∧
      tasks s' = alter (set_tk_status (Failed (KeyError "request_id"))) t (tasks s))).
Proof.
  rw /next_output /mbind /M_bind /mget. destruct (tasks s !! t) as [tk|]; last by move=> [= <-]; left.
  destruct (tk_queue tk) as [q|] eqn:Etq; last by move=> [= <-]; left.
  destruct (queues s !! q) as [[|out rest]|] eqn:Eq; [by move=> [= <-]; left| |by move=> [= <-]; left].
  rw /mmodify /update_task /finish_task /update_task /mmodify /dmem. cbn.
  destruct (ro_finished out.1) eqn:Hf; last first.
  { move=> [= <-]. right. exists tk, q, out, rest. split_and!; [done..|]. by left. }
  destruct (dget (rid_to_queue s) (tk_request_id tk)) as [q'|] eqn:Er; cbn; move=> [= <-]; right; exists tk, q, out, rest;
    (split_and!; [done..|]); right.
  - left. split_and!; [done|by eexists|done|]. cbn. by rw alter_alter.
  - right. done.
Qed.

(** The addresses of the registered queues are distinct. *)
Definition distinct_queues (m : dict string nat) : Prop :=
  ∀ k k' q, dget m k = Some q → dget m k' = Some q → k = k'.

Lemma process_outputs_ok obs l : ∀ s, distinct_queues (rid_to_queue s) →
  ∃ qs, process_request_outputs l obs s = Ok (tt, set_queues qs s) ∧ length qs = length (queues s) ∧
    (∀ k q, dget (rid_to_queue s) k = Some q →
       qs !! q = (λ l', l' ++ ((λ o, (o, obs)) <$> outputs_of k l)) <$> queues s !! q) ∧
    (∀ q, (∀ k, dget (rid_to_queue s) k ≠ Some q) → qs !! q = queues s !! q).
Proof.
  rw /process_request_outputs. elim: l => [|o l IH] s Hinj.
  { exists (queues s). split_and!; [by destruct s|done| |done]. move=> k q _. rw /outputs_of filter_nil.
    destruct (queues s !! q) as [x|]; [|done]. by rw /= app_nil_r. }
  cbn [mfor]. rw {1}/mbind /M_bind {1}/mbind /M_bind {1}/mget.
  destruct (dget (rid_to_queue s) (ro_request_id o)) as [q0|] eqn:E0; last first.
  { destruct (IH s Hinj) as (qs & H1 & H2 & H3 & H4). exists qs. split_and!; [done|done| |done].
    move=> k q Hk. rw (H3 _ _ Hk) /outputs_of filter_cons_False //. congruence. }
  rw {1}/mmodify. set s1 := set_queues _ s. destruct (IH s1 Hinj) as (qs & H1 & H2 & H3 & H4).
  exists qs. split; first exact H1. rw H2 /s1 /= length_alter. split; first done. split.
  - move=> k q Hk. rw (H3 _ _ Hk) /s1 /= /outputs_of filter_cons list_lookup_alter. case_decide as Hq.
    + subst q0. have -> : ro_request_id o = k by eapply Hinj. rw decide_True //.
      destruct (queues s !! q) as [x|]; [|done]. by rw /= -app_assoc.
    + rw decide_False //. move=> ?; subst k. congruence.
  - move=> q Hq. rw H4 // /s1 /= list_lookup_alter_ne // => ?. subst. by eapply Hq.
Qed.

(** The effect of a turn of the output handler. *)
Record handled (outputs : list EngineCoreOutput) (obs : option Observability) s s' : Prop := {
  hd_keyed : keyed (request_states s');
  hd_rid : rid_to_queue s' = rid_to_queue s;
  hd_tasks : tasks s' = tasks s;
  hd_length : length (queues s') = length (queues s);
  hd_grown : ∀ rid d', dget (request_states s') rid = Some d' → ∃ d, dget (request_states s) rid = Some d ∧ grown d d';
  hd_idle : ∀ rid q, dget (rid_to_queue s) rid = Some q → dget (request_states s) rid = None →
    queues s' !! q = queues s !! q;
  hd_live : ∀ rid q d, dget (rid_to_queue s) rid = Some q → dget (request_states s) rid = Some d →
    ∃ outs d', stream tokenizer (chunks_of rid outputs) d = Ok (outs, d') ∧
      dget (request_states s') rid = (if stream_finished outs then None else Some d') ∧
      queues s' !! q = (λ l, l ++ ((λ o, (o, obs)) <$> outs)) <$> queues s !! q;
  hd_other : ∀ q, (∀ k, dget (rid_to_queue s) k ≠ Some q) → queues s' !! q = queues s !! q;
}.
Lemma handle_outputs_ok outputs obs s s' : distinct_queues (rid_to_queue s) → keyed (request_states s) →
  handle_outputs tokenizer outputs obs s = Ok (tt, s') → handled outputs obs s s'.
Proof.
  move=> Hinj HK. rw /handle_outputs {1}/mbind /M_bind /zoom /Detokenizer.step.
  destruct (mfold outputs ([], []) (step_output tokenizer) (request_states s)) as [[[ros ab] st]|] eqn:E => //.
  destruct (step_project _ _ _ _ _ _ HK E) as [HK' HP]. rw /= {E}.
  set s1 := set_request_states st s. destruct (process_outputs_ok obs ros s1 Hinj) as (qs & H1 & H2 & H3 & H4).
  rw {1}/mbind /M_bind H1 /abort_requests_async /send_input /mwhen /mmodify.
  have Hs : ∀ s2 : AsyncLLM, request_states s2 = st → rid_to_queue s2 = rid_to_queue s → tasks s2 = tasks s →
    queues s2 = qs → handled outputs obs s s2.
  { move=> s2 E1 E2 E3 E4. split; rw ?E1 ?E2 ?E3 ?E4 //.
    - move=> rid d' Hd'. have {HP} := HP rid. destruct (dget (request_states s) rid) as [d|]; last by move=> []; congruence.
      move=> [outs [d2 [S1 [_ S3]]]]. exists d. split; first done. apply (stream_grown tokenizer) in S1.
      rw Hd' in S3. by destruct (stream_finished outs); [|injection S3 as <-].
    - move=> rid q Hq Hr. have := HP rid. rw Hr. move=> [_ Ho]. rw (H3 _ _ Hq) Ho.
      rw /s1 /=. destruct (queues s !! q) as [x|]; [|done]. by rw /= app_nil_r.
    - move=> rid q d Hq Hd. have := HP rid. rw Hd. move=> [outs [d' [S1 [S2 S3]]]]. exists outs, d'.
      split_and!; [done|done|]. by rw (H3 _ _ Hq) S2. }
  case_bool_decide; move=> [= <-]; by apply Hs.
Qed.

Lemma abort_return_ok rid s s' : abort_return rid s = Ok (tt, s') →
  request_states s' = ddel (request_states s) rid ∧ rid_to_queue s' = ddel (rid_to_queue s) rid ∧
  tasks s' = tasks s ∧ queues s' = queues s.
Proof. by move=> [= <-]. Qed.

(** ** The invariant *)
Record fe_inv s : Prop := {
  fi_wf : dict_wf (rid_to_queue s);
  fi_keyed : keyed (request_states s);
  fi_addr : ∀ k q, dget (rid_to_queue s) k = Some q → q < length (queues s);
  fi_inj : distinct_queues (rid_to_queue s);
  fi_task : ∀ t tk q, tasks s !! t = Some tk → tk_queue tk = Some q → q < length (queues s);
  fi_ids : ∀ k d, dget (request_states s) k = Some d → length (det_prompt_token_ids d) ≤ length (det_token_ids d);
}.
Lemma fe_inv_init no_cache : fe_inv (async_llm_init no_cache).
Proof. split; [apply dict_wf_nil|split; [apply dict_wf_nil|done]|done|done|done|done]. Qed.

Lemma ddel_Some (V : Type) (m : dict string V) k k' v : dict_wf m → dget (ddel m k) k' = Some v → dget m k' = Some v.
Proof. move=> Hwf. rw dget_ddel //. by case_decide. Qed.

(** The parts of the state a section leaves alone or shrinks. *)
Lemma fe_inv_shrink s s' : fe_inv s →
  dict_wf (rid_to_queue s') → keyed (request_states s') → length (queues s) ≤ length (queues s') →
  (∀ k q, dget (rid_to_queue s') k = Some q → dget (rid_to_queue s) k = Some q) →
  (∀ k d, dget (request_states s') k = Some d → dget (request_states s) k = Some d) →
  (∀ t tk, tasks s' !! t = Some tk → tk_queue tk = None ∨
     (∃ k, dget (rid_to_queue s) k = tk_queue tk) ∨ ∃ tk0, tasks s !! t = Some tk0 ∧ tk_queue tk = tk_queue tk0) →
  fe_inv s'.
Proof.
  move=> [I1 I2 I3 I4 I5 I6] Hwf HK Hlen Hr Hs Ht. split; [done|done| | | |].
  - move=> k q /Hr /I3. lia.
  - move=> k k' q /Hr H1 /Hr H2. by eapply I4.
  - move=> t tk q /Ht [->|[[k Hk]|[tk0 [H1 ->]]]] H2; [done| |by eapply Nat.lt_le_trans; [eapply I5|]].
    rw H2 in Hk. apply I3 in Hk. lia.
  - move=> k d /Hs. apply I6.
Qed.

Lemma alter_task_cases (f : Task → Task) t t' tk (l : list Task) : alter f t l !! t' = Some tk →
  ∃ tk0, l !! t' = Some tk0 ∧ tk = if decide (t' = t) then f tk0 else tk0.
Proof.
  rw list_lookup_alter. destruct (decide (t' = t)) as [->|Hne].
  - rw decide_True //. destruct (l !! t) as [tk0|]; [|done]. move=> [= <-]. by exists tk0.
  - rw decide_False //. by exists tk.
Qed.

Lemma snoc_task l rid st t tk : (l ++ [mk_task rid st]) !! t = Some tk →
  l !! t = Some tk ∨ t = length l ∧ tk = mk_task rid st.
Proof. move=> /lookup_snoc_Some [[_ H]|[-> <-]]; auto. Qed.
Lemma fe_inv_registered rid st s s' : fe_inv s →
  tasks s' = tasks s ++ [mk_task rid st] → queues s' = queues s ++ [[]] →
  rid_to_queue s' = dset (rid_to_queue s) rid (length (queues s)) → keyed (request_states s') →
  (∀ k d, dget (request_states s') k = Some d → length (det_prompt_token_ids d) ≤ length (det_token_ids d)) →
  fe_inv s'.
Proof.
  move=> [I1 I2 I3 I4 I5 I6] E1 E2 E3 HK Hi.
  have Hq : ∀ k q, dget (rid_to_queue s') k = Some q →
    k = rid ∧ q = length (queues s) ∨ k ≠ rid ∧ dget (rid_to_queue s) k = Some q.
  { move=> k q. rw E3 dget_dset. case_decide; [move=> [= <-]|]; auto. }
  split; rw ?E1 ?E2; [rw E3; by apply dict_wf_dset|done| | | |exact Hi].
  - move=> k q /Hq. rw length_app /=. move=> [[_ ->]|[_ /I3]]; lia.
  - move=> k k' q /Hq [[-> ->]|[_ H1]] /Hq [[-> E]|[_ H2]]; [done|apply I3 in H2; lia|apply I3 in H1; lia|by eapply I4].
  - move=> t tk q /snoc_task [Ht|[_ ->]] // Hk. rw length_app. have := I5 _ _ _ Ht Hk. lia.
Qed.
Lemma fe_inv_alter (f : Task → Task) t s s' : fe_inv s → rid_to_queue s' = rid_to_queue s →
  request_states s' = request_states s → queues s' = queues s → tasks s' = alter f t (tasks s) →
  (∀ tk, tk_queue (f tk) = tk_queue tk) → fe_inv s'.
Proof.
  move=> HI E1 E2 E3 E4 Hf. apply (fe_inv_shrink s); rw ?E1 ?E2 ?E3 ?E4 //; [apply HI|apply HI|].
  move=> t' tk /alter_task_cases [tk0 [H ->]]. right; right. exists tk0. split; first done. by case_decide.
Qed.

Lemma fe_inv_event (ev : Event Args) s s' : fe_inv s → run_event tokenizer ev s = Ok (tt, s') → fe_inv s'.
Proof.
  move=> HI. destruct ev as [rid a now|t|t|t|rid|rid|outputs obs]; cbn [run_event].
  - move=> /generate_ok Hg.
    destruct Hg as [s' _ ->|e s' _ _ E1 E2 E3 E4 _|dr er m' s' _ _ Hp E1 E2 E3 E4 _].
    + eapply fe_inv_shrink; [exact HI|apply HI|apply HI|done|done|done|].
      move=> t tk /snoc_task [Ht|[_ ->]]; [right; right; eauto|by left].
    + eapply fe_inv_registered; eauto; rw E4; apply HI.
    + destruct (rp_id _ _ _ _ _ _ _ Hp) as [Hid _]. eapply fe_inv_registered; eauto; rw E4.
      * apply keyed_dset; [apply HI|done].
      * move=> k d. rw dget_dset. case_decide; [move=> [= <-]; done|apply HI].
  - rw /resume_add /mbind /M_bind /mget. destruct (tasks s !! t) as [tk|]; last by move=> [= <-].
    destruct (dget (rid_to_queue s) (tk_request_id tk)) as [q|] eqn:Eq; move=> [= <-]; last by eapply fe_inv_alter.
    eapply fe_inv_shrink; [exact HI|apply HI|apply HI|done|done|done|].
    move=> t' tk' /alter_task_cases [tk0 [H ->]]. right. case_decide; [left; by eexists|right; by eexists].
  - move=> /next_output_ok [->|[tk [q [out [rest [Ht [Hq [Hl [E1 [E2 H]]]]]]]]]]; first done.
    assert (∃ f, tasks s' = alter f t (tasks s) ∧ (∀ tk, tk_queue (f tk) = tk_queue tk)) as (f & Hf & Hfq).
    { destruct H as [(_ & _ & ->)|[(_ & _ & _ & ->)|(_ & _ & _ & ->)]]; by eexists. }
    have Hr : rid_to_queue s' = rid_to_queue s ∨ rid_to_queue s' = ddel (rid_to_queue s) (tk_request_id tk).
    { destruct H as [(_ & -> & _)|[(_ & _ & -> & _)|(_ & _ & -> & _)]]; auto. }
    eapply fe_inv_shrink; [exact HI| |rw E2; apply HI|by rw E1 length_insert| |by rw E2|].
    + destruct Hr as [->| ->]; [|apply dict_wf_ddel]; apply HI.
    + move=> k q'. destruct Hr as [->| ->]; [done|apply ddel_Some, HI].
    + move=> t' tk'. rw Hf => /alter_task_cases [tk0 [H' ->]]. right; right. exists tk0. by case_decide.
  - rw /cancel /mbind /M_bind /mget. destruct (tasks s !! t) as [tk|]; last by move=> [= <-].
    move=> [= <-]. by eapply fe_inv_alter.
  - move=> [= <-]. destruct HI. by split.
  - move=> /abort_return_ok [E1 [E2 [E3 E4]]]. eapply fe_inv_shrink; [exact HI|rw E2; apply dict_wf_ddel, HI| | | | |].
    + rw E1. apply keyed_ddel, HI.
    + by rw E4.
    + move=> k q. rw E2. apply ddel_Some, HI.
    + move=> k d. rw E1. apply ddel_Some, HI.
    + move=> t tk. rw E3. right; right; eauto.
  - move=> /(handle_outputs_ok _ _ _ _ (fi_inj _ HI) (fi_keyed _ HI)) [H1 H2 H3 H4 H5 _ _ _].
    destruct HI as [I1 I2 I3 I4 I5 I6]. split; rw ?H2 ?H3 ?H4 //.
    move=> k d /H5 [d0 [/I6 ? [_ -> ?]]]. lia.
Qed.
Lemma fe_run_inv s (evs : list (Event Args)) s' : fe_inv s → fe_run tokenizer s evs s' → fe_inv s'.
Proof. move=> HI. elim=> [//|evs' s1 ev s2 _ IH _ Hev]. by eapply fe_inv_event. Qed.
Lemma fe_reach_inv s : fe_reach tokenizer (Args:=Args) s → fe_inv s.
Proof. move=> [no_cache [evs Hr]]. eapply fe_run_inv; [apply fe_inv_init|exact Hr]. Qed.

(** ** One call of [generate] among the others *)
Definition event_chunks (rid : string) (ev : Event Args) : list chunk :=
  match ev with HandleOutputs outputs _ => chunks_of rid outputs | _ => [] end.
(** The chunks for a request that a run hands to the output handler. *)
Definition run_chunks (rid : string) (evs : list (Event Args)) : list chunk := mjoin (event_chunks rid <$> evs).
Definition active (tk : Task) : Prop := tk_status tk = Adding ∨ tk_status tk = Streaming.
(** What a call has yielded and what still waits in its queue. *)
Definition received (tk : Task) (l : list Item) : list RequestOutput := (tk_yielded tk ++ l).*1.

Section tracked.
Variables (t q : nat) (rid : string) (d0 : IncrementalDetokenizer).

Record in_use s tk (outs : list RequestOutput) d : Prop := {
  iu_registered : dget (rid_to_queue s) rid = Some q;
  iu_only : ∀ t' tk', t' ≠ t → tasks s !! t' = Some tk' → tk_request_id tk' = rid → ¬ active tk';
  iu_status : match tk_status tk with
              | Adding => tk_queue tk = None | Streaming => tk_queue tk = Some q | Cancelled => True
              | Done | Failed _ => False
              end;
  iu_pending : stream_finished (tk_yielded tk).*1 = false;
  iu_state : dget (request_states s) rid = if stream_finished outs then None else Some d;
}.
Record consumed s tk (l : list Item) outs : Prop := {
  co_gone : ∀ k, dget (rid_to_queue s) k ≠ Some q;
  co_done : tk_status tk = Done;
  co_finished : stream_finished outs = true;
  co_empty : l = [];
}.
Record tracked (chunks : list chunk) s tk l outs d : Prop := {
  tr_task : tasks s !! t = Some tk;
  tr_rid : tk_request_id tk = rid;
  tr_queue : queues s !! q = Some l;
  tr_others : ∀ t' tk', t' ≠ t → tasks s !! t' = Some tk' → tk_queue tk' ≠ Some q;
  tr_stream : stream tokenizer chunks d0 = Ok (outs, d);
  tr_received : received tk l = outs;
  tr_phase : in_use s tk outs d ∨ consumed s tk l outs;
}.

(** A section that does not concern the call. *)
Lemma tracked_frame chunks s s' tk l outs d : tracked chunks s tk l outs d →
  tasks s' !! t = tasks s !! t → queues s' !! q = queues s !! q →
  (∀ k, dget (rid_to_queue s') k = Some q → dget (rid_to_queue s) k = Some q) →
  (∀ t' tk', t' ≠ t → tasks s' !! t' = Some tk' →
     (∃ tk0, tasks s !! t' = Some tk0 ∧ tk_queue tk' = tk_queue tk0 ∧ tk_request_id tk' = tk_request_id tk0 ∧
        (active tk' → active tk0)) ∨
     tk_queue tk' ≠ Some q ∧ (dget (rid_to_queue s) rid = Some q → tk_request_id tk' = rid → ¬ active tk')) →
  (in_use s tk outs d → dget (rid_to_queue s') rid = dget (rid_to_queue s) rid ∧
     dget (request_states s') rid = dget (request_states s) rid) →
  tracked chunks s' tk l outs d.
Proof.
  move=> [T1 T2 T3 T4 T5 T6 T7] F1 F2 F3 F4 F5. split; [by rw F1|done|by rw F2| |done|done|].
  - move=> t' tk' Hne /(F4 _ _ Hne) [[tk0 [H0 [-> _]]]|[H _]]; [by eapply T4|done].
  - destruct T7 as [HU|[C1 C2 C3 C4]]; last by right; split; [move=> k /F3; apply C1|..].
    left. destruct (F5 HU) as [E1 E2]. destruct HU as [U1 U2 U3 U4 U5]. split; rw ?E1 ?E2 //.
    move=> t' tk' Hne /(F4 _ _ Hne) [[tk0 [H0 [_ [-> Ha]]]]|[_ H]]; last by apply H.
    move=> Hr /Ha. by eapply U2.
Qed.
(** A change of other tasks that keeps their queues. *)
Lemma tracked_alter chunks s s' tk l outs d t' (f : Task → Task) : tracked chunks s tk l outs d →
  t' ≠ t → tasks s' = alter f t' (tasks s) →
  (∀ tk, tk_queue (f tk) = tk_queue tk ∧ tk_request_id (f tk) = tk_request_id tk ∧ (active (f tk) → active tk)) →
  queues s' !! q = queues s !! q →
  (∀ k, dget (rid_to_queue s') k = Some q → dget (rid_to_queue s) k = Some q) →
  (in_use s tk outs d → dget (rid_to_queue s') rid = dget (rid_to_queue s) rid ∧
     dget (request_states s') rid = dget (request_states s) rid) →
  tracked chunks s' tk l outs d.
Proof.
  move=> HT Hne Ht Hf Hq Hr Hu. apply (tracked_frame _ s); rw ?Ht //; first by rw list_lookup_alter_ne.
  move=> t2 tk2 _ /alter_task_cases [tk0 [H0 ->]]. left. exists tk0. destruct (Hf tk0) as (H1 & H2 & H3).
  by case_decide.
Qed.

Lemma tracked_generate chunks s s' tk l outs d rid' a now : fe_inv s → tracked chunks s tk l outs d →
  generated rid' a now s s' → tracked chunks s' tk l outs d.
Proof.
  move=> HI HT Hg. have Hq : q < length (queues s) by apply lookup_lt_is_Some; eexists; apply HT.
  have Ht : t < length (tasks s) by apply lookup_lt_is_Some; eexists; apply HT.
  assert (Hc : ∀ st, tasks s' = tasks s ++ [mk_task rid' st] → queues s' = queues s ++ [[]] →
    rid_to_queue s' = dset (rid_to_queue s) rid' (length (queues s)) → dget (rid_to_queue s) rid' = None →
    (rid ≠ rid' → dget (request_states s') rid = dget (request_states s) rid) → tracked chunks s' tk l outs d).
  { move=> st E1 E2 E3 Hn E4. apply (tracked_frame _ s); rw ?E1 ?E2 ?E3 ?lookup_app_l //.
    - move=> k. rw dget_dset. case_decide; [move=> [= ?]; lia|done].
    - move=> t' tk' Hne /snoc_task [H0|[_ ->]]; [left; by exists tk'|]. right. split; first done.
      move=> Hr /= Heq. congruence.
    - move=> [U1 _ _ _ _]. have Hne : rid ≠ rid' by congruence. split; [by rw dget_dset_ne|by apply E4]. }
  destruct Hg as [s' Hs ->|e s' Hn _ E1 E2 E3 E4 _|dr er m' s' Hn _ Hp E1 E2 E3 E4 _].
  - apply (tracked_frame _ s); rw /= ?lookup_app_l //.
    move=> t' tk' Hne /snoc_task [H0|[_ ->]]; [left; by exists tk'|]. right. split; [done|]. move=> _ _ [?|?]; done.
  - eapply Hc; eauto. by rw E4.
  - eapply Hc; eauto. move=> Hne. by rw E4 dget_dset_ne.
Qed.

Lemma in_use_of chunks s tk l outs d : tracked chunks s tk l outs d → tk_status tk ≠ Done → in_use s tk outs d.
Proof. move=> HT. by destruct (tr_phase _ _ _ _ _ _ HT) as [|[]]. Qed.

Lemma tracked_resume chunks s s' tk l outs d t' : fe_inv s → tracked chunks s tk l outs d →
  has_status s t' Adding → resume_add t' s = Ok (tt, s') → ∃ tk', tracked chunks s' tk' l outs d.
Proof.
  move=> HI HT [tk0 [H0 Hst]]. rw /resume_add /mbind /M_bind /mget H0.
  destruct (decide (t' = t)) as [->|Hne].
  - destruct (HT) as [T1 T2 T3 T4 T5 T6 _]. rw T1 in H0. injection H0 as <-.
    have [U1 U2 U3 U4 U5] : in_use s tk outs d by apply (in_use_of chunks _ _ l); [|congruence].
    rw T2 U1. move=> [= <-]. eexists. split; cbn; [by rw list_lookup_alter_eq T1| | | | | |]; try done.
    + move=> t2 tk2 Hne. rw list_lookup_alter_ne //. by apply T4.
    + left. split; try done. move=> t2 tk2 Hne /=. rw list_lookup_alter_ne //. by apply U2.
  - move=> Hrun. exists tk. move: Hrun. destruct (dget (rid_to_queue s) (tk_request_id tk0)) as [q1|] eqn:Hq1; move=> [= <-]; last first.
    { eapply (tracked_alter _ s _ _ _ _ _ t'); [done|done|done| |done|done|done]. move=> tk2. split_and!; [done|done|]. by move=> [|]. }
    have Hdiff : dget (rid_to_queue s) rid = Some q → tk_request_id tk0 ≠ rid.
    { move=> Hr Heq. destruct (tr_phase _ _ _ _ _ _ HT) as [HU|HC]; last by destruct (co_gone _ _ _ _ HC rid).
      apply (iu_only _ _ _ _ HU t' tk0 Hne H0 Heq). by left. }
    apply (tracked_frame _ s); cbn; [done|by rw list_lookup_alter_ne|done|done| |done].
    move=> t2 tk2 _ /alter_task_cases [tk3 [H3 ->]]. case_decide as Ht2; [|left; by exists tk3].
    subst t2. rw H0 in H3. injection H3 as <-. right. cbn. split.
    + move=> [= ?]. subst q1. destruct (tr_phase _ _ _ _ _ _ HT) as [HU|HC]; last by destruct (co_gone _ _ _ _ HC _ Hq1).
      have HU1 := iu_registered _ _ _ _ HU. apply (Hdiff HU1). by eapply (fi_inj _ HI).
    + by move=> /Hdiff.
Qed.

Lemma stream_finished_app a b : stream_finished (a ++ b) = stream_finished a || stream_finished b.
Proof. apply existsb_app. Qed.

Lemma tracked_next chunks s s' tk l outs d t' : fe_inv s → tracked chunks s tk l outs d →
  has_status s t' Streaming → next_output t' s = Ok (tt, s') → ∃ tk' l', tracked chunks s' tk' l' outs d.
Proof.
  move=> HI HT [tk0 [H0 Hst]] /next_output_ok [->|[tk1 [q1 [out [rest [H1 [H2 [H3 [E1 [E2 H]]]]]]]]]]; first by exists tk, l.
  rw H0 in H1. injection H1 as <-. destruct (decide (t' = t)) as [->|Hne].
  - destruct (HT) as [T1 T2 T3 T4 T5 T6 _]. rw T1 in H0. injection H0 as <-.
    have [U1 U2 U3 U4 U5] : in_use s tk outs d by apply (in_use_of chunks _ _ l); [|congruence].
    rw Hst H2 in U3. injection U3 as ->. rw T3 in H3. injection H3 as ->.
    have Hq : queues s' !! q = Some rest by rw E1 list_lookup_insert_eq //; apply lookup_lt_is_Some; eexists.
    rw T2 in H. destruct H as [(Hf & E3 & E4)|[(Hf & _ & E3 & E4)|(Hf & Hn & _)]]; last by congruence.
    + exists (set_tk_yielded (tk_yielded tk ++ [out]) tk), rest. split; try done.
      * by rw E4 list_lookup_alter_eq T1.
      * move=> t2 tk2 Hne. rw E4 list_lookup_alter_ne //. by apply T4.
      * by rw -T6 /received /= -app_assoc.
      * left. split; rw ?E3 ?E2 //.
        -- move=> t2 tk2 Hne. rw E4 list_lookup_alter_ne //. by apply U2.
        -- by rw /= Hst.
        -- rw /= fmap_app stream_finished_app U4 /stream_finished /= Hf. done.
    + have Hrest : rest = [].
      { rw /received fmap_app fmap_cons in T6. have := stream_finished_last _ _ _ _ _ T5 _ _ _ (eq_sym T6) Hf.
        by move=> /fmap_nil_inv. }
      subst rest. exists (set_tk_status Done (set_tk_yielded (tk_yielded tk ++ [out]) tk)), []. split; try done.
      * by rw E4 list_lookup_alter_eq T1.
      * move=> t2 tk2 Hne. rw E4 list_lookup_alter_ne //. by apply T4.
      * by rw -T6 /received /= app_nil_r.
      * right. split; [|done| |done].
        -- move=> k. rw E3 dget_ddel; first apply (fi_wf _ HI). case_decide; [done|]. move=> Hk.
           by have := fi_inj _ HI _ _ _ Hk U1.
        -- rw -T6 /received fmap_app stream_finished_app U4 /stream_finished /= Hf. done.
  - exists tk, l. have Hq : q1 ≠ q by move=> ?; subst; apply (tr_others _ _ _ _ _ _ HT t' tk0).
    have Hr : in_use s tk outs d → tk_request_id tk0 ≠ rid.
    { move=> HU Heq. apply (iu_only _ _ _ _ HU t' tk0 Hne H0 Heq). by right. }
    assert (∃ f, tasks s' = alter f t' (tasks s) ∧ ∀ tk, tk_queue (f tk) = tk_queue tk ∧
      tk_request_id (f tk) = tk_request_id tk ∧ (active (f tk) → active tk)) as (f & Hf & Hff).
    { destruct H as [(_ & _ & ->)|[(_ & _ & _ & ->)|(_ & _ & _ & ->)]]; (eexists; split; [reflexivity|]);
        (move=> tk2; split; [done|split; [done|first [done|by move=> []]]]). }
    have Hrq : rid_to_queue s' = rid_to_queue s ∨ rid_to_queue s' = ddel (rid_to_queue s) (tk_request_id tk0).
    { destruct H as [(_ & -> & _)|[(_ & _ & -> & _)|(_ & _ & -> & _)]]; auto. }
    apply (tracked_alter _ s _ _ _ _ _ t' f) => //.
    + by rw E1 list_lookup_insert_ne.
    + move=> k. destruct Hrq as [->| ->]; [done|apply ddel_Some, HI].
    + move=> /Hr Hn. rw E2. split; [|done]. destruct Hrq as [->| ->]; [done|by rw dget_ddel_ne].
Qed.

Lemma tracked_cancel chunks s s' tk l outs d t' : tracked chunks s tk l outs d →
  has_status s t' Adding ∨ has_status s t' Streaming → cancel t' s = Ok (tt, s') →
  ∃ tk', tracked chunks s' tk' l outs d.
Proof.
  move=> HT Hst. rw /cancel /mbind /M_bind /mget.
  assert (∃ tk0, tasks s !! t' = Some tk0 ∧ active tk0) as (tk0 & H0 & Ha).
  { by destruct Hst as [[tk0 [? ?]]|[tk0 [? ?]]]; exists tk0; (split; [done|]); [left|right]. }
  rw H0. move=> [= <-]. destruct (decide (t' = t)) as [->|Hne].
  - destruct (HT) as [T1 T2 T3 T4 T5 T6 _]. rw T1 in H0. injection H0 as <-.
    have [U1 U2 U3 U4 U5] : in_use s tk outs d.
    { apply (in_use_of chunks _ _ l); [done|]. by destruct Ha as [-> | ->]. }
    exists (set_tk_status Cancelled tk). split; cbn; [by rw list_lookup_alter_eq T1|done|done| |done|done|].
    + move=> t2 tk2 Hne. rw list_lookup_alter_ne //. by apply T4.
    + left. split; try done. move=> t2 tk2 Hne /=. rw list_lookup_alter_ne //. by apply U2.
  - exists tk. eapply (tracked_alter _ s _ _ _ _ _ t'); [done|done|done| |done|done|done].
    move=> tk2. split; [done|split; [done|by move=> []]].
Qed.

Lemma tracked_handle chunks s s' tk l outs d outputs obs : tracked chunks s tk l outs d →
  handled outputs obs s s' →
  ∃ l' outs' d', tracked (chunks ++ chunks_of rid outputs) s' tk l' outs' d'.
Proof.
  move=> HT HH. destruct (HT) as [T1 T2 T3 T4 T5 T6 T7].
  have Hfin : stream_finished outs = true → queues s' !! q = Some l →
    (in_use s tk outs d → dget (request_states s') rid = None) →
    tracked (chunks ++ chunks_of rid outputs) s' tk l outs d.
  { move=> Hf Hq Hs. split; rw ?(hd_tasks _ _ _ _ HH) //.
    - by rw (stream_app _ _ _ _ _ _ T5) Hf.
    - destruct T7 as [HU|[C1 C2 C3 C4]]; last by right; split; rw ?(hd_rid _ _ _ _ HH).
      left. have := Hs HU. destruct HU as [U1 U2 U3 U4 U5] => ?.
      split; rw ?(hd_rid _ _ _ _ HH) ?(hd_tasks _ _ _ _ HH) ?Hf //. }
  destruct T7 as [HU|HC]; last first.
  { exists l, outs, d. apply Hfin; [apply HC|by rw (hd_other _ _ _ _ HH) //; apply HC|].
    move=> HU. by have := iu_status _ _ _ _ HU; rw (co_done _ _ _ _ HC). }
  have HS := iu_state _ _ _ _ HU. have HR := iu_registered _ _ _ _ HU. destruct (stream_finished outs) eqn:Hf.
  { exists l, outs, d. apply Hfin; [done|by rw (hd_idle _ _ _ _ HH _ _ HR HS)|].
    move=> _. destruct (dget (request_states s') rid) as [d'|] eqn:E; [|done].
    destruct (hd_grown _ _ _ _ HH _ _ E) as [d1 [H _]]. congruence. }
  destruct (hd_live _ _ _ _ HH _ _ _ HR HS) as (o2 & d2 & S1 & S2 & S3).
  exists (l ++ ((λ o, (o, obs)) <$> o2)), (outs ++ o2), d2. split; rw ?(hd_tasks _ _ _ _ HH) //.
  - by rw S3 T3.
  - by rw (stream_app _ _ _ _ _ _ T5) Hf S1.
  - rw -T6 /received app_assoc fmap_app -list_fmap_compose. f_equal. apply list_fmap_id.
  - left. destruct HU as [U1 U2 U3 U4 U5]. split; rw ?(hd_rid _ _ _ _ HH) ?(hd_tasks _ _ _ _ HH) //.
    by rw S2 stream_finished_app Hf.
Qed.

Lemma tracked_event chunks s s' tk l outs d (ev : Event Args) : fe_inv s → tracked chunks s tk l outs d →
  enabled s ev → run_event tokenizer ev s = Ok (tt, s') → ev ≠ AbortReturn rid →
  ∃ tk' l' outs' d', tracked (chunks ++ event_chunks rid ev) s' tk' l' outs' d'.
Proof.
  move=> HI HT. destruct ev as [rid' a now|t'|t'|t'|rid'|rid'|outputs obs]; cbn [run_event enabled event_chunks];
    rw ?app_nil_r; move=> Hen Hrun Hab.
  - exists tk, l, outs, d. by eapply tracked_generate; [| |apply generate_ok].
  - destruct (tracked_resume _ _ _ _ _ _ _ _ HI HT Hen Hrun) as [tk' ?]. by exists tk', l, outs, d.
  - destruct (tracked_next _ _ _ _ _ _ _ _ HI HT Hen Hrun) as [tk' [l' ?]]. by exists tk', l', outs, d.
  - destruct (tracked_cancel _ _ _ _ _ _ _ _ HT Hen Hrun) as [tk' ?]. by exists tk', l, outs, d.
  - exists tk, l, outs, d. injection Hrun as <-. by destruct HT as [? ? ? ? ? ? [[]|[]]]; split; try done; [left|right].
  - exists tk, l, outs, d. destruct (abort_return_ok _ _ _ Hrun) as (E1 & E2 & E3 & E4).
    have Hne : rid ≠ rid' by congruence.
    apply (tracked_frame _ s); rw ?E3 ?E4 ?E1 ?E2 ?dget_ddel_ne //.
    + move=> k. apply ddel_Some, HI.
    + move=> t2 tk2 _ H2. left. by exists tk2.
  - destruct (tracked_handle chunks s s' tk l outs d outputs obs HT) as (l' & o' & d' & ?); last by exists tk, l', o', d'.
    by apply handle_outputs_ok; [apply HI|apply HI|].
Qed.
Lemma tracked_run s evs s' tk l outs d chunks : fe_inv s → fe_run tokenizer s evs s' → AbortReturn rid ∉ evs →
  tracked chunks s tk l outs d →
  ∃ tk' l' outs' d', tracked (chunks ++ run_chunks rid evs) s' tk' l' outs' d'.
Proof.
  move=> HI Hrun Hab HT. induction Hrun as [|evs s1 ev s2 Hrun IH Hen Hev].
  { exists tk, l, outs, d. by rw app_nil_r. }
  destruct IH as (tk1 & l1 & o1 & d1 & H1); first by move: Hab; rw elem_of_app; tauto.
  rw /run_chunks fmap_app join_app app_assoc /= app_nil_r.
  eapply tracked_event; [by eapply fe_run_inv|exact H1|done|done|].
  move=> ?. subst. apply Hab. rw elem_of_app list_elem_of_singleton. by right.
Qed.
End tracked.

(** ** An id that stays registered *)

(** The id has a queue and no call under way that would read it. *)
Definition orphaned (rid : string) s : Prop :=
  is_Some (dget (rid_to_queue s) rid) ∧ ∀ t tk, tasks s !! t = Some tk → tk_request_id tk = rid → ¬ active tk.

Lemma orphaned_event rid s s' (ev : Event Args) : fe_inv s → orphaned rid s → enabled s ev →
  run_event tokenizer ev s = Ok (tt, s') → ev ≠ AbortReturn rid → orphaned rid s'.
Proof.
  move=> HI [Hr Ht]. destruct ev as [rid' a now|t'|t'|t'|rid'|rid'|outputs obs]; cbn [run_event enabled]; move=> Hen Hrun Hab.
  - apply generate_ok in Hrun.
    assert (Hc : ∀ st, dget (rid_to_queue s) rid' = None → tasks s' = tasks s ++ [mk_task rid' st] →
      rid_to_queue s' = dset (rid_to_queue s) rid' (length (queues s)) → orphaned rid s').
    { move=> st Hn E1 E2. have Hne : rid' ≠ rid by move=> ?; subst; rw Hn in Hr; destruct Hr.
      split; [by rw E2 dget_dset_ne|]. move=> t tk. rw E1 => /snoc_task [Hin|[_ ->]] //. by eapply Ht. }
    destruct Hrun as [s' _ ->|e s' Hn _ E1 E2 E3 E4 _|dr er m' s' Hn _ Hp E1 E2 E3 E4 _]; [|by eapply Hc..].
    split; [done|]. move=> t tk /snoc_task [Hin|[_ ->]]; [by eapply Ht|]. by move=> _ [].
  - destruct Hen as [tk0 [H0 Hst]]. have Hne : tk_request_id tk0 ≠ rid by move=> Heq; apply (Ht _ _ H0 Heq); left.
    move: Hrun. rw /resume_add /mbind /M_bind /mget H0. destruct (dget (rid_to_queue s) (tk_request_id tk0)); move=> [= <-];
      (split; [done|]); move=> t tk /alter_task_cases [tk1 [H1 ->]]; case_decide as Hd; [subst|by eapply Ht|subst|by eapply Ht];
      rw H0 in H1; injection H1 as <-; done.
  - apply next_output_ok in Hrun as [->|[tk0 [q1 [out [rest [H1 [_ [_ [_ [_ H]]]]]]]]]]; first by split.
    have Hne : tk_request_id tk0 ≠ rid.
    { destruct Hen as [tk2 [H2 Hst]]. rw H1 in H2. injection H2 as <-. move=> Heq. apply (Ht _ _ H1 Heq). by right. }
    split.
    + destruct H as [(_ & -> & _)|[(_ & _ & -> & _)|(_ & _ & -> & _)]]; [done|by rw dget_ddel_ne|done].
    + move=> t tk. destruct H as [(_ & _ & ->)|[(_ & _ & _ & ->)|(_ & _ & _ & ->)]];
        move=> /alter_task_cases [tk1 [H2 ->]]; (case_decide as Hd; [subst; rw H1 in H2; injection H2 as <-; done|by eapply Ht]).
  - move: Hrun. rw /cancel /mbind /M_bind /mget. destruct (tasks s !! t') as [tk0|] eqn:H0; last by move=> [= <-].
    move=> [= <-]. split; first done. move=> t tk /alter_task_cases [tk1 [H1 ->]].
    case_decide; [by move=> _ []|by eapply Ht].
  - by injection Hrun as <-.
  - destruct (abort_return_ok _ _ _ Hrun) as (_ & E2 & E3 & _). split; [|by rw E3]. rw E2 dget_ddel_ne //. congruence.
  - have [_ E1 E2 _ _ _ _ _] := handle_outputs_ok _ _ _ _ (fi_inj _ HI) (fi_keyed _ HI) Hrun. by rw /orphaned E1 E2.
Qed.
Lemma orphaned_run rid s (evs : list (Event Args)) s' : fe_inv s → fe_run tokenizer s evs s' → AbortReturn rid ∉ evs →
  orphaned rid s → orphaned rid s'.
Proof.
  move=> HI Hrun Hab HO. induction Hrun as [|evs s1 ev s2 Hrun IH Hen Hev]; first done.
  rw elem_of_app in Hab. eapply orphaned_event; [by eapply fe_run_inv|apply IH; tauto|done|done|].
  move=> ?. subst. apply Hab. right. by apply list_elem_of_singleton.
Qed.

(** * Theorems *)

(** C24: Isolation of the request streams. A call of [generate] that got its
    request under way, on an id that no other call is using, receives whatever
    happens around it (other calls, their cancellation, aborts of other ids, any
    interleaving of all of them with the output handler) exactly the outputs that
    the detokenizer makes of the engine outputs for its id alone: what the call
    has yielded followed by what waits in its queue is that stream, in order and
    without loss; and the call is done exactly when it has yielded the finished
    output. *)
Theorem streams_isolated s0 s1 s2 rid (a : Args) now (evs : list (Event Args)) :
  fe_reach tokenizer (Args:=Args) s0 →
  (∀ t tk, tasks s0 !! t = Some tk → tk_request_id tk = rid → ¬ active tk) →
  generate tokenizer rid a now s0 = Ok (tt, s1) → has_status s1 (length (tasks s0)) Adding →
  fe_run tokenizer s1 evs s2 → AbortReturn rid ∉ evs →
  ∃ dr er m' tk l outs d,
    rp_process rid a now (mm_client s0) = Ok (dr, er, m') ∧
    tasks s2 !! length (tasks s0) = Some tk ∧ queues s2 !! length (queues s0) = Some l ∧
    stream tokenizer (run_chunks rid evs) (from_new_request tokenizer dr) = Ok (outs, d) ∧
    (tk_yielded tk ++ l).*1 = outs ∧
    (tk_status tk = Streaming → tk_queue tk = Some (length (queues s0))) ∧
    (tk_status tk = Done ↔ stream_finished (tk_yielded tk).*1 = true).
Proof.
  move=> Hreach Hact Hgen Hst Hrun Hab. have HI := fe_reach_inv _ Hreach.
  have HI1 : fe_inv s1 by apply (fe_inv_event (Generate rid a now) s0).
  apply generate_ok in Hgen. destruct Hst as [tk0 [H0 Hst0]].
  destruct Hgen as [s1 _ ->|e s1 _ _ E1 E2 E3 E4 _|dr er m' s1 Hn _ Hp E1 E2 E3 E4 _];
    [rw /= snoc_lookup in H0; injection H0 as <-; done|rw E1 snoc_lookup in H0; injection H0 as <-; done|].
  destruct (tracked_run (length (tasks s0)) (length (queues s0)) rid (from_new_request tokenizer dr) s1 evs s2
    (mk_task rid Adding) [] [] (from_new_request tokenizer dr) [] HI1 Hrun Hab) as (tk & l & outs & d & HT).
  - split; rw ?E1 ?E2 ?snoc_lookup //.
    + move=> t' tk' Hne /snoc_task [Ht|[? _]] //. move=> Hq. by have := fi_task _ HI _ _ _ Ht Hq; lia.
    + left. split; rw ?E1 ?E3 ?E4 ?dget_dset_eq //. move=> t' tk' Hne /snoc_task [Ht|[? _]] //. by eapply Hact.
  - exists dr, er, m', tk, l, outs, d. destruct HT as [T1 T2 T3 T4 T5 T6 T7]. split_and!; try done.
    + destruct T7 as [HU|HC]; [have := iu_status _ _ _ _ _ _ _ HU|have := co_done _ _ _ _ _ HC]; by move=> H Hs; rw Hs in H.
    + destruct T7 as [HU|HC].
      * rw (iu_pending _ _ _ _ _ _ _ HU). split; [|done]. move=> Hs. have := iu_status _ _ _ _ _ _ _ HU. by rw Hs.
      * split; [|by move=> _; apply HC]. move=> _. have := co_finished _ _ _ _ _ HC.
        by rw -T6 (co_empty _ _ _ _ _ HC) /received app_nil_r.
Qed.

(** A request that the processor refuses blocks its id: the queue was
    registered first and is never removed, so that every later call with the id,
    after any events but an explicit abort, is turned away as already running. *)
Theorem refused_id_stays_taken s0 s1 s2 rid (a : Args) now e (evs : list (Event Args)) (a' : Args) now' :
  fe_reach tokenizer (Args:=Args) s0 →
  (∀ t tk, tasks s0 !! t = Some tk → tk_request_id tk = rid → ¬ active tk) →
  rp_check rid a = Raise e → generate tokenizer rid a now s0 = Ok (tt, s1) →
  fe_run tokenizer s1 evs s2 → AbortReturn rid ∉ evs →
  ∃ s3, generate tokenizer rid a' now' s2 = Ok (tt, s3) ∧
    has_status s3 (length (tasks s2)) (Failed (ValueError "already running")) ∧ request_states s3 = request_states s2.
Proof.
  move=> Hreach Hact Hc Hgen Hrun Hab. have HI := fe_reach_inv _ Hreach.
  have HI1 : fe_inv s1 by apply (fe_inv_event (Generate rid a now) s0).
  apply generate_ok in Hgen.
  have HO : orphaned rid s1.
  { destruct Hgen as [s1 Hs ->|e' s1 _ _ E1 E2 E3 E4 _|dr er m' s1 Hn _ Hp E1 E2 E3 E4 _].
    - split; [done|]. move=> t tk /snoc_task [Ht|[_ ->]]; [by eapply Hact|]. by move=> _ [].
    - split; [rw E3 dget_dset_eq; by eexists|]. move=> t tk. rw E1 => /snoc_task [Ht|[_ ->]]; [by eapply Hact|].
      by move=> _ [].
    - by rw (rp_check_raises _ _ _ _ _ Hc) in Hp. }
  destruct (orphaned_run rid s1 evs s2 HI1 Hrun Hab HO) as [[q Hq] _].
  rw /generate /mbind /M_bind /mmodify /mget. cbn. rw /dmem Hq. eexists. split; first reflexivity.
  split; last done. eexists. split; [by apply snoc_lookup|done].
Qed.

(** The output handler does not die: whatever outputs the engine sends, for
    whatever requests, and however calls and aborts were interleaved before, a turn
    of the handler completes, given a tokenizer that decodes every list of tokens. *)
Theorem output_handler_survives s outputs obs : Total tokenizer → fe_reach tokenizer (Args:=Args) s →
  ∃ s', handle_outputs tokenizer outputs obs s = Ok (tt, s').
Proof.
  move=> HT /fe_reach_inv HI. rw /handle_outputs {1}/mbind /M_bind /zoom /Detokenizer.step.
  destruct (step_total tokenizer outputs HT ([], []) (request_states s) (fi_keyed _ HI) (fi_ids _ HI)) as [[[ros ab] st] ->].
  set s1 := set_request_states st s. destruct (process_outputs_ok obs ros s1 (fi_inj _ HI)) as (qs & H1 & _).
  rw {1}/mbind /M_bind H1 /abort_requests_async /send_input /mwhen /mmodify. case_bool_decide; by eexists.
Qed.

(** The ids to abort are those of outputs that did not finish their request. *)
Lemma step_aborts outputs : ∀ acc st acc' st', mfold outputs acc (step_output tokenizer) st = Ok (acc', st') →
  ∀ rid, rid ∈ acc'.2 → rid ∈ acc.2 ∨ ∃ o, o ∈ outputs ∧ eco_request_id o = rid ∧ eco_finished o = false.
Proof.
  elim: outputs => [|o outputs IH] acc st acc' st'; first by move=> [= <- _]; left.
  cbn [mfold]. rw {1}/mbind /M_bind. destruct (step_output tokenizer acc o st) as [[acc1 st1]|] eqn:E => // Hrun rid Hin.
  destruct (IH _ _ _ _ Hrun rid Hin) as [H1|(o' & H1 & H2)]; last by right; exists o'; split; [right|].
  have [Hc|[Hc Hf]] : acc1.2 = acc.2 ∨ acc1.2 = acc.2 ++ [eco_request_id o] ∧ eco_finished o = false.
  - move: E. rw /step_output /mbind /M_bind /mget. destruct (dget st (eco_request_id o)); last by move=> [= <- _]; left.
    rw /mlift. destruct (add_tokens _ _ _ _ _) as [[[out|] d']|] => //; last by move=> [= <- _]; left.
    rw /mmodify. destruct (ro_finished out); last by move=> [= <- _]; left.
    destruct (eco_finished o) eqn:Ef; move=> [= <- _]; [by left|by right].
  - left. by rw -Hc.
  - move: H1. rw Hc => /elem_of_app [|/list_elem_of_singleton ->]; [by left|]. right. exists o. split; [by left|done].
Qed.

(** C28: A stop string takes the engine down with it: when the detokenizer finishes
    requests that the engine goes on generating, the client sends the abort for
    them, and the engine process ends with an exception in the turn that reads it. *)
Theorem stop_string_ends_engine py_hash s s' outputs obs ros ids st e :
  fe_reach tokenizer (Args:=Args) s →
  Detokenizer.step tokenizer outputs (request_states s) = Ok ((ros, ids), st) → ids ≠ [] →
  handle_outputs tokenizer outputs obs s = Ok (tt, s') →
  (∀ rid, rid ∈ ids → ∃ o, o ∈ outputs ∧ eco_request_id o = rid ∧ eco_finished o = false) ∧
  to_core s' = to_core s ++ [ReqAbort ids] ∧
  (ReqAbort ids ∈ input_queue e → ∃ x, busy_turn py_hash e = Raise x).
Proof.
  move=> /fe_reach_inv HI Hstep Hids Hrun. split_and!.
  - move=> rid Hin. destruct (step_aborts _ _ _ _ _ Hstep rid Hin) as [H|H]; [by apply elem_of_nil in H|done].
  - move: Hrun. rw /handle_outputs {1}/mbind /M_bind /zoom Hstep. set s1 := set_request_states st s.
    destruct (process_outputs_ok obs ros s1 (fi_inj _ HI)) as (qs & H1 & _). rw {1}/mbind /M_bind H1.
    rw /abort_requests_async /mwhen bool_decide_eq_true_2; first by destruct ids; [|simpl; lia].
    by move=> [= <-].
  - by apply abort_ends_turn.
Qed.
End client.

(** * A concrete client *)
#[export] Instance AsyncLLM_inhabited : Inhabited AsyncLLM := populate (async_llm_init false).
#[local] Instance demo_requests : RequestProcessor (RequestArgs (Image:=unit) (PromptBody:=unit)) :=
  processor_requests tt (λ _, 0) (λ _, None) demo_preprocess (λ _ _, {| mmk_handle := 0 |}) demo_processor.
Definition demo_call : RequestArgs :=
  demo_args "hi" (match post_init demo_stop_params with Ok p => p | Raise _ => default_sampling_params end).
Definition demo_output (ids : list Z) : EngineCoreOutput :=
  {| eco_request_id := "a"; eco_new_token_ids := ids; eco_finished := false; eco_finish_reason := None;
     eco_stop_reason := None |}.
Definition demo_events : list (Event (RequestArgs (Image:=unit) (PromptBody:=unit))) :=
  [ResumeAdd 0; HandleOutputs [demo_output [72; 69]%Z] None; NextOutput 0; HandleOutputs [demo_output [78; 68]%Z] None].
Definition state_after (m : M AsyncLLM unit) (s : AsyncLLM) : AsyncLLM :=
  match m s with Ok (_, s') => s' | Raise _ => inhabitant end.
Definition demo_client (n : nat) : AsyncLLM :=
  foldl (λ s ev, state_after (run_event demo_tokenizer ev) s) (state_after (generate demo_tokenizer "a" demo_call 5) (async_llm_init false))
    (take n demo_events).
Lemma demo_start_reach : fe_reach demo_tokenizer (RP:=demo_requests) (async_llm_init false).
Proof. exists false, []. constructor. Qed.
Lemma demo_generated : generate demo_tokenizer "a" demo_call 5 (async_llm_init false) = Ok (tt, demo_client 0).
Proof. vm_compute. reflexivity. Qed.
Lemma demo_run : fe_run demo_tokenizer (demo_client 0) demo_events (demo_client 4).
Proof.
  apply (fr_snoc _ _ (take 3 demo_events) (demo_client 3)); [|vm_compute; done|vm_compute; reflexivity].
  apply (fr_snoc _ _ (take 2 demo_events) (demo_client 2)); [|eexists; vm_compute; split; reflexivity|vm_compute; reflexivity].
  apply (fr_snoc _ _ (take 1 demo_events) (demo_client 1)); [|vm_compute; done|vm_compute; reflexivity].
  apply (fr_snoc _ _ [] (demo_client 0)); [constructor|eexists; vm_compute; split; reflexivity|vm_compute; reflexivity].
Qed.
Lemma demo_reach3 : fe_reach demo_tokenizer (RP:=demo_requests) (demo_client 3).
Proof.
  exists false, (Generate "a" demo_call 5 :: take 3 demo_events).
  apply (fr_snoc _ _ (Generate "a" demo_call 5 :: take 2 demo_events) (demo_client 2));
    [|eexists; vm_compute; split; reflexivity|vm_compute; reflexivity].
  apply (fr_snoc _ _ (Generate "a" demo_call 5 :: take 1 demo_events) (demo_client 1)); [|vm_compute; done|vm_compute; reflexivity].
  apply (fr_snoc _ _ [Generate "a" demo_call 5] (demo_client 0)); [|eexists; vm_compute; split; reflexivity|vm_compute; reflexivity].
  apply (fr_snoc _ _ [] (async_llm_init false)); [constructor|done|apply demo_generated].
Qed.

Lemma streams_isolated_witness :
  ∃ dr tk l outs d, tasks (demo_client 4) !! 0 = Some tk ∧ queues (demo_client 4) !! 0 = Some l ∧
    stream demo_tokenizer (run_chunks "a" demo_events) (from_new_request demo_tokenizer dr) = Ok (outs, d) ∧
    (tk_yielded tk ++ l).*1 = outs ∧ length l = 1.
Proof.
  destruct (streams_isolated demo_tokenizer (async_llm_init false) (demo_client 0) (demo_client 4) "a" demo_call 5
    demo_events demo_start_reach) as (dr & er & m' & tk & l & outs & d & _ & H2 & H3 & H4 & H5 & _).
  - by move=> t tk.
  - exact demo_generated.
  - eexists. vm_compute. split; reflexivity.
  - exact demo_run.
  - rw /demo_events. by move=> /elem_of_cons [|/elem_of_cons [|/elem_of_cons [|/elem_of_cons [|/elem_of_nil]]]].
  - exists dr, tk, l, outs, d. repeat (split; [assumption|]). vm_compute in H3. injection H3 as <-. reflexivity.
Defined.

Definition demo_refused : RequestArgs (Image:=unit) (PromptBody:=unit) :=
  {| ra_prompt := PromptText "hi"; ra_params := ParamsPooling; ra_arrival_time := None; ra_lora_request := false;
     ra_trace_headers := false; ra_priority := 0 |}.
Definition demo_after_refusal : AsyncLLM := state_after (generate demo_tokenizer "a" demo_refused 5) (async_llm_init false).
Lemma refused_id_stays_taken_witness :
  ∃ s3, generate demo_tokenizer "a" demo_call 6 demo_after_refusal = Ok (tt, s3) ∧
    has_status s3 1 (Failed (ValueError "already running")).
Proof.
  destruct (refused_id_stays_taken demo_tokenizer (async_llm_init false) demo_after_refusal demo_after_refusal "a"
    demo_refused 5 (AssertionError "isinstance(params, SamplingParams)") [] demo_call 6 demo_start_reach)
    as (s3 & H1 & H2 & _).
  - by move=> t tk.
  - vm_compute. reflexivity.
  - vm_compute. reflexivity.
  - constructor.
  - apply not_elem_of_nil.
  - exists s3. split; [exact H1|exact H2].
Defined.

Lemma output_handler_survives_witness :
  ∃ s', handle_outputs demo_tokenizer [demo_output [78; 68]%Z] None (demo_client 3) = Ok (tt, s').
Proof.
  exact (output_handler_survives demo_tokenizer (demo_client 3) [demo_output [78; 68]%Z] None demo_total demo_reach3).
Defined.

Definition demo_engine_with_abort : EngineCore := after (receive (ReqAbort ["a"%string])) demo_turned.
Lemma stop_string_ends_engine_witness :
  to_core (demo_client 4) = to_core (demo_client 3) ++ [ReqAbort ["a"%string]] ∧
  ∃ x, busy_turn pairing_hash demo_engine_with_abort = Raise x.
Proof.
  destruct (Detokenizer.step demo_tokenizer [demo_output [78; 68]%Z] (request_states (demo_client 3)))
    as [[[ros ids] st]|] eqn:E; last by vm_compute in E.
  have Hids : ids = ["a"%string] by vm_compute in E; injection E as _ <- _.
  subst ids.
  destruct (stop_string_ends_engine demo_tokenizer pairing_hash (demo_client 3) (demo_client 4)
    [demo_output [78; 68]%Z] None ros ["a"%string] st demo_engine_with_abort demo_reach3 E) as (_ & H2 & H3).
  - done.
  - vm_compute. reflexivity.
  - split; [exact H2|]. apply H3. apply (list_elem_of_lookup_2 _ 0). vm_compute. reflexivity.
Defined.
