(* ===== verification/Evictor.v ===== *)
(** The evictor of the V0 block manager: [LRUEvictor] of vllm/core/evictor.py.

    The priority queue of [heapq] is a list whose order does not matter: the code
    only pushes, pops the least tuple and rebuilds. Timestamps are integers. *)
From Stdlib Require Import ssreflect ZArith Lia.
From stdpp Require Import base numbers list gmap strings.
From S2P Require Import Prelude.

Record BlockMetaData := {
  bm_content_hash : Z;
  bm_num_hashed_tokens : Z;
  bm_last_accessed : Z;
}.
Definition set_bm_last_accessed (v : Z) (b : BlockMetaData) : BlockMetaData :=
  {| bm_content_hash := bm_content_hash b; bm_num_hashed_tokens := bm_num_hashed_tokens b; bm_last_accessed := v |}.

(** A tuple of the priority queue:
    [(last_accessed, -num_hashed_tokens, block_id, content_hash)]. *)
Abbreviation Entry := (Z * Z * Z * Z)%type.
Definition e_last_accessed (e : Entry) : Z := e.1.1.1.
Definition e_block_id (e : Entry) : Z := e.1.2.
Definition e_content_hash (e : Entry) : Z := e.2.

Record LRUEvictor := {
  free_table : dict Z BlockMetaData;
  priority_queue : list Entry;
}.
Definition set_free_table (v : dict Z BlockMetaData) (e : LRUEvictor) : LRUEvictor :=
  {| free_table := v; priority_queue := priority_queue e |}.
Definition set_priority_queue (v : list Entry) (e : LRUEvictor) : LRUEvictor :=
  {| free_table := free_table e; priority_queue := v |}.
Abbreviation EV := (M LRUEvictor).

Definition CLEANUP_THRESHOLD : nat := 50.
Definition evictor_init : LRUEvictor := {| free_table := []; priority_queue := [] |}.

(** * The heap *)

(** The order of tuples. *)
Definition tuple_leb (a b : Entry) : bool :=
  let '(a1, a2, a3, a4) := a in
  let '(b1, b2, b3, b4) := b in
  if (a1 =? b1)%Z then
    if (a2 =? b2)%Z then if (a3 =? b3)%Z then (a4 <=? b4)%Z else (a3 <? b3)%Z
    else (a2 <? b2)%Z
  else (a1 <? b1)%Z.
(** The least element. *)
Fixpoint least (x : Entry) (l : list Entry) : Entry :=
  match l with [] => x | y :: l => least (if tuple_leb x y then x else y) l end.
Fixpoint remove_one (x : Entry) (l : list Entry) : list Entry :=
  match l with [] => [] | y :: l => if decide (x = y) then l else y :: remove_one x l end.
(** [heapq.heappop] *)
Definition heappop (l : list Entry) : option (Entry * list Entry) :=
  match l with [] => None | x :: l' => let m := least x l' in Some (m, remove_one m l) end.

(** * Methods *)
Definition evictor_contains (block_id : Z) (e : LRUEvictor) : bool := dmem (free_table e) block_id.
Definition evictor_num_blocks (e : LRUEvictor) : nat := length (free_table e).

(** The entry describes a block of the table. *)
Definition current (t : dict Z BlockMetaData) (x : Entry) : bool :=
  match dget t (e_block_id x) with
  | Some m => (bm_last_accessed m =? e_last_accessed x)%Z
  | None => false
  end.
(** The loop of [evict]; the queue gets shorter in every turn. *)
Fixpoint evict_loop (fuel : nat) : EV (Z * Z) :=
  match fuel with
  | 0 => mraise OutOfFuel
  | S fuel =>
    e ← mget;
    match heappop (priority_queue e) with
    | None => mraise (ValueError "No usable cache memory left")
    | Some (x, queue) =>
      mmodify (set_priority_queue queue);;;
      if current (free_table e) x then
        mmodify (λ e, set_free_table (ddel (free_table e) (e_block_id x)) e);;;
        mret (e_block_id x, e_content_hash x)
      else evict_loop fuel
    end
  end.
Definition evict : EV (Z * Z) :=
  e ← mget;
  if bool_decide (free_table e = []) then mraise (ValueError "No usable cache memory left")
  else evict_loop (S (length (priority_queue e))).

Definition entry_of (x : Z * BlockMetaData) : Entry :=
  (bm_last_accessed x.2, (- bm_num_hashed_tokens x.2)%Z, x.1, bm_content_hash x.2).
Definition cleanup : EV unit := mmodify (λ e, set_priority_queue (entry_of <$> free_table e) e).
Definition cleanup_if_necessary : EV unit :=
  e ← mget;
  mwhen (bool_decide (CLEANUP_THRESHOLD * length (free_table e) < length (priority_queue e))) cleanup.
Definition evictor_add (block_id content_hash num_hashed_tokens last_accessed : Z) : EV unit :=
  let m := {| bm_content_hash := content_hash; bm_num_hashed_tokens := num_hashed_tokens;
              bm_last_accessed := last_accessed |} in
  mmodify (λ e, set_free_table (dset (free_table e) block_id m) e);;;
  mmodify (λ e, set_priority_queue (entry_of (block_id, m) :: priority_queue e) e);;;
  cleanup_if_necessary.
Definition evictor_update (block_id last_accessed : Z) : EV unit :=
  e ← mget;
  match dget (free_table e) block_id with
  | None => mraise (KeyError "block_id")
  | Some m => mmodify (λ e, set_free_table (dset (free_table e) block_id (set_bm_last_accessed last_accessed m)) e)
  end.
Definition evictor_remove (block_id : Z) : EV unit :=
  e ← mget;
  if negb (dmem (free_table e) block_id)
  then mraise (ValueError "Attempting to remove block that's not in the evictor")
  else mmodify (λ e, set_free_table (ddel (free_table e) block_id) e).

(** * The heap, specified *)
Lemma tuple_leb_spec a b : tuple_leb a b = true →
  (e_last_accessed a ≤ e_last_accessed b)%Z.
Proof.
  destruct a as [[[a1 a2] a3] a4], b as [[[b1 b2] b3] b4]. rw /tuple_leb /e_last_accessed /=.
  destruct (Z.eqb_spec a1 b1); lia.
Qed.
Lemma tuple_leb_total a b : tuple_leb a b = false → tuple_leb b a = true.
Proof.
  destruct a as [[[a1 a2] a3] a4], b as [[[b1 b2] b3] b4]. rw /tuple_leb.
  repeat (case_match; try lia).
Qed.
Lemma tuple_leb_trans a b c : tuple_leb a b = true → tuple_leb b c = true → tuple_leb a c = true.
Proof.
  destruct a as [[[a1 a2] a3] a4], b as [[[b1 b2] b3] b4], c as [[[c1 c2] c3] c4]. rw /tuple_leb.
  repeat (case_match; try lia).
Qed.
Lemma tuple_leb_refl a : tuple_leb a a = true.
Proof. destruct (tuple_leb a a) eqn:E; [done|]. have := tuple_leb_total _ _ E. congruence. Qed.

Lemma least_spec l : ∀ x, least x l ∈ x :: l ∧ ∀ y, y ∈ x :: l → tuple_leb (least x l) y = true.
Proof.
  elim: l => [|z l IH] x /=.
  { split; [by left|]. move=> y /list_elem_of_singleton ->. apply tuple_leb_refl. }
  destruct (IH (if tuple_leb x z then x else z)) as [H1 H2]. split.
  - move: H1 => /elem_of_cons [->|H1]; [destruct (tuple_leb x z); [by left|right; by left]|by do 2 right].
  - have Hz := H2 _ (list_elem_of_here _ _). move=> y /elem_of_cons [->|/elem_of_cons [->|Hy]]; last by apply H2; right.
    + destruct (tuple_leb x z) eqn:E; [done|]. by eapply tuple_leb_trans, tuple_leb_total.
    + destruct (tuple_leb x z) eqn:E; [by eapply tuple_leb_trans|done].
Qed.
Lemma remove_one_Permutation x l : x ∈ l → l ≡ₚ x :: remove_one x l.
Proof.
  elim: l => [|y l IH]; first by move=> /elem_of_nil. move=> /elem_of_cons Hx /=. case_decide as Hd; first by subst.
  rw {1}IH; [by destruct Hx|]. constructor.
Qed.
Lemma heappop_spec l x l' : heappop l = Some (x, l') → l ≡ₚ x :: l' ∧ ∀ y, y ∈ l → tuple_leb x y = true.
Proof.
  destruct l as [|z l]; first done. move=> [= <- <-]. destruct (least_spec l z) as [H1 H2].
  split; [by apply remove_one_Permutation|exact H2].
Qed.

(** * Eviction *)
Abbreviation current_entries t q := (filter (λ x, current t x = true) q).

Lemma evict_loop_spec n : ∀ e, length (priority_queue e) < n →
  match current_entries (free_table e) (priority_queue e) with
  | [] => evict_loop n e = Raise (ValueError "No usable cache memory left")
  | _ :: _ => ∃ x e', evict_loop n e = Ok ((e_block_id x, e_content_hash x), e') ∧
      current_entries (free_table e) (priority_queue e) ≡ₚ x :: current_entries (free_table e) (priority_queue e') ∧
      (∀ y, y ∈ current_entries (free_table e) (priority_queue e) → tuple_leb x y = true) ∧
      free_table e' = ddel (free_table e) (e_block_id x)
  end.
Proof.
  elim: n => [|n IH] e Hn; first lia. cbn [evict_loop]. rw /mbind /M_bind /mget.
  destruct (heappop (priority_queue e)) as [[x q]|] eqn:E; last by destruct (priority_queue e).
  destruct (heappop_spec _ _ _ E) as [HP Hm].
  have HF : current_entries (free_table e) (priority_queue e) ≡ₚ
    (if current (free_table e) x then [x] else []) ++ current_entries (free_table e) q.
  { rw HP filter_cons. by destruct (current (free_table e) x). }
  rw /mmodify. destruct (current (free_table e) x) eqn:Hx.
  - destruct (current_entries (free_table e) (priority_queue e)) as [|y l] eqn:EF.
    { apply Permutation_length in HF. simpl in HF. lia. }
    exists x. eexists. split; first reflexivity. split; first exact HF. split; last done.
    move=> z. rw -EF. move=> /list_elem_of_filter [_ Hz]. by apply Hm.
  - have Hlen : length q < n by apply Permutation_length in HP; simpl in HP; lia.
    have {IH} := IH (set_priority_queue q e) Hlen. cbn [free_table priority_queue set_priority_queue]. simpl in HF.
    destruct (current_entries (free_table e) (priority_queue e)) as [|y l] eqn:EF.
    { apply Permutation_nil_l in HF. by rw -HF. }
    destruct (current_entries (free_table e) q) as [|y' l'] eqn:Eq.
    { apply Permutation_length in HF. simpl in HF. lia. }
    move=> [z [e' [H1 [H2 [H3 H4]]]]]. exists z, e'. split; first exact H1.
    split; first by etrans; [exact HF|exact H2]. split; last exact H4.
    move=> w Hw. apply H3. by eapply elem_of_Permutation_proper; [symmetry; exact HF|].
Qed.

(** The states reached without [update]. *)
Inductive evictor_reach : LRUEvictor → Prop :=
  | vr_init : evictor_reach evictor_init
  | vr_add e b h n ts e' : evictor_reach e → evictor_add b h n ts e = Ok (tt, e') → evictor_reach e'
  | vr_remove e b e' : evictor_reach e → evictor_remove b e = Ok (tt, e') → evictor_reach e'
  | vr_evict e r e' : evictor_reach e → evict e = Ok (r, e') → evictor_reach e'.

(** Every block of the table has a current entry. *)
Record covered (e : LRUEvictor) : Prop := {
  cv_wf : dict_wf (free_table e);
  cv_entry : ∀ b m, dget (free_table e) b = Some m →
    ∃ x, x ∈ priority_queue e ∧ e_block_id x = b ∧ e_last_accessed x = bm_last_accessed m;
}.
Lemma current_spec t x : current t x = true ↔ ∃ m, dget t (e_block_id x) = Some m ∧ bm_last_accessed m = e_last_accessed x.
Proof.
  rw /current. destruct (dget t (e_block_id x)) as [m|]; last by split; [|move=> [? [? ?]]].
  rw Z.eqb_eq. split; [by eexists|by move=> [? [[= <-] ?]]].
Qed.
Lemma covered_entry e b m : covered e → dget (free_table e) b = Some m →
  ∃ x, x ∈ current_entries (free_table e) (priority_queue e) ∧ e_block_id x = b ∧ e_last_accessed x = bm_last_accessed m.
Proof.
  move=> HC Hm. destruct (cv_entry _ HC _ _ Hm) as (x & H1 & H2 & H3). exists x. split; last done.
  apply list_elem_of_filter. split; last done. apply current_spec. exists m. by rw H2.
Qed.

Lemma evict_covered e : covered e → free_table e ≠ [] →
  ∃ x m e', evict e = Ok ((e_block_id x, e_content_hash x), e') ∧ x ∈ priority_queue e ∧
    dget (free_table e) (e_block_id x) = Some m ∧
    (∀ b' m', dget (free_table e) b' = Some m' → (bm_last_accessed m ≤ bm_last_accessed m')%Z) ∧
    free_table e' = ddel (free_table e) (e_block_id x) ∧ covered e'.
Proof.
  move=> HC Hne. rw /evict /mbind /M_bind /mget bool_decide_eq_false_2 //.
  have := evict_loop_spec (S (length (priority_queue e))) e (Nat.lt_succ_diag_r _).
  destruct (current_entries (free_table e) (priority_queue e)) as [|y l] eqn:EF.
  { destruct (free_table e) as [|[b m] t] eqn:ET; first done.
    destruct (covered_entry e b m HC) as (x & H & _); first by rw ET /= decide_True.
    rw ET EF in H. by apply elem_of_nil in H. }
  rw -EF. move=> [x [e' [H1 [H2 [H3 H4]]]]].
  have Hx : x ∈ current_entries (free_table e) (priority_queue e) by rw H2; left.
  apply list_elem_of_filter in Hx as [Hc Hx]. apply current_spec in Hc as (m & Hm & Ht).
  exists x, m, e'. split_and!; try done.
  - move=> b' m' Hm'. destruct (covered_entry e b' m' HC Hm') as (z & Hz & _ & Hts).
    have := tuple_leb_spec _ _ (H3 _ Hz). lia.
  - destruct HC as [C1 C2]. split; rw H4; first by apply dict_wf_ddel.
    move=> b' m'. rw dget_ddel //. case_decide as Hb; first done. move=> Hm'.
    destruct (covered_entry e b' m' (Build_covered _ C1 C2) Hm') as (z & Hz & Hzb & Hts). exists z. split; last done.
    move: Hz. rw H2 => /elem_of_cons [?|/list_elem_of_filter [_ ?]]; [by subst|done].
Qed.
Lemma covered_add e b h n ts e' : covered e → evictor_add b h n ts e = Ok (tt, e') → covered e'.
Proof.
  move=> [C1 C2]. rw /evictor_add /cleanup_if_necessary /cleanup /mbind /M_bind /mmodify /mget /mwhen. cbn.
  set t := dset (free_table e) b _. have Hwf : dict_wf t by apply dict_wf_dset.
  case_bool_decide; move=> [= <-]; split; cbn; try done; move=> b' m' Hm'.
  - exists (entry_of (b', m')). split; last done. apply list_elem_of_fmap_2. by apply dget_Some_elem.
  - move: Hm'. rw /t dget_dset. case_decide as Hb.
    + move=> [= <-]. subst b'. eexists. split; first by left. done.
    + move=> Hm'. destruct (C2 _ _ Hm') as (x & Hx & ?). exists x. split; [by right|done].
Qed.
Lemma evictor_reach_covered e : evictor_reach e → covered e.
Proof.
  induction 1 as [|e b h n ts e' _ IH Hr|e b e' _ [C1 C2] Hr|e r e' _ IH Hr].
  - split; [apply dict_wf_nil|done].
  - by eapply covered_add.
  - move: Hr. rw /evictor_remove /mbind /M_bind /mget. destruct (dmem (free_table e) b); last done. move=> [= <-].
    split; cbn; [by apply dict_wf_ddel|]. move=> b' m'. rw dget_ddel //. by case_decide; [|apply C2].
  - destruct (decide (free_table e = [])) as [Hn|Hne].
    { move: Hr. by rw /evict /mbind /M_bind /mget bool_decide_eq_true_2. }
    destruct (evict_covered e IH Hne) as (x & m & e'' & H1 & _ & _ & _ & _ & H2). rw Hr in H1. by injection H1 as _ ->.
Qed.

(** As long as no timestamp is updated in place, [evict] never fails on a
    non-empty evictor, and what it hands out is a least recently used block,
    which leaves the table: outdated tuples of the queue do not hide a block or
    return one that is gone. *)
Theorem evict_least_recent e : evictor_reach e → free_table e ≠ [] →
  ∃ b h m e', evict e = Ok ((b, h), e') ∧ dget (free_table e) b = Some m ∧
    (∀ b' m', dget (free_table e) b' = Some m' → (bm_last_accessed m ≤ bm_last_accessed m')%Z) ∧
    free_table e' = ddel (free_table e) b ∧ evictor_contains b e' = false.
Proof.
  move=> /evictor_reach_covered HC Hne. destruct (evict_covered e HC Hne) as (x & m & e' & H1 & _ & H3 & H4 & H5 & _).
  exists (e_block_id x), (e_content_hash x), m, e'. split_and!; try done.
  rw /evictor_contains H5 /dmem dget_ddel_eq //. apply HC.
Qed.
Definition demo_evictor : LRUEvictor :=
  {| free_table := [(4%Z, {| bm_content_hash := 40; bm_num_hashed_tokens := 16; bm_last_accessed := 9 |});
                    (5%Z, {| bm_content_hash := 50; bm_num_hashed_tokens := 16; bm_last_accessed := 3 |})];
     priority_queue := [(3, -16, 5, 50); (9, -16, 4, 40)]%Z |}.
Lemma evict_least_recent_witness :
  ∃ h e', evict demo_evictor = Ok ((5%Z, h), e') ∧ free_table e' = ddel (free_table demo_evictor) 5%Z.
Proof.
  have Hr : evictor_reach demo_evictor.
  { apply (vr_add (match evictor_add 4 40 16 9 evictor_init with Ok (_, e) => e | Raise _ => evictor_init end) 5 50 16 3);
      [|vm_compute; reflexivity].
    apply (vr_add evictor_init 4 40 16 9); [apply vr_init|vm_compute; reflexivity]. }
  destruct (evict_least_recent demo_evictor Hr) as (b & h & m & e' & H1 & H2 & H3 & H4 & _); first done.
  have Hb : b = 5%Z by vm_compute in H1; injection H1 as <- _ _.
  subst b. by exists h, e'.
Defined.

(** [update] changes the time of a block without a new tuple in the queue, so
    that the block is no longer found: [evict] fails although a block is there. *)
Lemma updated_block_lost :
  ∃ e1 e2, evictor_add 4 40 16 1 evictor_init = Ok (tt, e1) ∧ evictor_update 4 2 e1 = Ok (tt, e2) ∧
    evictor_num_blocks e2 = 1 ∧ evict e2 = Raise (ValueError "No usable cache memory left").
Proof. do 2 eexists. by vm_compute. Qed.

(** A tuple of an earlier use of a block with the same timestamp passes for
    current: the evicted block is returned with the hash of its old content. *)
Lemma stale_hash_evicted :
  ∃ e1 e2 e3 e4, evictor_add 4 40 32 (-1) evictor_init = Ok (tt, e1) ∧ evictor_remove 4 e1 = Ok (tt, e2) ∧
    evictor_add 4 41 16 (-1) e2 = Ok (tt, e3) ∧ bm_content_hash <$> dget (free_table e3) 4%Z = Some 41%Z ∧
    evict e3 = Ok ((4, 40)%Z, e4).
Proof. do 4 eexists. by vm_compute. Qed.
