(* ===== verification/NaiveBlocks.v ===== *)
(** The block objects of the V0 block manager without prefix caching: the
    reference counter, the copy-on-write tracker and the block pool of
    vllm/core/block/common.py, and [NaiveBlock] and [NaiveBlockAllocator] of
    vllm/core/block/naive_block.py.

    Block objects are shared and mutated: an object is its index in the pool,
    which never drops one. [prev_block] is such an index, and may be stale when
    its object was returned to the pool. The pool never gives a block another
    copy-on-write target than itself. *)
From Stdlib Require Import ssreflect ZArith Lia.
From stdpp Require Import base numbers list gmap strings sorting.
From S2P Require Import Prelude.

(** * Data *)
Record NaiveBlock := {
  nb_token_ids : list Z;
  nb_block_size : nat;
  nb_prev_block : option nat;
  nb_block_id : option nat;
  nb_pool_id : option nat;
}.
Record BlockPool := {
  bp_block_size : nat;
  bp_pool_size : nat;
  bp_free_ids : list nat;
  bp_pool : list NaiveBlock;
}.
Record NaiveBlockAllocator := {
  free_block_indices : list nat;
  all_block_indices : gset nat;
  na_refcounts : gmap nat Z;
  na_block_size : nat;
  na_copy_on_writes : list (nat * nat);
  na_block_pool : BlockPool;
}.

(** Attribute stores. *)
Definition set_nb_token_ids (v : list Z) (r : NaiveBlock) : NaiveBlock :=
  {| nb_token_ids := v; nb_block_size := nb_block_size r; nb_prev_block := nb_prev_block r; nb_block_id := nb_block_id r; nb_pool_id := nb_pool_id r |}.
Definition set_nb_block_id (v : option nat) (r : NaiveBlock) : NaiveBlock :=
  {| nb_token_ids := nb_token_ids r; nb_block_size := nb_block_size r; nb_prev_block := nb_prev_block r; nb_block_id := v; nb_pool_id := nb_pool_id r |}.
Definition set_nb_pool_id (v : option nat) (r : NaiveBlock) : NaiveBlock :=
  {| nb_token_ids := nb_token_ids r; nb_block_size := nb_block_size r; nb_prev_block := nb_prev_block r; nb_block_id := nb_block_id r; nb_pool_id := v |}.
Definition set_bp_pool_size (v : nat) (r : BlockPool) : BlockPool :=
  {| bp_block_size := bp_block_size r; bp_pool_size := v; bp_free_ids := bp_free_ids r; bp_pool := bp_pool r |}.
Definition set_bp_free_ids (v : list nat) (r : BlockPool) : BlockPool :=
  {| bp_block_size := bp_block_size r; bp_pool_size := bp_pool_size r; bp_free_ids := v; bp_pool := bp_pool r |}.
Definition set_bp_pool (v : list NaiveBlock) (r : BlockPool) : BlockPool :=
  {| bp_block_size := bp_block_size r; bp_pool_size := bp_pool_size r; bp_free_ids := bp_free_ids r; bp_pool := v |}.
Definition set_free_block_indices (v : list nat) (r : NaiveBlockAllocator) : NaiveBlockAllocator :=
  {| free_block_indices := v; all_block_indices := all_block_indices r; na_refcounts := na_refcounts r; na_block_size := na_block_size r; na_copy_on_writes := na_copy_on_writes r; na_block_pool := na_block_pool r |}.
Definition set_na_refcounts (v : gmap nat Z) (r : NaiveBlockAllocator) : NaiveBlockAllocator :=
  {| free_block_indices := free_block_indices r; all_block_indices := all_block_indices r; na_refcounts := v; na_block_size := na_block_size r; na_copy_on_writes := na_copy_on_writes r; na_block_pool := na_block_pool r |}.
Definition set_na_copy_on_writes (v : list (nat * nat)) (r : NaiveBlockAllocator) : NaiveBlockAllocator :=
  {| free_block_indices := free_block_indices r; all_block_indices := all_block_indices r; na_refcounts := na_refcounts r; na_block_size := na_block_size r; na_copy_on_writes := v; na_block_pool := na_block_pool r |}.
Definition set_na_block_pool (v : BlockPool) (r : NaiveBlockAllocator) : NaiveBlockAllocator :=
  {| free_block_indices := free_block_indices r; all_block_indices := all_block_indices r; na_refcounts := na_refcounts r; na_block_size := na_block_size r; na_copy_on_writes := na_copy_on_writes r; na_block_pool := v |}.
Abbreviation BP := (M BlockPool).
Abbreviation NA := (M NaiveBlockAllocator).

(** * [NaiveBlock] *)
Definition num_empty_slots (b : NaiveBlock) : Z := (Z.of_nat (nb_block_size b) - Z.of_nat (length (nb_token_ids b)))%Z.
Definition nb_is_full (b : NaiveBlock) : bool := (num_empty_slots b =? 0)%Z.
(** [_append_token_ids_no_cow] *)
Definition append_token_ids_no_cow (token_ids : list Z) (b : NaiveBlock) : result NaiveBlock :=
  if bool_decide (token_ids = []) then Ok b
  else if (Z.of_nat (length token_ids) <=? num_empty_slots b)%Z
  then Ok (set_nb_token_ids (nb_token_ids b ++ token_ids) b)
  else Raise (AssertionError "len(token_ids) <= self.num_empty_slots").
(** [__init__]; the attribute [pool_id] is not one it sets. *)
Definition naive_block_init (prev_block : option nat) (token_ids : list Z) (block_size : nat) (block_id pool_id : option nat)
    : result NaiveBlock :=
  append_token_ids_no_cow token_ids
    {| nb_token_ids := []; nb_block_size := block_size; nb_prev_block := prev_block; nb_block_id := block_id;
       nb_pool_id := pool_id |}.

(** * [RefCounter] *)
Definition refcounter_init (all_block_indices : list nat) : gmap nat Z := gset_to_gmap 0%Z (list_to_set all_block_indices).
Definition ref_get (block_id : nat) : NA Z :=
  s ← mget;
  match na_refcounts s !! block_id with
  | Some n => mret n
  | None => mraise (AssertionError "block_id in self._refcounts")
  end.
Definition ref_set (block_id : nat) (n : Z) : NA unit :=
  mmodify (λ s, set_na_refcounts (<[block_id := n]> (na_refcounts s)) s).
Definition ref_incr (block_id : nat) : NA Z :=
  n ← ref_get block_id;
  massert (0 <=? n)%Z "pre_incr_refcount >= 0";;;
  ref_set block_id (n + 1)%Z;;; mret (n + 1)%Z.
Definition ref_decr (block_id : nat) : NA Z :=
  n ← ref_get block_id;
  massert (0 <? n)%Z "refcount > 0";;;
  ref_set block_id (n - 1)%Z;;; mret (n - 1)%Z.

(** * [BlockPool] *)
Definition blank_block (block_size : nat) : NaiveBlock :=
  {| nb_token_ids := []; nb_block_size := block_size; nb_prev_block := None; nb_block_id := None; nb_pool_id := None |}.
Definition pool_init (block_size pool_size : nat) : BlockPool :=
  {| bp_block_size := block_size; bp_pool_size := pool_size; bp_free_ids := seq 0 pool_size;
     bp_pool := replicate pool_size (blank_block block_size) |}.
Definition increase_pool : BP unit :=
  mmodify (λ p,
    set_bp_pool (bp_pool p ++ replicate (bp_pool_size p * 2 - bp_pool_size p) (blank_block (bp_block_size p)))
      (set_bp_free_ids (bp_free_ids p ++ seq (bp_pool_size p) (bp_pool_size p * 2 - bp_pool_size p))
        (set_bp_pool_size (bp_pool_size p * 2) p))).
Definition init_block (prev_block : option nat) (token_ids : list Z) (block_size : nat) (physical_block_id : option nat)
    : BP nat :=
  p ← mget;
  mwhen (bool_decide (bp_free_ids p = []))
    (increase_pool;;; p ← mget; massert (bool_decide (bp_free_ids p ≠ [])) "len(self._free_ids) > 0");;;
  p ← mget;
  match bp_free_ids p with
  | [] => mraise (IndexError "pop from an empty deque")
  | pool_id :: rest =>
    mmodify (set_bp_free_ids rest);;;
    match bp_pool p !! pool_id with
    | None => mraise (IndexError "list index out of range")
    | Some old =>
      block ← mlift (naive_block_init prev_block token_ids block_size physical_block_id (nb_pool_id old));
      mmodify (λ p, set_bp_pool (<[pool_id := set_nb_pool_id (Some pool_id) block]> (bp_pool p)) p);;;
      mret pool_id
    end
  end.

Definition on_pool {A} (m : BP A) : NA A := zoom na_block_pool set_na_block_pool m.
(** An attribute read and an update of a block object. *)
Definition the_block (o : nat) : NA NaiveBlock :=
  s ← mget;
  match bp_pool (na_block_pool s) !! o with Some b => mret b | None => mraise (IndexError "no such object") end.
Definition upd_block (o : nat) (f : NaiveBlock → NaiveBlock) : NA unit :=
  on_pool (mmodify (λ p, set_bp_pool (alter f o (bp_pool p)) p)).
(** [BlockPool.free_block] *)
Definition pool_free_block (o : nat) : NA unit :=
  b ← the_block o;
  match nb_pool_id b with
  | Some i => on_pool (mmodify (λ p, set_bp_free_ids (i :: bp_free_ids p) p))
  | None => mraise (AttributeError "pool_id")
  end.

(** * [CopyOnWriteTracker] *)
Definition is_appendable (o : nat) : NA bool :=
  b ← the_block o;
  match nb_block_id b with
  | None => mret true
  | Some id => n ← ref_get id; mret (n <=? 1)%Z
  end.
Definition record_cow (src trg : nat) : NA unit :=
  mmodify (λ s, set_na_copy_on_writes (na_copy_on_writes s ++ [(src, trg)]) s).
Definition clear_copy_on_writes : NA (list (nat * nat)) :=
  s ← mget; mput (set_na_copy_on_writes [] s);;; mret (na_copy_on_writes s).

(** * [NaiveBlockAllocator] *)
Definition naive_init (num_blocks block_size : nat) (block_ids : option (list nat)) : result NaiveBlockAllocator :=
  let block_ids := default (seq 0 num_blocks) block_ids in
  let all := list_to_set block_ids in
  if bool_decide (size (all : gset nat) = num_blocks) then
    Ok {| free_block_indices := block_ids; all_block_indices := all; na_refcounts := refcounter_init block_ids;
          na_block_size := block_size; na_copy_on_writes := [];
          na_block_pool := pool_init block_size (num_blocks * 4) |}
  else Raise (AssertionError "len(self._all_block_indices) == num_blocks").

Definition allocate_block_id : NA nat :=
  s ← mget;
  match free_block_indices s with
  | [] => mraise (ValueError "NoFreeBlocksError")
  | block_id :: rest =>
    mmodify (set_free_block_indices rest);;;
    ref_incr block_id;;;
    mret block_id
  end.
Definition free_block_id (o : nat) : NA unit :=
  b ← the_block o;
  match nb_block_id b with
  | None => mraise (AssertionError "block_id is not None")
  | Some block_id =>
    refcount ← ref_decr block_id;
    mwhen (refcount =? 0)%Z (mmodify (λ s, set_free_block_indices (block_id :: free_block_indices s) s));;;
    upd_block o (set_nb_block_id None)
  end.
Definition naive_free (o : nat) (keep_block_object : bool) : NA unit :=
  free_block_id o;;;
  mwhen (negb keep_block_object) (pool_free_block o).

Definition cow_block_if_not_appendable (o : nat) : NA nat :=
  b ← the_block o;
  match nb_block_id b with
  | None => mraise (AssertionError "src_block_id is not None")
  | Some src_block_id =>
    appendable ← is_appendable o;
    if (appendable : bool) then mret src_block_id
    else
      free_block_id o;;;
      trg_block_id ← allocate_block_id;
      record_cow src_block_id trg_block_id;;;
      mret trg_block_id
  end.
(** [NaiveBlock.append_token_ids] *)
Definition append_token_ids (o : nat) (token_ids : list Z) : NA unit :=
  b ← the_block o;
  b' ← mlift (append_token_ids_no_cow token_ids b);
  upd_block o (λ _, b');;;
  match nb_block_id b' with
  | None => mret tt
  | Some _ => id ← cow_block_if_not_appendable o; upd_block o (set_nb_block_id (Some id))
  end.

Definition allocate_mutable_block (prev_block : option nat) : NA nat :=
  block_id ← allocate_block_id;
  s ← mget;
  on_pool (init_block prev_block [] (na_block_size s) (Some block_id)).
Definition allocate_immutable_block (prev_block : option nat) (token_ids : list Z) : NA nat :=
  o ← allocate_mutable_block prev_block;
  append_token_ids o token_ids;;;
  mret o.
(** All ids are allocated before the first block. *)
Definition allocate_immutable_blocks (prev_block : option nat) (block_token_ids : list (list Z)) : NA (list nat) :=
  block_ids ← mfold block_token_ids [] (λ ids _, id ← allocate_block_id; mret (ids ++ [id]));
  s ← mget;
  '(_, blocks) ← mfold (zip block_token_ids block_ids) (prev_block, []) (λ '(prev_block, blocks) '(token_ids, id),
    o ← on_pool (init_block prev_block token_ids (na_block_size s) (Some id));
    mret (Some o, blocks ++ [o]));
  mret blocks.

(** [get_all_blocks_recursively]: the chain of previous blocks, the last one at
    the end. *)
Fixpoint all_blocks (fuel : nat) (last_block : nat) : NA (list nat) :=
  match fuel with
  | 0 => mraise OutOfFuel
  | S fuel =>
    b ← the_block last_block;
    before ← match nb_prev_block b with Some p => all_blocks fuel p | None => mret [] end;
    mret (before ++ [last_block])
  end.
Definition fork_block (acc : option nat * list nat) (o : nat) : NA (option nat * list nat) :=
  let '(prev_block, forked_blocks) := acc in
  b ← the_block o;
  match nb_block_id b with
  | None => mraise (AssertionError "block.block_id is not None")
  | Some id =>
    refcount ← ref_incr id;
    massert (negb (refcount =? 1)%Z) "can't fork free'd block";;;
    s ← mget;
    o' ← on_pool (init_block prev_block (nb_token_ids b) (na_block_size s) (Some id));
    mret (Some o', forked_blocks ++ [o'])
  end.
Definition naive_fork (last_block : nat) : NA (list nat) :=
  s ← mget;
  source_blocks ← all_blocks (S (length (bp_pool (na_block_pool s)))) last_block;
  '(_, forked_blocks) ← mfold source_blocks (None, []) fork_block;
  mret forked_blocks.

Definition naive_swap_out (blocks : list nat) : NA unit := mfor blocks free_block_id.
Definition swap_in_block (o : nat) : NA unit :=
  b ← the_block o;
  tmp ← (if nb_is_full b then allocate_immutable_block (nb_prev_block b) (nb_token_ids b)
         else o ← allocate_mutable_block (nb_prev_block b); append_token_ids o (nb_token_ids b);;; mret o);
  t ← the_block tmp;
  upd_block tmp (set_nb_block_id None);;;
  pool_free_block tmp;;;
  upd_block o (set_nb_block_id (nb_block_id t)).
Definition naive_swap_in (blocks : list nat) : NA unit := mfor blocks swap_in_block.

Definition na_get_num_free_blocks (s : NaiveBlockAllocator) : nat := length (free_block_indices s).
Definition get_num_total_blocks (s : NaiveBlockAllocator) : nat := size (all_block_indices s).
(** [sorted(self._all_block_indices).index(absolute_id)] *)
Definition get_physical_block_id (absolute_id : nat) (s : NaiveBlockAllocator) : result nat :=
  match list_find (absolute_id =.) (merge_sort le (elements (all_block_indices s))) with
  | Some (i, _) => Ok i
  | None => Raise (ValueError "is not in list")
  end.
Definition get_num_full_blocks_touched (blocks : list nat) : NA nat :=
  full ← mfold blocks [] (λ acc o, b ← the_block o; mret (if nb_is_full b && negb (bool_decide (o ∈ acc)) then acc ++ [o] else acc));
  mret (length full).
