(* ===== verification/NaiveTheorems.v ===== *)
(** The naive V0 allocator: its invariant, and copy-on-write. *)
From Stdlib Require Import ssreflect ZArith Lia.
From stdpp Require Import base numbers list gmap strings sorting.
From S2P Require Import Prelude NaiveBlocks.

(** * The pool *)

(** The physical blocks that objects stand for, with repetitions. *)
Definition holders (pool : list NaiveBlock) : list nat := omap nb_block_id pool.
Definition uses (pool : list NaiveBlock) (id : nat) : Z := occ id (holders pool).

Definition holds (b : NaiveBlock) (id : nat) : Z := if decide (nb_block_id b = Some id) then 1%Z else 0%Z.
Lemma holds_None b id : nb_block_id b = None → holds b id = 0%Z.
Proof. rw /holds => ->. by case_decide. Qed.
Lemma holds_Some b i id : nb_block_id b = Some i → holds b id = if decide (id = i) then 1%Z else 0%Z.
Proof. rw /holds => ->. repeat case_decide; congruence. Qed.
Lemma uses_app p1 p2 id : uses (p1 ++ p2) id = (uses p1 id + uses p2 id)%Z.
Proof. by rw /uses /holders omap_app occ_app. Qed.
Lemma uses_cons b p id : uses (b :: p) id = (holds b id + uses p id)%Z.
Proof.
  rw /uses /holders /holds /=. destruct (nb_block_id b) as [i|].
  - rw occ_cons. destruct (decide (id = i)) as [->|]; [by rw decide_True|rw decide_False //; congruence].
  - by case_decide.
Qed.
Lemma uses_blank n bs id : uses (replicate n (blank_block bs)) id = 0%Z.
Proof. elim: n => [//|n IH] /=. by rw uses_cons IH. Qed.
Lemma uses_insert p o b b' id : p !! o = Some b →
  uses (<[o := b']> p) id = (uses p id - holds b id + holds b' id)%Z.
Proof.
  move=> Hb. have Hlt := lookup_lt_Some _ _ _ Hb.
  rw insert_take_drop // uses_app uses_cons. have := take_drop_middle _ _ _ Hb => Hp.
  have := f_equal (λ l, uses l id) Hp. rw /= uses_app uses_cons. lia.
Qed.
Lemma uses_pos p id : (0 < uses p id)%Z ↔ ∃ o b, p !! o = Some b ∧ nb_block_id b = Some id.
Proof.
  rw /uses -occ_pos /holders list_elem_of_omap. split.
  - move=> [b [Hin Hb]]. apply list_elem_of_lookup in Hin as [o Ho]. by exists o, b.
  - move=> [o [b [Ho Hb]]]. exists b. split; [by eapply list_elem_of_lookup_2|done].
Qed.
Lemma uses_nonneg p id : (0 ≤ uses p id)%Z.
Proof. apply occ_nonneg. Qed.
(** An object that is the only holder. *)
Lemma uses_one p id o b : p !! o = Some b → nb_block_id b = Some id → (uses p id ≤ 1)%Z →
  ∀ o' b', p !! o' = Some b' → nb_block_id b' = Some id → o' = o.
Proof.
  move=> Hb Hid Hle o' b' Hb' Hid'. destruct (decide (o' = o)) as [|Hne]; first done.
  have Hu := uses_insert p o b (set_nb_block_id None b) id Hb.
  have H0 : (0 < uses (<[o := set_nb_block_id None b]> p) id)%Z.
  { apply uses_pos. exists o', b'. by rw list_lookup_insert_ne. }
  move: Hu. rw (holds_Some _ _ _ Hid) decide_True // holds_None //. lia.
Qed.

Record pool_inv (p : BlockPool) : Prop := {
  pi_len : length (bp_pool p) = bp_pool_size p;
  pi_nodup : NoDup (bp_free_ids p);
  pi_free : ∀ o, o ∈ bp_free_ids p → ∃ b, bp_pool p !! o = Some b ∧ nb_block_id b = None;
  pi_pool_id : ∀ o b, bp_pool p !! o = Some b → o ∉ bp_free_ids p → nb_pool_id b = Some o;
}.
(** An object that is handed out. *)
Definition live (p : BlockPool) (o : nat) : Prop := o < length (bp_pool p) ∧ o ∉ bp_free_ids p.
(** The objects handed out are the same in both states, except for one. *)
Definition others_kept (p p' : BlockPool) (o : nat) : Prop :=
  ∀ o', o' ≠ o → live p o' → live p' o' ∧ bp_pool p' !! o' = bp_pool p !! o'.

Lemma pool_inv_init bs n : pool_inv (pool_init bs n).
Proof.
  split; simpl.
  - apply length_replicate.
  - apply NoDup_seq.
  - move=> o /elem_of_seq Ho. exists (blank_block bs). split; [apply lookup_replicate_2; lia|done].
  - move=> o b /lookup_replicate [_ Ho] Hn. exfalso. apply Hn, elem_of_seq. lia.
Qed.
Lemma increase_pool_spec p : pool_inv p → wp increase_pool p (λ _ p', pool_inv p' ∧
  (∀ o, live p o → live p' o ∧ bp_pool p' !! o = bp_pool p !! o) ∧ (∀ o, o ∈ bp_free_ids p' → ¬ live p o) ∧
  ∀ id, uses (bp_pool p') id = uses (bp_pool p) id) no_exn.
Proof.
  move=> [H1 H2 H3 H4]. rw /increase_pool. wp_step. rw /live. cbn.
  have Hm : bp_pool_size p * 2 - bp_pool_size p = bp_pool_size p by lia. rw Hm.
  have Hs : ∀ o, o ∈ seq (bp_pool_size p) (bp_pool_size p) ↔ bp_pool_size p ≤ o < bp_pool_size p * 2.
  { move=> o. rw elem_of_seq. lia. }
  have Hf : ∀ o, o ∈ bp_free_ids p → o < bp_pool_size p by move=> o Ho; destruct (H3 _ Ho) as (b & Hb & _); apply lookup_lt_Some in Hb; lia.
  split_and!.
  - split; cbn.
    + rw length_app length_replicate. lia.
    + apply NoDup_app. split_and!; [done| |apply NoDup_seq]. move=> o /Hf Ho /Hs. lia.
    + move=> o /elem_of_app [Ho|/Hs Ho].
      * destruct (H3 _ Ho) as (b & Hb & ?). exists b. split; [by apply lookup_app_l_Some|done].
      * exists (blank_block (bp_block_size p)). split; last done.
        rw lookup_app_r; first lia. apply lookup_replicate_2. lia.
    + move=> o b. rw elem_of_app => Hb Hn. apply lookup_app_Some in Hb as [Hb|[Hlt Hb]]; first by apply H4; tauto.
      apply lookup_replicate in Hb as [_ Hb]. exfalso. apply Hn. right. apply Hs. lia.
  - move=> o [Ho Hn]. rw length_app elem_of_app. split; last by rw lookup_app_l.
    split; first lia. move=> [?|/Hs]; [done|lia].
  - move=> o /elem_of_app [Ho|/Hs Ho] [? ?]; [done|lia].
  - move=> id. rw uses_app uses_blank. lia.
Qed.

(** A store to an object. *)
Lemma pool_inv_insert p o b b' : pool_inv p → bp_pool p !! o = Some b → live p o ∨ nb_block_id b' = None →
  nb_pool_id b' = nb_pool_id b → pool_inv (set_bp_pool (<[o := b']> (bp_pool p)) p).
Proof.
  move=> [P1 P2 P3 P4] Hb Hl Hid. have Hlt := lookup_lt_Some _ _ _ Hb. split; cbn.
  - by rw length_insert.
  - done.
  - move=> o' Ho'. destruct (decide (o' = o)) as [->|Hne].
    + exists b'. rw list_lookup_insert_eq //. split; first done. by destruct Hl as [[_ Hl]|].
    + rw list_lookup_insert_ne; [done|by apply P3].
  - move=> o' b2. destruct (decide (o' = o)) as [->|Hne].
    + rw list_lookup_insert_eq // => [= <-]. rw Hid. by apply P4.
    + rw list_lookup_insert_ne; [done|by apply P4].
Qed.

(** A fresh object. *)
Record fresh_block (p p' : BlockPool) (o : nat) (prev : option nat) (toks : list Z) (bs : nat) (id : option nat) : Prop := {
  fb_inv : pool_inv p';
  fb_fresh : ¬ live p o;
  fb_live : live p' o;
  fb_block : bp_pool p' !! o = Some {| nb_token_ids := toks; nb_block_size := bs; nb_prev_block := prev;
                                       nb_block_id := id; nb_pool_id := Some o |};
  fb_kept : ∀ o', live p o' → live p' o' ∧ bp_pool p' !! o' = bp_pool p !! o';
  fb_uses : ∀ i, uses (bp_pool p') i = (uses (bp_pool p) i + if decide (id = Some i) then 1 else 0)%Z;
}.
Lemma naive_block_init_spec prev toks bs id pid b : naive_block_init prev toks bs id pid = Ok b →
  b = {| nb_token_ids := toks; nb_block_size := bs; nb_prev_block := prev; nb_block_id := id; nb_pool_id := pid |}.
Proof.
  rw /naive_block_init /append_token_ids_no_cow. case_bool_decide as H; first by move=> [= <-]; rw H.
  case_match; [by move=> [= <-]|done].
Qed.
Lemma init_block_spec p prev toks bs id : pool_inv p →
  wp (init_block prev toks bs id) p (λ o p', fresh_block p p' o prev toks bs id) any_exn.
Proof.
  move=> HI. rw /init_block. wp_step. wp_step. wp_step.
  set Q := λ (_ : unit) p1, pool_inv p1 ∧
    (∀ o, live p o → live p1 o ∧ bp_pool p1 !! o = bp_pool p !! o) ∧ (∀ o, o ∈ bp_free_ids p1 → ¬ live p o) ∧
    (∀ id, uses (bp_pool p1) id = uses (bp_pool p) id).
  apply (wp_mono _ _ Q _ any_exn); [| |done].
  { wp_step; last by rw /Q; split_and!; [done|done| |done]; move=> o Ho [].
    wp_step. eapply wp_mono; [by apply increase_pool_spec| |done]. move=> u p1 HQ. by wp_steps. }
  move=> _ p1 [I1 [I2 [I3 I4]]]. wp_step. wp_step. destruct (bp_free_ids p1) as [|o rest] eqn:Ef; first by wp_step.
  wp_step. wp_step. destruct (pi_free _ I1 o) as (old & Hold & Hnone); first by rw Ef; left. rw Hold.
  wp_step. apply wp_lift; last done. move=> b /naive_block_init_spec ->. wp_step. wp_step. wp_step.
  have Hlt := lookup_lt_Some _ _ _ Hold. have Hnd := pi_nodup _ I1. rw Ef in Hnd. apply NoDup_cons in Hnd as [Hn1 Hn2].
  have Hlive : ∀ o', live p1 o' → o' ≠ o by move=> o' [_ Ho'] ?; subst; apply Ho'; rw Ef; left.
  have Hkeep : ∀ o', live p1 o' → o' < length (bp_pool p1) ∧ o' ∉ rest.
  { move=> o' [? Ho']. split; first done. move=> ?. apply Ho'. rw Ef. by right. }
  split; rw /live; cbn.
  - split; cbn.
    + rw length_insert. apply I1.
    + done.
    + move=> o' Ho'. have Hne : o ≠ o' by move=> ?; subst. destruct (pi_free _ I1 o') as (b' & ? & ?); first by rw Ef; right.
      exists b'. by rw list_lookup_insert_ne.
    + move=> o' b'. destruct (decide (o' = o)) as [->|Hne].
      * rw list_lookup_insert_eq //. by move=> [= <-].
      * rw list_lookup_insert_ne // => Hb' Hr. apply (pi_pool_id _ I1 _ _ Hb'). by rw Ef not_elem_of_cons.
  - exact (I3 _ (list_elem_of_here _ _)).
  - by rw length_insert.
  - by rw list_lookup_insert_eq.
  - move=> o' /I2 [Hl Heq]. have Hne := Hlive _ Hl. have [? ?] := Hkeep _ Hl. rw length_insert list_lookup_insert_ne //.
  - move=> i. rw (uses_insert _ _ _ _ _ Hold) I4 (holds_None old) // /holds /=. lia.
Qed.

(** * The allocator *)

(** The references of [held] were taken for blocks that are not attached to an
    object yet. *)
Definition total (held : list nat) (s : NaiveBlockAllocator) (id : nat) : Z :=
  (uses (bp_pool (na_block_pool s)) id + occ id held)%Z.
Record naive_inv (held : list nat) (s : NaiveBlockAllocator) : Prop := {
  ni_pool : pool_inv (na_block_pool s);
  ni_dom : ∀ id, id ∈ all_block_indices s ↔ is_Some (na_refcounts s !! id);
  ni_count : ∀ id n, na_refcounts s !! id = Some n → n = total held s id;
  ni_known : ∀ id, (0 < total held s id)%Z → id ∈ all_block_indices s;
  ni_nodup : NoDup (free_block_indices s);
  ni_free : ∀ id, id ∈ free_block_indices s ↔ id ∈ all_block_indices s ∧ total held s id = 0%Z;
}.
Lemma total_nonneg held s id : (0 ≤ total held s id)%Z.
Proof. have := uses_nonneg (bp_pool (na_block_pool s)) id. have := occ_nonneg id held. rw /total. lia. Qed.

(** A change of the objects that keeps the totals. *)
Lemma naive_inv_pool held held' s p : naive_inv held s → pool_inv p →
  (∀ id, (uses (bp_pool p) id + occ id held' = total held s id)%Z) → naive_inv held' (set_na_block_pool p s).
Proof.
  move=> [I1 I2 I3 I4 I5 I6] Hp Ht. have Ht' : ∀ id, total held' (set_na_block_pool p s) id = total held s id by exact Ht.
  split; cbn; try done; move=> id; rw Ht'; [apply I3|apply I4|apply I6].
Qed.
Definition set_object (o : nat) (b : NaiveBlock) (s : NaiveBlockAllocator) : NaiveBlockAllocator :=
  set_na_block_pool (set_bp_pool (<[o := b]> (bp_pool (na_block_pool s))) (na_block_pool s)) s.
Lemma naive_inv_object held held' s o b b' : naive_inv held s → bp_pool (na_block_pool s) !! o = Some b →
  live (na_block_pool s) o ∨ nb_block_id b' = None → nb_pool_id b' = nb_pool_id b →
  (∀ id, holds b' id + occ id held' = holds b id + occ id held)%Z → naive_inv held' (set_object o b' s).
Proof.
  move=> HI Hb Hl Hid Ht. apply (naive_inv_pool held); [done|by apply (pool_inv_insert _ _ b); [apply HI|..]|].
  move=> id. have := Ht id. rw /total /= (uses_insert _ _ _ _ _ Hb). lia.
Qed.

Lemma wp_the_block (o : nat) s Q E : (∀ b, bp_pool (na_block_pool s) !! o = Some b → Q b s) → E (IndexError "no such object") →
  wp (the_block o) s Q E.
Proof. move=> H1 H2. rw /the_block. wp_step. wp_step. destruct (bp_pool (na_block_pool s) !! o) eqn:Ho; wp_step; auto. Qed.
Lemma wp_upd_block o f s Q E b : bp_pool (na_block_pool s) !! o = Some b → Q tt (set_object o (f b) s) →
  wp (upd_block o f) s Q E.
Proof.
  move=> Hb HQ. rw /upd_block /on_pool. apply wp_zoom. wp_step.
  have -> : alter f o (bp_pool (na_block_pool s)) = <[o := f b]> (bp_pool (na_block_pool s)); last exact HQ.
  apply list_eq => i. rw list_lookup_alter. destruct (decide (i = o)) as [->|].
  - rw decide_True // list_lookup_insert_eq ?Hb //. by eapply lookup_lt_Some.
  - by rw decide_False // list_lookup_insert_ne.
Qed.
Lemma live_set_object o b s o' : live (na_block_pool (set_object o b s)) o' ↔ live (na_block_pool s) o'.
Proof. rw /live /=. by rw length_insert. Qed.

(** What no operation on blocks touches. *)
Record same_frame (s s' : NaiveBlockAllocator) : Prop := {
  sf_all : all_block_indices s' = all_block_indices s;
  sf_size : na_block_size s' = na_block_size s;
  sf_cows : na_copy_on_writes s' = na_copy_on_writes s;
}.
#[export] Instance same_frame_preorder : PreOrder same_frame.
Proof. split; [by split|]. move=> a b c [? ? ?] [? ? ?]. split; congruence. Qed.

Lemma wp_allocate_block_id held s : naive_inv held s →
  wp allocate_block_id s (λ id s', naive_inv (id :: held) s' ∧ total held s id = 0%Z ∧ id ∈ free_block_indices s ∧
    na_block_pool s' = na_block_pool s ∧ same_frame s s') any_exn.
Proof.
  move=> [I1 I2 I3 I4 I5 I6]. rw /allocate_block_id. wp_step. wp_step.
  destruct (free_block_indices s) as [|id rest] eqn:Ef; first by wp_step.
  wp_step. wp_step. wp_step. rw /ref_incr /ref_get. wp_step. wp_step. wp_step. cbn.
  destruct (I6 id) as [Hid _]. destruct Hid as [Hall Htot]; first by left.
  destruct (proj1 (I2 id) Hall) as [n Hn]. rw Hn. wp_step. have Hz := I3 _ _ Hn. wp_step. wp_step; last done.
  rw /ref_set. wp_step. wp_step. wp_step. apply NoDup_cons in I5 as [Hnot Hrest].
  split_and!; [|done|by left|done|done].
  have Ht : ∀ i, total (id :: held) (set_na_refcounts (<[id:=(n + 1)%Z]> (na_refcounts s)) (set_free_block_indices rest s)) i
    = ((if decide (i = id) then 1 else 0) + total held s i)%Z by move=> i; rw /total occ_cons /=; lia.
  split; cbn; try done.
  - move=> i. destruct (decide (i = id)) as [->|Hne]; [rw lookup_insert_eq; split; [by eexists|done]|].
    by rw lookup_insert_ne.
  - move=> i m. rw Ht. case_decide as Hd; [subst; rw lookup_insert_eq; move=> [= <-]; lia|].
    rw lookup_insert_ne // => /I3. lia.
  - move=> i. rw Ht. case_decide; [by subst|]. move=> ?. apply I4. lia.
  - move=> i. rw Ht. have Hi := I6 i. rw elem_of_cons in Hi. have := total_nonneg held s i.
    case_decide as Hd; [subst; split; [done|move=> [_ ?]; lia]|]. move=> _. rw Z.add_0_l. tauto.
Qed.
Lemma wp_attach held s prev toks bs id : naive_inv (id :: held) s →
  wp (on_pool (init_block prev toks bs (Some id))) s (λ o s', naive_inv held s' ∧
    fresh_block (na_block_pool s) (na_block_pool s') o prev toks bs (Some id) ∧ same_frame s s') any_exn.
Proof.
  move=> HI. apply wp_zoom. eapply wp_mono; [by apply init_block_spec, HI| |done].
  move=> o p HF. split_and!; [|done|done]. apply (naive_inv_pool (id :: held)); [done|apply HF|].
  move=> i. rw (fb_uses _ _ _ _ _ _ _ HF) /total occ_cons. repeat case_decide; simplify_eq; lia.
Qed.
Lemma wp_free_block_id held s o : naive_inv held s →
  wp (free_block_id o) s (λ _ s', naive_inv held s' ∧ ∃ b id, bp_pool (na_block_pool s) !! o = Some b ∧
    nb_block_id b = Some id ∧ bp_pool (na_block_pool s') = <[o := set_nb_block_id None b]> (bp_pool (na_block_pool s)) ∧
    bp_free_ids (na_block_pool s') = bp_free_ids (na_block_pool s) ∧ same_frame s s' ∧
    (free_block_indices s' = free_block_indices s ∧ total held s id ≠ 1%Z ∨
     free_block_indices s' = id :: free_block_indices s ∧ total held s id = 1%Z)) any_exn.
Proof.
  move=> HI. rw /free_block_id. wp_step. apply wp_the_block; last done. move=> b Hb.
  destruct (nb_block_id b) as [id|] eqn:Hid; last by wp_step.
  have Hl : live (na_block_pool s) o.
  { split; [by eapply lookup_lt_Some|]. move=> /(pi_free _ (ni_pool _ _ HI)) [b' [H ?]]. congruence. }
  have Hpos : (0 < total held s id)%Z.
  { have := occ_nonneg id held. suff : (0 < uses (bp_pool (na_block_pool s)) id)%Z by rw /total; lia.
    apply uses_pos. by exists o, b. }
  rw /ref_decr /ref_get. wp_step. wp_step. wp_step. wp_step.
  destruct (na_refcounts s !! id) as [n|] eqn:Hn; last by wp_step. have Hc := ni_count _ _ HI _ _ Hn.
  wp_step. wp_step. wp_step; last done. rw /ref_set. wp_step. wp_step. wp_step. wp_step.
  set s1 := set_na_refcounts _ s.
  set s2 := if (n - 1 =? 0)%Z then set_free_block_indices (id :: free_block_indices s1) s1 else s1.
  apply (wp_mono _ _ (λ (_ : unit) s', s' = s2) _ any_exn); [|move=> u s' ->|done].
  { rw /s2. destruct (n - 1 =? 0)%Z; [by wp_step; [|done]|by wp_step]. }
  have Hp2 : na_block_pool s2 = na_block_pool s by rw /s2; case_match.
  apply (wp_upd_block _ _ _ _ _ b); first by rw Hp2.
  have Hun : uses (<[o:=set_nb_block_id None b]> (bp_pool (na_block_pool s))) id = (uses (bp_pool (na_block_pool s)) id - 1)%Z.
  { rw (uses_insert _ _ _ _ _ Hb) (holds_Some _ _ _ Hid) decide_True // holds_None //. lia. }
  have Hun' : ∀ i, i ≠ id → uses (<[o:=set_nb_block_id None b]> (bp_pool (na_block_pool s))) i = uses (bp_pool (na_block_pool s)) i.
  { move=> i Hi. rw (uses_insert _ _ _ _ _ Hb) (holds_Some _ _ _ Hid) decide_False // holds_None //. lia. }
  have Hfr : free_block_indices s2 = if (n - 1 =? 0)%Z then id :: free_block_indices s else free_block_indices s.
  { rw /s2. by case_match. }
  have Hrc : na_refcounts s2 = <[id := (n - 1)%Z]> (na_refcounts s) by rw /s2; case_match.
  have Hal : all_block_indices s2 = all_block_indices s by rw /s2; case_match.
  destruct HI as [I1 I2 I3 I4 I5 I6]. split.
  - have Ht : ∀ i, total held (set_object o (set_nb_block_id None b) s2) i
      = (total held s i - if decide (i = id) then 1 else 0)%Z.
    { move=> i. rw /total /set_object /= Hp2. case_decide as Hi; [subst; rw Hun|rw (Hun' _ Hi)]; lia. }
    split.
    + rw /set_object /= Hp2. by apply (pool_inv_insert _ _ b); [|done|left|].
    + cbn. rw Hal Hrc. move=> i. destruct (decide (i = id)) as [->|Hne].
      * rw lookup_insert_eq. split; [by move=> _; eexists|]. move=> _. by apply I2; eexists.
      * by rw lookup_insert_ne.
    + cbn. rw Hrc. move=> i m. rw Ht. case_decide as Hi; [subst i; rw lookup_insert_eq; move=> [= <-]; lia|].
      rw lookup_insert_ne // => /I3. lia.
    + cbn. rw Hal. move=> i. rw Ht. move=> ?. apply I4. case_decide; lia.
    + cbn. rw Hfr. case_match; last done. apply NoDup_cons. split; last done. rw I6. lia.
    + cbn. rw Hfr Hal. move=> i. rw Ht. have Hi := I6 i. destruct (Z.eqb_spec (n - 1) 0) as [E|E].
      * rw elem_of_cons. case_decide as Hd; [subst i; split; [|by left]; move=> _; split; [by apply I4|lia]|]. rw Z.sub_0_r. tauto.
      * case_decide as Hd; [subst i|by rw Z.sub_0_r]. rw Hi. split; [lia|]. lia.
  - exists b, id. cbn. rw Hp2 Hfr. split_and!; [done|done|done|done|split; cbn; rw /s2; by case_match|].
    destruct (Z.eqb_spec (n - 1) 0); [right|left]; split; try done; lia.
Qed.

(** * Copy on write *)
Lemma append_no_cow_spec toks b b' : append_token_ids_no_cow toks b = Ok b' →
  b' = set_nb_token_ids (nb_token_ids b ++ toks) b.
Proof.
  rw /append_token_ids_no_cow. case_bool_decide as H; first by move=> [= <-]; rw H app_nil_r; destruct b.
  by case_match; [move=> [= <-]|].
Qed.
Lemma wp_ref_get held s id Q E : naive_inv held s → id ∈ all_block_indices s → Q (total held s id) s → wp (ref_get id) s Q E.
Proof.
  move=> HI Hid HQ. rw /ref_get. wp_step. wp_step. destruct (proj1 (ni_dom _ _ HI id) Hid) as [n Hn]. rw Hn. wp_step.
  by rw (ni_count _ _ HI _ _ Hn).
Qed.
Lemma inv_known held s o b id : naive_inv held s → bp_pool (na_block_pool s) !! o = Some b → nb_block_id b = Some id →
  (0 < total held s id)%Z ∧ id ∈ all_block_indices s.
Proof.
  move=> HI Hb Hid. have Hp : (0 < total held s id)%Z; last by split; [|apply (ni_known _ _ HI)].
  have := occ_nonneg id held. suff : (0 < uses (bp_pool (na_block_pool s)) id)%Z by rw /total; lia.
  apply uses_pos. by exists o, b.
Qed.

(** The stores to one object. *)
Definition only_object (o : nat) (b : NaiveBlock) (s s' : NaiveBlockAllocator) : Prop :=
  bp_pool (na_block_pool s') = <[o := b]> (bp_pool (na_block_pool s)) ∧
  bp_free_ids (na_block_pool s') = bp_free_ids (na_block_pool s).
Lemma only_object_trans o b b' s1 s2 s3 : only_object o b s1 s2 → only_object o b' s2 s3 → only_object o b' s1 s3.
Proof. move=> [H1 H2] [H3 H4]. split; [by rw H3 H1 list_insert_insert_eq|congruence]. Qed.
Lemma only_object_kept o b s s' : only_object o b s s' → others_kept (na_block_pool s) (na_block_pool s') o.
Proof.
  move=> [H1 H2] o' Hne [Hl Hn]. rw /live H1 H2 length_insert list_lookup_insert_ne //.
Qed.

(** What appending does to the physical block: it stays when nobody shares it, and
    is replaced by a free one, recorded for copying, when it is shared. *)
Inductive written (s s' : NaiveBlockAllocator) (id id' : nat) : Prop :=
  | wr_same : id' = id → total [] s id = 1%Z → na_copy_on_writes s' = na_copy_on_writes s → written s s' id id'
  | wr_copy : id' ≠ id → (1 < total [] s id)%Z → id' ∈ free_block_indices s →
      na_copy_on_writes s' = na_copy_on_writes s ++ [(id, id')] → written s s' id id'.

Lemma wp_cow s o b id : naive_inv [] s → live (na_block_pool s) o → bp_pool (na_block_pool s) !! o = Some b →
  nb_block_id b = Some id →
  wp (id ← cow_block_if_not_appendable o; upd_block o (set_nb_block_id (Some id))) s (λ _ s', ∃ id',
    naive_inv [] s' ∧ only_object o (set_nb_block_id (Some id') b) s s' ∧ written s s' id id' ∧
    total [] s' id' = 1%Z ∧ all_block_indices s' = all_block_indices s) any_exn.
Proof.
  move=> HI Hl Hb Hid. destruct (inv_known _ _ _ _ _ HI Hb Hid) as [Hpos Hall].
  rw /cow_block_if_not_appendable /is_appendable. wp_step. wp_step. apply wp_the_block; last done.
  move=> b2 Hb2. rw Hb in Hb2. injection Hb2 as <-. rw Hid. wp_step. wp_step.
  apply wp_the_block; last done. move=> b2 Hb2. rw Hb in Hb2. injection Hb2 as <-. rw Hid.
  wp_step. apply (wp_ref_get []); [done|done|]. wp_step. destruct (Z.leb_spec (total [] s id) 1) as [Hle|Hgt].
  - wp_step. apply (wp_upd_block _ _ _ _ _ b Hb). exists id.
    have Hb' : set_nb_block_id (Some id) b = b by rw -Hid; destruct b.
    split_and!; [by apply (naive_inv_object []) with b; [|done|left|..]; rw ?Hb'|done|left; [done|lia|done]| |done].
    rw /total /= Hb'. rw list_insert_id //. rw /total /= in Hpos, Hle. lia.
  - wp_step. eapply wp_mono; [by apply wp_free_block_id| |done].
    move=> u s1 [I1 [b1 [id1 [Hb1 [Hid1 [P1 [F1 [S1 Hf]]]]]]]]. rw Hb in Hb1. injection Hb1 as <-. rw Hid in Hid1. injection Hid1 as <-.
    destruct Hf as [[Hf _]|[_ ?]]; last lia.
    wp_step. eapply wp_mono; [by apply wp_allocate_block_id| |done]. move=> id' s2 [I2 [Htot [Hin [Hp2 S2]]]].
    have Hlt := lookup_lt_Some _ _ _ Hb.
    have Hne : id' ≠ id.
    { move=> ?. subst id'. move: Htot. rw /total P1 (uses_insert _ _ _ _ _ Hb) (holds_Some _ _ _ Hid) decide_True // holds_None //.
      rw /total in Hgt. lia. }
    rw /record_cow. wp_step. wp_step. wp_step.
    set s3 := set_na_copy_on_writes _ s2. have I3 : naive_inv [id'] s3 by destruct I2; split.
    have Hb3 : bp_pool (na_block_pool s3) !! o = Some (set_nb_block_id None b) by rw /= Hp2 P1 list_lookup_insert_eq.
    apply (wp_upd_block _ _ _ _ _ _ Hb3). exists id'. split_and!.
    + apply (naive_inv_object [id'] [] _ _ _ _ I3 Hb3); [left|done|].
      * rw /live /= Hp2 P1 F1 length_insert. exact Hl.
      * move=> i. rw (holds_None (set_nb_block_id None b)) // (holds_Some _ id') // occ_cons. lia.
    + apply (only_object_trans _ (set_nb_block_id None b) _ _ s3); split; cbn; rw ?Hp2 //.
    + right; [done|done|by rw -Hf|]. by rw /= (sf_cows _ _ S2) (sf_cows _ _ S1).
    + rw /total /= (uses_insert _ _ _ _ _ Hb3) Hp2 (holds_None (set_nb_block_id None b)) // (holds_Some _ id') // decide_True //.
      move: Htot. rw /total. lia.
    + by rw /= (sf_all _ _ S2) (sf_all _ _ S1).
Qed.

Lemma wp_append_token_ids s o toks : naive_inv [] s → live (na_block_pool s) o →
  wp (append_token_ids o toks) s (λ _ s', ∃ b, bp_pool (na_block_pool s) !! o = Some b ∧
    naive_inv [] s' ∧ all_block_indices s' = all_block_indices s ∧
    let b' := set_nb_token_ids (nb_token_ids b ++ toks) b in
    match nb_block_id b with
    | None => only_object o b' s s' ∧ na_copy_on_writes s' = na_copy_on_writes s
    | Some id => ∃ id', only_object o (set_nb_block_id (Some id') b') s s' ∧ written s s' id id' ∧ total [] s' id' = 1%Z
    end) any_exn.
Proof.
  move=> HI Hl. rw /append_token_ids. wp_step. apply wp_the_block; last done. move=> b Hb. wp_step. apply wp_lift; last done.
  move=> b' /append_no_cow_spec Hb'. wp_step. apply (wp_upd_block _ _ _ _ _ b Hb).
  have Hlt := lookup_lt_Some _ _ _ Hb.
  have Hid : nb_block_id b' = nb_block_id b by rw Hb'.
  have I1 : naive_inv [] (set_object o b' s).
  { apply (naive_inv_object [] [] _ _ b); [done|done|by left|by rw Hb'|]. move=> i. by rw /holds Hid. }
  have O1 : only_object o b' s (set_object o b' s) by [].
  have Hb1 : bp_pool (na_block_pool (set_object o b' s)) !! o = Some b' by rw /= list_lookup_insert_eq.
  have Htot : ∀ i, total [] (set_object o b' s) i = total [] s i.
  { move=> i. rw /total /= (uses_insert _ _ _ _ _ Hb) /holds Hid. lia. }
  destruct (nb_block_id b') as [id|] eqn:Hidb.
  - eapply wp_mono; [eapply (wp_cow _ o b' id); [done|by apply live_set_object|done|done]| |done].
    move=> u s' [id' [I2 [O2 [W [T A]]]]]. exists b. rw -Hid -Hb'. split_and!; [done|done|done|].
    exists id'. split_and!; [by eapply only_object_trans| |done]. destruct W as [W1 W2 W3|W1 W2 W3 W4]; [left|right]; rw -?Htot //.
  - wp_step. exists b. rw -Hid -Hb'. by split_and!.
Qed.

(** * The other operations *)

(** The objects handed out before are untouched. *)
Definition kept (s s' : NaiveBlockAllocator) : Prop :=
  all_block_indices s' = all_block_indices s ∧
  ∀ o, live (na_block_pool s) o → live (na_block_pool s') o ∧
    bp_pool (na_block_pool s') !! o = bp_pool (na_block_pool s) !! o.
#[export] Instance kept_preorder : PreOrder kept.
Proof.
  split; [by split|]. move=> a b c [H1 H2] [H3 H4]. split; [congruence|]. move=> o /H2 [Ho E]. destruct (H4 _ Ho) as [? E'].
  split; [done|congruence].
Qed.
Lemma fresh_kept s s' o prev toks bs id : fresh_block (na_block_pool s) (na_block_pool s') o prev toks bs id → same_frame s s' → kept s s'.
Proof. move=> HF HS. split; [apply HS|apply HF]. Qed.

Lemma naive_inv_held held held' s : held ≡ₚ held' → naive_inv held s → naive_inv held' s.
Proof.
  move=> HP [I1 I2 I3 I4 I5 I6]. have Ht : ∀ id, total held' s id = total held s id.
  { move=> id. by rw /total (occ_Permutation id _ _ HP). }
  split; try done; move=> id; rw Ht; [apply I3|apply I4|apply I6].
Qed.

Lemma wp_allocate_mutable held s prev : naive_inv held s →
  wp (allocate_mutable_block prev) s (λ o s', naive_inv held s' ∧ kept s s' ∧ ∃ id, total held s id = 0%Z ∧
    id ∈ free_block_indices s ∧
    fresh_block (na_block_pool s) (na_block_pool s') o prev [] (na_block_size s) (Some id)) any_exn.
Proof.
  move=> HI. rw /allocate_mutable_block. wp_step. eapply wp_mono; [by apply wp_allocate_block_id| |done].
  move=> id s1 [I1 [Ht [Hin [Hp S1]]]]. wp_step. wp_step.
  eapply wp_mono; [by apply wp_attach| |done]. move=> o s2 [I2 [HF S2]]. rw Hp (sf_size _ _ S1) in HF.
  split_and!; [done| |by exists id]. by apply (fresh_kept _ _ _ _ _ _ _ HF); etrans.
Qed.

Lemma wp_allocate_immutable s prev toks : naive_inv [] s →
  wp (allocate_immutable_block prev toks) s (λ o s', naive_inv [] s' ∧ kept s s' ∧ ¬ live (na_block_pool s) o ∧
    live (na_block_pool s') o ∧ ∃ b id, bp_pool (na_block_pool s') !! o = Some b ∧ nb_block_id b = Some id ∧
    nb_token_ids b = toks) any_exn.
Proof.
  move=> HI. rw /allocate_immutable_block. wp_step. eapply wp_mono; [by apply wp_allocate_mutable| |done].
  move=> o s1 [I1 [K1 [id [_ [_ HF]]]]]. wp_step. have Hl := fb_live _ _ _ _ _ _ _ HF. have Hb := fb_block _ _ _ _ _ _ _ HF.
  eapply wp_mono; [by apply wp_append_token_ids| |done]. move=> u s2 [b [Hb' [I2 [A2 H]]]]. wp_step.
  rw Hb in Hb'. injection Hb' as <-. destruct H as [id' [O2 _]]. have HK := only_object_kept _ _ _ _ O2.
  have Hlt := lookup_lt_Some _ _ _ Hb. destruct O2 as [P2 F2]. split_and!; [done| |apply HF| |].
  - split; [rw A2; apply K1|]. move=> o' Ho'. have Hne : o' ≠ o by move=> ?; subst; by destruct (fb_fresh _ _ _ _ _ _ _ HF).
    destruct (fb_kept _ _ _ _ _ _ _ HF _ Ho') as [H1 H2]. destruct (HK _ Hne H1) as [H3 H4]. split; [done|congruence].
  - by rw /live P2 F2 length_insert.
  - do 2 eexists. rw P2 list_lookup_insert_eq //.
Qed.

Lemma wp_pool_free held s o b : naive_inv held s → live (na_block_pool s) o → bp_pool (na_block_pool s) !! o = Some b →
  nb_block_id b = None →
  wp (pool_free_block o) s (λ _ s', naive_inv held s' ∧ all_block_indices s' = all_block_indices s ∧
    ∀ o', o' ≠ o → live (na_block_pool s) o' → live (na_block_pool s') o' ∧
      bp_pool (na_block_pool s') !! o' = bp_pool (na_block_pool s) !! o') no_exn.
Proof.
  move=> HI [Hlt Hn] Hb Hid. rw /pool_free_block. wp_step. rw /the_block. wp_step. wp_step. rw Hb. wp_step.
  have [P1 P2 P3 P4] := ni_pool _ _ HI. rw (P4 _ _ Hb Hn). apply wp_zoom. wp_step. split_and!; [|done|].
  - apply (naive_inv_pool held); [done| |done]. split; cbn; [done|by apply NoDup_cons| |].
    + move=> o' /elem_of_cons [->|Ho']; [by exists b|by apply P3].
    + move=> o' b' Hb' /not_elem_of_cons [_ Hn']. by apply P4.
  - move=> o' Hne [H1 H2]. rw /live /=. split_and!; [done| |done]. by apply not_elem_of_cons.
Qed.

Lemma wp_naive_free s o keep : naive_inv [] s → wp (naive_free o keep) s (λ _ s', naive_inv [] s') any_exn.
Proof.
  move=> HI. rw /naive_free. wp_step. eapply wp_mono; [by apply wp_free_block_id| |done].
  move=> u s1 [I1 [b [id [Hb [Hid [P1 [F1 [S1 _]]]]]]]]. wp_step; last done.
  have Hl : live (na_block_pool s) o.
  { split; [by eapply lookup_lt_Some|]. move=> /(pi_free _ (ni_pool _ _ HI)) [b' [Hx ?]]. congruence. }
  have Hlt := lookup_lt_Some _ _ _ Hb. eapply wp_mono; [eapply wp_pool_free; [exact I1| | |]| |done].
  - rw /live P1 F1 length_insert. exact Hl.
  - by rw P1 list_lookup_insert_eq.
  - done.
  - by move=> ? ? [].
Qed.

Lemma wp_allocate_ids l : ∀ ids s, naive_inv ids s →
  wp (mfold l ids (λ ids (_ : list Z), id ← allocate_block_id; mret (ids ++ [id]))) s (λ ids' s', naive_inv ids' s' ∧
    length ids' = length ids + length l ∧ kept s s') any_exn.
Proof.
  elim: l => [|x l IH] ids s HI; cbn [mfold]; first by wp_step; split_and!; [done|simpl; lia|].
  wp_step. wp_step. eapply wp_mono; [by apply wp_allocate_block_id| |done].
  move=> id s1 [I1 [_ [_ [Hp S1]]]]. wp_step. eapply wp_mono; [apply IH| |done].
  - eapply naive_inv_held; [|exact I1]. by rw Permutation_app_comm.
  - move=> ids' s2 [I2 [L2 K2]]. split_and!; [done|rw L2 length_app /=; lia|]. etrans; [|exact K2].
    split; [apply S1|]. by rw Hp.
Qed.
Lemma wp_attach_all bs (l : list (list Z * nat)) : ∀ acc s, naive_inv l.*2 s →
  wp (mfold l acc (λ '(prev_block, blocks) '(token_ids, id),
        o ← on_pool (init_block prev_block token_ids bs (Some id)); mret (Some o, blocks ++ [o]))) s
    (λ _ s', naive_inv [] s' ∧ kept s s') any_exn.
Proof.
  elim: l => [|[toks id] l IH] [prev blocks] s HI; cbn [mfold]; first by wp_step.
  wp_step. wp_step. eapply wp_mono; [by apply wp_attach| |done]. move=> o s1 [I1 [HF S1]]. wp_step.
  eapply wp_mono; [by apply IH| |done]. move=> r s2 [I2 K2]. split; first done. etrans; [by eapply fresh_kept|exact K2].
Qed.
Lemma wp_allocate_immutable_blocks s prev l : naive_inv [] s →
  wp (allocate_immutable_blocks prev l) s (λ _ s', naive_inv [] s' ∧ kept s s') any_exn.
Proof.
  move=> HI. rw /allocate_immutable_blocks. wp_step. eapply wp_mono; [by apply wp_allocate_ids| |done].
  move=> ids s1 [I1 [L1 K1]]. wp_step. wp_step. wp_step. eapply wp_mono; [apply wp_attach_all| |done].
  - rw snd_zip //. simpl in L1. lia.
  - move=> [p bl] s2 [I2 K2]. wp_step. split; [done|by etrans].
Qed.

(** ** Forking *)
Lemma wp_ref_incr held s id : naive_inv held s → (0 < total held s id)%Z →
  wp (ref_incr id) s (λ n s', n = (total held s id + 1)%Z ∧ naive_inv (id :: held) s' ∧ na_block_pool s' = na_block_pool s ∧
    same_frame s s') any_exn.
Proof.
  move=> HI Hpos. have Hall := ni_known _ _ HI _ Hpos. rw /ref_incr. wp_step. apply (wp_ref_get held); [done|done|].
  wp_step. wp_step; last done. rw /ref_set. wp_step. wp_step. wp_step. split_and!; [done| |done|done].
  have Ht : ∀ i, total (id :: held) (set_na_refcounts (<[id:=(total held s id + 1)%Z]> (na_refcounts s)) s) i
    = ((if decide (i = id) then 1 else 0) + total held s i)%Z by move=> i; rw /total occ_cons /=; lia.
  destruct HI as [I1 I2 I3 I4 I5 I6]. split; cbn; try done; move=> i.
  - destruct (decide (i = id)) as [->|Hne]; [rw lookup_insert_eq; split; [by move=> _; eexists|done]|].
    by rw lookup_insert_ne.
  - move=> m. rw Ht. case_decide as Hd; [subst; rw lookup_insert_eq; move=> [= <-]; lia|].
    rw lookup_insert_ne // => /I3. lia.
  - rw Ht. case_decide; [by subst|]. move=> ?. apply I4. lia.
  - rw Ht I6. case_decide; [subst; lia|]. by rw Z.add_0_l.
Qed.
(** A forked object stands for the block of its source. *)
Lemma wp_fork_block acc o s : naive_inv [] s →
  wp (fork_block acc o) s (λ acc' s', naive_inv [] s' ∧ kept s s' ∧ ∃ o' b, acc' = (Some o', acc.2 ++ [o']) ∧
    bp_pool (na_block_pool s) !! o = Some b ∧ ¬ live (na_block_pool s) o' ∧ live (na_block_pool s') o' ∧
    bp_pool (na_block_pool s') !! o' = Some {| nb_token_ids := nb_token_ids b; nb_block_size := na_block_size s;
      nb_prev_block := acc.1; nb_block_id := nb_block_id b; nb_pool_id := Some o' |} ∧ nb_block_id b ≠ None ∧
    na_block_size s' = na_block_size s) any_exn.
Proof.
  move=> HI. destruct acc as [prev forked]. rw /fork_block. wp_step. apply wp_the_block; last done. move=> b Hb.
  destruct (nb_block_id b) as [id|] eqn:Hid; last by wp_step. wp_step.
  destruct (inv_known _ _ _ _ _ HI Hb Hid) as [Hpos _].
  eapply wp_mono; [by apply wp_ref_incr| |done]. move=> n s1 [_ [I1 [Hp S1]]]. wp_step. wp_step; last done.
  wp_step. wp_step. wp_step. eapply wp_mono; [by apply wp_attach| |done]. move=> o' s2 [I2 [HF S2]]. wp_step.
  rw Hp (sf_size _ _ S1) in HF. split_and!; [done|by eapply fresh_kept; [exact HF|etrans]|]. exists o', b. rw Hid.
  split_and!; [done|done|apply HF|apply HF|apply HF|done|]. by rw (sf_size _ _ S2) (sf_size _ _ S1).
Qed.
(** The copy [l'] of the objects [l]: fresh objects with the same tokens, for the
    same physical blocks. *)
Definition forked (s s' : NaiveBlockAllocator) (o o' : nat) : Prop :=
  ∃ b b', bp_pool (na_block_pool s) !! o = Some b ∧ bp_pool (na_block_pool s') !! o' = Some b' ∧
    ¬ live (na_block_pool s) o' ∧ live (na_block_pool s') o' ∧ nb_token_ids b' = nb_token_ids b ∧
    nb_block_id b' = nb_block_id b ∧ nb_block_id b ≠ None.
Lemma wp_fork_blocks l : ∀ acc s, naive_inv [] s → Forall (live (na_block_pool s)) l →
  wp (mfold l acc fork_block) s (λ acc' s', naive_inv [] s' ∧ kept s s' ∧
    ∃ l', acc'.2 = acc.2 ++ l' ∧ Forall2 (forked s s') l l') any_exn.
Proof.
  elim: l => [|o l IH] acc s HI; cbn [mfold].
  { move=> _. wp_step. split_and!; [done|done|]. exists []. by rw app_nil_r. }
  move=> /Forall_cons [Ho Hl]. wp_step. eapply wp_mono; [by apply wp_fork_block| |done].
  move=> acc1 s1 [I1 [K1 [o' [b [-> [Hb [Hn [Hl' [Hb' [Hid _]]]]]]]]]].
  eapply wp_mono; [apply IH; [done|]| |done].
  - eapply Forall_impl; [exact Hl|]. move=> x Hx. by destruct (proj2 K1 _ Hx).
  - move=> acc2 s2 [I2 [K2 [l' [-> HF]]]]. split_and!; [done|by etrans|]. exists (o' :: l'). split; first by rw /= -app_assoc.
    constructor.
    + destruct (proj2 K2 _ Hl') as [H1 H2]. eexists b, _. rw H2. split_and!; [done|exact Hb'|done|done|done|done|done].
    + have HFl : Forall (live (na_block_pool s)) l by []. clear -HF HFl K1. induction HF as [|x y l l' Hx HF IH]; first done.
      apply Forall_cons in HFl as [Hx1 Hl1]. constructor; last by apply IH.
      destruct Hx as (b1 & b2 & X1 & X2 & X3 & X4 & X5 & X6 & X7). destruct (proj2 K1 _ Hx1) as [_ E].
      exists b1, b2. split_and!; try done; [congruence|]. move=> Hy. apply X3. by destruct (proj2 K1 _ Hy).
Qed.

(** The objects of a sequence, by their [prev_block]. *)
Inductive chain (p : BlockPool) : nat → list nat → Prop :=
  | chain_first o b : bp_pool p !! o = Some b → nb_prev_block b = None → chain p o [o]
  | chain_next o b o' l : bp_pool p !! o = Some b → nb_prev_block b = Some o' → chain p o' l → chain p o (l ++ [o]).
Lemma all_blocks_chain s o l : chain (na_block_pool s) o l → ∀ fuel, length l ≤ fuel → all_blocks fuel o s = Ok (l, s).
Proof.
  induction 1 as [o b Hb Hp|o b o' l Hb Hp Hc IH] => - [|fuel] Hlen; try (rw ?length_app /= in Hlen; lia); cbn [all_blocks];
    rw /the_block /mbind /M_bind /mget Hb /= Hp; first done.
  rw length_app /= in Hlen. rw IH //. lia.
Qed.
Lemma wp_naive_fork s o : naive_inv [] s → wp (naive_fork o) s (λ _ s', naive_inv [] s') any_exn.
Proof.
  move=> HI. rw /naive_fork. wp_step. wp_step. wp_step.
  have Hab : ∀ fuel o, wp (all_blocks fuel o) s (λ _ s', s' = s) any_exn.
  { elim=> [|fuel IH] o'; cbn [all_blocks]; first by wp_step. wp_step. apply wp_the_block; last done. move=> b Hb. wp_step.
    destruct (nb_prev_block b) as [p|]; [|by wp_step; wp_step]. eapply wp_mono; [apply IH| |done]. move=> l s' ->. by wp_step. }
  eapply wp_mono; [apply Hab| |done]. move=> l s' ->. wp_step. eapply wp_mono.
  - apply (wp_fold _ _ _ (λ _ s, naive_inv [] s) _ any_exn); [done|]. move=> acc x s1 _ I1.
    eapply wp_mono; [by apply wp_fork_block| |done]. by move=> ? ? [].
  - move=> [p fl] s1 I1. by wp_step.
  - done.
Qed.

(** ** Swapping *)
Lemma wp_naive_swap_out l s : naive_inv [] s → wp (naive_swap_out l) s (λ _ s', naive_inv [] s') any_exn.
Proof.
  move=> HI. apply (wp_for _ _ (naive_inv [])); first done. move=> o s1 _ I1.
  eapply wp_mono; [by apply wp_free_block_id| |done]. by move=> ? ? [].
Qed.
(** An object that has lost its block and can be given one. *)
Definition swapped (s : NaiveBlockAllocator) (o : nat) : Prop :=
  live (na_block_pool s) o ∧ ∀ b, bp_pool (na_block_pool s) !! o = Some b → nb_block_id b = None.
Lemma wp_swap_in_block s o : naive_inv [] s → swapped s o →
  wp (swap_in_block o) s (λ _ s', naive_inv [] s' ∧ others_kept (na_block_pool s) (na_block_pool s') o) any_exn.
Proof.
  move=> HI [Hl Hnone]. rw /swap_in_block. wp_step. apply wp_the_block; last done. move=> b Hb. wp_step.
  apply (wp_mono _ _ (λ tmp s', naive_inv [] s' ∧ kept s s' ∧ ¬ live (na_block_pool s) tmp ∧
    live (na_block_pool s') tmp ∧ ∃ b' id, bp_pool (na_block_pool s') !! tmp = Some b' ∧ nb_block_id b' = Some id ∧
    nb_token_ids b' = nb_token_ids b) _ any_exn).
  { destruct (nb_is_full b); by apply wp_allocate_immutable. }
  - move=> tmp s1 [I1 [K1 [Hn [Hl1 [t [id [Ht [Hid _]]]]]]]]. wp_step. apply wp_the_block; last done.
    move=> t' Ht'. rw Ht in Ht'. injection Ht' as <-. wp_step. apply (wp_upd_block _ _ _ _ _ _ Ht). wp_step.
    have Hne : o ≠ tmp by move=> ?; subst. have Htl := lookup_lt_Some _ _ _ Ht.
    destruct (proj2 K1 _ Hl) as [Hol Hob].
    have I2 : naive_inv [id] (set_object tmp (set_nb_block_id None t) s1).
    { apply (naive_inv_object [] _ _ _ _ _ I1 Ht); [by right|done|]. move=> i.
      rw holds_None // (holds_Some _ _ _ Hid) occ_cons occ_nil. lia. }
    eapply wp_mono; [eapply (wp_pool_free [id] _ tmp (set_nb_block_id None t)); [exact I2|by apply live_set_object| |done]| |done].
    { by rw /= list_lookup_insert_eq. }
    move=> u s2 [I3 [A3 K3]].
    destruct (K3 o Hne) as [Hl3 Hb3]; first by apply live_set_object.
    rw /= list_lookup_insert_ne // Hob Hb in Hb3. apply (wp_upd_block _ _ _ _ _ _ Hb3). split.
    + apply (naive_inv_object [id] [] _ _ _ _ I3 Hb3); [by left|done|]. move=> i. rw Hid (holds_Some _ id) // holds_None.
      * by apply Hnone.
      * rw occ_cons occ_nil. lia.
    + move=> o' Hne' Hl'. rw live_set_object /= list_lookup_insert_ne //.
      have Hnt : o' ≠ tmp by move=> ?; subst. destruct (proj2 K1 _ Hl') as [H1 H2].
      destruct (K3 o' Hnt) as [H3 H4]; first by apply live_set_object. split; first done.
      by rw H4 /= list_lookup_insert_ne // H2.
  - done.
Qed.
Lemma wp_naive_swap_in l : ∀ s, naive_inv [] s → NoDup l → Forall (swapped s) l →
  wp (naive_swap_in l) s (λ _ s', naive_inv [] s') any_exn.
Proof.
  rw /naive_swap_in. elim: l => [|o l IH] s HI; cbn [mfor]; first by move=> _ _; wp_step.
  move=> /NoDup_cons [Hn Hnd] /Forall_cons [Ho Hl]. wp_step. eapply wp_mono; [by apply wp_swap_in_block| |done].
  move=> u s1 [I1 K1]. apply IH; [done|done|]. rw Forall_forall in Hl. apply Forall_forall. move=> x Hx.
  have Hne : x ≠ o by move=> ?; subst. destruct (Hl x Hx) as [H1 H2]. destruct (K1 _ Hne H1) as [H3 H4].
  split; first done. move=> b. rw H4. apply H2.
Qed.

(** * Theorems *)

(** The calls a block manager makes: it appends to objects it was handed, and
    swaps in objects that were swapped out. *)
Inductive naive_reach : NaiveBlockAllocator → Prop :=
  | nr_init n bs ids s : (∀ l, ids = Some l → NoDup l) → naive_init n bs ids = Ok s → naive_reach s
  | nr_mutable s prev o s' : naive_reach s → allocate_mutable_block prev s = Ok (o, s') → naive_reach s'
  | nr_immutable s prev toks o s' : naive_reach s → allocate_immutable_block prev toks s = Ok (o, s') → naive_reach s'
  | nr_immutables s prev l r s' : naive_reach s → allocate_immutable_blocks prev l s = Ok (r, s') → naive_reach s'
  | nr_append s o toks s' : naive_reach s → live (na_block_pool s) o → append_token_ids o toks s = Ok (tt, s') → naive_reach s'
  | nr_free s o keep s' : naive_reach s → naive_free o keep s = Ok (tt, s') → naive_reach s'
  | nr_fork s o l s' : naive_reach s → naive_fork o s = Ok (l, s') → naive_reach s'
  | nr_swap_out s l s' : naive_reach s → naive_swap_out l s = Ok (tt, s') → naive_reach s'
  | nr_swap_in s l s' : naive_reach s → NoDup l → Forall (swapped s) l → naive_swap_in l s = Ok (tt, s') → naive_reach s'
  | nr_clear s l s' : naive_reach s → clear_copy_on_writes s = Ok (l, s') → naive_reach s'.

Lemma naive_inv_init n bs ids s : (∀ l, ids = Some l → NoDup l) → naive_init n bs ids = Ok s → naive_inv [] s.
Proof.
  move=> Hnd. rw /naive_init. set l := default (seq 0 n) ids. have Hl : NoDup l.
  { rw /l. destruct ids as [l'|]; [by apply Hnd|apply NoDup_seq]. }
  case_bool_decide; last done. move=> [= <-].
  have Hu : ∀ id, uses (replicate (n * 4) (blank_block bs)) id = 0%Z by move=> id; apply uses_blank.
  split; rw /total; cbn; try (move=> id; rw ?Hu); [apply pool_inv_init| | | |done|].
  - rw /refcounter_init. split; [move=> Hi; exists 0%Z; by apply lookup_gset_to_gmap_Some|].
    by move=> [y /lookup_gset_to_gmap_Some [? _]].
  - by move=> m /lookup_gset_to_gmap_Some [_ <-].
  - done.
  - rw elem_of_list_to_set. naive_solver.
Qed.
Lemma naive_reach_inv s : naive_reach s → naive_inv [] s.
Proof.
  induction 1 as [n bs ids s Hnd Hi|s prev o s' _ IH Hr|s prev toks o s' _ IH Hr|s prev l r s' _ IH Hr|s o toks s' _ IH Hl Hr
    |s o keep s' _ IH Hr|s o l s' _ IH Hr|s l s' _ IH Hr|s l s' _ IH Hnd Hsw Hr|s l s' _ IH Hr].
  - by eapply naive_inv_init.
  - by destruct (wp_ok _ _ _ _ _ _ (wp_allocate_mutable [] s prev IH) Hr).
  - by destruct (wp_ok _ _ _ _ _ _ (wp_allocate_immutable s prev toks IH) Hr).
  - by destruct (wp_ok _ _ _ _ _ _ (wp_allocate_immutable_blocks s prev l IH) Hr).
  - by destruct (wp_ok _ _ _ _ _ _ (wp_append_token_ids s o toks IH Hl) Hr) as [b [_ [? _]]].
  - apply (wp_ok _ _ _ _ _ _ (wp_naive_free s o keep IH) Hr).
  - apply (wp_ok _ _ _ _ _ _ (wp_naive_fork s o IH) Hr).
  - apply (wp_ok _ _ _ _ _ _ (wp_naive_swap_out l s IH) Hr).
  - apply (wp_ok _ _ _ _ _ _ (wp_naive_swap_in l s IH Hnd Hsw) Hr).
  - move: Hr. rw /clear_copy_on_writes /mbind /M_bind /mget /mput. move=> [= _ <-]. by destruct IH; split.
Qed.

(** Accounting of the naive allocator: after any calls the reference count of
    a physical block is the number of block objects that stand for it, the free
    list holds every block without one, each once, and an object that was returned
    to the pool stands for no block. *)
Theorem naive_blocks_accounted s : naive_reach s →
  (∀ id, id ∈ all_block_indices s → na_refcounts s !! id = Some (uses (bp_pool (na_block_pool s)) id)) ∧
  NoDup (free_block_indices s) ∧
  (∀ id, id ∈ free_block_indices s ↔ id ∈ all_block_indices s ∧
     ∀ o b, bp_pool (na_block_pool s) !! o = Some b → nb_block_id b ≠ Some id) ∧
  (∀ o b id, bp_pool (na_block_pool s) !! o = Some b → nb_block_id b = Some id →
     live (na_block_pool s) o ∧ id ∈ all_block_indices s).
Proof.
  move=> /naive_reach_inv HI. destruct (HI) as [I1 I2 I3 I4 I5 I6].
  have Ht : ∀ id, total [] s id = uses (bp_pool (na_block_pool s)) id by move=> id; rw /total occ_nil; lia.
  split_and!; [|done| |].
  - move=> id /I2 [n Hn]. by rw Hn (I3 _ _ Hn) Ht.
  - move=> id. rw I6 Ht. split; move=> [Ha H]; (split; first done).
    + move=> o b Hb Hid. have : (0 < uses (bp_pool (na_block_pool s)) id)%Z by apply uses_pos; exists o, b. lia.
    + destruct (decide (0 < uses (bp_pool (na_block_pool s)) id)%Z) as [Hp|Hp].
      * apply uses_pos in Hp as (o & b & Hb & Hid). by destruct (H o b).
      * have := uses_nonneg (bp_pool (na_block_pool s)) id. lia.
  - move=> o b id Hb Hid. split; [|by eapply inv_known].
    split; [by eapply lookup_lt_Some|]. move=> /(pi_free _ I1) [b' [? ?]]. congruence.
Qed.

(** Copy on write: appending to a block object changes no other object, and
    afterwards the physical block written to belongs to this object alone. If it
    did before, it stays; if it was shared, the object gets a free block and the
    pair is recorded for the copy. *)
Theorem copy_on_write_isolates s o toks s' : naive_reach s → live (na_block_pool s) o →
  append_token_ids o toks s = Ok (tt, s') →
  ∃ b b', bp_pool (na_block_pool s) !! o = Some b ∧ bp_pool (na_block_pool s') !! o = Some b' ∧
    nb_token_ids b' = nb_token_ids b ++ toks ∧ others_kept (na_block_pool s) (na_block_pool s') o ∧
    match nb_block_id b with
    | None => nb_block_id b' = None
    | Some id => ∃ id', nb_block_id b' = Some id' ∧
        (∀ o2 b2, bp_pool (na_block_pool s') !! o2 = Some b2 → nb_block_id b2 = Some id' → o2 = o) ∧
        (id' = id ∧ na_copy_on_writes s' = na_copy_on_writes s ∨
         id' ≠ id ∧ id' ∈ free_block_indices s ∧ na_copy_on_writes s' = na_copy_on_writes s ++ [(id, id')])
    end.
Proof.
  move=> /naive_reach_inv HI Hl Hr. destruct (wp_ok _ _ _ _ _ _ (wp_append_token_ids s o toks HI Hl) Hr) as (b & Hb & I2 & _ & H).
  have Hlt := lookup_lt_Some _ _ _ Hb. exists b. destruct (nb_block_id b) as [id|] eqn:Hid.
  - destruct H as (id' & O & W & T). have HK := only_object_kept _ _ _ _ O. destruct O as [P F].
    eexists. rw P list_lookup_insert_eq //. split_and!; [done|done|done|done|]. exists id'.
    split; first done. split; last by destruct W; [left|right].
    move=> o2 b2 Hb2 Hid2. rw -P in Hb2. eapply (uses_one _ id'); [| | |exact Hb2|exact Hid2].
    + by rw P list_lookup_insert_eq.
    + done.
    + move: T. rw /total occ_nil. lia.
  - destruct H as [O _]. have HK := only_object_kept _ _ _ _ O. destruct O as [P F].
    eexists. by rw P list_lookup_insert_eq.
Qed.

(** Forking shares the physical blocks and copies the tokens: the forked objects
    are new, and the source is untouched. *)
Theorem fork_shares s last_block l l' s' : naive_reach s → chain (na_block_pool s) last_block l →
  Forall (live (na_block_pool s)) l → length l ≤ length (bp_pool (na_block_pool s)) →
  naive_fork last_block s = Ok (l', s') → Forall2 (forked s s') l l' ∧ kept s s'.
Proof.
  move=> /naive_reach_inv HI Hc Hl Hlen. rw /naive_fork /mbind /M_bind /mget.
  rw (all_blocks_chain _ _ _ Hc); first lia.
  destruct (mfold l (None, []) fork_block s) as [[[p fl] s1]|] eqn:E => //. move=> [= <- <-].
  destruct (wp_ok _ _ _ _ _ _ (wp_fork_blocks l (None, []) s HI Hl) E) as (_ & K & r & Hr & HF).
  simpl in Hr. by subst.
Qed.

(** Two sequences that share their last block. *)
#[export] Instance NaiveBlockAllocator_inhabited : Inhabited NaiveBlockAllocator :=
  populate {| free_block_indices := []; all_block_indices := ∅; na_refcounts := ∅; na_block_size := 0;
              na_copy_on_writes := []; na_block_pool := pool_init 0 0 |}.
Definition state_of {A} (r : result (A * NaiveBlockAllocator)) : NaiveBlockAllocator :=
  match r with Ok (_, s) => s | Raise _ => inhabitant end.
Definition demo_naive : NaiveBlockAllocator :=
  match naive_init 3 4 None with Ok s => s | Raise _ => inhabitant end.
Definition demo_filled : NaiveBlockAllocator := state_of (allocate_immutable_block None [1; 2]%Z demo_naive).
Definition demo_forked : NaiveBlockAllocator := state_of (naive_fork 0 demo_filled).
Definition demo_written : NaiveBlockAllocator := state_of (append_token_ids 1 [3]%Z demo_forked).
Lemma demo_forked_reach : naive_reach demo_forked.
Proof.
  eapply (nr_fork demo_filled 0); [|vm_compute; reflexivity].
  eapply (nr_immutable demo_naive None [1; 2]%Z); [|vm_compute; reflexivity].
  apply (nr_init 3 4 None); [done|vm_compute; reflexivity].
Qed.
Lemma naive_blocks_accounted_witness :
  na_refcounts demo_forked !! 0 = Some 2%Z ∧ NoDup (free_block_indices demo_forked).
Proof.
  destruct (naive_blocks_accounted demo_forked demo_forked_reach) as (H1 & H2 & _). split; [|exact H2].
  etrans; [apply H1|vm_compute; reflexivity]. apply (bool_decide_unpack _). vm_compute. exact I.
Defined.
Lemma copy_on_write_isolates_witness :
  na_copy_on_writes demo_written = [(0, 1)] ∧ others_kept (na_block_pool demo_forked) (na_block_pool demo_written) 1.
Proof.
  split; [vm_compute; reflexivity|].
  destruct (copy_on_write_isolates demo_forked 1 [3]%Z demo_written demo_forked_reach) as (b & b' & _ & _ & _ & HK & _).
  - split; [vm_compute; lia|apply (bool_decide_unpack _); vm_compute; exact I].
  - vm_compute. reflexivity.
  - exact HK.
Defined.
