(* ===== verification/CacheMetric.v ===== *)
(** The hit rate of the prefix cache: [CacheMetricData] of
    vllm/core/block/common.py. The code adds up floating-point numbers; here the
    rates are exact rationals. *)
From Stdlib Require Import ssreflect ZArith Lia QArith Qfield.
From stdpp Require Import base numbers list strings.
From S2P Require Import Prelude.
Open Scope nat_scope.

Record CacheMetricData := {
  num_completed_blocks : nat;
  completed_block_cache_hit_rate : Q;
  num_incompleted_block_queries : nat;
  num_incompleted_block_hit : nat;
  cm_block_size : nat;
}.
Definition cache_metric_init (block_size : nat) : CacheMetricData :=
  {| num_completed_blocks := 0; completed_block_cache_hit_rate := 0; num_incompleted_block_queries := 0;
     num_incompleted_block_hit := 0; cm_block_size := block_size |}.
(** An integer as a float. *)
Definition fl (n : nat) : Q := inject_Z (Z.of_nat n).

Definition metric_query (hit : bool) (m : CacheMetricData) : CacheMetricData :=
  let queries := num_incompleted_block_queries m + 1 in
  let hits := num_incompleted_block_hit m + Nat.b2n hit in
  if queries =? cm_block_size m then
    let hit_rate := (fl hits / fl queries)%Q in
    {| num_completed_blocks := num_completed_blocks m + 1;
       completed_block_cache_hit_rate :=
         ((completed_block_cache_hit_rate m * fl (num_completed_blocks m) + hit_rate) / fl (num_completed_blocks m + 1))%Q;
       num_incompleted_block_queries := 0; num_incompleted_block_hit := 0; cm_block_size := cm_block_size m |}
  else
    {| num_completed_blocks := num_completed_blocks m;
       completed_block_cache_hit_rate := completed_block_cache_hit_rate m;
       num_incompleted_block_queries := queries; num_incompleted_block_hit := hits; cm_block_size := cm_block_size m |}.
Definition get_hit_rate (m : CacheMetricData) : Q :=
  let incomplete_ratio := (fl (num_incompleted_block_queries m) / fl (cm_block_size m))%Q in
  let total_blocks := (fl (num_completed_blocks m) + incomplete_ratio)%Q in
  if Qeq_bool total_blocks 0 then 0%Q
  else
    let completed_block_hit :=
      if 0 <? num_completed_blocks m then (completed_block_cache_hit_rate m * fl (num_completed_blocks m))%Q else 0%Q in
    let incompleted_block_hit :=
      if 0 <? num_incompleted_block_queries m then
        (fl (num_incompleted_block_hit m) / fl (num_incompleted_block_queries m) * incomplete_ratio)%Q
      else 0%Q in
    ((completed_block_hit + incompleted_block_hit) / total_blocks)%Q.

(** * The rate is hits over queries *)
Definition hits (qs : list bool) : nat := length (filter (λ b, b = true) qs).
Definition run_queries (block_size : nat) (qs : list bool) : CacheMetricData :=
  fold_left (λ m q, metric_query q m) qs (cache_metric_init block_size).

Lemma fl_plus a b : (fl (a + b) == fl a + fl b)%Q.
Proof. rw /fl Nat2Z.inj_add inject_Z_plus. reflexivity. Qed.
Lemma fl_nonzero n : 0 < n → ¬ (fl n == 0)%Q.
Proof. move=> Hn. rw /fl /inject_Z /Qeq /=. lia. Qed.

(** What the counters stand for: [q] queries with [h] hits. *)
Record metric_inv (bs q h : nat) (m : CacheMetricData) : Prop := {
  mi_size : cm_block_size m = bs;
  mi_queries : q = num_completed_blocks m * bs + num_incompleted_block_queries m;
  mi_small : num_incompleted_block_queries m < bs;
  mi_hits : (completed_block_cache_hit_rate m * fl (num_completed_blocks m) * fl bs + fl (num_incompleted_block_hit m) == fl h)%Q;
  mi_le : num_incompleted_block_hit m ≤ num_incompleted_block_queries m;
}.
Lemma metric_inv_query bs q h m hit : metric_inv bs q h m →
  metric_inv bs (q + 1) (h + Nat.b2n hit) (metric_query hit m).
Proof.
  move=> [H1 H2 H3 H4 H5]. have Hbs : ¬ (fl bs == 0)%Q by apply fl_nonzero; lia.
  rw /metric_query H1. destruct (Nat.eqb_spec (num_incompleted_block_queries m + 1) bs) as [He|He]; split; cbn; try done.
  - subst q. nia.
  - lia.
  - have Hn : ¬ (fl (num_completed_blocks m + 1) == 0)%Q by apply fl_nonzero; lia.
    rw fl_plus in Hn. rw He !fl_plus -H4. change (fl 0) with 0%Q.
    field. by split.
  - lia.
  - lia.
  - rw !fl_plus -H4. ring.
  - destruct hit; simpl; lia.
Qed.
Lemma run_queries_inv bs qs : 0 < bs → metric_inv bs (length qs) (hits qs) (run_queries bs qs).
Proof.
  move=> Hbs. elim/rev_ind: qs => [|q qs IH].
  - split; cbn; try done; lia.
  - rw /run_queries fold_left_app /= length_app /hits filter_app length_app /=.
    have := metric_inv_query _ _ _ _ q IH. rw /hits filter_cons. by destruct q.
Qed.

(** The reported hit rate is the number of hits over the number of queries,
    however the queries are split into blocks (in exact arithmetic). *)
Theorem hit_rate_exact bs qs : 0 < bs → qs ≠ [] →
  (get_hit_rate (run_queries bs qs) == fl (hits qs) / fl (length qs))%Q.
Proof.
  move=> Hbs Hne. destruct (run_queries_inv bs qs Hbs) as [H1 H2 H3 H4 H5].
  set m := run_queries bs qs in H1 H2 H3 H4 H5 *.
  have Hq : 0 < length qs by destruct qs; [|simpl; lia].
  have Hb0 := fl_nonzero _ Hbs. have Hl0 := fl_nonzero _ Hq.
  have Hlen : (fl (length qs) == fl (num_completed_blocks m) * fl bs + fl (num_incompleted_block_queries m))%Q.
  { rw H2. rw fl_plus. rw /fl Nat2Z.inj_mul inject_Z_mult. reflexivity. }
  have Htot : ¬ (fl (num_completed_blocks m) + fl (num_incompleted_block_queries m) / fl bs == 0)%Q.
  { move=> H0. apply Hl0. rw Hlen.
    transitivity ((fl (num_completed_blocks m) + fl (num_incompleted_block_queries m) / fl bs) * fl bs)%Q; first by field.
    rw H0. ring. }
  rw /get_hit_rate H1. destruct (Qeq_bool _ _) eqn:E; first by apply Qeq_bool_iff in E.
  have Hc : ((if 0 <? num_completed_blocks m then (completed_block_cache_hit_rate m * fl (num_completed_blocks m)) else 0)
    == completed_block_cache_hit_rate m * fl (num_completed_blocks m))%Q.
  { destruct (Nat.ltb_spec 0 (num_completed_blocks m)) as [|Hz]; first reflexivity.
    have -> : num_completed_blocks m = 0 by lia. rw /fl /=. ring. }
  have Hi : ((if 0 <? num_incompleted_block_queries m then
      fl (num_incompleted_block_hit m) / fl (num_incompleted_block_queries m) * (fl (num_incompleted_block_queries m) / fl bs)
      else 0) == fl (num_incompleted_block_hit m) / fl bs)%Q.
  { destruct (Nat.ltb_spec 0 (num_incompleted_block_queries m)) as [Hp|Hz].
    - field. split; [done|by apply fl_nonzero].
    - have -> : num_incompleted_block_hit m = 0 by lia. rw /fl /=. field. done. }
  rw Hc Hi -H4 Hlen. field. by rw -Hlen.
Qed.
Lemma hit_rate_exact_witness : (get_hit_rate (run_queries 2 [true; false; true]) == 2 # 3)%Q.
Proof. rw (hit_rate_exact 2 [true; false; true]); [lia|done|reflexivity]. Defined.
