(* ===== verification/PrefixCaching.v ===== *)
(** The block objects of the V0 block manager with prefix caching:
    [BlockTracker], [PrefixCachingBlock] and [PrefixCachingBlockAllocator] of
    vllm/core/block/prefix_caching_block.py.

    A [PrefixCachingBlock] is the [NaiveBlock] it wraps, an object of the pool of
    the hashless allocator, and the attributes of its own, under the same index.
    Both have the same previous block. Python's [hash] of a tuple
    [(is_first_block, prev_block_hash, *token_ids, extra_hash)] is the parameter
    [py_hash]; time stamps are integers, as in [Evictor]. *)
From Stdlib Require Import ssreflect ZArith Lia.
From stdpp Require Import base numbers list gmap strings sorting.
From S2P Require Import Prelude NaiveBlocks Evictor CacheMetric.

(** * Data *)
Record BlockTracker := {
  bt_active : bool;
  bt_last_accessed : Z;
  bt_computed : bool;
}.
(** The attributes a [PrefixCachingBlock] has besides its [NaiveBlock]. *)
Record PrefixCachingBlock := {
  pb_cached_content_hash : option Z;
  pb_cached_num_tokens_total : nat;
  pb_computed : bool;
  pb_extra_hash : option Z;
}.
Record PrefixCachingBlockAllocator := {
  pa_cached_blocks : gmap Z nat;
  pa_touched_blocks : gset nat;
  pa_block_tracker : gmap nat BlockTracker;
  pa_hashless : NaiveBlockAllocator;
  pa_attrs : gmap nat PrefixCachingBlock;
  pa_evictor : LRUEvictor;
  pa_copy_on_writes : list (nat * nat);
  pa_metric_data : CacheMetricData;
}.
Abbreviation PC := (M PrefixCachingBlockAllocator).

(** Attribute stores. *)
Definition set_bt_active (v : bool) (r : BlockTracker) : BlockTracker :=
  {| bt_active := v; bt_last_accessed := bt_last_accessed r; bt_computed := bt_computed r |}.
Definition set_bt_last_accessed (v : Z) (r : BlockTracker) : BlockTracker :=
  {| bt_active := bt_active r; bt_last_accessed := v; bt_computed := bt_computed r |}.
Definition set_bt_computed (v : bool) (r : BlockTracker) : BlockTracker :=
  {| bt_active := bt_active r; bt_last_accessed := bt_last_accessed r; bt_computed := v |}.
Definition set_pb_cached_content_hash (v : option Z) (r : PrefixCachingBlock) : PrefixCachingBlock :=
  {| pb_cached_content_hash := v; pb_cached_num_tokens_total := pb_cached_num_tokens_total r; pb_computed := pb_computed r; pb_extra_hash := pb_extra_hash r |}.
Definition set_pb_cached_num_tokens_total (v : nat) (r : PrefixCachingBlock) : PrefixCachingBlock :=
  {| pb_cached_content_hash := pb_cached_content_hash r; pb_cached_num_tokens_total := v; pb_computed := pb_computed r; pb_extra_hash := pb_extra_hash r |}.
Definition set_pb_computed (v : bool) (r : PrefixCachingBlock) : PrefixCachingBlock :=
  {| pb_cached_content_hash := pb_cached_content_hash r; pb_cached_num_tokens_total := pb_cached_num_tokens_total r; pb_computed := v; pb_extra_hash := pb_extra_hash r |}.
Definition set_pa_cached_blocks (v : gmap Z nat) (r : PrefixCachingBlockAllocator) : PrefixCachingBlockAllocator :=
  {| pa_cached_blocks := v; pa_touched_blocks := pa_touched_blocks r; pa_block_tracker := pa_block_tracker r; pa_hashless := pa_hashless r; pa_attrs := pa_attrs r; pa_evictor := pa_evictor r; pa_copy_on_writes := pa_copy_on_writes r; pa_metric_data := pa_metric_data r |}.
Definition set_pa_touched_blocks (v : gset nat) (r : PrefixCachingBlockAllocator) : PrefixCachingBlockAllocator :=
  {| pa_cached_blocks := pa_cached_blocks r; pa_touched_blocks := v; pa_block_tracker := pa_block_tracker r; pa_hashless := pa_hashless r; pa_attrs := pa_attrs r; pa_evictor := pa_evictor r; pa_copy_on_writes := pa_copy_on_writes r; pa_metric_data := pa_metric_data r |}.
Definition set_pa_block_tracker (v : gmap nat BlockTracker) (r : PrefixCachingBlockAllocator) : PrefixCachingBlockAllocator :=
  {| pa_cached_blocks := pa_cached_blocks r; pa_touched_blocks := pa_touched_blocks r; pa_block_tracker := v; pa_hashless := pa_hashless r; pa_attrs := pa_attrs r; pa_evictor := pa_evictor r; pa_copy_on_writes := pa_copy_on_writes r; pa_metric_data := pa_metric_data r |}.
Definition set_pa_hashless (v : NaiveBlockAllocator) (r : PrefixCachingBlockAllocator) : PrefixCachingBlockAllocator :=
  {| pa_cached_blocks := pa_cached_blocks r; pa_touched_blocks := pa_touched_blocks r; pa_block_tracker := pa_block_tracker r; pa_hashless := v; pa_attrs := pa_attrs r; pa_evictor := pa_evictor r; pa_copy_on_writes := pa_copy_on_writes r; pa_metric_data := pa_metric_data r |}.
Definition set_pa_attrs (v : gmap nat PrefixCachingBlock) (r : PrefixCachingBlockAllocator) : PrefixCachingBlockAllocator :=
  {| pa_cached_blocks := pa_cached_blocks r; pa_touched_blocks := pa_touched_blocks r; pa_block_tracker := pa_block_tracker r; pa_hashless := pa_hashless r; pa_attrs := v; pa_evictor := pa_evictor r; pa_copy_on_writes := pa_copy_on_writes r; pa_metric_data := pa_metric_data r |}.
Definition set_pa_evictor (v : LRUEvictor) (r : PrefixCachingBlockAllocator) : PrefixCachingBlockAllocator :=
  {| pa_cached_blocks := pa_cached_blocks r; pa_touched_blocks := pa_touched_blocks r; pa_block_tracker := pa_block_tracker r; pa_hashless := pa_hashless r; pa_attrs := pa_attrs r; pa_evictor := v; pa_copy_on_writes := pa_copy_on_writes r; pa_metric_data := pa_metric_data r |}.
Definition set_pa_copy_on_writes (v : list (nat * nat)) (r : PrefixCachingBlockAllocator) : PrefixCachingBlockAllocator :=
  {| pa_cached_blocks := pa_cached_blocks r; pa_touched_blocks := pa_touched_blocks r; pa_block_tracker := pa_block_tracker r; pa_hashless := pa_hashless r; pa_attrs := pa_attrs r; pa_evictor := pa_evictor r; pa_copy_on_writes := v; pa_metric_data := pa_metric_data r |}.
Definition set_pa_metric_data (v : CacheMetricData) (r : PrefixCachingBlockAllocator) : PrefixCachingBlockAllocator :=
  {| pa_cached_blocks := pa_cached_blocks r; pa_touched_blocks := pa_touched_blocks r; pa_block_tracker := pa_block_tracker r; pa_hashless := pa_hashless r; pa_attrs := pa_attrs r; pa_evictor := pa_evictor r; pa_copy_on_writes := pa_copy_on_writes r; pa_metric_data := v |}.

(** * [BlockTracker] *)
Definition DEFAULT_LAST_ACCESSED_TIME : Z := -1.
Definition tracker_reset (t : BlockTracker) : BlockTracker :=
  {| bt_active := bt_active t; bt_last_accessed := DEFAULT_LAST_ACCESSED_TIME; bt_computed := false |}.
Definition tracker_init : BlockTracker :=
  {| bt_active := false; bt_last_accessed := DEFAULT_LAST_ACCESSED_TIME; bt_computed := false |}.
Definition tracker_enable (t : BlockTracker) : result BlockTracker :=
  if bt_active t then Raise (AssertionError "not self.active") else Ok (tracker_reset (set_bt_active true t)).
Definition tracker_disable (t : BlockTracker) : result BlockTracker :=
  if bt_active t then Ok (tracker_reset (set_bt_active false t)) else Raise (AssertionError "self.active").

(** * Access to the parts of the state *)
Definition on_hashless {A} (m : NA A) : PC A := zoom pa_hashless set_pa_hashless m.
Definition on_evictor {A} (m : EV A) : PC A := zoom pa_evictor set_pa_evictor m.
Definition pc_block (o : nat) : PC NaiveBlock := on_hashless (the_block o).
(** An object of the pool that was never handed out has the attributes its
    creation gave it. *)
Definition blank_attrs (extra_hash : option Z) : PrefixCachingBlock :=
  {| pb_cached_content_hash := None; pb_cached_num_tokens_total := 0; pb_computed := false; pb_extra_hash := extra_hash |}.
Definition attrs_of (s : PrefixCachingBlockAllocator) (o : nat) : PrefixCachingBlock := default (blank_attrs None) (pa_attrs s !! o).
Definition upd_attrs (o : nat) (f : PrefixCachingBlock → PrefixCachingBlock) : PC unit :=
  mmodify (λ s, set_pa_attrs (<[o := f (attrs_of s o)]> (pa_attrs s)) s).
Definition block_id_of (o : nat) : PC nat :=
  b ← pc_block o;
  match nb_block_id b with Some id => mret id | None => mraise (AssertionError "block_id is not None") end.
(** [self._block_tracker[block_id]] *)
Definition the_tracker (block_id : nat) : PC BlockTracker :=
  s ← mget;
  match pa_block_tracker s !! block_id with Some t => mret t | None => mraise (KeyError "block_id") end.
Definition set_tracker (block_id : nat) (t : BlockTracker) : PC unit :=
  mmodify (λ s, set_pa_block_tracker (<[block_id := t]> (pa_block_tracker s)) s).
Definition track_block_id (block_id : nat) (computed : bool) : PC unit :=
  t ← the_tracker block_id;
  t ← mlift (tracker_enable t);
  set_tracker block_id (set_bt_computed computed t).
Definition untrack_block_id (block_id : nat) : PC unit :=
  t ← the_tracker block_id;
  t ← mlift (tracker_disable t);
  set_tracker block_id t.

Section allocator.
Context (py_hash : bool * option Z * list Z * option Z → Z).

(** * [PrefixCachingBlock] *)
Definition hash_block_tokens (is_first_block : bool) (prev_block_hash : option Z) (cur_block_token_ids : list Z)
    (extra_hash : option Z) : result Z :=
  if Bool.eqb (bool_decide (prev_block_hash = None)) is_first_block
  then Ok (py_hash (is_first_block, prev_block_hash, cur_block_token_ids, extra_hash))
  else Raise (AssertionError "(prev_block_hash is None) == is_first_block").
Definition update_num_tokens_total (o : nat) : PC unit :=
  b ← pc_block o;
  s ← mget;
  let res := match nb_prev_block b with Some p => pb_cached_num_tokens_total (attrs_of s p) | None => 0 end in
  upd_attrs o (set_pb_cached_num_tokens_total (res + length (nb_token_ids b))).
(** [BlockPool.init_block], which runs [PrefixCachingBlock.__init__]. *)
Definition pc_init_block (prev_block : option nat) (token_ids : list Z) (physical_block_id : option nat)
    (extra_hash : option Z) : PC nat :=
  s ← mget;
  o ← on_hashless (on_pool (init_block prev_block token_ids (na_block_size (pa_hashless s)) physical_block_id));
  upd_attrs o (λ _, blank_attrs extra_hash);;;
  update_num_tokens_total o;;;
  mret o.
(** The property [content_hash]; the recursion runs along the previous blocks. *)
Fixpoint content_hash_loop (fuel : nat) (o : nat) : PC (option Z) :=
  match fuel with
  | 0 => mraise OutOfFuel
  | S fuel =>
    b ← pc_block o;
    s ← mget;
    match pb_cached_content_hash (attrs_of s o) with
    | Some h => mret (Some h)
    | None =>
      if negb (nb_is_full b) then mret None
      else
        let is_first_block := bool_decide (nb_prev_block b = None) in
        prev_block_hash ← match nb_prev_block b with Some p => content_hash_loop fuel p | None => mret None end;
        if bool_decide (prev_block_hash = None) && negb is_first_block then mret None
        else
          h ← mlift (hash_block_tokens is_first_block prev_block_hash (nb_token_ids b) (pb_extra_hash (attrs_of s o)));
          upd_attrs o (set_pb_cached_content_hash (Some h));;;
          mret (Some h)
    end
  end.
Definition content_hash (o : nat) : PC (option Z) :=
  s ← mget; content_hash_loop (S (length (bp_pool (na_block_pool (pa_hashless s))))) o.
Definition the_content_hash (o : nat) : PC Z :=
  h ← content_hash o;
  match h with Some h => mret h | None => mraise (AssertionError "block.content_hash is not None") end.

(** * Allocation of block ids *)
Definition NoFreeBlocksError : exn := ValueError "NoFreeBlocksError".
(** The hashless allocator raises before it changes anything. *)
Definition maybe_allocate_hashless_block_id : PC (option nat) := λ s,
  match (o ← on_hashless (allocate_mutable_block None);
         upd_attrs o (λ _, blank_attrs None);;;
         update_num_tokens_total o;;;
         b ← pc_block o;
         on_hashless (pool_free_block o);;;
         match nb_block_id b with
         | Some block_id => track_block_id block_id false;;; mret (Some block_id)
         | None => mraise (AssertionError "block_id is not None")
         end) s with
  | Ok r => Ok r
  | Raise e => if decide (e = NoFreeBlocksError) then Ok (None, s) else Raise e
  end.
Definition maybe_allocate_evicted_block_id : PC (option nat) :=
  s ← mget;
  if evictor_num_blocks (pa_evictor s) =? 0 then mret None
  else
    '(block_id, content_hash_to_evict) ← on_evictor evict;
    s ← mget;
    match pa_cached_blocks s !! content_hash_to_evict with
    | None => mraise (AssertionError "content_hash_to_evict in self._cached_blocks")
    | Some block_id' =>
      refcount ← on_hashless (ref_get block_id');
      massert (refcount =? 0)%Z "self._refcounter.get(_block_id) == 0";;;
      massert (Z.of_nat block_id' =? block_id)%Z "_block_id == block_id";;;
      mmodify (λ s, set_pa_cached_blocks (delete content_hash_to_evict (pa_cached_blocks s)) s);;;
      on_hashless (ref_incr block_id');;;
      track_block_id block_id' false;;;
      mret (Some block_id')
    end.
Definition pc_allocate_block_id : PC nat :=
  hashless_block_id ← maybe_allocate_hashless_block_id;
  match hashless_block_id with
  | Some id => mret id
  | None =>
    evicted_block_id ← maybe_allocate_evicted_block_id;
    match evicted_block_id with Some id => mret id | None => mraise NoFreeBlocksError end
  end.

(** * Reference counts *)
Definition incr_refcount_cached_block (o : nat) : PC unit :=
  upd_attrs o (set_pb_computed true);;;
  block_id ← block_id_of o;
  refcount ← on_hashless (ref_incr block_id);
  mwhen (refcount =? 1)%Z
    (s ← mget;
     mwhen (evictor_contains (Z.of_nat block_id) (pa_evictor s)) (on_evictor (evictor_remove (Z.of_nat block_id)));;;
     track_block_id block_id true).
Definition decr_refcount_cached_block (o : nat) : PC unit :=
  h ← the_content_hash o;
  block_id ← block_id_of o;
  refcount ← on_hashless (ref_decr block_id);
  if (0 <? refcount)%Z then on_hashless (upd_block o (set_nb_block_id None))
  else
    massert (refcount =? 0)%Z "refcount == 0";;;
    s ← mget;
    massert (bool_decide (is_Some (pa_cached_blocks s !! h))) "block.content_hash in self._cached_blocks";;;
    t ← the_tracker block_id;
    on_evictor (evictor_add (Z.of_nat block_id) h (Z.of_nat (pb_cached_num_tokens_total (attrs_of s o))) (bt_last_accessed t));;;
    untrack_block_id block_id;;;
    on_hashless (upd_block o (set_nb_block_id None)).
Definition decr_refcount_hashless_block (o : nat) : PC unit :=
  block_id ← block_id_of o;
  refcount ← on_hashless (ref_get block_id);
  mwhen (refcount =? 1)%Z (untrack_block_id block_id);;;
  on_hashless (naive_free o true).
Definition pc_free_block_id (o : nat) : PC unit :=
  block_id_of o;;;
  h ← content_hash o;
  match h with Some _ => decr_refcount_cached_block o | None => decr_refcount_hashless_block o end;;;
  b ← pc_block o;
  massert (bool_decide (nb_block_id b = None)) "block.block_id is None".
Definition pc_free (o : nat) (keep_block_object : bool) : PC unit :=
  pc_free_block_id o;;;
  mwhen (negb keep_block_object) (on_hashless (pool_free_block o)).

(** * Appending *)
Definition promote_to_immutable_block (o : nat) : PC nat :=
  h ← the_content_hash o;
  block_id ← block_id_of o;
  refcount ← on_hashless (ref_get block_id);
  massert (0 <? refcount)%Z "self._refcounter.get(block.block_id) > 0";;;
  s ← mget;
  match pa_cached_blocks s !! h with
  | None =>
    mmodify (λ s, set_pa_cached_blocks (<[h := block_id]> (pa_cached_blocks s)) s);;;
    mmodify (λ s, set_pa_touched_blocks ({[block_id]} ∪ pa_touched_blocks s) s);;;
    mret block_id
  | Some _ =>
    decr_refcount_hashless_block o;;;
    s ← mget;
    match pa_cached_blocks s !! h with
    | None => mraise (KeyError "content_hash")
    | Some cached => on_hashless (upd_block o (set_nb_block_id (Some cached)))
    end;;;
    incr_refcount_cached_block o;;;
    block_id_of o
  end.
(** Called by [NaiveBlock.append_token_ids] on the wrapped block, whose
    [content_hash] is [None]. *)
Definition pc_cow_block_if_not_appendable (o : nat) : PC nat :=
  src_block_id ← block_id_of o;
  appendable ← on_hashless (is_appendable o);
  if (appendable : bool) then mret src_block_id
  else
    decr_refcount_hashless_block o;;;
    b ← pc_block o;
    massert (bool_decide (nb_block_id b = None)) "block.block_id is None";;;
    trg_block_id ← pc_allocate_block_id;
    mmodify (λ s, set_pa_copy_on_writes (pa_copy_on_writes s ++ [(src_block_id, trg_block_id)]) s);;;
    mret trg_block_id.
Definition pc_clear_copy_on_writes : PC (list (nat * nat)) :=
  s ← mget; mput (set_pa_copy_on_writes [] s);;; mret (pa_copy_on_writes s).
(** [NaiveBlock.append_token_ids] of the wrapped block. *)
Definition pc_naive_append (o : nat) (token_ids : list Z) : PC unit :=
  b ← pc_block o;
  b' ← mlift (append_token_ids_no_cow token_ids b);
  on_hashless (upd_block o (λ _, b'));;;
  match nb_block_id b' with
  | None => mret tt
  | Some _ => id ← pc_cow_block_if_not_appendable o; on_hashless (upd_block o (set_nb_block_id (Some id)))
  end.
(** [PrefixCachingBlock.append_token_ids] *)
Definition pc_append_token_ids (o : nat) (token_ids : list Z) : PC unit :=
  h ← content_hash o;
  massert (bool_decide (h = None)) "self.content_hash is None";;;
  s ← mget;
  massert (negb (pb_computed (attrs_of s o))) "not self.computed";;;
  if bool_decide (token_ids = []) then mret tt
  else
    pc_naive_append o token_ids;;;
    update_num_tokens_total o;;;
    h ← content_hash o;
    match h with
    | None => mret tt
    | Some _ => id ← promote_to_immutable_block o; on_hashless (upd_block o (set_nb_block_id (Some id)))
    end.

(** * Allocation of blocks *)
Definition pc_allocate_mutable_block (prev_block : option nat) (extra_hash : option Z) : PC nat :=
  block_id ← pc_allocate_block_id;
  o ← pc_init_block prev_block [] (Some block_id) extra_hash;
  s ← mget;
  massert (negb (pb_computed (attrs_of s o))) "not block.computed";;;
  h ← content_hash o;
  massert (bool_decide (h = None)) "block.content_hash is None";;;
  mret o.
Definition pc_allocate_immutable_block (prev_block : option nat) (token_ids : list Z) (extra_hash : option Z) : PC nat :=
  o ← pc_init_block prev_block token_ids None extra_hash;
  h ← the_content_hash o;
  s ← mget;
  match pa_cached_blocks s !! h with
  | Some cached_block_id =>
    mmodify (λ s, set_pa_metric_data (metric_query true (pa_metric_data s)) s);;;
    on_hashless (upd_block o (set_nb_block_id (Some cached_block_id)));;;
    incr_refcount_cached_block o;;;
    mret o
  | None =>
    mmodify (λ s, set_pa_metric_data (metric_query false (pa_metric_data s)) s);;;
    on_hashless (pool_free_block o);;;
    o ← pc_allocate_mutable_block prev_block extra_hash;
    pc_append_token_ids o token_ids;;;
    mret o
  end.
Definition pc_allocate_immutable_blocks (prev_block : option nat) (block_token_ids : list (list Z)) (extra_hash : option Z)
    : PC (list nat) :=
  '(_, blocks) ← mfold block_token_ids (prev_block, []) (λ '(prev_block, blocks) token_ids,
    o ← pc_allocate_immutable_block prev_block token_ids extra_hash;
    mret (Some o, blocks ++ [o]));
  mret blocks.

(** * Forking and swapping *)
Definition pc_fork_block (acc : option nat * list nat) (o : nat) : PC (option nat * list nat) :=
  let '(prev_block, forked_blocks) := acc in
  block_id ← block_id_of o;
  refcount ← on_hashless (ref_incr block_id);
  massert (negb (refcount =? 1)%Z) "can't fork free'd block";;;
  b ← pc_block o;
  s ← mget;
  forked_block ← pc_init_block prev_block (nb_token_ids b) (Some block_id) (pb_extra_hash (attrs_of s o));
  mret (Some forked_block, forked_blocks ++ [forked_block]).
Definition pc_fork (last_block : nat) : PC (list nat) :=
  s ← mget;
  source_blocks ← on_hashless (all_blocks (S (length (bp_pool (na_block_pool (pa_hashless s))))) last_block);
  '(_, forked_blocks) ← mfold source_blocks (None, []) pc_fork_block;
  mret forked_blocks.
Definition pc_swap_out (blocks : list nat) : PC unit := mfor blocks pc_free_block_id.
(** The temporary block goes back to the pool with its block id. *)
Definition pc_swap_in_block (o : nat) : PC unit :=
  b ← pc_block o;
  s ← mget;
  let extra_hash := pb_extra_hash (attrs_of s o) in
  tmp_block ← (if nb_is_full b then pc_allocate_immutable_block (nb_prev_block b) (nb_token_ids b) extra_hash
               else tmp ← pc_allocate_mutable_block (nb_prev_block b) extra_hash;
                    pc_append_token_ids tmp (nb_token_ids b);;; mret tmp);
  t ← pc_block tmp_block;
  on_hashless (pool_free_block tmp_block);;;
  on_hashless (upd_block o (set_nb_block_id (nb_block_id t))).
Definition pc_swap_in (blocks : list nat) : PC unit := mfor blocks pc_swap_in_block.

(** * Access times and computed blocks *)
Definition mark_block_as_accessed (now : Z) (block_id : nat) : PC unit :=
  t ← the_tracker block_id;
  s ← mget;
  if bt_active t then set_tracker block_id (set_bt_last_accessed now t)
  else if evictor_contains (Z.of_nat block_id) (pa_evictor s) then on_evictor (evictor_update (Z.of_nat block_id) now)
  else mraise (ValueError "Mark block as accessed which is not belonged to GPU").
Definition mark_blocks_as_accessed (block_ids : list nat) (now : Z) : PC unit := mfor block_ids (mark_block_as_accessed now).
(** The argument of the method is not used. *)
Definition mark_blocks_as_computed : PC unit :=
  s ← mget;
  mfor (elements (pa_touched_blocks s)) (λ block_id, t ← the_tracker block_id; set_tracker block_id (set_bt_computed true t));;;
  mmodify (set_pa_touched_blocks ∅).
Definition block_is_computed (block_id : nat) : PC bool :=
  t ← the_tracker block_id;
  s ← mget;
  mret (if bt_active t then bt_computed t else evictor_contains (Z.of_nat block_id) (pa_evictor s)).

(** * Queries *)
Definition pc_get_num_free_blocks (s : PrefixCachingBlockAllocator) : nat :=
  na_get_num_free_blocks (pa_hashless s) + evictor_num_blocks (pa_evictor s).
Definition get_prefix_cache_hit_rate (s : PrefixCachingBlockAllocator) : QArith_base.Q := get_hit_rate (pa_metric_data s).
Definition is_block_cached (o : nat) : PC bool :=
  h ← the_content_hash o; s ← mget; mret (bool_decide (is_Some (pa_cached_blocks s !! h))).
Definition pc_get_num_full_blocks_touched (blocks : list nat) : PC nat :=
  mfold blocks 0 (λ num_touched_blocks o,
    b ← pc_block o;
    if negb (nb_is_full b) then mret num_touched_blocks
    else
      h ← the_content_hash o;
      s ← mget;
      mret (match pa_cached_blocks s !! h with
            | None => num_touched_blocks + 1
            | Some id => if evictor_contains (Z.of_nat id) (pa_evictor s) then num_touched_blocks + 1 else num_touched_blocks
            end)).

(** [os.path.commonprefix]: the common prefix of the least and the greatest
    list, in the lexicographic order. *)
Fixpoint list_ltb (a b : list nat) : bool :=
  match a, b with
  | _, [] => false
  | [], _ :: _ => true
  | x :: a, y :: b => if x =? y then list_ltb a b else x <? y
  end.
Fixpoint common_prefix2 (a b : list nat) : list nat :=
  match a, b with
  | x :: a, y :: b => if x =? y then x :: common_prefix2 a b else []
  | _, _ => []
  end.
Definition list_least (x : list nat) (l : list (list nat)) : list nat := fold_left (λ m y, if list_ltb y m then y else m) l x.
Definition list_greatest (x : list nat) (l : list (list nat)) : list nat := fold_left (λ m y, if list_ltb m y then y else m) l x.
Definition commonprefix (l : list (list nat)) : list nat :=
  match l with [] => [] | x :: l => common_prefix2 (list_least x l) (list_greatest x l) end.
Definition get_common_computed_block_ids (computed_seq_block_ids : list (list nat)) : list nat :=
  match computed_seq_block_ids with
  | [ids] => ids
  | _ => commonprefix (filter (λ ids, ids ≠ []) computed_seq_block_ids)
  end.

(** [bisect_left(a, True, key=...)] of the standard library. *)
Fixpoint bisect_loop {A} (fuel : nat) (a : list A) (key : A → PC bool) (lo hi : nat) : PC nat :=
  match fuel with
  | 0 => mraise OutOfFuel
  | S fuel =>
    if lo <? hi then
      let mid := (lo + hi) / 2 in
      match a !! mid with
      | None => mraise (IndexError "list index out of range")
      | Some x => k ← key x; if (k : bool) then bisect_loop fuel a key lo mid else bisect_loop fuel a key (mid + 1) hi
      end
    else mret lo
  end.
Definition hash_is_cached (block_hash : Z) : PC bool :=
  s ← mget;
  match pa_cached_blocks s !! block_hash with
  | None => mret false
  | Some cached_block_id => block_is_computed cached_block_id
  end.
Definition find_cached_blocks_prefix (block_hashes : list Z) : PC (list Z) :=
  idx ← bisect_loop (S (length block_hashes)) block_hashes (λ x, c ← hash_is_cached x; mret (negb c)) 0 (length block_hashes);
  mret (take idx block_hashes).
End allocator.

(** * [__init__] *)
Definition prefix_caching_init (num_blocks block_size : nat) (block_ids : option (list nat))
    : result PrefixCachingBlockAllocator :=
  hashless ← naive_init num_blocks block_size block_ids;
  mret {| pa_cached_blocks := ∅; pa_touched_blocks := ∅;
          pa_block_tracker := gset_to_gmap tracker_init (list_to_set (default (seq 0 num_blocks) block_ids));
          pa_hashless := hashless; pa_attrs := ∅; pa_evictor := evictor_init; pa_copy_on_writes := [];
          pa_metric_data := cache_metric_init 1000 |}.
