(* ===== verification/PrefixBooks.v ===== *)
(** The accounts of the prefix-caching allocator: what its reference counts, its
    free list, its trackers, its evictor and its cache say about every physical
    block, and how they change together. *)
From Stdlib Require Import ssreflect ZArith Lia.
From stdpp Require Import base numbers list gmap strings.
From S2P Require Import Prelude NaiveBlocks Evictor CacheMetric PrefixCaching.

Record Books := {
  bk_free : list nat;
  bk_all : gset nat;
  bk_refcounts : gmap nat Z;
  bk_trackers : gmap nat BlockTracker;
  bk_table : dict Z BlockMetaData;
  bk_cached : gmap Z nat;
}.
Definition books (s : PrefixCachingBlockAllocator) : Books :=
  {| bk_free := free_block_indices (pa_hashless s); bk_all := all_block_indices (pa_hashless s);
     bk_refcounts := na_refcounts (pa_hashless s); bk_trackers := pa_block_tracker s;
     bk_table := free_table (pa_evictor s); bk_cached := pa_cached_blocks s |}.

(** No hash leads to the block. *)
Definition uncached (c : gmap Z nat) (id : nat) : Prop := ∀ h, c !! h ≠ Some id.

(** The accounts when [tot id] references to every block [id] are held. *)
Record acct (tot : nat → Z) (k : Books) : Prop := {
  ac_dom : ∀ id, id ∈ bk_all k ↔ is_Some (bk_refcounts k !! id);
  ac_count : ∀ id n, bk_refcounts k !! id = Some n → n = tot id;
  ac_nonneg : ∀ id, (0 ≤ tot id)%Z;
  ac_known : ∀ id, (0 < tot id)%Z → id ∈ bk_all k;
  ac_trackers : ∀ id, id ∈ bk_all k → ∃ t, bk_trackers k !! id = Some t ∧ bt_active t = bool_decide (0 < tot id)%Z;
  ac_nodup : NoDup (bk_free k);
  ac_free : ∀ id, id ∈ bk_free k → id ∈ bk_all k ∧ tot id = 0%Z;
  ac_wf : dict_wf (bk_table k);
  ac_evict : ∀ z m, dget (bk_table k) z = Some m →
    ∃ id, z = Z.of_nat id ∧ tot id = 0%Z ∧ bk_cached k !! bm_content_hash m = Some id;
  ac_rest : ∀ id, id ∈ bk_all k → tot id = 0%Z → id ∈ bk_free k ∨ is_Some (dget (bk_table k) (Z.of_nat id));
  ac_cached : ∀ h id, bk_cached k !! h = Some id → id ∈ bk_all k ∧ id ∉ bk_free k;
  ac_inj : ∀ h h' id, bk_cached k !! h = Some id → bk_cached k !! h' = Some id → h = h';
}.

Definition plus (tot : nat → Z) (id : nat) : nat → Z := λ i, (tot i + if decide (i = id) then 1 else 0)%Z.
Definition minus (tot : nat → Z) (id : nat) : nat → Z := λ i, (tot i - if decide (i = id) then 1 else 0)%Z.
Lemma plus_eq tot id : plus tot id id = (tot id + 1)%Z.
Proof. by rw /plus decide_True. Qed.
Lemma plus_ne tot id i : i ≠ id → plus tot id i = tot i.
Proof. move=> ?. rw /plus decide_False //. lia. Qed.
Lemma minus_eq tot id : minus tot id id = (tot id - 1)%Z.
Proof. by rw /minus decide_True. Qed.
Lemma minus_ne tot id i : i ≠ id → minus tot id i = tot i.
Proof. move=> ?. rw /minus decide_False //. lia. Qed.

Lemma acct_ext tot tot' k : (∀ i, tot i = tot' i) → acct tot k → acct tot' k.
Proof.
  move=> Ht [A1 A2 A3 A4 A5 A6 A7 A8 A9 A10 A11 A12].
  split; try done; move=> id; try rw -Ht; auto.
  move=> m /A9 [i [? [? ?]]]. exists i. by rw -Ht.
Qed.

(** The case of one block and of the others. *)
Ltac by_block i id :=
  destruct (decide (i = id)) as [->|?];
  rw ?plus_eq ?minus_eq ?lookup_insert_eq; [|rw ?plus_ne ?minus_ne // ?lookup_insert_ne //].

Section changes.
Context (tot : nat → Z) (k : Books) (A : acct tot k).
Implicit Types (id : nat) (h : Z).

Lemma ac_refcount id : id ∈ bk_all k → bk_refcounts k !! id = Some (tot id).
Proof. move=> /(ac_dom _ _ A) [n Hn]. by rw Hn (ac_count _ _ A _ _ Hn). Qed.
Lemma ac_table_not_free id z m : dget (bk_table k) z = Some m → z = Z.of_nat id → id ∉ bk_free k.
Proof.
  move=> Hm Hz. destruct (ac_evict _ _ A _ _ Hm) as (i & Hi & _ & Hc). have ? : i = id by lia. subst i.
  by destruct (ac_cached _ _ A _ _ Hc).
Qed.
Lemma ac_free_uncached id : id ∈ bk_free k → uncached (bk_cached k) id.
Proof. move=> Hid h Hh. by destruct (ac_cached _ _ A _ _ Hh). Qed.
Lemma ac_free_not_table id : id ∈ bk_free k → dget (bk_table k) (Z.of_nat id) = None.
Proof.
  move=> Hid. destruct (dget (bk_table k) (Z.of_nat id)) as [m|] eqn:E; last done.
  by destruct (ac_table_not_free id _ _ E).
Qed.

Definition with_counts rc trk : Books :=
  {| bk_free := bk_free k; bk_all := bk_all k; bk_refcounts := rc; bk_trackers := trk; bk_table := bk_table k; bk_cached := bk_cached k |}.

(** A free block is taken. *)
Lemma acct_take id rest t : bk_free k = id :: rest → bt_active t = true →
  acct (plus tot id) {| bk_free := rest; bk_all := bk_all k; bk_refcounts := <[id := (tot id + 1)%Z]> (bk_refcounts k);
    bk_trackers := <[id := t]> (bk_trackers k); bk_table := bk_table k; bk_cached := bk_cached k |}.
Proof.
  move=> Hf Ht. have Hin : id ∈ bk_free k by rw Hf; left. destruct (ac_free _ _ A _ Hin) as [Hall H0].
  have Hnd := ac_nodup _ _ A. rw Hf in Hnd. apply NoDup_cons in Hnd as [Hn Hnd].
  have Hr : ∀ i, i ∈ rest → i ∈ bk_free k by move=> i ?; rw Hf; right.
  split; cbn.
  - move=> i. by_block i id; [split; [by eexists|done]|apply A].
  - move=> i n. by_block i id; [by move=> [= <-]|by apply A].
  - move=> i. by_block i id; [lia|apply A].
  - move=> i. by_block i id; [done|apply A].
  - move=> i Hi. by_block i id; last by apply A. exists t. split; first done. rw bool_decide_eq_true_2 //; lia.
  - done.
  - move=> i Hi. have ? : i ≠ id by move=> ?; subst. rw plus_ne //. by apply A, Hr.
  - apply A.
  - move=> z m Hm. destruct (ac_evict _ _ A _ _ Hm) as (i & -> & Hi & Hc). exists i.
    have ? : i ≠ id by move=> ?; subst; apply (ac_free_uncached id Hin) in Hc. by rw plus_ne.
  - move=> i Hi. by_block i id; first lia. move=> Hz. destruct (ac_rest _ _ A i Hi Hz) as [Hfi|]; [|by right].
    rw Hf in Hfi. apply elem_of_cons in Hfi as [|]; [done|by left].
  - move=> h i Hc. destruct (ac_cached _ _ A _ _ Hc) as [? Hnf]. split; first done. by move=> /Hr.
  - apply A.
Qed.
(** An unused cached block is taken for other content. *)
Lemma acct_evict id h m t : dget (bk_table k) (Z.of_nat id) = Some m → bk_cached k !! h = Some id → bt_active t = true →
  acct (plus tot id) {| bk_free := bk_free k; bk_all := bk_all k; bk_refcounts := <[id := (tot id + 1)%Z]> (bk_refcounts k);
    bk_trackers := <[id := t]> (bk_trackers k); bk_table := ddel (bk_table k) (Z.of_nat id);
    bk_cached := delete h (bk_cached k) |} ∧ uncached (delete h (bk_cached k)) id.
Proof.
  move=> Hm Hh Ht. destruct (ac_cached _ _ A _ _ Hh) as [Hall Hnf].
  destruct (ac_evict _ _ A _ _ Hm) as (i & Hi & H0 & Hc). have ? : i = id by lia. subst i.
  have Hun : uncached (delete h (bk_cached k)) id.
  { move=> h' /lookup_delete_Some [Hne Hh']. apply Hne. by apply (ac_inj _ _ A _ _ id). }
  split; last done. split; cbn.
  - move=> i. by_block i id; [split; [by eexists|done]|apply A].
  - move=> i n. by_block i id; [by move=> [= <-]|by apply A].
  - move=> i. by_block i id; [lia|apply A].
  - move=> i. by_block i id; [done|apply A].
  - move=> i Hi'. by_block i id; last by apply A. exists t. split; first done. rw bool_decide_eq_true_2 //; lia.
  - apply A.
  - move=> i Hi'. have ? : i ≠ id by move=> ?; subst. rw plus_ne //. by apply A.
  - by apply dict_wf_ddel, A.
  - move=> z m'. rw dget_ddel; first apply A. case_decide as Hz; first done. move=> Hm'.
    destruct (ac_evict _ _ A _ _ Hm') as (i & -> & Hi' & Hc'). have Hne : i ≠ id by move=> ?; subst. exists i.
    rw plus_ne //. split_and!; [done|done|]. apply lookup_delete_Some. split; last done. move=> Hh'. rw -Hh' Hh in Hc'. congruence.
  - move=> i Hi'. by_block i id; first lia. move=> Hz. rw dget_ddel_ne; first lia. by apply A.
  - move=> h' i /lookup_delete_Some [_ Hc']. by apply A in Hc'.
  - move=> h1 h2 i /lookup_delete_Some [_ ?] /lookup_delete_Some [_ ?]. by apply (ac_inj _ _ A _ _ i).
Qed.
(** One more reference to a block in use. *)
Lemma acct_share id : (0 < tot id)%Z →
  acct (plus tot id) (with_counts (<[id := (tot id + 1)%Z]> (bk_refcounts k)) (bk_trackers k)).
Proof.
  move=> H0. have Hall := ac_known _ _ A _ H0. split; cbn.
  - move=> i. by_block i id; [split; [by eexists|done]|apply A].
  - move=> i n. by_block i id; [by move=> [= <-]|by apply A].
  - move=> i. by_block i id; [lia|apply A].
  - move=> i. by_block i id; [done|apply A].
  - move=> i Hi. by_block i id; last by apply A. destruct (ac_trackers _ _ A _ Hall) as (t & Ht & Ha). exists t.
    split; first done. rw Ha. apply bool_decide_ext. lia.
  - apply A.
  - move=> i Hi. destruct (ac_free _ _ A _ Hi) as [? ?]. have ? : i ≠ id by move=> ?; subst; lia. by rw plus_ne.
  - apply A.
  - move=> z m Hm. destruct (ac_evict _ _ A _ _ Hm) as (i & -> & Hi & Hc). have ? : i ≠ id by move=> ?; subst; lia.
    exists i. by rw plus_ne.
  - move=> i Hi. by_block i id; [lia|by apply A].
  - apply A.
  - apply A.
Qed.
(** A cached block that nobody uses is used again. *)
Lemma acct_revive id h t tb : tot id = 0%Z → bk_cached k !! h = Some id → bt_active t = true →
  tb = ddel (bk_table k) (Z.of_nat id) →
  acct (plus tot id) {| bk_free := bk_free k; bk_all := bk_all k; bk_refcounts := <[id := (tot id + 1)%Z]> (bk_refcounts k);
    bk_trackers := <[id := t]> (bk_trackers k); bk_table := tb; bk_cached := bk_cached k |}.
Proof.
  move=> H0 Hh Ht ->. destruct (ac_cached _ _ A _ _ Hh) as [Hall Hnf]. split; cbn.
  - move=> i. by_block i id; [split; [by eexists|done]|apply A].
  - move=> i n. by_block i id; [by move=> [= <-]|by apply A].
  - move=> i. by_block i id; [lia|apply A].
  - move=> i. by_block i id; [done|apply A].
  - move=> i Hi. by_block i id; last by apply A. exists t. split; first done. rw bool_decide_eq_true_2 //; lia.
  - apply A.
  - move=> i Hi. have ? : i ≠ id by move=> ?; subst. rw plus_ne //. by apply A.
  - by apply dict_wf_ddel, A.
  - move=> z m. rw dget_ddel; first apply A. case_decide as Hz; first done. move=> Hm.
    destruct (ac_evict _ _ A _ _ Hm) as (i & -> & Hi & Hc). have ? : i ≠ id by move=> ?; subst. exists i. by rw plus_ne.
  - move=> i Hi. by_block i id; first lia. move=> Hz. rw dget_ddel_ne; first lia. by apply A.
  - apply A.
  - apply A.
Qed.
(** One reference less to a block that stays in use. *)
Lemma acct_unshare id : (1 < tot id)%Z →
  acct (minus tot id) (with_counts (<[id := (tot id - 1)%Z]> (bk_refcounts k)) (bk_trackers k)).
Proof.
  move=> H1. have Hall : id ∈ bk_all k by apply (ac_known _ _ A); lia. split; cbn.
  - move=> i. by_block i id; [split; [by eexists|done]|apply A].
  - move=> i n. by_block i id; [by move=> [= <-]|by apply A].
  - move=> i. by_block i id; [lia|apply A].
  - move=> i. by_block i id; [done|apply A].
  - move=> i Hi. by_block i id; last by apply A. destruct (ac_trackers _ _ A _ Hall) as (t & Ht & Ha). exists t.
    split; first done. rw Ha. apply bool_decide_ext. lia.
  - apply A.
  - move=> i Hi. destruct (ac_free _ _ A _ Hi) as [? ?]. have ? : i ≠ id by move=> ?; subst; lia. by rw minus_ne.
  - apply A.
  - move=> z m Hm. destruct (ac_evict _ _ A _ _ Hm) as (i & -> & Hi & Hc). have ? : i ≠ id by move=> ?; subst; lia.
    exists i. by rw minus_ne.
  - move=> i Hi. by_block i id; [lia|by apply A].
  - apply A.
  - apply A.
Qed.
(** The last reference to a block that is not cached is given up. *)
Lemma acct_release id t : tot id = 1%Z → uncached (bk_cached k) id → bt_active t = false →
  acct (minus tot id) {| bk_free := id :: bk_free k; bk_all := bk_all k; bk_refcounts := <[id := (tot id - 1)%Z]> (bk_refcounts k);
    bk_trackers := <[id := t]> (bk_trackers k); bk_table := bk_table k; bk_cached := bk_cached k |}.
Proof.
  move=> H1 Hun Ht. have Hall : id ∈ bk_all k by apply (ac_known _ _ A); lia.
  have Hnf : id ∉ bk_free k by move=> /(ac_free _ _ A) [_ ?]; lia. split; cbn.
  - move=> i. by_block i id; [split; [by eexists|done]|apply A].
  - move=> i n. by_block i id; [by move=> [= <-]|by apply A].
  - move=> i. by_block i id; [lia|apply A].
  - move=> i. by_block i id; [done|apply A].
  - move=> i Hi. by_block i id; last by apply A. exists t. split; first done. rw bool_decide_eq_false_2 //; lia.
  - apply NoDup_cons. split; [done|apply A].
  - move=> i /elem_of_cons Hi. by_block i id; [split; [done|lia]|]. apply A. by destruct Hi.
  - apply A.
  - move=> z m Hm. destruct (ac_evict _ _ A _ _ Hm) as (i & -> & Hi & Hc). have ? : i ≠ id by move=> ?; subst; lia.
    exists i. by rw minus_ne.
  - move=> i Hi. by_block i id; first by left; left. move=> Hz. destruct (ac_rest _ _ A i Hi Hz); [left; by right|by right].
  - move=> h i Hc. destruct (ac_cached _ _ A _ _ Hc) as [? ?]. split; first done. rw elem_of_cons => -[?|?]; [subst|done].
    by apply (Hun h).
  - apply A.
Qed.
(** The last reference to a cached block is given up: it stays in the cache. *)
Lemma acct_park id h m t : tot id = 1%Z → bk_cached k !! h = Some id → bm_content_hash m = h → bt_active t = false →
  acct (minus tot id) {| bk_free := bk_free k; bk_all := bk_all k; bk_refcounts := <[id := (tot id - 1)%Z]> (bk_refcounts k);
    bk_trackers := <[id := t]> (bk_trackers k); bk_table := dset (bk_table k) (Z.of_nat id) m; bk_cached := bk_cached k |}.
Proof.
  move=> H1 Hh Hm Ht. destruct (ac_cached _ _ A _ _ Hh) as [Hall Hnf]. split; cbn.
  - move=> i. by_block i id; [split; [by eexists|done]|apply A].
  - move=> i n. by_block i id; [by move=> [= <-]|by apply A].
  - move=> i. by_block i id; [lia|apply A].
  - move=> i. by_block i id; [done|apply A].
  - move=> i Hi. by_block i id; last by apply A. exists t. split; first done. rw bool_decide_eq_false_2 //; lia.
  - apply A.
  - move=> i Hi. have ? : i ≠ id by move=> ?; subst. rw minus_ne //. by apply A.
  - by apply dict_wf_dset, A.
  - move=> z m'. rw dget_dset. case_decide as Hz.
    + move=> [= <-]. exists id. rw minus_eq Hm. split_and!; [done|lia|done].
    + move=> Hm'. destruct (ac_evict _ _ A _ _ Hm') as (i & -> & Hi & Hc). have ? : i ≠ id by move=> ?; subst. exists i. by rw minus_ne.
  - move=> i Hi. rw dget_dset. by_block i id; first by rw decide_True //; right; eexists.
    move=> Hz. rw decide_False; first lia. by apply A.
  - apply A.
  - apply A.
Qed.
(** A block in use is entered in the cache. *)
Lemma acct_cache id h : (0 < tot id)%Z → bk_cached k !! h = None → uncached (bk_cached k) id →
  acct tot {| bk_free := bk_free k; bk_all := bk_all k; bk_refcounts := bk_refcounts k; bk_trackers := bk_trackers k;
    bk_table := bk_table k; bk_cached := <[h := id]> (bk_cached k) |}.
Proof.
  move=> H0 Hh Hun. have Hall := ac_known _ _ A _ H0. split; cbn; try apply A.
  - move=> z m Hm. destruct (ac_evict _ _ A _ _ Hm) as (i & -> & Hi & Hc). exists i. split_and!; [done|done|].
    rw lookup_insert_ne //. congruence.
  - move=> h' i. destruct (decide (h' = h)) as [->|?].
    + rw lookup_insert_eq. move=> [= <-]. split; first done. move=> /(ac_free _ _ A) [_ ?]. lia.
    + rw lookup_insert_ne //. apply A.
  - move=> h1 h2 i. destruct (decide (h1 = h)) as [->|?], (decide (h2 = h)) as [->|?];
      rw ?lookup_insert_eq ?lookup_insert_ne //; [by move=> [= <-] /Hun|by move=> Hc [= ?]; subst; apply Hun in Hc|apply A].
Qed.
(** Trackers and access times may change in other respects. *)
Lemma acct_trackers trk tb : (∀ id t, bk_trackers k !! id = Some t → ∃ t', trk !! id = Some t' ∧ bt_active t' = bt_active t) →
  dict_wf tb → (∀ z m, dget tb z = Some m → ∃ m', dget (bk_table k) z = Some m' ∧ bm_content_hash m' = bm_content_hash m) →
  (∀ z, is_Some (dget (bk_table k) z) → is_Some (dget tb z)) →
  acct tot {| bk_free := bk_free k; bk_all := bk_all k; bk_refcounts := bk_refcounts k; bk_trackers := trk;
    bk_table := tb; bk_cached := bk_cached k |}.
Proof.
  move=> Ht Hwf Ht1 Ht2. split; cbn; try apply A; try done.
  - move=> id Hid. destruct (ac_trackers _ _ A _ Hid) as (t & Hk & Ha). destruct (Ht _ _ Hk) as (t' & ? & E).
    exists t'. by rw E.
  - move=> z m /Ht1 [m' [Hm' <-]]. by apply A.
  - move=> id Hid Hz. destruct (ac_rest _ _ A id Hid Hz); [by left|right; by apply Ht2].
Qed.
End changes.

(** * The evictor's table *)
Lemma evict_table e b h e' : evict e = Ok ((b, h), e') →
  ∃ m, dget (free_table e) b = Some m ∧ free_table e' = ddel (free_table e) b.
Proof.
  rw /evict /mbind /M_bind /mget. case_bool_decide; first done.
  have := evict_loop_spec (S (length (priority_queue e))) e (Nat.lt_succ_diag_r _).
  destruct (current_entries (free_table e) (priority_queue e)) as [|y l] eqn:EF; first by move=> ->.
  rw -EF. move=> [x [e1 [H1 [H2 [_ H4]]]]]. rw H1. move=> [= <- _ <-].
  have Hx : x ∈ current_entries (free_table e) (priority_queue e) by rw H2; left.
  apply list_elem_of_filter in Hx as [Hc _]. apply current_spec in Hc as (m & Hm & _). by exists m.
Qed.
Lemma evictor_add_table e b h n ts e' : evictor_add b h n ts e = Ok (tt, e') →
  free_table e' = dset (free_table e) b {| bm_content_hash := h; bm_num_hashed_tokens := n; bm_last_accessed := ts |}.
Proof.
  rw /evictor_add /cleanup_if_necessary /cleanup /mbind /M_bind /mmodify /mget /mwhen. cbn.
  by case_bool_decide; move=> [= <-].
Qed.
