(* ===== verification/PrefixHash.v ===== *)
(** The block objects of the prefix-caching allocator: which are handed out, who
    holds which physical block, and what the memoized [content_hash] stands for. *)
From Stdlib Require Import ssreflect ZArith Lia.
From stdpp Require Import base numbers list gmap strings.
From S2P Require Import Prelude NaiveBlocks NaiveTheorems Evictor CacheMetric PrefixCaching PrefixBooks.

Abbreviation pool s := (na_block_pool (pa_hashless s)).
Abbreviation obj s o := (bp_pool (na_block_pool (pa_hashless s)) !! o).
Abbreviation plive s o := (live (na_block_pool (pa_hashless s)) o).

(** * Counting holders *)
Definition ouses (n : nat) (f : nat → option nat) (id : nat) : Z :=
  Z.of_nat (length (filter (λ o, f o = Some id) (seq 0 n))).
Lemma ouses_S n f id : ouses (S n) f id = (ouses n f id + if decide (f n = Some id) then 1 else 0)%Z.
Proof. rw /ouses seq_S filter_app length_app filter_cons filter_nil /=. repeat case_decide; simpl; done || lia. Qed.
Lemma ouses_beyond n m f id : (∀ o, n ≤ o → f o = None) → ouses (n + m) f id = ouses n f id.
Proof.
  move=> Hf. elim: m => [|m IH]; first by rw Nat.add_0_r. rw Nat.add_succ_r ouses_S IH Hf; first lia.
  case_decide; [done|lia].
Qed.
Lemma ouses_ext n f g id : (∀ o, o < n → f o = g o) → ouses n f id = ouses n g id.
Proof.
  elim: n => [//|n IH] H. rw !ouses_S H; first lia. rw IH //. move=> o Ho. apply H. lia.
Qed.
(** One holder changes. *)
Lemma ouses_change n m f g x id : (∀ o, n ≤ o → f o = None) → (∀ o, m ≤ o → g o = None) →
  (∀ o, o ≠ x → f o = g o) →
  ouses m g id = (ouses n f id - (if decide (f x = Some id) then 1 else 0) + if decide (g x = Some id) then 1 else 0)%Z.
Proof.
  move=> Hf Hg Hfg. pose N := n + m + S x. have <- : ouses N f id = ouses n f id.
  { rw /N -Nat.add_assoc. by apply ouses_beyond. }
  have <- : ouses N g id = ouses m g id.
  { rw /N (Nat.add_comm n m) -Nat.add_assoc. by apply ouses_beyond. }
  have HN : x < N by lia. clearbody N. elim: N HN => [|N IH] HN; first lia. rw !ouses_S.
  destruct (decide (x = N)) as [->|Hne]; last by rw IH; [lia|rw (Hfg N); [done|lia]].
  have -> : ouses N f id = ouses N g id; last lia.
  apply ouses_ext => o Ho. apply Hfg. lia.
Qed.
Lemma ouses_same n m f g id : (∀ o, n ≤ o → f o = None) → (∀ o, m ≤ o → g o = None) → (∀ o, f o = g o) →
  ouses m g id = ouses n f id.
Proof. move=> Hf Hg H. rw (ouses_change n m f g 0) // H. lia. Qed.
Lemma ouses_pos n f id o : o < n → f o = Some id → (0 < ouses n f id)%Z.
Proof.
  move=> Ho Hf. rw /ouses. have : o ∈ filter (λ o, f o = Some id) (seq 0 n) by apply list_elem_of_filter; split; [|apply elem_of_seq; lia].
  destruct (filter _ _) as [|y l] eqn:E; first by move=> /elem_of_nil. simpl. lia.
Qed.

(** The physical block of an object that is handed out. *)
Definition owner (p : BlockPool) (o : nat) : option nat :=
  if decide (o ∈ bp_free_ids p) then None else bp_pool p !! o ≫= nb_block_id.
Definition luses (p : BlockPool) (id : nat) : Z := ouses (length (bp_pool p)) (owner p) id.
Lemma owner_beyond p o : length (bp_pool p) ≤ o → owner p o = None.
Proof. move=> Ho. rw /owner. case_decide; first done. by rw lookup_ge_None_2. Qed.
Lemma owner_live p o id : owner p o = Some id ↔ live p o ∧ ∃ b, bp_pool p !! o = Some b ∧ nb_block_id b = Some id.
Proof.
  rw /owner /live. case_decide as Hd; first by split; [|move=> [[_ ?] _]]. split.
  - destruct (bp_pool p !! o) as [b|] eqn:E; last done. move=> Hid. split; [split; [by eapply lookup_lt_Some|done]|by exists b].
  - by move=> [_ [b [-> ?]]].
Qed.
Lemma luses_change p p' x id : (∀ o, o ≠ x → owner p o = owner p' o) →
  luses p' id = (luses p id - (if decide (owner p x = Some id) then 1 else 0) + if decide (owner p' x = Some id) then 1 else 0)%Z.
Proof. move=> H. by apply ouses_change; [apply owner_beyond|apply owner_beyond|]. Qed.
Lemma luses_same p p' id : (∀ o, owner p o = owner p' o) → luses p' id = luses p id.
Proof. move=> H. by apply ouses_same; [apply owner_beyond|apply owner_beyond|]. Qed.
Lemma luses_pos p o id : owner p o = Some id → (0 < luses p id)%Z.
Proof.
  move=> H. apply (ouses_pos _ _ _ o); last done. by apply owner_live in H as [[? _] _].
Qed.
Lemma luses_nonneg p id : (0 ≤ luses p id)%Z.
Proof. rw /luses /ouses. lia. Qed.
(** Two holders. *)
Lemma nobody_at (f : nat → option nat) (o : nat) : ∃ g : nat → option nat, g o = None ∧ ∀ x, x ≠ o → g x = f x.
Proof.
  exists (λ x, if x =? o then None else f x). rw Nat.eqb_refl. split; first done. move=> x Hx.
  by destruct (Nat.eqb_spec x o).
Qed.
Lemma luses_one p o o' id : owner p o = Some id → owner p o' = Some id → (luses p id ≤ 1)%Z → o = o'.
Proof.
  move=> H1 H2 Hle. destruct (decide (o = o')) as [|Hne]; first done. exfalso.
  destruct (nobody_at (owner p) o) as (g & G1 & G2).
  have Hc := ouses_change (length (bp_pool p)) (length (bp_pool p)) (owner p) g o id (owner_beyond p).
  have Hb : ∀ x, length (bp_pool p) ≤ x → g x = None.
  { move=> x Hx. destruct (decide (x = o)) as [->|?]; [done|by rw G2 // owner_beyond]. }
  have Hg : (0 < ouses (length (bp_pool p)) g id)%Z.
  { apply (ouses_pos _ _ _ o'); [by apply owner_live in H2 as [[? _] _]|by rw G2]. }
  rw H1 decide_True // G1 in Hc. rw Hc // in Hg; [by move=> x ?; rw G2|]. rw /luses in Hle. case_decide; [done|lia].
Qed.

(** * The pool of objects *)
Record pool_ok (p : BlockPool) : Prop := {
  po_len : length (bp_pool p) = bp_pool_size p;
  po_nodup : NoDup (bp_free_ids p);
  po_free : ∀ o, o ∈ bp_free_ids p → o < length (bp_pool p);
  po_pool_id : ∀ o b, bp_pool p !! o = Some b → o ∉ bp_free_ids p → nb_pool_id b = Some o;
}.
Lemma pool_ok_init bs n : pool_ok (pool_init bs n).
Proof.
  split; simpl; [apply length_replicate|apply NoDup_seq| |].
  - move=> o /elem_of_seq. rw length_replicate. lia.
  - move=> o b /lookup_replicate [_ Ho] Hn. exfalso. apply Hn, elem_of_seq. lia.
Qed.

(** [o] became an object with block [b]; the others are as before. *)
Record handed_out (p p' : BlockPool) (o : nat) (b : NaiveBlock) : Prop := {
  ho_ok : pool_ok p';
  ho_fresh : ¬ live p o;
  ho_block : bp_pool p' !! o = Some b;
  ho_live : ∀ o', live p' o' ↔ o' = o ∨ live p o';
  ho_kept : ∀ o', live p o' → bp_pool p' !! o' = bp_pool p !! o';
}.
Lemma increase_pool_ok p : pool_ok p → wp increase_pool p (λ _ p', pool_ok p' ∧
  (∀ o, live p' o ↔ live p o) ∧ ∀ o, live p o → bp_pool p' !! o = bp_pool p !! o) no_exn.
Proof.
  move=> [H1 H2 H3 H4]. rw /increase_pool. wp_step. rw /live. cbn.
  have Hm : bp_pool_size p * 2 - bp_pool_size p = bp_pool_size p by lia. rw Hm.
  have Hs : ∀ o, o ∈ seq (bp_pool_size p) (bp_pool_size p) ↔ bp_pool_size p ≤ o < bp_pool_size p * 2.
  { move=> o. rw elem_of_seq. lia. }
  have Hf : ∀ o, o ∈ bp_free_ids p → o < bp_pool_size p by move=> o /H3; lia.
  split_and!.
  - split; cbn.
    + rw length_app length_replicate. lia.
    + apply NoDup_app. split_and!; [done| |apply NoDup_seq]. move=> o /Hf Ho /Hs. lia.
    + move=> o. rw length_app length_replicate elem_of_app Hs => -[/Hf ?|?]; lia.
    + move=> o b. rw elem_of_app => Hb Hn. apply lookup_app_Some in Hb as [Hb|[Hlt Hb]]; first by apply H4; tauto.
      apply lookup_replicate in Hb as [_ Hb]. exfalso. apply Hn. right. apply Hs. lia.
  - move=> o. rw length_app length_replicate elem_of_app Hs. split; [|move=> [? ?]; split; [lia|by move=> [?|?]; [|lia]]].
    move=> [? Hn]. split; [|tauto]. destruct (decide (o < length (bp_pool p))); first done. exfalso. apply Hn. right. lia.
  - move=> o [Ho _]. by rw lookup_app_l.
Qed.
Lemma init_block_ok p prev toks bs id : pool_ok p →
  wp (init_block prev toks bs id) p (λ o p', handed_out p p' o
    {| nb_token_ids := toks; nb_block_size := bs; nb_prev_block := prev; nb_block_id := id; nb_pool_id := Some o |}) any_exn.
Proof.
  move=> HI. rw /init_block. wp_step. wp_step. wp_step.
  set Q := λ (_ : unit) p1, pool_ok p1 ∧ (∀ o, live p1 o ↔ live p o) ∧ ∀ o, live p o → bp_pool p1 !! o = bp_pool p !! o.
  apply (wp_mono _ _ Q _ any_exn); [| |done].
  { wp_step; last by rw /Q. wp_step. eapply wp_mono; [by apply increase_pool_ok| |done]. move=> u p1 HQ. by wp_steps. }
  move=> _ p1 [I1 [I2 I3]]. wp_step. wp_step. destruct (bp_free_ids p1) as [|o rest] eqn:Ef; first by wp_step.
  wp_step. wp_step. have Hlt : o < length (bp_pool p1) by apply I1; rw Ef; left. cbn.
  destruct (lookup_lt_is_Some_2 _ _ Hlt) as [old Hold]. rw Hold.
  wp_step. apply wp_lift; last done. move=> b /naive_block_init_spec ->. wp_step. wp_step. wp_step.
  have Hnd := po_nodup _ I1. rw Ef in Hnd. apply NoDup_cons in Hnd as [Hn1 Hn2].
  have Hdead : ¬ live p1 o by move=> [_ Hn]; apply Hn; rw Ef; left.
  have Hne : ∀ o', live p1 o' → o' ≠ o by move=> o' ? ?; subst.
  split; cbn.
  - split; cbn.
    + rw length_insert. apply I1.
    + done.
    + move=> o' Ho'. rw length_insert. apply I1. rw Ef. by right.
    + move=> o' b'. destruct (decide (o' = o)) as [->|Hne']; first by rw list_lookup_insert_eq // => -[= <-].
      rw list_lookup_insert_ne // => Hb' Hr. apply (po_pool_id _ I1 _ _ Hb'). by rw Ef not_elem_of_cons.
  - by rw -I2.
  - by rw list_lookup_insert_eq.
  - move=> o'. rw -I2 /live /= length_insert Ef elem_of_cons. destruct (decide (o' = o)) as [->|]; [tauto|]. tauto.
  - move=> o' Ho'. rw -I3 // list_lookup_insert_ne //. apply not_eq_sym, Hne. by apply I2.
Qed.
Lemma handed_out_owner p p' o b : handed_out p p' o b → owner p o = None ∧ owner p' o = nb_block_id b ∧
  ∀ o', o' ≠ o → owner p o' = owner p' o'.
Proof.
  move=> [H1 H2 H3 H4 H5].
  have Hn : ∀ q x, ¬ live q x → owner q x = None.
  { move=> q x Hx. destruct (owner q x) eqn:E; last done. by apply owner_live in E as [? _]. }
  have Hs : ∀ q x, live q x → owner q x = bp_pool q !! x ≫= nb_block_id by move=> q x [_ Hx]; rw /owner decide_False.
  split_and!; [by apply Hn|rw Hs; [by apply H4; left|by rw H3]|]. move=> o' Hne.
  destruct (decide (live p o')) as [Hl|Hl]; [|by rw !Hn // H4; tauto].
  rw !Hs //; [by apply H4; right|by rw H5].
Qed.

(** * The hash of a chain *)

(** What the hash of an object depends on: its tokens, its size, its previous
    block and its extra hash. *)
Definition View : Type := list Z * nat * option nat * option Z.
Definition view (s : PrefixCachingBlockAllocator) (o : nat) : option View :=
  (λ b, (nb_token_ids b, nb_block_size b, nb_prev_block b, pb_extra_hash (attrs_of s o))) <$> obj s o.
Definition v_full (x : View) : bool := (Z.of_nat x.1.1.2 - Z.of_nat (length x.1.1.1) =? 0)%Z.
Definition v_prev (x : View) : option nat := x.1.2.

Section hash.
Context (py_hash : bool * option Z * list Z * option Z → Z).

(** The hash computed from scratch, along the whole chain of previous blocks. *)
Inductive hash_of (v : nat → option View) : nat → Z → Prop :=
  | ho_first o t n e : v o = Some (t, n, None, e) → v_full (t, n, None, e) = true →
      hash_of v o (py_hash (true, None, t, e))
  | ho_next o t n p e h : v o = Some (t, n, Some p, e) → v_full (t, n, Some p, e) = true → hash_of v p h →
      hash_of v o (py_hash (false, Some h, t, e)).

(** What the hash says of the first object and of its successors. *)
Lemma hash_of_step v o t n prev e h : v o = Some (t, n, prev, e) → hash_of v o h →
  match prev with
  | None => h = py_hash (true, None, t, e)
  | Some p => ∃ h', hash_of v p h' ∧ h = py_hash (false, Some h', t, e)
  end.
Proof.
  move=> Hv Hh. destruct Hh as [o t' n' e' Hv' _|o t' n' p e' h Hv' _ Hp]; rw Hv in Hv'; simplify_eq; [done|by eexists].
Qed.
Lemma hash_of_det v o h : hash_of v o h → ∀ h', hash_of v o h' → h = h'.
Proof.
  induction 1 as [o t n e Hv Hf|o t n p e h Hv Hf Hp IH] => h' /(hash_of_step _ _ _ _ _ _ _ Hv); first done.
  by move=> [h0 [/IH <- ->]].
Qed.
Lemma hash_of_full v o h : hash_of v o h → ∃ x, v o = Some x ∧ v_full x = true.
Proof. by destruct 1; eexists. Qed.
(** The hash only looks along the chain. *)
Lemma hash_of_within (D : nat → Prop) v v' o h : (∀ o, D o → v' o = v o) →
  (∀ o x p, D o → v o = Some x → v_prev x = Some p → D p) → D o → hash_of v o h → hash_of v' o h.
Proof.
  move=> Hv HD Ho Hh. move: Ho. induction Hh as [o t n e H1 H2|o t n p e h H1 H2 H3 IH]; move=> Ho.
  - by eapply ho_first; [rw Hv|].
  - eapply ho_next; [by rw Hv|done|]. apply IH. by apply (HD o _ p Ho H1).
Qed.
Lemma hash_of_ext v v' o h : (∀ o, v' o = v o) → hash_of v o h → hash_of v' o h.
Proof. move=> Hv. by apply (hash_of_within (λ _, True)). Qed.

(** * The content of the objects *)

(** The objects that code can still get at: those handed out and those before
    them. *)
Inductive known (s : PrefixCachingBlockAllocator) : nat → Prop :=
  | kn_live o : plive s o → known s o
  | kn_prev o b p : known s o → obj s o = Some b → nb_prev_block b = Some p → known s p.

(** The object [x], if any, is being written to and exempt. *)
Record content (x : option nat) (s : PrefixCachingBlockAllocator) : Prop := {
  ct_pool : pool_ok (pool s);
  ct_size : 0 < na_block_size (pa_hashless s);
  ct_sizes : ∀ o b, plive s o → obj s o = Some b → nb_block_size b = na_block_size (pa_hashless s);
  ct_memo : ∀ o h, known s o → pb_cached_content_hash (attrs_of s o) = Some h → hash_of (view s) o h;
  ct_block : ∀ o b id, x ≠ Some o → plive s o → obj s o = Some b → nb_block_id b = Some id →
    if nb_is_full b then ∃ h, hash_of (view s) o h ∧ pa_cached_blocks s !! h = Some id
    else uncached (pa_cached_blocks s) id;
}.
(** Every object handed out comes after objects handed out. *)
Definition anchored (s : PrefixCachingBlockAllocator) : Prop :=
  ∀ o b p, plive s o → obj s o = Some b → nb_prev_block b = Some p → plive s p.
Lemma known_live s o : anchored s → known s o → plive s o.
Proof. move=> Ha. induction 1 as [|o b p _ IH Hb Hp]; [done|by eapply Ha]. Qed.

Lemma view_obj s o b : obj s o = Some b →
  view s o = Some (nb_token_ids b, nb_block_size b, nb_prev_block b, pb_extra_hash (attrs_of s o)).
Proof. by rw /view => ->. Qed.
Lemma view_Some s o x : view s o = Some x → ∃ b, obj s o = Some b ∧
  x = (nb_token_ids b, nb_block_size b, nb_prev_block b, pb_extra_hash (attrs_of s o)).
Proof. rw /view => /fmap_Some [b [Hb ->]]. by exists b. Qed.
Lemma v_full_obj b e : v_full (nb_token_ids b, nb_block_size b, nb_prev_block b, e) = nb_is_full b.
Proof. done. Qed.
(** Only memoized values of the attributes changed. *)
Record memo (s s' : PrefixCachingBlockAllocator) : Prop := {
  me_state : s' = set_pa_attrs (pa_attrs s') s;
  me_extra : ∀ o, pb_extra_hash (attrs_of s' o) = pb_extra_hash (attrs_of s o);
  me_computed : ∀ o, pb_computed (attrs_of s' o) = pb_computed (attrs_of s o);
}.
#[export] Instance memo_preorder : PreOrder memo.
Proof.
  split; first by move=> a; split; [destruct a|..]. move=> a b c [H1 H2 H3] [H4 H5 H6]. split; [by rw H4 H1|by move=> o; rw H5 H2|by move=> o; rw H6 H3].
Qed.
Lemma memo_view s s' o : memo s s' → view s' o = view s o.
Proof. move=> [H1 H2 _]. rw /view H2 H1. done. Qed.
Lemma memo_known s s' o : memo s s' → known s' o → known s o.
Proof. move=> [H1 _ _]. rw H1. induction 1 as [|? ? ? _ IH]; [by apply kn_live|by eapply kn_prev]. Qed.
Lemma memo_known' s s' o : memo s s' → known s o → known s' o.
Proof. move=> [H1 _ _]. rw H1. induction 1 as [|? ? ? _ IH]; [by apply kn_live|by eapply kn_prev]. Qed.
Lemma memo_hash s s' o h : memo s s' → hash_of (view s') o h ↔ hash_of (view s) o h.
Proof. move=> Hm. split; apply hash_of_ext => x; by rw (memo_view _ _ _ Hm). Qed.

Lemma attrs_upd s o f x : attrs_of (set_pa_attrs (<[o := f (attrs_of s o)]> (pa_attrs s)) s) x =
  if decide (x = o) then f (attrs_of s o) else attrs_of s x.
Proof.
  rw {1}/attrs_of /=. case_decide; subst; [by rw lookup_insert_eq|by rw lookup_insert_ne].
Qed.
Lemma wp_upd_attrs o f s Q E : Q tt (set_pa_attrs (<[o := f (attrs_of s o)]> (pa_attrs s)) s) → wp (upd_attrs o f) s Q E.
Proof. by rw /upd_attrs => ?; wp_step. Qed.
Lemma wp_pc_block o s Q E : (∀ b, obj s o = Some b → Q b s) → E (IndexError "no such object") → wp (pc_block o) s Q E.
Proof.
  move=> H1 H2. rw /pc_block /on_hashless. apply wp_zoom. apply wp_the_block; last done. move=> b /H1.
  by destruct s.
Qed.

(** [content_hash] is the hash from scratch. *)
Lemma wp_content_hash_loop fuel : ∀ x o s, content x s → known s o →
  wp (content_hash_loop py_hash fuel o) s (λ r s', memo s s' ∧ content x s' ∧ ∀ h, r = Some h ↔ hash_of (view s) o h) any_exn.
Proof.
  elim: fuel => [|fuel IH] x o s HC Hk; cbn [content_hash_loop]; first by wp_step.
  wp_step. apply wp_pc_block; last done. move=> b Hb. wp_step. wp_step.
  destruct (pb_cached_content_hash (attrs_of s o)) as [h|] eqn:Eh.
  { wp_step. split_and!; [done|done|]. have Hh := ct_memo _ _ HC _ _ Hk Eh. move=> h'. split; first by move=> [= <-].
    move=> Hh'. by rw (hash_of_det _ _ _ Hh _ Hh'). }
  have Hv := view_obj _ _ _ Hb. destruct (negb (nb_is_full b)) eqn:Ef.
  { wp_step. split_and!; [done|done|]. move=> h. split; first done. move=> /hash_of_full [y [Hx Hf]].
    rw Hv in Hx. injection Hx as <-. rw v_full_obj in Hf. by rw Hf in Ef. }
  apply negb_false_iff in Ef.
  (* the store *)
  have Hstore : ∀ s1 h, memo s s1 → content x s1 → hash_of (view s) o h →
    wp (upd_attrs o (set_pb_cached_content_hash (Some h));;; mret (Some h)) s1
      (λ r s', memo s s' ∧ content x s' ∧ ∀ h, r = Some h ↔ hash_of (view s) o h) any_exn.
  { move=> s1 h Hm HC1 Hh. wp_step. apply wp_upd_attrs. wp_step.
    set s2 := set_pa_attrs _ s1. have Hm2 : memo s1 s2.
    { split; first done; move=> y; rw attrs_upd; by case_decide; subst. }
    have Hm' : memo s s2 by etrans. split_and!; [done| |].
    - destruct HC1 as [C1 C2 C5 C3 C4]. split; try done.
      + move=> y h' Hx. rw attrs_upd. case_decide as Hxo; last by move=> ?; apply (memo_hash _ _ _ _ Hm2), C3; [eapply memo_known|].
        subst y. move=> [= <-]. by apply (memo_hash _ _ _ _ Hm').
      + move=> y b' id Hxy Hl Hb' Hid. have := C4 _ _ _ Hxy Hl Hb' Hid. case_match; last done.
        move=> [h' [? ?]]. exists h'. split; [by apply (memo_hash _ _ _ _ Hm2)|done].
    - move=> h'. split; first by move=> [= <-]. move=> Hh'. by rw (hash_of_det _ _ _ Hh _ Hh'). }
  wp_step. destruct (nb_prev_block b) as [p|] eqn:Ep.
  - eapply wp_mono; [apply IH; [done|by eapply kn_prev]| |done]. move=> r s1 [Hm [HC1 Hr]].
    destruct r as [hp|].
    + have -> : bool_decide (Some hp = None) = false by done. rw /hash_block_tokens bool_decide_eq_false_2 // bool_decide_eq_false_2 //. cbn [andb Bool.eqb].
      wp_step. apply wp_lift; last done. move=> h [= <-]. apply Hstore; [done|done|].
      eapply ho_next; [exact Hv|by rw -Ep v_full_obj|by apply Hr].
    + rw bool_decide_eq_true_2 // bool_decide_eq_false_2 //. cbn [andb negb]. wp_step. split_and!; [done|done|]. move=> h. split; first done. move=> Hh.
      have [h' [Hh' _]] := hash_of_step _ _ _ _ _ _ _ Hv Hh. by apply Hr in Hh'.
  - wp_step. rw /hash_block_tokens !bool_decide_eq_true_2 //. cbn [andb negb Bool.eqb]. wp_step. apply wp_lift; last done. move=> h [= <-]. apply Hstore; [done|done|].
    eapply ho_first; [exact Hv|by rw -Ep v_full_obj].
Qed.
Lemma wp_content_hash x o s : content x s → known s o →
  wp (content_hash py_hash o) s (λ r s', memo s s' ∧ content x s' ∧ ∀ h, r = Some h ↔ hash_of (view s) o h) any_exn.
Proof. move=> ? ?. rw /content_hash. wp_step. wp_step. by apply wp_content_hash_loop. Qed.
Lemma wp_the_content_hash x o s : content x s → known s o →
  wp (the_content_hash py_hash o) s (λ h s', memo s s' ∧ content x s' ∧ hash_of (view s) o h) any_exn.
Proof.
  move=> HC Hk. rw /the_content_hash. wp_step. eapply wp_mono; [by apply wp_content_hash| |done].
  move=> r s1 [H1 [H2 H3]]. destruct r as [h|]; wp_step; [|done]. split_and!; [done|done|by apply H3].
Qed.
End hash.
