(* ===== verification/PrefixOps.v ===== *)
(** The operations of the prefix-caching allocator on block ids and on objects
    keep its invariant [pc_inv]. *)
From Stdlib Require Import ssreflect ZArith Lia.
From stdpp Require Import base numbers list gmap strings.
From S2P Require Import Prelude NaiveBlocks NaiveTheorems Evictor CacheMetric PrefixCaching PrefixBooks PrefixHash.

(** The references: one for every object that stands for the block, and those
    of [held], which are not attached to an object yet. *)
Definition tot (held : list nat) (s : PrefixCachingBlockAllocator) : nat → Z := λ id, (luses (pool s) id + occ id held)%Z.

Section ops.
Context (py_hash : bool * option Z * list Z * option Z → Z).
Abbreviation hash_of := (hash_of py_hash).
Abbreviation content := (content py_hash).

Record pc_inv (x : option nat) (held : list nat) (s : PrefixCachingBlockAllocator) : Prop := {
  pi_acct : acct (tot held s) (books s);
  pi_content : content x s;
}.

Lemma memo_hashless s s' : memo s s' → pa_hashless s' = pa_hashless s.
Proof. move=> [H _ _]. by rw H. Qed.
Lemma memo_books s s' : memo s s' → books s' = books s.
Proof. move=> [H _ _]. by rw H. Qed.

(** * Transfer of the content *)
Lemma hash_alive s s' o h : anchored s → (∀ o, plive s o → view s' o = view s o) → plive s o →
  hash_of (view s) o h → hash_of (view s') o h.
Proof.
  move=> Ha Hv Hl. apply (hash_of_within _ (λ o, plive s o)); try done.
  move=> y v p Hy /view_Some [b [Hb ->]]. rw /v_prev /= => Hp. by eapply Ha.
Qed.
(** Only the books changed, and not for the blocks that objects stand for. *)
Lemma content_cached x s s' : pool s' = pool s → (∀ o, attrs_of s' o = attrs_of s o) →
  na_block_size (pa_hashless s') = na_block_size (pa_hashless s) →
  (∀ o id h, x ≠ Some o → owner (pool s) o = Some id → pa_cached_blocks s !! h = Some id ↔ pa_cached_blocks s' !! h = Some id) →
  content x s → content x s'.
Proof.
  move=> Hp Hat Hsz Hc [C1 C2 C3 C4 C5].
  have Hv : ∀ o, view s' o = view s o by move=> o; rw /view Hp Hat.
  have Hk : ∀ o, known s' o → known s o.
  { move=> o. induction 1 as [o Hl|o b p _ IH Hb Hbp]; [apply kn_live; by rw Hp in Hl|apply (kn_prev _ o b); [done|by rw -Hp|done]]. }
  split; rw ?Hp ?Hsz //.
  - move=> o h /Hk Ho. rw Hat => /(C4 _ _ Ho). by apply hash_of_ext.
  - move=> o b id Hx Hl Hb Hid. have Ho : owner (pool s) o = Some id by apply owner_live; split; [|by exists b].
    have := C5 _ _ _ Hx Hl Hb Hid. case_match.
    + move=> [h [Hh Hch]]. exists h. split; [by eapply hash_of_ext|by apply (Hc o id h)].
    + move=> Hun h Hch. apply (Hun h). by apply (Hc o id h).
Qed.
(** The objects handed out before are the same, and so is the cache for them;
    there may be a new one. *)
Record grown (s s' : PrefixCachingBlockAllocator) : Prop := {
  gr_pool : pool_ok (pool s');
  gr_size : na_block_size (pa_hashless s') = na_block_size (pa_hashless s);
  gr_all : all_block_indices (pa_hashless s') = all_block_indices (pa_hashless s);
  gr_live : ∀ o, plive s o → plive s' o;
  gr_obj : ∀ o, plive s o → obj s' o = obj s o;
  gr_attrs : ∀ o, plive s o → pb_extra_hash (attrs_of s' o) = pb_extra_hash (attrs_of s o);
}.
Lemma grown_refl s : pool_ok (pool s) → grown s s.
Proof. by split. Qed.
Lemma grown_trans s1 s2 s3 : grown s1 s2 → grown s2 s3 → grown s1 s3.
Proof.
  move=> [A1 A2 A3 A4 A5 A6] [B1 B2 B3 B4 B5 B6]. split; try congruence; move=> o Ho; auto.
  - rw B5; auto.
  - rw B6; auto.
Qed.
Lemma grown_view s s' o : grown s s' → plive s o → view s' o = view s o.
Proof. move=> [_ _ _ _ H1 H2] Ho. by rw /view H1 // H2. Qed.
Lemma grown_memo s s' : content None s → memo s s' → grown s s'.
Proof.
  move=> HC Hm. have [_ H2 _] := Hm. have E := memo_hashless _ _ Hm.
  split; rw ?E //. apply HC.
Qed.
Lemma content_grown x s s' : content x s → anchored s → anchored s' → grown s s' →
  (∀ o h, plive s o → pb_cached_content_hash (attrs_of s' o) = Some h → pb_cached_content_hash (attrs_of s o) = Some h) →
  (∀ o id h, x ≠ Some o → owner (pool s) o = Some id → pa_cached_blocks s !! h = Some id ↔ pa_cached_blocks s' !! h = Some id) →
  (∀ o b, plive s' o → ¬ plive s o → obj s' o = Some b →
     pb_cached_content_hash (attrs_of s' o) = None ∧ nb_block_size b = na_block_size (pa_hashless s) ∧
     ∀ id, nb_block_id b = Some id →
       if nb_is_full b then ∃ h, hash_of (view s') o h ∧ pa_cached_blocks s' !! h = Some id
       else uncached (pa_cached_blocks s') id) →
  content x s'.
Proof.
  move=> [C1 C2 C3 C4 C5] Ha Ha' HG Hm Hc Hnew. have [G1 G2 G3 G4 G5 G6] := HG.
  have Hv : ∀ o, plive s o → view s' o = view s o by move=> o; apply grown_view.
  split; rw ?G2 //.
  - move=> o b Hl Hb. destruct (decide (plive s o)) as [Ho|Ho]; [rw G5 // in Hb; by eapply C3|by destruct (Hnew o b Hl Ho Hb) as [_ [? _]]].
  - move=> o h Hk Hh. have Hl := known_live _ _ Ha' Hk.
    destruct (decide (plive s o)) as [Ho|Ho].
    + apply (hash_alive s); [done..|]. apply C4; [by apply kn_live|by apply Hm].
    + destruct Hl as [Hlt Hl]. destruct (lookup_lt_is_Some_2 _ _ Hlt) as [b Hb].
      destruct (Hnew o b) as [Hn _]; [by split|done|done|congruence].
  - move=> o b id Hx Hl Hb Hid. destruct (decide (plive s o)) as [Ho|Ho]; last by apply (Hnew o b).
    rw G5 // in Hb. have Hw : owner (pool s) o = Some id by apply owner_live; split; [|by exists b].
    have := C5 _ _ _ Hx Ho Hb Hid. case_match.
    + move=> [h [Hh Hch]]. exists h. split; [by apply (hash_alive s)|by apply (Hc o id h)].
    + move=> Hun h Hch. apply (Hun h). by apply (Hc o id h).
Qed.

(** * Reference counts *)
Definition bump (id : nat) (n : Z) (s : PrefixCachingBlockAllocator) : PrefixCachingBlockAllocator :=
  set_pa_hashless (set_na_refcounts (<[id := n]> (na_refcounts (pa_hashless s))) (pa_hashless s)) s.
Lemma set_pa_hashless_id s : set_pa_hashless (pa_hashless s) s = s.
Proof. by destruct s. Qed.
Lemma wp_pc_ref_get s id n Q E : na_refcounts (pa_hashless s) !! id = Some n → Q n s → wp (on_hashless (ref_get id)) s Q E.
Proof.
  move=> Hr HQ. rw /on_hashless /ref_get. apply wp_zoom. wp_step. wp_step. rw Hr. wp_step. by rw set_pa_hashless_id.
Qed.
Lemma wp_pc_ref_incr s id n Q : na_refcounts (pa_hashless s) !! id = Some n → Q (n + 1)%Z (bump id (n + 1)%Z s) →
  wp (on_hashless (ref_incr id)) s Q any_exn.
Proof.
  move=> Hr HQ. rw /on_hashless /ref_incr /ref_get. apply wp_zoom. wp_step. wp_step. wp_step. rw Hr. wp_step. wp_step.
  wp_step; last done. rw /ref_set. by wp_steps.
Qed.
Lemma wp_pc_ref_decr s id n Q : na_refcounts (pa_hashless s) !! id = Some n →
  ((0 < n)%Z → Q (n - 1)%Z (bump id (n - 1)%Z s)) → wp (on_hashless (ref_decr id)) s Q any_exn.
Proof.
  move=> Hr HQ. rw /on_hashless /ref_decr /ref_get. apply wp_zoom. wp_step. wp_step. wp_step. rw Hr. wp_step. wp_step.
  wp_step; last done. rw /ref_set. wp_steps. apply HQ. lia.
Qed.
Lemma acct_refcount t s id : acct t (books s) → id ∈ all_block_indices (pa_hashless s) →
  na_refcounts (pa_hashless s) !! id = Some (t id).
Proof. move=> HA Hid. by have := ac_refcount _ _ HA id Hid. Qed.

(** Trackers. *)
Lemma wp_track id c s Q : (∀ t, bt_active t = true → pa_block_tracker s !! id ≠ None →
    Q tt (set_pa_block_tracker (<[id := t]> (pa_block_tracker s)) s)) → wp (track_block_id id c) s Q any_exn.
Proof.
  move=> HQ. rw /track_block_id /the_tracker /set_tracker. wp_step. wp_step. wp_step.
  destruct (pa_block_tracker s !! id) as [t|] eqn:Et; last by wp_step. wp_step. wp_step. apply wp_lift; last done.
  move=> t'. rw /tracker_enable. case_match; first done. move=> [= <-]. wp_step. by apply HQ.
Qed.
Lemma wp_untrack id s Q : (∀ t, bt_active t = false → Q tt (set_pa_block_tracker (<[id := t]> (pa_block_tracker s)) s)) →
  wp (untrack_block_id id) s Q any_exn.
Proof.
  move=> HQ. rw /untrack_block_id /the_tracker /set_tracker. wp_step. wp_step. wp_step.
  destruct (pa_block_tracker s !! id) as [t|] eqn:Et; last by wp_step. wp_step. wp_step. apply wp_lift; last done.
  move=> t'. rw /tracker_disable. case_match; last done. move=> [= <-]. wp_step. by apply HQ.
Qed.

(** Stores to an object. *)
Definition store (o : nat) (b : NaiveBlock) (s : PrefixCachingBlockAllocator) : PrefixCachingBlockAllocator :=
  set_pa_hashless (set_object o b (pa_hashless s)) s.
Lemma wp_pc_upd_block o f s Q E b : obj s o = Some b → Q tt (store o (f b) s) → wp (on_hashless (upd_block o f)) s Q E.
Proof. move=> Hb HQ. rw /on_hashless. apply wp_zoom. by apply (wp_upd_block _ _ _ _ _ b). Qed.
Lemma wp_block_id_of o s Q : (∀ b id, obj s o = Some b → nb_block_id b = Some id → Q id s) → wp (block_id_of o) s Q any_exn.
Proof.
  move=> HQ. rw /block_id_of. wp_step. apply wp_pc_block; last done. move=> b Hb.
  destruct (nb_block_id b) as [id|] eqn:Hid; wp_step; [by eapply HQ|done].
Qed.
Lemma store_live o b s x : plive (store o b s) x ↔ plive s x.
Proof. apply live_set_object. Qed.
Lemma store_eq o b b' s : obj s o = Some b' → obj (store o b s) o = Some b.
Proof. move=> H. rw /= list_lookup_insert_eq //. by eapply lookup_lt_Some. Qed.
Lemma store_ne o b s x : x ≠ o → obj (store o b s) x = obj s x.
Proof. move=> H. by rw /= list_lookup_insert_ne. Qed.
Lemma store_owner o b s x : x ≠ o → owner (pool (store o b s)) x = owner (pool s) x.
Proof. move=> H. by rw /owner /= list_lookup_insert_ne. Qed.
Lemma store_owner_eq o b b' s : plive s o → obj s o = Some b' → owner (pool (store o b s)) o = nb_block_id b.
Proof.
  move=> [Hl Hn] Hb. rw /owner /= decide_False // list_lookup_insert_eq //.
Qed.
Lemma live_owner s o b : plive s o → obj s o = Some b → owner (pool s) o = nb_block_id b.
Proof. move=> [Hl Hn] Hb. by rw /owner decide_False // Hb. Qed.
Lemma pool_ok_store p o b b' : pool_ok p → bp_pool p !! o = Some b → nb_pool_id b' = nb_pool_id b →
  pool_ok (set_bp_pool (<[o := b']> (bp_pool p)) p).
Proof.
  move=> [P1 P2 P3 P4] Hb Hid. have Hlt := lookup_lt_Some _ _ _ Hb. split; cbn; rw ?length_insert //.
  move=> x b2. destruct (decide (x = o)) as [->|Hne].
  - rw list_lookup_insert_eq // => -[= <-]. rw Hid. by apply P4.
  - rw list_lookup_insert_ne //. apply P4.
Qed.
(** The references when the block of an object changes. *)
Lemma tot_store held s o b b' i : plive s o → obj s o = Some b →
  tot held (store o b' s) i = (tot held s i - (if decide (nb_block_id b = Some i) then 1 else 0)
    + (if decide (nb_block_id b' = Some i) then 1 else 0))%Z.
Proof.
  move=> Hl Hb. rw /tot (luses_change (pool s) (pool (store o b' s)) o); first by move=> x Hx; rw store_owner.
  rw (live_owner _ _ _ Hl Hb) (store_owner_eq _ _ _ _ Hl Hb). lia.
Qed.
(** A store that only changes the block id leaves every hash as it is. *)
Lemma view_store_id o v b s y : obj s o = Some b → view (store o (set_nb_block_id v b) s) y = view s y.
Proof.
  move=> Hb. rw /view. destruct (decide (y = o)) as [->|Hne]; [by rw (store_eq _ _ _ _ Hb) Hb|by rw store_ne].
Qed.
Lemma known_store o b b' s y : obj s o = Some b → nb_prev_block b' = nb_prev_block b → known (store o b' s) y → known s y.
Proof.
  move=> Hb Hp. induction 1 as [y Hl|y b2 p _ IH Hb2 Hbp]; first by apply kn_live, (store_live o b').
  destruct (decide (y = o)) as [->|Hne].
  - rw (store_eq _ _ _ _ Hb) in Hb2. injection Hb2 as <-. apply (kn_prev _ o b); [done|done|by rw -Hp].
  - rw store_ne // in Hb2. by eapply kn_prev.
Qed.
Lemma content_store_id x o v b s : content x s → plive s o → obj s o = Some b →
  (∀ id, x ≠ Some o → v = Some id → if nb_is_full b then ∃ h, hash_of (view s) o h ∧ pa_cached_blocks s !! h = Some id
    else uncached (pa_cached_blocks s) id) →
  content x (store o (set_nb_block_id v b) s).
Proof.
  move=> [C1 C2 C3 C4 C5] Hl Hb Hv. have Hview := view_store_id o v b s. split.
  - by apply (pool_ok_store _ _ b).
  - done.
  - move=> y b2 /store_live Hy. destruct (decide (y = o)) as [->|?]; [rw (store_eq _ _ _ _ Hb) => -[= <-]; exact (C3 o b Hy Hb)|].
    rw store_ne //. by apply C3.
  - move=> y h /(known_store _ _ _ _ _ Hb) Hy Hm. apply (hash_of_ext _ (view s)); [by move=> z; apply Hview|].
    apply C4; [by apply Hy|done].
  - move=> y b2 id Hx /store_live Hy. destruct (decide (y = o)) as [->|?].
    + rw (store_eq _ _ _ _ Hb) => -[= <-]. move=> Hid. have := Hv id Hx Hid. change (nb_is_full (set_nb_block_id v b)) with (nb_is_full b).
      destruct (nb_is_full b); last done. move=> [h [Hh ?]]. exists h. split; [by apply (hash_of_ext _ (view s)); [move=> z; apply Hview|]|done].
    + rw store_ne // => Hb2 Hid. have := C5 _ _ _ Hx Hy Hb2 Hid. destruct (nb_is_full b2); last done.
      move=> [h [Hh ?]]. exists h. split; [by apply (hash_of_ext _ (view s)); [move=> z; apply Hview|]|done].
Qed.

(** * New objects *)
Record inited (s s' : PrefixCachingBlockAllocator) (o : nat) (prev : option nat) (toks : list Z) (id : option nat)
    (extra : option Z) : Prop := {
  in_state : s' = set_pa_attrs (pa_attrs s') (set_pa_hashless (set_na_block_pool (pool s') (pa_hashless s)) s);
  in_handed : handed_out (pool s) (pool s') o {| nb_token_ids := toks; nb_block_size := na_block_size (pa_hashless s);
    nb_prev_block := prev; nb_block_id := id; nb_pool_id := Some o |};
  in_memo : pb_cached_content_hash (attrs_of s' o) = None;
  in_extra : pb_extra_hash (attrs_of s' o) = extra;
  in_attrs : ∀ o', o' ≠ o → attrs_of s' o' = attrs_of s o';
}.
Lemma attrs_of_ext s s' o : pa_attrs s' = pa_attrs s → attrs_of s' o = attrs_of s o.
Proof. by rw /attrs_of => ->. Qed.
Lemma wp_update_total o s Q : (∀ n, Q tt (set_pa_attrs (<[o := set_pb_cached_num_tokens_total n (attrs_of s o)]> (pa_attrs s)) s)) →
  wp (update_num_tokens_total o) s Q any_exn.
Proof.
  move=> HQ. rw /update_num_tokens_total. wp_step. apply wp_pc_block; last done. move=> b Hb. wp_step. wp_step.
  apply wp_upd_attrs. apply HQ.
Qed.
Lemma memo_total o n s : memo s (set_pa_attrs (<[o := set_pb_cached_num_tokens_total n (attrs_of s o)]> (pa_attrs s)) s).
Proof. split; first done; move=> y; rw (attrs_upd s o (set_pb_cached_num_tokens_total n) y); by case_decide; subst. Qed.

Lemma wp_pc_init_block s prev toks id extra : pool_ok (pool s) →
  wp (pc_init_block prev toks id extra) s (λ o s', inited s s' o prev toks id extra) any_exn.
Proof.
  move=> HP. rw /pc_init_block. wp_step. wp_step. wp_step. rw /on_hashless /on_pool. apply wp_zoom. apply wp_zoom.
  eapply wp_mono; [by apply init_block_ok| |done]. move=> o p HO. wp_step. apply wp_upd_attrs. wp_step.
  apply wp_update_total => n. wp_step. split.
  - done.
  - exact HO.
  - rw (attrs_upd _ _ (set_pb_cached_num_tokens_total n)) decide_True //= (attrs_upd _ _ (λ _, blank_attrs extra)) decide_True //.
  - rw (attrs_upd _ _ (set_pb_cached_num_tokens_total n)) decide_True //= (attrs_upd _ _ (λ _, blank_attrs extra)) decide_True //.
  - move=> o' Ho. rw (attrs_upd _ _ (set_pb_cached_num_tokens_total n)) decide_False //= (attrs_upd _ _ (λ _, blank_attrs extra)) decide_False //.
Qed.

Section inited.
Context {s s' : PrefixCachingBlockAllocator} {o : nat} {prev : option nat} {toks : list Z} {id : option nat} {extra : option Z}.
Context (HI : inited s s' o prev toks id extra).
Lemma in_books : books s' = books s.
Proof. by rw (in_state _ _ _ _ _ _ _ HI). Qed.
Lemma in_grown : grown s s'.
Proof.
  have [H1 H2 H3 H4 H5] := HI. have [O1 O2 O3 O4 O5] := H2. split; try done; try (by rw H1).
  - move=> y Hy. apply O4. by right.
  - move=> y Hy. rw H5 //. by move=> ?; subst.
Qed.
Lemma in_live y : plive s' y ↔ y = o ∨ plive s y.
Proof. apply HI. Qed.
Lemma in_obj : obj s' o = Some {| nb_token_ids := toks; nb_block_size := na_block_size (pa_hashless s);
    nb_prev_block := prev; nb_block_id := id; nb_pool_id := Some o |}.
Proof. apply HI. Qed.
Lemma in_anchored : anchored s → (∀ p, prev = Some p → plive s p) → anchored s'.
Proof.
  move=> Ha Hp y b p /in_live Hy Hb Hbp. apply in_live. destruct Hy as [->|Hy].
  - rw in_obj in Hb. injection Hb as <-. right. by apply Hp.
  - right. rw (gr_obj _ _ in_grown y Hy) in Hb. by eapply Ha.
Qed.
Lemma in_tot held i : tot held s' i = (tot held s i + if decide (id = Some i) then 1 else 0)%Z.
Proof.
  destruct (handed_out_owner _ _ _ _ (in_handed _ _ _ _ _ _ _ HI)) as (H1 & H2 & H3).
  rw /tot (luses_change (pool s) (pool s') o) // H1 H2 /=. repeat case_decide; simplify_eq; lia.
Qed.
Lemma in_attrs' y : plive s y → attrs_of s' y = attrs_of s y.
Proof. move=> Hy. apply (in_attrs _ _ _ _ _ _ _ HI). move=> ?; subst. by apply (ho_fresh _ _ _ _ (in_handed _ _ _ _ _ _ _ HI)). Qed.
Lemma in_content x : content x s → anchored s → (∀ p, prev = Some p → plive s p) →
  (∀ i, id = Some i → if nb_is_full {| nb_token_ids := toks; nb_block_size := na_block_size (pa_hashless s);
      nb_prev_block := prev; nb_block_id := id; nb_pool_id := Some o |}
    then ∃ h, hash_of (view s') o h ∧ pa_cached_blocks s !! h = Some i else uncached (pa_cached_blocks s) i) →
  content x s'.
Proof.
  move=> HC Ha Hp Hid. have Hc : pa_cached_blocks s' = pa_cached_blocks s by rw (in_state _ _ _ _ _ _ _ HI).
  apply (content_grown x s); [done|done|by apply in_anchored|exact in_grown| |by rw Hc|].
  - move=> y h Hy. by rw in_attrs'.
  - move=> y b /in_live [->|//] _. rw in_obj => -[= <-]. rw Hc.
    split_and!; [by apply (in_memo _ _ _ _ _ _ _ HI)|done|done].
Qed.
End inited.

(** The object goes back to the pool. *)
Definition put_back (o : nat) (s : PrefixCachingBlockAllocator) : PrefixCachingBlockAllocator :=
  set_pa_hashless (set_na_block_pool (set_bp_free_ids (o :: bp_free_ids (pool s)) (pool s)) (pa_hashless s)) s.
Lemma wp_pc_pool_free o s Q E : pool_ok (pool s) → plive s o → Q tt (put_back o s) → wp (on_hashless (pool_free_block o)) s Q E.
Proof.
  move=> HP [Hl Hn] HQ. destruct (lookup_lt_is_Some_2 _ _ Hl) as [b Hb]. rw /on_hashless /pool_free_block.
  apply wp_zoom. wp_step. rw /the_block. wp_step. wp_step. rw Hb. wp_step. rw (po_pool_id _ HP _ _ Hb Hn).
  rw /on_pool. apply wp_zoom. wp_step. exact HQ.
Qed.
Lemma put_back_live o s y : plive (put_back o s) y ↔ y ≠ o ∧ plive s y.
Proof. rw /live /= not_elem_of_cons. tauto. Qed.
Lemma put_back_pool_ok o s : pool_ok (pool s) → plive s o → pool_ok (pool (put_back o s)).
Proof.
  move=> [P1 P2 P3 P4] [Hl Hn]. split; cbn; [done|by apply NoDup_cons| |].
  - move=> y /elem_of_cons [->|/P3]; done.
  - move=> y b Hb /not_elem_of_cons [_ ?]. by apply P4.
Qed.
Lemma put_back_owner o s y : y ≠ o → owner (pool (put_back o s)) y = owner (pool s) y.
Proof. move=> Hy. rw /owner /=. apply decide_ext. rw elem_of_cons. tauto. Qed.
Lemma put_back_owner_eq o s : owner (pool (put_back o s)) o = None.
Proof. rw /owner /= decide_True //. by left. Qed.
Lemma tot_put_back o s held i : tot held (put_back o s) i =
  (tot held s i - if decide (owner (pool s) o = Some i) then 1 else 0)%Z.
Proof.
  rw /tot (luses_change (pool s) (pool (put_back o s)) o); first by move=> y Hy; rw put_back_owner.
  rw put_back_owner_eq. repeat case_decide; simplify_eq; lia.
Qed.
Lemma known_put_back o s y : known (put_back o s) y → known s y.
Proof.
  induction 1 as [y Hl|y b p _ IH Hb Hp]; [apply kn_live; by apply put_back_live in Hl as [_ ?]|by eapply kn_prev].
Qed.
Lemma content_put_back x o s : content x s → plive s o → content x (put_back o s).
Proof.
  move=> HC Hl. have [C1 C2 C3 C4 C5] := HC. split; [by apply put_back_pool_ok|done| | |].
  - move=> y b /put_back_live [_ ?]. by apply C3.
  - move=> y h /known_put_back. apply C4.
  - move=> y b id Hx /put_back_live [_ ?]. by apply C5.
Qed.

(** * Allocation of block ids *)
Record same_objs (s s' : PrefixCachingBlockAllocator) : Prop := {
  so_grown : grown s s';
  so_live : ∀ o, plive s' o ↔ plive s o;
  so_attrs : ∀ o, plive s o → attrs_of s' o = attrs_of s o;
}.
Lemma same_anchored s s' : same_objs s s' → anchored s → anchored s'.
Proof.
  move=> [HG Hl _] Ha o b p /Hl Ho Hb Hp. apply Hl. rw (gr_obj _ _ HG _ Ho) in Hb. by eapply Ha.
Qed.
Record taken (x : option nat) (held : list nat) (s s' : PrefixCachingBlockAllocator) (id : nat) : Prop := {
  tk_inv : pc_inv x (id :: held) s';
  tk_objs : same_objs s s';
  tk_new : tot held s id = 0%Z;
  tk_uncached : uncached (pa_cached_blocks s') id;
}.
Lemma tot_cons id held s i : tot (id :: held) s i = plus (tot held s) id i.
Proof. rw /tot /plus occ_cons. lia. Qed.

(** The hashless allocator takes an id and wraps it into an object. *)
Lemma wp_na_take a : pool_ok (na_block_pool a) → wp (allocate_mutable_block None) a (λ o a', ∃ id rest n,
  free_block_indices a = id :: rest ∧ na_refcounts a !! id = Some n ∧
  a' = set_na_block_pool (na_block_pool a') (set_na_refcounts (<[id := (n + 1)%Z]> (na_refcounts a)) (set_free_block_indices rest a)) ∧
  handed_out (na_block_pool a) (na_block_pool a') o {| nb_token_ids := []; nb_block_size := na_block_size a;
    nb_prev_block := None; nb_block_id := Some id; nb_pool_id := Some o |}) any_exn.
Proof.
  move=> HP. rw /allocate_mutable_block /allocate_block_id. wp_step. wp_step. wp_step.
  destruct (free_block_indices a) as [|id rest] eqn:Ef; first by wp_step. wp_step. wp_step. wp_step.
  rw /ref_incr /ref_get. wp_step. wp_step. wp_step. cbn. destruct (na_refcounts a !! id) as [n|] eqn:En; last by wp_step.
  wp_step. wp_step. wp_step; last done. rw /ref_set. wp_steps.
  rw /on_pool. apply wp_zoom. eapply wp_mono; [by apply init_block_ok| |done]. move=> o p HO. by exists id, rest, n.
Qed.
Lemma wp_hashless_id x held s : pc_inv x held s → anchored s →
  wp maybe_allocate_hashless_block_id s (λ r s', match r with None => s' = s | Some id => taken x held s s' id end) any_exn.
Proof.
  move=> [HA HC] Ha. rw /maybe_allocate_hashless_block_id.
  match goal with |- wp (λ s, match ?m s with _ => _ end) _ _ _ => set body := m end.
  suff : wp body s (λ r s', match r with None => s' = s | Some id => taken x held s s' id end) any_exn.
  { rw /wp. destruct (body s) as [[r s']|e]; first done. by case_decide. }
  rw /body. wp_step. rw {1}/on_hashless. apply wp_zoom. eapply wp_mono; [by apply wp_na_take, HC| |done].
  move=> o a [id [rest [n [Hf [Hn [Hst HO]]]]]].
  have Hid : id ∈ bk_free (books s) by rw /= Hf; left.
  destruct (ac_free _ _ HA _ Hid) as [Hall Htot]. have Hn' := ac_count _ _ HA _ _ Hn.
  set s1 := set_pa_hashless (set_na_refcounts (<[id := (n + 1)%Z]> (na_refcounts (pa_hashless s)))
    (set_free_block_indices rest (pa_hashless s))) s.
  wp_step. apply wp_upd_attrs. wp_step. apply wp_update_total => k.
  set s2 := set_pa_attrs _ _. have HI : inited s1 s2 o None [] (Some id) None.
  { split.
    - have E : set_pa_hashless a s = set_pa_hashless (set_na_block_pool (na_block_pool a) (pa_hashless s1)) s1 by rw {1}Hst.
      transitivity (set_pa_attrs (pa_attrs s2) (set_pa_hashless a s)); [done|by rw E].
    - exact HO.
    - rw (attrs_upd _ _ (set_pb_cached_num_tokens_total k)) decide_True //= (attrs_upd _ _ (λ _, blank_attrs None)) decide_True //.
    - rw (attrs_upd _ _ (set_pb_cached_num_tokens_total k)) decide_True //= (attrs_upd _ _ (λ _, blank_attrs None)) decide_True //.
    - move=> o' Ho. rw (attrs_upd _ _ (set_pb_cached_num_tokens_total k)) decide_False //= (attrs_upd _ _ (λ _, blank_attrs None)) decide_False //. }
  have HC1 : content x s1 by apply (content_cached x s).
  have Hun : uncached (pa_cached_blocks s) id by apply (ac_free_uncached _ _ HA).
  have HC2 : content x s2.
  { apply (in_content HI x); [done|done|done|]. move=> i [= <-].
    have -> : nb_is_full {| nb_token_ids := []; nb_block_size := na_block_size (pa_hashless s1); nb_prev_block := None;
      nb_block_id := Some id; nb_pool_id := Some o |} = false; last done.
    have := ct_size _ _ _ HC. rw /nb_is_full /num_empty_slots /= => Hsz. apply Z.eqb_neq. lia. }
  clearbody s2. wp_step. apply wp_pc_block; last done. move=> b. rw (in_obj HI) => -[= <-].
  have Hl2 : plive s2 o by apply (in_live HI); left.
  wp_step. apply wp_pc_pool_free; [by apply HC2|done|]. set s3 := put_back o s2. cbn.
  wp_step. apply wp_track => t Ht _. wp_step. set s4 := set_pa_block_tracker _ s3.
  have Hlv : ∀ y, plive s4 y ↔ plive s y.
  { move=> y. rw (put_back_live o s2) (in_live HI). split; [tauto|]. move=> Hy. split; [|by right]. move=> ?; subst.
    by apply (ho_fresh _ _ _ _ HO). }
  have Hk : books s4 = {| bk_free := rest; bk_all := bk_all (books s); bk_refcounts := <[id := (tot held s id + 1)%Z]> (bk_refcounts (books s));
    bk_trackers := <[id := t]> (bk_trackers (books s)); bk_table := bk_table (books s); bk_cached := bk_cached (books s) |}.
  { rw -Hn'. rw /books /= (in_state _ _ _ _ _ _ _ HI). done. }
  split.
  - split.
    + rw Hk. apply (acct_ext (plus (tot held s) id)); last by apply acct_take.
      move=> i. rw tot_cons. rw /plus. f_equal.
      have -> : tot held s4 i = tot held s3 i by []. rw tot_put_back (in_tot HI) (live_owner _ _ _ Hl2 (in_obj HI)) /=.
      have -> : tot held s1 i = tot held s i by []. lia.
    + by apply (content_cached x s3); [..|apply content_put_back].
  - split; last 1 first.
    + move=> y Hy. apply (in_attrs' HI y Hy).
    + have HG := in_grown HI. destruct HG as [G1 G2 G3 G4 G5 G6]. split; try done.
      * by apply put_back_pool_ok.
      * by move=> y /Hlv.
    + done.
  - done.
  - have -> : pa_cached_blocks s4 = pa_cached_blocks s by rw /s4 /= (in_state _ _ _ _ _ _ _ HI). done.
Qed.
Lemma evicted_content x s s' h id : content x s → pool s' = pool s → (∀ o, attrs_of s' o = attrs_of s o) →
  na_block_size (pa_hashless s') = na_block_size (pa_hashless s) → (∀ o, owner (pool s) o ≠ Some id) →
  pa_cached_blocks s !! h = Some id → pa_cached_blocks s' = delete h (pa_cached_blocks s) → content x s'.
Proof.
  move=> HC Hp Hat Hsz Ho Hh Hc. apply (content_cached x s); try done. move=> o i h' _ Hi. rw Hc lookup_delete_Some.
  split; [|by move=> [_ ?]]. move=> Hh'. split; last done. move=> ?. subst h'. rw Hh in Hh'. injection Hh' as ?. subst i. by apply (Ho o).
Qed.
Lemma wp_evicted_id x held s : pc_inv x held s →
  wp maybe_allocate_evicted_block_id s (λ r s', match r with None => s' = s | Some id => taken x held s s' id end) any_exn.
Proof.
  move=> [HA HC]. rw /maybe_allocate_evicted_block_id. wp_step. wp_step. wp_step; first by wp_step.
  wp_step. rw {1}/on_evictor. apply wp_zoom. destruct (evict (pa_evictor s)) as [[[z h] e]|err] eqn:Ee; last by rw /wp Ee.
  rw /wp Ee. destruct (evict_table _ _ _ _ Ee) as (m & Hm & He).
  match goal with |- match ?f ?t with _ => _ end => change (wp f t (λ r s', match r with None => s' = s | Some id => taken x held s s' id end) any_exn) end.
  set s1 := set_pa_evictor e s.
  wp_step. wp_step. change (pa_cached_blocks s1) with (pa_cached_blocks s).
  destruct (pa_cached_blocks s !! h) as [id|] eqn:Eh; last by wp_step.
  destruct (ac_cached _ _ HA _ _ Eh) as [Hall _]. have Hr := acct_refcount _ _ _ HA Hall.
  wp_step. apply (wp_pc_ref_get _ _ (tot held s id)); first done. wp_step. wp_step; last done. wp_step. wp_step; last done.
  have Hz : z = Z.of_nat id by lia. subst z. have Hz : tot held s id = 0%Z by lia.
  wp_step. wp_step. wp_step. apply (wp_pc_ref_incr _ _ (tot held s id)); first done. wp_step. apply wp_track => t Ht _. wp_step.
  set s2 := set_pa_block_tracker _ _.
  destruct (acct_evict _ _ HA id h m t Hm Eh Ht) as [HA2 Hun].
  have Ho : ∀ o, owner (pool s) o ≠ Some id.
  { move=> o Ho. have := luses_pos _ _ _ Ho. have := occ_nonneg id held. rw /tot in Hz. lia. }
  split.
  - split; last by apply (evicted_content x s s2 h id).
    apply (acct_ext (plus (tot held s) id)); first by move=> i; rw tot_cons.
    have -> : books s2 = {| bk_free := bk_free (books s); bk_all := bk_all (books s); bk_refcounts := <[id := (tot held s id + 1)%Z]> (bk_refcounts (books s));
      bk_trackers := <[id := t]> (bk_trackers (books s)); bk_table := ddel (bk_table (books s)) (Z.of_nat id);
      bk_cached := delete h (bk_cached (books s)) |}; last done.
    rw /books /= He. done.
  - split; [|done|done]. split; try done. apply HC.
  - done.
  - done.
Qed.
Lemma wp_pc_allocate_id x held s : pc_inv x held s → anchored s →
  wp pc_allocate_block_id s (λ id s', taken x held s s' id) any_exn.
Proof.
  move=> HI Ha. rw /pc_allocate_block_id. wp_step. eapply wp_mono; [by apply wp_hashless_id| |done].
  move=> r s1. destruct r as [id|]; first by move=> ?; wp_step. move=> ->. wp_step.
  eapply wp_mono; [by apply wp_evicted_id| |done]. move=> r s2. destruct r as [id|]; [by move=> ?; wp_step|by move=> _; wp_step].
Qed.

(** * Giving up and taking over references *)

(** The block id of one object changed, and nothing else of the objects. *)
Record idset (o : nat) (v : option nat) (b : NaiveBlock) (s s' : PrefixCachingBlockAllocator) : Prop := {
  is_pool : pool s' = pool (store o (set_nb_block_id v b) s);
  is_extra : ∀ y, pb_extra_hash (attrs_of s' y) = pb_extra_hash (attrs_of s y);
  is_cached : pa_cached_blocks s' = pa_cached_blocks s;
  is_size : na_block_size (pa_hashless s') = na_block_size (pa_hashless s);
  is_all : all_block_indices (pa_hashless s') = all_block_indices (pa_hashless s);
}.
Section idset.
Context {o : nat} {v : option nat} {b : NaiveBlock} {s s' : PrefixCachingBlockAllocator} (HS : idset o v b s s').
Lemma is_live y : plive s' y ↔ plive s y.
Proof. rw (is_pool _ _ _ _ _ HS). apply store_live. Qed.
Lemma is_obj b0 : obj s o = Some b0 → obj s' o = Some (set_nb_block_id v b).
Proof. rw (is_pool _ _ _ _ _ HS). apply store_eq. Qed.
Lemma is_obj_ne y : y ≠ o → obj s' y = obj s y.
Proof. rw (is_pool _ _ _ _ _ HS). apply store_ne. Qed.
Lemma is_view y : obj s o = Some b → view s' y = view s y.
Proof.
  move=> Hb. rw /view (is_extra _ _ _ _ _ HS) (is_pool _ _ _ _ _ HS). by apply (view_store_id o v b s y).
Qed.
Lemma is_anchored : obj s o = Some b → anchored s → anchored s'.
Proof.
  move=> Hb Ha y b2 p /is_live Hy. rw is_live. destruct (decide (y = o)) as [->|Hne].
  - rw (is_obj _ Hb) => -[= <-]. by apply (Ha o b).
  - rw is_obj_ne //. by apply Ha.
Qed.
Lemma is_tot held i : plive s o → obj s o = Some b → tot held s' i =
  (tot held s i - (if decide (nb_block_id b = Some i) then 1 else 0) + (if decide (v = Some i) then 1 else 0))%Z.
Proof. move=> Hl Hb. rw -(tot_store held s o b (set_nb_block_id v b) i Hl Hb) /tot. by rw (is_pool _ _ _ _ _ HS). Qed.
End idset.
Lemma owner_tot held s o id : owner (pool s) o = Some id → (0 < tot held s id)%Z.
Proof. move=> /luses_pos ?. have := occ_nonneg id held. rw /tot. lia. Qed.
Lemma minus_tot held s o b id s' : plive s o → obj s o = Some b → nb_block_id b = Some id → idset o None b s s' →
  ∀ i, minus (tot held s) id i = tot held s' i.
Proof.
  move=> Hl Hb Hid HS i. rw (is_tot HS held i Hl Hb) Hid /minus. repeat case_decide; simplify_eq; lia.
Qed.

Lemma wp_decr_hashless x held s o b id : pc_inv x held s → plive s o → obj s o = Some b → nb_block_id b = Some id →
  (tot held s id = 1%Z → uncached (pa_cached_blocks s) id) →
  wp (decr_refcount_hashless_block o) s (λ _ s', pc_inv x held s' ∧ idset o None b s s') any_exn.
Proof.
  move=> [HA HC] Hl Hb Hid Hun. have Hpos := owner_tot held s o id (eq_trans (live_owner _ _ _ Hl Hb) Hid).
  have Hall := ac_known _ _ HA _ Hpos. have Hr := acct_refcount _ _ _ HA Hall.
  rw /decr_refcount_hashless_block. wp_step. apply wp_block_id_of => b' id' Hb' Hid'. rw Hb in Hb'. injection Hb' as <-.
  rw Hid in Hid'. injection Hid' as <-. wp_step. apply (wp_pc_ref_get _ _ _ _ _ Hr). wp_step.
  set F := λ s1 : PrefixCachingBlockAllocator, pool s1 = pool s ∧ pa_attrs s1 = pa_attrs s ∧ pa_hashless s1 = pa_hashless s ∧
    pa_evictor s1 = pa_evictor s ∧ pa_cached_blocks s1 = pa_cached_blocks s ∧
    if decide (tot held s id = 1%Z) then ∃ t, bt_active t = false ∧ pa_block_tracker s1 = <[id := t]> (pa_block_tracker s)
    else pa_block_tracker s1 = pa_block_tracker s.
  apply (wp_mono _ _ (λ (_ : unit) s1, F s1) _ any_exn); [| |done].
  { rw /F. destruct (Z.eqb_spec (tot held s id) 1) as [E|E]; cbn.
    - apply wp_untrack => t Ht. cbn. rw decide_True //. split_and!; try done. by exists t.
    - rw decide_False //. }
  move=> _ s1 [F1 [F2 [F3 [F4 [F5 F6]]]]]. rw /on_hashless. apply wp_zoom. rw /naive_free. wp_step.
  rw /free_block_id. wp_step. rw F3. apply wp_the_block; last done. move=> b' Hb'. rw Hb in Hb'. injection Hb' as <-. rw Hid.
  rw /ref_decr /ref_get. wp_step. wp_step. wp_step. wp_step. rw Hr. wp_step. wp_step. wp_step; last done. rw /ref_set.
  wp_step. wp_step. wp_step. wp_step.
  set a1 := set_na_refcounts _ (pa_hashless s).
  set a2 := if (tot held s id - 1 =? 0)%Z then set_free_block_indices (id :: free_block_indices a1) a1 else a1.
  apply (wp_mono _ _ (λ (_ : unit) a, a = a2) _ any_exn); [|move=> u a ->|done].
  { rw /a2. destruct (tot held s id - 1 =? 0)%Z; by wp_step. }
  have Hp2 : na_block_pool a2 = pool s by rw /a2; destruct (tot held s id - 1 =? 0)%Z.
  apply (wp_upd_block _ _ _ _ _ b); first by rw Hp2. cbn [negb mwhen]. apply wp_ret.
  set s3 := set_pa_hashless _ s1.
  have HS : idset o None b s s3.
  { split; try done.
    - rw /s3 /= Hp2. done.
    - move=> y. by rw /attrs_of /s3 /= F2.
    - rw /s3 /= /a2. by destruct (tot held s id - 1 =? 0)%Z.
    - rw /s3 /= /a2. by destruct (tot held s id - 1 =? 0)%Z. }
  split; last done. split.
  - apply (acct_ext (minus (tot held s) id)); first by apply (minus_tot held s o b id).
    destruct (decide (tot held s id = 1%Z)) as [E|E].
    + destruct F6 as [t [Ht Htr]].
      have -> : books s3 = {| bk_free := id :: bk_free (books s); bk_all := bk_all (books s); bk_refcounts := <[id := (tot held s id - 1)%Z]> (bk_refcounts (books s));
        bk_trackers := <[id := t]> (bk_trackers (books s)); bk_table := bk_table (books s); bk_cached := bk_cached (books s) |}.
      { rw /books /s3 /= F4 F5 Htr /a2 /a1 E. done. }
      apply acct_release; [done|done|by apply Hun|done].
    + have -> : books s3 = with_counts (books s) (<[id := (tot held s id - 1)%Z]> (bk_refcounts (books s))) (bk_trackers (books s)).
      { rw /books /s3 /with_counts /= F4 F5 F6 /a2. destruct (Z.eqb_spec (tot held s id - 1) 0); [lia|done]. }
      apply acct_unshare; [done|lia].
  - apply (content_cached x (store o (set_nb_block_id None b) s)).
    + apply HS.
    + move=> y. rw /attrs_of /s3 /= F2. done.
    + rw /s3 /= /a2. by destruct (tot held s id - 1 =? 0)%Z.
    + move=> y i h _ _. by rw (is_cached _ _ _ _ _ HS).
    + by apply content_store_id.
Qed.

(** The object was pointed at a cached block, whose reference is still to be
    counted. *)
Lemma wp_incr_cached x held s o b id h : acct (minus (tot held s) id) (books s) → content x s → plive s o →
  obj s o = Some b → nb_block_id b = Some id → pa_cached_blocks s !! h = Some id →
  wp (incr_refcount_cached_block o) s (λ _ s', pc_inv x held s' ∧ pool s' = pool s ∧
    (∀ y, pb_extra_hash (attrs_of s' y) = pb_extra_hash (attrs_of s y)) ∧ (∀ y, y ≠ o → attrs_of s' y = attrs_of s y) ∧ pa_cached_blocks s' = pa_cached_blocks s ∧
    na_block_size (pa_hashless s') = na_block_size (pa_hashless s) ∧
    all_block_indices (pa_hashless s') = all_block_indices (pa_hashless s)) any_exn.
Proof.
  move=> HA HC Hl Hb Hid Hh. destruct (ac_cached _ _ HA _ _ Hh) as [Hall _].
  have Hr := acct_refcount _ _ _ HA Hall. rw minus_eq in Hr.
  have Hpm : ∀ i, plus (minus (tot held s) id) id i = tot held s i by move=> i; rw /plus /minus; lia.
  rw /incr_refcount_cached_block. wp_step. apply wp_upd_attrs. wp_step.
  set s1 := set_pa_attrs _ s. apply wp_block_id_of => b' id' Hb' Hid'. have ? : b' = b by (cbn in Hb'; congruence). subst b'.
  rw Hid in Hid'. injection Hid' as <-. wp_step. apply (wp_pc_ref_incr s1 _ _ _ Hr).
  have Hat : ∀ y, pb_extra_hash (attrs_of s1 y) = pb_extra_hash (attrs_of s y) ∧
    pb_cached_content_hash (attrs_of s1 y) = pb_cached_content_hash (attrs_of s y).
  { move=> y. rw (attrs_upd s o (set_pb_computed true)). by case_decide; subst. }
  have Hat2 : ∀ y, y ≠ o → attrs_of s1 y = attrs_of s y by move=> y Hy; rw (attrs_upd s o (set_pb_computed true)) decide_False.
  have HC1 : content x s1.
  { have Hv : ∀ y, view s1 y = view s y by move=> y; rw /view (proj1 (Hat y)).
    have Hk : ∀ y, known s1 y → known s y by move=> y; induction 1 as [|y b2 p _ IH]; [by apply kn_live|by eapply kn_prev].
    destruct HC as [C1 C2 C3 C4 C5]. split; try done.
    - move=> y h' /Hk Hy. rw (proj2 (Hat y)) => /(C4 _ _ Hy). by apply hash_of_ext.
    - move=> y b2 i Hx Hly Hb2 Hi. have := C5 _ _ _ Hx Hly Hb2 Hi. destruct (nb_is_full b2); last done.
      move=> [h' [? ?]]. exists h'. split; [by apply (hash_of_ext _ (view s))|done]. }
  have Hnn := ac_nonneg _ _ HA id. rw minus_eq in Hnn. wp_step; last first.
  { split_and!; try done; [|by move=> y; apply Hat]. split; last by apply (content_cached x s1).
    apply (acct_ext _ _ _ Hpm). have -> : books (bump id (tot held s id - 1 + 1) s1) =
      with_counts (books s) (<[id := (minus (tot held s) id id + 1)%Z]> (bk_refcounts (books s))) (bk_trackers (books s)) by rw minus_eq.
    apply acct_share; [done|]. rw minus_eq. lia. }
  have H0 : minus (tot held s) id id = 0%Z by rw minus_eq; lia.
  wp_step. wp_step. set s2 := bump _ _ s1. wp_step.
  set F := λ s3 : PrefixCachingBlockAllocator, pa_hashless s3 = pa_hashless s2 ∧ pa_attrs s3 = pa_attrs s2 ∧
    pa_block_tracker s3 = pa_block_tracker s2 ∧ pa_cached_blocks s3 = pa_cached_blocks s2 ∧
    free_table (pa_evictor s3) = ddel (free_table (pa_evictor s)) (Z.of_nat id).
  apply (wp_mono _ _ (λ (_ : unit) s3, F s3) _ any_exn); [| |done].
  { rw /evictor_contains /dmem. destruct (dget (free_table (pa_evictor s2)) (Z.of_nat id)) as [m|] eqn:Ed; cbn.
    - rw /on_evictor. apply wp_zoom. rw /evictor_remove. wp_step. wp_step. wp_step; first by wp_step. by wp_step.
    - rw /F. split_and!; try done. change (pa_evictor s2) with (pa_evictor s). symmetry. by apply ddel_notin. }
  move=> _ s3 [F1 [F2 [F3 [F4 F5]]]]. apply wp_track => t Ht _. set s4 := set_pa_block_tracker _ s3.
  have Hp : pool s4 = pool s by rw /s4 /= F1.
  split_and!; [|done|by move=> y; rw -(proj1 (Hat y)) /attrs_of /s4 /= F2|by move=> y Hy; rw -Hat2 // /attrs_of /s4 /= F2|by rw /s4 /= F4|by rw /s4 /= F1|by rw /s4 /= F1].
  split.
  - apply (acct_ext (plus (minus (tot held s) id) id)); first by move=> i; rw Hpm /tot Hp.
    have -> : books s4 = {| bk_free := bk_free (books s); bk_all := bk_all (books s); bk_refcounts := <[id := (minus (tot held s) id id + 1)%Z]> (bk_refcounts (books s));
      bk_trackers := <[id := t]> (bk_trackers (books s)); bk_table := ddel (bk_table (books s)) (Z.of_nat id); bk_cached := bk_cached (books s) |}.
    { rw minus_eq /books /s4 /= F1 F3 F4 F5. done. }
    by apply (acct_revive _ _ HA id h).
  - apply (content_cached x s1); [by rw Hp|by move=> y; rw /attrs_of /s4 /= F2|by rw /s4 /= F1|by rw /s4 /= F4|done].
Qed.

Lemma memo_tot held s s' i : memo s s' → tot held s' i = tot held s i.
Proof. move=> Hm. by rw /tot (memo_hashless _ _ Hm). Qed.
Lemma pc_inv_memo x held s s' : pc_inv x held s → memo s s' → content x s' → pc_inv x held s'.
Proof.
  move=> [HA _] Hm HC. split; last done. rw (memo_books _ _ Hm). eapply acct_ext; last exact HA. move=> i. by rw (memo_tot _ _ _ _ Hm).
Qed.
Lemma idset_memo o v b s s1 s' : memo s s1 → idset o v b s1 s' → idset o v b s s'.
Proof.
  move=> Hm [H1 H2 H3 H4 H5]. have E := memo_hashless _ _ Hm. split.
  - rw H1. by rw /store /= E.
  - move=> y. by rw H2 (me_extra _ _ Hm).
  - rw H3. by rw (me_state _ _ Hm).
  - by rw H4 E.
  - by rw H5 E.
Qed.
Lemma memo_anchored s s' : memo s s' → anchored s → anchored s'.
Proof. move=> Hm. by rw /anchored (memo_hashless _ _ Hm). Qed.

Lemma wp_decr_cached x held s o b id h : pc_inv x held s → plive s o → obj s o = Some b → nb_block_id b = Some id →
  hash_of (view s) o h → pa_cached_blocks s !! h = Some id →
  wp (decr_refcount_cached_block py_hash o) s (λ _ s', pc_inv x held s' ∧ idset o None b s s') any_exn.
Proof.
  move=> HI Hl Hb Hid Hh Hch. rw /decr_refcount_cached_block. wp_step.
  eapply wp_mono; [apply wp_the_content_hash; [apply HI|by apply kn_live]| |done]. move=> h1 s1 [Hm [HC1 Hh1]].
  have ? : h1 = h by apply (hash_of_det py_hash _ _ _ Hh1). subst h1. clear Hh1.
  have HI1 := pc_inv_memo _ _ _ _ HI Hm HC1. have E := memo_hashless _ _ Hm. have [HA1 _] := HI1.
  have Hc1 : pa_cached_blocks s1 = pa_cached_blocks s by rw (me_state _ _ Hm).
  match goal with |- wp ?m _ _ _ => suff : wp m s1 (λ (_ : unit) s', pc_inv x held s' ∧ idset o None b s1 s') any_exn end.
  { move=> Hw. eapply wp_mono; [exact Hw| |done]. move=> u s' [? ?]. split; [done|by eapply idset_memo]. }
  clear HI. move: Hl Hb Hch. rw -E -Hc1 => Hl Hb Hch. clear s Hh Hm E Hc1. rename s1 into s.
  have Hpos := owner_tot held s o id (eq_trans (live_owner _ _ _ Hl Hb) Hid).
  have Hall := ac_known _ _ HA1 _ Hpos. have Hr := acct_refcount _ _ _ HA1 Hall.
  have HS : ∀ s', pool s' = pool (store o (set_nb_block_id None b) s) → pa_attrs s' = pa_attrs s → pa_cached_blocks s' = pa_cached_blocks s →
    na_block_size (pa_hashless s') = na_block_size (pa_hashless s) → all_block_indices (pa_hashless s') = all_block_indices (pa_hashless s) →
    content x s' ∧ idset o None b s s'.
  { move=> s' H1 H2 H3 H4 H5. split; last by split; try done; move=> y; rw /attrs_of H2.
    apply (content_cached x (store o (set_nb_block_id None b) s)); try done.
    - move=> y. by apply attrs_of_ext.
    - move=> y i h' _ _. by rw H3.
    - by apply content_store_id. }
  wp_step. apply wp_block_id_of => b' id' Hb' Hid'. rw Hb in Hb'. injection Hb' as <-. rw Hid in Hid'. injection Hid' as <-.
  wp_step. apply (wp_pc_ref_decr _ _ _ _ Hr) => _. set s1 := bump _ _ s.
  have Hb1 : obj s1 o = Some b by []. wp_step.
  - apply (wp_pc_upd_block _ _ _ _ _ _ Hb1). set s2 := store _ _ s1. destruct (HS s2) as [HC2 HS2]; try done.
    split; last done. split; last done. apply (acct_ext (minus (tot held s) id)); first by apply (minus_tot held s o b id).
    apply (acct_unshare _ _ HA1 id). lia.
  - wp_step. wp_step; last done. wp_step. wp_step. wp_step. wp_step; last done. wp_step. rw /the_tracker. wp_step. wp_step.
    destruct (pa_block_tracker s1 !! id) as [t|] eqn:Et; last by wp_step. wp_step. wp_step. rw /on_evictor. apply wp_zoom.
    match goal with |- wp (evictor_add _ _ ?n _) _ _ _ => set k := n end.
    destruct (evictor_add (Z.of_nat id) h k (bt_last_accessed t) (pa_evictor s1)) as [[[] e]|err] eqn:Ee; last by rw /wp Ee.
    rw {1}/wp Ee. have Htab := evictor_add_table _ _ _ _ _ _ Ee. wp_step. apply wp_untrack => t' Ht'.
    set s2 := set_pa_block_tracker _ _. have Hb2 : obj s2 o = Some b by [].
    apply (wp_pc_upd_block _ _ _ _ _ _ Hb2). set s3 := store _ _ s2. destruct (HS s3) as [HC3 HS3]; try done.
    split; last done. split; last done. apply (acct_ext (minus (tot held s) id)); first by apply (minus_tot held s o b id).
    eassert (books s3 = {| bk_free := bk_free (books s); bk_all := bk_all (books s); bk_refcounts := <[id := (tot held s id - 1)%Z]> (bk_refcounts (books s));
      bk_trackers := <[id := t']> (bk_trackers (books s)); bk_table := dset (bk_table (books s)) (Z.of_nat id) _; bk_cached := bk_cached (books s) |}) as ->.
    { rw /books /= Htab. reflexivity. }
    apply (acct_park _ _ HA1 id h); try done. lia.
Qed.

(** [_free_block_id]: the object lets go of its block. *)
Lemma wp_pc_free_id held s o : pc_inv None held s → plive s o →
  wp (pc_free_block_id py_hash o) s (λ _ s', pc_inv None held s' ∧ ∃ b id, obj s o = Some b ∧ nb_block_id b = Some id ∧ idset o None b s s') any_exn.
Proof.
  move=> HI Hl. rw /pc_free_block_id. wp_step. apply wp_block_id_of => b id Hb Hid. wp_step.
  eapply wp_mono; [apply wp_content_hash; [apply HI|by apply kn_live]| |done]. move=> r s1 [Hm [HC1 Hr]].
  have HI1 := pc_inv_memo _ _ _ _ HI Hm HC1. have E := memo_hashless _ _ Hm.
  have Hc1 : pa_cached_blocks s1 = pa_cached_blocks s by rw (me_state _ _ Hm).
  have Hl1 : plive s1 o by rw E. have Hb1 : obj s1 o = Some b by rw E.
  have Hblk := ct_block _ _ _ HC1 o b id ltac:(done) Hl1 Hb1 Hid.
  wp_step. apply (wp_mono _ _ (λ (_ : unit) s', pc_inv None held s' ∧ idset o None b s1 s') _ any_exn); [| |done].
  - destruct r as [h|].
    + have Hh : hash_of (view s1) o h by apply (memo_hash py_hash _ _ _ _ Hm), Hr.
      destruct (hash_of_full _ _ _ _ Hh) as (v & Hv & Hf). rw (view_obj _ _ _ Hb1) in Hv. injection Hv as <-. rw v_full_obj in Hf.
      rw Hf in Hblk. destruct Hblk as (h' & Hh' & Hch). rw (hash_of_det _ _ _ _ Hh' _ Hh) in Hch.
      by apply (wp_decr_cached None held s1 o b id h).
    + apply (wp_decr_hashless None held s1 o b id); try done. move=> _. destruct (nb_is_full b); last done.
      destruct Hblk as (h & Hh & _). apply (memo_hash py_hash _ _ _ _ Hm), Hr in Hh. done.
  - move=> u s' [HI' HS]. wp_step. apply wp_pc_block; last done. move=> b' _. wp_step; last done. split; first done.
    exists b, id. split_and!; [done|done|by eapply idset_memo].
Qed.
End ops.
