(* ===== verification/PrefixInv.v ===== *)
(** The operations of the prefix-caching allocator on whole blocks keep its
    invariant: appending with copy on write and promotion, allocating, freeing,
    forking and swapping. *)
From Stdlib Require Import ssreflect ZArith Lia.
From stdpp Require Import base numbers list gmap strings.
From S2P Require Import Prelude NaiveBlocks NaiveTheorems Evictor CacheMetric PrefixCaching PrefixBooks PrefixHash PrefixOps.

Section inv.
Context (py_hash : bool * option Z * list Z * option Z → Z).
Abbreviation hash_of := (hash_of py_hash).
Abbreviation content := (content py_hash).
Abbreviation pc_inv := (pc_inv py_hash).
Abbreviation taken := (taken py_hash).

(** The object [o] has another block id; the objects before are the same. *)
Record moved (o : nat) (v : option nat) (b : NaiveBlock) (s s' : PrefixCachingBlockAllocator) : Prop := {
  mv_live : ∀ y, plive s' y ↔ plive s y;
  mv_ne : ∀ y, y ≠ o → plive s y → obj s' y = obj s y;
  mv_obj : obj s' o = Some (set_nb_block_id v b);
  mv_extra : ∀ y, plive s y → pb_extra_hash (attrs_of s' y) = pb_extra_hash (attrs_of s y);
  mv_size : na_block_size (pa_hashless s') = na_block_size (pa_hashless s);
  mv_all : all_block_indices (pa_hashless s') = all_block_indices (pa_hashless s);
}.
Lemma idset_moved o v b s s' : obj s o = Some b → idset o v b s s' → moved o v b s s'.
Proof.
  move=> Hb HS. split; try apply HS.
  - apply (is_live HS).
  - move=> y Hy _. by apply (is_obj_ne HS).
  - by apply (is_obj HS b).
  - move=> y _. apply HS.
Qed.
Lemma moved_trans o v v' b s1 s2 s3 : plive s1 o → moved o v b s1 s2 → moved o v' (set_nb_block_id v b) s2 s3 → moved o v' b s1 s3.
Proof.
  move=> Hl [A1 A2 A3 A4 A5 A6] [B1 B2 B3 B4 B5 B6]. split; try congruence.
  - move=> y. by rw B1.
  - move=> y Hy Hly. rw B2 //; [by apply A1|by apply A2].
  - by rw B3.
  - move=> y Hy. rw B4; [by apply A1|by apply A4].
Qed.
Lemma moved_anchored o v b s s' : obj s o = Some b → moved o v b s s' → anchored s → anchored s'.
Proof.
  move=> Hb [A1 A2 A3 A4 A5 A6] Ha y b2 p /A1 Hy. rw A1. destruct (decide (y = o)) as [->|Hne].
  - rw A3 => -[= <-]. by apply (Ha o b).
  - rw A2 //. by apply Ha.
Qed.
Lemma same_moved o v b s s1 s2 : plive s o → obj s o = Some b → same_objs s s1 → idset o v b s1 s2 → moved o v b s s2.
Proof.
  move=> Hl Hb [HG Hlv Hat] HS. have Hb1 : obj s1 o = Some b by rw (gr_obj _ _ HG).
  have [A1 A2 A3 A4 A5 A6] := idset_moved _ _ _ _ _ Hb1 HS. split.
  - move=> y. by rw A1.
  - move=> y Hy Hly. rw A2 //; [by apply Hlv|by apply HG].
  - done.
  - move=> y Hy. rw A4; [by apply Hlv|by apply HG].
  - by rw A5 (gr_size _ _ HG).
  - by rw A6 (gr_all _ _ HG).
Qed.
Lemma store_idset o v b s : obj s o = Some b → idset o v b s (store o (set_nb_block_id v b) s).
Proof. done. Qed.
Lemma set_same_id b id : nb_block_id b = Some id → set_nb_block_id (Some id) b = b.
Proof. by destruct b; cbn => ->. Qed.
Lemma set_set_id v v' b : set_nb_block_id v (set_nb_block_id v' b) = set_nb_block_id v b.
Proof. done. Qed.

Lemma content_weaken x s : content None s → content x s.
Proof. move=> [C1 C2 C3 C4 C5]. split; try done. move=> o b id _. by apply C5. Qed.
Lemma content_upgrade o b s : content (Some o) s → obj s o = Some b →
  (∀ id, plive s o → nb_block_id b = Some id → if nb_is_full b then ∃ h, hash_of (view s) o h ∧ pa_cached_blocks s !! h = Some id
    else uncached (pa_cached_blocks s) id) → content None s.
Proof.
  move=> [C1 C2 C3 C4 C5] Hb Ho. split; try done. move=> y b2 id _ Hl Hb2 Hid.
  destruct (decide (y = o)) as [->|Hne]; last by apply C5; [congruence|..].
  rw Hb in Hb2. injection Hb2 as <-. by apply Ho.
Qed.
(** Attaching a reference that was held. *)
Lemma attach x held s o b id : pc_inv x (id :: held) s → plive s o → obj s o = Some b → nb_block_id b = None →
  (x ≠ Some o → if nb_is_full b then ∃ h, hash_of (view s) o h ∧ pa_cached_blocks s !! h = Some id else uncached (pa_cached_blocks s) id) →
  pc_inv x held (store o (set_nb_block_id (Some id) b) s).
Proof.
  move=> [HA HC] Hl Hb Hid Hx. split.
  - apply (acct_ext (tot (id :: held) s)); last exact HA.
    move=> i. rw tot_cons (tot_store held s o b (set_nb_block_id (Some id) b) i Hl Hb) Hid /plus /=. repeat case_decide; simplify_eq; lia.
  - apply content_store_id; try done. move=> i Ho [= <-]. by apply Hx.
Qed.

(** * Copy on write *)
Lemma wp_pc_cow held s o b id : pc_inv (Some o) held s → anchored s → plive s o → obj s o = Some b → nb_block_id b = Some id →
  uncached (pa_cached_blocks s) id →
  wp (id ← pc_cow_block_if_not_appendable o; on_hashless (upd_block o (set_nb_block_id (Some id)))) s (λ _ s', ∃ id',
    pc_inv (Some o) held s' ∧ moved o (Some id') b s s' ∧ tot held s' id' = 1%Z ∧ uncached (pa_cached_blocks s') id') any_exn.
Proof.
  move=> HI Ha Hl Hb Hid Hun. have [HA HC] := HI.
  have Hpos := owner_tot held s o id (eq_trans (live_owner _ _ _ Hl Hb) Hid).
  have Hall := ac_known _ _ HA _ Hpos. have Hr := acct_refcount _ _ _ HA Hall.
  rw /pc_cow_block_if_not_appendable. wp_step. wp_step. apply wp_block_id_of => b' id' Hb' Hid'.
  rw Hb in Hb'. injection Hb' as <-. rw Hid in Hid'. injection Hid' as <-. wp_step.
  rw {1}/on_hashless /is_appendable. apply wp_zoom. wp_step. apply wp_the_block; last done. move=> b' Hb'.
  rw Hb in Hb'. injection Hb' as <-. rw Hid. wp_step. rw /ref_get. wp_step. wp_step. rw Hr. wp_step. wp_step.
  rw set_pa_hashless_id. destruct (Z.leb_spec (tot held s id) 1) as [Hle|Hgt].
  - wp_step. apply (wp_pc_upd_block _ _ _ _ _ _ Hb). exists id. have Hs := store_idset o (Some id) b s Hb.
    have Ht : ∀ i, tot held (store o (set_nb_block_id (Some id) b) s) i = tot held s i.
    { move=> i. rw (tot_store held s o b _ i Hl Hb) Hid /=. lia. }
    split_and!; [|by apply idset_moved|rw Ht; lia|done]. split; first by eapply acct_ext; last exact HA.
    by apply content_store_id.
  - wp_step. eapply wp_mono; [by apply (wp_decr_hashless py_hash (Some o) held s o b id)| |done].
    move=> u s1 [HI1 HS1]. have Ha1 := is_anchored HS1 Hb Ha. have Hb1 := is_obj HS1 b Hb.
    wp_step. apply wp_pc_block; last done. move=> b' _. wp_step. wp_step; last done. wp_step.
    eapply wp_mono; [by apply wp_pc_allocate_id| |done]. move=> id' s2 [HI2 HO2 Hnew Hun2].
    wp_step. wp_step. wp_step. set s3 := set_pa_copy_on_writes _ s2.
    have Hl1 : plive s1 o by apply (is_live HS1). have Hl3 : plive s3 o by apply (so_live _ _ HO2).
    have Hb3 : obj s3 o = Some (set_nb_block_id None b) by rw (gr_obj _ _ (so_grown _ _ HO2)).
    apply (wp_pc_upd_block _ _ _ _ _ _ Hb3). exists id'. rw set_set_id.
    have HI3 : pc_inv (Some o) (id' :: held) s3.
    { destruct HI2 as [HA2 HC2]. split; [exact HA2|]. by apply (content_cached py_hash (Some o) s2). }
    have HI4 := attach (Some o) held s3 o (set_nb_block_id None b) id' HI3 Hl3 Hb3 eq_refl ltac:(done).
    split_and!; [exact HI4| | |done].
    + apply (moved_trans o None (Some id') b s s1); [done|by apply idset_moved|].
      apply (same_moved _ _ _ s1 s3); [done|done| |exact (store_idset o (Some id') (set_nb_block_id None b) s3 Hb3)].
      destruct HO2 as [[? ? ? ? ? ?] ? ?]. by split.
    + rw (tot_store held s3 o _ _ id' Hl3 Hb3) /=. repeat case_decide; simplify_eq.
      have -> : tot held s3 id' = tot held s2 id' by []. have -> : tot held s2 id' = tot held s1 id'; last by rw Hnew.
      rw /tot. f_equal. apply luses_same => y.
      destruct (owner (pool s1) y) as [i|] eqn:Ey.
      * apply owner_live in Ey as [Hly [b2 [Hb2 Hi]]]. symmetry. apply owner_live. split; [by apply (so_live _ _ HO2)|].
        exists b2. by rw (gr_obj _ _ (so_grown _ _ HO2)).
      * destruct (owner (pool s2) y) as [i|] eqn:Ey2; last done. apply owner_live in Ey2 as [Hly [b2 [Hb2 Hi]]].
        apply (so_live _ _ HO2) in Hly. rw (gr_obj _ _ (so_grown _ _ HO2)) // in Hb2.
        suff : owner (pool s1) y = Some i by rw Ey. apply owner_live. split; [done|by exists b2].
Qed.

(** * Promotion *)

(** What a run does to one object [o], whose new block is [b']. *)
Record rewritten (o : nat) (b' : NaiveBlock) (s s' : PrefixCachingBlockAllocator) : Prop := {
  rw_live : ∀ y, plive s' y ↔ plive s y;
  rw_ne : ∀ y, y ≠ o → plive s y → obj s' y = obj s y;
  rw_obj : obj s' o = Some b';
  rw_extra : ∀ y, plive s y → pb_extra_hash (attrs_of s' y) = pb_extra_hash (attrs_of s y);
  rw_size : na_block_size (pa_hashless s') = na_block_size (pa_hashless s);
  rw_all : all_block_indices (pa_hashless s') = all_block_indices (pa_hashless s);
}.
Lemma moved_rewritten o v b s s' : moved o v b s s' → rewritten o (set_nb_block_id v b) s s'.
Proof. by move=> [? ? ? ? ? ?]. Qed.
Lemma rewritten_trans o b b' s1 s2 s3 : plive s1 o → rewritten o b s1 s2 → rewritten o b' s2 s3 → rewritten o b' s1 s3.
Proof.
  move=> Hl [A1 A2 A3 A4 A5 A6] [B1 B2 B3 B4 B5 B6]. split; try congruence.
  - move=> y. by rw B1.
  - move=> y Hy Hly. rw B2 //; [by apply A1|by apply A2].
  - move=> y Hy. rw B4; [by apply A1|by apply A4].
Qed.
Lemma memo_rewritten o b s s' : obj s o = Some b → memo s s' → rewritten o b s s'.
Proof.
  move=> Hb Hm. have E := memo_hashless _ _ Hm. split; try (by rw E). move=> y _. by apply me_extra.
Qed.
Lemma luses_unique held s o o' id : tot held s id = 1%Z → owner (pool s) o = Some id → owner (pool s) o' = Some id → o' = o.
Proof.
  move=> Ht H1 H2. apply (luses_one (pool s) o' o id H2 H1). have := occ_nonneg id held. rw /tot in Ht. lia.
Qed.

Lemma wp_promote held s o b id h : pc_inv (Some o) held s → plive s o → obj s o = Some b → nb_block_id b = Some id →
  nb_is_full b = true → hash_of (view s) o h → tot held s id = 1%Z → uncached (pa_cached_blocks s) id →
  wp (id ← promote_to_immutable_block py_hash o; on_hashless (upd_block o (set_nb_block_id (Some id)))) s (λ _ s',
    ∃ id', pc_inv None held s' ∧ rewritten o (set_nb_block_id (Some id') b) s s') any_exn.
Proof.
  move=> HI Hl Hb Hid Hf Hh Ht Hun. rw /promote_to_immutable_block. wp_step. wp_step.
  eapply wp_mono; [apply wp_the_content_hash; [apply HI|by apply kn_live]| |done]. move=> h1 s1 [Hm [HC1 Hh1]].
  have ? : h1 = h by apply (hash_of_det py_hash _ _ _ Hh1). subst h1. clear Hh1.
  have HI1 := pc_inv_memo _ _ _ _ _ HI Hm HC1. have E := memo_hashless _ _ Hm.
  have Hc1 : pa_cached_blocks s1 = pa_cached_blocks s by rw (me_state _ _ Hm).
  have R1 := memo_rewritten o b _ _ Hb Hm.
  have Hh1 : hash_of (view s1) o h by apply (memo_hash py_hash _ _ _ _ Hm).
  have Ht1 : tot held s1 id = 1%Z by rw (memo_tot _ _ _ _ Hm).
  have Hl1 : plive s1 o by rw E. have Hb1 : obj s1 o = Some b by rw E. rw -Hc1 in Hun.
  have [HA1 _] := HI1. have Ho1 := eq_trans (live_owner _ _ _ Hl1 Hb1) Hid.
  have Hall := ac_known _ _ HA1 _ (owner_tot held s1 o id Ho1). have Hr := acct_refcount _ _ _ HA1 Hall.
  wp_step. apply wp_block_id_of => b' id' Hb' Hid'. rw Hb1 in Hb'. injection Hb' as <-. rw Hid in Hid'. injection Hid' as <-.
  wp_step. apply (wp_pc_ref_get _ _ _ _ _ Hr). wp_step. wp_step; last done. wp_step. wp_step.
  destruct (pa_cached_blocks s1 !! h) as [c|] eqn:Eh.
  - wp_step. eapply wp_mono; [by apply (wp_decr_hashless py_hash (Some o) held s1 o b id)| |done].
    move=> u s2 [HI2 HS2]. wp_step. wp_step. rw (is_cached _ _ _ _ _ HS2) Eh. wp_step.
    have Hl2 : plive s2 o by apply (is_live HS2). have Hb2 := is_obj HS2 b Hb1.
    apply (wp_pc_upd_block _ _ _ _ _ _ Hb2). set s3 := store _ _ s2. wp_step.
    have Hb3 : obj s3 o = Some (set_nb_block_id (Some c) b) by apply (store_eq o _ _ _ Hb2).
    have Hl3 : plive s3 o by apply store_live.
    have HA3 : acct (minus (tot held s3) c) (books s3).
    { destruct HI2 as [HA2 _]. eapply acct_ext; last exact HA2. move=> i. rw /minus /s3 (tot_store held s2 o _ _ i Hl2 Hb2) /=.
      repeat case_decide; simplify_eq; lia. }
    have HC3 : content (Some o) s3 by apply content_store_id; [apply HI2|done..].
    eapply wp_mono; [apply (wp_incr_cached py_hash (Some o) held s3 o _ c h HA3 HC3 Hl3 Hb3); [done|by rw /= (is_cached _ _ _ _ _ HS2)]| |done].
    move=> u2 s4 [HI4 [P4 [X4 [_ [C4 [Z4 L4]]]]]]. apply wp_block_id_of => b' id' Hb4 Hid4. rw P4 Hb3 in Hb4. injection Hb4 as <-.
    injection Hid4 as <-. have Hb4 : obj s4 o = Some (set_nb_block_id (Some c) b) by rw P4.
    apply (wp_pc_upd_block _ _ _ _ _ _ Hb4). rw set_set_id. set s5 := store _ _ s4.
    have Hl4 : plive s4 o by rw P4. exists c.
    have Hv : ∀ y, view s5 y = view s1 y.
    { move=> y. rw (view_store_id o (Some c) (set_nb_block_id (Some c) b) s4 y Hb4) -(is_view HS2 y Hb1).
      rw -(view_store_id o (Some c) (set_nb_block_id None b) s2 y Hb2). by rw /view X4 P4. }
    split.
    + have Hb5 := store_eq o (set_nb_block_id (Some c) b) _ s4 Hb4.
      split.
      * eapply acct_ext; last apply HI4. move=> i. rw (tot_store held s4 o _ (set_nb_block_id (Some c) b) i Hl4 Hb4). lia.
      * apply (content_upgrade o _ _ (content_store_id py_hash (Some o) o (Some c) _ s4 (pi_content _ _ _ _ HI4) Hl4 Hb4 ltac:(done)) Hb5).
        move=> i _ [= <-]. have -> : nb_is_full (set_nb_block_id (Some c) b) = true by []. exists h.
        split; [by apply (hash_of_ext py_hash (view s1))|]. by rw /s5 /= C4 /s3 /= (is_cached _ _ _ _ _ HS2).
    + apply (rewritten_trans o b _ s s1); [done|done|]. apply (rewritten_trans o (set_nb_block_id None b) _ s1 s2); [done|by apply moved_rewritten, idset_moved|].
      split.
      * move=> y. by rw store_live P4 store_live.
      * move=> y Hy _. by rw store_ne // P4 store_ne.
      * apply (store_eq o _ _ _ Hb4).
      * move=> y _. exact (X4 y).
      * exact Z4.
      * exact L4.
  - wp_step. wp_step. wp_step. wp_step. wp_step. set s2 := set_pa_touched_blocks _ _.
    have Hb2 : obj s2 o = Some b by []. apply (wp_pc_upd_block _ _ _ _ _ _ Hb2). exists id.
    have Hs2 : store o (set_nb_block_id (Some id) b) s2 = store o b s2 by rw set_same_id. rw !set_same_id //.
    have Hx : ∀ y i k, Some o ≠ Some y → owner (pool s1) y = Some i → pa_cached_blocks s1 !! k = Some i ↔ pa_cached_blocks s2 !! k = Some i.
    { move=> y i k Hy Hi. have Hne : i ≠ id by move=> ?; subst i; apply Hy; f_equal; symmetry; by apply (luses_unique held s1 o y id).
      cbn. destruct (decide (k = h)) as [->|?]; [rw lookup_insert_eq Eh; split; congruence|by rw lookup_insert_ne]. }
    have HC2 : content (Some o) s2 by apply (content_cached py_hash (Some o) s1).
    have HS := store_idset o (Some id) b s2 Hb2. rw set_same_id // in HS.
    have HC3 := content_store_id py_hash (Some o) o (Some id) b s2 HC2 Hl1 Hb2 ltac:(done). rw set_same_id // in HC3.
    have Hb3 := store_eq o b b s2 Hb2. split.
    + split.
      * apply (acct_ext (tot held s1)).
        { move=> i. have := tot_store held s2 o b b i Hl1 Hb2. have -> : tot held s2 i = tot held s1 i by []. lia. }
        apply (acct_cache _ _ HA1 id h); [lia|done|done].
      * apply (content_upgrade o b _ HC3 Hb3). move=> i _. rw Hid => -[= <-]. rw Hf. exists h. split.
        { apply (hash_of_ext py_hash (view s1)); [|done]. move=> y. have := view_store_id o (Some id) b s2 y Hb2. by rw set_same_id. }
        by rw /= lookup_insert_eq.
    + apply (rewritten_trans o b _ s s1); [done|done|]. split; try done.
      * move=> y. by rw store_live.
      * move=> y Hy _. by rw store_ne.
Qed.

(** * Appending *)
Lemma moved_view o v b s s' y : obj s o = Some b → moved o v b s s' → plive s y → view s' y = view s y.
Proof.
  move=> Hb [A1 A2 A3 A4 _ _] Hy. rw /view A4 //. destruct (decide (y = o)) as [->|Hne]; [by rw A3 Hb|by rw A2].
Qed.
(** A chain with a hash does not go through an object without one. *)
Lemma hash_of_without (o : nat) v v' y h : (∀ x, x ≠ o → v' x = v x) → (∀ h, ¬ hash_of v o h) → hash_of v y h → hash_of v' y h.
Proof.
  move=> Hv Ho. induction 1 as [y t n e Hy Hf|y t n p e h Hy Hf Hp IH].
  - apply (ho_first _ _ _ _ n); [|done]. rw Hv //. move=> ?; subst. apply (Ho (py_hash (true, None, t, e))). by eapply ho_first.
  - apply (ho_next _ _ _ _ n p); [|done|done]. rw Hv //. move=> ?; subst. eapply Ho. by eapply ho_next.
Qed.
Lemma content_write o b b' s : content None s → plive s o → obj s o = Some b → (∀ h, ¬ hash_of (view s) o h) →
  nb_prev_block b' = nb_prev_block b → nb_block_size b' = nb_block_size b → nb_pool_id b' = nb_pool_id b →
  content (Some o) (store o b' s).
Proof.
  move=> [C1 C2 C3 C4 C5] Hl Hb Hno Hp Hsz Hid.
  have Hv : ∀ y, y ≠ o → view (store o b' s) y = view s y by move=> y Hy; rw /view store_ne.
  split; [by apply (pool_ok_store _ _ b)|done| | |].
  - move=> y b2 /store_live Hy. destruct (decide (y = o)) as [->|?]; [rw (store_eq _ _ _ _ Hb) => -[= <-]; rw Hsz; exact (C3 o b Hy Hb)|].
    rw store_ne //. by apply C3.
  - move=> y h /(known_store _ _ _ _ _ Hb Hp) Hy Hm. by apply (hash_of_without o (view s)), C4.
  - move=> y b2 i Hx /store_live Hy. have Hne : y ≠ o by congruence. rw store_ne // => Hb2 Hi.
    have := C5 _ _ _ ltac:(done) Hy Hb2 Hi. destruct (nb_is_full b2); last done. move=> [h [? ?]]. exists h.
    split; [by apply (hash_of_without o (view s))|done].
Qed.
Definition with_tokens (b : NaiveBlock) (toks : list Z) : NaiveBlock := set_nb_token_ids (nb_token_ids b ++ toks) b.
(** A hash for every block that gets full. *)
Definition fills (s : PrefixCachingBlockAllocator) (b : NaiveBlock) (toks : list Z) : Prop :=
  ∀ p, nb_prev_block b = Some p → nb_is_full (with_tokens b toks) = true → ∃ h, hash_of (view s) p h.

Lemma wp_pc_naive_append held s o b toks : pc_inv None held s → anchored s → plive s o → obj s o = Some b →
  (∀ h, ¬ hash_of (view s) o h) → fills s b toks → toks ≠ [] →
  wp (pc_naive_append o toks) s (λ _ s', ∃ v, pc_inv (Some o) held s' ∧ rewritten o (set_nb_block_id v (with_tokens b toks)) s s' ∧
    (v = None → nb_block_id b = None) ∧ (∀ id, v = Some id → tot held s' id = 1%Z ∧ uncached (pa_cached_blocks s') id) ∧
    fills s' (with_tokens b toks) []) any_exn.
Proof.
  move=> HI Ha Hl Hb Hno Hfill Hne. have [HA HC] := HI. rw /pc_naive_append. wp_step. apply wp_pc_block; last done. move=> b0 Hb0.
  rw Hb in Hb0. injection Hb0 as <-. wp_step. apply wp_lift; last done. move=> b1 Hb1.
  have Hroom : nb_is_full b = false.
  { move: Hb1. rw /append_token_ids_no_cow bool_decide_eq_false_2 //. case_match; last done. move=> _.
    destruct toks; [done|]. rw /nb_is_full. apply Z.eqb_neq. apply Z.leb_le in H. cbn [length] in H. lia. }
  apply append_no_cow_spec in Hb1. change (b1 = with_tokens b toks) in Hb1. wp_step.
  apply (wp_pc_upd_block _ _ _ _ _ _ Hb). set s2 := store o b1 s.
  have Hid1 : nb_block_id b1 = nb_block_id b by rw Hb1.
  have Hp1 : nb_prev_block b1 = nb_prev_block b by rw Hb1.
  have HI2 : pc_inv (Some o) held s2.
  { split; [|by apply (content_write o b); rw ?Hb1]. eapply acct_ext; last exact HA. move=> i.
    rw (tot_store held s o b b1 i Hl Hb) Hid1. lia. }
  have Hl2 : plive s2 o by apply store_live. have Hb2 : obj s2 o = Some b1 by apply (store_eq _ _ _ _ Hb).
  have Ha2 : anchored s2.
  { move=> y b2 p /store_live Hy. rw store_live. destruct (decide (y = o)) as [->|?]; last by rw store_ne //; apply Ha.
    rw Hb2 => -[= <-]. rw Hp1. by apply (Ha o b). }
  have R2 : rewritten o b1 s s2.
  { split; try done; [by move=> y; rw store_live|by move=> y Hy _; rw store_ne]. }
  have F2 : fills s2 b1 [].
  { move=> p. rw Hp1 => Hp Hf. destruct (Hfill p Hp) as [h Hh].
    { move: Hf. by rw Hb1 /with_tokens /nb_is_full /num_empty_slots /= app_nil_r. }
    exists h. apply (hash_of_without o (view s)); [by move=> y Hy; rw /view store_ne|done|done]. }
  destruct (nb_block_id b1) as [id|] eqn:Hidb.
  - have Hun : uncached (pa_cached_blocks s2) id.
    { have := ct_block _ _ _ HC o b id ltac:(done) Hl Hb (eq_sym Hid1). by rw Hroom. }
    eapply wp_mono; [by apply (wp_pc_cow held s2 o b1 id)| |done]. move=> u s3 [id' [HI3 [M3 [Ht3 Hun3]]]].
    exists (Some id'). rw -Hb1. split_and!; [done| |done|by move=> i [= <-]|].
    + apply (rewritten_trans o b1 _ s s2); [done|done|by apply moved_rewritten].
    + move=> p Hp Hf. destruct (F2 p Hp Hf) as [h Hh]. exists h. apply (hash_alive py_hash s2); [done| |by eapply Ha2|done].
      move=> y Hy. by apply (moved_view o (Some id') b1).
  - wp_step. exists None. have E : set_nb_block_id None b1 = b1 by rw -Hidb; destruct b1.
    rw -Hb1 E. split_and!; [done|done|congruence|done|done].
Qed.

Lemma wp_pc_append held s o b toks : pc_inv None held s → anchored s → plive s o → obj s o = Some b → fills s b toks →
  wp (pc_append_token_ids py_hash o toks) s (λ _ s', pc_inv None held s' ∧ ∃ v,
    rewritten o (set_nb_block_id v (with_tokens b toks)) s s' ∧ (v = None → nb_block_id b = None)) any_exn.
Proof.
  move=> HI Ha Hl Hb Hfill. rw /pc_append_token_ids. wp_step.
  eapply wp_mono; [apply wp_content_hash; [apply HI|by apply kn_live]| |done]. move=> r s1 [Hm [HC1 Hr]].
  have HI1 := pc_inv_memo _ _ _ _ _ HI Hm HC1. have E := memo_hashless _ _ Hm. have R1 := memo_rewritten o b _ _ Hb Hm.
  wp_step. wp_step; last done. have ? : r = None by apply (bool_decide_eq_true_1 _ H). subst r.
  wp_step. wp_step. wp_step. wp_step; last done. destruct (bool_decide (toks = [])) eqn:Ht; [apply bool_decide_eq_true_1 in Ht|apply bool_decide_eq_false_1 in Ht].
  { wp_step. split; first done. exists (nb_block_id b). split; last done.
    have -> : set_nb_block_id (nb_block_id b) (with_tokens b toks) = b; last done.
    rw Ht /with_tokens app_nil_r. by destruct b. }
  have Hno : ∀ h, ¬ hash_of (view s1) o h by move=> h /(memo_hash py_hash _ _ _ _ Hm) /Hr.
  have Hl1 : plive s1 o by rw E. have Hb1 : obj s1 o = Some b by rw E.
  have F1 : fills s1 b toks by move=> p Hp Hf; destruct (Hfill p Hp Hf) as [h Hh]; exists h; apply (memo_hash py_hash _ _ _ _ Hm).
  wp_step. eapply wp_mono; [apply (wp_pc_naive_append held s1 o b toks); try done; by apply (memo_anchored _ _ Hm)| |done].
  move=> u s2 [v [HI2 [R2 [Hv [Hid Hf2]]]]]. wp_step. apply wp_update_total => n. set s3 := set_pa_attrs _ s2.
  have Hm3 : memo s2 s3 by apply memo_total. have Hl2 : plive s2 o by apply R2.
  have HC3 : content (Some o) s3.
  { have [C1 C2 C3 C4 C5] := pi_content _ _ _ _ HI2. split; try done.
    - move=> y h Hk Hc. apply (memo_hash py_hash _ _ _ _ Hm3). apply C4; [by eapply memo_known|]. move: Hc.
      rw (attrs_upd s2 o (set_pb_cached_num_tokens_total n) y). by case_decide; subst.
    - move=> y b2 i Hx Hy Hb2 Hi. have := C5 _ _ _ Hx Hy Hb2 Hi. destruct (nb_is_full b2); last done.
      move=> [h [? ?]]. exists h. split; [by apply (memo_hash py_hash _ _ _ _ Hm3)|done]. }
  wp_step. eapply wp_mono; [apply (wp_content_hash py_hash (Some o)); [exact HC3|by apply kn_live]| |done].
  move=> r s4 [Hm4 [HC4 Hr4]]. have Hm24 : memo s2 s4 by etrans.
  have HI4 := pc_inv_memo _ _ _ _ _ HI2 Hm24 HC4. have E4 := memo_hashless _ _ Hm24.
  have Hc4 : pa_cached_blocks s4 = pa_cached_blocks s2 by rw (me_state _ _ Hm24).
  set b' := set_nb_block_id v (with_tokens b toks). have Hb4 : obj s4 o = Some b' by rw E4; apply R2.
  have Hl4 : plive s4 o by rw E4. have R4 : rewritten o b' s s4.
  { apply (rewritten_trans o b _ s s1); [done|done|]. apply (rewritten_trans o b' _ s1 s2); [done|done|]. apply memo_rewritten; [apply R2|done]. }
  have Hfull : nb_is_full b' = true → ∃ h, hash_of (view s4) o h.
  { move=> Hf. have Hv4 := view_obj _ _ _ Hb4. destruct (nb_prev_block b) as [p|] eqn:Ep.
    - destruct (Hf2 p) as [h Hh]; [done|by rw /with_tokens /nb_is_full /num_empty_slots /= app_nil_r|]. eexists.
      apply (ho_next _ _ _ (nb_token_ids b') (nb_block_size b') p (pb_extra_hash (attrs_of s4 o)) h); [by rw Hv4 /= Ep|done|by apply (memo_hash py_hash _ _ _ _ Hm24)].
    - eexists. apply (ho_first _ _ _ (nb_token_ids b') (nb_block_size b') (pb_extra_hash (attrs_of s4 o))); [by rw Hv4 /= Ep|done]. }
  destruct r as [h|].
  - have Hh : hash_of (view s4) o h by apply (memo_hash py_hash _ _ _ _ Hm4), Hr4.
    destruct v as [id|]; last first.
    { rw /promote_to_immutable_block. wp_step. wp_step. eapply wp_mono; [apply (wp_the_content_hash py_hash (Some o)); [done|by apply kn_live]| |done].
      move=> h' s5 [Hm5 _]. wp_step. apply wp_block_id_of => b2 i Hb5 Hi. rw (memo_hashless _ _ Hm5) Hb4 in Hb5. by injection Hb5 as <-. }
    destruct (Hid id eq_refl) as [Ht1 Hun]. destruct (hash_of_full _ _ _ _ Hh) as (x & Hx & Hxf). rw (view_obj _ _ _ Hb4) in Hx. injection Hx as <-.
    eapply wp_mono; [apply (wp_promote held s4 o b' id h); try done; [by rw (memo_tot _ _ _ _ Hm24)|by rw Hc4]| |done].
    move=> u5 s5 [id' [HI5 R5]]. split; first done. exists (Some id'). split; last done. by apply (rewritten_trans o b' _ s s4).
  - wp_step. split; last by exists v. split; first apply HI4. apply (content_upgrade o b'); [done|done|].
    move=> id _ Hi. destruct (nb_is_full b') eqn:Ef.
    + destruct (Hfull eq_refl) as [h Hh]. exfalso. apply (memo_hash py_hash _ _ _ _ Hm4), Hr4 in Hh. done.
    + rw Hc4. by apply (Hid id).
Qed.
End inv.
