(* ===== verification/PrefixAlloc.v ===== *)
(** The prefix-caching allocator: allocating, freeing, forking and swapping
    blocks, and marking them, keeps the invariant. *)
From Stdlib Require Import ssreflect ZArith Lia.
From stdpp Require Import base numbers list gmap strings.
From S2P Require Import Prelude NaiveBlocks NaiveTheorems Evictor CacheMetric PrefixCaching PrefixBooks PrefixHash PrefixOps PrefixInv.

Section alloc.
Context (py_hash : bool * option Z * list Z * option Z → Z).
Abbreviation hash_of := (hash_of py_hash).
Abbreviation content := (content py_hash).
Abbreviation pc_inv := (pc_inv py_hash).

(** * Allocation *)

(** A new object with a block of its own. *)
Record made (s s' : PrefixCachingBlockAllocator) (o : nat) (prev : option nat) (toks : list Z) (extra : option Z) : Prop := {
  md_grown : grown s s';
  md_live : ∀ y, plive s' y ↔ y = o ∨ plive s y;
  md_fresh : ¬ plive s o;
  md_obj : ∃ id, obj s' o = Some {| nb_token_ids := toks; nb_block_size := na_block_size (pa_hashless s);
    nb_prev_block := prev; nb_block_id := Some id; nb_pool_id := Some o |};
  md_extra : pb_extra_hash (attrs_of s' o) = extra;
}.
Lemma made_anchored s s' o prev toks extra : made s s' o prev toks extra → anchored s → (∀ p, prev = Some p → plive s p) → anchored s'.
Proof.
  move=> [G L F [id O] X] Ha Hp y b p /L Hy Hb Hbp. apply L. destruct Hy as [->|Hy].
  - rw O in Hb. injection Hb as <-. right. by apply Hp.
  - right. rw (gr_obj _ _ G y Hy) in Hb. by eapply Ha.
Qed.
Lemma made_after s s1 s' o prev toks extra : grown s s1 → (∀ y, plive s1 y ↔ plive s y) →
  made s1 s' o prev toks extra → made s s' o prev toks extra.
Proof.
  move=> G1 L1 [G L F O X]. split; [by eapply grown_trans| | |by rw -(gr_size _ _ G1)|done].
  - move=> y. by rw L L1.
  - by rw -L1.
Qed.
Lemma made_memo s s1 s' o prev toks extra : made s s1 o prev toks extra → memo s1 s' → made s s' o prev toks extra.
Proof.
  move=> [G L F O X] Hm. have E := memo_hashless _ _ Hm. split; rw ?E ?(me_extra _ _ Hm) //.
  destruct G as [G1 G2 G3 G4 G5 G6]. split; rw ?E //. move=> y Hy. by rw (me_extra _ _ Hm) G6.
Qed.
Lemma inited_made s s' o prev toks id extra : inited s s' o prev toks (Some id) extra → made s s' o prev toks extra.
Proof.
  move=> HI. split.
  - exact (in_grown HI).
  - apply (in_live HI).
  - apply (ho_fresh _ _ _ _ (in_handed _ _ _ _ _ _ _ HI)).
  - exists id. apply (in_obj HI).
  - apply (in_extra _ _ _ _ _ _ _ HI).
Qed.

Lemma wp_pc_mutable held s prev extra : pc_inv None held s → anchored s → (∀ p, prev = Some p → plive s p) →
  wp (pc_allocate_mutable_block py_hash prev extra) s (λ o s', pc_inv None held s' ∧ made s s' o prev [] extra) any_exn.
Proof.
  move=> HI Ha Hp. rw /pc_allocate_mutable_block. wp_step. eapply wp_mono; [by apply wp_pc_allocate_id| |done].
  move=> id s1 [[HA1 HC1] HO1 Hnew Hun]. have Ha1 := same_anchored _ _ HO1 Ha.
  have Hp1 : ∀ p, prev = Some p → plive s1 p by move=> p E; apply (so_live _ _ HO1), Hp.
  wp_step. eapply wp_mono; [apply wp_pc_init_block, HC1| |done]. move=> o s2 HI2.
  have Hinv2 : pc_inv None held s2.
  { split.
    - rw (in_books HI2). eapply acct_ext; last exact HA1. move=> i. rw (in_tot HI2) tot_cons /plus. repeat case_decide; simplify_eq; lia.
    - apply (in_content py_hash HI2); [done|done|done|]. move=> i [= <-].
      have -> : nb_is_full {| nb_token_ids := []; nb_block_size := na_block_size (pa_hashless s1); nb_prev_block := prev;
        nb_block_id := Some id; nb_pool_id := Some o |} = false; last done.
      have := ct_size _ _ _ HC1. rw /nb_is_full /num_empty_slots /= => ?. apply Z.eqb_neq. lia. }
  wp_step. wp_step. wp_step. wp_step; last done. wp_step.
  have Hl : plive s2 o by apply (in_live HI2); left.
  eapply wp_mono; [apply wp_content_hash; [apply Hinv2|by apply kn_live]| |done]. move=> r s3 [Hm [HC3 _]].
  wp_step. wp_step; last done. wp_step. split; first by apply (pc_inv_memo _ _ _ s2).
  apply (made_memo s s2); [|done]. apply (made_after s s1); [apply HO1|apply HO1|exact (inited_made _ _ _ _ _ _ _ HI2)].
Qed.

(** Two objects with the same content after the same chain have the same hash. *)
Lemma same_hash v o o' t n sp fp e h : v o = Some (t, n, sp, e) → v o' = Some (t, n, fp, e) →
  match sp, fp with None, None => True | Some p, Some q => ∀ h, hash_of v p h → hash_of v q h | _, _ => False end →
  hash_of v o h → hash_of v o' h.
Proof.
  move=> Ho Ho' Hpq Hh. destruct (hash_of_full _ _ _ _ Hh) as (x & Hx & Hf). rw Ho in Hx. injection Hx as <-.
  have := hash_of_step _ _ _ _ _ _ _ _ Ho Hh. destruct sp as [p|], fp as [q|]; try done.
  - move=> [h' [Hh' ->]]. apply (ho_next _ _ _ _ n q); [done|done|by apply Hpq].
  - move=> ->. by apply (ho_first _ _ _ _ n).
Qed.

Lemma wp_pc_immutable held s prev toks extra : pc_inv None held s → anchored s → (∀ p, prev = Some p → plive s p) →
  wp (pc_allocate_immutable_block py_hash prev toks extra) s (λ o s', pc_inv None held s' ∧ made s s' o prev toks extra) any_exn.
Proof.
  move=> HI Ha Hp. have [HA HC] := HI. rw /pc_allocate_immutable_block. wp_step. eapply wp_mono; [apply wp_pc_init_block, HC| |done].
  move=> o s1 HI1. have Hl1 : plive s1 o by apply (in_live HI1); left. have Hb1 := in_obj HI1.
  have Ha1 := in_anchored HI1 Ha Hp. have HC1 : content None s1 by apply (in_content py_hash HI1).
  have Hinv1 : pc_inv None held s1.
  { split; last done. rw (in_books HI1). eapply acct_ext; last exact HA. move=> i. rw (in_tot HI1). repeat case_decide; simplify_eq; lia. }
  wp_step. eapply wp_mono; [apply wp_the_content_hash; [done|by apply kn_live]| |done]. move=> h s2 [Hm2 [HC2 Hh]].
  have Hinv2 := pc_inv_memo _ _ _ _ _ Hinv1 Hm2 HC2. have E2 := memo_hashless _ _ Hm2.
  have Hl2 : plive s2 o by rw E2. have Hb2 : obj s2 o = _ := eq_trans (f_equal (λ a, bp_pool (na_block_pool a) !! o) E2) Hb1.
  have Hh2 : hash_of (view s2) o h by apply (memo_hash py_hash _ _ _ _ Hm2).
  have G2 : grown s s2 by eapply grown_trans; [exact (in_grown HI1)|by apply (grown_memo py_hash)].
  have Lv2 : ∀ y, plive s2 y ↔ y = o ∨ plive s y by move=> y; rw E2; apply (in_live HI1).
  have Hfr : ¬ plive s o by apply (ho_fresh _ _ _ _ (in_handed _ _ _ _ _ _ _ HI1)).
  wp_step. wp_step. destruct (pa_cached_blocks s2 !! h) as [c|] eqn:Eh.
  - wp_step. wp_step. set s3 := set_pa_metric_data _ s2. wp_step. have Hb3 : obj s3 o = _ := Hb2.
    apply (wp_pc_upd_block _ _ _ _ _ _ Hb3). set s4 := store _ _ s3.
    have Hb4 : obj s4 o = _ := store_eq o _ _ s3 Hb3. have Hl4 : plive s4 o by apply store_live.
    have HC3 : content None s3 by apply (content_cached py_hash None s2).
    have HC4 : content None s4.
    { apply content_store_id; [done|done|done|]. move=> i _ [= <-]. destruct (hash_of_full _ _ _ _ Hh2) as (x & Hx & Hf).
      rw (view_obj _ _ _ Hb2) in Hx. injection Hx as <-.
      destruct (nb_is_full _) eqn:Ef; [by exists h|]. discriminate (eq_trans (eq_sym Ef) Hf). }
    have HA4 : acct (minus (tot held s4) c) (books s4).
    { eapply acct_ext; last apply Hinv2. move=> i. rw /minus (tot_store held s3 o _ _ i Hl2 Hb3) /=.
      have -> : tot held s3 i = tot held s2 i by []. repeat case_decide; simplify_eq; lia. }
    wp_step. eapply wp_mono; [by apply (wp_incr_cached py_hash None held s4 o _ c h HA4 HC4 Hl4 Hb4)| |done].
    move=> u s5 [HI5 [P5 [X5 [_ [_ [Z5 L5]]]]]]. wp_step. split; first done. split.
    + destruct G2 as [A1 A2 A3 A4 A5 A6]. split.
      * apply HI5.
      * by rw Z5.
      * by rw L5.
      * move=> y Hy. rw P5 store_live. by apply A4.
      * move=> y Hy. rw P5 store_ne; [by move=> ?; subst|by apply A5].
      * move=> y Hy. rw X5. by apply A6.
    + move=> y. by rw P5 store_live.
    + done.
    + exists c. by rw P5 Hb4.
    + rw X5. have -> : attrs_of s4 o = attrs_of s2 o by []. rw (me_extra _ _ Hm2). apply HI1.
  - wp_step. wp_step. set s3 := set_pa_metric_data _ s2. have HC3 : content None s3 by apply (content_cached py_hash None s2).
    wp_step. apply wp_pc_pool_free; [by apply HC3|done|]. set s4 := put_back o s3.
    have HC4 : content None s4 by apply content_put_back.
    have HI4 : pc_inv None held s4.
    { split; last done. eapply acct_ext; last apply Hinv2. move=> i. rw (tot_put_back py_hash) (live_owner s3 o _ Hl2 Hb2) /=.
      have -> : tot held s3 i = tot held s2 i by []. repeat case_decide; simplify_eq; lia. }
    have Lv4 : ∀ y, plive s4 y ↔ plive s y.
    { move=> y. have H1 := put_back_live py_hash o s3 y. have H2 : plive s3 y ↔ _ := Lv2 y. rw H1 H2. split; [tauto|]. move=> Hy. split; [by move=> ?; subst|by right]. }
    have G4 : grown s s4.
    { destruct G2 as [A1 A2 A3 A4 A5 A6]. split; try done; [apply HC4|by move=> y /Lv4]. }
    have Ha4 : anchored s4.
    { move=> y b p /Lv4 Hy. rw (gr_obj _ _ G4 y Hy) Lv4. by apply Ha. }
    wp_step. eapply wp_mono; [apply (wp_pc_mutable held s4 prev extra HI4 Ha4); by move=> p /Hp /Lv4| |done].
    move=> o2 s5 [HI5 M5]. have M5' := made_after _ _ _ _ _ _ _ G4 Lv4 M5. have [G5 L5 F5 [id O5] X5] := M5'.
    have Hl5 : plive s5 o2 by apply L5; left. have Ha5 := made_anchored _ _ _ _ _ _ M5' Ha Hp.
    wp_step. eapply wp_mono; [apply (wp_pc_append py_hash held s5 o2 _ toks HI5 Ha5 Hl5 O5)| |done].
    { move=> p /= Hpp _. destruct prev as [q|]; last done. injection Hpp as ->.
      have [h' [Hh' _]] := hash_of_step _ _ _ _ _ _ _ _ (view_obj _ _ _ Hb2) Hh2. exists h'.
      apply (hash_of_within py_hash (λ y, plive s y) (view s2)); [| |by apply Hp|done].
      - move=> y Hy. by rw !(grown_view s) .
      - move=> y x r Hy Hx Hr. rw (grown_view s) // in Hx. apply view_Some in Hx as (b & Hb & ->). by apply (Ha y b). }
    move=> u s6 [HI6 [v [R6 Hv]]]. wp_step. split; first done. destruct R6 as [B1 B2 B3 B4 B5 B6]. split.
    + destruct G5 as [A1 A2 A3 A4 A5 A6]. split.
      * apply HI6.
      * by rw B5.
      * by rw B6.
      * move=> y Hy. by apply B1, A4.
      * move=> y Hy. rw B2; [by move=> ?; subst|by apply A4|by apply A5].
      * move=> y Hy. rw B4; [by apply A4|by apply A6].
    + move=> y. by rw B1.
    + done.
    + destruct v as [i|]; last by have := Hv eq_refl. exists i. by rw B3.
    + by rw B4.
Qed.

Lemma wp_pc_immutables held extra l : ∀ prev acc s, pc_inv None held s → anchored s → (∀ p, prev = Some p → plive s p) →
  wp (mfold l (prev, acc) (λ '(prev_block, blocks) token_ids,
    o ← pc_allocate_immutable_block py_hash prev_block token_ids extra; mret (Some o, blocks ++ [o]))) s
    (λ _ s', pc_inv None held s') any_exn.
Proof.
  elim: l => [|toks l IH] prev acc s HI Ha Hp; cbn [mfold]; first by wp_step.
  wp_step. wp_step. eapply wp_mono; [by apply wp_pc_immutable| |done]. move=> o s1 [HI1 M1]. wp_step.
  apply IH; [done|by apply (made_anchored _ _ _ _ _ _ M1)|]. move=> p [= <-]. apply (md_live _ _ _ _ _ _ M1). by left.
Qed.

(** * Freeing *)
Lemma wp_pc_free held s o keep : pc_inv None held s → plive s o →
  wp (pc_free py_hash o keep) s (λ _ s', pc_inv None held s' ∧ (∀ y, plive s' y ↔ (keep = true ∨ y ≠ o) ∧ plive s y) ∧
    ∀ y, y ≠ o → obj s' y = obj s y) any_exn.
Proof.
  move=> HI Hl. rw /pc_free. wp_step. eapply wp_mono; [by apply wp_pc_free_id| |done].
  move=> u s1 [HI1 [b [id [Hb [Hid HS]]]]]. have Hl1 : plive s1 o by apply (is_live HS).
  have Hb1 := is_obj HS b Hb. destruct keep; cbn [negb mwhen].
  - wp_step. split_and!; [done| |]; move=> y; [rw (is_live HS); tauto|by apply (is_obj_ne HS)].
  - apply wp_pc_pool_free; [by apply HI1|done|]. split_and!.
    + split; last by apply content_put_back; [apply HI1|]. eapply acct_ext; last apply HI1. move=> i.
      rw (tot_put_back py_hash) (live_owner _ _ _ Hl1 Hb1) /=. repeat case_decide; simplify_eq; lia.
    + move=> y. rw (put_back_live py_hash) (is_live HS). split; [by move=> [? ?]; split; [right|]|by move=> [[?|?] ?]].
    + move=> y Hy. exact (is_obj_ne HS y Hy).
Qed.

(** * Forking *)
Fixpoint linked (p : BlockPool) (sp : option nat) (l : list nat) : Prop :=
  match l with
  | [] => True
  | o :: l => (∃ b, bp_pool p !! o = Some b ∧ nb_prev_block b = sp) ∧ linked p (Some o) l
  end.
Lemma linked_snoc p l o : ∀ sp, linked p sp l → (∃ b, bp_pool p !! o = Some b ∧ nb_prev_block b = match last l with Some x => Some x | None => sp end) →
  linked p sp (l ++ [o]).
Proof.
  elim: l => [|x l IH] sp /=; first by move=> _ ?. move=> [Hx Hl] Ho. split; first done. apply IH; first done.
  destruct Ho as [b [Hb Hp]]. exists b. split; first done. rw Hp. destruct l; first done. rw last_cons_cons. by destruct (last (n :: l)) eqn:E; [|apply last_None in E].
Qed.
Lemma wp_all_blocks fuel : ∀ o a, wp (all_blocks fuel o) a (λ l a', a' = a ∧ last l = Some o ∧ linked (na_block_pool a) None l ∧
  ((∀ y b p, live (na_block_pool a) y → bp_pool (na_block_pool a) !! y = Some b → nb_prev_block b = Some p → live (na_block_pool a) p) →
    live (na_block_pool a) o → Forall (live (na_block_pool a)) l)) any_exn.
Proof.
  elim: fuel => [|fuel IH] o a; cbn [all_blocks]; first by wp_step. wp_step. apply wp_the_block; last done. move=> b Hb. wp_step.
  destruct (nb_prev_block b) as [p|] eqn:Ep.
  - eapply wp_mono; [apply IH| |done]. move=> l a' [-> [Hlast [Hlk Hlv]]]. wp_step. split_and!; [done|by rw last_snoc| |].
    + apply linked_snoc; first done. exists b. by rw Hlast.
    + move=> Ha Ho. apply Forall_app. split; [by apply Hlv; [|eapply Ha]|by apply Forall_singleton].
  - wp_step. wp_step. split_and!; [done|done|by split; [exists b|]|]. move=> _ Ho. by apply Forall_singleton.
Qed.
Lemma linked_kept s s' l : grown s s' → Forall (λ y, plive s y) l → ∀ sp, linked (pool s) sp l → linked (pool s') sp l.
Proof.
  move=> G. elim: l => [//|o l IH] /Forall_cons [Ho Hl] sp /= [[b [Hb Hp]] Hlk]. split; last by apply IH.
  exists b. by rw (gr_obj _ _ G o Ho).
Qed.

(** The copy hashes like the original. *)
Definition mirrors (s : PrefixCachingBlockAllocator) (sp fp : option nat) : Prop :=
  match sp, fp with None, None => True | Some p, Some q => plive s q ∧ ∀ h, hash_of (view s) p h → hash_of (view s) q h | _, _ => False end.
Lemma wp_pc_fork_block held s sp fp acc o : pc_inv None held s → anchored s → plive s o →
  (∃ b, obj s o = Some b ∧ nb_prev_block b = sp) → mirrors s sp fp →
  wp (pc_fork_block (fp, acc) o) s (λ r s', pc_inv None held s' ∧ anchored s' ∧ grown s s' ∧
    ∃ f, r = (Some f, acc ++ [f]) ∧ mirrors s' (Some o) (Some f) ∧ ∀ b, obj s o = Some b →
      handed_out (pool s) (pool s') f {| nb_token_ids := nb_token_ids b; nb_block_size := na_block_size (pa_hashless s);
        nb_prev_block := fp; nb_block_id := nb_block_id b; nb_pool_id := Some f |}) any_exn.
Proof.
  move=> [HA HC] Ha Hl [b [Hb Hsp]] Hmir. rw /pc_fork_block. wp_step. apply wp_block_id_of => b' id Hb' Hid. rw Hb in Hb'. injection Hb' as <-.
  have Hpos := owner_tot held s o id (eq_trans (live_owner _ _ _ Hl Hb) Hid).
  have Hall := ac_known _ _ HA _ Hpos. have Hr := acct_refcount _ _ _ HA Hall.
  wp_step. apply (wp_pc_ref_incr _ _ _ _ Hr). set s1 := bump _ _ s. wp_step. wp_step; last done. wp_step.
  have Hb1 : obj s1 o = Some b by []. apply wp_pc_block; last done. move=> b' Hb'. rw Hb1 in Hb'. injection Hb' as <-.
  wp_step. wp_step. wp_step.
  have HC1 : content None s1 by apply (content_cached py_hash None s).
  have Hfp : ∀ p, fp = Some p → plive s1 p by move=> p E; subst fp; destruct sp; [destruct Hmir|].
  eapply wp_mono; [apply wp_pc_init_block, HC1| |done]. move=> f s2 HI2. wp_step.
  have Ha1 : anchored s1 by []. have Ha2 := in_anchored HI2 Ha1 Hfp. have G1 := in_grown HI2.
  have G : grown s s2 by destruct G1.
  have Hv2 : ∀ y, plive s y → view s2 y = view s y by move=> y; apply grown_view.
  have Hfresh : ¬ plive s f := ho_fresh _ _ _ _ (in_handed _ _ _ _ _ _ _ HI2).
  have Hsz := ct_sizes _ _ _ HC1 o b Hl Hb1.
  (* hashes *)
  have Hhash : ∀ h, hash_of (view s2) o h → hash_of (view s2) f h.
  { move=> h. apply (same_hash _ _ _ (nb_token_ids b) (nb_block_size b) sp fp (pb_extra_hash (attrs_of s o))).
    - rw Hv2 // (view_obj _ _ _ Hb) Hsp //.
    - rw (view_obj _ _ _ (in_obj HI2)) /= (in_extra _ _ _ _ _ _ _ HI2) Hsz //.
    - destruct sp as [p|], fp as [q|]; try done. destruct Hmir as [Hq Hpq]. move=> h' Hh'.
      have Hp : plive s p by apply (Ha o b).
      apply (hash_alive py_hash s); [done|done|done|]. apply Hpq. apply (hash_of_within py_hash (λ y, plive s y) (view s2)).
      + move=> y Hy. by rw Hv2.
      + move=> y x r Hy Hx Hpr. rw Hv2 // in Hx. apply view_Some in Hx as (b2 & Hb2 & ->). by apply (Ha y b2).
      + done.
      + done. }
  have Hinv : pc_inv None held s2.
  { split.
    - rw (in_books HI2). apply (acct_ext (plus (tot held s) id)).
      + move=> i. rw (in_tot HI2) /plus. have -> : tot held s1 i = tot held s i by []. repeat case_decide; simplify_eq; lia.
      + exact (acct_share _ _ HA id Hpos).
    - apply (in_content py_hash HI2); [done|done|done|]. move=> i [= <-].
      have Hblk := ct_block _ _ _ HC o b id ltac:(done) Hl Hb Hid.
      have -> : nb_is_full {| nb_token_ids := nb_token_ids b; nb_block_size := na_block_size (pa_hashless s1); nb_prev_block := fp;
        nb_block_id := Some id; nb_pool_id := Some f |} = nb_is_full b.
      { rw /nb_is_full /num_empty_slots /= Hsz //. }
      destruct (nb_is_full b); last done. destruct Hblk as (h & Hh & Hch). exists h. split; last done.
      apply Hhash. by apply (hash_alive py_hash s). }
  split_and!; [done|done|done|]. exists f. split_and!; first done.
  - split; [by apply (in_live HI2); left|done].
  - move=> b2. rw Hb => -[= <-]. rw Hid. exact (in_handed _ _ _ _ _ _ _ HI2).
Qed.
Lemma wp_pc_fork_blocks held l : ∀ sp fp acc s, pc_inv None held s → anchored s → Forall (λ y, plive s y) l →
  linked (pool s) sp l → mirrors s sp fp → wp (mfold l (fp, acc) pc_fork_block) s (λ _ s', pc_inv None held s') any_exn.
Proof.
  elim: l => [|o l IH] sp fp acc s HI Ha; cbn [mfold linked]; first by move=> _ _ _; wp_step.
  move=> /Forall_cons [Ho Hl] [Hb Hlk] Hm. wp_step. eapply wp_mono; [by apply (wp_pc_fork_block held s sp)| |done].
  move=> r s1 [HI1 [Ha1 [G1 [f [-> [Hm1 _]]]]]]. apply (IH (Some o)); [done|done| | |done].
  - eapply Forall_impl; [exact Hl|]. apply G1.
  - by apply (linked_kept s).
Qed.
Lemma wp_pc_fork held s o : pc_inv None held s → anchored s → plive s o → wp (pc_fork o) s (λ _ s', pc_inv None held s') any_exn.
Proof.
  move=> HI Ha Hl. rw /pc_fork. wp_step. wp_step. wp_step. rw /on_hashless. apply wp_zoom.
  eapply wp_mono; [apply wp_all_blocks| |done]. move=> l a [-> [_ [Hlk Hlv]]]. rw set_pa_hashless_id. wp_step.
  eapply wp_mono; [apply (wp_pc_fork_blocks held l None); [done|done|by apply Hlv|done|done]| |done].
  move=> [p fl] s1 HI1. by wp_step.
Qed.

(** * Swapping *)
Lemma wp_pc_swap_out held l : ∀ s, pc_inv None held s → Forall (λ y, plive s y) l →
  wp (pc_swap_out py_hash l) s (λ _ s', pc_inv None held s') any_exn.
Proof.
  rw /pc_swap_out. elim: l => [|o l IH] s HI; cbn [mfor]; first by move=> _; wp_step.
  move=> /Forall_cons [Ho Hl]. wp_step. eapply wp_mono; [by apply wp_pc_free_id| |done].
  move=> u s1 [HI1 [b [id [_ [_ HS]]]]]. apply IH; first done. eapply Forall_impl; [exact Hl|]. move=> y. by rw (is_live HS).
Qed.
(** The object has lost its block. *)
Definition pc_swapped (s : PrefixCachingBlockAllocator) (o : nat) : Prop :=
  plive s o ∧ ∀ b, obj s o = Some b → nb_block_id b = None.
Lemma wp_pc_swap_in_block held s o : pc_inv None held s → anchored s → pc_swapped s o →
  wp (pc_swap_in_block py_hash o) s (λ _ s', pc_inv None held s' ∧ anchored s' ∧
    (∀ y, y ≠ o → plive s y → plive s' y ∧ obj s' y = obj s y)) any_exn.
Proof.
  move=> HI Ha [Hl Hno]. have [HA HC] := HI. rw /pc_swap_in_block. wp_step. apply wp_pc_block; last done. move=> b Hb.
  wp_step. wp_step. have Hp : ∀ p, nb_prev_block b = Some p → plive s p by move=> p; apply (Ha o b).
  have Hsz := ct_sizes _ _ _ HC o b Hl Hb. wp_step.
  apply (wp_mono _ _ (λ tmp s1, pc_inv None held s1 ∧ made s s1 tmp (nb_prev_block b) (nb_token_ids b) (pb_extra_hash (attrs_of s o))) _ any_exn); [| |done].
  { destruct (nb_is_full b) eqn:Ef; first by apply wp_pc_immutable. wp_step. eapply wp_mono; [by apply wp_pc_mutable| |done].
    move=> tmp s1 [HI1 M1]. have [G1 L1 F1 [id O1] X1] := M1. have Hl1 : plive s1 tmp by apply L1; left.
    wp_step. eapply wp_mono; [apply (wp_pc_append py_hash held s1 tmp _ (nb_token_ids b) HI1 (made_anchored _ _ _ _ _ _ M1 Ha Hp) Hl1 O1)| |done].
    { move=> p _ Hf. exfalso. rw /nb_is_full /num_empty_slots /= -Hsz in Hf. by rw /nb_is_full /num_empty_slots Hf in Ef. }
    move=> u s2 [HI2 [v [R2 Hv]]]. wp_step. split; first done. destruct R2 as [B1 B2 B3 B4 B5 B6]. destruct G1 as [A1 A2 A3 A4 A5 A6]. split.
    - split; [by apply HI2|by rw B5|by rw B6|by move=> y Hy; apply B1, A4| |].
      + move=> y Hy. rw B2; [by move=> ?; subst|by apply A4|by apply A5].
      + move=> y Hy. rw B4; [by apply A4|by apply A6].
    - move=> y. by rw B1.
    - done.
    - destruct v as [i|]; last by have := Hv eq_refl. exists i. by rw B3.
    - by rw B4. }
  move=> tmp s1 [HI1 M1]. have [G1 L1 F1 [id O1] X1] := M1. have Hl1 : plive s1 tmp by apply L1; left.
  have [HA1 HC1] := HI1. have Ha1 := made_anchored _ _ _ _ _ _ M1 Ha Hp. have Hne : tmp ≠ o by move=> ?; subst.
  wp_step. apply wp_pc_block; last done. move=> t Ht. rw O1 in Ht. injection Ht as <-. wp_step.
  apply wp_pc_pool_free; [by apply HC1|done|]. set s2 := put_back tmp s1.
  have Hol1 : plive s1 o by apply L1; right. have Hol2 : plive s2 o by apply (put_back_live py_hash).
  have Hb1 : obj s1 o = Some b by rw (gr_obj _ _ G1). have Hb2 : obj s2 o = Some b by [].
  apply (wp_pc_upd_block _ _ _ _ _ _ Hb2). cbn [nb_block_id].
  have HI2 : pc_inv None (id :: held) s2.
  { split; last by apply content_put_back. eapply acct_ext; last exact HA1. move=> i.
    rw tot_cons /plus (tot_put_back py_hash) (live_owner _ _ _ Hl1 O1) /=. repeat case_decide; simplify_eq; lia. }
  have Ha2 : anchored s2.
  { move=> y b2 p /(put_back_live py_hash) [Hy Hly] Hb3 Hp3. apply (put_back_live py_hash). split; last by apply (Ha1 y b2).
    move=> ?; subst p. apply L1 in Hly as [?|Hly]; first done. have Hb4 : obj s y = Some b2 by rw -(gr_obj _ _ G1 y Hly).
    by apply F1, (Ha y b2). }
  split_and!.
  - apply (attach py_hash None held s2 o b id HI2 Hol2 Hb2); first by apply Hno. move=> _.
    have Hx : (None : option nat) ≠ Some tmp by [].
    pose proof (ct_block _ _ _ HC1 tmp _ id Hx Hl1 O1 eq_refl) as Hblk.
    have Ef : nb_is_full {| nb_token_ids := nb_token_ids b; nb_block_size := na_block_size (pa_hashless s); nb_prev_block := nb_prev_block b;
      nb_block_id := Some id; nb_pool_id := Some tmp |} = nb_is_full b by rw /nb_is_full /num_empty_slots /= Hsz.
    rw Ef in Hblk. destruct (nb_is_full b); last done. destruct Hblk as (h & Hh & Hch). exists h. split; last done.
    apply (hash_of_ext py_hash (view s1)); first done. move: Hh.
    apply (same_hash _ _ _ (nb_token_ids b) (nb_block_size b) (nb_prev_block b) (nb_prev_block b) (pb_extra_hash (attrs_of s o))).
    + rw (view_obj _ _ _ O1) /= X1 Hsz //.
    + rw (view_obj _ _ _ Hb1) (gr_attrs _ _ G1) //.
    + by destruct (nb_prev_block b).
  - by apply (moved_anchored o (Some id) b s2); [|apply idset_moved; [|apply store_idset]|].
  - move=> y Hy Hly. rw store_live store_ne // (put_back_live py_hash). split; [split; [by move=> ?; subst|by apply L1; right]|].
    exact (gr_obj _ _ G1 y Hly).
Qed.
Lemma wp_pc_swap_in held l : ∀ s, pc_inv None held s → anchored s → NoDup l → Forall (pc_swapped s) l →
  wp (pc_swap_in py_hash l) s (λ _ s', pc_inv None held s') any_exn.
Proof.
  rw /pc_swap_in. elim: l => [|o l IH] s HI Ha; cbn [mfor]; first by move=> _ _; wp_step.
  move=> /NoDup_cons [Hn Hnd] /Forall_cons [Ho Hl]. wp_step. eapply wp_mono; [by apply wp_pc_swap_in_block| |done].
  move=> u s1 [HI1 [Ha1 K1]]. apply IH; [done|done|done|]. rw Forall_forall in Hl. apply Forall_forall. move=> y Hy.
  have Hne : y ≠ o by move=> ?; subst. destruct (Hl y Hy) as [H1 H2]. destruct (K1 y Hne H1) as [H3 H4].
  split; first done. move=> b. rw H4. apply H2.
Qed.
End alloc.
