(* ===== verification/PrefixTheorems.v ===== *)
(** The prefix-caching allocator: the states its clients can bring it into, and
    the properties. *)
From Stdlib Require Import ssreflect ZArith Lia.
From stdpp Require Import base numbers list gmap strings.
From S2P Require Import Prelude NaiveBlocks NaiveTheorems Evictor CacheMetric PrefixCaching PrefixBooks PrefixHash PrefixOps PrefixInv PrefixAlloc.

Section theorems.
Context (py_hash : bool * option Z * list Z * option Z → Z).
Abbreviation hash_of := (hash_of py_hash).
Abbreviation content := (content py_hash).
Abbreviation pc_inv := (pc_inv py_hash).

(** * Marking blocks *)
Lemma pc_inv_books x held s s' : pc_inv x held s → pool s' = pool s → pa_attrs s' = pa_attrs s →
  na_block_size (pa_hashless s') = na_block_size (pa_hashless s) → pa_cached_blocks s' = pa_cached_blocks s →
  acct (tot held s) (books s') → pc_inv x held s'.
Proof.
  move=> [_ HC] Hp Hat Hsz Hc HA. split.
  - eapply acct_ext; last exact HA. move=> i. by rw /tot Hp.
  - apply (content_cached py_hash x s); [done|by move=> o; apply attrs_of_ext|done|by move=> o i h _ _; rw Hc|done].
Qed.
Lemma wp_the_tracker id s Q : (∀ t, pa_block_tracker s !! id = Some t → Q t s) → wp (the_tracker id) s Q any_exn.
Proof. move=> HQ. rw /the_tracker. wp_step. wp_step. destruct (pa_block_tracker s !! id) eqn:E; wp_step; [by apply HQ|done]. Qed.
Lemma pc_inv_tracker held s id t t' : pc_inv None held s → pa_block_tracker s !! id = Some t → bt_active t' = bt_active t →
  pc_inv None held (set_pa_block_tracker (<[id := t']> (pa_block_tracker s)) s).
Proof.
  move=> HI Ht Ha. apply (pc_inv_books _ _ s); try done. have HA := pi_acct _ _ _ _ HI.
  apply (acct_trackers _ _ HA (<[id := t']> (pa_block_tracker s)) (free_table (pa_evictor s))).
  - move=> i t0 /= Hi. destruct (decide (i = id)) as [->|?]; [|by exists t0; rw lookup_insert_ne].
    exists t'. rw lookup_insert_eq. split; first done. rw Ht in Hi. by injection Hi as <-.
  - apply HA.
  - move=> z m Hm. by exists m.
  - done.
Qed.
Lemma wp_mark_accessed held now id s : pc_inv None held s → wp (mark_block_as_accessed now id) s (λ _ s', pc_inv None held s') any_exn.
Proof.
  move=> HI. have HA := pi_acct _ _ _ _ HI. rw /mark_block_as_accessed. wp_step. apply wp_the_tracker => t Ht. wp_step. wp_step.
  destruct (bt_active t) eqn:Ea; cbn.
  - rw /set_tracker. by apply (pc_inv_tracker _ _ _ t).
  - wp_step; last by wp_step. rw /on_evictor. apply wp_zoom. rw /evictor_update. wp_step. wp_step.
    destruct (dget (free_table (pa_evictor s)) (Z.of_nat id)) as [m|] eqn:Em; last by wp_step. wp_step.
    apply (pc_inv_books _ _ s); try done.
    apply (acct_trackers _ _ HA (pa_block_tracker s) (dset (free_table (pa_evictor s)) (Z.of_nat id) (set_bm_last_accessed now m))).
    + move=> i t0 Hi. by exists t0.
    + by apply dict_wf_dset, HA.
    + move=> z m'. rw dget_dset. case_decide as Hz; [move=> [= <-]; subst z; by exists m|by exists m'].
    + move=> z Hz. rw dget_dset. case_decide; [by eexists|exact Hz].
Qed.
Lemma wp_mark_computed held s : pc_inv None held s → wp mark_blocks_as_computed s (λ _ s', pc_inv None held s') any_exn.
Proof.
  move=> HI. rw /mark_blocks_as_computed. wp_step. wp_step. wp_step. eapply wp_mono; [apply (wp_for _ _ (pc_inv None held)); [done|]| |done].
  - move=> id s1 _ HI1. wp_step. apply wp_the_tracker => t Ht. rw /set_tracker. wp_step. by apply (pc_inv_tracker _ _ _ t).
  - move=> u s1 HI1. wp_step. apply (pc_inv_books _ _ s1); try done. apply HI1.
Qed.

(** * Runs *)

(** The calls of block tables: they hand over objects they were handed, append in
    order, and give back whole chains before they ask for more. *)
Definition prev_live (s : PrefixCachingBlockAllocator) (prev : option nat) : Prop := ∀ p, prev = Some p → plive s p.
Inductive pc_reach : PrefixCachingBlockAllocator → Prop :=
  | pr_init n bs ids s : 0 < bs → (∀ l, ids = Some l → NoDup l) → prefix_caching_init n bs ids = Ok s → pc_reach s
  | pr_mutable s prev extra o s' : pc_reach s → anchored s → prev_live s prev →
      pc_allocate_mutable_block py_hash prev extra s = Ok (o, s') → pc_reach s'
  | pr_immutable s prev toks extra o s' : pc_reach s → anchored s → prev_live s prev →
      pc_allocate_immutable_block py_hash prev toks extra s = Ok (o, s') → pc_reach s'
  | pr_immutables s prev l extra r s' : pc_reach s → anchored s → prev_live s prev →
      pc_allocate_immutable_blocks py_hash prev l extra s = Ok (r, s') → pc_reach s'
  | pr_append s o b toks s' : pc_reach s → anchored s → plive s o → obj s o = Some b → fills py_hash s b toks →
      pc_append_token_ids py_hash o toks s = Ok (tt, s') → pc_reach s'
  | pr_free s o keep s' : pc_reach s → plive s o → pc_free py_hash o keep s = Ok (tt, s') → pc_reach s'
  | pr_fork s o r s' : pc_reach s → anchored s → plive s o → pc_fork o s = Ok (r, s') → pc_reach s'
  | pr_swap_out s l s' : pc_reach s → Forall (λ o, plive s o) l → pc_swap_out py_hash l s = Ok (tt, s') → pc_reach s'
  | pr_swap_in s l s' : pc_reach s → anchored s → NoDup l → Forall (pc_swapped s) l →
      pc_swap_in py_hash l s = Ok (tt, s') → pc_reach s'
  | pr_accessed s ids now s' : pc_reach s → mark_blocks_as_accessed ids now s = Ok (tt, s') → pc_reach s'
  | pr_computed s s' : pc_reach s → mark_blocks_as_computed s = Ok (tt, s') → pc_reach s'
  | pr_hash s o r s' : pc_reach s → plive s o → content_hash py_hash o s = Ok (r, s') → pc_reach s'
  | pr_cows s r s' : pc_reach s → pc_clear_copy_on_writes s = Ok (r, s') → pc_reach s'.

Lemma pc_inv_init n bs ids s : 0 < bs → (∀ l, ids = Some l → NoDup l) → prefix_caching_init n bs ids = Ok s → pc_inv None [] s.
Proof.
  move=> Hbs Hnd. rw /prefix_caching_init /naive_init /mbind /result_bind. set l := default (seq 0 n) ids.
  have Hl : NoDup l by rw /l; destruct ids as [l0|]; [by apply Hnd|apply NoDup_seq]. case_bool_decide; last done. move=> [= <-].
  have Hown : ∀ o, owner (pool_init bs (n * 4)) o = None.
  { move=> o. rw /owner /pool_init /=. case_decide; first done.
    destruct (replicate (n * 4) (blank_block bs) !! o) as [b|] eqn:E; last done. by apply lookup_replicate in E as [-> _]. }
  have Ht : ∀ i, (luses (pool_init bs (n * 4)) i + occ i [] = 0)%Z.
  { move=> i. rw occ_nil /luses. suff : ouses (length (bp_pool (pool_init bs (n * 4)))) (owner (pool_init bs (n * 4))) i = 0%Z by lia.
    elim: (length _) => [//|k IH]. by rw ouses_S IH Hown. }
  split.
  - split; cbn; rw /tot /=.
    + move=> i. rw /refcounter_init lookup_gset_to_gmap. rw option_guard_bool_decide. case_bool_decide; split; try done.
    + move=> i k. rw /refcounter_init lookup_gset_to_gmap_Some Ht. by move=> [_ <-].
    + move=> i. by rw Ht.
    + move=> i. by rw Ht.
    + move=> i Hi. exists tracker_init. rw lookup_gset_to_gmap_Some Ht. split; first done. done.
    + done.
    + move=> i Hi. rw Ht. split; last done. by apply elem_of_list_to_set.
    + apply dict_wf_nil.
    + done.
    + move=> i Hi _. left. by apply elem_of_list_to_set in Hi.
    + done.
    + done.
  - split; cbn; [apply pool_ok_init|done| | |].
    + move=> o b Hl' /lookup_replicate [-> _]. done.
    + done.
    + move=> o b id _ Ho Hb Hid. have := Hown o. rw /owner decide_False; first apply Ho. rw /= Hb /=. congruence.
Qed.
Lemma pc_reach_inv s : pc_reach s → pc_inv None [] s.
Proof.
  induction 1 as [| | | | | | |s l s' _ IH HF Hr|s l s' _ IH Ha Hnd HF Hr|s ids now s' _ IH Hr|s s' _ IH Hr|s o r s' _ IH Hl Hr|s r s' _ IH Hr].
  - by eapply pc_inv_init.
  - exact (proj1 (wp_ok _ _ _ any_exn _ _ (wp_pc_mutable py_hash _ _ _ extra IHpc_reach H0 H1) H2)).
  - exact (proj1 (wp_ok _ _ _ any_exn _ _ (wp_pc_immutable py_hash _ _ _ toks extra IHpc_reach H0 H1) H2)).
  - move: H2. rw /pc_allocate_immutable_blocks => Hr. by_wp Hr. wp_step. eapply wp_mono; [by apply wp_pc_immutables| |done].
    move=> [? ?] s1 HI1. by wp_step.
  - exact (proj1 (wp_ok _ _ _ any_exn _ _ (wp_pc_append py_hash _ _ _ _ toks IHpc_reach H0 H1 H2 H3) H4)).
  - exact (proj1 (wp_ok _ _ _ any_exn _ _ (wp_pc_free py_hash _ _ _ keep IHpc_reach H0) H1)).
  - exact (wp_ok _ _ _ any_exn _ _ (wp_pc_fork py_hash _ _ _ IHpc_reach H0 H1) H2).
  - exact (wp_ok _ _ _ any_exn _ _ (wp_pc_swap_out py_hash _ _ _ IH HF) Hr).
  - exact (wp_ok _ _ _ any_exn _ _ (wp_pc_swap_in py_hash _ _ _ IH Ha Hnd HF) Hr).
  - have Hw : wp (mark_blocks_as_accessed ids now) s (λ _ s', pc_inv None [] s') any_exn; last exact (wp_ok _ _ _ any_exn _ _ Hw Hr).
    apply (wp_for _ _ (pc_inv None [])); first done. move=> id s1 _ HI. by apply wp_mark_accessed.
  - exact (wp_ok _ _ _ any_exn _ _ (wp_mark_computed _ _ IH) Hr).
  - destruct (wp_ok _ _ _ any_exn _ _ (wp_content_hash py_hash None o s (pi_content _ _ _ _ IH) (kn_live _ _ Hl)) Hr) as (Hm & HC & _).
    by apply (pc_inv_memo _ _ _ s).
  - move: Hr. rw /pc_clear_copy_on_writes. move=> [= _ <-]. apply (pc_inv_books _ _ s); try done. apply IH.
Qed.

(** * Theorems *)

(** C26: In every reachable state a reference count is the number of block objects
    that stand for the block, and every block is in exactly one of three places:
    in use and tracked; free, with no hash leading to it; or unused but cached,
    in the evictor under the hash that leads to it. The number of free blocks
    that is reported is the number of blocks nobody uses. *)
Theorem prefix_blocks_accounted s : pc_reach s →
  (∀ id, id ∈ all_block_indices (pa_hashless s) → na_refcounts (pa_hashless s) !! id = Some (luses (pool s) id) ∧
    let free := bool_decide (id ∈ free_block_indices (pa_hashless s)) in
    let unused := evictor_contains (Z.of_nat id) (pa_evictor s) in
    ∃ t, pa_block_tracker s !! id = Some t ∧
    ((0 < luses (pool s) id)%Z ∧ bt_active t = true ∧ free = false ∧ unused = false ∨
     luses (pool s) id = 0%Z ∧ bt_active t = false ∧ free = true ∧ unused = false ∧ uncached (pa_cached_blocks s) id ∨
     luses (pool s) id = 0%Z ∧ bt_active t = false ∧ free = false ∧ unused = true ∧ ∃ h, pa_cached_blocks s !! h = Some id)) ∧
  pc_get_num_free_blocks s = size (filter (λ id, luses (pool s) id = 0%Z) (all_block_indices (pa_hashless s))).
Proof.
  move=> /pc_reach_inv [HA HC]. have Ht : ∀ id, tot [] s id = luses (pool s) id by move=> id; rw /tot occ_nil; lia.
  have Hev : ∀ id, evictor_contains (Z.of_nat id) (pa_evictor s) = true ↔ is_Some (dget (bk_table (books s)) (Z.of_nat id)).
  { move=> id. rw /evictor_contains /dmem /=. destruct (dget _ _); split; try done. }
  split.
  - move=> id Hid. have Hr := acct_refcount _ _ _ HA Hid. rw Ht in Hr. split; first exact Hr. cbn.
    destruct (ac_trackers _ _ HA id Hid) as (t & Htr & Hat). exists t. split; first exact Htr. rw Ht in Hat.
    have Hnn := luses_nonneg (pool s) id. destruct (decide (luses (pool s) id = 0%Z)) as [E|E].
    + right. have Ha : bt_active t = false by rw Hat bool_decide_eq_false_2 //; lia.
      destruct (ac_rest _ _ HA id Hid) as [Hf|Hm]; first by rw Ht.
      * left. split_and!; [done|done|by apply bool_decide_eq_true_2| |by apply (ac_free_uncached _ _ HA)].
        rw /evictor_contains /dmem. have := ac_free_not_table _ _ HA id Hf. by move=> /= ->.
      * right. split_and!; [done|done| |by apply Hev|].
        -- apply bool_decide_eq_false_2. destruct Hm as [m Hm]. by apply (ac_table_not_free _ _ HA id _ m Hm).
        -- destruct Hm as [m Hm]. destruct (ac_evict _ _ HA _ _ Hm) as (i & Hi & _ & Hc). have ? : i = id by lia. subst i. by eexists.
    + left. split_and!; [lia|by rw Hat bool_decide_eq_true_2 //; lia| |].
      * apply bool_decide_eq_false_2. move=> /(ac_free _ _ HA) [_ ]. rw Ht. lia.
      * destruct (evictor_contains _ _) eqn:Ee; last done. apply Hev in Ee as [m Hm].
        destruct (ac_evict _ _ HA _ _ Hm) as (i & Hi & H0 & _). have ? : i = id by lia. subst i. rw Ht in H0. lia.
  - rw /pc_get_num_free_blocks /na_get_num_free_blocks /evictor_num_blocks.
    set L := free_block_indices (pa_hashless s) ++ (Z.to_nat <$> dkeys (free_table (pa_evictor s))).
    have Htab : ∀ z m, dget (free_table (pa_evictor s)) z = Some m → ∃ id, z = Z.of_nat id ∧ id ∈ all_block_indices (pa_hashless s) ∧
      luses (pool s) id = 0%Z ∧ id ∉ free_block_indices (pa_hashless s).
    { move=> z m Hm. destruct (ac_evict _ _ HA _ _ Hm) as (id & -> & H0 & Hc). exists id. rw Ht in H0.
      destruct (ac_cached _ _ HA _ _ Hc) as [? ?]. done. }
    have Hkey : ∀ z, z ∈ dkeys (free_table (pa_evictor s)) → ∃ id, z = Z.of_nat id ∧ id ∈ all_block_indices (pa_hashless s) ∧
      luses (pool s) id = 0%Z ∧ id ∉ free_block_indices (pa_hashless s).
    { move=> z /dget_is_Some [m Hm]. by eapply Htab. }
    have HL : NoDup L.
    { apply NoDup_app. split_and!; [apply (ac_nodup _ _ HA)| |].
      - move=> id Hf /list_elem_of_fmap [z [Ez Hz]]. subst id. destruct (Hkey z Hz) as (i & -> & _ & _ & Hn). by rw Nat2Z.id in Hf.
      - have Hwf := ac_wf _ _ HA. rw /dict_wf /= in Hwf. move: Hkey Hwf. elim: (dkeys _) => [|z l IH] Hk; first by constructor.
        move=> /NoDup_cons [Hn Hnd] /=. apply NoDup_cons. split; [|by apply IH; [move=> y Hy; apply Hk; right|]].
        move=> /list_elem_of_fmap [y [Hy Hyl]]. destruct (Hk z) as (i & -> & _); first by left.
        destruct (Hk y) as (j & -> & _); first by right. rw !Nat2Z.id in Hy. by subst. }
    have <- : length L = length (free_block_indices (pa_hashless s)) + length (free_table (pa_evictor s)).
    { rw /L length_app length_fmap /dkeys length_fmap //. }
    rw -(size_list_to_set (C := gset nat) L HL). f_equal. apply set_eq => id. rw elem_of_list_to_set elem_of_filter /L elem_of_app. split.
    + move=> [Hf|/list_elem_of_fmap [z [-> Hz]]].
      * destruct (ac_free _ _ HA id Hf) as [? H0]. rw Ht in H0. done.
      * destruct (Hkey z Hz) as (i & -> & ? & ? & _). by rw Nat2Z.id.
    + move=> [H0 Hid]. destruct (ac_rest _ _ HA id Hid) as [Hf|[m Hm]]; [by rw Ht|by left|right].
      apply list_elem_of_fmap. exists (Z.of_nat id). rw Nat2Z.id. split; first done. apply dget_is_Some. by exists m.
Qed.

(** The tokens of an object and of all objects before it, with their extra
    hashes. *)
Inductive prefix_of (v : nat → option View) : nat → list (list Z * option Z) → Prop :=
  | px_first o t n e : v o = Some (t, n, None, e) → prefix_of v o [(t, e)]
  | px_next o t n p e l : v o = Some (t, n, Some p, e) → prefix_of v p l → prefix_of v o (l ++ [(t, e)]).
(** The arguments that [hash] is given for the full blocks, and two of them that
    differ and have the same hash. *)
Inductive hashed (v : nat → option View) : bool * option Z * list Z * option Z → Prop :=
  | hd_first o t n e : v o = Some (t, n, None, e) → v_full (t, n, None, e) = true → hashed v (true, None, t, e)
  | hd_next o t n p e h : v o = Some (t, n, Some p, e) → v_full (t, n, Some p, e) = true → hash_of v p h →
      hashed v (false, Some h, t, e).
Definition hash_collision (v : nat → option View) : Prop := ∃ x y, hashed v x ∧ hashed v y ∧ x ≠ y ∧ py_hash x = py_hash y.
Lemma no_collision v : Inj (=) (=) py_hash → ¬ hash_collision v.
Proof. move=> Hinj [x [y [_ [_ [Hne /Hinj]]]]]. done. Qed.
Lemma hash_of_hashed v o h t n prev e : v o = Some (t, n, prev, e) → hash_of v o h →
  ∃ h', hashed v (bool_decide (prev = None), h', t, e) ∧ h = py_hash (bool_decide (prev = None), h', t, e) ∧
    match prev with None => h' = None | Some p => ∃ k, h' = Some k ∧ hash_of v p k end.
Proof.
  move=> Hv Hh. destruct Hh as [o t' n' e' Hv' Hf|o t' n' p e' h Hv' Hf Hp]; rw Hv in Hv'; simplify_eq.
  - exists None. split_and!; [by eapply hd_first|done|done].
  - exists (Some h). split_and!; [by eapply hd_next|done|by eexists].
Qed.
(** Objects of the same hash hold the same prefix, or there is a collision. *)
Lemma hash_prefix v o h : hash_of v o h → ∀ o', hash_of v o' h →
  (∃ l, prefix_of v o l ∧ prefix_of v o' l) ∨ hash_collision v.
Proof.
  induction 1 as [o t n e Hv Hf|o t n p e h Hv Hf Hp IH]; move=> o' H'; destruct (hash_of_full _ _ _ _ H') as ([[[t' n'] prev] e'] & Hv' & _);
    destruct (hash_of_hashed _ _ _ _ _ _ _ Hv' H') as (k & K1 & K2 & K3).
  - destruct (decide ((true, None, t, e) = (bool_decide (prev = None), k, t', e'))) as [E|E];
      last by right; do 2 eexists; split_and!; [by eapply hd_first|exact K1|done|done].
    destruct prev as [p'|]; first done. injection E as _ -> ->. left. exists [(t', e')]. split; by eapply px_first.
  - destruct (decide ((false, Some h, t, e) = (bool_decide (prev = None), k, t', e'))) as [E|E];
      last by right; do 2 eexists; split_and!; [by eapply hd_next|exact K1|done|done].
    destruct prev as [p'|]; last done. destruct K3 as (a & -> & Ha). injection E as <- -> ->.
    destruct (IH _ Ha) as [(l & H1 & H2)|]; [left|by right]. exists (l ++ [(t', e')]). split; by eapply px_next.
Qed.

(** What objects with the same block have in common. *)
Lemma shared_content s o1 o2 b1 b2 id : pc_reach s →
  plive s o1 → plive s o2 → obj s o1 = Some b1 → obj s o2 = Some b2 → nb_block_id b1 = Some id → nb_block_id b2 = Some id →
  nb_is_full b1 = nb_is_full b2 ∧
  (nb_is_full b1 = true → (∃ l, prefix_of (view s) o1 l ∧ prefix_of (view s) o2 l) ∨ hash_collision (view s)).
Proof.
  move=> /pc_reach_inv [HA HC] Hl1 Hl2 Hb1 Hb2 Hi1 Hi2.
  have Hx : ∀ o, (None : option nat) ≠ Some o by [].
  have B1 := ct_block _ _ _ HC o1 b1 id (Hx o1) Hl1 Hb1 Hi1. have B2 := ct_block _ _ _ HC o2 b2 id (Hx o2) Hl2 Hb2 Hi2.
  destruct (nb_is_full b1), (nb_is_full b2); try done.
  - destruct B1 as (h1 & H1 & C1), B2 as (h2 & H2 & C2). have ? : h1 = h2 by apply (ac_inj _ _ HA _ _ id). subst h2.
    split; first done. move=> _. by apply (hash_prefix _ _ h1).
  - destruct B1 as (h1 & _ & C1). by destruct (B2 h1).
  - destruct B2 as (h2 & _ & C2). by destruct (B1 h2).
Qed.

(** Objects share a physical block only when they hold the same content: two full
    blocks in use with the same block id have the same tokens, and so have all
    blocks before them, or the hash has collided on two blocks of the pool; a
    block that is not full never shares its id with a full one. *)
Theorem shared_blocks_same_prefix s o1 o2 b1 b2 id : pc_reach s →
  plive s o1 → plive s o2 → obj s o1 = Some b1 → obj s o2 = Some b2 → nb_block_id b1 = Some id → nb_block_id b2 = Some id →
  nb_is_full b1 = nb_is_full b2 ∧
  (nb_is_full b1 = true → (∃ l, prefix_of (view s) o1 l ∧ prefix_of (view s) o2 l) ∨ hash_collision (view s)).
Proof. exact (shared_content s o1 o2 b1 b2 id). Qed.

(** ** The memoized hash *)
Lemma chain_det p o l : chain p o l → ∀ l', chain p o l' → l = l'.
Proof.
  induction 1 as [o b Hb Hp|o b o' l Hb Hp Hc IH]; move=> l' H'; inversion H'; subst; try congruence.
  f_equal. apply IH. congruence.
Qed.
Lemma chain_mem p o l : chain p o l → ∀ x, x ∈ l → ∃ l', chain p x l' ∧ length l' ≤ length l.
Proof.
  induction 1 as [o b Hb Hp|o b o' l Hb Hp Hc IH]; move=> x.
  - move=> /list_elem_of_singleton ->. exists [o]. split; [by eapply chain_first|done].
  - move=> /elem_of_app [Hx|/list_elem_of_singleton ->].
    + destruct (IH x Hx) as (l' & ? & ?). exists l'. rw length_app /=. split; [done|lia].
    + eexists. split; [by eapply chain_next|done].
Qed.
Lemma chain_NoDup p o l : chain p o l → NoDup l.
Proof.
  induction 1 as [o b Hb Hp|o b o' l Hb Hp Hc IH]; first by apply NoDup_singleton.
  apply NoDup_app. split_and!; [done| |apply NoDup_singleton]. move=> x Hx /list_elem_of_singleton ?. subst x.
  destruct (chain_mem _ _ _ Hc o Hx) as (l' & Hl' & Hle). have := chain_det _ _ _ Hl' _ (chain_next p o b o' l Hb Hp Hc).
  move=> ?. subst l'. rw length_app /= in Hle. lia.
Qed.
Lemma chain_bounded p o l : chain p o l → length l ≤ length (bp_pool p).
Proof.
  move=> Hc. have Hnd := chain_NoDup _ _ _ Hc. have <- : length (seq 0 (length (bp_pool p))) = length (bp_pool p) by apply length_seq.
  apply submseteq_length, NoDup_submseteq; first done. move=> x Hx. destruct (chain_mem _ _ _ Hc x Hx) as (l' & Hl' & _).
  apply elem_of_seq. split; first lia. destruct Hl' as [? ? H|? ? ? ? H]; by apply lookup_lt_Some in H.
Qed.
Lemma content_hash_total o l s : chain (pool s) o l → ∀ fuel, length l ≤ fuel → ∃ r s', content_hash_loop py_hash fuel o s = Ok (r, s').
Proof.
  move=> Hc. have [k Hk] : ∃ k, pool s = k by eexists. rw Hk in Hc. move: s Hk.
  induction Hc as [o b Hb Hp|o b o' l Hb Hp Hc IH]; move=> s Hk [|fuel] Hlen; try (rw ?length_app /= in Hlen; lia); cbn [content_hash_loop].
  - rw /pc_block /on_hashless /zoom /the_block /mbind /M_bind /mget Hk Hb /= Hp.
    destruct (pb_cached_content_hash _); [by do 2 eexists|]. destruct (negb _); [by do 2 eexists|]. by do 2 eexists.
  - rw /pc_block /on_hashless /zoom /the_block /mbind /M_bind /mget Hk Hb /= Hp.
    destruct (pb_cached_content_hash _); [by do 2 eexists|]. destruct (negb _); [by do 2 eexists|].
    destruct (IH (set_pa_hashless (pa_hashless s) s) Hk fuel) as (r & s' & ->); first by rw length_app /= in Hlen; lia.
    destruct r as [h|]; by do 2 eexists.
Qed.

(** C27: The property [content_hash], which memoizes the hash in every block, is
    total on the chain of a sequence and equals the hash computed from scratch,
    along all previous blocks; asking for it changes nothing else. *)
Theorem content_hash_from_scratch s o l : pc_reach s → plive s o → chain (pool s) o l →
  ∃ r s', content_hash py_hash o s = Ok (r, s') ∧ (∀ h, r = Some h ↔ hash_of (view s) o h) ∧
    s' = set_pa_attrs (pa_attrs s') s ∧ (∀ y, view s' y = view s y).
Proof.
  move=> /pc_reach_inv [HA HC] Hl Hc. have Hb := chain_bounded _ _ _ Hc.
  destruct (content_hash_total o l s Hc (S (length (bp_pool (pool s))))) as (r & s' & Hr); first lia.
  have Hr' : content_hash py_hash o s = Ok (r, s') by []. exists r, s'. split; first done.
  destruct (wp_ok _ _ _ any_exn _ _ (wp_content_hash py_hash None o s HC (kn_live _ _ Hl)) Hr') as (Hm & _ & Hh).
  split_and!; [done|by apply Hm|]. move=> y. by apply memo_view.
Qed.

(** ** Binary search *)

(** A hash counts as cached when its block is marked as computed. *)
Definition computed_hash (s : PrefixCachingBlockAllocator) (h : Z) : bool :=
  match pa_cached_blocks s !! h with
  | None => false
  | Some id =>
    match pa_block_tracker s !! id with
    | Some t => if bt_active t then bt_computed t else evictor_contains (Z.of_nat id) (pa_evictor s)
    | None => false
    end
  end.
(** The longest prefix that is cached, by linear search. *)
Fixpoint cached_prefix (s : PrefixCachingBlockAllocator) (hashes : list Z) : list Z :=
  match hashes with
  | [] => []
  | h :: hashes => if computed_hash s h then h :: cached_prefix s hashes else []
  end.
Lemma hash_is_cached_spec s h : pc_reach s → hash_is_cached h s = Ok (computed_hash s h, s).
Proof.
  move=> /pc_reach_inv [HA _]. rw /hash_is_cached /computed_hash /block_is_computed /the_tracker /mbind /M_bind /mget.
  destruct (pa_cached_blocks s !! h) as [id|] eqn:Eh; last done. destruct (ac_cached _ _ HA _ _ Eh) as [Hall _].
  destruct (ac_trackers _ _ HA id Hall) as (t & Ht & _). cbn in Ht. by rw Ht.
Qed.
Lemma bisect_spec {A} (a : list A) (key : A → PC bool) (f : A → bool) s : (∀ x, key x s = Ok (f x, s)) →
  (∀ i j x y, i ≤ j → a !! i = Some x → a !! j = Some y → f x = true → f y = true) →
  ∀ fuel lo hi, hi - lo < fuel → lo ≤ hi ≤ length a → (∀ i x, i < lo → a !! i = Some x → f x = false) →
    (∀ i x, hi ≤ i → a !! i = Some x → f x = true) →
  ∃ k, bisect_loop fuel a key lo hi s = Ok (k, s) ∧ k ≤ length a ∧ (∀ i x, i < k → a !! i = Some x → f x = false) ∧
    (∀ i x, k ≤ i → a !! i = Some x → f x = true).
Proof.
  move=> Hk Hmono. elim=> [|fuel IH] lo hi Hfuel [Hle Hhi] Hlo Hge; first lia. cbn [bisect_loop].
  destruct (Nat.ltb_spec lo hi) as [Hlt|Hge'].
  - have Hm : lo ≤ (lo + hi) / 2 < hi.
    { split; [apply Nat.div_le_lower_bound; lia|apply Nat.Div0.div_lt_upper_bound; lia]. }
    set mid := (lo + hi) / 2 in Hm *. destruct (lookup_lt_is_Some_2 a mid) as [x Hx]; first lia. rw Hx /mbind /M_bind Hk.
    destruct (f x) eqn:Ef.
    + apply IH; [lia|lia|done|]. move=> i y Hi Hy. by apply (Hmono mid i x y).
    + apply IH; [lia|lia| |done]. move=> i y Hi Hy. destruct (f y) eqn:Ey; last done.
      have := Hmono i mid y x ltac:(lia) Hy Hx Ey. congruence.
  - exists lo. split_and!; [done|lia|done|]. move=> i x Hi. apply Hge. lia.
Qed.
Lemma cached_prefix_take s a : ∀ k, k ≤ length a → (∀ i x, i < k → a !! i = Some x → computed_hash s x = true) →
  (∀ x, a !! k = Some x → computed_hash s x = false) → take k a = cached_prefix s a.
Proof.
  elim: a => [|h a IH] [|k] Hk Hlt Hge; try done.
  - by rw /= (Hge h).
  - rw /= (Hlt 0 h); [lia|done|]. f_equal. apply IH; [simpl in Hk; lia| |exact Hge]. move=> i x Hi. apply (Hlt (S i)). lia.
Qed.

(** The binary search of [find_cached_blocks_prefix] always returns, and
    finds the longest prefix of cached and computed blocks, provided that the
    blocks before a cached block are cached as well. *)
Theorem find_cached_prefix_longest s hashes : pc_reach s →
  (∀ i j x y, i ≤ j → hashes !! i = Some x → hashes !! j = Some y → computed_hash s y = true → computed_hash s x = true) →
  find_cached_blocks_prefix hashes s = Ok (cached_prefix s hashes, s).
Proof.
  move=> HR Hdown. rw /find_cached_blocks_prefix.
  destruct (bisect_spec hashes (λ x, c ← hash_is_cached x; mret (negb c)) (λ x, negb (computed_hash s x)) s) with (fuel := S (length hashes)) (lo := 0) (hi := length hashes)
    as (k & Hk & Hle & H1 & H2).
  - move=> x. by rw /mbind /M_bind hash_is_cached_spec.
  - move=> i j x y Hij Hx Hy. destruct (computed_hash s y) eqn:Ey; last done. by rw (Hdown i j x y).
  - lia.
  - lia.
  - move=> i x Hi. lia.
  - move=> i x Hi Hx. apply lookup_lt_Some in Hx. lia.
  - rw /mbind /M_bind Hk. rw -(cached_prefix_take s hashes k Hle); [| |done].
    + move=> i x Hi Hx. by apply negb_false_iff, (H1 i).
    + move=> x Hx. by apply negb_true_iff, (H2 k).
Qed.
End theorems.

(** * Runs on concrete inputs *)
Definition demo_hash (x : bool * option Z * list Z * option Z) : Z := Z.pos (encode x).
#[export] Instance demo_hash_inj : Inj (=) (=) demo_hash.
Proof. move=> x y H. apply (encode_inj x y). rw /demo_hash in H. congruence. Qed.

#[export] Instance pc_inhabited : Inhabited PrefixCachingBlockAllocator :=
  populate {| pa_cached_blocks := ∅; pa_touched_blocks := ∅; pa_block_tracker := ∅; pa_hashless := inhabitant; pa_attrs := ∅;
              pa_evictor := evictor_init; pa_copy_on_writes := []; pa_metric_data := cache_metric_init 1000 |}.
Inductive call :=
  | Immutable (prev : option nat) (toks : list Z)
  | Free (o : nat)
  | Fork (o : nat)
  | Accessed (ids : list nat) (now : Z)
  | Computed.
Definition liveb (s : PrefixCachingBlockAllocator) (o : nat) : bool :=
  (o <? length (bp_pool (pool s))) && bool_decide (o ∉ bp_free_ids (pool s)).
Definition anchoredb (s : PrefixCachingBlockAllocator) : bool :=
  forallb (λ o, negb (liveb s o) || match obj s o ≫= nb_prev_block with Some p => liveb s p | None => true end)
    (seq 0 (length (bp_pool (pool s)))).
Definition perform (s : PrefixCachingBlockAllocator) (c : call) : option PrefixCachingBlockAllocator :=
  let returns {A} (r : result (A * PrefixCachingBlockAllocator)) := match r with Ok (_, s') => Some s' | Raise _ => None end in
  match c with
  | Immutable prev toks =>
    if anchoredb s && match prev with Some p => liveb s p | None => true end
    then returns (pc_allocate_immutable_block demo_hash prev toks None s) else None
  | Free o => if liveb s o then returns (pc_free demo_hash o false s) else None
  | Fork o => if anchoredb s && liveb s o then returns (pc_fork o s) else None
  | Accessed ids now => returns (mark_blocks_as_accessed ids now s)
  | Computed => returns (mark_blocks_as_computed s)
  end.
Definition run_calls (s : PrefixCachingBlockAllocator) (l : list call) : option PrefixCachingBlockAllocator :=
  fold_left (λ r c, s ← r; perform s c) l (Some s).
Lemma liveb_spec s o : liveb s o = true → plive s o.
Proof. rw /liveb => /andb_prop [/Nat.ltb_lt ? /bool_decide_eq_true_1 ?]. done. Qed.
Lemma anchoredb_spec s : anchoredb s = true → anchored s.
Proof.
  rw /anchoredb forallb_forall => H o b p [Hl Hn] Hb Hp. apply liveb_spec.
  have := H o. rw -list_elem_of_In elem_of_seq Hb /= Hp => Ho. have {}Ho := Ho ltac:(lia).
  apply orb_prop in Ho as [Ho|]; last done. apply negb_true_iff in Ho. move: Ho. rw /liveb (bool_decide_eq_true_2 (o ∉ _)) // andb_true_r.
  move=> /Nat.ltb_ge. lia.
Qed.
Lemma perform_reach s c s' : pc_reach demo_hash s → perform s c = Some s' → pc_reach demo_hash s'.
Proof.
  move=> HR. destruct c as [prev toks|o|o|ids now|]; cbn.
  - destruct (anchoredb s) eqn:Ea; last done. destruct (match prev with Some p => liveb s p | None => true end) eqn:Ep; last done. cbn.
    destruct (pc_allocate_immutable_block _ _ _ _ _) as [[o s1]|] eqn:E; last done. move=> [= <-].
    apply (pr_immutable _ s prev toks None o); [done|by apply anchoredb_spec| |done]. move=> p ?. subst prev. by apply liveb_spec.
  - destruct (liveb s o) eqn:El; last done. destruct (pc_free _ _ _ _) as [[[] s1]|] eqn:E; last done. move=> [= <-].
    apply (pr_free _ s o false); [done|by apply liveb_spec|done].
  - destruct (anchoredb s) eqn:Ea; last done. destruct (liveb s o) eqn:El; last done. cbn.
    destruct (pc_fork o s) as [[r s1]|] eqn:E; last done. move=> [= <-].
    apply (pr_fork _ s o r); [done|by apply anchoredb_spec|by apply liveb_spec|done].
  - destruct (mark_blocks_as_accessed ids now s) as [[[] s1]|] eqn:E; last done. move=> [= <-]. by apply (pr_accessed _ s ids now).
  - destruct (mark_blocks_as_computed s) as [[[] s1]|] eqn:E; last done. move=> [= <-]. by apply (pr_computed _ s).
Qed.
Lemma run_calls_reach l : ∀ s s', pc_reach demo_hash s → run_calls s l = Some s' → pc_reach demo_hash s'.
Proof.
  rw /run_calls. elim: l => [|c l IH] s s' HR /=; first by move=> [= <-].
  destruct (perform s c) as [s1|] eqn:E; [by apply IH, (perform_reach s c)|].
  have -> : fold_left (λ r c, s ← r; perform s c) l (None : option PrefixCachingBlockAllocator) = None by elim: l {IH}. done.
Qed.
(** Three blocks of two tokens. *)
Definition demo_cache : PrefixCachingBlockAllocator :=
  match prefix_caching_init 3 2 None with Ok s => s | Raise _ => inhabitant end.
Definition after_calls (l : list call) : PrefixCachingBlockAllocator := default inhabitant (run_calls demo_cache l).
Lemma after_calls_reach l : bool_decide (is_Some (run_calls demo_cache l)) = true → pc_reach demo_hash (after_calls l).
Proof.
  move=> /bool_decide_eq_true_1 [s Hs]. rw /after_calls Hs /=. apply (run_calls_reach l demo_cache); last done.
  apply (pr_init _ 3 2 None); [lia|done|vm_compute; reflexivity].
Qed.

(** Two sequences with a common first block; the second one is freed. *)
Definition demo_shared : PrefixCachingBlockAllocator :=
  after_calls [Immutable None [1; 2]%Z; Immutable (Some 0) [3; 4]%Z; Immutable None [1; 2]%Z; Immutable (Some 2) [5; 6]%Z; Computed; Free 3].
Lemma demo_shared_reach : pc_reach demo_hash demo_shared.
Proof. apply after_calls_reach. vm_compute; reflexivity. Qed.
Lemma prefix_blocks_accounted_witness :
  na_refcounts (pa_hashless demo_shared) !! 0 = Some 2%Z ∧ pc_get_num_free_blocks demo_shared = 1.
Proof.
  destruct (prefix_blocks_accounted demo_hash demo_shared demo_shared_reach) as [H1 H2]. split; last by rw H2; vm_compute.
  destruct (H1 0) as [-> _]; [apply (bool_decide_unpack _); vm_compute; exact I|vm_compute; reflexivity].
Defined.
Lemma shared_blocks_same_prefix_witness :
  owner (pool demo_shared) 0 = owner (pool demo_shared) 2 ∧ ∃ l, prefix_of (view demo_shared) 0 l ∧ prefix_of (view demo_shared) 2 l.
Proof.
  split; first (vm_compute; reflexivity).
  have [b1 Hb1] : is_Some (obj demo_shared 0) by apply (bool_decide_unpack _); vm_compute; exact I.
  have [b2 Hb2] : is_Some (obj demo_shared 2) by apply (bool_decide_unpack _); vm_compute; exact I.
  have Hi : nb_block_id <$> obj demo_shared 0 = Some (Some 0) ∧ nb_block_id <$> obj demo_shared 2 = Some (Some 0) ∧
    nb_is_full <$> obj demo_shared 0 = Some true by split_and!; vm_compute; reflexivity.
  rw Hb1 Hb2 /= in Hi. destruct Hi as ([= Hi1] & [= Hi2] & [= Hf]).
  have L1 : plive demo_shared 0 by apply liveb_spec; vm_compute; reflexivity.
  have L2 : plive demo_shared 2 by apply liveb_spec; vm_compute; reflexivity.
  destruct (shared_blocks_same_prefix demo_hash demo_shared 0 2 b1 b2 0 demo_shared_reach L1 L2 Hb1 Hb2 Hi1 Hi2) as [_ H].
  destruct (H Hf) as [H1|H1]; [exact H1|destruct (no_collision demo_hash _ demo_hash_inj H1)].
Defined.
Lemma content_hash_from_scratch_witness :
  ∃ r s', content_hash demo_hash 1 demo_shared = Ok (r, s') ∧ is_Some r.
Proof.
  destruct (content_hash_from_scratch demo_hash demo_shared 1 [0; 1] demo_shared_reach) as (r & s' & Hr & _).
  - apply liveb_spec. vm_compute; reflexivity.
  - have [b1 Hb1] : is_Some (obj demo_shared 0) by apply (bool_decide_unpack _); vm_compute; exact I.
    have [b2 Hb2] : is_Some (obj demo_shared 1) by apply (bool_decide_unpack _); vm_compute; exact I.
    have Hp : nb_prev_block <$> obj demo_shared 0 = Some None ∧ nb_prev_block <$> obj demo_shared 1 = Some (Some 0) by split_and!; vm_compute; reflexivity.
    rw Hb1 Hb2 /= in Hp. destruct Hp as ([= Hp1] & [= Hp2]).
    apply (chain_next _ 1 b2 0 [0] Hb2 Hp2). by apply (chain_first _ 0 b1).
  - exists r, s'. split; first exact Hr. vm_compute in Hr. injection Hr as <- _. by eexists.
Defined.
Definition hash1 : Z := demo_hash (true, None, [1; 2]%Z, None).
Definition hash2 : Z := demo_hash (false, Some hash1, [3; 4]%Z, None).
Lemma two_of_three (f : Z → bool) a b c : f a = true → f b = true → f c = false →
  ∀ i j x y, i ≤ j → [a; b; c] !! i = Some x → [a; b; c] !! j = Some y → f y = true → f x = true.
Proof.
  move=> Ha Hb Hc [|[|[|i]]] [|[|[|j]]] x y Hij //= [= <-] [= <-]; congruence || lia.
Qed.
Lemma find_cached_prefix_longest_witness :
  find_cached_blocks_prefix [hash1; hash2; 5%Z] demo_shared = Ok ([hash1; hash2], demo_shared).
Proof.
  etrans; [apply (find_cached_prefix_longest demo_hash); [apply demo_shared_reach|]|vm_compute; reflexivity].
  apply two_of_three; vm_compute; reflexivity.
Defined.

(** An outdated tuple of the evictor stops allocation. A block is freed twice
    with the same time stamp, evicted and filled with other content; its older
    tuple then passes for current, the hash it names is no longer cached, and
    the assertion of the allocator fails although all blocks are free. *)
Theorem stale_tuple_stops_allocation : ∃ s, pc_reach demo_hash s ∧ pc_get_num_free_blocks s = 3 ∧
  pc_allocate_block_id s = Raise (AssertionError "content_hash_to_evict in self._cached_blocks").
Proof.
  exists (after_calls [Immutable None [1; 2]%Z; Immutable (Some 0) [3; 4]%Z; Free 0; Free 1;
    Immutable None [1; 2]%Z; Immutable (Some 1) [3; 4]%Z; Free 1; Free 0;
    Immutable None [5; 6]%Z; Immutable None [7; 8]%Z; Free 0; Free 1]).
  split; [|split]; [|vm_compute; reflexivity..]. apply after_calls_reach. vm_compute; reflexivity.
Qed.
(** Blocks before a cached block need not be cached: a block that is used again
    and freed before its access time is recorded is evicted before its
    successors. The binary search then reports it as cached. *)
Lemma search_finds_evicted : ∃ s, pc_reach demo_hash s ∧ pa_cached_blocks s !! hash1 = None ∧
  find_cached_blocks_prefix [hash1; hash2] s = Ok ([hash1; hash2], s).
Proof.
  exists (after_calls [Immutable None [1; 2]%Z; Immutable (Some 0) [3; 4]%Z; Accessed [0; 1] 5%Z; Computed; Free 0; Free 1;
    Immutable None [1; 2]%Z; Free 1; Immutable None [5; 6]%Z; Immutable None [7; 8]%Z]).
  split; [|split]; [|vm_compute; reflexivity..]. apply after_calls_reach. vm_compute; reflexivity.
Qed.
