(* ===== verification/SequenceData.v ===== *)
(** The data of a V0 sequence: [SequenceStatus], [SequenceData] and the group
    metadata of vllm/sequence.py, and the choice between full data and deltas in
    [Scheduler.schedule] of vllm/core/scheduler.py.

    The arrays of typecode "l" hold 64-bit integers; storing a larger one raises
    [OverflowError]. Log probabilities are binary64. Of [SequenceGroupMetadata]
    the fields that some method reads or changes are kept. *)
From Stdlib Require Import ssreflect ZArith Lia PrimFloat.
From stdpp Require Import base numbers list gmap strings.
From S2P Require Import Prelude SamplingParams.

Inductive SequenceStatus :=
  | SEQ_WAITING
  | SEQ_RUNNING
  | SEQ_SWAPPED
  | SEQ_FINISHED_STOPPED
  | SEQ_FINISHED_LENGTH_CAPPED
  | SEQ_FINISHED_ABORTED
  | SEQ_FINISHED_IGNORED.
#[export] Instance SequenceStatus_eq_dec : EqDecision SequenceStatus.
Proof. solve_decision. Defined.
(** The values of the [IntEnum]. *)
Definition SequenceStatus_value (s : SequenceStatus) : Z :=
  match s with
  | SEQ_WAITING => 0 | SEQ_RUNNING => 1 | SEQ_SWAPPED => 2 | SEQ_FINISHED_STOPPED => 3
  | SEQ_FINISHED_LENGTH_CAPPED => 4 | SEQ_FINISHED_ABORTED => 5 | SEQ_FINISHED_IGNORED => 6
  end.
Definition seq_status_is_finished (s : SequenceStatus) : bool :=
  (SequenceStatus_value SEQ_SWAPPED <? SequenceStatus_value s)%Z.
Definition seq_get_finished_reason (s : SequenceStatus) : option string :=
  match s with
  | SEQ_FINISHED_STOPPED => Some "stop"
  | SEQ_FINISHED_LENGTH_CAPPED => Some "length"
  | SEQ_FINISHED_ABORTED => Some "abort"
  | SEQ_FINISHED_IGNORED => Some "length"
  | _ => None
  end%string.

Inductive SequenceStage := PREFILL | DECODE.
#[export] Instance SequenceStage_eq_dec : EqDecision SequenceStage.
Proof. solve_decision. Defined.

(** * [SequenceData] *)
Record SequenceData := {
  sd_prompt_token_ids : list Z;
  sd_output_token_ids : list Z;
  sd_cumulative_logprob : float;
  sd_prompt_token_ids_tuple : list Z;
  sd_num_computed_tokens : Z;
  sd_num_cached_tokens : Z;
  sd_stage : SequenceStage;
  sd_cached_all_token_ids : list Z;
  sd_new_appended_tokens : list Z;
  sd_mrope_position_delta : option Z;
}.
Record SequenceDataDelta := {
  new_output_token_ids : list Z;
  new_cumulative_logprob : float;
  new_num_computed_tokens : Z;
  new_stage : SequenceStage;
}.

Definition set_sd_output_token_ids (v : list Z) (r : SequenceData) : SequenceData :=
  {| sd_prompt_token_ids := sd_prompt_token_ids r; sd_output_token_ids := v; sd_cumulative_logprob := sd_cumulative_logprob r; sd_prompt_token_ids_tuple := sd_prompt_token_ids_tuple r; sd_num_computed_tokens := sd_num_computed_tokens r; sd_num_cached_tokens := sd_num_cached_tokens r; sd_stage := sd_stage r; sd_cached_all_token_ids := sd_cached_all_token_ids r; sd_new_appended_tokens := sd_new_appended_tokens r; sd_mrope_position_delta := sd_mrope_position_delta r |}.
Definition set_sd_cumulative_logprob (v : float) (r : SequenceData) : SequenceData :=
  {| sd_prompt_token_ids := sd_prompt_token_ids r; sd_output_token_ids := sd_output_token_ids r; sd_cumulative_logprob := v; sd_prompt_token_ids_tuple := sd_prompt_token_ids_tuple r; sd_num_computed_tokens := sd_num_computed_tokens r; sd_num_cached_tokens := sd_num_cached_tokens r; sd_stage := sd_stage r; sd_cached_all_token_ids := sd_cached_all_token_ids r; sd_new_appended_tokens := sd_new_appended_tokens r; sd_mrope_position_delta := sd_mrope_position_delta r |}.
Definition set_sd_num_computed_tokens (v : Z) (r : SequenceData) : SequenceData :=
  {| sd_prompt_token_ids := sd_prompt_token_ids r; sd_output_token_ids := sd_output_token_ids r; sd_cumulative_logprob := sd_cumulative_logprob r; sd_prompt_token_ids_tuple := sd_prompt_token_ids_tuple r; sd_num_computed_tokens := v; sd_num_cached_tokens := sd_num_cached_tokens r; sd_stage := sd_stage r; sd_cached_all_token_ids := sd_cached_all_token_ids r; sd_new_appended_tokens := sd_new_appended_tokens r; sd_mrope_position_delta := sd_mrope_position_delta r |}.
Definition set_sd_num_cached_tokens (v : Z) (r : SequenceData) : SequenceData :=
  {| sd_prompt_token_ids := sd_prompt_token_ids r; sd_output_token_ids := sd_output_token_ids r; sd_cumulative_logprob := sd_cumulative_logprob r; sd_prompt_token_ids_tuple := sd_prompt_token_ids_tuple r; sd_num_computed_tokens := sd_num_computed_tokens r; sd_num_cached_tokens := v; sd_stage := sd_stage r; sd_cached_all_token_ids := sd_cached_all_token_ids r; sd_new_appended_tokens := sd_new_appended_tokens r; sd_mrope_position_delta := sd_mrope_position_delta r |}.
Definition set_sd_stage (v : SequenceStage) (r : SequenceData) : SequenceData :=
  {| sd_prompt_token_ids := sd_prompt_token_ids r; sd_output_token_ids := sd_output_token_ids r; sd_cumulative_logprob := sd_cumulative_logprob r; sd_prompt_token_ids_tuple := sd_prompt_token_ids_tuple r; sd_num_computed_tokens := sd_num_computed_tokens r; sd_num_cached_tokens := sd_num_cached_tokens r; sd_stage := v; sd_cached_all_token_ids := sd_cached_all_token_ids r; sd_new_appended_tokens := sd_new_appended_tokens r; sd_mrope_position_delta := sd_mrope_position_delta r |}.
Definition set_sd_cached_all_token_ids (v : list Z) (r : SequenceData) : SequenceData :=
  {| sd_prompt_token_ids := sd_prompt_token_ids r; sd_output_token_ids := sd_output_token_ids r; sd_cumulative_logprob := sd_cumulative_logprob r; sd_prompt_token_ids_tuple := sd_prompt_token_ids_tuple r; sd_num_computed_tokens := sd_num_computed_tokens r; sd_num_cached_tokens := sd_num_cached_tokens r; sd_stage := sd_stage r; sd_cached_all_token_ids := v; sd_new_appended_tokens := sd_new_appended_tokens r; sd_mrope_position_delta := sd_mrope_position_delta r |}.
Definition set_sd_new_appended_tokens (v : list Z) (r : SequenceData) : SequenceData :=
  {| sd_prompt_token_ids := sd_prompt_token_ids r; sd_output_token_ids := sd_output_token_ids r; sd_cumulative_logprob := sd_cumulative_logprob r; sd_prompt_token_ids_tuple := sd_prompt_token_ids_tuple r; sd_num_computed_tokens := sd_num_computed_tokens r; sd_num_cached_tokens := sd_num_cached_tokens r; sd_stage := sd_stage r; sd_cached_all_token_ids := sd_cached_all_token_ids r; sd_new_appended_tokens := v; sd_mrope_position_delta := sd_mrope_position_delta r |}.
Definition set_sd_mrope_position_delta (v : option Z) (r : SequenceData) : SequenceData :=
  {| sd_prompt_token_ids := sd_prompt_token_ids r; sd_output_token_ids := sd_output_token_ids r; sd_cumulative_logprob := sd_cumulative_logprob r; sd_prompt_token_ids_tuple := sd_prompt_token_ids_tuple r; sd_num_computed_tokens := sd_num_computed_tokens r; sd_num_cached_tokens := sd_num_cached_tokens r; sd_stage := sd_stage r; sd_cached_all_token_ids := sd_cached_all_token_ids r; sd_new_appended_tokens := sd_new_appended_tokens r; sd_mrope_position_delta := v |}.

Abbreviation SD := (M SequenceData).

(** An item of an array of typecode "l". *)
Definition fits_long (x : Z) : bool := ((-9223372036854775808 <=? x) && (x <=? 9223372036854775807))%Z.
(** [array("l", l)] *)
Definition py_array (l : list Z) : result (list Z) :=
  if forallb fits_long l then Ok l else Raise (OverflowError "signed integer is out of range").
(** [array("l", [token_id]) * count] *)
Definition array_full (token_id count : Z) : result (list Z) :=
  a ← py_array [token_id]; mret (mjoin (replicate (Z.to_nat count) a)).

(** The constructor runs [__post_init__]. *)
Definition sequence_data (prompt output : list Z) : SequenceData :=
  {| sd_prompt_token_ids := prompt; sd_output_token_ids := output; sd_cumulative_logprob := 0;
     sd_prompt_token_ids_tuple := prompt; sd_num_computed_tokens := 0; sd_num_cached_tokens := 0;
     sd_stage := PREFILL; sd_cached_all_token_ids := prompt ++ output; sd_new_appended_tokens := [];
     sd_mrope_position_delta := None |}.
Definition from_seqs (prompt_token_ids : list Z) (output_token_ids : option (list Z)) : result SequenceData :=
  prompt ← py_array prompt_token_ids;
  match output_token_ids with
  | None => mret (sequence_data prompt [])
  | Some output => output ← py_array output; mret (sequence_data prompt output)
  end.
Fixpoint full_arrays (token_counts : list (Z * Z)) : result (list Z) :=
  match token_counts with
  | [] => mret []
  | (token_id, count) :: l => a ← array_full token_id count; b ← full_arrays l; mret (a ++ b)
  end.
Definition from_prompt_token_counts (token_counts : list (Z * Z)) : result SequenceData :=
  if bool_decide (token_counts = []) then from_seqs [] None
  else a ← full_arrays token_counts; mret (sequence_data a []).
Definition update_cached_all_tokens : SD unit :=
  mmodify (λ d, set_sd_cached_all_token_ids (sd_prompt_token_ids d ++ sd_output_token_ids d) d).
Definition set_output_token_ids (new_output_token_ids : list Z) : SD unit :=
  a ← mlift (py_array new_output_token_ids);
  mmodify (set_sd_output_token_ids a);;;
  update_cached_all_tokens.

Definition sd_append_token_id (token_id : Z) (logprob : float) : SD unit :=
  t ← mlift (py_array [token_id]);
  mmodify (λ d, set_sd_output_token_ids (sd_output_token_ids d ++ t) d);;;
  mmodify (λ d, set_sd_new_appended_tokens (sd_new_appended_tokens d ++ [token_id]) d);;;
  mmodify (λ d, set_sd_cached_all_token_ids (sd_cached_all_token_ids d ++ [token_id]) d);;;
  mmodify (λ d, set_sd_cumulative_logprob (sd_cumulative_logprob d + logprob)%float d).
Definition sd_get_len (d : SequenceData) : Z :=
  Z.of_nat (length (sd_output_token_ids d) + length (sd_prompt_token_ids d)).
Definition sd_get_prompt_len (d : SequenceData) : Z := Z.of_nat (length (sd_prompt_token_ids d)).
Definition sd_get_output_len (d : SequenceData) : Z := Z.of_nat (length (sd_output_token_ids d)).
Definition get_prefix_token_ids (num_tokens : Z) (d : SequenceData) : list Z * option (list Z) :=
  let prompt_length := sd_get_prompt_len d in
  if (prompt_length <? num_tokens)%Z
  then (sd_prompt_token_ids_tuple d, Some (slice (sd_output_token_ids d) 0 (num_tokens - prompt_length)))
  else (slice (sd_prompt_token_ids_tuple d) 0 num_tokens, None).
Definition sd_get_num_uncomputed_tokens (d : SequenceData) : Z := sd_get_len d - sd_num_computed_tokens d.
Definition sd_update_num_computed_tokens (num_new_computed_tokens : Z) : SD unit :=
  mmodify (λ d, set_sd_num_computed_tokens (sd_num_computed_tokens d + num_new_computed_tokens) d);;;
  d ← mget;
  massert (sd_num_computed_tokens d <=? sd_get_len d)%Z "self._num_computed_tokens <= self.get_len()";;;
  mwhen (sd_get_num_uncomputed_tokens d =? 0)%Z (mmodify (set_sd_stage DECODE)).
Definition update_num_cached_tokens (num_cached_tokens : Z) : SD unit :=
  mmodify (set_sd_num_cached_tokens num_cached_tokens).
Definition sd_reset_state_for_recompute : SD unit :=
  mmodify (set_sd_num_computed_tokens 0);;;
  mmodify (set_sd_stage PREFILL);;;
  mmodify (set_sd_new_appended_tokens []).
Definition sd_get_last_token_id (d : SequenceData) : result Z :=
  match last (if bool_decide (sd_output_token_ids d = []) then sd_prompt_token_ids d else sd_output_token_ids d) with
  | Some x => Ok x
  | None => Raise (IndexError "array index out of range")
  end.
Definition get_delta_and_reset : SD SequenceDataDelta :=
  d ← mget;
  mput (set_sd_new_appended_tokens [] d);;;
  mret {| new_output_token_ids := sd_new_appended_tokens d; new_cumulative_logprob := sd_cumulative_logprob d;
          new_num_computed_tokens := sd_num_computed_tokens d; new_stage := sd_stage d |}.
(** The new ids come from an array and fit. *)
Definition sd_apply_delta (delta : SequenceDataDelta) : SD unit :=
  mmodify (set_sd_num_computed_tokens (new_num_computed_tokens delta));;;
  mmodify (set_sd_cumulative_logprob (new_cumulative_logprob delta));;;
  mmodify (set_sd_stage (new_stage delta));;;
  t ← mlift (py_array (new_output_token_ids delta));
  mmodify (λ d, set_sd_output_token_ids (sd_output_token_ids d ++ t) d);;;
  mmodify (λ d, set_sd_cached_all_token_ids (sd_cached_all_token_ids d ++ new_output_token_ids delta) d).

(** * Group state and metadata *)
Record SequenceGroupState := { num_steps : Z; current_step : Z }.
Definition remaining_steps (s : SequenceGroupState) : Z := num_steps s - current_step s.
Definition default_group_state : SequenceGroupState := {| num_steps := 1; current_step := 0 |}.

Record LoRARequest := { lora_name : string; lora_int_id : Z; long_lora_max_len : option Z }.
Record SequenceGroupMetadataDelta := {
  gd_seq_data_delta : dict Z SequenceDataDelta;
  gd_request_id : string;
  gd_block_tables : dict Z (option (list nat));
  gd_is_prompt : bool;
  gd_do_sample : bool;
  gd_token_chunk_size : option Z;
  gd_computed_block_nums : option (list nat);
}.
Record SequenceGroupMetadata := {
  gm_request_id : string;
  gm_is_prompt : bool;
  gm_seq_data : dict Z SequenceData;
  gm_block_tables : dict Z (option (list nat));
  gm_do_sample : bool;
  gm_computed_block_nums : option (list nat);
  gm_state : option SequenceGroupState;
  gm_token_chunk_size : option Z;
  gm_sampling_params : option SamplingParams;
  gm_lora_request : option LoRARequest;
  gm_encoder_seq_data : option SequenceData;
  gm_cross_block_table : option (list nat);
}.
Definition set_gm_is_prompt (v : bool) (r : SequenceGroupMetadata) : SequenceGroupMetadata :=
  {| gm_request_id := gm_request_id r; gm_is_prompt := v; gm_seq_data := gm_seq_data r; gm_block_tables := gm_block_tables r; gm_do_sample := gm_do_sample r; gm_computed_block_nums := gm_computed_block_nums r; gm_state := gm_state r; gm_token_chunk_size := gm_token_chunk_size r; gm_sampling_params := gm_sampling_params r; gm_lora_request := gm_lora_request r; gm_encoder_seq_data := gm_encoder_seq_data r; gm_cross_block_table := gm_cross_block_table r |}.
Definition set_gm_seq_data (v : dict Z SequenceData) (r : SequenceGroupMetadata) : SequenceGroupMetadata :=
  {| gm_request_id := gm_request_id r; gm_is_prompt := gm_is_prompt r; gm_seq_data := v; gm_block_tables := gm_block_tables r; gm_do_sample := gm_do_sample r; gm_computed_block_nums := gm_computed_block_nums r; gm_state := gm_state r; gm_token_chunk_size := gm_token_chunk_size r; gm_sampling_params := gm_sampling_params r; gm_lora_request := gm_lora_request r; gm_encoder_seq_data := gm_encoder_seq_data r; gm_cross_block_table := gm_cross_block_table r |}.
Definition set_gm_block_tables (v : dict Z (option (list nat))) (r : SequenceGroupMetadata) : SequenceGroupMetadata :=
  {| gm_request_id := gm_request_id r; gm_is_prompt := gm_is_prompt r; gm_seq_data := gm_seq_data r; gm_block_tables := v; gm_do_sample := gm_do_sample r; gm_computed_block_nums := gm_computed_block_nums r; gm_state := gm_state r; gm_token_chunk_size := gm_token_chunk_size r; gm_sampling_params := gm_sampling_params r; gm_lora_request := gm_lora_request r; gm_encoder_seq_data := gm_encoder_seq_data r; gm_cross_block_table := gm_cross_block_table r |}.
Definition set_gm_do_sample (v : bool) (r : SequenceGroupMetadata) : SequenceGroupMetadata :=
  {| gm_request_id := gm_request_id r; gm_is_prompt := gm_is_prompt r; gm_seq_data := gm_seq_data r; gm_block_tables := gm_block_tables r; gm_do_sample := v; gm_computed_block_nums := gm_computed_block_nums r; gm_state := gm_state r; gm_token_chunk_size := gm_token_chunk_size r; gm_sampling_params := gm_sampling_params r; gm_lora_request := gm_lora_request r; gm_encoder_seq_data := gm_encoder_seq_data r; gm_cross_block_table := gm_cross_block_table r |}.
Definition set_gm_state (v : option SequenceGroupState) (r : SequenceGroupMetadata) : SequenceGroupMetadata :=
  {| gm_request_id := gm_request_id r; gm_is_prompt := gm_is_prompt r; gm_seq_data := gm_seq_data r; gm_block_tables := gm_block_tables r; gm_do_sample := gm_do_sample r; gm_computed_block_nums := gm_computed_block_nums r; gm_state := v; gm_token_chunk_size := gm_token_chunk_size r; gm_sampling_params := gm_sampling_params r; gm_lora_request := gm_lora_request r; gm_encoder_seq_data := gm_encoder_seq_data r; gm_cross_block_table := gm_cross_block_table r |}.
Definition set_gm_token_chunk_size (v : option Z) (r : SequenceGroupMetadata) : SequenceGroupMetadata :=
  {| gm_request_id := gm_request_id r; gm_is_prompt := gm_is_prompt r; gm_seq_data := gm_seq_data r; gm_block_tables := gm_block_tables r; gm_do_sample := gm_do_sample r; gm_computed_block_nums := gm_computed_block_nums r; gm_state := gm_state r; gm_token_chunk_size := v; gm_sampling_params := gm_sampling_params r; gm_lora_request := gm_lora_request r; gm_encoder_seq_data := gm_encoder_seq_data r; gm_cross_block_table := gm_cross_block_table r |}.

Abbreviation GM := (M SequenceGroupMetadata).

Definition group_metadata_post_init (m : SequenceGroupMetadata) : result SequenceGroupMetadata :=
  match gm_token_chunk_size m with
  | Some _ => mret m
  | None =>
    if gm_is_prompt m then
      match gm_seq_data m with
      | [] => Raise StopIteration
      | (_, d) :: _ => mret (set_gm_token_chunk_size (Some (sd_get_len d)) m)
      end
    else mret (set_gm_token_chunk_size (Some 1%Z) m)
  end.
Definition is_single_step_prompt (m : SequenceGroupMetadata) : bool := gm_is_prompt m && gm_do_sample m.
Definition get_first_seq_id (m : SequenceGroupMetadata) : result Z :=
  match gm_seq_data m with [] => Raise StopIteration | (id, _) :: _ => mret id end.
Definition gm_apply_delta (delta : SequenceGroupMetadataDelta) : GM unit :=
  mfor (gd_seq_data_delta delta) (λ '(id, dd),
    m ← mget;
    match dget (gm_seq_data m) id with
    | None => mraise (KeyError "seq_data")
    | Some d => '(_, d) ← mlift (sd_apply_delta dd d); mput (set_gm_seq_data (dset (gm_seq_data m) id d) m)
    end);;;
  m ← mget;
  massert (bool_decide (gm_request_id m = gd_request_id delta)) "self.request_id == delta.request_id";;;
  mmodify (set_gm_block_tables (gd_block_tables delta));;;
  mmodify (set_gm_token_chunk_size (gd_token_chunk_size delta));;;
  mmodify (set_gm_do_sample (gd_do_sample delta));;;
  mmodify (set_gm_is_prompt (gd_is_prompt delta)).
Definition finish_step : GM unit :=
  m ← mget;
  match gm_state m with
  | None => mraise (AssertionError "self.state is not None")
  | Some s =>
    massert (current_step s <? num_steps s)%Z "current_step < num_steps";;;
    mput (set_gm_state (Some {| num_steps := num_steps s; current_step := current_step s + 1 |}) m)
  end.

(** * What the scheduler sends for a sequence: its data, or a delta to what it
    has sent before. *)
Inductive SeqMessage := FullData (d : SequenceData) | DeltaData (d : SequenceDataDelta).
Definition do_sample_chunk (token_chunk_size : Z) (d : SequenceData) : bool :=
  if bool_decide (sd_stage d = PREFILL)
  then negb (token_chunk_size + sd_num_computed_tokens d <? sd_get_len d)%Z
  else true.
Definition send_seq_data (send_delta_data : bool) : SD SeqMessage :=
  d ← mget;
  let is_first_prefill := bool_decide (sd_stage d = PREFILL) && (sd_num_computed_tokens d =? 0)%Z in
  if is_first_prefill || negb send_delta_data then mret (FullData d)
  else delta ← get_delta_and_reset; mret (DeltaData delta).
