(* ===== verification/Sequences.v ===== *)
(** V0 sequences: [Sequence] and [SequenceGroup] of vllm/sequence.py, the stop
    conditions of vllm/engine/output_processor/stop_checker.py and the
    [Detokenizer] of vllm/transformers_utils/detokenizer.py.

    Texts are lists of code points, as in [Detokenizer.v], whose incremental
    detokenization both engines share. [inputs] of a sequence is represented by
    the prompt and its token ids; multi-modal data is passed through unread.
    Python's [hash] of a pair is the parameter [py_hash]. The first sequence of
    a group is the head of its list: [first_seq] is that same object. *)
From Stdlib Require Import ssreflect ZArith Lia PrimFloat.
From stdpp Require Import base numbers list gmap strings.
From S2P Require Import Prelude SamplingParams Detokenizer Processor SequenceData.

Record Logprob := { lp_logprob : float; lp_rank : option Z; lp_decoded_token : option text }.
Record PromptAdapterRequest := { prompt_adapter_id : Z; prompt_adapter_num_virtual_tokens : Z }.

Record Sequence := {
  sq_seq_id : Z;
  sq_prompt : option string;
  sq_prompt_token_ids : list Z;
  sq_block_size : Z;
  sq_eos_token_id : option Z;
  sq_lora_request : option LoRARequest;
  sq_prompt_adapter_request : option PromptAdapterRequest;
  sq_data : SequenceData;
  sq_output_logprobs : list (dict Z Logprob);
  sq_output_text : text;
  sq_status : SequenceStatus;
  sq_stop_reason : option StopReason;
  sq_last_output_token_ids_offset : Z;
  sq_last_output_text_offset : Z;
  sq_prefix_offset : Z;
  sq_read_offset : Z;
  sq_tokens : option (list token);
}.
Definition set_sq_seq_id (v : Z) (r : Sequence) : Sequence :=
  {| sq_seq_id := v; sq_prompt := sq_prompt r; sq_prompt_token_ids := sq_prompt_token_ids r; sq_block_size := sq_block_size r; sq_eos_token_id := sq_eos_token_id r; sq_lora_request := sq_lora_request r; sq_prompt_adapter_request := sq_prompt_adapter_request r; sq_data := sq_data r; sq_output_logprobs := sq_output_logprobs r; sq_output_text := sq_output_text r; sq_status := sq_status r; sq_stop_reason := sq_stop_reason r; sq_last_output_token_ids_offset := sq_last_output_token_ids_offset r; sq_last_output_text_offset := sq_last_output_text_offset r; sq_prefix_offset := sq_prefix_offset r; sq_read_offset := sq_read_offset r; sq_tokens := sq_tokens r |}.
Definition set_sq_data (v : SequenceData) (r : Sequence) : Sequence :=
  {| sq_seq_id := sq_seq_id r; sq_prompt := sq_prompt r; sq_prompt_token_ids := sq_prompt_token_ids r; sq_block_size := sq_block_size r; sq_eos_token_id := sq_eos_token_id r; sq_lora_request := sq_lora_request r; sq_prompt_adapter_request := sq_prompt_adapter_request r; sq_data := v; sq_output_logprobs := sq_output_logprobs r; sq_output_text := sq_output_text r; sq_status := sq_status r; sq_stop_reason := sq_stop_reason r; sq_last_output_token_ids_offset := sq_last_output_token_ids_offset r; sq_last_output_text_offset := sq_last_output_text_offset r; sq_prefix_offset := sq_prefix_offset r; sq_read_offset := sq_read_offset r; sq_tokens := sq_tokens r |}.
Definition set_sq_output_logprobs (v : list (dict Z Logprob)) (r : Sequence) : Sequence :=
  {| sq_seq_id := sq_seq_id r; sq_prompt := sq_prompt r; sq_prompt_token_ids := sq_prompt_token_ids r; sq_block_size := sq_block_size r; sq_eos_token_id := sq_eos_token_id r; sq_lora_request := sq_lora_request r; sq_prompt_adapter_request := sq_prompt_adapter_request r; sq_data := sq_data r; sq_output_logprobs := v; sq_output_text := sq_output_text r; sq_status := sq_status r; sq_stop_reason := sq_stop_reason r; sq_last_output_token_ids_offset := sq_last_output_token_ids_offset r; sq_last_output_text_offset := sq_last_output_text_offset r; sq_prefix_offset := sq_prefix_offset r; sq_read_offset := sq_read_offset r; sq_tokens := sq_tokens r |}.
Definition set_sq_output_text (v : text) (r : Sequence) : Sequence :=
  {| sq_seq_id := sq_seq_id r; sq_prompt := sq_prompt r; sq_prompt_token_ids := sq_prompt_token_ids r; sq_block_size := sq_block_size r; sq_eos_token_id := sq_eos_token_id r; sq_lora_request := sq_lora_request r; sq_prompt_adapter_request := sq_prompt_adapter_request r; sq_data := sq_data r; sq_output_logprobs := sq_output_logprobs r; sq_output_text := v; sq_status := sq_status r; sq_stop_reason := sq_stop_reason r; sq_last_output_token_ids_offset := sq_last_output_token_ids_offset r; sq_last_output_text_offset := sq_last_output_text_offset r; sq_prefix_offset := sq_prefix_offset r; sq_read_offset := sq_read_offset r; sq_tokens := sq_tokens r |}.
Definition set_sq_status (v : SequenceStatus) (r : Sequence) : Sequence :=
  {| sq_seq_id := sq_seq_id r; sq_prompt := sq_prompt r; sq_prompt_token_ids := sq_prompt_token_ids r; sq_block_size := sq_block_size r; sq_eos_token_id := sq_eos_token_id r; sq_lora_request := sq_lora_request r; sq_prompt_adapter_request := sq_prompt_adapter_request r; sq_data := sq_data r; sq_output_logprobs := sq_output_logprobs r; sq_output_text := sq_output_text r; sq_status := v; sq_stop_reason := sq_stop_reason r; sq_last_output_token_ids_offset := sq_last_output_token_ids_offset r; sq_last_output_text_offset := sq_last_output_text_offset r; sq_prefix_offset := sq_prefix_offset r; sq_read_offset := sq_read_offset r; sq_tokens := sq_tokens r |}.
Definition set_sq_stop_reason (v : option StopReason) (r : Sequence) : Sequence :=
  {| sq_seq_id := sq_seq_id r; sq_prompt := sq_prompt r; sq_prompt_token_ids := sq_prompt_token_ids r; sq_block_size := sq_block_size r; sq_eos_token_id := sq_eos_token_id r; sq_lora_request := sq_lora_request r; sq_prompt_adapter_request := sq_prompt_adapter_request r; sq_data := sq_data r; sq_output_logprobs := sq_output_logprobs r; sq_output_text := sq_output_text r; sq_status := sq_status r; sq_stop_reason := v; sq_last_output_token_ids_offset := sq_last_output_token_ids_offset r; sq_last_output_text_offset := sq_last_output_text_offset r; sq_prefix_offset := sq_prefix_offset r; sq_read_offset := sq_read_offset r; sq_tokens := sq_tokens r |}.
Definition set_sq_last_output_token_ids_offset (v : Z) (r : Sequence) : Sequence :=
  {| sq_seq_id := sq_seq_id r; sq_prompt := sq_prompt r; sq_prompt_token_ids := sq_prompt_token_ids r; sq_block_size := sq_block_size r; sq_eos_token_id := sq_eos_token_id r; sq_lora_request := sq_lora_request r; sq_prompt_adapter_request := sq_prompt_adapter_request r; sq_data := sq_data r; sq_output_logprobs := sq_output_logprobs r; sq_output_text := sq_output_text r; sq_status := sq_status r; sq_stop_reason := sq_stop_reason r; sq_last_output_token_ids_offset := v; sq_last_output_text_offset := sq_last_output_text_offset r; sq_prefix_offset := sq_prefix_offset r; sq_read_offset := sq_read_offset r; sq_tokens := sq_tokens r |}.
Definition set_sq_last_output_text_offset (v : Z) (r : Sequence) : Sequence :=
  {| sq_seq_id := sq_seq_id r; sq_prompt := sq_prompt r; sq_prompt_token_ids := sq_prompt_token_ids r; sq_block_size := sq_block_size r; sq_eos_token_id := sq_eos_token_id r; sq_lora_request := sq_lora_request r; sq_prompt_adapter_request := sq_prompt_adapter_request r; sq_data := sq_data r; sq_output_logprobs := sq_output_logprobs r; sq_output_text := sq_output_text r; sq_status := sq_status r; sq_stop_reason := sq_stop_reason r; sq_last_output_token_ids_offset := sq_last_output_token_ids_offset r; sq_last_output_text_offset := v; sq_prefix_offset := sq_prefix_offset r; sq_read_offset := sq_read_offset r; sq_tokens := sq_tokens r |}.
Definition set_sq_prefix_offset (v : Z) (r : Sequence) : Sequence :=
  {| sq_seq_id := sq_seq_id r; sq_prompt := sq_prompt r; sq_prompt_token_ids := sq_prompt_token_ids r; sq_block_size := sq_block_size r; sq_eos_token_id := sq_eos_token_id r; sq_lora_request := sq_lora_request r; sq_prompt_adapter_request := sq_prompt_adapter_request r; sq_data := sq_data r; sq_output_logprobs := sq_output_logprobs r; sq_output_text := sq_output_text r; sq_status := sq_status r; sq_stop_reason := sq_stop_reason r; sq_last_output_token_ids_offset := sq_last_output_token_ids_offset r; sq_last_output_text_offset := sq_last_output_text_offset r; sq_prefix_offset := v; sq_read_offset := sq_read_offset r; sq_tokens := sq_tokens r |}.
Definition set_sq_read_offset (v : Z) (r : Sequence) : Sequence :=
  {| sq_seq_id := sq_seq_id r; sq_prompt := sq_prompt r; sq_prompt_token_ids := sq_prompt_token_ids r; sq_block_size := sq_block_size r; sq_eos_token_id := sq_eos_token_id r; sq_lora_request := sq_lora_request r; sq_prompt_adapter_request := sq_prompt_adapter_request r; sq_data := sq_data r; sq_output_logprobs := sq_output_logprobs r; sq_output_text := sq_output_text r; sq_status := sq_status r; sq_stop_reason := sq_stop_reason r; sq_last_output_token_ids_offset := sq_last_output_token_ids_offset r; sq_last_output_text_offset := sq_last_output_text_offset r; sq_prefix_offset := sq_prefix_offset r; sq_read_offset := v; sq_tokens := sq_tokens r |}.
Definition set_sq_tokens (v : option (list token)) (r : Sequence) : Sequence :=
  {| sq_seq_id := sq_seq_id r; sq_prompt := sq_prompt r; sq_prompt_token_ids := sq_prompt_token_ids r; sq_block_size := sq_block_size r; sq_eos_token_id := sq_eos_token_id r; sq_lora_request := sq_lora_request r; sq_prompt_adapter_request := sq_prompt_adapter_request r; sq_data := sq_data r; sq_output_logprobs := sq_output_logprobs r; sq_output_text := sq_output_text r; sq_status := sq_status r; sq_stop_reason := sq_stop_reason r; sq_last_output_token_ids_offset := sq_last_output_token_ids_offset r; sq_last_output_text_offset := sq_last_output_text_offset r; sq_prefix_offset := sq_prefix_offset r; sq_read_offset := sq_read_offset r; sq_tokens := v |}.

Abbreviation SQ := (M Sequence).
Definition on_data {A} (m : SD A) : SQ A := zoom sq_data set_sq_data m.

(** * [Sequence] *)
Definition sequence_init (seq_id : Z) (prompt : option string) (prompt_token_ids : list Z) (block_size : Z)
    (eos_token_id : option Z) (lora_request : option LoRARequest)
    (prompt_adapter_request : option PromptAdapterRequest) : result Sequence :=
  data ← from_seqs prompt_token_ids None;
  mret {| sq_seq_id := seq_id; sq_prompt := prompt; sq_prompt_token_ids := prompt_token_ids; sq_block_size := block_size;
          sq_eos_token_id := eos_token_id; sq_lora_request := lora_request;
          sq_prompt_adapter_request := prompt_adapter_request; sq_data := data; sq_output_logprobs := [];
          sq_output_text := []; sq_status := SEQ_WAITING; sq_stop_reason := None; sq_last_output_token_ids_offset := 0;
          sq_last_output_text_offset := 0; sq_prefix_offset := 0; sq_read_offset := 0; sq_tokens := None |}.
Definition n_blocks (s : Sequence) : Z := (sd_get_len (sq_data s) + sq_block_size s - 1) / sq_block_size s.
Definition seq_lora_int_id (s : Sequence) : Z := match sq_lora_request s with Some l => lora_int_id l | None => 0 end.
Definition seq_prompt_adapter_id (s : Sequence) : Z :=
  match sq_prompt_adapter_request s with Some l => prompt_adapter_id l | None => 0 end.
Definition seq_is_finished (s : Sequence) : bool := seq_status_is_finished (sq_status s).

Definition get_output_text_to_return (buffer_length : Z) (delta : bool) : SQ text :=
  s ← mget;
  let truncate := negb (buffer_length =? 0)%Z && negb (seq_is_finished s) in
  if negb delta then mret (if truncate then slice (sq_output_text s) 0 (- buffer_length) else sq_output_text s)
  else
    let length := (Z.of_nat (length (sq_output_text s)) - if truncate then buffer_length else 0)%Z in
    let last_offset := sq_last_output_text_offset s in
    if (last_offset <? length)%Z then
      mput (set_sq_last_output_text_offset length s);;;
      mret (slice (sq_output_text s) last_offset length)
    else mret [].
(** A single token is returned bare. *)
Inductive TokensOut := OneToken (id : Z) | ManyTokens (ids : list Z).
Definition get_output_token_ids_to_return (delta : bool) : SQ TokensOut :=
  s ← mget;
  if negb delta then mret (ManyTokens (sd_output_token_ids (sq_data s)))
  else
    let output_len := sd_get_output_len (sq_data s) in
    let num_new_tokens := (output_len - sq_last_output_token_ids_offset s)%Z in
    let cached := sd_cached_all_token_ids (sq_data s) in
    mput (set_sq_last_output_token_ids_offset output_len s);;;
    if (num_new_tokens =? 1)%Z then
      match last cached with Some id => mret (OneToken id) | None => mraise (IndexError "list index out of range") end
    else if (num_new_tokens =? 0)%Z then mret (ManyTokens [])
    else mret (ManyTokens (slice cached (- num_new_tokens) (Z.of_nat (length cached)))).

Section hash.
Context (hash_block : (list Z * option (list Z)) * Z → Z) (py_hash : Z * Z → Z).
Definition num_hashed_tokens_of_block (logical_idx : Z) (s : Sequence) : Z := logical_idx * sq_block_size s + sq_block_size s.
Definition hash_of_block (logical_idx : Z) (s : Sequence) : Z :=
  hash_block (get_prefix_token_ids (num_hashed_tokens_of_block logical_idx s) (sq_data s), seq_lora_int_id s).
Definition seq_extra_hash (s : Sequence) : option Z :=
  if (seq_prompt_adapter_id s =? 0)%Z && (seq_lora_int_id s =? 0)%Z then None
  else Some (py_hash (seq_prompt_adapter_id s, seq_lora_int_id s)).
End hash.

Definition seq_reset_state_for_recompute : SQ unit := on_data sd_reset_state_for_recompute.
Definition seq_append_token_id (token_id : Z) (logprobs : dict Z Logprob) : SQ unit :=
  match dget logprobs token_id with
  | None => mraise (AssertionError "token_id in logprobs")
  | Some l =>
    mmodify (λ s, set_sq_output_logprobs (sq_output_logprobs s ++ [logprobs]) s);;;
    on_data (sd_append_token_id token_id (lp_logprob l))
  end.
(** The copy is deep; only the id differs. *)
Definition seq_fork (new_seq_id : Z) (s : Sequence) : Sequence := set_sq_seq_id new_seq_id s.
Definition seq_get_num_new_tokens (s : Sequence) : Z :=
  if bool_decide (sd_stage (sq_data s) = DECODE) then 1%Z else sd_get_num_uncomputed_tokens (sq_data s).
Definition seq_is_prefill (s : Sequence) : bool := bool_decide (sd_stage (sq_data s) = PREFILL).

(** * [SequenceGroup] *)
Record RequestMetrics := {
  rm_arrival_time : Z;
  rm_last_token_time : Z;
  rm_first_scheduled_time : option Z;
  rm_first_token_time : option Z;
  rm_time_in_queue : option Z;
  rm_finished_time : option Z;
  rm_scheduler_time : option Z;
}.
Definition set_rm_last_token_time (v : Z) (r : RequestMetrics) : RequestMetrics :=
  {| rm_arrival_time := rm_arrival_time r; rm_last_token_time := v; rm_first_scheduled_time := rm_first_scheduled_time r; rm_first_token_time := rm_first_token_time r; rm_time_in_queue := rm_time_in_queue r; rm_finished_time := rm_finished_time r; rm_scheduler_time := rm_scheduler_time r |}.
Definition set_rm_first_scheduled_time (v : option Z) (r : RequestMetrics) : RequestMetrics :=
  {| rm_arrival_time := rm_arrival_time r; rm_last_token_time := rm_last_token_time r; rm_first_scheduled_time := v; rm_first_token_time := rm_first_token_time r; rm_time_in_queue := rm_time_in_queue r; rm_finished_time := rm_finished_time r; rm_scheduler_time := rm_scheduler_time r |}.
Definition set_rm_first_token_time (v : option Z) (r : RequestMetrics) : RequestMetrics :=
  {| rm_arrival_time := rm_arrival_time r; rm_last_token_time := rm_last_token_time r; rm_first_scheduled_time := rm_first_scheduled_time r; rm_first_token_time := v; rm_time_in_queue := rm_time_in_queue r; rm_finished_time := rm_finished_time r; rm_scheduler_time := rm_scheduler_time r |}.
Definition set_rm_time_in_queue (v : option Z) (r : RequestMetrics) : RequestMetrics :=
  {| rm_arrival_time := rm_arrival_time r; rm_last_token_time := rm_last_token_time r; rm_first_scheduled_time := rm_first_scheduled_time r; rm_first_token_time := rm_first_token_time r; rm_time_in_queue := v; rm_finished_time := rm_finished_time r; rm_scheduler_time := rm_scheduler_time r |}.
Definition set_rm_finished_time (v : option Z) (r : RequestMetrics) : RequestMetrics :=
  {| rm_arrival_time := rm_arrival_time r; rm_last_token_time := rm_last_token_time r; rm_first_scheduled_time := rm_first_scheduled_time r; rm_first_token_time := rm_first_token_time r; rm_time_in_queue := rm_time_in_queue r; rm_finished_time := v; rm_scheduler_time := rm_scheduler_time r |}.
Definition set_rm_scheduler_time (v : option Z) (r : RequestMetrics) : RequestMetrics :=
  {| rm_arrival_time := rm_arrival_time r; rm_last_token_time := rm_last_token_time r; rm_first_scheduled_time := rm_first_scheduled_time r; rm_first_token_time := rm_first_token_time r; rm_time_in_queue := rm_time_in_queue r; rm_finished_time := rm_finished_time r; rm_scheduler_time := v |}.

Record SequenceGroup := {
  sg_request_id : string;
  sg_seqs : list Sequence;
  sg_sampling_params : option SamplingParams;
  sg_metrics : RequestMetrics;
  sg_state : SequenceGroupState;
  sg_encoder_seq : option Sequence;
  sg_priority : Z;
  sg_lora_request : option LoRARequest;
}.
Definition set_sg_seqs (v : list Sequence) (r : SequenceGroup) : SequenceGroup :=
  {| sg_request_id := sg_request_id r; sg_seqs := v; sg_sampling_params := sg_sampling_params r; sg_metrics := sg_metrics r; sg_state := sg_state r; sg_encoder_seq := sg_encoder_seq r; sg_priority := sg_priority r; sg_lora_request := sg_lora_request r |}.
Definition set_sg_metrics (v : RequestMetrics) (r : SequenceGroup) : SequenceGroup :=
  {| sg_request_id := sg_request_id r; sg_seqs := sg_seqs r; sg_sampling_params := sg_sampling_params r; sg_metrics := v; sg_state := sg_state r; sg_encoder_seq := sg_encoder_seq r; sg_priority := sg_priority r; sg_lora_request := sg_lora_request r |}.
Definition set_sg_state (v : SequenceGroupState) (r : SequenceGroup) : SequenceGroup :=
  {| sg_request_id := sg_request_id r; sg_seqs := sg_seqs r; sg_sampling_params := sg_sampling_params r; sg_metrics := sg_metrics r; sg_state := v; sg_encoder_seq := sg_encoder_seq r; sg_priority := sg_priority r; sg_lora_request := sg_lora_request r |}.

Abbreviation SG := (M SequenceGroup).

Definition sequence_group_init (request_id : string) (seqs : list Sequence) (arrival_time : Z)
    (sampling_params : option SamplingParams) (encoder_seq : option Sequence) (priority : Z)
    (lora_request : option LoRARequest) : result SequenceGroup :=
  match seqs with
  | [] => Raise (IndexError "seqs[0]")
  | _ =>
    mret {| sg_request_id := request_id; sg_seqs := seqs; sg_sampling_params := sampling_params;
            sg_metrics := {| rm_arrival_time := arrival_time; rm_last_token_time := arrival_time;
                             rm_first_scheduled_time := None; rm_first_token_time := None; rm_time_in_queue := None;
                             rm_finished_time := None; rm_scheduler_time := None |};
            sg_state := default_group_state; sg_encoder_seq := encoder_seq; sg_priority := priority;
            sg_lora_request := lora_request |}
  end.
Definition first_seq : SG Sequence :=
  g ← mget; match sg_seqs g with s :: _ => mret s | [] => mraise (IndexError "seqs[0]") end.
Definition is_single_seq (g : SequenceGroup) : bool := length (sg_seqs g) =? 1.
(** A block on the first sequence. *)
Definition on_first {A} (m : SQ A) : SG A :=
  s ← first_seq;
  '(a, s) ← mlift (m s);
  mmodify (λ g, set_sg_seqs (s :: tail (sg_seqs g)) g);;;
  mret a.

Definition group_is_prefill : SG bool := s ← first_seq; mret (seq_is_prefill s).
Definition group_is_finished : SG bool := s ← first_seq; mret (seq_is_finished s).
Definition init_multi_step (steps : Z) : SG unit :=
  mmodify (set_sg_state {| num_steps := steps; current_step := 0 |}).
Definition init_multi_step_from_lookahead_slots (num_lookahead_slots num_scheduler_steps : Z)
    (is_multi_step enable_chunking : bool) : SG unit :=
  if negb is_multi_step then init_multi_step num_scheduler_steps
  else
    is_prefill ← group_is_prefill;
    if is_prefill && enable_chunking then
      massert (num_lookahead_slots =? num_scheduler_steps)%Z "num_lookahead_slots == num_scheduler_steps";;;
      init_multi_step num_lookahead_slots
    else
      let is_decode := negb is_prefill in
      massert ((num_lookahead_slots =? 0)%Z || is_decode) "num_lookahead_slots == 0 or is_decode";;;
      massert ((num_lookahead_slots + 1 =? num_scheduler_steps)%Z || is_prefill)
        "num_lookahead_slots + 1 == num_scheduler_steps or is_prefill";;;
      init_multi_step (num_lookahead_slots + 1).
Definition get_last_latency (now : Z) : SG Z :=
  is_prefill ← group_is_prefill;
  if (is_prefill : bool) then mraise (ValueError "seq_group.get_last_latency() should not be called if the seq_group is in prefill phase.")
  else
    g ← mget;
    mput (set_sg_metrics (set_rm_last_token_time now (sg_metrics g)) g);;;
    mret (now - rm_last_token_time (sg_metrics g))%Z.
Definition maybe_set_first_token_time (time : Z) : SG unit :=
  g ← mget; s ← first_seq;
  mwhen (bool_decide (rm_first_token_time (sg_metrics g) = None) && (sd_get_output_len (sq_data s) =? 1)%Z)
    (mput (set_sg_metrics (set_rm_first_token_time (Some time) (sg_metrics g)) g)).
Definition maybe_set_first_scheduled_time (time : Z) : SG unit :=
  g ← mget;
  let m := sg_metrics g in
  mwhen (bool_decide (rm_first_scheduled_time m = None))
    (mput (set_sg_metrics (set_rm_time_in_queue (Some (time - rm_arrival_time m)%Z)
                             (set_rm_first_scheduled_time (Some time) m)) g)).
Definition set_finished_time (time : option Z) : SG unit :=
  mmodify (λ g, set_sg_metrics (set_rm_finished_time time (sg_metrics g)) g).
Definition get_max_num_running_seqs : SG Z := f ← group_is_finished; mret (if (f : bool) then 0 else 1)%Z.
Definition get_seqs (status : option SequenceStatus) : SG (list Sequence) :=
  g ← mget;
  match status with
  | None => mret (sg_seqs g)
  | Some status => s ← first_seq; mret (if bool_decide (sq_status s = status) then sg_seqs g else [])
  end.
Definition get_finished_seqs : SG (list Sequence) :=
  g ← mget; f ← group_is_finished; mret (if (f : bool) then sg_seqs g else []).
Definition group_update_num_computed_tokens (num_new_computed_tokens : Z) : SG unit :=
  f ← group_is_finished;
  mwhen (negb f) (on_first (on_data (sd_update_num_computed_tokens num_new_computed_tokens))).
Definition group_get_num_uncomputed_tokens : SG Z :=
  s ← first_seq; mret (if seq_is_finished s then 0 else sd_get_num_uncomputed_tokens (sq_data s))%Z.
Definition num_seqs (status : option SequenceStatus) : SG Z :=
  g ← mget;
  match status with
  | None => mret (Z.of_nat (length (sg_seqs g)))
  | Some st =>
    if is_single_seq g then s ← first_seq; mret (if bool_decide (sq_status s = st) then 1 else 0)%Z
    else l ← get_seqs status; mret (Z.of_nat (length l))
  end.
Definition num_finished_seqs : SG Z := f ← group_is_finished; mret (if (f : bool) then 1 else 0)%Z.

(** * [StopChecker] *)
Definition get_max_model_len (max_model_len : Z) (lora_req : option LoRARequest) : Z :=
  match lora_req with
  | Some l => match long_lora_max_len l with Some n => if (n =? 0)%Z then max_model_len else n | None => max_model_len end
  | None => max_model_len
  end.
(** [seq.output_text[:-new_char_count]], unless the stop token is to be shown *)
Definition drop_stop_text (new_char_count : Z) (p : SamplingParams) : SQ unit :=
  mwhen (negb (new_char_count =? 0)%Z && negb (include_stop_str_in_output p))
    (mmodify (λ s, set_sq_output_text (slice (sq_output_text s) 0 (- new_char_count)) s)).
Definition maybe_stop_sequence (max_model_len : Z) (new_char_count : Z) (p : SamplingParams)
    (lora_req : option LoRARequest) : SQ unit :=
  s ← mget;
  if (sd_get_output_len (sq_data s) <? min_tokens p)%Z then mret tt
  else
    last_token_id ← mlift (sd_get_last_token_id (sq_data s));
    if negb (ignore_eos p) && bool_decide (sq_eos_token_id s = Some last_token_id) then
      drop_stop_text new_char_count p;;;
      mmodify (set_sq_status SEQ_FINISHED_STOPPED)
    else if bool_decide (last_token_id ∈ default [] (stop_token_ids p)) then
      drop_stop_text new_char_count p;;;
      mmodify (set_sq_status SEQ_FINISHED_STOPPED);;;
      mmodify (set_sq_stop_reason (Some (ReasonToken last_token_id)))
    else
      match check_stop_strings (sq_output_text s) new_char_count (code_points <$> stop_list p) (include_stop_str_in_output p) with
      | Some (stop_str, truncate_to) =>
        match truncate_to with
        | None => mret tt
        | Some n => mmodify (λ s, set_sq_output_text (take n (sq_output_text s)) s)
        end;;;
        mmodify (set_sq_status SEQ_FINISHED_STOPPED);;;
        mmodify (set_sq_stop_reason (Some (ReasonString stop_str)))
      | None =>
        if (get_max_model_len max_model_len lora_req <? sd_get_len (sq_data s))%Z
        then mmodify (set_sq_status SEQ_FINISHED_LENGTH_CAPPED)
        else mwhen (bool_decide (sp_max_tokens p = Some (sd_get_output_len (sq_data s))))
               (mmodify (set_sq_status SEQ_FINISHED_LENGTH_CAPPED))
      end.

(** * [Detokenizer] of the V0 engine *)
(** [VLLM_INVALID_TOKEN_ID] *)
Definition INVALID_TOKEN_ID : Z := -1.
Definition set_decoded_token (t : text) (l : Logprob) : Logprob :=
  {| lp_logprob := lp_logprob l; lp_rank := lp_rank l; lp_decoded_token := Some t |}.

Section detokenizer.
Context (tokenizer : Tokenizer).

(** The texts of the alternative tokens. The sampled one has its text already. *)
Definition decode_logprob (p : SamplingParams) (s : Sequence) (sampled : Z) (sampled_text : text) (previous_tokens : list Z)
    (item : Z * Logprob) : result (Z * Logprob) :=
  let '(token_id, l) := item in
  if (token_id =? sampled)%Z then mret (token_id, set_decoded_token sampled_text l)
  else if bool_decide (lp_decoded_token l = None) && negb (token_id =? INVALID_TOKEN_ID)%Z then
    '(_, new_text, _, _) ← detokenize_incrementally tokenizer (previous_tokens ++ [token_id]) (sq_tokens s)
                             (sq_prefix_offset s) (sq_read_offset s) (skip_special_tokens p)
                             (spaces_between_special_tokens p);
    mret (token_id, set_decoded_token new_text l)
  else mret (token_id, l).
Fixpoint map_result {A B} (f : A → result B) (l : list A) : result (list B) :=
  match l with [] => mret [] | x :: l => y ← f x; ys ← map_result f l; mret (y :: ys) end.

Definition decode_sequence_inplace (p : SamplingParams) : SQ Z :=
  s ← mget;
  let all_input_ids := sd_cached_all_token_ids (sq_data s) in
  match last all_input_ids with
  | None => mraise (IndexError "list index out of range")
  | Some token_id_generated_this_iteration =>
    mwhen (bool_decide (sq_tokens s = None))
      (let '(tokens, prefix_offset, read_offset) :=
         convert_prompt_ids_to_tokens tokenizer (removelast all_input_ids) (skip_special_tokens p) in
       mput (set_sq_read_offset read_offset (set_sq_prefix_offset prefix_offset (set_sq_tokens (Some tokens) s))));;;
    s ← mget;
    '(new_tokens, new_decoded_token_text, prefix_offset, read_offset) ←
      mlift (detokenize_incrementally tokenizer all_input_ids (sq_tokens s) (sq_prefix_offset s) (sq_read_offset s)
               (skip_special_tokens p) (spaces_between_special_tokens p));
    match last (sq_output_logprobs s) with
    | None => mraise (IndexError "list index out of range")
    | Some logprobs =>
      logprobs ← mlift (map_result (decode_logprob p s token_id_generated_this_iteration new_decoded_token_text
                                      (removelast all_input_ids)) logprobs);
      mmodify (λ s, set_sq_output_logprobs (removelast (sq_output_logprobs s) ++ [logprobs]) s)
    end;;;
    mmodify (λ s, set_sq_tokens (Some (default [] (sq_tokens s) ++ new_tokens)) s);;;
    mmodify (set_sq_prefix_offset prefix_offset);;;
    mmodify (set_sq_read_offset read_offset);;;
    mmodify (λ s, set_sq_output_text (sq_output_text s ++ new_decoded_token_text) s);;;
    mret (Z.of_nat (length new_decoded_token_text))
  end.

(** The local variables of the loop over the prompt positions. *)
Record PromptDecode := {
  prev_tokens : option (list token);
  pd_offsets : Z * Z;
  next_iter_offsets : Z * Z;
  next_iter_tokens : list token;
}.
Definition decode_prompt_logprob (p : SamplingParams) (all_token_ids : list Z) (token_position : nat)
    (acc : PromptDecode * dict Z Logprob) (item : Z * Logprob) : result (PromptDecode * dict Z Logprob) :=
  let '(v, out) := acc in
  let '(token_id, l) := item in
  if bool_decide (lp_decoded_token l = None) && negb (token_id =? INVALID_TOKEN_ID)%Z then
    '(new_tokens, new_text, new_prefix_offset, new_read_offset) ←
      detokenize_incrementally tokenizer (take token_position (removelast all_token_ids) ++ [token_id]) (prev_tokens v)
        (pd_offsets v).1 (pd_offsets v).2 (skip_special_tokens p) (spaces_between_special_tokens p);
    match all_token_ids !! token_position with
    | None => Raise (IndexError "list index out of range")
    | Some id =>
      mret (if (token_id =? id)%Z
            then {| prev_tokens := prev_tokens v; pd_offsets := pd_offsets v;
                    next_iter_offsets := (new_prefix_offset, new_read_offset); next_iter_tokens := new_tokens |}
            else v, out ++ [(token_id, set_decoded_token new_text l)])
    end
  else mret (v, out ++ [(token_id, l)]).
Fixpoint fold_result {A B} (f : B → A → result B) (l : list A) (b : B) : result B :=
  match l with [] => mret b | x :: l => b ← f b x; fold_result f l b end.
(** [seq_group.prompt_logprobs]: the logprobs with their texts. Positions without
    logprobs are skipped. *)
Fixpoint decode_prompt_loop (p : SamplingParams) (all_token_ids : list Z) (token_position : nat) (v : PromptDecode)
    (prompt_logprobs : list (option (dict Z Logprob))) : result (list (option (dict Z Logprob))) :=
  match prompt_logprobs with
  | [] => mret []
  | (None | Some []) as x :: rest =>
    rest ← decode_prompt_loop p all_token_ids (S token_position) v rest; mret (x :: rest)
  | Some d :: rest =>
    '(v, d) ← fold_result (decode_prompt_logprob p all_token_ids token_position) d (v, []);
    let v := {| prev_tokens := Some (default [] (prev_tokens v) ++ next_iter_tokens v);
                pd_offsets := next_iter_offsets v; next_iter_offsets := next_iter_offsets v;
                next_iter_tokens := next_iter_tokens v |} in
    rest ← decode_prompt_loop p all_token_ids (S token_position) v rest;
    mret (Some d :: rest)
  end.
Definition decode_prompt_logprobs_inplace (prompt_logprobs : list (option (dict Z Logprob))) (position_offset : nat)
    : SG (list (option (dict Z Logprob))) :=
  g ← mget;
  match sg_sampling_params g with
  | None => mraise (AssertionError "prms is not None")
  | Some p =>
    s ← first_seq;
    mlift (decode_prompt_loop p (sd_cached_all_token_ids (sq_data s)) position_offset
             {| prev_tokens := None; pd_offsets := (0, 0)%Z; next_iter_offsets := (0, 0)%Z; next_iter_tokens := [] |}
             prompt_logprobs)
  end.
End detokenizer.
