(* ===== verification/SequenceTheorems.v ===== *)
(** Properties of V0 sequences: the copies of the workers stay in step with the
    scheduler, the streamed token ids are the output, the text is that of the V1
    detokenizer, and the stop conditions. *)
From Stdlib Require Import ssreflect ZArith Lia PrimFloat.
From stdpp Require Import base numbers list gmap strings.
From S2P Require Import Prelude SamplingParams Detokenizer DetokTheorems Processor SequenceData Sequences.

(** * Arrays *)
Lemma py_array_ok l : forallb fits_long l = true → py_array l = Ok l.
Proof. rw /py_array. by move=> ->. Qed.
Lemma py_array_Ok l a : py_array l = Ok a → a = l ∧ forallb fits_long l = true.
Proof. rw /py_array. destruct (forallb _ _) => //. by move=> [= ->]. Qed.
Lemma fits_app l1 l2 : forallb fits_long (l1 ++ l2) = forallb fits_long l1 && forallb fits_long l2.
Proof. apply forallb_app. Qed.

(** * The copy of a worker *)

(** What the methods of [SequenceData] keep: the cached lists agree with the
    arrays, the progress is within the sequence, and the ids that were appended
    since the last delta are the end of the output. *)
Record sd_wf (d : SequenceData) : Prop := {
  wf_tuple : sd_prompt_token_ids_tuple d = sd_prompt_token_ids d;
  wf_cached : sd_cached_all_token_ids d = sd_prompt_token_ids d ++ sd_output_token_ids d;
  wf_computed : (0 ≤ sd_num_computed_tokens d ≤ sd_get_len d)%Z;
  wf_new : sd_new_appended_tokens d `suffix_of` sd_output_token_ids d;
  wf_fits : forallb fits_long (sd_output_token_ids d) = true;
}.
(** Two copies show the same tokens and the same progress. *)
Record same_data (w d : SequenceData) : Prop := {
  same_prompt : sd_prompt_token_ids w = sd_prompt_token_ids d;
  same_output : sd_output_token_ids w = sd_output_token_ids d;
  same_all : sd_cached_all_token_ids w = sd_cached_all_token_ids d;
  same_logprob : sd_cumulative_logprob w = sd_cumulative_logprob d;
  same_computed : sd_num_computed_tokens w = sd_num_computed_tokens d;
  same_stage : sd_stage w = sd_stage d;
}.
(** The worker lacks exactly the ids of the next delta. *)
Record lags (w d : SequenceData) : Prop := {
  lag_prompt : sd_prompt_token_ids w = sd_prompt_token_ids d;
  lag_output : sd_output_token_ids d = sd_output_token_ids w ++ sd_new_appended_tokens d;
  lag_all : sd_cached_all_token_ids d = sd_cached_all_token_ids w ++ sd_new_appended_tokens d;
}.

(** The worker's side of a message: a full copy replaces what it has. *)
Definition receive_seq_data (m : SeqMessage) (w : option SequenceData) : result SequenceData :=
  match m, w with
  | FullData d, _ => mret d
  | DeltaData _, None => Raise (KeyError "seq_data")
  | DeltaData dd, Some w => '(_, w) ← sd_apply_delta dd w; mret w
  end.
Definition exchange (d : SequenceData) (w : option SequenceData) : result (SequenceData * SequenceData) :=
  '(m, d) ← send_seq_data true d;
  w ← receive_seq_data m w;
  mret (d, w).

(** Runs of a sequence that is sent as deltas. A turn sends the sequence and then
    counts the tokens the worker has computed; tokens are appended to sequences
    that have been computed in part at least; preemption starts from the
    beginning. *)
Inductive seq_run (prompt : list Z) : SequenceData → option SequenceData → Prop :=
  | run_start d : from_seqs prompt None = Ok d → seq_run prompt d None
  | run_turn d w d' w' n d'' : seq_run prompt d w → exchange d w = Ok (d', w') → (0 < n)%Z →
      sd_update_num_computed_tokens n d' = Ok (tt, d'') → seq_run prompt d'' (Some w')
  | run_append d w t lp d' : seq_run prompt d w → (0 < sd_num_computed_tokens d)%Z →
      sd_append_token_id t lp d = Ok (tt, d') → seq_run prompt d' w
  | run_preempt d w d' : seq_run prompt d w → sd_reset_state_for_recompute d = Ok (tt, d') → seq_run prompt d' w.

(** Before the first chunk nothing has been appended and the whole data is sent;
    afterwards the worker lags by what has been appended. *)
Definition seq_inv (d : SequenceData) (w : option SequenceData) : Prop :=
  sd_wf d ∧
  (sd_num_computed_tokens d = 0%Z → sd_new_appended_tokens d = [] ∧ sd_stage d = PREFILL) ∧
  ((0 < sd_num_computed_tokens d)%Z → ∃ w', w = Some w' ∧ lags w' d).

Lemma sd_apply_delta_ok dd w : forallb fits_long (new_output_token_ids dd) = true →
  sd_apply_delta dd w = Ok (tt, set_sd_cached_all_token_ids (sd_cached_all_token_ids w ++ new_output_token_ids dd)
    (set_sd_output_token_ids (sd_output_token_ids w ++ new_output_token_ids dd)
      (set_sd_stage (new_stage dd) (set_sd_cumulative_logprob (new_cumulative_logprob dd)
        (set_sd_num_computed_tokens (new_num_computed_tokens dd) w))))).
Proof. move=> Hf. rw /sd_apply_delta /mbind /M_bind /mmodify /mlift (py_array_ok _ Hf). done. Qed.

(** One message brings the worker up to date, and leaves nothing to send. *)
Lemma exchange_sync d w : seq_inv d w → ∃ d' w', exchange d w = Ok (d', w') ∧ same_data w' d' ∧ sd_wf d' ∧
  sd_new_appended_tokens d' = [] ∧ same_data d' d.
Proof.
  move=> [[F1 F2 F3 F4 F5] [H0 H1]]. rw /exchange /send_seq_data /mbind /M_bind /result_bind /mget.
  destruct (bool_decide _ && _) eqn:He.
  - simpl. apply andb_true_iff in He as [_ He%Z.eqb_eq]. destruct (H0 He) as [Hn _].
    exists d, d. by split_and!.
  - simpl. have Hpos : (0 < sd_num_computed_tokens d)%Z.
    { destruct (decide (sd_num_computed_tokens d = 0%Z)) as [Hz|]; last lia.
      destruct (H0 Hz) as [_ Hs]. rw Hs Hz in He. done. }
    destruct (H1 Hpos) as (w' & -> & [L1 L2 L3]). simpl. rw sd_apply_delta_ok.
    { simpl. destruct F4 as [k Hk]. rw Hk fits_app in F5. by apply andb_true_iff in F5 as [_ ->]. }
    simpl. eexists _, _. split; first done.
    split_and!; [split; simpl; congruence|split; simpl; try done; apply suffix_nil|done|done].
Qed.

Lemma update_computed_ok n d d' : sd_update_num_computed_tokens n d = Ok (tt, d') →
  (sd_num_computed_tokens d + n ≤ sd_get_len d)%Z ∧ ∃ st,
    d' = set_sd_stage st (set_sd_num_computed_tokens (sd_num_computed_tokens d + n) d).
Proof.
  rw /sd_update_num_computed_tokens /mbind /M_bind /mmodify /mget /massert. cbn [set_sd_num_computed_tokens sd_num_computed_tokens].
  destruct (Z.leb_spec (sd_num_computed_tokens d + n) (sd_get_len (set_sd_num_computed_tokens (sd_num_computed_tokens d + n) d)))
    as [Hle|] => //=.
  rw /mwhen. destruct (_ =? _)%Z => /= [= <-]; (split; first exact Hle); by eexists.
Qed.

Lemma seq_run_inv prompt d w : seq_run prompt d w → seq_inv d w.
Proof.
  elim=> {d w} [d|d w d' w' n d'' _ IH Hx Hn Hu|d w t lp d' _ [[F1 F2 F3 F4 F5] [H0 H1]] Hpos Ha|d w d' _ [[F1 F2 F3 F4 F5] _] Hr].
  - rw /from_seqs /mbind /result_bind. destruct (py_array prompt) as [a|] eqn:Ha => //= [= <-].
    split; last (split; simpl; [done|lia]). split; simpl; try done. rw /sd_get_len /=. lia.
  - destruct (exchange_sync d w IH) as (d1 & w1 & Hx1 & [S1 S2 S3 S4 S5 S6] & [F1 F2 F3 F4 F5] & Hn0 & _).
    rw Hx in Hx1. injection Hx1 as <- <-. destruct (update_computed_ok _ _ _ Hu) as (Hle & st & ->).
    split; [split; simpl; try done|split; simpl; first by lia].
    + move: Hle F3. rw /sd_get_len /=. lia.
    + move=> _. exists w'. split; first done. split; simpl; [done|by rw Hn0 app_nil_r|by rw Hn0 app_nil_r].
  - move: Ha. rw /sd_append_token_id /mbind /M_bind /mlift.
    destruct (py_array [t]) as [a|] eqn:Ht => //= [= <-]. apply py_array_Ok in Ht as [-> Ht].
    split; [split; simpl; try done|split; simpl].
    + by rw F2 app_assoc.
    + rw /sd_get_len /= length_app /=. move: F3. rw /sd_get_len. lia.
    + destruct F4 as [k ->]. rw -app_assoc. by eexists.
    + by rw fits_app F5.
    + lia.
    + move=> _. destruct (H1 Hpos) as (w' & -> & [L1 L2 L3]). exists w'. split; first done.
      split; simpl; [done|by rw L2 app_assoc|by rw L3 app_assoc].
  - move: Hr. rw /sd_reset_state_for_recompute /= => [= <-].
    split; last (split; simpl; [done|lia]). split; simpl; try done; [rw /sd_get_len /=; lia|apply suffix_nil].
Qed.

(** C34: The workers see what the scheduler sees. In every run of a sequence that is
    sent as deltas, with chunked prefill, appended tokens and preemption at any
    point, the next message can be applied, and after it the worker's copy has
    the same prompt, output, cached ids, log probability, progress and stage as
    the scheduler's; the cached ids are the prompt and the output. *)
Theorem worker_copy_in_sync prompt d w : seq_run prompt d w →
  ∃ d' w', exchange d w = Ok (d', w') ∧ same_data w' d' ∧
    sd_cached_all_token_ids w' = sd_prompt_token_ids d ++ sd_output_token_ids d ∧
    sd_num_computed_tokens w' = sd_num_computed_tokens d.
Proof.
  move=> /seq_run_inv HI. destruct (exchange_sync d w HI) as (d' & w' & Hx & Hs & Hwf & _ & Hd).
  exists d', w'. split; first exact Hx. split; first exact Hs.
  destruct Hs as [S1 S2 S3 S4 S5 S6]. destruct Hd as [D1 D2 D3 D4 D5 D6].
  split; [rw S3 (wf_cached _ Hwf); congruence|congruence].
Qed.
(** Three prompt tokens in two chunks, one generated token, preemption. *)
Lemma worker_copy_in_sync_witness : ∃ d w d' w', seq_run [1; 2; 3]%Z d w ∧ exchange d w = Ok (d', w') ∧
  sd_cached_all_token_ids w' = [1; 2; 3; 7]%Z.
Proof.
  assert (HR : ∃ d w, seq_run [1; 2; 3]%Z d w ∧ sd_prompt_token_ids d = [1; 2; 3]%Z ∧ sd_output_token_ids d = [7]%Z).
  { assert (H0 : seq_run [1; 2; 3]%Z (sequence_data [1; 2; 3]%Z []) None) by (apply run_start; reflexivity).
    eassert (H1 : seq_run [1; 2; 3]%Z _ _).
    { eapply (run_turn _ _ _ _ _ 2%Z _ H0); [vm_compute; reflexivity|reflexivity|vm_compute; reflexivity]. }
    eassert (H2 : seq_run [1; 2; 3]%Z _ _).
    { eapply (run_turn _ _ _ _ _ 1%Z _ H1); [vm_compute; reflexivity|reflexivity|vm_compute; reflexivity]. }
    eassert (H3 : seq_run [1; 2; 3]%Z _ _).
    { eapply (run_append _ _ _ 7%Z (-0.5)%float _ H2); [reflexivity|vm_compute; reflexivity]. }
    eassert (H4 : seq_run [1; 2; 3]%Z _ _).
    { eapply (run_turn _ _ _ _ _ 1%Z _ H3); [vm_compute; reflexivity|reflexivity|vm_compute; reflexivity]. }
    eexists _, _. split; [eapply (run_preempt _ _ _ _ H4); vm_compute; reflexivity|split; reflexivity]. }
  destruct HR as (d & w & HR & Hp & Ho). destruct (worker_copy_in_sync _ d w HR) as (d' & w' & H1 & _ & H2 & _).
  exists d, w, d', w'. split; [exact HR|]. split; [exact H1|]. rw H2 Hp Ho. reflexivity.
Defined.

(** * Streaming of token ids *)
Definition out_ids (o : TokensOut) : list Z := match o with OneToken id => [id] | ManyTokens ids => ids end.
(** Between two outputs a chunk of tokens is appended. *)
Fixpoint stream_ids (chunks : list (list (Z * dict Z Logprob))) : SQ (list TokensOut) :=
  match chunks with
  | [] => mret []
  | c :: chunks =>
    mfor c (λ '(id, lps), seq_append_token_id id lps);;;
    o ← get_output_token_ids_to_return true;
    os ← stream_ids chunks;
    mret (o :: os)
  end.

Lemma seq_append_ok id lps s s' : seq_append_token_id id lps s = Ok (tt, s') →
  sd_output_token_ids (sq_data s') = sd_output_token_ids (sq_data s) ++ [id] ∧
  sd_cached_all_token_ids (sq_data s') = sd_cached_all_token_ids (sq_data s) ++ [id] ∧
  sd_prompt_token_ids (sq_data s') = sd_prompt_token_ids (sq_data s) ∧
  sq_last_output_token_ids_offset s' = sq_last_output_token_ids_offset s.
Proof.
  rw /seq_append_token_id. destruct (dget lps id) as [l|] => //=.
  rw /mbind /M_bind /mmodify /on_data /zoom /sd_append_token_id /mbind /M_bind /mlift /=.
  destruct (py_array [id]) as [a|] eqn:Ha => //= [= <-]. by apply py_array_Ok in Ha as [-> _].
Qed.
Lemma append_chunk_ok c s s' : mfor c (λ '(id, lps), seq_append_token_id id lps) s = Ok (tt, s') →
  sd_output_token_ids (sq_data s') = sd_output_token_ids (sq_data s) ++ c.*1 ∧
  sd_cached_all_token_ids (sq_data s') = sd_cached_all_token_ids (sq_data s) ++ c.*1 ∧
  sd_prompt_token_ids (sq_data s') = sd_prompt_token_ids (sq_data s) ∧
  sq_last_output_token_ids_offset s' = sq_last_output_token_ids_offset s.
Proof.
  elim: c s => [|[id lps] c IH] s /=; first by move=> [= <-]; rw !app_nil_r.
  rw {1}/mbind {1}/M_bind. destruct (seq_append_token_id id lps s) as [[[] s1]|] eqn:H1 => // H2.
  destruct (seq_append_ok _ _ _ _ H1) as (E1 & E2 & E3 & E4). destruct (IH s1 H2) as (A1 & A2 & A3 & A4).
  by rw A1 A2 A3 A4 E1 E2 E3 E4 -!app_assoc.
Qed.

Lemma slice_suffix {A} (l : list A) n : (0 < n)%nat → (n ≤ length l)%nat →
  slice l (- Z.of_nat n) (Z.of_nat (length l)) = drop (length l - n) l.
Proof.
  move=> Hn Hl. rw /slice /slice_bound bool_decide_eq_true_2; first by lia.
  rw bool_decide_eq_false_2; first by lia. rw firstn_all2; first by lia. f_equal. lia.
Qed.
(** One output is what was appended since the last one. *)
Lemma token_delta_ok l s :
  sd_cached_all_token_ids (sq_data s) = sd_prompt_token_ids (sq_data s) ++ sd_output_token_ids (sq_data s) →
  (∃ k, sd_output_token_ids (sq_data s) = k ++ l ∧ sq_last_output_token_ids_offset s = Z.of_nat (length k)) →
  ∃ o, get_output_token_ids_to_return true s =
    Ok (o, set_sq_last_output_token_ids_offset (Z.of_nat (length (sd_output_token_ids (sq_data s)))) s) ∧ out_ids o = l.
Proof.
  move=> Hc [k [Ho Hk]]. rw /get_output_token_ids_to_return /mbind /M_bind /mget /mput /= Hk /sd_get_output_len Hc Ho.
  have -> : (Z.of_nat (length (k ++ l)) - Z.of_nat (length k) = Z.of_nat (length l))%Z by rw length_app; lia.
  destruct (Z.eqb_spec (Z.of_nat (length l)) 1) as [H1|H1].
  - destruct l as [|x [|]]; simpl in H1; try lia. rw app_assoc last_snoc. by eexists.
  - destruct (Z.eqb_spec (Z.of_nat (length l)) 0) as [H0|H0].
    + have -> : l = [] by apply nil_length_inv; lia. by eexists.
    + eexists. split; first done. simpl. rw slice_suffix; [lia|rw !length_app; lia|].
      rw app_assoc. have -> : (length ((sd_prompt_token_ids (sq_data s) ++ k) ++ l) - length l)%nat =
        length (sd_prompt_token_ids (sq_data s) ++ k) by rw length_app; lia. by rw drop_app_length.
Qed.
Lemma stream_ids_ok chunks : ∀ s outs s',
  sd_cached_all_token_ids (sq_data s) = sd_prompt_token_ids (sq_data s) ++ sd_output_token_ids (sq_data s) →
  sq_last_output_token_ids_offset s = Z.of_nat (length (sd_output_token_ids (sq_data s))) →
  stream_ids chunks s = Ok (outs, s') →
  out_ids <$> outs = (λ c, c.*1) <$> chunks ∧
  sd_output_token_ids (sq_data s') = sd_output_token_ids (sq_data s) ++ mjoin (out_ids <$> outs).
Proof.
  elim: chunks => [|c chunks IH] s outs s' Hc Ho /=; first by move=> [= <- <-]; rw app_nil_r.
  rw {1}/mbind {1}/M_bind. destruct (mfor _ _ s) as [[[] s1]|] eqn:H1 => //.
  destruct (append_chunk_ok _ _ _ H1) as (A1 & A2 & A3 & A4).
  destruct (token_delta_ok c.*1 s1) as (o & Hd & Hl).
  { by rw A2 A1 A3 Hc app_assoc. }
  { exists (sd_output_token_ids (sq_data s)). by rw A4. }
  rw {1}/mbind {1}/M_bind Hd {1}/mbind {1}/M_bind.
  destruct (stream_ids chunks _) as [[os s2]|] eqn:H2 => // [= <- <-].
  apply IH in H2 as [I1 I2]; [|by rw /= A2 A1 A3 Hc app_assoc|done]. cbn [fmap list_fmap].
  split; [by f_equal|]. rw I2 /= A1 Hl -app_assoc. done.
Qed.

(** Streamed token ids. Whatever is appended to a new sequence between two
    outputs, each output in delta mode is exactly what was appended since the
    last one, and all of them together are the output of the sequence. *)
Theorem token_deltas_reassemble id prompt ids bs eos lora adapter s chunks outs s' :
  sequence_init id prompt ids bs eos lora adapter = Ok s → stream_ids chunks s = Ok (outs, s') →
  out_ids <$> outs = (λ c, c.*1) <$> chunks ∧ mjoin (out_ids <$> outs) = sd_output_token_ids (sq_data s').
Proof.
  rw /sequence_init /from_seqs /mbind /result_bind. destruct (py_array ids) as [a|] => //= [= <-] Hs.
  apply stream_ids_ok in Hs as [H1 H2]; [|by rw /= app_nil_r|done]. split; first exact H1. by rw H2.
Qed.
Definition demo_logprobs (id : Z) : Z * dict Z Logprob :=
  (id, [(id, {| lp_logprob := 0; lp_rank := Some 1%Z; lp_decoded_token := None |})]).
Lemma token_deltas_reassemble_witness : ∃ s outs s',
  sequence_init 0 None [1; 2]%Z 16 (Some 9%Z) None None = Ok s ∧
  stream_ids [[demo_logprobs 5]; []; [demo_logprobs 6; demo_logprobs 7]] s = Ok (outs, s') ∧
  out_ids <$> outs = [[5]; []; [6; 7]]%Z.
Proof.
  eexists _, _, _. split; [reflexivity|]. split; [vm_compute; reflexivity|].
  eapply (token_deltas_reassemble 0 None [1; 2]%Z 16 (Some 9%Z) None None _
    [[demo_logprobs 5]; []; [demo_logprobs 6; demo_logprobs 7]]); [reflexivity|vm_compute; reflexivity].
Defined.

(** * The text of a sequence *)
Section text.
Context (tokenizer : Tokenizer) {HTot : Total tokenizer} (p : SamplingParams).

(** Appending a token and decoding it, for each token. *)
Definition decode_sequence (toks : list (Z * dict Z Logprob)) : SQ unit :=
  mfor toks (λ '(id, lps), seq_append_token_id id lps;;; decode_sequence_inplace tokenizer p;;; mret tt).

Lemma detok_total ids toks po ro : ids ≠ [] → ∃ r,
  detokenize_incrementally tokenizer ids (Some toks) po ro (skip_special_tokens p) (spaces_between_special_tokens p) = Ok r.
Proof.
  move=> Hne. rw /detokenize_incrementally. destruct (last ids) as [x|] eqn:Hl; last by apply last_None in Hl.
  match goal with |- context [tokens_text _ ?a ?b ?l] => destruct (tokens_text_total tokenizer a b l) as [? ->] => /= end.
  match goal with |- context [tokens_text _ ?a ?b ?l] => destruct (tokens_text_total tokenizer a b l) as [? ->] => /= end.
  destruct (_ || _); by eexists.
Qed.
Lemma detok_last ids ids' toks po ro sk sp : last ids = last ids' →
  detokenize_incrementally tokenizer ids (Some toks) po ro sk sp = detokenize_incrementally tokenizer ids' (Some toks) po ro sk sp.
Proof. rw /detokenize_incrementally. by move=> ->. Qed.
Lemma decode_logprobs_total s toks x t prev (l : dict Z Logprob) : sq_tokens s = Some toks →
  ∃ l', map_result (decode_logprob tokenizer p s x t prev) l = Ok l'.
Proof.
  move=> Hs. elim: l => [|[id lp] l [l' IH]] /=; first by eexists. rw /mbind /result_bind IH.
  destruct (id =? x)%Z; first by eexists. destruct (_ && _); last by eexists.
  rw Hs. destruct (detok_total (prev ++ [id]) toks (sq_prefix_offset s) (sq_read_offset s)) as [[[[? ?] ?] ?] ->]; [by destruct prev|].
  by eexists.
Qed.

(** The V0 sequence and the V1 detokenizer of the same request. Before the first
    token the sequence has not converted its prompt yet. *)
Record same_text (s : Sequence) (d : IncrementalDetokenizer) : Prop := {
  st_text : sq_output_text s = det_output_text d;
  st_skip : det_skip_special_tokens d = skip_special_tokens p;
  st_spaces : det_spaces_between_special_tokens d = spaces_between_special_tokens p;
  st_tokens : match sq_tokens s with
    | Some toks => det_tokens d = toks ∧ det_prefix_offset d = sq_prefix_offset s ∧ det_read_offset d = sq_read_offset s
    | None => (det_tokens d, det_prefix_offset d, det_read_offset d) =
        convert_prompt_ids_to_tokens tokenizer (sd_cached_all_token_ids (sq_data s)) (skip_special_tokens p)
    end;
}.

Lemma decode_step s d id lps acc : same_text s d → is_Some (dget lps id) → fits_long id = true →
  ∃ s' d' t, (seq_append_token_id id lps;;; decode_sequence_inplace tokenizer p;;; mret tt) s = Ok (tt, s') ∧
    decode_token tokenizer acc id d = Ok (acc ++ t, d') ∧ same_text s' d'.
Proof.
  move=> [T1 T2 T3 T4] [l Hl] Hf.
  assert (Ha : ∃ s1, seq_append_token_id id lps s = Ok (tt, s1) ∧
    sd_cached_all_token_ids (sq_data s1) = sd_cached_all_token_ids (sq_data s) ++ [id] ∧ sq_tokens s1 = sq_tokens s ∧
    sq_prefix_offset s1 = sq_prefix_offset s ∧ sq_read_offset s1 = sq_read_offset s ∧ sq_output_text s1 = sq_output_text s ∧
    last (sq_output_logprobs s1) = Some lps).
  { rw /seq_append_token_id Hl /mbind /M_bind /mmodify /on_data /zoom /sd_append_token_id /mbind /M_bind /mlift /=.
    rw (py_array_ok [id]); first by rw /= Hf. eexists. split; first done. by rw /= last_snoc. }
  destruct Ha as (s1 & Hs1 & A1 & A2 & A3 & A4 & A5 & A6). rw {1}/mbind {1}/M_bind Hs1. rw {1}/mbind {1}/M_bind.
  set toks := det_tokens d. set po := det_prefix_offset d. set ro := det_read_offset d.
  destruct (detok_total (sd_cached_all_token_ids (sq_data s1)) toks po ro) as [[[[nt t] po'] ro'] Hd].
  { rw A1. by destruct (sd_cached_all_token_ids (sq_data s)). }
  rw /decode_token /mbind /M_bind /mmodify /mget /mlift /= T2 T3.
  rw (detok_last _ (sd_cached_all_token_ids (sq_data s1))); first by rw A1 !last_snoc.
  rw Hd. rw /decode_sequence_inplace /mbind /M_bind /mget A1 last_snoc removelast_last A2.
  assert (Hc : ∃ s2, mwhen (bool_decide (sq_tokens s = None))
     (let '(tokens, prefix_offset, read_offset) := convert_prompt_ids_to_tokens tokenizer (sd_cached_all_token_ids (sq_data s)) (skip_special_tokens p) in
      mput (set_sq_read_offset read_offset (set_sq_prefix_offset prefix_offset (set_sq_tokens (Some tokens) s1)))) s1 = Ok (tt, s2) ∧
     sq_tokens s2 = Some toks ∧ sq_prefix_offset s2 = po ∧ sq_read_offset s2 = ro ∧ sq_output_text s2 = sq_output_text s ∧
     last (sq_output_logprobs s2) = Some lps).
  { destruct (sq_tokens s) as [toks'|] eqn:Ht.
    - destruct T4 as (E1 & E2 & E3). exists s1. rw /mwhen /= A2 /toks /po /ro E1 E2 E3. by split_and!.
    - rw -T4 /=. eexists. split; first done. by split_and!. }
  destruct Hc as (s2 & -> & C1 & C2 & C3 & C4 & C5). rw C1 C2 C3 /mlift -A1 Hd C5.
  destruct (decode_logprobs_total s2 toks id t (sd_cached_all_token_ids (sq_data s)) lps C1) as [l' ->].
  eexists _, _, t. split; first done. split; first done.
  split; simpl; [by rw C4 T1|by rw T2|by rw T3|by rw C1].
Qed.
Lemma decode_steps toks : ∀ s d acc, same_text s d → Forall (λ x, is_Some (dget x.2 x.1) ∧ fits_long x.1 = true) toks →
  ∃ s' d' t, decode_sequence toks s = Ok (tt, s') ∧ mfold toks.*1 acc (decode_token tokenizer) d = Ok (t, d') ∧ same_text s' d'.
Proof.
  elim: toks => [|[id lps] toks IH] s d acc Hst Hl; first by exists s, d, acc.
  apply Forall_cons in Hl as [[Hl1 Hl2] Hl]. destruct (decode_step s d id lps acc Hst Hl1 Hl2) as (s1 & d1 & t & R1 & R2 & R3).
  destruct (IH s1 d1 (acc ++ t) R3 Hl) as (s' & d' & t' & I1 & I2 & I3). exists s', d', t'. split_and!; [| |done].
  - rw /decode_sequence. cbn [mfor]. rw {1}/mbind {1}/M_bind R1. exact I1.
  - cbn [fmap list_fmap mfold]. rw {1}/mbind {1}/M_bind R2. exact I2.
Qed.
End text.

(** C35: The two engines produce the same text. For a tokenizer that does not raise
    and any prompt and tokens, decoding a V0 sequence token by token completes
    and leaves the same output text as the V1 detokenizer of the same request,
    whatever alternatives are in the logprobs. *)
Theorem v0_text_is_v1_text tokenizer p sid prompt ids bs eos lora adapter s request toks :
  Total tokenizer → sequence_init sid prompt ids bs eos lora adapter = Ok s →
  dr_prompt_token_ids request = ids → dr_skip_special_tokens request = skip_special_tokens p →
  dr_spaces_between_special_tokens request = spaces_between_special_tokens p →
  Forall (λ x, is_Some (dget x.2 x.1) ∧ fits_long x.1 = true) toks →
  ∃ s' d t, decode_sequence tokenizer p toks s = Ok (tt, s') ∧
    mfold toks.*1 [] (decode_token tokenizer) (from_new_request tokenizer request) = Ok (t, d) ∧
    sq_output_text s' = det_output_text d.
Proof.
  move=> HT Hi Hids Hsk Hsp Hl.
  destruct (decode_steps tokenizer p toks s (from_new_request tokenizer request) []) as (s' & d & t & R1 & R2 & R3).
  - move: Hi. rw /sequence_init /from_seqs /mbind /result_bind. destruct (py_array ids) as [a|] eqn:Ha => //= [= <-].
    apply py_array_Ok in Ha as [-> _]. rw /from_new_request Hids Hsk.
    destruct (convert_prompt_ids_to_tokens _ ids _) as [[toks0 po] ro] eqn:Hc. split; simpl; try done. by rw app_nil_r Hc.
  - exact Hl.
  - exists s', d, t. split_and!; [done|done|apply R3].
Qed.
Lemma v0_text_is_v1_text_witness : ∃ s s', sequence_init 0 None [65; 66]%Z 16 None None None = Ok s ∧
  decode_sequence demo_tokenizer default_sampling_params [demo_logprobs 97; demo_logprobs 98] s = Ok (tt, s') ∧
  sq_output_text s' = [97; 98]%Z.
Proof.
  eassert (H : sequence_init 0 None [65; 66]%Z 16 None None None = Ok _) by reflexivity.
  destruct (v0_text_is_v1_text demo_tokenizer default_sampling_params _ _ _ _ _ _ _ _ demo_detok_request
    [demo_logprobs 97; demo_logprobs 98] (λ l, ex_intro _ _ eq_refl) H) as (s' & d & t & R1 & R2 & R3).
  - reflexivity.
  - reflexivity.
  - reflexivity.
  - repeat constructor; by eexists.
  - eexists _, s'. split; [exact H|]. split; [exact R1|]. vm_compute in R1. injection R1 as <-. reflexivity.
Defined.

(** * Stopping *)
Lemma reference_stop_found t stop include : (∃ s, s ∈ stop ∧ occurs s t) → ∃ r, reference_stop t stop include = Some r.
Proof.
  move=> [s [Hs Ho]]. destruct (reference_stop t stop include) as [r|] eqn:Hr; first by exists r.
  by destruct (reference_stop_None _ _ _ Hr s Hs).
Qed.

Lemma slice_prefix {A} (l : list A) b : slice l 0 b `prefix_of` l.
Proof.
  rw /slice. have -> : slice_bound (Z.of_nat (length l)) 0 = 0%nat by rw /slice_bound bool_decide_eq_false_2; lia.
  rw drop_0. apply prefix_take.
Qed.
(** The text may be cut; nothing else changes. *)
Lemma drop_stop_text_ok n p s : ∃ t, drop_stop_text n p s = Ok (tt, set_sq_output_text t s) ∧ t `prefix_of` sq_output_text s.
Proof.
  rw /drop_stop_text /mwhen /mmodify. destruct (negb _ && _).
  - eexists. split; first done. apply slice_prefix.
  - exists (sq_output_text s). split; last done. by destruct s.
Qed.
(** The stop conditions, for the newest token [t] and the text [txt]. *)
Definition stops (max_len : Z) (txt : text) (p : SamplingParams) (lora : option LoRARequest) (s : Sequence) (t : Z) : Prop :=
  (ignore_eos p = false ∧ sq_eos_token_id s = Some t) ∨ t ∈ default [] (stop_token_ids p) ∨
  (∃ x, x ∈ code_points <$> stop_list p ∧ occurs x txt) ∨
  (get_max_model_len max_len lora < sd_get_len (sq_data s))%Z ∨ sp_max_tokens p = Some (sd_get_output_len (sq_data s)).
(** The end of each branch of the check. *)
Lemma stop_branch max_len txt p lora s t (s' : Sequence) (b : bool) : (min_tokens p ≤ sd_get_output_len (sq_data s))%Z →
  sq_output_text s' `prefix_of` sq_output_text s → sq_data s' = sq_data s →
  seq_is_finished s' = b → (b = true ↔ stops max_len txt p lora s t) →
  ∃ s'' t', Ok (tt, s') = Ok (tt, s'') ∧ Some t = Some t' ∧ sq_output_text s'' `prefix_of` sq_output_text s ∧ sq_data s'' = sq_data s ∧
    (seq_is_finished s'' = true ↔ (min_tokens p ≤ sd_get_output_len (sq_data s))%Z ∧ stops max_len txt p lora s t').
Proof. move=> H0 H1 H2 H3 H4. exists s', t. do 4 (split; first done). rw H3 H4. tauto. Qed.

(** C36: When a sequence stops. Let [new] be the text of the newest token, and let no
    stop string occur in the text before it. Then the sequence is finished after
    the check exactly when the minimum number of tokens is reached and the token
    is the eos token (unless ignored) or a stop token, or a stop string occurs in
    the text, or a length limit is reached. The check only ever shortens the
    text, and never into the old part unless a stop string reaches into it. *)
Theorem stop_sequence_decides max_len old new p lora s :
  seq_is_finished s = false → sq_output_text s = old ++ new → sd_output_token_ids (sq_data s) ≠ [] →
  Forall (λ x, x ≠ []) (code_points <$> stop_list p) →
  (∀ x, x ∈ code_points <$> stop_list p → ¬ occurs x old) →
  ∃ s' t, maybe_stop_sequence max_len (Z.of_nat (length new)) p lora s = Ok (tt, s') ∧
    last (sd_output_token_ids (sq_data s)) = Some t ∧
    sq_output_text s' `prefix_of` sq_output_text s ∧ sq_data s' = sq_data s ∧
    (seq_is_finished s' = true ↔
      (min_tokens p ≤ sd_get_output_len (sq_data s))%Z ∧ stops max_len (old ++ new) p lora s t).
Proof.
  move=> Hnf Ht Hne Hstop Hold. rw /maybe_stop_sequence {1}/mbind {1}/M_bind {1}/mget.
  destruct (last (sd_output_token_ids (sq_data s))) as [t|] eqn:Hl; last by apply last_None in Hl.
  destruct (Z.ltb_spec (sd_get_output_len (sq_data s)) (min_tokens p)) as [Hmin|Hmin].
  { exists s, t. do 4 (split; first done). rw Hnf. split; [done|lia]. }
  rw /sd_get_last_token_id (bool_decide_eq_false_2 _ Hne) Hl. rw {1}/mbind {1}/M_bind /mlift.
  pose proof (λ s' b, stop_branch max_len (old ++ new) p lora s t s' b Hmin) as Hend.
  destruct (negb (ignore_eos p) && bool_decide (sq_eos_token_id s = Some t)) eqn:Heos.
  { apply andb_true_iff in Heos as [Hig%negb_true_iff Heos%bool_decide_eq_true].
    destruct (drop_stop_text_ok (Z.of_nat (length new)) p s) as (txt & Hd & Hp). rw /mbind /M_bind Hd.
    apply (Hend _ true); try done. split; [by left|done]. }
  destruct (bool_decide (t ∈ default [] (stop_token_ids p))) eqn:Htok.
  { apply bool_decide_eq_true in Htok.
    destruct (drop_stop_text_ok (Z.of_nat (length new)) p s) as (txt & Hd & Hp). rw /mbind /M_bind Hd.
    apply (Hend _ true); try done. split; [by right; left|done]. }
  apply bool_decide_eq_false in Htok.
  have Hno : ¬ (ignore_eos p = false ∧ sq_eos_token_id s = Some t).
  { move=> [H1 H2]. by rw H1 (bool_decide_eq_true_2 _ H2) in Heos. }
  rw {1}Ht check_stop_reference //.
  destruct (reference_stop (old ++ new) _ _) as [[x tr]|] eqn:Hr.
  { destruct (reference_stop_Some _ _ _ _ _ _ Hstop Hold Hr) as (j & Hx & Hj & _).
    have Hs : stops max_len (old ++ new) p lora s t by right; right; left; exists x; split; [done|by exists j].
    destruct tr as [n|]; rw /mbind /M_bind /mmodify /mret /M_ret; apply (Hend _ true); try done; simpl. apply prefix_take. }
  have Hnone := reference_stop_None _ _ _ Hr.
  destruct (Z.ltb_spec (get_max_model_len max_len lora) (sd_get_len (sq_data s))) as [Hml|Hml].
  { apply (Hend _ true); try done. split; [by right; right; right; left|done]. }
  rw /mwhen. destruct (bool_decide (sp_max_tokens p = Some (sd_get_output_len (sq_data s)))) eqn:Hmt;
    [apply bool_decide_eq_true in Hmt|apply bool_decide_eq_false in Hmt].
  - apply (Hend _ true); try done. split; [by right; right; right; right|done].
  - apply (Hend _ false); try done. split; first done. move=> [H|[H|[[x [Hx Ho]]|[H|H]]]]; [done|done| |lia|done].
    by destruct (Hnone x Hx).
Qed.
(** The text "abc" after the tokens 2 and 3; "bc" is a stop string. *)
Definition demo_stop_sequence : Sequence :=
  {| sq_seq_id := 0; sq_prompt := None; sq_prompt_token_ids := [1]%Z; sq_block_size := 16;
     sq_eos_token_id := None; sq_lora_request := None; sq_prompt_adapter_request := None;
     sq_data := sequence_data [1]%Z [2; 3]%Z; sq_output_logprobs := []; sq_output_text := [97; 98; 99]%Z;
     sq_status := SEQ_RUNNING; sq_stop_reason := None; sq_last_output_token_ids_offset := 0;
     sq_last_output_text_offset := 0; sq_prefix_offset := 0; sq_read_offset := 0; sq_tokens := None |}.
Definition demo_stop_params : SamplingParams := set_sp_stop (StopList ["bc"%string]) default_sampling_params.
Lemma stop_sequence_decides_witness : ∃ s',
  maybe_stop_sequence 100 1 demo_stop_params None demo_stop_sequence = Ok (tt, s') ∧
  seq_is_finished s' = true ∧ sq_output_text s' = [97]%Z.
Proof.
  destruct (stop_sequence_decides 100 [97; 98]%Z [99]%Z demo_stop_params None demo_stop_sequence)
    as (s' & t & H1 & _ & _ & _ & H2).
  - reflexivity.
  - reflexivity.
  - discriminate.
  - repeat constructor; discriminate.
  - intros x Hx. apply list_elem_of_singleton in Hx. subst x. exact (find_at_None [98; 99]%Z [97; 98]%Z 0 eq_refl).
  - exists s'. split; [exact H1|]. vm_compute in H1. injection H1 as <-. repeat split; reflexivity.
Defined.
