(* ===== verification/BlockTable.v ===== *)
(** The block table of a sequence: [BlockTable] of vllm/core/block/block_table.py
    and [BlockList] of vllm/core/block/common.py, over the interface
    [DeviceAwareBlockAllocator] of vllm/core/block/interfaces.py.

    The allocator is shared by all tables: an operation of a table runs on the
    pair of the allocator and the table. Block objects are references into the
    pool of the GPU allocator, which creates all blocks of tables; [NullRef] is
    the null block of the sliding window, with the object it wraps. Block sizes
    are positive. *)
From Stdlib Require Import ssreflect ZArith Lia.
From stdpp Require Import base numbers list gmap strings.
From S2P Require Import Prelude.

Inductive Device := GPU | CPU.
#[export] Instance Device_eq_dec : EqDecision Device.
Proof. solve_decision. Defined.
Inductive BlockRef := Obj (o : nat) | NullRef (o : nat).
#[export] Instance BlockRef_eq_dec : EqDecision BlockRef.
Proof. solve_decision. Defined.

(** The methods of the allocator, and of its blocks, that the clients use. *)
Class DeviceAwareBlockAllocator (S : Type) := {
  block_id : BlockRef → M S (option nat);
  token_ids : BlockRef → M S (list Z);
  block_append_token_ids : BlockRef → list Z → M S unit;
  da_allocate_mutable_block : option BlockRef → Device → option Z → M S BlockRef;
  da_allocate_immutable_blocks : option BlockRef → list (list Z) → Device → option Z → M S (list BlockRef);
  allocate_or_get_null_block : M S BlockRef;
  da_free : BlockRef → M S unit;
  da_fork : BlockRef → M S (list BlockRef);
  da_get_num_free_blocks : Device → S → Z;
  da_get_num_total_blocks : Device → S → Z;
  da_get_physical_block_id : Device → nat → S → result nat;
  da_swap : list BlockRef → Device → Device → M S (dict nat nat);
  da_get_num_full_blocks_touched : list BlockRef → Device → M S Z;
  da_clear_copy_on_writes : M S (list (nat * nat));
  da_mark_blocks_as_accessed : list nat → Z → M S unit;
  da_mark_blocks_as_computed : list nat → M S unit;
  da_get_common_computed_block_ids : list (list nat) → list nat;
  da_find_cached_blocks_prefix : list Z → M S (list Z);
}.

(** * Data *)
Record BlockList := {
  bl_blocks : list BlockRef;
  bl_block_ids : list nat;
}.
Record BlockTable := {
  tb_block_size : Z;
  tb_blocks : BlockList;
  tb_max_block_sliding_window : option Z;
  tb_num_full_slots : Z;
}.
Definition set_bl_blocks (v : list BlockRef) (r : BlockList) : BlockList :=
  {| bl_blocks := v; bl_block_ids := bl_block_ids r |}.
Definition set_bl_block_ids (v : list nat) (r : BlockList) : BlockList :=
  {| bl_blocks := bl_blocks r; bl_block_ids := v |}.
Definition set_tb_blocks (v : BlockList) (r : BlockTable) : BlockTable :=
  {| tb_block_size := tb_block_size r; tb_blocks := v; tb_max_block_sliding_window := tb_max_block_sliding_window r; tb_num_full_slots := tb_num_full_slots r |}.
Definition set_tb_num_full_slots (v : Z) (r : BlockTable) : BlockTable :=
  {| tb_block_size := tb_block_size r; tb_blocks := tb_blocks r; tb_max_block_sliding_window := tb_max_block_sliding_window r; tb_num_full_slots := v |}.

Section table.
Context {S : Type} `{DA : DeviceAwareBlockAllocator S}.

Abbreviation TB := (M (S * BlockTable)).
Definition on_allocator {A} (m : M S A) : TB A := zoom fst (λ s st, (s, st.2)) m.
Definition on_table {A} (m : M BlockTable A) : TB A := zoom snd (λ t st, (st.1, t)) m.
Definition the_table : TB BlockTable := mgets snd.

(** * [BlockList] *)
Definition some_block_id (o : option nat) : result nat :=
  match o with Some id => Ok id | None => Raise (AssertionError "block_id is not None") end.
(** [update]: the cached ids are read anew. *)
Definition block_list_update (blocks : list BlockRef) : M S BlockList :=
  ids ← mfold blocks [] (λ ids b, id ← block_id b; id ← mlift (some_block_id id); mret (ids ++ [id]));
  mret {| bl_blocks := blocks; bl_block_ids := ids |}.
(** [self._block_ids[block_index] = new_block_id] *)
Definition update_block_id (block_index : nat) (new_block_id : option nat) (l : BlockList) : result BlockList :=
  id ← some_block_id new_block_id;
  if bool_decide (block_index < length (bl_block_ids l)) then Ok (set_bl_block_ids (<[block_index := id]> (bl_block_ids l)) l)
  else Raise (IndexError "list assignment index out of range").
Definition block_at (block_index : nat) (l : BlockList) : result BlockRef :=
  match bl_blocks l !! block_index with Some b => Ok b | None => Raise (IndexError "list index out of range") end.
Definition block_list_append_token_ids (block_index : nat) (toks : list Z) (l : BlockList) : M S BlockList :=
  block ← mlift (block_at block_index l);
  prev_block_id ← block_id block;
  block_append_token_ids block toks;;;
  new_block_id ← block_id block;
  if bool_decide (prev_block_id = new_block_id) then mret l else mlift (update_block_id block_index new_block_id l).
Definition block_list_append (new_block : BlockRef) (l : BlockList) : M S BlockList :=
  id ← block_id new_block;
  id ← mlift (some_block_id id);
  mret {| bl_blocks := bl_blocks l ++ [new_block]; bl_block_ids := bl_block_ids l ++ [id] |}.
Definition block_list_set (block_index : nat) (new_block : BlockRef) (l : BlockList) : M S BlockList :=
  if bool_decide (block_index < length (bl_blocks l)) then
    id ← block_id new_block;
    mlift (update_block_id block_index id (set_bl_blocks (<[block_index := new_block]> (bl_blocks l)) l))
  else mraise (IndexError "list assignment index out of range").
Definition block_list_empty : BlockList := {| bl_blocks := []; bl_block_ids := [] |}.

(** A block on the list of the table. *)
Definition on_blocks (m : BlockList → M S BlockList) : TB unit :=
  t ← the_table;
  l ← on_allocator (m (tb_blocks t));
  on_table (mmodify (set_tb_blocks l)).

(** * [BlockTable] *)
Definition get_num_token_ids (blocks : list BlockRef) : M S Z :=
  mfold blocks 0%Z (λ n b, toks ← token_ids b; mret (n + Z.of_nat (length toks))%Z).
Definition block_table_init (block_size : Z) (blocks : list BlockRef) (max_block_sliding_window : option Z) : M S BlockTable :=
  l ← block_list_update blocks;
  n ← get_num_token_ids blocks;
  mret {| tb_block_size := block_size; tb_blocks := l; tb_max_block_sliding_window := max_block_sliding_window;
          tb_num_full_slots := n |}.
Definition get_num_required_blocks (toks : list Z) (block_size num_lookahead_slots : Z) : Z :=
  cdiv (Z.of_nat (length toks) + num_lookahead_slots) block_size.
Definition tb_len (t : BlockTable) : Z := Z.of_nat (length (bl_blocks (tb_blocks t))).
Definition is_allocated (t : BlockTable) : bool := (0 <? tb_len t)%Z.
Definition tb_num_empty_slots (t : BlockTable) : result Z :=
  if is_allocated t then Ok (tb_len t * tb_block_size t - tb_num_full_slots t)%Z
  else Raise (AssertionError "self._is_allocated").

(** [chunk_list(lst, chunk_size)]: the slices from each multiple of the size. *)
Definition chunk_list (l : list Z) (chunk_size : nat) : list (list Z) :=
  (λ i, take chunk_size (drop (i * chunk_size) l)) <$> seq 0 (Z.to_nat (cdiv (Z.of_nat (length l)) (Z.of_nat chunk_size))).

Definition allocate_blocks_for_token_ids (prev_block : option BlockRef) (toks : list Z) (device : Device) (extra_hash : option Z)
    : TB (list BlockRef) :=
  t ← the_table;
  let chunks := chunk_list toks (Z.to_nat (tb_block_size t)) in
  let block_token_ids := filter (λ c, Z.of_nat (length c) = tb_block_size t) chunks in
  let tail_token_ids := filter (λ c, Z.of_nat (length c) ≠ tb_block_size t) chunks in
  blocks ← (if bool_decide (block_token_ids = []) then mret []
            else on_allocator (da_allocate_immutable_blocks prev_block block_token_ids device extra_hash));
  prev_block ← (if bool_decide (block_token_ids = []) then mret prev_block
                else match last blocks with
                     | Some b => mret (Some b)
                     | None => mraise (IndexError "list index out of range")
                     end);
  match tail_token_ids with
  | [] => mret blocks
  | cur_token_ids :: rest =>
    massert (bool_decide (rest = [])) "len(tail_token_ids) == 1";;;
    block ← on_allocator (da_allocate_mutable_block prev_block device extra_hash);
    on_allocator (block_append_token_ids block cur_token_ids);;;
    mret (blocks ++ [block])
  end.
Definition table_update (blocks : list BlockRef) : TB unit :=
  l ← on_allocator (block_list_update blocks); on_table (mmodify (set_tb_blocks l)).
Definition table_allocate (toks : list Z) (device : Device) (extra_hash : option Z) : TB unit :=
  t ← the_table;
  massert (negb (is_allocated t)) "not self._is_allocated";;;
  massert (negb (bool_decide (toks = []))) "token_ids";;;
  blocks ← allocate_blocks_for_token_ids None toks device extra_hash;
  table_update blocks;;;
  on_table (mmodify (set_tb_num_full_slots (Z.of_nat (length toks)))).

Definition ensure_num_empty_slots (num_empty_slots : Z) (extra_hash : option Z) : TB unit :=
  t ← the_table;
  massert (is_allocated t) "self._is_allocated";;;
  empty ← mlift (tb_num_empty_slots t);
  if (num_empty_slots <=? empty)%Z then mret tt
  else
    let blocks_to_allocate := cdiv (num_empty_slots - empty) (tb_block_size t) in
    mfor (seq 0 (Z.to_nat blocks_to_allocate)) (λ _,
      t ← the_table;
      massert (is_allocated t) "len(self._blocks) > 0";;;
      match last (bl_blocks (tb_blocks t)) with
      | None => mraise (IndexError "list index out of range")
      | Some prev =>
        new_block ← on_allocator (da_allocate_mutable_block (Some prev) GPU extra_hash);
        on_blocks (block_list_append new_block)
      end).
Definition chunk_token_blocks_for_append (toks : list Z) (t : BlockTable) : list (list Z) :=
  if bool_decide (toks = []) then []
  else
    let first_chunk_size := Z.to_nat (tb_block_size t - tb_num_full_slots t `mod` tb_block_size t) in
    take first_chunk_size toks :: chunk_list (drop first_chunk_size toks) (Z.to_nat (tb_block_size t)).
(** The blocks that fell out of the sliding window. *)
Definition drop_window (num_computed_slots : option Z) : TB unit :=
  t ← the_table;
  match tb_max_block_sliding_window t with
  | None => mret tt
  | Some max_block_sliding_window =>
    null_block ← on_allocator allocate_or_get_null_block;
    match num_computed_slots with
    | None => mraise (AssertionError "num_computed_slots is not None")
    | Some n =>
      let end_block_idx := (n / tb_block_size t - max_block_sliding_window)%Z in
      mfor (seq 0 (Z.to_nat end_block_idx)) (λ idx,
        t ← the_table;
        b ← mlift (block_at idx (tb_blocks t));
        mwhen (negb (bool_decide (b = null_block)))
          (on_allocator (da_free b);;; on_blocks (block_list_set idx null_block)))
    end
  end.
Definition table_append_token_ids (toks : list Z) (num_lookahead_slots : Z) (num_computed_slots extra_hash : option Z) : TB unit :=
  t ← the_table;
  massert (is_allocated t) "no blocks have been allocated";;;
  massert (0 <? tb_len t)%Z "len(self._blocks) > 0";;;
  drop_window num_computed_slots;;;
  ensure_num_empty_slots (Z.of_nat (length toks) + num_lookahead_slots) extra_hash;;;
  t ← the_table;
  let first_block_idx := Z.to_nat (tb_num_full_slots t / tb_block_size t) in
  let token_blocks := chunk_token_blocks_for_append toks t in
  mfor (imap pair token_blocks) (λ '(i, token_block), on_blocks (block_list_append_token_ids (first_block_idx + i) token_block));;;
  on_table (mmodify (λ t, set_tb_num_full_slots (tb_num_full_slots t + Z.of_nat (length toks)) t)).

(** A new table for the forked blocks. *)
Definition table_fork : TB BlockTable :=
  t ← the_table;
  massert (is_allocated t) "self._is_allocated";;;
  match last (bl_blocks (tb_blocks t)) with
  | None => mraise (AssertionError "len(self._blocks) > 0")
  | Some b =>
    forked_blocks ← on_allocator (da_fork b);
    on_allocator (block_table_init (tb_block_size t) forked_blocks (tb_max_block_sliding_window t))
  end.
Definition table_free : TB unit :=
  t ← the_table;
  mfor (bl_blocks (tb_blocks t)) (λ b, on_allocator (da_free b));;;
  on_table (mmodify (set_tb_blocks block_list_empty)).
Definition physical_block_ids (t : BlockTable) : list nat := bl_block_ids (tb_blocks t).
Definition get_unseen_token_ids (sequence_token_ids : list Z) (t : BlockTable) : list Z :=
  slice sequence_token_ids (tb_num_full_slots t) (Z.of_nat (length sequence_token_ids)).
(** [math.ceil(a / b)] is taken to be exact. *)
Definition get_num_blocks_touched_by_append_slots (toks : list Z) (num_lookahead_slots : Z) (t : BlockTable) : Z :=
  let num_token_ids := (Z.of_nat (length toks) + num_lookahead_slots)%Z in
  let first_chunk_size := (tb_block_size t - tb_num_full_slots t `mod` tb_block_size t)%Z in
  (1 + cdiv (num_token_ids - first_chunk_size) (tb_block_size t))%Z.
End table.
