(* ===== verification/CpuGpu.v ===== *)
(** [CpuGpuBlockAllocator] and [NullBlock] of
    vllm/core/block/cpu_gpu_block_allocator.py, over the interface
    [BlockAllocator] of vllm/core/block/interfaces.py, which the naive and the
    prefix-caching allocator implement.

    The blocks of tables are objects of the GPU pool. When a sequence is swapped
    out, its objects stay what they are and get block ids of the CPU allocator,
    which then works on objects of the other pool: the operations with [away] in
    their name run on the pair of the allocator and the one that owns the
    objects. A temporary block made for a foreign object has no previous block in
    the model: the code sets that of the foreign object, and reads it for the
    content hash only, which is computed from the foreign objects here. The
    platform is not HPU, which reserves block 0. *)
From Stdlib Require Import ssreflect ZArith Lia.
From stdpp Require Import base numbers list gmap strings sorting.
From S2P Require Import Prelude NaiveBlocks Evictor CacheMetric PrefixCaching BlockTable.

Class BlockAllocator (A : Type) := {
  ba_block : nat → M A NaiveBlock;
  ba_append_token_ids : nat → list Z → M A unit;
  ba_allocate_mutable_block : option nat → option Z → M A nat;
  ba_allocate_immutable_blocks : option nat → list (list Z) → option Z → M A (list nat);
  ba_free : nat → M A unit;
  ba_free_away : nat → M (A * A) unit;
  ba_fork : nat → M A (list nat);
  ba_swap_out_block : nat → M A unit;
  ba_swap_out_block_away : nat → M (A * A) unit;
  ba_swap_in_block : nat → M A unit;
  ba_swap_in_block_away : nat → M (A * A) unit;
  ba_get_num_full_blocks_touched : list nat → M A nat;
  ba_get_num_full_blocks_touched_away : list nat → M (A * A) nat;
  ba_get_num_free_blocks : A → nat;
  ba_get_num_total_blocks : A → nat;
  ba_get_physical_block_id : nat → A → result nat;
  ba_all_block_ids : A → gset nat;
  ba_clear_copy_on_writes : M A (list (nat * nat));
  ba_mark_blocks_as_accessed : list nat → Z → M A unit;
  ba_mark_blocks_as_computed : list nat → M A unit;
  ba_get_common_computed_block_ids : list (list nat) → list nat;
  ba_find_cached_blocks_prefix : list Z → M A (list Z);
}.

(** An operation on the allocator itself, and on the owner of the objects. *)
Definition own {A B} (m : M A B) : M (A * A) B := zoom fst (λ a s, (a, s.2)) m.
Definition owner_of {A B} (m : M A B) : M (A * A) B := zoom snd (λ a s, (s.1, a)) m.

(** * The naive allocator on foreign objects *)
Definition free_block_id_away (o : nat) : M (NaiveBlockAllocator * NaiveBlockAllocator) unit :=
  b ← owner_of (the_block o);
  match nb_block_id b with
  | None => mraise (AssertionError "block_id is not None")
  | Some block_id =>
    refcount ← own (ref_decr block_id);
    mwhen (refcount =? 0)%Z (own (mmodify (λ s, set_free_block_indices (block_id :: free_block_indices s) s)));;;
    owner_of (upd_block o (set_nb_block_id None))
  end.
(** [BlockPool.free_block] returns the index of the foreign object to the pool of
    the allocator itself. *)
Definition pool_free_block_away (o : nat) : M (NaiveBlockAllocator * NaiveBlockAllocator) unit :=
  b ← owner_of (the_block o);
  match nb_pool_id b with
  | Some i => own (on_pool (mmodify (λ p, set_bp_free_ids (i :: bp_free_ids p) p)))
  | None => mraise (AttributeError "pool_id")
  end.
Definition naive_free_away (o : nat) : M (NaiveBlockAllocator * NaiveBlockAllocator) unit :=
  free_block_id_away o;;; pool_free_block_away o.
Definition swap_in_block_away (o : nat) : M (NaiveBlockAllocator * NaiveBlockAllocator) unit :=
  b ← owner_of (the_block o);
  tmp ← own (if nb_is_full b then allocate_immutable_block None (nb_token_ids b)
             else o ← allocate_mutable_block None; append_token_ids o (nb_token_ids b);;; mret o);
  t ← own (the_block tmp);
  own (upd_block tmp (set_nb_block_id None);;; pool_free_block tmp);;;
  owner_of (upd_block o (set_nb_block_id (nb_block_id t))).

#[export] Instance naive_block_allocator : BlockAllocator NaiveBlockAllocator := {|
  ba_block := the_block;
  ba_append_token_ids := append_token_ids;
  ba_allocate_mutable_block prev _ := allocate_mutable_block prev;
  ba_allocate_immutable_blocks prev l _ := allocate_immutable_blocks prev l;
  ba_free o := naive_free o false;
  ba_free_away := naive_free_away;
  ba_fork := naive_fork;
  ba_swap_out_block := free_block_id;
  ba_swap_out_block_away := free_block_id_away;
  ba_swap_in_block := swap_in_block;
  ba_swap_in_block_away := swap_in_block_away;
  ba_get_num_full_blocks_touched := get_num_full_blocks_touched;
  ba_get_num_full_blocks_touched_away l := owner_of (get_num_full_blocks_touched l);
  ba_get_num_free_blocks := na_get_num_free_blocks;
  ba_get_num_total_blocks := get_num_total_blocks;
  ba_get_physical_block_id := get_physical_block_id;
  ba_all_block_ids := all_block_indices;
  ba_clear_copy_on_writes := clear_copy_on_writes;
  ba_mark_blocks_as_accessed _ _ := mret tt;
  ba_mark_blocks_as_computed _ := mret tt;
  ba_get_common_computed_block_ids _ := [];
  ba_find_cached_blocks_prefix _ := mret [];
|}.

(** * The prefix-caching allocator on foreign objects *)
Section prefix.
Context (py_hash : bool * option Z * list Z * option Z → Z).
Abbreviation PC2 := (M (PrefixCachingBlockAllocator * PrefixCachingBlockAllocator)).

Definition on_hashless_pair {B} (m : M (NaiveBlockAllocator * NaiveBlockAllocator) B) : PC2 B :=
  zoom (λ s, (pa_hashless s.1, pa_hashless s.2)) (λ h s, (set_pa_hashless h.1 s.1, set_pa_hashless h.2 s.2)) m.
Definition decr_refcount_cached_block_away (o : nat) : PC2 unit :=
  h ← owner_of (the_content_hash py_hash o);
  block_id ← owner_of (block_id_of o);
  refcount ← own (on_hashless (ref_decr block_id));
  if (0 <? refcount)%Z then owner_of (on_hashless (upd_block o (set_nb_block_id None)))
  else
    massert (refcount =? 0)%Z "refcount == 0";;;
    s ← mget;
    massert (bool_decide (is_Some (pa_cached_blocks s.1 !! h))) "block.content_hash in self._cached_blocks";;;
    t ← own (the_tracker block_id);
    own (on_evictor (evictor_add (Z.of_nat block_id) h (Z.of_nat (pb_cached_num_tokens_total (attrs_of s.2 o))) (bt_last_accessed t)));;;
    own (untrack_block_id block_id);;;
    owner_of (on_hashless (upd_block o (set_nb_block_id None))).
Definition decr_refcount_hashless_block_away (o : nat) : PC2 unit :=
  block_id ← owner_of (block_id_of o);
  refcount ← own (on_hashless (ref_get block_id));
  mwhen (refcount =? 1)%Z (own (untrack_block_id block_id));;;
  on_hashless_pair (free_block_id_away o).
Definition pc_free_block_id_away (o : nat) : PC2 unit :=
  owner_of (block_id_of o);;;
  h ← owner_of (content_hash py_hash o);
  match h with Some _ => decr_refcount_cached_block_away o | None => decr_refcount_hashless_block_away o end;;;
  b ← owner_of (pc_block o);
  massert (bool_decide (nb_block_id b = None)) "block.block_id is None".
Definition pc_free_away (o : nat) : PC2 unit :=
  pc_free_block_id_away o;;; on_hashless_pair (pool_free_block_away o).

(** The content hash of a temporary block whose previous block is the foreign
    object [prev]; it is memoized in the block. *)
Definition hash_away (prev : option nat) (o : nat) : PC2 (option Z) :=
  b ← own (pc_block o);
  s ← mget;
  match pb_cached_content_hash (attrs_of s.1 o) with
  | Some h => mret (Some h)
  | None =>
    if negb (nb_is_full b) then mret None
    else
      let is_first_block := bool_decide (prev = None) in
      prev_block_hash ← match prev with Some p => owner_of (content_hash py_hash p) | None => mret None end;
      if bool_decide (prev_block_hash = None) && negb is_first_block then mret None
      else
        h ← mlift (hash_block_tokens py_hash is_first_block prev_block_hash (nb_token_ids b) (pb_extra_hash (attrs_of s.1 o)));
        own (upd_attrs o (set_pb_cached_content_hash (Some h)));;;
        mret (Some h)
  end.
Definition pc_append_token_ids_away (prev : option nat) (o : nat) (toks : list Z) : PC2 unit :=
  h ← hash_away prev o;
  massert (bool_decide (h = None)) "self.content_hash is None";;;
  s ← mget;
  massert (negb (pb_computed (attrs_of s.1 o))) "not self.computed";;;
  if bool_decide (toks = []) then mret tt
  else
    own (pc_naive_append o toks);;;
    own (update_num_tokens_total o);;;
    h ← hash_away prev o;
    match h with
    | None => mret tt
    | Some _ => own (id ← promote_to_immutable_block py_hash o; on_hashless (upd_block o (set_nb_block_id (Some id))))
    end.
Definition pc_allocate_immutable_block_away (prev : option nat) (toks : list Z) (extra_hash : option Z) : PC2 nat :=
  o ← own (pc_init_block None toks None extra_hash);
  h ← hash_away prev o;
  match h with
  | None => mraise (AssertionError "block.content_hash is not None")
  | Some h =>
    s ← mget;
    match pa_cached_blocks s.1 !! h with
    | Some cached_block_id =>
      own (mmodify (λ s, set_pa_metric_data (metric_query true (pa_metric_data s)) s);;;
           on_hashless (upd_block o (set_nb_block_id (Some cached_block_id)));;;
           incr_refcount_cached_block o);;;
      mret o
    | None =>
      o ← own (mmodify (λ s, set_pa_metric_data (metric_query false (pa_metric_data s)) s);;;
               on_hashless (pool_free_block o);;;
               pc_allocate_mutable_block py_hash None extra_hash);
      pc_append_token_ids_away prev o toks;;;
      mret o
    end
  end.
Definition pc_swap_in_block_away (o : nat) : PC2 unit :=
  b ← owner_of (pc_block o);
  s ← mget;
  let extra_hash := pb_extra_hash (attrs_of s.2 o) in
  tmp_block ← (if nb_is_full b then pc_allocate_immutable_block_away (nb_prev_block b) (nb_token_ids b) extra_hash
               else tmp ← own (pc_allocate_mutable_block py_hash None extra_hash);
                    pc_append_token_ids_away (nb_prev_block b) tmp (nb_token_ids b);;; mret tmp);
  t ← own (pc_block tmp_block);
  own (on_hashless (pool_free_block tmp_block));;;
  owner_of (on_hashless (upd_block o (set_nb_block_id (nb_block_id t)))).
Definition pc_get_num_full_blocks_touched_away (blocks : list nat) : PC2 nat :=
  mfold blocks 0 (λ num_touched_blocks o,
    b ← owner_of (pc_block o);
    if negb (nb_is_full b) then mret num_touched_blocks
    else
      h ← owner_of (the_content_hash py_hash o);
      s ← mget;
      mret (match pa_cached_blocks s.1 !! h with
            | None => num_touched_blocks + 1
            | Some id => if evictor_contains (Z.of_nat id) (pa_evictor s.1) then num_touched_blocks + 1 else num_touched_blocks
            end)).

Definition prefix_block_allocator : BlockAllocator PrefixCachingBlockAllocator := {|
  ba_block := pc_block;
  ba_append_token_ids := pc_append_token_ids py_hash;
  ba_allocate_mutable_block := pc_allocate_mutable_block py_hash;
  ba_allocate_immutable_blocks := pc_allocate_immutable_blocks py_hash;
  ba_free o := pc_free py_hash o false;
  ba_free_away := pc_free_away;
  ba_fork := pc_fork;
  ba_swap_out_block := pc_free_block_id py_hash;
  ba_swap_out_block_away := pc_free_block_id_away;
  ba_swap_in_block := pc_swap_in_block py_hash;
  ba_swap_in_block_away := pc_swap_in_block_away;
  ba_get_num_full_blocks_touched := pc_get_num_full_blocks_touched py_hash;
  ba_get_num_full_blocks_touched_away := pc_get_num_full_blocks_touched_away;
  ba_get_num_free_blocks := pc_get_num_free_blocks;
  ba_get_num_total_blocks s := get_num_total_blocks (pa_hashless s);
  ba_get_physical_block_id id s := get_physical_block_id id (pa_hashless s);
  ba_all_block_ids s := all_block_indices (pa_hashless s);
  ba_clear_copy_on_writes := pc_clear_copy_on_writes;
  ba_mark_blocks_as_accessed := mark_blocks_as_accessed;
  ba_mark_blocks_as_computed _ := mark_blocks_as_computed;
  ba_get_common_computed_block_ids := get_common_computed_block_ids;
  ba_find_cached_blocks_prefix := find_cached_blocks_prefix;
|}.
End prefix.

(** * [CpuGpuBlockAllocator] *)
Record CpuGpuBlockAllocator (A : Type) := {
  cg_gpu : A;
  cg_cpu : A;
  cg_swap_mapping : dict nat nat;
  cg_null_block : option nat;
}.
Arguments cg_gpu {A}. Arguments cg_cpu {A}. Arguments cg_swap_mapping {A}. Arguments cg_null_block {A}.
Section cpu_gpu.
Context {A : Type}.
Definition set_cg_gpu (v : A) (r : CpuGpuBlockAllocator A) : CpuGpuBlockAllocator A :=
  {| cg_gpu := v; cg_cpu := cg_cpu r; cg_swap_mapping := cg_swap_mapping r; cg_null_block := cg_null_block r |}.
Definition set_cg_cpu (v : A) (r : CpuGpuBlockAllocator A) : CpuGpuBlockAllocator A :=
  {| cg_gpu := cg_gpu r; cg_cpu := v; cg_swap_mapping := cg_swap_mapping r; cg_null_block := cg_null_block r |}.
Definition set_cg_swap_mapping (v : dict nat nat) (r : CpuGpuBlockAllocator A) : CpuGpuBlockAllocator A :=
  {| cg_gpu := cg_gpu r; cg_cpu := cg_cpu r; cg_swap_mapping := v; cg_null_block := cg_null_block r |}.
Definition set_cg_null_block (v : option nat) (r : CpuGpuBlockAllocator A) : CpuGpuBlockAllocator A :=
  {| cg_gpu := cg_gpu r; cg_cpu := cg_cpu r; cg_swap_mapping := cg_swap_mapping r; cg_null_block := v |}.

Context `{BA : BlockAllocator A}.
Abbreviation CG := (M (CpuGpuBlockAllocator A)).

(** [self._allocators[device]] *)
Definition device_allocator (d : Device) (s : CpuGpuBlockAllocator A) : A := match d with GPU => cg_gpu s | CPU => cg_cpu s end.
Definition on_device {B} (d : Device) (m : M A B) : CG B :=
  match d with GPU => zoom cg_gpu set_cg_gpu m | CPU => zoom cg_cpu set_cg_cpu m end.
(** The CPU allocator on an object of the GPU pool. *)
Definition on_cpu_away {B} (m : M (A * A) B) : CG B :=
  zoom (λ s, (cg_cpu s, cg_gpu s)) (λ a s, set_cg_cpu a.1 (set_cg_gpu a.2 s)) m.
(** An operation of one of the allocators on an object of the GPU pool. *)
Definition on_object {B} (d : Device) (home : M A B) (away : M (A * A) B) : CG B :=
  match d with GPU => on_device GPU home | CPU => on_cpu_away away end.
(** [self._block_ids_to_allocator[block_id]] *)
Definition device_of (block_id : nat) (s : CpuGpuBlockAllocator A) : result Device :=
  if bool_decide (block_id ∈ ba_all_block_ids (cg_gpu s)) then Ok GPU
  else if bool_decide (block_id ∈ ba_all_block_ids (cg_cpu s)) then Ok CPU
  else Raise (KeyError "block_id").
Definition object_of (b : BlockRef) : nat := match b with Obj o | NullRef o => o end.

Definition cg_block (b : BlockRef) : CG NaiveBlock := on_device GPU (ba_block (object_of b)).
Definition cg_block_append_token_ids (b : BlockRef) (toks : list Z) : CG unit :=
  match b with
  | NullRef _ => mraise (ValueError "null block should not be modified")
  | Obj o => on_device GPU (ba_append_token_ids o toks)
  end.
Definition cg_allocate_mutable_block (prev_block : option BlockRef) (device : Device) (extra_hash : option Z) : CG BlockRef :=
  o ← on_device device (ba_allocate_mutable_block (object_of <$> prev_block) extra_hash); mret (Obj o).
Definition cg_allocate_immutable_blocks (prev_block : option BlockRef) (block_token_ids : list (list Z)) (device : Device)
    (extra_hash : option Z) : CG (list BlockRef) :=
  os ← on_device device (ba_allocate_immutable_blocks (object_of <$> prev_block) block_token_ids extra_hash); mret (Obj <$> os).
Definition cg_allocate_or_get_null_block : CG BlockRef :=
  s ← mget;
  match cg_null_block s with
  | Some o => mret (NullRef o)
  | None =>
    b ← cg_allocate_mutable_block None GPU None;
    mmodify (set_cg_null_block (Some (object_of b)));;;
    mret (NullRef (object_of b))
  end.
Definition cg_free (b : BlockRef) : CG unit :=
  match b with
  | NullRef _ => mret tt
  | Obj o =>
    blk ← cg_block b;
    match nb_block_id blk with
    | None => mraise (AssertionError "block_id is not None")
    | Some id => s ← mget; d ← mlift (device_of id s); on_object d (ba_free o) (ba_free_away o)
    end
  end.
(** Sequences are forked while they are on the GPU; a fork on the CPU, which would
    make objects in the other pool, is not modelled. *)
Definition cg_fork (b : BlockRef) : CG (list BlockRef) :=
  match b with
  | NullRef _ => mraise (AssertionError "not isinstance(last_block, NullBlock)")
  | Obj o =>
    blk ← cg_block b;
    match nb_block_id blk with
    | None => mraise (AssertionError "block_id is not None")
    | Some id =>
      s ← mget;
      d ← mlift (device_of id s);
      match d with GPU => os ← on_device GPU (ba_fork o); mret (Obj <$> os) | CPU => mraise NotImplementedError end
    end
  end.
Definition swap_out_ref (d : Device) (b : BlockRef) : CG unit :=
  match b with
  | NullRef _ => mraise (ValueError "null block should not be modified")
  | Obj o => on_object d (ba_swap_out_block o) (ba_swap_out_block_away o)
  end.
Definition swap_in_ref (d : Device) (b : BlockRef) : CG unit :=
  match b with
  | NullRef _ => mraise (ValueError "null block should not be modified")
  | Obj o => on_object d (ba_swap_in_block o) (ba_swap_in_block_away o)
  end.
Definition cg_block_ids (blocks : list BlockRef) : CG (list (option nat)) :=
  mfold blocks [] (λ ids b, blk ← cg_block b; mret (ids ++ [nb_block_id blk])).
Definition cg_swap (blocks : list BlockRef) (src_device dst_device : Device) : CG (dict nat nat) :=
  src_block_ids ← cg_block_ids blocks;
  mfor blocks (swap_out_ref src_device);;;
  mfor blocks (swap_in_ref dst_device);;;
  dst_block_ids ← cg_block_ids blocks;
  mfold (zip src_block_ids dst_block_ids) [] (λ current_swap_mapping '(src, dst),
    match src, dst with
    | Some src, Some dst =>
      mmodify (λ s, set_cg_swap_mapping (dset (cg_swap_mapping s) src dst) s);;;
      mret (dset current_swap_mapping src dst)
    | _, _ => mret current_swap_mapping
    end).
(** The null block is empty, hence not full. *)
Definition cg_get_num_full_blocks_touched (blocks : list BlockRef) (device : Device) : CG Z :=
  let os := omap (λ b, match b with Obj o => Some o | NullRef _ => None end) blocks in
  n ← on_object device (ba_get_num_full_blocks_touched os) (ba_get_num_full_blocks_touched_away os);
  mret (Z.of_nat n).
Definition get_and_reset_swaps : CG (list (nat * nat)) :=
  s ← mget; mput (set_cg_swap_mapping [] s);;; mret (cg_swap_mapping s).

#[export] Instance cpu_gpu_allocator : DeviceAwareBlockAllocator (CpuGpuBlockAllocator A) := {|
  block_id b := blk ← cg_block b; mret (nb_block_id blk);
  token_ids b := blk ← cg_block b; mret (nb_token_ids blk);
  block_append_token_ids := cg_block_append_token_ids;
  da_allocate_mutable_block := cg_allocate_mutable_block;
  da_allocate_immutable_blocks := cg_allocate_immutable_blocks;
  allocate_or_get_null_block := cg_allocate_or_get_null_block;
  da_free := cg_free;
  da_fork := cg_fork;
  da_get_num_free_blocks d s := Z.of_nat (ba_get_num_free_blocks (device_allocator d s));
  da_get_num_total_blocks d s := Z.of_nat (ba_get_num_total_blocks (device_allocator d s));
  da_get_physical_block_id d id s := ba_get_physical_block_id id (device_allocator d s);
  da_swap := cg_swap;
  da_get_num_full_blocks_touched := cg_get_num_full_blocks_touched;
  da_clear_copy_on_writes := on_device GPU ba_clear_copy_on_writes;
  da_mark_blocks_as_accessed ids now := on_device GPU (ba_mark_blocks_as_accessed ids now);
  da_mark_blocks_as_computed ids := on_device GPU (ba_mark_blocks_as_computed ids);
  da_get_common_computed_block_ids := ba_get_common_computed_block_ids;
  da_find_cached_blocks_prefix hs := on_device GPU (ba_find_cached_blocks_prefix hs);
|}.

(** [__init__]: the ids of the two allocators must not overlap. *)
Definition cpu_gpu_init (gpu cpu : A) : result (CpuGpuBlockAllocator A) :=
  if bool_decide (ba_all_block_ids cpu ∩ ba_all_block_ids gpu = ∅)
  then Ok {| cg_gpu := gpu; cg_cpu := cpu; cg_swap_mapping := []; cg_null_block := None |}
  else Raise (AssertionError "cpu and gpu block allocators can't have intersection of block ids").
(** [create], given the constructor of the allocators of the chosen type. *)
Definition cpu_gpu_create (make : nat → nat → option (list nat) → result A) (num_gpu_blocks num_cpu_blocks block_size : nat)
    : result (CpuGpuBlockAllocator A) :=
  let block_ids := seq 0 (num_gpu_blocks + num_cpu_blocks) in
  gpu_allocator ← make num_gpu_blocks block_size (Some (take num_gpu_blocks block_ids));
  cpu_allocator ← make num_cpu_blocks block_size (Some (drop num_gpu_blocks block_ids));
  cpu_gpu_init gpu_allocator cpu_allocator.
End cpu_gpu.
