(* ===== verification/BlockManager.v ===== *)
(** The V0 block manager: [SelfAttnBlockSpaceManager] of
    vllm/core/block_manager.py, with [ComputedBlocksTracker] and
    [LastAccessBlocksTracker] of vllm/core/block/prefix_caching_block.py.

    The manager is written against the interface of the allocator; the hashes of
    blocks and of adapters are parameters, as in [PrefixCaching] and
    [Sequences]. Sequences and groups are values here: the manager only reads
    them. *)
From Stdlib Require Import ssreflect ZArith Lia PrimFloat FloatOps SpecFloat Uint63.
From stdpp Require Import base numbers list gmap strings.
From S2P Require Import Prelude Detokenizer SequenceData Sequences PrefixCaching BlockTable.

(** [dict.__getitem__] and [int(x)] of a float. *)
Definition dict_at {K V} `{EqDecision K} (d : dict K V) (k : K) : result V :=
  match dget d k with Some v => Ok v | None => Raise (KeyError "key") end.
Definition int_of_float (x : float) : result Z :=
  match Prim2SF x with
  | S754_zero _ => Ok 0%Z
  | S754_finite s m e =>
    let v := if (0 <=? e)%Z then (Z.pos m * 2 ^ e)%Z else (Z.pos m / 2 ^ (- e))%Z in Ok (if s then - v else v)%Z
  | S754_infinity _ => Raise (OverflowError "cannot convert float infinity to integer")
  | S754_nan => Raise (ValueError "cannot convert float NaN to integer")
  end.

(** * Trackers *)
Record ComputedBlocksTracker := {
  seq_id_to_blocks_hashes : dict Z (list Z);
  seq_id_to_num_tokens_computed : dict Z Z;
}.
Definition set_seq_id_to_blocks_hashes (v : dict Z (list Z)) (r : ComputedBlocksTracker) : ComputedBlocksTracker :=
  {| seq_id_to_blocks_hashes := v; seq_id_to_num_tokens_computed := seq_id_to_num_tokens_computed r |}.
Definition set_seq_id_to_num_tokens_computed (v : dict Z Z) (r : ComputedBlocksTracker) : ComputedBlocksTracker :=
  {| seq_id_to_blocks_hashes := seq_id_to_blocks_hashes r; seq_id_to_num_tokens_computed := v |}.
Definition computed_tracker_init : ComputedBlocksTracker :=
  {| seq_id_to_blocks_hashes := []; seq_id_to_num_tokens_computed := [] |}.

Abbreviation CT := (M ComputedBlocksTracker).
Abbreviation LA := (M (dict Z (option Z))).

Section hashes.
Context (py_hash : bool * option Z * list Z * option Z → Z) (pair_hash : Z * Z → Z).

(** The loop of [_update_seq_hashes] over the blocks [i], ... [i + n - 1]. *)
Fixpoint seq_hashes_loop (n i : nat) (block_size : nat) (toks : list Z) (extra_hash prev_block_hash : option Z) (recorded : list Z)
    : result (list Z) :=
  match n with
  | 0 => Ok recorded
  | S n =>
    if bool_decide ((i + 1) * block_size ≤ length toks) then
      let block_token_ids := take block_size (drop (i * block_size) toks) in
      block_hash ← hash_block_tokens py_hash (bool_decide (prev_block_hash = None)) prev_block_hash block_token_ids extra_hash;
      seq_hashes_loop n (S i) block_size toks extra_hash (Some block_hash) (recorded ++ [block_hash])
    else Raise (AssertionError "len(token_ids) >= (i + 1) * self._block_size")
  end.
Definition update_seq_hashes (enable_caching : bool) (block_size : nat) (s : Sequence) : CT unit :=
  massert enable_caching "self._enable_caching";;;
  t ← mget;
  let block_hashes_recorded := default [] (dget (seq_id_to_blocks_hashes t) (sq_seq_id s)) in
  let cur_num_blocks_recorded := length block_hashes_recorded in
  let toks := sd_cached_all_token_ids (sq_data s) in
  massert (bool_decide (cur_num_blocks_recorded * block_size ≤ length toks))
    "len(token_ids) >= cur_num_blocks_recorded * self._block_size";;;
  let num_computed_blocks := length toks / block_size in
  hashes ← mlift (seq_hashes_loop (num_computed_blocks - cur_num_blocks_recorded) cur_num_blocks_recorded block_size toks
                    (seq_extra_hash pair_hash s) (last block_hashes_recorded) block_hashes_recorded);
  mmodify (λ t, set_seq_id_to_blocks_hashes (dset (seq_id_to_blocks_hashes t) (sq_seq_id s) hashes) t).
Definition computed_remove_seq (enable_caching : bool) (seq_id : Z) : CT unit :=
  if negb enable_caching then mret tt
  else
    t ← mget;
    massert (dmem (seq_id_to_blocks_hashes t) seq_id) "seq_id in self._seq_id_to_blocks_hashes";;;
    mmodify (λ t, set_seq_id_to_blocks_hashes (ddel (seq_id_to_blocks_hashes t) seq_id) t);;;
    massert (dmem (seq_id_to_num_tokens_computed t) seq_id) "seq_id in self._seq_id_to_num_tokens_computed";;;
    mmodify (λ t, set_seq_id_to_num_tokens_computed (ddel (seq_id_to_num_tokens_computed t) seq_id) t).

(** [LastAccessBlocksTracker]: its dictionary of times. *)
Definition last_access_add_seq (seq_id : Z) : LA unit :=
  d ← mget; massert (negb (dmem d seq_id)) "seq_id not in self._seq_last_access";;; mput (dset d seq_id None).
Definition last_access_remove_seq (seq_id : Z) : LA unit :=
  d ← mget; massert (dmem d seq_id) "seq_id in self._seq_last_access";;; mput (ddel d seq_id).
Definition update_last_access (seq_id time : Z) : LA unit :=
  d ← mget; massert (dmem d seq_id) "seq_id in self._seq_last_access";;; mput (dset d seq_id (Some time)).

(** * The manager *)
Inductive AllocStatus := ALLOC_OK | ALLOC_LATER | ALLOC_NEVER.
#[export] Instance AllocStatus_eq_dec : EqDecision AllocStatus.
Proof. solve_decision. Defined.
Record SelfAttnBlockSpaceManager (S : Type) := {
  bm_block_size : Z;
  bm_num_total_gpu_blocks : Z;
  bm_num_total_cpu_blocks : Z;
  bm_sliding_window : option Z;
  bm_max_block_sliding_window : option Z;
  bm_enable_caching : bool;
  bm_watermark_blocks : Z;
  bm_allocator : S;
  bm_block_tables : dict Z BlockTable;
  bm_cross_block_tables : dict string BlockTable;
  bm_computed_tracker : ComputedBlocksTracker;
  bm_last_access : dict Z (option Z);
}.
#[global] Arguments bm_block_size {S}. #[global] Arguments bm_num_total_gpu_blocks {S}. #[global] Arguments bm_num_total_cpu_blocks {S}.
#[global] Arguments bm_sliding_window {S}. #[global] Arguments bm_max_block_sliding_window {S}. #[global] Arguments bm_enable_caching {S}.
#[global] Arguments bm_watermark_blocks {S}. #[global] Arguments bm_allocator {S}. #[global] Arguments bm_block_tables {S}.
#[global] Arguments bm_cross_block_tables {S}. #[global] Arguments bm_computed_tracker {S}. #[global] Arguments bm_last_access {S}.

Section manager.
Context {S : Type} `{DA : DeviceAwareBlockAllocator S}.
Definition set_bm_allocator (v : S) (r : SelfAttnBlockSpaceManager S) : SelfAttnBlockSpaceManager S :=
  {| bm_block_size := bm_block_size r; bm_num_total_gpu_blocks := bm_num_total_gpu_blocks r; bm_num_total_cpu_blocks := bm_num_total_cpu_blocks r; bm_sliding_window := bm_sliding_window r; bm_max_block_sliding_window := bm_max_block_sliding_window r; bm_enable_caching := bm_enable_caching r; bm_watermark_blocks := bm_watermark_blocks r; bm_allocator := v; bm_block_tables := bm_block_tables r; bm_cross_block_tables := bm_cross_block_tables r; bm_computed_tracker := bm_computed_tracker r; bm_last_access := bm_last_access r |}.
Definition set_bm_block_tables (v : dict Z BlockTable) (r : SelfAttnBlockSpaceManager S) : SelfAttnBlockSpaceManager S :=
  {| bm_block_size := bm_block_size r; bm_num_total_gpu_blocks := bm_num_total_gpu_blocks r; bm_num_total_cpu_blocks := bm_num_total_cpu_blocks r; bm_sliding_window := bm_sliding_window r; bm_max_block_sliding_window := bm_max_block_sliding_window r; bm_enable_caching := bm_enable_caching r; bm_watermark_blocks := bm_watermark_blocks r; bm_allocator := bm_allocator r; bm_block_tables := v; bm_cross_block_tables := bm_cross_block_tables r; bm_computed_tracker := bm_computed_tracker r; bm_last_access := bm_last_access r |}.
Definition set_bm_cross_block_tables (v : dict string BlockTable) (r : SelfAttnBlockSpaceManager S) : SelfAttnBlockSpaceManager S :=
  {| bm_block_size := bm_block_size r; bm_num_total_gpu_blocks := bm_num_total_gpu_blocks r; bm_num_total_cpu_blocks := bm_num_total_cpu_blocks r; bm_sliding_window := bm_sliding_window r; bm_max_block_sliding_window := bm_max_block_sliding_window r; bm_enable_caching := bm_enable_caching r; bm_watermark_blocks := bm_watermark_blocks r; bm_allocator := bm_allocator r; bm_block_tables := bm_block_tables r; bm_cross_block_tables := v; bm_computed_tracker := bm_computed_tracker r; bm_last_access := bm_last_access r |}.
Definition set_bm_computed_tracker (v : ComputedBlocksTracker) (r : SelfAttnBlockSpaceManager S) : SelfAttnBlockSpaceManager S :=
  {| bm_block_size := bm_block_size r; bm_num_total_gpu_blocks := bm_num_total_gpu_blocks r; bm_num_total_cpu_blocks := bm_num_total_cpu_blocks r; bm_sliding_window := bm_sliding_window r; bm_max_block_sliding_window := bm_max_block_sliding_window r; bm_enable_caching := bm_enable_caching r; bm_watermark_blocks := bm_watermark_blocks r; bm_allocator := bm_allocator r; bm_block_tables := bm_block_tables r; bm_cross_block_tables := bm_cross_block_tables r; bm_computed_tracker := v; bm_last_access := bm_last_access r |}.
Definition set_bm_last_access (v : dict Z (option Z)) (r : SelfAttnBlockSpaceManager S) : SelfAttnBlockSpaceManager S :=
  {| bm_block_size := bm_block_size r; bm_num_total_gpu_blocks := bm_num_total_gpu_blocks r; bm_num_total_cpu_blocks := bm_num_total_cpu_blocks r; bm_sliding_window := bm_sliding_window r; bm_max_block_sliding_window := bm_max_block_sliding_window r; bm_enable_caching := bm_enable_caching r; bm_watermark_blocks := bm_watermark_blocks r; bm_allocator := bm_allocator r; bm_block_tables := bm_block_tables r; bm_cross_block_tables := bm_cross_block_tables r; bm_computed_tracker := bm_computed_tracker r; bm_last_access := v |}.

Abbreviation BM := (M (SelfAttnBlockSpaceManager S)).
Definition on_alloc {B} (m : M S B) : BM B := zoom bm_allocator set_bm_allocator m.
Definition on_computed {B} (m : CT B) : BM B := zoom bm_computed_tracker set_bm_computed_tracker m.
Definition on_last_access {B} (m : LA B) : BM B := zoom bm_last_access set_bm_last_access m.
(** An operation of a table, which shares the allocator. *)
Definition on_a_table {B} (t : BlockTable) (m : M (S * BlockTable) B) : BM (B * BlockTable) :=
  on_alloc (λ s, match m (s, t) with Ok (b, (s, t)) => Ok ((b, t), s) | Raise e => Raise e end).
Definition on_seq_table {B} (seq_id : Z) (m : M (S * BlockTable) B) : BM B :=
  b ← mget;
  t ← mlift (dict_at (bm_block_tables b) seq_id);
  '(x, t) ← on_a_table t m;
  mmodify (λ b, set_bm_block_tables (dset (bm_block_tables b) seq_id t) b);;;
  mret x.

(** [__init__]: [create] makes the allocator. *)
Definition block_manager_init (create : result S) (block_size num_gpu_blocks num_cpu_blocks : Z) (watermark : float)
    (sliding_window : option Z) (enable_caching : bool) : result (SelfAttnBlockSpaceManager S) :=
  let max_block_sliding_window := (λ w, (w / block_size + 1 + 1)%Z) <$> sliding_window in
  if PrimFloat.leb 0 watermark then
    watermark_blocks ← int_of_float (watermark * PrimFloat.of_uint63 (Uint63.of_Z num_gpu_blocks))%float;
    a ← create;
    mret {| bm_block_size := block_size; bm_num_total_gpu_blocks := num_gpu_blocks; bm_num_total_cpu_blocks := num_cpu_blocks;
            bm_sliding_window := sliding_window; bm_max_block_sliding_window := max_block_sliding_window;
            bm_enable_caching := enable_caching; bm_watermark_blocks := watermark_blocks; bm_allocator := a;
            bm_block_tables := []; bm_cross_block_tables := []; bm_computed_tracker := computed_tracker_init;
            bm_last_access := [] |}
  else Raise (AssertionError "watermark >= 0.0").

(** [get_seqs] of a group, and its first item. *)
Definition seqs_of (status : SequenceStatus) (g : SequenceGroup) : result (list Sequence) :=
  match get_seqs (Some status) g with Ok (l, _) => Ok l | Raise e => Raise e end.
Definition first_of {B} (l : list B) : result B :=
  match l with x :: _ => Ok x | [] => Raise (IndexError "list index out of range") end.
Definition seq_token_ids (s : Sequence) : list Z := sd_cached_all_token_ids (sq_data s).
Definition check_no_caching_or_swa (g : SequenceGroup) (b : SelfAttnBlockSpaceManager S) : result unit :=
  match sg_encoder_seq g with
  | None => Ok tt
  | Some _ =>
    match bm_max_block_sliding_window b with
    | Some _ => Raise NotImplementedError
    | None => if bm_enable_caching b then Raise NotImplementedError else Ok tt
    end
  end.
Definition bm_can_allocate (g : SequenceGroup) (num_lookahead_slots : Z) : BM AllocStatus :=
  b ← mget;
  mlift (check_no_caching_or_swa g b);;;
  waiting ← mlift (seqs_of SEQ_WAITING g);
  s ← mlift (first_of waiting);
  let required := get_num_required_blocks (seq_token_ids s) (bm_block_size b) num_lookahead_slots in
  let required :=
    match sg_encoder_seq g with
    | Some e => (required + get_num_required_blocks (seq_token_ids e) (bm_block_size b) 0)%Z
    | None => required
    end in
  let num_required_blocks := match bm_max_block_sliding_window b with Some w => Z.min required w | None => required end in
  let num_free_gpu_blocks := da_get_num_free_blocks GPU (bm_allocator b) in
  mret (if (bm_num_total_gpu_blocks b - num_required_blocks <? bm_watermark_blocks b)%Z then ALLOC_NEVER
        else if (bm_watermark_blocks b <=? num_free_gpu_blocks - num_required_blocks)%Z then ALLOC_OK
        else ALLOC_LATER).
(** [_allocate_sequence] *)
Definition allocate_sequence (s : Sequence) : BM BlockTable :=
  b ← mget;
  block_table ← on_alloc (block_table_init (bm_block_size b) [] (bm_max_block_sliding_window b));
  if bool_decide (seq_token_ids s = []) then mret block_table
  else
    '(_, block_table) ← on_a_table block_table (table_allocate (seq_token_ids s) GPU (seq_extra_hash pair_hash s));
    mret block_table.
Definition bm_allocate (g : SequenceGroup) : BM unit :=
  waiting_seqs ← mlift (seqs_of SEQ_WAITING g);
  b ← mget;
  massert (forallb (λ s, negb (dmem (bm_block_tables b) (sq_seq_id s))) waiting_seqs) "block table already exists";;;
  s ← mlift (first_of waiting_seqs);
  block_table ← allocate_sequence s;
  mmodify (λ b, set_bm_block_tables (dset (bm_block_tables b) (sq_seq_id s) block_table) b);;;
  on_last_access (last_access_add_seq (sq_seq_id s));;;
  mfor (tail waiting_seqs) (λ s',
    '(child, _) ← on_a_table block_table table_fork;
    mmodify (λ b, set_bm_block_tables (dset (bm_block_tables b) (sq_seq_id s') child) b);;;
    on_last_access (last_access_add_seq (sq_seq_id s')));;;
  b ← mget;
  massert (negb (dmem (bm_cross_block_tables b) (sg_request_id g))) "block table already exists";;;
  mlift (check_no_caching_or_swa g b);;;
  match sg_encoder_seq g with
  | None => mret tt
  | Some e =>
    block_table ← allocate_sequence e;
    mmodify (λ b, set_bm_cross_block_tables (dset (bm_cross_block_tables b) (sg_request_id g) block_table) b)
  end.
(** The blocks that appending the unseen tokens of a sequence may take. *)
Definition touched_by_append (s : Sequence) (num_lookahead_slots : Z) : BM Z :=
  b ← mget;
  t ← mlift (dict_at (bm_block_tables b) (sq_seq_id s));
  mret (get_num_blocks_touched_by_append_slots (get_unseen_token_ids (seq_token_ids s) t) num_lookahead_slots t).
Definition bm_can_append_slots (g : SequenceGroup) (num_lookahead_slots : Z) : BM bool :=
  running ← mlift (seqs_of SEQ_RUNNING g);
  num_touched_blocks ← mfold running 0%Z (λ n s, k ← touched_by_append s num_lookahead_slots; mret (n + k)%Z);
  b ← mget;
  mret (num_touched_blocks <=? da_get_num_free_blocks GPU (bm_allocator b))%Z.
Definition bm_append_slots (s : Sequence) (num_lookahead_slots : Z) : BM (list (nat * nat)) :=
  on_seq_table (sq_seq_id s)
    (t ← the_table;
     table_append_token_ids (get_unseen_token_ids (seq_token_ids s) t) num_lookahead_slots
       (Some (sd_num_computed_tokens (sq_data s))) (seq_extra_hash pair_hash s));;;
  on_alloc da_clear_copy_on_writes.
Definition update_seq_blocks_last_access (seq_id : Z) (block_ids : list nat) : BM unit :=
  b ← mget;
  match dget (bm_last_access b) seq_id with
  | None => mraise (AssertionError "seq_id in self._seq_last_access")
  | Some None => mret tt
  | Some (Some ts) => on_alloc (da_mark_blocks_as_accessed block_ids ts)
  end.
Definition bm_free (s : Sequence) : BM unit :=
  b ← mget;
  match dget (bm_block_tables b) (sq_seq_id s) with
  | None => mret tt
  | Some t =>
    update_seq_blocks_last_access (sq_seq_id s) (physical_block_ids t);;;
    on_last_access (last_access_remove_seq (sq_seq_id s));;;
    on_computed (computed_remove_seq (bm_enable_caching b) (sq_seq_id s));;;
    on_seq_table (sq_seq_id s) table_free;;;
    mmodify (λ b, set_bm_block_tables (ddel (bm_block_tables b) (sq_seq_id s)) b)
  end.
Definition bm_free_cross (g : SequenceGroup) : BM unit :=
  b ← mget;
  match dget (bm_cross_block_tables b) (sg_request_id g) with
  | None => mret tt
  | Some t =>
    on_a_table t table_free;;;
    mmodify (λ b, set_bm_cross_block_tables (ddel (bm_cross_block_tables b) (sg_request_id g)) b)
  end.
Definition get_block_table (s : Sequence) : BM (list nat) :=
  b ← mget; t ← mlift (dict_at (bm_block_tables b) (sq_seq_id s)); mret (physical_block_ids t).
Definition get_cross_block_table (g : SequenceGroup) : BM (list nat) :=
  b ← mget;
  match dget (bm_cross_block_tables b) (sg_request_id g) with
  | None => mraise (AssertionError "request_id in self.cross_block_tables")
  | Some t => mret (physical_block_ids t)
  end.
Definition access_all_blocks_in_seq (s : Sequence) (now : Z) : BM unit :=
  b ← mget; mwhen (bm_enable_caching b) (on_last_access (update_last_access (sq_seq_id s) now)).
Definition bm_mark_blocks_as_computed : BM unit := on_alloc (da_mark_blocks_as_computed []).

(** [ComputedBlocksTracker.get_num_cached_tokens] *)
Definition get_num_cached_tokens (s : Sequence) : BM Z :=
  b ← mget;
  if negb (bm_enable_caching b) then mret 0%Z
  else
    on_computed (update_seq_hashes (bm_enable_caching b) (Z.to_nat (bm_block_size b)) s);;;
    b ← mget;
    match dget (seq_id_to_num_tokens_computed (bm_computed_tracker b)) (sq_seq_id s), seq_is_prefill s with
    | Some num_computed_tokens_prev, true => mret num_computed_tokens_prev
    | _, _ =>
      block_hashes ← mlift (dict_at (seq_id_to_blocks_hashes (bm_computed_tracker b)) (sq_seq_id s));
      cached ← on_alloc (da_find_cached_blocks_prefix block_hashes);
      let num_cached_tokens := (Z.of_nat (length cached) * bm_block_size b)%Z in
      on_computed (mmodify (λ t, set_seq_id_to_num_tokens_computed
                                   (dset (seq_id_to_num_tokens_computed t) (sq_seq_id s) num_cached_tokens) t));;;
      mret num_cached_tokens
    end.
Definition bm_get_common_computed_block_ids (seqs : list Sequence) : BM (list nat) :=
  computed_seq_block_ids ← mfold seqs [] (λ acc s,
    all_blocks ← get_block_table s;
    num_cached_tokens ← get_num_cached_tokens s;
    b ← mget;
    massert (num_cached_tokens `mod` bm_block_size b =? 0)%Z "num_cached_tokens % self.block_size == 0";;;
    let num_cached_blocks := (num_cached_tokens / bm_block_size b)%Z in
    mret (acc ++ [take (Z.to_nat num_cached_blocks) all_blocks]));
  mret (da_get_common_computed_block_ids computed_seq_block_ids).
Definition bm_fork (parent_seq child_seq : Sequence) : BM unit :=
  b ← mget;
  match dget (bm_block_tables b) (sq_seq_id parent_seq) with
  | None => mret tt
  | Some src =>
    '(child, _) ← on_a_table src table_fork;
    mmodify (λ b, set_bm_block_tables (dset (bm_block_tables b) (sq_seq_id child_seq) child) b);;;
    on_last_access (last_access_add_seq (sq_seq_id child_seq))
  end.

(** [_can_swap] *)
Definition can_swap (g : SequenceGroup) (device : Device) (status : SequenceStatus) (num_lookahead_slots : Z) : BM AllocStatus :=
  seqs ← mlift (seqs_of status g);
  '(num_blocks_touched, blocks) ← mfold seqs (0%Z, []) (λ '(n, blocks) s,
    k ← touched_by_append s num_lookahead_slots;
    b ← mget;
    t ← mlift (dict_at (bm_block_tables b) (sq_seq_id s));
    mret ((n + k)%Z, blocks ++ bl_blocks (tb_blocks t)));
  full ← on_alloc (da_get_num_full_blocks_touched blocks device);
  b ← mget;
  let num_blocks_touched := (num_blocks_touched + full)%Z in
  let watermark_blocks := match device with GPU => bm_watermark_blocks b | CPU => 0%Z end in
  mret (if (da_get_num_total_blocks device (bm_allocator b) <? num_blocks_touched)%Z then ALLOC_NEVER
        else if (watermark_blocks <=? da_get_num_free_blocks device (bm_allocator b) - num_blocks_touched)%Z then ALLOC_OK
        else ALLOC_LATER).
Definition can_swap_in (g : SequenceGroup) (num_lookahead_slots : Z) : BM AllocStatus :=
  can_swap g GPU SEQ_SWAPPED num_lookahead_slots.
Definition can_swap_out (g : SequenceGroup) : BM bool :=
  alloc_status ← can_swap g CPU SEQ_RUNNING 0; mret (bool_decide (alloc_status = ALLOC_OK)).
(** The body of [swap_in] and [swap_out] for one sequence. *)
Definition swap_seq (src_device dst_device : Device) (s : Sequence) : BM (list (nat * nat)) :=
  b ← mget;
  t ← mlift (dict_at (bm_block_tables b) (sq_seq_id s));
  let blocks := bl_blocks (tb_blocks t) in
  if bool_decide (blocks = []) then mret []
  else
    seq_swap_mapping ← on_alloc (da_swap blocks src_device dst_device);
    on_seq_table (sq_seq_id s) (table_update blocks);;;
    b ← mget;
    mapping ← mfold seq_swap_mapping ([] : dict nat nat) (λ mapping '(src_block_id, dst_block_id),
      src ← mlift (da_get_physical_block_id src_device src_block_id (bm_allocator b));
      dst ← mlift (da_get_physical_block_id dst_device dst_block_id (bm_allocator b));
      mret (dset mapping src dst));
    mret mapping.
Definition bm_swap (src_device dst_device : Device) (status : SequenceStatus) (g : SequenceGroup) : BM (list (nat * nat)) :=
  seqs ← mlift (seqs_of status g);
  mfold seqs [] (λ mapping s, m ← swap_seq src_device dst_device s; mret (mapping ++ m)).
Definition bm_swap_in : SequenceGroup → BM (list (nat * nat)) := bm_swap CPU GPU SEQ_SWAPPED.
Definition bm_swap_out : SequenceGroup → BM (list (nat * nat)) := bm_swap GPU CPU SEQ_RUNNING.
Definition get_num_free_gpu_blocks (b : SelfAttnBlockSpaceManager S) : Z := da_get_num_free_blocks GPU (bm_allocator b).
Definition get_num_free_cpu_blocks (b : SelfAttnBlockSpaceManager S) : Z := da_get_num_free_blocks CPU (bm_allocator b).
End manager.
End hashes.
