(* ===== verification/TableLaws.v ===== *)
(** What block tables rely on: the class [TableLaws] states the contract of an
    allocator in terms of the objects in its pool, and the operations of a table
    are proved against it. A table lays the tokens of its sequence out in blocks:
    block [i] holds the tokens from [i * block_size] on. *)
From Stdlib Require Import ssreflect ZArith Lia.
From stdpp Require Import base numbers list gmap strings.
From S2P Require Import Prelude NaiveBlocks NaiveTheorems BlockTable.

(** * Objects *)
#[export] Instance live_dec p o : Decision (live p o).
Proof. rw /live. apply _. Defined.
(** The block an object in use stands for. *)
Definition tobj (p : BlockPool) (o : nat) : option NaiveBlock := if decide (live p o) then bp_pool p !! o else None.
(** The objects outside [os] are untouched. *)
Definition untouched (p p' : BlockPool) (os : list nat) : Prop := ∀ y, y ∉ os → tobj p' y = tobj p y.
(** Every previous block is in use. *)
Definition rooted (p : BlockPool) : Prop := ∀ o b q, tobj p o = Some b → nb_prev_block b = Some q → is_Some (tobj p q).
(** The objects [os] form a chain after [prev] with these tokens and block ids. *)
Fixpoint chained (p : BlockPool) (prev : option nat) (os : list nat) (toks : list (list Z)) (ids : list nat) : Prop :=
  match os, toks, ids with
  | [], [], [] => True
  | o :: os, t :: toks, id :: ids =>
    (∃ b, tobj p o = Some b ∧ nb_token_ids b = t ∧ nb_prev_block b = prev ∧ nb_block_id b = Some id) ∧
    chained p (Some o) os toks ids
  | _, _, _ => False
  end.

Lemma untouched_trans p1 p2 p3 l1 l2 : untouched p1 p2 l1 → untouched p2 p3 l2 → untouched p1 p3 (l1 ++ l2).
Proof. move=> H1 H2 y /not_elem_of_app [Hy1 Hy2]. by rw H2 // H1. Qed.
Lemma untouched_weaken p p' l l' : l ⊆ l' → untouched p p' l → untouched p p' l'.
Proof. move=> Hl H y Hy. apply H => Hin. by apply Hy, Hl. Qed.
Lemma chained_length p prev os toks ids : chained p prev os toks ids → length toks = length os ∧ length ids = length os.
Proof.
  elim: os prev toks ids => [|o os IH] prev [|t toks] [|id ids] //= [_ /IH [-> ->]]. done.
Qed.
Lemma chained_kept p p' os prev toks ids : (∀ y, y ∈ os → tobj p' y = tobj p y) →
  chained p prev os toks ids → chained p' prev os toks ids.
Proof.
  elim: os prev toks ids => [|o os IH] prev [|t toks] [|id ids] //= Hk [[b [Hb H]] Hc]. split.
  - exists b. split; [|done]. rw Hk //. by left.
  - apply IH; [|done]. move=> y Hy. apply Hk. by right.
Qed.
Lemma chained_untouched p p' l os prev toks ids : untouched p p' l → (∀ o, o ∈ os → o ∉ l) →
  chained p prev os toks ids → chained p' prev os toks ids.
Proof. move=> Hu Hd. apply chained_kept => y /Hd. apply Hu. Qed.
Definition last_or (os : list nat) (prev : option nat) : option nat := match last os with Some o => Some o | None => prev end.
Lemma last_or_next o os prev : last_or (o :: os) prev = last_or os (Some o).
Proof.
  rw /last_or. destruct os as [|y os]; first done. rw last_cons_cons.
  destruct (last (y :: os)) eqn:E; [done|by apply last_None in E].
Qed.
Lemma chained_app p os1 toks1 ids1 os2 toks2 ids2 : ∀ prev, length toks1 = length os1 → length ids1 = length os1 →
  chained p prev (os1 ++ os2) (toks1 ++ toks2) (ids1 ++ ids2) ↔
  chained p prev os1 toks1 ids1 ∧ chained p (last_or os1 prev) os2 toks2 ids2.
Proof.
  elim: os1 toks1 ids1 => [|o os1 IH] [|t toks1] [|id ids1] //= prev; first by rw /last_or /=; tauto.
  move=> [H1] [H2]. rw IH // last_or_next. tauto.
Qed.
Lemma chained_lookup p os : ∀ prev toks ids i o, chained p prev os toks ids → os !! i = Some o →
  ∃ b, tobj p o = Some b ∧ toks !! i = Some (nb_token_ids b) ∧ (∃ id, nb_block_id b = Some id ∧ ids !! i = Some id).
Proof.
  elim: os => [|x os IH] prev [|t toks] [|id ids] [|i] o //= [[b [Hb [Ht [Hp Hid]]]] Hc] Ho.
  - injection Ho as <-. exists b. by rw Ht; split_and!; [| |exists id].
  - by eapply IH.
Qed.
(** One object is rewritten in place. *)
Lemma chained_update p p' o b' id' os : ∀ prev toks ids i, NoDup os → untouched p p' [o] → os !! i = Some o →
  chained p prev os toks ids → tobj p' o = Some b' → (∀ b, tobj p o = Some b → nb_prev_block b' = nb_prev_block b) →
  nb_block_id b' = Some id' → chained p' prev os (<[i := nb_token_ids b']> toks) (<[i := id']> ids).
Proof.
  elim: os => [|x os IH] prev [|t toks] [|id ids] [|i] //= /NoDup_cons [Hx Hnd] Hu Ho [[b [Hb [Ht [Hp Hid]]]] Hc] Hb' Hprev Hid'.
  - injection Ho as ->. split; first by exists b'; split_and!; [|done|rw (Hprev b Hb)|]. apply (chained_untouched p p' [o]); try done.
    move=> y Hy /list_elem_of_singleton ?. by subst.
  - split; last by apply IH. exists b. split; last done. rw Hu //. move=> /list_elem_of_singleton ?. subst.
    by apply Hx, (list_elem_of_lookup_2 _ i).
Qed.
Lemma chained_live p prev os toks ids o : chained p prev os toks ids → o ∈ os → is_Some (tobj p o).
Proof. move=> Hc /list_elem_of_lookup [i Hi]. destruct (chained_lookup _ _ _ _ _ _ _ Hc Hi) as (b & Hb & _). by rw Hb. Qed.

Lemma chained_split p os1 os2 prev toks ids : chained p prev (os1 ++ os2) toks ids →
  chained p prev os1 (take (length os1) toks) (take (length os1) ids) ∧
  chained p (last_or os1 prev) os2 (drop (length os1) toks) (drop (length os1) ids).
Proof.
  move=> Hc. have [L1 L2] := chained_length _ _ _ _ _ Hc. rw length_app in L1 L2. apply chained_app.
  - rw length_take. lia.
  - rw length_take. lia.
  - by rw !take_drop.
Qed.
(** The previous blocks lead back through the list. *)
Lemma chained_chain p os : ∀ o toks ids, chained p None (os ++ [o]) toks ids → chain p o (os ++ [o]).
Proof.
  induction os as [|x os IH] using rev_ind => o toks ids Hc.
  - destruct toks as [|? []], ids as [|? []]; try (by destruct Hc). destruct Hc as [(b & Hb & _ & Hp & _) _].
    apply (chain_first _ _ b); [|done]. move: Hb. rw /tobj. by case_decide.
  - destruct (chained_split _ _ _ _ _ _ Hc) as [H1 H2]. apply IH in H1. set t := drop _ toks in H2. set i := drop _ ids in H2.
    destruct t as [|? []], i as [|? []]; try (by destruct H2). destruct H2 as [(b & Hb & _ & Hp & _) _].
    rw /last_or last_snoc in Hp. apply (chain_next _ _ b x); [|done|done]. move: Hb. rw /tobj. by case_decide.
Qed.
(** There are no more objects than places in the pool. *)
Lemma chained_fits p prev os toks ids : NoDup os → chained p prev os toks ids → length os ≤ length (bp_pool p).
Proof.
  move=> Hnd Hc. rw -(length_seq (length (bp_pool p)) 0). apply submseteq_length, NoDup_submseteq; first done.
  move=> o Ho. destruct (chained_live _ _ _ _ _ _ Hc Ho) as [b Hb]. apply elem_of_seq.
  move: Hb. rw /tobj. case_decide as Hl; last done. destruct Hl as [Hl _]. lia.
Qed.

(** * The contract *)
Definition fresh_objects (p : BlockPool) (os : list nat) : Prop := NoDup os ∧ Forall (λ o, tobj p o = None) os.
Class TableLaws (S : Type) {DA : DeviceAwareBlockAllocator S} := {
  tl_inv : S → Prop;
  tl_pool : S → BlockPool;
  tl_size : S → nat;
  tl_size_pos s : tl_inv s → 0 < tl_size s;
  law_block_id s o b : tobj (tl_pool s) o = Some b → block_id (Obj o) s = Ok (nb_block_id b, s);
  law_token_ids s o b : tobj (tl_pool s) o = Some b → token_ids (Obj o) s = Ok (nb_token_ids b, s);
  law_mutable s prev extra : tl_inv s → rooted (tl_pool s) → (∀ q, prev = Some q → is_Some (tobj (tl_pool s) q)) →
    wp (da_allocate_mutable_block (Obj <$> prev) GPU extra) s (λ r s', ∃ o id, r = Obj o ∧ tl_inv s' ∧ tl_size s' = tl_size s ∧
      fresh_objects (tl_pool s) [o] ∧ untouched (tl_pool s) (tl_pool s') [o] ∧ chained (tl_pool s') prev [o] [[]] [id]) any_exn;
  law_immutables s prev l extra : tl_inv s → rooted (tl_pool s) → (∀ q, prev = Some q → is_Some (tobj (tl_pool s) q)) →
    wp (da_allocate_immutable_blocks (Obj <$> prev) l GPU extra) s (λ r s', ∃ os ids, r = Obj <$> os ∧ tl_inv s' ∧
      tl_size s' = tl_size s ∧ fresh_objects (tl_pool s) os ∧ untouched (tl_pool s) (tl_pool s') os ∧
      chained (tl_pool s') prev os l ids) any_exn;
  (** the blocks before the one that is appended to are full *)
  law_append s os o full t ids toks : tl_inv s → rooted (tl_pool s) → chained (tl_pool s) None (os ++ [o]) (full ++ [t]) ids →
    Forall (λ c, length c = tl_size s) full →
    wp (block_append_token_ids (Obj o) toks) s (λ _ s', ∃ b b' id', tl_inv s' ∧ tl_size s' = tl_size s ∧
      untouched (tl_pool s) (tl_pool s') [o] ∧ tobj (tl_pool s) o = Some b ∧ tobj (tl_pool s') o = Some b' ∧
      nb_token_ids b' = t ++ toks ∧ nb_prev_block b' = nb_prev_block b ∧ nb_block_id b' = Some id') any_exn;
  law_free s o b : tl_inv s → tobj (tl_pool s) o = Some b → is_Some (nb_block_id b) →
    wp (da_free (Obj o)) s (λ _ s', tl_inv s' ∧ tl_size s' = tl_size s ∧ untouched (tl_pool s) (tl_pool s') [o] ∧
      tobj (tl_pool s') o = None) any_exn;
  law_fork s os o toks ids : tl_inv s → rooted (tl_pool s) → NoDup (os ++ [o]) → chained (tl_pool s) None (os ++ [o]) toks ids →
    wp (da_fork (Obj o)) s (λ r s', ∃ os', r = Obj <$> os' ∧ tl_inv s' ∧ tl_size s' = tl_size s ∧
      fresh_objects (tl_pool s) os' ∧ untouched (tl_pool s) (tl_pool s') os' ∧ chained (tl_pool s') None os' toks ids) any_exn;
  law_cows s : tl_inv s → wp da_clear_copy_on_writes s (λ _ s', tl_inv s' ∧ tl_size s' = tl_size s ∧ tl_pool s' = tl_pool s) any_exn;
  law_accessed s ids now : tl_inv s →
    wp (da_mark_blocks_as_accessed ids now) s (λ _ s', tl_inv s' ∧ tl_size s' = tl_size s ∧ tl_pool s' = tl_pool s) any_exn;
  law_computed s ids : tl_inv s →
    wp (da_mark_blocks_as_computed ids) s (λ _ s', tl_inv s' ∧ tl_size s' = tl_size s ∧ tl_pool s' = tl_pool s) any_exn;
  law_find_cached s hs : tl_inv s → wp (da_find_cached_blocks_prefix hs) s (λ _ s', s' = s) any_exn;
}.

(** New objects after a chain of old ones keep the pool rooted. *)
Lemma rooted_after p p' os : ∀ prev toks ids, rooted p → untouched p p' os → Forall (λ o, tobj p o = None) os →
  (∀ q, prev = Some q → is_Some (tobj p q)) → chained p' prev os toks ids → rooted p'.
Proof.
  move=> prev toks ids Hr Hu Hf Hp Hc.
  have Hold : ∀ q, is_Some (tobj p q) → is_Some (tobj p' q).
  { move=> q [b Hb]. rw Hu; [|by rw Hb]. move=> Hin. rw Forall_forall in Hf. have := Hf q Hin. congruence. }
  move=> o b q. destruct (decide (o ∈ os)) as [Hin|Hin]; last first.
  { rw Hu // => Hb Hq. apply Hold. by apply (Hr o b q). }
  have Hp' : ∀ q, prev = Some q → is_Some (tobj p' q) by move=> x Hx; apply Hold, Hp.
  clear Hu Hf Hp Hold Hr. elim: os prev toks ids Hp' Hc Hin => [|x os IH] prev [|t toks] [|id ids] //= Hp'; first by move=> _ /elem_of_nil.
  move=> [[b0 [Hb0 [_ [Hprev _]]]] Hc] /elem_of_cons [->|Hin] Hb Hq.
  - rw Hb in Hb0. injection Hb0 as <-. apply Hp'. congruence.
  - apply (IH (Some x) toks ids); try done. move=> y [= <-]. by rw Hb0.
Qed.
Lemma rooted_update p p' o b b' : rooted p → untouched p p' [o] → tobj p o = Some b → tobj p' o = Some b' →
  nb_prev_block b' = nb_prev_block b → rooted p'.
Proof.
  move=> Hr Hu Hb Hb' Hp. have Hold : ∀ q, is_Some (tobj p q) → is_Some (tobj p' q).
  { move=> q Hq. destruct (decide (q = o)) as [->|Hne]; first by rw Hb'. rw Hu //. by move=> /list_elem_of_singleton. }
  move=> y c q. destruct (decide (y = o)) as [->|Hne].
  - rw Hb' => -[= <-] Hq. apply Hold, (Hr o b); [done|congruence].
  - rw Hu; first by move=> /list_elem_of_singleton. move=> Hc Hq. by apply Hold, (Hr y c).
Qed.
