(* ===== verification/TableOps.v ===== *)
(** The operations of a block table keep the layout of its tokens, for every
    allocator that satisfies the contract of [TableLaws]. *)
From Stdlib Require Import ssreflect ZArith Lia.
From stdpp Require Import base numbers list gmap strings.
From S2P Require Import Prelude NaiveBlocks NaiveTheorems BlockTable TableLaws.

(** * Layouts *)

(** The tokens of [n] blocks. *)
Definition layout (bs n : nat) (toks : list Z) : list (list Z) := (λ i, take bs (drop (i * bs) toks)) <$> seq 0 n.

Lemma layout_length bs n toks : length (layout bs n toks) = n.
Proof. by rw /layout length_fmap length_seq. Qed.
Lemma layout_lookup bs n toks i : i < n → layout bs n toks !! i = Some (take bs (drop (i * bs) toks)).
Proof. move=> Hi. by rw /layout list_lookup_fmap lookup_seq_lt. Qed.
Lemma layout_app bs n m toks : layout bs (n + m) toks = layout bs n toks ++ layout bs m (drop (n * bs) toks).
Proof.
  rw /layout seq_app fmap_app. f_equal.
  apply list_eq => i. rw !list_lookup_fmap. destruct (decide (i < m)) as [Hi|Hi].
  - rw !lookup_seq_lt //=. f_equal. rw drop_drop. f_equal. f_equal. lia.
  - rw !lookup_seq_ge //; lia.
Qed.
Lemma layout_empty bs n toks : length toks ≤ 0 → layout bs n toks = replicate n [].
Proof.
  move=> H. have -> : toks = [] by apply nil_length_inv; lia. apply list_eq => i. destruct (decide (i < n)) as [Hi|Hi].
  - by rw layout_lookup // drop_nil take_nil lookup_replicate_2.
  - rw !lookup_ge_None_2 ?layout_length ?length_replicate //; lia.
Qed.
(** Blocks beyond the tokens are empty. *)
Lemma layout_grow bs n m toks : length toks ≤ n * bs → layout bs (n + m) toks = layout bs n toks ++ replicate m [].
Proof. move=> H. rw layout_app. f_equal. apply layout_empty. rw length_drop. lia. Qed.
Lemma layout_concat bs n toks : length toks ≤ n * bs → mjoin (layout bs n toks) = toks.
Proof.
  elim: n toks => [|n IH] toks H; first by destruct toks; [|simpl in H; lia].
  rw (layout_app bs 1 n) /= Nat.add_0_r drop_0 IH; first by rw length_drop; lia. by rw take_drop.
Qed.
Lemma layout_take bs n m toks : n ≤ m → take n (layout bs m toks) = layout bs n toks.
Proof.
  move=> H. have -> : m = n + (m - n) by lia. rw layout_app take_app_le ?layout_length //. apply take_ge. by rw layout_length.
Qed.
Lemma layout_join bs n toks : mjoin (layout bs n toks) = take (n * bs) toks.
Proof.
  elim: n toks => [|n IH] toks; first by rw /= take_0.
  rw (layout_app bs 1 n) /= Nat.add_0_r drop_0 IH. rw -{3}(take_drop bs toks) take_app length_take.
  destruct (decide (bs ≤ length toks)) as [H|H].
  - rw (take_ge (take bs toks)); first by rw length_take; lia. f_equal. f_equal. lia.
  - rw (take_ge (take bs toks)); first by rw length_take; lia. rw (drop_ge toks bs); [lia|]. by rw !take_nil.
Qed.
(** The blocks before the last tokens are full. *)
Lemma layout_full bs n toks i c : layout bs n toks !! i = Some c → (i + 1) * bs ≤ length toks → length c = bs.
Proof.
  move=> Hc Hi. have Hlt := lookup_lt_Some _ _ _ Hc. rw layout_length in Hlt. rw layout_lookup // in Hc. injection Hc as <-.
  rw length_take length_drop. lia.
Qed.
(** Appending a chunk that fits into the block after the last tokens. *)
Lemma layout_append bs n toks c : 0 < bs → length toks / bs < n → length c ≤ bs - length toks mod bs →
  layout bs n (toks ++ c) = <[length toks / bs := take bs (drop (length toks / bs * bs) toks) ++ c]> (layout bs n toks).
Proof.
  move=> Hbs Hn Hc. set q := length toks / bs in Hn *. set r := length toks mod bs in Hc.
  have Hqr : length toks = q * bs + r by rw (Nat.div_mod_eq (length toks) bs) -/q -/r; lia.
  have Hr : r < bs by apply Nat.mod_upper_bound; lia.
  apply list_eq => i. destruct (decide (i < n)) as [Hi|Hi]; last by rw !lookup_ge_None_2 ?length_insert ?layout_length //; lia.
  rw layout_lookup //. destruct (decide (i = q)) as [->|Hne].
  - rw list_lookup_insert_eq; first by rw layout_length. f_equal. rw drop_app_le; first lia.
    have Hd : length (drop (q * bs) toks) = r by rw length_drop; lia.
    rw take_ge; first by rw length_app Hd; lia. by rw (take_ge (drop (q * bs) toks)); [lia|].
  - rw list_lookup_insert_ne // layout_lookup //. f_equal. destruct (decide (i < q)) as [Hlt|Hge].
    + have Hle : (i + 1) * bs ≤ q * bs by apply Nat.mul_le_mono_r; lia.
      rw drop_app_le; first lia. rw take_app_le //. rw length_drop. lia.
    + have Hle : (q + 1) * bs ≤ i * bs by apply Nat.mul_le_mono_r; lia.
      rw !drop_ge ?length_app //; lia.
Qed.

(** The chunks of an allocation: full blocks, and the rest. *)
Lemma Z_cdiv_nat a b : 0 < b → Z.to_nat (cdiv (Z.of_nat a) (Z.of_nat b)) = a / b + (if decide (a mod b = 0) then 0 else 1).
Proof.
  move=> Hb. have Hab := Nat.div_mod_eq a b. have Hm := Nat.mod_upper_bound a b ltac:(lia).
  set q := a / b in Hab *. set r := a mod b in Hab Hm *.
  have Hc : cdiv (Z.of_nat a) (Z.of_nat b) = Z.of_nat (q + (if decide (r = 0) then 0 else 1)); last by rw Hc Nat2Z.id.
  have Hs := cdiv_spec (Z.of_nat a) (Z.of_nat b) ltac:(lia). set c := cdiv _ _ in Hs *.
  have Ha : Z.of_nat a = (Z.of_nat b * Z.of_nat q + Z.of_nat r)%Z by lia. rw Ha in Hs. case_decide; nia.
Qed.
Lemma chunk_list_layout l c : chunk_list l c = layout c (Z.to_nat (cdiv (Z.of_nat (length l)) (Z.of_nat c))) l.
Proof. done. Qed.
Lemma chunks_split bs toks : 0 < bs →
  chunk_list toks bs = layout bs (length toks / bs) toks ++
    (if decide (length toks mod bs = 0) then [] else [drop (length toks / bs * bs) toks]).
Proof.
  move=> Hbs. rw chunk_list_layout Z_cdiv_nat //. have Hab := Nat.div_mod_eq (length toks) bs.
  have Hm := Nat.mod_upper_bound (length toks) bs ltac:(lia). rw layout_app. f_equal. case_decide; first done.
  rw /layout /= drop_0. f_equal. apply take_ge. rw length_drop. lia.
Qed.
Lemma filter_none {A} (P : A → Prop) `{∀ x, Decision (P x)} l : Forall (λ x, ¬ P x) l → filter P l = [].
Proof. elim: l => [//|x l IH] /Forall_cons [Hx Hl]. by rw filter_cons_False // IH. Qed.
Lemma chunks_filtered bs toks : 0 < bs →
  filter (λ c, Z.of_nat (length c) = Z.of_nat bs) (chunk_list toks bs) = layout bs (length toks / bs) toks ∧
  filter (λ c, Z.of_nat (length c) ≠ Z.of_nat bs) (chunk_list toks bs) =
    (if decide (length toks mod bs = 0) then [] else [drop (length toks / bs * bs) toks]).
Proof.
  move=> Hbs. have Hab := Nat.div_mod_eq (length toks) bs. have Hm := Nat.mod_upper_bound (length toks) bs ltac:(lia).
  have Hfull : Forall (λ c, Z.of_nat (length c) = Z.of_nat bs) (layout bs (length toks / bs) toks).
  { apply Forall_lookup => i c Hc. have Hi := lookup_lt_Some _ _ _ Hc. rw layout_length in Hi.
    rw (layout_full bs _ toks i c Hc) //. have : (i + 1) * bs ≤ length toks / bs * bs by apply Nat.mul_le_mono_r; lia. lia. }
  have Htail : Forall (λ c, Z.of_nat (length c) ≠ Z.of_nat bs)
    (if decide (length toks mod bs = 0) then [] else [drop (length toks / bs * bs) toks]).
  { case_decide; first by constructor. apply Forall_singleton. rw length_drop. lia. }
  rw chunks_split // !filter_app. split.
  - rw filter_all; first by apply Forall_forall. by rw filter_none ?app_nil_r.
  - rw filter_none; first by eapply Forall_impl; [exact Hfull|]; move=> c /= ? ?. rw filter_all; first by apply Forall_forall. done.
Qed.

(** * Tables *)
Record laid (p : BlockPool) (bs : nat) (l : BlockList) (os : list nat) (toks : list Z) : Prop := {
  ld_blocks : bl_blocks l = Obj <$> os;
  ld_nodup : NoDup os;
  ld_chain : chained p None os (layout bs (length os) toks) (bl_block_ids l);
  ld_room : length toks ≤ length os * bs;
}.
Lemma laid_kept p p' bs l os toks : (∀ y, y ∈ os → tobj p' y = tobj p y) → laid p bs l os toks → laid p' bs l os toks.
Proof. move=> Hk [H1 H2 H3 H4]. split; try done. by apply (chained_kept p). Qed.

Section ops.
Context {S : Type} {DA : DeviceAwareBlockAllocator S} {TL : TableLaws S}.
Abbreviation TB := (M (S * BlockTable)).

(** The table [t] holds [toks] in the objects [os]; without a sliding window. *)
Record table_ok (s : S) (t : BlockTable) (os : list nat) (toks : list Z) : Prop := {
  tk_size : tb_block_size t = Z.of_nat (tl_size s);
  tk_window : tb_max_block_sliding_window t = None;
  tk_laid : laid (tl_pool s) (tl_size s) (tb_blocks t) os toks;
  tk_full : tb_num_full_slots t = Z.of_nat (length toks);
}.
Lemma table_ok_kept s s' t os toks : tl_size s' = tl_size s → (∀ y, y ∈ os → tobj (tl_pool s') y = tobj (tl_pool s) y) →
  table_ok s t os toks → table_ok s' t os toks.
Proof. move=> Hs Hk [H1 H2 H3 H4]. split; rw ?Hs //. by apply (laid_kept (tl_pool s)). Qed.
Lemma wp_on_allocator {A} (m : M S A) s (t : BlockTable) Q E : wp m s (λ a s', Q a (s', t)) E → wp (on_allocator m) (s, t) Q E.
Proof. move=> H. rw /on_allocator. by apply wp_zoom. Qed.

(** ** Block lists *)
Lemma wp_block_ids s prev os toks ids : ∀ acc, chained (tl_pool s) prev os toks ids →
  mfold (Obj <$> os) acc (λ ids b, id ← block_id b; id ← mlift (some_block_id id); mret (ids ++ [id])) s = Ok (acc ++ ids, s).
Proof.
  elim: os prev toks ids => [|o os IH] prev [|t toks] [|id ids] // acc; first by rw app_nil_r.
  move=> [[b [Hb [_ [_ Hid]]]] Hc]. cbn [fmap list_fmap mfold].
  rw /mbind /M_bind (law_block_id s o b Hb) Hid /=. rw (IH (Some o) toks ids) //. by rw -app_assoc.
Qed.
Lemma block_list_update_ok s prev os toks ids : chained (tl_pool s) prev os toks ids →
  block_list_update (Obj <$> os) s = Ok ({| bl_blocks := Obj <$> os; bl_block_ids := ids |}, s).
Proof. move=> Hc. rw /block_list_update /mbind /M_bind (wp_block_ids s prev os toks ids [] Hc). done. Qed.
Lemma num_token_ids_ok s prev os toks ids : ∀ n, chained (tl_pool s) prev os toks ids →
  mfold (Obj <$> os) n (λ n b, toks ← token_ids b; mret (n + Z.of_nat (length toks))%Z) s =
    Ok ((n + Z.of_nat (length (mjoin toks)))%Z, s).
Proof.
  elim: os prev toks ids => [|o os IH] prev [|t toks] [|id ids] // n; first by rw /= Z.add_0_r.
  move=> [[b [Hb [Ht _]]] Hc]. cbn [fmap list_fmap mfold].
  have Hx : (toks ← token_ids (Obj o); mret (n + Z.of_nat (length toks))%Z) s = Ok ((n + Z.of_nat (length t))%Z, s).
  { by rw /mbind /M_bind (law_token_ids s o b Hb) Ht. }
  rw {1}/mbind {1}/M_bind Hx (IH _ _ _ _ Hc). change (mjoin (t :: toks)) with (t ++ mjoin toks). rw length_app Nat2Z.inj_add Z.add_assoc //.
Qed.

(** A new object at the end of the list. *)
Lemma block_list_append_ok s o prev id l : chained (tl_pool s) prev [o] [[]] [id] →
  block_list_append (Obj o) l s = Ok ({| bl_blocks := bl_blocks l ++ [Obj o]; bl_block_ids := bl_block_ids l ++ [id] |}, s).
Proof. move=> [[b [Hb [_ [_ Hid]]]] _]. by rw /block_list_append /mbind /M_bind (law_block_id s o b Hb) Hid. Qed.
Lemma laid_grow p p' bs l os toks o id : laid p bs l os toks → fresh_objects p [o] → untouched p p' [o] →
  chained p' (last os) [o] [[]] [id] →
  laid p' bs {| bl_blocks := bl_blocks l ++ [Obj o]; bl_block_ids := bl_block_ids l ++ [id] |} (os ++ [o]) toks.
Proof.
  move=> [H1 H2 H3 H4] [_ /Forall_singleton Hf] Hu Hc.
  have Hno : o ∉ os by move=> Hin; destruct (chained_live _ _ _ _ _ _ H3 Hin); congruence.
  have [Hl1 Hl2] := chained_length _ _ _ _ _ H3. split.
  - by rw /= H1 fmap_app.
  - apply NoDup_app. split_and!; [done| |apply NoDup_singleton]. by move=> x Hx /list_elem_of_singleton ?; subst.
  - rw length_app. cbn [length]. rw (layout_grow _ _ 1) //. apply chained_app; [done|done|]. split.
    + apply (chained_untouched p _ [o]); [done| |done]. by move=> x Hx /list_elem_of_singleton ?; subst.
    + move: Hc. rw /last_or. by destruct (last os).
  - rw length_app /=. lia.
Qed.

(** Writing tokens into the block after the last ones. *)
Lemma wp_append_chunk s l os toks c : tl_inv s → rooted (tl_pool s) → laid (tl_pool s) (tl_size s) l os toks →
  length toks / tl_size s < length os → length c ≤ tl_size s - length toks mod tl_size s →
  wp (block_list_append_token_ids (length toks / tl_size s) c l) s (λ l' s', tl_inv s' ∧ tl_size s' = tl_size s ∧
    rooted (tl_pool s') ∧ untouched (tl_pool s) (tl_pool s') os ∧ laid (tl_pool s') (tl_size s) l' os (toks ++ c)) any_exn.
Proof.
  move=> HI Hr [H1 H2 H3 H4] Hq Hc. have Hpos := tl_size_pos s HI. set q := length toks / tl_size s in Hq *.
  pose proof (Nat.div_mod_eq (length toks) (tl_size s)) as Hmod. rw -/q in Hmod. set r := length toks mod tl_size s in Hc Hmod.
  destruct (lookup_lt_is_Some_2 os q Hq) as [o Ho].
  destruct (chained_lookup _ _ _ _ _ _ _ H3 Ho) as (b & Hb & Hbt & id & Hid & Hids).
  have [Hl1 Hl2] := chained_length _ _ _ _ _ H3.
  rw /block_list_append_token_ids. wp_step. rw /block_at H1 list_lookup_fmap Ho /=. apply wp_lift; last done. move=> ? [= <-].
  wp_step. rw {1}/wp (law_block_id s o b Hb) Hid. wp_step.
  have Hsplit := take_drop_middle _ _ _ Ho. have Hqlen : length (take q os) = q by rw length_take; lia.
  rw layout_lookup // in Hbt. injection Hbt as Hbt.
  eapply wp_mono; [apply (law_append s (take q os) o (layout (tl_size s) q toks) (nb_token_ids b) (take (Datatypes.S q) (bl_block_ids l)))| |done].
  - done.
  - done.
  - have Hlay : layout (tl_size s) (length os) toks = (layout (tl_size s) q toks ++ [nb_token_ids b]) ++ drop (Datatypes.S q) (layout (tl_size s) (length os) toks).
    { apply list_eq => i. rw -(take_drop (Datatypes.S q) (layout (tl_size s) (length os) toks)). f_equal. f_equal.
      - apply list_eq => j. destruct (decide (j < Datatypes.S q)) as [Hj|Hj].
        + rw lookup_take_lt // layout_lookup; first lia. destruct (decide (j < q)) as [Hjq|Hjq].
          * rw lookup_app_l ?layout_length // layout_lookup //.
          * have -> : j = q by lia. rw lookup_app_r layout_length // Nat.sub_diag /= Hbt //.
        + rw lookup_ge_None_2; first by rw length_take; lia. rw lookup_ge_None_2 //. rw length_app layout_length /=. lia.
      - by rw take_drop. }
    move: H3. rw Hlay -{1}Hsplit -(take_drop (Datatypes.S q) (bl_block_ids l)) cons_middle app_assoc.
    move=> /chained_app [|| ] //.
    + rw !length_app layout_length /= Hqlen //.
    + have := lookup_lt_Some _ _ _ Hids. rw length_app length_take Hqlen. cbn [length]. lia.
    + move=> H _. by rw take_drop.
  - apply Forall_lookup => i x Hx. apply (layout_full _ q toks i x Hx). have Hi := lookup_lt_Some _ _ _ Hx. rw layout_length in Hi.
    have : (i + 1) * tl_size s ≤ q * tl_size s by apply Nat.mul_le_mono_r; lia. lia.
  - intros [] s' (b0 & b' & id' & HI' & Hs' & Hu & Hb0 & Hb' & Ht & Hp & Hid'). rw Hb in Hb0. injection Hb0 as <-.
    have Hr' : rooted (tl_pool s') by apply (rooted_update (tl_pool s) _ o b b').
    have Hu' : untouched (tl_pool s) (tl_pool s') os.
    { apply (untouched_weaken _ _ [o]); last done. move=> y /list_elem_of_singleton ->. by eapply list_elem_of_lookup_2. }
    have Hlaid : laid (tl_pool s') (tl_size s) (set_bl_block_ids (<[q := id']> (bl_block_ids l)) l) os (toks ++ c).
    { split; cbn; [done|done| |].
      - rw layout_append //. rw -/q Hbt -Ht. apply (chained_update (tl_pool s) _ o b'); try done. move=> b1. rw Hb. by move=> [= <-].
      - rw length_app. have : (q + 1) * tl_size s ≤ length os * tl_size s by apply Nat.mul_le_mono_r; lia. lia. }
    wp_step. rw {1}/wp (law_block_id s' o b' Hb') Hid'. case_bool_decide as Heq.
    + injection Heq as <-. wp_step. split_and!; try done. have <- : set_bl_block_ids (<[q := id]> (bl_block_ids l)) l = l; last done.
      destruct l as [bb ii]. rw /set_bl_block_ids /=. f_equal. by apply list_insert_id.
    + apply wp_lift; last done. move=> l'. rw /update_block_id /=. case_bool_decide; last done. move=> [= <-]. by split_and!.
Qed.

(** ** Appending tokens *)

(** Each chunk goes to the block of the next free slot, and fits there. *)
Fixpoint placed (bs len idx n : nat) (chunks : list (list Z)) : Prop :=
  match chunks with
  | [] => True
  | c :: chunks => len / bs = idx ∧ idx < n ∧ length c ≤ bs - len mod bs ∧ placed bs (len + length c) (Datatypes.S idx) n chunks
  end.
Lemma layout_succ bs m l : layout bs (Datatypes.S m) l = take bs l :: layout bs m (drop bs l).
Proof. rw (layout_app bs 1 m) Nat.mul_1_l. by rw {1}/layout /= drop_0. Qed.
Lemma placed_aligned bs n m : 0 < bs → ∀ l k, length l ≤ m * bs → (0 < m → (m - 1) * bs < length l) → k + m ≤ n →
  placed bs (k * bs) k n (layout bs m l).
Proof.
  move=> Hbs. elim: m => [|m IH] l k Hl Hm Hk; first done. rw layout_succ. cbn [placed].
  rw Nat.div_mul; first lia. rw Nat.Div0.mod_mul length_take. split_and!; [done|lia|lia|].
  destruct m as [|m]; first done.
  have Hfull : bs ≤ length l by have := Hm ltac:(lia); simpl; lia.
  have -> : k * bs + bs `min` length l = Datatypes.S k * bs by lia.
  apply IH; rw ?length_drop; [simpl in Hl |- *; lia| |lia]. move=> _. have := Hm ltac:(lia). simpl. lia.
Qed.
Lemma chunks_placed bs n (t : BlockTable) (toks new : list Z) : 0 < bs → tb_block_size t = Z.of_nat bs →
  tb_num_full_slots t = Z.of_nat (length toks) → length toks + length new ≤ n * bs →
  placed bs (length toks) (length toks / bs) n (chunk_token_blocks_for_append new t) ∧
  mjoin (chunk_token_blocks_for_append new t) = new.
Proof.
  move=> Hbs Hsz Hfull Hroom. rw /chunk_token_blocks_for_append Hsz Hfull Nat2Z.id. case_bool_decide as Hne; first by subst.
  pose proof (Nat.div_mod_eq (length toks) bs) as Hqr. set q := length toks / bs in Hqr *.
  pose proof (Nat.mod_upper_bound (length toks) bs ltac:(lia)) as Hr. set r := length toks mod bs in Hqr Hr *.
  have -> : Z.to_nat (Z.of_nat bs - Z.of_nat (length toks) `mod` Z.of_nat bs) = bs - r.
  { rw -Nat2Z.inj_mod -/r. lia. }
  have Hlen : 0 < length new by destruct new; [|simpl; lia].
  set rest := drop (bs - r) new. have Hrest : length rest = length new - (bs - r) by rw /rest length_drop.
  rw chunk_list_layout Z_cdiv_nat //. set m := _ + _.
  have Hm : length rest ≤ m * bs ∧ (0 < m → (m - 1) * bs < length rest).
  { pose proof (Nat.div_mod_eq (length rest) bs) as Hd. pose proof (Nat.mod_upper_bound (length rest) bs ltac:(lia)) as Hu.
    rw /m. set q2 := length rest / bs in Hd *. case_decide; split; nia. }
  split; last first.
  { change (mjoin (?x :: ?l)) with (x ++ mjoin l). rw layout_concat; first apply Hm. apply take_drop. }
  cbn [placed]. rw -/q -/r length_take. split_and!; [done|nia|lia|].
  destruct (decide (length new ≤ bs - r)) as [Hshort|Hlong].
  - have -> : m = 0. { destruct m as [|m']; first done. destruct Hm as [_ Hm]. have := Hm ltac:(lia). lia. } done.
  - have -> : length toks + (bs - r) `min` length new = Datatypes.S q * bs by nia.
    apply placed_aligned; [done|apply Hm|apply Hm|]. destruct Hm as [_ Hm]. destruct m as [|m']; first nia.
    have := Hm ltac:(lia). nia.
Qed.

Lemma wp_append_chunks chunks : ∀ k first_idx s t os toks, tl_inv s → rooted (tl_pool s) → laid (tl_pool s) (tl_size s) (tb_blocks t) os toks →
  placed (tl_size s) (length toks) (first_idx + k) (length os) chunks →
  wp (mfor (imap (λ i c, (k + i, c)) chunks) (λ '(i, token_block), on_blocks (block_list_append_token_ids (first_idx + i) token_block))) (s, t)
    (λ _ st, ∃ l, tl_inv st.1 ∧ tl_size st.1 = tl_size s ∧ rooted (tl_pool st.1) ∧ untouched (tl_pool s) (tl_pool st.1) os ∧
      st.2 = set_tb_blocks l t ∧ laid (tl_pool st.1) (tl_size s) l os (toks ++ mjoin chunks)) any_exn.
Proof.
  elim: chunks => [|c chunks IH] k first_idx s t os toks HI Hr Hl; cbn [placed imap mfor].
  - move=> _. wp_step. exists (tb_blocks t). rw app_nil_r. split_and!; try done. by destruct t.
  - move=> [Hi [Hn [Hc Hp]]]. wp_step. rw Nat.add_0_r /on_blocks. wp_step. rw /the_table. wp_step. wp_step. apply wp_on_allocator.
    rw -Hi. rw -Hi in Hn. eapply wp_mono; [by apply wp_append_chunk| |done].
    intros l1 s1 (HI1 & Hs1 & Hr1 & Hu1 & Hl1). rw /on_table. wp_step. wp_step. cbn [fst snd].
    have -> : imap (λ i : nat, (λ (i0 : nat) (c0 : list Z), (k + i0, c0)) (Datatypes.S i)) chunks =
      imap (λ i c0, (Datatypes.S k + i, c0)) chunks by apply imap_ext => i x _; f_equal; lia.
    eapply wp_mono; [apply (IH (Datatypes.S k) first_idx s1 (set_tb_blocks l1 t) os (toks ++ c))| |done].
    + done.
    + done.
    + by rw Hs1.
    + rw Hs1 length_app Nat.add_succ_r. exact Hp.
    + intros [] [s2 t2] (l2 & HI2 & Hs2 & Hr2 & Hu2 & Ht2 & Hl2). exists l2. rw Hs1 in Hs2 Hl2. rw -app_assoc in Hl2.
      split_and!; try done. move=> y Hy. by rw Hu2 // Hu1.
Qed.

(** New empty blocks at the end. *)
Lemma wp_ensure s t os toks n extra : tl_inv s → rooted (tl_pool s) → os ≠ [] → table_ok s t os toks →
  wp (ensure_num_empty_slots n extra) (s, t) (λ _ st, ∃ l new, tl_inv st.1 ∧ tl_size st.1 = tl_size s ∧ rooted (tl_pool st.1) ∧
    untouched (tl_pool s) (tl_pool st.1) new ∧ fresh_objects (tl_pool s) new ∧ st.2 = set_tb_blocks l t ∧
    laid (tl_pool st.1) (tl_size s) l (os ++ new) toks ∧
    (Z.of_nat (length toks) + n ≤ Z.of_nat (length (os ++ new)) * Z.of_nat (tl_size s))%Z) any_exn.
Proof.
  move=> HI Hr Hne [T1 T2 T3 T4]. pose proof (tl_size_pos s HI) as Hpos. rw /ensure_num_empty_slots. wp_step. rw /the_table. wp_step.
  wp_step. wp_step; last done. wp_step. apply wp_lift; last done. move=> empty. rw /tb_num_empty_slots /tb_len (ld_blocks _ _ _ _ _ T3) length_fmap.
  cbn [fst snd]. destruct (is_allocated t); last done. rw T1 T4 => -[= <-].
  destruct (Z.leb_spec n (Z.of_nat (length os) * Z.of_nat (tl_size s) - Z.of_nat (length toks))) as [Hle|Hgt].
  { wp_step. exists (tb_blocks t), []. rw !app_nil_r. split_and!; try done; [split; constructor|by destruct t|lia]. }
  assert (Hposz : (0 < Z.of_nat (tl_size s))%Z) by lia. set k := cdiv _ _. pose proof (cdiv_spec (n - (Z.of_nat (length os) * Z.of_nat (tl_size s) - Z.of_nat (length toks))) (Z.of_nat (tl_size s)) Hposz) as Hk.
  rw -/k in Hk. have Hk0 : (0 ≤ k)%Z by nia.
  eapply wp_mono; [apply (wp_for_idx _ _ (λ j st, ∃ l new, length new = j ∧ tl_inv st.1 ∧ tl_size st.1 = tl_size s ∧ rooted (tl_pool st.1) ∧
    untouched (tl_pool s) (tl_pool st.1) new ∧ fresh_objects (tl_pool s) new ∧ st.2 = set_tb_blocks l t ∧
    laid (tl_pool st.1) (tl_size s) l (os ++ new) toks) _ (λ _ st, ∃ l new, length new = length (seq 0 (Z.to_nat k)) ∧ tl_inv st.1 ∧ tl_size st.1 = tl_size s ∧ rooted (tl_pool st.1) ∧
    untouched (tl_pool s) (tl_pool st.1) new ∧ fresh_objects (tl_pool s) new ∧ st.2 = set_tb_blocks l t ∧
    laid (tl_pool st.1) (tl_size s) l (os ++ new) toks) any_exn)| |done].
  - exists (tb_blocks t), []. rw app_nil_r. split_and!; try done; [split; constructor|by destruct t].
  - intros j x [s1 t1] _ (l & new & Hj & HI1 & Hs1 & Hr1 & Hu1 & Hf1 & Ht1 & Hl1). cbn [fst snd] in *. subst t1.
    wp_step. rw /the_table. wp_step. wp_step. wp_step; last done. cbn [fst snd tb_blocks set_tb_blocks]. rw (ld_blocks _ _ _ _ _ Hl1) fmap_last.
    destruct (last (os ++ new)) as [o|] eqn:Elast; last by wp_step. cbn [fmap option_fmap option_map]. wp_step. apply wp_on_allocator.
    have Ho : is_Some (tobj (tl_pool s1) o).
    { apply last_Some_elem_of in Elast. by eapply (chained_live _ _ _ _ _ _ (ld_chain _ _ _ _ _ Hl1)). }
    eapply wp_mono; [apply (law_mutable s1 (Some o)); [done|done|by move=> q [= <-]]| |done].
    intros r s2 (o' & id & -> & HI2 & Hs2 & Hf2 & Hu2 & Hc2). rw /on_blocks. wp_step. rw /the_table. wp_step. wp_step. apply wp_on_allocator.
    rw {1}/wp (block_list_append_ok s2 o' (Some o) id) //. rw /on_table. wp_step. wp_step. cbn [fst snd].
    eexists _, (new ++ [o']). split_and!; [rw length_app /=; lia|done|by rw /= Hs2| | | |reflexivity|].
    + eapply (rooted_after (tl_pool s1) _ [o'] (Some o)); [done|done|apply Hf2|by move=> q [= <-]|done].
    + by eapply untouched_trans.
    + destruct Hf1 as [Hnd1 Hf1], Hf2 as [_ Hf2]. move: Hf2 => /Forall_cons [Hf2 _].
      have Hdead : ∀ y, y ∈ os ++ new → y ≠ o'.
      { move=> y Hy ?. subst y. destruct (chained_live _ _ _ _ _ _ (ld_chain _ _ _ _ _ Hl1) Hy). congruence. }
      split.
      * apply NoDup_app. split_and!; [done| |apply NoDup_singleton]. move=> y Hy /list_elem_of_singleton ?.
        by apply (Hdead y); [apply elem_of_app; right|].
      * apply Forall_app. split; first done. apply Forall_singleton. rw -Hu1 //.
        move=> Hy. by apply (Hdead o'); [apply elem_of_app; right|].
    + rw app_assoc. apply (laid_grow (tl_pool s1)); try done. by rw Elast.
  - done.
  - intros [] [s1 t1] (l & new & Hj & HI1 & Hs1 & Hr1 & Hu1 & Hf1 & Ht1 & Hl1). exists l, new. split_and!; try done.
    rw length_app Hj length_seq. nia.
Qed.

Lemma chained_nil_length p prev toks ids : chained p prev [] toks ids → toks = [] ∧ ids = [].
Proof. by destruct toks, ids. Qed.
Lemma laid_untouched p p' bs l os toks news : laid p bs l os toks → fresh_objects p news → untouched p p' news → laid p' bs l os toks.
Proof.
  move=> Hl [_ Hf] Hu. apply (laid_kept p); last done. move=> y Hy. apply Hu => Hin.
  destruct (chained_live _ _ _ _ _ _ (ld_chain _ _ _ _ _ Hl) Hy) as [b Hb]. rw Forall_forall in Hf. have := Hf y Hin. congruence.
Qed.

Lemma wp_table_append s t os toks new n computed extra : tl_inv s → rooted (tl_pool s) → os ≠ [] → table_ok s t os toks → (0 ≤ n)%Z →
  wp (table_append_token_ids new n computed extra) (s, t) (λ _ st, ∃ news, tl_inv st.1 ∧ tl_size st.1 = tl_size s ∧ rooted (tl_pool st.1) ∧
    untouched (tl_pool s) (tl_pool st.1) (os ++ news) ∧ fresh_objects (tl_pool s) news ∧ table_ok st.1 st.2 (os ++ news) (toks ++ new)) any_exn.
Proof.
  move=> HI Hr Hne HT Hn. have [T1 T2 T3 T4] := HT. pose proof (tl_size_pos s HI) as Hpos.
  rw /table_append_token_ids. wp_step. rw /the_table. wp_step. wp_step. wp_step; last done. wp_step. wp_step; last done. wp_step.
  rw /drop_window. wp_step. rw /the_table. wp_step. cbn [fst snd]. rw T2. wp_step. wp_step.
  eapply wp_mono; [by apply (wp_ensure s t os toks)| |done].
  intros [] [s1 t1] (l & news & HI1 & Hs1 & Hr1 & Hu1 & Hf1 & Ht1 & Hl1 & Hcap). cbn [fst snd] in *. subst t1.
  wp_step. rw /the_table. wp_step. cbn [fst snd]. wp_step.
  have Hdiv : Z.to_nat (tb_num_full_slots (set_tb_blocks l t) / tb_block_size (set_tb_blocks l t)) = length toks / tl_size s.
  { by rw /= T1 T4 -Nat2Z.inj_div Nat2Z.id. }
  destruct (chunks_placed (tl_size s) (length (os ++ news)) (set_tb_blocks l t) toks new) as [Hplace Hjoin]; [done|done|done|lia|].
  eapply wp_mono; [apply (wp_append_chunks (chunk_token_blocks_for_append new (set_tb_blocks l t)) 0
    (Z.to_nat (tb_num_full_slots (set_tb_blocks l t) / tb_block_size (set_tb_blocks l t))) s1 (set_tb_blocks l t) (os ++ news) toks)| |done].
  - done.
  - done.
  - by rw Hs1.
  - by rw Hs1 Hdiv Nat.add_0_r.
  - intros [] [s2 t2] (l2 & HI2 & Hs2 & Hr2 & Hu2 & Ht2 & Hl2). cbn [fst snd] in *. subst t2. rw /on_table. wp_step. wp_step. cbn [fst snd].
    rw Hjoin Hs1 in Hl2. rw Hs1 in Hs2. exists news. split_and!; try done.
    + move=> y Hy. have Hy' := Hy. move: Hy' => /not_elem_of_app [_ Hyn]. by rw Hu2 // Hu1.
    + split; cbn; [by rw Hs2|done|by rw Hs2|]. rw T4 length_app. lia.
Qed.

(** ** Allocation *)
Lemma wp_allocate_blocks s t toks extra : tl_inv s → rooted (tl_pool s) → tb_block_size t = Z.of_nat (tl_size s) → toks ≠ [] →
  wp (allocate_blocks_for_token_ids None toks GPU extra) (s, t) (λ r st, ∃ os ids, r = Obj <$> os ∧ tl_inv st.1 ∧ tl_size st.1 = tl_size s ∧
    rooted (tl_pool st.1) ∧ untouched (tl_pool s) (tl_pool st.1) os ∧ fresh_objects (tl_pool s) os ∧ st.2 = t ∧
    length toks ≤ length os * tl_size s ∧ os ≠ [] ∧
    chained (tl_pool st.1) None os (layout (tl_size s) (length os) toks) ids) any_exn.
Proof.
  move=> HI Hr Hsz Hne. pose proof (tl_size_pos s HI) as Hpos. rw /allocate_blocks_for_token_ids. wp_step. rw /the_table. wp_step. cbn [fst snd].
  rw Hsz Nat2Z.id. destruct (chunks_filtered (tl_size s) toks Hpos) as [-> ->]. set q := length toks / tl_size s.
  pose proof (Nat.div_mod_eq (length toks) (tl_size s)) as Hqr. rw -/q in Hqr.
  pose proof (Nat.mod_upper_bound (length toks) (tl_size s) ltac:(lia)) as Hm.
  have Hlen : 0 < length toks by destruct toks; [|simpl; lia].
  wp_step.
  (* the full blocks *)
  apply (wp_mono _ _ (λ r st, ∃ os ids, r = Obj <$> os ∧ tl_inv st.1 ∧ tl_size st.1 = tl_size s ∧ rooted (tl_pool st.1) ∧
    untouched (tl_pool s) (tl_pool st.1) os ∧ fresh_objects (tl_pool s) os ∧ st.2 = t ∧ length os = q ∧
    chained (tl_pool st.1) None os (layout (tl_size s) q toks) ids) _ any_exn); [| |done].
  { case_bool_decide as Hq.
    - wp_step. exists [], []. have Hq0 : q = 0 by move: Hq; rw /layout; destruct q. rw Hq0. split_and!; try done. by split; constructor.
    - apply wp_on_allocator. eapply wp_mono; [by apply (law_immutables s None)| |done].
      intros r s1 (os & ids & -> & HI1 & Hs1 & Hf1 & Hu1 & Hc1). exists os, ids. split_and!; try done.
      + by eapply rooted_after; [done|done|apply Hf1| |exact Hc1].
      + have [Hl1 _] := chained_length _ _ _ _ _ Hc1. by rw layout_length in Hl1. }
  intros r [s1 t1] (os & ids & -> & HI1 & Hs1 & Hr1 & Hu1 & Hf1 & Ht1 & Hlos & Hc1). cbn [fst snd] in *. subst t1.
  have Hlast : q ≠ 0 → ∃ o, last os = Some o.
  { move=> Hq. destruct (last os) as [o|] eqn:E; first by exists o. apply last_None in E. subst os. by simpl in Hlos. }
  wp_step. apply (wp_mono _ _ (λ r st, r = (Obj <$> last os) ∧ st = (s1, t)) _ any_exn); [| |done].
  { case_bool_decide as Hq; wp_step.
    - have Hq0 : q = 0 by move: Hq; rw /layout; destruct q. destruct os; [done|by rw Hq0 in Hlos].
    - rw fmap_last in Heqo |- *. destruct (last os); done. 
    - exfalso. have Hq0 : q ≠ 0 by move=> E; apply Hq; rw E. destruct (Hlast Hq0) as [o Ho]. by rw fmap_last Ho in Heqo. }
  intros prev st [-> ->]. case_decide as Hmod.
  - wp_step. exists os, ids. have Hos : os ≠ [] by move=> E; subst os; simpl in Hlos; nia. split_and!; try done; rw Hlos //. nia.
  - wp_step. wp_step; last done. wp_step. apply wp_on_allocator.
    have Hp : ∀ x, last os = Some x → is_Some (tobj (tl_pool s1) x).
    { move=> x Hx. apply last_Some_elem_of in Hx. by eapply chained_live. }
    eapply wp_mono; [by apply (law_mutable s1 (last os))| |done].
    intros r s2 (o & id & -> & HI2 & Hs2 & Hf2 & Hu2 & Hc2). wp_step. apply wp_on_allocator.
    have Hno : ∀ y, y ∈ os → y ≠ o.
    { move=> y Hy ?. subst y. destruct (chained_live _ _ _ _ _ _ Hc1 Hy). destruct Hf2 as [_ Hf2].
      move: Hf2 => /Forall_cons [Hf2 _]. congruence. }
    have Hc2' : chained (tl_pool s2) None (os ++ [o]) (layout (tl_size s) q toks ++ [[]]) (ids ++ [id]).
    { have [L1 L2] := chained_length _ _ _ _ _ Hc1. apply chained_app; [done|done|]. split.
      - apply (chained_untouched (tl_pool s1) _ [o]); [done| |done]. move=> y Hy /list_elem_of_singleton. by apply Hno.
      - move: Hc2. rw /last_or. by destruct (last os). }
    have Hr2 : rooted (tl_pool s2).
    { eapply (rooted_after (tl_pool s1) _ [o] (last os)); [done|done|apply Hf2|done|done]. }
    eapply wp_mono; [apply (law_append s2 os o (layout (tl_size s) q toks) [] (ids ++ [id]))| |done].
    + done.
    + done.
    + done.
    + rw Hs2 Hs1. apply Forall_lookup => i x Hx. apply (layout_full _ q toks i x Hx). have Hi := lookup_lt_Some _ _ _ Hx. rw layout_length in Hi. nia.
    + intros [] s3 (b & b' & id' & HI3 & Hs3 & Hu3 & Hb & Hb' & Ht & Hprev & Hid'). wp_step. cbn [fst snd].
      exists (os ++ [o]), (ids ++ [id']). have [L1 L2] := chained_length _ _ _ _ _ Hc1.
      split_and!; [by rw fmap_app|done|congruence|by apply (rooted_update (tl_pool s2) _ o b b')| | |done|rw length_app Hlos /=; nia|by destruct os|].
      * move=> y /not_elem_of_app [Hy1 Hy2]. rw Hu3 // Hu2 // Hu1 //.
      * destruct Hf1 as [Hnd1 Hf1], Hf2 as [_ Hf2]. move: Hf2 => /Forall_cons [Hf2 _]. split.
        -- apply NoDup_app. split_and!; [done| |apply NoDup_singleton]. move=> y Hy /list_elem_of_singleton. by apply Hno.
        -- apply Forall_app. split; first done. apply Forall_singleton. rw -Hu1 //. move=> Hy. by apply (Hno o).
      * have -> : layout (tl_size s) (length (os ++ [o])) toks = <[q := nb_token_ids b']> (layout (tl_size s) q toks ++ [[]]).
        { rw length_app Hlos layout_app insert_app_r_alt ?layout_length // Nat.sub_diag /= Ht. f_equal. rw /layout /= drop_0.
          f_equal. apply take_ge. rw length_drop. lia. }
        have -> : ids ++ [id'] = <[q := id']> (ids ++ [id]) by rw insert_app_r_alt ?L2 ?Hlos // Nat.sub_diag.
        apply (chained_update (tl_pool s2) _ o b'); try done.
        -- apply NoDup_app. split_and!; [apply Hf1| |apply NoDup_singleton]. move=> y Hy /list_elem_of_singleton. by apply Hno.
        -- by rw lookup_app_r Hlos // Nat.sub_diag.
        -- move=> b1. rw Hb. by move=> [= <-].
Qed.

Lemma laid_chained p bs os toks ids : NoDup os → chained p None os (layout bs (length os) toks) ids → length toks ≤ length os * bs →
  laid p bs {| bl_blocks := Obj <$> os; bl_block_ids := ids |} os toks.
Proof. done. Qed.
(** The objects and the tokens that a table takes when it is allocated. *)
Lemma wp_table_allocate s t toks extra : tl_inv s → rooted (tl_pool s) → tb_block_size t = Z.of_nat (tl_size s) →
  tb_max_block_sliding_window t = None →
  wp (table_allocate toks GPU extra) (s, t) (λ _ st, ∃ os, tl_inv st.1 ∧ tl_size st.1 = tl_size s ∧ rooted (tl_pool st.1) ∧
    untouched (tl_pool s) (tl_pool st.1) os ∧ fresh_objects (tl_pool s) os ∧ os ≠ [] ∧ table_ok st.1 st.2 os toks) any_exn.
Proof.
  move=> HI Hr Hsz Hw. rw /table_allocate. wp_step. rw /the_table. wp_step. wp_step. wp_step; last done.
  wp_step. wp_step; last done. wp_step.
  have Hne : toks ≠ [] by move: H0; case_bool_decide.
  eapply wp_mono; [by apply (wp_allocate_blocks s t toks extra)| |done].
  intros r [s1 t1] (os & ids & -> & HI1 & Hs1 & Hr1 & Hu1 & Hf1 & Ht1 & Hroom & Hos & Hc1). cbn [fst snd] in *. subst t1.
  wp_step. rw /table_update. wp_step. apply wp_on_allocator. rw {1}/wp (block_list_update_ok _ _ _ _ _ Hc1). rw /on_table.
  wp_step. wp_step. wp_step. cbn [fst snd]. exists os. split_and!; try done. split; cbn; [by rw Hs1|done| |done].
  rw Hs1. apply laid_chained; [apply Hf1|done|done].
Qed.

Lemma wp_table_free s t os toks : tl_inv s → table_ok s t os toks →
  wp table_free (s, t) (λ _ st, tl_inv st.1 ∧ tl_size st.1 = tl_size s ∧ untouched (tl_pool s) (tl_pool st.1) os ∧
    Forall (λ o, tobj (tl_pool st.1) o = None) os ∧ st.2 = set_tb_blocks block_list_empty t) any_exn.
Proof.
  move=> HI [_ _ T3 _]. rw /table_free. wp_step. rw /the_table. wp_step. cbn [fst snd]. rw (ld_blocks _ _ _ _ _ T3). wp_step.
  have Hnd := ld_nodup _ _ _ _ _ T3. have Hc := ld_chain _ _ _ _ _ T3.
  have Hall : Forall (λ o, ∃ b, tobj (tl_pool s) o = Some b ∧ is_Some (nb_block_id b)) os.
  { apply Forall_lookup => i o Ho. destruct (chained_lookup _ _ _ _ _ _ _ Hc Ho) as (b & Hb & _ & id & Hid & _). exists b. by rw Hid. }
  clear T3 Hc toks.
  eapply wp_mono; [apply (wp_for_idx _ _ (λ i st, tl_inv st.1 ∧ tl_size st.1 = tl_size s ∧ untouched (tl_pool s) (tl_pool st.1) (take i os) ∧
    Forall (λ o, tobj (tl_pool st.1) o = None) (take i os) ∧ st.2 = t) _ (λ _ st, tl_inv st.1 ∧ tl_size st.1 = tl_size s ∧
    untouched (tl_pool s) (tl_pool st.1) os ∧ Forall (λ o, tobj (tl_pool st.1) o = None) os ∧ st.2 = t) any_exn)| |done].
  - by split_and!; [| | |constructor|].
  - intros i y [s1 t1] Hi (HI1 & Hs1 & Hu1 & Hf1 & Ht1). cbn [fst snd] in *. subst t1.
    rw list_lookup_fmap in Hi. destruct (os !! i) as [o|] eqn:Ho; last done. injection Hi as <-.
    destruct (proj1 (Forall_lookup _ _) Hall i o Ho) as (b & Hb & Hid).
    have Hno : o ∉ take i os.
    { move=> /elem_of_take [j [Hj Hlt]]. have := NoDup_lookup _ _ _ _ Hnd Hj Ho. lia. }
    apply wp_on_allocator. eapply wp_mono; [apply (law_free s1 o b); [done|by rw Hu1|done]| |done].
    intros [] s2 (HI2 & Hs2 & Hu2 & Hd2). cbn [fst snd]. rw (take_S_r _ _ _ Ho). split_and!; [done|congruence| | |done].
    + by eapply untouched_trans.
    + apply Forall_app. split; last by apply Forall_singleton. apply Forall_forall => y Hy. rw Forall_forall in Hf1.
      rw Hu2; last by apply Hf1. move=> /list_elem_of_singleton ?. by subst.
  - intros [s1 t1] (HI1 & Hs1 & Hu1 & Hf1 & Ht1). rw length_fmap firstn_all in Hu1 Hf1. done.
  - intros [] [s1 t1] (HI1 & Hs1 & Hu1 & Hf1 & Ht1). cbn [fst snd] in *. subst t1. rw /on_table. wp_step. done.
Qed.

(** The fork of a table holds the same tokens in objects of its own. *)
Lemma wp_table_fork s t os toks : tl_inv s → rooted (tl_pool s) → table_ok s t os toks →
  wp table_fork (s, t) (λ t' st, ∃ os', tl_inv st.1 ∧ tl_size st.1 = tl_size s ∧ rooted (tl_pool st.1) ∧
    untouched (tl_pool s) (tl_pool st.1) os' ∧ fresh_objects (tl_pool s) os' ∧ length os' = length os ∧
    bl_block_ids (tb_blocks t') = bl_block_ids (tb_blocks t) ∧
    table_ok st.1 t' os' toks ∧ st.2 = t) any_exn.
Proof.
  move=> HI Hr [T1 T2 T3 T4]. rw /table_fork. wp_step. rw /the_table. wp_step. wp_step. wp_step; last done.
  cbn [fst snd]. rw (ld_blocks _ _ _ _ _ T3) fmap_last. have Hnd := ld_nodup _ _ _ _ _ T3. have Hc := ld_chain _ _ _ _ _ T3.
  destruct (last os) as [o|] eqn:Elast; last by wp_step. apply last_Some in Elast. destruct Elast as [os0 ->].
  cbn [fmap option_fmap option_map]. wp_step. apply wp_on_allocator.
  eapply wp_mono; [by apply (law_fork s os0 o _ _ HI Hr Hnd Hc)| |done].
  intros r s1 (os' & -> & HI1 & Hs1 & Hf1 & Hu1 & Hc1). apply wp_on_allocator.
  have [L1 _] := chained_length _ _ _ _ _ Hc1. have [L2 _] := chained_length _ _ _ _ _ Hc. rw L1 in L2.
  have Hrest : (block_table_init (tb_block_size t) (Obj <$> os') (tb_max_block_sliding_window t)) s1 =
    Ok ({| tb_block_size := tb_block_size t; tb_blocks := {| bl_blocks := Obj <$> os'; bl_block_ids := bl_block_ids (tb_blocks t) |};
           tb_max_block_sliding_window := tb_max_block_sliding_window t; tb_num_full_slots := Z.of_nat (length toks) |}, s1).
  { rw /block_table_init /mbind /M_bind (block_list_update_ok _ _ _ _ _ Hc1) /get_num_token_ids (num_token_ids_ok _ _ _ _ _ 0%Z Hc1).
    rw layout_concat; [apply (ld_room _ _ _ _ _ T3)|done]. }
  rw /wp Hrest. exists os'. cbn [fst snd]. split_and!; try done.
  - eapply rooted_after; [done|done|apply Hf1| |exact Hc1]. done.
  - split; cbn; [by rw Hs1|done| |done]. rw Hs1. rw -L2 in Hc1. apply laid_chained; [apply Hf1|done|].
    rw L2. apply (ld_room _ _ _ _ _ T3).
Qed.
End ops.

(** The number of touched blocks is the number of chunks of the appended slots,
    unless no slot is appended. *)
Lemma cdiv_nonpos a b : (- b < a ≤ 0)%Z → cdiv a b = 0%Z.
Proof. move=> Ha. have Hs := cdiv_spec a b ltac:(lia). nia. Qed.
Lemma touched_chunks toks t n : (0 < tb_block_size t)%Z → (0 ≤ n)%Z → (0 < Z.of_nat (length toks) + n)%Z →
  get_num_blocks_touched_by_append_slots toks n t =
    Z.of_nat (length (chunk_token_blocks_for_append (toks ++ replicate (Z.to_nat n) (-1)%Z) t)).
Proof.
  move=> Hbs Hn Hpos. rw /get_num_blocks_touched_by_append_slots /chunk_token_blocks_for_append. case_bool_decide as He.
  { exfalso. have := f_equal length He. rw length_app length_replicate /=. lia. }
  have Hm := Z.mod_pos_bound (tb_num_full_slots t) (tb_block_size t) Hbs. set f := (tb_block_size t - _)%Z. have Hf : (0 < f ≤ tb_block_size t)%Z by lia.
  rw /= chunk_list_layout layout_length length_drop length_app length_replicate Z2Nat.id; first lia.
  set a := (Z.of_nat (length toks) + n)%Z in Hpos *.
  destruct (Z.le_gt_cases f a) as [Hle|Hlt].
  - have -> : Z.of_nat (length toks + Z.to_nat n - Z.to_nat f) = (a - f)%Z by lia.
    have Hs := cdiv_spec (a - f)%Z (tb_block_size t) Hbs. nia.
  - have -> : Z.of_nat (length toks + Z.to_nat n - Z.to_nat f) = 0%Z by lia. rw !cdiv_nonpos; lia.
Qed.
