(* ===== verification/TableInst.v ===== *)
(** The allocators of the code satisfy the contract of block tables: what an
    allocator promises for its own objects ([HomeLaws]), that
    [CpuGpuBlockAllocator] keeps the promise of its GPU allocator, and that the
    naive allocator gives it. *)
From Stdlib Require Import ssreflect ZArith Lia.
From stdpp Require Import base numbers list gmap strings.
From S2P Require Import Prelude NaiveBlocks NaiveTheorems PrefixHash BlockTable CpuGpu TableLaws.

Class HomeLaws (A : Type) {BA : BlockAllocator A} := {
  hl_inv : A → Prop;
  hl_pool : A → BlockPool;
  hl_size : A → nat;
  hl_size_pos s : hl_inv s → 0 < hl_size s;
  hl_block s o b : tobj (hl_pool s) o = Some b → ba_block o s = Ok (b, s);
  hl_known s o b id : hl_inv s → tobj (hl_pool s) o = Some b → nb_block_id b = Some id → id ∈ ba_all_block_ids s;
  hl_mutable s prev extra : hl_inv s → rooted (hl_pool s) → (∀ q, prev = Some q → is_Some (tobj (hl_pool s) q)) →
    wp (ba_allocate_mutable_block prev extra) s (λ o s', ∃ id, hl_inv s' ∧ hl_size s' = hl_size s ∧
      fresh_objects (hl_pool s) [o] ∧ untouched (hl_pool s) (hl_pool s') [o] ∧ chained (hl_pool s') prev [o] [[]] [id]) any_exn;
  hl_immutables s prev l extra : hl_inv s → rooted (hl_pool s) → (∀ q, prev = Some q → is_Some (tobj (hl_pool s) q)) →
    wp (ba_allocate_immutable_blocks prev l extra) s (λ os s', ∃ ids, hl_inv s' ∧
      hl_size s' = hl_size s ∧ fresh_objects (hl_pool s) os ∧ untouched (hl_pool s) (hl_pool s') os ∧
      chained (hl_pool s') prev os l ids) any_exn;
  hl_append s os o full t ids toks : hl_inv s → rooted (hl_pool s) → chained (hl_pool s) None (os ++ [o]) (full ++ [t]) ids →
    Forall (λ c, length c = hl_size s) full →
    wp (ba_append_token_ids o toks) s (λ _ s', ∃ b b' id', hl_inv s' ∧ hl_size s' = hl_size s ∧
      untouched (hl_pool s) (hl_pool s') [o] ∧ tobj (hl_pool s) o = Some b ∧ tobj (hl_pool s') o = Some b' ∧
      nb_token_ids b' = t ++ toks ∧ nb_prev_block b' = nb_prev_block b ∧ nb_block_id b' = Some id') any_exn;
  hl_free s o b : hl_inv s → tobj (hl_pool s) o = Some b → is_Some (nb_block_id b) →
    wp (ba_free o) s (λ _ s', hl_inv s' ∧ hl_size s' = hl_size s ∧ untouched (hl_pool s) (hl_pool s') [o] ∧
      tobj (hl_pool s') o = None) any_exn;
  hl_fork s os o toks ids : hl_inv s → rooted (hl_pool s) → NoDup (os ++ [o]) → chained (hl_pool s) None (os ++ [o]) toks ids →
    wp (ba_fork o) s (λ os' s', hl_inv s' ∧ hl_size s' = hl_size s ∧
      fresh_objects (hl_pool s) os' ∧ untouched (hl_pool s) (hl_pool s') os' ∧ chained (hl_pool s') None os' toks ids) any_exn;
  hl_cows s : hl_inv s → wp ba_clear_copy_on_writes s (λ _ s', hl_inv s' ∧ hl_size s' = hl_size s ∧ hl_pool s' = hl_pool s) any_exn;
  hl_accessed s ids now : hl_inv s →
    wp (ba_mark_blocks_as_accessed ids now) s (λ _ s', hl_inv s' ∧ hl_size s' = hl_size s ∧ hl_pool s' = hl_pool s) any_exn;
  hl_computed s ids : hl_inv s →
    wp (ba_mark_blocks_as_computed ids) s (λ _ s', hl_inv s' ∧ hl_size s' = hl_size s ∧ hl_pool s' = hl_pool s) any_exn;
  hl_find_cached s hs : hl_inv s → wp (ba_find_cached_blocks_prefix hs) s (λ _ s', s' = s) any_exn;
}.

(** * [CpuGpuBlockAllocator] *)
Section cpu_gpu.
Context {A : Type} {BA : BlockAllocator A} {HL : HomeLaws A}.
Abbreviation CG := (CpuGpuBlockAllocator A).

Lemma set_cg_gpu_id (s : CG) : set_cg_gpu (cg_gpu s) s = s.
Proof. by destruct s. Qed.
Lemma wp_on_gpu {B} (m : M A B) (s : CG) Q E : wp m (cg_gpu s) (λ r a, Q r (set_cg_gpu a s)) E → wp (on_device GPU m) s Q E.
Proof. move=> H. rw /on_device. by apply wp_zoom. Qed.
Lemma cg_block_ok (s : CG) o b : tobj (hl_pool (cg_gpu s)) o = Some b → cg_block (Obj o) s = Ok (b, s).
Proof.
  move=> Hb. rw /cg_block /on_device /zoom /= (hl_block _ _ _ Hb). by rw set_cg_gpu_id.
Qed.
Lemma object_of_refs (prev : option nat) : object_of <$> (Obj <$> prev) = prev.
Proof. by destruct prev. Qed.
(** The object is one of the GPU. *)
Lemma wp_device_of (s : CG) o b id Q E : hl_inv (cg_gpu s) → tobj (hl_pool (cg_gpu s)) o = Some b → nb_block_id b = Some id →
  Q GPU s → wp (mlift (device_of id s)) s Q E.
Proof. move=> HI Hb Hid HQ. rw /device_of bool_decide_eq_true_2; first by apply (hl_known _ o b). by apply wp_lift => // d [= <-]. Qed.

#[export] Program Instance cpu_gpu_laws : TableLaws CG := {|
  tl_inv s := hl_inv (cg_gpu s); tl_pool s := hl_pool (cg_gpu s); tl_size s := hl_size (cg_gpu s);
|}.
Next Obligation. move=> s. apply hl_size_pos. Qed.
Next Obligation. move=> s o b Hb. by rw /= /mbind /M_bind (cg_block_ok s o b Hb). Qed.
Next Obligation. move=> s o b Hb. by rw /= /mbind /M_bind (cg_block_ok s o b Hb). Qed.
Next Obligation.
  move=> s prev extra HI Hr Hp. rw /= /cg_allocate_mutable_block object_of_refs. wp_step. apply wp_on_gpu.
  eapply wp_mono; [by apply hl_mutable| |done]. intros o a (id & H). wp_step. by exists o, id.
Qed.
Next Obligation.
  move=> s prev l extra HI Hr Hp. rw /= /cg_allocate_immutable_blocks object_of_refs. wp_step. apply wp_on_gpu.
  eapply wp_mono; [by apply hl_immutables| |done]. intros os a (ids & H). wp_step. by exists os, ids.
Qed.
Next Obligation.
  move=> s os o full t ids toks HI Hr Hc Hf. apply wp_on_gpu. eapply wp_mono; [by apply (hl_append _ os o full t ids)| |done].
  intros [] a H. exact H.
Qed.
Next Obligation.
  move=> s o b HI Hb [id Hid]. rw /= /cg_free. wp_step. rw {1}/wp (cg_block_ok s o b Hb) Hid. wp_step. wp_step. wp_step.
  apply (wp_device_of s o b id); [done|done|done|]. apply wp_on_gpu. eapply wp_mono; [by apply (hl_free _ o b)| |done].
  intros [] a H. exact H.
Qed.
Next Obligation.
  move=> s os o toks ids HI Hr Hnd Hc. rw /= /cg_fork. wp_step.
  destruct (chained_live _ _ _ _ _ o Hc) as [b Hb]; first by apply elem_of_app; right; left.
  rw {1}/wp (cg_block_ok s o b Hb). destruct (nb_block_id b) as [id|] eqn:Hid; last by wp_step. wp_step. wp_step. wp_step.
  apply (wp_device_of s o b id); [done|done|done|]. wp_step. apply wp_on_gpu. eapply wp_mono; [by apply (hl_fork _ os o toks ids)| |done].
  intros os' a H. wp_step. by exists os'.
Qed.
Next Obligation. move=> s HI. apply wp_on_gpu. eapply wp_mono; [by apply hl_cows| |done]. by intros ? a H. Qed.
Next Obligation. move=> s ids now HI. apply wp_on_gpu. eapply wp_mono; [by apply hl_accessed| |done]. by intros ? a H. Qed.
Next Obligation. move=> s ids HI. apply wp_on_gpu. eapply wp_mono; [by apply hl_computed| |done]. by intros ? a H. Qed.
Next Obligation.
  move=> s hs HI. apply wp_on_gpu. eapply wp_mono; [by apply hl_find_cached| |done]. intros ? a ->. apply set_cg_gpu_id.
Qed.
End cpu_gpu.

(** * Pools *)
Lemma tobj_Some p o b : tobj p o = Some b ↔ live p o ∧ bp_pool p !! o = Some b.
Proof. rw /tobj. case_decide; split; [done|by move=> [_ ?]|done|by move=> [? _]]. Qed.
Lemma tobj_None p o : ¬ live p o → tobj p o = None.
Proof. move=> H. by rw /tobj decide_False. Qed.
Lemma tobj_kept p p' o : (live p' o ↔ live p o) → (live p o → bp_pool p' !! o = bp_pool p !! o) → tobj p' o = tobj p o.
Proof. move=> Hl Hb. rw /tobj. destruct (decide (live p o)) as [H|H]; [rw decide_True; [by apply Hl|by apply Hb]|rw decide_False //; tauto]. Qed.
Lemma handed_out_tobj p p' o b : handed_out p p' o b → fresh_objects p [o] ∧ untouched p p' [o] ∧ tobj p' o = Some b.
Proof.
  move=> [H1 H2 H3 H4 H5]. split_and!.
  - split; [apply NoDup_singleton|]. by apply Forall_singleton, tobj_None.
  - move=> y Hy. have Hne : y ≠ o by move=> ?; subst; apply Hy; left. apply tobj_kept; [rw H4; tauto|apply H5].
  - apply tobj_Some. split; [apply H4; by left|done].
Qed.
Lemma pool_inv_ok p : pool_inv p → pool_ok p.
Proof. move=> [H1 H2 H3 H4]. split; try done. move=> o /H3 [b [Hb _]]. by eapply lookup_lt_Some. Qed.
(** A store to an object in use. *)
Lemma only_object_tobj o b b0 s s' : only_object o b s s' → tobj (na_block_pool s) o = Some b0 →
  untouched (na_block_pool s) (na_block_pool s') [o] ∧ tobj (na_block_pool s') o = Some b.
Proof.
  move=> [H1 H2] /tobj_Some [Hl Hb]. have Hlv : ∀ y, live (na_block_pool s') y ↔ live (na_block_pool s) y.
  { move=> y. by rw /live H1 H2 length_insert. } split.
  - move=> y Hy. apply tobj_kept; first done. move=> _. rw H1 list_lookup_insert_ne //. move=> ?; subst. by apply Hy; left.
  - apply tobj_Some. split; first by apply Hlv. rw H1 list_lookup_insert_eq //. by eapply lookup_lt_Some.
Qed.
(** An object goes back to the pool. *)
Lemma returned_tobj p p' o : bp_pool p' = bp_pool p → bp_free_ids p' = o :: bp_free_ids p →
  untouched p p' [o] ∧ tobj p' o = None.
Proof.
  move=> H1 H2. split.
  - move=> y Hy. apply tobj_kept; last by rw H1. rw /live H1 H2 not_elem_of_cons.
    have : y ≠ o by move=> ?; subst; apply Hy; left. tauto.
  - apply tobj_None. rw /live H2. move=> [_ Hn]. apply Hn. by left.
Qed.
Lemma untouched_eq p p' l p1 : p1 = p' → untouched p p' l → untouched p p1 l.
Proof. by move=> ->. Qed.
Lemma untouched_via p p1 p' l : untouched p p1 l → untouched p1 p' l → untouched p p' l.
Proof. move=> H1 H2 y Hy. by rw H2 // H1. Qed.

(** * The naive allocator *)
Section naive.
Abbreviation npool s := (na_block_pool s).
Definition naive_ok (s : NaiveBlockAllocator) : Prop := naive_inv [] s ∧ 0 < na_block_size s.

(** A new object for a block id in hand. *)
Lemma wp_naive_init held s prev toks bs id : naive_inv (id :: held) s →
  wp (on_pool (init_block prev toks bs (Some id))) s (λ o s', naive_inv held s' ∧ same_frame s s' ∧
    fresh_objects (npool s) [o] ∧ untouched (npool s) (npool s') [o] ∧ chained (npool s') prev [o] [toks] [id]) any_exn.
Proof.
  move=> HI. have HW : wp (on_pool (init_block prev toks bs (Some id))) s (λ o s', handed_out (npool s) (npool s') o
    {| nb_token_ids := toks; nb_block_size := bs; nb_prev_block := prev; nb_block_id := Some id; nb_pool_id := Some o |}) any_exn.
  { apply wp_zoom. by apply init_block_ok, pool_inv_ok, HI. }
  eapply wp_mono; [apply wp_and; [by apply wp_attach|exact HW]| |done]. intros o s' [(H1 & _ & H3) H4]. have [F1 [F2 F3]] := handed_out_tobj _ _ _ _ H4. split_and!; try done.
  split; last done. eexists. by split; [exact F3|].
Qed.
Lemma wp_naive_mutable s prev : naive_ok s →
  wp (allocate_mutable_block prev) s (λ o s', ∃ id, naive_ok s' ∧ na_block_size s' = na_block_size s ∧
    fresh_objects (npool s) [o] ∧ untouched (npool s) (npool s') [o] ∧ chained (npool s') prev [o] [[]] [id]) any_exn.
Proof.
  move=> [HI Hs]. rw /allocate_mutable_block. wp_step. eapply wp_mono; [by apply wp_allocate_block_id| |done].
  intros id s1 (HI1 & _ & _ & Hp1 & Hf1). wp_step. wp_step. eapply wp_mono; [by apply (wp_naive_init [])| |done].
  intros o s2 (HI2 & Hf2 & H1 & H2 & H3). exists id. have Hsz : na_block_size s2 = na_block_size s by rw (sf_size _ _ Hf2) (sf_size _ _ Hf1).
  rw Hp1 in H1 H2. split_and!; try done. by rw /naive_ok Hsz.
Qed.
Lemma wp_naive_ids l : ∀ ids s, naive_inv ids s →
  wp (mfold l ids (λ ids (_ : list Z), id ← allocate_block_id; mret (ids ++ [id]))) s (λ ids' s', naive_inv ids' s' ∧
    length ids' = length ids + length l ∧ npool s' = npool s ∧ na_block_size s' = na_block_size s) any_exn.
Proof.
  elim: l => [|x l IH] ids s HI; cbn [mfold]; first by wp_step; split_and!; [done|simpl; lia| |].
  wp_step. wp_step. eapply wp_mono; [by apply wp_allocate_block_id| |done]. intros id s1 (HI1 & _ & _ & Hp1 & Hf1). wp_step.
  eapply wp_mono; [apply IH; apply (naive_inv_held (id :: ids)); [by rw Permutation_app_comm|done]| |done].
  intros ids' s2 (HI2 & Hl & Hp2 & Hs2). split_and!; [done|rw Hl length_app /=; lia|congruence|by rw Hs2 (sf_size _ _ Hf1)].
Qed.
Lemma fresh_cons p p' o os : fresh_objects p [o] → untouched p p' [o] → is_Some (tobj p' o) → fresh_objects p' os → fresh_objects p (o :: os).
Proof.
  move=> [_ /Forall_cons [H1 _]] Hu [b Ho] [H2 H3]. have Hno : o ∉ os by rw Forall_forall in H3; move=> /H3; congruence. split.
  - by apply NoDup_cons.
  - apply Forall_cons. split; first done. rw Forall_forall in H3. apply Forall_forall. move=> y Hy.
    rw -Hu; last by apply H3. move=> /list_elem_of_singleton ?. by subst.
Qed.
Lemma chained_cons p p' prev o toks id os l ids : chained p prev [o] [toks] [id] → fresh_objects p os → untouched p p' os →
  chained p' (Some o) os l ids → chained p' prev (o :: os) (toks :: l) (id :: ids).
Proof.
  move=> [[b [Hb H]] _] [_ Hf] Hu Hc. split; last done. exists b. split; last done. rw Hu //.
  move=> Hin. rw Forall_forall in Hf. have := Hf o Hin. congruence.
Qed.
Lemma wp_naive_attach bs (l : list (list Z * nat)) : ∀ prev acc s, naive_inv l.*2 s →
  wp (mfold l (prev, acc) (λ '(prev_block, blocks) '(token_ids, id),
        o ← on_pool (init_block prev_block token_ids bs (Some id)); mret (Some o, blocks ++ [o]))) s
    (λ r s', ∃ os, r.2 = acc ++ os ∧ naive_inv [] s' ∧ na_block_size s' = na_block_size s ∧ fresh_objects (npool s) os ∧
      untouched (npool s) (npool s') os ∧ chained (npool s') prev os l.*1 l.*2) any_exn.
Proof.
  elim: l => [|[toks id] l IH] prev acc s HI; cbn [mfold].
  { wp_step. exists []. rw app_nil_r. split_and!; try done. split; constructor. }
  wp_step. wp_step. eapply wp_mono; [by apply (wp_naive_init l.*2)| |done].
  intros o s1 (HI1 & Hf1 & Hfr1 & Hu1 & Hc1). wp_step.
  eapply wp_mono; [by apply IH| |done]. intros [p bl] s2 (os & Hr & HI2 & Hs2 & Hfr2 & Hu2 & Hc2). cbn [snd] in Hr.
  exists (o :: os). split_and!.
  - by rw Hr -app_assoc.
  - done.
  - by rw Hs2 (sf_size _ _ Hf1).
  - apply (fresh_cons _ (npool s1)); try done. eapply chained_live; [exact Hc1|by left].
  - by apply (untouched_trans _ (npool s1) _ [o] os).
  - by apply (chained_cons (npool s1)).
Qed.
Lemma wp_naive_immutables s prev l : naive_ok s →
  wp (allocate_immutable_blocks prev l) s (λ os s', ∃ ids, naive_ok s' ∧ na_block_size s' = na_block_size s ∧
    fresh_objects (npool s) os ∧ untouched (npool s) (npool s') os ∧ chained (npool s') prev os l ids) any_exn.
Proof.
  move=> [HI Hs]. rw /allocate_immutable_blocks. wp_step. eapply wp_mono; [by apply (wp_naive_ids l [])| |done].
  intros ids s1 (HI1 & Hl & Hp1 & Hs1). cbn [length] in Hl. wp_step. wp_step. wp_step. 
  have E1 : (zip l ids).*1 = l by rw fst_zip //; lia. have E2 : (zip l ids).*2 = ids by rw snd_zip //; lia.
  eapply wp_mono; [apply (wp_naive_attach (na_block_size s1) (zip l ids) prev [] s1); by rw E2| |done].
  intros [p bl] s2 (os & Hr & HI2 & Hs2 & Hf2 & Hu2 & Hc2). cbn [snd] in Hr. subst bl. wp_step. exists ids. rw Hp1 in Hf2 Hu2.
  rw E1 E2 in Hc2. rw Hs1 in Hs2. split_and!; try done. by rw /naive_ok Hs2.
Qed.

(** Nothing changes the block size. *)
Definition keeps_size {B} (m : M NaiveBlockAllocator B) : Prop :=
  ∀ s, wp m s (λ _ s', na_block_size s' = na_block_size s) any_exn.
Lemma keeps_size_bind {B C} (m : M NaiveBlockAllocator B) (f : B → M NaiveBlockAllocator C) :
  keeps_size m → (∀ b, keeps_size (f b)) → keeps_size (m ≫= f).
Proof. move=> Hm Hf s. wp_step. eapply wp_mono; [apply Hm| |done]. move=> b s1 <-. apply Hf. Qed.
Lemma keeps_size_ret {B} (b : B) : keeps_size (mret b).
Proof. move=> s. by wp_step. Qed.
Lemma keeps_size_get : keeps_size mget.
Proof. move=> s. by wp_step. Qed.
Lemma keeps_size_raise {B} e : keeps_size (mraise e : M NaiveBlockAllocator B).
Proof. move=> s. by wp_step. Qed.
Lemma keeps_size_lift {B} (r : result B) : keeps_size (mlift r).
Proof. move=> s. by apply wp_lift. Qed.
Lemma keeps_size_assert b msg : keeps_size (massert b msg).
Proof. move=> s. by wp_step. Qed.
Lemma keeps_size_when b m : keeps_size m → keeps_size (mwhen b m).
Proof. by destruct b; [|move=> _; apply keeps_size_ret]. Qed.
Lemma keeps_size_modify f : (∀ s, na_block_size (f s) = na_block_size s) → keeps_size (mmodify f).
Proof. move=> Hf s. wp_step. apply Hf. Qed.
Lemma keeps_size_on_pool {B} (m : M BlockPool B) : keeps_size (on_pool m).
Proof. move=> s. apply wp_zoom. rw /wp. by destruct (m (npool s)) as [[b p]|e]. Qed.
Create HintDb sizes.
#[local] Hint Resolve keeps_size_bind keeps_size_ret keeps_size_get keeps_size_raise keeps_size_lift keeps_size_assert keeps_size_when
  keeps_size_on_pool : sizes.
Ltac sizes := repeat first [apply keeps_size_bind; [|intros ?] | progress auto with sizes | apply keeps_size_when | apply keeps_size_modify; done | case_match].
Lemma append_keeps_size o toks : keeps_size (append_token_ids o toks).
Proof.
  rw /append_token_ids /cow_block_if_not_appendable /is_appendable /free_block_id /allocate_block_id /record_cow /ref_incr /ref_decr /ref_set
    /ref_get /the_block /upd_block. sizes.
Qed.
Lemma free_keeps_size o keep : keeps_size (naive_free o keep).
Proof. rw /naive_free /free_block_id /pool_free_block /ref_decr /ref_set /ref_get /the_block /upd_block. sizes. Qed.

Lemma wp_naive_append s os o full t ids toks : naive_ok s → chained (npool s) None (os ++ [o]) (full ++ [t]) ids →
  wp (append_token_ids o toks) s (λ _ s', ∃ b b' id', naive_ok s' ∧ na_block_size s' = na_block_size s ∧
    untouched (npool s) (npool s') [o] ∧ tobj (npool s) o = Some b ∧ tobj (npool s') o = Some b' ∧
    nb_token_ids b' = t ++ toks ∧ nb_prev_block b' = nb_prev_block b ∧ nb_block_id b' = Some id') any_exn.
Proof.
  move=> [HI Hs] Hc. have Ho : (os ++ [o]) !! length os = Some o by rw lookup_app_r // Nat.sub_diag.
  destruct (chained_lookup _ _ _ _ _ _ _ Hc Ho) as (b & Hb & Ht & id & Hid & _).
  have [L _] := chained_length _ _ _ _ _ Hc. have Hlen : length full = length os by rw !length_app /= in L; lia.
  rw lookup_app_r // in Ht; [lia|]. rw Hlen Nat.sub_diag in Ht. injection Ht as Ht.
  have [Hl Hob] := proj1 (tobj_Some _ _ _) Hb.
  eapply wp_mono; [apply wp_and; [by apply wp_append_token_ids|apply append_keeps_size]| |done].
  intros [] s' [(b0 & Hb0 & HI' & _ & Hm) Hsz]. rw Hob in Hb0. injection Hb0 as <-. rw Hid in Hm. destruct Hm as (id' & HO & _).
  destruct (only_object_tobj _ _ _ _ _ HO Hb) as [Hu Hb']. eexists b, _, id'. split_and!; try done; [by rw /naive_ok Hsz|by rw /= -Ht].
Qed.
Lemma wp_naive_free_object s o b : naive_ok s → tobj (npool s) o = Some b → is_Some (nb_block_id b) →
  wp (naive_free o false) s (λ _ s', naive_ok s' ∧ na_block_size s' = na_block_size s ∧ untouched (npool s) (npool s') [o] ∧
    tobj (npool s') o = None) any_exn.
Proof.
  move=> [HI Hs] Hb _. have HW : wp (naive_free o false) s (λ _ s', untouched (npool s) (npool s') [o] ∧ tobj (npool s') o = None) any_exn.
  { rw /naive_free. wp_step. eapply wp_mono; [by apply wp_free_block_id| |done].
    intros [] s1 (HI1 & b0 & id & Hb0 & Hid & P1 & F1 & _). destruct (only_object_tobj o _ b s s1 (conj P1 F1) Hb) as [Hu1 Hb1].
    have [Hl1 Hob1] := proj1 (tobj_Some _ _ _) Hb1. cbn [negb mwhen]. rw /pool_free_block. wp_step. apply wp_the_block; last done.
    move=> b2 Hb2. rw (pi_pool_id _ (ni_pool _ _ HI1) _ _ Hb2 (proj2 Hl1)). apply wp_zoom. wp_step.
    destruct (returned_tobj (npool s1) (set_bp_free_ids (o :: bp_free_ids (npool s1)) (npool s1)) o) as [Hu2 Hd2]; [done|done|].
    split; [by eapply untouched_via|done]. }
  eapply wp_mono; [apply wp_and; [apply wp_and; [by apply wp_naive_free|apply free_keeps_size]|exact HW]| |done].
  intros [] s' [[HI' Hsz] [Hu Hd]]. split_and!; try done. by rw /naive_ok Hsz.
Qed.

Lemma wp_naive_fork_object prev acc o b id s : naive_inv [] s → tobj (npool s) o = Some b → nb_block_id b = Some id →
  wp (fork_block (prev, acc) o) s (λ r s', ∃ o', r = (Some o', acc ++ [o']) ∧ naive_inv [] s' ∧ na_block_size s' = na_block_size s ∧
    fresh_objects (npool s) [o'] ∧ untouched (npool s) (npool s') [o'] ∧ chained (npool s') prev [o'] [nb_token_ids b] [id]) any_exn.
Proof.
  move=> HI Hb Hid. have [Hl Hob] := proj1 (tobj_Some _ _ _) Hb. rw /fork_block. wp_step. apply wp_the_block; last done. move=> b' Hb'.
  rw Hob in Hb'. injection Hb' as <-. rw Hid. wp_step. destruct (inv_known _ _ _ _ _ HI Hob Hid) as [Hpos _].
  eapply wp_mono; [by apply wp_ref_incr| |done]. intros n s1 (_ & I1 & Hp & S1). wp_step. wp_step; last done.
  wp_step. wp_step. wp_step. eapply wp_mono; [by apply (wp_naive_init [])| |done]. intros o' s2 (I2 & F2 & H1 & H2 & H3). wp_step.
  rw Hp in H1 H2. exists o'. split_and!; try done. by rw (sf_size _ _ F2) (sf_size _ _ S1).
Qed.
Lemma wp_naive_forks os : ∀ prev fprev acc s toks ids, naive_inv [] s → chained (npool s) prev os toks ids →
  wp (mfold os (fprev, acc) fork_block) s (λ r s', ∃ os', r.2 = acc ++ os' ∧ naive_inv [] s' ∧ na_block_size s' = na_block_size s ∧
    fresh_objects (npool s) os' ∧ untouched (npool s) (npool s') os' ∧ chained (npool s') fprev os' toks ids) any_exn.
Proof.
  elim: os => [|o os IH] prev fprev acc s [|t toks] [|id ids] HI //; cbn [mfold].
  { move=> _. wp_step. exists []. rw app_nil_r. split_and!; try done. split; constructor. }
  intros [(b & Hb & <- & Hp & Hid) Hc]. wp_step. eapply wp_mono; [by apply (wp_naive_fork_object fprev acc o b id)| |done].
  intros r s1 (o' & -> & HI1 & Hs1 & Hf1 & Hu1 & Hc1).
  have Hc' : chained (npool s1) (Some o) os toks ids.
  { apply (chained_untouched (npool s) _ [o']); try done. move=> y Hy /list_elem_of_singleton ?. subst y.
    destruct (chained_live _ _ _ _ _ _ Hc Hy) as [b' Hb']. destruct Hf1 as [_ Hf1]. move: Hf1 => /Forall_cons [Hf1 _]. congruence. }
  eapply wp_mono; [by apply (IH (Some o) (Some o'))| |done].
  intros r s2 (os' & Hr & HI2 & Hs2 & Hf2 & Hu2 & Hc2). exists (o' :: os'). split_and!.
  - by rw Hr -app_assoc.
  - done.
  - congruence.
  - apply (fresh_cons _ (npool s1)); try done. eapply chained_live; [exact Hc1|by left].
  - by apply (untouched_trans _ (npool s1) _ [o'] os').
  - by apply (chained_cons (npool s1)).
Qed.
Lemma wp_naive_fork_chain s os o toks ids : naive_ok s → NoDup (os ++ [o]) → chained (npool s) None (os ++ [o]) toks ids →
  wp (naive_fork o) s (λ os' s', naive_ok s' ∧ na_block_size s' = na_block_size s ∧
    fresh_objects (npool s) os' ∧ untouched (npool s) (npool s') os' ∧ chained (npool s') None os' toks ids) any_exn.
Proof.
  move=> [HI Hs] Hnd Hc. rw /naive_fork. wp_step. wp_step. wp_step. rw {1}/wp (all_blocks_chain _ _ _ (chained_chain _ _ _ _ _ Hc)).
  { have := chained_fits _ _ _ _ _ Hnd Hc. lia. }
  wp_step. eapply wp_mono; [by apply (wp_naive_forks (os ++ [o]) None None [])| |done].
  intros [p os'] s1 (l & Hr & HI1 & Hs1 & Hf1 & Hu1 & Hc1). cbn [snd] in Hr. subst os'. wp_step. by rw /naive_ok Hs1.
Qed.

(** The pool of objects never shrinks. *)
Definition keeps_pool {B} (m : M NaiveBlockAllocator B) : Prop :=
  ∀ s, wp m s (λ _ s', length (bp_pool (npool s)) ≤ length (bp_pool (npool s'))) any_exn.
Lemma keeps_pool_bind {B C} (m : M NaiveBlockAllocator B) (f : B → M NaiveBlockAllocator C) :
  keeps_pool m → (∀ b, keeps_pool (f b)) → keeps_pool (m ≫= f).
Proof.
  move=> Hm Hf s. wp_step. eapply wp_mono; [apply Hm| |done]. move=> b s1 /= H1. eapply wp_mono; [apply Hf| |done]. move=> c s2 /= H2. lia.
Qed.
Lemma keeps_pool_ret {B} (b : B) : keeps_pool (mret b).
Proof. move=> s. by wp_step. Qed.
Lemma keeps_pool_get : keeps_pool mget.
Proof. move=> s. by wp_step. Qed.
Lemma keeps_pool_raise {B} e : keeps_pool (mraise e : M NaiveBlockAllocator B).
Proof. move=> s. by wp_step. Qed.
Lemma keeps_pool_lift {B} (r : result B) : keeps_pool (mlift r).
Proof. move=> s. by apply wp_lift. Qed.
Lemma keeps_pool_assert b msg : keeps_pool (massert b msg).
Proof. move=> s. by wp_step. Qed.
Lemma keeps_pool_when b m : keeps_pool m → keeps_pool (mwhen b m).
Proof. by destruct b; [|move=> _; apply keeps_pool_ret]. Qed.
Lemma keeps_pool_modify f : (∀ s, length (bp_pool (npool (f s))) = length (bp_pool (npool s))) → keeps_pool (mmodify f).
Proof. move=> Hf s. wp_step. by rw Hf. Qed.
Lemma keeps_pool_pool_modify f : (∀ p, length (bp_pool (f p)) = length (bp_pool p)) → keeps_pool (on_pool (mmodify f)).
Proof. move=> Hf s. apply wp_zoom. wp_step. cbn. by rw Hf. Qed.
Lemma keeps_pool_init prev toks bs id : keeps_pool (on_pool (init_block prev toks bs id)).
Proof.
  move=> s. apply wp_zoom. rw /init_block. wp_step. wp_step. wp_step.
  apply (wp_mono _ _ (λ _ p, length (bp_pool (npool s)) ≤ length (bp_pool p)) _ any_exn); [| |done].
  { wp_step; last done. wp_step. rw /increase_pool. wp_step. wp_step. wp_step. wp_step; last done. rw /= length_app. lia. }
  move=> _ p Hp. wp_step. wp_step. destruct (bp_free_ids p) as [|o rest]; first by wp_step. wp_step. wp_step.
  destruct (bp_pool p !! o) as [old|]; last by wp_step. wp_step. apply wp_lift; last done. move=> b _. wp_step. wp_step. wp_step.
  rw /= length_insert. exact Hp.
Qed.
Lemma keeps_pool_fold {A B} (l : list A) (f : B → A → M NaiveBlockAllocator B) :
  (∀ b x, keeps_pool (f b x)) → ∀ b, keeps_pool (mfold l b f).
Proof.
  move=> Hf. elim: l => [|x l IH] b; cbn [mfold]; first apply keeps_pool_ret. apply keeps_pool_bind; [apply Hf|apply IH].
Qed.
#[local] Hint Resolve keeps_pool_ret keeps_pool_get keeps_pool_raise keeps_pool_lift keeps_pool_assert keeps_pool_init : sizes.
Ltac pools := repeat first [apply keeps_pool_bind; [|intros ?] | solve [auto with sizes] | apply keeps_pool_when
  | apply keeps_pool_modify; done | apply keeps_pool_pool_modify; intros ?; rw /= ?length_alter; done | apply keeps_pool_fold; intros ? ? | case_match].
Ltac unfold_naive := rw /append_token_ids /naive_free /naive_fork /fork_block /allocate_immutable_blocks /allocate_mutable_block
  /cow_block_if_not_appendable /is_appendable /free_block_id /allocate_block_id /record_cow /pool_free_block /ref_incr /ref_decr /ref_set
  /ref_get /the_block /upd_block.
Lemma mutable_keeps_pool prev : keeps_pool (allocate_mutable_block prev).
Proof. unfold_naive. pools. Qed.
Lemma immutables_keep_pool prev l : keeps_pool (allocate_immutable_blocks prev l).
Proof. unfold_naive. pools. Qed.
Lemma append_keeps_pool o toks : keeps_pool (append_token_ids o toks).
Proof. unfold_naive. pools. Qed.
Lemma free_keeps_pool o keep : keeps_pool (naive_free o keep).
Proof. unfold_naive. pools. Qed.
Lemma fork_object_keeps_pool acc o : keeps_pool (fork_block acc o).
Proof. destruct acc. unfold_naive. pools. Qed.
Lemma fork_keeps_pool o : keeps_pool (naive_fork o).
Proof.
  have Hab : ∀ fuel o, keeps_pool (all_blocks fuel o) by elim=> [|fuel IH] o'; cbn [all_blocks]; rw /the_block; pools; apply IH.
  unfold_naive. pools.
Qed.

(** The invariant of the naive allocator: it has objects. *)
Definition naive_good (s : NaiveBlockAllocator) : Prop := naive_ok s ∧ 0 < length (bp_pool (npool s)).
Lemma wp_good {B} (m : M NaiveBlockAllocator B) s (Q : B → NaiveBlockAllocator → Prop) : naive_good s → keeps_pool m →
  wp m s (λ r s', naive_ok s' ∧ Q r s') any_exn → wp m s (λ r s', naive_good s' ∧ Q r s') any_exn.
Proof.
  move=> [_ Hl] Hk Hw. eapply wp_mono; [apply wp_and; [exact Hw|apply Hk]| |done]. intros r s' [[H1 H2] H3]. split; [split; [done|lia]|done].
Qed.

#[export] Program Instance naive_laws : HomeLaws NaiveBlockAllocator := {|
  hl_inv := naive_good; hl_pool := na_block_pool; hl_size := na_block_size;
|}.
Next Obligation. by move=> s [[_ ?] _]. Qed.
Next Obligation. move=> s o b /tobj_Some [_ Hb]. by rw /= /the_block /mbind /M_bind /mget Hb. Qed.
Next Obligation. move=> s o b id [[HI _] _] /tobj_Some [_ Hb] Hid. apply (inv_known _ _ _ _ _ HI Hb Hid). Qed.
Next Obligation.
  move=> s prev extra HG Hr Hp. eapply wp_mono; [apply (wp_good _ s (λ o s', ∃ id, na_block_size s' = na_block_size s ∧
    fresh_objects (npool s) [o] ∧ untouched (npool s) (npool s') [o] ∧ chained (npool s') prev [o] [[]] [id]) HG (mutable_keeps_pool _))| |done].
  - eapply wp_mono; [apply wp_naive_mutable, HG| |done]. intros o s' (id & H & H'). split; [done|by exists id].
  - intros o s' [H (id & H')]. by exists id.
Qed.
Next Obligation.
  move=> s prev l extra HG Hr Hp. eapply wp_mono; [apply (wp_good _ s (λ os s', ∃ ids, na_block_size s' = na_block_size s ∧
    fresh_objects (npool s) os ∧ untouched (npool s) (npool s') os ∧ chained (npool s') prev os l ids) HG (immutables_keep_pool _ _))| |done].
  - eapply wp_mono; [apply wp_naive_immutables, HG| |done]. intros os s' (ids & H & H'). split; [done|by exists ids].
  - intros os s' [H (ids & H')]. by exists ids.
Qed.
Next Obligation.
  move=> s os o full t ids toks HG Hr Hc Hf. eapply wp_mono; [apply (wp_good _ s (λ _ s', ∃ b b' id', na_block_size s' = na_block_size s ∧
      untouched (npool s) (npool s') [o] ∧ tobj (npool s) o = Some b ∧ tobj (npool s') o = Some b' ∧
      nb_token_ids b' = t ++ toks ∧ nb_prev_block b' = nb_prev_block b ∧ nb_block_id b' = Some id') HG (append_keeps_pool _ _))| |done].
  - eapply wp_mono; [apply (wp_naive_append s os o full t ids); [apply HG|done]| |done].
    intros [] s' (b & b' & id' & H & H'). split; [done|by exists b, b', id'].
  - intros [] s' [H (b & b' & id' & H')]. by exists b, b', id'.
Qed.
Next Obligation.
  move=> s o b HG Hb Hid. apply (wp_good _ s (λ _ s', _) HG (free_keeps_pool _ _)). apply (wp_naive_free_object s o b); [apply HG|done|done].
Qed.
Next Obligation.
  move=> s os o toks ids HG Hr Hnd Hc. apply (wp_good _ s (λ _ s', _) HG (fork_keeps_pool _)). apply (wp_naive_fork_chain s os); [apply HG|done|done].
Qed.
Next Obligation.
  move=> s [[HI Hs] Hl]. rw /= /clear_copy_on_writes. wp_step. wp_step. wp_step. wp_step. wp_step. split_and!; try done. split; last done.
  split; last done. by destruct HI.
Qed.
Next Obligation. move=> s ids now HI. rw /=. by wp_step. Qed.
Next Obligation. move=> s ids HI. rw /=. by wp_step. Qed.
Next Obligation. move=> s hs HI. rw /=. by wp_step. Qed.
End naive.
