(* ===== verification/PrefixTables.v ===== *)
(** The prefix-caching allocator satisfies the contract of block tables, with its
    reachable states as the invariant: what is proved of reachable states holds
    for every allocator that block tables work on. *)
From Stdlib Require Import ssreflect ZArith Lia.
From stdpp Require Import base numbers list gmap strings.
From S2P Require Import Prelude NaiveBlocks NaiveTheorems Evictor CacheMetric PrefixCaching PrefixBooks PrefixHash PrefixOps PrefixInv.
From S2P Require Import PrefixAlloc PrefixTheorems BlockTable CpuGpu TableLaws TableInst.

Section prefix.
Context (py_hash : bool * option Z * list Z * option Z → Z).
Abbreviation hash_of := (hash_of py_hash).
Abbreviation content := (content py_hash).
Abbreviation pc_inv := (pc_inv py_hash).
Abbreviation pc_reach := (pc_reach py_hash).
Abbreviation psize s := (na_block_size (pa_hashless s)).

Lemma wp_self {S A} (m : M S A) s Q E : wp m s Q E → wp m s (λ a s', Q a s' ∧ m s = Ok (a, s')) E.
Proof. rw /wp. by destruct (m s) as [[a s']|e]. Qed.
(** A step with a known result keeps the state reachable. *)
Lemma wp_in_reach {A} (m : M PrefixCachingBlockAllocator A) s (Q : A → PrefixCachingBlockAllocator → Prop) :
  (∀ a s', m s = Ok (a, s') → pc_reach s') → wp m s Q any_exn → wp m s (λ a s', pc_reach s' ∧ Q a s') any_exn.
Proof. move=> Hr Hw. eapply wp_mono; [by apply wp_self| |done]. move=> a s' [HQ Hm]. split; [by eapply Hr|done]. Qed.

Lemma rooted_anchored s : rooted (pool s) → anchored s.
Proof.
  move=> Hr o b p Hl Hb Hp. destruct (Hr o b p) as [b' Hb']; [by apply tobj_Some|done|]. by apply tobj_Some in Hb' as [? _].
Qed.
Lemma prev_live_of s prev : (∀ q, prev = Some q → is_Some (tobj (pool s) q)) → ∀ q, prev = Some q → plive s q.
Proof. move=> H q /H [b Hb]. by apply tobj_Some in Hb as [? _]. Qed.

(** * New objects *)
Lemma made_laws s s' o prev toks extra : made s s' o prev toks extra → ∃ id, psize s' = psize s ∧
  fresh_objects (pool s) [o] ∧ untouched (pool s) (pool s') [o] ∧ chained (pool s') prev [o] [toks] [id].
Proof.
  move=> [G L F [id O] X]. exists id. split_and!.
  - apply G.
  - split; [apply NoDup_singleton|]. by apply Forall_singleton, tobj_None.
  - move=> y Hy. have Hne : y ≠ o by move=> ?; subst; apply Hy; left. apply tobj_kept; [rw L; tauto|apply G].
  - split; last done. eexists. split; first by apply tobj_Some; split; [apply L; left|exact O]. done.
Qed.
Lemma wp_made_chain l : ∀ prev acc s extra, pc_inv None [] s → anchored s → (∀ p, prev = Some p → plive s p) →
  wp (mfold l (prev, acc) (λ '(prev_block, blocks) token_ids,
    o ← pc_allocate_immutable_block py_hash prev_block token_ids extra; mret (Some o, blocks ++ [o]))) s
    (λ r s', ∃ os ids, r.2 = acc ++ os ∧ psize s' = psize s ∧ fresh_objects (pool s) os ∧ untouched (pool s) (pool s') os ∧
      chained (pool s') prev os l ids) any_exn.
Proof.
  elim: l => [|toks l IH] prev acc s extra HI Ha Hp; cbn [mfold].
  { wp_step. exists [], []. rw app_nil_r. split_and!; try done. split; constructor. }
  wp_step. wp_step. eapply wp_mono; [by apply (wp_pc_immutable py_hash [])| |done]. move=> o s1 [HI1 M1]. wp_step.
  destruct (made_laws _ _ _ _ _ _ M1) as (id & Hs1 & Hf1 & Hu1 & Hc1).
  eapply wp_mono; [apply (IH (Some o)); [done|by apply (made_anchored _ _ _ _ _ _ M1)|]| |done].
  { move=> p [= <-]. apply (md_live _ _ _ _ _ _ M1). by left. }
  intros r s2 (os & ids & Hr & Hs2 & Hf2 & Hu2 & Hc2). exists (o :: os), (id :: ids). split_and!.
  - by rw Hr -app_assoc.
  - congruence.
  - apply (fresh_cons _ (pool s1)); try done. eapply chained_live; [exact Hc1|by left].
  - by apply (untouched_trans _ (pool s1) _ [o] os).
  - by apply (chained_cons (pool s1)).
Qed.

(** * Appending *)

(** Full blocks have a hash. *)
Lemma chain_hashed s os : ∀ o full ids, content None s → chained (pool s) None (os ++ [o]) full ids →
  Forall (λ c, length c = psize s) full → ∃ h, hash_of (view s) o h.
Proof.
  induction os as [|x os IH] using rev_ind => o full ids HC Hc HF.
  - destruct full as [|t []], ids as [|? []]; try (by destruct Hc). destruct Hc as [(b & Hb & Ht & Hp & _) _].
    apply tobj_Some in Hb as [Hl Hb]. move: HF => /Forall_cons [Hlen _]. eexists. apply ho_first with (n := nb_block_size b).
    + rw (view_obj _ _ _ Hb) Hp //.
    + rw /v_full /= Ht Hlen (ct_sizes _ _ _ HC o b Hl Hb). apply Z.eqb_eq. lia.
  - destruct (chained_split _ _ _ _ _ _ Hc) as [H1 H2].
    destruct (IH x _ _ HC H1) as [h Hh]; first by apply Forall_take.
    have HF2 := Forall_drop _ (length (os ++ [x])) _ HF. set t := drop _ full in H2 HF2. set i := drop _ ids in H2.
    destruct t as [|t0 []], i as [|? []]; try (by destruct H2). destruct H2 as [(b & Hb & Ht & Hp & _) _].
    apply tobj_Some in Hb as [Hl Hb]. move: HF2 => /Forall_cons [Hlen _]. rw /last_or last_snoc in Hp. eexists.
    apply ho_next with (n := nb_block_size b) (p := x) (h := h); last done.
    + rw (view_obj _ _ _ Hb) Hp //.
    + rw /v_full /= Ht Hlen (ct_sizes _ _ _ HC o b Hl Hb). apply Z.eqb_eq. lia.
Qed.
Lemma wp_pc_append_chain s os o full t ids toks : pc_reach s → rooted (pool s) → chained (pool s) None (os ++ [o]) (full ++ [t]) ids →
  Forall (λ c, length c = psize s) full →
  wp (pc_append_token_ids py_hash o toks) s (λ _ s', pc_reach s' ∧ ∃ b b' id', psize s' = psize s ∧
    untouched (pool s) (pool s') [o] ∧ tobj (pool s) o = Some b ∧ tobj (pool s') o = Some b' ∧
    nb_token_ids b' = t ++ toks ∧ nb_prev_block b' = nb_prev_block b ∧ nb_block_id b' = Some id') any_exn.
Proof.
  move=> HR Hroot Hc HF. have HI := pc_reach_inv _ _ HR. have Ha := rooted_anchored _ Hroot.
  have [L1 L2] := chained_length _ _ _ _ _ Hc. have Hlen : length full = length os by rw !length_app /= in L1; lia.
  have Hsplit := chained_split _ _ _ _ _ _ Hc. rw -Hlen take_app_length drop_app_length in Hsplit. destruct Hsplit as [Hc1 Hc2].
  set i := drop _ ids in Hc2. destruct i as [|id []]; try (by destruct Hc2). destruct Hc2 as [(b & Hb & Ht & Hp & Hid) _].
  have [Hl Hob] := proj1 (tobj_Some _ _ _) Hb.
  have Hfill : fills py_hash s b toks.
  { move=> p. rw Hp => Hlast _. rw /last_or in Hlast. destruct (last os) as [x|] eqn:Ex; last done. injection Hlast as <-.
    apply last_Some in Ex as [os' ->]. by apply (chain_hashed s os' x _ _ (pi_content _ _ _ _ HI) Hc1). }
  apply wp_in_reach; first by move=> [] s' Hm; apply (pr_append _ s o b toks s' HR).
  eapply wp_mono; [by apply (wp_pc_append py_hash [] s o b toks)| |done].
  intros [] s' [HI' (v & [R1 R2 R3 R4 R5 R6] & Hv)]. exists b. eexists.
  destruct v as [id'|]; last by rw Hv // in Hid. exists id'. split_and!; [done| |done|apply tobj_Some; split; [by apply R1|exact R3]|by rw /= Ht|done|done].
  move=> y Hy. apply tobj_kept; first done. move=> Hly. apply R2; [|done]. move=> ?; subst. by apply Hy; left.
Qed.

(** * Freeing and forking *)
Lemma wp_pc_free_object s o b : pc_reach s → tobj (pool s) o = Some b →
  wp (pc_free py_hash o false) s (λ _ s', pc_reach s' ∧ psize s' = psize s ∧ untouched (pool s) (pool s') [o] ∧ tobj (pool s') o = None) any_exn.
Proof.
  move=> HR /tobj_Some [Hl Hb]. have HI := pc_reach_inv _ _ HR.
  apply wp_in_reach; first by move=> [] s' Hm; apply (pr_free _ s o false).
  have HW : wp (pc_free py_hash o false) s (λ _ s', psize s' = psize s) any_exn.
  { rw /pc_free. wp_step. eapply wp_mono; [by apply (wp_pc_free_id py_hash [])| |done].
    intros [] s1 (HI1 & b1 & id & _ & _ & HS). cbn [negb mwhen]. have Hl1 : plive s1 o by apply (is_live HS).
    apply wp_pc_pool_free; [by apply HI1|done|]. exact (is_size _ _ _ _ _ HS). }
  eapply wp_mono; [apply wp_and; [by apply (wp_pc_free py_hash [] s o false)|exact HW]| |done].
  intros [] s' [(_ & L & O) Hsz]. split_and!; [done| |].
  - move=> y Hy. have Hne : y ≠ o by move=> ?; subst; apply Hy; left. apply tobj_kept; [rw L; tauto|by move=> _; apply O].
  - apply tobj_None. rw L. move=> [[?|?] _]; done.
Qed.
Lemma wp_pc_forks os : ∀ sp fp acc s toks ids, pc_inv None [] s → anchored s → chained (pool s) sp os toks ids → mirrors py_hash s sp fp →
  wp (mfold os (fp, acc) pc_fork_block) s (λ r s', ∃ os', r.2 = acc ++ os' ∧ psize s' = psize s ∧
    fresh_objects (pool s) os' ∧ untouched (pool s) (pool s') os' ∧ chained (pool s') fp os' toks ids) any_exn.
Proof.
  elim: os => [|o os IH] sp fp acc s [|t toks] [|id ids] HI Ha //; cbn [mfold].
  { move=> _ _. wp_step. exists []. rw app_nil_r. split_and!; try done. split; constructor. }
  intros [(b & Hb & Ht & Hp & Hid) Hc] Hm. have [Hl Hob] := proj1 (tobj_Some _ _ _) Hb. wp_step.
  eapply wp_mono; [apply (wp_pc_fork_block py_hash [] s sp fp acc o HI Ha Hl); [by exists b|done]| |done].
  intros r s1 (HI1 & Ha1 & G1 & f & -> & Hm1 & HO). specialize (HO b Hob). rw Hid Ht in HO.
  destruct (handed_out_tobj _ _ _ _ HO) as (Hf1 & Hu1 & Hb1).
  have Hc1 : chained (pool s1) fp [f] [t] [id] by split; [eexists; split; [exact Hb1|]|].
  have Hc' : chained (pool s1) (Some o) os toks ids.
  { apply (chained_untouched (pool s) _ [f]); try done. move=> y Hy /list_elem_of_singleton ?. subst y.
    destruct (chained_live _ _ _ _ _ _ Hc Hy) as [b' Hb']. destruct Hf1 as [_ Hf1]. move: Hf1 => /Forall_cons [Hf1 _]. congruence. }
  eapply wp_mono; [by apply (IH (Some o) (Some f))| |done].
  intros r s2 (os' & Hr & Hs2 & Hf2 & Hu2 & Hc2). exists (f :: os'). split_and!.
  - by rw Hr -app_assoc.
  - by rw Hs2 (gr_size _ _ G1).
  - by apply (fresh_cons _ (pool s1)).
  - by apply (untouched_trans _ (pool s1) _ [f] os').
  - by apply (chained_cons (pool s1)).
Qed.
Lemma wp_pc_fork_chain s os o toks ids : pc_reach s → rooted (pool s) → NoDup (os ++ [o]) → chained (pool s) None (os ++ [o]) toks ids →
  wp (pc_fork o) s (λ os' s', pc_reach s' ∧ psize s' = psize s ∧
    fresh_objects (pool s) os' ∧ untouched (pool s) (pool s') os' ∧ chained (pool s') None os' toks ids) any_exn.
Proof.
  move=> HR Hroot Hnd Hc. have Ha := rooted_anchored _ Hroot.
  destruct (chained_live _ _ _ _ _ o Hc) as [b Hb]; first by apply elem_of_app; right; left. apply tobj_Some in Hb as [Hl _].
  apply wp_in_reach; first by move=> r s' Hm; apply (pr_fork _ s o r).
  rw /pc_fork. wp_step. wp_step. wp_step. rw /on_hashless. apply wp_zoom.
  rw {1}/wp (all_blocks_chain _ _ _ (chained_chain _ _ _ _ _ Hc)).
  { have := chained_fits _ _ _ _ _ Hnd Hc. lia. }
  rw set_pa_hashless_id. wp_step. eapply wp_mono; [apply (wp_pc_forks (os ++ [o]) None None [] s toks ids); try done; by apply pc_reach_inv| |done].
  intros [p os'] s1 (l & Hr & H). cbn [snd] in Hr. subst os'. by wp_step.
Qed.

(** * What leaves the objects alone *)
Definition keeps_hashless {B} (m : M PrefixCachingBlockAllocator B) : Prop :=
  ∀ s, wp m s (λ _ s', pa_hashless s' = pa_hashless s) any_exn.
Lemma keeps_hashless_evictor {B} (m : M LRUEvictor B) : keeps_hashless (on_evictor m).
Proof. move=> s. apply wp_zoom. rw /wp. by destruct (m (pa_evictor s)) as [[b e]|e]. Qed.
Lemma keeps_hashless_tracker id : keeps_hashless (the_tracker id).
Proof. move=> s. by apply wp_the_tracker. Qed.
Lemma mark_accessed_keeps now ids : keeps_hashless (mark_blocks_as_accessed ids now).
Proof.
  move=> s. apply (wp_for _ _ (λ s', pa_hashless s' = pa_hashless s)); first done. move=> id s1 _ <-. rw /mark_block_as_accessed.
  wp_step. apply wp_the_tracker => t Ht. wp_step. wp_step. case_match; first by rw /set_tracker; wp_step.
  wp_step; [apply keeps_hashless_evictor|by wp_step].
Qed.
Lemma mark_computed_keeps : keeps_hashless mark_blocks_as_computed.
Proof.
  move=> s. rw /mark_blocks_as_computed. wp_step. wp_step. wp_step.
  eapply wp_mono; [apply (wp_for _ _ (λ s', pa_hashless s' = pa_hashless s)); [done|]| |done].
  - move=> id s1 _ <-. wp_step. apply wp_the_tracker => t Ht. rw /set_tracker. by wp_step.
  - move=> u s1 H. by wp_step.
Qed.
Lemma bisect_keeps {B} (a : list B) (key : B → M PrefixCachingBlockAllocator bool) s :
  (∀ x, wp (key x) s (λ _ s', s' = s) any_exn) → ∀ fuel lo hi, wp (bisect_loop fuel a key lo hi) s (λ _ s', s' = s) any_exn.
Proof.
  move=> Hk. elim=> [|fuel IH] lo hi; cbn [bisect_loop]; first by wp_step. case_match; last by wp_step.
  destruct (a !! ((lo + hi) / 2)) as [x|]; last by wp_step. wp_step. eapply wp_mono; [apply Hk| |done]. move=> k s' ->. case_match; apply IH.
Qed.
Lemma find_cached_keeps hs s : wp (find_cached_blocks_prefix hs) s (λ _ s', s' = s) any_exn.
Proof.
  rw /find_cached_blocks_prefix. wp_step. eapply wp_mono; [apply bisect_keeps| |done].
  - move=> x. wp_step. rw /hash_is_cached. wp_step. wp_step. case_match; last by wp_step; wp_step.
    rw /block_is_computed. wp_step. apply wp_the_tracker => t Ht. wp_step. wp_step. wp_step. by wp_step.
  - move=> k s' ->. by wp_step.
Qed.

#[export] Program Instance prefix_laws : @HomeLaws PrefixCachingBlockAllocator (prefix_block_allocator py_hash) := {|
  hl_inv := pc_reach; hl_pool s := na_block_pool (pa_hashless s); hl_size s := na_block_size (pa_hashless s);
|}.
Next Obligation. move=> s /pc_reach_inv HI. apply (ct_size _ _ _ (pi_content _ _ _ _ HI)). Qed.
Next Obligation.
  move=> s o b /tobj_Some [_ Hb]. rw /= /pc_block /on_hashless /zoom /the_block /mbind /M_bind /mget Hb /= set_pa_hashless_id //.
Qed.
Next Obligation.
  move=> s o b id /pc_reach_inv HI /tobj_Some [Hl Hb] Hid. apply (ac_known _ _ (pi_acct _ _ _ _ HI)), (owner_tot [] s o).
  by rw (live_owner _ _ _ Hl Hb).
Qed.
Next Obligation.
  move=> s prev extra HR Hroot Hp. have Ha := rooted_anchored _ Hroot. have Hp' := prev_live_of _ _ Hp.
  eapply wp_mono; [apply wp_in_reach; [|by apply (wp_pc_mutable py_hash []); [apply pc_reach_inv|..]]| |done].
  - move=> o s' Hm. by apply (pr_mutable _ s prev extra o).
  - intros o s' [HR' [_ M']]. destruct (made_laws _ _ _ _ _ _ M') as (id & H). by exists id.
Qed.
Next Obligation.
  move=> s prev l extra HR Hroot Hp. have Ha := rooted_anchored _ Hroot. have Hp' := prev_live_of _ _ Hp.
  eapply wp_mono; [apply (wp_in_reach _ s (λ os s', ∃ ids, psize s' = psize s ∧ fresh_objects (pool s) os ∧ untouched (pool s) (pool s') os ∧
      chained (pool s') prev os l ids))| |done].
  - move=> os s' Hm. by apply (pr_immutables _ s prev l extra os).
  - rw /= /pc_allocate_immutable_blocks. wp_step. eapply wp_mono; [apply wp_made_chain; [by apply pc_reach_inv|done|done]| |done].
    intros [p bl] s1 (os & ids & Hr & H). cbn [snd] in Hr. subst bl. wp_step. by exists ids.
  - intros os s' [HR' (ids & H)]. by exists ids.
Qed.
Next Obligation.
  move=> s os o full t ids toks HR Hroot Hc HF. eapply wp_mono; [by apply (wp_pc_append_chain s os o full t ids)| |done].
  intros [] s' [HR' (b & b' & id' & H)]. by exists b, b', id'.
Qed.
Next Obligation. move=> s o b HR Hb _. by eapply wp_pc_free_object. Qed.
Next Obligation. move=> s os o toks ids HR Hroot. by apply wp_pc_fork_chain. Qed.
Next Obligation.
  move=> s HR. apply wp_in_reach; first by move=> r s' Hm; apply (pr_cows _ s r). rw /= /pc_clear_copy_on_writes. wp_step. wp_step. wp_step. wp_step. by wp_step.
Qed.
Next Obligation.
  move=> s ids now HR. apply wp_in_reach; first by move=> [] s' Hm; apply (pr_accessed _ s ids now).
  eapply wp_mono; [apply mark_accessed_keeps| |done]. by move=> _ s' /= ->.
Qed.
Next Obligation.
  move=> s ids HR. apply wp_in_reach; first by move=> [] s' Hm; apply (pr_computed _ s).
  eapply wp_mono; [apply mark_computed_keeps| |done]. by move=> _ s' /= ->.
Qed.
Next Obligation. move=> s hs HR. apply find_cached_keeps. Qed.
End prefix.
