(* ===== verification/ManagerInv.v ===== *)
(** The block manager implements a map from sequences to tokens: what it means
    that a manager represents such a map, and that its operations do so. *)
From Stdlib Require Import ssreflect ZArith Lia.
From stdpp Require Import base numbers list gmap strings.
From S2P Require Import Prelude Detokenizer SequenceData Sequences NaiveBlocks NaiveTheorems PrefixCaching BlockTable BlockManager TableLaws TableOps.

(** A sequence, or the encoder sequence of a request. *)
Abbreviation Key := (Z + string)%type.
(** The tokens that the tables hold. *)
Abbreviation Held := (gmap Key (list Z)).

Section manager.
Context {S : Type} {DA : DeviceAwareBlockAllocator S} {TL : TableLaws S} (pair_hash : Z * Z → Z)
  (py_hash : bool * option Z * list Z * option Z → Z).
Abbreviation Mgr := (SelfAttnBlockSpaceManager S).
Abbreviation tpool b := (tl_pool (bm_allocator b)).
Implicit Types (b : Mgr) (k : Key).

Definition table_at b k : option BlockTable :=
  match k with inl id => dget (bm_block_tables b) id | inr r => dget (bm_cross_block_tables b) r end.
(** The manager without its tables and its allocator. *)
Record tidy b : Prop := {
  ti_size : bm_block_size b = Z.of_nat (tl_size (bm_allocator b));
  ti_window : bm_max_block_sliding_window b = None;
  ti_tables : dict_wf (bm_block_tables b);
  ti_cross : dict_wf (bm_cross_block_tables b);
  ti_access_wf : dict_wf (bm_last_access b);
}.
(** The table at [k] has the objects [os k], and no object has two tables. *)
Record owns b (held : Held) (os : Key → list nat) : Prop := {
  ow_inv : tl_inv (bm_allocator b);
  ow_tidy : tidy b;
  ow_table k : match table_at b k, held !! k with
               | Some t, Some toks => table_ok (bm_allocator b) t (os k) toks
               | None, None => os k = []
               | _, _ => False
               end;
  ow_apart k1 k2 o : o ∈ os k1 → o ∈ os k2 → k1 = k2;
  ow_live o : is_Some (tobj (tpool b) o) ↔ ∃ k, o ∈ os k;
}.
(** Each sequence with a table has an access time. *)
Definition accessed b : Prop := ∀ id, dmem (bm_last_access b) id = dmem (bm_block_tables b) id.
Record represents b (held : Held) : Prop := {
  re_owns : ∃ os, owns b held os;
  re_accessed : accessed b;
}.

Lemma prev_in_chain p os : ∀ prev toks ids o x q, chained p prev os toks ids → o ∈ os → tobj p o = Some x → nb_prev_block x = Some q →
  prev = Some q ∨ q ∈ os.
Proof.
  elim: os => [|y os IH] prev [|t toks] [|id ids] o x q //=; first by move=> _ /elem_of_nil.
  intros [(c & Hc & _ & Hp & _) Hch] Ho Hx Hq. apply elem_of_cons in Ho as [->|Ho].
  - left. congruence.
  - right. destruct (IH _ _ _ _ _ _ Hch Ho Hx Hq) as [[= ->]|Hin]; [by left|by right].
Qed.
Lemma owns_rooted b held os : owns b held os → rooted (tpool b).
Proof.
  move=> HO o x q Hx Hq. destruct (proj1 (ow_live _ _ _ HO o)) as [k Hk]; first by exists x.
  have Ht := ow_table _ _ _ HO k. destruct (table_at b k) as [t|], (held !! k) as [toks|]; try done.
  - have Hc := ld_chain _ _ _ _ _ (tk_laid _ _ _ _ Ht). destruct (prev_in_chain _ _ _ _ _ _ _ _ Hc Hk Hx Hq) as [?|Hin]; first done.
    apply (ow_live _ _ _ HO). by exists k.
  - rw Ht in Hk. by apply elem_of_nil in Hk.
Qed.

(** One table changes, with the allocator. *)
Definition updated (os : Key → list nat) k (l : list nat) : Key → list nat := λ k', if decide (k' = k) then l else os k'.
Lemma owns_update b b' held os k osk (otoks : option (list Z)) : owns b held os → tl_inv (bm_allocator b') → tidy b' →
  tl_size (bm_allocator b') = tl_size (bm_allocator b) →
  untouched (tpool b) (tpool b') (os k ++ osk) →
  Forall (λ o, o ∈ os k ∨ tobj (tpool b) o = None) osk →
  Forall (λ o, is_Some (tobj (tpool b') o)) osk →
  Forall (λ o, o ∉ osk → tobj (tpool b') o = None) (os k) →
  (∀ k', k' ≠ k → table_at b' k' = table_at b k') →
  match table_at b' k, otoks with
  | Some t, Some toks => table_ok (bm_allocator b') t osk toks
  | None, None => osk = []
  | _, _ => False
  end → owns b' (partial_alter (λ _, otoks) k held) (updated os k osk).
Proof.
  rw !Forall_forall => HO HI' HT' Hs Hu Hnew Hlive Hgone Hk Htab.
  have Hother : ∀ k' o, k' ≠ k → o ∈ os k' → o ∉ os k ++ osk.
  { move=> k' o Hne Ho. have Hno : o ∉ os k by move=> Ho'; apply Hne, (ow_apart _ _ _ HO _ _ o).
    rw elem_of_app. move=> [//|/Hnew [//|Hnone]]. destruct (proj2 (ow_live _ _ _ HO o)) as [x Hx]; [by exists k'|congruence]. }
  split; try done.
  - move=> k'. rw /updated. case_decide as Hkk; first by subst; rw lookup_partial_alter_eq.
    rw lookup_partial_alter_ne // Hk //. have := ow_table _ _ _ HO k'. destruct (table_at b k') as [t|], (held !! k') as [toks|]; try done.
    apply table_ok_kept; first done. move=> y Hy. by apply Hu, (Hother k').
  - move=> k1 k2 o. rw /updated. case_decide as E1; case_decide as E2; subst; try done; try by eapply (ow_apart _ _ _ HO).
    + move=> Ho Ho2. exfalso. apply (Hother _ _ E2 Ho2), elem_of_app. by right.
    + move=> Ho Ho2. exfalso. apply (Hother _ _ E1 Ho), elem_of_app. by right.
  - move=> o. split.
    + move=> Ho. destruct (decide (o ∈ osk)) as [Hin|Hin]; first by exists k; rw /updated decide_True.
      destruct (decide (o ∈ os k)) as [Hin2|Hin2]; first by move: Ho; rw Hgone //; move=> [].
      rw Hu in Ho; first by rw elem_of_app; tauto. destruct (proj1 (ow_live _ _ _ HO o) Ho) as [k' Hk'].
      exists k'. rw /updated decide_False //. by move=> ?; subst.
    + move=> [k']. rw /updated. case_decide as E; first by move=> /Hlive. move=> Ho. rw Hu; first by apply (Hother k').
      apply (ow_live _ _ _ HO). by exists k'.
Qed.

(** * Frames *)
Lemma owns_frame b b' held os : bm_allocator b' = bm_allocator b → bm_block_tables b' = bm_block_tables b →
  bm_cross_block_tables b' = bm_cross_block_tables b → bm_block_size b' = bm_block_size b →
  bm_max_block_sliding_window b' = bm_max_block_sliding_window b → dict_wf (bm_last_access b') → owns b held os → owns b' held os.
Proof.
  move=> E1 E2 E3 E4 E5 Hwf [H1 [T1 T2 T3 T4 T5] H3 H4 H5]. split; rw ?E1 //.
  - split; rw ?E1 ?E2 ?E3 ?E4 ?E5 //.
  - move=> k. have -> : table_at b' k = table_at b k by destruct k; rw /= ?E2 ?E3. apply H3.
Qed.
(** The allocator changed, but no object. *)
Lemma owns_allocator b held os s' : owns b held os → tl_inv s' → tl_size s' = tl_size (bm_allocator b) →
  tl_pool s' = tpool b → owns (set_bm_allocator s' b) held os.
Proof.
  move=> [H1 [T1 T2 T3 T4 T5] H3 H4 H5] HI Hs Hp. split; cbn; rw ?Hp //.
  - by split; cbn; rw ?Hs.
  - move=> k. have := H3 k. change (table_at (set_bm_allocator s' b) k) with (table_at b k). destruct (table_at b k), (held !! k); try done.
    apply table_ok_kept; [done|]. by rw Hp.
Qed.
Lemma wp_on_a_table {B} t (m : M (S * BlockTable) B) b Q E :
  wp m (bm_allocator b, t) (λ r st, Q (r, st.2) (set_bm_allocator st.1 b)) E → wp (on_a_table t m) b Q E.
Proof.
  move=> H. rw /on_a_table /on_alloc. apply wp_zoom. move: H. rw /wp. by destruct (m (bm_allocator b, t)) as [[r [s' t']]|e].
Qed.
Lemma wp_dict_at {K V} `{EqDecision K} (d : dict K V) (x : K) b (Q : V → Mgr → Prop) :
  (∀ v, dget d x = Some v → Q v b) → wp (mlift (dict_at d x)) b Q any_exn.
Proof. move=> H. apply wp_lift; last done. rw /dict_at. move=> v. destruct (dget d x) eqn:E; [by move=> [= <-]; apply H|done]. Qed.
Lemma wp_on_seq_table {B} id (m : M (S * BlockTable) B) b (Q : B → Mgr → Prop) :
  (∀ t, dget (bm_block_tables b) id = Some t → wp m (bm_allocator b, t) (λ r st,
     Q r (set_bm_block_tables (dset (bm_block_tables b) id st.2) (set_bm_allocator st.1 b))) any_exn) → wp (on_seq_table id m) b Q any_exn.
Proof.
  move=> H. rw /on_seq_table. wp_step. wp_step. wp_step. apply wp_dict_at => t Ht. wp_step. apply wp_on_a_table.
  eapply wp_mono; [by apply H| |done]. intros r [s' t'] HQ. wp_step. wp_step. by wp_step.
Qed.
Lemma wp_on_alloc {B} (m : M S B) b Q E : wp m (bm_allocator b) (λ r s', Q r (set_bm_allocator s' b)) E → wp (on_alloc m) b Q E.
Proof. move=> H. rw /on_alloc. by apply wp_zoom. Qed.
Lemma set_bm_allocator_id b : set_bm_allocator (bm_allocator b) b = b.
Proof. by destruct b. Qed.

(** * Reading and marking *)
Lemma wp_update_access b held os id ids : owns b held os →
  wp (update_seq_blocks_last_access id ids) b (λ _ b', owns b' held os ∧ ∃ s', b' = set_bm_allocator s' b) any_exn.
Proof.
  move=> HO. rw /update_seq_blocks_last_access. wp_step. wp_step. destruct (dget (bm_last_access b) id) as [[ts|]|]; last by wp_step.
  - apply wp_on_alloc. eapply wp_mono; [apply law_accessed, HO| |done]. intros [] s' (H1 & H2 & H3).
    split; [by apply owns_allocator|by exists s'].
  - wp_step. split; first done. exists (bm_allocator b). by rw set_bm_allocator_id.
Qed.
Lemma wp_computed_remove b e id Q : (∀ t, Q tt (set_bm_computed_tracker t b)) → wp (on_computed (computed_remove_seq e id)) b Q any_exn.
Proof.
  move=> HQ. rw /on_computed. apply wp_zoom. rw /computed_remove_seq. destruct (negb e); first by wp_step.
  wp_step. wp_step. wp_step. wp_step; last done. wp_step. wp_step. wp_step. wp_step; last done. by wp_step.
Qed.

(** * The operations *)

(** [free] *)
Lemma wp_bm_free b held s : represents b held → wp (bm_free s) b (λ _ b', represents b' (delete (inl (sq_seq_id s)) held)) any_exn.
Proof.
  intros [[os HO] Hacc]. rw /bm_free. wp_step. wp_step. set id := sq_seq_id s. have Ht := ow_table _ _ _ HO (inl id). cbn [table_at] in Ht.
  destruct (dget (bm_block_tables b) id) as [t|] eqn:Et; last first.
  { wp_step. have Hn : held !! inl id = None by destruct (held !! inl id). rw delete_id //. by split; [exists os|]. }
  wp_step. eapply wp_mono; [by apply wp_update_access| |done]. intros [] b1 [HO1 [s1 ->]]. set b1 := set_bm_allocator s1 b in HO1 *.
  wp_step. rw /on_last_access. apply wp_zoom. rw /last_access_remove_seq. wp_step. wp_step. wp_step. wp_step; last done. wp_step.
  wp_step. apply wp_computed_remove => ct. set b2 := set_bm_computed_tracker ct _.
  have HO2 : owns b2 held os by apply (owns_frame b1); try done; apply dict_wf_ddel, HO1.
  wp_step. apply wp_on_seq_table => t2 Et2. change (dget (bm_block_tables b) id = Some t2) in Et2. rw Et in Et2. injection Et2 as <-.
  have Htab := ow_table _ _ _ HO2 (inl id). change (table_at b2 (inl id)) with (dget (bm_block_tables b) id) in Htab. rw Et in Htab.
  destruct (held !! inl id) as [toks|] eqn:Eh; last done.
  eapply wp_mono; [apply (wp_table_free _ _ (os (inl id)) toks); [apply HO2|done]| |done].
  intros [] [s3 t3] (HI3 & Hs3 & Hu3 & Hd3 & Ht3). cbn [fst snd] in *. subst t3. wp_step. set b3 := set_bm_block_tables _ _.
  have Hwf : dict_wf (dset (bm_block_tables b) id (set_tb_blocks block_list_empty t)) by apply dict_wf_dset, HO.
  have HT3 : tidy b3.
  { destruct (ow_tidy _ _ _ HO2) as [A1 A2 A3 A4 A5]. split; try done; [by rw A1 -Hs3|by apply dict_wf_ddel]. }
  have Htab3 : ∀ k, table_at b3 k = if decide (k = inl id) then None else table_at b k.
  { move=> [i|r] //=. rw dget_ddel // dget_dset. repeat case_decide; simplify_eq; done. }
  split.
  - exists (updated os (inl id) []). apply (owns_update b2 b3 held os (inl id) [] None); try done.
    + by rw app_nil_r.
    + apply Forall_forall. move=> o Ho _. by eapply Forall_forall in Hd3.
    + move=> k Hk. by rw Htab3 decide_False.
    + by rw Htab3 decide_True.
  - move=> i. rw /b3 /= /dmem dget_ddel; first apply HO. rw dget_ddel // dget_dset. case_decide; first done.
    have := Hacc i. rw /dmem. done.
Qed.

(** [free_cross] *)
Lemma wp_bm_free_cross b held g : represents b held →
  wp (bm_free_cross g) b (λ _ b', represents b' (delete (inr (sg_request_id g)) held)) any_exn.
Proof.
  intros [[os HO] Hacc]. rw /bm_free_cross. wp_step. wp_step. set r := sg_request_id g. have Ht := ow_table _ _ _ HO (inr r). cbn [table_at] in Ht.
  destruct (dget (bm_cross_block_tables b) r) as [t|] eqn:Et; destruct (held !! inr r) as [toks|] eqn:Eh; try done; last first.
  { wp_step. rw delete_id //. by split; [exists os|]. }
  wp_step. apply wp_on_a_table. eapply wp_mono; [apply (wp_table_free _ _ (os (inr r)) toks); [apply HO|done]| |done].
  intros [] [s3 t3] (HI3 & Hs3 & Hu3 & Hd3 & Ht3). cbn [fst snd] in *. subst t3. wp_step. set b3 := set_bm_cross_block_tables _ _.
  have Htab3 : ∀ k, table_at b3 k = if decide (k = inr r) then None else table_at b k.
  { move=> [i|r'] //=. rw dget_ddel; first apply HO. repeat case_decide; simplify_eq; done. }
  split; last done. exists (updated os (inr r) []). apply (owns_update b b3 held os (inr r) [] None); try done.
  - destruct (ow_tidy _ _ _ HO) as [A1 A2 A3 A4 A5]. split; try done; [by rw A1 -Hs3|by apply dict_wf_ddel].
  - by rw app_nil_r.
  - apply Forall_forall. move=> o Ho _. by eapply Forall_forall in Hd3.
  - move=> k Hk. by rw Htab3 decide_False.
  - by rw Htab3 decide_True.
Qed.

(** A table is written to, with new blocks at its end. *)
Lemma represents_write b held os id s' t t' news toks : owns b held os → accessed b → dget (bm_block_tables b) id = Some t →
  tl_inv s' → tl_size s' = tl_size (bm_allocator b) → untouched (tpool b) (tl_pool s') (os (inl id) ++ news) →
  fresh_objects (tpool b) news → table_ok s' t' (os (inl id) ++ news) toks →
  represents (set_bm_block_tables (dset (bm_block_tables b) id t') (set_bm_allocator s' b)) (<[inl id := toks]> held).
Proof.
  move=> HO Hacc Et HI' Hs' Hu [Hnd Hf] HT. set b' := set_bm_block_tables _ _.
  have Htab : ∀ k, table_at b' k = if decide (k = inl id) then Some t' else table_at b k.
  { move=> [i|r] //=. rw dget_dset. repeat case_decide; simplify_eq; done. }
  have Hlive : Forall (λ o, is_Some (tobj (tl_pool s') o)) (os (inl id) ++ news).
  { apply Forall_forall => o Ho. by eapply (chained_live _ _ _ _ _ _ (ld_chain _ _ _ _ _ (tk_laid _ _ _ _ HT))). }
  split.
  - exists (updated os (inl id) (os (inl id) ++ news)). apply (owns_update b b' held os (inl id) _ (Some toks)); try done.
    + destruct (ow_tidy _ _ _ HO) as [A1 A2 A3 A4 A5]. split; try done; [by rw A1 -Hs'|by apply dict_wf_dset].
    + move=> y. rw !elem_of_app => Hy. apply Hu. rw elem_of_app. tauto.
    + apply Forall_app. split; apply Forall_forall => o Ho; [by left|right]. by eapply Forall_forall in Hf.
    + apply Forall_forall => o Ho Hn. exfalso. apply Hn, elem_of_app. by left.
    + move=> k Hk. by rw Htab decide_False.
    + by rw Htab decide_True.
  - move=> i. rw Hacc /dmem /= dget_dset. case_decide; [subst; by rw Et|done].
Qed.
Lemma accessed_cows b held s' : represents b held → tl_inv s' → tl_size s' = tl_size (bm_allocator b) → tl_pool s' = tpool b →
  represents (set_bm_allocator s' b) held.
Proof. intros [[os HO] Hacc] H1 H2 H3. split; [exists os; by apply owns_allocator|done]. Qed.

Definition appended (s : Sequence) (held : Held) : Held :=
  match held !! inl (sq_seq_id s) with
  | Some old => <[inl (sq_seq_id s) := old ++ drop (length old) (seq_token_ids s)]> held
  | None => held
  end.
Lemma wp_bm_append b held s n : represents b held → (0 ≤ n)%Z →
  wp (bm_append_slots pair_hash s n) b (λ _ b', represents b' (appended s held)) any_exn.
Proof.
  intros [[os HO] Hacc] Hn. rw /bm_append_slots. wp_step. apply wp_on_seq_table => t Et. set id := sq_seq_id s.
  have Ht := ow_table _ _ _ HO (inl id). cbn [table_at] in Ht. rw Et in Ht. rw /appended -/id.
  destruct (held !! inl id) as [toks|] eqn:Eh; last done. wp_step. rw /the_table. wp_step. cbn [fst snd].
  destruct (decide (os (inl id) = [])) as [He|Hne].
  { rw /table_append_token_ids. wp_step. rw /the_table. wp_step. wp_step. wp_step; last done. exfalso. move: H.
    cbn [fst snd]. rw /is_allocated /tb_len (ld_blocks _ _ _ _ _ (tk_laid _ _ _ _ Ht)) He //. }
  have Hunseen : get_unseen_token_ids (seq_token_ids s) t = drop (length toks) (seq_token_ids s).
  { rw /get_unseen_token_ids (tk_full _ _ _ _ Ht) slice_nonneg; [lia|lia|]. by rw !Nat2Z.id firstn_all. }
  rw Hunseen. eapply wp_mono; [apply (wp_table_append _ _ (os (inl id)) toks); [apply HO|by eapply owns_rooted|done..]| |done].
  intros [] [s1 t1] (news & HI1 & Hs1 & Hr1 & Hu1 & Hf1 & HT1). cbn [fst snd] in *.
  have HR := represents_write b held os id s1 t t1 news _ HO Hacc Et HI1 Hs1 Hu1 Hf1 HT1.
  apply wp_on_alloc. eapply wp_mono; [apply law_cows; exact HI1| |done]. intros cows s2 (H1 & H2 & H3).
  apply (accessed_cows _ _ s2 HR H1 H2 H3).
Qed.

(** A new table, at a key that has none. *)
Lemma owns_add b b' held os k s' t' news toks : owns b held os → table_at b k = None →
  bm_allocator b' = s' → tidy b' → (∀ k', table_at b' k' = if decide (k' = k) then Some t' else table_at b k') →
  tl_inv s' → tl_size s' = tl_size (bm_allocator b) → untouched (tpool b) (tl_pool s') news →
  fresh_objects (tpool b) news → table_ok s' t' news toks → owns b' (<[k := toks]> held) (updated os k news).
Proof.
  move=> HO Hn <- HT' Htab HI' Hs' Hu [Hnd Hf] HT.
  have Hos : os k = [] by have := ow_table _ _ _ HO k; rw Hn; by destruct (held !! k).
  have Hlive : Forall (λ o, is_Some (tobj (tpool b') o)) news.
  { apply Forall_forall => o Ho. by eapply (chained_live _ _ _ _ _ _ (ld_chain _ _ _ _ _ (tk_laid _ _ _ _ HT))). }
  apply (owns_update b b' held os k news (Some toks)); rw ?Hos; try done.
  - apply Forall_forall => o Ho. right. by eapply Forall_forall in Hf.
  - move=> k' Hk. by rw Htab decide_False.
  - by rw Htab decide_True.
Qed.
(** The table of a sequence is entered with its access time. *)
Lemma wp_enter_table b held os id s' t' news toks (Q : unit → Mgr → Prop) E : owns b held os → accessed b →
  tl_inv s' → tl_size s' = tl_size (bm_allocator b) → untouched (tpool b) (tl_pool s') news →
  fresh_objects (tpool b) news → table_ok s' t' news toks → dget (bm_block_tables b) id = None →
  (∀ b', owns b' (<[inl id := toks]> held) (updated os (inl id) news) → accessed b' →
     bm_block_tables b' = dset (bm_block_tables b) id t' → bm_allocator b' = s' →
     bm_cross_block_tables b' = bm_cross_block_tables b → bm_enable_caching b' = bm_enable_caching b → Q tt b') →
  wp (mmodify (λ b, set_bm_block_tables (dset (bm_block_tables b) id t') b);;; on_last_access (last_access_add_seq id))
    (set_bm_allocator s' b) Q E.
Proof.
  move=> HO Hacc HI' Hs' Hu Hf HT Hnew HQ. wp_step. wp_step. rw /on_last_access. apply wp_zoom. rw /last_access_add_seq.
  have Hla : dmem (bm_last_access b) id = false by rw Hacc /dmem Hnew.
  wp_step. wp_step. wp_step. wp_step; last by move: H; rw /= Hla.
  wp_step. apply HQ; try done.
  - apply (owns_add b _ held os (inl id) s' t' news toks); try done.
    + destruct (ow_tidy _ _ _ HO) as [A1 A2 A3 A4 A5]. split; try done; [by rw A1 -Hs'|by apply dict_wf_dset|by apply dict_wf_dset].
    + move=> [i|r] //=. rw dget_dset. repeat case_decide; simplify_eq; done.
  - move=> i. rw /dmem /= !dget_dset. case_decide; first done. apply Hacc.
Qed.
Lemma wp_add_table b held os id s' t' news toks (Q : unit → Mgr → Prop) : owns b held os → accessed b →
  tl_inv s' → tl_size s' = tl_size (bm_allocator b) → untouched (tpool b) (tl_pool s') news →
  fresh_objects (tpool b) news → table_ok s' t' news toks →
  (∀ b', owns b' (<[inl id := toks]> held) (updated os (inl id) news) → accessed b' →
     dget (bm_block_tables b) id = None → bm_block_tables b' = dset (bm_block_tables b) id t' → Q tt b') →
  wp (mmodify (λ b, set_bm_block_tables (dset (bm_block_tables b) id t') b);;; on_last_access (last_access_add_seq id))
    (set_bm_allocator s' b) Q any_exn.
Proof.
  move=> HO Hacc HI' Hs' Hu Hf HT HQ. destruct (dget (bm_block_tables b) id) as [t|] eqn:Et.
  - wp_step. wp_step. rw /on_last_access. apply wp_zoom. rw /last_access_add_seq. wp_step. wp_step. wp_step. wp_step; last done.
    exfalso. move: H. cbn [bm_last_access set_bm_block_tables set_bm_allocator]. by rw Hacc /dmem Et.
  - apply (wp_enter_table b held os id s' t' news toks); try done. move=> b' *. by apply HQ.
Qed.

(** [fork] *)
Definition forked_held (parent child : Z) (held : Held) : Held :=
  match held !! inl parent with Some toks => <[inl child := toks]> held | None => held end.
Lemma wp_bm_fork b held p c : represents b held →
  wp (bm_fork p c) b (λ _ b', represents b' (forked_held (sq_seq_id p) (sq_seq_id c) held)) any_exn.
Proof.
  intros [[os HO] Hacc]. rw /bm_fork /forked_held. wp_step. wp_step. set id := sq_seq_id p. have Ht := ow_table _ _ _ HO (inl id).
  cbn [table_at] in Ht. destruct (dget (bm_block_tables b) id) as [t|] eqn:Et; destruct (held !! inl id) as [toks|] eqn:Eh; try done; last first.
  { wp_step. by split; [exists os|]. }
  wp_step. apply wp_on_a_table. eapply wp_mono; [apply (wp_table_fork _ _ (os (inl id)) toks); [apply HO|by eapply owns_rooted|done]| |done].
  intros t' [s1 t1] (os' & HI1 & Hs1 & Hr1 & Hu1 & Hf1 & _ & _ & HT1 & _). cbn [fst snd] in *.
  apply (wp_add_table b held os (sq_seq_id c) s1 t' os' toks); try done. intros b' HO' Hacc' _ _. split; [by eexists|done].
Qed.

(** ** [allocate] *)
Lemma wp_allocate_sequence b held os s : owns b held os →
  wp (allocate_sequence pair_hash s) b (λ t b', ∃ news s', b' = set_bm_allocator s' b ∧ tl_inv s' ∧
    tl_size s' = tl_size (bm_allocator b) ∧ untouched (tpool b) (tl_pool s') news ∧ fresh_objects (tpool b) news ∧
    table_ok s' t news (seq_token_ids s)) any_exn.
Proof.
  move=> HO. have HI := ow_inv _ _ _ HO. have [A1 A2 _ _ _] := ow_tidy _ _ _ HO. rw /allocate_sequence. wp_step. wp_step. wp_step.
  apply wp_on_alloc. set t0 := {| tb_block_size := bm_block_size b; tb_blocks := block_list_empty;
    tb_max_block_sliding_window := bm_max_block_sliding_window b; tb_num_full_slots := 0 |}.
  apply (wp_mono _ _ (λ t s', t = t0 ∧ s' = bm_allocator b) _ any_exn); [done| |done]. move=> t s' [-> ->].
  rw set_bm_allocator_id. case_bool_decide as Hs.
  - wp_step. exists [], (bm_allocator b). rw set_bm_allocator_id. split_and!; try done; first by split; constructor.
    split; try done; [|by rw Hs]. rw Hs. split; try done. constructor.
  - wp_step. apply wp_on_a_table. eapply wp_mono; [apply (wp_table_allocate _ t0); [done|by eapply owns_rooted|done|done]| |done].
    intros [] [s1 t1] (news & HI1 & Hs1 & Hr1 & Hu1 & Hf1 & _ & HT1). cbn [fst snd] in *. wp_step. by exists news, s1.
Qed.
(** Every waiting sequence holds the tokens of the first. *)
Definition allocated (g : SequenceGroup) (held : Held) : Held :=
  match seqs_of SEQ_WAITING g with
  | Ok ((s0 :: _) as waiting) =>
    let held := foldl (λ h s, <[inl (sq_seq_id s) := seq_token_ids s0]> h) held waiting in
    match sg_encoder_seq g with Some e => <[inr (sg_request_id g) := seq_token_ids e]> held | None => held end
  | _ => held
  end.
Lemma wp_seq_assoc {T A} (m n : M T unit) (k : M T A) s Q E : wp ((m;;; n);;; k) s Q E → wp (m;;; n;;; k) s Q E.
Proof. rw /wp /mbind /M_bind. by destruct (m s) as [[[] s']|e]. Qed.
(** The tables of the other waiting sequences are forks of the first. *)
Lemma wp_fork_all l : ∀ b held os id t toks, owns b held os → accessed b → dget (bm_block_tables b) id = Some t →
  held !! inl id = Some toks →
  wp (mfor l (λ s', '(child, _) ← on_a_table t table_fork;
        mmodify (λ b, set_bm_block_tables (dset (bm_block_tables b) (sq_seq_id s') child) b);;;
        on_last_access (last_access_add_seq (sq_seq_id s')))) b
    (λ _ b', represents b' (foldl (λ h s, <[inl (sq_seq_id s) := toks]> h) held l)) any_exn.
Proof.
  elim: l => [|s l IH] b held os id t toks HO Hacc Et Eh; cbn [mfor foldl]; first by wp_step; split; [exists os|].
  wp_step. wp_step. apply wp_on_a_table. have Ht := ow_table _ _ _ HO (inl id). cbn [table_at] in Ht. rw Et Eh in Ht.
  eapply wp_mono; [apply (wp_table_fork _ _ (os (inl id)) toks); [apply HO|by eapply owns_rooted|done]| |done].
  intros t' [s1 t1] (os' & HI1 & Hs1 & Hr1 & Hu1 & Hf1 & _ & _ & HT1 & _). cbn [fst snd] in *.
  apply (wp_add_table b held os (sq_seq_id s) s1 t' os' toks); try done. intros b' HO' Hacc' Hnew Htab.
  have Hne : id ≠ sq_seq_id s by move=> E; rw E Hnew in Et.
  apply (IH b' _ (updated os (inl (sq_seq_id s)) os') id); try done.
  - by rw Htab dget_dset_ne.
  - rw lookup_insert_ne //. by move=> [= ?].
Qed.
Lemma wp_bm_allocate b held g : represents b held →
  wp (bm_allocate pair_hash g) b (λ _ b', represents b' (allocated g held)) any_exn.
Proof.
  intros [[os HO] Hacc]. rw /bm_allocate /allocated. wp_step. apply wp_lift; last done. move=> waiting ->.
  wp_step. wp_step. wp_step. wp_step; last done. wp_step. apply wp_lift; last done. move=> s0. destruct waiting as [|s1 rest]; first done.
  move=> [= ->]. wp_step. eapply wp_mono; [by apply (wp_allocate_sequence b held os)| |done].
  intros t b1 (news & s' & -> & HI1 & Hs1 & Hu1 & Hf1 & HT1). cbn [tail foldl].
  apply wp_seq_assoc. wp_step. apply (wp_add_table b held os (sq_seq_id s0) s' t news (seq_token_ids s0)); try done.
  intros b1 HO1 Hacc1 Hnew Htab. wp_step.
  eapply wp_mono; [apply (wp_fork_all rest b1 _ _ (sq_seq_id s0) t (seq_token_ids s0) HO1 Hacc1)| |done].
  { by rw Htab dget_dset_eq. }
  { by rw lookup_insert_eq. }
  intros [] b2 [[os2 HO2] Hacc2]. wp_step. wp_step. wp_step. wp_step; last done. wp_step. apply wp_lift; last done. move=> _ _.
  destruct (sg_encoder_seq g) as [e|]; last by wp_step; split; [exists os2|].
  wp_step. eapply wp_mono; [by apply (wp_allocate_sequence b2 _ os2 e HO2)| |done].
  intros t3 b3 (news3 & s3 & -> & HI3 & Hs3 & Hu3 & Hf3 & HT3). wp_step. split; last done.
  exists (updated os2 (inr (sg_request_id g)) news3). apply (owns_add b2 _ _ os2 (inr (sg_request_id g)) s3 t3 news3); try done.
  - cbn [table_at]. move: H0. rw /dmem. by destruct (dget (bm_cross_block_tables b2) (sg_request_id g)).
  - destruct (ow_tidy _ _ _ HO2) as [A1 A2 A3 A4 A5]. split; try done; [by rw A1 -Hs3|by apply dict_wf_dset].
  - move=> [i|r] //=. rw dget_dset. repeat case_decide; simplify_eq; done.
Qed.

(** ** What leaves the tables alone *)
Lemma represents_trackers b held b' : represents b held → bm_allocator b' = bm_allocator b → bm_block_tables b' = bm_block_tables b →
  bm_cross_block_tables b' = bm_cross_block_tables b → bm_block_size b' = bm_block_size b →
  bm_max_block_sliding_window b' = bm_max_block_sliding_window b → dict_wf (bm_last_access b') →
  (∀ id, dmem (bm_last_access b') id = dmem (bm_last_access b) id) → represents b' held.
Proof.
  intros [[os HO] Hacc] E1 E2 E3 E4 E5 Hwf Hm. split; [exists os; by apply (owns_frame b)|]. move=> id. by rw Hm Hacc E2.
Qed.
Lemma wp_bm_access b held s now : represents b held → wp (access_all_blocks_in_seq s now) b (λ _ b', represents b' held) any_exn.
Proof.
  move=> HR. rw /access_all_blocks_in_seq. wp_step. wp_step. wp_step; last done. rw /on_last_access. apply wp_zoom. rw /update_last_access.
  wp_step. wp_step. wp_step. wp_step; last done. wp_step. destruct HR as [[os HO] Hacc] eqn:E. apply (represents_trackers b held); try done.
  - apply dict_wf_dset, HO.
  - move=> id. rw /dmem /= dget_dset. case_decide as Hid; last done. subst id. move: H0. rw /dmem. by destruct (dget (bm_last_access b) (sq_seq_id s)).
Qed.
Lemma wp_bm_mark_computed b held : represents b held → wp bm_mark_blocks_as_computed b (λ _ b', represents b' held) any_exn.
Proof.
  move=> HR. destruct HR as [[os HO] Hacc] eqn:E. rw /bm_mark_blocks_as_computed. apply wp_on_alloc.
  eapply wp_mono; [apply law_computed, HO| |done]. intros [] s' (H1 & H2 & H3). by apply (accessed_cows b).
Qed.
Lemma wp_bm_num_cached b held s : represents b held →
  wp (get_num_cached_tokens py_hash pair_hash s) b (λ _ b', represents b' held) any_exn.
Proof.
  move=> HR. rw /get_num_cached_tokens. wp_step. wp_step. case_match; first by wp_step.
  wp_step. rw /on_computed. apply wp_zoom. apply (wp_mono _ _ (λ _ _, True) _ any_exn); [|move=> [] ct _|done].
  { rw /wp. by destruct (update_seq_hashes _ _ _ _ _ _) as [[[] ct]|e]. }
  have HR1 : represents (set_bm_computed_tracker ct b) held by destruct HR as [[os HO] Hacc]; split; [exists os; by apply (owns_frame b); try done; apply HO|].
  wp_step. wp_step.
  match goal with |- wp (match ?x with Some _ => _ | None => _ end) _ _ _ => destruct x as [prev|] end; [destruct (seq_is_prefill s); first by wp_step|];
    (wp_step; apply wp_dict_at => hs Hhs; wp_step; apply wp_on_alloc; destruct HR1 as [[os HO] Hacc];
     eapply wp_mono; [apply law_find_cached, HO| |done]; move=> cached s' ->; rw set_bm_allocator_id; wp_step; apply wp_zoom; wp_step; wp_step;
     split; [exists os; by apply (owns_frame (set_bm_computed_tracker ct b)); try done; apply HO|done]).
Qed.
End manager.
