(* ===== verification/ManagerTheorems.v ===== *)
(** The block manager: the states that its clients bring it into, and what they
    can rely on. At the end, the hashes that its tracker keeps. *)
From Stdlib Require Import ssreflect ZArith Lia.
From stdpp Require Import base numbers list gmap strings.
From S2P Require Import Prelude Detokenizer SequenceData Sequences NaiveBlocks NaiveTheorems Evictor CacheMetric PrefixCaching PrefixBooks PrefixHash PrefixOps PrefixInv PrefixAlloc.
From S2P Require Import PrefixTheorems BlockTable CpuGpu BlockManager TableLaws TableOps TableInst PrefixTables ManagerInv.

Section reach.
Context {S : Type} {DA : DeviceAwareBlockAllocator S} {TL : TableLaws S} (pair_hash : Z * Z → Z)
  (py_hash : bool * option Z * list Z * option Z → Z).
Abbreviation Mgr := (SelfAttnBlockSpaceManager S).

Lemma wp_get_common b held l : represents b held →
  wp (bm_get_common_computed_block_ids py_hash pair_hash l) b (λ _ b', represents b' held) any_exn.
Proof.
  move=> HR. rw /bm_get_common_computed_block_ids. wp_step.
  apply (wp_mono _ _ (λ _ b', represents b' held) _ any_exn); [|move=> ids b1 HR1; by wp_step|done].
  apply wp_fold; first done. move=> acc s b1 _ HR1. wp_step. rw /get_block_table. wp_step. wp_step. wp_step. apply wp_dict_at => t Ht. wp_step.
  wp_step. eapply wp_mono; [by apply wp_bm_num_cached| |done]. move=> n b2 HR2. wp_step. wp_step. wp_step. wp_step; last done. by wp_step.
Qed.

(** Runs of a manager without a sliding window, with the tokens that each table was
    given: any calls that return, but for the swaps and for appending with a
    negative number of lookahead slots. *)
Inductive mgr_reach : Mgr → Held → Prop :=
  | mr_init a bs ng nc wm ec b : tl_inv a → (∀ o, tobj (tl_pool a) o = None) → bs = Z.of_nat (tl_size a) →
      block_manager_init (Ok a) bs ng nc wm None ec = Ok b → mgr_reach b ∅
  | mr_allocate b held g b' : mgr_reach b held → bm_allocate pair_hash g b = Ok (tt, b') → mgr_reach b' (allocated g held)
  | mr_append b held s n r b' : mgr_reach b held → (0 ≤ n)%Z → bm_append_slots pair_hash s n b = Ok (r, b') → mgr_reach b' (appended s held)
  | mr_free b held s b' : mgr_reach b held → bm_free s b = Ok (tt, b') → mgr_reach b' (delete (inl (sq_seq_id s)) held)
  | mr_free_cross b held g b' : mgr_reach b held → bm_free_cross g b = Ok (tt, b') → mgr_reach b' (delete (inr (sg_request_id g)) held)
  | mr_fork b held p c b' : mgr_reach b held → bm_fork p c b = Ok (tt, b') → mgr_reach b' (forked_held (sq_seq_id p) (sq_seq_id c) held)
  | mr_access b held s now b' : mgr_reach b held → access_all_blocks_in_seq s now b = Ok (tt, b') → mgr_reach b' held
  | mr_computed b held b' : mgr_reach b held → bm_mark_blocks_as_computed b = Ok (tt, b') → mgr_reach b' held
  | mr_num_cached b held s r b' : mgr_reach b held → get_num_cached_tokens py_hash pair_hash s b = Ok (r, b') → mgr_reach b' held
  | mr_common b held l r b' : mgr_reach b held → bm_get_common_computed_block_ids py_hash pair_hash l b = Ok (r, b') → mgr_reach b' held.

Lemma represents_init a bs ng nc wm ec b : tl_inv a → (∀ o, tobj (tl_pool a) o = None) → bs = Z.of_nat (tl_size a) →
  block_manager_init (Ok a) bs ng nc wm None ec = Ok b → represents b ∅.
Proof.
  move=> HI Hn Hbs. rw /block_manager_init. case_match; last done. destruct (int_of_float _) as [z|]; last done. move=> [= <-]. split; last done.
  exists (λ _, []). split; cbn; try done.
  - by split; cbn; try done; apply dict_wf_nil.
  - move=> [i|r]; rw /= lookup_empty //.
  - by move=> k1 k2 o /elem_of_nil.
  - move=> o. rw Hn. split; [by move=> []|by move=> [k /elem_of_nil]].
Qed.
Ltac reached lem H := match goal with |- represents ?b' ?h => refine (wp_ok _ _ (λ _ b', represents b' h) any_exn _ b' _ H); by eapply lem end.
Lemma mgr_reach_represents b held : mgr_reach b held → represents b held.
Proof.
  induction 1 as [| | | | | | | | |].
  - by eapply represents_init.
  - by reached wp_bm_allocate H0.
  - by reached wp_bm_append H1.
  - by reached wp_bm_free H0.
  - by reached wp_bm_free_cross H0.
  - by reached wp_bm_fork H0.
  - by reached wp_bm_access H0.
  - by reached wp_bm_mark_computed H0.
  - by reached wp_bm_num_cached H0.
  - by reached wp_get_common H0.
Qed.

(** C29: Without a sliding window the block manager implements a map from sequences
    to tokens. After a run ([mgr_reach]: calls that return, but no swap and no
    negative lookahead, on a manager made with [sliding_window = None]), exactly the sequences of the map have a table; block
    [i] of a table holds the tokens from [i * block_size] on of its sequence and
    follows block [i - 1], the ids the table hands out are those of its blocks,
    and all tokens have a place; no block object belongs to two tables, and every
    block object in use belongs to a table. *)
Theorem manager_holds_tokens b held : mgr_reach b held →
  let a := bm_allocator b in
  ∃ os : Key → list nat,
    (∀ k, match table_at b k, held !! k with
          | Some t, Some toks =>
              bl_blocks (tb_blocks t) = Obj <$> os k ∧
              chained (tl_pool a) None (os k) (layout (tl_size a) (length (os k)) toks) (physical_block_ids t) ∧
              mjoin (layout (tl_size a) (length (os k)) toks) = toks ∧ tb_num_full_slots t = Z.of_nat (length toks)
          | None, None => True
          | _, _ => False
          end) ∧
    (∀ k1 k2 o, o ∈ os k1 → o ∈ os k2 → k1 = k2) ∧
    (∀ o, is_Some (tobj (tl_pool a) o) ↔ ∃ k, o ∈ os k).
Proof.
  move=> /mgr_reach_represents [[os HO] _] a. exists os. split_and!; [|apply HO|apply HO].
  move=> k. have := ow_table _ _ _ HO k. destruct (table_at b k) as [t|], (held !! k) as [toks|]; try done.
  intros [T1 T2 [L1 L2 L3 L4] T4]. split_and!; [done|done|by apply layout_concat|done].
Qed.
End reach.

(** * The naive allocator *)

(** C30: Without prefix caching and without a sliding window, after a run
    ([mgr_reach], without swaps and negative lookaheads), a block of the GPU is free exactly when no table lists it:
    allocating, appending, forking and freeing neither leak blocks nor free one
    that a table still lists. *)
Theorem manager_free_blocks (pair_hash : Z * Z → Z) py_hash (b : SelfAttnBlockSpaceManager (CpuGpuBlockAllocator NaiveBlockAllocator)) held :
  mgr_reach pair_hash py_hash b held →
  let gpu := cg_gpu (bm_allocator b) in
  ∀ id, id ∈ free_block_indices gpu ↔
    id ∈ all_block_indices gpu ∧ ∀ k t, table_at b k = Some t → id ∉ physical_block_ids t.
Proof.
  move=> /mgr_reach_represents [[os HO] _] gpu id. have [[HI _] _] : naive_good gpu := ow_inv _ _ _ HO.
  have Ht : total [] gpu id = uses (bp_pool (na_block_pool gpu)) id by rw /total occ_nil; lia.
  rw (ni_free _ _ HI) Ht. have Hnn := uses_nonneg (bp_pool (na_block_pool gpu)) id.
  have Hlisted : (0 < uses (bp_pool (na_block_pool gpu)) id)%Z ↔ ∃ k t, table_at b k = Some t ∧ id ∈ physical_block_ids t.
  { rw uses_pos. split.
    - move=> [o [x [Hx Hid]]]. have Ho : tobj (na_block_pool gpu) o = Some x.
      { apply tobj_Some. split; last done. split; [by eapply lookup_lt_Some|]. move=> /(pi_free _ (ni_pool _ _ HI)) [y [Hy ?]]. congruence. }
      destruct (proj1 (ow_live _ _ _ HO o)) as [k Hk]; first by exists x.
      have HT := ow_table _ _ _ HO k. destruct (table_at b k) as [t|] eqn:Et, (held !! k) as [toks|]; try done; last by rw HT in Hk; apply elem_of_nil in Hk.
      exists k, t. split; first done. apply list_elem_of_lookup in Hk as [i Hi].
      destruct (chained_lookup _ _ _ _ _ _ _ (ld_chain _ _ _ _ _ (tk_laid _ _ _ _ HT)) Hi) as (y & Hy & _ & id' & Hid' & Hi').
      change (tobj (na_block_pool gpu) o = Some y) in Hy. rw /physical_block_ids. apply (list_elem_of_lookup_2 _ i).
      have E : y = x by move: Hy => /tobj_Some [_]; rw Hx => -[= ->]. congruence.
    - move=> [k [t [Et Hid]]]. have HT := ow_table _ _ _ HO k. rw Et in HT. destruct (held !! k) as [toks|]; last done.
      have Hc := ld_chain _ _ _ _ _ (tk_laid _ _ _ _ HT). apply list_elem_of_lookup in Hid as [i Hi].
      have [_ L] := chained_length _ _ _ _ _ Hc. destruct (lookup_lt_is_Some_2 (os k) i) as [o Ho].
      { rw -L. by eapply lookup_lt_Some. }
      destruct (chained_lookup _ _ _ _ _ _ _ Hc Ho) as (y & Hy & _ & id' & Hid' & Hi'). apply tobj_Some in Hy as [_ Hy].
      exists o, y. split; first done. rw /physical_block_ids in Hi. congruence. }
  split.
  - move=> [Hall H0]. split; first done. move=> k t Et Hid. have : (0 < uses (bp_pool (na_block_pool gpu)) id)%Z by apply Hlisted; exists k, t. lia.
  - move=> [Hall Hno]. split; first done. destruct (decide (0 < uses (bp_pool (na_block_pool gpu)) id)%Z) as [H|H]; last lia.
    apply Hlisted in H as (k & t & Et & Hid). by destruct (Hno k t Et).
Qed.

(** * The prefix-caching allocator *)
Section prefix.
Context (pair_hash : Z * Z → Z) (py_hash : bool * option Z * list Z * option Z → Z).
#[local] Instance caching : BlockAllocator PrefixCachingBlockAllocator := prefix_block_allocator py_hash.
#[local] Existing Instance prefix_laws.

(** The allocator of a manager is in one of its reachable states. *)
Lemma mgr_reach_allocator (b : SelfAttnBlockSpaceManager (CpuGpuBlockAllocator PrefixCachingBlockAllocator)) held :
  mgr_reach pair_hash py_hash b held → pc_reach py_hash (cg_gpu (bm_allocator b)).
Proof. move=> /mgr_reach_represents [[os HO] _]. exact (ow_inv _ _ _ HO). Qed.
Lemma prefix_of_det v o l : PrefixTheorems.prefix_of v o l → ∀ l', PrefixTheorems.prefix_of v o l' → l = l'.
Proof.
  induction 1 as [o t n e Hv|o t n p e l Hv Hp IH]; move=> l' H'; inversion H'; subst; rw Hv in H; simplify_eq; [done|].
  by rw (IH _ H0).
Qed.
Lemma prefix_of_chain s os : ∀ o toks ids, chained (pool s) None (os ++ [o]) toks ids →
  ∃ l, PrefixTheorems.prefix_of (view s) o l ∧ l.*1 = toks.
Proof.
  induction os as [|x os IH] using rev_ind => o toks ids Hc.
  - destruct toks as [|t []], ids as [|? []]; try (by destruct Hc). destruct Hc as [(b & Hb & Ht & Hp & _) _].
    apply tobj_Some in Hb as [Hl Hb]. exists [(t, pb_extra_hash (attrs_of s o))]. split; last done.
    apply px_first with (n := nb_block_size b). rw (view_obj _ _ _ Hb) Ht Hp //.
  - destruct (chained_split _ _ _ _ _ _ Hc) as [H1 H2]. destruct (IH x _ _ H1) as (l & Hl & El).
    have [L1 _] := chained_length _ _ _ _ _ Hc. rw -(take_drop (length (os ++ [x])) toks). set t := drop _ toks in H2 *. set i := drop _ ids in H2.
    destruct t as [|t0 []], i as [|? []]; try (by destruct H2). destruct H2 as [(b & Hb & Ht & Hp & _) _].
    apply tobj_Some in Hb as [Hlv Hb]. rw /last_or last_snoc in Hp. exists (l ++ [(t0, pb_extra_hash (attrs_of s o))]). split.
    + apply px_next with (n := nb_block_size b) (p := x); [|done]. rw (view_obj _ _ _ Hb) Ht Hp //.
    + rw fmap_app El //.
Qed.

(** C31: With prefix caching, sequences share the KV cache of the same tokens only,
    up to collisions of [hash], of which nothing is assumed. For a manager without
    a sliding window and after a run ([mgr_reach], without swaps and negative
    lookaheads): if two tables list the same
    physical block, one of them at a place that is full, then the other is full
    there, too; and either both list it at the same place and the sequences have
    the same tokens up to the end of that block, or [hash] gives one value for two
    different blocks of the pool. *)
Theorem shared_tables_same_tokens (b : SelfAttnBlockSpaceManager (CpuGpuBlockAllocator PrefixCachingBlockAllocator)) held
    k1 k2 t1 t2 toks1 toks2 i1 i2 id :
  mgr_reach pair_hash py_hash b held → table_at b k1 = Some t1 → table_at b k2 = Some t2 →
  held !! k1 = Some toks1 → held !! k2 = Some toks2 →
  physical_block_ids t1 !! i1 = Some id → physical_block_ids t2 !! i2 = Some id →
  let gpu := cg_gpu (bm_allocator b) in
  let bs := na_block_size (pa_hashless gpu) in
  (i1 + 1) * bs ≤ length toks1 →
  (i2 + 1) * bs ≤ length toks2 ∧
  (i1 = i2 ∧ take ((i1 + 1) * bs) toks1 = take ((i2 + 1) * bs) toks2 ∨ PrefixTheorems.hash_collision py_hash (view gpu)).
Proof.
  move=> /mgr_reach_represents [[os HO] _] E1 E2 F1 F2 I1 I2 s bs Hfull.
  have HR : pc_reach py_hash s := ow_inv _ _ _ HO. have HC := pi_content _ _ _ _ (pc_reach_inv _ _ HR). have Hbs := ct_size _ _ _ HC.
  have Hat : ∀ k t toks i, table_at b k = Some t → held !! k = Some toks → physical_block_ids t !! i = Some id →
    ∃ o x l, plive s o ∧ obj s o = Some x ∧ nb_block_id x = Some id ∧ nb_is_full x = bool_decide ((i + 1) * bs ≤ length toks) ∧
      PrefixTheorems.prefix_of (view s) o l ∧ l.*1 = layout bs (i + 1) toks.
  { move=> k t toks i Et Eh Hi. have HT := ow_table _ _ _ HO k. rw Et Eh in HT.
    have Hc : chained (pool s) None (os k) (layout bs (length (os k)) toks) (physical_block_ids t) := ld_chain _ _ _ _ _ (tk_laid _ _ _ _ HT).
    have [_ L] := chained_length _ _ _ _ _ Hc. have Hlt := lookup_lt_Some _ _ _ Hi. rw L in Hlt.
    destruct (lookup_lt_is_Some_2 (os k) i Hlt) as [o Ho].
    destruct (chained_lookup _ _ _ _ _ _ _ Hc Ho) as (x & Hx & Htoks & id' & Hid' & Hi'). apply tobj_Some in Hx as [Hl Hx].
    have Hsplit := Hc. rw -(take_drop (i + 1) (os k)) Nat.add_1_r (take_S_r _ _ _ Ho) in Hsplit. apply chained_split in Hsplit as [Hpre _].
    destruct (prefix_of_chain _ _ _ _ _ Hpre) as (l & Hl1 & Hl2).
    rw -(take_S_r _ _ _ Ho) take_drop length_take_le in Hl2; first lia. rw layout_take in Hl2; first lia. rw -Nat.add_1_r in Hl2.
    exists o, x, l. split_and!; try done; [congruence|].
    rw layout_lookup // in Htoks. injection Htoks as Htoks. rw /nb_is_full /num_empty_slots (ct_sizes _ _ _ HC o x Hl Hx) -Htoks length_take length_drop. change (na_block_size (pa_hashless s)) with bs.
    case_bool_decide; [apply Z.eqb_eq|apply Z.eqb_neq]; lia. }
  destruct (Hat k1 t1 toks1 i1 E1 F1 I1) as (o1 & x1 & l1 & Hl1 & Hx1 & Hid1 & Hf1 & P1 & Q1).
  destruct (Hat k2 t2 toks2 i2 E2 F2 I2) as (o2 & x2 & l2 & Hl2 & Hx2 & Hid2 & Hf2 & P2 & Q2).
  destruct (shared_content py_hash s o1 o2 x1 x2 id HR Hl1 Hl2 Hx1 Hx2 Hid1 Hid2) as [Heq Hpre].
  rw bool_decide_eq_true_2 // in Hf1. split; first by rw -Heq Hf1 in Hf2; symmetry in Hf2; apply bool_decide_eq_true_1 in Hf2.
  destruct (Hpre Hf1) as [(l & R1 & R2)|]; [left|by right].
  have ? := prefix_of_det _ _ _ P1 _ R1. have ? := prefix_of_det _ _ _ P2 _ R2. subst l1 l2. rw Q1 in Q2.
  have Hi : i1 = i2 by have := f_equal length Q2; rw !layout_length; lia. subst i2.
  split; first done. by rw -!layout_join Q2.
Qed.
End prefix.

(** * The tracker

    The tracker of computed blocks keeps the hashes of a sequence while it grows:
    they are what hashing all its tokens anew would give, and what the allocator
    finds its blocks by. *)

Section tracker.
Context (py_hash : bool * option Z * list Z * option Z → Z) (pair_hash : Z * Z → Z).

(** The hashes of blocks in a row, and of all full blocks of a sequence. *)
Fixpoint chain_hashes (extra prev : option Z) (chunks : list (list Z)) : list Z :=
  match chunks with
  | [] => []
  | c :: chunks =>
    let h := py_hash (bool_decide (prev = None), prev, c, extra) in h :: chain_hashes extra (Some h) chunks
  end.
Definition hashes_of (bs : nat) (extra : option Z) (toks : list Z) : list Z :=
  chain_hashes extra None (layout bs (length toks / bs) toks).

Definition last_hash (prev : option Z) (l : list Z) : option Z := match last l with Some h => Some h | None => prev end.
Lemma last_hash_cons prev h l : last_hash prev (h :: l) = last_hash (Some h) l.
Proof.
  rw /last_hash. destruct l as [|x l]; first done. rw last_cons_cons. by destruct (last (x :: l)) eqn:E; [|apply last_None in E].
Qed.
Lemma chain_hashes_length extra l : ∀ prev, length (chain_hashes extra prev l) = length l.
Proof. elim: l => [//|c l IH] prev /=. by rw IH. Qed.
Lemma chain_hashes_app extra l1 l2 : ∀ prev,
  chain_hashes extra prev (l1 ++ l2) = chain_hashes extra prev l1 ++ chain_hashes extra (last_hash prev (chain_hashes extra prev l1)) l2.
Proof. elim: l1 => [//|c l1 IH] prev. cbn [app chain_hashes]. by rw last_hash_cons IH. Qed.

Lemma seq_hashes_loop_ok bs toks extra n : ∀ i prev recorded, (i + n) * bs ≤ length toks →
  seq_hashes_loop py_hash n i bs toks extra prev recorded =
    Ok (recorded ++ chain_hashes extra prev ((λ j, take bs (drop (j * bs) toks)) <$> seq i n)).
Proof.
  elim: n => [|n IH] i prev recorded Hle; cbn [seq_hashes_loop seq fmap list_fmap chain_hashes]; first by rw app_nil_r.
  rw bool_decide_eq_true_2; first nia. rw /hash_block_tokens Bool.eqb_reflx. cbn [mbind result_bind].
  rw IH; first nia. by rw -app_assoc.
Qed.
Lemma layout_prefix bs n toks0 toks : toks0 `prefix_of` toks → n * bs ≤ length toks0 → layout bs n toks0 = layout bs n toks.
Proof.
  move=> [rest ->] Hle. apply list_eq => i. destruct (decide (i < n)) as [Hi|Hi]; last by rw !lookup_ge_None_2 ?layout_length //; lia.
  rw !layout_lookup //. have Hb : (i + 1) * bs ≤ n * bs by apply Nat.mul_le_mono_r; lia.
  rw drop_app_le; first nia. rw take_app_le //. rw length_drop. nia.
Qed.

(** C33: The tracker hashes only the blocks it has not hashed yet, and what it
    records is what hashing the whole sequence anew gives: if its record of a
    sequence is that of an earlier state of the sequence (or there is none), the
    update returns, leaves the records of other sequences alone, and records the
    hash of every full block, each chained to the one before. *)
Theorem tracker_hashes_from_scratch bs s t toks0 : 0 < bs → toks0 `prefix_of` sd_cached_all_token_ids (sq_data s) →
  default [] (dget (seq_id_to_blocks_hashes t) (sq_seq_id s)) = hashes_of bs (seq_extra_hash pair_hash s) toks0 →
  ∃ t', update_seq_hashes py_hash pair_hash true bs s t = Ok (tt, t') ∧
    dget (seq_id_to_blocks_hashes t') (sq_seq_id s) =
      Some (hashes_of bs (seq_extra_hash pair_hash s) (sd_cached_all_token_ids (sq_data s))) ∧
    ∀ id, id ≠ sq_seq_id s → dget (seq_id_to_blocks_hashes t') id = dget (seq_id_to_blocks_hashes t) id.
Proof.
  move=> Hbs Hpre Hrec. set toks := sd_cached_all_token_ids (sq_data s) in Hpre *. set e := seq_extra_hash pair_hash s in Hrec *.
  have Hm : length toks0 / bs * bs ≤ length toks0 by have := Nat.div_mod_eq (length toks0) bs; lia.
  have Hlen := prefix_length _ _ Hpre. have Hq : length toks0 / bs ≤ length toks / bs by apply Nat.Div0.div_le_mono.
  have Hn : length toks / bs * bs ≤ length toks by have := Nat.div_mod_eq (length toks) bs; lia.
  have Hl : length (hashes_of bs e toks0) = length toks0 / bs by rw /hashes_of chain_hashes_length layout_length.
  have Hloop : seq_hashes_loop py_hash (length toks / bs - length toks0 / bs) (length toks0 / bs) bs toks e (last (hashes_of bs e toks0))
    (hashes_of bs e toks0) = Ok (hashes_of bs e toks).
  { rw seq_hashes_loop_ok; first nia. f_equal. rw {3}/hashes_of.
    have -> : length toks / bs = length toks0 / bs + (length toks / bs - length toks0 / bs) by lia.
    rw {1}/layout seq_app fmap_app chain_hashes_app. rw /hashes_of (layout_prefix bs _ toks0 toks) //. f_equal.
    rw Nat.add_sub' /layout /last_hash. by destruct (last _). }
  destruct (wp_returns (update_seq_hashes py_hash pair_hash true bs s) t (λ _ t', dget (seq_id_to_blocks_hashes t') (sq_seq_id s) = Some (hashes_of bs e toks) ∧
    ∀ id, id ≠ sq_seq_id s → dget (seq_id_to_blocks_hashes t') id = dget (seq_id_to_blocks_hashes t) id)) as ([] & t' & HE & HQ); last by exists t'.
  rw /update_seq_hashes. wp_step. wp_step; last done. wp_step. wp_step. wp_step. rw Hrec -/toks Hl. wp_step; last first.
  { exfalso. move: H. case_bool_decide; [done|lia]. }
  wp_step. apply wp_lift; rw -/e Hloop; last done. move=> hs [= <-]. wp_step.
  split; [by rw /= dget_dset_eq|by move=> id Hid; rw /= dget_dset_ne].
Qed.

(** The hashes of the tracker are the content hashes of the blocks of a table. *)
Lemma chain_content s e os : ∀ o full ids, content py_hash None s → chained (pool s) None (os ++ [o]) full ids →
  Forall (λ c, length c = na_block_size (pa_hashless s)) full → (∀ y, y ∈ os ++ [o] → pb_extra_hash (attrs_of s y) = e) →
  ∃ h, last (chain_hashes e None full) = Some h ∧ hash_of py_hash (view s) o h.
Proof.
  induction os as [|x os IH] using rev_ind => o full ids HC Hc HF He.
  - destruct full as [|t []], ids as [|? []]; try (by destruct Hc). destruct Hc as [(b & Hb & Ht & Hp & _) _].
    apply tobj_Some in Hb as [Hl Hb]. move: HF => /Forall_cons [Hlen _]. eexists. split; first done.
    apply ho_first with (n := nb_block_size b).
    + rw (view_obj _ _ _ Hb) Hp Ht He //. by left.
    + rw /v_full /= Hlen (ct_sizes _ _ _ HC o b Hl Hb). apply Z.eqb_eq. lia.
  - destruct (chained_split _ _ _ _ _ _ Hc) as [H1 H2].
    destruct (IH x _ _ HC H1) as [h [Hlast Hh]]; [by apply Forall_take|by move=> y Hy; apply He, elem_of_app; left|].
    have HF2 := Forall_drop _ (length (os ++ [x])) _ HF. rw -(take_drop (length (os ++ [x])) full) chain_hashes_app /last_hash Hlast.
    set t := drop _ full in H2 HF2 *. set i := drop _ ids in H2.
    destruct t as [|t0 []], i as [|? []]; try (by destruct H2). destruct H2 as [(b & Hb & Ht & Hp & _) _].
    apply tobj_Some in Hb as [Hl Hb]. move: HF2 => /Forall_cons [Hlen _]. rw /last_or last_snoc in Hp. eexists.
    split; first by cbn [chain_hashes]; rw last_snoc.
    apply ho_next with (n := nb_block_size b) (p := x) (h := h); last done.
    + rw (view_obj _ _ _ Hb) Hp Ht He //. apply elem_of_app. by right; left.
    + rw /v_full /= Hlen (ct_sizes _ _ _ HC o b Hl Hb). apply Z.eqb_eq. lia.
Qed.
Lemma chain_hashes_take e l i : ∀ prev, take i (chain_hashes e prev l) = chain_hashes e prev (take i l).
Proof. elim: l i => [|c l IH] [|i] prev //=. by rw IH. Qed.
(** A block is found in the cache by the hash the tracker has for it: in a
    reachable state, the table of a sequence, whose blocks have the extra hash of
    the sequence, lists for each full block exactly the block that the hash table
    of the allocator gives for the hash that the tracker computes from the tokens. *)
Theorem tracker_hash_finds_block s os toks ids e i o h : pc_reach py_hash s → chained (pool s) None os (layout (na_block_size (pa_hashless s)) (length os) toks) ids →
  (∀ y, y ∈ os → pb_extra_hash (attrs_of s y) = e) → os !! i = Some o → length toks ≤ length os * na_block_size (pa_hashless s) →
  hashes_of (na_block_size (pa_hashless s)) e toks !! i = Some h →
  hash_of py_hash (view s) o h ∧ ∃ id, ids !! i = Some id ∧ pa_cached_blocks s !! h = Some id.
Proof.
  move=> HR Hc He Ho Hroom Hh. set bs := na_block_size (pa_hashless s) in Hc Hroom Hh *. have HC := pi_content _ _ _ _ (pc_reach_inv _ _ HR).
  have Hbs : 0 < bs := ct_size _ _ _ HC. have Hi := lookup_lt_Some _ _ _ Hh. rw /hashes_of chain_hashes_length layout_length in Hi.
  have Hn : length toks / bs * bs ≤ length toks by have := Nat.div_mod_eq (length toks) bs; lia.
  have Hio := lookup_lt_Some _ _ _ Ho. have Hfull : (i + 1) * bs ≤ length toks by nia.
  destruct (chained_lookup _ _ _ _ _ _ _ Hc Ho) as (x & Hx & Htoks & id & Hid & Hids).
  apply tobj_Some in Hx as [Hl Hx]. rw layout_lookup // in Htoks. injection Htoks as Htoks.
  have Hsplit := Hc. rw -(take_drop (i + 1) os) Nat.add_1_r (take_S_r _ _ _ Ho) in Hsplit. apply chained_split in Hsplit as [Hpre _].
  rw -(take_S_r _ _ _ Ho) take_drop length_take_le in Hpre; first lia. rw (take_S_r _ _ _ Ho) layout_take in Hpre; first lia.
  destruct (chain_content s e _ _ _ _ HC Hpre) as (h' & Hlast & Hh').
  - apply Forall_lookup => j c Hj. apply (layout_full _ _ _ _ _ Hj). have Hjl := lookup_lt_Some _ _ _ Hj. rw layout_length in Hjl. nia.
  - move=> y Hy. apply He. rw -(take_drop (S i) os) elem_of_app (take_S_r _ _ _ Ho). by left.
  - have ? : h' = h.
    { have Hlk : last (take (S i) (hashes_of bs e toks)) = Some h by rw (take_S_r _ _ _ Hh) last_snoc.
      rw /hashes_of chain_hashes_take layout_take in Hlk; first lia. congruence. }
    subst h'. split; first done. exists id. split; first done.
    have Hblk := ct_block _ _ _ HC o x id ltac:(done) Hl Hx Hid.
    have Hf : nb_is_full x = true.
    { rw /nb_is_full /num_empty_slots (ct_sizes _ _ _ HC o x Hl Hx) -Htoks length_take length_drop -/bs. apply Z.eqb_eq. lia. }
    rw Hf in Hblk. destruct Hblk as (h2 & Hh2 & Hc2). by rw (hash_of_det _ _ _ _ Hh' _ Hh2).
Qed.
End tracker.
