(* ===== verification/AllocTheorems.v ===== *)
(** When the naive allocator has enough free blocks, its operations return: what
    [can_allocate] promises is kept by [allocate]. *)
From Stdlib Require Import ssreflect ZArith Lia.
From stdpp Require Import base numbers list gmap strings.
From S2P Require Import Prelude NaiveBlocks NaiveTheorems PrefixHash BlockTable CpuGpu TableLaws TableOps TableInst Detokenizer SequenceData Sequences BlockManager ManagerInv.
From S2P Require Import ManagerTheorems.

Abbreviation nfree s := (length (free_block_indices s)).
Abbreviation npool s := (na_block_pool s).

Lemma wp_total {S A} (m : M S A) s (Q Q' : A → S → Prop) : wp m s Q any_exn → wp m s Q' no_exn → wp m s (λ a s', Q a s' ∧ Q' a s') no_exn.
Proof. rw /wp. by destruct (m s) as [[a s']|e]. Qed.

(** * Block ids *)
Lemma tot_ref_get s id n Q : na_refcounts s !! id = Some n → Q n s → wp (ref_get id) s Q no_exn.
Proof. move=> Hn HQ. rw /ref_get. wp_step. wp_step. rw Hn. by wp_step. Qed.
Lemma tot_ref_incr s id n (Q : Z → NaiveBlockAllocator → Prop) : na_refcounts s !! id = Some n → (0 ≤ n)%Z →
  Q (n + 1)%Z (set_na_refcounts (<[id := (n + 1)%Z]> (na_refcounts s)) s) → wp (ref_incr id) s Q no_exn.
Proof.
  move=> Hn H0 HQ. rw /ref_incr. wp_step. apply (tot_ref_get _ _ n _ Hn). wp_step. wp_step; last lia. rw /ref_set. wp_step. wp_step. by wp_step.
Qed.
Lemma tot_take held s : naive_inv held s → 0 < nfree s → wp allocate_block_id s (λ id s', Datatypes.S (nfree s') = nfree s ∧
  npool s' = npool s ∧ na_refcounts s' !! id = Some 1%Z ∧ na_block_size s' = na_block_size s) no_exn.
Proof.
  move=> HI Hf. rw /allocate_block_id. wp_step. wp_step. destruct (free_block_indices s) as [|id rest] eqn:Ef; first by simpl in Hf; lia.
  wp_step. wp_step. wp_step. destruct (proj1 (ni_free _ _ HI id)) as [Hall H0]; first by rw Ef; left.
  destruct (proj1 (ni_dom _ _ HI id) Hall) as [n Hn]. have Hc := ni_count _ _ HI _ _ Hn. rw H0 in Hc. subst n.
  apply (tot_ref_incr _ id 0%Z); [done|lia|]. wp_step. cbn. by rw lookup_insert_eq.
Qed.

(** * Objects *)
Lemma tot_init p prev toks bs id : pool_ok p → 0 < length (bp_pool p) → length toks ≤ bs →
  wp (init_block prev toks bs id) p (λ _ _, True) no_exn.
Proof.
  move=> [P1 P2 P3 P4] Hl Ht. rw /init_block. wp_step. wp_step. wp_step.
  apply (wp_mono _ _ (λ _ p1, bp_free_ids p1 ≠ [] ∧ ∀ o, o ∈ bp_free_ids p1 → o < length (bp_pool p1)) _ no_exn); [| |done].
  { wp_step; last by split; [move: H; case_bool_decide|].
    have Hne : seq (bp_pool_size p) (bp_pool_size p * 2 - bp_pool_size p) ≠ [].
    { move=> E. have := f_equal length E. rw length_seq /=. lia. }
    wp_step. rw /increase_pool. wp_step. wp_step. wp_step.
    have Hn : bp_free_ids p ++ seq (bp_pool_size p) (bp_pool_size p * 2 - bp_pool_size p) ≠ [] by move=> /app_eq_nil [_ ?].
    wp_step; last by move: H0; rw /= bool_decide_eq_true_2. split; first done.
    move=> o /elem_of_app [/P3|/elem_of_seq]; rw /= length_app length_replicate; lia. }
  move=> _ p1 [Hne Hlt]. wp_step. wp_step. destruct (bp_free_ids p1) as [|o rest] eqn:Ef; first done. wp_step. wp_step. cbn.
  destruct (lookup_lt_is_Some_2 (bp_pool p1) o) as [old Hold]; first by apply Hlt; left. rw Hold. wp_step.
  have [b Hb] : ∃ b, naive_block_init prev toks bs id (nb_pool_id old) = Ok b.
  { rw /naive_block_init /append_token_ids_no_cow. case_bool_decide; first by eexists. rw /num_empty_slots /=.
    case_match eqn:E; [by eexists|]. apply Z.leb_gt in E. lia. }
  apply wp_lift; rw Hb; last done. move=> b' _. wp_step. wp_step. by wp_step.
Qed.
(** What a new object looks like. *)
Lemma tot_new held s prev toks bs id : naive_inv (id :: held) s → 0 < length (bp_pool (npool s)) → length toks ≤ bs →
  wp (on_pool (init_block prev toks bs (Some id))) s (λ o s', s' = set_na_block_pool (npool s') s ∧
    bp_pool (npool s') !! o = Some {| nb_token_ids := toks; nb_block_size := bs; nb_prev_block := prev;
                                      nb_block_id := Some id; nb_pool_id := Some o |}) no_exn.
Proof.
  move=> HI Hl Ht. have HP := pool_inv_ok _ (ni_pool _ _ HI). apply wp_zoom.
  eapply wp_mono; [apply wp_total; [by apply init_block_ok|by apply tot_init]| |done]. intros o p [HO _]. split; [done|apply HO].
Qed.

(** * Allocating *)

(** The object [o] has a block of its own, which has room for tokens. *)
Record own_block (s : NaiveBlockAllocator) (o : nat) : Prop := {
  ob_block : ∃ id, bp_pool (npool s) !! o = Some {| nb_token_ids := []; nb_block_size := na_block_size s;
    nb_prev_block := nb_prev_block (default (blank_block 0) (bp_pool (npool s) !! o)); nb_block_id := Some id; nb_pool_id := Some o |} ∧
    na_refcounts s !! id = Some 1%Z;
}.
Lemma tot_mutable s prev : naive_good s → 0 < nfree s →
  wp (allocate_mutable_block prev) s (λ o s', Datatypes.S (nfree s') = nfree s ∧ own_block s' o ∧ na_block_size s' = na_block_size s) no_exn.
Proof.
  move=> [[HI Hs] Hl] Hf. rw /allocate_mutable_block. wp_step.
  eapply wp_mono; [apply wp_total; [by apply (wp_allocate_block_id [])|by apply (tot_take [])]| |done].
  intros id s1 [(HI1 & _ & _ & Hp1 & _) (Hf1 & _ & Hr1 & Hs1)]. wp_step. wp_step.
  eapply wp_mono; [apply (tot_new []); [done|by rw Hp1|simpl; lia]| |done].
  intros o s2 [-> Ho]. cbn [npool na_block_pool set_na_block_pool] in Ho. split_and!; [done| |done]. split. exists id.
  split; last done. cbn [npool na_block_pool set_na_block_pool na_block_size]. by rw Ho.
Qed.
(** Appending to a block that nobody shares. *)
Lemma tot_append s o b id toks : bp_pool (npool s) !! o = Some b → nb_block_id b = Some id → na_refcounts s !! id = Some 1%Z →
  length (nb_token_ids b) + length toks ≤ nb_block_size b →
  wp (append_token_ids o toks) s (λ _ s', free_block_indices s' = free_block_indices s) no_exn.
Proof.
  move=> Hb Hid Hr Hroom. rw /append_token_ids. wp_step. rw /the_block. wp_step. wp_step. rw Hb. wp_step. wp_step.
  have [b' [Hb' Hid']] : ∃ b', append_token_ids_no_cow toks b = Ok b' ∧ nb_block_id b' = Some id.
  { rw /append_token_ids_no_cow. case_bool_decide; first by eexists. rw /num_empty_slots.
    case_match eqn:E; [by eexists|]. apply Z.leb_gt in E. lia. }
  apply wp_lift; rw Hb'; last done. move=> b2 [= <-]. wp_step. apply (wp_upd_block _ _ _ _ _ b Hb). rw Hid'.
  set s1 := set_object o b' s. have Hb1 : bp_pool (npool s1) !! o = Some b' by rw /= list_lookup_insert_eq //; eapply lookup_lt_Some.
  wp_step. rw /cow_block_if_not_appendable. wp_step. rw /the_block. wp_step. wp_step. rw Hb1. wp_step. rw Hid'. wp_step.
  rw /is_appendable. wp_step. rw /the_block. wp_step. wp_step. rw Hb1. wp_step. rw Hid'. wp_step. apply (tot_ref_get _ _ 1%Z); first done.
  wp_step. wp_step; last done. wp_step. by apply (wp_upd_block _ _ _ _ _ b' Hb1).
Qed.
Lemma tot_ids l : ∀ ids s, naive_inv ids s → length l ≤ nfree s →
  wp (mfold l ids (λ ids (_ : list Z), id ← allocate_block_id; mret (ids ++ [id]))) s (λ _ s', nfree s' + length l = nfree s) no_exn.
Proof.
  elim: l => [|x l IH] ids s HI; cbn [mfold length]; first by move=> _; wp_step; lia.
  move=> Hf. wp_step. wp_step. eapply wp_mono; [apply wp_total; [by apply (wp_allocate_block_id ids)|apply (tot_take ids); [done|lia]]| |done].
  intros id s1 [(HI1 & _) (Hf1 & _)]. wp_step. eapply wp_mono; [apply IH| |done].
  - apply (naive_inv_held (id :: ids)); [by rw Permutation_app_comm|done].
  - lia.
  - move=> ids' s2 /=. lia.
Qed.
Lemma tot_attach bs (l : list (list Z * nat)) : ∀ acc s, naive_inv l.*2 s → 0 < length (bp_pool (npool s)) → Forall (λ x, length x.1 ≤ bs) l →
  wp (mfold l acc (λ '(prev_block, blocks) '(token_ids, id),
        o ← on_pool (init_block prev_block token_ids bs (Some id)); mret (Some o, blocks ++ [o]))) s
    (λ _ s', free_block_indices s' = free_block_indices s) no_exn.
Proof.
  elim: l => [|[toks id] l IH] [prev blocks] s HI Hl; cbn [mfold]; first by move=> _; wp_step.
  move=> /Forall_cons [Hlen HF]. cbn [fst] in Hlen. wp_step. wp_step.
  eapply wp_mono; [apply wp_total; [apply wp_and; [by apply (wp_naive_init l.*2)|apply keeps_pool_init]|by apply (tot_new l.*2)]| |done].
  intros o s1 [[(HI1 & _) Hk] [E _]]. wp_step. eapply wp_mono; [apply IH; [done|lia|done]| |done].
  move=> _ s2 ->. by rw E.
Qed.
Lemma tot_immutables s prev l : naive_good s → length l ≤ nfree s → Forall (λ x, length x ≤ na_block_size s) l →
  wp (allocate_immutable_blocks prev l) s (λ _ s', nfree s' + length l = nfree s) no_exn.
Proof.
  move=> [[HI Hs] Hl] Hf HF. rw /allocate_immutable_blocks. wp_step.
  eapply wp_mono; [apply wp_total; [by apply (wp_naive_ids l [])|by apply tot_ids]| |done].
  intros ids s1 [(HI1 & Hlen & Hp1 & Hs1) Hf1]. cbn [length] in Hlen. wp_step. wp_step. wp_step.
  eapply wp_mono; [apply (tot_attach (na_block_size s1) (zip l ids) (prev, []) s1)| |done].
  - by rw snd_zip //; lia.
  - by rw Hp1.
  - rw Hs1. apply Forall_lookup => i [x y] Hi. apply lookup_zip_with_Some in Hi as (x' & y' & [= <- <-] & Hx & _).
    by apply (proj1 (Forall_lookup _ _) HF i).
  - move=> [p bl] s2 E. wp_step. by rw E.
Qed.

(** * Forking *)
Lemma tot_fork_object prev acc o b id s : naive_inv [] s → 0 < length (bp_pool (npool s)) → tobj (npool s) o = Some b → nb_block_id b = Some id →
  length (nb_token_ids b) ≤ na_block_size s →
  wp (fork_block (prev, acc) o) s (λ _ s', free_block_indices s' = free_block_indices s) no_exn.
Proof.
  move=> HI Hl /tobj_Some [Hlv Hb] Hid Hlen. rw /fork_block. wp_step. rw /the_block. wp_step. wp_step. rw Hb. wp_step. rw Hid. wp_step.
  destruct (inv_known _ _ _ _ _ HI Hb Hid) as [Hpos Hall]. destruct (proj1 (ni_dom _ _ HI id) Hall) as [n Hn].
  have Hc := ni_count _ _ HI _ _ Hn. eapply wp_mono; [apply wp_total; [by apply (wp_ref_incr [] s id)|apply (tot_ref_incr s id n
    (λ m s', m = (n + 1)%Z ∧ free_block_indices s' = free_block_indices s)); [done|lia|done]]| |done].
  intros m s1 [(_ & HI1 & Hp1 & HF1) [-> Hf1]]. wp_step. wp_step; last by move: H => /negb_false_iff /Z.eqb_eq; lia.
  wp_step. wp_step. wp_step. eapply wp_mono; [apply (tot_new []); [done|by rw Hp1|by rw (sf_size _ _ HF1)]| |done].
  intros o' s2 [E _]. wp_step. by rw E.
Qed.
Lemma tot_forks os : ∀ prev fprev acc s toks ids, naive_inv [] s → 0 < length (bp_pool (npool s)) → chained (npool s) prev os toks ids →
  Forall (λ t, length t ≤ na_block_size s) toks →
  wp (mfold os (fprev, acc) fork_block) s (λ _ s', free_block_indices s' = free_block_indices s) no_exn.
Proof.
  elim: os => [|o os IH] prev fprev acc s [|t toks] [|id ids] HI Hl //; cbn [mfold].
  intros [(b & Hb & <- & Hp & Hid) Hc]. move=> /Forall_cons [Hlen HF]. wp_step.
  eapply wp_mono; [apply wp_total; [apply wp_and; [by apply (wp_naive_fork_object fprev acc o b id)|]|by apply (tot_fork_object fprev acc o b id)]| |done].
  { apply fork_object_keeps_pool. }
  intros r s1 [[(o' & -> & HI1 & Hs1 & Hf1 & Hu1 & Hc1) Hk] E].
  eapply wp_mono; [apply (IH (Some o) (Some o') (acc ++ [o']) s1 toks ids); [done|lia| |by rw Hs1]| |done].
  - apply (chained_untouched (npool s) _ [o']); try done. move=> y Hy /list_elem_of_singleton ?. subst y.
    destruct (chained_live _ _ _ _ _ _ Hc Hy) as [b' Hb']. destruct Hf1 as [_ Hf1]. move: Hf1 => /Forall_cons [Hf1 _]. congruence.
  - move=> r s2 ->. done.
Qed.
Lemma tot_fork s os o toks ids : naive_good s → NoDup (os ++ [o]) → chained (npool s) None (os ++ [o]) toks ids →
  Forall (λ t, length t ≤ na_block_size s) toks →
  wp (naive_fork o) s (λ _ s', free_block_indices s' = free_block_indices s) no_exn.
Proof.
  move=> [[HI Hs] Hl] Hnd Hc HF. rw /naive_fork. wp_step. wp_step. wp_step. rw {1}/wp (all_blocks_chain _ _ _ (chained_chain _ _ _ _ _ Hc)).
  { have := chained_fits _ _ _ _ _ Hnd Hc. lia. }
  wp_step. eapply wp_mono; [by apply (tot_forks (os ++ [o]) None None [] s toks ids)| |done]. intros [p os'] s1 E. by wp_step.
Qed.

(** * Tables *)
Abbreviation CGN := (CpuGpuBlockAllocator NaiveBlockAllocator).
Abbreviation gfree s := (length (free_block_indices (cg_gpu s))).
Abbreviation gsize s := (na_block_size (cg_gpu s)).
Lemma wp_on_gpu_total {A B} (m : M A B) (s : CpuGpuBlockAllocator A) Q : wp m (cg_gpu s) (λ r a, Q r (set_cg_gpu a s)) no_exn →
  wp (on_device GPU m) s Q no_exn.
Proof. apply wp_on_gpu. Qed.
Lemma tot_cg_immutables (s : CGN) prev l extra : naive_good (cg_gpu s) → length l ≤ gfree s → Forall (λ x, length x ≤ gsize s) l →
  wp (da_allocate_immutable_blocks (Obj <$> prev) l GPU extra) s (λ _ s', gfree s' + length l = gfree s) no_exn.
Proof.
  move=> HG Hf HF. rw /= /cg_allocate_immutable_blocks. wp_step. apply wp_on_gpu. eapply wp_mono; [by apply tot_immutables| |done].
  move=> os a H. by wp_step.
Qed.
Lemma tot_cg_mutable (s : CGN) prev extra : naive_good (cg_gpu s) → 0 < gfree s →
  wp (da_allocate_mutable_block (Obj <$> prev) GPU extra) s (λ r s', ∃ o, r = Obj o ∧ Datatypes.S (gfree s') = gfree s ∧ own_block (cg_gpu s') o ∧
    gsize s' = gsize s) no_exn.
Proof.
  move=> HG Hf. rw /= /cg_allocate_mutable_block. wp_step. apply wp_on_gpu. eapply wp_mono; [by apply tot_mutable| |done].
  intros o a H. wp_step. by exists o.
Qed.
Lemma tot_cg_append (s : CGN) o toks : own_block (cg_gpu s) o → length toks ≤ gsize s →
  wp (block_append_token_ids (Obj o) toks) s (λ _ s', gfree s' = gfree s) no_exn.
Proof.
  intros [(id & Hb & Hr)] Hlen. apply wp_on_gpu. eapply wp_mono; [by apply (tot_append _ o _ id toks Hb)| |done]. by move=> [] a /= ->.
Qed.
Definition needed (toks : list Z) (bs : nat) : nat := Z.to_nat (cdiv (Z.of_nat (length toks)) (Z.of_nat bs)).

Lemma layout_short bs n toks : Forall (λ t, length t ≤ bs) (layout bs n toks).
Proof.
  apply Forall_lookup => i c Hc. have Hi := lookup_lt_Some _ _ _ Hc. rw layout_length in Hi. rw layout_lookup // in Hc. injection Hc as <-.
  rw length_take. apply Nat.le_min_l.
Qed.

Lemma tot_allocate_blocks (s : CGN) t toks extra : tl_inv s → rooted (tl_pool s) → tb_block_size t = Z.of_nat (tl_size s) → toks ≠ [] →
  needed toks (gsize s) ≤ gfree s →
  wp (allocate_blocks_for_token_ids None toks GPU extra) (s, t) (λ _ st, gfree st.1 + needed toks (gsize s) = gfree s) no_exn.
Proof.
  move=> HI Hr Hsz Hne Hfree. pose proof (tl_size_pos s HI) as Hpos. rw /allocate_blocks_for_token_ids. wp_step. rw /the_table. wp_step. cbn [fst snd].
  rw Hsz Nat2Z.id. destruct (chunks_filtered (tl_size s) toks Hpos) as [-> ->]. set q := length toks / tl_size s.
  pose proof (Nat.div_mod_eq (length toks) (tl_size s)) as Hqr. rw -/q in Hqr.
  pose proof (Nat.mod_upper_bound (length toks) (tl_size s) ltac:(lia)) as Hm.
  have Hneed : needed toks (gsize s) = q + (if decide (length toks mod tl_size s = 0) then 0 else 1) by rw /needed Z_cdiv_nat.
  have HF : Forall (λ x, length x ≤ gsize s) (layout (tl_size s) q toks) by apply layout_short.
  wp_step.
  apply (wp_mono _ _ (λ r st, ∃ os, r = Obj <$> os ∧ tl_inv st.1 ∧ gsize st.1 = gsize s ∧ length os = q ∧ gfree st.1 + q = gfree s) _ no_exn); [| |done].
  { case_bool_decide as Hq.
    - wp_step. exists []. have Hq0 : q = 0 by move: Hq; rw /layout; destruct q. rw Hq0. split_and!; cbn; done || lia.
    - apply wp_on_allocator. eapply wp_mono; [apply wp_total; [by apply (law_immutables s None)|apply (tot_cg_immutables s None); [exact HI| |]]| |done].
      + rw layout_length. lia.
      + done.
      + intros r s1 [(os & ids & -> & HI1 & Hs1 & Hf1 & Hu1 & Hc1) Hfr]. exists os. rw layout_length in Hfr.
        have [Hl1 _] := chained_length _ _ _ _ _ Hc1. rw layout_length in Hl1. by split_and!. }
  intros r [s1 t1] (os & -> & HI1 & Hs1 & Hlos & Hfr1). cbn [fst snd] in *.
  wp_step. apply (wp_mono _ _ (λ r st, (∃ prev, r = Obj <$> prev) ∧ st = (s1, t1)) _ no_exn); [| |done].
  { case_bool_decide as Hq; wp_step; try (split; [|done]).
    - by exists None.
    - rw fmap_last in Heqo. destruct (last os) as [x|]; last done. exists (Some x). by rw -Heqo.
    - exfalso. rw fmap_last in Heqo. destruct (last os) as [x|] eqn:Ex; first done. apply last_None in Ex. subst os. apply Hq.
      simpl in Hlos. by rw -Hlos. }
  intros prev st [[p ->] ->]. case_decide as Hmod.
  - wp_step. cbn [fst]. lia.
  - wp_step. wp_step; last done. wp_step. apply wp_on_allocator.
    eapply wp_mono; [apply (tot_cg_mutable s1 p); [exact HI1|lia]| |done]. intros r s2 (o & -> & Hfr2 & Hob & Hs2). wp_step. apply wp_on_allocator.
    eapply wp_mono; [apply (tot_cg_append s2 o); [done|]| |done].
    + rw Hs2 Hs1 length_drop. change (tl_size s) with (gsize s) in *. lia.
    + intros [] s3 E. wp_step. cbn [fst]. lia.
Qed.
(** The table is allocated when there are enough blocks. *)
Lemma tot_table_allocate (s : CGN) t toks extra : tl_inv s → rooted (tl_pool s) → tb_block_size t = Z.of_nat (tl_size s) →
  bl_blocks (tb_blocks t) = [] → toks ≠ [] → needed toks (gsize s) ≤ gfree s →
  wp (table_allocate toks GPU extra) (s, t) (λ _ st, gfree st.1 + needed toks (gsize s) = gfree s) no_exn.
Proof.
  move=> HI Hr Hsz Hemp Hne Hfree. rw /table_allocate. wp_step. rw /the_table. wp_step. wp_step. cbn [snd]. rw /is_allocated /tb_len Hemp.
  wp_step; last done. wp_step. wp_step; last by rw bool_decide_eq_false_2 in H0. wp_step.
  eapply wp_mono; [apply wp_total; [by apply (wp_allocate_blocks s t toks extra)|by apply tot_allocate_blocks]| |done].
  intros r [s1 t1] [(os & ids & -> & HI1 & Hs1 & Hr1 & Hu1 & Hf1 & Ht1 & Hroom & Hos & Hc1) Hfr]. cbn [fst snd] in *.
  wp_step. rw /table_update. wp_step. apply wp_on_allocator. rw {1}/wp (block_list_update_ok _ _ _ _ _ Hc1). rw /on_table.
  wp_step. wp_step. by wp_step.
Qed.
(** A fork takes no blocks. *)
Lemma tot_table_fork (s : CGN) t os toks : tl_inv s → rooted (tl_pool s) → table_ok s t os toks → os ≠ [] →
  wp table_fork (s, t) (λ _ st, gfree st.1 = gfree s) no_exn.
Proof.
  move=> HI Hr [T1 T2 T3 T4] Hne. rw /table_fork. wp_step. rw /the_table. wp_step. wp_step. cbn [fst snd].
  have Hlen : (0 < tb_len t)%Z by rw /tb_len (ld_blocks _ _ _ _ _ T3) length_fmap; destruct os; [|simpl; lia].
  wp_step; last by move: H; rw /is_allocated => /Z.ltb_ge; lia. 
  rw (ld_blocks _ _ _ _ _ T3) fmap_last. have Hnd := ld_nodup _ _ _ _ _ T3. have Hc := ld_chain _ _ _ _ _ T3.
  destruct (last os) as [o|] eqn:Elast; last by apply last_None in Elast. apply last_Some in Elast. destruct Elast as [os0 ->].
  cbn [fmap option_fmap option_map]. wp_step. apply wp_on_allocator.
  have Htot : wp (da_fork (Obj o)) s (λ _ s', gfree s' = gfree s) no_exn.
  { rw /= /cg_fork. wp_step. destruct (chained_live _ _ _ _ _ o Hc) as [b Hb]; first by apply elem_of_app; right; left.
    rw {1}/wp (cg_block_ok s o b Hb).
    destruct (chained_split _ _ _ _ _ _ Hc) as [_ Hlast]. set tt := drop _ (layout _ _ _) in Hlast. set ii := drop _ (bl_block_ids _) in Hlast.
    destruct tt as [|? []], ii as [|id []]; try (by destruct Hlast). destruct Hlast as [(b' & Hb' & _ & _ & Hid) _].
    rw Hb in Hb'. injection Hb' as <-. rw Hid. wp_step. wp_step. wp_step. apply (wp_device_of s o b id); [exact HI|exact Hb|done|].
    wp_step. apply wp_on_gpu. eapply wp_mono; [apply (tot_fork (cg_gpu s) os0 o _ _ HI Hnd Hc), layout_short| |done].
    intros os' a E. wp_step. by rw /= E. }
  eapply wp_mono; [apply wp_total; [by apply (law_fork s os0 o _ _ HI Hr Hnd Hc)|exact Htot]| |done].
  intros r s1 [(os' & -> & HI1 & Hs1 & Hf1 & Hu1 & Hc1) E]. apply wp_on_allocator.
  rw /block_table_init /wp /mbind /M_bind (block_list_update_ok _ _ _ _ _ Hc1) /get_num_token_ids (num_token_ids_ok _ _ _ _ _ 0%Z Hc1). done.
Qed.

(** * [can_allocate] and [allocate] agree *)

Section total.
Context (pair_hash : Z * Z → Z) (py_hash : bool * option Z * list Z * option Z → Z).
Abbreviation NMgr := (SelfAttnBlockSpaceManager CGN).
Abbreviation bfree b := (gfree (bm_allocator b)).
Abbreviation bsize b := (gsize (bm_allocator b)).
Implicit Types b : NMgr.

Lemma tot_on_a_table {B} t (m : M (CGN * BlockTable) B) b Q :
  wp m (bm_allocator b, t) (λ r st, Q (r, st.2) (set_bm_allocator st.1 b)) no_exn → wp (on_a_table t m) b Q no_exn.
Proof. apply wp_on_a_table. Qed.
Lemma tot_allocate_sequence b held os s : owns b held os → needed (seq_token_ids s) (bsize b) ≤ bfree b →
  wp (allocate_sequence pair_hash s) b (λ _ b', bfree b' + needed (seq_token_ids s) (bsize b) = bfree b) no_exn.
Proof.
  move=> HO Hfree. have HI := ow_inv _ _ _ HO. have [A1 A2 _ _ _] := ow_tidy _ _ _ HO. rw /allocate_sequence. wp_step. wp_step. wp_step.
  apply wp_on_alloc. set t0 := {| tb_block_size := bm_block_size b; tb_blocks := block_list_empty;
    tb_max_block_sliding_window := bm_max_block_sliding_window b; tb_num_full_slots := 0 |}.
  apply (wp_mono _ _ (λ t s', t = t0 ∧ s' = bm_allocator b) _ no_exn); [done| |done]. move=> t s' [-> ->]. rw set_bm_allocator_id.
  case_bool_decide as Hs.
  - wp_step. rw /needed Hs. have -> : cdiv (Z.of_nat 0) (Z.of_nat (bsize b)) = 0%Z by rw /cdiv; cbn; rw Z.div_0_l //; have := tl_size_pos _ HI; cbn; lia.
    lia.
  - wp_step. apply tot_on_a_table. eapply wp_mono; [apply (tot_table_allocate (bm_allocator b) t0); [done|by eapply owns_rooted|done|done|done|done]| |done].
    intros [] [s1 t1] E. cbn [fst snd] in E. by wp_step.
Qed.
Lemma tot_fork_all l : ∀ b held os id t toks, owns b held os → accessed b → dget (bm_block_tables b) id = Some t →
  held !! inl id = Some toks → toks ≠ [] → NoDup (sq_seq_id <$> l) → Forall (λ s, dget (bm_block_tables b) (sq_seq_id s) = None) l →
  wp (mfor l (λ s', '(child, _) ← on_a_table t table_fork;
        mmodify (λ b, set_bm_block_tables (dset (bm_block_tables b) (sq_seq_id s') child) b);;;
        on_last_access (last_access_add_seq (sq_seq_id s')))) b
    (λ _ b', bfree b' = bfree b ∧ bsize b' = bsize b ∧ bm_cross_block_tables b' = bm_cross_block_tables b ∧
       bm_enable_caching b' = bm_enable_caching b) no_exn.
Proof.
  elim: l => [|s l IH] b held os id t toks HO Hacc Et Eh Hne; cbn [mfor fmap list_fmap]; first by move=> _ _; wp_step.
  move=> /NoDup_cons [Hn Hnd] /Forall_cons [Hs HF].
  wp_step. wp_step. apply tot_on_a_table. have Ht := ow_table _ _ _ HO (inl id). cbn [table_at] in Ht. rw Et Eh in Ht.
  have Hos : os (inl id) ≠ [].
  { move=> E. have := ld_room _ _ _ _ _ (tk_laid _ _ _ _ Ht). rw E /=. by destruct toks; [|simpl; lia]. }
  eapply wp_mono; [apply wp_total; [apply (wp_table_fork _ _ (os (inl id)) toks); [apply HO|by eapply owns_rooted|done]|
    apply (tot_table_fork _ _ (os (inl id)) toks); [apply HO|by eapply owns_rooted|done|done]]| |done].
  intros t' [s1 t1] [(os' & HI1 & Hs1 & Hr1 & Hu1 & Hf1 & _ & _ & HT1 & _) Hfr]. cbn [fst snd] in *.
  apply (wp_enter_table pair_hash py_hash b held os (sq_seq_id s) s1 t' os' toks); try done. intros b' HO' Hacc' Htab Hal Hcr Hec.
  have Hid : id ≠ sq_seq_id s by move=> E; rw E Hs in Et.
  eapply wp_mono; [apply (IH b' _ (updated os (inl (sq_seq_id s)) os') id t toks HO' Hacc'); try done| |done].
  - by rw Htab dget_dset_ne.
  - rw lookup_insert_ne //. by move=> [= ?].
  - rw Forall_forall in HF. apply Forall_forall => x Hx. rw Htab dget_dset_ne; last by apply HF. move=> E. apply Hn, list_elem_of_fmap. by exists x.
  - intros _ b2 (H1 & H2 & H3 & H4). rw Hal in H1 H2. split_and!; [congruence| |congruence|congruence]. rw H2. exact Hs1.
Qed.

(** What an admitted group asks for is free. *)
Lemma can_allocate_enough b held os g n waiting b1 : owns b held os → (0 ≤ n)%Z → (0 ≤ bm_watermark_blocks b)%Z →
  seqs_of SEQ_WAITING g = Ok waiting → bm_can_allocate g n b = Ok (ALLOC_OK, b1) →
  ∃ s0 rest, waiting = s0 :: rest ∧ check_no_caching_or_swa g b = Ok tt ∧
    needed (seq_token_ids s0) (bsize b) + match sg_encoder_seq g with Some e => needed (seq_token_ids e) (bsize b) | None => 0 end ≤ bfree b.
Proof.
  move=> HO Hn0 Hw Hwait. have HI := ow_inv _ _ _ HO. have [A1 A2 _ _ _] := ow_tidy _ _ _ HO.
  have Hpos := tl_size_pos _ HI. change (tl_size _) with (bsize b) in A1. change (tl_size _) with (bsize b) in Hpos.
  rw /bm_can_allocate /mbind /M_bind /mget /mlift Hwait. destruct (check_no_caching_or_swa g b) as [[]|] eqn:Ec; last done.
  destruct waiting as [|s0 rest]; first done. cbn [first_of]. rw A2. move=> [= Hif _]. exists s0, rest. split_and!; [done|done|].
  have Hcd : ∀ x y, (0 ≤ x)%Z → (x ≤ y)%Z → (0 ≤ cdiv x (Z.of_nat (bsize b)) ≤ cdiv y (Z.of_nat (bsize b)))%Z.
  { move=> x y H0 Hxy. have H1 := cdiv_spec x (Z.of_nat (bsize b)) ltac:(lia). have H2 := cdiv_spec y (Z.of_nat (bsize b)) ltac:(lia). nia. }
  move: Hif. destruct (_ <? _)%Z; first done. destruct (_ <=? _)%Z eqn:Eok; last done. move=> _. apply Z.leb_le in Eok. move: Eok.
  cbn [da_get_num_free_blocks cpu_gpu_allocator device_allocator ba_get_num_free_blocks naive_block_allocator na_get_num_free_blocks].
  rw /get_num_required_blocks /needed /na_get_num_free_blocks A1. have := Hcd (Z.of_nat (length (seq_token_ids s0))) (Z.of_nat (length (seq_token_ids s0)) + n)%Z ltac:(lia) ltac:(lia).
  destruct (sg_encoder_seq g) as [e|]; rw ?Z.add_0_r; [have := Hcd (Z.of_nat (length (seq_token_ids e))) (Z.of_nat (length (seq_token_ids e))) ltac:(lia) ltac:(lia)|]; lia.
Qed.

(** C32: Without prefix caching and sliding windows, [can_allocate] promises only
    what [allocate] can keep, if the watermark and the lookahead are not negative:
    if it answers [OK] for a group whose waiting sequences are different, have
    tokens and have no tables yet, and which has no cross-attention table,
    [allocate] returns, whatever the number of waiting sequences,
    lookahead slots and encoder tokens, and whatever run without swaps and
    negative lookaheads ([mgr_reach]) came before. *)
Theorem can_allocate_sound b held g n waiting b1 : mgr_reach pair_hash py_hash b held →
  (0 ≤ n)%Z → (0 ≤ bm_watermark_blocks b)%Z → seqs_of SEQ_WAITING g = Ok waiting → NoDup (sq_seq_id <$> waiting) →
  Forall (λ s, dget (bm_block_tables b) (sq_seq_id s) = None) waiting →
  dget (bm_cross_block_tables b) (sg_request_id g) = None →
  (∀ s, head waiting = Some s → seq_token_ids s ≠ []) →
  bm_can_allocate g n b = Ok (ALLOC_OK, b1) → ∃ b', bm_allocate pair_hash g b = Ok (tt, b').
Proof.
  move=> /mgr_reach_represents [[os HO] Hacc] Hn0 Hw Hwait Hnd Hnew Hcross Hne Hcan.
  have [A1 A2 _ _ _] := ow_tidy _ _ _ HO.
  destruct (can_allocate_enough b held os g n waiting b1 HO Hn0 Hw Hwait Hcan) as (s0 & rest & -> & Hchk & Henough).
  destruct (wp_returns (bm_allocate pair_hash g) b (λ _ _, True)) as ([] & b' & Hb & _); last by exists b'.
  have Hfresh : forallb (λ s, negb (dmem (bm_block_tables b) (sq_seq_id s))) (s0 :: rest) = true.
  { apply forallb_forall => x /list_elem_of_In Hx. rw Forall_forall in Hnew. by rw /dmem Hnew. }
  move: Hnd Hnew => /NoDup_cons [Hs0 Hnd] /Forall_cons [Hnew0 Hnew]. have Hne0 := Hne s0 eq_refl.
  (* the run *)
  rw /bm_allocate. wp_step. apply wp_lift; rw Hwait; last done. move=> l [= <-]. wp_step. wp_step. wp_step. wp_step; last by rw Hfresh in H.
  wp_step. cbn [first_of]. apply wp_lift; last done. move=> s [= <-]. wp_step.
  eapply wp_mono; [apply wp_total; [by apply (wp_allocate_sequence pair_hash b held os)|apply (tot_allocate_sequence b held os); [done|lia]]| |done].
  intros t b2 [(news & s' & -> & HI1 & Hs1 & Hu1 & Hf1 & HT1) Hfr1].
  apply wp_seq_assoc. wp_step. apply (wp_enter_table pair_hash py_hash b held os (sq_seq_id s0) s' t news (seq_token_ids s0)); try done.
  intros b3 HO3 Hacc3 Htab3 Hal3 Hcr3 Hec3. wp_step.
  eapply wp_mono; [apply wp_total; [apply (wp_fork_all pair_hash py_hash rest b3 _ _ (sq_seq_id s0) t (seq_token_ids s0) HO3 Hacc3)|
    apply (tot_fork_all rest b3 _ _ (sq_seq_id s0) t (seq_token_ids s0) HO3 Hacc3)]| |done]; try done.
  - by rw Htab3 dget_dset_eq.
  - by rw lookup_insert_eq.
  - by rw Htab3 dget_dset_eq.
  - by rw lookup_insert_eq.
  - rw Forall_forall in Hnew. apply Forall_forall => x Hx. rw Htab3 dget_dset_ne; last by apply Hnew.
    move=> E. apply Hs0, list_elem_of_fmap. by exists x.
  - intros [] b4 [[[os4 HO4] Hacc4] (Hfr4 & Hs4 & Hcr4 & Hec4)].
    wp_step. wp_step. wp_step. wp_step; last by move: H0; rw /dmem Hcr4 Hcr3 Hcross.
    wp_step. have Hchk4 : check_no_caching_or_swa g b4 = Ok tt.
    { move: Hchk. rw /check_no_caching_or_swa (ti_window _ (ow_tidy _ _ _ HO4)) A2 Hec4 Hec3. done. }
    apply wp_lift; rw Hchk4; last done. move=> [] _. destruct (sg_encoder_seq g) as [e|]; last by wp_step.
    have Hsz : bsize b4 = bsize b by rw Hs4 Hal3; exact Hs1.
    wp_step. eapply wp_mono; [apply (tot_allocate_sequence b4 _ os4 e HO4)| |done].
    + rw Hfr4 Hsz Hal3. cbn [bm_allocator set_bm_allocator] in Hfr1. lia.
    + move=> t4 b5 _. by wp_step.
Qed.
End total.
