(* ===== verification/ManagerDemos.v ===== *)
(** Block managers as the code creates them, small runs of them, and the
    properties of the manager applied to those runs. *)
From Stdlib Require Import ssreflect ZArith Lia PrimFloat.
From stdpp Require Import base numbers list gmap strings.
From S2P Require Import Prelude Detokenizer SequenceData Sequences NaiveBlocks NaiveTheorems Evictor CacheMetric PrefixCaching PrefixBooks.
From S2P Require Import PrefixHash PrefixOps PrefixInv PrefixAlloc PrefixTheorems BlockTable CpuGpu BlockManager TableLaws TableOps TableInst PrefixTables.
From S2P Require Import ManagerInv ManagerTheorems AllocTheorems.

(** * Creation *)
Lemma pool_init_dead bs n o : tobj (pool_init bs n) o = None.
Proof.
  apply tobj_None. rw /live /pool_init /= length_replicate elem_of_seq. lia.
Qed.
Lemma cpu_gpu_create_ok {A} {BA : BlockAllocator A} make ng nc bs a : cpu_gpu_create make ng nc bs = Ok a →
  ∃ gpu l, make ng bs (Some l) = Ok gpu ∧ NoDup l ∧ cg_gpu a = gpu.
Proof.
  rw /cpu_gpu_create. destruct (make ng bs _) as [gpu|] eqn:Eg; last done. cbn. destruct (make nc bs _) as [cpu|]; last done. cbn.
  rw /cpu_gpu_init. case_bool_decide; last done. move=> [= <-]. exists gpu. eexists. split_and!; [exact Eg| |done].
  eapply sublist_NoDup; [apply NoDup_seq|]. apply sublist_take.
Qed.
Lemma create_naive ng nc bs a : 0 < ng → 0 < bs → cpu_gpu_create naive_init ng nc bs = Ok a →
  tl_inv a ∧ (∀ o, tobj (tl_pool a) o = None) ∧ tl_size a = bs.
Proof.
  move=> Hng Hbs /cpu_gpu_create_ok [gpu [l [Hm [Hnd Ha]]]]. rw /= Ha.
  have HI : naive_inv [] gpu by apply (naive_inv_init ng bs (Some l)); [move=> l' [= <-]|].
  move: Hm. rw /naive_init. case_bool_decide; last done. move=> [= Hg]. rw -Hg. split_and!; [|apply pool_init_dead|done].
  split; [split; [by rw Hg|done]|]. rw /pool_init /= length_replicate. lia.
Qed.
Lemma create_prefix py_hash ng nc bs a : 0 < bs →
  @cpu_gpu_create _ (prefix_block_allocator py_hash) prefix_caching_init ng nc bs = Ok a →
  pc_reach py_hash (cg_gpu a) ∧ (∀ o, tobj (pool (cg_gpu a)) o = None) ∧ na_block_size (pa_hashless (cg_gpu a)) = bs.
Proof.
  move=> Hbs /cpu_gpu_create_ok [gpu [l [Hm [Hnd Ha]]]]. rw Ha.
  have HR : pc_reach py_hash gpu by apply (pr_init _ ng bs (Some l)); [done|move=> l' [= <-]|].
  move: Hm. rw /prefix_caching_init /naive_init. case_bool_decide; last done. move=> [= Hg]. rw -Hg. split_and!; [by rw Hg|apply pool_init_dead|done].
Qed.

(** * Runs *)
Definition demo_pair_hash (x : Z * Z) : Z := (x.1 * 1000 + x.2)%Z.
Definition demo_seq (id : Z) (toks : list Z) (status : SequenceStatus) : result Sequence :=
  s ← sequence_init id None toks 2 None None None; mret (set_sq_status status s).
Definition demo_group (rid : string) (seqs : list Sequence) : result SequenceGroup := sequence_group_init rid seqs 0 None None 0 None.
Definition state {S A} (d : S) (r : result (A * S)) : S := match r with Ok (_, s) => s | Raise _ => d end.
Definition value {A} (d : A) (r : result A) : A := match r with Ok a => a | Raise _ => d end.

Definition seq0 : Sequence := {| sq_seq_id := 0; sq_prompt := None; sq_prompt_token_ids := []; sq_block_size := 2; sq_eos_token_id := None;
  sq_lora_request := None; sq_prompt_adapter_request := None; sq_data := sequence_data [] []; sq_output_logprobs := []; sq_output_text := [];
  sq_status := SEQ_WAITING; sq_stop_reason := None; sq_last_output_token_ids_offset := 0; sq_last_output_text_offset := 0;
  sq_prefix_offset := 0; sq_read_offset := 0; sq_tokens := None |}.
Definition seq_1 : Sequence := value seq0 (demo_seq 1 [1; 2; 3]%Z SEQ_WAITING).
Definition seq_2 : Sequence := seq_fork 2 seq_1.
Definition seq_2' : Sequence := value seq0 (demo_seq 2 [1; 2; 3; 9; 8]%Z SEQ_RUNNING).
Definition group0 : SequenceGroup := {| sg_request_id := ""; sg_seqs := []; sg_sampling_params := None;
  sg_metrics := {| rm_arrival_time := 0; rm_last_token_time := 0; rm_first_scheduled_time := None; rm_first_token_time := None;
                   rm_time_in_queue := None; rm_finished_time := None; rm_scheduler_time := None |};
  sg_state := default_group_state; sg_encoder_seq := None; sg_priority := 0; sg_lora_request := None |}.
Definition group_1 : SequenceGroup := value group0 (demo_group "a" [seq_1]).

(** ** Without caching: a sequence, a fork of it that grows, and the end of the
    first *)
Abbreviation NaiveMgr := (SelfAttnBlockSpaceManager (CpuGpuBlockAllocator NaiveBlockAllocator)).
Abbreviation PrefixMgr := (SelfAttnBlockSpaceManager (CpuGpuBlockAllocator PrefixCachingBlockAllocator)).
Definition mgr_of {S} (d : S) (r : result (SelfAttnBlockSpaceManager S)) : SelfAttnBlockSpaceManager S :=
  value {| bm_block_size := 0; bm_num_total_gpu_blocks := 0; bm_num_total_cpu_blocks := 0; bm_sliding_window := None;
           bm_max_block_sliding_window := None; bm_enable_caching := false; bm_watermark_blocks := 0; bm_allocator := d;
           bm_block_tables := []; bm_cross_block_tables := []; bm_computed_tracker := computed_tracker_init; bm_last_access := [] |} r.
Definition naive_pair : CpuGpuBlockAllocator NaiveBlockAllocator :=
  value {| cg_gpu := inhabitant; cg_cpu := inhabitant; cg_swap_mapping := []; cg_null_block := None |} (cpu_gpu_create naive_init 6 2 2).
Definition naive_0 : NaiveMgr := mgr_of naive_pair (block_manager_init (Ok naive_pair) 2 6 2 0.25%float None false).
Definition naive_1 : NaiveMgr := state naive_0 (bm_allocate demo_pair_hash group_1 naive_0).
Definition naive_2 : NaiveMgr := state naive_1 (bm_fork seq_1 seq_2 naive_1).
Definition naive_3 : NaiveMgr := state naive_2 (bm_append_slots demo_pair_hash seq_2' 0 naive_2).
Definition naive_4 : NaiveMgr := state naive_3 (bm_free seq_1 naive_3).
Definition naive_held : Held := delete (inl 1%Z) (appended seq_2' (forked_held 1 2 (allocated group_1 ∅))).
Lemma naive_4_reach : mgr_reach demo_pair_hash demo_hash naive_4 naive_held.
Proof.
  apply (mr_free _ _ naive_3 _ seq_1); [|vm_compute; reflexivity].
  eapply (mr_append _ _ naive_2 _ seq_2' 0); [|done|vm_compute; reflexivity].
  apply (mr_fork _ _ naive_1 _ seq_1 seq_2); [|vm_compute; reflexivity].
  apply (mr_allocate _ _ naive_0 _ group_1); [|vm_compute; reflexivity].
  destruct (create_naive 6 2 2 naive_pair) as (H1 & H2 & H3); [lia|lia|vm_compute; reflexivity|].
  by apply (mr_init _ _ naive_pair 2 6 2 0.25%float false).
Qed.
Lemma manager_holds_tokens_witness :
  dom naive_held = {[inl 2%Z]} ∧ table_at naive_4 (inl 1%Z) = None ∧
  ∃ os : list nat, chained (tl_pool (bm_allocator naive_4)) None os (layout 2 (length os) [1; 2; 3; 9; 8]%Z) [0; 3; 2].
Proof.
  split_and!; [vm_compute; reflexivity..|].
  destruct (manager_holds_tokens demo_pair_hash demo_hash naive_4 naive_held naive_4_reach) as (os & H & _).
  exists (os (inl 2%Z)). specialize (H (inl 2%Z)).
  assert (E1 : table_at naive_4 (inl 2%Z) = Some {| tb_block_size := 2; tb_blocks := {| bl_blocks := [Obj 2; Obj 3; Obj 4];
    bl_block_ids := [0; 3; 2] |}; tb_max_block_sliding_window := None; tb_num_full_slots := 5 |}) by (vm_compute; reflexivity).
  assert (E2 : naive_held !! inl 2%Z = Some [1; 2; 3; 9; 8]%Z) by (vm_compute; reflexivity).
  rw E1 E2 in H. destruct H as (_ & H & _). exact H.
Defined.
Lemma manager_free_blocks_witness : 1 ∈ free_block_indices (cg_gpu (bm_allocator naive_4)) ∧ 3 ∉ free_block_indices (cg_gpu (bm_allocator naive_4)).
Proof.
  pose proof (manager_free_blocks demo_pair_hash demo_hash naive_4 naive_held naive_4_reach) as H. split.
  - apply (bool_decide_unpack _). vm_compute. exact I.
  - intros Hf. apply H in Hf as [_ Hf]. eapply (Hf (inl 2%Z)); [vm_compute; reflexivity|]. apply (bool_decide_unpack _). vm_compute. exact I.
Defined.

(** ** With caching: two sequences with a common prefix *)
Definition seq_3 : Sequence := value seq0 (demo_seq 3 [1; 2; 5]%Z SEQ_WAITING).
Definition group_3 : SequenceGroup := value group0 (demo_group "b" [seq_3]).
#[local] Instance demo_caching : BlockAllocator PrefixCachingBlockAllocator := prefix_block_allocator demo_hash.
Definition prefix_pair : CpuGpuBlockAllocator PrefixCachingBlockAllocator :=
  value {| cg_gpu := inhabitant; cg_cpu := inhabitant; cg_swap_mapping := []; cg_null_block := None |} (cpu_gpu_create prefix_caching_init 6 2 2).
Definition prefix_0 : PrefixMgr := mgr_of prefix_pair (block_manager_init (Ok prefix_pair) 2 6 2 0.25%float None true).
Definition prefix_1 : PrefixMgr := state prefix_0 (bm_allocate demo_pair_hash group_1 prefix_0).
Definition prefix_2 : PrefixMgr := state prefix_1 (bm_allocate demo_pair_hash group_3 prefix_1).
Definition prefix_held : Held := allocated group_3 (allocated group_1 ∅).
#[local] Existing Instance prefix_laws.
Lemma prefix_2_reach : mgr_reach demo_pair_hash demo_hash prefix_2 prefix_held.
Proof.
  apply (mr_allocate _ _ prefix_1 _ group_3); [|vm_compute; reflexivity].
  apply (mr_allocate _ _ prefix_0 _ group_1); [|vm_compute; reflexivity].
  destruct (create_prefix demo_hash 6 2 2 prefix_pair) as (H1 & H2 & H3); [lia|vm_compute; reflexivity|].
  apply (mr_init _ _ prefix_pair 2 6 2 0.25%float true); [exact H1|exact H2|by rw /= H3|vm_compute; reflexivity].
Qed.
Definition table_ids {S} (b : SelfAttnBlockSpaceManager S) (id : Z) : list nat :=
  match dget (bm_block_tables b) id with Some t => physical_block_ids t | None => [] end.
Definition table_of {S} (b : SelfAttnBlockSpaceManager S) (id : Z) : BlockTable :=
  match dget (bm_block_tables b) id with
  | Some t => t
  | None => {| tb_block_size := 0; tb_blocks := block_list_empty; tb_max_block_sliding_window := None; tb_num_full_slots := 0 |}
  end.
Lemma shared_tables_same_tokens_witness :
  table_ids prefix_2 1 = [0; 1] ∧ table_ids prefix_2 3 = [0; 2] ∧ take 2 [1; 2; 3]%Z = take 2 [1; 2; 5]%Z.
Proof.
  split_and!; [vm_compute; reflexivity..|].
  eassert (H : _ ∧ (_ ∧ _ ∨ _)).
  { apply (shared_tables_same_tokens demo_pair_hash demo_hash prefix_2 prefix_held (inl 1%Z) (inl 3%Z) (table_of prefix_2 1) (table_of prefix_2 3)
      [1; 2; 3]%Z [1; 2; 5]%Z 0 0 0); [exact prefix_2_reach|vm_compute; reflexivity..|vm_compute; lia]. }
  destruct H as (_ & [(_ & H)|H]); last destruct (PrefixTheorems.no_collision demo_hash _ demo_hash_inj H).
  assert (E : na_block_size (pa_hashless (cg_gpu (bm_allocator prefix_2))) = 2) by (vm_compute; reflexivity).
  rw E in H. exact H.
Defined.

(** ** The tracker *)
Definition tracker_1 : ComputedBlocksTracker :=
  state computed_tracker_init (update_seq_hashes demo_hash demo_pair_hash true 2 seq_1 computed_tracker_init).
Definition seq_1' : Sequence := value seq0 (demo_seq 1 [1; 2; 3; 4; 5]%Z SEQ_RUNNING).
Lemma tracker_hashes_from_scratch_witness :
  dget (seq_id_to_blocks_hashes tracker_1) 1%Z = Some (hashes_of demo_hash 2 None [1; 2; 3]%Z) ∧
  dget (seq_id_to_blocks_hashes (state tracker_1 (update_seq_hashes demo_hash demo_pair_hash true 2 seq_1' tracker_1))) 1%Z =
    Some (hashes_of demo_hash 2 None [1; 2; 3; 4; 5]%Z).
Proof.
  split; [vm_compute; reflexivity|].
  destruct (tracker_hashes_from_scratch demo_hash demo_pair_hash 2 seq_1' tracker_1 [1; 2; 3]%Z) as (t' & Ht & Hd & _).
  - lia.
  - exists [4; 5]%Z. vm_compute. reflexivity.
  - vm_compute. reflexivity.
  - rw Ht. exact Hd.
Defined.
Lemma tracker_hash_finds_block_witness :
  let s := cg_gpu (bm_allocator prefix_2) in
  ∃ h, hashes_of demo_hash 2 None [1; 2; 5]%Z !! 0 = Some h ∧ pa_cached_blocks s !! h = Some 0.
Proof.
  intros s. exists (demo_hash (true, None, [1; 2]%Z, None)). split; [vm_compute; reflexivity|].
  assert (E : na_block_size (pa_hashless s) = 2) by (vm_compute; reflexivity).
  assert (Hc : chained (pool s) None [2; 3] (layout 2 2 [1; 2; 5]%Z) [0; 2]).
  { split; [|split; [|exact I]]; (eexists; split; [vm_compute; reflexivity|split_and!; vm_compute; reflexivity]). }
  eassert (H : _ ∧ _).
  { apply (tracker_hash_finds_block demo_hash s [2; 3] [1; 2; 5]%Z [0; 2] None 0 2 (demo_hash (true, None, [1; 2]%Z, None))).
    - exact (mgr_reach_allocator demo_pair_hash demo_hash prefix_2 prefix_held prefix_2_reach).
    - rw E. exact Hc.
    - intros y Hy. apply elem_of_cons in Hy as [->|Hy]; [vm_compute; reflexivity|].
      apply list_elem_of_singleton in Hy as ->. vm_compute. reflexivity.
    - reflexivity.
    - rw E. apply Nat.leb_le. reflexivity.
    - rw E. vm_compute. reflexivity. }
  destruct H as (_ & id & Hid & Hk). injection Hid as <-. exact Hk.
Defined.

(** ** Admission *)
Lemma can_allocate_sound_witness :
  bm_can_allocate group_1 0 naive_0 = Ok (ALLOC_OK, naive_0) ∧ ∃ b', bm_allocate demo_pair_hash group_1 naive_0 = Ok (tt, b').
Proof.
  assert (H : bm_can_allocate group_1 0 naive_0 = Ok (ALLOC_OK, naive_0)) by (vm_compute; reflexivity). split; [exact H|].
  apply (can_allocate_sound demo_pair_hash demo_hash naive_0 ∅ group_1 0 [seq_1] naive_0).
  - destruct (create_naive 6 2 2 naive_pair) as (H1 & H2 & H3); [lia|lia|vm_compute; reflexivity|].
    by apply (mr_init _ _ naive_pair 2 6 2 0.25%float false).
  - reflexivity.
  - apply Z.leb_le. vm_compute. reflexivity.
  - vm_compute. reflexivity.
  - apply NoDup_singleton.
  - apply Forall_singleton. vm_compute. reflexivity.
  - vm_compute. reflexivity.
  - intros s [= <-]. vm_compute. discriminate.
  - exact H.
Defined.

(** * Defects *)

(** The check caps the demand by the window, the allocation does not: the check
    answers [OK] and the allocation raises. *)
Definition long_seq : Sequence := value seq0 (demo_seq 1 [1; 2; 3; 4; 5; 6; 7; 8; 9; 10]%Z SEQ_WAITING).
Definition long_group : SequenceGroup := value group0 (demo_group "a" [long_seq]).
Definition window_pair : CpuGpuBlockAllocator NaiveBlockAllocator :=
  value {| cg_gpu := inhabitant; cg_cpu := inhabitant; cg_swap_mapping := []; cg_null_block := None |} (cpu_gpu_create naive_init 4 2 2).
Definition window_0 : NaiveMgr := mgr_of window_pair (block_manager_init (Ok window_pair) 2 4 2 0.25%float (Some 2%Z) false).
Lemma window_check_too_weak : bm_can_allocate long_group 0 window_0 = Ok (ALLOC_OK, window_0) ∧
  bm_allocate demo_pair_hash long_group window_0 = Raise (ValueError "NoFreeBlocksError").
Proof. split; vm_compute; reflexivity. Qed.

(** The end of a sequence that is swapped out gives the indices of GPU objects to
    the pool of the CPU allocator. *)
Definition running_seq : Sequence := set_sq_status SEQ_RUNNING seq_1.
Definition running_group : SequenceGroup := value group0 (demo_group "a" [running_seq]).
Definition swapped_1 : NaiveMgr := state naive_1 (bm_swap_out running_group naive_1).
Definition ended_1 : NaiveMgr := state swapped_1 (bm_free running_seq swapped_1).
Lemma free_after_swap_out : bm_free running_seq swapped_1 = Ok (tt, ended_1) ∧
  take 3 (bp_free_ids (na_block_pool (cg_cpu (bm_allocator ended_1)))) = [1; 0; 0] ∧
  ¬ (0 ∈ bp_free_ids (na_block_pool (cg_gpu (bm_allocator ended_1)))).
Proof.
  split_and!; [vm_compute; reflexivity..|]. apply (bool_decide_unpack _). vm_compute. exact I.
Qed.

(** A sequence with blocks out of the window cannot be swapped out. *)
Definition far_seq : Sequence :=
  let s := value seq0 (demo_seq 1 [1; 2; 3; 4; 5; 6; 7; 8; 9]%Z SEQ_RUNNING) in set_sq_data (set_sd_num_computed_tokens 8 (sq_data s)) s.
Definition near_seq : Sequence := value seq0 (demo_seq 1 [1; 2; 3; 4; 5; 6; 7; 8]%Z SEQ_WAITING).
Definition far_pair : CpuGpuBlockAllocator NaiveBlockAllocator :=
  value {| cg_gpu := inhabitant; cg_cpu := inhabitant; cg_swap_mapping := []; cg_null_block := None |} (cpu_gpu_create naive_init 9 6 2).
Definition far_0 : NaiveMgr := mgr_of far_pair (block_manager_init (Ok far_pair) 2 9 6 0.25%float (Some 2%Z) false).
Definition far_1 : NaiveMgr := state far_0 (bm_allocate demo_pair_hash (value group0 (demo_group "a" [near_seq])) far_0).
Definition far_2 : NaiveMgr := state far_1 (bm_append_slots demo_pair_hash far_seq 0 far_1).
Lemma window_blocks_swap_out :
  can_swap_out (value group0 (demo_group "a" [far_seq])) far_2 = Ok (true, far_2) ∧
  bm_swap_out (value group0 (demo_group "a" [far_seq])) far_2 = Raise (ValueError "null block should not be modified").
Proof. split; vm_compute; reflexivity. Qed.

(** With prefix caching, the end of a fork whose cached tokens were never asked for
    fails. *)
Definition forked_1 : PrefixMgr := state prefix_1 (bm_fork seq_1 seq_2 prefix_1).
Lemma free_of_a_fork : dmem (bm_block_tables forked_1) 2%Z = true ∧
  bm_free seq_2 forked_1 = Raise (AssertionError "seq_id in self._seq_id_to_blocks_hashes").
Proof. split; vm_compute; reflexivity. Qed.
