(* ===== verification/SchedConfig.v ===== *)
(** The configuration of the V0 scheduler: [SchedulerConfig] of vllm/config.py
    with its checks, and the fields of [CacheConfig] and [LoRAConfig] that the
    scheduler reads.

    The delay factor is a rational number and times are numbers of clock ticks,
    so that their product is exact. *)
From Stdlib Require Import ssreflect ZArith Lia QArith_base.
From stdpp Require Import base numbers list strings.
From S2P Require Import Prelude.

Definition POOLING_MODEL_MAX_NUM_BATCHED_TOKENS : Z := 32768.
Definition MULTIMODAL_MODEL_MAX_NUM_BATCHED_TOKENS : Z := 5120.

Record SchedConfig := {
  cf_runner_type : string;
  cf_max_num_batched_tokens : Z;
  cf_max_num_seqs : Z;
  cf_max_model_len : Z;
  cf_num_lookahead_slots : Z;
  cf_delay_factor : Q;
  cf_chunked_prefill_enabled : bool;
  cf_is_multimodal_model : bool;
  cf_preemption_mode : option string;
  cf_num_scheduler_steps : Z;
  cf_send_delta_data : bool;
  cf_policy : string;
}.
Definition is_multi_step (c : SchedConfig) : bool := (1 <? cf_num_scheduler_steps c)%Z.

(** [_verify_args] *)
Definition sched_verify_args (c : SchedConfig) : result unit :=
  if (cf_max_num_batched_tokens c <? cf_max_model_len c)%Z && negb (cf_chunked_prefill_enabled c)
  then Raise (ValueError "max_num_batched_tokens is smaller than max_model_len")
  else if (cf_max_num_batched_tokens c <? cf_max_num_seqs c)%Z
  then Raise (ValueError "max_num_batched_tokens must be greater than or equal to max_num_seqs")
  else if (cf_num_lookahead_slots c <? 0)%Z then Raise (ValueError "num_lookahead_slots must be greater than or equal to 0")
  else if (cf_num_scheduler_steps c <? 1)%Z then Raise (ValueError "num_scheduler_steps must be greater than or equal to 1")
  else Ok tt.

(** The number of batched tokens when none is given. *)
Definition default_num_batched_tokens (runner_type : string) (max_model_len num_scheduler_steps : Z)
    (enable_chunked_prefill is_multimodal_model : bool) : Z :=
  let n := if enable_chunked_prefill then if (1 <? num_scheduler_steps)%Z then Z.max max_model_len 2048 else 2048%Z
           else Z.max max_model_len 2048 in
  let n := if bool_decide (runner_type = "pooling") then Z.max n POOLING_MODEL_MAX_NUM_BATCHED_TOKENS else n in
  if is_multimodal_model then Z.max n MULTIMODAL_MODEL_MAX_NUM_BATCHED_TOKENS else n.
(** Construction with [__post_init__]. *)
Definition sched_config_init (runner_type : string) (max_num_batched_tokens : option Z)
    (max_num_seqs max_model_len num_lookahead_slots : Z) (delay_factor : Q) (enable_chunked_prefill is_multimodal_model : bool)
    (preemption_mode : option string) (num_scheduler_steps : Z) (send_delta_data : bool) (policy : string) : result SchedConfig :=
  let c := {|
    cf_runner_type := runner_type;
    cf_max_num_batched_tokens :=
      match max_num_batched_tokens with
      | Some n => n
      | None => default_num_batched_tokens runner_type max_model_len num_scheduler_steps enable_chunked_prefill is_multimodal_model
      end;
    cf_max_num_seqs := max_num_seqs; cf_max_model_len := max_model_len; cf_num_lookahead_slots := num_lookahead_slots;
    cf_delay_factor := delay_factor; cf_chunked_prefill_enabled := enable_chunked_prefill;
    cf_is_multimodal_model := is_multimodal_model; cf_preemption_mode := preemption_mode;
    cf_num_scheduler_steps := num_scheduler_steps; cf_send_delta_data := send_delta_data; cf_policy := policy |} in
  sched_verify_args c;;; mret c.

Record CacheConf := {
  cc_block_size : Z;
  cc_num_gpu_blocks : option Z;
  cc_num_cpu_blocks : option Z;
  cc_sliding_window : option Z;
  cc_enable_prefix_caching : bool;
  cc_is_attention_free : bool;
}.
Record LoRAConf := { max_loras : Z }.

(** What the checks give. *)
Record sched_config_ok (c : SchedConfig) : Prop := {
  sco_seqs : (cf_max_num_seqs c ≤ cf_max_num_batched_tokens c)%Z;
  sco_lookahead : (0 ≤ cf_num_lookahead_slots c)%Z;
  sco_steps : (1 ≤ cf_num_scheduler_steps c)%Z;
  sco_len : cf_chunked_prefill_enabled c = false → (cf_max_model_len c ≤ cf_max_num_batched_tokens c)%Z;
}.
Lemma sched_verify_args_ok c : sched_verify_args c = Ok tt → sched_config_ok c.
Proof.
  rw /sched_verify_args. destruct (Z.ltb_spec (cf_max_num_batched_tokens c) (cf_max_model_len c)) as [H1|H1];
    destruct (cf_chunked_prefill_enabled c) eqn:Hc; cbn [andb negb]; try done;
    destruct (Z.ltb_spec (cf_max_num_batched_tokens c) (cf_max_num_seqs c)) as [H2|H2]; try done;
    destruct (Z.ltb_spec (cf_num_lookahead_slots c) 0) as [H3|H3]; try done;
    destruct (Z.ltb_spec (cf_num_scheduler_steps c) 1) as [H4|H4]; try done; move=> _; split; try done; congruence.
Qed.
(** The defaults always pass the check of the model length. *)
Lemma default_batched_tokens_suffice rt len steps mm : (len ≤ default_num_batched_tokens rt len steps false mm)%Z.
Proof. rw /default_num_batched_tokens. cbv zeta. case_bool_decide; destruct mm; lia. Qed.
