(* ===== verification/V0Types.v ===== *)
(** The data of the V0 scheduler (vllm/core/scheduler.py): the budget, the outputs
    of the phases, the state; and the interface of the block manager
    (vllm/core/interfaces.py) with its two implementations,
    vllm/core/block_manager.py and vllm/core/placeholder_block_space_manager.py.

    Sequence groups are shared objects: queues and outputs hold references, which
    are positions in the list of all groups. *)
From Stdlib Require Import ssreflect ZArith Lia.
From stdpp Require Import base numbers list gmap strings.
From S2P Require Import Prelude SequenceData Sequences BlockTable BlockManager SchedConfig.

(** * The budget *)
Record SchedulingBudget := {
  sb_token_budget : Z;
  sb_max_num_seqs : Z;
  sb_request_ids_num_batched_tokens : list string;
  sb_request_ids_num_curr_seqs : list string;
  sb_num_cached_tokens : Z;
  sb_num_batched_tokens : Z;
  sb_num_curr_seqs : Z;
}.
Definition set_sb_request_ids_num_batched_tokens (v : list string) (r : SchedulingBudget) : SchedulingBudget :=
  {| sb_token_budget := sb_token_budget r; sb_max_num_seqs := sb_max_num_seqs r; sb_request_ids_num_batched_tokens := v; sb_request_ids_num_curr_seqs := sb_request_ids_num_curr_seqs r; sb_num_cached_tokens := sb_num_cached_tokens r; sb_num_batched_tokens := sb_num_batched_tokens r; sb_num_curr_seqs := sb_num_curr_seqs r |}.
Definition set_sb_request_ids_num_curr_seqs (v : list string) (r : SchedulingBudget) : SchedulingBudget :=
  {| sb_token_budget := sb_token_budget r; sb_max_num_seqs := sb_max_num_seqs r; sb_request_ids_num_batched_tokens := sb_request_ids_num_batched_tokens r; sb_request_ids_num_curr_seqs := v; sb_num_cached_tokens := sb_num_cached_tokens r; sb_num_batched_tokens := sb_num_batched_tokens r; sb_num_curr_seqs := sb_num_curr_seqs r |}.
Definition set_sb_num_cached_tokens (v : Z) (r : SchedulingBudget) : SchedulingBudget :=
  {| sb_token_budget := sb_token_budget r; sb_max_num_seqs := sb_max_num_seqs r; sb_request_ids_num_batched_tokens := sb_request_ids_num_batched_tokens r; sb_request_ids_num_curr_seqs := sb_request_ids_num_curr_seqs r; sb_num_cached_tokens := v; sb_num_batched_tokens := sb_num_batched_tokens r; sb_num_curr_seqs := sb_num_curr_seqs r |}.
Definition set_sb_num_batched_tokens (v : Z) (r : SchedulingBudget) : SchedulingBudget :=
  {| sb_token_budget := sb_token_budget r; sb_max_num_seqs := sb_max_num_seqs r; sb_request_ids_num_batched_tokens := sb_request_ids_num_batched_tokens r; sb_request_ids_num_curr_seqs := sb_request_ids_num_curr_seqs r; sb_num_cached_tokens := sb_num_cached_tokens r; sb_num_batched_tokens := v; sb_num_curr_seqs := sb_num_curr_seqs r |}.
Definition set_sb_num_curr_seqs (v : Z) (r : SchedulingBudget) : SchedulingBudget :=
  {| sb_token_budget := sb_token_budget r; sb_max_num_seqs := sb_max_num_seqs r; sb_request_ids_num_batched_tokens := sb_request_ids_num_batched_tokens r; sb_request_ids_num_curr_seqs := sb_request_ids_num_curr_seqs r; sb_num_cached_tokens := sb_num_cached_tokens r; sb_num_batched_tokens := sb_num_batched_tokens r; sb_num_curr_seqs := v |}.

Abbreviation BU := (M SchedulingBudget).
Definition budget_init (token_budget max_num_seqs : Z) : SchedulingBudget :=
  {| sb_token_budget := token_budget; sb_max_num_seqs := max_num_seqs; sb_request_ids_num_batched_tokens := [];
     sb_request_ids_num_curr_seqs := []; sb_num_cached_tokens := 0; sb_num_batched_tokens := 0; sb_num_curr_seqs := 0 |}.
Definition can_schedule (num_new_tokens num_new_seqs : Z) : BU bool :=
  massert (0 <=? num_new_tokens)%Z "num_new_tokens >= 0";;;
  massert (negb (num_new_seqs =? 0)%Z) "num_new_seqs != 0";;;
  b ← mget;
  mret ((sb_num_batched_tokens b + num_new_tokens <=? sb_token_budget b)%Z &&
        (sb_num_curr_seqs b + num_new_seqs <=? sb_max_num_seqs b)%Z).
Definition remaining_token_budget (b : SchedulingBudget) : Z := sb_token_budget b - sb_num_batched_tokens b.
Definition add_num_batched_tokens (req_id : string) (num_batched_tokens num_cached_tokens : Z) : BU unit :=
  b ← mget;
  if bool_decide (req_id ∈ sb_request_ids_num_batched_tokens b) then mret tt
  else
    massert (0 <=? num_cached_tokens)%Z "num_cached_tokens >= 0";;;
    massert (0 <=? num_batched_tokens)%Z "num_batched_tokens >= 0";;;
    mmodify (λ b, set_sb_request_ids_num_batched_tokens (set_add req_id (sb_request_ids_num_batched_tokens b)) b);;;
    mmodify (λ b, set_sb_num_batched_tokens (sb_num_batched_tokens b + num_batched_tokens) b);;;
    mmodify (λ b, set_sb_num_cached_tokens (sb_num_cached_tokens b + num_cached_tokens) b).
Definition subtract_num_batched_tokens (req_id : string) (num_batched_tokens : Z) : BU unit :=
  b ← mget;
  mwhen (bool_decide (req_id ∈ sb_request_ids_num_batched_tokens b))
    (mmodify (λ b, set_sb_request_ids_num_batched_tokens (set_discard req_id (sb_request_ids_num_batched_tokens b)) b);;;
     mmodify (λ b, set_sb_num_batched_tokens (sb_num_batched_tokens b - num_batched_tokens) b)).
Definition add_num_seqs (req_id : string) (num_curr_seqs : Z) : BU unit :=
  b ← mget;
  if bool_decide (req_id ∈ sb_request_ids_num_curr_seqs b) then mret tt
  else
    mmodify (λ b, set_sb_request_ids_num_curr_seqs (set_add req_id (sb_request_ids_num_curr_seqs b)) b);;;
    mmodify (λ b, set_sb_num_curr_seqs (sb_num_curr_seqs b + num_curr_seqs) b).
Definition subtract_num_seqs (req_id : string) (num_curr_seqs : Z) : BU unit :=
  b ← mget;
  mwhen (bool_decide (req_id ∈ sb_request_ids_num_curr_seqs b))
    (mmodify (λ b, set_sb_request_ids_num_curr_seqs (set_discard req_id (sb_request_ids_num_curr_seqs b)) b);;;
     mmodify (λ b, set_sb_num_curr_seqs (sb_num_curr_seqs b - num_curr_seqs) b)).

(** * Outputs of the phases *)
Inductive PreemptionMode := PREEMPT_SWAP | PREEMPT_RECOMPUTE.
#[export] Instance PreemptionMode_eq_dec : EqDecision PreemptionMode.
Proof. solve_decision. Defined.
Record ScheduledSequenceGroup := { ssg_seq_group : nat; ssg_token_chunk_size : Z }.
Record V0SchedulerOutputs := {
  so_scheduled_seq_groups : list ScheduledSequenceGroup;
  so_num_prefill_groups : Z;
  so_num_batched_tokens : Z;
  so_blocks_to_swap_in : list (nat * nat);
  so_blocks_to_swap_out : list (nat * nat);
  so_blocks_to_copy : list (nat * nat);
  so_ignored_seq_groups : list nat;
  so_num_lookahead_slots : Z;
  so_running_queue_size : Z;
  so_preempted : Z;
}.
Definition set_so_scheduled_seq_groups (v : list ScheduledSequenceGroup) (r : V0SchedulerOutputs) : V0SchedulerOutputs :=
  {| so_scheduled_seq_groups := v; so_num_prefill_groups := so_num_prefill_groups r; so_num_batched_tokens := so_num_batched_tokens r; so_blocks_to_swap_in := so_blocks_to_swap_in r; so_blocks_to_swap_out := so_blocks_to_swap_out r; so_blocks_to_copy := so_blocks_to_copy r; so_ignored_seq_groups := so_ignored_seq_groups r; so_num_lookahead_slots := so_num_lookahead_slots r; so_running_queue_size := so_running_queue_size r; so_preempted := so_preempted r |}.
Record SchedulerRunningOutputs := {
  ro_decode_seq_groups : list ScheduledSequenceGroup;
  ro_prefill_seq_groups : list ScheduledSequenceGroup;
  ro_preempted : list nat;
  ro_swapped_out : list nat;
  ro_blocks_to_swap_out : list (nat * nat);
  ro_blocks_to_copy : list (nat * nat);
  ro_num_lookahead_slots : Z;
  ro_decode_seq_groups_list : list nat;
  ro_prefill_seq_groups_list : list nat;
}.
Definition set_ro_decode_seq_groups (v : list ScheduledSequenceGroup) (r : SchedulerRunningOutputs) : SchedulerRunningOutputs :=
  {| ro_decode_seq_groups := v; ro_prefill_seq_groups := ro_prefill_seq_groups r; ro_preempted := ro_preempted r; ro_swapped_out := ro_swapped_out r; ro_blocks_to_swap_out := ro_blocks_to_swap_out r; ro_blocks_to_copy := ro_blocks_to_copy r; ro_num_lookahead_slots := ro_num_lookahead_slots r; ro_decode_seq_groups_list := ro_decode_seq_groups_list r; ro_prefill_seq_groups_list := ro_prefill_seq_groups_list r |}.
Definition set_ro_prefill_seq_groups (v : list ScheduledSequenceGroup) (r : SchedulerRunningOutputs) : SchedulerRunningOutputs :=
  {| ro_decode_seq_groups := ro_decode_seq_groups r; ro_prefill_seq_groups := v; ro_preempted := ro_preempted r; ro_swapped_out := ro_swapped_out r; ro_blocks_to_swap_out := ro_blocks_to_swap_out r; ro_blocks_to_copy := ro_blocks_to_copy r; ro_num_lookahead_slots := ro_num_lookahead_slots r; ro_decode_seq_groups_list := ro_decode_seq_groups_list r; ro_prefill_seq_groups_list := ro_prefill_seq_groups_list r |}.
Definition set_ro_preempted (v : list nat) (r : SchedulerRunningOutputs) : SchedulerRunningOutputs :=
  {| ro_decode_seq_groups := ro_decode_seq_groups r; ro_prefill_seq_groups := ro_prefill_seq_groups r; ro_preempted := v; ro_swapped_out := ro_swapped_out r; ro_blocks_to_swap_out := ro_blocks_to_swap_out r; ro_blocks_to_copy := ro_blocks_to_copy r; ro_num_lookahead_slots := ro_num_lookahead_slots r; ro_decode_seq_groups_list := ro_decode_seq_groups_list r; ro_prefill_seq_groups_list := ro_prefill_seq_groups_list r |}.
Definition set_ro_swapped_out (v : list nat) (r : SchedulerRunningOutputs) : SchedulerRunningOutputs :=
  {| ro_decode_seq_groups := ro_decode_seq_groups r; ro_prefill_seq_groups := ro_prefill_seq_groups r; ro_preempted := ro_preempted r; ro_swapped_out := v; ro_blocks_to_swap_out := ro_blocks_to_swap_out r; ro_blocks_to_copy := ro_blocks_to_copy r; ro_num_lookahead_slots := ro_num_lookahead_slots r; ro_decode_seq_groups_list := ro_decode_seq_groups_list r; ro_prefill_seq_groups_list := ro_prefill_seq_groups_list r |}.
Definition set_ro_blocks_to_swap_out (v : list (nat * nat)) (r : SchedulerRunningOutputs) : SchedulerRunningOutputs :=
  {| ro_decode_seq_groups := ro_decode_seq_groups r; ro_prefill_seq_groups := ro_prefill_seq_groups r; ro_preempted := ro_preempted r; ro_swapped_out := ro_swapped_out r; ro_blocks_to_swap_out := v; ro_blocks_to_copy := ro_blocks_to_copy r; ro_num_lookahead_slots := ro_num_lookahead_slots r; ro_decode_seq_groups_list := ro_decode_seq_groups_list r; ro_prefill_seq_groups_list := ro_prefill_seq_groups_list r |}.
Definition set_ro_blocks_to_copy (v : list (nat * nat)) (r : SchedulerRunningOutputs) : SchedulerRunningOutputs :=
  {| ro_decode_seq_groups := ro_decode_seq_groups r; ro_prefill_seq_groups := ro_prefill_seq_groups r; ro_preempted := ro_preempted r; ro_swapped_out := ro_swapped_out r; ro_blocks_to_swap_out := ro_blocks_to_swap_out r; ro_blocks_to_copy := v; ro_num_lookahead_slots := ro_num_lookahead_slots r; ro_decode_seq_groups_list := ro_decode_seq_groups_list r; ro_prefill_seq_groups_list := ro_prefill_seq_groups_list r |}.
Definition set_ro_decode_seq_groups_list (v : list nat) (r : SchedulerRunningOutputs) : SchedulerRunningOutputs :=
  {| ro_decode_seq_groups := ro_decode_seq_groups r; ro_prefill_seq_groups := ro_prefill_seq_groups r; ro_preempted := ro_preempted r; ro_swapped_out := ro_swapped_out r; ro_blocks_to_swap_out := ro_blocks_to_swap_out r; ro_blocks_to_copy := ro_blocks_to_copy r; ro_num_lookahead_slots := ro_num_lookahead_slots r; ro_decode_seq_groups_list := v; ro_prefill_seq_groups_list := ro_prefill_seq_groups_list r |}.
Definition set_ro_prefill_seq_groups_list (v : list nat) (r : SchedulerRunningOutputs) : SchedulerRunningOutputs :=
  {| ro_decode_seq_groups := ro_decode_seq_groups r; ro_prefill_seq_groups := ro_prefill_seq_groups r; ro_preempted := ro_preempted r; ro_swapped_out := ro_swapped_out r; ro_blocks_to_swap_out := ro_blocks_to_swap_out r; ro_blocks_to_copy := ro_blocks_to_copy r; ro_num_lookahead_slots := ro_num_lookahead_slots r; ro_decode_seq_groups_list := ro_decode_seq_groups_list r; ro_prefill_seq_groups_list := v |}.
Record SchedulerSwappedInOutputs := {
  si_decode_seq_groups : list ScheduledSequenceGroup;
  si_prefill_seq_groups : list ScheduledSequenceGroup;
  si_blocks_to_swap_in : list (nat * nat);
  si_blocks_to_copy : list (nat * nat);
  si_num_lookahead_slots : Z;
  si_infeasible_seq_groups : list nat;
}.
Definition set_si_decode_seq_groups (v : list ScheduledSequenceGroup) (r : SchedulerSwappedInOutputs) : SchedulerSwappedInOutputs :=
  {| si_decode_seq_groups := v; si_prefill_seq_groups := si_prefill_seq_groups r; si_blocks_to_swap_in := si_blocks_to_swap_in r; si_blocks_to_copy := si_blocks_to_copy r; si_num_lookahead_slots := si_num_lookahead_slots r; si_infeasible_seq_groups := si_infeasible_seq_groups r |}.
Definition set_si_prefill_seq_groups (v : list ScheduledSequenceGroup) (r : SchedulerSwappedInOutputs) : SchedulerSwappedInOutputs :=
  {| si_decode_seq_groups := si_decode_seq_groups r; si_prefill_seq_groups := v; si_blocks_to_swap_in := si_blocks_to_swap_in r; si_blocks_to_copy := si_blocks_to_copy r; si_num_lookahead_slots := si_num_lookahead_slots r; si_infeasible_seq_groups := si_infeasible_seq_groups r |}.
Definition set_si_blocks_to_swap_in (v : list (nat * nat)) (r : SchedulerSwappedInOutputs) : SchedulerSwappedInOutputs :=
  {| si_decode_seq_groups := si_decode_seq_groups r; si_prefill_seq_groups := si_prefill_seq_groups r; si_blocks_to_swap_in := v; si_blocks_to_copy := si_blocks_to_copy r; si_num_lookahead_slots := si_num_lookahead_slots r; si_infeasible_seq_groups := si_infeasible_seq_groups r |}.
Definition set_si_blocks_to_copy (v : list (nat * nat)) (r : SchedulerSwappedInOutputs) : SchedulerSwappedInOutputs :=
  {| si_decode_seq_groups := si_decode_seq_groups r; si_prefill_seq_groups := si_prefill_seq_groups r; si_blocks_to_swap_in := si_blocks_to_swap_in r; si_blocks_to_copy := v; si_num_lookahead_slots := si_num_lookahead_slots r; si_infeasible_seq_groups := si_infeasible_seq_groups r |}.
Definition set_si_infeasible_seq_groups (v : list nat) (r : SchedulerSwappedInOutputs) : SchedulerSwappedInOutputs :=
  {| si_decode_seq_groups := si_decode_seq_groups r; si_prefill_seq_groups := si_prefill_seq_groups r; si_blocks_to_swap_in := si_blocks_to_swap_in r; si_blocks_to_copy := si_blocks_to_copy r; si_num_lookahead_slots := si_num_lookahead_slots r; si_infeasible_seq_groups := v |}.
Record SchedulerPrefillOutputs := {
  po_seq_groups : list ScheduledSequenceGroup;
  po_ignored_seq_groups : list nat;
  po_num_lookahead_slots : Z;
}.
Definition set_po_seq_groups (v : list ScheduledSequenceGroup) (r : SchedulerPrefillOutputs) : SchedulerPrefillOutputs :=
  {| po_seq_groups := v; po_ignored_seq_groups := po_ignored_seq_groups r; po_num_lookahead_slots := po_num_lookahead_slots r |}.
Definition set_po_ignored_seq_groups (v : list nat) (r : SchedulerPrefillOutputs) : SchedulerPrefillOutputs :=
  {| po_seq_groups := po_seq_groups r; po_ignored_seq_groups := v; po_num_lookahead_slots := po_num_lookahead_slots r |}.

Definition running_outputs_empty (num_lookahead_slots : Z) : SchedulerRunningOutputs :=
  {| ro_decode_seq_groups := []; ro_prefill_seq_groups := []; ro_preempted := []; ro_swapped_out := [];
     ro_blocks_to_swap_out := []; ro_blocks_to_copy := []; ro_num_lookahead_slots := num_lookahead_slots;
     ro_decode_seq_groups_list := []; ro_prefill_seq_groups_list := [] |}.
Definition swapped_in_outputs_empty (num_lookahead_slots : Z) : SchedulerSwappedInOutputs :=
  {| si_decode_seq_groups := []; si_prefill_seq_groups := []; si_blocks_to_swap_in := []; si_blocks_to_copy := [];
     si_num_lookahead_slots := num_lookahead_slots; si_infeasible_seq_groups := [] |}.
Definition prefill_outputs_empty (num_lookahead_slots : Z) : SchedulerPrefillOutputs :=
  {| po_seq_groups := []; po_ignored_seq_groups := []; po_num_lookahead_slots := num_lookahead_slots |}.

(** Sorting that keeps the order of equal elements. *)
Fixpoint insert_on {A} (lt : A → A → bool) (x : A) (l : list A) : list A :=
  match l with [] => [x] | y :: l => if lt x y then x :: y :: l else y :: insert_on lt x l end.
Definition py_sorted {A} (lt : A → A → bool) (l : list A) : list A := foldl (λ acc x, insert_on lt x acc) [] l.

(** * The block manager, as the scheduler sees it

    The placeholder returns [None] where lists are expected. *)
Class BlockSpaceManager (B : Type) := {
  bsm_can_allocate : SequenceGroup → Z → M B AllocStatus;
  bsm_allocate : SequenceGroup → M B unit;
  bsm_can_append_slots : SequenceGroup → Z → M B bool;
  bsm_append_slots : Sequence → Z → M B (list (nat * nat));
  bsm_fork : Sequence → Sequence → M B unit;
  bsm_can_swap_in : SequenceGroup → Z → M B AllocStatus;
  bsm_swap_in : SequenceGroup → M B (option (list (nat * nat)));
  bsm_can_swap_out : SequenceGroup → M B bool;
  bsm_swap_out : SequenceGroup → M B (option (list (nat * nat)));
  bsm_free : Sequence → M B unit;
  bsm_free_cross : SequenceGroup → M B unit;
  bsm_get_block_table : Sequence → M B (option (list nat));
  bsm_get_cross_block_table : SequenceGroup → M B (list nat);
  bsm_get_num_free_gpu_blocks : B → Z;
  bsm_get_num_free_cpu_blocks : B → Z;
  bsm_access_all_blocks_in_seq : Sequence → Z → M B unit;
  bsm_get_common_computed_block_ids : list Sequence → M B (list nat);
  bsm_mark_blocks_as_computed : SequenceGroup → Z → M B unit;
  bsm_get_num_cached_tokens : Sequence → M B Z;
}.

Section self_attn.
Context (py_hash : bool * option Z * list Z * option Z → Z) (pair_hash : Z * Z → Z).
Context {S : Type} `{DA : DeviceAwareBlockAllocator S}.
Definition self_attn_manager : BlockSpaceManager (SelfAttnBlockSpaceManager S) := {|
  bsm_can_allocate := bm_can_allocate;
  bsm_allocate := bm_allocate pair_hash;
  bsm_can_append_slots := bm_can_append_slots;
  bsm_append_slots := bm_append_slots pair_hash;
  bsm_fork := bm_fork;
  bsm_can_swap_in := can_swap_in;
  bsm_swap_in g := m ← bm_swap_in g; mret (Some m);
  bsm_can_swap_out := can_swap_out;
  bsm_swap_out g := m ← bm_swap_out g; mret (Some m);
  bsm_free := bm_free;
  bsm_free_cross := bm_free_cross;
  bsm_get_block_table s := t ← get_block_table s; mret (Some t);
  bsm_get_cross_block_table := get_cross_block_table;
  bsm_get_num_free_gpu_blocks := get_num_free_gpu_blocks;
  bsm_get_num_free_cpu_blocks := get_num_free_cpu_blocks;
  bsm_access_all_blocks_in_seq := access_all_blocks_in_seq;
  bsm_get_common_computed_block_ids := bm_get_common_computed_block_ids py_hash pair_hash;
  bsm_mark_blocks_as_computed _ _ := bm_mark_blocks_as_computed;
  bsm_get_num_cached_tokens := get_num_cached_tokens py_hash pair_hash;
|}.
End self_attn.

(** [PlaceholderBlockSpaceManager] has no state and no cross-attention tables. *)
Definition placeholder_manager : BlockSpaceManager unit := {|
  bsm_can_allocate _ _ := mret ALLOC_OK;
  bsm_allocate _ := mret tt;
  bsm_can_append_slots _ _ := mret true;
  bsm_append_slots _ _ := mret [];
  bsm_fork _ _ := mret tt;
  bsm_can_swap_in _ _ := mret ALLOC_OK;
  bsm_swap_in _ := mret None;
  bsm_can_swap_out _ := mret true;
  bsm_swap_out _ := mret None;
  bsm_free _ := mret tt;
  bsm_free_cross _ := mraise (AttributeError "free_cross");
  bsm_get_block_table _ := mret None;
  bsm_get_cross_block_table _ := mraise (AttributeError "get_cross_block_table");
  bsm_get_num_free_gpu_blocks _ := 1%Z;
  bsm_get_num_free_cpu_blocks _ := 1%Z;
  bsm_access_all_blocks_in_seq _ _ := mret tt;
  bsm_get_common_computed_block_ids _ := mret [];
  bsm_mark_blocks_as_computed _ _ := mret tt;
  bsm_get_num_cached_tokens _ := mret 0%Z;
|}.

(** * The state *)
Record V0Config := {
  vc_scheduler : SchedConfig;
  vc_cache : CacheConf;
  vc_lora : option LoRAConf;
  vc_artificial_preemption : bool;
}.
Record V0Scheduler (B : Type) := {
  vs_groups : list SequenceGroup;
  vs_waiting : list nat;
  vs_running : list nat;
  vs_swapped : list nat;
  vs_finished_requests_ids : list string;
  vs_prev_time : Z;
  vs_prev_prompt : bool;
  vs_last_prompt_latency : Z;
  vs_artificial_preempt_cnt : Z;
  vs_num_cumulative_preemption : Z;
  vs_cache_id : Z;
  vs_async_stopped : list nat;
  vs_block_manager : B;
  vs_clock : nat → Z;
  vs_draws : nat → bool;
}.
#[global] Arguments vs_groups {B}.
#[global] Arguments vs_waiting {B}.
#[global] Arguments vs_running {B}.
#[global] Arguments vs_swapped {B}.
#[global] Arguments vs_finished_requests_ids {B}.
#[global] Arguments vs_prev_time {B}.
#[global] Arguments vs_prev_prompt {B}.
#[global] Arguments vs_last_prompt_latency {B}.
#[global] Arguments vs_artificial_preempt_cnt {B}.
#[global] Arguments vs_num_cumulative_preemption {B}.
#[global] Arguments vs_cache_id {B}.
#[global] Arguments vs_async_stopped {B}.
#[global] Arguments vs_block_manager {B}.
#[global] Arguments vs_clock {B}.
#[global] Arguments vs_draws {B}.

Section setters.
Context {B : Type}.
Definition set_vs_groups (v : list SequenceGroup) (r : V0Scheduler B) : V0Scheduler B :=
  {| vs_groups := v; vs_waiting := vs_waiting r; vs_running := vs_running r; vs_swapped := vs_swapped r; vs_finished_requests_ids := vs_finished_requests_ids r; vs_prev_time := vs_prev_time r; vs_prev_prompt := vs_prev_prompt r; vs_last_prompt_latency := vs_last_prompt_latency r; vs_artificial_preempt_cnt := vs_artificial_preempt_cnt r; vs_num_cumulative_preemption := vs_num_cumulative_preemption r; vs_cache_id := vs_cache_id r; vs_async_stopped := vs_async_stopped r; vs_block_manager := vs_block_manager r; vs_clock := vs_clock r; vs_draws := vs_draws r |}.
Definition set_vs_waiting (v : list nat) (r : V0Scheduler B) : V0Scheduler B :=
  {| vs_groups := vs_groups r; vs_waiting := v; vs_running := vs_running r; vs_swapped := vs_swapped r; vs_finished_requests_ids := vs_finished_requests_ids r; vs_prev_time := vs_prev_time r; vs_prev_prompt := vs_prev_prompt r; vs_last_prompt_latency := vs_last_prompt_latency r; vs_artificial_preempt_cnt := vs_artificial_preempt_cnt r; vs_num_cumulative_preemption := vs_num_cumulative_preemption r; vs_cache_id := vs_cache_id r; vs_async_stopped := vs_async_stopped r; vs_block_manager := vs_block_manager r; vs_clock := vs_clock r; vs_draws := vs_draws r |}.
Definition set_vs_running (v : list nat) (r : V0Scheduler B) : V0Scheduler B :=
  {| vs_groups := vs_groups r; vs_waiting := vs_waiting r; vs_running := v; vs_swapped := vs_swapped r; vs_finished_requests_ids := vs_finished_requests_ids r; vs_prev_time := vs_prev_time r; vs_prev_prompt := vs_prev_prompt r; vs_last_prompt_latency := vs_last_prompt_latency r; vs_artificial_preempt_cnt := vs_artificial_preempt_cnt r; vs_num_cumulative_preemption := vs_num_cumulative_preemption r; vs_cache_id := vs_cache_id r; vs_async_stopped := vs_async_stopped r; vs_block_manager := vs_block_manager r; vs_clock := vs_clock r; vs_draws := vs_draws r |}.
Definition set_vs_swapped (v : list nat) (r : V0Scheduler B) : V0Scheduler B :=
  {| vs_groups := vs_groups r; vs_waiting := vs_waiting r; vs_running := vs_running r; vs_swapped := v; vs_finished_requests_ids := vs_finished_requests_ids r; vs_prev_time := vs_prev_time r; vs_prev_prompt := vs_prev_prompt r; vs_last_prompt_latency := vs_last_prompt_latency r; vs_artificial_preempt_cnt := vs_artificial_preempt_cnt r; vs_num_cumulative_preemption := vs_num_cumulative_preemption r; vs_cache_id := vs_cache_id r; vs_async_stopped := vs_async_stopped r; vs_block_manager := vs_block_manager r; vs_clock := vs_clock r; vs_draws := vs_draws r |}.
Definition set_vs_finished_requests_ids (v : list string) (r : V0Scheduler B) : V0Scheduler B :=
  {| vs_groups := vs_groups r; vs_waiting := vs_waiting r; vs_running := vs_running r; vs_swapped := vs_swapped r; vs_finished_requests_ids := v; vs_prev_time := vs_prev_time r; vs_prev_prompt := vs_prev_prompt r; vs_last_prompt_latency := vs_last_prompt_latency r; vs_artificial_preempt_cnt := vs_artificial_preempt_cnt r; vs_num_cumulative_preemption := vs_num_cumulative_preemption r; vs_cache_id := vs_cache_id r; vs_async_stopped := vs_async_stopped r; vs_block_manager := vs_block_manager r; vs_clock := vs_clock r; vs_draws := vs_draws r |}.
Definition set_vs_prev_time (v : Z) (r : V0Scheduler B) : V0Scheduler B :=
  {| vs_groups := vs_groups r; vs_waiting := vs_waiting r; vs_running := vs_running r; vs_swapped := vs_swapped r; vs_finished_requests_ids := vs_finished_requests_ids r; vs_prev_time := v; vs_prev_prompt := vs_prev_prompt r; vs_last_prompt_latency := vs_last_prompt_latency r; vs_artificial_preempt_cnt := vs_artificial_preempt_cnt r; vs_num_cumulative_preemption := vs_num_cumulative_preemption r; vs_cache_id := vs_cache_id r; vs_async_stopped := vs_async_stopped r; vs_block_manager := vs_block_manager r; vs_clock := vs_clock r; vs_draws := vs_draws r |}.
Definition set_vs_prev_prompt (v : bool) (r : V0Scheduler B) : V0Scheduler B :=
  {| vs_groups := vs_groups r; vs_waiting := vs_waiting r; vs_running := vs_running r; vs_swapped := vs_swapped r; vs_finished_requests_ids := vs_finished_requests_ids r; vs_prev_time := vs_prev_time r; vs_prev_prompt := v; vs_last_prompt_latency := vs_last_prompt_latency r; vs_artificial_preempt_cnt := vs_artificial_preempt_cnt r; vs_num_cumulative_preemption := vs_num_cumulative_preemption r; vs_cache_id := vs_cache_id r; vs_async_stopped := vs_async_stopped r; vs_block_manager := vs_block_manager r; vs_clock := vs_clock r; vs_draws := vs_draws r |}.
Definition set_vs_last_prompt_latency (v : Z) (r : V0Scheduler B) : V0Scheduler B :=
  {| vs_groups := vs_groups r; vs_waiting := vs_waiting r; vs_running := vs_running r; vs_swapped := vs_swapped r; vs_finished_requests_ids := vs_finished_requests_ids r; vs_prev_time := vs_prev_time r; vs_prev_prompt := vs_prev_prompt r; vs_last_prompt_latency := v; vs_artificial_preempt_cnt := vs_artificial_preempt_cnt r; vs_num_cumulative_preemption := vs_num_cumulative_preemption r; vs_cache_id := vs_cache_id r; vs_async_stopped := vs_async_stopped r; vs_block_manager := vs_block_manager r; vs_clock := vs_clock r; vs_draws := vs_draws r |}.
Definition set_vs_artificial_preempt_cnt (v : Z) (r : V0Scheduler B) : V0Scheduler B :=
  {| vs_groups := vs_groups r; vs_waiting := vs_waiting r; vs_running := vs_running r; vs_swapped := vs_swapped r; vs_finished_requests_ids := vs_finished_requests_ids r; vs_prev_time := vs_prev_time r; vs_prev_prompt := vs_prev_prompt r; vs_last_prompt_latency := vs_last_prompt_latency r; vs_artificial_preempt_cnt := v; vs_num_cumulative_preemption := vs_num_cumulative_preemption r; vs_cache_id := vs_cache_id r; vs_async_stopped := vs_async_stopped r; vs_block_manager := vs_block_manager r; vs_clock := vs_clock r; vs_draws := vs_draws r |}.
Definition set_vs_num_cumulative_preemption (v : Z) (r : V0Scheduler B) : V0Scheduler B :=
  {| vs_groups := vs_groups r; vs_waiting := vs_waiting r; vs_running := vs_running r; vs_swapped := vs_swapped r; vs_finished_requests_ids := vs_finished_requests_ids r; vs_prev_time := vs_prev_time r; vs_prev_prompt := vs_prev_prompt r; vs_last_prompt_latency := vs_last_prompt_latency r; vs_artificial_preempt_cnt := vs_artificial_preempt_cnt r; vs_num_cumulative_preemption := v; vs_cache_id := vs_cache_id r; vs_async_stopped := vs_async_stopped r; vs_block_manager := vs_block_manager r; vs_clock := vs_clock r; vs_draws := vs_draws r |}.
Definition set_vs_cache_id (v : Z) (r : V0Scheduler B) : V0Scheduler B :=
  {| vs_groups := vs_groups r; vs_waiting := vs_waiting r; vs_running := vs_running r; vs_swapped := vs_swapped r; vs_finished_requests_ids := vs_finished_requests_ids r; vs_prev_time := vs_prev_time r; vs_prev_prompt := vs_prev_prompt r; vs_last_prompt_latency := vs_last_prompt_latency r; vs_artificial_preempt_cnt := vs_artificial_preempt_cnt r; vs_num_cumulative_preemption := vs_num_cumulative_preemption r; vs_cache_id := v; vs_async_stopped := vs_async_stopped r; vs_block_manager := vs_block_manager r; vs_clock := vs_clock r; vs_draws := vs_draws r |}.
Definition set_vs_async_stopped (v : list nat) (r : V0Scheduler B) : V0Scheduler B :=
  {| vs_groups := vs_groups r; vs_waiting := vs_waiting r; vs_running := vs_running r; vs_swapped := vs_swapped r; vs_finished_requests_ids := vs_finished_requests_ids r; vs_prev_time := vs_prev_time r; vs_prev_prompt := vs_prev_prompt r; vs_last_prompt_latency := vs_last_prompt_latency r; vs_artificial_preempt_cnt := vs_artificial_preempt_cnt r; vs_num_cumulative_preemption := vs_num_cumulative_preemption r; vs_cache_id := vs_cache_id r; vs_async_stopped := v; vs_block_manager := vs_block_manager r; vs_clock := vs_clock r; vs_draws := vs_draws r |}.
Definition set_vs_block_manager (v : B) (r : V0Scheduler B) : V0Scheduler B :=
  {| vs_groups := vs_groups r; vs_waiting := vs_waiting r; vs_running := vs_running r; vs_swapped := vs_swapped r; vs_finished_requests_ids := vs_finished_requests_ids r; vs_prev_time := vs_prev_time r; vs_prev_prompt := vs_prev_prompt r; vs_last_prompt_latency := vs_last_prompt_latency r; vs_artificial_preempt_cnt := vs_artificial_preempt_cnt r; vs_num_cumulative_preemption := vs_num_cumulative_preemption r; vs_cache_id := vs_cache_id r; vs_async_stopped := vs_async_stopped r; vs_block_manager := v; vs_clock := vs_clock r; vs_draws := vs_draws r |}.
Definition set_vs_clock (v : nat → Z) (r : V0Scheduler B) : V0Scheduler B :=
  {| vs_groups := vs_groups r; vs_waiting := vs_waiting r; vs_running := vs_running r; vs_swapped := vs_swapped r; vs_finished_requests_ids := vs_finished_requests_ids r; vs_prev_time := vs_prev_time r; vs_prev_prompt := vs_prev_prompt r; vs_last_prompt_latency := vs_last_prompt_latency r; vs_artificial_preempt_cnt := vs_artificial_preempt_cnt r; vs_num_cumulative_preemption := vs_num_cumulative_preemption r; vs_cache_id := vs_cache_id r; vs_async_stopped := vs_async_stopped r; vs_block_manager := vs_block_manager r; vs_clock := v; vs_draws := vs_draws r |}.
Definition set_vs_draws (v : nat → bool) (r : V0Scheduler B) : V0Scheduler B :=
  {| vs_groups := vs_groups r; vs_waiting := vs_waiting r; vs_running := vs_running r; vs_swapped := vs_swapped r; vs_finished_requests_ids := vs_finished_requests_ids r; vs_prev_time := vs_prev_time r; vs_prev_prompt := vs_prev_prompt r; vs_last_prompt_latency := vs_last_prompt_latency r; vs_artificial_preempt_cnt := vs_artificial_preempt_cnt r; vs_num_cumulative_preemption := vs_num_cumulative_preemption r; vs_cache_id := vs_cache_id r; vs_async_stopped := vs_async_stopped r; vs_block_manager := vs_block_manager r; vs_clock := vs_clock r; vs_draws := v |}.
End setters.
