(* ===== verification/V0Sched.v ===== *)
(** The V0 scheduler (vllm/core/scheduler.py, class [Scheduler]), over any block
    manager.

    The budget and the set of LoRA ids are objects that [_schedule_default] and
    [_schedule_chunked_prefill] pass to the phases, which update them in place:
    they are part of the state of a pass ([Pass]). The outputs that a phase builds
    are passed along its loop. The callback of the asynchronous output processor
    is a parameter, as it is of the constructor. [PyObjectCache] only saves
    allocations: every object taken from it is modelled as a new one. *)
From Stdlib Require Import ssreflect ZArith Lia QArith_base.
From stdpp Require Import base numbers list gmap strings.
From S2P Require Import Prelude SamplingParams SequenceData Sequences BlockTable BlockManager SchedConfig V0Types.

Section scheduler.
Context {B : Type} `{BSM : BlockSpaceManager B}.
Context (conf : V0Config) (output_proc_callback : option (string → M (V0Scheduler B) unit)).
Abbreviation VS := (M (V0Scheduler B)).
Abbreviation sc := (vc_scheduler conf).

Definition use_async_output_proc : bool := bool_decide (is_Some output_proc_callback).
Definition lora_enabled : bool := bool_decide (is_Some (vc_lora conf)).
Definition ARTIFICIAL_PREEMPTION_MAX_CNT : Z := 500.
Definition num_cache_iters : Z := (if use_async_output_proc then 2 else 1)%Z.

(** [__init__]: [make] is the constructor of the block manager. *)
Definition v0_scheduler_init (make : Z → option Z → option Z → option Z → bool → result B) (pipeline_parallel_size : Z)
    (clock : nat → Z) (draws : nat → bool) : result (V0Scheduler B) :=
  let divided n := match n with Some n => Some (if (n =? 0)%Z then n else n / pipeline_parallel_size)%Z | None => None end in
  let c := vc_cache conf in
  b ← make (cc_block_size c) (divided (cc_num_gpu_blocks c)) (divided (cc_num_cpu_blocks c)) (cc_sliding_window c)
        (cc_enable_prefix_caching c);
  mret {| vs_groups := []; vs_waiting := []; vs_running := []; vs_swapped := []; vs_finished_requests_ids := [];
          vs_prev_time := 0; vs_prev_prompt := false; vs_last_prompt_latency := 0;
          vs_artificial_preempt_cnt := (if vc_artificial_preemption conf then ARTIFICIAL_PREEMPTION_MAX_CNT else 0)%Z;
          vs_num_cumulative_preemption := 0; vs_cache_id := 0; vs_async_stopped := []; vs_block_manager := b;
          vs_clock := clock; vs_draws := draws |}.

(** * Groups and sequences *)
Definition on_manager {A} (m : M B A) : VS A := zoom vs_block_manager set_vs_block_manager m.
Definition the_group (r : nat) : VS SequenceGroup :=
  s ← mget; match vs_groups s !! r with Some g => mret g | None => mraise (KeyError "group") end.
(** A method of the group [r]. *)
Definition on_group {A} (r : nat) (m : M SequenceGroup A) : VS A :=
  g ← the_group r;
  '(a, g) ← mlift (m g);
  mmodify (λ s, set_vs_groups (<[r := g]> (vs_groups s)) s);;;
  mret a.
(** The positions of the sequences that [get_seqs(status)] returns. *)
Definition seq_positions (r : nat) (status : option SequenceStatus) : VS (list nat) :=
  l ← on_group r (get_seqs status); mret (seq 0 (length l)).
Definition group_seq (i : nat) : M SequenceGroup Sequence :=
  g ← mget; match sg_seqs g !! i with Some s => mret s | None => mraise (IndexError "list index out of range") end.
Definition the_seq (r i : nat) : VS Sequence := on_group r (group_seq i).
Definition upd_seq (r i : nat) (f : Sequence → Sequence) : VS unit :=
  on_group r (mmodify (λ g, set_sg_seqs (alter f i (sg_seqs g)) g)).
Definition set_all_seqs (f : Sequence → Sequence) (g : SequenceGroup) : SequenceGroup := set_sg_seqs (f <$> sg_seqs g) g.
Definition request_id_of (r : nat) : VS string := g ← the_group r; mret (sg_request_id g).
Definition sg_lora_int_id (g : SequenceGroup) : Z := match sg_lora_request g with Some l => lora_int_id l | None => 0 end.
(** [time.time()] *)
Definition v0_time : VS Z := c ← mgets vs_clock; mmodify (set_vs_clock (λ n, c (S n)));;; mret (c 0).
(** [random.uniform(0, 1) < ARTIFICIAL_PREEMPTION_PROB] *)
Definition draw : VS bool := d ← mgets vs_draws; mmodify (set_vs_draws (λ n, d (S n)));;; mret (d 0).

(** * Requests *)
Definition add_seq_group (g : SequenceGroup) : VS unit :=
  mmodify (λ s, set_vs_waiting (vs_waiting s ++ [length (vs_groups s)]) (set_vs_groups (vs_groups s ++ [g]) s)).
Definition free_seq (s : Sequence) : VS unit := on_manager (bsm_free s).
Definition fork_seq (parent_seq child_seq : Sequence) : VS unit := on_manager (bsm_fork parent_seq child_seq).
Definition free_cross_attn_blocks (r : nat) : VS unit :=
  g ← the_group r; mwhen (bool_decide (is_Some (sg_encoder_seq g))) (on_manager (bsm_free_cross g)).
(** [remove] of a deque compares references. *)
Fixpoint deque_remove (x : nat) (l : list nat) : result (list nat) :=
  match l with
  | [] => Raise (ValueError "deque.remove(x): x not in deque")
  | y :: l => if bool_decide (x = y) then Ok l else l ← deque_remove x l; Ok (y :: l)
  end.
(** The groups of a queue to abort, and the ids that remain. *)
Fixpoint collect_aborted (queue : list nat) (request_ids : list string) : VS (list nat * list string) :=
  match queue with
  | [] => mret ([], request_ids)
  | r :: queue =>
    if bool_decide (request_ids = []) then mret ([], request_ids)
    else
      id ← request_id_of r;
      if bool_decide (id ∈ request_ids)
      then '(l, ids) ← collect_aborted queue (set_discard id request_ids); mret (r :: l, ids)
      else collect_aborted queue request_ids
  end.
Definition abort_group (r : nat) : VS unit :=
  id ← request_id_of r;
  mmodify (λ s, set_vs_finished_requests_ids (vs_finished_requests_ids s ++ [id]) s);;;
  idx ← seq_positions r None;
  mfor idx (λ i,
    s ← the_seq r i;
    if seq_is_finished s then mret tt
    else upd_seq r i (set_sq_status SEQ_FINISHED_ABORTED);;; s ← the_seq r i; free_seq s);;;
  free_cross_attn_blocks r.
Definition abort_queue (get : V0Scheduler B → list nat) (set : list nat → V0Scheduler B → V0Scheduler B) (request_ids : list string)
    : VS (list string) :=
  queue ← mgets get;
  '(aborted_groups, request_ids) ← collect_aborted queue request_ids;
  mfor aborted_groups (λ r,
    s ← mget;
    q ← mlift (deque_remove r (get s));
    mmodify (set q);;;
    abort_group r);;;
  mret request_ids.
Definition abort_seq_group (request_ids : list string) : VS unit :=
  ids ← abort_queue vs_waiting set_vs_waiting (foldr set_add [] request_ids);
  ids ← abort_queue vs_running set_vs_running ids;
  abort_queue vs_swapped set_vs_swapped ids;;;
  mret tt.
Definition has_unfinished_seqs (s : V0Scheduler B) : bool :=
  negb (length (vs_waiting s) =? 0) || negb (length (vs_running s) =? 0) || negb (length (vs_swapped s) =? 0).
Definition get_num_unfinished_seq_groups (s : V0Scheduler B) : nat :=
  length (vs_waiting s) + length (vs_running s) + length (vs_swapped s).
Definition get_and_reset_finished_requests_ids : VS (list string) :=
  s ← mget; mput (set_vs_finished_requests_ids [] s);;; mret (vs_finished_requests_ids s).

(** * Finished groups *)
Definition free_finished_seqs (r : nat) : VS unit :=
  idx ← seq_positions r None;
  mfor idx (λ i, s ← the_seq r i; mwhen (seq_is_finished s) (free_seq s)).
Definition free_finished_seq_group (r : nat) : VS unit :=
  f ← on_group r group_is_finished;
  mwhen f
    (free_cross_attn_blocks r;;;
     id ← request_id_of r;
     mmodify (λ s, set_vs_finished_requests_ids (vs_finished_requests_ids s ++ [id]) s));;;
  free_finished_seqs r.
Definition free_finished_seq_groups : VS unit :=
  running ← mgets vs_running;
  remaining ← mfold running [] (λ remaining r,
    free_finished_seq_group r;;;
    f ← on_group r group_is_finished;
    mret (if (f : bool) then remaining else remaining ++ [r]));
  mmodify (set_vs_running remaining);;;
  stopped ← mgets vs_async_stopped;
  mwhen (negb (length stopped =? 0))
    (mfor stopped (λ r,
       free_cross_attn_blocks r;;;
       id ← request_id_of r;
       mmodify (λ s, set_vs_finished_requests_ids (vs_finished_requests_ids s ++ [id]) s);;;
       free_finished_seqs r);;;
     mmodify (set_vs_async_stopped [])).

(** * Slots and tokens *)
Definition get_num_lookahead_slots (is_prefill enable_chunking : bool) : Z :=
  if is_prefill then if is_multi_step sc && enable_chunking then (cf_num_lookahead_slots sc + 1)%Z else 0%Z
  else cf_num_lookahead_slots sc.
Definition get_prompt_limit (g : SequenceGroup) : result Z :=
  let prompt_limit :=
    if cf_chunked_prefill_enabled sc && negb (is_multi_step sc) then cf_max_model_len sc
    else Z.min (cf_max_model_len sc) (cf_max_num_batched_tokens sc) in
  match sg_lora_request g with
  | Some l =>
    match long_lora_max_len l with
    | Some n => if (n =? 0)%Z then Ok prompt_limit
                else if (prompt_limit <=? n)%Z then Ok n else Raise (AssertionError "prompt_limit <= long_lora_max_len")
    | None => Ok prompt_limit
    end
  | None => Ok prompt_limit
  end.
Definition chunk_new_tokens_to_schedule (b : SchedulingBudget) (prompt_limit num_new_tokens : Z) : result Z :=
  let remaining := remaining_token_budget b in
  if is_multi_step sc then
    Ok (if (prompt_limit <? num_new_tokens)%Z then num_new_tokens
        else if (remaining <? num_new_tokens)%Z then 0 else num_new_tokens)%Z
  else if cc_enable_prefix_caching (vc_cache conf) then
    let block_size := cc_block_size (vc_cache conf) in
    if negb (sb_token_budget b `mod` block_size =? 0)%Z
    then Raise (ValueError "max_num_batched_tokens must be dividable by block size")
    else Ok (Z.min num_new_tokens (remaining / block_size * block_size))
  else Ok (Z.min num_new_tokens remaining).
(** The new uncached and cached tokens of one sequence. *)
Definition new_tokens_of_seq (s : Sequence) : VS (Z * Z) :=
  if negb (seq_is_prefill s) then mret (1, 0)%Z
  else
    let num_computed_tokens := sd_num_computed_tokens (sq_data s) in
    let all_num_new_tokens := (sd_get_len (sq_data s) - num_computed_tokens)%Z in
    if negb (cc_enable_prefix_caching (vc_cache conf)) then mret (all_num_new_tokens, 0%Z)
    else
      num_cached_tokens ← on_manager (bsm_get_num_cached_tokens s);
      mwhen (num_cached_tokens <? num_computed_tokens)%Z
        (massert (seq_is_prefill s && bool_decide (sq_status s = SEQ_RUNNING) && cf_chunked_prefill_enabled sc)
           "Number of cached tokens should not be less than the number of computed tokens");;;
      let num_cached_new_tokens := Z.max 0 (num_cached_tokens - num_computed_tokens) in
      mret ((all_num_new_tokens - num_cached_new_tokens)%Z, num_cached_new_tokens).
Definition get_num_new_uncached_and_cached_tokens (r : nat) (status : SequenceStatus) (enable_chunking : bool)
    (budget : SchedulingBudget) : VS (Z * Z) :=
  idx ← seq_positions r (Some status);
  '(uncached, cached) ← mfold idx (0, 0)%Z (λ '(uncached, cached) i,
    s ← the_seq r i;
    '(u, c) ← new_tokens_of_seq s;
    mret (uncached + u, cached + c)%Z);
  let '(uncached, cached) :=
    (if (uncached =? 0)%Z && (0 <? cached)%Z then (1, cached - 1) else (uncached, cached))%Z in
  if enable_chunking && (length idx =? 1) then
    g ← the_group r;
    limit ← mlift (get_prompt_limit g);
    n ← mlift (chunk_new_tokens_to_schedule budget limit uncached);
    mret (n, cached)
  else mret (uncached, cached).

Definition can_append_slots (r : nat) (enable_chunking : bool) : VS bool :=
  preempt ← (if vc_artificial_preemption conf
             then d ← draw; s ← mget;
                  if (d : bool) && (0 <? vs_artificial_preempt_cnt s)%Z
                  then mmodify (λ s, set_vs_artificial_preempt_cnt (vs_artificial_preempt_cnt s - 1) s);;; mret true
                  else mret false
             else mret false);
  if (preempt : bool) then mret false
  else
    is_prefill ← on_group r group_is_prefill;
    let num_lookahead_slots := get_num_lookahead_slots is_prefill enable_chunking in
    mwhen ((is_prefill : bool) && (0 <? num_lookahead_slots)%Z)
      (massert (is_multi_step sc && enable_chunking) "self.scheduler_config.is_multi_step and enable_chunking");;;
    g ← the_group r;
    on_manager (bsm_can_append_slots g num_lookahead_slots).
(** Returns the copies that [blocks_to_copy] is extended with. *)
Definition append_group_slots (r : nat) (enable_chunking : bool) : VS (list (nat * nat)) :=
  is_prefill ← on_group r group_is_prefill;
  let num_lookahead_slots := get_num_lookahead_slots is_prefill enable_chunking in
  on_group r (init_multi_step_from_lookahead_slots num_lookahead_slots (cf_num_scheduler_steps sc) (is_multi_step sc) enable_chunking);;;
  idx ← seq_positions r (if is_multi_step sc && enable_chunking then None else Some SEQ_RUNNING);
  mfold idx [] (λ copies i,
    s ← the_seq r i;
    cows ← on_manager (bsm_append_slots s num_lookahead_slots);
    mret (copies ++ cows)).
Definition allocate_and_set_running (r : nat) : VS unit :=
  g ← the_group r;
  on_manager (bsm_allocate g);;;
  idx ← seq_positions r (Some SEQ_WAITING);
  mfor idx (λ i, upd_seq r i (set_sq_status SEQ_RUNNING)).

(** * Preemption and swapping *)
Definition preempt_by_recompute (r : nat) : VS unit :=
  idx ← seq_positions r (Some SEQ_RUNNING);
  massert (length idx =? 1) "len(seqs) == 1";;;
  mfor idx (λ i,
    upd_seq r i (set_sq_status SEQ_WAITING);;;
    s ← the_seq r i;
    free_seq s;;;
    '(_, s) ← mlift (seq_reset_state_for_recompute s);
    upd_seq r i (λ _, s)).
(** [l.extend(mapping)] raises on [None]. *)
Definition mapping_of (m : option (list (nat * nat))) : VS (list (nat * nat)) :=
  match m with Some l => mret l | None => mraise (TypeError "'NoneType' object is not iterable") end.
Definition v0_swap_in (r : nat) : VS (list (nat * nat)) :=
  g ← the_group r;
  m ← on_manager (bsm_swap_in g);
  m ← mapping_of m;
  idx ← seq_positions r (Some SEQ_SWAPPED);
  mfor idx (λ i, upd_seq r i (set_sq_status SEQ_RUNNING));;;
  mret m.
Definition v0_swap_out (r : nat) : VS (list (nat * nat)) :=
  g ← the_group r;
  ok ← on_manager (bsm_can_swap_out g);
  if negb ok then mraise (RuntimeError "Aborted due to the lack of CPU swap space. Please increase the swap space to avoid this error.")
  else
    m ← on_manager (bsm_swap_out g);
    m ← mapping_of m;
    idx ← seq_positions r (Some SEQ_RUNNING);
    mfor idx (λ i, upd_seq r i (set_sq_status SEQ_SWAPPED));;;
    mret m.
(** Returns the mode and the blocks that [blocks_to_swap_out] is extended with. *)
Definition preempt (r : nat) : VS (PreemptionMode * list (nat * nat)) :=
  n ← on_group r get_max_num_running_seqs;
  let mode :=
    match cf_preemption_mode sc with
    | None => if (n =? 1)%Z then PREEMPT_RECOMPUTE else PREEMPT_SWAP
    | Some m => if bool_decide (m = "swap"%string) then PREEMPT_SWAP else PREEMPT_RECOMPUTE
    end in
  mmodify (λ s, set_vs_num_cumulative_preemption (vs_num_cumulative_preemption s + 1) s);;;
  match mode with
  | PREEMPT_RECOMPUTE => preempt_by_recompute r;;; mret (mode, [])
  | PREEMPT_SWAP => m ← v0_swap_out r; mret (mode, m)
  end.

(** [_passed_delay] *)
Definition passed_delay (now : Z) : VS bool :=
  mmodify (λ s, if vs_prev_prompt s then set_vs_last_prompt_latency (now - vs_prev_time s) s else s);;;
  mmodify (λ s, set_vs_prev_prompt false (set_vs_prev_time now s));;;
  s ← mget;
  if negb (Qle_bool (cf_delay_factor sc) 0) && negb (length (vs_waiting s) =? 0) then
    arrivals ← mfold (vs_waiting s) [] (λ l r, g ← the_group r; mret (l ++ [rm_arrival_time (sg_metrics g)]));
    let earliest := match arrivals with t :: l => foldr Z.min t l | [] => 0%Z end in
    mret (negb (Qle_bool (inject_Z (now - earliest)) (cf_delay_factor sc * inject_Z (vs_last_prompt_latency s))) ||
          (length (vs_running s) =? 0))
  else mret true.
End scheduler.
