(* ===== verification/V0Phases.v ===== *)
(** The phases of the V0 scheduler (vllm/core/scheduler.py): running, swapped and
    waiting groups, the two policies, and [schedule].

    The loops take fuel: a turn of the outer loops takes a group off its queue, a
    turn of the preemption loop takes a victim. *)
From Stdlib Require Import ssreflect ZArith Lia.
From stdpp Require Import base numbers list gmap strings.
From S2P Require Import Prelude SamplingParams SequenceData Sequences BlockTable BlockManager SchedConfig V0Types V0Sched.

(** The local variables that the phases share. *)
Record Pass (B : Type) := {
  ps_sched : V0Scheduler B;
  ps_budget : SchedulingBudget;
  ps_loras : option (list Z);
}.
#[global] Arguments ps_sched {B}. #[global] Arguments ps_budget {B}. #[global] Arguments ps_loras {B}.

Section phases.
Context {B : Type} `{BSM : BlockSpaceManager B}.
Context (conf : V0Config) (output_proc_callback : option (string → M (V0Scheduler B) unit)).
Definition set_ps_sched (v : V0Scheduler B) (r : Pass B) : Pass B := {| ps_sched := v; ps_budget := ps_budget r; ps_loras := ps_loras r |}.
Definition set_ps_budget (v : SchedulingBudget) (r : Pass B) : Pass B := {| ps_sched := ps_sched r; ps_budget := v; ps_loras := ps_loras r |}.
Definition set_ps_loras (v : option (list Z)) (r : Pass B) : Pass B := {| ps_sched := ps_sched r; ps_budget := ps_budget r; ps_loras := v |}.
Abbreviation VS := (M (V0Scheduler B)).
Abbreviation PS := (M (Pass B)).
Abbreviation sc := (vc_scheduler conf).
Definition on_sch {A} (m : VS A) : PS A := zoom ps_sched set_ps_sched m.
Definition on_budget {A} (m : M SchedulingBudget A) : PS A := zoom ps_budget set_ps_budget m.
Definition new_tokens (r : nat) (status : SequenceStatus) (enable_chunking : bool) : PS (Z * Z) :=
  p ← mget; on_sch (get_num_new_uncached_and_cached_tokens conf r status enable_chunking (ps_budget p)).
(** [curr_loras.add(id)] and [curr_loras.remove(id)], if there is a set. *)
Definition add_lora (id : Z) : PS unit :=
  mmodify (λ p, set_ps_loras ((λ l, if bool_decide (id ∈ l) then l else l ++ [id]) <$> ps_loras p) p).
Definition drop_lora (id : Z) : PS unit :=
  mmodify (λ p, set_ps_loras ((λ l, if (0 <? id)%Z then filter (λ x, x ≠ id) l else l) <$> ps_loras p) p).

(** * [_schedule_running] *)
(** A victim is freed if the pending output finishes it, else preempted. *)
Definition preempt_victim (victim : nat) (ret : SchedulerRunningOutputs) : PS SchedulerRunningOutputs :=
  do_preempt ← match output_proc_callback with
    | None => mret true
    | Some callback =>
      id ← on_sch (request_id_of victim);
      on_sch (callback id);;;
      f ← on_sch (on_group victim group_is_finished);
      if (f : bool) then on_sch (free_finished_seq_group victim);;; mret false else mret true
    end;
  if (do_preempt : bool) then
    '(mode, blocks) ← on_sch (preempt conf victim);
    let ret := set_ro_blocks_to_swap_out (ro_blocks_to_swap_out ret ++ blocks) ret in
    mret (match mode with
          | PREEMPT_RECOMPUTE => set_ro_preempted (ro_preempted ret ++ [victim]) ret
          | PREEMPT_SWAP => set_ro_swapped_out (ro_swapped_out ret ++ [victim]) ret
          end)
  else mret ret.
(** The loop [while not self._can_append_slots]: answers whether the group can
    run. *)
Fixpoint make_room (fuel : nat) (r : nat) (num_running_tokens : Z) (enable_chunking : bool) (ret : SchedulerRunningOutputs)
    : PS (bool * SchedulerRunningOutputs) :=
  match fuel with
  | 0 => mraise OutOfFuel
  | S fuel =>
    ok ← on_sch (can_append_slots conf r enable_chunking);
    if (ok : bool) then mret (true, ret)
    else
      g ← on_sch (the_group r);
      on_budget (subtract_num_batched_tokens (sg_request_id g) num_running_tokens);;;
      num_running_seqs ← on_sch (on_group r get_max_num_running_seqs);
      on_budget (subtract_num_seqs (sg_request_id g) num_running_seqs);;;
      drop_lora (sg_lora_int_id g);;;
      running_queue ← mgets (λ p, vs_running (ps_sched p));
      match last running_queue with
      | Some victim =>
        on_sch (mmodify (set_vs_running (removelast running_queue)));;;
        ret ← preempt_victim victim ret;
        make_room fuel r num_running_tokens enable_chunking ret
      | None => ret ← preempt_victim r ret; mret (false, ret)
      end
  end.
(** The [else] branch: the group runs. *)
Definition run_group (r : nat) (num_running_tokens : Z) (enable_chunking : bool) (ret : SchedulerRunningOutputs)
    : PS SchedulerRunningOutputs :=
  copies ← on_sch (append_group_slots conf r enable_chunking);
  let ret := set_ro_blocks_to_copy (ro_blocks_to_copy ret ++ copies) ret in
  is_prefill ← on_sch (on_group r group_is_prefill);
  let ret :=
    if is_prefill : bool
    then set_ro_prefill_seq_groups_list (ro_prefill_seq_groups_list ret ++ [r])
           (set_ro_prefill_seq_groups (ro_prefill_seq_groups ret ++ [{| ssg_seq_group := r; ssg_token_chunk_size := num_running_tokens |}]) ret)
    else set_ro_decode_seq_groups_list (ro_decode_seq_groups_list ret ++ [r])
           (set_ro_decode_seq_groups (ro_decode_seq_groups ret ++ [{| ssg_seq_group := r; ssg_token_chunk_size := 1 |}]) ret) in
  g ← on_sch (the_group r);
  on_budget (add_num_batched_tokens (sg_request_id g) num_running_tokens 0);;;
  mwhen enable_chunking
    (num_running_seqs ← on_sch (on_group r get_max_num_running_seqs);
     on_budget (add_num_seqs (sg_request_id g) num_running_seqs));;;
  mwhen (0 <? sg_lora_int_id g)%Z (add_lora (sg_lora_int_id g));;;
  mret ret.
Fixpoint v0_running_loop (fuel : nat) (enable_chunking : bool) (ret : SchedulerRunningOutputs) : PS SchedulerRunningOutputs :=
  match fuel with
  | 0 => mraise OutOfFuel
  | S fuel =>
    running_queue ← mgets (λ p, vs_running (ps_sched p));
    match running_queue with
    | [] => mret ret
    | r :: running_queue =>
      '(num_running_tokens, _) ← new_tokens r SEQ_RUNNING enable_chunking;
      if (num_running_tokens =? 0)%Z then mret ret
      else
        on_sch (mmodify (set_vs_running running_queue));;;
        s ← on_sch (on_group r first_seq);
        if use_async_output_proc output_proc_callback && (cf_max_model_len sc <? sd_get_len (sq_data s))%Z then
          on_sch (mmodify (λ s, set_vs_async_stopped (vs_async_stopped s ++ [r]) s));;;
          v0_running_loop fuel enable_chunking ret
        else
          '(ok, ret) ← make_room (S (length running_queue)) r num_running_tokens enable_chunking ret;
          ret ← (if (ok : bool) then run_group r num_running_tokens enable_chunking ret else mret ret);
          v0_running_loop fuel enable_chunking ret
    end
  end.
Definition schedule_running (enable_chunking : bool) : PS SchedulerRunningOutputs :=
  s ← mgets ps_sched;
  massert (length (vs_async_stopped s) =? 0) "len(self._async_stopped) == 0";;;
  v0_running_loop (S (length (vs_running s))) enable_chunking
    (running_outputs_empty (get_num_lookahead_slots conf false enable_chunking)).

(** * [_schedule_swapped] *)
(** There is no space for another LoRA. *)
Definition lora_full (id : Z) : PS bool :=
  match vc_lora conf with
  | None => mret false
  | Some lc =>
    p ← mget;
    match ps_loras p with
    | None => mraise (AssertionError "curr_loras is not None")
    | Some l => mret ((0 <? id)%Z && negb (bool_decide (id ∈ l)) && (max_loras lc <=? Z.of_nat (length l))%Z)
    end
  end.
(** [lora_int_id] of the loop: 0 when LoRA is disabled. *)
Definition lora_id_of (g : SequenceGroup) : Z := if lora_enabled conf then sg_lora_int_id g else 0%Z.
Definition swap_in_group (r : nat) (lora_int_id num_new_seqs uncached cached : Z) (enable_chunking : bool)
    (ret : SchedulerSwappedInOutputs) : PS SchedulerSwappedInOutputs :=
  mwhen (0 <? lora_int_id)%Z (add_lora lora_int_id);;;
  on_sch (mmodify (λ s, set_vs_swapped (tail (vs_swapped s)) s));;;
  blocks ← on_sch (v0_swap_in r);
  copies ← on_sch (append_group_slots conf r enable_chunking);
  let ret := set_si_blocks_to_copy (si_blocks_to_copy ret ++ copies)
               (set_si_blocks_to_swap_in (si_blocks_to_swap_in ret ++ blocks) ret) in
  is_prefill ← on_sch (on_group r group_is_prefill);
  let ret :=
    if is_prefill : bool
    then set_si_prefill_seq_groups (si_prefill_seq_groups ret ++
           [{| ssg_seq_group := r; ssg_token_chunk_size := uncached + cached |}]) ret
    else set_si_decode_seq_groups (si_decode_seq_groups ret ++ [{| ssg_seq_group := r; ssg_token_chunk_size := 1 |}]) ret in
  id ← on_sch (request_id_of r);
  on_budget (add_num_batched_tokens id uncached cached);;;
  on_budget (add_num_seqs id num_new_seqs);;;
  mret ret.
(** [leftover] is the deque of the groups that were put aside. *)
Fixpoint swapped_loop (fuel : nat) (enable_chunking : bool) (leftover : list nat) (ret : SchedulerSwappedInOutputs)
    : PS (list nat * SchedulerSwappedInOutputs) :=
  match fuel with
  | 0 => mraise OutOfFuel
  | S fuel =>
    swapped_queue ← mgets (λ p, vs_swapped (ps_sched p));
    match swapped_queue with
    | [] => mret (leftover, ret)
    | r :: swapped_queue =>
      is_prefill ← on_sch (on_group r group_is_prefill);
      g ← on_sch (the_group r);
      alloc_status ← on_sch (on_manager (bsm_can_swap_in g (get_num_lookahead_slots conf is_prefill enable_chunking)));
      match alloc_status with
      | ALLOC_LATER => mret (leftover, ret)
      | ALLOC_NEVER =>
        on_sch (on_group r (mmodify (set_all_seqs (set_sq_status SEQ_FINISHED_IGNORED))));;;
        on_sch (mmodify (set_vs_swapped swapped_queue));;;
        swapped_loop fuel enable_chunking leftover (set_si_infeasible_seq_groups (si_infeasible_seq_groups ret ++ [r]) ret)
      | ALLOC_OK =>
        full ← lora_full (lora_id_of g);
        if (full : bool) then
          on_sch (mmodify (set_vs_swapped swapped_queue));;;
          swapped_loop fuel enable_chunking (r :: leftover) ret
        else
          num_new_seqs ← on_sch (on_group r get_max_num_running_seqs);
          '(uncached, cached) ← new_tokens r SEQ_SWAPPED enable_chunking;
          ok ← (if (uncached =? 0)%Z then mret false else on_budget (can_schedule uncached num_new_seqs));
          if negb ok then mret (leftover, ret)
          else
            ret ← swap_in_group r (lora_id_of g) num_new_seqs uncached cached enable_chunking ret;
            swapped_loop fuel enable_chunking leftover ret
      end
    end
  end.
(** [deque.extendleft] reverses. *)
Definition extendleft (l q : list nat) : list nat := reverse l ++ q.
Definition schedule_swapped (enable_chunking : bool) : PS SchedulerSwappedInOutputs :=
  s ← mgets ps_sched;
  '(leftover, ret) ← swapped_loop (S (length (vs_swapped s))) enable_chunking []
                       (swapped_in_outputs_empty (get_num_lookahead_slots conf false enable_chunking));
  on_sch (mmodify (λ s, set_vs_swapped (extendleft leftover (vs_swapped s)) s));;;
  mret ret.

(** * [_schedule_priority_preemption] *)
Definition get_priority (g : SequenceGroup) : Z * Z := (sg_priority g, rm_arrival_time (sg_metrics g)).
Definition priority_lt (p q : Z * Z) : bool := (p.1 <? q.1)%Z || (p.1 =? q.1)%Z && (p.2 <? q.2)%Z.
Definition sort_queue (q : list nat) : VS (list nat) :=
  keyed ← mfold q [] (λ l r, g ← the_group r; mret (l ++ [(r, get_priority g)]));
  mret (fst <$> py_sorted (λ x y, priority_lt x.2 y.2) keyed).
(** The loop that preempts running groups of lower priority; returns what is left
    of the sorted running queue and the number of victims. *)
Fixpoint priority_loop (running_queue : list nat) (r : nat) (num_new_tokens num_new_seqs : Z) (count : nat) : PS (list nat * nat) :=
  match running_queue with
  | [] => mret ([], count)
  | victim :: running_queue' =>
    v ← on_sch (the_group victim);
    g ← on_sch (the_group r);
    if negb (priority_lt (get_priority g) (get_priority v)) then mret (running_queue, count)
    else
      can_allocate ← on_sch (on_manager (bsm_can_allocate g 0));
      fits ← (if (0 <? num_new_tokens)%Z && bool_decide (can_allocate = ALLOC_OK)
              then on_budget (can_schedule num_new_tokens num_new_seqs) else mret false);
      if (fits : bool) then mret (running_queue, count)
      else
        '(num_running_tokens, _) ← new_tokens victim SEQ_RUNNING false;
        on_budget (subtract_num_batched_tokens (sg_request_id v) num_running_tokens);;;
        num_running_seqs ← on_sch (on_group victim get_max_num_running_seqs);
        on_budget (subtract_num_seqs (sg_request_id v) num_running_seqs);;;
        on_sch (preempt conf victim);;;
        on_sch (mmodify (λ s, set_vs_waiting (victim :: vs_waiting s) s));;;
        priority_loop running_queue' r num_new_tokens num_new_seqs (S count)
  end.
(** The running queue is only assigned at the end; victims are taken from its
    right, so the loop runs over its reverse. *)
Definition schedule_priority_preemption : PS nat :=
  s ← mgets ps_sched;
  running_queue ← on_sch (sort_queue (vs_running s));
  '(running_queue, count) ← match vs_waiting s with
    | [] => mret (running_queue, 0)
    | r :: waiting_queue =>
      on_sch (mmodify (set_vs_waiting waiting_queue));;;
      num_new_seqs ← on_sch (on_group r get_max_num_running_seqs);
      '(num_new_tokens, _) ← new_tokens r SEQ_WAITING false;
      '(rest, count) ← priority_loop (reverse running_queue) r num_new_tokens num_new_seqs 0;
      on_sch (mmodify (λ s, set_vs_waiting (r :: vs_waiting s) s));;;
      mret (reverse rest, count)
    end;
  s ← mgets ps_sched;
  waiting_queue ← on_sch (sort_queue (vs_waiting s));
  on_sch (mmodify (λ s, set_vs_running running_queue (set_vs_waiting waiting_queue s)));;;
  mret count.

(** * [_schedule_prefills] *)
Definition pop_waiting : PS unit := on_sch (mmodify (λ s, set_vs_waiting (tail (vs_waiting s)) s)).
(** The waiting sequences of [r] are ignored. *)
Definition ignore_waiting (r : nat) (ret : SchedulerPrefillOutputs) : PS SchedulerPrefillOutputs :=
  idx ← on_sch (seq_positions r (Some SEQ_WAITING));
  mfor idx (λ i, on_sch (upd_seq r i (set_sq_status SEQ_FINISHED_IGNORED)));;;
  pop_waiting;;;
  mret (set_po_ignored_seq_groups (po_ignored_seq_groups ret ++ [r]) ret).
Definition start_prefill (r : nat) (lora_int_id num_lookahead_slots num_new_seqs uncached cached : Z) (enable_chunking : bool)
    (ret : SchedulerPrefillOutputs) : PS SchedulerPrefillOutputs :=
  mwhen (0 <? lora_int_id)%Z (add_lora lora_int_id);;;
  pop_waiting;;;
  on_sch (allocate_and_set_running r);;;
  (if enable_chunking && is_multi_step sc
   then copies ← on_sch (append_group_slots conf r enable_chunking);
        massert (bool_decide (copies = [])) "not blocks_to_copy"
   else on_sch (on_group r (init_multi_step_from_lookahead_slots num_lookahead_slots (cf_num_scheduler_steps sc) (is_multi_step sc) enable_chunking)));;;
  id ← on_sch (request_id_of r);
  on_budget (add_num_batched_tokens id uncached cached);;;
  on_budget (add_num_seqs id num_new_seqs);;;
  mret (set_po_seq_groups (po_seq_groups ret ++ [{| ssg_seq_group := r; ssg_token_chunk_size := uncached + cached |}]) ret).
Fixpoint prefills_loop (fuel : nat) (enable_chunking : bool) (leftover : list nat) (ret : SchedulerPrefillOutputs)
    : PS (list nat * SchedulerPrefillOutputs) :=
  match fuel with
  | 0 => mraise OutOfFuel
  | S fuel =>
    now ← on_sch v0_time;
    passed ← on_sch (passed_delay conf now);
    waiting_queue ← mgets (λ p, vs_waiting (ps_sched p));
    match waiting_queue with
    | [] => mret (leftover, ret)
    | r :: waiting_queue =>
      if negb passed then mret (leftover, ret)
      else
        g ← on_sch (the_group r);
        idx ← on_sch (seq_positions r (Some SEQ_WAITING));
        massert (length idx =? 1) "Waiting sequence group should have only one prompt sequence.";;;
        '(uncached, cached) ← new_tokens r SEQ_WAITING enable_chunking;
        let num_new_tokens := (uncached + cached)%Z in
        mwhen (negb enable_chunking)
          (s ← on_sch (the_seq r 0);
           massert (num_new_tokens =? sd_get_len (sq_data s))%Z "num_new_tokens == num_prompt_tokens");;;
        prompt_limit ← mlift (get_prompt_limit conf g);
        if (prompt_limit <? num_new_tokens)%Z then
          ret ← ignore_waiting r ret;
          prefills_loop fuel enable_chunking leftover ret
        else
          let num_lookahead_slots := if is_multi_step sc && enable_chunking then get_num_lookahead_slots conf true enable_chunking else 0%Z in
          can_allocate ← on_sch (on_manager (bsm_can_allocate g num_lookahead_slots));
          match can_allocate with
          | ALLOC_LATER => mret (leftover, ret)
          | ALLOC_NEVER =>
            ret ← ignore_waiting r ret;
            prefills_loop fuel enable_chunking leftover ret
          | ALLOC_OK =>
            full ← lora_full (lora_id_of g);
            if (full : bool) then
              pop_waiting;;;
              prefills_loop fuel enable_chunking (r :: leftover) ret
            else
              p ← mget;
              if (cf_max_num_batched_tokens sc <=? sb_num_batched_tokens (ps_budget p))%Z then mret (leftover, ret)
              else
                num_new_seqs ← on_sch (on_group r get_max_num_running_seqs);
                ok ← (if (uncached =? 0)%Z then mret false else on_budget (can_schedule uncached num_new_seqs));
                if negb ok then mret (leftover, ret)
                else
                  ret ← start_prefill r (lora_id_of g) num_lookahead_slots num_new_seqs uncached cached enable_chunking ret;
                  prefills_loop fuel enable_chunking leftover ret
          end
    end
  end.
Definition schedule_prefills (enable_chunking : bool) : PS SchedulerPrefillOutputs :=
  s ← mgets ps_sched;
  '(leftover, ret) ← prefills_loop (S (length (vs_waiting s))) enable_chunking []
                       (prefill_outputs_empty (get_num_lookahead_slots conf true enable_chunking));
  on_sch (mmodify (λ s, set_vs_waiting (extendleft leftover (vs_waiting s)) s));;;
  mwhen (negb (length (po_seq_groups ret) =? 0)) (on_sch (mmodify (set_vs_prev_prompt true)));;;
  mret ret.
End phases.
