(* ===== verification/V0Schedule.v ===== *)
(** The two policies of the V0 scheduler and [schedule] (vllm/core/scheduler.py):
    [_schedule_default], [_schedule_chunked_prefill], the checks and the sorting of
    [SchedulerOutputs], and the messages for the workers. *)
From Stdlib Require Import ssreflect ZArith Lia.
From stdpp Require Import base numbers list gmap strings.
From S2P Require Import Prelude SamplingParams SequenceData Sequences BlockTable BlockManager SchedConfig V0Types V0Sched V0Phases.

(** What the scheduler sends for a group: everything, or a delta. *)
Inductive GroupMessage := FullMetadata (m : SequenceGroupMetadata) | DeltaMetadata (d : SequenceGroupMetadataDelta).
Definition groups_of (l : list ScheduledSequenceGroup) : list nat := ssg_seq_group <$> l.

Section schedule.
Context {B : Type} `{BSM : BlockSpaceManager B}.
Context (conf : V0Config) (output_proc_callback : option (string → M (V0Scheduler B) unit)).
Abbreviation VS := (M (V0Scheduler B)).
Abbreviation PS := (M (Pass B)).
Abbreviation sc := (vc_scheduler conf).

(** * [SchedulerOutputs] *)
Definition so_is_empty (o : V0SchedulerOutputs) : bool :=
  (length (so_scheduled_seq_groups o) =? 0) && (length (so_blocks_to_swap_in o) =? 0) &&
  (length (so_blocks_to_swap_out o) =? 0) && (length (so_blocks_to_copy o) =? 0).
(** The number of different LoRA requests, which are told apart by their names. *)
Definition num_loras (o : V0SchedulerOutputs) : VS nat :=
  names ← mfold (so_scheduled_seq_groups o) [] (λ names g,
    g ← the_group (ssg_seq_group g);
    mret (match sg_lora_request g with Some l => set_add (lora_name l) names | None => names end));
  mret (length names).
(** Tuples of a flag, a number and a string. *)
Definition lora_key_lt (x y : bool * Z * string) : bool :=
  let '(b1, n1, s1) := x in let '(b2, n2, s2) := y in
  (negb b1 && b2) || bool_decide (b1 = b2) && ((n1 <? n2)%Z || (n1 =? n2)%Z && String.ltb s1 s2).
Definition sort_by_lora_ids (o : V0SchedulerOutputs) : VS V0SchedulerOutputs :=
  let n := Z.of_nat (length (so_scheduled_seq_groups o)) in
  massert ((0 <=? so_num_prefill_groups o)%Z && (so_num_prefill_groups o <=? n)%Z) "0 <= num_prefill_groups <= len";;;
  let mixed := (0 <? so_num_prefill_groups o)%Z && (so_num_prefill_groups o <? n)%Z in
  keyed ← mfold (so_scheduled_seq_groups o) [] (λ l x,
    g ← the_group (ssg_seq_group x);
    is_prefill ← on_group (ssg_seq_group x) group_is_prefill;
    mret (l ++ [((mixed && negb is_prefill, sg_lora_int_id g, sg_request_id g), x)]));
  mret (set_so_scheduled_seq_groups (snd <$> py_sorted (λ a b, lora_key_lt a.1 b.1) keyed) o).
Definition outputs_post_init (o : V0SchedulerOutputs) : VS V0SchedulerOutputs :=
  massert (negb (negb (length (so_blocks_to_swap_in o) =? 0) && negb (length (so_blocks_to_swap_out o) =? 0)))
    "not (self.blocks_to_swap_in and self.blocks_to_swap_out)";;;
  n ← num_loras o;
  if 0 <? n then sort_by_lora_ids o else mret o.

(** * The policies *)
Definition check_budget : PS unit :=
  p ← mget;
  massert (sb_num_batched_tokens (ps_budget p) <=? cf_max_num_batched_tokens sc)%Z
    "budget.num_batched_tokens <= max_num_batched_tokens";;;
  massert (sb_num_curr_seqs (ps_budget p) <=? cf_max_num_seqs sc)%Z "budget.num_curr_seqs <= max_num_seqs".
Definition extend_running (l : list nat) : PS unit := on_sch (mmodify (λ s, set_vs_running (vs_running s ++ l) s)).
(** The running groups count against the budget before prefills are scheduled. *)
Definition count_running : PS unit :=
  s ← mgets ps_sched;
  mfor (vs_running s) (λ r,
    id ← on_sch (request_id_of r);
    n ← on_sch (on_group r get_max_num_running_seqs);
    on_budget (add_num_seqs id n)).
Definition running_loras : PS unit :=
  if lora_enabled conf then
    mmodify (set_ps_loras (Some []));;;
    s ← mgets ps_sched;
    mfor (vs_running s) (λ r, g ← on_sch (the_group r); mwhen (0 <? sg_lora_int_id g)%Z (add_lora (sg_lora_int_id g)))
  else mmodify (set_ps_loras None).
Definition schedule_default_pass : PS V0SchedulerOutputs :=
  count_running;;;
  running_loras;;;
  s ← mgets ps_sched;
  prefills ← (if length (vs_swapped s) =? 0 then schedule_prefills conf false else mret (prefill_outputs_empty 0));
  let no_prefills := length (po_seq_groups prefills) =? 0 in
  mwhen (no_prefills && bool_decide (cf_policy sc = "priority"%string))
    (schedule_priority_preemption conf;;; mret tt);;;
  '(running_scheduled, swapped_in) ←
    (if no_prefills then
       running_scheduled ← schedule_running conf output_proc_callback false;
       swapped_in ← (if length (ro_preempted running_scheduled) + length (ro_swapped_out running_scheduled) =? 0
                     then schedule_swapped conf false else mret (swapped_in_outputs_empty 0));
       mret (running_scheduled, swapped_in)
     else mret (running_outputs_empty 0, swapped_in_outputs_empty 0));
  check_budget;;;
  on_sch (mmodify (λ s, set_vs_waiting (extendleft (ro_preempted running_scheduled) (vs_waiting s)) s));;;
  extend_running (groups_of (po_seq_groups prefills));;;
  extend_running (ro_decode_seq_groups_list running_scheduled);;;
  extend_running (groups_of (si_decode_seq_groups swapped_in));;;
  on_sch (mmodify (λ s, set_vs_swapped (vs_swapped s ++ ro_swapped_out running_scheduled) s));;;
  let preempted := (length (ro_preempted running_scheduled) + length (ro_swapped_out running_scheduled))%nat in
  massert (length (ro_prefill_seq_groups running_scheduled) =? 0) "len(running_scheduled.prefill_seq_groups) == 0";;;
  massert (length (si_prefill_seq_groups swapped_in) =? 0) "len(swapped_in.prefill_seq_groups) == 0";;;
  p ← mget;
  on_sch (outputs_post_init {|
    so_scheduled_seq_groups := po_seq_groups prefills ++ ro_decode_seq_groups running_scheduled ++ si_decode_seq_groups swapped_in;
    so_num_prefill_groups := Z.of_nat (length (po_seq_groups prefills));
    so_num_batched_tokens := sb_num_batched_tokens (ps_budget p) + sb_num_cached_tokens (ps_budget p);
    so_blocks_to_swap_in := si_blocks_to_swap_in swapped_in;
    so_blocks_to_swap_out := ro_blocks_to_swap_out running_scheduled;
    so_blocks_to_copy := ro_blocks_to_copy running_scheduled ++ si_blocks_to_copy swapped_in;
    so_ignored_seq_groups := po_ignored_seq_groups prefills ++ si_infeasible_seq_groups swapped_in;
    so_num_lookahead_slots := ro_num_lookahead_slots running_scheduled;
    so_running_queue_size := Z.of_nat (length (vs_running (ps_sched p)));
    so_preempted := Z.of_nat preempted |}).
Definition schedule_chunked_prefill_pass : PS V0SchedulerOutputs :=
  mmodify (set_ps_loras (Some []));;;
  running_scheduled ← schedule_running conf output_proc_callback true;
  swapped_in ← (if length (ro_preempted running_scheduled) + length (ro_swapped_out running_scheduled) =? 0
                then schedule_swapped conf false else mret (swapped_in_outputs_empty 0));
  prefills ← schedule_prefills conf true;
  check_budget;;;
  on_sch (mmodify (λ s, set_vs_waiting (extendleft (ro_preempted running_scheduled) (vs_waiting s)) s));;;
  extend_running (groups_of (si_decode_seq_groups swapped_in));;;
  extend_running (groups_of (si_prefill_seq_groups swapped_in));;;
  extend_running (groups_of (ro_decode_seq_groups running_scheduled));;;
  extend_running (groups_of (ro_prefill_seq_groups running_scheduled));;;
  extend_running (groups_of (po_seq_groups prefills));;;
  on_sch (mmodify (λ s, set_vs_swapped (vs_swapped s ++ ro_swapped_out running_scheduled) s));;;
  let scheduled := po_seq_groups prefills ++ ro_prefill_seq_groups running_scheduled ++ si_prefill_seq_groups swapped_in ++
    ro_decode_seq_groups running_scheduled ++ si_decode_seq_groups swapped_in in
  let num_prefill_groups := (length (po_seq_groups prefills) + length (si_prefill_seq_groups swapped_in) +
    length (ro_prefill_seq_groups running_scheduled))%nat in
  let all_prefills := length scheduled =? num_prefill_groups in
  p ← mget;
  on_sch (outputs_post_init {|
    so_scheduled_seq_groups := scheduled;
    so_num_prefill_groups := Z.of_nat num_prefill_groups;
    so_num_batched_tokens := sb_num_batched_tokens (ps_budget p) + sb_num_cached_tokens (ps_budget p);
    so_blocks_to_swap_in := si_blocks_to_swap_in swapped_in;
    so_blocks_to_swap_out := ro_blocks_to_swap_out running_scheduled;
    so_blocks_to_copy := ro_blocks_to_copy running_scheduled ++ si_blocks_to_copy swapped_in;
    so_ignored_seq_groups := po_ignored_seq_groups prefills ++ si_infeasible_seq_groups swapped_in;
    so_num_lookahead_slots := (if all_prefills && negb (is_multi_step sc) then 0 else ro_num_lookahead_slots running_scheduled)%Z;
    so_running_queue_size := Z.of_nat (length (vs_running (ps_sched p)));
    so_preempted := Z.of_nat (length (ro_preempted running_scheduled) + length (ro_swapped_out running_scheduled)) |}).
(** [_schedule]: a pass starts with a new budget. *)
Definition schedule_pass : VS V0SchedulerOutputs := λ s,
  let p := {| ps_sched := s; ps_budget := budget_init (cf_max_num_batched_tokens sc) (cf_max_num_seqs sc); ps_loras := None |} in
  match (if cf_chunked_prefill_enabled sc then schedule_chunked_prefill_pass else schedule_default_pass) p with
  | Ok (o, p) => Ok (o, ps_sched p)
  | Raise e => Raise e
  end.

(** * The messages *)
Definition allow_async_output (g : SequenceGroup) : bool :=
  match sg_sampling_params g with None => true | Some p => (sp_n p =? 1)%Z end.
(** Whether to sample, and whether this is the first message of a prefill. *)
Definition sample_choice (g : SequenceGroup) (is_prompt : bool) (token_chunk_size : Z) : result (bool * bool) :=
  if negb is_prompt then Ok (true, false)
  else
    match sg_seqs g with
    | [s] =>
      let n := sd_num_computed_tokens (sq_data s) in
      Ok (negb (token_chunk_size + n <? sd_get_len (sq_data s))%Z, (n =? 0)%Z)
    | _ => Raise (AssertionError "len(seqs) == 1")
    end.
(** The data and tables of the running sequences. *)
Definition running_tables (r : nat) (now : Z) : VS (dict Z (option (list nat))) :=
  idx ← seq_positions r (Some SEQ_RUNNING);
  mfold idx [] (λ tables i,
    s ← the_seq r i;
    t ← on_manager (bsm_get_block_table s);
    on_manager (bsm_access_all_blocks_in_seq s now);;;
    mret (dset tables (sq_seq_id s) t)).
Definition running_data (r : nat) : VS (dict Z SequenceData) :=
  idx ← seq_positions r (Some SEQ_RUNNING);
  mfold idx [] (λ d i, s ← the_seq r i; mret (dset d (sq_seq_id s) (sq_data s))).
Definition running_deltas (r : nat) : VS (dict Z SequenceDataDelta) :=
  idx ← seq_positions r (Some SEQ_RUNNING);
  mfold idx [] (λ d i,
    s ← the_seq r i;
    '(delta, data) ← mlift (get_delta_and_reset (sq_data s));
    upd_seq r i (set_sq_data data);;;
    mret (dset d (sq_seq_id s) delta)).
Definition group_message (now : Z) (x : ScheduledSequenceGroup) : VS GroupMessage :=
  let r := ssg_seq_group x in
  on_group r (maybe_set_first_scheduled_time now);;;
  g ← the_group r;
  cross_block_table ← match sg_encoder_seq g with
    | None => mret None
    | Some _ => t ← on_manager (bsm_get_cross_block_table g); mret (Some t)
    end;
  block_tables ← running_tables r now;
  common_computed_block_nums ←
    (if cc_enable_prefix_caching (vc_cache conf)
     then l ← on_group r (get_seqs (Some SEQ_RUNNING)); on_manager (bsm_get_common_computed_block_ids l)
     else mret []);
  is_prompt ← on_group r group_is_prefill;
  '(do_sample, is_first_prefill) ← mlift (sample_choice g is_prompt (ssg_token_chunk_size x));
  if is_first_prefill || negb (cf_send_delta_data sc) then
    seq_data ← running_data r;
    m ← mlift (group_metadata_post_init {|
      gm_request_id := sg_request_id g; gm_is_prompt := is_prompt; gm_seq_data := seq_data; gm_block_tables := block_tables;
      gm_do_sample := do_sample; gm_computed_block_nums := Some common_computed_block_nums; gm_state := Some (sg_state g);
      gm_token_chunk_size := Some (ssg_token_chunk_size x); gm_sampling_params := sg_sampling_params g;
      gm_lora_request := sg_lora_request g; gm_encoder_seq_data := sq_data <$> sg_encoder_seq g;
      gm_cross_block_table := cross_block_table |});
    mret (FullMetadata m)
  else
    deltas ← running_deltas r;
    mret (DeltaMetadata {|
      gd_seq_data_delta := deltas; gd_request_id := sg_request_id g; gd_block_tables := block_tables; gd_is_prompt := is_prompt;
      gd_do_sample := do_sample; gd_token_chunk_size := Some (ssg_token_chunk_size x);
      gd_computed_block_nums := Some common_computed_block_nums |}).
Definition add_scheduler_time (t : Z) (g : SequenceGroup) : SequenceGroup :=
  set_sg_metrics (set_rm_scheduler_time (Some (default 0 (rm_scheduler_time (sg_metrics g)) + t)%Z) (sg_metrics g)) g.
Definition v0_schedule : VS (list GroupMessage * V0SchedulerOutputs * bool) :=
  scheduler_start_time ← v0_time;
  scheduler_outputs ← schedule_pass;
  now ← v0_time;
  '(messages, allow_async) ← mfold (so_scheduled_seq_groups scheduler_outputs) ([], use_async_output_proc output_proc_callback)
    (λ '(messages, allow_async) x,
      m ← group_message now x;
      g ← the_group (ssg_seq_group x);
      mret (messages ++ [m], if (allow_async : bool) then allow_async_output g else false));
  mfor (so_scheduled_seq_groups scheduler_outputs) (λ x,
    g ← the_group (ssg_seq_group x); on_manager (bsm_mark_blocks_as_computed g (ssg_token_chunk_size x)));;;
  end_time ← v0_time;
  s ← mget;
  mfor (vs_running s) (λ r, on_group r (mmodify (add_scheduler_time (end_time - scheduler_start_time))));;;
  mmodify (λ s, set_vs_cache_id ((vs_cache_id s + 1) `mod` num_cache_iters output_proc_callback)%Z s);;;
  mret (messages, scheduler_outputs, allow_async).
End schedule.
