(* ===== verification/V0Frame.v ===== *)
(** What the parts of the V0 scheduler leave alone.

    A block [keeps] a preorder on states if it only moves up in it. The rules are
    those of the structure of a block, so that such facts follow by following the
    definitions. The first use: all the parts below the loops of the phases leave
    the queues alone, and a group that is finished stays finished. *)
From Stdlib Require Import ssreflect ZArith Lia.
From stdpp Require Import base numbers list gmap strings.
From S2P Require Import Prelude SamplingParams SequenceData Sequences BlockTable BlockManager SchedConfig V0Types V0Sched V0Phases.

Create HintDb keeps discriminated.

(** Lists that hold every number equally often are permutations: permutations of
    appended lists become linear equations. *)
Lemma Permutation_occ (l1 l2 : list nat) : (∀ x, occ x l1 = occ x l2) → l1 ≡ₚ l2.
Proof.
  move: l2. elim: l1 => [|y l1 IH] l2 H.
  - destruct l2 as [|z l2]; first done. move: (H z). rw occ_nil occ_cons decide_True //. move: (occ_nonneg z l2). lia.
  - have Hy : y ∈ l2. { rw occ_pos -H occ_cons decide_True //. move: (occ_nonneg y l1). lia. }
    apply elem_of_Permutation in Hy as [l3 H3]. rw H3. f_equiv. apply IH => x. move: (H x).
    rw (occ_Permutation x _ _ H3) !occ_cons. lia.
Qed.
Ltac perm_occ :=
  apply Permutation_occ; intros x;
  repeat match goal with H : _ ≡ₚ _ |- _ => apply (occ_Permutation x) in H end;
  autorewrite with pyrw in *; lia.

Definition keeps {S A} (R : S → S → Prop) (E : exn → Prop) (m : M S A) : Prop := ∀ s, wp m s (λ _ s', R s s') E.
(** Nothing is said of the state. *)
Definition quiet {S A} (E : exn → Prop) (m : M S A) : Prop := keeps (λ _ _, True) E m.

#[export] Instance true_preorder S : PreOrder (λ _ _ : S, True).
Proof. by split. Qed.

Section keeps.
Context {S : Type} (R : S → S → Prop) `{!PreOrder R} (E : exn → Prop).
Lemma keeps_same_state s : R s s.
Proof. reflexivity. Qed.
#[local] Hint Resolve keeps_same_state : core.
Lemma keeps_ret {A} (a : A) : keeps R E (mret a).
Proof. move=> s. apply wp_ret. reflexivity. Qed.
Lemma keeps_raise {A} e : E e → keeps R E (mraise (A := A) e).
Proof. by move=> H s; apply wp_raise. Qed.
Lemma keeps_bind {A C} (m : M S A) (f : A → M S C) : keeps R E m → (∀ a, keeps R E (f a)) → keeps R E (m ≫= f).
Proof.
  move=> Hm Hf s. wp_step. eapply wp_mono; [apply Hm| |done]. move=> a s1 H1.
  eapply wp_mono; [apply Hf| |done]. move=> b s2 H2. exact (transitivity H1 H2).
Qed.
Lemma keeps_get : keeps R E mget.
Proof. by move=> s; apply wp_get. Qed.
Lemma keeps_gets {A} (f : S → A) : keeps R E (mgets f).
Proof. by move=> s; apply wp_gets. Qed.
Lemma keeps_put t : (∀ s, R s t) → keeps R E (mput t).
Proof. move=> H s. by apply wp_put. Qed.
Lemma keeps_modify f : (∀ s, R s (f s)) → keeps R E (mmodify f).
Proof. move=> H s. by apply wp_modify. Qed.
Lemma keeps_assert b msg : E (AssertionError msg) → keeps R E (massert b msg).
Proof. move=> H s. by apply wp_assert. Qed.
Lemma keeps_lift {A} (r : result A) : (∀ e, r = Raise e → E e) → keeps R E (mlift r).
Proof. move=> H s. by apply wp_lift. Qed.
Lemma keeps_when b m : keeps R E m → keeps R E (mwhen b m).
Proof. move=> H s. apply wp_when; [by move=> _; apply H|done]. Qed.
Lemma keeps_for {A} (l : list A) f : (∀ x, keeps R E (f x)) → keeps R E (mfor l f).
Proof.
  move=> H s. apply (wp_for l f (R s)); [done|]. move=> x t _ Ht.
  eapply wp_mono; [apply H| |done]. move=> a u Hu. exact (transitivity Ht Hu).
Qed.
Lemma keeps_fold {A C} (l : list A) (b : C) f : (∀ b x, keeps R E (f b x)) → keeps R E (mfold l b f).
Proof.
  move=> H s. apply (wp_fold l f b (λ _, R s)); [done|]. move=> c x t _ Ht.
  eapply wp_mono; [apply H| |done]. move=> a u Hu. exact (transitivity Ht Hu).
Qed.
Lemma keeps_zoom {T A} (get : S → T) set (m : M T A) : quiet E m → (∀ s t, R s (set t s)) → keeps R E (zoom get set m).
Proof. move=> Hm H s. wp_step. by eapply wp_mono; [apply Hm| |done]. Qed.
End keeps.

Lemma keeps_mono {S A} (R1 R2 : S → S → Prop) (E : exn → Prop) (m : M S A) :
  (∀ s s', R1 s s' → R2 s s') → keeps R1 E m → keeps R2 E m.
Proof. move=> H Hm s. eapply wp_mono; [apply Hm| |done]. move=> a s'. apply H. Qed.
Lemma keeps_eq {S A} (R : S → S → Prop) `{!Reflexive R} (E : exn → Prop) (m : M S A) : keeps eq E m → keeps R E m.
Proof. apply keeps_mono. move=> s s' <-. reflexivity. Qed.
Lemma quiet_fold {S A C} (E : exn → Prop) (l : list A) (b : C) (f : C → A → M S C) :
  (∀ b x, quiet E (f b x)) → quiet E (mfold l b f).
Proof. move=> H. by apply keeps_fold. Qed.

(** One step along the structure of a block; the leaves are left to the hints. *)
Ltac keeps_step :=
  lazymatch goal with
  | |- keeps _ _ (mbind _ _) => apply keeps_bind; [apply _| |intros ?]
  | |- keeps _ _ (mret _) => apply keeps_ret, _
  | |- keeps _ _ mget => apply keeps_get, _
  | |- keeps _ _ (mgets _) => apply keeps_gets, _
  | |- keeps _ _ (mmodify _) => apply keeps_modify
  | |- keeps _ _ (massert _ _) => apply keeps_assert; [apply _|]
  | |- keeps _ _ (mraise _) => apply keeps_raise
  | |- keeps _ _ (mlift _) => apply keeps_lift; [apply _|]
  | |- keeps _ _ (mwhen _ _) => apply keeps_when; [apply _|]
  | |- keeps _ _ (mfor [] _) => exact (keeps_ret _ _ tt)
  | |- keeps _ _ (mfor _ _) => apply keeps_for; [apply _|intros ?]
  | |- keeps _ _ (mfold _ _ _) => apply keeps_fold; [apply _|intros ? ?]
  | |- keeps _ _ (if ?b then _ else _) => destruct b
  | |- keeps _ _ (match ?o with _ => _ end) => destruct o
  | |- keeps _ _ ((match ?o with _ => _ end) _) => destruct o
  end; cbn beta.
Ltac keeps_auto := repeat keeps_step; eauto 10 with keeps.

(** Transitivity along the hypotheses. *)
Ltac chain := cbn beta in *; repeat (etrans; [eassumption|]); first [eassumption|by split].

(** * The faults of the scheduler itself

    Everything else that the scheduler raises comes from the block manager, from
    the callback, or from a bad request. *)
Definition scheduler_fault (e : exn) : bool :=
  match e with
  | OutOfFuel => true
  | AssertionError m => bool_decide (m ∈ [
      "not (self.blocks_to_swap_in and self.blocks_to_swap_out)"; "0 <= num_prefill_groups <= len";
      "curr_loras is not None"; "budget.num_batched_tokens <= max_num_batched_tokens";
      "budget.num_curr_seqs <= max_num_seqs"]%string)
  | _ => false
  end.
Definition no_fault (e : exn) : Prop := scheduler_fault e = false.
(** [E] accepts all exceptions but the faults. *)
Class Faultless (E : exn → Prop) := faultless e : no_fault e → E e.
#[export] Instance any_exn_faultless : Faultless any_exn.
Proof. done. Qed.
#[export] Instance no_fault_faultless : Faultless no_fault.
Proof. by move=> e. Qed.

Lemma quiet_any {S A} (m : M S A) : quiet any_exn m.
Proof. move=> s. rw /wp. by destruct (m s) as [[a t]|e]. Qed.
(** No method of the block manager raises one. *)
Record manager_quiet {B : Type} `{BSM : BlockSpaceManager B} (E : exn → Prop) : Prop := {
  mq_can_allocate g n : quiet E (bsm_can_allocate g n);
  mq_allocate g q : sg_seqs g = [q] → quiet E (bsm_allocate g);
  mq_can_append_slots g n : quiet E (bsm_can_append_slots g n);
  mq_append_slots q n : quiet E (bsm_append_slots q n);
  mq_can_swap_in g n : quiet E (bsm_can_swap_in g n);
  mq_swap_in g : quiet E (bsm_swap_in g);
  mq_can_swap_out g : quiet E (bsm_can_swap_out g);
  mq_swap_out g : quiet E (bsm_swap_out g);
  mq_free q : quiet E (bsm_free q);
  mq_free_cross g : quiet E (bsm_free_cross g);
  mq_get_block_table q : quiet E (bsm_get_block_table q);
  mq_get_cross_block_table g : quiet E (bsm_get_cross_block_table g);
  mq_access q n : quiet E (bsm_access_all_blocks_in_seq q n);
  mq_common l : quiet E (bsm_get_common_computed_block_ids l);
  mq_mark g n : quiet E (bsm_mark_blocks_as_computed g n);
  mq_cached q : quiet E (bsm_get_num_cached_tokens q);
}.
Lemma manager_quiet_any {B} `{BSM : BlockSpaceManager B} : manager_quiet any_exn.
Proof. split=> *; apply quiet_any. Qed.
Lemma placeholder_quiet : manager_quiet (BSM := placeholder_manager) no_fault.
Proof. by split. Qed.

(** * Groups that stay as they are *)
Definition group_fin (g : SequenceGroup) : Prop := match sg_seqs g with q :: _ => seq_is_finished q = true | [] => False end.

Section groups.
Context (E : exn → Prop) `{HE : !Faultless E}.
Lemma first_seq_pure : keeps eq E first_seq.
Proof. move=> g. rw /first_seq. wp_step. wp_step. destruct (sg_seqs g); wp_step; [by apply HE|done]. Qed.
Lemma first_fun_pure {A} (f : Sequence → A) : keeps eq E (s ← first_seq; mret (f s)).
Proof. apply keeps_bind; [apply _|apply first_seq_pure|]. move=> q. apply keeps_ret, _. Qed.
Lemma group_is_prefill_pure : keeps eq E group_is_prefill.
Proof. apply first_fun_pure. Qed.
Lemma group_is_finished_pure : keeps eq E group_is_finished.
Proof. apply first_fun_pure. Qed.
Lemma get_max_num_running_seqs_pure : keeps eq E get_max_num_running_seqs.
Proof. apply keeps_bind; [apply _|apply group_is_finished_pure|]. move=> f. apply keeps_ret, _. Qed.
Lemma get_seqs_pure st : keeps eq E (get_seqs st).
Proof.
  apply keeps_bind; [apply _|apply keeps_get, _|]. move=> g. destruct st as [st|]; last by apply keeps_ret, _.
  apply keeps_bind; [apply _|apply first_seq_pure|]. move=> q. apply keeps_ret, _.
Qed.
Lemma group_seq_pure i : keeps eq E (group_seq i).
Proof.
  apply keeps_bind; [apply _|apply keeps_get, _|]. move=> g. destruct (sg_seqs g !! i); [by apply keeps_ret, _|].
  apply keeps_raise. by apply HE.
Qed.
End groups.
#[export] Hint Resolve first_seq_pure group_is_prefill_pure group_is_finished_pure get_max_num_running_seqs_pure get_seqs_pure
  group_seq_pure : keeps.

Section frame.
Context {B : Type} `{BSM : BlockSpaceManager B}.
Context (E : exn → Prop) `{HE : !Faultless E} (HB : manager_quiet E).
Implicit Types s : V0Scheduler B.
Abbreviation VS := (M (V0Scheduler B)).

Definition fin_at s r : Prop := match vs_groups s !! r with Some g => group_fin g | None => False end.
(** The queues, and all groups but [r]. *)
Record touches (r : nat) s s' : Prop := {
  to_waiting : vs_waiting s' = vs_waiting s;
  to_running : vs_running s' = vs_running s;
  to_swapped : vs_swapped s' = vs_swapped s;
  to_stopped : vs_async_stopped s' = vs_async_stopped s;
  to_ids : sg_request_id <$> vs_groups s' = sg_request_id <$> vs_groups s;
  to_others r' : r' ≠ r → vs_groups s' !! r' = vs_groups s !! r';
}.
Record kept s s' : Prop := {
  ke_waiting : vs_waiting s' = vs_waiting s;
  ke_running : vs_running s' = vs_running s;
  ke_swapped : vs_swapped s' = vs_swapped s;
  ke_stopped : vs_async_stopped s' = vs_async_stopped s;
  ke_ids : sg_request_id <$> vs_groups s' = sg_request_id <$> vs_groups s;
  ke_fin r : fin_at s r → fin_at s' r;
}.
#[global] Instance touches_preorder r : PreOrder (touches r).
Proof.
  split; first by move=> s; split. move=> s1 s2 s3 [????? H1] [????? H2]. split; try by etrans.
  move=> r' Hr. rw (H2 _ Hr). by apply H1.
Qed.
#[global] Instance kept_preorder : PreOrder kept.
Proof. split; first by move=> s; split. move=> s1 s2 s3 [????? H1] [????? H2]. split; try by etrans. eauto. Qed.
Lemma touches_kept r s s' : touches r s s' → (fin_at s r → fin_at s' r) → kept s s'.
Proof.
  move=> [????? Ho] Hr. split; try done. move=> r'. destruct (decide (r' = r)) as [->|Hne]; first done.
  by rw /fin_at (Ho _ Hne).
Qed.

Lemma on_group_spec {A} r (m : M SequenceGroup A) s Q :
  (∀ g, vs_groups s !! r = Some g → wp m g (λ a g', Q a (set_vs_groups (<[r := g']> (vs_groups s)) s)) E) →
  wp (on_group r m) s Q E.
Proof.
  move=> H. rw /on_group /the_group. wp_step. wp_step. wp_step. destruct (vs_groups s !! r) as [g|] eqn:Hg; wp_step; last by apply HE.
  wp_step. have {}H := H g eq_refl. rw /wp in H. apply wp_lift; last by move=> e He; rw He in H.
  move=> [a g'] Ha. rw Ha in H. by wp_step; wp_step; wp_step.
Qed.
Lemma wp_the_group r s Q : (∀ g, vs_groups s !! r = Some g → Q g s) → wp (the_group r) s Q E.
Proof.
  move=> H. rw /the_group. wp_step. wp_step. destruct (vs_groups s !! r) as [g|] eqn:Hg; wp_step; [by apply H|by apply HE].
Qed.
Lemma on_group_pure {A} r (m : M SequenceGroup A) : keeps eq E m → keeps eq E (on_group (B := B) r m).
Proof.
  move=> H s. apply on_group_spec => g Hg. eapply wp_mono; [apply H| |done]. move=> a g' <-.
  rw list_insert_id; first done. by destruct s.
Qed.
Lemma the_group_pure r : keeps eq E (the_group (B := B) r).
Proof. move=> s. by apply wp_the_group. Qed.
Lemma seq_positions_pure r st : keeps eq E (seq_positions (B := B) r st).
Proof. apply keeps_bind; [apply _|by apply on_group_pure, get_seqs_pure|]. move=> l. apply keeps_ret, _. Qed.
Lemma the_seq_pure r i : keeps eq E (the_seq (B := B) r i).
Proof. by apply on_group_pure, group_seq_pure. Qed.
Lemma request_id_pure r : keeps eq E (request_id_of (B := B) r).
Proof. apply keeps_bind; [apply _|apply the_group_pure|]. move=> g. apply keeps_ret, _. Qed.

(** What a change of one group keeps. *)
Lemma ids_insert r g g' (l : list SequenceGroup) : l !! r = Some g → sg_request_id g' = sg_request_id g →
  sg_request_id <$> <[r := g']> l = sg_request_id <$> l.
Proof. move=> Hg Hid. rw list_fmap_insert list_insert_id; [by rw list_lookup_fmap Hg /= Hid|done]. Qed.
Lemma on_group_touches {A} r (m : M SequenceGroup A) :
  keeps (λ g g', sg_request_id g' = sg_request_id g) E m → keeps (touches r) E (on_group r m).
Proof.
  move=> H s. apply on_group_spec => g Hg. eapply wp_mono; [apply H| |done]. move=> a g' Hid. split=> //=.
  - by eapply ids_insert.
  - move=> r' Hne. by rw list_lookup_insert_ne.
Qed.
Definition gkept g g' : Prop := sg_request_id g' = sg_request_id g ∧ (group_fin g → group_fin g').
Lemma on_group_kept {A} r (m : M SequenceGroup A) : keeps gkept E m → keeps kept E (on_group r m).
Proof.
  move=> H s. apply on_group_spec => g Hg. eapply wp_mono; [apply H| |done]. move=> a g' [Hid Hf]. split=> //=.
  - by eapply ids_insert.
  - move=> r'. rw /fin_at /=. destruct (decide (r' = r)) as [->|Hne]; last by rw list_lookup_insert_ne.
    rw Hg list_lookup_insert_eq; [by eapply lookup_lt_Some|done].
Qed.
Lemma upd_seq_touches r i f : keeps (touches r) E (upd_seq r i f).
Proof. apply on_group_touches, keeps_modify. by destruct s. Qed.
Lemma on_manager_kept {A} (m : M B A) : quiet E m → keeps kept E (on_manager m).
Proof. move=> H. by apply keeps_zoom. Qed.
Lemma on_manager_touches {A} r (m : M B A) : quiet E m → keeps (touches r) E (on_manager m).
Proof. move=> H. by apply keeps_zoom. Qed.

Lemma pure_kept {A} (m : VS A) : keeps eq E m → keeps kept E m.
Proof. apply keeps_eq, _. Qed.
Lemma pure_touches {A} r (m : VS A) : keeps eq E m → keeps (touches r) E m.
Proof. apply keeps_eq, _. Qed.
End frame.
#[export] Hint Resolve the_group_pure seq_positions_pure the_seq_pure request_id_pure on_group_pure
  pure_kept pure_touches upd_seq_touches on_manager_kept on_manager_touches
  mq_can_allocate mq_allocate mq_can_append_slots mq_append_slots mq_can_swap_in mq_swap_in mq_can_swap_out mq_swap_out mq_free
  mq_free_cross mq_get_block_table mq_get_cross_block_table mq_access mq_common mq_mark mq_cached : keeps.

#[export] Hint Extern 5 => (apply faultless; solve [reflexivity|rw /no_fault; eauto 3 with keeps]) : keeps.
#[export] Hint Extern 2 (kept _ _) => by split : keeps.
#[export] Hint Extern 2 (touches _ _ _) => by split : keeps.

Section operations.
Context {B : Type} `{BSM : BlockSpaceManager B}.
Context (E : exn → Prop) `{HE : !Faultless E} (HB : manager_quiet E).
Context (conf : V0Config) (callback : option (string → M (V0Scheduler B) unit)).
Implicit Types s : V0Scheduler B.
Abbreviation VS := (M (V0Scheduler B)).

Lemma free_cross_kept r : keeps kept E (free_cross_attn_blocks (B := B) r).
Proof. rw /free_cross_attn_blocks. keeps_auto. Qed.
Lemma free_seq_kept q : keeps kept E (free_seq (B := B) q).
Proof. rw /free_seq. keeps_auto. Qed.
#[local] Hint Resolve free_cross_kept free_seq_kept : keeps.
Lemma time_kept : keeps kept E (v0_time (B := B)).
Proof. rw /v0_time. keeps_auto. Qed.
Lemma draw_kept : keeps kept E (draw (B := B)).
Proof. rw /draw. keeps_auto. Qed.
Lemma free_finished_seqs_kept r : keeps kept E (free_finished_seqs (B := B) r).
Proof. rw /free_finished_seqs. keeps_auto. Qed.
#[local] Hint Resolve time_kept draw_kept free_finished_seqs_kept : keeps.
Lemma free_finished_seq_group_kept r : keeps kept E (free_finished_seq_group (B := B) r).
Proof. rw /free_finished_seq_group. keeps_auto. Qed.
Lemma new_tokens_of_seq_kept q : keeps kept E (new_tokens_of_seq (B := B) conf q).
Proof. rw /new_tokens_of_seq. keeps_auto. Qed.
Lemma chunk_no_fault b limit n e : chunk_new_tokens_to_schedule conf b limit n = Raise e → scheduler_fault e = false.
Proof. rw /chunk_new_tokens_to_schedule. repeat case_match; by intros [= <-]. Qed.
Lemma prompt_limit_no_fault g e : get_prompt_limit conf g = Raise e → scheduler_fault e = false.
Proof. rw /get_prompt_limit. repeat case_match; by intros [= <-]. Qed.
#[local] Hint Resolve free_finished_seq_group_kept new_tokens_of_seq_kept chunk_no_fault prompt_limit_no_fault : keeps.
Lemma new_tokens_kept r st ec b : keeps kept E (get_num_new_uncached_and_cached_tokens (B := B) conf r st ec b).
Proof. rw /get_num_new_uncached_and_cached_tokens. keeps_auto. Qed.
Lemma can_append_slots_kept r ec : keeps kept E (can_append_slots (B := B) conf r ec).
Proof. rw /can_append_slots. keeps_auto. Qed.

(** Blocks of group functions that only change the state of a multi-step run. *)
Lemma init_multi_step_kept a b c d : keeps gkept E (init_multi_step_from_lookahead_slots a b c d).
Proof.
  have HP : PreOrder gkept. { split; first by move=> g; split. move=> g1 g2 g3 [H1 H2] [H3 H4]. split; [by etrans|auto]. }
  have Hp : keeps gkept E group_is_prefill by apply keeps_eq, group_is_prefill_pure, _; apply _.
  rw /init_multi_step_from_lookahead_slots /init_multi_step. keeps_auto; by move=> g; split.
Qed.
Lemma append_group_slots_kept r ec : keeps kept E (append_group_slots (B := B) conf r ec).
Proof. rw /append_group_slots. keeps_auto. apply on_group_kept; [done|]. apply init_multi_step_kept. Qed.

(** [seq_positions] with an unfinished status finds nothing in a finished group. *)
Lemma seq_positions_spec r st s :
  wp (seq_positions r (Some st)) s (λ idx s', s' = s ∧
    ∃ g q l, vs_groups s !! r = Some g ∧ sg_seqs g = q :: l ∧ idx = if decide (sq_status q = st) then seq 0 (length (sg_seqs g)) else []) E.
Proof.
  rw /seq_positions /get_seqs /first_seq. wp_step. apply on_group_spec; [done|]. move=> g Hg. wp_step. wp_step. wp_step. wp_step.
  wp_step. destruct (sg_seqs g) as [|q l] eqn:Hq; wp_step; [by apply HE|]. wp_step. wp_step. split.
  - rw list_insert_id; [done|]. by destruct s.
  - exists g, q, l. split_and!; [done|done|]. rw bool_decide_decide Hq. by case_decide.
Qed.
Lemma retag_kept {A} r st (k : list nat → VS A) : seq_status_is_finished st = false →
  (∀ idx, keeps (touches r) E (k idx)) → keeps kept E (k []) → keeps kept E (seq_positions r (Some st) ≫= k).
Proof.
  move=> Hst Hk Hnil s. wp_step. eapply wp_mono; [apply seq_positions_spec| |done]. move=> idx s' [-> [g [q [l [Hg [Hq ->]]]]]].
  case_decide as Hs; last apply Hnil. eapply wp_mono; [apply Hk| |done]. move=> a s2 Ht.
  apply (touches_kept r _ _ Ht). rw /fin_at Hg /group_fin Hq /seq_is_finished Hs Hst. done.
Qed.
Ltac retag_auto := repeat (first [apply retag_kept; [reflexivity|intros ?|]|keeps_step]); eauto 10 with keeps.
(** The group has one sequence, as all groups that the engine makes. *)
Definition single_at s r : Prop := ∃ g q, vs_groups s !! r = Some g ∧ sg_seqs g = [q].
Lemma allocate_and_set_running_spec r s : single_at s r →
  wp (allocate_and_set_running (B := B) r) s (λ _ s', kept s s') E.
Proof.
  move=> [g [q [Hg Hq]]]. rw /allocate_and_set_running. wp_step. apply wp_the_group; [done|]. move=> g' Hg'. rw Hg in Hg'. injection Hg' as <-.
  wp_step. eapply wp_mono; [apply on_manager_kept; by eapply mq_allocate| |done]. move=> u s1 H1.
  eapply wp_mono; [by apply retag_kept; [|intros|]; keeps_auto| |done]. move=> u2 s2 H2. chain.
Qed.
Lemma reset_returns q e : seq_reset_state_for_recompute q = Raise e → scheduler_fault e = false.
Proof. done. Qed.
#[local] Hint Resolve reset_returns : keeps.
Lemma preempt_by_recompute_kept r : keeps kept E (preempt_by_recompute (B := B) r).
Proof.
  rw /preempt_by_recompute /free_seq. retag_auto.
Qed.
Lemma v0_swap_in_kept r : keeps kept E (v0_swap_in (B := B) r).
Proof. rw /v0_swap_in /mapping_of. retag_auto. Qed.
Lemma v0_swap_out_kept r : keeps kept E (v0_swap_out (B := B) r).
Proof. rw /v0_swap_out /mapping_of. retag_auto. Qed.
#[local] Hint Resolve preempt_by_recompute_kept v0_swap_out_kept : keeps.
Lemma preempt_kept r : keeps kept E (preempt (B := B) conf r).
Proof. rw /preempt. keeps_auto. Qed.
Lemma passed_delay_kept now : keeps kept E (passed_delay (B := B) conf now).
Proof. rw /passed_delay. keeps_auto. by move=> s; destruct (vs_prev_prompt s); split. Qed.
End operations.
#[export] Hint Resolve time_kept passed_delay_kept preempt_kept v0_swap_in_kept v0_swap_out_kept
  append_group_slots_kept can_append_slots_kept new_tokens_kept free_finished_seq_group_kept init_multi_step_kept
  on_group_kept : keeps.

(** * Blocks that leave all groups alone *)
Section still.
Context {B : Type} `{BSM : BlockSpaceManager B}.
Context (E : exn → Prop) `{HE : !Faultless E} (HB : manager_quiet E).
Context (conf : V0Config).
Implicit Types s : V0Scheduler B.
Record still s s' : Prop := {
  st_waiting : vs_waiting s' = vs_waiting s;
  st_running : vs_running s' = vs_running s;
  st_swapped : vs_swapped s' = vs_swapped s;
  st_stopped : vs_async_stopped s' = vs_async_stopped s;
  st_groups : vs_groups s' = vs_groups s;
}.
#[global] Instance still_preorder : PreOrder still.
Proof. split; first by move=> s; split. move=> s1 s2 s3 [?????] [?????]. split; by etrans. Qed.
Lemma still_kept s s' : still s s' → kept s s'.
Proof. move=> [???? H]. split; rw ?H //. by move=> r; rw /fin_at H. Qed.
Lemma pure_still {A} (m : M (V0Scheduler B) A) : keeps eq E m → keeps still E m.
Proof. apply keeps_eq, _. Qed.
Lemma on_manager_still {A} (m : M B A) : quiet E m → keeps still E (on_manager m).
Proof. move=> H. by apply keeps_zoom. Qed.
#[local] Hint Extern 2 (still _ _) => by split : keeps.
#[local] Hint Resolve pure_still on_manager_still chunk_no_fault prompt_limit_no_fault : keeps.
Lemma time_still : keeps still E (v0_time (B := B)).
Proof. rw /v0_time. keeps_auto. Qed.
Lemma passed_delay_still now : keeps still E (passed_delay (B := B) conf now).
Proof. rw /passed_delay. keeps_auto. by move=> s; destruct (vs_prev_prompt s); split. Qed.
Lemma new_tokens_of_seq_still q : keeps still E (new_tokens_of_seq (B := B) conf q).
Proof. rw /new_tokens_of_seq. keeps_auto. Qed.
#[local] Hint Resolve new_tokens_of_seq_still : keeps.
Lemma get_new_tokens_still r st ec b : keeps still E (get_num_new_uncached_and_cached_tokens (B := B) conf r st ec b).
Proof. rw /get_num_new_uncached_and_cached_tokens. keeps_auto. Qed.
End still.
#[export] Hint Resolve pure_still on_manager_still time_still passed_delay_still get_new_tokens_still : keeps.
#[export] Hint Extern 2 (still _ _) => by split : keeps.
