(* ===== verification/V0Running.v ===== *)
(** The running phase of the V0 scheduler accounts for every group: it runs, is
    preempted, is swapped out, was stopped, or turned out to be finished. The
    loops have fuel enough. *)
From Stdlib Require Import ssreflect ZArith Lia.
From stdpp Require Import base numbers list gmap strings.
From S2P Require Import Prelude SamplingParams SequenceData Sequences BlockTable BlockManager SchedConfig V0Types V0Sched V0Phases.
From S2P Require Import V0Schedule V0Frame.

Section running.
Context {B : Type} `{BSM : BlockSpaceManager B}.
Context (E : exn → Prop) `{HE : !Faultless E} (HB : manager_quiet E).
Context (conf : V0Config) (callback : option (string → M (V0Scheduler B) unit)).
Context (HC : ∀ f id, callback = Some f → keeps kept E (f id)).
Implicit Types (s : V0Scheduler B) (p : Pass B).
Abbreviation PS := (M (Pass B)).
Abbreviation waiting p := (vs_waiting (ps_sched p)).
Abbreviation running p := (vs_running (ps_sched p)).
Abbreviation swapped p := (vs_swapped (ps_sched p)).
Abbreviation stopped p := (vs_async_stopped (ps_sched p)).

(** Groups keep their ids, and finished ones stay finished. *)
Record evolves s s' : Prop := {
  ev_ids : sg_request_id <$> vs_groups s' = sg_request_id <$> vs_groups s;
  ev_fin r : fin_at s r → fin_at s' r;
}.
#[global] Instance evolves_preorder : PreOrder evolves.
Proof. split; first by move=> s; split. move=> s1 s2 s3 [H1 H2] [H3 H4]. split; [by etrans|eauto]. Qed.
Lemma kept_evolves s s' : kept s s' → evolves s s'.
Proof. move=> [????? H]. by split. Qed.
Record pkept p p' : Prop := {
  pk_kept : kept (ps_sched p) (ps_sched p');
  pk_loras : is_Some (ps_loras p) → is_Some (ps_loras p');
}.
#[global] Instance pkept_preorder : PreOrder pkept.
Proof.
  split; first by move=> p; split; [reflexivity|]. move=> p1 p2 p3 [H1 L1] [H2 L2]. split; [exact (transitivity H1 H2)|auto].
Qed.

Lemma on_sch_kept {A} (m : M (V0Scheduler B) A) : keeps kept E m → keeps pkept E (on_sch m).
Proof. move=> H p. rw /on_sch. wp_step. by eapply wp_mono; [apply H| |done]. Qed.
Lemma on_budget_kept {A} (m : M SchedulingBudget A) : quiet E m → keeps pkept E (on_budget m).
Proof. move=> H p. rw /on_budget. wp_step. by eapply wp_mono; [apply H| |done]. Qed.
Lemma add_lora_kept id : keeps pkept E (add_lora id).
Proof. apply keeps_modify. move=> p. split; [done|]. by move=> [l Hl]; rw /= Hl. Qed.
Lemma drop_lora_kept id : keeps pkept E (drop_lora id).
Proof. apply keeps_modify. move=> p. split; [done|]. by move=> [l Hl]; rw /= Hl. Qed.
Lemma new_tokens_pkept r st ec : keeps pkept E (new_tokens conf r st ec).
Proof. rw /new_tokens. keeps_auto. apply on_sch_kept. eauto with keeps. Qed.
Lemma budget_quiet n k id :
  quiet E (can_schedule n k) ∧ quiet E (add_num_batched_tokens id n k) ∧ quiet E (subtract_num_batched_tokens id n) ∧
  quiet E (add_num_seqs id n) ∧ quiet E (subtract_num_seqs id n).
Proof.
  rw /quiet /can_schedule /add_num_batched_tokens /subtract_num_batched_tokens /add_num_seqs /subtract_num_seqs.
  split_and!; keeps_auto.
Qed.


(** * Where the groups go *)
Definition ro_groups (ret : SchedulerRunningOutputs) : list nat :=
  ro_preempted ret ++ ro_swapped_out ret ++ groups_of (ro_decode_seq_groups ret) ++ groups_of (ro_prefill_seq_groups ret).
Record ro_ok (ret : SchedulerRunningOutputs) : Prop := {
  rok_decode : ro_decode_seq_groups_list ret = groups_of (ro_decode_seq_groups ret);
  rok_prefill : ro_prefill_seq_groups_list ret = groups_of (ro_prefill_seq_groups ret);
  rok_swap : ro_swapped_out ret = [] → ro_blocks_to_swap_out ret = [];
}.
(** The groups [l] were put into the outputs; [d] of them were finished and are
    dropped. *)
Record placed ret ret' (l d : list nat) s' : Prop := {
  pl_groups : ro_groups ret' ++ d ≡ₚ l ++ ro_groups ret;
  pl_fin : Forall (fin_at s') d;
  pl_callback : callback = None → d = [];
  pl_ok : ro_ok ret → ro_ok ret';
}.
Lemma placed_nil ret s : placed ret ret [] [] s.
Proof. by split; rw ?app_nil_r. Qed.
Lemma fin_evolves s s' d : evolves s s' → Forall (fin_at s) d → Forall (fin_at s') d.
Proof. move=> H Hd. eapply Forall_impl; [exact Hd|]. apply (ev_fin _ _ H). Qed.
Lemma placed_trans ret r1 r2 l1 l2 d1 d2 s1 s2 :
  placed ret r1 l1 d1 s1 → placed r1 r2 l2 d2 s2 → evolves s1 s2 → placed ret r2 (l1 ++ l2) (d1 ++ d2) s2.
Proof.
  move=> [G1 F1 C1 O1] [G2 F2 C2 O2] He. split.
  - perm_occ.
  - apply Forall_app. split; [by eapply fin_evolves|done].
  - move=> Hn. by rw C1 // C2.
  - auto.
Qed.
Lemma placed_evolves ret ret' l d s s' : placed ret ret' l d s → evolves s s' → placed ret ret' l d s'.
Proof. move=> [? F ??] He. split; [done|by eapply fin_evolves|done|done]. Qed.

Lemma preempt_spec r s :
  wp (preempt conf r) s (λ '(mode, blocks) s', kept s s' ∧ (mode = PREEMPT_RECOMPUTE → blocks = [])) E.
Proof.
  rw /preempt. wp_step. eapply wp_mono; [apply (on_group_kept E r _)| |done].
  { apply keeps_eq, get_max_num_running_seqs_pure; [|done]. by move=> g. }
  move=> n s1 H1. wp_step. wp_step. set (mode := match cf_preemption_mode _ with Some _ => _ | None => _ end).
  have H2 : kept s (set_vs_num_cumulative_preemption (vs_num_cumulative_preemption s1 + 1) s1) by etrans; [exact H1|by split].
  destruct mode.
  - wp_step. eapply wp_mono; [by eapply v0_swap_out_kept| |done]. move=> m s2 H3. wp_step. split; [by etrans|done].
  - wp_step. eapply wp_mono; [by eapply preempt_by_recompute_kept| |done]. move=> m s2 H3. wp_step. split; [by etrans|done].
Qed.
(** A victim goes into one of the two lists, or is finished. *)
Lemma preempt_victim_spec v ret p :
  wp (preempt_victim conf callback v ret) p (λ ret' p', pkept p p' ∧ ∃ d, placed ret ret' [v] d (ps_sched p')) E.
Proof.
  rw /preempt_victim. wp_step.
  eapply (wp_mono _ _ (λ b p', pkept p p' ∧ (b = false → fin_at (ps_sched p') v ∧ callback ≠ None)) _ E); [| |done].
  { destruct callback as [f|] eqn:Hcb; last by wp_step.
    wp_step. eapply wp_mono; [apply on_sch_kept; eauto with keeps| |done]. move=> id p1 H1.
    wp_step. eapply wp_mono; [apply on_sch_kept; by eapply HC| |done]. move=> u p2 H2.
    wp_step. rw /on_sch. wp_step. apply on_group_spec; [done|]. move=> g Hg.
    rw /group_is_finished /first_seq. wp_step. wp_step. wp_step.
    destruct (sg_seqs g) as [|q l] eqn:Hq; wp_step; [by apply HE|]. wp_step.
    rw list_insert_id; [done|]. replace (set_ps_sched _ _) with p2; last by destruct p2 as [[]]. 
    have H3 : pkept p p2 by chain. wp_step; last by wp_step.
    wp_step. wp_step. eapply wp_mono; [by eapply free_finished_seq_group_kept| |done]. move=> u3 s3 H4. wp_step.
    split; [chain|]. move=> _. split; [|done]. apply (ke_fin _ _ H4). by rw /fin_at Hg /group_fin Hq. }
  move=> b p1 [H1 Hb]. wp_step.
  - wp_step. rw /on_sch. wp_step. eapply wp_mono; [by eapply preempt_spec| |done]. move=> [mode blocks] s2 [H2 Hm]. wp_step.
    split; [chain|]. exists []. destruct mode; split; rw ?app_nil_r //= /ro_groups /=.
    + perm_occ.
    + move=> [O1 O2 O3]. split; try done. cbn. by move=> /app_nil [].
    + perm_occ.
    + move=> [O1 O2 O3]. split; try done. cbn. move=> /O3 ->. by rw Hm.
  - wp_step. split; [done|]. destruct (Hb eq_refl) as [Hf Hn]. exists [v]. split; [|by constructor|done|done].
    by rw Permutation_app_comm.
Qed.

(** Everything but the running queue. *)
Record aside p p' : Prop := {
  as_waiting : waiting p' = waiting p;
  as_swapped : swapped p' = swapped p;
  as_stopped : stopped p' = stopped p;
  as_evolves : evolves (ps_sched p) (ps_sched p');
  as_loras : is_Some (ps_loras p) → is_Some (ps_loras p');
}.
#[global] Instance aside_preorder : PreOrder aside.
Proof.
  split; [by move=> p; split|]. move=> p1 p2 p3 [A1 A2 A3 A4 A5] [B1 B2 B3 B4 B5].
  split; [by rw B1|by rw B2|by rw B3|exact (transitivity A4 B4)|auto].
Qed.
Lemma pkept_aside p p' : pkept p p' → aside p p'.
Proof. move=> [H HL]. move: (kept_evolves _ _ H) => He. by destruct H. Qed.
Lemma set_running_aside l p : aside p (set_ps_sched (set_vs_running l (ps_sched p)) p).
Proof. by split. Qed.
Lemma pkept_running p p' : pkept p p' → running p' = running p.
Proof. by move=> [[]]. Qed.

Lemma make_room_spec fuel r n ec ret p : length (running p) < fuel →
  wp (make_room conf callback fuel r n ec ret) p (λ '(ok, ret') p', ∃ vics d,
    aside p p' ∧ running p = running p' ++ reverse vics ∧
    placed ret ret' (vics ++ if ok : bool then [] else [r]) d (ps_sched p')) E.
Proof.
  elim: fuel ret p => [|fuel IH] ret p Hf; first lia. cbn.
  wp_step. eapply wp_mono; [apply on_sch_kept; by eapply can_append_slots_kept| |done]. move=> ok p1 H1. wp_step.
  { wp_step. exists [], []. split; [by apply pkept_aside|]. split; [|apply placed_nil]. by rw (pkept_running _ _ H1) reverse_nil app_nil_r. }
  wp_step. eapply wp_mono; [apply on_sch_kept; eauto with keeps| |done]. move=> g p2 H2.
  wp_step. eapply wp_mono; [apply on_budget_kept; apply (budget_quiet n 0)| |done]. move=> u3 p3 H3.
  wp_step. eapply wp_mono; [apply on_sch_kept; eauto 6 with keeps| |done]. move=> k p4 H4.
  wp_step. eapply wp_mono; [apply on_budget_kept; apply (budget_quiet k 0)| |done]. move=> u5 p5 H5.
  wp_step. eapply wp_mono; [apply drop_lora_kept| |done]. move=> u6 p6 H6.
  have H7 : pkept p p6 by chain. clear H1 H2 H3 H4 H5 H6. wp_step. wp_step. rw (pkept_running _ _ H7).
  destruct (last (running p)) as [v|] eqn:Hl.
  - apply last_Some in Hl as [l' Hl]. rw Hl removelast_last. wp_step. rw /on_sch. wp_step. wp_step.
    set (p7 := set_ps_sched _ p6). have H8 : aside p p7 by etrans; [by apply pkept_aside|by apply set_running_aside].
    wp_step. eapply wp_mono; [apply preempt_victim_spec| |done]. move=> ret1 p8 [H9 [d1 Hp1]].
    have Hrun : running p8 = l' by rw (pkept_running _ _ H9).
    eapply wp_mono; [apply IH; rw Hrun; rw Hl length_app /= in Hf; lia| |done].
    move=> [ok2 ret2] p9 [vics [d2 [Ha [Hr Hp2]]]]. exists (v :: vics), (d1 ++ d2). split_and!.
    + etrans; [exact H8|]. etrans; [by apply pkept_aside|done].
    + by rw reverse_cons app_assoc -Hr Hrun.
    + eapply (placed_trans _ _ _ [v]); [done|done|]. apply Ha.
  - wp_step. eapply wp_mono; [apply preempt_victim_spec| |done]. move=> ret1 p8 [H9 [d1 Hp1]]. wp_step.
    exists [], d1. apply last_None in Hl. split_and!; [|by rw (pkept_running _ _ H9) (pkept_running _ _ H7) Hl reverse_nil|done].
    etrans; apply pkept_aside; [exact H7|exact H9].
Qed.

(** A group that runs is added to one of the two lists. *)
Record ran (r : nat) (n : Z) ret ret' : Prop := {
  rn_preempted : ro_preempted ret' = ro_preempted ret;
  rn_swapped_out : ro_swapped_out ret' = ro_swapped_out ret;
  rn_blocks : ro_blocks_to_swap_out ret' = ro_blocks_to_swap_out ret;
  rn_lists : (ro_decode_seq_groups ret' = ro_decode_seq_groups ret ++ [{| ssg_seq_group := r; ssg_token_chunk_size := 1 |}] ∧
      ro_decode_seq_groups_list ret' = ro_decode_seq_groups_list ret ++ [r] ∧
      ro_prefill_seq_groups ret' = ro_prefill_seq_groups ret ∧ ro_prefill_seq_groups_list ret' = ro_prefill_seq_groups_list ret) ∨
    (ro_prefill_seq_groups ret' = ro_prefill_seq_groups ret ++ [{| ssg_seq_group := r; ssg_token_chunk_size := n |}] ∧
      ro_prefill_seq_groups_list ret' = ro_prefill_seq_groups_list ret ++ [r] ∧
      ro_decode_seq_groups ret' = ro_decode_seq_groups ret ∧ ro_decode_seq_groups_list ret' = ro_decode_seq_groups_list ret);
}.
Lemma ran_placed r n ret ret' s : ran r n ret ret' → placed ret ret' [r] [] s.
Proof.
  move=> [Hp Hs Hb Hl]. split; [|done|done|].
  - rw /ro_groups Hp Hs. destruct Hl as [[-> [_ [-> _]]]|[-> [_ [-> _]]]]; rw /groups_of fmap_app /=; perm_occ.
  - move=> [O1 O2 O3]. split; [| |by rw Hs Hb];
      destruct Hl as [[Ha [Hb2 [Hc Hd]]]|[Ha [Hb2 [Hc Hd]]]]; by rw ?Ha ?Hb2 ?Hc ?Hd ?O1 ?O2 /groups_of ?fmap_app.
Qed.
Lemma run_group_spec r n ec ret p :
  wp (run_group conf r n ec ret) p (λ ret' p', pkept p p' ∧ ran r n ret ret') E.
Proof.
  rw /run_group. wp_step. eapply wp_mono; [apply on_sch_kept; by eapply append_group_slots_kept| |done]. move=> copies p1 H1.
  wp_step. eapply wp_mono; [apply on_sch_kept; eauto 6 with keeps| |done]. move=> is_prefill p2 H2.
  wp_step. eapply wp_mono; [apply on_sch_kept; eauto 6 with keeps| |done]. move=> g p3 H3.
  wp_step. eapply wp_mono; [apply on_budget_kept; apply (budget_quiet n 0)| |done]. move=> u4 p4 H4.
  wp_step. eapply (wp_mono _ _ (λ _ p5, pkept p4 p5) _ E); [| |done].
  { wp_step; last by reflexivity. wp_step. eapply wp_mono; [apply on_sch_kept; eauto 6 with keeps| |done]. move=> k p5 H5.
    eapply wp_mono; [apply on_budget_kept; apply (budget_quiet k 0)| |done]. move=> u6 p6 H6. chain. }
  move=> u5 p5 H5. wp_step. eapply (wp_mono _ _ (λ _ p6, pkept p5 p6) _ E); [| |done].
  { wp_step; last by reflexivity. apply add_lora_kept. }
  move=> u6 p6 H6. wp_step. split; first by chain. destruct is_prefill; split; cbn; try done; [right|left]; done.
Qed.

(** What the phase has done with the running queue. [st] are the groups that the
    asynchronous processing stops. *)
Record running_done p p' ret ret' : Prop := {
  rd_waiting : waiting p' = waiting p;
  rd_swapped : swapped p' = swapped p;
  rd_evolves : evolves (ps_sched p) (ps_sched p');
  rd_loras : is_Some (ps_loras p) → is_Some (ps_loras p');
  rd_groups : ∃ l st d, running p ≡ₚ running p' ++ st ++ l ∧ stopped p' = stopped p ++ st ∧
    placed ret ret' l d (ps_sched p') ∧ (callback = None → st = []);
}.
Lemma running_done_refl p ret : running_done p p ret ret.
Proof.
  split; [done|done|reflexivity|done|]. exists [], [], []. rw !app_nil_r. split_and!; [done|done|apply placed_nil|done].
Qed.
Lemma running_done_trans p1 p2 p3 r1 r2 r3 : running_done p1 p2 r1 r2 → running_done p2 p3 r2 r3 → running_done p1 p3 r1 r3.
Proof.
  move=> [A1 A2 A3 L1 [l1 [st1 [d1 [A4 [A5 [A6 A7]]]]]]] [B1 B2 B3 L2 [l2 [st2 [d2 [B4 [B5 [B6 B7]]]]]]].
  split; [by rw B1|by rw B2|exact (transitivity A3 B3)|auto|]. exists (l1 ++ l2), (st1 ++ st2), (d1 ++ d2). split_and!.
  - perm_occ.
  - by rw B5 A5 app_assoc.
  - by eapply placed_trans.
  - move=> H. by rw A7 // B7.
Qed.
Lemma running_done_kept p p' ret : pkept p p' → running_done p p' ret ret.
Proof.
  move=> [H HL]. move: (kept_evolves _ _ H) => He. destruct H as [H1 H2 H3 H4 _ _]. split; [done|done|done|done|]. exists [], [], [].
  rw H2 H4 !app_nil_r. split_and!; [done|done|apply placed_nil|done].
Qed.
(** One turn of the outer loop, after the group [r] was taken off the queue. *)
Lemma running_turn_spec r n ec ret p l :
  running p = l →
  wp (make_room conf callback (S (length l)) r n ec ret) p (λ '(ok, ret1) p1,
    wp (if ok : bool then run_group conf r n ec ret1 else mret ret1) p1 (λ ret' p',
      running_done (set_ps_sched (set_vs_running (r :: l) (ps_sched p)) p) p' ret ret' ∧ length (running p') ≤ length l) E) E.
Proof.
  move=> Hl. eapply wp_mono; [apply make_room_spec; rw Hl; lia| |done].
  move=> [ok ret1] p1 [vics [d [[A1 A2 A3 A4 L1] [Hr Hp]]]]. rw Hl in Hr.
  have Hlen : length (running p1) ≤ length l by rw Hr length_app; lia.
  destruct ok.
  - eapply wp_mono; [apply run_group_spec| |done]. move=> ret2 p2 [H2 Hran]. split; last by rw (pkept_running _ _ H2).
    destruct H2 as [H2 L2]. move: (kept_evolves _ _ H2) => He. destruct H2 as [B1 B2 B3 B4 _ _].
    split; cbn; [by rw B1|by rw B3|by etrans; [|exact He]; etrans; [|exact A4]|auto|].
    exists (vics ++ [r]), [], d. rw B2 B4 A3 app_nil_r. split_and!; [rw Hr; perm_occ|done| |done].
    rw -(app_nil_r d). rw app_nil_r in Hp. eapply placed_trans; [exact Hp|by eapply ran_placed|done].
  - wp_step. split; last done. split; cbn; [done|done|by etrans; [|exact A4]|done|]. exists (vics ++ [r]), [], d. rw A3 app_nil_r. split_and!; [rw Hr; perm_occ|done|done|done].
Qed.
Lemma v0_running_loop_spec fuel ec ret p : length (running p) < fuel →
  wp (v0_running_loop conf callback fuel ec ret) p (λ ret' p', running_done p p' ret ret') E.
Proof.
  elim: fuel ret p => [|fuel IH] ret p Hf; first lia. cbn [v0_running_loop]. wp_step. wp_step.
  destruct (running p) as [|r l] eqn:Hr; first by wp_step; apply running_done_refl.
  wp_step. eapply wp_mono; [by eapply new_tokens_pkept| |done]. move=> [n c] p1 H1. wp_step.
  { wp_step. by apply running_done_kept. }
  have Hr1 : running p1 = r :: l by rw (pkept_running _ _ H1).
  wp_step. rw /on_sch. wp_step. wp_step. set (p2 := set_ps_sched _ p1).
  wp_step. wp_step. eapply wp_mono; [apply (on_group_pure E r first_seq), first_seq_pure; done| |done]. move=> q s3 H3. cbn in H3. subst s3.
  replace (set_ps_sched _ p2) with p2 by done.
  have Hback : set_ps_sched (set_vs_running (r :: l) (ps_sched p2)) p2 = p1.
  { rw /p2 -Hr1. by destruct p1 as [[]]. }
  have Hd1 := running_done_kept _ _ ret H1. have Hl2 : running p2 = l by done.
  destruct (use_async_output_proc callback && _) eqn:Ha.
  - wp_step. wp_step. wp_step. set (p4 := set_ps_sched _ p2).
    eapply wp_mono; [apply IH; rw /p4 /=; simpl in Hf; lia| |done]. move=> ret' p' Hd. apply (running_done_trans _ _ _ _ _ _ Hd1).
    refine (running_done_trans _ p4 _ _ _ _ _ Hd). rw -Hback. split; cbn; [done|done|by split|done|].
    exists [], [r], []. split_and!; [by rw app_nil_r Permutation_app_comm|done|apply placed_nil|].
    move=> Hn. by rw /use_async_output_proc Hn in Ha.
  - wp_step. eapply wp_mono; [by apply running_turn_spec| |done]. move=> [ok ret1] p3 H3. wp_step.
    eapply wp_mono; [exact H3| |done]. move=> ret2 p4 [H4 Hlen]. rw Hback in H4.
    eapply wp_mono; [apply (IH ret2 p4); simpl in Hf; lia| |done]. move=> ret' p' Hd.
    exact (running_done_trans _ _ _ _ _ _ Hd1 (running_done_trans _ _ _ _ _ _ H4 Hd)).
Qed.
Lemma schedule_running_spec ec p :
  wp (schedule_running conf callback ec) p (λ ret p',
    stopped p = [] ∧ running_done p p' (running_outputs_empty (get_num_lookahead_slots conf false ec)) ret) E.
Proof.
  rw /schedule_running. wp_step. wp_step. wp_step. wp_step; last by apply HE.
  eapply wp_mono; [apply v0_running_loop_spec; lia| |done]. move=> ret p' Hd. split; [|done].
  by destruct (stopped p).
Qed.
End running.
