(* ===== verification/V0Admission.v ===== *)
(** The phases of the V0 scheduler that admit groups: swapped groups come back,
    waiting groups start, and the priority policy makes room for them. Each takes
    groups off the front of its queue and decides about them in order. *)
From Stdlib Require Import ssreflect ZArith Lia.
From stdpp Require Import base numbers list gmap strings.
From S2P Require Import Prelude SamplingParams SequenceData Sequences BlockTable BlockManager SchedConfig V0Types V0Sched V0Phases.
From S2P Require Import V0Schedule V0Frame V0Running.

(** What becomes of a group at the front of a queue. *)
Inductive Fate := Started | Ignored | SetAside.
#[export] Instance Fate_eq_dec : EqDecision Fate.
Proof. solve_decision. Defined.
Definition with_fate (f : Fate) (moves : list (nat * Fate)) : list nat := (filter (λ m, m.2 = f) moves).*1.
Lemma with_fate_app f l1 l2 : with_fate f (l1 ++ l2) = with_fate f l1 ++ with_fate f l2.
Proof. by rw /with_fate filter_app fmap_app. Qed.
Lemma with_fate_cons f r f' l : with_fate f ((r, f') :: l) = (if decide (f' = f) then [r] else []) ++ with_fate f l.
Proof. rw /with_fate. case_decide; [by rw filter_cons_True|by rw filter_cons_False]. Qed.
Lemma with_fate_perm moves : with_fate Started moves ++ with_fate Ignored moves ++ with_fate SetAside moves ≡ₚ moves.*1.
Proof.
  elim: moves => [|[r f] l IH]; first done. rw !with_fate_cons fmap_cons. cbn.
  destruct f; repeat (case_decide; try done); cbn; perm_occ.
Qed.

(** [sorted] gives a permutation. *)
Lemma insert_on_perm {A} (lt : A → A → bool) x l : insert_on lt x l ≡ₚ x :: l.
Proof. elim: l => [//|y l IH] /=. case_match; [done|]. rw IH. by rw Permutation_swap. Qed.
Lemma py_sorted_perm {A} (lt : A → A → bool) l : py_sorted lt l ≡ₚ l.
Proof.
  rw /py_sorted. have H acc : foldl (λ acc x, insert_on lt x acc) acc l ≡ₚ acc ++ l; last by apply (H []).
  move: acc. elim: l => [|x l IH] acc /=; first by rw app_nil_r. by rw IH insert_on_perm -Permutation_middle.
Qed.

Section admission.
Context {B : Type} `{BSM : BlockSpaceManager B}.
Context (E : exn → Prop) `{HE : !Faultless E} (HB : manager_quiet E).
Context (conf : V0Config).
Implicit Types (s : V0Scheduler B) (p : Pass B).
Abbreviation PS := (M (Pass B)).
Abbreviation waiting p := (vs_waiting (ps_sched p)).
Abbreviation running p := (vs_running (ps_sched p)).
Abbreviation swapped p := (vs_swapped (ps_sched p)).
Abbreviation stopped p := (vs_async_stopped (ps_sched p)).

(** The set of LoRA ids exists if LoRA is enabled. *)
Definition loras_ready p : Prop := is_Some (vc_lora conf) → is_Some (ps_loras p).
Lemma lora_full_spec id p : loras_ready p →
  wp (lora_full conf id) p (λ full p', p' = p ∧ (vc_lora conf = None → full = false)) E.
Proof.
  move=> Hl. rw /lora_full. destruct (vc_lora conf) as [lc|] eqn:Hc; last by wp_step.
  wp_step. wp_step. destruct (Hl (mk_is_Some _ _ Hc)) as [l Hs]. rw Hs. by wp_step.
Qed.

(** Everything but the swapped queue. *)
Record beside p p' : Prop := {
  be_waiting : waiting p' = waiting p;
  be_running : running p' = running p;
  be_stopped : stopped p' = stopped p;
  be_evolves : evolves (ps_sched p) (ps_sched p');
  be_loras : is_Some (ps_loras p) → is_Some (ps_loras p');
}.
#[global] Instance beside_preorder : PreOrder beside.
Proof.
  split; [by move=> p; split|]. move=> p1 p2 p3 [A1 A2 A3 A4 A5] [B1 B2 B3 B4 B5].
  split; [by rw B1|by rw B2|by rw B3|exact (transitivity A4 B4)|auto].
Qed.
Lemma pkept_beside p p' : pkept p p' → beside p p'.
Proof. move=> [H HL]. move: (kept_evolves _ _ H) => He. by destruct H. Qed.
Lemma set_swapped_beside l p : beside p (set_ps_sched (set_vs_swapped l (ps_sched p)) p).
Proof. by split. Qed.

Definition si_groups (ret : SchedulerSwappedInOutputs) : list nat :=
  groups_of (si_decode_seq_groups ret) ++ groups_of (si_prefill_seq_groups ret).
Lemma swap_in_group_spec r id k u c ec ret p q :
  swapped p = r :: q →
  wp (swap_in_group conf r id k u c ec ret) p (λ ret' p', beside p p' ∧ swapped p' = q ∧
    si_groups ret' ≡ₚ r :: si_groups ret ∧ si_infeasible_seq_groups ret' = si_infeasible_seq_groups ret) E.
Proof.
  move=> Hq. rw /swap_in_group. wp_step. eapply (wp_mono _ _ (λ _ p1, pkept p p1) _ E); [| |done].
  { wp_step; last by reflexivity. by apply add_lora_kept. }
  move=> u0 p1 H1. wp_step. rw {1}/on_sch. wp_step. wp_step. set (p2 := set_ps_sched _ p1).
  have H2 : beside p p2. { etrans; [by apply pkept_beside|]. by apply set_swapped_beside. }
  have Hs2 : swapped p2 = q. { destruct H1 as [[]]. by rw /p2 /= ke_swapped Hq. }
  wp_step. eapply wp_mono; [apply on_sch_kept; by eapply v0_swap_in_kept| |done]. move=> blocks p3 H3.
  wp_step. eapply wp_mono; [apply on_sch_kept; by eapply append_group_slots_kept| |done]. move=> copies p4 H4.
  wp_step. eapply wp_mono; [apply on_sch_kept; eauto 6 with keeps| |done]. move=> is_prefill p5 H5.
  wp_step. eapply wp_mono; [apply on_sch_kept; eauto 6 with keeps| |done]. move=> i p6 H6.
  wp_step. eapply wp_mono; [apply on_budget_kept; apply (budget_quiet E u c)| |done]. move=> u7 p7 H7.
  wp_step. eapply wp_mono; [apply on_budget_kept; apply (budget_quiet E k 0)| |done]. move=> u8 p8 H8.
  have H9 : pkept p2 p8 by chain. wp_step. split_and!.
  - etrans; [exact H2|by apply pkept_beside].
  - destruct H9 as [[]]. by rw ke_swapped.
  - destruct is_prefill; rw /si_groups /= /groups_of fmap_app /=; perm_occ.
  - by destruct is_prefill.
Qed.

(** What a part of the loop has done with the front of the swapped queue. *)
Record swap_moved (moves : list (nat * Fate)) p p' (lo lo' : list nat) ret ret' : Prop := {
  sm_beside : beside p p';
  sm_queue : swapped p = moves.*1 ++ swapped p';
  sm_leftover : lo' = reverse (with_fate SetAside moves) ++ lo;
  sm_groups : si_groups ret' ≡ₚ with_fate Started moves ++ si_groups ret;
  sm_ignored : si_infeasible_seq_groups ret' = si_infeasible_seq_groups ret ++ with_fate Ignored moves;
  sm_fin : Forall (fin_at (ps_sched p')) (with_fate Ignored moves);
  sm_lora : vc_lora conf = None → with_fate SetAside moves = [];
}.
Lemma swap_moved_refl p p' lo ret : pkept p p' → swap_moved [] p p' lo lo ret ret.
Proof. move=> H. split; rw ?app_nil_r //; [by apply pkept_beside|]. destruct H as [[]]. by rw ke_swapped. Qed.
Lemma swap_moved_trans m1 m2 p1 p2 p3 lo1 lo2 lo3 r1 r2 r3 :
  swap_moved m1 p1 p2 lo1 lo2 r1 r2 → swap_moved m2 p2 p3 lo2 lo3 r2 r3 → swap_moved (m1 ++ m2) p1 p3 lo1 lo3 r1 r3.
Proof.
  move=> [A1 A2 A3 A4 A5 A6 A7] [B1 B2 B3 B4 B5 B6 B7]. split; rw ?with_fate_app.
  - exact (transitivity A1 B1).
  - by rw A2 B2 fmap_app app_assoc.
  - by rw B3 A3 reverse_app app_assoc.
  - perm_occ.
  - by rw B5 A5 app_assoc.
  - apply Forall_app. split; [eapply fin_evolves; [apply B1|done]|done].
  - move=> H. by rw A7 // B7.
Qed.
(** The front group was taken off the queue. *)
Lemma swap_moved_one f p p' lo lo' ret ret' r q :
  swapped p = r :: q → beside p p' → swapped p' = q → (f = Ignored → fin_at (ps_sched p') r) → (f = SetAside → vc_lora conf ≠ None) →
  lo' = (if decide (f = SetAside) then [r] else []) ++ lo →
  si_groups ret' ≡ₚ (if decide (f = Started) then [r] else []) ++ si_groups ret →
  si_infeasible_seq_groups ret' = si_infeasible_seq_groups ret ++ (if decide (f = Ignored) then [r] else []) →
  swap_moved [(r, f)] p p' lo lo' ret ret'.
Proof.
  move=> Hq Hb Hq' Hf Hs Hlo Hg Hi. split; rw ?with_fate_cons ?app_nil_r; try done.
  - by rw Hq Hq'.
  - rw Hlo. by destruct (decide (f = SetAside)).
  - destruct (decide (f = Ignored)) as [->|]; [by constructor; [apply Hf|]|by constructor].
  - destruct (decide (f = SetAside)) as [->|]; [by move=> /(Hs eq_refl)|done].
Qed.

Lemma swapped_loop_spec fuel ec lo ret p : length (swapped p) < fuel → loras_ready p →
  wp (swapped_loop conf fuel ec lo ret) p (λ '(lo', ret') p', ∃ moves, swap_moved moves p p' lo lo' ret ret') E.
Proof.
  elim: fuel lo ret p => [|fuel IH] lo ret p Hf Hl; first lia. cbn [swapped_loop]. wp_step. wp_step.
  destruct (swapped p) as [|r q] eqn:Hq.
  { wp_step. exists []. apply swap_moved_refl. reflexivity. }
  wp_step. rw {1}/on_sch. wp_step. apply on_group_spec; [done|]. move=> g Hg. rw /group_is_prefill /first_seq.
  wp_step. wp_step. wp_step. destruct (sg_seqs g) as [|sq sl] eqn:Hsq; wp_step; [by apply HE|]. wp_step.
  rw list_insert_id; [done|]. replace (set_ps_sched _ _) with p by by destruct p as [[]].
  wp_step. rw {1}/on_sch. wp_step. apply wp_the_group; [done|]. move=> g2 Hg2. rw Hg in Hg2. injection Hg2 as <-.
  replace (set_ps_sched _ _) with p by by destruct p as [[]].
  wp_step. rw {1}/on_sch {1}/on_manager. wp_step. wp_step. eapply wp_mono; [by apply mq_can_swap_in| |done]. move=> status b _.
  set (p1 := set_ps_sched _ p). have H1 : pkept p p1 by split.
  have Hq1 : swapped p1 = r :: q by destruct H1 as [[]]; rw ke_swapped.
  have Hl1 : loras_ready p1 by move=> ?; apply (pk_loras _ _ H1), Hl.
  have Hm1 lo0 ret0 := swap_moved_refl _ _ lo0 ret0 H1.
  have Hb1 := pkept_beside _ _ H1. have Hnext p2 lo2 ret2 f :
    swap_moved [(r, f)] p p2 lo lo2 ret ret2 →
    wp (swapped_loop conf fuel ec lo2 ret2) p2 (λ '(lo', ret') p', ∃ moves, swap_moved moves p p' lo lo' ret ret') E.
  { move=> Hm. eapply wp_mono; [apply IH| |done].
    - move: (sm_queue _ _ _ _ _ _ _ Hm) Hf. rw Hq /= => [[<-]]. simpl. lia.
    - move=> ?. apply (be_loras _ _ (sm_beside _ _ _ _ _ _ _ Hm)), Hl. done.
    - move=> [lo' ret'] p' [moves Hm']. exists ([(r, f)] ++ moves). by eapply swap_moved_trans. }
  destruct status.
  - wp_step. eapply wp_mono; [by apply lora_full_spec| |done]. move=> full p1' [-> Hfull]. wp_step.
    + wp_step. rw {1}/on_sch. wp_step. wp_step. apply (Hnext _ _ _ SetAside). eapply swap_moved_one; rw ?app_nil_r; try done.
      by move=> _ /Hfull.
    + wp_step. eapply wp_mono; [apply on_sch_kept; eauto 6 with keeps| |done]. move=> k p2 H2.
      wp_step. eapply wp_mono; [by eapply new_tokens_pkept| |done]. move=> [u c] p3 H3.
      wp_step. eapply (wp_mono _ _ (λ _ p4, pkept p3 p4) _ E); [| |done].
      { wp_step; first by wp_step; reflexivity. apply on_budget_kept. apply (budget_quiet E u k ""%string). }
      move=> ok p4 H4. have H5 : pkept p p4 by chain. wp_step; first by wp_step; exists []; apply swap_moved_refl.
      wp_step. eapply wp_mono; [apply (swap_in_group_spec r _ _ _ _ _ _ _ q)| |done].
      { destruct H5 as [[]]. by rw ke_swapped. }
      move=> ret2 p5 [H6 [H7 [H8 H9]]]. apply (Hnext _ _ _ Started). eapply swap_moved_one; rw ?app_nil_r; try done.
      etrans; [by apply pkept_beside|done].
  - wp_step. by exists [].
  - wp_step. rw {1}/on_sch. wp_step. apply on_group_spec; [done|]. move=> g1 Hg1. wp_step. wp_step. rw {1}/on_sch. wp_step. wp_step.
    apply (Hnext _ _ _ Ignored). cbn in Hg1. rw Hg in Hg1. injection Hg1 as <-. set (p2 := set_ps_sched _ _).
    have Hfin r' : fin_at (ps_sched p) r' ∨ r' = r → fin_at (ps_sched p2) r'.
    { rw /fin_at /=. destruct (decide (r' = r)) as [->|Hne]; last by rw list_lookup_insert_ne //; case.
      rw list_lookup_insert_eq; [by eapply lookup_lt_Some|]. move=> _. by rw /group_fin /= Hsq. }
    eapply swap_moved_one; rw ?app_nil_r; try done; [|by auto].
    split; try done. split; [by eapply ids_insert|by auto].
Qed.
Lemma schedule_swapped_spec ec p : loras_ready p →
  wp (schedule_swapped conf ec) p (λ ret p', ∃ moves rest, beside p p' ∧ swapped p = moves.*1 ++ rest ∧
    swapped p' = with_fate SetAside moves ++ rest ∧ si_groups ret ≡ₚ with_fate Started moves ∧
    si_infeasible_seq_groups ret = with_fate Ignored moves ∧ Forall (fin_at (ps_sched p')) (with_fate Ignored moves) ∧
    (vc_lora conf = None → with_fate SetAside moves = [])) E.
Proof.
  move=> Hl. rw /schedule_swapped. wp_step. wp_step. wp_step.
  eapply wp_mono; [apply swapped_loop_spec; [lia|done]| |done]. move=> [lo ret] p1 [moves [A1 A2 A3 A4 A5 A6 A7]].
  wp_step. rw /on_sch. wp_step. wp_step. wp_step. exists moves, (swapped p1). split_and!; cbn; try done.
  - etrans; [exact A1|]. by apply set_swapped_beside.
  - by rw A3 app_nil_r /extendleft reverse_involutive.
  - move: A4. by rw /si_groups /= app_nil_r.
Qed.

(** * Waiting groups *)
(** Everything but the waiting queue. *)
Record across p p' : Prop := {
  ac_running : running p' = running p;
  ac_swapped : swapped p' = swapped p;
  ac_stopped : stopped p' = stopped p;
  ac_evolves : evolves (ps_sched p) (ps_sched p');
  ac_loras : is_Some (ps_loras p) → is_Some (ps_loras p');
}.
#[global] Instance across_preorder : PreOrder across.
Proof.
  split; [by move=> p; split|]. move=> p1 p2 p3 [A1 A2 A3 A4 A5] [B1 B2 B3 B4 B5].
  split; [by rw B1|by rw B2|by rw B3|exact (transitivity A4 B4)|auto].
Qed.
Lemma pkept_across p p' : pkept p p' → across p p'.
Proof. move=> [H HL]. move: (kept_evolves _ _ H) => He. by destruct H. Qed.
Lemma set_waiting_across l p : across p (set_ps_sched (set_vs_waiting l (ps_sched p)) p).
Proof. by split. Qed.
Lemma pkept_waiting p p' : pkept p p' → waiting p' = waiting p.
Proof. by move=> [[]]. Qed.
Lemma wp_pop_waiting p Q : Q tt (set_ps_sched (set_vs_waiting (tail (waiting p)) (ps_sched p)) p) → wp pop_waiting p Q E.
Proof. move=> H. rw /pop_waiting /on_sch. by wp_step; wp_step. Qed.

Lemma start_prefill_spec r id la k u c ec ret p q :
  waiting p = r :: q → single_at (ps_sched p) r →
  wp (start_prefill conf r id la k u c ec ret) p (λ ret' p', across p p' ∧ waiting p' = q ∧
    po_seq_groups ret' = po_seq_groups ret ++ [{| ssg_seq_group := r; ssg_token_chunk_size := u + c |}] ∧
    po_ignored_seq_groups ret' = po_ignored_seq_groups ret) E.
Proof.
  move=> Hq Hone. rw /start_prefill. wp_step.
  eapply (wp_mono _ _ (λ _ p1, pkept p p1 ∧ vs_groups (ps_sched p1) = vs_groups (ps_sched p)) _ E); [| |done].
  { wp_step; last by split; [reflexivity|]. rw /add_lora. wp_step. split; [|done]. split; [done|]. by move=> [l Hl]; rw /= Hl. }
  move=> u0 p1 [H1 Hgr]. wp_step. apply wp_pop_waiting. set (p2 := set_ps_sched _ p1).
  have H2 : across p p2. { etrans; [by apply pkept_across|]. by apply set_waiting_across. }
  have Hs2 : waiting p2 = q by rw /p2 /= (pkept_waiting _ _ H1) Hq.
  wp_step. rw {1}/on_sch. wp_step. eapply wp_mono; [apply allocate_and_set_running_spec; [done|done|]| |done].
  { destruct Hone as [g [sq Hsq]]. exists g, sq. by rw /p2 /= Hgr. }
  move=> u3 s3 H3s. set (p3 := set_ps_sched s3 p2). have H3 : pkept p2 p3 by split.
  wp_step. eapply (wp_mono _ _ (λ _ p4, pkept p3 p4) _ E); [| |done].
  { destruct (ec && is_multi_step (vc_scheduler conf)); last by apply on_sch_kept; eauto 6 with keeps.
    wp_step. eapply wp_mono; [apply on_sch_kept; by eapply append_group_slots_kept| |done]. move=> copies p4 H4.
    wp_step; [done|by apply HE]. }
  move=> u4 p4 H4. wp_step. eapply wp_mono; [apply on_sch_kept; eauto 6 with keeps| |done]. move=> i p6 H6.
  wp_step. eapply wp_mono; [apply on_budget_kept; apply (budget_quiet E u c)| |done]. move=> u7 p7 H7.
  wp_step. eapply wp_mono; [apply on_budget_kept; apply (budget_quiet E k 0)| |done]. move=> u8 p8 H8.
  have H9 : pkept p2 p8 by chain. wp_step. split_and!; try done.
  - etrans; [exact H2|by apply pkept_across].
  - by rw (pkept_waiting _ _ H9).
Qed.

(** What a part of the loop has done with the front of the waiting queue. *)
Record wait_moved (moves : list (nat * Fate)) p p' (lo lo' : list nat) ret ret' : Prop := {
  wm_across : across p p';
  wm_queue : waiting p = moves.*1 ++ waiting p';
  wm_leftover : lo' = reverse (with_fate SetAside moves) ++ lo;
  wm_groups : groups_of (po_seq_groups ret') = groups_of (po_seq_groups ret) ++ with_fate Started moves;
  wm_ignored : po_ignored_seq_groups ret' = po_ignored_seq_groups ret ++ with_fate Ignored moves;
  wm_fin : Forall (fin_at (ps_sched p')) (with_fate Ignored moves);
  wm_lora : vc_lora conf = None → with_fate SetAside moves = [];
}.
Lemma wait_moved_refl p p' lo ret : pkept p p' → wait_moved [] p p' lo lo ret ret.
Proof. move=> H. split; rw ?app_nil_r //; [by apply pkept_across|]. by rw (pkept_waiting _ _ H). Qed.
Lemma wait_moved_trans m1 m2 p1 p2 p3 lo1 lo2 lo3 r1 r2 r3 :
  wait_moved m1 p1 p2 lo1 lo2 r1 r2 → wait_moved m2 p2 p3 lo2 lo3 r2 r3 → wait_moved (m1 ++ m2) p1 p3 lo1 lo3 r1 r3.
Proof.
  move=> [A1 A2 A3 A4 A5 A6 A7] [B1 B2 B3 B4 B5 B6 B7]. split; rw ?with_fate_app.
  - exact (transitivity A1 B1).
  - by rw A2 B2 fmap_app app_assoc.
  - by rw B3 A3 reverse_app app_assoc.
  - by rw B4 A4 app_assoc.
  - by rw B5 A5 app_assoc.
  - apply Forall_app. split; [eapply fin_evolves; [apply B1|done]|done].
  - move=> H. by rw A7 // B7.
Qed.
Lemma wait_moved_one f p p' lo lo' ret ret' r q :
  waiting p = r :: q → across p p' → waiting p' = q → (f = Ignored → fin_at (ps_sched p') r) → (f = SetAside → vc_lora conf ≠ None) →
  lo' = (if decide (f = SetAside) then [r] else []) ++ lo →
  groups_of (po_seq_groups ret') = groups_of (po_seq_groups ret) ++ (if decide (f = Started) then [r] else []) →
  po_ignored_seq_groups ret' = po_ignored_seq_groups ret ++ (if decide (f = Ignored) then [r] else []) →
  wait_moved [(r, f)] p p' lo lo' ret ret'.
Proof.
  move=> Hq Hb Hq' Hf Hs Hlo Hg Hi. split; rw ?with_fate_cons ?app_nil_r; try done.
  - by rw Hq Hq'.
  - rw Hlo. by destruct (decide (f = SetAside)).
  - destruct (decide (f = Ignored)) as [->|]; [by constructor; [apply Hf|]|by constructor].
  - destruct (decide (f = SetAside)) as [->|]; [by move=> /(Hs eq_refl)|done].
Qed.

Record pstill p p' : Prop := {
  ps_still : still (ps_sched p) (ps_sched p');
  ps_still_loras : is_Some (ps_loras p) → is_Some (ps_loras p');
}.
#[global] Instance pstill_preorder : PreOrder pstill.
Proof.
  split; first by move=> p; split; [reflexivity|]. move=> p1 p2 p3 [H1 L1] [H2 L2]. split; [exact (transitivity H1 H2)|auto].
Qed.
Lemma pstill_pkept p p' : pstill p p' → pkept p p'.
Proof. move=> [H L]. split; [by apply still_kept|done]. Qed.
Lemma on_sch_still {A} (m : M (V0Scheduler B) A) : keeps still E m → keeps pstill E (on_sch m).
Proof. move=> H p. rw /on_sch. wp_step. by eapply wp_mono; [apply H| |done]. Qed.
Lemma on_budget_still {A} (m : M SchedulingBudget A) : quiet E m → keeps pstill E (on_budget m).
Proof. move=> H p. rw /on_budget. wp_step. by eapply wp_mono; [apply H| |done]. Qed.
Lemma new_tokens_pstill r st ec : keeps pstill E (new_tokens conf r st ec).
Proof. rw /new_tokens. keeps_auto. apply on_sch_still. eauto with keeps. Qed.

(** The sequences of [r] are waiting. *)
Definition waiting_at p r : Prop :=
  ∃ g q l, vs_groups (ps_sched p) !! r = Some g ∧ sg_seqs g = q :: l ∧ sq_status q = SEQ_WAITING.
Lemma upd_seq_fin r i f s : (∀ q, seq_is_finished (f q) = true) →
  wp (upd_seq r i f) s (λ _ s', touches r s s' ∧ (fin_at s r ∨ i = 0 → ∀ g, vs_groups s !! r = Some g → sg_seqs g ≠ [] → fin_at s' r) ∧
    (∀ g, vs_groups s !! r = Some g → sg_seqs g ≠ [] → ∃ g', vs_groups s' !! r = Some g' ∧ sg_seqs g' ≠ [])) E.
Proof.
  move=> Hf. apply wp_and; [by apply upd_seq_touches|]. rw /upd_seq. apply on_group_spec; [done|]. move=> g Hg. wp_step. cbn.
  have Hlt := lookup_lt_Some _ _ _ Hg. rw /fin_at /= list_lookup_insert_eq // Hg. split.
  - move=> H g' [= <-] Hne. rw /group_fin /=. destruct (sg_seqs g) as [|q l] eqn:Hq; first done.
    destruct i as [|i]; cbn; [apply Hf|]. destruct H as [H|H]; [|done]. by rw /group_fin Hq in H.
  - move=> g' [= <-] Hne. exists (set_sg_seqs (alter f i (sg_seqs g)) g). split; [done|]. cbn. by destruct (sg_seqs g), i.
Qed.
Lemma ignore_waiting_spec r ret lo p q : waiting p = r :: q → waiting_at p r →
  wp (ignore_waiting r ret) p (λ ret' p', wait_moved [(r, Ignored)] p p' lo lo ret ret') E.
Proof.
  move=> Hq [g [sq [sl [Hg [Hs Hst]]]]]. rw /ignore_waiting. wp_step. rw {1}/on_sch. wp_step.
  eapply wp_mono; [by apply seq_positions_spec| |done]. move=> idx s' [-> [g' [q' [l' [Hg' [Hs' ->]]]]]].
  rw Hg in Hg'. injection Hg' as <-. rw Hs in Hs'. injection Hs' as <- <-. rw decide_True //.
  replace (set_ps_sched _ p) with p by by destruct p as [[]]. wp_step.
  eapply (wp_mono _ _ (λ _ p', touches r (ps_sched p) (ps_sched p') ∧ ps_loras p' = ps_loras p ∧ fin_at (ps_sched p') r) _ E); [| |done].
  - apply (wp_for_idx _ _ (λ k p', touches r (ps_sched p) (ps_sched p') ∧ ps_loras p' = ps_loras p ∧
      (0 < k → fin_at (ps_sched p') r) ∧ ∃ g', vs_groups (ps_sched p') !! r = Some g' ∧ sg_seqs g' ≠ [])).
    + split_and!; [reflexivity|done|lia|]. exists g. by rw Hs.
    + move=> k x p1 Hk [H1 [H2 [H3 [g1 [H4 H5]]]]]. apply lookup_seq in Hk as [-> Hk]. rw /on_sch. wp_step.
      eapply wp_mono; [by apply upd_seq_fin| |done]. move=> u s2 [T1 [T2 T3]]. cbn. split_and!.
      * exact (transitivity H1 T1).
      * done.
      * move=> _. eapply T2; [|done|done]. destruct k; [by right|left; apply H3; lia].
      * by eapply T3.
    + move=> p1 [H1 [H2 [H3 _]]]. split_and!; [done|done|]. apply H3. rw length_seq Hs /=. lia.
  - move=> u p1 [H1 [H2 H3]]. wp_step. apply wp_pop_waiting. wp_step. destruct H1 as [W1 W2 W3 W4 W5 W6].
    have Hev : evolves (ps_sched p) (ps_sched p1).
    { split; [done|]. move=> r'. destruct (decide (r' = r)) as [->|Hne]; first done. by rw /fin_at W6. }
    eapply wait_moved_one; rw ?app_nil_r; try done; cbn; [|by rw W1 Hq].
    split; cbn; [done|done|done| |by rw H2]. etrans; [exact Hev|by split].
Qed.
Lemma prefills_loop_spec fuel ec lo ret p : length (waiting p) < fuel → loras_ready p →
  wp (prefills_loop conf fuel ec lo ret) p (λ '(lo', ret') p', ∃ moves, wait_moved moves p p' lo lo' ret ret') E.
Proof.
  elim: fuel lo ret p => [|fuel IH] lo ret p0 Hf Hl; first lia. cbn [prefills_loop].
  wp_step. eapply wp_mono; [apply on_sch_still; eauto with keeps| |done]. move=> now p1 H1.
  wp_step. eapply wp_mono; [apply on_sch_still; eauto with keeps| |done]. move=> passed p2 H2.
  have H3 : pstill p0 p2 by chain. have H3k := pstill_pkept _ _ H3. wp_step. wp_step. rw (pkept_waiting _ _ H3k).
  destruct (waiting p0) as [|r q] eqn:Hq; first by wp_step; exists []; apply wait_moved_refl.
  wp_step; first by wp_step; exists []; apply wait_moved_refl.
  have Hnext f p3 lo2 ret2 : wait_moved [(r, f)] p0 p3 lo lo2 ret ret2 →
    wp (prefills_loop conf fuel ec lo2 ret2) p3 (λ '(lo', ret') p', ∃ moves, wait_moved moves p0 p' lo lo' ret ret') E.
  { move=> Hm. eapply wp_mono; [apply IH| |done].
    - move: (wm_queue _ _ _ _ _ _ _ Hm) Hf. rw Hq /= => [[<-]]. simpl. lia.
    - move=> ?. apply (ac_loras _ _ (wm_across _ _ _ _ _ _ _ Hm)), Hl. done.
    - move=> [lo' ret'] p' [moves Hm']. exists ([(r, f)] ++ moves). by eapply wait_moved_trans. }
  have Hbe p p' moves l1 l2 r1 r2 : pkept p0 p → wait_moved moves p p' l1 l2 r1 r2 → wait_moved moves p0 p' l1 l2 r1 r2.
  { move=> Hp Hm. apply (wait_moved_trans [] moves p0 p p' l1 l1 l2 r1 r1 r2); [by apply wait_moved_refl|done]. }
  wp_step. rw {1}/on_sch. wp_step. apply wp_the_group; [done|]. move=> g Hg.
  replace (set_ps_sched _ p2) with p2 by by destruct p2 as [[]].
  wp_step. rw {1}/on_sch. wp_step. eapply wp_mono; [by apply seq_positions_spec| |done].
  move=> idx s' [-> [g1 [sq [sl [Hg1 [Hs Hidx]]]]]]. replace (set_ps_sched _ p2) with p2 by by destruct p2 as [[]].
  wp_step. wp_step; last by apply HE. have Hone2 : single_at (ps_sched p2) r.
  { exists g1, sq. split; [done|]. destruct (decide (sq_status sq = SEQ_WAITING)); last by subst idx.
    rw Hidx length_seq Hs /= in H. by destruct sl. }
  have Hw2 : waiting_at p2 r.
  { exists g1, sq, sl. split_and!; [done|done|]. destruct (decide (sq_status sq = SEQ_WAITING)); [done|by subst idx]. }
  wp_step. eapply wp_mono; [by apply new_tokens_pstill| |done]. move=> [u c] p4 H4. wp_step.
  eapply (wp_mono _ _ (λ _ p', p' = p4) _ E); [| |done].
  { wp_step; last done. wp_step. rw {1}/on_sch. wp_step. eapply wp_mono; [by apply the_seq_pure| |done]. move=> sq5 s5 <-.
    replace (set_ps_sched _ p4) with p4 by by destruct p4 as [[]]. wp_step; [done|by apply HE]. }
  move=> u5 p5 ->. clear u5 p5. have H5 : pstill p0 p4 by chain. have H5k := pstill_pkept _ _ H5.
  have Hw : waiting_at p4 r. { destruct H4 as [[? ? ? ? Hgr] _]. by rw /waiting_at Hgr. }
  have Hq4 : waiting p4 = r :: q by rw (pkept_waiting _ _ H5k).
  wp_step. apply wp_lift; last by move=> e He; apply HE; eapply prompt_limit_no_fault. move=> limit _.
  wp_step.
  { wp_step. eapply wp_mono; [by apply (ignore_waiting_spec r ret lo _ q)| |done]. move=> ret' p' Hm.
    apply (Hnext Ignored). by eapply Hbe. }
  wp_step. eapply wp_mono; [apply on_sch_still; eauto 6 with keeps| |done]. move=> status p6 H6.
  have H7 : pstill p0 p6 by chain. have H7k := pstill_pkept _ _ H7.
  have Hw6 : waiting_at p6 r. { destruct H6 as [[? ? ? ? Hgr] _]. by rw /waiting_at Hgr. }
  have Hq6 : waiting p6 = r :: q by rw (pkept_waiting _ _ H7k).
  have Hl6 : loras_ready p6 by move=> ?; apply (ps_still_loras _ _ H7), Hl.
  have Hstay p : pkept p6 p → ∃ moves, wait_moved moves p0 p lo lo ret ret.
  { move=> Hp. exists []. apply wait_moved_refl. by etrans. }
  destruct status.
  - wp_step. eapply wp_mono; [by apply lora_full_spec| |done]. move=> full p6' [-> Hfull]. wp_step.
    { wp_step. apply wp_pop_waiting. apply (Hnext SetAside). eapply Hbe; [exact H7k|].
      eapply wait_moved_one; rw ?app_nil_r; try done; [by rw Hq6|by move=> _ /Hfull]. }
    wp_step. wp_step. wp_step; first by wp_step; apply Hstay; reflexivity.
    wp_step. eapply wp_mono; [apply on_sch_still; eauto 6 with keeps| |done]. move=> k p8 H8.
    wp_step. eapply (wp_mono _ _ (λ _ p9, pstill p8 p9) _ E); [| |done].
    { wp_step; first by wp_step; reflexivity. apply on_budget_still. apply (budget_quiet E u k ""%string). }
    move=> ok p9 H9. have H10s : pstill p6 p9 by chain. have H10 := pstill_pkept _ _ H10s. wp_step; first by wp_step; apply Hstay.
    wp_step. eapply wp_mono; [apply (start_prefill_spec r _ _ _ _ _ _ _ _ q); [by rw (pkept_waiting _ _ H10)|]| |done].
    { have H11 : pstill p2 p9 by chain. destruct H11 as [[_ _ _ _ Hgr] _]. by rw /single_at Hgr. }
    move=> ret2 p11 [G1 [G2 [G3 G4]]]. apply (Hnext Started). eapply wait_moved_one; rw ?app_nil_r; try done.
    + etrans; [|exact G1]. apply pkept_across. by etrans.
    + by rw G3 /groups_of fmap_app.
  - wp_step. apply Hstay. reflexivity.
  - wp_step. eapply wp_mono; [by apply (ignore_waiting_spec r ret lo _ q)| |done]. move=> ret' p' Hm.
    apply (Hnext Ignored). by eapply Hbe.
Qed.
Lemma schedule_prefills_spec ec p : loras_ready p →
  wp (schedule_prefills conf ec) p (λ ret p', ∃ moves rest, across p p' ∧ waiting p = moves.*1 ++ rest ∧
    waiting p' = with_fate SetAside moves ++ rest ∧ groups_of (po_seq_groups ret) = with_fate Started moves ∧
    po_ignored_seq_groups ret = with_fate Ignored moves ∧ Forall (fin_at (ps_sched p')) (with_fate Ignored moves) ∧
    (vc_lora conf = None → with_fate SetAside moves = [])) E.
Proof.
  move=> Hl. rw /schedule_prefills. wp_step. wp_step. wp_step.
  eapply wp_mono; [apply prefills_loop_spec; [lia|done]| |done]. move=> [lo ret] p1 [moves [A1 A2 A3 A4 A5 A6 A7]].
  wp_step. rw {1}/on_sch. wp_step. wp_step. set (p2 := set_ps_sched _ p1). wp_step.
  eapply (wp_mono _ _ (λ _ p3, still (ps_sched p2) (ps_sched p3) ∧ ps_loras p3 = ps_loras p1) _ E); [| |done].
  { wp_step; [rw /on_sch; wp_step; wp_step; split; [|reflexivity]; by split|by split; [reflexivity|]]. }
  move=> u p3 [H3 L3]. wp_step. exists moves, (waiting p1). have H4 := still_kept _ _ H3. have H5 := kept_evolves _ _ H4.
  destruct H3 as [S1 S2 S3 S4 S5]. cbn in *. split_and!; try done.
  - etrans; [exact A1|]. split; [done|done|done|by etrans; [|exact H5]|by rw L3].
  - by rw S1 A3 app_nil_r /extendleft reverse_involutive.
  - eapply fin_evolves; [|exact A6]. by etrans; [|exact H5].
Qed.

(** * The priority policy *)
Lemma sort_queue_spec q s : wp (sort_queue q) s (λ q' s', s' = s ∧ q' ≡ₚ q) E.
Proof.
  rw /sort_queue. wp_step. eapply (wp_mono _ _ (λ l s', s' = s ∧ l.*1 = q) _ E); [| |done].
  - have H (acc : list (nat * (Z * Z))) : wp (mfold q acc (λ l r, g ← the_group r; mret (l ++ [(r, get_priority g)]))) s
      (λ l s', s' = s ∧ l.*1 = acc.*1 ++ q) E; last by apply (H []).
    elim: q acc => [|r q IH] acc; first by apply wp_ret; rw app_nil_r.
    cbn [mfold]. wp_step. wp_step. apply wp_the_group; [done|]. move=> g Hg. wp_step.
    eapply wp_mono; [apply IH| |done]. move=> l s' [-> ->]. by rw fmap_app -app_assoc.
  - move=> l s' [-> <-]. wp_step. split; [done|]. by rw py_sorted_perm.
Qed.
Lemma priority_loop_spec rq r n k count p :
  wp (priority_loop conf rq r n k count) p (λ '(rest, c) p', ∃ vics, rq = vics ++ rest ∧ across p p' ∧
    waiting p' = reverse vics ++ waiting p) E.
Proof.
  elim: rq count p => [|v rq IH] count p; cbn [priority_loop]; first by wp_step; exists []; split_and!; [done|reflexivity|done].
  wp_step. eapply wp_mono; [apply on_sch_kept; eauto 6 with keeps| |done]. move=> vg p1 H1.
  wp_step. eapply wp_mono; [apply on_sch_kept; eauto 6 with keeps| |done]. move=> g p2 H2.
  have Hstop p' : pkept p p' → ∃ vics, v :: rq = vics ++ v :: rq ∧ across p p' ∧ waiting p' = reverse vics ++ waiting p.
  { move=> H. exists []. split_and!; [done|by apply pkept_across|by rw (pkept_waiting _ _ H)]. }
  wp_step; first by wp_step; apply Hstop; chain.
  wp_step. eapply wp_mono; [apply on_sch_kept; eauto 6 with keeps| |done]. move=> status p3 H3.
  wp_step. eapply (wp_mono _ _ (λ _ p4, pkept p3 p4) _ E); [| |done].
  { wp_step; last by wp_step; reflexivity. apply on_budget_kept. apply (budget_quiet E n k ""%string). }
  move=> fits p4 H4. wp_step; first by wp_step; apply Hstop; chain.
  wp_step. eapply wp_mono; [by eapply new_tokens_pkept| |done]. move=> [m c] p5 H5.
  wp_step. eapply wp_mono; [apply on_budget_kept; apply (budget_quiet E m 0)| |done]. move=> u6 p6 H6.
  wp_step. eapply wp_mono; [apply on_sch_kept; eauto 6 with keeps| |done]. move=> j p7 H7.
  wp_step. eapply wp_mono; [apply on_budget_kept; apply (budget_quiet E j 0)| |done]. move=> u8 p8 H8.
  wp_step. eapply wp_mono; [apply on_sch_kept; eauto 6 with keeps| |done]. move=> u9 p9 H9.
  have H10 : pkept p p9 by chain. wp_step. rw {1}/on_sch. wp_step. wp_step. set (p10 := set_ps_sched _ p9).
  eapply wp_mono; [apply (IH (S count) p10)| |done]. move=> [rest c'] p' [vics [V1 [V2 V3]]].
  exists (v :: vics). split_and!.
  - by rw V1.
  - etrans; [by apply pkept_across|]. by etrans; [|exact V2].
  - by rw V3 /= reverse_cons -app_assoc (pkept_waiting _ _ H10).
Qed.
Record shuffled p p' : Prop := {
  sh_queues : waiting p' ++ running p' ≡ₚ waiting p ++ running p;
  sh_swapped : swapped p' = swapped p;
  sh_stopped : stopped p' = stopped p;
  sh_evolves : evolves (ps_sched p) (ps_sched p');
  sh_loras : is_Some (ps_loras p) → is_Some (ps_loras p');
}.
Lemma schedule_priority_preemption_spec p : wp (schedule_priority_preemption conf) p (λ _ p', shuffled p p') E.
Proof.
  rw /schedule_priority_preemption. wp_step. wp_step.
  wp_step. rw {1}/on_sch. wp_step. eapply wp_mono; [apply sort_queue_spec| |done]. move=> rq s' [-> Hrq].
  replace (set_ps_sched _ p) with p by by destruct p as [[]].
  wp_step. eapply (wp_mono _ _ (λ '(rq', c) p1, waiting p1 ++ rq' ≡ₚ waiting p ++ running p ∧ across p p1) _ E); [| |done].
  { destruct (vs_waiting (ps_sched p)) as [|r q] eqn:Hw; first by wp_step; rw Hw Hrq; split; [|reflexivity].
    wp_step. rw {1}/on_sch. wp_step. wp_step. set (p1 := set_ps_sched _ p).
    wp_step. eapply wp_mono; [apply on_sch_kept; eauto 6 with keeps| |done]. move=> k p2 H2.
    wp_step. eapply wp_mono; [by eapply new_tokens_pkept| |done]. move=> [n c] p3 H3.
    have H4 : pkept p1 p3 by chain. wp_step. eapply wp_mono; [apply priority_loop_spec| |done].
    move=> [rest c'] p5 [vics [V1 [V2 V3]]]. wp_step. rw {1}/on_sch. wp_step. wp_step. wp_step. split.
    - rw /= V3 (pkept_waiting _ _ H4) /=. have Hrev : rq ≡ₚ vics ++ rest by rw -V1 reverse_Permutation. perm_occ.
    - etrans; [by apply (set_waiting_across q)|]. etrans; [by apply pkept_across|]. etrans; [exact V2|]. by apply set_waiting_across. }
  move=> [rq' c] p1 [H1 H2]. wp_step. wp_step. wp_step. rw {1}/on_sch. wp_step.
  eapply wp_mono; [apply sort_queue_spec| |done]. move=> wq s2 [-> Hwq]. replace (set_ps_sched _ p1) with p1 by by destruct p1 as [[]].
  wp_step. rw /on_sch. wp_step. wp_step. wp_step. destruct H2 as [A1 A2 A3 A4 A5].
  split; cbn; [by rw Hwq|done|done| |done]. by etrans; [exact A4|].
Qed.
End admission.
