(* ===== verification/V0SchedTheorems.v ===== *)
(** Properties of [schedule] of the V0 scheduler, over any block manager and under
    both policies: no group is lost or duplicated, the loops stop, and the checks
    of [SchedulerOutputs] pass. *)
From Stdlib Require Import ssreflect ZArith Lia.
From stdpp Require Import base numbers list gmap strings.
From S2P Require Import Prelude SamplingParams SequenceData Sequences BlockTable BlockManager SchedConfig V0Types V0Sched V0Phases V0Schedule V0Frame V0Running V0Admission.

Section theorems.
Context {B : Type} `{BSM : BlockSpaceManager B}.
Context (E : exn → Prop) `{HE : !Faultless E} (HB : manager_quiet E).
Context (HT : E (AssertionError "budget.num_batched_tokens <= max_num_batched_tokens"))
  (HS : E (AssertionError "budget.num_curr_seqs <= max_num_seqs")).
Context (conf : V0Config) (callback : option (string → M (V0Scheduler B) unit)).
Context (HC : ∀ f id, callback = Some f → keeps kept E (f id)).
Implicit Types (s : V0Scheduler B) (p : Pass B) (o : V0SchedulerOutputs).
Abbreviation waiting p := (vs_waiting (ps_sched p)).
Abbreviation running p := (vs_running (ps_sched p)).
Abbreviation swapped p := (vs_swapped (ps_sched p)).
Abbreviation stopped p := (vs_async_stopped (ps_sched p)).

(** * [SchedulerOutputs] *)
Definition one_direction o : Prop := so_blocks_to_swap_in o = [] ∨ so_blocks_to_swap_out o = [].
Definition same_outputs o o' : Prop := groups_of (so_scheduled_seq_groups o') ≡ₚ groups_of (so_scheduled_seq_groups o) ∧
  so_ignored_seq_groups o' = so_ignored_seq_groups o.
Lemma keyed_fold {A K : Type} (f : list (K * A) → A → M (V0Scheduler B) (list (K * A))) (l : list A) s acc :
  (∀ acc x, wp (f acc x) s (λ acc' s', s' = s ∧ ∃ k, acc' = acc ++ [(k, x)]) E) →
  wp (mfold l acc f) s (λ l' s', s' = s ∧ l'.*2 = acc.*2 ++ l) E.
Proof.
  move=> Hf. elim: l acc => [|x l IH] acc; first by apply wp_ret; rw app_nil_r.
  cbn [mfold]. wp_step. eapply wp_mono; [apply Hf| |done]. move=> acc' s1 [-> [k ->]].
  eapply wp_mono; [apply IH| |done]. move=> l' s2 [-> ->]. by rw fmap_app -app_assoc.
Qed.
Lemma outputs_post_init_spec o s :
  one_direction o → (0 ≤ so_num_prefill_groups o ≤ Z.of_nat (length (so_scheduled_seq_groups o)))%Z →
  wp (outputs_post_init o) s (λ o' s', s' = s ∧ same_outputs o o') E.
Proof.
  move=> Hone Hn. rw /outputs_post_init. wp_step. wp_step; last first.
  { destruct Hone as [Hz|Hz]; rw Hz /= in H; [done|by rw andb_false_r in H]. }
  clear H. wp_step. eapply (wp_mono _ _ (λ _ s', s' = s) _ E); [| |done].
  { rw /num_loras. wp_step. eapply (wp_mono _ _ (λ _ s1, s1 = s) _ E); [|by move=> l s1 ->; wp_step|done].
    apply (wp_fold _ _ _ (λ _ s1, s1 = s)); first done. move=> l x s1 _ ->. wp_step. apply wp_the_group; [done|]. move=> g _. by wp_step. }
  move=> n s1 ->. wp_step; last by wp_step. rw /sort_by_lora_ids. wp_step. wp_step; last by lia.
  wp_step. eapply wp_mono; [apply keyed_fold| |done].
  - move=> acc x. wp_step. apply wp_the_group; [done|]. move=> g _. wp_step.
    eapply wp_mono; [by apply on_group_pure, group_is_prefill_pure| |done]. move=> b s3 <-. wp_step. split; [done|by eexists].
  - move=> keyed s4 [-> Hk]. wp_step. split; [done|]. split; [|done]. cbn in *. rw /groups_of -Hk. by rw py_sorted_perm.
Qed.

(** * The passes *)
(** Every group is in a queue, stopped, ignored, or dropped because it was found
    finished. *)
Definition accounts s s' o : Prop := ∃ d,
  vs_waiting s' ++ vs_running s' ++ vs_swapped s' ++ vs_async_stopped s' ++ so_ignored_seq_groups o ++ d ≡ₚ
    vs_waiting s ++ vs_running s ++ vs_swapped s ++ vs_async_stopped s ∧
  evolves s s' ∧ Forall (fin_at s') (so_ignored_seq_groups o ++ d) ∧
  (callback = None → d = [] ∧ vs_async_stopped s' = vs_async_stopped s) ∧
  groups_of (so_scheduled_seq_groups o) ⊆+ vs_running s'.
Lemma count_running_pkept p : wp count_running p (λ _ p', pkept p p') E.
Proof.
  rw /count_running. wp_step. wp_step. apply (wp_for _ _ (pkept p)); first by reflexivity. move=> r p1 _ H1.
  wp_step. eapply wp_mono; [apply on_sch_kept; eauto 6 with keeps| |done]. move=> i p2 H2.
  wp_step. eapply wp_mono; [apply on_sch_kept; eauto 6 with keeps| |done]. move=> n p3 H3.
  eapply wp_mono; [apply on_budget_kept; apply (budget_quiet E n 0)| |done]. move=> u p4 H4. chain.
Qed.
Lemma running_loras_spec p : wp (running_loras conf) p (λ _ p', kept (ps_sched p) (ps_sched p') ∧ loras_ready conf p') E.
Proof.
  rw /running_loras /lora_enabled. case_bool_decide as Hl; last by wp_step; split; [reflexivity|by move=> /Hl].
  wp_step. wp_step. set (p1 := set_ps_loras _ p). wp_step. wp_step.
  eapply (wp_mono _ _ (λ _ p', pkept p1 p') _ E); [| |done].
  - apply (wp_for _ _ (pkept p1)); first by reflexivity. move=> r p2 _ H2.
    wp_step. eapply wp_mono; [apply on_sch_kept; eauto 6 with keeps| |done]. move=> g p3 H3. wp_step; last by chain.
    eapply wp_mono; [by apply add_lora_kept| |done]. move=> u p4 H4. chain.
  - move=> u p2 [H2 L2]. split; [done|]. move=> _. by apply L2.
Qed.
Lemma check_budget_spec p : wp (check_budget conf) p (λ _ p', p' = p) E.
Proof. rw /check_budget. wp_step. wp_step. wp_step. wp_step; last done. by wp_step. Qed.
Lemma wp_extend_running l p Q : Q tt (set_ps_sched (set_vs_running (running p ++ l) (ps_sched p)) p) → wp (extend_running l) p Q E.
Proof. move=> H. rw /extend_running /on_sch. by wp_step; wp_step. Qed.

(** The swapped phase, if nothing was preempted. *)
Definition swapped_part ec (rs : SchedulerRunningOutputs) : M (Pass B) SchedulerSwappedInOutputs :=
  if length (ro_preempted rs) + length (ro_swapped_out rs) =? 0 then schedule_swapped conf ec else mret (swapped_in_outputs_empty 0).
Lemma swapped_part_spec ec rs p : loras_ready conf p →
  wp (swapped_part ec rs) p (λ ret p', beside p p' ∧
    swapped p ≡ₚ swapped p' ++ si_groups ret ++ si_infeasible_seq_groups ret ∧
    Forall (fin_at (ps_sched p')) (si_infeasible_seq_groups ret) ∧
    (ro_swapped_out rs = [] ∨ si_blocks_to_swap_in ret = [])) E.
Proof.
  move=> Hl. rw /swapped_part. destruct (_ =? 0) eqn:Hz.
  - eapply wp_mono; [by apply schedule_swapped_spec| |done].
    move=> ret p' [moves [rest [A1 [A2 [A3 [A4 [A5 [A6 A7]]]]]]]]. split_and!; [done| |by rw A5|].
    + rw A2 A3 A5. have := with_fate_perm moves. move=> H. perm_occ.
    + left. apply Nat.eqb_eq in Hz. destruct (ro_swapped_out rs); [done|]. simpl in Hz. lia.
  - wp_step. split_and!; [reflexivity|by rw !app_nil_r|by constructor|by right].
Qed.

(** What the running and the swapped phase have done together. *)
Record executed p p' (rs : SchedulerRunningOutputs) (si : SchedulerSwappedInOutputs) (d : list nat) : Prop := {
  ex_waiting : waiting p' = waiting p;
  ex_queues : running p' ++ stopped p' ++ ro_groups rs ++ d ≡ₚ running p ++ stopped p;
  ex_swapped : swapped p' ++ si_groups si ++ si_infeasible_seq_groups si ≡ₚ swapped p;
  ex_evolves : evolves (ps_sched p) (ps_sched p');
  ex_fin : Forall (fin_at (ps_sched p')) (si_infeasible_seq_groups si ++ d);
  ex_callback : callback = None → d = [] ∧ stopped p' = stopped p;
  ex_ok : ro_ok rs;
  ex_direction : si_blocks_to_swap_in si = [] ∨ ro_blocks_to_swap_out rs = [];
  ex_loras : loras_ready conf p → loras_ready conf p';
}.
Lemma executed_none p n m : executed p p (running_outputs_empty n) (swapped_in_outputs_empty m) [].
Proof. split; rw /= ?app_nil_r; try done; first [reflexivity|by left|by constructor]. Qed.
Lemma execute_spec ec ec' p : loras_ready conf p →
  wp (schedule_running conf callback ec) p (λ rs p1, wp (swapped_part ec' rs) p1 (λ si p', ∃ d, executed p p' rs si d) E) E.
Proof.
  move=> Hl. eapply wp_mono; [by apply schedule_running_spec| |done].
  move=> rs p1 [Hst [A1 A2 A3 A4 [l [st [d [A5 [A6 [[A7 A8 A9 A10] A11]]]]]]]].
  eapply wp_mono; [by apply swapped_part_spec; move=> ?; apply A4, Hl| |done].
  move=> si p2 [[B1 B2 B3 B4 B5] [B6 [B7 B8]]]. exists d. have {}A7 : ro_groups rs ++ d ≡ₚ l by rw A7 {1}/ro_groups /= app_nil_r.
  have Hok : ro_ok rs by apply A10.
  split; rw ?B1 ?B2 ?B3 ?A1; try done.
  - rw A6. perm_occ.
  - rw -A2. by rw B6.
  - exact (transitivity A3 B4).
  - apply Forall_app. split; [done|]. by eapply fin_evolves.
  - move=> Hn. by rw A9 // A6 A11 // app_nil_r.
  - destruct B8 as [H8|H8]; [right|by left]. by apply (rok_swap _ Hok).
  - move=> _ ?. by apply B5, A4, Hl.
Qed.
Lemma wp_modify_sch f p Q : Q tt (set_ps_sched (f (ps_sched p)) p) → wp (on_sch (mmodify f)) p Q E.
Proof. move=> H. rw /on_sch. by wp_step; wp_step. Qed.
Lemma shuffled_refl p : shuffled p p.
Proof. by split. Qed.
Definition prefills_done p p' (po : SchedulerPrefillOutputs) : Prop :=
  across p p' ∧ waiting p' ++ groups_of (po_seq_groups po) ++ po_ignored_seq_groups po ≡ₚ waiting p ∧
  Forall (fin_at (ps_sched p')) (po_ignored_seq_groups po).
Lemma schedule_prefills_done ec p : loras_ready conf p →
  wp (schedule_prefills conf ec) p (λ po p', prefills_done p p' po) E.
Proof.
  move=> Hl. eapply wp_mono; [by apply schedule_prefills_spec| |done].
  move=> po p' [moves [rest [A1 [A2 [A3 [A4 [A5 [A6 A7]]]]]]]]. split_and!; [done| |by rw A5].
  rw A2 A3 A4 A5. have H := with_fate_perm moves. perm_occ.
Qed.

Lemma submseteq_of_perm (l1 l2 k : list nat) : l2 ≡ₚ l1 ++ k → l1 ⊆+ l2.
Proof. move=> ->. by apply submseteq_inserts_r. Qed.

(** Assembling the outputs of the phases of the default policy. *)
Lemma default_accounts p1 p2 p3 p4 po rs si d w r sw s o o' :
  prefills_done p1 p2 po → shuffled p2 p3 → executed p3 p4 rs si d →
  groups_of (ro_prefill_seq_groups rs) = [] → groups_of (si_prefill_seq_groups si) = [] →
  w = extendleft (ro_preempted rs) (waiting p4) →
  r = ((running p4 ++ groups_of (po_seq_groups po)) ++ ro_decode_seq_groups_list rs) ++ groups_of (si_decode_seq_groups si) →
  sw = swapped p4 ++ ro_swapped_out rs →
  vs_waiting s = w → vs_running s = r → vs_swapped s = sw → vs_async_stopped s = stopped p4 → vs_groups s = vs_groups (ps_sched p4) →
  so_ignored_seq_groups o = po_ignored_seq_groups po ++ si_infeasible_seq_groups si →
  so_scheduled_seq_groups o = po_seq_groups po ++ ro_decode_seq_groups rs ++ si_decode_seq_groups si →
  same_outputs o o' → accounts (ps_sched p1) s o'.
Proof.
  move=> [A1 [A2 A3]] [B1 B2 B3 B4 B5] [C1 C2 C3 C4 C5 C6 [C7 _ _] _ _] Hrp Hsp -> -> -> Hw Hr Hs Hst Hg Hi Ho [Hp Hi'].
  destruct A1 as [D1 D2 D3 D4 D5]. rw D1 in B1. rw D2 in B2. rw D3 in B3. rw /ro_groups Hrp app_nil_r in C2.
  rw /si_groups Hsp app_nil_r in C3. rw C7 in Hr.
  have Hev : evolves (ps_sched p4) s by split; rw /fin_at Hg.
  have Hev1 : evolves (ps_sched p2) s by etrans; [exact B4|]; etrans; [exact C4|].
  exists d. rw Hw Hr Hs Hst Hi' Hi /extendleft C1. clear Hw Hr Hs Hst Hi Hi' Hg. split_and!.
  - rw B2 in C3. rw B3 in C2. perm_occ.
  - by etrans; [exact D4|].
  - rw -app_assoc. apply Forall_app. split; [exact (fin_evolves _ _ _ Hev1 A3)|exact (fin_evolves _ _ _ Hev C5)].
  - move=> Hn. destruct (C6 Hn) as [-> ->]. by rw B3.
  - rw Hp Ho /groups_of !fmap_app. apply (submseteq_of_perm _ _ (running p4)). perm_occ.
Qed.
Lemma schedule_default_pass_spec p :
  wp (schedule_default_pass conf callback) p (λ o p', accounts (ps_sched p) (ps_sched p') o) E.
Proof.
  rw /schedule_default_pass. wp_step. eapply wp_mono; [apply count_running_pkept| |done]. move=> u1 p1 [H1 _].
  wp_step. eapply wp_mono; [apply running_loras_spec| |done]. move=> u2 p2 [H2 L2].
  have H12 : kept (ps_sched p) (ps_sched p2) by chain. clear H1 H2. wp_step. wp_step. wp_step.
  eapply (wp_mono _ _ (λ po p', prefills_done p2 p' po) _ E); [| |done].
  { wp_step; [by apply schedule_prefills_done|]. wp_step. split_and!; [reflexivity|by rw /= app_nil_r|by constructor]. }
  move=> po p3 Hpo. have L3 : loras_ready conf p3 by move=> ?; apply (ac_loras _ _ (proj1 Hpo)), L2.
  wp_step. eapply (wp_mono _ _ (λ _ p', shuffled p3 p') _ E); [| |done].
  { wp_step; last by apply shuffled_refl. wp_step. eapply wp_mono; [by apply schedule_priority_preemption_spec| |done].
    move=> n p9 H9. by wp_step. }
  move=> u4 p4 H4. have L4 : loras_ready conf p4 by move=> ?; apply (sh_loras _ _ H4), L3.
  wp_step. eapply (wp_mono _ _ (λ '(rs, si) p', ∃ d, executed p4 p' rs si d) _ E); [| |done].
  { destruct (length (po_seq_groups po) =? 0); [|wp_step; exists []; apply executed_none].
    wp_step. eapply wp_mono; [by apply execute_spec| |done]. move=> rs p5 H5. wp_step.
    eapply wp_mono; [exact H5| |done]. move=> si p6 H6. by wp_step. }
  move=> [rs si] p5 [d Hex]. wp_step. eapply wp_mono; [apply check_budget_spec| |done]. move=> u6 p6 ->. clear u6 p6.
  wp_step. apply wp_modify_sch. wp_step. apply wp_extend_running. wp_step. apply wp_extend_running. wp_step. apply wp_extend_running.
  wp_step. apply wp_modify_sch. wp_step. wp_step; last by apply HE. wp_step. wp_step; last by apply HE. wp_step. wp_step.
  rw /on_sch. wp_step. eapply wp_mono; [apply outputs_post_init_spec| |done].
  - destruct (ex_direction _ _ _ _ _ Hex) as [Hd|Hd]; [by left|by right].
  - cbn. rw length_app. lia.
  - move=> o' s' [-> Hsame]. cbn beta.
    have Ha : accounts (ps_sched p2) (ps_sched (set_ps_sched (set_vs_swapped (swapped p5 ++ ro_swapped_out rs)
        (set_vs_running (((running p5 ++ groups_of (po_seq_groups po)) ++ ro_decode_seq_groups_list rs) ++ groups_of (si_decode_seq_groups si))
          (set_vs_waiting (extendleft (ro_preempted rs) (waiting p5)) (ps_sched p5)))) p5)) o'.
    { eapply (default_accounts p2 p3 p4 p5 po rs si d);
        [exact Hpo|exact H4|exact Hex| | |reflexivity|reflexivity|reflexivity|done|done|done|done|done| | |exact Hsame]; try done.
      - by destruct (ro_prefill_seq_groups rs).
      - by destruct (si_prefill_seq_groups si). }
    destruct Ha as [d' [D1 [D2 [D3 [D4 D5]]]]]. have Hev := kept_evolves _ _ H12. destruct H12 as [K1 K2 K3 K4 _ _].
    exists d'. rw -K1 -K2 -K3 -K4. split_and!; [done|by etrans; [exact Hev|]|done|done|done].
Qed.

Lemma chunked_accounts p1 p2 p3 po rs si d s o o' :
  executed p1 p2 rs si d → prefills_done p2 p3 po →
  vs_waiting s = extendleft (ro_preempted rs) (waiting p3) →
  vs_running s = ((((running p3 ++ groups_of (si_decode_seq_groups si)) ++ groups_of (si_prefill_seq_groups si)) ++
    groups_of (ro_decode_seq_groups rs)) ++ groups_of (ro_prefill_seq_groups rs)) ++ groups_of (po_seq_groups po) →
  vs_swapped s = swapped p3 ++ ro_swapped_out rs → vs_async_stopped s = stopped p3 → vs_groups s = vs_groups (ps_sched p3) →
  so_ignored_seq_groups o = po_ignored_seq_groups po ++ si_infeasible_seq_groups si →
  so_scheduled_seq_groups o = po_seq_groups po ++ ro_prefill_seq_groups rs ++ si_prefill_seq_groups si ++
    ro_decode_seq_groups rs ++ si_decode_seq_groups si →
  same_outputs o o' → accounts (ps_sched p1) s o'.
Proof.
  move=> [C1 C2 C3 C4 C5 C6 _ _ _] [[D1 D2 D3 D4 D5] [A2 A3]] Hw Hr Hs Hst Hg Hi Ho [Hp Hi'].
  have Hev : evolves (ps_sched p3) s by split; rw /fin_at Hg.
  have Hev1 : evolves (ps_sched p2) s by etrans; [exact D4|].
  exists d. rw Hw Hr Hs Hst Hi' Hi /extendleft D1 D2 D3. clear Hw Hr Hs Hst Hi Hi' Hg. split_and!.
  - rw /ro_groups in C2. rw /si_groups in C3. rw C1 in A2. perm_occ.
  - by etrans; [exact C4|].
  - rw -app_assoc. apply Forall_app. split; [exact (fin_evolves _ _ _ Hev A3)|exact (fin_evolves _ _ _ Hev1 C5)].
  - done.
  - rw Hp Ho /groups_of !fmap_app. apply (submseteq_of_perm _ _ (running p2)). perm_occ.
Qed.
Lemma schedule_chunked_prefill_pass_spec p :
  wp (schedule_chunked_prefill_pass conf callback) p (λ o p', accounts (ps_sched p) (ps_sched p') o) E.
Proof.
  rw /schedule_chunked_prefill_pass. wp_step. wp_step. set (p1 := set_ps_loras _ p). have L1 : loras_ready conf p1 by move=> _; eexists.
  wp_step. eapply wp_mono; [by apply (execute_spec true false)| |done]. move=> rs q1 Hq1. wp_step.
  eapply wp_mono; [exact Hq1| |done]. move=> si p2 [d Hex].
  wp_step. eapply wp_mono; [apply schedule_prefills_done; by apply (ex_loras _ _ _ _ _ Hex)| |done]. move=> po p3 Hpo.
  wp_step. eapply wp_mono; [apply check_budget_spec| |done]. move=> u4 p4 ->. clear u4 p4.
  wp_step. apply wp_modify_sch. do 5 (wp_step; apply wp_extend_running). wp_step. apply wp_modify_sch. wp_step. wp_step.
  rw /on_sch. wp_step. eapply wp_mono; [apply outputs_post_init_spec| |done].
  - destruct (ex_direction _ _ _ _ _ Hex) as [Hd|Hd]; [by left|by right].
  - cbn. rw !length_app. lia.
  - move=> o' s' [-> Hsame]. cbn beta.
    by eapply (chunked_accounts p1 p2 p3 po rs si d); [exact Hex|exact Hpo| | | | | | | |exact Hsame].
Qed.
Lemma schedule_pass_spec s : wp (schedule_pass conf callback) s (λ o s', accounts s s' o) E.
Proof.
  rw /wp /schedule_pass. set (p := {| ps_sched := s; ps_budget := _; ps_loras := None |}).
  destruct (cf_chunked_prefill_enabled (vc_scheduler conf)).
  - have H := schedule_chunked_prefill_pass_spec p. rw /wp in H.
    by destruct (schedule_chunked_prefill_pass conf callback p) as [[o p']|e].
  - have H := schedule_default_pass_spec p. rw /wp in H. by destruct (schedule_default_pass conf callback p) as [[o p']|e].
Qed.

(** * The messages *)
Lemma status_kept r i f : (∀ q, sq_status (f q) = sq_status q) → keeps kept E (upd_seq (B := B) r i f).
Proof.
  move=> Hf. apply on_group_kept; [done|]. apply keeps_modify. move=> g. split; [done|]. rw /group_fin /=.
  destruct (sg_seqs g) as [|q l], i as [|i]; cbn; try done. by rw /seq_is_finished Hf.
Qed.
Lemma metrics_kept (m : M SequenceGroup unit) :
  (∀ g, ∃ g', m g = Ok (tt, g') ∧ sg_seqs g' = sg_seqs g ∧ sg_request_id g' = sg_request_id g) → keeps gkept E m.
Proof. move=> H g. destruct (H g) as [g' [H1 [H2 H3]]]. rw /wp H1. split; [done|]. by rw /group_fin H2. Qed.
Lemma post_init_no_fault m e : group_metadata_post_init m = Raise e → scheduler_fault e = false.
Proof. rw /group_metadata_post_init. repeat case_match; try done; by intros [= <-]. Qed.
Lemma sample_choice_no_fault g b n e : sample_choice g b n = Raise e → scheduler_fault e = false.
Proof. rw /sample_choice. repeat case_match; try done; by intros [= <-]. Qed.
#[local] Hint Resolve post_init_no_fault sample_choice_no_fault : keeps.
Lemma running_tables_kept r now : keeps kept E (running_tables (B := B) r now).
Proof. rw /running_tables. keeps_auto. Qed.
Lemma running_data_kept r : keeps kept E (running_data (B := B) r).
Proof. rw /running_data. keeps_auto. Qed.
Lemma running_deltas_kept r : keeps kept E (running_deltas (B := B) r).
Proof. rw /running_deltas. keeps_auto; [done|]. by apply status_kept. Qed.
#[local] Hint Resolve running_tables_kept running_data_kept running_deltas_kept : keeps.
Lemma group_message_kept now x : keeps kept E (group_message (B := B) conf now x).
Proof.
  rw /group_message. keeps_auto. apply on_group_kept; [done|]. apply metrics_kept => g.
  rw /maybe_set_first_scheduled_time /mget /mbind /M_bind /mwhen. case_bool_decide; by eexists.
Qed.
Lemma mark_kept g n : keeps kept E (on_manager (bsm_mark_blocks_as_computed g n)).
Proof. keeps_auto. Qed.
Lemma add_time_kept r t : keeps kept E (on_group (B := B) r (mmodify (add_scheduler_time t))).
Proof. apply on_group_kept; [done|]. apply metrics_kept => g. by eexists. Qed.
#[local] Hint Resolve group_message_kept add_time_kept : keeps.

Lemma accounts_kept s s1 s2 o : accounts s s1 o → kept s1 s2 → accounts s s2 o.
Proof.
  move=> [d [D1 [D2 [D3 [D4 D5]]]]] H. have Hev := kept_evolves _ _ H. destruct H as [K1 K2 K3 K4 _ _].
  exists d. rw K1 K2 K3 K4. split_and!; [done|by etrans|by eapply fin_evolves|done|done].
Qed.
(** The messages and the times change no queue: what a pass does to the queues is
    what [schedule] does. *)
Lemma v0_schedule_wp s (P : V0SchedulerOutputs → V0Scheduler B → Prop) :
  (∀ s1, still s s1 → wp (schedule_pass conf callback) s1 P E) →
  wp (v0_schedule conf callback) s (λ '(_, o, _) s', ∃ s2, P o s2 ∧ kept s2 s') E.
Proof.
  move=> HP. rw /v0_schedule. wp_step. eapply wp_mono; [by eapply time_still| |done]. move=> t1 s1 H1.
  wp_step. eapply wp_mono; [by apply HP| |done]. move=> o s2 Ha.
  eapply (wp_mono _ _ (λ '(_, o', _) s3, o' = o ∧ kept s2 s3) _ E); [| |done]; last first.
  { move=> [[msgs o'] a] s3 [-> H3]. by exists s2. }
  wp_step. eapply wp_mono; [by eapply time_kept| |done]. move=> t2 s3 H3.
  wp_step. eapply wp_mono; [eapply (keeps_fold kept E)| |done].
  { move=> [msgs a] x. keeps_auto. }
  move=> [msgs a] s4 H4. wp_step. eapply wp_mono; [apply (keeps_for kept E); move=> x; keeps_auto| |done]. move=> u5 s5 H5.
  wp_step. eapply wp_mono; [by eapply time_kept| |done]. move=> t6 s6 H6.
  wp_step. wp_step. wp_step. eapply wp_mono; [apply (keeps_for kept E); move=> x; keeps_auto| |done]. move=> u7 s7 H7.
  wp_step. wp_step. wp_step. split; [done|]. etrans; [|by split]. chain.
Qed.
Lemma v0_schedule_spec s :
  wp (v0_schedule conf callback) s (λ '(_, o, _) s', accounts s s' o) E.
Proof.
  eapply wp_mono; [apply (v0_schedule_wp s (λ o s2, accounts s s2 o))| |done].
  - move=> s1 H1. eapply wp_mono; [apply schedule_pass_spec| |done]. move=> o s2 [d [D1 [D2 [D3 [D4 D5]]]]].
    have H2 := still_kept _ _ H1. have Hev := kept_evolves _ _ H2. destruct H2 as [K1 K2 K3 K4 _ _].
    exists d. rw -K1 -K2 -K3 -K4. split_and!; [done|by etrans|done|done|done].
  - move=> [[msgs o] a] s' [s2 [Ha Hk]]. by eapply accounts_kept.
Qed.
End theorems.

(** * Properties

    What [schedule] of the V0 scheduler guarantees, whatever the policy, the block
    manager, the clock and the pending outputs. The callback of the asynchronous
    output processing is code of the engine: it is asked to leave the queues
    alone and to finish no group backwards. *)

(** All exceptions but the checks on the schedule: the faults of the scheduler
    other than those of the budget. *)
Definition checks : list string := [
  "not (self.blocks_to_swap_in and self.blocks_to_swap_out)"; "0 <= num_prefill_groups <= len"; "curr_loras is not None"]%string.
Definition not_check (e : exn) : Prop := ∀ m, e = AssertionError m → m ∉ checks.
Definition sane (e : exn) : Prop := e ≠ OutOfFuel ∧ not_check e.
#[export] Instance sane_faultless : Faultless sane.
Proof.
  move=> e. rw /no_fault /sane /not_check. destruct e; try done. rw /= bool_decide_eq_false => H. split; [done|].
  move=> m [= <-] Hm. apply H. move: Hm. rw /checks !elem_of_cons. tauto.
Qed.
Lemma quiet_sane {S A} (m : M S A) : quiet no_fault m → quiet sane m.
Proof. move=> H s. eapply wp_mono; [apply H|done|]. by move=> e /(sane_faultless e). Qed.
Lemma manager_quiet_sane {B} `{BSM : BlockSpaceManager B} : manager_quiet no_fault → manager_quiet sane.
Proof. move=> [] *. split=> *; apply quiet_sane; eauto. Qed.

Section properties.
Context {B : Type} `{BSM : BlockSpaceManager B}.
Context (conf : V0Config) (callback : option (string → M (V0Scheduler B) unit)).
Implicit Types s : V0Scheduler B.

(** C37: Whatever the policy and whatever is preempted, swapped, started or refused,
    a pass loses no group and duplicates none: the queues after it hold each
    group as often as the queues before, up to the groups reported as ignored
    and those that the pending outputs turned out to have finished; these are
    finished. Without a callback nothing else leaves the queues. A scheduled
    group is running, and is scheduled only once if it is in the queues once. *)
Theorem v0_schedule_conserves s msgs o a s' :
  (∀ f id, callback = Some f → keeps kept any_exn (f id)) →
  v0_schedule conf callback s = Ok ((msgs, o, a), s') →
  ∃ dropped,
    vs_waiting s' ++ vs_running s' ++ vs_swapped s' ++ vs_async_stopped s' ++ so_ignored_seq_groups o ++ dropped ≡ₚ
      vs_waiting s ++ vs_running s ++ vs_swapped s ++ vs_async_stopped s ∧
    (∀ r, r ∈ so_ignored_seq_groups o ++ dropped → fin_at s' r) ∧
    (callback = None → dropped = [] ∧ vs_async_stopped s' = vs_async_stopped s) ∧
    groups_of (so_scheduled_seq_groups o) ⊆+ vs_running s'.
Proof.
  move=> HC Heq. have H : wp (v0_schedule conf callback) s (λ '(_, o, _) s', accounts callback s s' o) any_exn.
  { by apply (v0_schedule_spec any_exn manager_quiet_any I I). }
  have := wp_ok _ _ _ _ _ _ H Heq. clear H Heq. move=> [d [D1 [D2 [D3 [D4 D5]]]]]. exists d.
  rw Forall_forall in D3. done.
Qed.
Lemma v0_schedule_sane s e :
  manager_quiet no_fault → (∀ f id, callback = Some f → keeps kept no_fault (f id)) →
  v0_schedule conf callback s = Raise e → sane e.
Proof.
  move=> HB HC Heq. have H : wp (v0_schedule conf callback) s (λ '(_, o, _) s', accounts callback s s' o) sane; last by rw /wp Heq in H.
  apply (v0_schedule_spec sane (manager_quiet_sane HB)).
  - split; [done|]. by move=> m [= <-]; rw /checks !elem_of_cons elem_of_nil; naive_solver.
  - split; [done|]. by move=> m [= <-]; rw /checks !elem_of_cons elem_of_nil; naive_solver.
  - move=> f id Hf t. eapply wp_mono; [by apply HC|done|]. by move=> e' /(sane_faultless e').
Qed.
(** C38: The loops of a pass stop, if the block manager and the callback come back
    from each call: the fuel of the model, the lengths of the queues, is never
    used up, so [schedule] returns a schedule or raises an error of Python. *)
Theorem v0_schedule_terminates s :
  manager_quiet no_fault → (∀ f id, callback = Some f → keeps kept no_fault (f id)) →
  v0_schedule conf callback s ≠ Raise OutOfFuel.
Proof. move=> HB HC H. by apply v0_schedule_sane in H as [H _]. Qed.
(** Three of the checks of a pass never fail: a schedule does not swap blocks in
    and out at once, its number of prefills is between 0 and the number of
    groups, and the set of LoRA ids exists whenever it is read. *)
Theorem v0_schedule_checks_pass s m :
  manager_quiet no_fault → (∀ f id, callback = Some f → keeps kept no_fault (f id)) →
  m ∈ checks → v0_schedule conf callback s ≠ Raise (AssertionError m).
Proof. move=> HB HC Hm H. apply v0_schedule_sane in H as [_ H]; [by eapply H|done|done]. Qed.

(** Without LoRA, waiting groups are taken strictly in the order of the queue:
    the groups that start and those that are refused for good form the front of
    the queue, in both lists in that order, and what is behind them stays. *)
Theorem prefills_in_queue_order ec (p : Pass B) ret p' :
  vc_lora conf = None → schedule_prefills conf ec p = Ok (ret, p') →
  ∃ front : list (nat * bool),
    vs_waiting (ps_sched p) = front.*1 ++ vs_waiting (ps_sched p') ∧
    groups_of (po_seq_groups ret) = (filter (λ m, m.2 = true) front).*1 ∧
    po_ignored_seq_groups ret = (filter (λ m, m.2 = false) front).*1.
Proof.
  move=> Hl Heq. have H := schedule_prefills_spec (BSM := BSM) any_exn manager_quiet_any conf ec p.
  have Hr : loras_ready conf p. { rw /loras_ready Hl. by case. }
  have [moves [rest [_ [A2 [A3 [A4 [A5 [_ A7]]]]]]]] := wp_ok _ _ _ _ _ _ (H _ Hr) Heq.
  have {}A7 := A7 Hl. rw A7 /= in A3. subst rest. clear H Heq.
  exists ((λ m, (m.1, bool_decide (m.2 = Started))) <$> moves). rw A2 A4 A5. clear A2 A4 A5.
  elim: moves A7 => [|[r f] moves IH]; first done. rw !with_fate_cons. destruct f; cbn => Ha; [| |done]; destruct (IH Ha) as [H1 [H2 H3]];
    repeat (destruct (decide _); try done); cbn; split_and!; first [congruence|exact H2|exact H3|f_equal; first [exact H2|exact H3]].
Qed.
End properties.
