(* ===== verification/V0Quiet.v ===== *)
(** The block managers raise none of the faults of the scheduler: none of their
    loops runs out of fuel, and none of their assertions is one of the
    scheduler's. Shown for the placeholder and for the manager with the naive
    allocator; the fork, which [schedule] does not call, is left out. *)
From Stdlib Require Import ssreflect ZArith Lia.
From stdpp Require Import base numbers list gmap strings.
From S2P Require Import Prelude Detokenizer SequenceData Sequences NaiveBlocks BlockTable CpuGpu PrefixCaching BlockManager V0Types V0Frame.

(** A pure result raises no fault. *)
Definition sound_result {A} (r : result A) : Prop := ∀ e, r = Raise e → no_fault e.
Lemma quiet_lift {S A} (r : result A) : sound_result r → quiet (S := S) no_fault (mlift r).
Proof. move=> H. by apply keeps_lift. Qed.
Lemma quiet_zoom {S T A} (get : S → T) set (m : M T A) : quiet no_fault m → quiet no_fault (zoom get set m).
Proof. move=> H. by apply keeps_zoom. Qed.
Lemma quiet_bind {S A C} (m : M S A) (f : A → M S C) : quiet no_fault m → (∀ a, quiet no_fault (f a)) → quiet no_fault (m ≫= f).
Proof. by apply keeps_bind. Qed.
Lemma sound_bind {A C} (r : result A) (f : A → result C) : sound_result r → (∀ a, sound_result (f a)) → sound_result (r ≫= f).
Proof. move=> H1 H2 e. destruct r as [a|e']; cbn; [apply H2|]. move=> [= <-]. by apply H1. Qed.
Create HintDb quietdb discriminated.
#[export] Hint Resolve quiet_lift quiet_zoom : quietdb.
Ltac sound := let e := fresh in intros e; repeat case_match; try done; intros [= <-]; done.
Ltac quiet_step :=
  lazymatch goal with
  | |- quiet _ (mbind _ _) => apply quiet_bind; [|intros ?]
  | |- quiet _ (if ?b then _ else _) => destruct b
  | |- quiet _ (match ?o with _ => _ end) => destruct o
  | |- quiet _ ((match ?o with _ => _ end) _) => destruct o
  | |- quiet _ (mret _) => by apply keeps_ret
  | |- quiet _ mget => by apply keeps_get
  | |- quiet _ (mgets _) => by apply keeps_gets
  | |- quiet _ (mput _) => by apply keeps_put
  | |- quiet _ (mmodify _) => by apply keeps_modify
  | |- quiet _ (massert _ _) => by apply keeps_assert
  | |- quiet _ (mraise _) => by apply keeps_raise
  | |- quiet _ (mwhen _ _) => apply keeps_when; [apply _|]; change (quiet no_fault) with (quiet (A := unit) no_fault)
  | |- quiet _ (mfor [] _) => by apply (keeps_ret _ _ tt)
  | |- quiet _ (mfor _ _) => apply keeps_for; [apply _|intros ?]
  | |- quiet _ (mfold _ _ _) => apply quiet_fold; intros ? ?
  | |- quiet _ (zoom _ _ _) => apply quiet_zoom
  | |- keeps (λ _ _, True) _ ?m => change (quiet no_fault m)
  end; cbn beta.
Ltac quiet_auto := repeat quiet_step; eauto 10 with quietdb.

(** * The naive allocator *)
Lemma ref_get_quiet id : quiet no_fault (ref_get id).
Proof. rw /ref_get. quiet_auto. Qed.
Lemma ref_set_quiet id n : quiet no_fault (ref_set id n).
Proof. rw /ref_set. quiet_auto. Qed.
Lemma the_block_quiet o : quiet no_fault (the_block o).
Proof. rw /the_block. quiet_auto. Qed.
Lemma upd_block_quiet o f : quiet no_fault (upd_block o f).
Proof. rw /upd_block /on_pool. quiet_auto. Qed.
#[local] Hint Resolve ref_get_quiet ref_set_quiet the_block_quiet upd_block_quiet : quietdb.
Lemma ref_incr_quiet id : quiet no_fault (ref_incr id).
Proof. rw /ref_incr. quiet_auto. Qed.
Lemma ref_decr_quiet id : quiet no_fault (ref_decr id).
Proof. rw /ref_decr. quiet_auto. Qed.
Lemma append_no_cow_sound toks b : sound_result (append_token_ids_no_cow toks b).
Proof. rw /append_token_ids_no_cow. sound. Qed.
#[local] Hint Resolve ref_incr_quiet ref_decr_quiet append_no_cow_sound : quietdb.
Lemma init_block_quiet prev toks bs id : quiet no_fault (init_block prev toks bs id).
Proof. rw /init_block /increase_pool /naive_block_init. quiet_auto. Qed.
Lemma pool_free_block_quiet o : quiet no_fault (pool_free_block o).
Proof. rw /pool_free_block /on_pool. quiet_auto. Qed.
Lemma allocate_block_id_quiet : quiet no_fault allocate_block_id.
Proof. rw /allocate_block_id. quiet_auto. Qed.
Lemma free_block_id_quiet o : quiet no_fault (free_block_id o).
Proof. rw /free_block_id. quiet_auto. Qed.
#[local] Hint Resolve init_block_quiet pool_free_block_quiet allocate_block_id_quiet free_block_id_quiet : quietdb.
Lemma naive_free_quiet o k : quiet no_fault (naive_free o k).
Proof. rw /naive_free. quiet_auto. Qed.
Lemma append_token_ids_quiet o toks : quiet no_fault (append_token_ids o toks).
Proof. rw /append_token_ids /cow_block_if_not_appendable /is_appendable /record_cow. quiet_auto. Qed.
Lemma allocate_mutable_block_quiet prev : quiet no_fault (allocate_mutable_block prev).
Proof. rw /allocate_mutable_block /on_pool. quiet_auto. Qed.
#[local] Hint Resolve append_token_ids_quiet allocate_mutable_block_quiet : quietdb.
Lemma allocate_immutable_block_quiet prev toks : quiet no_fault (allocate_immutable_block prev toks).
Proof. rw /allocate_immutable_block. quiet_auto. Qed.
Lemma allocate_immutable_blocks_quiet prev l : quiet no_fault (allocate_immutable_blocks prev l).
Proof. rw /allocate_immutable_blocks /on_pool. quiet_auto. Qed.
#[local] Hint Resolve allocate_immutable_block_quiet : quietdb.
Lemma swap_in_block_quiet o : quiet no_fault (swap_in_block o).
Proof. rw /swap_in_block. quiet_auto. Qed.
Lemma get_num_full_blocks_touched_quiet l : quiet no_fault (get_num_full_blocks_touched l).
Proof. rw /get_num_full_blocks_touched. quiet_auto. Qed.
Lemma free_block_id_away_quiet o : quiet no_fault (free_block_id_away o).
Proof. rw /free_block_id_away /own /owner_of. quiet_auto. Qed.
Lemma naive_free_away_quiet o : quiet no_fault (naive_free_away o).
Proof. rw /naive_free_away /pool_free_block_away /own /owner_of /on_pool. quiet_auto. apply free_block_id_away_quiet. Qed.
Lemma swap_in_block_away_quiet o : quiet no_fault (swap_in_block_away o).
Proof. rw /swap_in_block_away /own /owner_of. quiet_auto. Qed.

(** * What the manager calls *)
Record allocator_quiet {A : Type} `{BA : BlockAllocator A} : Prop := {
  aq_block o : quiet no_fault (ba_block o);
  aq_append o l : quiet no_fault (ba_append_token_ids o l);
  aq_mutable o h : quiet no_fault (ba_allocate_mutable_block o h);
  aq_immutable o l h : quiet no_fault (ba_allocate_immutable_blocks o l h);
  aq_free o : quiet no_fault (ba_free o);
  aq_free_away o : quiet no_fault (ba_free_away o);
  aq_swap_out o : quiet no_fault (ba_swap_out_block o);
  aq_swap_out_away o : quiet no_fault (ba_swap_out_block_away o);
  aq_swap_in o : quiet no_fault (ba_swap_in_block o);
  aq_swap_in_away o : quiet no_fault (ba_swap_in_block_away o);
  aq_full l : quiet no_fault (ba_get_num_full_blocks_touched l);
  aq_full_away l : quiet no_fault (ba_get_num_full_blocks_touched_away l);
  aq_physical id a : sound_result (ba_get_physical_block_id id a);
  aq_clear : quiet no_fault ba_clear_copy_on_writes;
  aq_accessed l n : quiet no_fault (ba_mark_blocks_as_accessed l n);
  aq_computed l : quiet no_fault (ba_mark_blocks_as_computed l);
  aq_prefix l : quiet no_fault (ba_find_cached_blocks_prefix l);
}.
Lemma naive_allocator_quiet : allocator_quiet (BA := naive_block_allocator).
Proof.
  split; cbn; intros; try apply quiet_zoom;
    auto using the_block_quiet, append_token_ids_quiet, allocate_mutable_block_quiet, allocate_immutable_blocks_quiet, naive_free_quiet,
      naive_free_away_quiet, free_block_id_quiet, free_block_id_away_quiet, swap_in_block_quiet, swap_in_block_away_quiet,
      get_num_full_blocks_touched_quiet.
  - rw /get_physical_block_id. sound.
  - rw /clear_copy_on_writes. quiet_auto.
  - quiet_auto.
  - quiet_auto.
  - quiet_auto.
Qed.

Section cpu_gpu.
Context {A : Type} `{BA : BlockAllocator A} (HA : allocator_quiet).
Abbreviation CG := (CpuGpuBlockAllocator A).
#[local] Hint Resolve aq_block aq_append aq_mutable aq_immutable aq_free aq_free_away aq_swap_out aq_swap_out_away aq_swap_in
  aq_swap_in_away aq_full aq_full_away aq_clear aq_accessed aq_computed aq_prefix : quietdb.
Lemma on_device_quiet {C} d (m : M A C) : quiet no_fault m → quiet no_fault (on_device d m).
Proof. move=> H. destruct d; by apply quiet_zoom. Qed.
Lemma on_object_quiet {C} d (home : M A C) away : quiet no_fault home → quiet no_fault away → quiet no_fault (on_object d home away).
Proof. move=> H1 H2. destruct d; by apply quiet_zoom. Qed.
#[local] Hint Resolve on_device_quiet on_object_quiet : quietdb.
Lemma cg_block_quiet b : quiet no_fault (cg_block b).
Proof. rw /cg_block. quiet_auto. Qed.
Lemma device_of_sound id (s : CG) : sound_result (device_of id s).
Proof. rw /device_of. sound. Qed.
#[local] Hint Resolve cg_block_quiet device_of_sound : quietdb.
Lemma cg_mutable_quiet p d h : quiet no_fault (cg_allocate_mutable_block p d h).
Proof. rw /cg_allocate_mutable_block. quiet_auto. Qed.
Lemma cg_immutable_quiet p l d h : quiet no_fault (cg_allocate_immutable_blocks p l d h).
Proof. rw /cg_allocate_immutable_blocks. quiet_auto. Qed.
#[local] Hint Resolve cg_mutable_quiet : quietdb.
Lemma cg_append_quiet b l : quiet no_fault (cg_block_append_token_ids b l).
Proof. rw /cg_block_append_token_ids. quiet_auto. Qed.
Lemma cg_null_quiet : quiet no_fault (cg_allocate_or_get_null_block (A := A)).
Proof. rw /cg_allocate_or_get_null_block. quiet_auto. Qed.
Lemma cg_free_quiet b : quiet no_fault (cg_free b).
Proof. rw /cg_free. quiet_auto. Qed.
Lemma cg_block_ids_quiet l : quiet no_fault (cg_block_ids l).
Proof. rw /cg_block_ids. quiet_auto. Qed.
#[local] Hint Resolve cg_block_ids_quiet : quietdb.
Lemma cg_swap_quiet l d d' : quiet no_fault (cg_swap l d d').
Proof. rw /cg_swap /swap_out_ref /swap_in_ref. quiet_auto. Qed.
Lemma cg_full_quiet l d : quiet no_fault (cg_get_num_full_blocks_touched l d).
Proof. rw /cg_get_num_full_blocks_touched. quiet_auto. Qed.
Lemma block_id_quiet b : quiet no_fault (block_id (S := CG) b).
Proof. cbn. quiet_auto. Qed.
Lemma token_ids_quiet b : quiet no_fault (token_ids (S := CG) b).
Proof. cbn. quiet_auto. Qed.
#[local] Hint Resolve cg_immutable_quiet cg_append_quiet cg_null_quiet cg_free_quiet cg_swap_quiet cg_full_quiet block_id_quiet
  token_ids_quiet : quietdb.

(** * Block tables *)
Lemma some_block_id_sound o : sound_result (some_block_id o).
Proof. rw /some_block_id. sound. Qed.
Lemma block_at_sound i l : sound_result (block_at i l).
Proof. rw /block_at. sound. Qed.
Lemma update_block_id_sound i o l : sound_result (update_block_id i o l).
Proof. rw /update_block_id. apply sound_bind; [apply some_block_id_sound|]. move=> id. sound. Qed.
Lemma empty_slots_sound t : sound_result (tb_num_empty_slots t).
Proof. rw /tb_num_empty_slots. sound. Qed.
#[local] Hint Resolve some_block_id_sound block_at_sound update_block_id_sound empty_slots_sound : quietdb.
Lemma block_list_update_quiet l : quiet no_fault (block_list_update (S := CG) l).
Proof. rw /block_list_update. quiet_auto. Qed.
Lemma get_num_token_ids_quiet l : quiet no_fault (get_num_token_ids (S := CG) l).
Proof. rw /get_num_token_ids. quiet_auto. Qed.
#[local] Hint Resolve block_list_update_quiet get_num_token_ids_quiet : quietdb.
Lemma block_table_init_quiet n l w : quiet no_fault (block_table_init (S := CG) n l w).
Proof. rw /block_table_init. quiet_auto. Qed.
Lemma table_update_quiet l : quiet no_fault (table_update (S := CG) l).
Proof. rw /table_update /on_allocator /on_table. quiet_auto. Qed.
#[local] Hint Resolve table_update_quiet : quietdb.
Lemma table_allocate_quiet l d h : quiet no_fault (table_allocate (S := CG) l d h).
Proof. rw /table_allocate /allocate_blocks_for_token_ids /the_table /on_allocator /on_table. cbn. quiet_auto. Qed.
Lemma table_free_quiet : quiet no_fault (table_free (S := CG)).
Proof. rw /table_free /the_table /on_allocator /on_table. cbn. quiet_auto. Qed.
Lemma on_blocks_quiet f : (∀ l, quiet no_fault (f l)) → quiet no_fault (on_blocks (S := CG) f).
Proof. move=> H. rw /on_blocks /the_table /on_allocator /on_table. quiet_auto. Qed.
Lemma block_list_append_quiet b l : quiet no_fault (block_list_append (S := CG) b l).
Proof. rw /block_list_append. quiet_auto. Qed.
Lemma block_list_set_quiet i b l : quiet no_fault (block_list_set (S := CG) i b l).
Proof. rw /block_list_set. quiet_auto. Qed.
Lemma block_list_append_ids_quiet i toks l : quiet no_fault (block_list_append_token_ids (S := CG) i toks l).
Proof. rw /block_list_append_token_ids. quiet_auto. Qed.
#[local] Hint Resolve on_blocks_quiet block_list_append_quiet block_list_set_quiet block_list_append_ids_quiet : quietdb.
Lemma ensure_quiet n h : quiet no_fault (ensure_num_empty_slots (S := CG) n h).
Proof. rw /ensure_num_empty_slots /the_table /on_allocator. cbn [da_allocate_mutable_block cpu_gpu_allocator]. quiet_auto. Qed.
Lemma drop_window_quiet n : quiet no_fault (drop_window (S := CG) n).
Proof. rw /drop_window /the_table /on_allocator. cbn [allocate_or_get_null_block da_free cpu_gpu_allocator]. quiet_auto. Qed.
#[local] Hint Resolve ensure_quiet drop_window_quiet : quietdb.
Lemma table_append_quiet l n k h : quiet no_fault (table_append_token_ids (S := CG) l n k h).
Proof. rw /table_append_token_ids /the_table /on_table. quiet_auto. Qed.

(** * The manager *)
Context (py_hash : bool * option Z * list Z * option Z → Z) (pair_hash : Z * Z → Z).
Abbreviation BMG := (SelfAttnBlockSpaceManager CG).
Lemma dict_at_sound {K V} `{EqDecision K} (d : dict K V) k : sound_result (dict_at d k).
Proof. rw /dict_at. sound. Qed.
Lemma seqs_of_sound st g : sound_result (seqs_of st g).
Proof.
  have H : wp (get_seqs (Some st)) g (λ _ g', g = g') no_fault. { apply (get_seqs_pure no_fault (Some st)). }
  move=> e. rw /seqs_of. move: H. rw /wp.
  destruct (get_seqs (Some st) g) as [[l g']|e']; first done. by move=> H [= <-].
Qed.
Lemma first_of_sound {C} (l : list C) : sound_result (first_of l).
Proof. rw /first_of. sound. Qed.
Lemma check_swa_sound g (b : BMG) : sound_result (check_no_caching_or_swa g b).
Proof. rw /check_no_caching_or_swa. sound. Qed.
#[local] Hint Resolve dict_at_sound seqs_of_sound first_of_sound check_swa_sound table_free_quiet table_append_quiet table_update_quiet
  block_table_init_quiet table_allocate_quiet : quietdb.
Lemma quiet_lifted {S C D} (c : C) (f : C → M S D) : quiet no_fault (f c) → quiet no_fault (mlift (Ok c) ≫= f).
Proof. done. Qed.
Lemma waiting_single g q : sg_seqs g = [q] → ∃ l, seqs_of SEQ_WAITING g = Ok l ∧ tail l = [].
Proof.
  move=> H. rw /seqs_of /get_seqs /first_seq /mget /mbind /M_bind /= H /=. destruct (bool_decide _); by eexists.
Qed.
Lemma on_a_table_quiet {C} t (m : M (CG * BlockTable) C) : quiet no_fault m → quiet no_fault (on_a_table t m).
Proof.
  move=> H. apply quiet_zoom. move=> s. move: (H (s, t)). rw /wp. by destruct (m (s, t)) as [[b [s' t']]|e].
Qed.
#[local] Hint Resolve on_a_table_quiet : quietdb.
Lemma on_seq_table_quiet {C} id (m : M (CG * BlockTable) C) : quiet no_fault m → quiet no_fault (on_seq_table id m).
Proof. move=> H. rw /on_seq_table. quiet_auto. Qed.
Lemma allocate_sequence_quiet q : quiet no_fault (allocate_sequence (S := CG) pair_hash q).
Proof. rw /allocate_sequence /on_alloc. quiet_auto. Qed.
Lemma touched_quiet q n : quiet no_fault (touched_by_append (S := CG) q n).
Proof. rw /touched_by_append. quiet_auto. Qed.
#[local] Hint Resolve on_seq_table_quiet allocate_sequence_quiet touched_quiet : quietdb.
Lemma can_swap_quiet g d st n : quiet no_fault (can_swap (S := CG) g d st n).
Proof. rw /can_swap /on_alloc. cbn [da_get_num_full_blocks_touched cpu_gpu_allocator]. quiet_auto. Qed.
Lemma physical_sound d id (s : CG) : sound_result (da_get_physical_block_id d id s).
Proof. by apply aq_physical. Qed.
#[local] Hint Resolve can_swap_quiet physical_sound : quietdb.
Lemma swap_seq_quiet d d' q : quiet no_fault (swap_seq (S := CG) d d' q).
Proof. rw /swap_seq /on_alloc. cbn [da_swap cpu_gpu_allocator]. quiet_auto. Qed.
#[local] Hint Resolve swap_seq_quiet : quietdb.
Lemma bm_swap_quiet d d' st g : quiet no_fault (bm_swap (S := CG) d d' st g).
Proof. rw /bm_swap. quiet_auto. Qed.
Lemma seq_hashes_sound n i bs toks h prev rec : sound_result (seq_hashes_loop py_hash n i bs toks h prev rec).
Proof.
  elim: n i prev rec => [|n IH] i prev rec /=; first by sound. case_bool_decide; last by sound.
  apply sound_bind; [|by intros; apply IH]. rw /hash_block_tokens. sound.
Qed.
#[local] Hint Resolve seq_hashes_sound : quietdb.
Lemma cached_tokens_quiet q : quiet no_fault (get_num_cached_tokens (S := CG) py_hash pair_hash q).
Proof.
  rw /get_num_cached_tokens /on_computed /on_alloc /update_seq_hashes. cbn [da_find_cached_blocks_prefix cpu_gpu_allocator]. quiet_auto.
Qed.
Lemma get_block_table_quiet q : quiet no_fault (get_block_table (S := CG) q).
Proof. rw /get_block_table. quiet_auto. Qed.
#[local] Hint Resolve cached_tokens_quiet get_block_table_quiet : quietdb.
Lemma self_attn_quiet : manager_quiet (BSM := self_attn_manager py_hash pair_hash (S := CG)) no_fault.
Proof.
  split; cbn; intros.
  - rw /bm_can_allocate. quiet_auto.
  - match goal with H : sg_seqs _ = [_] |- _ => destruct (waiting_single _ _ H) as [l [Hl Ht]] end.
    rw /bm_allocate Hl. apply quiet_lifted. rw Ht /on_last_access /last_access_add_seq. quiet_auto.
  - rw /bm_can_append_slots. quiet_auto.
  - rw /bm_append_slots /on_alloc /the_table. cbn. quiet_auto. apply on_seq_table_quiet. quiet_auto.
  - rw /can_swap_in. quiet_auto.
  - rw /bm_swap_in. quiet_auto. apply bm_swap_quiet.
  - rw /can_swap_out. quiet_auto.
  - rw /bm_swap_out. quiet_auto. apply bm_swap_quiet.
  - rw /bm_free /update_seq_blocks_last_access /on_alloc /on_last_access /on_computed /last_access_remove_seq /computed_remove_seq.
    cbn. quiet_auto.
  - rw /bm_free_cross. quiet_auto.
  - quiet_auto.
  - rw /get_cross_block_table. quiet_auto.
  - rw /access_all_blocks_in_seq /on_last_access /update_last_access. quiet_auto.
  - rw /bm_get_common_computed_block_ids. quiet_auto.
  - rw /bm_mark_blocks_as_computed /on_alloc. cbn. quiet_auto.
  - quiet_auto.
Qed.
End cpu_gpu.
