(* ===== verification/V0Order.v ===== *)
(** The order of the queues of the V0 scheduler. Under the default policy: first
    come, first served. Preempted groups go back to the front of the waiting
    queue in their order, started groups leave it from the front, so that the
    running queue followed by the waiting queue keeps its order. *)
From Stdlib Require Import ssreflect ZArith Lia.
From stdpp Require Import base numbers list gmap strings sorting.
From S2P Require Import Prelude SamplingParams SequenceData Sequences BlockTable BlockManager SchedConfig V0Types V0Sched V0Phases V0Schedule V0Frame V0Running V0Admission.
From S2P Require Import V0SchedTheorems.

Section order.
Context {B : Type} `{BSM : BlockSpaceManager B}.
Context (conf : V0Config).
Implicit Types (s : V0Scheduler B) (p : Pass B).
Abbreviation waiting p := (vs_waiting (ps_sched p)).
Abbreviation running p := (vs_running (ps_sched p)).
Abbreviation swapped p := (vs_swapped (ps_sched p)).
Abbreviation E := any_exn.
Abbreviation Q := (manager_quiet_any (BSM := BSM)).

(** * Blocks that leave the sequences alone *)
Record same_seqs s s' : Prop := {
  sm_waiting : vs_waiting s' = vs_waiting s;
  sm_running : vs_running s' = vs_running s;
  sm_swapped : vs_swapped s' = vs_swapped s;
  sm_seqs : sg_seqs <$> vs_groups s' = sg_seqs <$> vs_groups s;
}.
#[local] Instance same_seqs_preorder : PreOrder same_seqs.
Proof. split; first by move=> s; split. move=> s1 s2 s3 [????] [????]. split; by etrans. Qed.
Definition psame p p' : Prop := same_seqs (ps_sched p) (ps_sched p').
#[local] Instance psame_preorder : PreOrder psame.
Proof. split; [by move=> p; rw /psame|]. move=> p1 p2 p3. rw /psame. by etrans. Qed.
Lemma still_same s s' : still s s' → same_seqs s s'.
Proof. by move=> [???? H]; split; rw ?H. Qed.
Lemma pure_same {A} (m : M (V0Scheduler B) A) : keeps eq E m → keeps same_seqs E m.
Proof. apply keeps_eq, _. Qed.
Lemma on_sch_same {A} (m : M (V0Scheduler B) A) : keeps same_seqs E m → keeps psame E (on_sch m).
Proof. move=> H p. rw /on_sch. wp_step. by eapply wp_mono; [apply H| |done]. Qed.
Lemma on_budget_same {A} (m : M SchedulingBudget A) : keeps psame E (on_budget m).
Proof. move=> p. rw /on_budget. wp_step. eapply wp_mono; [apply quiet_any| |done]. by move=> a b _; rw /psame. Qed.
Lemma on_manager_same {A} (m : M B A) : keeps same_seqs E (on_manager m).
Proof. apply keeps_zoom; [apply quiet_any|by split]. Qed.
Lemma on_group_same {A} r (m : M SequenceGroup A) : keeps (λ g g', sg_seqs g' = sg_seqs g) E m → keeps same_seqs E (on_group r m).
Proof.
  move=> H s. apply on_group_spec; [done|]. move=> g Hg. eapply wp_mono; [apply H| |done]. move=> a g' Hid. split=> //=.
  rw list_fmap_insert list_insert_id; [by rw list_lookup_fmap Hg /= Hid|done].
Qed.
#[local] Hint Resolve pure_same on_manager_same on_group_same on_sch_same on_budget_same quiet_any any_exn_faultless manager_quiet_any : keeps.
#[local] Hint Extern 2 (same_seqs _ _) => by split : keeps.
Lemma can_append_same r ec : keeps same_seqs E (can_append_slots (B := B) conf r ec).
Proof. rw /can_append_slots /draw. keeps_auto. Qed.
Lemma init_multi_step_same a b c d : keeps (λ g g', sg_seqs g' = sg_seqs g) E (init_multi_step_from_lookahead_slots a b c d).
Proof.
  have HP : PreOrder (λ g g', sg_seqs g' = sg_seqs g) by split; [done|by move=> ??? H1 H2; rw H2].
  have Hp : keeps (λ g g', sg_seqs g' = sg_seqs g) E group_is_prefill by apply keeps_eq, group_is_prefill_pure, _; apply _.
  rw /init_multi_step_from_lookahead_slots /init_multi_step. by keeps_auto.
Qed.
#[local] Hint Resolve can_append_same init_multi_step_same : keeps.
Lemma append_slots_same r ec : keeps same_seqs E (append_group_slots (B := B) conf r ec).
Proof. rw /append_group_slots. keeps_auto. Qed.
#[local] Hint Resolve append_slots_same : keeps.

(** A group in the decode phase. *)
Definition decoding_at s r : Prop :=
  ∃ g q, vs_groups s !! r = Some g ∧ sg_seqs g = [q] ∧ sq_status q = SEQ_RUNNING ∧ seq_is_prefill q = false.
Lemma same_decoding s s' r : same_seqs s s' → decoding_at s r → decoding_at s' r.
Proof.
  move=> [_ _ _ H] [g [q [Hg [Hq Hs]]]]. have : (sg_seqs <$> vs_groups s') !! r = Some [q] by rw H list_lookup_fmap Hg /= Hq.
  rw list_lookup_fmap. move=> /fmap_Some [g' [Hg' Hq']]. by exists g', q.
Qed.
Lemma decoding_tokens r b s : decoding_at s r →
  wp (get_num_new_uncached_and_cached_tokens conf r SEQ_RUNNING false b) s (λ '(u, _) s', s' = s ∧ u = 1%Z) E.
Proof.
  move=> [g [q [Hg [Hq [Hs Hp]]]]]. rw /get_num_new_uncached_and_cached_tokens. wp_step.
  eapply wp_mono; [apply (seq_positions_spec E)| |done]. move=> idx s' [-> [g' [q' [l' [Hg' [Hq' ->]]]]]].
  rw Hg in Hg'. injection Hg' as <-. rw Hq in Hq'. injection Hq' as <- <-. rw decide_True // Hq. cbn [length seq mfold].
  wp_step. wp_step. rw /the_seq. wp_step. apply on_group_spec; [done|]. move=> g' Hg'. rw Hg in Hg'. injection Hg' as <-.
  rw /group_seq. wp_step. wp_step. rw Hq. apply (wp_ret q). rw list_insert_id; [done|]. replace (set_vs_groups _ s) with s by by destruct s.
  rw /new_tokens_of_seq Hp. cbn [negb]. wp_step. wp_step. wp_step. by wp_step.
Qed.
Lemma decoding_new_tokens r p : decoding_at (ps_sched p) r →
  wp (new_tokens conf r SEQ_RUNNING false) p (λ '(u, _) p', p' = p ∧ u = 1%Z) E.
Proof.
  move=> H. rw /new_tokens. wp_step. wp_step. rw /on_sch. wp_step. eapply wp_mono; [by apply decoding_tokens| |done].
  move=> [u c] s' [-> ->]. split; [|done]. by destruct p.
Qed.

(** * Preemption by recomputation *)
Context (Hmode : cf_preemption_mode (vc_scheduler conf) ≠ Some "swap"%string).
Definition others (r : nat) s s' : Prop := ∀ r', r' ≠ r → vs_groups s' !! r' = vs_groups s !! r'.
Lemma preempt_order r s : decoding_at s r →
  wp (preempt conf r) s (λ '(mode, blocks) s', mode = PREEMPT_RECOMPUTE ∧ touches r s s') E.
Proof.
  move=> [g [q [Hg [Hq [Hs Hp]]]]]. rw /preempt. wp_step. apply on_group_spec; [done|]. move=> g' Hg'. rw Hg in Hg'. injection Hg' as <-.
  rw /get_max_num_running_seqs /group_is_finished /first_seq. wp_step. wp_step. wp_step. wp_step. rw Hq. apply (wp_ret q). wp_step. wp_step.
  rw /seq_is_finished Hs. cbn [seq_status_is_finished]. rw list_insert_id; [done|]. replace (set_vs_groups _ s) with s by by destruct s.
  wp_step. wp_step. set (mode := match cf_preemption_mode _ with Some _ => _ | None => _ end).
  have -> : mode = PREEMPT_RECOMPUTE.
  { rw /mode. destruct (cf_preemption_mode _) as [m|]; [|done]. rw bool_decide_eq_false_2; [congruence|done]. }
  wp_step. set (s1 := set_vs_num_cumulative_preemption _ s).
  have Ht : keeps (touches r) E (preempt_by_recompute (B := B) r).
  { rw /preempt_by_recompute /free_seq. keeps_auto; try done. }
  eapply wp_mono; [apply Ht| |done]. move=> u s2 H2. wp_step. split; [done|]. by etrans; [|exact H2].
Qed.

(** What a part of the running phase adds to the groups that decode and to those
    that are preempted. *)
Record grown (dec pre : list nat) ret ret' : Prop := {
  gr_decode : ro_decode_seq_groups_list ret' = ro_decode_seq_groups_list ret ++ dec;
  gr_preempted : ro_preempted ret' = ro_preempted ret ++ pre;
  gr_swapped : ro_swapped_out ret' = ro_swapped_out ret;
}.
Lemma grown_nil ret : grown [] [] ret ret.
Proof. by split; rw ?app_nil_r. Qed.
Lemma grown_both d1 d2 l1 l2 r1 r2 r3 : grown d1 l1 r1 r2 → grown d2 l2 r2 r3 → grown (d1 ++ d2) (l1 ++ l2) r1 r3.
Proof. move=> [A1 A2 A3] [B1 B2 B3]. split; by rw ?B1 ?B2 ?B3 ?A1 ?A2 ?A3 ?app_assoc. Qed.
Lemma touches_decoding v s s' l : touches v s s' → v ∉ l → Forall (decoding_at s) l → Forall (decoding_at s') l.
Proof.
  move=> [_ _ _ _ _ H] Hv Hl. apply Forall_forall => r Hr. move: Hl. rw Forall_forall => /(_ r Hr) [g [q [Hg Hq]]].
  exists g, q. rw H; [by move=> Heq; subst|done].
Qed.
Lemma same_decoding_all s s' l : same_seqs s s' → Forall (decoding_at s) l → Forall (decoding_at s') l.
Proof. move=> H Hl. eapply Forall_impl; [exact Hl|]. move=> r. by apply same_decoding. Qed.

Lemma preempt_victim_order v ret p : decoding_at (ps_sched p) v →
  wp (preempt_victim conf None v ret) p (λ ret' p', touches v (ps_sched p) (ps_sched p') ∧ grown [] [v] ret ret') E.
Proof.
  move=> H. rw /preempt_victim. wp_step. wp_step. wp_step. rw /on_sch. wp_step.
  eapply wp_mono; [by apply preempt_order| |done]. move=> [mode blocks] s' [-> Ht]. wp_step. split; [done|].
  by split; rw ?app_nil_r.
Qed.
Lemma make_room_order fuel r n ret p : NoDup (r :: running p) → Forall (decoding_at (ps_sched p)) (r :: running p) →
  wp (make_room conf None fuel r n false ret) p (λ '(ok, ret') p', ∃ vics,
    waiting p' = waiting p ∧ swapped p' = swapped p ∧ running p = running p' ++ reverse vics ∧
    grown [] (vics ++ if ok : bool then [] else [r]) ret ret' ∧
    (if ok then Forall (decoding_at (ps_sched p')) (r :: running p') else running p' = [])) E.
Proof.
  elim: fuel ret p => [|fuel IH] ret p Hnd Hd; first done. cbn [make_room].
  wp_step. eapply wp_mono; [apply on_sch_same, can_append_same| |done]. move=> ok p1 H1. wp_step.
  { wp_step. exists []. destruct H1 as [A1 A2 A3 A4]. rw reverse_nil !app_nil_r.
    split_and!; [done|done|by rw A2|apply grown_nil|]. rw A2. by apply (same_decoding_all (ps_sched p)). }
  wp_step. eapply wp_mono; [apply on_sch_same; eauto with keeps| |done]. move=> g p2 H2.
  wp_step. eapply wp_mono; [apply on_budget_same| |done]. move=> u3 p3 H3.
  wp_step. eapply wp_mono; [apply on_sch_same; eauto 6 with keeps| |done]. move=> k p4 H4.
  wp_step. eapply wp_mono; [apply on_budget_same| |done]. move=> u5 p5 H5.
  wp_step. eapply (wp_mono _ _ (λ _ p6, psame p5 p6) _ E); [rw /drop_lora; wp_step; by rw /psame| |done]. move=> u6 p6 H6.
  have H7 : psame p p6 by chain. clear H1 H2 H3 H4 H5 H6. have [A1 A2 A3 A4] := H7.
  wp_step. wp_step. rw A2. have Hd6 := same_decoding_all _ _ _ H7 Hd.
  destruct (last (running p)) as [v|] eqn:Hl.
  - apply last_Some in Hl as [l' Hl]. rw Hl removelast_last. wp_step. rw /on_sch. wp_step. wp_step. set (p7 := set_ps_sched _ p6).
    rw Hl app_comm_cons in Hnd. apply NoDup_app in Hnd as [Hnd [Hv _]].
    have Hvl : v ∉ r :: l'. { move=> Hin. apply (Hv _ Hin). by left. }
    rw Hl app_comm_cons Forall_app Forall_singleton in Hd6. destruct Hd6 as [Hd6 Hdv].
    wp_step. eapply wp_mono; [by apply preempt_victim_order| |done]. move=> ret1 p8 [T G1].
    have Hr8 : running p8 = l' by rw (to_running _ _ _ T).
    eapply wp_mono; [apply IH; rw Hr8; [done|]| |done].
    { by apply (touches_decoding v (ps_sched p7)). }
    move=> [ok2 ret2] p9 [vics [B1 [B2 [B3 [B4 B5]]]]]. exists (v :: vics). split_and!.
    + by rw B1 (to_waiting _ _ _ T).
    + by rw B2 (to_swapped _ _ _ T).
    + by rw reverse_cons app_assoc -B3 Hr8.
    + exact (grown_both [] [] [v] _ _ _ _ G1 B4).
    + done.
  - apply last_None in Hl. wp_step. eapply wp_mono; [apply preempt_victim_order; by inversion Hd6| |done].
    move=> ret1 p8 [T G1]. wp_step. exists []. split_and!.
    + by rw (to_waiting _ _ _ T).
    + by rw (to_swapped _ _ _ T).
    + by rw Hl (to_running _ _ _ T) A2 Hl.
    + done.
    + by rw (to_running _ _ _ T) A2.
Qed.

Lemma run_group_order r n ret p : decoding_at (ps_sched p) r →
  wp (run_group conf r n false ret) p (λ ret' p', psame p p' ∧ grown [r] [] ret ret') E.
Proof.
  move=> Hr. rw /run_group. wp_step. eapply wp_mono; [apply on_sch_same, append_slots_same| |done]. move=> copies p1 H1.
  have [g [q [Hg [Hq [_ Hp]]]]] := same_decoding _ _ r H1 Hr.
  wp_step. rw {1}/on_sch. wp_step. apply on_group_spec; [done|]. move=> g' Hg'. rw Hg in Hg'. injection Hg' as <-.
  rw /group_is_prefill /first_seq. wp_step. wp_step. wp_step. rw Hq. apply (wp_ret q). wp_step. rw Hp.
  rw list_insert_id; [done|]. replace (set_ps_sched _ p1) with p1 by by destruct p1 as [[]].
  wp_step. eapply wp_mono; [apply on_sch_same; eauto with keeps| |done]. move=> g3 p3 H3.
  wp_step. eapply wp_mono; [apply on_budget_same| |done]. move=> u4 p4 H4. wp_step. wp_step; [done|]. wp_step.
  eapply (wp_mono _ _ (λ _ p5, psame p4 p5) _ E); [by wp_step; [rw /add_lora; wp_step|]; rw /psame| |done]. move=> u5 p5 H5.
  wp_step. split; [chain|]. by split; rw ?app_nil_r.
Qed.
Lemma v0_running_loop_order fuel ret p : NoDup (running p) → Forall (decoding_at (ps_sched p)) (running p) →
  wp (v0_running_loop conf None fuel false ret) p (λ ret' p', ∃ dec pre,
    waiting p' = waiting p ∧ swapped p' = swapped p ∧ running p' = [] ∧ running p = dec ++ reverse pre ∧ grown dec pre ret ret') E.
Proof.
  elim: fuel ret p => [|fuel IH] ret p Hnd Hd; first done. cbn [v0_running_loop]. wp_step. wp_step.
  destruct (running p) as [|r l] eqn:Hr; first by wp_step; exists [], []; split_and!; [| | | |apply grown_nil].
  wp_step. eapply wp_mono; [apply decoding_new_tokens; by inversion Hd| |done]. move=> [n c] p1 [-> ->]. cbn [Z.eqb].
  wp_step. rw {1}/on_sch. wp_step. wp_step. set (p2 := set_ps_sched _ p).
  wp_step. eapply wp_mono; [apply on_sch_same; eauto 6 with keeps| |done]. move=> q p3 H3. rw andb_false_l.
  have [A1 A2 A3 A4] := H3. cbn in A1, A2, A3.
  wp_step. eapply wp_mono; [apply make_room_order; rw A2; [done|]| |done].
  { by apply (same_decoding_all (ps_sched p2)). }
  move=> [ok ret1] p4 [vics [B1 [B2 [B3 [B4 B5]]]]]. rw A2 in B3. wp_step. destruct ok.
  - eapply wp_mono; [apply run_group_order; by inversion B5| |done]. move=> ret2 p5 [H5 G5]. have [C1 C2 C3 _] := H5.
    inversion B5 as [|?? Hr4 Hd4]; subst. eapply wp_mono; [apply IH; rw C2| |done].
    + rw B3 in Hnd. apply NoDup_cons in Hnd as [_ Hnd]. by apply NoDup_app in Hnd as [Hnd _].
    + by apply (same_decoding_all (ps_sched p4)).
    + move=> ret3 p6 [dec [pre [D1 [D2 [D3 [D4 D5]]]]]]. exists (r :: dec), (vics ++ pre). rw D1 D2 C1 C3 B1 B2 A1 A3.
      split_and!; [done|done|done| |].
      * by rw B3 -C2 D4 reverse_app app_assoc.
      * rw app_nil_r in B4. exact (grown_both [] _ _ _ _ _ _ B4 (grown_both [r] _ [] _ _ _ _ G5 D5)).
  - wp_step. eapply wp_mono; [apply IH; rw B5; by constructor| |done].
    move=> ret3 p6 [dec [pre [D1 [D2 [D3 [D4 D5]]]]]]. rw B5 in D4. symmetry in D4. apply app_nil in D4 as [-> D4].
    have {}D4 : pre = [] by destruct pre; [|by rw reverse_cons in D4; apply app_nil in D4 as [_ D4]]. subst pre.
    exists [], (vics ++ [r]). rw D1 D2 B1 B2 A1 A3. split_and!; [done|done|done| |].
    + by rw reverse_app B3 B5.
    + have := grown_both _ _ _ _ _ _ _ B4 D5. by rw !app_nil_r.
Qed.

(** * The prefill phase touches waiting groups only *)
Record within r p p' : Prop := {
  wi_others : others r (ps_sched p) (ps_sched p');
  wi_waiting : waiting p' ⊆ waiting p;
}.
#[local] Instance within_preorder r : PreOrder (within r).
Proof.
  split; first by move=> p; split. move=> p1 p2 p3 [H1 W1] [H2 W2]. split; [|by etrans].
  move=> r' Hr. by rw H2 // H1.
Qed.
Lemma on_sch_within {A} r (m : M (V0Scheduler B) A) : keeps (touches r) E m → keeps (within r) E (on_sch m).
Proof.
  move=> H p. rw /on_sch. wp_step. eapply wp_mono; [apply H| |done]. move=> a s' [W _ _ _ _ O]. split; [exact O|]. by rw /= W.
Qed.
Lemma on_budget_within {A} r (m : M SchedulingBudget A) : keeps (within r) E (on_budget m).
Proof. move=> p. rw /on_budget. wp_step. eapply wp_mono; [apply quiet_any| |done]. by move=> a b _; split. Qed.
Lemma pop_within r : keeps (within r) E (pop_waiting (B := B)).
Proof.
  rw /pop_waiting /on_sch. move=> p. wp_step. wp_step. split; [done|]. cbn. destruct (waiting p); set_solver.
Qed.
#[local] Hint Extern 2 (within _ ?p (set_ps_loras _ ?p)) => by split : keeps.
Lemma multi_step_touches r a b c d : keeps (touches r) E (on_group (B := B) r (init_multi_step_from_lookahead_slots a b c d)).
Proof.
  apply on_group_touches; [done|]. rw /init_multi_step_from_lookahead_slots /init_multi_step.
  have HP : PreOrder (λ g g', sg_request_id g' = sg_request_id g) by split; [done|by move=> ??? H1 H2; rw H2].
  have Hp : keeps (λ g g', sg_request_id g' = sg_request_id g) E group_is_prefill by apply keeps_eq, group_is_prefill_pure, _; apply _.
  by keeps_auto.
Qed.
#[local] Hint Resolve on_sch_within on_budget_within pop_within multi_step_touches : keeps.
Lemma on_manager_within {A} r (m : M B A) : keeps (touches r) E (on_manager m).
Proof. apply keeps_zoom; [apply quiet_any|by split]. Qed.
#[local] Hint Resolve on_manager_within : keeps.
Lemma append_slots_within r ec : keeps (touches r) E (append_group_slots (B := B) conf r ec).
Proof. rw /append_group_slots. keeps_auto. Qed.
Lemma allocate_within r : keeps (touches r) E (allocate_and_set_running (B := B) r).
Proof. rw /allocate_and_set_running. keeps_auto. Qed.
#[local] Hint Resolve append_slots_within allocate_within : keeps.
Lemma start_prefill_within r id la k u c ec ret : keeps (within r) E (start_prefill conf r id la k u c ec ret).
Proof. rw /start_prefill /add_lora. keeps_auto. Qed.
Lemma ignore_waiting_within r ret : keeps (within r) E (ignore_waiting r ret).
Proof. rw /ignore_waiting. keeps_auto. Qed.
Section from.
Context (p0 : Pass B).
Record apart p : Prop := {
  ap_waiting : waiting p ⊆ waiting p0;
  ap_groups r : r ∉ waiting p0 → vs_groups (ps_sched p) !! r = vs_groups (ps_sched p0) !! r;
}.
Definition stays p p' : Prop := apart p → apart p'.
#[local] Instance stays_preorder : PreOrder stays.
Proof. split; rw /stays; [by move=> p|]. move=> p1 p2 p3. tauto. Qed.
Lemma keeps_stays {A} (m : M (Pass B) A) : (∀ p, apart p → wp m p (λ _ p', apart p') E) → keeps stays E m.
Proof. move=> H p. move: (H p). rw /wp /stays. destruct (m p) as [[a p']|e]; [tauto|done]. Qed.
Lemma within_stays {A} r (m : M (Pass B) A) : r ∈ waiting p0 → keeps (within r) E m → keeps stays E m.
Proof.
  move=> Hr H. apply keeps_stays => p [W G]. eapply wp_mono; [apply H| |done]. move=> a p' [O W']. split; [by etrans|].
  move=> r' Hr'. rw O; [by move=> Heq; subst|]. by apply G.
Qed.
Lemma still_stays {A} (m : M (V0Scheduler B) A) : keeps still E m → keeps stays E (on_sch m).
Proof.
  move=> H. apply keeps_stays => p [W G]. rw /on_sch. wp_step. eapply wp_mono; [apply H| |done]. move=> a s' [S1 _ _ _ S5].
  split; rw /= ?S1 ?S5; done.
Qed.
Lemma budget_stays {A} (m : M SchedulingBudget A) : keeps stays E (on_budget m).
Proof. move=> p. rw /on_budget. wp_step. eapply wp_mono; [apply quiet_any| |done]. by move=> a b _ []; split. Qed.
Lemma new_tokens_stays r st ec : keeps stays E (new_tokens conf r st ec).
Proof. rw /new_tokens. keeps_auto. apply still_stays. eauto with keeps. Qed.
Lemma lora_full_stays id : keeps stays E (lora_full (B := B) conf id).
Proof. rw /lora_full. by keeps_auto. Qed.
#[local] Hint Resolve still_stays budget_stays new_tokens_stays lora_full_stays : keeps.
Lemma prefills_loop_apart fuel ec lo ret : keeps stays E (prefills_loop conf fuel ec lo ret).
Proof.
  elim: fuel lo ret => [|fuel IH] lo ret; first by apply keeps_raise. cbn [prefills_loop].
  apply keeps_bind; [apply _|by eauto with keeps|]. move=> now. apply keeps_bind; [apply _|by eauto with keeps|]. move=> passed.
  apply keeps_stays => p Hp. wp_step. wp_step. destruct (waiting p) as [|r q] eqn:Hq; first by wp_step.
  have Hr : r ∈ waiting p0. { apply (ap_waiting _ Hp). rw Hq. by left. }
  have Hin A (m : M (Pass B) A) : keeps (within r) E m → keeps stays E m by apply within_stays.
  have H : ∀ m : M (Pass B) (list nat * SchedulerPrefillOutputs), keeps stays E m → wp m p (λ _ p', apart p') E.
  { move=> m Hm. eapply wp_mono; [apply Hm|by move=> a p' H; apply H|done]. }
  apply H. have H1 := ignore_waiting_within r. have H2 := start_prefill_within r. have H3 := pop_within r. clear H.
  by keeps_auto.
Qed.
End from.

(** * The pass *)
Context (Hlora : vc_lora conf = None).
Lemma loras_none p : loras_ready conf p.
Proof. rw /loras_ready Hlora. by case. Qed.
Lemma schedule_prefills_order p : NoDup (running p ++ waiting p) → Forall (decoding_at (ps_sched p)) (running p) →
  wp (schedule_prefills conf false) p (λ po p', ∃ moves,
    waiting p = moves.*1 ++ waiting p' ∧ running p' = running p ∧ swapped p' = swapped p ∧
    groups_of (po_seq_groups po) = with_fate Started moves ∧ po_ignored_seq_groups po = with_fate Ignored moves ∧
    with_fate SetAside moves = [] ∧ Forall (decoding_at (ps_sched p')) (running p')) E.
Proof.
  move=> Hnd Hd. eapply wp_mono; [apply wp_and; [apply (schedule_prefills_spec E Q conf), loras_none|]| |done].
  { instantiate (1 := λ _ p', ∀ r, r ∉ waiting p → vs_groups (ps_sched p') !! r = vs_groups (ps_sched p) !! r).
    rw /schedule_prefills. wp_step. wp_step. wp_step. eapply wp_mono; [apply (prefills_loop_apart p)| |done].
    move=> [lo ret] p1 H1. have {}H1 : apart p p1 by apply H1; split.
    wp_step. rw {1}/on_sch. wp_step. wp_step. wp_step.
    eapply (wp_mono _ _ (λ _ p', vs_groups (ps_sched p') = vs_groups (ps_sched p1)) _ E); [by wp_step; [rw /on_sch; wp_step; wp_step|]| |done].
    move=> u p2 H2. wp_step. rw H2. apply H1. }
  move=> po p' [[moves [rest [A1 [A2 [A3 [A4 [A5 [_ A7]]]]]]]] HG]. cbn in HG. exists moves. have {}A7 := A7 Hlora.
  have [D1 D2 _ _ _] := A1. rw A3 A7 D1. split_and!; try done.
  apply Forall_forall => r Hr. move: Hd. rw Forall_forall => /(_ r Hr) [g [q [Hg Hq]]]. exists g, q. rw HG; [|done].
  apply NoDup_app in Hnd as [_ [Hnd _]]. by apply Hnd.
Qed.
Lemma elem_of_fate f r moves : r ∈ with_fate f moves ↔ (r, f) ∈ moves.
Proof.
  rw /with_fate list_elem_of_fmap. split.
  - move=> [[r' f'] [-> H]]. apply list_elem_of_filter in H as [H1 H2]. cbn in H1. by subst.
  - move=> H. exists (r, f). split; [done|]. by apply list_elem_of_filter.
Qed.
Lemma filter_fate (I : list nat) moves : (∀ r f, (r, f) ∈ moves → r ∈ I ↔ f = Ignored) → with_fate SetAside moves = [] →
  filter (λ r, r ∉ I) moves.*1 = with_fate Started moves.
Proof.
  elim: moves => [|[r f] moves IH] H; first done. rw !with_fate_cons. have Hr := H r f ltac:(left).
  have {}IH := IH (λ r f Hin, H r f (list_elem_of_further _ _ _ Hin)). destruct f; cbn => Ha; last done.
  - rw -IH //. rw decide_True; [by rw Hr|done].
  - rw -IH //. rw decide_False; [by rw Hr; tauto|done].
Qed.
Lemma filter_ignored (l rest : list nat) moves : NoDup (l ++ moves.*1 ++ rest) → with_fate SetAside moves = [] →
  filter (λ r, r ∉ with_fate Ignored moves) (l ++ moves.*1 ++ rest) = l ++ with_fate Started moves ++ rest.
Proof.
  move=> Hnd Ha. have Hin r : r ∈ with_fate Ignored moves → r ∈ moves.*1.
  { rw elem_of_fate => H. apply list_elem_of_fmap. by exists (r, Ignored). }
  rw !filter_app. apply NoDup_app in Hnd as [_ [H1 Hnd]]. apply NoDup_app in Hnd as [Hm [H2 _]]. f_equal; [|f_equal].
  - apply filter_all => r Hr /Hin Hi. apply (H1 r Hr). apply elem_of_app. by left.
  - apply filter_fate; [|done]. move=> r f Hrf. rw elem_of_fate. split; [|by move=> <-]. move=> Hri.
    apply list_elem_of_lookup in Hrf as [i Hi]. apply list_elem_of_lookup in Hri as [j Hj].
    have Hij : i = j by apply (NoDup_lookup _ _ _ r Hm); rw list_lookup_fmap ?Hi ?Hj. subst j. rw Hi in Hj. by injection Hj.
  - apply filter_all => r Hr /Hin Hi. by apply (H2 r Hi).
Qed.

Lemma outputs_post_init_keeps o s :
  wp (outputs_post_init o) s (λ o' s', s' = s ∧ so_ignored_seq_groups o' = so_ignored_seq_groups o) E.
Proof.
  rw /outputs_post_init. wp_step. wp_step; last done. wp_step.
  eapply (wp_mono _ _ (λ _ s', s = s') _ E); [| |done].
  { have Hk : keeps eq E (num_loras (B := B) o) by rw /num_loras; keeps_auto. apply Hk. }
  move=> n s1 <-. wp_step; last by wp_step. rw /sort_by_lora_ids. wp_step. wp_step; last done. wp_step.
  eapply (wp_mono _ _ (λ _ s', s = s') _ E); [| |done].
  - match goal with |- wp ?m _ _ _ => have Hk : keeps eq E m by keeps_auto end. apply Hk.
  - move=> keyed s2 <-. by wp_step.
Qed.
Lemma count_running_same : keeps psame E (count_running (B := B)).
Proof. rw /count_running. keeps_auto. Qed.
Lemma running_loras_same : keeps psame E (running_loras (B := B) conf).
Proof. rw /running_loras /lora_enabled Hlora. cbn. by apply keeps_modify. Qed.

(** The running and the swapped phase of a pass in which nothing is swapped. *)
Lemma execute_order p : swapped p = [] → NoDup (running p) → Forall (decoding_at (ps_sched p)) (running p) →
  wp (schedule_running conf None false) p (λ rs p1, wp (swapped_part conf false rs) p1 (λ si p', ∃ dec pre,
    waiting p' = waiting p ∧ swapped p' = [] ∧ running p' = [] ∧ running p = dec ++ reverse pre ∧
    ro_decode_seq_groups_list rs = dec ∧ ro_preempted rs = pre ∧ ro_swapped_out rs = [] ∧
    groups_of (si_decode_seq_groups si) = [] ∧ si_infeasible_seq_groups si = []) E) E.
Proof.
  move=> Hs Hnd Hd. rw /schedule_running. wp_step. wp_step. wp_step. wp_step; last done.
  eapply wp_mono; [by apply v0_running_loop_order| |done]. move=> rs p1 [dec [pre [A1 [A2 [A3 [A4 [A5 A6 A7]]]]]]].
  rw Hs in A2. rw /swapped_part. destruct (length (ro_preempted rs) + length (ro_swapped_out rs) =? 0).
  - eapply wp_mono; [apply (schedule_swapped_spec E Q conf), loras_none| |done].
    move=> si p2 [moves [rest [[B1 B2 _ _ _] [B3 [B4 [B5 [B6 _]]]]]]]. rw A2 in B3. symmetry in B3. apply app_nil in B3 as [B3 ->].
    apply fmap_nil_inv in B3. subst moves. exists dec, pre. rw B1 B2 B4 B6 A1 A3. cbn in *. apply Permutation_nil_r, app_nil in B5 as [B5 _].
    by split_and!.
  - wp_step. exists dec, pre. cbn in *. by split_and!.
Qed.
Definition in_order s s' o : Prop := vs_swapped s' = [] ∧
  vs_running s' ++ vs_waiting s' = filter (λ r, r ∉ so_ignored_seq_groups o) (vs_running s ++ vs_waiting s).
Lemma schedule_default_pass_order p :
  cf_policy (vc_scheduler conf) ≠ "priority"%string → swapped p = [] → NoDup (running p ++ waiting p) →
  Forall (decoding_at (ps_sched p)) (running p) →
  wp (schedule_default_pass conf None) p (λ o p', in_order (ps_sched p) (ps_sched p') o) E.
Proof.
  move=> Hpol Hs Hnd Hd. rw /schedule_default_pass. wp_step. eapply wp_mono; [apply count_running_same| |done]. move=> u1 p1 H1.
  wp_step. eapply wp_mono; [apply running_loras_same| |done]. move=> u2 p2 H2. have {}H2 : psame p p2 by chain. clear H1.
  have Hd2 := same_decoding_all _ _ _ H2 Hd. have [S1 S2 S3 _] := H2. rw -S1 -S2 in Hnd. rw -S2 in Hd2. rw Hs in S3.
  rw /in_order -S1 -S2. clear p Hs Hd H2 S1 S2. wp_step. wp_step. wp_step. rw S3. cbn [length Nat.eqb].
  eapply wp_mono; [by apply schedule_prefills_order| |done]. move=> po p3 [moves [A1 [A2 [A3 [A4 [A5 [A6 A7]]]]]]]. rw S3 in A3.
  have HF : filter (λ r, r ∉ with_fate Ignored moves) (running p2 ++ waiting p2) = running p2 ++ with_fate Started moves ++ waiting p3.
  { rw A1. apply filter_ignored; [by rw -A1|done]. }
  wp_step. rw (bool_decide_eq_false_2 (cf_policy _ = _)) // andb_false_r. wp_step; first done. clear H.
  wp_step. eapply (wp_mono _ _ (λ '(rs, si) p4, ∃ dec pre, swapped p4 = [] ∧ waiting p4 = waiting p3 ∧
    running p4 ++ with_fate Started moves ++ dec ++ reverse pre = running p3 ++ with_fate Started moves ∧
    ro_decode_seq_groups_list rs = dec ∧ ro_preempted rs = pre ∧ ro_swapped_out rs = [] ∧
    groups_of (si_decode_seq_groups si) = [] ∧ si_infeasible_seq_groups si = []) _ E); [| |done].
  { destruct (length (po_seq_groups po) =? 0) eqn:Hz; last by wp_step; exists [], []; rw !app_nil_r.
    have Hst : with_fate Started moves = []. { apply Nat.eqb_eq, length_zero_iff_nil in Hz. by rw -A4 Hz. }
    wp_step. eapply wp_mono; [apply execute_order; [done|rw A2; by apply NoDup_app in Hnd as [Hnd _]|done]| |done].
    move=> rs p4 H4. wp_step. eapply wp_mono; [exact H4| |done]. move=> si p5 [dec [pre [B1 [B2 [B3 [B4 B5]]]]]]. wp_step.
    exists dec, pre. by rw B3 Hst B4 app_nil_r. }
  move=> [rs si] p4 [dec [pre [B1 [B2 [B3 [B4 [B5 [B6 [B7 B8]]]]]]]]]. wp_step. eapply wp_mono; [by apply (check_budget_spec E)| |done].
  move=> u6 p6 ->. wp_step. apply wp_modify_sch. do 3 (wp_step; apply wp_extend_running). wp_step. apply wp_modify_sch.
  wp_step. wp_step; last done. wp_step. wp_step; last done. wp_step. wp_step. rw /on_sch. wp_step.
  eapply wp_mono; [apply outputs_post_init_keeps| |done]. move=> o' s' [-> Hi]. cbn. cbn in Hi. rw Hi A5 B8 !app_nil_r B1 B6. split; [done|].
  rw HF B4 B5 B7 A4 B2 /extendleft app_nil_r -!app_assoc. rw A2 in B3. rw !app_assoc in B3 *. by rw B3.
Qed.
End order.

(** C39: First come, first served. Under the default policy, with preemption by
    recomputation, without LoRA, chunked prefills or pending outputs, and with
    decoding groups running: after a pass the running queue followed by the
    waiting queue is what it was before, without the groups that were refused.
    Groups start from the front of the waiting queue, and preempted groups
    return to it in front of the others and in their order. *)
Theorem v0_first_come_first_served {B} `{BSM : BlockSpaceManager B} (conf : V0Config) (s : V0Scheduler B) msgs o a s' :
  cf_policy (vc_scheduler conf) ≠ "priority"%string → cf_chunked_prefill_enabled (vc_scheduler conf) = false →
  cf_preemption_mode (vc_scheduler conf) ≠ Some "swap"%string → vc_lora conf = None →
  vs_swapped s = [] → NoDup (vs_running s ++ vs_waiting s) → Forall (decoding_at s) (vs_running s) →
  v0_schedule conf None s = Ok ((msgs, o, a), s') →
  vs_swapped s' = [] ∧
  vs_running s' ++ vs_waiting s' = filter (λ r, r ∉ so_ignored_seq_groups o) (vs_running s ++ vs_waiting s).
Proof.
  move=> Hpol Hch Hmode Hlora Hs Hnd Hd Heq.
  have H : wp (v0_schedule conf None) s (λ '(_, o, _) s', ∃ s2, in_order s s2 o ∧ kept s2 s') any_exn.
  - apply (v0_schedule_wp any_exn manager_quiet_any). move=> s1 [S1 S2 S3 _ S5]. rw /wp /schedule_pass Hch.
    set (p := {| ps_sched := s1; ps_budget := _; ps_loras := None |}).
    have H : wp (schedule_default_pass conf None) p (λ o p', in_order (ps_sched p) (ps_sched p') o) any_exn.
    { apply schedule_default_pass_order; rw /= ?S1 ?S2 ?S3 //. by rw /decoding_at S5. }
    rw /wp /in_order /= S1 S2 in H. by destruct (schedule_default_pass conf None p) as [[o2 p']|e].
  - have [s2 [[H1 H2] [K1 K2 K3 _ _ _]]] := wp_ok _ _ _ _ _ _ H Heq. by rw K1 K2 K3.
Qed.

(** * The priority policy

    After [_schedule_priority_preemption]
    both queues are sorted, and running groups were preempted from the end of
    their queue for a waiting group of higher priority only. *)

(** * [sorted] sorts *)
Section sorting.
Context {A : Type} (lt : A → A → bool).
Abbreviation le := (λ x y, lt y x = false).
Context (Htrans : ∀ x y z, le x y → le y z → le x z) (Hasym : ∀ x y, lt x y = true → le x y).
Lemma insert_on_sorted x l : StronglySorted le l → StronglySorted le (insert_on lt x l).
Proof using Type*.
  elim: l => [|y l IH] Hs /=; first by repeat constructor. inversion Hs as [|?? Hl Hy]; subst. case_match eqn:Hxy.
  - constructor; [done|]. constructor; [by apply Hasym|]. eapply Forall_impl; [exact Hy|]. move=> z Hz. cbn in *.
    by eapply (Htrans x y); [apply Hasym|].
  - constructor; [by apply IH|]. rw insert_on_perm. by constructor.
Qed.
Lemma py_sorted_sorted l : StronglySorted le (py_sorted lt l).
Proof using Type*.
  rw /py_sorted. have H acc : StronglySorted le acc → StronglySorted le (foldl (λ acc x, insert_on lt x acc) acc l); last by apply H; constructor.
  elim: l acc => [|x l IH] acc Ha //=. by apply IH, insert_on_sorted.
Qed.
(** Elements that compare equal keep their order. *)
Context (P : A → Prop) `{∀ y, Decision (P y)} (HP : ∀ x y, P x → P y → lt x y = false).
Lemma insert_on_stable x l : StronglySorted le l → filter P (insert_on lt x l) = filter P l ++ filter P [x].
Proof using Type*.
  elim: l => [|y l IH] Hs //=. inversion Hs as [|?? Hl Hy]; subst. case_match eqn:Hxy.
  - destruct (decide (P x)) as [Px|Px]; last by rw (filter_cons_False _ _ _ Px) filter_singleton_False // app_nil_r.
    have Hn z : le y z → ¬ P z. { move=> Hz Pz. by rw (Htrans y z x Hz (HP x z Px Pz)) in Hxy. }
    have Hnil : filter P (y :: l) = [].
    { apply elem_of_nil_inv => z Hz. apply list_elem_of_filter in Hz as [Pz Hz]. apply elem_of_cons in Hz as [->|Hz].
      - by rw (HP x y Px Pz) in Hxy.
      - rw Forall_forall in Hy. by apply (Hn z (Hy z Hz)). }
    by rw (filter_cons_True _ _ _ Px) Hnil (filter_singleton_True _ x []).
  - destruct (decide (P y)) as [Py|Py]; [rw !(filter_cons_True _ _ _ Py)|rw !(filter_cons_False _ _ _ Py)]; by rw IH.
Qed.
Lemma py_sorted_stable l : filter P (py_sorted lt l) = filter P l.
Proof using Type*.
  rw /py_sorted. have H1 acc : StronglySorted le acc → filter P (foldl (λ acc x, insert_on lt x acc) acc l) = filter P acc ++ filter P l;
    last by apply H1; constructor.
  move: acc. elim: l => [|x l IH] a Ha; first by rw app_nil_r. cbn [foldl]. rw IH; [by apply insert_on_sorted|].
  rw insert_on_stable // -app_assoc -filter_app. done.
Qed.
End sorting.

Lemma insert_on_fmap {A C} (f : A → C) (lt : C → C → bool) x l :
  insert_on lt (f x) (f <$> l) = f <$> insert_on (λ x y, lt (f x) (f y)) x l.
Proof. elim: l => [|y l IH] //=. case_match; [done|]. by rw IH. Qed.
Lemma py_sorted_fmap {A C} (f : A → C) (lt : C → C → bool) l :
  py_sorted lt (f <$> l) = f <$> py_sorted (λ x y, lt (f x) (f y)) l.
Proof.
  rw /py_sorted. have H acc : foldl (λ acc x, insert_on lt x acc) (f <$> acc) (f <$> l) =
    f <$> foldl (λ acc x, insert_on (λ x y, lt (f x) (f y)) x acc) acc l; last by apply (H []).
  elim: l acc => [|x l IH] acc //=. by rw insert_on_fmap IH.
Qed.
Lemma priority_lt_spec p q : priority_lt p q = true ↔ (p.1 < q.1 ∨ p.1 = q.1 ∧ p.2 < q.2)%Z.
Proof. rw /priority_lt orb_true_iff andb_true_iff Z.eqb_eq !Z.ltb_lt. done. Qed.
Lemma priority_le_spec p q : priority_lt p q = false ↔ (q.1 < p.1 ∨ q.1 = p.1 ∧ q.2 <= p.2)%Z.
Proof. rw -not_true_iff_false priority_lt_spec. lia. Qed.

Section priority.
Context {B : Type} `{BSM : BlockSpaceManager B}.
Context (conf : V0Config).
Implicit Types (s : V0Scheduler B) (p : Pass B) (q : list nat).
Abbreviation waiting p := (vs_waiting (ps_sched p)).
Abbreviation running p := (vs_running (ps_sched p)).
Abbreviation E := any_exn.

Definition prio_at s (r : nat) : Z * Z := match vs_groups s !! r with Some g => get_priority g | None => (0, 0)%Z end.
(** [q'] is [q] sorted: the most urgent groups first, and groups of one priority
    and arrival time in their order. *)
Record sorts s q q' : Prop := {
  so_perm : q' ≡ₚ q;
  so_sorted : StronglySorted (λ r1 r2, priority_lt (prio_at s r2) (prio_at s r1) = false) q';
  so_stable k : filter (λ r, prio_at s r = k) q' = filter (λ r, prio_at s r = k) q;
}.
Lemma py_sorted_sorts s q : sorts s q (py_sorted (λ x y, priority_lt (prio_at s x) (prio_at s y)) q).
Proof.
  have Htrans x y z : priority_lt (prio_at s y) (prio_at s x) = false → priority_lt (prio_at s z) (prio_at s y) = false →
    priority_lt (prio_at s z) (prio_at s x) = false by rw !priority_le_spec; lia.
  have Hasym x y : priority_lt (prio_at s x) (prio_at s y) = true → priority_lt (prio_at s y) (prio_at s x) = false.
  { rw priority_lt_spec priority_le_spec. lia. }
  split; [apply py_sorted_perm|by apply py_sorted_sorted|]. move=> k. apply py_sorted_stable; [done|done|].
  move=> x y -> ->. rw priority_le_spec. lia.
Qed.
Lemma sort_queue_sorts q s : wp (sort_queue q) s (λ l s', s' = s ∧ sorts s q l) E.
Proof.
  rw /sort_queue. wp_step. eapply (wp_mono _ _ (λ keyed s', s' = s ∧ keyed = (λ r, (r, prio_at s r)) <$> q) _ E); [| |done].
  - have H acc : wp (mfold q acc (λ l r, g ← the_group r; mret (l ++ [(r, get_priority g)]))) s
      (λ keyed s', s' = s ∧ keyed = acc ++ ((λ r, (r, prio_at s r)) <$> q)) E; last by apply H.
    elim: q acc => [|r q IH] acc; first by apply wp_ret; rw app_nil_r. cbn [mfold]. wp_step. wp_step. apply wp_the_group; [done|].
    move=> g Hg. wp_step. eapply wp_mono; [apply IH| |done]. move=> l s' [-> ->]. by rw -app_assoc /= {2}/prio_at Hg.
  - move=> keyed s' [-> ->]. wp_step. split; [done|]. rw py_sorted_fmap -list_fmap_compose list_fmap_id. apply py_sorted_sorts.
Qed.

(** * Nothing changes a priority *)
Record prios s s' : Prop := {
  pr_waiting : vs_waiting s' = vs_waiting s;
  pr_groups : get_priority <$> vs_groups s' = get_priority <$> vs_groups s;
}.
#[local] Instance prios_preorder : PreOrder prios.
Proof. split; first by move=> s; split. move=> s1 s2 s3 [??] [??]. split; by etrans. Qed.
Definition pprios p p' : Prop := prios (ps_sched p) (ps_sched p').
#[local] Instance pprios_preorder : PreOrder pprios.
Proof. split; [by move=> p; rw /pprios|]. move=> p1 p2 p3. rw /pprios. by etrans. Qed.
Lemma prio_at_eq s s' r : get_priority <$> vs_groups s' = get_priority <$> vs_groups s → prio_at s' r = prio_at s r.
Proof.
  move=> H. have : (get_priority <$> vs_groups s') !! r = (get_priority <$> vs_groups s) !! r by rw H.
  rw !list_lookup_fmap /prio_at. destruct (vs_groups s' !! r), (vs_groups s !! r); cbn; congruence.
Qed.
Lemma pure_prios {A} (m : M (V0Scheduler B) A) : keeps eq E m → keeps prios E m.
Proof. apply keeps_eq, _. Qed.
Lemma still_prios {A} (m : M (V0Scheduler B) A) : keeps still E m → keeps prios E m.
Proof. apply keeps_mono. by move=> s s' [? ? ? ? H]; split; rw ?H. Qed.
Lemma on_sch_prios {A} (m : M (V0Scheduler B) A) : keeps prios E m → keeps pprios E (on_sch m).
Proof. move=> H p. rw /on_sch. wp_step. by eapply wp_mono; [apply H| |done]. Qed.
Lemma on_budget_prios {A} (m : M SchedulingBudget A) : keeps pprios E (on_budget m).
Proof. move=> p. rw /on_budget. wp_step. eapply wp_mono; [apply quiet_any| |done]. by move=> a b _; rw /pprios. Qed.
Lemma on_manager_prios {A} (m : M B A) : keeps prios E (on_manager m).
Proof. apply keeps_zoom; [apply quiet_any|by split]. Qed.
Lemma on_group_prios {A} r (m : M SequenceGroup A) : keeps (λ g g', get_priority g' = get_priority g) E m → keeps prios E (on_group r m).
Proof.
  move=> H s. apply on_group_spec; [done|]. move=> g Hg. eapply wp_mono; [apply H| |done]. move=> a g' Hid. split=> //=.
  rw list_fmap_insert list_insert_id; [by rw list_lookup_fmap Hg /= Hid|done].
Qed.
Lemma upd_seq_prios r i f : keeps prios E (upd_seq (B := B) r i f).
Proof. apply on_group_prios, keeps_modify. by move=> g. Qed.
#[local] Hint Resolve pure_prios still_prios on_manager_prios on_sch_prios on_budget_prios upd_seq_prios quiet_any any_exn_faultless
  manager_quiet_any : keeps.
#[local] Hint Extern 2 (prios _ _) => by split : keeps.
Lemma preempt_prios r : keeps prios E (preempt (B := B) conf r).
Proof. rw /preempt /preempt_by_recompute /v0_swap_out /mapping_of /free_seq. by keeps_auto. Qed.
#[local] Hint Resolve preempt_prios : keeps.
Lemma new_tokens_prios r st ec : keeps pprios E (new_tokens conf r st ec).
Proof. rw /new_tokens. by keeps_auto. Qed.
#[local] Hint Resolve new_tokens_prios : keeps.

Lemma priority_loop_victims rq r n k count p :
  wp (priority_loop conf rq r n k count) p (λ '(rest, c) p', ∃ vics, rq = vics ++ rest ∧ c = count + length vics ∧
    Forall (λ v, priority_lt (prio_at (ps_sched p) r) (prio_at (ps_sched p) v) = true) vics ∧
    waiting p' = reverse vics ++ waiting p ∧ get_priority <$> vs_groups (ps_sched p') = get_priority <$> vs_groups (ps_sched p)) E.
Proof.
  elim: rq count p => [|v rq IH] count p; cbn [priority_loop]; first by wp_step; exists []; split_and!; rw /= ?Nat.add_0_r.
  have Hstop p' : pprios p p' → ∃ vics, v :: rq = vics ++ v :: rq ∧ count = count + length vics ∧
    Forall (λ v, priority_lt (prio_at (ps_sched p) r) (prio_at (ps_sched p) v) = true) vics ∧ waiting p' = reverse vics ++ waiting p ∧
    get_priority <$> vs_groups (ps_sched p') = get_priority <$> vs_groups (ps_sched p).
  { move=> [H1 H2]. exists []. by split_and!; rw /= ?Nat.add_0_r. }
  wp_step. rw {1}/on_sch. wp_step. apply wp_the_group; [done|]. move=> vg Hv. replace (set_ps_sched _ p) with p by by destruct p.
  wp_step. rw {1}/on_sch. wp_step. apply wp_the_group; [done|]. move=> g Hg. replace (set_ps_sched _ p) with p by by destruct p.
  wp_step; first by wp_step; apply Hstop; reflexivity.
  wp_step. eapply wp_mono; [apply on_sch_prios; eauto 6 with keeps| |done]. move=> status p3 H3.
  wp_step. eapply (wp_mono _ _ (λ _ p4, pprios p3 p4) _ E); [| |done].
  { wp_step; last by wp_step; reflexivity. apply on_budget_prios. }
  move=> fits p4 H4. wp_step; first by wp_step; apply Hstop; chain.
  wp_step. eapply wp_mono; [apply new_tokens_prios| |done]. move=> [m c] p5 H5.
  wp_step. eapply wp_mono; [apply on_budget_prios| |done]. move=> u6 p6 H6.
  wp_step. eapply wp_mono; [apply on_sch_prios; eauto 6 with keeps| |done]. move=> j p7 H7.
  wp_step. eapply wp_mono; [apply on_budget_prios| |done]. move=> u8 p8 H8.
  wp_step. eapply wp_mono; [apply on_sch_prios; eauto 6 with keeps| |done]. move=> u9 p9 H9.
  have [W10 G10] : pprios p p9 by chain. wp_step. rw {1}/on_sch. wp_step. wp_step. set (p10 := set_ps_sched _ p9).
  eapply wp_mono; [apply (IH (S count) p10)| |done]. move=> [rest c'] p' [vics [V1 [V2 [V3 [V4 V5]]]]].
  have Hp r' : prio_at (ps_sched p10) r' = prio_at (ps_sched p) r' by apply prio_at_eq.
  exists (v :: vics). split_and!.
  - by rw V1.
  - rw V2 /=. lia.
  - constructor; first by rw /prio_at Hv Hg; apply negb_false_iff. eapply Forall_impl; [exact V3|]. move=> r'. by rw !Hp.
  - by rw V4 /= reverse_cons -app_assoc W10.
  - by rw V5.
Qed.

(** C40: The priority policy: [_schedule_priority_preemption] takes victims only from
    the end of the running queue sorted by priority and arrival, and only for a
    first waiting group of strictly higher priority; it leaves the rest of that
    queue, puts the victims on the waiting queue and sorts that. *)
Theorem priority_preemption_sorts p n p' : schedule_priority_preemption conf p = Ok (n, p') →
  ∃ victims, n = length victims ∧
    sorts (ps_sched p) (running p) (running p' ++ victims) ∧
    sorts (ps_sched p) (take 1 (waiting p) ++ victims ++ drop 1 (waiting p)) (waiting p') ∧
    ∀ v, v ∈ victims → ∃ r, head (waiting p) = Some r ∧ priority_lt (prio_at (ps_sched p) r) (prio_at (ps_sched p) v) = true.
Proof.
  move=> Heq. by_wp Heq. rw /schedule_priority_preemption. wp_step. wp_step.
  wp_step. rw {1}/on_sch. wp_step. eapply wp_mono; [apply sort_queue_sorts| |done]. move=> rq s' [-> Hrq].
  replace (set_ps_sched _ p) with p by by destruct p as [[]].
  wp_step. eapply (wp_mono _ _ (λ '(rq', c) p1, ∃ vics, rq = rq' ++ vics ∧ c = length vics ∧
    waiting p1 = take 1 (waiting p) ++ vics ++ drop 1 (waiting p) ∧
    (∀ v, v ∈ vics → ∃ r, head (waiting p) = Some r ∧ priority_lt (prio_at (ps_sched p) r) (prio_at (ps_sched p) v) = true) ∧
    get_priority <$> vs_groups (ps_sched p1) = get_priority <$> vs_groups (ps_sched p)) _ E); [| |done].
  { destruct (vs_waiting (ps_sched p)) as [|r q] eqn:Hw.
    { wp_step. exists []. rw Hw app_nil_r. split_and!; try done. move=> v Hv. by apply elem_of_nil in Hv. }
    wp_step. rw {1}/on_sch. wp_step. wp_step. set (p1 := set_ps_sched _ p).
    wp_step. eapply wp_mono; [apply on_sch_prios; eauto 6 with keeps| |done]. move=> k p2 H2.
    wp_step. eapply wp_mono; [apply new_tokens_prios| |done]. move=> [m c] p3 H3. have [W4 G4] : pprios p1 p3 by chain.
    wp_step. eapply wp_mono; [apply priority_loop_victims| |done]. move=> [rest c'] p5 [vics [V1 [V2 [V3 [V4 V5]]]]].
    wp_step. rw {1}/on_sch. wp_step. wp_step. wp_step. exists (reverse vics). cbn. split_and!.
    - by rw -reverse_app -V1 reverse_involutive.
    - by rw length_reverse V2.
    - by rw V4 W4 drop_0.
    - move=> v /elem_of_reverse Hv. exists r. split; [done|]. rw Forall_forall in V3.
      have Hp r' : prio_at (ps_sched p3) r' = prio_at (ps_sched p) r' by apply prio_at_eq. rw -!Hp. by apply V3.
    - by rw V5 G4. }
  move=> [rq' c] p1 [vics [A1 [A2 [A3 [A4 A5]]]]]. wp_step. wp_step. wp_step. rw {1}/on_sch. wp_step.
  eapply wp_mono; [apply sort_queue_sorts| |done]. move=> wq s2 [-> [Hp Hs Hst]].
  wp_step. rw /on_sch. wp_step. wp_step. wp_step. exists vics. cbn. rw -A1 -A3. split_and!; [done|done| |done].
  have Heqp r : prio_at (ps_sched p1) r = prio_at (ps_sched p) r by apply prio_at_eq.
  split; [done| |].
  - clear -Hs Heqp. induction Hs as [|r l Hl IH Hr]; constructor; [done|]. eapply Forall_impl; [exact Hr|]. move=> r' H. cbn in H. by rw -!Heqp.
  - move=> k. have Hf (l : list nat) : filter (λ r, prio_at (ps_sched p1) r = k) l = filter (λ r, prio_at (ps_sched p) r = k) l.
    { apply list_filter_iff => r. by rw Heqp. }
    by rw -!Hf.
Qed.
End priority.
