(* ===== verification/V0Demos.v ===== *)
(** Runs of the V0 scheduler over the block manager with the naive allocator, the
    properties of [schedule] applied to them, and defects. *)
From Stdlib Require Import ssreflect ZArith Lia PrimFloat.
From stdpp Require Import base numbers list gmap strings.
From S2P Require Import Prelude SamplingParams SequenceData Sequences NaiveBlocks PrefixCaching BlockTable CpuGpu BlockManager PrefixTheorems ManagerDemos.
From S2P Require Import SchedConfig V0Types V0Sched V0Phases V0Schedule V0Frame V0Running V0Admission V0SchedTheorems V0Quiet.
From S2P Require Import V0SchedTheorems V0Order.

#[local] Instance demo_manager : BlockSpaceManager NaiveMgr := self_attn_manager demo_hash demo_pair_hash.

(** * Configurations and requests *)
Definition demo_sched_config (policy : string) (mode : option string) (chunked : bool) : SchedConfig :=
  {| cf_runner_type := "generate"; cf_max_num_batched_tokens := 16; cf_max_num_seqs := 4; cf_max_model_len := 16;
     cf_num_lookahead_slots := 0; cf_delay_factor := QArith_base.inject_Z 0; cf_chunked_prefill_enabled := chunked;
     cf_is_multimodal_model := false; cf_preemption_mode := mode; cf_num_scheduler_steps := 1; cf_send_delta_data := false;
     cf_policy := policy |}.
Definition demo_config (policy : string) (mode : option string) (chunked : bool) : V0Config :=
  {| vc_scheduler := demo_sched_config policy mode chunked;
     vc_cache := {| cc_block_size := 2; cc_num_gpu_blocks := Some 5%Z; cc_num_cpu_blocks := Some 4%Z; cc_sliding_window := None;
                    cc_enable_prefix_caching := false; cc_is_attention_free := false |};
     vc_lora := None; vc_artificial_preemption := false |}.
Definition fcfs : V0Config := demo_config "fcfs" None false.
Definition make_naive (block_size : Z) (gpu cpu window : option Z) (caching : bool) : result NaiveMgr :=
  let gpu := default 0%Z gpu in let cpu := default 0%Z cpu in
  block_manager_init (cpu_gpu_create naive_init (Z.to_nat gpu) (Z.to_nat cpu) (Z.to_nat block_size)) block_size gpu cpu 0.25%float window caching.
Definition no_scheduler (b : NaiveMgr) : V0Scheduler NaiveMgr :=
  {| vs_groups := []; vs_waiting := []; vs_running := []; vs_swapped := []; vs_finished_requests_ids := []; vs_prev_time := 0;
     vs_prev_prompt := false; vs_last_prompt_latency := 0; vs_artificial_preempt_cnt := 0; vs_num_cumulative_preemption := 0;
     vs_cache_id := 0; vs_async_stopped := []; vs_block_manager := b; vs_clock := λ n, Z.of_nat n; vs_draws := λ _, false |}.
Definition demo_request (id : Z) (rid : string) (toks : list Z) (arrival priority : Z) : SequenceGroup :=
  value group0 (s ← demo_seq id toks SEQ_WAITING; sequence_group_init rid [s] arrival None None priority None).
Definition added (groups : list SequenceGroup) (s : V0Scheduler NaiveMgr) : V0Scheduler NaiveMgr :=
  state s (mfor groups add_seq_group s).
Definition sched_0 : V0Scheduler NaiveMgr :=
  value (no_scheduler naive_0) (v0_scheduler_init fcfs make_naive 1 (λ n, Z.of_nat n) (λ _, false)).
Definition three_requests : list SequenceGroup :=
  [demo_request 1 "a" [1; 2; 3]%Z 0 2; demo_request 2 "b" [4; 5; 6]%Z 1 1; demo_request 3 "c" [7; 8; 9]%Z 2 0].
Definition sched_1 : V0Scheduler NaiveMgr := added three_requests sched_0.
(** What a pass leaves, and what it reports. *)
Definition after conf callback (s : V0Scheduler NaiveMgr) : V0Scheduler NaiveMgr := state s (v0_schedule conf callback s).
Definition queues (s : V0Scheduler NaiveMgr) : list nat * list nat * list nat := (vs_waiting s, vs_running s, vs_swapped s).
(** The model has computed the prompts and sampled two more tokens. *)
Definition grow_seq (s : Sequence) : Sequence :=
  if bool_decide (sq_status s = SEQ_RUNNING)
  then set_sq_data (set_sd_stage DECODE (set_sd_num_computed_tokens (sd_get_len (sq_data s) + 1)
         (state (sq_data s) ((sd_append_token_id 1 0%float;;; sd_append_token_id 2 0%float) (sq_data s))))) s
  else s.
Definition grown_by_two (s : V0Scheduler NaiveMgr) : V0Scheduler NaiveMgr := set_vs_groups (set_all_seqs grow_seq <$> vs_groups s) s.

(** Two of three requests start; when both need a block and one is free, the
    second is preempted. *)
Definition sched_2 : V0Scheduler NaiveMgr := after fcfs None sched_1.
Definition sched_3 : V0Scheduler NaiveMgr := grown_by_two sched_2.
Definition sched_4 : V0Scheduler NaiveMgr := after fcfs None sched_3.
Lemma demo_runs : queues sched_1 = ([0; 1; 2], [], []) ∧ queues sched_2 = ([2], [0; 1], []) ∧ queues sched_4 = ([1; 2], [0], []).
Proof. vm_compute. done. Qed.
Definition report_of (r : result (list GroupMessage * V0SchedulerOutputs * bool * V0Scheduler NaiveMgr)) : list nat * list nat * list (nat * nat) :=
  match r with
  | Ok (_, o, _, _) => (groups_of (so_scheduled_seq_groups o), so_ignored_seq_groups o, so_blocks_to_swap_out o)
  | Raise _ => ([], [], [])
  end.
Definition error_of {A} (r : result A) : option exn := match r with Ok _ => None | Raise e => Some e end.

(** * The properties of [schedule] *)
Definition demo_callback : option (string → M (V0Scheduler NaiveMgr) unit) := Some (λ _, mret tt).
Lemma demo_callback_keeps E f id : demo_callback = Some f → keeps kept E (f id).
Proof. intros [= <-]. apply keeps_ret, _. Qed.
Definition run_of {A S} (d : A * S) (r : result (A * S)) : A * S := match r with Ok x => x | Raise _ => d end.
(** A pass with a preemption loses nothing. *)
Lemma v0_schedule_conserves_witness :
  let s' := after fcfs demo_callback sched_3 in
  queues s' = ([1; 2], [0], []) ∧
  ∃ o dropped, vs_waiting s' ++ vs_running s' ++ vs_swapped s' ++ vs_async_stopped s' ++ so_ignored_seq_groups o ++ dropped ≡ₚ [2; 0; 1] ∧
    groups_of (so_scheduled_seq_groups o) ⊆+ [0].
Proof.
  intros s'. split; [vm_compute; reflexivity|]. assert (F : vs_running s' = [0]) by (vm_compute; reflexivity).
  destruct (v0_schedule fcfs demo_callback sched_3) as [[[[msgs o] a] s2]|e] eqn:Heq; [|vm_compute in Heq; discriminate Heq].
  destruct (v0_schedule_conserves fcfs demo_callback sched_3 msgs o a s2 (demo_callback_keeps any_exn) Heq) as (d & H1 & _ & _ & H4).
  assert (E : s' = s2) by (unfold s', after; rw ?Heq; reflexivity). rw E. exists o, d. split; [exact H1|].
  rw E in F. rw -F. exact H4.
Defined.
Lemma demo_manager_quiet : manager_quiet (BSM := demo_manager) no_fault.
Proof. apply (self_attn_quiet naive_allocator_quiet). Qed.
Lemma v0_schedule_terminates_witness : v0_schedule fcfs demo_callback sched_3 ≠ Raise OutOfFuel.
Proof. exact (v0_schedule_terminates fcfs demo_callback sched_3 demo_manager_quiet (demo_callback_keeps no_fault)). Defined.
Lemma v0_schedule_checks_pass_witness :
  v0_schedule fcfs demo_callback sched_3 ≠ Raise (AssertionError "not (self.blocks_to_swap_in and self.blocks_to_swap_out)").
Proof.
  apply (v0_schedule_checks_pass fcfs demo_callback sched_3 _ demo_manager_quiet (demo_callback_keeps no_fault)).
  apply (bool_decide_unpack _). vm_compute. exact I.
Defined.
Definition pass_of (s : V0Scheduler NaiveMgr) : Pass NaiveMgr := {| ps_sched := s; ps_budget := budget_init 16 4; ps_loras := None |}.
Lemma prefills_in_queue_order_witness :
  let p' := state (pass_of sched_1) (schedule_prefills fcfs false (pass_of sched_1)) in
  ∃ front : list (nat * bool), [0; 1; 2] = front.*1 ++ vs_waiting (ps_sched p') ∧ vs_waiting (ps_sched p') = [2].
Proof.
  intros p'. assert (F : vs_waiting (ps_sched p') = [2]) by (vm_compute; reflexivity).
  destruct (schedule_prefills fcfs false (pass_of sched_1)) as [[ret p2]|e] eqn:Heq; [|vm_compute in Heq; discriminate Heq].
  destruct (prefills_in_queue_order fcfs false (pass_of sched_1) ret p2 eq_refl Heq) as (front & H & _). exists front.
  assert (E : p' = p2) by (unfold p'; rw ?Heq; reflexivity). split; [rw E; exact H|exact F].
Defined.
(** The preempted group goes back in front of the one that waits. *)
Lemma v0_first_come_first_served_witness :
  let s' := after fcfs None sched_3 in
  vs_running s' = [0] ∧ vs_waiting s' = [1; 2] ∧
  ∃ o, vs_running s' ++ vs_waiting s' = filter (λ r, r ∉ so_ignored_seq_groups o) [0; 1; 2].
Proof.
  intros s'. split; [vm_compute; reflexivity|]. split; [vm_compute; reflexivity|].
  destruct (v0_schedule fcfs None sched_3) as [[[[msgs o] a] s2]|e] eqn:Heq; [|vm_compute in Heq; discriminate Heq].
  assert (E : s' = s2) by (unfold s', after; rw ?Heq; reflexivity). rw E. exists o.
  assert (R : vs_running sched_3 = [0; 1]) by (vm_compute; reflexivity). assert (W : vs_waiting sched_3 = [2]) by (vm_compute; reflexivity).
  destruct (v0_first_come_first_served fcfs sched_3 msgs o a s2) as [_ H]; [discriminate|reflexivity|discriminate|reflexivity| | | |exact Heq|].
  - vm_compute. reflexivity.
  - rw R W. apply (bool_decide_unpack _). vm_compute. exact I.
  - rw R. repeat constructor; (eexists _, _; split_and!; vm_compute; reflexivity).
  - rw R W in H. exact H.
Defined.
Definition running_and_waiting (p : Pass NaiveMgr) : list nat * list nat := (vs_running (ps_sched p), vs_waiting (ps_sched p)).
Definition by_priority : V0Config := demo_config "priority" None false.
(** Two victims make room for the most urgent request. *)
Lemma priority_preemption_sorts_witness :
  let p' := state (pass_of sched_3) (schedule_priority_preemption by_priority (pass_of sched_3)) in
  running_and_waiting p' = ([1], [2; 0]) ∧ ∃ v, sorts sched_3 [0; 1] ([1] ++ v) ∧ sorts sched_3 ([2] ++ v) [2; 0].
Proof.
  intros p'. assert (F : running_and_waiting p' = ([1], [2; 0])) by (vm_compute; reflexivity). split; [exact F|].
  destruct (schedule_priority_preemption by_priority (pass_of sched_3)) as [[n p2]|e] eqn:Heq; [|vm_compute in Heq; discriminate Heq].
  destruct (priority_preemption_sorts by_priority (pass_of sched_3) n p2 Heq) as (v & H1 & H2 & H3 & _). exists v.
  assert (E : p' = p2) by (unfold p'; rw ?Heq; reflexivity). rw E in F. injection F as E1 E2. rw E1 in H2. rw E2 in H3.
  change (ps_sched (pass_of sched_3)) with sched_3 in H2, H3.
  assert (R : vs_running sched_3 = [0; 1]) by (vm_compute; reflexivity). assert (W : vs_waiting sched_3 = [2]) by (vm_compute; reflexivity).
  rw R in H2. rw W in H3. change (take 1 [2]) with [2] in H3. change (drop 1 [2]) with (@nil nat) in H3. rw app_nil_r in H3.
  split; [exact H2|exact H3].
Defined.

(** * Defects *)

(** The victims of the priority policy may be swapped out, but they join the
    waiting queue, and their block copies are not reported; a later pass fails. *)
Definition with_cpu (n : Z) (c : V0Config) : V0Config :=
  {| vc_scheduler := vc_scheduler c; vc_lora := None; vc_artificial_preemption := false;
     vc_cache := {| cc_block_size := 2; cc_num_gpu_blocks := Some 5%Z; cc_num_cpu_blocks := Some n; cc_sliding_window := None;
                    cc_enable_prefix_caching := false; cc_is_attention_free := false |} |}.
Definition roomy_0 : V0Scheduler NaiveMgr :=
  value (no_scheduler naive_0) (v0_scheduler_init (with_cpu 10 fcfs) make_naive 1 (λ n, Z.of_nat n) (λ _, false)).
Definition statuses (s : V0Scheduler NaiveMgr) : list (list SequenceStatus) := (λ g, sq_status <$> sg_seqs g) <$> vs_groups s.
Definition priority_swap : V0Config := demo_config "priority" (Some "swap"%string) false.
Definition swap_2 : V0Scheduler NaiveMgr := grown_by_two (after priority_swap None (added three_requests roomy_0)).
Definition swap_3 : V0Scheduler NaiveMgr := after priority_swap None swap_2.
Lemma priority_victim_swapped :
  queues swap_2 = ([2], [0; 1], []) ∧ queues swap_3 = ([2; 0], [1], []) ∧
  statuses swap_3 = [[SEQ_SWAPPED]; [SEQ_RUNNING]; [SEQ_WAITING]] ∧ report_of (v0_schedule priority_swap None swap_2) = ([1], [], []) ∧
  error_of (v0_schedule priority_swap None (after priority_swap None swap_3)) =
    Some (AssertionError "Waiting sequence group should have only one prompt sequence.").
Proof. vm_compute. done. Qed.

(** A swapped group that can never come back is ignored, but keeps its blocks. *)
Definition fcfs_swap : V0Config := demo_config "fcfs" (Some "swap"%string) false.
Definition big_1 : V0Scheduler NaiveMgr :=
  grown_by_two (after fcfs_swap None (added [demo_request 1 "a" [1; 2; 3; 4; 5; 6; 7; 8]%Z 0 0] roomy_0)).
Definition big_2 : V0Scheduler NaiveMgr := grown_by_two (after fcfs_swap None big_1).
Definition big_3 : V0Scheduler NaiveMgr := after fcfs_swap None big_2.
Definition big_4 : V0Scheduler NaiveMgr := after fcfs_swap None big_3.
Lemma infeasible_group_keeps_blocks :
  queues big_2 = ([], [0], []) ∧ queues big_3 = ([], [], [0]) ∧ queues big_4 = ([], [], []) ∧
  report_of (v0_schedule fcfs_swap None big_3) = ([], [0], []) ∧ statuses big_4 = [[SEQ_FINISHED_IGNORED]] ∧
  table_ids (vs_block_manager big_4) 1 = [5; 6; 7; 8; 9].
Proof. vm_compute. done. Qed.
