(* ===== verification/V0Outputs.v ===== *)
(** The data of the V0 engine (vllm/engine/llm_engine.py): what the executor returns
    and the engine hands out (vllm/sequence.py, vllm/outputs.py), and the context of
    the engine beside its scheduler.

    The engine has one scheduler, whose state holds the groups. The asynchronous
    output processing is called from within [schedule] and works on the context,
    so the context is threaded through the scheduler as a second component of
    what it keeps as its block manager ([engine_manager]).

    Objects that an output shares with its group (metrics, lists of log
    probabilities) are recorded as they are when the output is made. *)
From Stdlib Require Import ssreflect ZArith Lia PrimFloat.
From stdpp Require Import base numbers list gmap strings.
From S2P Require Import Prelude SamplingParams Detokenizer.
From S2P Require Import SequenceData Sequences BlockTable BlockManager SchedConfig V0Types V0Sched V0Phases V0Schedule.

(** * Outputs of the model *)
Record SequenceOutput := {
  sx_parent_seq_id : Z;
  sx_output_token : Z;
  sx_logprobs : dict Z Logprob;
}.
Definition PromptLogprobs : Type := list (option (dict Z Logprob)).
Record CompletionSequenceGroupOutput := {
  cso_samples : list SequenceOutput;
  cso_prompt_logprobs : option PromptLogprobs;
}.
(** A [SamplerOutput] is used as the list of its outputs. *)
Definition SamplerOutput : Type := list CompletionSequenceGroupOutput.

Record ExecuteModelRequest := {
  ex_seq_group_metadata_list : list GroupMessage;
  ex_blocks_to_swap_in : list (nat * nat);
  ex_blocks_to_swap_out : list (nat * nat);
  ex_blocks_to_copy : list (nat * nat);
  ex_num_lookahead_slots : Z;
  ex_running_queue_size : Z;
  ex_finished_requests_ids : list string;
  ex_async_callback : bool;
}.

(** * Outputs of the engine *)
Record CompletionOutput := {
  co_index : nat;
  co_text : text;
  co_token_ids : list Z;
  co_cumulative_logprob : option float;
  co_logprobs : option (list (dict Z Logprob));
  co_finish_reason : option string;
  co_stop_reason : option StopReason;
}.
Record V0RequestOutput := {
  vo_request_id : string;
  vo_prompt : option string;
  vo_prompt_token_ids : option (list Z);
  vo_prompt_logprobs : option PromptLogprobs;
  vo_outputs : list CompletionOutput;
  vo_finished : bool;
  vo_metrics : RequestMetrics;
  vo_lora_request : option LoRARequest;
  vo_encoder_prompt : option string;
  vo_encoder_prompt_token_ids : option (list Z);
  vo_num_cached_tokens : option Z;
}.

(** * Parallel sampling

    A request for several samples is split into groups of one sequence each. The
    assembled group shares the sequence objects of these groups: of its own it
    has the other fields, and for the sequences the list of the groups that hold
    them. [Target] is a group of the scheduler, or the assembled group of the
    [k]-th parallel sample. *)
Inductive Target := Plain (r : nat) | Assembled (k : nat).
#[export] Instance Target_eq_dec : EqDecision Target.
Proof. solve_decision. Defined.
Record ParallelSample := {
  pl_group_id : string;
  pl_assembled : option (SequenceGroup * list nat);
  pl_seq_id_to_index : dict string Z;
  pl_to_be_finished : dict string Target;
  pl_finished_reqs : dict string Target;
  pl_streaming : bool;
  pl_output_produced : bool;
}.
Definition set_pl_assembled (v : option (SequenceGroup * list nat)) (r : ParallelSample) : ParallelSample :=
  {| pl_group_id := pl_group_id r; pl_assembled := v; pl_seq_id_to_index := pl_seq_id_to_index r; pl_to_be_finished := pl_to_be_finished r; pl_finished_reqs := pl_finished_reqs r; pl_streaming := pl_streaming r; pl_output_produced := pl_output_produced r |}.
Definition set_pl_seq_id_to_index (v : dict string Z) (r : ParallelSample) : ParallelSample :=
  {| pl_group_id := pl_group_id r; pl_assembled := pl_assembled r; pl_seq_id_to_index := v; pl_to_be_finished := pl_to_be_finished r; pl_finished_reqs := pl_finished_reqs r; pl_streaming := pl_streaming r; pl_output_produced := pl_output_produced r |}.
Definition set_pl_to_be_finished (v : dict string Target) (r : ParallelSample) : ParallelSample :=
  {| pl_group_id := pl_group_id r; pl_assembled := pl_assembled r; pl_seq_id_to_index := pl_seq_id_to_index r; pl_to_be_finished := v; pl_finished_reqs := pl_finished_reqs r; pl_streaming := pl_streaming r; pl_output_produced := pl_output_produced r |}.
Definition set_pl_finished_reqs (v : dict string Target) (r : ParallelSample) : ParallelSample :=
  {| pl_group_id := pl_group_id r; pl_assembled := pl_assembled r; pl_seq_id_to_index := pl_seq_id_to_index r; pl_to_be_finished := pl_to_be_finished r; pl_finished_reqs := v; pl_streaming := pl_streaming r; pl_output_produced := pl_output_produced r |}.
Definition set_pl_streaming (v : bool) (r : ParallelSample) : ParallelSample :=
  {| pl_group_id := pl_group_id r; pl_assembled := pl_assembled r; pl_seq_id_to_index := pl_seq_id_to_index r; pl_to_be_finished := pl_to_be_finished r; pl_finished_reqs := pl_finished_reqs r; pl_streaming := v; pl_output_produced := pl_output_produced r |}.
Definition set_pl_output_produced (v : bool) (r : ParallelSample) : ParallelSample :=
  {| pl_group_id := pl_group_id r; pl_assembled := pl_assembled r; pl_seq_id_to_index := pl_seq_id_to_index r; pl_to_be_finished := pl_to_be_finished r; pl_finished_reqs := pl_finished_reqs r; pl_streaming := pl_streaming r; pl_output_produced := v |}.

(** * The context *)
(** What the messages say of a group. *)
Definition msg_request_id (m : GroupMessage) : string :=
  match m with FullMetadata m => gm_request_id m | DeltaMetadata d => gd_request_id d end.
Definition msg_do_sample (m : GroupMessage) : bool :=
  match m with FullMetadata m => gm_do_sample m | DeltaMetadata d => gd_do_sample d end.
Definition msg_is_prompt (m : GroupMessage) : bool :=
  match m with FullMetadata m => gm_is_prompt m | DeltaMetadata d => gd_is_prompt d end.
Definition msg_token_chunk_size (m : GroupMessage) : option Z :=
  match m with FullMetadata m => gm_token_chunk_size m | DeltaMetadata d => gd_token_chunk_size d end.
Record OutputData := {
  od_outputs : list SamplerOutput;
  od_seq_group_metadata_list : list GroupMessage;
  od_scheduler_outputs : V0SchedulerOutputs;
  od_is_async : bool;
  od_is_last_step : bool;
  od_is_first_step_output : option bool;
  od_skip : list nat;
}.
Definition set_od_skip (v : list nat) (r : OutputData) : OutputData :=
  {| od_outputs := od_outputs r; od_seq_group_metadata_list := od_seq_group_metadata_list r; od_scheduler_outputs := od_scheduler_outputs r; od_is_async := od_is_async r; od_is_last_step := od_is_last_step r; od_is_first_step_output := od_is_first_step_output r; od_skip := v |}.
(** [SchedulerOutputState]; [last_output] is only used with pipelines. *)
Record SchedulerOutputState := {
  st_seq_group_metadata_list : option (list GroupMessage);
  st_scheduler_outputs : option V0SchedulerOutputs;
  st_allow_async_output_proc : bool;
}.
Definition no_cached_outputs : SchedulerOutputState :=
  {| st_seq_group_metadata_list := None; st_scheduler_outputs := None; st_allow_async_output_proc := false |}.
(** [prompt_logprobs] of the groups is kept here, by group; a group without an entry
    has [None]. [seq_id_to_seq_group] refers to the objects in [samples]. The
    executor is a stream of answers: how often it calls back, and what it returns. *)
Record V0Ctx := {
  cx_output_queue : list OutputData;
  cx_request_outputs : list V0RequestOutput;
  cx_seq_group_metadata_list : option (list GroupMessage);
  cx_scheduler_outputs : option V0SchedulerOutputs;
  cx_seq_counter : Z;
  cx_seq_id_to_seq_group : dict string nat;
  cx_samples : list ParallelSample;
  cx_prompt_logprobs : dict nat PromptLogprobs;
  cx_cached : SchedulerOutputState;
  cx_executed : list ExecuteModelRequest;
  cx_executor : nat → nat * list SamplerOutput;
}.
Definition set_cx_output_queue (v : list OutputData) (r : V0Ctx) : V0Ctx :=
  {| cx_output_queue := v; cx_request_outputs := cx_request_outputs r; cx_seq_group_metadata_list := cx_seq_group_metadata_list r; cx_scheduler_outputs := cx_scheduler_outputs r; cx_seq_counter := cx_seq_counter r; cx_seq_id_to_seq_group := cx_seq_id_to_seq_group r; cx_samples := cx_samples r; cx_prompt_logprobs := cx_prompt_logprobs r; cx_cached := cx_cached r; cx_executed := cx_executed r; cx_executor := cx_executor r |}.
Definition set_cx_request_outputs (v : list V0RequestOutput) (r : V0Ctx) : V0Ctx :=
  {| cx_output_queue := cx_output_queue r; cx_request_outputs := v; cx_seq_group_metadata_list := cx_seq_group_metadata_list r; cx_scheduler_outputs := cx_scheduler_outputs r; cx_seq_counter := cx_seq_counter r; cx_seq_id_to_seq_group := cx_seq_id_to_seq_group r; cx_samples := cx_samples r; cx_prompt_logprobs := cx_prompt_logprobs r; cx_cached := cx_cached r; cx_executed := cx_executed r; cx_executor := cx_executor r |}.
Definition set_cx_seq_group_metadata_list (v : option (list GroupMessage)) (r : V0Ctx) : V0Ctx :=
  {| cx_output_queue := cx_output_queue r; cx_request_outputs := cx_request_outputs r; cx_seq_group_metadata_list := v; cx_scheduler_outputs := cx_scheduler_outputs r; cx_seq_counter := cx_seq_counter r; cx_seq_id_to_seq_group := cx_seq_id_to_seq_group r; cx_samples := cx_samples r; cx_prompt_logprobs := cx_prompt_logprobs r; cx_cached := cx_cached r; cx_executed := cx_executed r; cx_executor := cx_executor r |}.
Definition set_cx_scheduler_outputs (v : option V0SchedulerOutputs) (r : V0Ctx) : V0Ctx :=
  {| cx_output_queue := cx_output_queue r; cx_request_outputs := cx_request_outputs r; cx_seq_group_metadata_list := cx_seq_group_metadata_list r; cx_scheduler_outputs := v; cx_seq_counter := cx_seq_counter r; cx_seq_id_to_seq_group := cx_seq_id_to_seq_group r; cx_samples := cx_samples r; cx_prompt_logprobs := cx_prompt_logprobs r; cx_cached := cx_cached r; cx_executed := cx_executed r; cx_executor := cx_executor r |}.
Definition set_cx_seq_counter (v : Z) (r : V0Ctx) : V0Ctx :=
  {| cx_output_queue := cx_output_queue r; cx_request_outputs := cx_request_outputs r; cx_seq_group_metadata_list := cx_seq_group_metadata_list r; cx_scheduler_outputs := cx_scheduler_outputs r; cx_seq_counter := v; cx_seq_id_to_seq_group := cx_seq_id_to_seq_group r; cx_samples := cx_samples r; cx_prompt_logprobs := cx_prompt_logprobs r; cx_cached := cx_cached r; cx_executed := cx_executed r; cx_executor := cx_executor r |}.
Definition set_cx_seq_id_to_seq_group (v : dict string nat) (r : V0Ctx) : V0Ctx :=
  {| cx_output_queue := cx_output_queue r; cx_request_outputs := cx_request_outputs r; cx_seq_group_metadata_list := cx_seq_group_metadata_list r; cx_scheduler_outputs := cx_scheduler_outputs r; cx_seq_counter := cx_seq_counter r; cx_seq_id_to_seq_group := v; cx_samples := cx_samples r; cx_prompt_logprobs := cx_prompt_logprobs r; cx_cached := cx_cached r; cx_executed := cx_executed r; cx_executor := cx_executor r |}.
Definition set_cx_samples (v : list ParallelSample) (r : V0Ctx) : V0Ctx :=
  {| cx_output_queue := cx_output_queue r; cx_request_outputs := cx_request_outputs r; cx_seq_group_metadata_list := cx_seq_group_metadata_list r; cx_scheduler_outputs := cx_scheduler_outputs r; cx_seq_counter := cx_seq_counter r; cx_seq_id_to_seq_group := cx_seq_id_to_seq_group r; cx_samples := v; cx_prompt_logprobs := cx_prompt_logprobs r; cx_cached := cx_cached r; cx_executed := cx_executed r; cx_executor := cx_executor r |}.
Definition set_cx_prompt_logprobs (v : dict nat PromptLogprobs) (r : V0Ctx) : V0Ctx :=
  {| cx_output_queue := cx_output_queue r; cx_request_outputs := cx_request_outputs r; cx_seq_group_metadata_list := cx_seq_group_metadata_list r; cx_scheduler_outputs := cx_scheduler_outputs r; cx_seq_counter := cx_seq_counter r; cx_seq_id_to_seq_group := cx_seq_id_to_seq_group r; cx_samples := cx_samples r; cx_prompt_logprobs := v; cx_cached := cx_cached r; cx_executed := cx_executed r; cx_executor := cx_executor r |}.
Definition set_cx_cached (v : SchedulerOutputState) (r : V0Ctx) : V0Ctx :=
  {| cx_output_queue := cx_output_queue r; cx_request_outputs := cx_request_outputs r; cx_seq_group_metadata_list := cx_seq_group_metadata_list r; cx_scheduler_outputs := cx_scheduler_outputs r; cx_seq_counter := cx_seq_counter r; cx_seq_id_to_seq_group := cx_seq_id_to_seq_group r; cx_samples := cx_samples r; cx_prompt_logprobs := cx_prompt_logprobs r; cx_cached := v; cx_executed := cx_executed r; cx_executor := cx_executor r |}.
Definition set_cx_executed (v : list ExecuteModelRequest) (r : V0Ctx) : V0Ctx :=
  {| cx_output_queue := cx_output_queue r; cx_request_outputs := cx_request_outputs r; cx_seq_group_metadata_list := cx_seq_group_metadata_list r; cx_scheduler_outputs := cx_scheduler_outputs r; cx_seq_counter := cx_seq_counter r; cx_seq_id_to_seq_group := cx_seq_id_to_seq_group r; cx_samples := cx_samples r; cx_prompt_logprobs := cx_prompt_logprobs r; cx_cached := cx_cached r; cx_executed := v; cx_executor := cx_executor r |}.
Definition set_cx_executor (v : nat → nat * list SamplerOutput) (r : V0Ctx) : V0Ctx :=
  {| cx_output_queue := cx_output_queue r; cx_request_outputs := cx_request_outputs r; cx_seq_group_metadata_list := cx_seq_group_metadata_list r; cx_scheduler_outputs := cx_scheduler_outputs r; cx_seq_counter := cx_seq_counter r; cx_seq_id_to_seq_group := cx_seq_id_to_seq_group r; cx_samples := cx_samples r; cx_prompt_logprobs := cx_prompt_logprobs r; cx_cached := cx_cached r; cx_executed := cx_executed r; cx_executor := v |}.
Definition ctx_init (executor : nat → nat * list SamplerOutput) : V0Ctx :=
  {| cx_output_queue := []; cx_request_outputs := []; cx_seq_group_metadata_list := None; cx_scheduler_outputs := None;
     cx_seq_counter := 0; cx_seq_id_to_seq_group := []; cx_samples := []; cx_prompt_logprobs := []; cx_cached := no_cached_outputs;
     cx_executed := []; cx_executor := executor |}.

(** * The scheduler of the engine *)
Section lift.
Context {B : Type} `{BSM : BlockSpaceManager B}.
Definition lift_manager {A} (m : M B A) : M (B * V0Ctx) A := zoom fst (λ b x, (b, x.2)) m.
#[export] Instance engine_manager : BlockSpaceManager (B * V0Ctx) := {|
  bsm_can_allocate g n := lift_manager (bsm_can_allocate g n);
  bsm_allocate g := lift_manager (bsm_allocate g);
  bsm_can_append_slots g n := lift_manager (bsm_can_append_slots g n);
  bsm_append_slots s n := lift_manager (bsm_append_slots s n);
  bsm_fork s t := lift_manager (bsm_fork s t);
  bsm_can_swap_in g n := lift_manager (bsm_can_swap_in g n);
  bsm_swap_in g := lift_manager (bsm_swap_in g);
  bsm_can_swap_out g := lift_manager (bsm_can_swap_out g);
  bsm_swap_out g := lift_manager (bsm_swap_out g);
  bsm_free s := lift_manager (bsm_free s);
  bsm_free_cross g := lift_manager (bsm_free_cross g);
  bsm_get_block_table s := lift_manager (bsm_get_block_table s);
  bsm_get_cross_block_table g := lift_manager (bsm_get_cross_block_table g);
  bsm_get_num_free_gpu_blocks x := bsm_get_num_free_gpu_blocks x.1;
  bsm_get_num_free_cpu_blocks x := bsm_get_num_free_cpu_blocks x.1;
  bsm_access_all_blocks_in_seq s t := lift_manager (bsm_access_all_blocks_in_seq s t);
  bsm_get_common_computed_block_ids l := lift_manager (bsm_get_common_computed_block_ids l);
  bsm_mark_blocks_as_computed g n := lift_manager (bsm_mark_blocks_as_computed g n);
  bsm_get_num_cached_tokens s := lift_manager (bsm_get_num_cached_tokens s);
|}.
Definition set_ctx (c : V0Ctx) (s : V0Scheduler (B * V0Ctx)) : V0Scheduler (B * V0Ctx) :=
  set_vs_block_manager ((vs_block_manager s).1, c) s.
Definition ctx_of (s : V0Scheduler (B * V0Ctx)) : V0Ctx := (vs_block_manager s).2.
Definition on_ctx {A} (m : M V0Ctx A) : M (V0Scheduler (B * V0Ctx)) A := zoom ctx_of set_ctx m.
End lift.

(** * Outputs

    Parallel sampling ([SequenceGroupBase] and [ParallelSampleSequenceGroup] of
    vllm/sequence.py) and the outputs of the V0 engine ([RequestOutput] of
    vllm/outputs.py).

    The assembled group of a parallel sample is put together from the sequences of
    its groups for every access, and the sequences are written back to them, since
    they are the same objects. [first_seq] of an assembled group that was cut to
    its best samples stays the first of all; here it is the best one. Both are
    finished then, and have the same prompt. *)

(** A method of the [i]-th sequence of a group. *)
Definition on_nth_seq {A} (i : nat) (m : SQ A) : SG A :=
  s ← group_seq i;
  '(a, s) ← mlift (m s);
  mmodify (λ g, set_sg_seqs (<[i := s]> (sg_seqs g)) g);;;
  mret a.

Section outputs.
Context {B : Type} `{BSM : BlockSpaceManager B}.
Abbreviation VS := (M (V0Scheduler (B * V0Ctx))).

(** * Targets *)
Definition the_sample (k : nat) : VS ParallelSample :=
  c ← mgets ctx_of; match cx_samples c !! k with Some p => mret p | None => mraise (KeyError "sample") end.
Definition upd_sample (k : nat) (f : ParallelSample → ParallelSample) : VS unit :=
  on_ctx (mmodify (λ c, set_cx_samples (alter f k (cx_samples c)) c)).
Definition the_assembled (k : nat) : VS (SequenceGroup * list nat) :=
  p ← the_sample k;
  match pl_assembled p with
  | Some x => mret x
  | None => mraise (AttributeError "'NoneType' object has no attribute 'is_finished'")
  end.
Definition sample_seqs (refs : list nat) : VS (list Sequence) :=
  mfold refs [] (λ l r, s ← on_group r first_seq; mret (l ++ [s])).
Definition on_assembled {A} (k : nat) (m : SG A) : VS A :=
  '(g, refs) ← the_assembled k;
  seqs ← sample_seqs refs;
  '(a, g) ← mlift (m (set_sg_seqs seqs g));
  upd_sample k (set_pl_assembled (Some (set_sg_seqs [] g, refs)));;;
  mfor (zip refs (sg_seqs g)) (λ '(r, s), upd_seq r 0 (λ _, s));;;
  mret a.
Definition on_target {A} (t : Target) (m : SG A) : VS A :=
  match t with Plain r => on_group r m | Assembled k => on_assembled k m end.
Definition target_request_id (t : Target) : VS string := on_target t (mgets sg_request_id).

(** * [ParallelSampleSequenceGroup] *)
Definition finish_seq (k : nat) (t : Target) : VS unit :=
  id ← target_request_id t;
  p ← the_sample k;
  match dget (pl_to_be_finished p) id with
  | None => mraise (KeyError "to_be_finished")
  | Some _ =>
    upd_sample k (λ p, set_pl_to_be_finished (ddel (pl_to_be_finished p) id) p);;;
    upd_sample k (λ p, set_pl_finished_reqs (dset (pl_finished_reqs p) id t) p)
  end.
(** The best [_real_n] samples, by cumulative log probability. *)
Definition cut_to_best (k : nat) (params : SamplingParams) (g : SequenceGroup) (refs : list nat) : VS unit :=
  match sp_real_n params with
  | None => mret tt
  | Some real_n =>
    let n := if (real_n =? 0)%Z then sp_n params else real_n in
    seqs ← sample_seqs refs;
    let keyed := zip ((λ s, sd_cumulative_logprob (sq_data s)) <$> seqs) refs in
    let sorted_seqs := snd <$> py_sorted (λ a b, PrimFloat.ltb b.1 a.1) keyed in
    upd_sample k (set_pl_assembled (Some (g, slice sorted_seqs 0 n)))
  end.
Definition maybe_assemble_group (k : nat) (t : Target) : VS (option Target) :=
  p ← the_sample k;
  if pl_streaming p then
    id ← target_request_id t;
    match dget (pl_seq_id_to_index p) id with
    | None => mraise (KeyError "seq_id_to_index")
    | Some i => mret (if (i =? 0)%Z && bool_decide (is_Some (pl_assembled p)) then Some (Assembled k) else None)
    end
  else if negb (length (pl_to_be_finished p) =? 0) then mret None
  else
    match pl_assembled p with
    | None => mraise (AssertionError "self.assembled_seq_group is not None")
    | Some (g, refs) =>
      match sg_sampling_params g with
      | None => mraise (AssertionError "isinstance(params, SamplingParams)")
      | Some params =>
        if pl_output_produced p then mret None
        else
          upd_sample k (set_pl_output_produced true);;;
          cut_to_best k params g refs;;;
          mret (Some (Assembled k))
      end
    end.

(** * [RequestOutput.from_seq_group] *)
(** The output of one sequence; whether it is one of the first outputs of the
    sequence, which go with the prompt. *)
Definition completion_output (p : SamplingParams) (i : nat) : SQ (CompletionOutput * bool) :=
  let include_logprobs := bool_decide (is_Some (sp_logprobs p)) in
  let delta := bool_decide (output_kind p = DELTA) in
  output_text ← get_output_text_to_return (output_text_buffer_length p) delta;
  output_token_ids ← get_output_token_ids_to_return delta;
  s ← mget;
  let token_ids := match output_token_ids with OneToken id => [id] | ManyTokens ids => ids end in
  let num_output_tokens := Z.of_nat (length token_ids) in
  let output_logprobs := if include_logprobs then Some (sq_output_logprobs s) else None in
  let output_logprobs :=
    if delta then (λ l, slice l (- num_output_tokens) (Z.of_nat (length l))) <$> output_logprobs else output_logprobs in
  mret ({| co_index := i; co_text := output_text; co_token_ids := token_ids;
           co_cumulative_logprob := if include_logprobs then Some (sd_cumulative_logprob (sq_data s)) else None;
           co_logprobs := output_logprobs; co_finish_reason := seq_get_finished_reason (sq_status s);
           co_stop_reason := sq_stop_reason s |},
        negb (delta && (num_output_tokens <? sd_get_output_len (sq_data s))%Z)).
(** The outputs, whether to include the prompt, and the number of cached tokens. *)
Definition group_outputs (p : SamplingParams) : SG (list CompletionOutput * bool * option Z) :=
  g ← mget;
  mfold (seq 0 (length (sg_seqs g))) ([], true, None : option Z) (λ '(outputs, include_prompt, _) i,
    '(output, first) ← on_nth_seq i (completion_output p i);
    s ← group_seq i;
    mret (outputs ++ [output], include_prompt && first, Some (sd_num_cached_tokens (sq_data s)))).
Definition prompt_logprobs_of (t : Target) : VS (option PromptLogprobs) :=
  c ← mgets ctx_of;
  mret (match t with Plain r => dget (cx_prompt_logprobs c) r | Assembled _ => None end).
(** [x if b else None], for an [x] that may be [None] *)
Definition only_if {A} (b : bool) (o : option A) : option A := if b then o else None.
(** What is left when the group is not one of several samples. *)
Definition own_output (t : Target) (finished : bool) : VS (option V0RequestOutput) :=
  params ← on_target t (mgets sg_sampling_params);
  match params with
  | None => mraise (ValueError "Sampling parameters are missing for a CompletionRequest.")
  | Some p =>
    if bool_decide (output_kind p = FINAL_ONLY) && negb finished then mret None
    else
      '(outputs, include_prompt, num_cached_tokens) ← on_target t (group_outputs p);
      s ← on_target t first_seq;
      logprobs ← prompt_logprobs_of t;
      finished_time ← (if finished then t ← v0_time; mret (Some t) else mret None);
      on_target t (set_finished_time finished_time);;;
      g ← on_target t mget;
      mret (Some {|
        vo_request_id := sg_request_id g; vo_prompt := only_if include_prompt (sq_prompt s);
        vo_prompt_token_ids := only_if include_prompt (Some (sq_prompt_token_ids s)); vo_prompt_logprobs := only_if include_prompt logprobs;
        vo_outputs := outputs; vo_finished := finished; vo_metrics := sg_metrics g; vo_lora_request := sg_lora_request g;
        vo_encoder_prompt := only_if include_prompt (sg_encoder_seq g ≫= sq_prompt);
        vo_encoder_prompt_token_ids := only_if include_prompt (sq_prompt_token_ids <$> sg_encoder_seq g);
        vo_num_cached_tokens := num_cached_tokens |})
  end.
(** A group that is one of several samples hands over to the assembled group, whose
    id is shorter. *)
Fixpoint from_seq_group (fuel : nat) (t : Target) : VS (option V0RequestOutput) :=
  match fuel with
  | 0 => mraise OutOfFuel
  | S fuel =>
    finished ← on_target t group_is_finished;
    id ← target_request_id t;
    c ← mgets ctx_of;
    match dget (cx_seq_id_to_seq_group c) id with
    | Some k =>
      mwhen finished (finish_seq k t);;;
      assembled ← maybe_assemble_group k t;
      match assembled with
      | None => mret None
      | Some t => from_seq_group fuel t
      end
    | None => own_output t finished
    end
  end.
(** [RequestOutputFactory.create] of a group of the scheduler, and the output
    appended to those of the context *)
Definition create_request_output (r : nat) : VS unit :=
  id ← request_id_of r;
  o ← from_seq_group (S (String.length id)) (Plain r);
  match o with
  | None => mret tt
  | Some o => on_ctx (mmodify (λ c, set_cx_request_outputs (cx_request_outputs c ++ [o]) c))
  end.
End outputs.
