(* ===== verification/V0Engine.v ===== *)
(** The V0 engine (vllm/engine/llm_engine.py) and, before it, its output processors
    (vllm/engine/output_processor: single_step.py, multi_step.py, util.py) and the
    configuration of both.

    The tokenizer of a sequence is the parameter [ec_get_tokenizer], [None] when
    the engine runs without tokenizers; [ec_tokenizer_eos] is the id that the
    tokenizer of the sequence gives to the end of a sequence. *)
From Stdlib Require Import ssreflect ZArith Lia.
From stdpp Require Import base numbers list gmap strings.
From S2P Require Import Prelude SamplingParams KVCacheBlock Request FreeQueue BlockHash KVCacheManager EncoderCache Scheduler LRUCache MMInputMapper Detokenizer Processor.
From S2P Require Import SequenceData Sequences BlockTable BlockManager SchedConfig V0Types V0Sched V0Phases V0Schedule V0Outputs.

Record EngineConf := {
  ec_sched : V0Config;
  ec_use_async_output_proc : bool;
  ec_multi_step_stream_outputs : bool;
  ec_speculative_config : bool;
  ec_pipeline_parallel_size : Z;
  ec_max_logprobs : Z;
  ec_max_model_len : Z;
  ec_is_multimodal_model : bool;
  ec_generation_config_eos : option EosArg;
  ec_eos_token_id : option LoRARequest → option Z;
  ec_get_tokenizer : option (Sequence → Tokenizer);
  ec_tokenizer_eos : Sequence → option Z;
}.

(** * util.py *)
(** From [step][group] to [group][step]. *)
Definition append_output_at (acc : list (list CompletionSequenceGroupOutput)) (io : nat * CompletionSequenceGroupOutput)
    : result (list (list CompletionSequenceGroupOutput)) :=
  match acc !! io.1 with
  | Some l => Ok (<[io.1 := l ++ [io.2]]> acc)
  | None => Raise (IndexError "list index out of range")
  end.
Definition create_output_by_sequence_group (outputs : list SamplerOutput) (num_seq_groups : nat)
    : result (list (list CompletionSequenceGroupOutput)) :=
  fold_result (λ acc step, fold_result append_output_at (imap pair step) acc) outputs (replicate num_seq_groups []).

Section sequences.
Context (c : EngineConf).
(** [StopChecker] is built with the length of the scheduler's configuration. *)
Definition stop_len : Z := cf_max_model_len (vc_scheduler (ec_sched c)).

(** * What happens to a sequence *)
(** Single step: the token is already appended if the processing is asynchronous. *)
Definition single_step_seq (o : SequenceOutput) (p : SamplingParams) (lora : option LoRARequest) (is_async : bool) : SQ unit :=
  mwhen (negb is_async) (seq_append_token_id (sx_output_token o) (sx_logprobs o));;;
  new_char_count ← match ec_get_tokenizer c with
    | Some get => if detokenize p then s ← mget; decode_sequence_inplace (get s) p else mret 0%Z
    | None => mret 0%Z
    end;
  maybe_stop_sequence stop_len new_char_count p lora.
(** [_process_decode_and_stop] *)
Definition process_decode_and_stop (p : SamplingParams) : SQ unit :=
  new_char_count ← (if detokenize p then
      match ec_get_tokenizer c with
      | Some get => s ← mget; decode_sequence_inplace (get s) p
      | None => mraise (AttributeError "'NoneType' object has no attribute 'decode_sequence_inplace'")
      end
    else mret 0%Z);
  maybe_stop_sequence stop_len new_char_count p None.
(** Up to the first end of sequence, inclusive. *)
Fixpoint cut_after (eos : option Z) (ids : list Z) : list Z :=
  match ids with [] => [] | x :: ids => if bool_decide (Some x = eos) then [x] else x :: cut_after eos ids end.
Fixpoint append_samples (p : SamplingParams) (l : list (Z * dict Z Logprob)) (is_prefill_sampled_token : bool) : SQ unit :=
  match l with
  | [] => mret tt
  | (output_token_id, output_logprob) :: l =>
    seq_append_token_id output_token_id output_logprob;;;
    mwhen (negb is_prefill_sampled_token) (on_data (sd_update_num_computed_tokens 1));;;
    process_decode_and_stop p;;;
    s ← mget;
    if seq_is_finished s then mret tt else append_samples p l false
  end.
(** [_process_seq_outputs] *)
Definition process_seq_outputs (valid_samples : list SequenceOutput) (p : SamplingParams) : SQ unit :=
  s ← mget;
  let output_token_ids := sx_output_token <$> valid_samples in
  match sp_max_tokens p with
  | None => mraise (TypeError "unsupported operand type(s) for -: 'NoneType' and 'int'")
  | Some max_tokens =>
    let remaining_tokens := (max_tokens - (sd_get_output_len (sq_data s) + Z.of_nat (length output_token_ids)))%Z in
    let output_token_ids := if (remaining_tokens <? 0)%Z then slice output_token_ids 0 remaining_tokens else output_token_ids in
    output_token_ids ←
      (if ignore_eos p then mret output_token_ids
       else
         match ec_get_tokenizer c with
         | None => mraise (AssertionError "tokenizer_group cannot be None, make sure skip_tokenizer_init is False")
         | Some _ => mret (cut_after (ec_tokenizer_eos c s) output_token_ids)
         end);
    append_samples p (zip output_token_ids (sx_logprobs <$> valid_samples)) (sd_get_num_uncomputed_tokens (sq_data s) =? 0)%Z
  end.
End sequences.

(** * The processors *)
Section processors.
Context {B : Type} `{BSM : BlockSpaceManager B} (c : EngineConf).
Abbreviation VS := (M (V0Scheduler (B * V0Ctx))).
Abbreviation sc := (vc_scheduler (ec_sched c)).

Definition params_of (r : nat) : VS SamplingParams :=
  g ← the_group r;
  match sg_sampling_params g with
  | Some p => mret p
  | None => mraise (AttributeError "'NoneType' object has no attribute 'detokenize'")
  end.
Definition first_sample (o : CompletionSequenceGroupOutput) : result SequenceOutput :=
  match cso_samples o with x :: _ => Ok x | [] => Raise (IndexError "list index out of range") end.

(** [single_step_process_prompt_logprob] *)
Definition single_step_process_prompt_logprob (r : nat) (output : CompletionSequenceGroupOutput) : VS unit :=
  match cso_prompt_logprobs output with
  | None => mret tt
  | Some new =>
    x ← mgets ctx_of;
    let old := default [] (dget (cx_prompt_logprobs x) r) in
    let new := match old with [] => None :: new | _ => new end in
    on_ctx (mmodify (λ x, set_cx_prompt_logprobs (dset (cx_prompt_logprobs x) r old) x));;;
    p ← params_of r;
    new ← match ec_get_tokenizer c with
      | Some get =>
        if detokenize p
        then on_group r (s ← first_seq; decode_prompt_logprobs_inplace (get s) new (length old))
        else mret new
      | None => mret new
      end;
    on_ctx (mmodify (λ x, set_cx_prompt_logprobs (dset (cx_prompt_logprobs x) r (old ++ new)) x))
  end.
Definition single_step_process_outputs (r : nat) (outputs : list CompletionSequenceGroupOutput) (is_async : bool) : VS unit :=
  match outputs with
  | [output] =>
    sample ← mlift (first_sample output);
    g ← the_group r;
    p ← params_of r;
    on_group r (on_first (single_step_seq c sample p (sg_lora_request g) is_async));;;
    s ← on_group r first_seq;
    mwhen (seq_is_finished s) (free_seq s)
  | _ => mraise (AssertionError "does not support multiple outputs per step")
  end.
Definition multi_step_process_outputs (r : nat) (outputs : list CompletionSequenceGroupOutput) (is_async : bool) : VS unit :=
  seqs ← on_group r (get_seqs (Some SEQ_RUNNING));
  match seqs with
  | [] => mraise (AssertionError "Expected RUNNING or FINISHED_ABORTED sequences")
  | [s] =>
    samples ← mlift (map_result first_sample outputs);
    massert (forallb (λ o, (sq_seq_id s =? sx_parent_seq_id o)%Z) samples) "seq_id == output.samples[0].parent_seq_id";;;
    p ← params_of r;
    if is_async then on_group r (on_first (process_decode_and_stop c p))
    else
      let valid_samples := filter (λ o, sx_output_token o ≠ INVALID_TOKEN_ID) samples in
      mwhen (negb (length valid_samples =? 0)) (on_group r (on_first (process_seq_outputs c valid_samples p)))
  | _ => mraise (AssertionError "Beam search not supported in multi-step decoding.")
  end.
(** [create_output_processor] chooses by the number of lookahead slots. *)
Definition single_step_processor : bool := (cf_num_lookahead_slots sc =? 0)%Z.
Definition process_prompt_logprob (r : nat) (outputs : list CompletionSequenceGroupOutput) : VS unit :=
  mwhen single_step_processor (massert (length outputs =? 1) "Single step should only has 1 output.");;;
  mfor outputs (single_step_process_prompt_logprob r).
Definition process_outputs (r : nat) (outputs : list CompletionSequenceGroupOutput) (is_async : bool) : VS unit :=
  if single_step_processor then single_step_process_outputs r outputs is_async
  else multi_step_process_outputs r outputs is_async.
End processors.

(** * [LLMEngine]

    Class [LLMEngine] of vllm/engine/llm_engine.py: requests, the
    processing of the model's outputs, and [step].

    Statistics, tracing, forward times, pooling models, guided decoding and logits
    processors are left out; [process_request_outputs_callback] is [None], as it is
    but for the asynchronous engine, and outputs are not cached. The state of a
    group in a message is the group's own object: it is read and advanced there. A
    delta has a state of its own that nothing changes. *)

Section engine.
Context {B : Type} `{BSM : BlockSpaceManager B} (c : EngineConf).
Abbreviation Engine := (V0Scheduler (B * V0Ctx)).
Abbreviation VS := (M (V0Scheduler (B * V0Ctx))).
Abbreviation sc := (vc_scheduler (ec_sched c)).

(** * [_process_model_outputs] *)
Definition update_for_multi_step_prefill (r : nat) (m : GroupMessage) (is_first_step_output : option bool) : VS unit :=
  massert (is_multi_step sc) "self.scheduler_config.is_multi_step";;;
  if negb (msg_is_prompt m) then mret tt
  else
    do_update ← (if cf_chunked_prefill_enabled sc then mret (default true is_first_step_output)
                 else g ← the_group r; massert (num_steps (sg_state g) =? 1)%Z "seq_group.state.num_steps == 1";;; mret true);
    mwhen do_update
      (match msg_token_chunk_size m with
       | Some n => on_group r (group_update_num_computed_tokens n)
       | None => mraise (TypeError "unsupported operand type(s) for +=: 'int' and 'NoneType'")
       end).
Definition message_at (d : OutputData) (i : nat) : VS GroupMessage :=
  match od_seq_group_metadata_list d !! i with Some m => mret m | None => mraise (IndexError "list index out of range") end.
Definition scheduled_at (d : OutputData) (i : nat) : VS nat :=
  match so_scheduled_seq_groups (od_scheduler_outputs d) !! i with
  | Some x => mret (ssg_seq_group x)
  | None => mraise (IndexError "list index out of range")
  end.
Definition has_multiple_outputs (d : OutputData) : bool := 1 <? length (od_outputs d).
(** The outputs for the [i]-th group, one per step. *)
Definition outputs_at (d : OutputData) (by_group : list (list CompletionSequenceGroupOutput)) (i : nat)
    : result (list CompletionSequenceGroupOutput) :=
  if has_multiple_outputs d
  then match by_group !! i with Some l => Ok l | None => Raise (IndexError "list index out of range") end
  else
    match od_outputs d with
    | step :: _ => match step !! i with Some o => Ok [o] | None => Raise (IndexError "list index out of range") end
    | [] => Raise (IndexError "list index out of range")
    end.
(** One turn of the loop over the groups: the indices of those that were finished
    before, and of those that finish now. *)
Definition process_index (d : OutputData) (by_group : list (list CompletionSequenceGroupOutput)) (acc : list nat * list nat) (i : nat)
    : VS (list nat * list nat) :=
  let '(finished_before, finished_now) := acc in
  if bool_decide (i ∈ od_skip d) then mret acc
  else
    m ← message_at d i;
    r ← scheduled_at d i;
    f ← on_group r group_is_finished;
    if (f : bool) then mret (finished_before ++ [i], finished_now)
    else
      output ← mlift (outputs_at d by_group i);
      mwhen (negb (od_is_async d))
        (if is_multi_step sc
         then update_for_multi_step_prefill r m (if has_multiple_outputs d then None else od_is_first_step_output d)
         else on_group r (group_update_num_computed_tokens (default 0%Z (msg_token_chunk_size m))));;;
      process_prompt_logprob c r output;;;
      mwhen (msg_do_sample m) (process_outputs c r output (od_is_async d));;;
      f ← on_group r group_is_finished;
      mret (finished_before, if (f : bool) then finished_now ++ [i] else finished_now).
Definition output_for (now : Z) (d : OutputData) (i : nat) : VS unit :=
  r ← scheduled_at d i;
  on_group r (maybe_set_first_token_time now);;;
  create_request_output r.
Definition ignored_output (r : nat) : VS unit :=
  g ← the_group r;
  f ← on_group r group_is_finished;
  if bool_decide (output_kind <$> sg_sampling_params g = Some DELTA) && negb f then mret tt
  else create_request_output r.
(** The groups to process: all, or the one with a given id. *)
Definition indices_of (d : OutputData) (request_id : option string) : VS (list nat) :=
  match request_id with
  | None => mret (seq 0 (length (od_seq_group_metadata_list d)))
  | Some id =>
    match list_find (λ m, msg_request_id m = id) (od_seq_group_metadata_list d) with
    | None => mret []
    | Some (i, _) => massert (bool_decide (i ∉ od_skip d)) "i not in skip";;; mret [i]
    end
  end.
Definition set_queue (l : list OutputData) : VS unit := on_ctx (mmodify (set_cx_output_queue l)).
(** After the loop, when all groups are processed. *)
Definition finish_outputs (now : Z) (d : OutputData) (indices finished_before finished_now : list nat) : VS unit :=
  mwhen (negb (length finished_now =? 0)) free_finished_seq_groups;;;
  if negb (od_is_last_step d) && negb (ec_multi_step_stream_outputs c) then mret tt
  else
    mfor indices (λ i,
      if bool_decide (i ∈ od_skip d ++ finished_before ++ finished_now) then mret tt else output_for now d i);;;
    if negb (od_is_last_step d) && ec_multi_step_stream_outputs c then mret tt
    else mfor (so_ignored_seq_groups (od_scheduler_outputs d)) ignored_output.
Definition process_output_data (now : Z) (d : OutputData) (rest : list OutputData) (request_id : option string) : VS unit :=
  mwhen (bool_decide (request_id = None)) (set_queue rest);;;
  massert (length (od_seq_group_metadata_list d) =? length (so_scheduled_seq_groups (od_scheduler_outputs d)))
    "len(seq_group_metadata_list) == len(scheduler_outputs.scheduled_seq_groups)";;;
  by_group ←
    (if has_multiple_outputs d
     then massert (is_multi_step sc || ec_speculative_config c) "self.scheduler_config.is_multi_step or self.speculative_config";;;
          mlift (create_output_by_sequence_group (od_outputs d) (length (od_seq_group_metadata_list d)))
     else mret []);
  indices ← indices_of d request_id;
  if bool_decide (is_Some request_id) && (length indices =? 0) then mret tt
  else
    '(finished_before, finished_now) ← mfold indices ([], []) (process_index d by_group);
    mfor finished_now (output_for now d);;;
    match request_id with
    | Some _ => set_queue (set_od_skip (od_skip d ++ indices) d :: rest)
    | None => finish_outputs now d indices finished_before finished_now
    end.
(** An empty id counts as none. *)
Definition named (request_id : option string) : option string :=
  match request_id with Some EmptyString => None | _ => request_id end.
Definition process_model_outputs (request_id : option string) : VS unit :=
  now ← v0_time;
  x ← mgets ctx_of;
  match cx_output_queue x with
  | [] => mret tt
  | d :: rest => process_output_data now d rest (named request_id)
  end.

(** * [_advance_to_next_step] *)
Definition advance_group (m : GroupMessage) (output : CompletionSequenceGroupOutput) (r : nat) : VS unit :=
  f ← on_group r group_is_finished;
  if (f : bool) then mret tt
  else
    (if is_multi_step sc
     then g ← the_group r; update_for_multi_step_prefill r m (Some (num_steps (sg_state g) =? 1)%Z)
     else on_group r (group_update_num_computed_tokens (default 0%Z (msg_token_chunk_size m))));;;
    mwhen (msg_do_sample m)
      (massert (length (cso_samples output) =? 1) "Async output processor expects a single sample (i.e sampling_params.n == 1)";;;
       sample ← mlift (first_sample output);
       g ← the_group r;
       massert (length (sg_seqs g) =? 1) "len(seq_group.seqs) == 1";;;
       s ← on_group r first_seq;
       on_group r (on_first (seq_append_token_id (sx_output_token sample) (sx_logprobs sample)));;;
       mwhen (is_multi_step sc && negb (sd_get_num_uncomputed_tokens (sq_data s) =? 0)%Z)
         (on_group r (group_update_num_computed_tokens 1))).
Definition advance_to_next_step (output : SamplerOutput) (l : list GroupMessage) (scheduled : list ScheduledSequenceGroup) : VS unit :=
  mfor (zip (zip l output) scheduled) (λ '(m, o, x), advance_group m o (ssg_seq_group x)).

(** * [step] *)
Definition engine_callback : option (string → VS unit) :=
  if ec_use_async_output_proc c then Some (λ id, process_model_outputs (Some id)) else None.
Definition state_of (m : GroupMessage) (x : ScheduledSequenceGroup) : VS SequenceGroupState :=
  match m with FullMetadata _ => on_group (ssg_seq_group x) (mgets sg_state) | DeltaMetadata _ => mret default_group_state end.
Definition has_remaining_steps (l : list GroupMessage) (scheduled : list ScheduledSequenceGroup) : VS bool :=
  if negb (is_multi_step sc) then mret false
  else
    remaining ← mfold (zip l scheduled) [] (λ acc '(m, x), s ← state_of m x; mret (acc ++ [remaining_steps s]));
    match remaining with
    | [] => mret false
    | n :: rest =>
      if existsb (λ k, negb (k =? n)%Z) rest
      then mraise (AssertionError "All running sequence groups should have the same remaining steps.")
      else mret (0 <? n)%Z
    end.
Definition message_finish_step (m : GroupMessage) (x : ScheduledSequenceGroup) : VS unit :=
  match m with
  | FullMetadata _ =>
    on_group (ssg_seq_group x) (
      g ← mget;
      let s := sg_state g in
      massert (current_step s <? num_steps s)%Z "current_step < num_steps";;;
      mput (set_sg_state {| num_steps := num_steps s; current_step := current_step s + 1 |} g))
  | DeltaMetadata _ => mraise (AttributeError "'SequenceGroupMetadataDelta' object has no attribute 'finish_step'")
  end.
Definition process_pending : VS unit :=
  x ← mgets ctx_of; mwhen (negb (length (cx_output_queue x) =? 0)) (process_model_outputs None).
(** A new schedule, with the ids finished since the last one. *)
Definition engine_schedule : VS (list GroupMessage * V0SchedulerOutputs * bool * list string) :=
  '(l, o, allow) ← v0_schedule (ec_sched c) engine_callback;
  on_ctx (mmodify (set_cx_seq_group_metadata_list (Some l)));;;
  on_ctx (mmodify (set_cx_scheduler_outputs (Some o)));;;
  finished_requests_ids ← get_and_reset_finished_requests_ids;
  mwhen (negb allow) process_pending;;;
  mwhen (is_multi_step sc && (0 <? so_num_lookahead_slots o)%Z)
    (on_ctx (mmodify (set_cx_cached
       {| st_seq_group_metadata_list := Some l; st_scheduler_outputs := Some o; st_allow_async_output_proc := allow |})));;;
  mret (l, o, allow, finished_requests_ids).
Fixpoint call_back (n : nat) : VS unit :=
  match n with 0 => mret tt | S n => process_model_outputs None;;; call_back n end.
(** The executor records the request, calls back, and answers. *)
Definition execute_model (req : ExecuteModelRequest) : VS (list SamplerOutput) :=
  x ← mgets ctx_of;
  let '(n, outputs) := cx_executor x 0 in
  on_ctx (mmodify (λ x, set_cx_executor (λ n, cx_executor x (S n)) (set_cx_executed (cx_executed x ++ [req]) x)));;;
  mwhen (ex_async_callback req) (call_back n);;;
  mret outputs.
Definition execute_schedule (l : list GroupMessage) (o : V0SchedulerOutputs) (allow : bool) (finished_requests_ids : list string)
    : VS (list SamplerOutput) :=
  if so_is_empty o then process_pending;;; mret []
  else
    execute_model {|
      ex_seq_group_metadata_list := l; ex_blocks_to_swap_in := so_blocks_to_swap_in o;
      ex_blocks_to_swap_out := so_blocks_to_swap_out o; ex_blocks_to_copy := so_blocks_to_copy o;
      ex_num_lookahead_slots := so_num_lookahead_slots o; ex_running_queue_size := so_running_queue_size o;
      ex_finished_requests_ids := finished_requests_ids; ex_async_callback := allow |}.
Definition append_output (outputs : list SamplerOutput) (l : list GroupMessage) (o : V0SchedulerOutputs)
    (is_async is_last_step : bool) (is_first_step_output : option bool) : VS unit :=
  on_ctx (mmodify (λ x, set_cx_output_queue (cx_output_queue x ++ [
    {| od_outputs := outputs; od_seq_group_metadata_list := l; od_scheduler_outputs := o; od_is_async := is_async;
       od_is_last_step := is_last_step; od_is_first_step_output := is_first_step_output; od_skip := [] |}]) x)).
(** The last step of a batch: the results are queued and, unless they are left for
    later, processed. *)
Definition finish_batch (outputs : list SamplerOutput) (l : list GroupMessage) (o : V0SchedulerOutputs) (allow : bool) : VS unit :=
  mwhen (is_multi_step sc) (on_ctx (mmodify (set_cx_cached no_cached_outputs)));;;
  is_first_step_output ←
    match l, so_scheduled_seq_groups o with
    | m :: _, x :: _ => s ← state_of m x; mret (num_steps s =? 1)%Z
    | _, _ => mret false
    end;
  append_output outputs l o allow true (Some is_first_step_output);;;
  mwhen (negb (length outputs =? 0) && allow)
    (match outputs with
     | [output] => advance_to_next_step output l (so_scheduled_seq_groups o)
     | _ => mraise (AssertionError "Async postprocessor expects only a single output set")
     end);;;
  mwhen (negb allow) (process_model_outputs None).
Definition drain : VS unit :=
  s ← mget;
  mwhen (negb (has_unfinished_seqs s))
    (process_pending;;;
     x ← mgets ctx_of;
     massert (length (cx_output_queue x) =? 0) "len(ctx.output_queue) == 0").
Definition engine_step : VS (list V0RequestOutput) :=
  if (1 <? ec_pipeline_parallel_size c)%Z then mraise NotImplementedError
  else
    x ← mgets ctx_of;
    let cached := cx_cached x in
    on_ctx (mmodify (set_cx_request_outputs []));;;
    remaining ← has_remaining_steps (default [] (st_seq_group_metadata_list cached))
                  (match st_scheduler_outputs cached with Some o => so_scheduled_seq_groups o | None => [] end);
    '(l, o, allow, finished_requests_ids) ←
      (if (remaining : bool) then
         match st_seq_group_metadata_list cached, st_scheduler_outputs cached with
         | Some l, Some o => mret (l, o, st_allow_async_output_proc cached, [])
         | _, _ => mraise (AssertionError "scheduler_outputs is not None")
         end
       else engine_schedule);
    outputs ← execute_schedule l o allow finished_requests_ids;
    mwhen (is_multi_step sc) (mfor (zip l (so_scheduled_seq_groups o)) (λ '(m, x), message_finish_step m x));;;
    remaining ← has_remaining_steps l (so_scheduled_seq_groups o);
    mwhen (negb remaining) (finish_batch outputs l o allow;;; drain);;;
    x ← mgets ctx_of;
    mret (cx_request_outputs x).

(** * Construction *)
(** The scheduler of a new engine. With one scheduler, the size of the pipeline is 1. *)
Definition engine_init (make : Z → option Z → option Z → option Z → bool → result B) (executor : nat → nat * list SamplerOutput)
    (clock : nat → Z) (draws : nat → bool) : result Engine :=
  v0_scheduler_init (ec_sched c)
    (λ block_size gpu cpu window caching, b ← make block_size gpu cpu window caching; mret (b, ctx_init executor))
    (ec_pipeline_parallel_size c) clock draws.

(** * Requests *)
Section requests.
Context {Image ProcKwargs Prompt : Type}.
Abbreviation Inputs := (ProcessorInputs (Image := Image) (ProcKwargs := ProcKwargs)).
Abbreviation Singleton := (SingletonInputs (Image := Image) (ProcKwargs := ProcKwargs)).
Context (token_prompt : Prompt → option (list Z)) (max_token_id : option LoRARequest → option Z).
Context (preprocess : string → Prompt → option LoRARequest → option PromptAdapterRequest → result Inputs).

Definition v0_validate_model_inputs (inputs : Inputs) : result unit :=
  let prompt_inputs :=
    match inputs with
    | EncoderDecoderInputs encoder decoder => if ec_is_multimodal_model c then decoder else encoder
    | DecoderOnlyInputs i => i
    end in
  let prompt_ids := in_prompt_token_ids prompt_inputs in
  if length prompt_ids =? 0 then Raise (ValueError "Prompt cannot be empty")
  else if ec_is_multimodal_model c && (ec_max_model_len c <? Z.of_nat (length prompt_ids))%Z
  then Raise (ValueError "The prompt is too long to fit into the model")
  else Ok tt.
(** [x and x > n], where zero and [None] are false *)
Definition too_many (x : option CountArg) (n : Z) : bool :=
  match x with Some x => negb (count_value x =? 0)%Z && (n <? count_value x)%Z | None => false end.
Definition create_sequence_group_with_sampling (request_id : string) (s : Sequence) (p : SamplingParams) (arrival_time : Z)
    (lora : option LoRARequest) (encoder_seq : option Sequence) (priority : Z) : result SequenceGroup :=
  if too_many (sp_logprobs p) (ec_max_logprobs c) || too_many (prompt_logprobs p) (ec_max_logprobs c)
  then Raise (ValueError "Cannot request more than max_logprobs logprobs.")
  else
    p ← update_from_generation_config (ec_generation_config_eos c) (sq_eos_token_id s) p;
    sequence_group_init request_id [s] arrival_time (Some p) encoder_seq priority lora.
Definition sequence_of (seq_id : Z) (i : Singleton) (lora : option LoRARequest) (adapter : option PromptAdapterRequest)
    : result Sequence :=
  sequence_init seq_id (in_prompt i) (in_prompt_token_ids i) (cc_block_size (vc_cache (ec_sched c))) (ec_eos_token_id c lora) lora adapter.
(** [_add_processed_request] for one sample: the group is at the end of the list of
    groups. With one scheduler there is no choice of the scheduler. *)
Definition add_single_request (request_id : string) (inputs : Inputs) (p : SamplingParams) (arrival_time : Z)
    (lora : option LoRARequest) (adapter : option PromptAdapterRequest) (priority : Z) : VS nat :=
  mlift (v0_validate_model_inputs inputs);;;
  x ← mgets ctx_of;
  let seq_id := cx_seq_counter x in
  on_ctx (mmodify (set_cx_seq_counter (seq_id + 1)));;;
  let '(decoder_inputs, encoder_inputs) :=
    match inputs with EncoderDecoderInputs e d => (d, Some e) | DecoderOnlyInputs d => (d, None) end in
  s ← mlift (sequence_of seq_id decoder_inputs lora adapter);
  encoder_seq ← match encoder_inputs with
    | None => mret None
    | Some e => s ← mlift (sequence_of seq_id e lora adapter); mret (Some s)
    end;
  g ← mlift (create_sequence_group_with_sampling request_id s p arrival_time lora encoder_seq priority);
  r ← mgets (λ s : Engine, length (vs_groups s));
  add_seq_group g;;;
  mret r.
(** The decimal digits of a sample's number. *)
Definition sample_id (request_id : string) (i : nat) : string := (request_id +:+ "_parallel_sample_" +:+ pretty.pretty (N.of_nat i))%string.
(** [ParallelSampleSequenceGroup.add_request] *)
Definition add_parallel_request (request_id : string) (inputs : Inputs) (original_params : SamplingParams) (arrival_time : Z)
    (lora : option LoRARequest) (adapter : option PromptAdapterRequest) (priority : Z) : VS unit :=
  let p := set_sp_n 1 original_params in
  x ← mgets ctx_of;
  let k := length (cx_samples x) in
  on_ctx (mmodify (λ x, set_cx_samples (cx_samples x ++ [
    {| pl_group_id := request_id; pl_assembled := None; pl_seq_id_to_index := []; pl_to_be_finished := []; pl_finished_reqs := [];
       pl_streaming := false; pl_output_produced := false |}]) x));;;
  refs ← mfold (seq 0 (Z.to_nat (sp_n original_params))) [] (λ refs i,
    let request_id_i := sample_id request_id i in
    upd_sample k (λ p, set_pl_seq_id_to_index (dset (pl_seq_id_to_index p) request_id_i (Z.of_nat i)) p);;;
    r ← add_single_request request_id_i inputs p arrival_time lora adapter priority;
    on_ctx (mmodify (λ x, set_cx_seq_id_to_seq_group (dset (cx_seq_id_to_seq_group x) request_id_i k) x));;;
    upd_sample k (λ p, set_pl_to_be_finished (dset (pl_to_be_finished p) request_id_i (Plain r)) p);;;
    mret (refs ++ [r]));
  seqs ← sample_seqs refs;
  encoder_seq ← match last refs with Some r => g ← the_group r; mret (sg_encoder_seq g) | None => mret None end;
  g ← mlift (sequence_group_init request_id seqs arrival_time (Some original_params) encoder_seq priority lora);
  upd_sample k (set_pl_assembled (Some (set_sg_seqs [] g, refs)));;;
  upd_sample k (set_pl_streaming (bool_decide (output_kind p = DELTA)));;;
  upd_sample k (set_pl_output_produced false).
Definition add_processed_request (request_id : string) (inputs : Inputs) (p : SamplingParams) (arrival_time : Z)
    (lora : option LoRARequest) (adapter : option PromptAdapterRequest) (priority : Z) : VS unit :=
  if (1 <? sp_n p)%Z then add_parallel_request request_id inputs p arrival_time lora adapter priority
  else add_single_request request_id inputs p arrival_time lora adapter priority;;; mret tt.
(** [_validate_token_prompt], if there is a tokenizer *)
Definition validate_token_prompt (prompt : Prompt) (lora : option LoRARequest) : result unit :=
  match max_token_id lora, token_prompt prompt with
  | Some n, Some (x :: ids) =>
    if (n <? foldr Z.max x ids)%Z then Raise (ValueError "Token id is out of vocabulary") else Ok tt
  | _, _ => Ok tt
  end.
Definition v0_add_request (request_id : string) (prompt : Prompt) (p : SamplingParams) (arrival_time : option Z)
    (lora : option LoRARequest) (adapter : option PromptAdapterRequest) (priority : Z) : VS unit :=
  if bool_decide (is_Some lora) && bool_decide (vc_lora (ec_sched c) = None)
  then mraise (ValueError "Got lora_request but LoRA is not enabled!")
  else if negb (priority =? 0)%Z && negb (bool_decide (cf_policy sc = "priority"%string))
  then mraise (ValueError "Got priority but Priority scheduling is not enabled.")
  else
    arrival_time ← match arrival_time with Some t => mret t | None => v0_time end;
    mlift (validate_token_prompt prompt lora);;;
    inputs ← mlift (preprocess request_id prompt lora adapter);
    add_processed_request request_id inputs p arrival_time lora adapter priority.
End requests.
Definition abort_request (request_ids : list string) : VS unit := abort_seq_group request_ids.
End engine.
