(* ===== verification/V0ProcTheorems.v ===== *)
(** Multi-step output processing against single-step processing: a burst of tokens
    leaves a sequence as if its tokens had been processed one by one. *)
From Stdlib Require Import ssreflect ZArith Lia.
From stdpp Require Import base numbers list gmap strings.
From S2P Require Import Prelude SamplingParams Detokenizer SequenceData Sequences BlockTable BlockManager SchedConfig V0Types V0Sched V0Phases V0Schedule V0Frame SequenceTheorems.
From S2P Require Import V0Outputs V0Engine.

Section sequence.
Context (c : EngineConf) (p : SamplingParams) (lora : option LoRARequest).

(** What the single-step engine does with a token of a group with the LoRA request
    [lora]: the token before it counts as computed, unless the prompt has just been
    computed. *)
Definition single_step_token (is_first : bool) (o : SequenceOutput) : SQ unit :=
  mwhen (negb is_first) (on_data (sd_update_num_computed_tokens 1));;;
  single_step_seq c o p lora false.
(** Token by token, until the sequence is finished. *)
Fixpoint one_by_one (l : list SequenceOutput) (is_first : bool) : SQ unit :=
  match l with
  | [] => mret tt
  | o :: l =>
    s ← mget;
    if seq_is_finished s then mret tt else single_step_token is_first o;;; one_by_one l false
  end.

(** * The steps *)
Definition same_core s s' : Prop :=
  sq_data s' = sq_data s ∧ sq_status s' = sq_status s ∧ sq_eos_token_id s' = sq_eos_token_id s.
#[local] Instance same_core_preorder : PreOrder same_core.
Proof. split; first by move=> s. move=> s1 s2 s3 [H1 [H2 H3]] [H4 [H5 H6]]. by split_and!; etrans. Qed.
#[local] Hint Extern 2 (same_core _ _) => by split_and! : keeps.
#[local] Hint Extern 2 (any_exn _) => exact I : keeps.
Lemma decode_core tok s : wp (decode_sequence_inplace tok p) s (λ _ s', same_core s s') any_exn.
Proof.
  rw /decode_sequence_inplace. wp_step. wp_step. destruct (last _) as [id|]; last by wp_step.
  wp_step. eapply (wp_mono _ _ (λ _ s1, same_core s s1) _ any_exn); [| |done].
  { destruct (convert_prompt_ids_to_tokens _ _ _) as [[tokens po] ro]. wp_step; [by wp_step|done]. }
  move=> u s1 H1. wp_step. wp_step. wp_step. apply wp_lift; last done. move=> [[[toks txt] po] ro] _.
  wp_step. eapply (wp_mono _ _ (λ _ s2, same_core s s2) _ any_exn); [| |done].
  { destruct (last (sq_output_logprobs s1)) as [lps|]; last by wp_step. wp_step. apply wp_lift; last done. move=> lps2 _. by wp_step. }
  move=> u2 s2 H2. by do 5 (repeat wp_step).
Qed.
(** A sequence that goes on has not met a stop condition. *)
Definition goes_on s : Prop :=
  (sd_get_output_len (sq_data s) < min_tokens p)%Z ∨
  sp_max_tokens p ≠ Some (sd_get_output_len (sq_data s)) ∧
  (ignore_eos p = false → ∀ id, last (sd_output_token_ids (sq_data s)) = Some id → sq_eos_token_id s ≠ Some id).
Lemma drop_core n s : wp (drop_stop_text n p) s (λ _ s', same_core s s') any_exn.
Proof. rw /drop_stop_text. wp_step; [by wp_step|done]. Qed.
Lemma stop_core max_len n l s :
  wp (maybe_stop_sequence max_len n p l) s (λ _ s', sq_data s' = sq_data s ∧ sq_eos_token_id s' = sq_eos_token_id s ∧
    (seq_is_finished s' = false → goes_on s')) any_exn.
Proof.
  rw /maybe_stop_sequence. wp_step. wp_step. destruct (Z.ltb_spec (sd_get_output_len (sq_data s)) (min_tokens p)) as [Hm|Hm].
  { wp_step. split_and!; [done|done|]. by left. }
  wp_step. apply wp_lift; last done. move=> last_id Hlast. destruct (negb (ignore_eos p) && _) eqn:He.
  { wp_step. eapply wp_mono; [apply drop_core| |done]. move=> u s1 [H1 [H2 H3]]. wp_step. split_and!; [done|done|]. by move=> H. }
  destruct (bool_decide (last_id ∈ _)).
  { wp_step. eapply wp_mono; [apply drop_core| |done]. move=> u s1 [H1 [H2 H3]]. wp_step. wp_step. wp_step.
    split_and!; [done|done|]. by move=> Hf. }
  destruct (check_stop_strings _ _ _ _) as [[str to]|].
  { wp_step. destruct to; wp_step; wp_step; wp_step; wp_step; split_and!; try done; by move=> Hf. }
  destruct (_ <? _)%Z; first by wp_step; split_and!.
  wp_step; first by wp_step; split_and!. split_and!; [done|done|]. move=> _. right. split.
  { by apply bool_decide_eq_false in H. }
  move=> Hi id Hl Heos. rw Hi /= in He. apply bool_decide_eq_false in He. apply He. rw Heos. f_equal.
  move: Hlast. rw /sd_get_last_token_id bool_decide_eq_false_2; [by move=> Hn; rw Hn in Hl|]. rw Hl. by move=> [= ->].
Qed.
(** One token of a burst, and the invariant between tokens. *)
Definition after_token (out_len : Z) (id : Z) s : Prop :=
  sd_stage (sq_data s) = DECODE ∧ sd_get_num_uncomputed_tokens (sq_data s) = 1%Z ∧
  sd_get_output_len (sq_data s) = out_len ∧ last (sd_output_token_ids (sq_data s)) = Some id.
Lemma update_computed_decode d : sd_stage d = DECODE → (1 ≤ sd_get_num_uncomputed_tokens d)%Z →
  sd_update_num_computed_tokens 1 d = Ok (tt, set_sd_num_computed_tokens (sd_num_computed_tokens d + 1) d).
Proof.
  rw /sd_get_num_uncomputed_tokens. move=> Hs Hu. rw /sd_update_num_computed_tokens /mmodify /mget /mbind /M_bind /massert /=.
  have -> : sd_get_len (set_sd_num_computed_tokens (sd_num_computed_tokens d + 1) d) = sd_get_len d by done.
  destruct (Z.leb_spec (sd_num_computed_tokens d + 1) (sd_get_len d)); last lia. rw /mret /M_ret /mwhen.
  destruct (_ =? 0)%Z; last done. do 2 f_equal. destruct d. simpl in Hs. by subst.
Qed.
Lemma append_spec id lps s s' : seq_append_token_id id lps s = Ok (tt, s') →
  sq_eos_token_id s' = sq_eos_token_id s ∧ sq_status s' = sq_status s ∧
  sd_output_token_ids (sq_data s') = sd_output_token_ids (sq_data s) ++ [id] ∧
  sd_prompt_token_ids (sq_data s') = sd_prompt_token_ids (sq_data s) ∧
  sd_num_computed_tokens (sq_data s') = sd_num_computed_tokens (sq_data s) ∧ sd_stage (sq_data s') = sd_stage (sq_data s).
Proof.
  rw /seq_append_token_id. destruct (dget lps id) as [l|]; last done.
  rw /on_data /zoom /sd_append_token_id /mmodify /mbind /M_bind /mlift /=. destruct (py_array [id]) as [a|e] eqn:Ha; last done.
  apply py_array_Ok in Ha as [-> _]. by move=> [= <-].
Qed.
(** Counting the token before as computed commutes with appending. *)
Lemma append_then_count id lps s : sd_stage (sq_data s) = DECODE → (1 ≤ sd_get_num_uncomputed_tokens (sq_data s))%Z →
  (on_data (sd_update_num_computed_tokens 1);;; seq_append_token_id id lps) s =
  (seq_append_token_id id lps;;; on_data (sd_update_num_computed_tokens 1)) s.
Proof.
  move=> Hs Hu. rw {1 2}/mbind /M_bind {1}/on_data /zoom update_computed_decode //=.
  destruct (seq_append_token_id id lps s) as [[[] s1]|e] eqn:H1.
  - have H2 := append_spec _ _ _ _ H1. destruct H2 as [_ [_ [Ho [Hp [Hc Hst]]]]]. rw /on_data /zoom update_computed_decode.
    + by rw Hst.
    + move: Hu. rw /sd_get_num_uncomputed_tokens /sd_get_len Ho Hp Hc length_app. lia.
    + move: H1. rw /seq_append_token_id. destruct (dget lps id) as [l|]; last done.
      rw /on_data /zoom /sd_append_token_id /mmodify /mbind /M_bind /mlift /=. destruct (py_array [id]) as [a|e]; last done.
      by move=> [= <-].
  - move: H1. rw /seq_append_token_id. destruct (dget lps id) as [l|]; last done.
    rw /on_data /zoom /sd_append_token_id /mmodify /mbind /M_bind /mlift /=. by destruct (py_array [id]) as [a|e'].
Qed.
Lemma process_decode_core s :
  wp (process_decode_and_stop c p) s (λ _ s', sq_data s' = sq_data s ∧ sq_eos_token_id s' = sq_eos_token_id s ∧
    (seq_is_finished s' = false → goes_on s')) any_exn.
Proof.
  rw /process_decode_and_stop. wp_step. eapply (wp_mono _ _ (λ _ s1, same_core s s1) _ any_exn); [| |done].
  - wp_step; last by wp_step. destruct (ec_get_tokenizer c); last by wp_step. wp_step. wp_step. apply decode_core.
  - move=> n s1 [H1 [H2 H3]]. eapply wp_mono; [apply stop_core| |done]. move=> u s2 [H4 [H5 H6]]. by rw -H1 -H3.
Qed.

(** A LoRA request that does not change the length limit changes no stop. *)
Lemma stop_same_length max_len n s : get_max_model_len max_len lora = max_len →
  maybe_stop_sequence max_len n p lora s = maybe_stop_sequence max_len n p None s.
Proof. move=> H. by rw /maybe_stop_sequence H. Qed.

(** * Bursts *)
Context (max_tokens : Z) (eos : option Z).
Definition kept_ids (out_len : Z) (l : list SequenceOutput) : list Z :=
  let ids := take (Z.to_nat (max_tokens - out_len)) (sx_output_token <$> l) in
  if ignore_eos p then ids else cut_after eos ids.
Record burst_ready (l : list SequenceOutput) (is_first : bool) s : Prop := {
  br_unfinished : seq_is_finished s = false;
  br_stage : sd_stage (sq_data s) = DECODE;
  br_computed : sd_get_num_uncomputed_tokens (sq_data s) = if is_first then 0%Z else 1%Z;
  br_room : (sd_get_output_len (sq_data s) < max_tokens)%Z;
  br_eos : sq_eos_token_id s = eos;
  br_min : ignore_eos p = false → ∀ i o, l !! i = Some o → Some (sx_output_token o) = eos →
    (min_tokens p ≤ sd_get_output_len (sq_data s) + Z.of_nat i + 1)%Z;
}.
Lemma append_and_count (is_first : bool) o s : sd_stage (sq_data s) = DECODE →
  sd_get_num_uncomputed_tokens (sq_data s) = (if is_first then 0%Z else 1%Z) →
  (mwhen (negb is_first) (on_data (sd_update_num_computed_tokens 1));;; seq_append_token_id (sx_output_token o) (sx_logprobs o)) s =
  (seq_append_token_id (sx_output_token o) (sx_logprobs o);;; mwhen (negb is_first) (on_data (sd_update_num_computed_tokens 1))) s.
Proof.
  move=> Hs Hu. destruct is_first; last by apply append_then_count; [|lia]. rw /mbind /M_bind /=.
  by destruct (seq_append_token_id _ _ s) as [[[] s1]|e].
Qed.
Lemma counted_spec (is_first : bool) o s s' : sd_stage (sq_data s) = DECODE →
  sd_get_num_uncomputed_tokens (sq_data s) = (if is_first then 0%Z else 1%Z) →
  (seq_append_token_id (sx_output_token o) (sx_logprobs o);;; mwhen (negb is_first) (on_data (sd_update_num_computed_tokens 1))) s = Ok (tt, s') →
  sd_stage (sq_data s') = DECODE ∧ sd_get_num_uncomputed_tokens (sq_data s') = 1%Z ∧ sq_eos_token_id s' = sq_eos_token_id s ∧
  sd_output_token_ids (sq_data s') = sd_output_token_ids (sq_data s) ++ [sx_output_token o].
Proof.
  move=> Hs Hu. rw /mbind /M_bind. destruct (seq_append_token_id _ _ s) as [[[] s1]|e] eqn:H1; last done.
  have [He [_ [Ho [Hp [Hc Hst]]]]] := append_spec _ _ _ _ H1.
  have Hu1 : sd_get_num_uncomputed_tokens (sq_data s1) = if is_first then 1%Z else 2%Z.
  { move: Hu. rw /sd_get_num_uncomputed_tokens /sd_get_len Ho Hp Hc length_app /=. destruct is_first; lia. }
  destruct is_first; cbn [negb mwhen]; first by move=> [= <-]; rw Hst.
  rw /on_data /zoom update_computed_decode; [by rw Hst|by rw Hu1|]. move=> [= <-]. cbn. rw Hst.
  split_and!; try done. move: Hu1. rw /sd_get_num_uncomputed_tokens /sd_get_len /=. lia.
Qed.
(** The tail of both: the text and the stop conditions. *)
Lemma single_step_token_eq (is_first : bool) o s : is_Some (ec_get_tokenizer c) →
  get_max_model_len (stop_len c) lora = stop_len c → sd_stage (sq_data s) = DECODE →
  sd_get_num_uncomputed_tokens (sq_data s) = (if is_first then 0%Z else 1%Z) →
  single_step_token is_first o s =
  ((seq_append_token_id (sx_output_token o) (sx_logprobs o);;; mwhen (negb is_first) (on_data (sd_update_num_computed_tokens 1)));;;
   process_decode_and_stop c p) s.
Proof.
  move=> [get Hget] Hlora Hs Hu. have H := append_and_count is_first o s Hs Hu. rw /single_step_token /single_step_seq /process_decode_and_stop Hget.
  move: H. rw /mbind /M_bind. cbn [mwhen negb]. move=> <-.
  destruct (mwhen (negb is_first) _ s) as [[[] s1]|e]; last done.
  destruct (seq_append_token_id _ _ s1) as [[[] s2]|e]; last done.
  destruct (detokenize p); [|by apply stop_same_length]. rw /mget /=.
  destruct (decode_sequence_inplace _ p s2) as [[n s3]|e]; [by apply stop_same_length|done].
Qed.
Lemma append_samples_cons id lps l (is_first : bool) s :
  append_samples c p ((id, lps) :: l) is_first s =
  match ((seq_append_token_id id lps;;; mwhen (negb is_first) (on_data (sd_update_num_computed_tokens 1)));;; process_decode_and_stop c p) s with
  | Ok (_, s2) => if seq_is_finished s2 then Ok (tt, s2) else append_samples c p l false s2
  | Raise e => Raise e
  end.
Proof.
  cbn [append_samples]. rw /mbind /M_bind. destruct (seq_append_token_id id lps s) as [[[] s1]|e]; last done.
  destruct (mwhen _ _ s1) as [[[] s2]|e]; last done. destruct (process_decode_and_stop c p s2) as [[[] s3]|e]; last done.
  rw /mget. by destruct (seq_is_finished s3).
Qed.
Lemma one_by_one_cons o l (is_first : bool) s : seq_is_finished s = false →
  one_by_one (o :: l) is_first s =
  match single_step_token is_first o s with Ok (_, s2) => one_by_one l false s2 | Raise e => Raise e end.
Proof. move=> H. cbn [one_by_one]. rw /mget /mbind /M_bind H. by destruct (single_step_token is_first o s) as [[[] s2]|e]. Qed.
Lemma one_by_one_finished l (is_first : bool) s : seq_is_finished s = true → one_by_one l is_first s = Ok (tt, s).
Proof. move=> H. destruct l; first done. cbn [one_by_one]. by rw /mget /mbind /M_bind H. Qed.
Lemma kept_ids_cons out o l : (out < max_tokens)%Z →
  kept_ids out (o :: l) = sx_output_token o ::
    (if negb (ignore_eos p) && bool_decide (Some (sx_output_token o) = eos) then [] else kept_ids (out + 1) l).
Proof.
  move=> Ho. rw /kept_ids. have -> : Z.to_nat (max_tokens - out) = S (Z.to_nat (max_tokens - (out + 1))) by lia.
  cbn [fmap list_fmap take]. destruct (ignore_eos p); first done. cbn. by case_bool_decide.
Qed.
(** The invariant is handed on to the next token. *)
Lemma burst_ready_next o l (is_first : bool) s s1 s2 : burst_ready (o :: l) is_first s → (min_tokens p ≤ max_tokens)%Z →
  sp_max_tokens p = Some max_tokens →
  (seq_append_token_id (sx_output_token o) (sx_logprobs o);;; mwhen (negb is_first) (on_data (sd_update_num_computed_tokens 1))) s = Ok (tt, s1) →
  sq_data s2 = sq_data s1 → sq_eos_token_id s2 = sq_eos_token_id s1 → seq_is_finished s2 = false → goes_on s2 →
  burst_ready l false s2 ∧ sd_get_output_len (sq_data s2) = (sd_get_output_len (sq_data s) + 1)%Z ∧
  negb (ignore_eos p) && bool_decide (Some (sx_output_token o) = eos) = false.
Proof.
  move=> [B1 B2 B3 B4 B5 B6] Hmin Hmax H1 Hd He Hf Hg.
  have [C1 [C2 [C3 C4]]] := counted_spec _ _ _ _ B2 B3 H1.
  have Hlen : sd_get_output_len (sq_data s2) = (sd_get_output_len (sq_data s) + 1)%Z.
  { rw /sd_get_output_len Hd C4 length_app /=. lia. }
  rw /goes_on Hlen Hmax in Hg. split_and!; [|done|].
  - split; rw ?Hd ?He ?C3 //.
    + rw -Hd Hlen. destruct Hg as [Hg|[Hg _]]; first lia. have : max_tokens ≠ (sd_get_output_len (sq_data s) + 1)%Z by congruence. lia.
    + move=> Hi i x Hx Heos. have := B6 Hi (S i) x Hx Heos. rw -Hd Hlen. lia.
  - destruct (ignore_eos p) eqn:Hi; first done. apply bool_decide_eq_false. move=> Heos.
    destruct Hg as [Hg|[_ Hg]]; first by have := B6 eq_refl 0 o eq_refl Heos; lia.
    apply (Hg eq_refl (sx_output_token o)); [by rw Hd C4 last_snoc|by rw He C3 B5].
Qed.
Lemma burst_one_by_one l : is_Some (ec_get_tokenizer c) → get_max_model_len (stop_len c) lora = stop_len c → (min_tokens p ≤ max_tokens)%Z → sp_max_tokens p = Some max_tokens →
  ∀ (is_first : bool) s, burst_ready l is_first s →
  append_samples c p (zip (kept_ids (sd_get_output_len (sq_data s)) l) (sx_logprobs <$> l)) is_first s = one_by_one l is_first s.
Proof.
  move=> Hget Hlora Hmin Hmax. elim: l => [|o l IH] is_first s HB.
  { rw /kept_ids take_nil. by destruct (ignore_eos p). }
  destruct (HB) as [B1 B2 B3 B4 B5 B6]. rw kept_ids_cons // one_by_one_cons // single_step_token_eq //.
  cbn [fmap list_fmap zip zip_with]. rw append_samples_cons. rw {1 3}/mbind /M_bind.
  destruct ((seq_append_token_id _ _;;; _) s) as [[[] s1]|e] eqn:H1; last done.
  have H2 := process_decode_core s1. rw /wp in H2. destruct (process_decode_and_stop c p s1) as [[[] s2]|e]; last done.
  destruct H2 as [Hd [He Hg]]. destruct (seq_is_finished s2) eqn:Hf; first by rw one_by_one_finished.
  have [Hn [Hl ->]] := burst_ready_next _ _ _ _ _ _ HB Hmin Hmax H1 Hd He Hf (Hg eq_refl). rw -Hl. by apply IH.
Qed.
End sequence.

(** Dropping the excess from the end keeps what fits. *)
Lemma slice_excess {A} (l : list A) k : (0 ≤ k)%Z → (k < Z.of_nat (length l))%Z → slice l 0 (k - Z.of_nat (length l)) = take (Z.to_nat k) l.
Proof.
  move=> H0 Hk. rw /slice /slice_bound bool_decide_eq_false_2; first lia. rw bool_decide_eq_true_2; first lia.
  rw Z.min_l; first lia. rw drop_0. f_equal. lia.
Qed.
(** C18: A burst of tokens from a multi-step run leaves the sequence exactly as if the
    single-step engine had processed its tokens one at a time until the sequence
    was finished: the same tokens and log probabilities, text, status, stop
    reason and count of computed tokens, and the same exception if one is
    raised. This holds although the multi-step processor cuts the burst at the
    length limit and at the end of the sequence before it looks at any token, for
    an unfinished decoding sequence with at most one token still to compute, if
    [max_tokens] is set, not below [min_tokens] and not yet reached; if there is a
    tokenizer and the end of the sequence is the one it names; if the model does not
    end the sequence before [min_tokens]; and if the LoRA request of the group,
    which only the single-step processor looks at, leaves the length limit of the
    model as it is. *)
Theorem multi_step_is_single_step c p lora max_tokens samples s :
  sp_max_tokens p = Some max_tokens → (min_tokens p ≤ max_tokens)%Z → (sd_get_output_len (sq_data s) < max_tokens)%Z →
  is_Some (ec_get_tokenizer c) → get_max_model_len (stop_len c) lora = stop_len c →
  ec_tokenizer_eos c s = sq_eos_token_id s →
  seq_is_finished s = false → sd_stage (sq_data s) = DECODE →
  (0 ≤ sd_get_num_uncomputed_tokens (sq_data s) ≤ 1)%Z →
  (ignore_eos p = false → ∀ i o, samples !! i = Some o → Some (sx_output_token o) = sq_eos_token_id s →
    (min_tokens p ≤ sd_get_output_len (sq_data s) + Z.of_nat i + 1)%Z) →
  process_seq_outputs c samples p s = one_by_one c p lora samples (sd_get_num_uncomputed_tokens (sq_data s) =? 0)%Z s.
Proof.
  move=> Hmax Hmin Hroom Hget Hlora Heos Hf Hst Hu He.
  have HB : burst_ready p max_tokens (sq_eos_token_id s) samples (sd_get_num_uncomputed_tokens (sq_data s) =? 0)%Z s.
  { split; try done. destruct (Z.eqb_spec (sd_get_num_uncomputed_tokens (sq_data s)) 0); lia. }
  rw -(burst_one_by_one c p lora max_tokens (sq_eos_token_id s) samples Hget Hlora Hmin Hmax _ s HB).
  rw /process_seq_outputs /mget {1}/mbind /M_bind Hmax. set (ids := sx_output_token <$> samples).
  set (out := sd_get_output_len (sq_data s)).
  have -> : (if (max_tokens - (out + Z.of_nat (length ids)) <? 0)%Z then slice ids 0 (max_tokens - (out + Z.of_nat (length ids))) else ids) =
    take (Z.to_nat (max_tokens - out)) ids.
  { destruct (Z.ltb_spec (max_tokens - (out + Z.of_nat (length ids))) 0) as [Hr|Hr]; last by rw take_ge //; lia.
    rw -slice_excess; [lia|lia|]. f_equal. lia. }
  destruct Hget as [get Hget]. rw Hget /kept_ids Heos. by destruct (ignore_eos p).
Qed.

(** * [create_output_by_sequence_group] *)
Definition snoc {A} (l : list A) (x : A) : list A := l ++ [x].
Lemma append_step step : ∀ pre acc, length acc = length step →
  fold_result append_output_at (imap (λ j x, (length pre + j, x)) step) (pre ++ acc) = Ok (pre ++ zip_with snoc acc step).
Proof.
  elim: step => [|x step IH] pre [|l acc] //= [Hl]. rw /append_output_at /= Nat.add_0_r list_lookup_middle //. rw {1}/mbind /result_bind.
  have -> : <[length pre:=l ++ [x]]> (pre ++ l :: acc) = (pre ++ [l ++ [x]]) ++ acc.
  { by rw -(Nat.add_0_r (length pre)) insert_app_r /= -app_assoc. }
  have -> : imap ((λ j x0, (length pre + j, x0)) ∘ S) step = imap (λ j x0, (length (pre ++ [l ++ [x]]) + j, x0)) step.
  { apply imap_ext => i y _ /=. rw length_app /=. f_equal. lia. }
  rw IH //. by rw -app_assoc.
Qed.
(** Each step adds its column. *)
Lemma append_steps outputs : ∀ acc : list (list CompletionSequenceGroupOutput), Forall (λ step, length step = length acc) outputs →
  ∃ t, fold_result (λ acc step, fold_result append_output_at (imap pair step) acc) outputs acc = Ok t ∧ length t = length acc ∧
    ∀ i l, acc !! i = Some l → ∃ column, t !! i = Some (l ++ column) ∧ Some <$> column = (λ step, step !! i) <$> outputs.
Proof.
  elim: outputs => [|step outputs IH] acc /=.
  { move=> _. exists acc. split_and!; [done|done|]. move=> i l Hl. exists []. by rw app_nil_r. }
  move=> /Forall_cons [Hs Ho]. have H := append_step step [] acc (eq_sym Hs). cbn [length app] in H.
  change (imap (λ j x, (0 + j, x)) step) with (imap pair step) in H. rw H {1}/mbind /result_bind. clear H.
  have Hlen : length (zip_with snoc acc step) = length acc by rw length_zip_with; lia.
  destruct (IH (zip_with snoc acc step)) as [t [Ht [Hl Hc]]]; first by rw Hlen.
  exists t. split_and!; [done|by rw Hl|]. move=> i l Hi.
  destruct (step !! i) as [x|] eqn:Hx; last by apply lookup_ge_None in Hx; apply lookup_lt_Some in Hi; lia.
  destruct (Hc i (l ++ [x])) as [column [H1 H2]]; first by rw lookup_zip_with Hi /= Hx.
  exists (x :: column). rw H1 -app_assoc. split; [done|]. cbn. by rw H2.
Qed.
(** Results that come step by step are handed on group by group: the outputs of the
    [i]-th group are the [i]-th outputs of the steps, in the order of the steps. *)
Theorem output_by_group_transposes (outputs : list SamplerOutput) n :
  Forall (λ step, length step = n) outputs →
  ∃ t, create_output_by_sequence_group outputs n = Ok t ∧ length t = n ∧
    ∀ i, i < n → ∃ column, t !! i = Some column ∧ Some <$> column = (λ step : SamplerOutput, step !! i) <$> outputs.
Proof.
  move=> Ho. destruct (append_steps outputs (replicate n [])) as [t [H1 [H2 H3]]]; first by rw length_replicate.
  rw length_replicate in H2. exists t. split_and!; [done|done|]. move=> i Hi.
  apply (H3 i []). by apply lookup_replicate_2.
Qed.
