(* ===== verification/V0SchedFrame.v ===== *)
(** What the V0 scheduler never touches: the content of the sequences (ids, tokens,
    text, log probabilities, reasons to stop) and whatever the block manager keeps
    beside its blocks. *)
From Stdlib Require Import ssreflect ZArith Lia.
From stdpp Require Import base numbers list gmap strings.
From S2P Require Import Prelude SamplingParams Detokenizer SequenceData Sequences BlockTable BlockManager SchedConfig V0Types V0Sched V0Phases V0Schedule V0Frame.

#[export] Hint Resolve any_exn_faultless manager_quiet_any quiet_any : keeps.
#[export] Hint Extern 2 (any_exn _) => exact I : keeps.

(** * Contents *)
Definition seq_content (q : Sequence) :=
  (sq_seq_id q, sq_prompt q, sq_prompt_token_ids q, sq_eos_token_id q, (sd_prompt_token_ids (sq_data q), sd_output_token_ids (sq_data q)),
   sd_cached_all_token_ids (sq_data q), sq_output_logprobs q, sq_output_text q, sq_stop_reason q).
Definition group_content (g : SequenceGroup) :=
  (sg_request_id g, sg_sampling_params g, sg_lora_request g, sg_encoder_seq g, seq_content <$> sg_seqs g).
Definition gframe (g g' : SequenceGroup) : Prop := group_content g' = group_content g.
#[export] Instance gframe_preorder : PreOrder gframe.
Proof. split; first by move=> g. move=> g1 g2 g3 H1 H2. by etrans. Qed.
#[export] Hint Extern 2 (gframe _ _) => reflexivity : keeps.
Lemma seqs_gframe f g : (∀ q, seq_content (f q) = seq_content q) → gframe g (set_sg_seqs (f <$> sg_seqs g) g).
Proof.
  move=> H. rw /gframe /group_content /=. f_equal. rw -list_fmap_compose. apply list_fmap_ext. move=> i q _ /=. by rw H.
Qed.
Lemma alter_gframe f i g : (∀ q, sg_seqs g !! i = Some q → seq_content (f q) = seq_content q) →
  gframe g (set_sg_seqs (alter f i (sg_seqs g)) g).
Proof.
  move=> H. rw /gframe /group_content /=. f_equal. apply list_eq => k. rw !list_lookup_fmap.
  destruct (decide (k = i)) as [->|Hne]; last by rw list_lookup_alter_ne.
  rw list_lookup_alter_eq. destruct (sg_seqs g !! i) as [q|] eqn:Hq; first by rw /= H. done.
Qed.
Lemma pure_gframe {A} (m : M SequenceGroup A) : keeps eq any_exn m → keeps gframe any_exn m.
Proof. apply keeps_eq, _. Qed.
Lemma modify_gframe f : (∀ g, gframe g (f g)) → keeps gframe any_exn (mmodify f).
Proof. by apply keeps_modify. Qed.
#[export] Hint Resolve pure_gframe modify_gframe : keeps.
Lemma init_multi_step_gframe n : keeps gframe any_exn (init_multi_step n).
Proof. rw /init_multi_step. keeps_auto. Qed.
#[export] Hint Resolve init_multi_step_gframe : keeps.
Lemma init_lookahead_gframe a b d e : keeps gframe any_exn (init_multi_step_from_lookahead_slots a b d e).
Proof. rw /init_multi_step_from_lookahead_slots. keeps_auto. Qed.
Lemma first_scheduled_gframe t : keeps gframe any_exn (maybe_set_first_scheduled_time t).
Proof. move=> g. rw /maybe_set_first_scheduled_time. wp_step. wp_step. wp_step; [by wp_step|done]. Qed.
#[export] Hint Resolve init_lookahead_gframe first_scheduled_gframe : keeps.

(** * The scheduler *)
(** What the operations of the block manager keep of its state. *)
Record manager_keeps {B : Type} `{BSM : BlockSpaceManager B} (R : B → B → Prop) : Prop := {
  mk_can_allocate g n : keeps R any_exn (bsm_can_allocate g n);
  mk_allocate g : keeps R any_exn (bsm_allocate g);
  mk_can_append_slots g n : keeps R any_exn (bsm_can_append_slots g n);
  mk_append_slots q n : keeps R any_exn (bsm_append_slots q n);
  mk_can_swap_in g n : keeps R any_exn (bsm_can_swap_in g n);
  mk_swap_in g : keeps R any_exn (bsm_swap_in g);
  mk_can_swap_out g : keeps R any_exn (bsm_can_swap_out g);
  mk_swap_out g : keeps R any_exn (bsm_swap_out g);
  mk_free q : keeps R any_exn (bsm_free q);
  mk_free_cross g : keeps R any_exn (bsm_free_cross g);
  mk_get_block_table q : keeps R any_exn (bsm_get_block_table q);
  mk_get_cross_block_table g : keeps R any_exn (bsm_get_cross_block_table g);
  mk_access q n : keeps R any_exn (bsm_access_all_blocks_in_seq q n);
  mk_common l : keeps R any_exn (bsm_get_common_computed_block_ids l);
  mk_mark g n : keeps R any_exn (bsm_mark_blocks_as_computed g n);
  mk_cached q : keeps R any_exn (bsm_get_num_cached_tokens q);
}.

Section frame.
Context {B : Type} `{BSM : BlockSpaceManager B}.
Context (RB : B → B → Prop) `{!PreOrder RB} (HB : manager_keeps RB).
Context (conf : V0Config) (callback : option (string → M (V0Scheduler B) unit)).
Implicit Types s : V0Scheduler B.
Abbreviation VS := (M (V0Scheduler B)).
Abbreviation PS := (M (Pass B)).

Record frame s s' : Prop := {
  fr_groups : group_content <$> vs_groups s' = group_content <$> vs_groups s;
  fr_manager : RB (vs_block_manager s) (vs_block_manager s');
}.
#[global] Instance frame_preorder : PreOrder frame.
Proof.
  split; first by move=> s; split. move=> s1 s2 s3 [H1 H2] [H3 H4]. split; [by etrans|exact (transitivity H2 H4)].
Qed.
#[local] Hint Extern 2 (frame _ _) => by split : keeps.
Lemma pure_frame {A} (m : VS A) : keeps eq any_exn m → keeps frame any_exn m.
Proof. apply keeps_eq, _. Qed.
Lemma on_manager_frame {A} (m : M B A) : keeps RB any_exn m → keeps frame any_exn (on_manager m).
Proof. move=> H s. rw /on_manager. wp_step. eapply wp_mono; [apply H| |done]. move=> a b Hb. by split. Qed.
Lemma on_group_frame {A} r (m : M SequenceGroup A) : keeps gframe any_exn m → keeps frame any_exn (on_group (B := B) r m).
Proof.
  move=> H s. apply on_group_spec; [done|]. move=> g Hg. eapply wp_mono; [apply H| |done]. move=> a g' Hf.
  split; [|done]. rw /= list_fmap_insert Hf list_insert_id; [by rw list_lookup_fmap Hg|done].
Qed.
#[local] Hint Resolve pure_frame on_manager_frame on_group_frame : keeps.
#[local] Hint Resolve mk_can_allocate mk_allocate mk_can_append_slots mk_append_slots mk_can_swap_in mk_swap_in mk_can_swap_out
  mk_swap_out mk_free mk_free_cross mk_get_block_table mk_get_cross_block_table mk_access mk_common mk_mark mk_cached : keeps.
Lemma upd_seq_frame r i f : (∀ q, seq_content (f q) = seq_content q) → keeps frame any_exn (upd_seq (B := B) r i f).
Proof. move=> H. apply on_group_frame, keeps_modify. move=> g. by apply alter_gframe. Qed.
Lemma retag_frame r i st : keeps frame any_exn (upd_seq (B := B) r i (set_sq_status st)).
Proof. by apply upd_seq_frame. Qed.
Lemma free_seq_frame q : keeps frame any_exn (free_seq (B := B) q).
Proof. rw /free_seq. keeps_auto. Qed.
Lemma free_cross_frame r : keeps frame any_exn (free_cross_attn_blocks (B := B) r).
Proof. rw /free_cross_attn_blocks. keeps_auto. Qed.
Lemma time_frame : keeps frame any_exn (v0_time (B := B)).
Proof. rw /v0_time. keeps_auto. Qed.
Lemma draw_frame : keeps frame any_exn (draw (B := B)).
Proof. rw /draw. keeps_auto. Qed.
#[local] Hint Resolve retag_frame free_seq_frame free_cross_frame time_frame draw_frame : keeps.
Lemma free_finished_seqs_frame r : keeps frame any_exn (free_finished_seqs (B := B) r).
Proof. rw /free_finished_seqs. keeps_auto. Qed.
#[local] Hint Resolve free_finished_seqs_frame : keeps.
Lemma free_finished_seq_group_frame r : keeps frame any_exn (free_finished_seq_group (B := B) r).
Proof. rw /free_finished_seq_group. keeps_auto. Qed.
#[local] Hint Resolve free_finished_seq_group_frame : keeps.
Lemma free_finished_seq_groups_frame : keeps frame any_exn (free_finished_seq_groups (B := B)).
Proof. rw /free_finished_seq_groups. keeps_auto. Qed.
Lemma new_tokens_of_seq_frame q : keeps frame any_exn (new_tokens_of_seq (B := B) conf q).
Proof. rw /new_tokens_of_seq. keeps_auto. Qed.
#[local] Hint Resolve new_tokens_of_seq_frame : keeps.
Lemma new_tokens_frame r st ec b : keeps frame any_exn (get_num_new_uncached_and_cached_tokens (B := B) conf r st ec b).
Proof. rw /get_num_new_uncached_and_cached_tokens. keeps_auto. Qed.
Lemma can_append_slots_frame r ec : keeps frame any_exn (can_append_slots (B := B) conf r ec).
Proof. rw /can_append_slots. keeps_auto. Qed.
Lemma append_group_slots_frame r ec : keeps frame any_exn (append_group_slots (B := B) conf r ec).
Proof. rw /append_group_slots. keeps_auto. Qed.
Lemma allocate_frame r : keeps frame any_exn (allocate_and_set_running (B := B) r).
Proof. rw /allocate_and_set_running. keeps_auto. Qed.
(** The sequence that is written back has the content of the one that was read. *)
Lemma the_seq_spec r i s : wp (the_seq r i) s (λ q s', s' = s ∧ ∃ g, vs_groups s !! r = Some g ∧ sg_seqs g !! i = Some q) any_exn.
Proof.
  rw /the_seq. apply on_group_spec; [done|]. move=> g Hg. rw /group_seq. wp_step. wp_step.
  destruct (sg_seqs g !! i) as [q|] eqn:Hq; wp_step; last done. rw list_insert_id; [done|]. split; [by destruct s|by exists g].
Qed.
Definition seq_at s r i q : Prop := ∃ g, vs_groups s !! r = Some g ∧ sg_seqs g !! i = Some q.
Lemma write_seq_frame r i q q' s : seq_at s r i q → seq_content q' = seq_content q →
  wp (upd_seq r i (λ _, q')) s (λ _ s', frame s s') any_exn.
Proof.
  move=> [g [Hg Hq]] Hc. rw /upd_seq. apply on_group_spec; [done|]. move=> g' Hg'. rw Hg in Hg'. injection Hg' as <-. wp_step.
  split; [|done]. rw /= list_fmap_insert list_insert_id; [|done]. rw list_lookup_fmap Hg /=. f_equal. symmetry.
  apply alter_gframe. move=> q2. rw Hq. by move=> [= <-].
Qed.
Lemma free_seq_groups q s : wp (free_seq q) s (λ _ s', frame s s' ∧ vs_groups s' = vs_groups s) any_exn.
Proof.
  rw /free_seq /on_manager. wp_step. eapply wp_mono; [by apply mk_free| |done]. move=> u b Hb. split; [by split|done].
Qed.
Lemma preempt_by_recompute_frame r : keeps frame any_exn (preempt_by_recompute (B := B) r).
Proof.
  rw /preempt_by_recompute. apply keeps_bind; [apply _|by keeps_auto|]. move=> idx. apply keeps_bind; [apply _|by keeps_auto|].
  move=> _. apply keeps_for; [apply _|]. move=> i s1. wp_step. eapply wp_mono; [apply retag_frame| |done]. move=> u1 s2 H2. wp_step.
  eapply wp_mono; [apply the_seq_spec| |done]. move=> q s3 [-> Hq]. wp_step.
  eapply wp_mono; [apply free_seq_groups| |done]. move=> u3 s4 [H3 Hg]. wp_step. apply wp_lift; last done.
  move=> [u4 q'] Hq'. eapply wp_mono; [eapply (write_seq_frame _ _ q)| |done].
  - rw /seq_at Hg. exact Hq.
  - move: Hq'. rw /seq_reset_state_for_recompute /on_data /zoom /sd_reset_state_for_recompute /mmodify /mbind /M_bind /=.
    by move=> [= _ <-].
  - move=> u5 s5 H5. etrans; [exact H2|]. by etrans.
Qed.
Lemma v0_swap_in_frame r : keeps frame any_exn (v0_swap_in (B := B) r).
Proof. rw /v0_swap_in /mapping_of. keeps_auto. Qed.
Lemma v0_swap_out_frame r : keeps frame any_exn (v0_swap_out (B := B) r).
Proof. rw /v0_swap_out /mapping_of. keeps_auto. Qed.
#[local] Hint Resolve preempt_by_recompute_frame v0_swap_in_frame v0_swap_out_frame : keeps.
Lemma preempt_frame r : keeps frame any_exn (preempt (B := B) conf r).
Proof. rw /preempt. keeps_auto. Qed.
Lemma passed_delay_frame now : keeps frame any_exn (passed_delay (B := B) conf now).
Proof. rw /passed_delay. keeps_auto. by move=> s; destruct (vs_prev_prompt s); split. Qed.
#[local] Hint Resolve preempt_frame passed_delay_frame new_tokens_frame can_append_slots_frame append_group_slots_frame
  allocate_frame : keeps.

(** * The phases *)
Context (HC : ∀ f id, callback = Some f → keeps frame any_exn (f id)).
Definition pframe (p p' : Pass B) : Prop := frame (ps_sched p) (ps_sched p').
#[global] Instance pframe_preorder : PreOrder pframe.
Proof. split; first by move=> p; rw /pframe. move=> p1 p2 p3 H1 H2. rw /pframe. by etrans. Qed.
#[local] Hint Extern 2 (pframe _ _) => by rw /pframe : keeps.
Lemma on_sch_frame {A} (m : VS A) : keeps frame any_exn m → keeps pframe any_exn (on_sch m).
Proof. move=> H p. rw /on_sch. wp_step. by eapply wp_mono; [apply H| |done]. Qed.
Lemma on_budget_frame {A} (m : M SchedulingBudget A) : keeps pframe any_exn (on_budget (B := B) m).
Proof. apply keeps_zoom; [apply quiet_any|]. by move=> p b; rw /pframe. Qed.
Lemma modify_frame f : (∀ s, frame s (f s)) → keeps frame any_exn (mmodify f).
Proof. by apply keeps_modify. Qed.
Lemma callback_frame f id : callback = Some f → keeps frame any_exn (f id).
Proof. apply HC. Qed.
#[local] Hint Resolve modify_frame on_sch_frame on_budget_frame callback_frame request_id_pure : keeps.
Lemma add_lora_frame id : keeps pframe any_exn (add_lora (B := B) id).
Proof. rw /add_lora. keeps_auto. Qed.
Lemma drop_lora_frame id : keeps pframe any_exn (drop_lora (B := B) id).
Proof. rw /drop_lora. keeps_auto. Qed.
Lemma p_new_tokens_frame r st ec : keeps pframe any_exn (new_tokens (B := B) conf r st ec).
Proof. rw /new_tokens. keeps_auto. Qed.
Lemma lora_full_frame id : keeps pframe any_exn (lora_full (B := B) conf id).
Proof. rw /lora_full. keeps_auto. Qed.
#[local] Hint Resolve add_lora_frame drop_lora_frame p_new_tokens_frame lora_full_frame : keeps.
Lemma preempt_victim_frame v ret : keeps pframe any_exn (preempt_victim (B := B) conf callback v ret).
Proof. rw /preempt_victim. destruct callback as [f|] eqn:Hf; keeps_auto. Qed.
#[local] Hint Resolve preempt_victim_frame : keeps.
Lemma make_room_frame fuel r n ec : ∀ ret, keeps pframe any_exn (make_room (B := B) conf callback fuel r n ec ret).
Proof. elim: fuel => [|fuel IH] ret; cbn [make_room]; keeps_auto. Qed.
Lemma run_group_frame r n ec ret : keeps pframe any_exn (run_group (B := B) conf r n ec ret).
Proof. rw /run_group. keeps_auto. Qed.
#[local] Hint Resolve make_room_frame run_group_frame : keeps.
Lemma running_loop_frame fuel ec : ∀ ret, keeps pframe any_exn (v0_running_loop (B := B) conf callback fuel ec ret).
Proof. elim: fuel => [|fuel IH] ret; cbn [v0_running_loop]; keeps_auto. Qed.
#[local] Hint Resolve running_loop_frame : keeps.
Lemma schedule_running_frame ec : keeps pframe any_exn (schedule_running (B := B) conf callback ec).
Proof. rw /schedule_running. keeps_auto. Qed.
Lemma swap_in_group_frame r l n u k ec ret : keeps pframe any_exn (swap_in_group (B := B) conf r l n u k ec ret).
Proof. rw /swap_in_group. keeps_auto. Qed.
Lemma set_all_frame r st : keeps frame any_exn (on_group (B := B) r (mmodify (set_all_seqs (set_sq_status st)))).
Proof. apply on_group_frame, keeps_modify. move=> g. by apply seqs_gframe. Qed.
#[local] Hint Resolve swap_in_group_frame set_all_frame : keeps.
Lemma swapped_loop_frame fuel ec : ∀ l ret, keeps pframe any_exn (swapped_loop (B := B) conf fuel ec l ret).
Proof. elim: fuel => [|fuel IH] l ret; cbn [swapped_loop]; keeps_auto. Qed.
#[local] Hint Resolve swapped_loop_frame : keeps.
Lemma schedule_swapped_frame ec : keeps pframe any_exn (schedule_swapped (B := B) conf ec).
Proof. rw /schedule_swapped. keeps_auto. Qed.
Lemma sort_queue_frame q : keeps frame any_exn (sort_queue (B := B) q).
Proof. rw /sort_queue. keeps_auto. Qed.
#[local] Hint Resolve sort_queue_frame : keeps.
Lemma priority_loop_frame q r n k : ∀ count, keeps pframe any_exn (priority_loop (B := B) conf q r n k count).
Proof. elim: q => [|v q IH] count; cbn [priority_loop]; keeps_auto. Qed.
#[local] Hint Resolve priority_loop_frame : keeps.
Lemma priority_preemption_frame : keeps pframe any_exn (schedule_priority_preemption (B := B) conf).
Proof. rw /schedule_priority_preemption. keeps_auto. Qed.
Lemma pop_waiting_frame : keeps pframe any_exn (pop_waiting (B := B)).
Proof. rw /pop_waiting. keeps_auto. Qed.
#[local] Hint Resolve pop_waiting_frame : keeps.
Lemma ignore_waiting_frame r ret : keeps pframe any_exn (ignore_waiting (B := B) r ret).
Proof. rw /ignore_waiting. keeps_auto. Qed.
Lemma start_prefill_frame r l n k u ca ec ret : keeps pframe any_exn (start_prefill (B := B) conf r l n k u ca ec ret).
Proof. rw /start_prefill. keeps_auto. Qed.
#[local] Hint Resolve ignore_waiting_frame start_prefill_frame : keeps.
Lemma prefills_loop_frame fuel ec : ∀ l ret, keeps pframe any_exn (prefills_loop (B := B) conf fuel ec l ret).
Proof. elim: fuel => [|fuel IH] l ret; cbn [prefills_loop]; keeps_auto. Qed.
#[local] Hint Resolve prefills_loop_frame : keeps.
Lemma schedule_prefills_frame ec : keeps pframe any_exn (schedule_prefills (B := B) conf ec).
Proof. rw /schedule_prefills. keeps_auto. Qed.
#[local] Hint Resolve schedule_running_frame schedule_swapped_frame priority_preemption_frame schedule_prefills_frame : keeps.

(** * [schedule] *)
Lemma outputs_post_init_frame o : keeps frame any_exn (outputs_post_init (B := B) o).
Proof. rw /outputs_post_init /num_loras /sort_by_lora_ids. keeps_auto. Qed.
#[local] Hint Resolve outputs_post_init_frame : keeps.
Lemma default_pass_frame : keeps pframe any_exn (schedule_default_pass (B := B) conf callback).
Proof. rw /schedule_default_pass /count_running /running_loras /check_budget /extend_running. keeps_auto. Qed.
Lemma chunked_pass_frame : keeps pframe any_exn (schedule_chunked_prefill_pass (B := B) conf callback).
Proof. rw /schedule_chunked_prefill_pass /check_budget /extend_running. keeps_auto. Qed.
Lemma schedule_pass_frame : keeps frame any_exn (schedule_pass (B := B) conf callback).
Proof.
  move=> s. rw /wp /schedule_pass. set (p := {| ps_sched := s; ps_budget := _; ps_loras := None |}).
  destruct (cf_chunked_prefill_enabled (vc_scheduler conf)).
  - have H := chunked_pass_frame p. rw /wp in H. by destruct (schedule_chunked_prefill_pass conf callback p) as [[o p']|e].
  - have H := default_pass_frame p. rw /wp in H. by destruct (schedule_default_pass conf callback p) as [[o p']|e].
Qed.
Lemma running_deltas_frame r : keeps frame any_exn (running_deltas (B := B) r).
Proof.
  rw /running_deltas. apply keeps_bind; [apply _|by keeps_auto|]. move=> idx. apply keeps_fold; [apply _|]. move=> d i s1. wp_step. eapply wp_mono; [apply the_seq_spec| |done]. move=> q s3 [-> [g [Hg Hq]]].
  wp_step. apply wp_lift; last done. move=> [delta data] Hd. wp_step.
  rw /upd_seq. apply on_group_spec; [done|]. move=> g' Hg'. rw Hg in Hg'. injection Hg' as <-. wp_step. wp_step.
  split; [|done]. rw /= list_fmap_insert list_insert_id; [|done]. rw list_lookup_fmap Hg /=. f_equal. symmetry.
  apply alter_gframe. move=> q2. rw Hq. move=> [= <-]. move: Hd. rw /get_delta_and_reset /mget /mput /mbind /M_bind /=.
  by move=> [= _ <-].
Qed.
#[local] Hint Resolve schedule_pass_frame running_deltas_frame : keeps.
Lemma group_message_frame now x : keeps frame any_exn (group_message (B := B) conf now x).
Proof. rw /group_message /running_tables /running_data. keeps_auto. Qed.
#[local] Hint Resolve group_message_frame : keeps.
(** A pass leaves the content of all sequences as it is, and what the block manager
    keeps beside its blocks. *)
Lemma v0_schedule_frame : keeps frame any_exn (v0_schedule (B := B) conf callback).
Proof. rw /v0_schedule. keeps_auto. Qed.
End frame.
