(* ===== verification/V0EngineFrame.v ===== *)
(** What the output processing of the V0 engine leaves alone: the queues, and the
    status of every sequence but the ones it finishes. *)
From Stdlib Require Import ssreflect ZArith Lia.
From stdpp Require Import base numbers list gmap strings.
From S2P Require Import Prelude SamplingParams Detokenizer.
From S2P Require Import SequenceData Sequences BlockTable BlockManager SchedConfig V0Types V0Sched V0Phases V0Schedule V0Frame V0Outputs V0Engine V0ProcTheorems.

(** * Groups whose sequences keep their status and their output tokens *)
Definition mark (q : Sequence) : SequenceStatus * list Z := (sq_status q, sd_output_token_ids (sq_data q)).
Definition marks_of (g : SequenceGroup) : list (SequenceStatus * list Z) := mark <$> sg_seqs g.
Definition gsame (g g' : SequenceGroup) : Prop := sg_request_id g' = sg_request_id g ∧ marks_of g' = marks_of g.
#[export] Instance gsame_preorder : PreOrder gsame.
Proof. split; first by move=> g. move=> g1 g2 g3 [H1 H2] [H3 H4]. split; by etrans. Qed.
#[export] Instance gkept_preorder : PreOrder gkept.
Proof. split; first by move=> g; split. move=> g1 g2 g3 [H1 H2] [H3 H4]. split; [by etrans|auto]. Qed.
Lemma gsame_gkept g g' : gsame g g' → gkept g g'.
Proof.
  move=> [H1 H2]. split; first done. move: H2. rw /marks_of /group_fin.
  destruct (sg_seqs g) as [|q l], (sg_seqs g') as [|q' l']; try done. rw /seq_is_finished. by move=> [= -> _].
Qed.
#[export] Hint Extern 2 (gsame _ _) => by split : keeps.
Definition same_mark (s s' : Sequence) : Prop := mark s' = mark s.
#[export] Instance same_mark_preorder : PreOrder same_mark.
Proof. split; first by move=> s. move=> s1 s2 s3 H1 H2. by etrans. Qed.
#[export] Hint Extern 2 (same_mark _ _) => by rw /same_mark : keeps.
Lemma marks_insert g i q q' : sg_seqs g !! i = Some q → mark q' = mark q →
  marks_of (set_sg_seqs (<[i := q']> (sg_seqs g)) g) = marks_of g.
Proof. move=> Hi Hq. rw /marks_of /= list_fmap_insert Hq list_insert_id; [by rw list_lookup_fmap Hi|done]. Qed.
Section groups.
Context (E : exn → Prop) `{HE : !Faultless E}.
Lemma on_nth_seq_same {A} i (m : SQ A) : keeps same_mark E m → keeps gsame E (on_nth_seq i m).
Proof.
  move=> H g. rw /on_nth_seq /group_seq. wp_step. wp_step. wp_step. destruct (sg_seqs g !! i) as [q|] eqn:Hq; last by wp_step; apply HE.
  wp_step. wp_step. have H1 := H q. apply wp_lift; last by move=> e He; rw /wp He in H1. move=> [a q'] Ha. wp_step. wp_step. wp_step. split; first done.
  eapply marks_insert; [exact Hq|]. by rw /wp Ha in H1.
Qed.
Lemma text_to_return_same n d : keeps same_mark E (get_output_text_to_return n d).
Proof.
  move=> s. rw /get_output_text_to_return. wp_step. wp_step. destruct (negb d); first by wp_step.
  destruct (_ <? _)%Z; last by wp_step. wp_step. wp_step. by wp_step.
Qed.
Lemma ids_to_return_same d : keeps same_mark E (get_output_token_ids_to_return d).
Proof.
  move=> s. rw /get_output_token_ids_to_return. wp_step. wp_step. destruct (negb d); first by wp_step.
  wp_step. wp_step. destruct (_ =? 1)%Z; first by destruct (last _); wp_step; [done|apply HE].
  destruct (_ =? 0)%Z; by wp_step.
Qed.
#[local] Hint Resolve text_to_return_same ids_to_return_same : keeps.
Lemma completion_output_same p i : keeps same_mark E (completion_output p i).
Proof. rw /completion_output. keeps_auto. Qed.
Lemma group_outputs_same p : keeps gsame E (group_outputs p).
Proof.
  rw /group_outputs. keeps_auto.
  - apply on_nth_seq_same, completion_output_same.
  - apply keeps_eq; [apply _|]. apply group_seq_pure, _.
Qed.
Lemma pure_gsame {A} (m : SG A) : keeps eq E m → keeps gsame E m.
Proof. apply keeps_eq, _. Qed.
Lemma set_finished_time_same t : keeps gsame E (set_finished_time t).
Proof. rw /set_finished_time. keeps_auto. Qed.
Lemma first_token_time_same t : keeps gsame E (maybe_set_first_token_time t).
Proof.
  move=> g. rw /maybe_set_first_token_time. wp_step. wp_step. wp_step.
  eapply wp_mono; [apply first_seq_pure, _| |done]. move=> q g' <-. wp_step; last done. by wp_step.
Qed.
Lemma gets_same {A} (f : SequenceGroup → A) : keeps gsame E (mgets f).
Proof. apply keeps_gets, _. Qed.
Lemma get_same : keeps gsame E mget.
Proof. apply keeps_get, _. Qed.
End groups.
#[export] Hint Resolve gets_same get_same pure_gsame group_outputs_same set_finished_time_same first_token_time_same : keeps.

Section frame.
Context {B : Type} `{BSM : BlockSpaceManager B}.
Context (E : exn → Prop) `{HE : !Faultless E}.
Abbreviation VS := (M (V0Scheduler (B * V0Ctx))).
Implicit Types s : V0Scheduler (B * V0Ctx).

(** The ids of the assembled groups, and who is one of several samples. *)
Definition names_of (x : V0Ctx) : list (option string) * dict string nat :=
  ((λ p, (λ a : SequenceGroup * list nat, sg_request_id a.1) <$> pl_assembled p) <$> cx_samples x, cx_seq_id_to_seq_group x).
(** The queues, the ids and the statuses. *)
Record stat s s' : Prop := {
  sa_waiting : vs_waiting s' = vs_waiting s;
  sa_running : vs_running s' = vs_running s;
  sa_swapped : vs_swapped s' = vs_swapped s;
  sa_stopped : vs_async_stopped s' = vs_async_stopped s;
  sa_ids : sg_request_id <$> vs_groups s' = sg_request_id <$> vs_groups s;
  sa_marks : marks_of <$> vs_groups s' = marks_of <$> vs_groups s;
  sa_names : names_of (ctx_of s') = names_of (ctx_of s);
}.
#[global] Instance stat_preorder : PreOrder stat.
Proof. split; first by move=> s; split. move=> s1 s2 s3 [???????] [???????]. split; by etrans. Qed.
#[local] Hint Extern 2 (stat _ _) => by split : keeps.
Lemma stat_kept s s' : stat s s' → kept s s'.
Proof.
  move=> [????? H _]. split; try done. move=> r. rw /fin_at /group_fin.
  have Hr : marks_of <$> vs_groups s' !! r = marks_of <$> vs_groups s !! r by rw -!list_lookup_fmap H.
  destruct (vs_groups s !! r) as [g|], (vs_groups s' !! r) as [g'|]; try done. move: Hr => [= Hr].
  apply (gsame_gkept (set_sg_seqs (sg_seqs g) g') g'). by split.
Qed.
Lemma keeps_stat_kept {A} (m : VS A) : keeps stat E m → keeps kept E m.
Proof. apply keeps_mono, stat_kept. Qed.
Lemma pure_stat {A} (m : VS A) : keeps eq E m → keeps stat E m.
Proof. apply keeps_eq, _. Qed.
Lemma on_group_stat {A} r (m : SG A) : keeps gsame E m → keeps stat E (on_group r m).
Proof.
  move=> H s. apply on_group_spec; [done|]. move=> g Hg. eapply wp_mono; [apply H| |done]. move=> a g' [H1 H2].
  split=> //=; rw list_fmap_insert ?H1 ?H2 list_insert_id //; by rw list_lookup_fmap Hg.
Qed.
Lemma on_ctx_stat f : (∀ x, names_of (f x) = names_of x) → keeps stat E (on_ctx (B := B) (mmodify f)).
Proof. move=> H s. rw /on_ctx. wp_step. wp_step. split=> //. by rw /ctx_of /= H. Qed.
Lemma names_alter k f x :
  (∀ p, cx_samples x !! k = Some p →
    (λ a : SequenceGroup * list nat, sg_request_id a.1) <$> pl_assembled (f p) = (λ a, sg_request_id a.1) <$> pl_assembled p) →
  names_of (set_cx_samples (alter f k (cx_samples x)) x) = names_of x.
Proof.
  move=> H. rw /names_of /=. f_equal. apply list_eq => i. rw !list_lookup_fmap.
  destruct (decide (i = k)) as [->|Hne]; last by rw list_lookup_alter_ne.
  rw list_lookup_alter_eq. destruct (cx_samples x !! k) as [p|] eqn:Hp; last done. by rw /= H.
Qed.
Lemma the_group_stat r : keeps stat E (the_group (B := B * V0Ctx) r).
Proof. by apply pure_stat, the_group_pure. Qed.
Lemma time_stat : keeps stat E (v0_time (B := B * V0Ctx)).
Proof. rw /v0_time. keeps_auto. Qed.
#[local] Hint Resolve pure_stat on_group_stat on_ctx_stat the_group_stat time_stat request_id_pure : keeps.
Lemma the_sample_stat k : keeps stat E (the_sample (B := B) k).
Proof. rw /the_sample. keeps_auto. Qed.
Lemma upd_sample_stat k f : (∀ p, pl_assembled (f p) = pl_assembled p) → keeps stat E (upd_sample (B := B) k f).
Proof. move=> H. rw /upd_sample. apply on_ctx_stat => x. apply names_alter => p _. by rw H. Qed.
(** Storing the assembled group back, under its id. *)
Definition assembled_at k s (id : string) : Prop := ∃ p a, cx_samples (ctx_of s) !! k = Some p ∧ pl_assembled p = Some a ∧ sg_request_id a.1 = id.
Lemma set_assembled_stat k g refs s : assembled_at k s (sg_request_id g) →
  wp (upd_sample k (set_pl_assembled (Some (g, refs)))) s (λ _ s', stat s s') E.
Proof.
  move=> [p [a [Hp [Ha Hid]]]]. rw /upd_sample /on_ctx. wp_step. wp_step. split=> //. rw /ctx_of /=.
  apply names_alter => p' Hp'. rw Hp in Hp'. injection Hp' as <-. by rw /= Ha /= Hid.
Qed.
#[local] Hint Extern 2 (∀ p, pl_assembled _ = pl_assembled p) => done : keeps.
#[local] Hint Resolve the_sample_stat upd_sample_stat : keeps.
Lemma the_assembled_stat k s : wp (the_assembled k) s (λ a s', s' = s ∧ assembled_at k s (sg_request_id a.1)) E.
Proof.
  rw /the_assembled /the_sample. wp_step. wp_step. wp_step. destruct (cx_samples (ctx_of s) !! k) as [p|] eqn:Hp; wp_step; last by apply HE.
  destruct (pl_assembled p) as [a|] eqn:Ha; wp_step; last by apply HE. split; [done|]. by exists p, a.
Qed.
Lemma assembled_at_stat k s s' id : stat s s' → assembled_at k s id → assembled_at k s' id.
Proof.
  move=> [_ _ _ _ _ _ Hn] [p [a [Hp [Ha Hid]]]]. injection Hn as Hn _.
  have H : ((λ p, (λ a : SequenceGroup * list nat, sg_request_id a.1) <$> pl_assembled p) <$> cx_samples (ctx_of s')) !! k = Some (Some id).
  { by rw Hn list_lookup_fmap Hp /= Ha /= Hid. }
  rw list_lookup_fmap in H. destruct (cx_samples (ctx_of s') !! k) as [p'|] eqn:Hp'; last done. move: H => [= H].
  destruct (pl_assembled p') as [a'|] eqn:Ha'; last done. move: H => [= H]. by exists p', a'.
Qed.

(** The sequences of a sample, with their statuses. *)
Definition head_mark s r : option (SequenceStatus * list Z) := vs_groups s !! r ≫= (λ g, head (marks_of g)).
Lemma stat_head s s' r : stat s s' → head_mark s' r = head_mark s r.
Proof.
  move=> [_ _ _ _ _ Hs _]. have H : marks_of <$> vs_groups s' !! r = marks_of <$> vs_groups s !! r by rw -!list_lookup_fmap Hs.
  rw /head_mark. destruct (vs_groups s' !! r), (vs_groups s !! r); try done. move: H => [= H]. by rw /= H.
Qed.
Lemma sample_seqs_acc refs acc s :
  wp (mfold refs acc (λ l r, s ← on_group r first_seq; mret (l ++ [s]))) s (λ seqs s', s' = s ∧ ∃ more, seqs = acc ++ more ∧
    Forall2 (λ r q, head_mark s r = Some (mark q)) refs more) E.
Proof.
  move: acc. elim: refs => [|r refs IH] acc /=.
  { wp_step. split; [done|]. exists []. by rw app_nil_r. }
  wp_step. wp_step. apply on_group_spec; [done|]. move=> g Hg. rw /first_seq. wp_step. wp_step.
  destruct (sg_seqs g) as [|q l] eqn:Hq; wp_step; first by apply HE. wp_step. rw list_insert_id; [done|].
  replace (set_vs_groups (vs_groups s) s) with s; last by destruct s.
  eapply wp_mono; [apply IH| |done]. move=> seqs s' [-> [more [-> H]]]. split; [done|]. exists (q :: more).
  rw -app_assoc. split; [done|]. constructor; [|done]. by rw /head_mark Hg /= /marks_of Hq.
Qed.
Lemma sample_seqs_spec refs s :
  wp (sample_seqs refs) s (λ seqs s', s' = s ∧ Forall2 (λ r q, head_mark s r = Some (mark q)) refs seqs) E.
Proof. eapply wp_mono; [apply sample_seqs_acc| |done]. by move=> seqs s' [-> [more [-> H]]]. Qed.
Lemma on_assembled_stat {A} k (m : SG A) : keeps gsame E m → keeps stat E (on_assembled k m).
Proof.
  move=> H s. rw /on_assembled. wp_step. eapply wp_mono; [apply the_assembled_stat| |done]. move=> [g refs] s1 [-> Has]. cbn in Has.
  wp_step. eapply wp_mono; [apply sample_seqs_spec| |done]. move=> seqs s2 [-> H2].
  wp_step. have Hm := H (set_sg_seqs seqs g). apply wp_lift; last by move=> e He; rw /wp He in Hm. move=> [a g'] Ha.
  rw /wp Ha in Hm. destruct Hm as [Hid Hst]. cbn in Hid.
  wp_step. eapply wp_mono; [apply set_assembled_stat; by rw /= Hid| |done]. move=> u s3 H3. wp_step.
  eapply (wp_mono _ _ (λ _ s4, stat s3 s4) _ E); [|by move=> u4 s4 H4; wp_step; etrans; [exact H3|]|done].
  have Hz : ∀ x, x ∈ zip refs (sg_seqs g') → head_mark s3 x.1 = Some (mark x.2).
  { move=> [r q] /list_elem_of_lookup [i]. rw lookup_zip_with /=. destruct (refs !! i) as [r'|] eqn:Hr; last done.
    destruct (sg_seqs g' !! i) as [q'|] eqn:Hq; last done. move=> [= <- <-]. cbn.
    have Hq2 : mark <$> seqs !! i = Some (mark q').
    { rw -list_lookup_fmap. change (mark <$> seqs) with (marks_of (set_sg_seqs seqs g)). by rw -Hst /marks_of list_lookup_fmap Hq. }
    destruct (seqs !! i) as [q2|] eqn:Hq3; last done. have Hh := Forall2_lookup_lr _ _ _ _ _ _ H2 Hr Hq3. cbn in Hh.
    have {}Hq2 : Some (mark q2) = Some (mark q') by exact Hq2. have {}Hq2 : mark q2 = mark q' by congruence. by rw -Hq2 -Hh (stat_head _ _ _ H3). }
  apply (wp_for _ _ (stat s3)); first by reflexivity. move=> [r q] s4 Hx H4. have {}Hz := Hz _ Hx. cbn in Hz.
  eapply (wp_mono _ _ (λ _ s5, stat s4 s5) _ E); [|by move=> u5 s5 H5; etrans|done].
  have {}Hz : head_mark s4 r = Some (mark q). { by rw (stat_head _ _ _ H4). }
  rw /upd_seq. apply on_group_spec; [done|]. move=> g4 Hg4. wp_step. move: Hz. rw /head_mark Hg4 /= /marks_of.
  destruct (sg_seqs g4) as [|q4 l4] eqn:Hq4; first done. move=> Hq0. have {}Hq0 : Some (mark q4) = Some (mark q) by exact Hq0. have Hq : mark q4 = mark q by congruence. split=> //=; rw list_fmap_insert list_insert_id //=.
  - by rw list_lookup_fmap Hg4.
  - rw list_lookup_fmap Hg4 /marks_of /= Hq4 /=. by rw Hq.
Qed.
Lemma on_target_stat {A} t (m : SG A) : keeps gsame E m → keeps stat E (on_target (B := B) t m).
Proof. move=> H. destruct t; [by apply on_group_stat|by apply on_assembled_stat]. Qed.
Lemma sample_seqs_stat refs : keeps stat E (sample_seqs (B := B) refs).
Proof. move=> s. eapply wp_mono; [apply sample_seqs_spec| |done]. by move=> l s' [-> _]. Qed.
#[local] Hint Resolve on_target_stat sample_seqs_stat : keeps.
Lemma target_request_id_stat t : keeps stat E (target_request_id (B := B) t).
Proof. rw /target_request_id. apply on_target_stat, keeps_gets, _. Qed.
#[local] Hint Resolve target_request_id_stat : keeps.
Lemma finish_seq_stat k t : keeps stat E (finish_seq (B := B) k t).
Proof. rw /finish_seq. keeps_auto. Qed.
Lemma cut_to_best_stat k p g refs s : assembled_at k s (sg_request_id g) → wp (cut_to_best k p g refs) s (λ _ s', stat s s') E.
Proof.
  move=> H. rw /cut_to_best. destruct (sp_real_n p) as [n|]; last by wp_step. wp_step.
  eapply wp_mono; [apply sample_seqs_stat| |done]. move=> seqs s1 H1.
  eapply wp_mono; [apply set_assembled_stat; exact (assembled_at_stat _ _ _ _ H1 H)| |done]. move=> u s2 H2. exact (transitivity H1 H2).
Qed.
#[local] Hint Resolve finish_seq_stat : keeps.
(** An assembled group that is handed out exists. *)
Lemma maybe_assemble_spec k t s :
  wp (maybe_assemble_group k t) s (λ a s', stat s s' ∧ ∀ t', a = Some t' → t' = Assembled k ∧ ∃ id, assembled_at k s' id) E.
Proof.
  rw /maybe_assemble_group /the_sample. wp_step. wp_step. wp_step.
  destruct (cx_samples (ctx_of s) !! k) as [p|] eqn:Hp; wp_step; last by apply HE.
  destruct (pl_streaming p).
  { wp_step. eapply wp_mono; [apply target_request_id_stat| |done]. move=> id s1 H1.
    destruct (dget (pl_seq_id_to_index p) id) as [i|]; wp_step; last by apply HE. split; [done|].
    move=> t'. destruct (_ && _) eqn:Hb; last done. move=> [= <-]. split; [done|]. apply andb_true_iff in Hb as [_ Hb].
    apply bool_decide_eq_true in Hb as [a Ha]. exists (sg_request_id a.1). eapply assembled_at_stat; [exact H1|]. by exists p, a. }
  destruct (negb _); first by wp_step. destruct (pl_assembled p) as [[g refs]|] eqn:Ha; last by wp_step; apply HE.
  destruct (sg_sampling_params g) as [params|]; last by wp_step; apply HE. destruct (pl_output_produced p); first by wp_step.
  wp_step. eapply wp_mono; [by apply upd_sample_stat| |done]. move=> u s1 H1. wp_step.
  have Has : assembled_at k s1 (sg_request_id g) by eapply assembled_at_stat; [exact H1|]; exists p, (g, refs).
  eapply wp_mono; [by apply cut_to_best_stat| |done]. move=> u2 s2 H2. wp_step. split; [exact (transitivity H1 H2)|].
  move=> t' [= <-]. split; [done|]. exists (sg_request_id g). exact (assembled_at_stat _ _ _ _ H2 Has).
Qed.
Lemma own_output_stat t f : keeps stat E (own_output (B := B) t f).
Proof. rw /own_output /prompt_logprobs_of. keeps_auto. Qed.
#[local] Hint Resolve own_output_stat : keeps.
(** * Enough fuel for the outputs *)
(** A sample has a longer id than the request it belongs to. *)
Definition shrinks (n : list (option string) * dict string nat) : Prop :=
  ∀ id k name, dget n.2 id = Some k → n.1 !! k = Some (Some name) → String.length name < String.length id.
Lemma wp_conj {T A} (m : M T A) (t : T) (Q1 Q2 : A → T → Prop) : wp m t Q1 E → wp m t Q2 any_exn → wp m t (λ a t', Q1 a t' ∧ Q2 a t') E.
Proof. rw /wp. by destruct (m t) as [[a t']|e]. Qed.
Lemma assembled_names k s id : assembled_at k s id ↔ (names_of (ctx_of s)).1 !! k = Some (Some id).
Proof.
  rw /assembled_at /names_of /= list_lookup_fmap. split.
  - move=> [p [a [-> [H1 H2]]]]. by rw /= H1 /= H2.
  - destruct (cx_samples (ctx_of s) !! k) as [p|] eqn:Hp; last done. move=> [= H].
    destruct (pl_assembled p) as [a|] eqn:Ha; last done. move: H => [= H]. by exists p, a.
Qed.
Definition target_named (t : Target) s (id : string) : Prop :=
  match t with
  | Plain r => (sg_request_id <$> vs_groups s) !! r = Some id
  | Assembled k => (names_of (ctx_of s)).1 !! k = Some (Some id)
  end.
Lemma target_named_stat t s s' id : stat s s' → target_named t s' id ↔ target_named t s id.
Proof. move=> [_ _ _ _ H1 _ H2]. destruct t; by rw /target_named ?H1 ?H2. Qed.
Lemma target_request_id_spec t s : wp (target_request_id t) s (λ id s', stat s s' ∧ target_named t s id) E.
Proof.
  apply wp_conj; first apply target_request_id_stat. rw /target_request_id. destruct t as [r|k]; cbn [on_target target_named].
  - apply on_group_spec; [done|]. move=> g Hg. wp_step. by rw list_lookup_fmap Hg.
  - rw /on_assembled /the_assembled /the_sample. wp_step. wp_step. wp_step. wp_step.
    destruct (cx_samples (ctx_of s) !! k) as [p|] eqn:Hp; wp_step; last done.
    destruct (pl_assembled p) as [[g refs]|] eqn:Ha; wp_step; last done. wp_step. rw /wp. rw /mbind.
    destruct (sample_seqs refs s) as [[seqs s1]|e]; last done. rw {1}/M_bind /mlift /mgets {1}/M_bind.
    destruct (upd_sample k _ s1) as [[u s2]|e]; last done. rw {1}/M_bind.
    destruct (mfor _ _ s2) as [[u3 s3]|e]; last done. rw /mret /M_ret list_lookup_fmap Hp /=. by rw Ha.
Qed.
Lemma from_seq_group_spec fuel : ∀ t s id, shrinks (names_of (ctx_of s)) → target_named t s id → String.length id < fuel →
  wp (from_seq_group fuel t) s (λ _ s', stat s s') E.
Proof.
  elim: fuel => [|fuel IH] t s id Hsh Hid Hlen; first lia. cbn [from_seq_group].
  wp_step. eapply wp_mono; [apply (on_target_stat t), pure_gsame, group_is_finished_pure, _| |done]. move=> f s1 H1.
  wp_step. eapply wp_mono; [apply target_request_id_spec| |done]. move=> id' s2 [H2 Hid'].
  have {Hid'} -> : id' = id.
  { apply (target_named_stat _ _ _ _ H1) in Hid'. move: Hid Hid'. rw /target_named. destruct t; congruence. }
  have H12 : stat s s2 by exact (transitivity H1 H2). clear H1 H2. wp_step. wp_step.
  destruct (dget (cx_seq_id_to_seq_group (ctx_of s2)) id) as [k|] eqn:Hk; last first.
  { eapply wp_mono; [apply own_output_stat| |done]. move=> o s3 H3. exact (transitivity H12 H3). }
  wp_step. eapply (wp_mono _ _ (λ _ s3, stat s2 s3) _ E); [| |done].
  { wp_step; [apply finish_seq_stat|done]. }
  move=> u s3 H3. wp_step. eapply wp_mono; [apply maybe_assemble_spec| |done]. move=> a s4 [H4 Ha].
  have H24 : stat s s4 by exact (transitivity H12 (transitivity H3 H4)). destruct a as [t'|]; last by wp_step.
  destruct (Ha t' eq_refl) as [-> [id2 Hid2]]. apply assembled_names in Hid2. have Hn := sa_names _ _ H24.
  eapply wp_mono; [apply (IH (Assembled k) s4 id2)| |done].
  - by rw Hn.
  - done.
  - have : String.length id2 < String.length id; last by lia. apply (Hsh _ k); [|by rw -Hn].
    have -> : (names_of (ctx_of s)).2 = (names_of (ctx_of s2)).2 by rw (sa_names _ _ H12). done.
  - move=> o s5 H5. exact (transitivity H24 H5).
Qed.
(** The output of a group of the scheduler. *)
Lemma create_request_output_spec r s : shrinks (names_of (ctx_of s)) → wp (create_request_output r) s (λ _ s', stat s s') E.
Proof.
  move=> Hsh. rw /create_request_output /request_id_of. wp_step. wp_step. apply wp_the_group; [done|]. move=> g Hg. wp_step.
  wp_step. eapply wp_mono; [apply (from_seq_group_spec _ _ _ (sg_request_id g)); [done| |lia]| |done].
  - by rw /target_named list_lookup_fmap Hg.
  - move=> o s1 H1. destruct o as [o|]; last by wp_step. eapply wp_mono; [by apply on_ctx_stat| |done]. move=> u s2 H2.
    exact (transitivity H1 H2).
Qed.
End frame.
#[export] Hint Extern 2 (stat _ _) => by split : keeps.
#[export] Hint Resolve pure_stat on_group_stat on_ctx_stat the_group_stat time_stat : keeps.

(** * Processing the outputs *)
Definition finishes (s s' : Sequence) : Prop := seq_is_finished s = true → seq_is_finished s' = true.
#[export] Instance finishes_preorder : PreOrder finishes.
Proof. split; first by move=> s; rw /finishes. move=> s1 s2 s3 H1 H2. rw /finishes. eauto. Qed.
Lemma same_finishes s s' : same_mark s s' → finishes s s'.
Proof. rw /same_mark /finishes /seq_is_finished. by move=> [= -> _]. Qed.
Definition gkept_sized (g g' : SequenceGroup) : Prop := gkept g g' ∧ length (sg_seqs g') = length (sg_seqs g).
#[export] Hint Extern 2 (finishes _ _) => by rw /finishes : keeps.
(** Which exceptions a pure computation raises. *)
Definition raises_only {A} (E : exn → Prop) (r : result A) : Prop := ∀ e, r = Raise e → E e.
Lemma raises_bind {A C} (E : exn → Prop) (r : result A) (f : A → result C) :
  raises_only E r → (∀ a, raises_only E (f a)) → raises_only E (r ≫= f).
Proof. move=> H1 H2 e. destruct r as [a|e']; cbn; [apply H2|]. move=> [= <-]. by apply H1. Qed.
Lemma raises_ok {A} (E : exn → Prop) (a : A) : raises_only E (Ok a).
Proof. done. Qed.
Lemma raises_map {A C} (E : exn → Prop) (f : A → result C) l : (∀ a, raises_only E (f a)) → raises_only E (map_result f l).
Proof. move=> H. elim: l => [|x l IH] //=. apply raises_bind; [done|]. move=> y. by apply raises_bind. Qed.
Lemma raises_fold {A C} (E : exn → Prop) (f : C → A → result C) l : (∀ c a, raises_only E (f c a)) →
  ∀ c, raises_only E (fold_result f l c).
Proof. move=> H. elim: l => [|x l IH] c //=. by apply raises_bind. Qed.

Section sequences.
Context (E : exn → Prop) `{HE : !Faultless E}.
Definition tokenizer_sound (tok : Tokenizer) : Prop := ∀ l, raises_only E (convert_tokens_to_string tok l).
Lemma raises_raise {A} e : no_fault e → raises_only (A := A) E (Raise e).
Proof. move=> H e' [= <-]. by apply HE. Qed.
Lemma flush_sound tok l cur : tokenizer_sound tok → raises_only E (flush_sub_text tok l cur).
Proof. move=> H. rw /flush_sub_text. case_bool_decide; first done. by apply raises_bind. Qed.
Lemma encoders_sound tok sk toks : tokenizer_sound tok → ∀ l cur, raises_only E (added_encoders_loop tok sk toks l cur).
Proof.
  move=> H. elim: toks => [|t toks IH] l cur /=; first by apply flush_sound. destruct (sk && _); first done.
  destruct t; last done. case_bool_decide; last done. apply raises_bind; [by apply flush_sound|done].
Qed.
Lemma tokens_text_sound tok a b l : tokenizer_sound tok → raises_only E (tokens_text tok a b l).
Proof.
  move=> H. rw /tokens_text. destruct (_ || _); first apply H. rw /convert_tokens_to_string_with_added_encoders.
  apply raises_bind; [by apply encoders_sound|done].
Qed.
Lemma detokenize_sound tok ids prev po ro a b : tokenizer_sound tok → raises_only E (detokenize_incrementally tok ids prev po ro a b).
Proof.
  move=> H. rw /detokenize_incrementally. destruct (last ids); last by apply raises_raise.
  destruct (match prev with Some _ => _ | None => _ end) as [[toks p] r].
  apply raises_bind; [by apply tokens_text_sound|]. move=> t1. apply raises_bind; [by apply tokens_text_sound|]. move=> t2. by destruct (_ || _).
Qed.
Lemma decode_logprob_sound tok p s id t prev x : tokenizer_sound tok → raises_only E (decode_logprob tok p s id t prev x).
Proof.
  move=> H. rw /decode_logprob. destruct x as [i l]. destruct (_ =? _)%Z; first done. destruct (_ && _); last done.
  apply raises_bind; [by apply detokenize_sound|]. by move=> [[[? ?] ?] ?].
Qed.
Lemma prompt_logprob_sound tok p ids n acc x : tokenizer_sound tok → raises_only E (decode_prompt_logprob tok p ids n acc x).
Proof.
  move=> H. rw /decode_prompt_logprob. destruct acc as [v out], x as [i l]. destruct (_ && _); last done.
  apply raises_bind; [by apply detokenize_sound|]. move=> [[[? ?] ?] ?]. destruct (ids !! n); [done|by apply raises_raise].
Qed.
Lemma prompt_loop_sound tok p ids l : tokenizer_sound tok → ∀ n v, raises_only E (decode_prompt_loop tok p ids n v l).
Proof.
  move=> H. elim: l => [|o l IH] n v; cbn [decode_prompt_loop]; first done.
  destruct o as [[|x d]|]; try (apply raises_bind; [apply IH|done]).
  apply raises_bind; [by apply raises_fold; intros; apply prompt_logprob_sound|].
  move=> [v' d']. by apply raises_bind; [apply IH|].
Qed.
Lemma keeps_raises {S A} (R : S → S → Prop) `{!PreOrder R} (r : result A) : raises_only E r → keeps R E (mlift r).
Proof. move=> H. by apply keeps_lift. Qed.

Lemma keeps_finishes {A} (m : SQ A) : keeps same_mark E m → keeps finishes E m.
Proof. apply keeps_mono, same_finishes. Qed.
Lemma on_first_sized {A} (m : SQ A) : keeps finishes E m → keeps gkept_sized E (on_first m).
Proof.
  move=> H g. rw /on_first /first_seq. wp_step. wp_step. wp_step. destruct (sg_seqs g) as [|q l] eqn:Hq; first by wp_step; apply HE.
  wp_step. wp_step. have H1 := H q. apply wp_lift; last by move=> e He; rw /wp He in H1. move=> [a q'] Ha. wp_step. wp_step. wp_step.
  split; last by rw /= Hq. split; first done. rw /group_fin /= Hq. by rw /wp Ha in H1.
Qed.
Lemma on_first_same {A} (m : SQ A) : keeps same_mark E m → keeps gsame E (on_first m).
Proof.
  move=> H g. rw /on_first /first_seq. wp_step. wp_step. wp_step. destruct (sg_seqs g) as [|q l] eqn:Hq; first by wp_step; apply HE.
  wp_step. wp_step. have H1 := H q. apply wp_lift; last by move=> e He; rw /wp He in H1. move=> [a q'] Ha. wp_step. wp_step. wp_step.
  split; first done. rw /marks_of /= Hq /=. rw /wp Ha in H1. by rw H1.
Qed.
Definition same_tokens (d d' : SequenceData) : Prop := sd_output_token_ids d' = sd_output_token_ids d.
#[local] Instance same_tokens_preorder : PreOrder same_tokens.
Proof. split; first by move=> d. move=> d1 d2 d3 H1 H2. by etrans. Qed.
#[local] Hint Extern 2 (same_tokens _ _) => done : keeps.
Lemma on_data_same {A} (m : SD A) : keeps same_tokens E m → keeps same_mark E (on_data m).
Proof. move=> H q. rw /on_data. wp_step. eapply wp_mono; [apply H| |done]. move=> a d Hd. by rw /same_mark /mark /= Hd. Qed.
Lemma on_data_finishes {A} (m : SD A) : quiet E m → keeps finishes E (on_data m).
Proof. move=> H. apply keeps_zoom; [done|]. by move=> s t; rw /finishes. Qed.
Lemma py_array_sound l : raises_only E (py_array l).
Proof. rw /py_array. destruct (forallb _ _); [done|by apply raises_raise]. Qed.
Lemma sd_append_quiet id lp : quiet E (sd_append_token_id id lp).
Proof. rw /sd_append_token_id. rw /quiet. keeps_auto; try done; by apply py_array_sound. Qed.
Lemma sd_update_same n : keeps same_tokens E (sd_update_num_computed_tokens n).
Proof. rw /sd_update_num_computed_tokens. keeps_auto. Qed.
#[local] Hint Resolve on_data_same on_data_finishes sd_append_quiet sd_update_same : keeps.
Lemma modify_same f : (∀ s, same_mark s (f s)) → keeps same_mark E (mmodify f).
Proof. by apply keeps_modify. Qed.
#[local] Hint Resolve modify_same : keeps.
Lemma append_finishes id lps : keeps finishes E (seq_append_token_id id lps).
Proof. rw /seq_append_token_id. destruct (dget lps id); keeps_auto. Qed.
Lemma update_computed_same n : keeps gsame E (group_update_num_computed_tokens n).
Proof.
  rw /group_update_num_computed_tokens. keeps_auto; apply on_first_same; auto with keeps.
Qed.
Lemma decode_same tok p : tokenizer_sound tok → keeps same_mark E (decode_sequence_inplace tok p).
Proof.
  move=> Ht s. rw /decode_sequence_inplace. wp_step. wp_step. destruct (last _) as [id|]; last by wp_step; apply HE.
  wp_step. eapply (wp_mono _ _ (λ _ s1, same_mark s s1) _ E); [| |done].
  { destruct (convert_prompt_ids_to_tokens _ _ _) as [[tokens po] ro]. wp_step; [by wp_step|done]. }
  move=> u s1 H1. wp_step. wp_step. wp_step. apply wp_lift; last by move=> e; apply detokenize_sound. move=> [[[toks txt] po] ro] _.
  wp_step. eapply (wp_mono _ _ (λ _ s2, same_mark s s2) _ E); [| |done].
  { destruct (last (sq_output_logprobs s1)) as [lps|]; last by wp_step; apply HE. wp_step.
    apply wp_lift; last by move=> e; apply raises_map => x; apply decode_logprob_sound. move=> lps2 _. by wp_step. }
  move=> u2 s2 H2. by do 5 (repeat wp_step).
Qed.
Lemma drop_text_same n p : keeps same_mark E (drop_stop_text n p).
Proof. rw /drop_stop_text. keeps_auto. Qed.
Lemma last_token_sound d : raises_only E (sd_get_last_token_id d).
Proof. rw /sd_get_last_token_id. destruct (last _); [done|by apply raises_raise]. Qed.
Lemma maybe_stop_finishes n k p l : keeps finishes E (maybe_stop_sequence n k p l).
Proof.
  move=> s. rw /maybe_stop_sequence. wp_step. wp_step. destruct (_ <? _)%Z; first by wp_step.
  wp_step. apply wp_lift; last by move=> e; apply last_token_sound. move=> id _. destruct (negb _ && _).
  { wp_step. eapply wp_mono; [apply drop_text_same| |done]. move=> u s1 H1. by wp_step. }
  destruct (bool_decide _).
  { wp_step. eapply wp_mono; [apply drop_text_same| |done]. move=> u s1 H1. by wp_step; wp_step; wp_step. }
  destruct (check_stop_strings _ _ _ _) as [[str to]|]; first by wp_step; destruct to; wp_step; wp_step; wp_step; wp_step.
  destruct (_ <? _)%Z; first by wp_step. wp_step; [by wp_step|done].
Qed.
End sequences.
#[export] Hint Resolve on_data_same sd_append_quiet sd_update_same append_finishes on_first_same on_first_sized keeps_finishes
  update_computed_same decode_same maybe_stop_finishes : keeps.

(** The queues and the ids stay, no group loses a sequence, and what is finished
    stays so. *)
Section processing.
Context {B : Type} `{BSM : BlockSpaceManager B}.
Context (E : exn → Prop) `{HE : !Faultless E} (HB : manager_quiet (BSM := BSM) E) (c : EngineConf).
Context (HTok : ∀ get q, ec_get_tokenizer c = Some get → tokenizer_sound E (get q)).
Abbreviation VS := (M (V0Scheduler (B * V0Ctx))).
Implicit Types s : V0Scheduler (B * V0Ctx).
Definition sizes_of s : list nat := (λ g, length (sg_seqs g)) <$> vs_groups s.
Record ekept s s' : Prop := {
  ek_kept : kept s s';
  ek_sizes : sizes_of s' = sizes_of s;
  ek_names : names_of (ctx_of s') = names_of (ctx_of s);
}.
#[global] Instance ekept_preorder : PreOrder ekept.
Proof.
  split; first by move=> s; split. move=> s1 s2 s3 [H1 H2 H3] [H4 H5 H6]. split; [exact (transitivity H1 H4)|by etrans|by etrans].
Qed.
Lemma stat_ekept s s' : stat s s' → ekept s s'.
Proof.
  move=> H. split; [by apply stat_kept| |by apply sa_names]. have Hs := sa_marks _ _ H.
  have H2 : length <$> (marks_of <$> vs_groups s') = length <$> (marks_of <$> vs_groups s) by rw Hs.
  rw -!list_fmap_compose in H2. rw /sizes_of.
  have Hf : ∀ l : list SequenceGroup, (length ∘ marks_of) <$> l = (λ g, length (sg_seqs g)) <$> l.
  { move=> l. apply list_fmap_ext. move=> i g _ /=. by rw /marks_of length_fmap. }
  by rw -!Hf.
Qed.
Lemma keeps_stat_ekept {A} (m : VS A) : keeps stat E m → keeps ekept E m.
Proof. apply keeps_mono, stat_ekept. Qed.
Lemma on_group_ekept {A} r (m : SG A) : keeps gkept_sized E m → keeps ekept E (on_group r m).
Proof.
  move=> H s. apply on_group_spec; [done|]. move=> g Hg. eapply wp_mono; [apply H| |done]. move=> a g' [[Hid Hf] Hl]. split; [| |done].
  - split=> //=; first by eapply ids_insert. move=> r'. rw /fin_at /=.
    destruct (decide (r' = r)) as [->|Hne]; last by rw list_lookup_insert_ne.
    rw Hg list_lookup_insert_eq; [by eapply lookup_lt_Some|done].
  - rw /sizes_of /= list_fmap_insert Hl list_insert_id; [by rw list_lookup_fmap Hg|done].
Qed.
#[local] Hint Resolve keeps_stat_ekept on_group_ekept : keeps.

Lemma sound_tokenizer get q : ec_get_tokenizer c = Some get → tokenizer_sound E (get q).
Proof. apply HTok. Qed.
#[local] Hint Resolve sound_tokenizer : keeps.
Lemma decode_finishes get q p : ec_get_tokenizer c = Some get → keeps finishes E (decode_sequence_inplace (get q) p).
Proof. eauto with keeps. Qed.
#[local] Hint Resolve decode_finishes : keeps.
Lemma single_step_seq_finishes o p l a : keeps finishes E (single_step_seq c o p l a).
Proof. rw /single_step_seq. destruct (ec_get_tokenizer c) as [get|] eqn:Hget; keeps_auto. Qed.
Lemma decode_and_stop_finishes p : keeps finishes E (process_decode_and_stop c p).
Proof. rw /process_decode_and_stop. destruct (ec_get_tokenizer c) as [get|] eqn:Hget; keeps_auto. Qed.
#[local] Hint Resolve single_step_seq_finishes decode_and_stop_finishes : keeps.
Lemma append_samples_finishes p l : ∀ f, keeps finishes E (append_samples c p l f).
Proof. elim: l => [|[id lps] l IH] f; cbn [append_samples]; keeps_auto. Qed.
#[local] Hint Resolve append_samples_finishes : keeps.
Lemma process_seq_outputs_finishes l p : keeps finishes E (process_seq_outputs c l p).
Proof. rw /process_seq_outputs. keeps_auto. Qed.
#[local] Hint Resolve process_seq_outputs_finishes : keeps.
Lemma params_of_stat r : keeps stat E (params_of (B := B) r).
Proof. rw /params_of. keeps_auto. Qed.
#[local] Hint Resolve params_of_stat : keeps.
Lemma decode_prompt_same tok l n : tokenizer_sound E tok → keeps gsame E (decode_prompt_logprobs_inplace tok l n).
Proof.
  move=> H. rw /decode_prompt_logprobs_inplace. keeps_auto. by apply prompt_loop_sound.
Qed.
#[local] Hint Resolve decode_prompt_same : keeps.
Lemma prompt_logprob_stat r o : keeps stat E (single_step_process_prompt_logprob (B := B) c r o).
Proof.
  rw /single_step_process_prompt_logprob. destruct (ec_get_tokenizer c) as [get|] eqn:Hget; keeps_auto.
  apply on_group_stat; [done|]. keeps_auto.
Qed.
#[local] Hint Resolve prompt_logprob_stat : keeps.
Lemma process_prompt_logprob_stat r l : keeps stat E (process_prompt_logprob (B := B) c r l).
Proof. rw /process_prompt_logprob. keeps_auto. Qed.
Lemma free_seq_stat q : keeps stat E (free_seq (B := B * V0Ctx) q).
Proof.
  move=> s. rw /free_seq /on_manager. wp_step. cbn [bsm_free engine_manager]. rw /lift_manager. wp_step.
  eapply wp_mono; [by apply mq_free| |done]. move=> u b _. by split.
Qed.
#[local] Hint Resolve process_prompt_logprob_stat free_seq_stat : keeps.
Lemma first_sample_sound o : raises_only E (first_sample o).
Proof. rw /first_sample. destruct (cso_samples o); [by apply raises_raise|done]. Qed.
Lemma first_samples_sound l : raises_only E (map_result first_sample l).
Proof. apply raises_map => o. apply first_sample_sound. Qed.
Lemma lift_ekept {A} (r : result A) : raises_only E r → keeps ekept E (mlift r).
Proof. move=> H. apply keeps_lift; [apply _|exact H]. Qed.
Lemma lift_stat {A} (r : result A) : raises_only E r → keeps (stat (B := B)) E (mlift r).
Proof. move=> H. apply keeps_lift; [apply _|exact H]. Qed.
#[local] Hint Resolve first_sample_sound first_samples_sound lift_ekept lift_stat : keeps.
Lemma process_outputs_ekept r l a : keeps ekept E (process_outputs (B := B) c r l a).
Proof.
  rw /process_outputs /single_step_process_outputs /multi_step_process_outputs. keeps_auto; [apply first_sample_sound|apply first_samples_sound].
Qed.
Lemma update_for_prefill_stat r m f : keeps stat E (update_for_multi_step_prefill (B := B) c r m f).
Proof. rw /update_for_multi_step_prefill. keeps_auto. Qed.
Lemma finished_stat r : keeps stat E (on_group (B := B * V0Ctx) r group_is_finished).
Proof. apply on_group_stat; [done|]. apply pure_gsame, group_is_finished_pure, _. Qed.
Lemma outputs_at_sound d l i : raises_only E (outputs_at d l i).
Proof. rw /outputs_at. repeat case_match; try done; by apply raises_raise. Qed.
#[local] Hint Resolve process_outputs_ekept update_for_prefill_stat finished_stat outputs_at_sound : keeps.
Lemma process_index_ekept d l acc i : keeps ekept E (process_index (B := B) c d l acc i).
Proof. rw /process_index /message_at /scheduled_at. keeps_auto. apply outputs_at_sound. Qed.
Lemma indices_of_stat d id : keeps stat E (indices_of (B := B) d id).
Proof. rw /indices_of. keeps_auto. Qed.
Lemma advance_group_ekept m o r : keeps ekept E (advance_group (B := B) c m o r).
Proof. rw /advance_group. keeps_auto. apply first_sample_sound. Qed.
End processing.
