(* ===== verification/V0EngineInv.v ===== *)
(** The invariant of the V0 engine without asynchronous output processing: every
    request is in exactly one queue or finished. A step, an abort and a new request
    keep it. *)
From Stdlib Require Import ssreflect ZArith Lia.
From stdpp Require Import base numbers list gmap strings pretty.
From S2P Require Import Prelude SamplingParams KVCacheBlock Request FreeQueue BlockHash KVCacheManager EncoderCache Scheduler LRUCache MMInputMapper Detokenizer Processor.
From S2P Require Import SequenceData Sequences BlockTable BlockManager SchedConfig V0Types V0Sched V0Phases V0Schedule V0Frame V0SchedFrame V0Running V0Admission V0SchedTheorems.
From S2P Require Import V0Outputs V0Engine V0EngineFrame.

Create HintDb stable discriminated.

Section invariant.
Context {B : Type} `{BSM : BlockSpaceManager B}.
Context (E : exn → Prop) `{HE : !Faultless E} (HB : manager_quiet (BSM := BSM) E).
Context (HT : E (AssertionError "budget.num_batched_tokens <= max_num_batched_tokens"))
  (HS : E (AssertionError "budget.num_curr_seqs <= max_num_seqs")).
Context (c : EngineConf) (Hsync : ec_use_async_output_proc c = false).
Context (HTok : ∀ get q, ec_get_tokenizer c = Some get → tokenizer_sound E (get q)).
Abbreviation Engine := (V0Scheduler (B * V0Ctx)).
Abbreviation VS := (M (V0Scheduler (B * V0Ctx))).
Implicit Types s : V0Scheduler (B * V0Ctx).

Definition queue s : list nat := vs_waiting s ++ vs_running s ++ vs_swapped s.
(** The samples exist, and their ids are longer than the ids of their requests. *)
Definition names_ok (n : list (option string) * dict string nat) : Prop :=
  (∀ id k, dget n.2 id = Some k → k < length n.1) ∧ shrinks n.
Record engine_ok s : Prop := {
  eo_nodup : NoDup (queue s);
  eo_range r : r ∈ queue s → r < length (vs_groups s);
  eo_stopped : vs_async_stopped s = [];
  eo_all r : r < length (vs_groups s) → r ∈ queue s ∨ fin_at s r;
  eo_single n : n ∈ sizes_of s → n = 1;
  eo_names : names_ok (names_of (ctx_of s));
}.
Lemma ok_kept s s' : kept s s' → sizes_of s' = sizes_of s → names_of (ctx_of s') = names_of (ctx_of s) →
  engine_ok s → engine_ok s' ∧ evolves s s'.
Proof.
  move=> [K1 K2 K3 K4 K5 K6] Hs Hn [O1 O2 O3 O4 O5 O6].
  have Hq : queue s' = queue s by rw /queue K1 K2 K3.
  have Hl : length (vs_groups s') = length (vs_groups s) by rw -(length_fmap sg_request_id) K5 length_fmap.
  split; [split|by split]; rw ?Hq ?Hl ?Hs ?Hn ?K4 //.
  move=> r Hr. destruct (O4 r Hr) as [H|H]; [by left|by right; apply K6].
Qed.
Lemma ok_ekept s s' : ekept s s' → engine_ok s → engine_ok s' ∧ evolves s s'.
Proof. move=> [K1 K2 K3]. by apply ok_kept. Qed.

(** * Blocks that keep the invariant *)
Definition stable {A} (m : VS A) : Prop := ∀ s, engine_ok s → wp m s (λ _ s', engine_ok s' ∧ evolves s s') E.
Lemma stable_bind {A C} (m : VS A) (f : A → VS C) : stable m → (∀ a, stable (f a)) → stable (m ≫= f).
Proof.
  move=> Hm Hf s Hs. wp_step. eapply wp_mono; [by apply Hm| |done]. move=> a s1 [H1 L1].
  eapply wp_mono; [by apply Hf| |done]. move=> b s2 [H2 L2]. split; [done|exact (transitivity L1 L2)].
Qed.
Lemma stable_ekept {A} (m : VS A) : keeps ekept E m → stable m.
Proof. move=> H s Hs. eapply wp_mono; [apply H| |done]. move=> a s' Hk. by apply ok_ekept. Qed.
Lemma stable_stat {A} (m : VS A) : keeps stat E m → stable m.
Proof. move=> H. by apply stable_ekept, keeps_stat_ekept. Qed.
Lemma stable_pure {A} (m : VS A) : keeps eq E m → stable m.
Proof. move=> H. apply stable_stat, pure_stat, H. Qed.
Lemma stable_ret {A} (a : A) : stable (mret a).
Proof. apply stable_pure, keeps_ret, _. Qed.
Lemma stable_get : stable mget.
Proof. apply stable_pure, keeps_get, _. Qed.
Lemma stable_gets {A} (f : Engine → A) : stable (mgets f).
Proof. apply stable_pure, keeps_gets, _. Qed.
Lemma stable_raise {A} e : E e → stable (mraise (A := A) e).
Proof. move=> H. by apply stable_pure, keeps_raise. Qed.
Lemma stable_lift {A} (r : result A) : raises_only E r → stable (mlift r).
Proof. move=> H. apply stable_pure, keeps_lift; [apply _|exact H]. Qed.
Lemma stable_assert b msg : E (AssertionError msg) → stable (massert b msg).
Proof. move=> H. apply stable_pure, keeps_assert; [apply _|done]. Qed.
Lemma stable_when b (m : VS unit) : stable m → stable (mwhen b m).
Proof. move=> H. destruct b; [exact H|apply stable_ret]. Qed.
Lemma stable_for {A} (l : list A) (f : A → VS unit) : (∀ x, stable (f x)) → stable (mfor l f).
Proof. move=> H. elim: l => [|x l IH]; [apply (stable_ret tt)|]. cbn [mfor]. by apply stable_bind. Qed.
Lemma stable_fold {A C} (l : list A) (f : C → A → VS C) : (∀ b x, stable (f b x)) → ∀ b, stable (mfold l b f).
Proof. move=> H. elim: l => [|x l IH] b; [apply stable_ret|]. cbn [mfold]. by apply stable_bind. Qed.
Lemma stable_ctx f : (∀ x, names_of (f x) = names_of x) → stable (on_ctx (mmodify f)).
Proof. move=> H. by apply stable_stat, on_ctx_stat. Qed.
Lemma stable_output r : stable (create_request_output r).
Proof.
  move=> s Hs. eapply wp_mono; [apply create_request_output_spec; [done|apply eo_names, Hs]| |done].
  move=> u s' H. by apply ok_ekept; [apply stat_ekept|].
Qed.

(** * The scheduler in the engine *)
Definition same_ctx (x x' : B * V0Ctx) : Prop := x'.2 = x.2.
#[local] Instance same_ctx_preorder : PreOrder same_ctx.
Proof. split; first by move=> x. move=> x1 x2 x3 H1 H2. by rw /same_ctx H2. Qed.
Lemma lift_same_ctx {A} (m : M B A) : keeps same_ctx any_exn (lift_manager m).
Proof. apply keeps_zoom; [apply quiet_any|done]. Qed.
Lemma engine_manager_keeps : manager_keeps (BSM := engine_manager) same_ctx.
Proof. split=> *; apply lift_same_ctx. Qed.
Lemma lift_quiet {A} (m : M B A) : quiet E m → quiet E (lift_manager m).
Proof. move=> H. by apply keeps_zoom. Qed.
Lemma engine_manager_quiet : manager_quiet (BSM := engine_manager) E.
Proof. destruct HB. by split=> *; apply lift_quiet; eauto. Qed.
#[local] Hint Resolve engine_manager_quiet engine_manager_keeps : keeps.
(** What leaves the queues alone leaves the invariant. *)
Lemma framed_sizes s s' : frame same_ctx s s' → sizes_of s' = sizes_of s.
Proof.
  move=> [H _]. rw /sizes_of. have Hf : ∀ l : list SequenceGroup, (λ g, length (sg_seqs g)) <$> l = (λ x, length x.2) <$> (group_content <$> l).
  { move=> l. rw -list_fmap_compose. apply list_fmap_ext => i g _ /=. by rw length_fmap. }
  by rw !Hf H.
Qed.
Lemma framed_ids s s' : frame same_ctx s s' → sg_request_id <$> vs_groups s' = sg_request_id <$> vs_groups s.
Proof.
  move=> [H _]. have Hf : ∀ l : list SequenceGroup, sg_request_id <$> l = (λ x, x.1.1.1.1) <$> (group_content <$> l).
  { move=> l. rw -list_fmap_compose. by apply list_fmap_ext. }
  by rw !Hf H.
Qed.
Lemma framed_ctx s s' : frame same_ctx s s' → ctx_of s' = ctx_of s.
Proof. by move=> [_ H]. Qed.
Lemma framed_ekept {A} (m : VS A) : keeps kept E m → keeps (frame same_ctx) any_exn m → keeps ekept E m.
Proof.
  move=> H1 H2 s. eapply wp_mono; [by apply wp_conj; [apply H1|apply H2]| |done]. move=> a s' [K F].
  split; [done|by apply framed_sizes|by rw (framed_ctx _ _ F)].
Qed.
Lemma finished_spec r s : wp (on_group r group_is_finished) s (λ f s', s' = s ∧ (f = true → fin_at s r)) E.
Proof.
  apply on_group_spec; [done|]. move=> g Hg. rw /group_is_finished /first_seq. wp_step. wp_step. wp_step.
  destruct (sg_seqs g) as [|q l] eqn:Hq; wp_step; first by apply HE. wp_step. rw list_insert_id; [done|]. split; [by destruct s|].
  move=> Hf. by rw /fin_at Hg /group_fin Hq.
Qed.
Lemma free_group_ekept r : keeps ekept E (free_finished_seq_group (B := B * V0Ctx) r).
Proof.
  apply framed_ekept; [by apply free_finished_seq_group_kept; [|apply engine_manager_quiet]|].
  by apply free_finished_seq_group_frame; [apply _|apply engine_manager_keeps].
Qed.
(** The groups that stay are among the running ones, and all others are finished. *)
Lemma remaining_spec l : ∀ acc s,
  wp (mfold l acc (λ remaining r, free_finished_seq_group r;;; f ← on_group r group_is_finished;
        mret (if (f : bool) then remaining else remaining ++ [r]))) s
    (λ rest s', ekept s s' ∧ ∃ more, rest = acc ++ more ∧ sublist more l ∧ ∀ r, r ∈ l → r ∈ more ∨ fin_at s' r) E.
Proof.
  elim: l => [|r l IH] acc s; cbn [mfold].
  { wp_step. split; [done|]. exists []. rw app_nil_r. split_and!; [done|constructor|]. move=> r H. by apply elem_of_nil in H. }
  wp_step. wp_step. eapply wp_mono; [apply free_group_ekept| |done]. move=> u s1 H1. wp_step.
  eapply wp_mono; [apply finished_spec| |done]. move=> f s2 [-> Hf]. wp_step.
  eapply wp_mono; [apply IH| |done]. move=> rest s3 [H3 [more [-> [Hsub Hall]]]]. split; [exact (transitivity H1 H3)|].
  destruct f.
  - exists more. split_and!; [done|by constructor|]. move=> r' /elem_of_cons [->|Hr]; [|by apply Hall].
    right. apply (ke_fin _ _ (ek_kept _ _ H3)), Hf, eq_refl.
  - exists (r :: more). rw -app_assoc. split_and!; [done|by constructor|]. move=> r' /elem_of_cons [->|Hr]; [by left; left|].
    destruct (Hall r' Hr); [left; by right|by right].
Qed.
(** Leaving out finished groups of a queue. *)
Lemma drop_running s l : engine_ok s → sublist l (vs_running s) → (∀ r, r ∈ vs_running s → r ∈ l ∨ fin_at s r) →
  engine_ok (set_vs_running l s) ∧ evolves s (set_vs_running l s).
Proof.
  move=> [O1 O2 O3 O4 O5 O6] Hsub Hall.
  have Hq : sublist (queue (set_vs_running l s)) (queue s) by apply sublist_app; [done|apply sublist_app].
  split; [split|by split]; try done.
  - by eapply sublist_NoDup.
  - move=> r Hr. apply O2. by eapply elem_of_submseteq; [|apply sublist_submseteq].
  - move=> r Hr. destruct (O4 r Hr) as [H|H]; last by right. move: H. rw /queue /= !elem_of_app => H.
    destruct H as [H|[H|H]]; [tauto|destruct (Hall r H); [tauto|by right]|tauto].
Qed.
Lemma free_groups_stable : stable (free_finished_seq_groups (B := B * V0Ctx)).
Proof.
  move=> s Hs. rw /free_finished_seq_groups. wp_step. wp_step. wp_step.
  eapply wp_mono; [apply remaining_spec| |done]. move=> rest s1 [H1 [more [-> [Hsub Hall]]]].
  destruct (ok_ekept _ _ H1 Hs) as [Hok1 L1]. cbn [app].
  have [Hok2 L2] : engine_ok (set_vs_running more s1) ∧ evolves s1 (set_vs_running more s1).
  { apply drop_running; [done| |]; by rw (ke_running _ _ (ek_kept _ _ H1)). }
  wp_step. wp_step. wp_step. wp_step. have Hst := eo_stopped _ Hok2. rw Hst /=. apply wp_ret.
  split; [done|exact (transitivity L1 L2)].
Qed.

(** * A step *)
#[local] Hint Resolve stable_bind stable_ret stable_get stable_gets stable_assert stable_when stable_for stable_fold stable_ctx stable_output
  free_groups_stable : stable.
#[local] Hint Extern 2 (E (AssertionError _)) => by apply HE : stable.
Ltac stable_step :=
  lazymatch goal with
  | |- stable (mbind _ _) => apply stable_bind; [|intros ?]
  | |- stable (mret _) => apply stable_ret
  | |- stable mget => apply stable_get
  | |- stable (mgets _) => apply stable_gets
  | |- stable (massert _ _) => apply stable_assert; by apply HE
  | |- stable (mraise _) => apply stable_raise; by apply HE
  | |- stable (mwhen _ _) => apply stable_when
  | |- stable (mfor _ _) => apply stable_for; intros ?
  | |- stable (mfold _ _ _) => apply stable_fold; intros ? ?
  | |- stable (on_ctx (mmodify _)) => apply stable_ctx; done
  | |- stable (if ?b then _ else _) => destruct b
  | |- stable (match ?o with _ => _ end) => destruct o
  | |- stable ((match ?o with _ => _ end) _) => destruct o
  end; cbn beta.
Ltac stable_auto := repeat stable_step; eauto with stable.
Lemma time_stable : stable (v0_time (B := B * V0Ctx)).
Proof. apply stable_stat, time_stat. Qed.
Lemma the_group_stable r : stable (the_group (B := B * V0Ctx) r).
Proof. apply stable_stat, the_group_stat, _. Qed.
Lemma finished_stable r : stable (on_group (B := B * V0Ctx) r group_is_finished).
Proof. apply stable_stat, finished_stat, _. Qed.
Lemma group_stable {A} r (m : SG A) : keeps gsame E m → stable (on_group (B := B * V0Ctx) r m).
Proof. move=> H. by apply stable_stat, on_group_stat. Qed.
#[local] Hint Resolve time_stable the_group_stable finished_stable : stable.
Lemma output_for_stable now d i : stable (output_for (B := B) now d i).
Proof. rw /output_for /scheduled_at. stable_auto. apply group_stable, first_token_time_same, _. Qed.
Lemma ignored_output_stable r : stable (ignored_output (B := B) r).
Proof. rw /ignored_output. stable_auto. Qed.
Lemma set_queue_stable l : stable (set_queue (B := B) l).
Proof. rw /set_queue. stable_auto. Qed.
#[local] Hint Resolve output_for_stable ignored_output_stable set_queue_stable : stable.
Lemma finish_outputs_stable now d l1 l2 l3 : stable (finish_outputs (B := B) c now d l1 l2 l3).
Proof. rw /finish_outputs. stable_auto. Qed.
Lemma by_group_sound l n : raises_only E (create_output_by_sequence_group l n).
Proof.
  rw /create_output_by_sequence_group. apply raises_fold => a x. apply raises_fold => a' [i o].
  rw /append_output_at. case_match; [done|by apply raises_raise].
Qed.
#[local] Hint Resolve finish_outputs_stable : stable.
Lemma process_data_stable now d rest id : stable (process_output_data (B := B) c now d rest id).
Proof.
  rw /process_output_data. stable_auto.
  - apply stable_lift, by_group_sound.
  - apply stable_stat, indices_of_stat, _.
  - apply stable_ekept, process_index_ekept; done.
Qed.
#[local] Hint Resolve process_data_stable : stable.
Lemma process_stable id : stable (process_model_outputs (B := B) c id).
Proof. rw /process_model_outputs. stable_auto. Qed.
#[local] Hint Resolve process_stable : stable.
Lemma pending_stable : stable (process_pending (B := B) c).
Proof. rw /process_pending. stable_auto. Qed.
#[local] Hint Resolve pending_stable : stable.
Lemma call_back_stable n : stable (call_back (B := B) c n).
Proof. elim: n => [|n IH]; cbn [call_back]; stable_auto. Qed.
#[local] Hint Resolve call_back_stable : stable.
Lemma execute_model_stable req : stable (execute_model (B := B) c req).
Proof. rw /execute_model. stable_auto. Qed.
#[local] Hint Resolve execute_model_stable : stable.
Lemma execute_schedule_stable l o a ids : stable (execute_schedule (B := B) c l o a ids).
Proof. rw /execute_schedule. stable_auto. Qed.
Lemma advance_stable o l sched : stable (advance_to_next_step (B := B) c o l sched).
Proof. rw /advance_to_next_step. stable_auto. apply stable_ekept, advance_group_ekept; done. Qed.
Lemma state_of_stable m x : stable (state_of (B := B) m x).
Proof. rw /state_of. stable_auto. apply group_stable, gets_same. Qed.
#[local] Hint Resolve execute_schedule_stable advance_stable state_of_stable : stable.
Lemma remaining_stable l sched : stable (has_remaining_steps (B := B) c l sched).
Proof. rw /has_remaining_steps. stable_auto. Qed.
Lemma append_stable outputs l o a b f : stable (append_output (B := B) outputs l o a b f).
Proof. rw /append_output. stable_auto. Qed.
#[local] Hint Resolve remaining_stable append_stable : stable.
Lemma finish_batch_stable outputs l o a : stable (finish_batch (B := B) c outputs l o a).
Proof. rw /finish_batch. stable_auto. Qed.
Lemma drain_stable : stable (drain (B := B) c).
Proof. rw /drain. stable_auto. Qed.
Lemma finish_step_stable m x : stable (message_finish_step (B := B) m x).
Proof.
  rw /message_finish_step. stable_auto. apply group_stable => g. wp_step. wp_step. wp_step. wp_step; last by apply HE.
  by apply wp_put.
Qed.
#[local] Hint Resolve finish_batch_stable drain_stable finish_step_stable : stable.
(** Without a callback a pass moves groups between the queues, but for those it
    finishes as ignored. *)
Lemma accounted_ok s s' o : engine_ok s → accounts None s s' o → frame same_ctx s s' → engine_ok s' ∧ evolves s s'.
Proof.
  move=> [O1 O2 O3 O4 O5 O6] [d [D1 [D2 [D3 [D4 _]]]]] F. destruct (D4 eq_refl) as [-> Hst]. clear D4.
  rw app_nil_r in D1, D3. rw O3 in Hst. rw Hst O3 /= !app_nil_r in D1.
  have Hl : length (vs_groups s') = length (vs_groups s) by rw -(length_fmap sg_request_id) (framed_ids _ _ F) length_fmap.
  have Hp : queue s' ++ so_ignored_seq_groups o ≡ₚ queue s by rw /queue -!app_assoc.
  split; [split|done].
  - rw -Hp in O1. by apply NoDup_app in O1 as [O1 _].
  - move=> r Hr. rw Hl. apply O2. rw -Hp elem_of_app. by left.
  - done.
  - move=> r Hr. rw Hl in Hr. destruct (O4 r Hr) as [H|H]; last by right; apply (ev_fin _ _ D2).
    rw -Hp elem_of_app in H. destruct H as [H|H]; first by left. right. rw Forall_forall in D3. by apply D3.
  - by rw (framed_sizes _ _ F).
  - by rw (framed_ctx _ _ F).
Qed.
Lemma v0_schedule_stable : stable (v0_schedule (BSM := engine_manager (BSM := BSM)) (ec_sched c) None).
Proof.
  move=> s Hs. eapply wp_mono; [apply (wp_conj E)| |done].
  - apply (v0_schedule_spec (BSM := engine_manager) E engine_manager_quiet HT HS (ec_sched c) None). by [].
  - apply (v0_schedule_frame same_ctx engine_manager_keeps (ec_sched c) None). by [].
  - move=> [[l o] a] s' [Ha F]. by eapply accounted_ok.
Qed.
Lemma reset_ids_stable : stable (get_and_reset_finished_requests_ids (B := B * V0Ctx)).
Proof. apply stable_stat. rw /get_and_reset_finished_requests_ids => s. wp_step. wp_step. wp_step. apply wp_put. by wp_step. Qed.
#[local] Hint Resolve v0_schedule_stable reset_ids_stable : stable.
Lemma engine_schedule_stable : stable (engine_schedule (BSM := BSM) c).
Proof. rw /engine_schedule /engine_callback Hsync. stable_auto. Qed.
#[local] Hint Resolve engine_schedule_stable : stable.
(** A step keeps the invariant; only its end asks for an empty queue of outputs. *)
Lemma engine_step_stable : stable (engine_step (BSM := BSM) c).
Proof. rw /engine_step. stable_auto. Qed.
End invariant.

(** * Requests: aborting and adding *)

Section requests.
Context {B : Type} `{BSM : BlockSpaceManager B}.
Context (E : exn → Prop) `{HE : !Faultless E} (HB : manager_quiet (BSM := BSM) E).
Abbreviation Engine := (V0Scheduler (B * V0Ctx)).
Abbreviation VS := (M (V0Scheduler (B * V0Ctx))).
Implicit Types s : V0Scheduler (B * V0Ctx).

(** * Aborting *)
Lemma ok_single s r : engine_ok s → r ∈ queue s → single_at s r.
Proof.
  move=> Hok Hr. have Hl := eo_range _ Hok _ Hr. destruct (lookup_lt_is_Some_2 _ _ Hl) as [g Hg].
  have H1 : length (sg_seqs g) = 1. { apply (eo_single _ Hok). rw /sizes_of. apply list_elem_of_fmap. exists g. split; [done|]. by eapply list_elem_of_lookup_2. }
  destruct (sg_seqs g) as [|q [|q2 l]] eqn:Hq; try done. by exists g, q.
Qed.
Lemma positions_spec r s : single_at s r → wp (seq_positions r None) s (λ idx s', s' = s ∧ idx = [0]) E.
Proof.
  move=> [g [q [Hg Hq]]]. rw /seq_positions /get_seqs. wp_step. apply on_group_spec; [done|]. move=> g' Hg'. rw Hg in Hg'. injection Hg' as <-.
  wp_step. wp_step. wp_step. wp_step. rw list_insert_id; [done|]. split; [by destruct s|]. by rw Hq.
Qed.
Lemma first_the_seq r s g q : vs_groups s !! r = Some g → sg_seqs g = [q] → wp (the_seq r 0) s (λ q' s', s' = s ∧ q' = q) E.
Proof.
  move=> Hg Hq. rw /the_seq /group_seq. apply on_group_spec; [done|]. move=> g' Hg'. rw Hg in Hg'. injection Hg' as <-.
  wp_step. wp_step. rw Hq /=. wp_step. rw list_insert_id; [done|]. split; [by destruct s|done].
Qed.
Lemma abort_status_ekept r s g q : vs_groups s !! r = Some g → sg_seqs g = [q] →
  wp (upd_seq r 0 (set_sq_status SEQ_FINISHED_ABORTED)) s (λ _ s', ekept s s' ∧ fin_at s' r ∧ single_at s' r) E.
Proof.
  move=> Hg Hq. rw /upd_seq. apply on_group_spec; [done|]. move=> g' Hg'. rw Hg in Hg'. injection Hg' as <-. wp_step.
  set (g2 := set_sg_seqs _ g). have Hq2 : sg_seqs g2 = [set_sq_status SEQ_FINISHED_ABORTED q] by rw /g2 /= Hq.
  have Hl := lookup_lt_Some _ _ _ Hg. have Hf : group_fin g2 by rw /group_fin Hq2. split_and!.
  - split; [split|..]; try done.
    + rw /= list_fmap_insert /= list_insert_id; [by rw list_lookup_fmap Hg|done].
    + move=> r' H. rw /fin_at /=. destruct (decide (r = r')) as [<-|Hne]; [by rw list_lookup_insert_eq|by rw list_lookup_insert_ne].
    + rw /sizes_of /= list_fmap_insert Hq2 list_insert_id; [by rw list_lookup_fmap Hg /= Hq|done].
  - by rw /fin_at /= list_lookup_insert_eq.
  - exists g2. eexists. split; [by rw /= list_lookup_insert_eq|exact Hq2].
Qed.
Lemma abort_seq_spec r s : single_at s r →
  wp (q ← the_seq r 0;
      if seq_is_finished q then mret tt
      else upd_seq r 0 (set_sq_status SEQ_FINISHED_ABORTED);;; q ← the_seq r 0; free_seq q) s
    (λ _ s', ekept s s' ∧ fin_at s' r) E.
Proof.
  move=> [g [q [Hg Hq]]]. wp_step. eapply wp_mono; [by eapply first_the_seq| |done]. move=> q' s' [-> ->].
  destruct (seq_is_finished q) eqn:Hf. { wp_step. split; [done|]. by rw /fin_at Hg /group_fin Hq. }
  wp_step. eapply wp_mono; [by eapply abort_status_ekept| |done]. move=> u s1 [H1 [Hfin [g1 [q1 [Hg1 Hq1]]]]].
  wp_step. eapply wp_mono; [by eapply first_the_seq| |done]. move=> q2 s2 [-> ->].
  eapply wp_mono; [apply free_seq_stat; done| |done]. move=> u2 s3 H2. apply stat_ekept in H2.
  split; [exact (transitivity H1 H2)|]. by apply (ke_fin _ _ (ek_kept _ _ H2)).
Qed.
Lemma free_cross_ekept r : keeps ekept E (free_cross_attn_blocks (B := B * V0Ctx) r).
Proof.
  rw /free_cross_attn_blocks. apply keeps_bind; [apply _|by apply keeps_stat_ekept, the_group_stat|]. move=> g.
  apply keeps_when; [apply _|]. move=> s. rw /on_manager. wp_step. cbn [bsm_free_cross engine_manager]. rw /lift_manager. wp_step.
  eapply wp_mono; [by apply mq_free_cross| |done]. move=> u b _. by split; [split|..].
Qed.
Lemma abort_group_spec r s : single_at s r → wp (abort_group r) s (λ _ s', ekept s s' ∧ fin_at s' r) E.
Proof.
  move=> Hr. rw /abort_group /request_id_of. wp_step. wp_step. apply wp_the_group; [done|]. move=> g Hg. wp_step. wp_step. wp_step. wp_step.
  set (s0 := set_vs_finished_requests_ids _ s). have Hr0 : single_at s0 r by exact Hr. have H0 : ekept s s0 by split; [split|..].
  eapply wp_mono; [by eapply positions_spec| |done]. move=> idx s1 [-> ->]. cbn [mfor].
  wp_step. wp_step. eapply wp_mono; [by apply abort_seq_spec| |done]. move=> u s2 [H2 Hf]. wp_step.
  eapply wp_mono; [apply free_cross_ekept| |done]. move=> u3 s3 H3.
  split; [exact (transitivity H0 (transitivity H2 H3))|]. by apply (ke_fin _ _ (ek_kept _ _ H3)).
Qed.
(** A group that leaves the queues finished. *)
Lemma drop_one s s1 s2 r : engine_ok s → vs_groups s1 = vs_groups s → vs_async_stopped s1 = vs_async_stopped s → ctx_of s1 = ctx_of s →
  queue s ≡ₚ r :: queue s1 → ekept s1 s2 → fin_at s2 r → engine_ok s2 ∧ evolves s s2.
Proof.
  move=> [O1 O2 O3 O4 O5 O6] Hg Hst Hc Hq [[K1 K2 K3 K4 K5 K6] Hs Hn] Hr.
  have Hq2 : queue s2 = queue s1 by rw /queue K1 K2 K3.
  have Hl : length (vs_groups s2) = length (vs_groups s) by rw -(length_fmap sg_request_id) K5 length_fmap Hg.
  have Hfin : ∀ r, fin_at s r → fin_at s2 r. { move=> r' H. apply K6. by rw /fin_at Hg. }
  split; [split|by split; [rw K5 Hg|]]; rw ?Hq2 ?Hl ?K4 ?Hst ?Hn ?Hc //.
  - rw Hq in O1. by inversion O1.
  - move=> r' H. apply O2. rw Hq. by right.
  - move=> r' H. destruct (O4 r' H) as [H1|H1]; last by right; auto. rw Hq in H1. apply elem_of_cons in H1 as [->|H1]; [by right|by left].
  - rw Hs /sizes_of Hg. exact O5.
Qed.
Lemma deque_remove_ok x l q : deque_remove x l = Ok q → l ≡ₚ x :: q.
Proof.
  move: q. elim: l => [|y l IH] q /=; first done. case_bool_decide as Hx; first by move=> [= <-]; subst.
  destruct (deque_remove x l) as [q'|e]; last done. move=> [= <-]. rw (IH q' eq_refl). by constructor.
Qed.
Lemma deque_remove_raises x l : raises_only E (deque_remove x l).
Proof. elim: l => [|y l IH] /=; first by apply raises_raise. case_bool_decide; first done. by apply raises_bind. Qed.
Lemma collect_aborted_pure l : ∀ ids, keeps eq E (collect_aborted (B := B * V0Ctx) l ids).
Proof.
  elim: l => [|r l IH] ids; cbn [collect_aborted]; first by apply keeps_ret, _. case_bool_decide; first by apply keeps_ret, _.
  apply keeps_bind; [apply _|by apply request_id_pure|]. move=> id. case_bool_decide; last apply IH.
  apply keeps_bind; [apply _|apply IH|]. move=> [l' ids']. by apply keeps_ret, _.
Qed.
Lemma abort_queue_stable get set ids :
  (∀ s l, vs_groups (set l s) = vs_groups s ∧ vs_async_stopped (set l s) = vs_async_stopped s ∧ ctx_of (set l s) = ctx_of s) →
  (∀ s r l, get s ≡ₚ r :: l → queue s ≡ₚ r :: queue (set l s)) →
  stable E (abort_queue (B := B * V0Ctx) get set ids).
Proof.
  move=> Hset Hq. rw /abort_queue. apply stable_bind; first by apply stable_gets. move=> q.
  apply stable_bind; first by apply stable_pure, collect_aborted_pure. move=> [l ids']. apply stable_bind; last by move=> u; apply stable_ret.
  apply stable_for => r s Hok. wp_step. wp_step. wp_step. apply wp_lift; last by move=> e; apply deque_remove_raises.
  move=> q' Hq'. apply deque_remove_ok in Hq'. wp_step. wp_step. have {}Hq := Hq _ _ _ Hq'. destruct (Hset s q') as [Hg [Hst Hc]].
  have Hr : single_at (set q' s) r. { rw /single_at Hg. apply ok_single; [done|]. rw Hq. by left. }
  eapply wp_mono; [by apply abort_group_spec| |done]. move=> u s2 [H2 Hf]. by eapply drop_one.
Qed.
Lemma abort_request_stable ids : stable E (abort_request (B := B) ids).
Proof.
  rw /abort_request /abort_seq_group.
  repeat (apply stable_bind; [apply abort_queue_stable; [by move=> s l|]|move=> ?]); last by apply stable_ret.
  - move=> s r l H. rw /queue /= H. done.
  - move=> s r l H. rw /queue /= H. by rw -Permutation_middle.
  - move=> s r l H. rw /queue /= H. rw !app_assoc. by rw -Permutation_middle.
Qed.
End requests.

Section adding.
Context {B : Type} `{BSM : BlockSpaceManager B} (c : EngineConf).
Abbreviation Engine := (V0Scheduler (B * V0Ctx)).
Abbreviation VS := (M (V0Scheduler (B * V0Ctx))).
Implicit Types s : V0Scheduler (B * V0Ctx).
Context {Image ProcKwargs : Type}.
Implicit Types inputs : ProcessorInputs (Image := Image) (ProcKwargs := ProcKwargs).

(** Groups are never removed or renamed, and finished ones stay finished. *)
Record later s s' : Prop := {
  la_ids : (sg_request_id <$> vs_groups s) `prefix_of` (sg_request_id <$> vs_groups s');
  la_fin r : fin_at s r → fin_at s' r;
}.
#[local] Instance later_preorder : PreOrder later.
Proof. split; first by move=> s; split. move=> s1 s2 s3 [H1 H2] [H3 H4]. split; [by etrans|auto]. Qed.

(** * Adding *)
(** Only the samples and the counter change. *)
Record renamed s s' : Prop := {
  rn_waiting : vs_waiting s' = vs_waiting s;
  rn_running : vs_running s' = vs_running s;
  rn_swapped : vs_swapped s' = vs_swapped s;
  rn_stopped : vs_async_stopped s' = vs_async_stopped s;
  rn_groups : vs_groups s' = vs_groups s;
}.
Lemma ok_renamed s s' : renamed s s' → names_ok (names_of (ctx_of s')) → engine_ok s → engine_ok s' ∧ later s s'.
Proof.
  move=> [N1 N2 N3 N4 N5] Hn [O1 O2 O3 O4 O5 O6]. have Hq : queue s' = queue s by rw /queue N1 N2 N3.
  have Hf : ∀ r, fin_at s' r ↔ fin_at s r. { move=> r. by rw /fin_at N5. }
  split; [split|split]; rw ?Hq ?N5 ?N4 //.
  - move=> r Hr. rw Hf. by apply O4.
  - rw /sizes_of N5. exact O5.
  - move=> r. by rw Hf.
Qed.
Lemma on_ctx_renamed f s : wp (on_ctx (mmodify f)) s (λ _ s', renamed s s' ∧ ctx_of s' = f (ctx_of s)) any_exn.
Proof. rw /on_ctx. wp_step. by wp_step. Qed.
(** A new group with one sequence waits at the end of the queue. *)
Lemma ok_added s g q : engine_ok s → sg_seqs g = [q] →
  let s' := set_vs_waiting (vs_waiting s ++ [length (vs_groups s)]) (set_vs_groups (vs_groups s ++ [g]) s) in
  engine_ok s' ∧ later s s'.
Proof.
  move=> [O1 O2 O3 O4 O5 O6] Hq s'. have Hqueue : queue s' ≡ₚ length (vs_groups s) :: queue s.
  { rw /queue /= -app_assoc /=. by rw -Permutation_middle. }
  have Hl : length (vs_groups s') = S (length (vs_groups s)) by rw /= length_app Nat.add_1_r.
  have Hfin : ∀ r, fin_at s r → fin_at s' r.
  { move=> r. rw /fin_at /=. destruct (vs_groups s !! r) as [g0|] eqn:Hg; last done. by rw (lookup_app_l_Some _ _ _ _ Hg). }
  split; [split|split].
  - rw Hqueue. constructor; [|done]. move=> /O2. lia.
  - move=> r. rw Hqueue elem_of_cons Hl. move=> [->|/O2]; lia.
  - done.
  - move=> r Hr. destruct (decide (r = length (vs_groups s))) as [->|Hne]; first by left; rw Hqueue; left.
    destruct (O4 r) as [H|H]; [rw Hl in Hr; lia|left; rw Hqueue; by right|by right; apply Hfin].
  - move=> n. rw /sizes_of fmap_app elem_of_app. move=> [/O5 //|/list_elem_of_singleton ->]. by rw /= Hq.
  - done.
  - rw /= fmap_app. by eexists.
  - exact Hfin.
Qed.
Lemma create_group_shape id q p t lora e prio g :
  create_sequence_group_with_sampling c id q p t lora e prio = Ok g → sg_seqs g = [q] ∧ sg_request_id g = id.
Proof.
  rw /create_sequence_group_with_sampling. destruct (_ || _); first done. destruct (update_from_generation_config _ _ _); last done.
  by move=> [= <-].
Qed.
(** What adding one group guarantees. *)
Record added id s r s' : Prop := {
  ad_index : r = length (vs_groups s);
  ad_ok : engine_ok s';
  ad_later : later s s';
  ad_ids : sg_request_id <$> vs_groups s' = (sg_request_id <$> vs_groups s) ++ [id];
  ad_names : names_of (ctx_of s') = names_of (ctx_of s);
  ad_queue : r ∈ queue s';
}.
Lemma add_single_spec id inputs p t lora adapter prio s : engine_ok s →
  wp (add_single_request c id inputs p t lora adapter prio) s (λ r s', added id s r s') any_exn.
Proof.
  move=> Hok. rw /add_single_request. wp_step. apply wp_lift; last done. move=> u _. wp_step. wp_step. wp_step.
  eapply wp_mono; [apply on_ctx_renamed| |done]. move=> u1 s1 [H1 Hc1].
  have Hn1 : names_of (ctx_of s1) = names_of (ctx_of s) by rw Hc1.
  have [Hok1 L1] : engine_ok s1 ∧ later s s1. { apply ok_renamed; [done|rw Hn1; apply Hok|done]. }
  destruct (match inputs with EncoderDecoderInputs e d => (d, Some e) | DecoderOnlyInputs d => (d, None) end) as [dec enc].
  wp_step. apply wp_lift; last done. move=> q _. wp_step.
  eapply (wp_mono _ _ (λ _ s2, s2 = s1) _ any_exn); [| |done].
  { destruct enc as [e|]; last by wp_step. wp_step. apply wp_lift; last done. move=> q2 _. by wp_step. }
  move=> enc_seq s2 ->. wp_step. apply wp_lift; last done. move=> g Hg. apply create_group_shape in Hg as [Hq Hid].
  wp_step. wp_step. wp_step. rw /add_seq_group. wp_step. wp_step.
  destruct (ok_added s1 g q Hok1 Hq) as [Hok2 L2]. split.
  - by rw (rn_groups _ _ H1).
  - done.
  - exact (transitivity L1 L2).
  - by rw /= fmap_app (rn_groups _ _ H1) /= Hid.
  - exact Hn1.
  - rw /queue !elem_of_app. left. right. by left.
Qed.

(** * Several samples *)
Lemma upd_sample_spec k f s :
  wp (upd_sample k f) s (λ _ s', renamed s s' ∧ cx_samples (ctx_of s') = alter f k (cx_samples (ctx_of s)) ∧
    cx_seq_id_to_seq_group (ctx_of s') = cx_seq_id_to_seq_group (ctx_of s)) any_exn.
Proof. rw /upd_sample. eapply wp_mono; [apply on_ctx_renamed| |done]. move=> u s' [H ->]. done. Qed.
Lemma upd_sample_names k f s : (∀ p, pl_assembled (f p) = pl_assembled p) →
  wp (upd_sample k f) s (λ _ s', renamed s s' ∧ names_of (ctx_of s') = names_of (ctx_of s)) any_exn.
Proof.
  move=> Hf. rw /upd_sample. eapply wp_mono; [apply on_ctx_renamed| |done]. move=> u s' [H ->]. split; [done|].
  apply names_alter => p _. by rw Hf.
Qed.
(** While the samples of the request are made: the new one, at the end, has no
    name, and whoever belongs to it has a longer id than the request. *)
Record making id k s0 (done : list string) s : Prop := {
  ma_ok : engine_ok s;
  ma_later : later s0 s;
  ma_ids : sg_request_id <$> vs_groups s = (sg_request_id <$> vs_groups s0) ++ done;
  ma_new : (names_of (ctx_of s)).1 !! k = Some None;
  ma_long id' : dget (names_of (ctx_of s)).2 id' = Some k → String.length id < String.length id';
}.
Lemma making_renamed id k s0 l s s' : renamed s s' → names_of (ctx_of s') = names_of (ctx_of s) → making id k s0 l s → making id k s0 l s'.
Proof.
  move=> Hr Hn [M1 M2 M3 M4 M5]. destruct (ok_renamed _ _ Hr) as [H1 H2]; [rw Hn; apply M1|done|].
  split; [done|exact (transitivity M2 H2)|by rw (rn_groups _ _ Hr)|by rw Hn|by rw Hn].
Qed.
Lemma string_length_app (a b : string) : String.length (a +:+ b) = String.length a + String.length b.
Proof. elim: a => [|x a IH] //=. by rw IH. Qed.
Lemma sample_id_longer id i : String.length id < String.length (sample_id id i).
Proof. rw /sample_id !string_length_app /=. lia. Qed.
(** A sample joins. *)
Lemma names_join n k id name : names_ok n → n.1 !! k = Some None → String.length name < String.length id →
  names_ok (n.1, dset n.2 id k).
Proof.
  move=> [H1 H2] Hk Hlen. split.
  - move=> id' k' /=. rw dget_dset. case_decide; last by apply H1. move=> [= <-]. by eapply lookup_lt_Some.
  - move=> id' k' name' /=. rw dget_dset. case_decide; last by apply H2. move=> [= <-]. by rw Hk.
Qed.
Lemma make_one id inputs p t lora adapter prio k s0 l refs i s : making id k s0 l s →
  wp (upd_sample k (λ p, set_pl_seq_id_to_index (dset (pl_seq_id_to_index p) (sample_id id i) (Z.of_nat i)) p);;;
      r ← add_single_request c (sample_id id i) inputs p t lora adapter prio;
      on_ctx (mmodify (λ x, set_cx_seq_id_to_seq_group (dset (cx_seq_id_to_seq_group x) (sample_id id i) k) x));;;
      upd_sample k (λ p, set_pl_to_be_finished (dset (pl_to_be_finished p) (sample_id id i) (Plain r)) p);;;
      mret (refs ++ [r])) s (λ _ s', making id k s0 (l ++ [sample_id id i]) s') any_exn.
Proof.
  move=> HM. wp_step. eapply wp_mono; [by apply upd_sample_names| |done]. move=> u1 s1 [R1 N1].
  have {}HM := making_renamed _ _ _ _ _ _ R1 N1 HM. clear R1 N1. wp_step.
  eapply wp_mono; [apply add_single_spec, HM| |done]. move=> r s2 [A1 A2 A3 A4 A5 _]. wp_step.
  eapply wp_mono; [apply on_ctx_renamed| |done]. move=> u3 s3 [R3 C3]. wp_step.
  have Hn : names_of (ctx_of s3) = ((names_of (ctx_of s2)).1, dset (names_of (ctx_of s2)).2 (sample_id id i) k) by rw C3.
  destruct HM as [M1 M2 M3 M4 M5].
  have Hnok : names_ok (names_of (ctx_of s3)). { rw Hn A5. apply (names_join _ _ _ id); [apply M1|done|apply sample_id_longer]. }
  destruct (ok_renamed _ _ R3 Hnok A2) as [H3 L3].
  have HM : making id k s0 (l ++ [sample_id id i]) s3.
  { split; [done|exact (transitivity M2 (transitivity A3 L3))| | |].
    - by rw (rn_groups _ _ R3) A4 M3 app_assoc.
    - by rw Hn A5.
    - move=> id'. rw Hn A5 /= dget_dset. case_decide; [|by apply M5]. move=> _. subst. apply sample_id_longer. }
  eapply wp_mono; [by apply upd_sample_names| |done]. move=> u4 s4 [R4 N4]. wp_step. by eapply making_renamed.
Qed.
Lemma make_all id inputs p t lora adapter prio k s0 n : ∀ l refs a s, making id k s0 l s →
  wp (mfold (seq a n) refs (λ refs i,
      upd_sample k (λ p, set_pl_seq_id_to_index (dset (pl_seq_id_to_index p) (sample_id id i) (Z.of_nat i)) p);;;
      r ← add_single_request c (sample_id id i) inputs p t lora adapter prio;
      on_ctx (mmodify (λ x, set_cx_seq_id_to_seq_group (dset (cx_seq_id_to_seq_group x) (sample_id id i) k) x));;;
      upd_sample k (λ p, set_pl_to_be_finished (dset (pl_to_be_finished p) (sample_id id i) (Plain r)) p);;;
      mret (refs ++ [r]))) s (λ _ s', making id k s0 (l ++ (sample_id id <$> seq a n)) s') any_exn.
Proof.
  elim: n => [|n IH] l refs a s HM; cbn [seq mfold]; first by wp_step; rw app_nil_r.
  wp_step. eapply wp_mono; [by apply make_one| |done]. move=> refs' s1 H1.
  eapply wp_mono; [apply (IH (l ++ [sample_id id a])); exact H1| |done]. move=> refs2 s2. by rw -app_assoc.
Qed.
(** The new sample before any of its groups. *)
Lemma making_start id s s1 p : engine_ok s → renamed s s1 → pl_assembled p = None →
  ctx_of s1 = set_cx_samples (cx_samples (ctx_of s) ++ [p]) (ctx_of s) →
  making id (length (cx_samples (ctx_of s))) s [] s1.
Proof.
  move=> Hok Hr Hp Hc. have [N1 N2] := eo_names _ Hok.
  have Hl : length (names_of (ctx_of s)).1 = length (cx_samples (ctx_of s)) by rw /names_of /= length_fmap.
  have Hn : names_of (ctx_of s1) = ((names_of (ctx_of s)).1 ++ [None], (names_of (ctx_of s)).2).
  { by rw Hc /names_of /= fmap_app /= Hp. }
  have Hnok : names_ok (names_of (ctx_of s1)).
  { rw Hn. split=> id' k /=.
    - move=> /N1. rw length_app /=. lia.
    - move=> name Hk. rw lookup_app_l; [by apply (N1 id')|]. by apply N2. }
  destruct (ok_renamed _ _ Hr Hnok Hok) as [H1 L1]. split; [done|done| | |].
  - by rw (rn_groups _ _ Hr) app_nil_r.
  - rw Hn /= lookup_app_r Hl; [lia|]. by rw Nat.sub_diag.
  - move=> id'. rw Hn /= => /N1. lia.
Qed.
(** The assembled group gets the name of the request. *)
Lemma making_named id k s0 l s a : making id k s0 l s → sg_request_id (fst a) = id →
  wp (upd_sample k (set_pl_assembled (Some a))) s
    (λ _ s', engine_ok s' ∧ later s0 s' ∧ sg_request_id <$> vs_groups s' = (sg_request_id <$> vs_groups s0) ++ l) any_exn.
Proof.
  move=> [M1 M2 M3 M4 M5] Ha. eapply wp_mono; [apply upd_sample_spec| |done]. move=> u s1 [R1 [C1 C2]].
  have Hn : names_of (ctx_of s1) = (<[k := Some id]> (names_of (ctx_of s)).1, (names_of (ctx_of s)).2).
  { rw /names_of C1 C2 /=. f_equal. apply list_eq => i. rw list_lookup_fmap.
    have Hk : k < length (cx_samples (ctx_of s)). { apply lookup_lt_Some in M4. by rw /names_of /= length_fmap in M4. }
    destruct (decide (i = k)) as [->|Hne].
    - rw list_lookup_alter_eq list_lookup_insert_eq; [by rw length_fmap|].
      destruct (lookup_lt_is_Some_2 _ _ Hk) as [p ->]. by rw /= Ha.
    - by rw list_lookup_alter_ne // list_lookup_insert_ne // list_lookup_fmap. }
  have [N1 N2] := eo_names _ M1. have Hnok : names_ok (names_of (ctx_of s1)).
  { rw Hn. split=> id' k' /=; first by rw length_insert; apply N1. move=> name Hk'. destruct (decide (k' = k)) as [->|Hne].
    - rw list_lookup_insert_eq; [by eapply lookup_lt_Some|]. move=> [= <-]. by apply M5.
    - rw list_lookup_insert_ne //. by apply N2. }
  destruct (ok_renamed _ _ R1 Hnok M1) as [H1 L1]. split_and!; [done|exact (transitivity M2 L1)|by rw (rn_groups _ _ R1)].
Qed.
(** The ids of the groups of a request. *)
Definition group_ids (id : string) (p : SamplingParams) : list string :=
  if (1 <? sp_n p)%Z then sample_id id <$> seq 0 (Z.to_nat (sp_n p)) else [id].
Definition grown (l : list string) s s' : Prop :=
  engine_ok s' ∧ later s s' ∧ sg_request_id <$> vs_groups s' = (sg_request_id <$> vs_groups s) ++ l.
Lemma grown_renamed l s0 s s' : grown l s0 s → renamed s s' → names_of (ctx_of s') = names_of (ctx_of s) → grown l s0 s'.
Proof.
  move=> [H1 [H2 H3]] R N. destruct (ok_renamed _ _ R) as [H4 L4]; [rw N; apply H1|done|].
  split_and!; [done|exact (transitivity H2 L4)|by rw (rn_groups _ _ R)].
Qed.
Lemma add_parallel_spec id inputs p t lora adapter prio s : engine_ok s →
  wp (add_parallel_request c id inputs p t lora adapter prio) s
    (λ _ s', grown (sample_id id <$> seq 0 (Z.to_nat (sp_n p))) s s') any_exn.
Proof.
  move=> Hok. rw /add_parallel_request. wp_step. wp_step. wp_step.
  eapply wp_mono; [apply on_ctx_renamed| |done]. move=> u1 s1 [R1 C1]. wp_step.
  have HM : making id (length (cx_samples (ctx_of s))) s [] s1 by eapply making_start; [| | |exact C1].
  eapply wp_mono; [eapply make_all, HM| |done].
  clear HM. move=> refs s2 HM. cbn [app] in HM. wp_step. eapply wp_mono; [apply (sample_seqs_spec any_exn)| |done]. move=> seqs s3 [-> _]. wp_step.
  eapply (wp_mono _ _ (λ _ s4, s4 = s2) _ any_exn); [| |done].
  { destruct (last refs) as [r|]; last by wp_step. wp_step. apply wp_the_group; [done|]. move=> g Hg. by wp_step. }
  move=> enc s4 ->. wp_step. apply wp_lift; last done. move=> g Hg. wp_step.
  eapply wp_mono; [eapply making_named; [exact HM|]| |done].
  { move: Hg. rw /sequence_group_init. destruct seqs; first done. by move=> [= <-]. }
  move=> u5 s5 H5. wp_step. eapply wp_mono; [by apply upd_sample_names| |done]. move=> u6 s6 [R6 N6].
  eapply wp_mono; [by apply upd_sample_names| |done]. move=> u7 s7 [R7 N7].
  apply (grown_renamed _ _ s6); [|exact R7|exact N7]. exact (grown_renamed _ _ _ _ H5 R6 N6).
Qed.
Lemma add_processed_spec id inputs p t lora adapter prio s : engine_ok s →
  wp (add_processed_request c id inputs p t lora adapter prio) s (λ _ s', grown (group_ids id p) s s') any_exn.
Proof.
  move=> Hok. rw /add_processed_request /group_ids. destruct (_ <? _)%Z; first by apply add_parallel_spec.
  wp_step. eapply wp_mono; [by apply add_single_spec| |done]. move=> r s1 [_ H2 H3 H4 _ _]. wp_step. done.
Qed.
Lemma stat_grown s s' : stat s s' → engine_ok s → grown [] s s'.
Proof.
  move=> H Hok. destruct (ok_ekept _ _ (stat_ekept _ _ H) Hok) as [H1 [H2 H3]]. split_and!; [done|by split; [rw H2|]|]. by rw (sa_ids _ _ H) app_nil_r.
Qed.
Lemma engine_grown_trans l1 l2 s1 s2 s3 : grown l1 s1 s2 → grown l2 s2 s3 → grown (l1 ++ l2) s1 s3.
Proof. move=> [_ [H1 H2]] [H3 [H4 H5]]. split_and!; [done|exact (transitivity H1 H4)|]. by rw H5 H2 app_assoc. Qed.
Lemma add_request_spec {Prompt} (token_prompt : Prompt → option (list Z)) max_token_id
    (preprocess : string → Prompt → option LoRARequest → option PromptAdapterRequest →
      result (ProcessorInputs (Image := Image) (ProcKwargs := ProcKwargs))) id prompt p t lora adapter prio s : engine_ok s →
  wp (v0_add_request c token_prompt max_token_id preprocess id prompt p t lora adapter prio) s
    (λ _ s', grown (group_ids id p) s s') any_exn.
Proof.
  move=> Hok. rw /v0_add_request. destruct (_ && _); first by wp_step. destruct (_ && _); first by wp_step. wp_step.
  eapply (wp_mono _ _ (λ _ s1, stat s s1) _ any_exn); [| |done].
  { destruct t; [by wp_step|by apply time_stat]. }
  move=> t1 s1 /stat_grown H1. specialize (H1 Hok). wp_step. apply wp_lift; last done. move=> u _. wp_step. apply wp_lift; last done.
  move=> inputs _. eapply wp_mono; [by apply add_processed_spec, H1| |done]. move=> u2 s2 H2.
  by apply (engine_grown_trans [] _ _ _ _ H1).
Qed.
(** * The new engine *)
Lemma engine_init_ok make executor clock draws s : engine_init (B := B) c make executor clock draws = Ok s →
  engine_ok s ∧ vs_groups s = [] ∧ queue s = [].
Proof.
  rw /engine_init /v0_scheduler_init. set (r := (b ← make _ _ _ _ _; mret (b, ctx_init executor)) : result (B * V0Ctx)).
  have Hr : ∀ x, r = Ok x → x.2 = ctx_init executor. { rw /r. destruct (make _ _ _ _ _) as [b|e]; [by move=> x [= <-]|done]. }
  destruct r as [x|e]; last done. move=> [= <-]. specialize (Hr x eq_refl). split; [split|by split]; rw /queue //=.
  - apply NoDup_nil_2.
  - move=> r' H. by apply elem_of_nil in H.
  - lia.
  - move=> n H. by apply elem_of_nil in H.
  - by rw /ctx_of /= Hr.
Qed.
End adding.
