(* ===== verification/V0EngineProps.v ===== *)
(** Where the tokens of a step go: the V0 engine appends to each sequence the token
    that the model sampled for it, and nothing else. Then the properties of the
    engine. *)
From Stdlib Require Import ssreflect ZArith Lia.
From stdpp Require Import base numbers list gmap strings pretty.
From S2P Require Import Prelude SamplingParams KVCacheBlock Request FreeQueue BlockHash KVCacheManager EncoderCache Scheduler LRUCache MMInputMapper Detokenizer Processor.
From S2P Require Import SequenceData Sequences BlockTable BlockManager SchedConfig V0Types V0Sched V0Phases V0Schedule V0Frame V0SchedFrame V0Running V0Admission V0SchedTheorems.
From S2P Require Import V0Outputs V0Engine V0EngineFrame V0EngineInv.

#[local] Hint Extern 2 (any_exn _) => exact I : keeps.

(** * The messages of a schedule *)
Section messages.
Context {B : Type} `{BSM : BlockSpaceManager B} (conf : V0Config).
Implicit Types s : V0Scheduler B.
Lemma wp_any {S A} (m : M S A) (s : S) : wp m s (λ _ _, True) any_exn.
Proof. apply quiet_any. Qed.
Lemma post_init_id m m' : group_metadata_post_init m = Ok m' → gm_request_id m' = gm_request_id m.
Proof. rw /group_metadata_post_init. repeat case_match; try done; by move=> [= <-]. Qed.
Lemma message_for now x s :
  wp (group_message conf now x) s (λ m _, (sg_request_id <$> vs_groups s) !! ssg_seq_group x = Some (msg_request_id m)) any_exn.
Proof.
  rw /group_message. wp_step. eapply (wp_mono _ _ (λ _ s1, sg_request_id <$> vs_groups s1 = sg_request_id <$> vs_groups s) _ any_exn);
    [| |done].
  { apply on_group_spec; [done|]. move=> g Hg. rw /maybe_set_first_scheduled_time. wp_step. wp_step.
    have Hid : ∀ g', sg_request_id g' = sg_request_id g → sg_request_id <$> <[ssg_seq_group x:=g']> (vs_groups s) = sg_request_id <$> vs_groups s.
    { move=> g' Hg'. rw list_fmap_insert Hg' list_insert_id; [by rw list_lookup_fmap Hg|done]. }
    wp_step; last by apply Hid. wp_step. by apply Hid. }
  move=> u s1 <-. wp_step. apply wp_the_group; [done|]. move=> g Hg.
  eapply (wp_mono _ _ (λ m _, msg_request_id m = sg_request_id g) _ any_exn); [| |done]; last first.
  { move=> m _ ->. by rw list_lookup_fmap Hg. }
  clear Hg. do 4 (wp_step; eapply wp_mono; [apply wp_any| |done]; move=> ? ? _).
  wp_step. apply wp_lift; last done. move=> [do_sample first] _. destruct (first || _).
  - wp_step. eapply wp_mono; [apply wp_any| |done]. move=> data s2 _. wp_step. apply wp_lift; last done. move=> m /post_init_id Hm. by wp_step.
  - wp_step. eapply wp_mono; [apply wp_any| |done]. move=> deltas s2 _. by wp_step.
Qed.
(** One message for each scheduled group, in the order of the schedule. *)
Definition messages_for s (l : list GroupMessage) (scheduled : list ScheduledSequenceGroup) : Prop :=
  Forall2 (λ m x, (sg_request_id <$> vs_groups s) !! ssg_seq_group x = Some (msg_request_id m)) l scheduled.
Definition ids_kept s s' : Prop := sg_request_id <$> vs_groups s' = sg_request_id <$> vs_groups s.
#[local] Instance ids_kept_preorder : PreOrder ids_kept.
Proof. split; first by move=> s. move=> s1 s2 s3 H1 H2. by rw /ids_kept H2. Qed.
Lemma kept_ids_kept s s' : kept s s' → ids_kept s s'.
Proof. by move=> []. Qed.
Lemma message_kept now x : keeps ids_kept any_exn (group_message (B := B) conf now x).
Proof. eapply keeps_mono, group_message_kept, manager_quiet_any; [apply kept_ids_kept|apply _]. Qed.
Definition add_message (now : Z) : list GroupMessage * bool → ScheduledSequenceGroup → M (V0Scheduler B) (list GroupMessage * bool) :=
  λ '(messages, allow_async) x,
  m ← group_message conf now x;
  g ← the_group (ssg_seq_group x);
  mret (messages ++ [m], if (allow_async : bool) then allow_async_output g else false).
Lemma messages_fold now l : ∀ acc s done, messages_for s acc done →
  wp (mfold l (acc, false) (add_message now)) s
    (λ '(msgs, allow) s', allow = false ∧ messages_for s' msgs (done ++ l) ∧ ids_kept s s') any_exn.
Proof.
  elim: l => [|x l IH] acc s done Hacc; cbn [mfold]; first by wp_step; rw app_nil_r.
  wp_step. rw {1}/add_message. wp_step. eapply wp_mono; [apply (wp_conj any_exn); [apply message_kept|apply message_for]| |done].
  move=> m s1 [H1 Hm]. wp_step. apply wp_the_group; [done|]. move=> g _. wp_step.
  eapply wp_mono; [apply (IH _ _ (done ++ [x]))| |done].
  - apply Forall2_app; [by eapply Forall2_impl; [exact Hacc|]; move=> a b; rw H1|]. constructor; [by rw H1|done].
  - move=> [msgs allow] s2 [-> [H2 H3]]. rw -app_assoc in H2. split_and!; [done|done|exact (transitivity H1 H3)].
Qed.
Lemma calm_tail {A} (m : M (V0Scheduler B) A) s (P : A → V0Scheduler B → Prop) : keeps ids_kept any_exn m →
  (∀ a s', ids_kept s s' → P a s') → wp m s P any_exn.
Proof. move=> H HP. eapply wp_mono; [apply H| |done]. move=> a s'. apply HP. Qed.
Lemma v0_schedule_messages s :
  wp (v0_schedule conf None) s (λ '(msgs, o, allow) s', allow = false ∧ messages_for s' msgs (so_scheduled_seq_groups o)) any_exn.
Proof.
  rw /v0_schedule. wp_step. eapply wp_mono; [apply wp_any| |done]. move=> t1 s1 _.
  wp_step. eapply wp_mono; [apply wp_any| |done]. move=> o s2 _. wp_step. eapply wp_mono; [apply wp_any| |done]. move=> now s3 _.
  wp_step. have -> : use_async_output_proc (B := B) None = false by done. change (λ '(messages, allow_async) x, _) with (add_message now).
  eapply wp_mono; [apply (messages_fold now _ [] s3 []); constructor| |done]. move=> [msgs allow] s4 [-> [H4 _]]. cbn [app] in H4.
  have Hstop : ∀ s', ids_kept s4 s' → messages_for s' msgs (so_scheduled_seq_groups o).
  { move=> s' Hs'. eapply Forall2_impl; [exact H4|]. move=> a b. by rw Hs'. }
  clear H4. wp_step. apply calm_tail.
  { apply keeps_for; [apply _|]. move=> x. eapply keeps_mono; [apply kept_ids_kept|]. keeps_auto. }
  move=> u5 s5 H5. wp_step. apply calm_tail; [by eapply keeps_mono; [apply kept_ids_kept|]; apply time_kept|]. move=> t6 s6 H6. wp_step. wp_step.
  wp_step. apply calm_tail.
  { apply keeps_for; [apply _|]. move=> x. eapply keeps_mono; [apply kept_ids_kept|]. by apply add_time_kept, _. }
  move=> u7 s7 H7. wp_step. wp_step. wp_step. split; [done|]. apply Hstop.
  exact (transitivity H5 (transitivity H6 H7)).
Qed.
End messages.

(** * Sequences *)
Definition tokens (q : Sequence) : list Z := sd_output_token_ids (sq_data q).
Definition same_outputs_of (q q' : Sequence) : Prop := tokens q' = tokens q.
#[local] Instance same_outputs_preorder : PreOrder same_outputs_of.
Proof. split; first by move=> q. move=> q1 q2 q3 H1 H2. by etrans. Qed.
Lemma mark_tokens q q' : same_mark q q' → same_outputs_of q q'.
Proof. rw /same_mark /mark /same_outputs_of /tokens. by move=> [= _ ->]. Qed.
Lemma append_tokens id lps q : wp (seq_append_token_id id lps) q (λ _ q', tokens q' = tokens q ++ [id]) any_exn.
Proof.
  rw /seq_append_token_id. destruct (dget lps id) as [lp|]; last by wp_step. wp_step. wp_step. rw /on_data. wp_step.
  rw /sd_append_token_id. wp_step. apply wp_lift; last done. move=> t. rw /py_array /=. destruct (fits_long id); last done. move=> [= <-].
  by do 4 (repeat wp_step).
Qed.
Lemma maybe_stop_tokens n k p l : keeps same_outputs_of any_exn (maybe_stop_sequence n k p l).
Proof.
  have Hset : ∀ f, (∀ q, tokens (f q) = tokens q) → keeps same_outputs_of any_exn (mmodify f) by move=> f Hf; apply keeps_modify.
  have Hdrop : ∀ a, keeps same_outputs_of any_exn (drop_stop_text a p).
  { move=> a. apply (keeps_mono same_mark); [by apply mark_tokens|]. apply drop_text_same. }
  rw /maybe_stop_sequence. apply keeps_bind; [apply _|apply keeps_get, _|]. move=> q. keeps_auto; by apply Hset.
Qed.
Lemma single_step_tokens c o p lora q : wp (single_step_seq c o p lora false) q (λ _ q', tokens q' = tokens q ++ [sx_output_token o]) any_exn.
Proof.
  rw /single_step_seq. wp_step. wp_step; last done. eapply wp_mono; [apply append_tokens| |done]. move=> u q1 <-. wp_step.
  eapply (wp_mono _ _ (λ _ q2, tokens q2 = tokens q1) _ any_exn); [| |done].
  { destruct (ec_get_tokenizer c) as [get|]; last by wp_step. destruct (detokenize p); last by wp_step. wp_step. wp_step.
    eapply wp_mono; [apply (decode_same any_exn); done| |done]. move=> a q2. apply mark_tokens. }
  move=> n q2 <-. apply maybe_stop_tokens.
Qed.

(** * Groups *)
Section groups.
Context {B : Type} `{BSM : BlockSpaceManager B} (c : EngineConf).
Abbreviation Engine := (V0Scheduler (B * V0Ctx)).
Abbreviation VS := (M (V0Scheduler (B * V0Ctx))).
Implicit Types s : V0Scheduler (B * V0Ctx).
#[local] Existing Instance same_ctx_preorder.
(** The output tokens of a group, and whether its sequence is finished. *)
Definition output_at s r : option (list Z) := snd <$> head_mark s r.
Definition done_at s r : bool := match head_mark s r with Some m => seq_status_is_finished m.1 | None => false end.
Record calm s s' : Prop := {
  cm_output r : output_at s' r = output_at s r;
  cm_names : names_of (ctx_of s') = names_of (ctx_of s);
}.
#[local] Instance calm_preorder : PreOrder calm.
Proof. split; first by move=> s; split. move=> s1 s2 s3 [H1 H2] [H3 H4]. split; [by move=> r; rw H3|by rw H4]. Qed.
Lemma stat_calm s s' : stat s s' → calm s s'.
Proof. move=> H. split; [|by apply sa_names]. move=> r. by rw /output_at (stat_head _ _ _ H). Qed.
Lemma frame_calm s s' : frame same_ctx s s' → calm s s'.
Proof.
  move=> F. split; [|by rw (framed_ctx _ _ F)]. destruct F as [H _]. move=> r. rw /output_at /head_mark.
  have Hr : group_content <$> vs_groups s' !! r = group_content <$> vs_groups s !! r by rw -!list_lookup_fmap H.
  destruct (vs_groups s !! r) as [g|], (vs_groups s' !! r) as [g'|]; try done.
  have {}Hr : Some (group_content g') = Some (group_content g) by exact Hr.
  have {}Hr : seq_content <$> sg_seqs g' = seq_content <$> sg_seqs g by rw /group_content in Hr; congruence.
  rw /= /marks_of. destruct (sg_seqs g) as [|q l], (sg_seqs g') as [|q' l']; try done.
  have {}Hr : seq_content q' = seq_content q by cbn in Hr; congruence. rw /= /mark /=. rw /seq_content in Hr. congruence.
Qed.
Lemma done_spec r s : wp (on_group r group_is_finished) s (λ f s', s' = s ∧ f = done_at s r ∧ is_Some (head_mark s r)) any_exn.
Proof.
  apply on_group_spec; [done|]. move=> g Hg. rw /group_is_finished /first_seq. wp_step. wp_step. wp_step.
  destruct (sg_seqs g) as [|q l] eqn:Hq; wp_step; first done. wp_step. rw list_insert_id; [done|].
  have Hh : head_mark s r = Some (mark q) by rw /head_mark Hg /= /marks_of Hq. rw /done_at Hh. by destruct s.
Qed.
(** A method of the first sequence of a group. *)
Lemma on_first_marks {A} r (m : M Sequence A) t s :
  (∀ q, wp m q (λ _ q', tokens q' = tokens q ++ t) any_exn) →
  wp (on_group r (on_first m)) s (λ _ s', names_of (ctx_of s') = names_of (ctx_of s) ∧ (∀ r', r' ≠ r → head_mark s' r' = head_mark s r') ∧
    output_at s' r = (λ l, l ++ t) <$> output_at s r) any_exn.
Proof.
  move=> H. apply on_group_spec; [done|]. move=> g Hg. rw /on_first /first_seq. wp_step. wp_step. wp_step.
  destruct (sg_seqs g) as [|q l] eqn:Hq; wp_step; first done. wp_step. apply wp_lift; last done. move=> [a q'] Ha.
  have := wp_ok _ _ _ _ _ _ (H q) Ha. move=> Ht. wp_step. wp_step. wp_step. split_and!; first done.
  - move=> r' Hne. by rw /head_mark /= list_lookup_insert_ne.
  - rw /output_at /head_mark /= list_lookup_insert_eq; [by eapply lookup_lt_Some|]. rw /tokens in Ht. by rw Hg /= /marks_of Hq /= /mark Ht.
Qed.
(** Only the group [r] changes, and its sequence gets the tokens [t]. *)
Record gives r t s s' : Prop := {
  gi_names : names_of (ctx_of s') = names_of (ctx_of s);
  gi_others r' : r' ≠ r → head_mark s' r' = head_mark s r';
  gi_output : output_at s' r = (λ l, l ++ t) <$> output_at s r;
}.
Lemma stat_gives r s s' : stat s s' → gives r [] s s'.
Proof.
  move=> H. split; [by apply sa_names|by move=> r' _; apply stat_head|]. rw (cm_output _ _ (stat_calm _ _ H)).
  destruct (output_at s r); [by rw /= app_nil_r|done].
Qed.
Lemma gives_trans r t1 t2 s1 s2 s3 : gives r t1 s1 s2 → gives r t2 s2 s3 → gives r (t1 ++ t2) s1 s3.
Proof.
  move=> [N1 H1 O1] [N2 H2 O2]. split; [by etrans|by move=> r' Hne; rw H2 // H1|]. rw O2 O1. destruct (output_at s1 r); [by rw /= app_assoc|done].
Qed.
Lemma gives_stat r t s1 s2 s3 : stat s1 s2 → gives r t s2 s3 → gives r t s1 s3.
Proof. move=> H1 H2. exact (gives_trans _ [] _ _ _ _ (stat_gives r _ _ H1) H2). Qed.
Lemma stat_after r t s1 s2 s3 : gives r t s1 s2 → stat s2 s3 → gives r t s1 s3.
Proof. move=> H1 H2. rw -(app_nil_r t). exact (gives_trans _ _ _ _ _ _ H1 (stat_gives r _ _ H2)). Qed.

Context (Hone : single_step_processor c = true) (Hstep : is_multi_step (vc_scheduler (ec_sched c)) = false).
Definition sampled (m : GroupMessage) (o : CompletionSequenceGroupOutput) : list Z :=
  if msg_do_sample m then match cso_samples o with x :: _ => [sx_output_token x] | [] => [] end else [].
Lemma process_outputs_gives r o s :
  wp (process_outputs c r [o] false) s (λ _ s', ∃ x l, cso_samples o = x :: l ∧ gives r [sx_output_token x] s s') any_exn.
Proof.
  rw /process_outputs Hone /single_step_process_outputs. wp_step. apply wp_lift; last done. move=> x. rw /first_sample.
  destruct (cso_samples o) as [|x' l] eqn:Ho; first done. move=> [= <-]. wp_step. apply wp_the_group; [done|]. move=> g _. wp_step.
  eapply wp_mono; [apply params_of_stat, _| |done]. move=> p s1 H1. wp_step.
  eapply wp_mono; [apply on_first_marks => q; apply single_step_tokens| |done]. move=> u s2 [N2 [O2 T2]].
  have H2 : gives r [sx_output_token x'] s1 s2 by split. wp_step.
  eapply wp_mono; [apply (on_group_stat any_exn), pure_gsame, first_seq_pure, _| |done]. move=> q s3 H3.
  eapply (wp_mono _ _ (λ _ s4, stat s3 s4) _ any_exn); [| |done].
  { wp_step; [by apply free_seq_stat, manager_quiet_any|done]. }
  move=> u4 s4 H4. exists x', l. split; [done|]. eapply gives_stat; [exact H1|]. eapply stat_after; [|exact H4].
  by eapply stat_after; [exact H2|].
Qed.
Lemma process_index_gives d by_group acc i out m x o s :
  od_outputs d = [out] → od_skip d = [] → od_is_async d = false → od_seq_group_metadata_list d !! i = Some m →
  so_scheduled_seq_groups (od_scheduler_outputs d) !! i = Some x → out !! i = Some o →
  wp (process_index c d by_group acc i) s
    (λ _ s', gives (ssg_seq_group x) (if done_at s (ssg_seq_group x) then [] else sampled m o) s s') any_exn.
Proof.
  move=> Hout Hskip Hasync Hm Hx Ho. rw /process_index /message_at /scheduled_at Hskip Hm Hx Hasync. destruct acc as [before now].
  case_bool_decide as Hi; first by apply elem_of_nil in Hi. set (r := ssg_seq_group x). wp_step. wp_step. wp_step. wp_step.
  wp_step. eapply wp_mono; [apply done_spec| |done]. move=> f s1 [-> [-> _]]. destruct (done_at s r).
  { wp_step. by apply stat_gives. }
  wp_step. apply wp_lift; last done. move=> output. rw /outputs_at /has_multiple_outputs Hout /= Ho. move=> [= <-]. wp_step.
  eapply (wp_mono _ _ (λ _ s2, stat s s2) _ any_exn); [| |done].
  { rw Hstep. cbn. apply on_group_stat; [done|]. by apply update_computed_same. }
  move=> u s2 H2. wp_step. eapply wp_mono; [by apply (process_prompt_logprob_stat any_exn)| |done]. move=> u3 s3 H3. wp_step.
  eapply (wp_mono _ _ (λ _ s4, gives r (sampled m o) s3 s4) _ any_exn); [| |done].
  { rw /sampled. destruct (msg_do_sample m); cbn [mwhen]; last by apply wp_ret, stat_gives.
    eapply wp_mono; [apply process_outputs_gives| |done]. by move=> u4 s4 [y [l [-> H4]]]. }
  move=> u4 s4 H4. wp_step. eapply wp_mono; [apply done_spec| |done]. move=> fin s5 [-> _]. wp_step.
  eapply gives_stat; [exact H2|]. by eapply gives_stat; [exact H3|].
Qed.
(** What the model's answer [out] holds for the [i]-th group, whose message is [m]. *)
Definition answer (out : SamplerOutput) (i : nat) (m : GroupMessage) : list Z :=
  match out !! i with Some o => sampled m o | None => [] end.
Lemma process_index_answers d by_group acc i out m x s :
  od_outputs d = [out] → od_skip d = [] → od_is_async d = false → od_seq_group_metadata_list d !! i = Some m →
  so_scheduled_seq_groups (od_scheduler_outputs d) !! i = Some x →
  wp (process_index c d by_group acc i) s
    (λ _ s', gives (ssg_seq_group x) (if done_at s (ssg_seq_group x) then [] else answer out i m) s s') any_exn.
Proof.
  move=> Hout Hskip Hasync Hm Hx. rw /answer. destruct (out !! i) as [o|] eqn:Ho; first by apply (process_index_gives _ _ _ _ out).
  rw /process_index /message_at /scheduled_at Hskip Hm Hx Hasync. destruct acc as [before now].
  case_bool_decide as Hi; first by apply elem_of_nil in Hi. wp_step. wp_step. wp_step. wp_step.
  wp_step. eapply wp_mono; [apply done_spec| |done]. move=> f s1 [-> [-> _]]. destruct (done_at s _).
  { wp_step. by apply stat_gives. }
  wp_step. apply wp_lift; last done. move=> output. by rw /outputs_at /has_multiple_outputs Hout /= Ho.
Qed.
(** The groups scheduled from the position [a] on get their answers, and no other
    group changes. *)
Record delivers (l : list GroupMessage) (scheduled : list ScheduledSequenceGroup) (out : SamplerOutput) (a : nat) s s' : Prop := {
  de_names : names_of (ctx_of s') = names_of (ctx_of s);
  de_answers i m x : a ≤ i → l !! i = Some m → scheduled !! i = Some x →
    output_at s' (ssg_seq_group x) =
      (λ t, t ++ if done_at s (ssg_seq_group x) then [] else answer out i m) <$> output_at s (ssg_seq_group x);
  de_others r : (∀ i x, a ≤ i → scheduled !! i = Some x → ssg_seq_group x ≠ r) → head_mark s' r = head_mark s r;
}.
Lemma groups_distinct l i j x y : NoDup (groups_of l) → l !! i = Some x → l !! j = Some y →
  ssg_seq_group x = ssg_seq_group y → i = j.
Proof.
  move=> Hn Hi Hj He. apply (NoDup_lookup _ i j (ssg_seq_group x) Hn); rw /groups_of list_lookup_fmap; [by rw Hi|by rw Hj /= He].
Qed.
Lemma process_all_deliver d by_group out :
  od_outputs d = [out] → od_skip d = [] → od_is_async d = false →
  NoDup (groups_of (so_scheduled_seq_groups (od_scheduler_outputs d))) →
  length (od_seq_group_metadata_list d) = length (so_scheduled_seq_groups (od_scheduler_outputs d)) →
  ∀ n a acc s, a + n = length (od_seq_group_metadata_list d) →
  wp (mfold (seq a n) acc (process_index c d by_group)) s
    (λ _ s', delivers (od_seq_group_metadata_list d) (so_scheduled_seq_groups (od_scheduler_outputs d)) out a s s') any_exn.
Proof.
  move=> Hout Hskip Hasync Hnd Hlen. set (l := od_seq_group_metadata_list d). set (xs := so_scheduled_seq_groups (od_scheduler_outputs d)).
  elim => [|n IH] a acc s Ha; cbn [seq mfold].
  { wp_step. split; [done| |done]. move=> i m x Hi Hm. have := lookup_lt_Some _ _ _ Hm. lia. }
  destruct (lookup_lt_is_Some_2 l a) as [ma Hma]; first by lia.
  destruct (lookup_lt_is_Some_2 xs a) as [xa Hxa]; first by have := Hlen; rw -/l -/xs; lia.
  wp_step. eapply wp_mono; [by eapply process_index_answers| |done]. move=> acc1 s1 [N1 O1 G1].
  eapply wp_mono; [apply IH; lia| |done]. move=> acc2 s2 [N2 A2 O2].
  have Hne : ∀ i x, a < i → xs !! i = Some x → ssg_seq_group x ≠ ssg_seq_group xa.
  { move=> i x Hi Hx He. have := groups_distinct _ _ _ _ _ Hnd Hx Hxa He. lia. }
  split; first by rw N2.
  - move=> i m x Hi Hm Hx. destruct (decide (i = a)) as [->|Hia].
    + have Em : m = ma by congruence. have Ex : x = xa by congruence. subst m x.
      rw {1}/output_at O2; [by move=> i' x' Hi' Hx'; apply (Hne i')|exact G1].
    + rw (A2 i m x) //; first by lia. have Hn : ssg_seq_group x ≠ ssg_seq_group xa by apply (Hne i); [lia|].
      by rw /output_at /done_at !(O1 _ Hn).
  - move=> r Hr. rw O2; first by move=> i x Hi; apply Hr; lia. apply O1. move=> He. by apply (Hr a xa).
Qed.

(** * The queue of outputs *)
(** Processing leaves the queue alone, and what was executed. *)
Definition pending_of s : list OutputData * list ExecuteModelRequest := (cx_output_queue (ctx_of s), cx_executed (ctx_of s)).
Definition pend s s' : Prop := pending_of s' = pending_of s.
#[local] Instance pend_preorder : PreOrder pend.
Proof. split; first by move=> s. move=> s1 s2 s3 H1 H2. by rw /pend H2. Qed.
#[local] Hint Extern 2 (pend _ _) => done : keeps.
Lemma on_group_pend {A} r (m : SG A) : keeps pend any_exn (on_group (B := B * V0Ctx) r m).
Proof. move=> s. apply on_group_spec; [done|]. move=> g _. eapply wp_mono; [apply wp_any|done|done]. Qed.
Lemma pure_pend {A} (m : VS A) : keeps eq any_exn m → keeps pend any_exn m.
Proof. apply keeps_eq, _. Qed.
Lemma on_ctx_pend f : (∀ x, cx_output_queue (f x) = cx_output_queue x ∧ cx_executed (f x) = cx_executed x) →
  keeps pend any_exn (on_ctx (B := B) (mmodify f)).
Proof. move=> H s. rw /on_ctx. wp_step. wp_step. rw /pend /pending_of /ctx_of /=. by destruct (H (vs_block_manager s).2) as [-> ->]. Qed.
Lemma frame_pend s s' : frame same_ctx s s' → pend s s'.
Proof. move=> F. by rw /pend /pending_of (framed_ctx _ _ F). Qed.
Lemma framed_pend {A} (m : VS A) : keeps (frame same_ctx) any_exn m → keeps pend any_exn m.
Proof. apply keeps_mono, frame_pend. Qed.
#[local] Hint Resolve on_group_pend pure_pend on_ctx_pend : keeps.
Lemma upd_sample_pend k f : keeps pend any_exn (upd_sample (B := B) k f).
Proof. by apply on_ctx_pend. Qed.
Lemma the_sample_pend k : keeps pend any_exn (the_sample (B := B) k).
Proof. rw /the_sample. keeps_auto. Qed.
#[local] Hint Resolve upd_sample_pend the_sample_pend : keeps.
Lemma on_target_pend {A} t (m : SG A) : keeps pend any_exn (on_target (B := B) t m).
Proof.
  destruct t; cbn [on_target]; first by auto with keeps. rw /on_assembled /the_assembled /sample_seqs /upd_seq. keeps_auto.
Qed.
#[local] Hint Resolve on_target_pend : keeps.
Lemma finish_seq_pend k t : keeps pend any_exn (finish_seq (B := B) k t).
Proof. rw /finish_seq /target_request_id. keeps_auto. Qed.
Lemma assemble_pend k t : keeps pend any_exn (maybe_assemble_group (B := B) k t).
Proof. rw /maybe_assemble_group /target_request_id /cut_to_best /sample_seqs. keeps_auto. Qed.
Lemma time_pend : keeps pend any_exn (v0_time (B := B * V0Ctx)).
Proof. rw /v0_time. keeps_auto. Qed.
#[local] Hint Resolve finish_seq_pend assemble_pend time_pend : keeps.
Lemma own_output_pend t f : keeps pend any_exn (own_output (B := B) t f).
Proof. rw /own_output /prompt_logprobs_of. keeps_auto. Qed.
#[local] Hint Resolve own_output_pend : keeps.
Lemma from_seq_group_pend fuel : ∀ t, keeps pend any_exn (from_seq_group (B := B) fuel t).
Proof. elim: fuel => [|fuel IH] t; cbn [from_seq_group]; rw ?/target_request_id; keeps_auto. Qed.
#[local] Hint Resolve from_seq_group_pend : keeps.
Lemma output_pend r : keeps pend any_exn (create_request_output (B := B) r).
Proof. rw /create_request_output. keeps_auto; by apply pure_pend, request_id_pure. Qed.
Lemma free_seq_pend q : keeps pend any_exn (free_seq (B := B * V0Ctx) q).
Proof. apply framed_pend, free_seq_frame, engine_manager_keeps. Qed.
Lemma the_group_pend r : keeps pend any_exn (the_group (B := B * V0Ctx) r).
Proof. by apply pure_pend, the_group_pure. Qed.
#[local] Hint Resolve output_pend free_seq_pend the_group_pend : keeps.
Lemma params_pend r : keeps pend any_exn (params_of (B := B) r).
Proof. rw /params_of. keeps_auto. Qed.
#[local] Hint Resolve params_pend : keeps.
Lemma prompt_logprob_pend r o : keeps pend any_exn (process_prompt_logprob (B := B) c r o).
Proof. rw /process_prompt_logprob /single_step_process_prompt_logprob. keeps_auto. Qed.
Lemma outputs_pend r o a : keeps pend any_exn (process_outputs (B := B) c r o a).
Proof. rw /process_outputs /single_step_process_outputs /multi_step_process_outputs. keeps_auto. Qed.
Lemma prefill_pend r m f : keeps pend any_exn (update_for_multi_step_prefill (B := B) c r m f).
Proof. rw /update_for_multi_step_prefill. keeps_auto. Qed.
#[local] Hint Resolve prompt_logprob_pend outputs_pend prefill_pend : keeps.
Lemma process_index_pend d l acc i : keeps pend any_exn (process_index (B := B) c d l acc i).
Proof. rw /process_index /message_at /scheduled_at. keeps_auto. Qed.
Lemma output_for_pend now d i : keeps pend any_exn (output_for (B := B) now d i).
Proof. rw /output_for /scheduled_at. keeps_auto. Qed.
Lemma ignored_pend r : keeps pend any_exn (ignored_output (B := B) r).
Proof. rw /ignored_output. keeps_auto. Qed.
#[local] Hint Resolve process_index_pend output_for_pend ignored_pend : keeps.
Lemma free_groups_frame : keeps (frame same_ctx) any_exn (free_finished_seq_groups (B := B * V0Ctx)).
Proof. apply free_finished_seq_groups_frame; [apply same_ctx_preorder|apply engine_manager_keeps]. Qed.
Lemma finish_outputs_pend now d l1 l2 l3 : keeps pend any_exn (finish_outputs (B := B) c now d l1 l2 l3).
Proof. rw /finish_outputs. keeps_auto. by apply framed_pend, free_groups_frame. Qed.

(** * A step *)
Lemma head_output s s' r : head_mark s' r = head_mark s r → output_at s' r = output_at s r.
Proof. by rw /output_at => ->. Qed.
Lemma calm_for {A} (l : list A) (f : A → VS unit) s : shrinks (names_of (ctx_of s)) →
  (∀ x s, shrinks (names_of (ctx_of s)) → wp (f x) s (λ _ s', calm s s') any_exn) → wp (mfor l f) s (λ _ s', calm s s') any_exn.
Proof.
  move=> Hs H. apply (wp_for _ _ (calm s)); first by reflexivity. move=> x s1 _ H1.
  eapply wp_mono; [apply H; by rw (cm_names _ _ H1)| |done]. move=> u s2 H2. exact (transitivity H1 H2).
Qed.
Lemma output_for_calm now d i s : shrinks (names_of (ctx_of s)) → wp (output_for now d i) s (λ _ s', calm s s') any_exn.
Proof.
  move=> Hs. rw /output_for /scheduled_at. destruct (_ !! i) as [x|]; wp_step; wp_step; last done. wp_step.
  eapply wp_mono; [apply (on_group_stat any_exn), first_token_time_same, _| |done]. move=> u s1 H1.
  eapply wp_mono; [apply create_request_output_spec; [apply _|by rw (sa_names _ _ H1)]| |done]. move=> u2 s2 H2.
  apply stat_calm. exact (transitivity H1 H2).
Qed.
Lemma ignored_calm r s : shrinks (names_of (ctx_of s)) → wp (ignored_output r) s (λ _ s', calm s s') any_exn.
Proof.
  move=> Hs. rw /ignored_output. wp_step. apply wp_the_group; [done|]. move=> g _. wp_step.
  eapply wp_mono; [by apply (finished_stat any_exn)| |done]. move=> f s1 H1. apply stat_calm in H1. destruct (_ && _); first by wp_step.
  eapply wp_mono; [apply (create_request_output_spec any_exn); by rw (cm_names _ _ H1)| |done]. move=> u s2 /stat_calm H2.
  exact (transitivity H1 H2).
Qed.
Lemma finish_outputs_calm now d l1 l2 l3 s : od_is_last_step d = true → shrinks (names_of (ctx_of s)) →
  wp (finish_outputs c now d l1 l2 l3) s (λ _ s', calm s s') any_exn.
Proof.
  move=> Hlast Hs. rw /finish_outputs Hlast. wp_step.
  eapply (wp_mono _ _ (λ _ s1, calm s s1) _ any_exn); [| |done].
  { wp_step; [|done]. eapply wp_mono; [apply free_groups_frame| |done]. move=> u s1. apply frame_calm. }
  move=> u s1 H1. have Hs1 : shrinks (names_of (ctx_of s1)) by rw (cm_names _ _ H1). cbn. wp_step.
  eapply wp_mono; [apply calm_for; [done|]| |done].
  { move=> i s2 H2. case_bool_decide; [by wp_step|by apply output_for_calm]. }
  move=> u2 s2 H2. eapply wp_mono; [apply calm_for; [by rw (cm_names _ _ H2)|]| |done]; first by move=> r s3; apply ignored_calm.
  move=> u3 s3 H3. exact (transitivity H1 (transitivity H2 H3)).
Qed.
(** What a step does to the tokens, when [out] answers for the messages [l]. *)
Record stepped (l : list GroupMessage) (scheduled : list ScheduledSequenceGroup) (out : SamplerOutput) s s' : Prop := {
  sp_answers i m x : l !! i = Some m → scheduled !! i = Some x →
    output_at s' (ssg_seq_group x) =
      (λ t, t ++ if done_at s (ssg_seq_group x) then [] else answer out i m) <$> output_at s (ssg_seq_group x);
  sp_others r : r ∉ groups_of scheduled → output_at s' r = output_at s r;
}.
Lemma delivers_stepped l xs out s s1 s2 : delivers l xs out 0 s s1 → calm s1 s2 → stepped l xs out s s2.
Proof.
  move=> [D1 D2 D3] [C1 C2]. split; first by move=> i m x Hm Hx; rw C1; apply D2; [lia|..].
  move=> r Hr. rw C1. apply head_output, D3. move=> i x _ Hx He. apply Hr. rw -He. apply list_elem_of_fmap. exists x.
  split; [done|by eapply list_elem_of_lookup_2].
Qed.
Lemma process_data_delivers now d s out : names_ok (names_of (ctx_of s)) →
  (od_outputs d = [out] ∨ od_outputs d = [] ∧ od_seq_group_metadata_list d = []) → od_skip d = [] → od_is_async d = false →
  od_is_last_step d = true → NoDup (groups_of (so_scheduled_seq_groups (od_scheduler_outputs d))) →
  wp (process_output_data c now d [] None) s
    (λ _ s', stepped (od_seq_group_metadata_list d) (so_scheduled_seq_groups (od_scheduler_outputs d)) out s s' ∧
      pending_of s' = ([], cx_executed (ctx_of s))) any_exn.
Proof.
  move=> [_ Hs] Hout Hskip Hasync Hlast Hnd. rw /process_output_data. wp_step. wp_step; last done. rw /set_queue /on_ctx. wp_step. wp_step.
  set (s1 := set_ctx _ s). have Hp1 : pending_of s1 = ([], cx_executed (ctx_of s)) by done.
  have Hmany : has_multiple_outputs d = false by rw /has_multiple_outputs; destruct Hout as [->|[-> _]].
  wp_step. wp_step; last done. rename H0 into Hlen. apply Nat.eqb_eq in Hlen. rw Hmany. wp_step. wp_step. wp_step. rw /indices_of. wp_step.
  cbn [bool_decide]. rw bool_decide_false; [by move=> [? ?]|]. cbn [andb]. wp_step.
  have Hfold : wp (mfold (seq 0 (length (od_seq_group_metadata_list d))) ([], []) (process_index c d [])) s1
    (λ _ s', delivers (od_seq_group_metadata_list d) (so_scheduled_seq_groups (od_scheduler_outputs d)) out 0 s1 s') any_exn.
  { destruct Hout as [Hout|[_ Hl]]; first by apply process_all_deliver. rw Hl. cbn [length seq mfold]. wp_step. split; [done|by move=> i m x|done]. }
  eapply wp_mono; [apply (wp_conj any_exn); [exact Hfold|]| |done].
  { apply (keeps_fold pend any_exn). move=> b x. apply process_index_pend. }
  move=> [before now'] s2 [H2 P2]. wp_step.
  have Hs2 : shrinks (names_of (ctx_of s2)) by rw (de_names _ _ _ _ _ _ H2).
  eapply wp_mono; [apply (wp_conj any_exn); [apply calm_for; [done|move=> i s3; apply output_for_calm]|]| |done].
  { apply (keeps_for pend any_exn). move=> x. apply output_for_pend. }
  move=> u s3 [C3 P3]. have Hs3 : shrinks (names_of (ctx_of s3)) by rw (cm_names _ _ C3).
  eapply wp_mono; [apply (wp_conj any_exn); [by apply finish_outputs_calm|apply finish_outputs_pend]| |done].
  move=> u4 s4 [C4 P4]. have {}H2 : delivers (od_seq_group_metadata_list d) (so_scheduled_seq_groups (od_scheduler_outputs d)) out 0 s s2 by destruct H2.
  split; first by eapply delivers_stepped; [exact H2|exact (transitivity C3 C4)].
  by rw -Hp1 -P2 -P3.
Qed.

(** The engine has one step per schedule, and processes the outputs at once. *)
Context (Hsync : ec_use_async_output_proc c = false).
Lemma engine_wp_self {S A} (m : M S A) (t : S) : wp m t (λ a t', m t = Ok (a, t')) any_exn.
Proof. rw /wp. by destruct (m t) as [[a t']|e]. Qed.
(** Changes of the context alone. *)
Record context_only (x : V0Ctx) s s' : Prop := {
  co_groups : vs_groups s' = vs_groups s;
  co_ctx : ctx_of s' = x;
}.
Lemma ctx_step f s : wp (on_ctx (B := B) (mmodify f)) s (λ _ s', context_only (f (ctx_of s)) s s') any_exn.
Proof. rw /on_ctx. wp_step. by wp_step. Qed.
Lemma context_output x s s' r : context_only x s s' → output_at s' r = output_at s r ∧ done_at s' r = done_at s r.
Proof. move=> [Hg _]. by rw /output_at /done_at /head_mark Hg. Qed.
Lemma nothing_pending s : cx_output_queue (ctx_of s) = [] → wp (process_pending c) s (λ _ s', s' = s) any_exn.
Proof. move=> H. rw /process_pending. wp_step. wp_step. rw H. by apply wp_ret. Qed.
(** A schedule, its messages, and what became of the state. *)
Record scheduled_to l o s s2 : Prop := {
  sd_run : v0_schedule (ec_sched c) None s = Ok ((l, o, false), s2);
  sd_messages : messages_for s2 l (so_scheduled_seq_groups o);
  sd_frame : frame same_ctx s s2;
  sd_ok : engine_ok s2;
  sd_distinct : NoDup (groups_of (so_scheduled_seq_groups o));
}.
Lemma v0_schedule_to s : engine_ok s →
  wp (v0_schedule (ec_sched c) None) s (λ '(l, o, allow) s2, allow = false ∧ scheduled_to l o s s2) any_exn.
Proof.
  move=> Hok. eapply wp_mono; [apply engine_wp_self| |done]. move=> [[l o] a] s2 Hrun.
  have HC : ∀ (f : string → VS unit) id, None = Some f → keeps kept any_exn (f id) by [].
  have Ha : wp (v0_schedule (ec_sched c) None) s (λ '(_, o, _) s', accounts None s s' o) any_exn.
  { by apply (v0_schedule_spec (BSM := engine_manager) any_exn manager_quiet_any I I (ec_sched c) None). }
  have H1 := wp_ok _ _ _ _ _ _ Ha Hrun. clear Ha.
  have H2 := wp_ok _ _ _ _ _ _ (v0_schedule_messages (BSM := engine_manager) (ec_sched c) s) Hrun.
  have HF : ∀ (f : string → VS unit) id, None = Some f → keeps (frame same_ctx) any_exn (f id) by [].
  have Hf : wp (v0_schedule (ec_sched c) None) s (λ _ s', frame same_ctx s s') any_exn.
  { exact (v0_schedule_frame same_ctx engine_manager_keeps (ec_sched c) None HF s). }
  have H3 := wp_ok _ _ _ _ _ _ Hf Hrun. clear Hf.
  destruct H2 as [-> Hm]. destruct (accounted_ok _ _ _ Hok H1 H3) as [Hok2 _]. split; [done|]. split; try done.
  destruct H1 as [d [_ [_ [_ [_ Hsub]]]]]. have Hnd := eo_nodup _ Hok2. rw /queue !NoDup_app in Hnd. destruct Hnd as [_ [_ [Hnd _]]].
  apply submseteq_Permutation in Hsub as [k Hk]. rw Hk in Hnd. by apply NoDup_app in Hnd as [Hnd _].
Qed.
Lemma engine_schedule_to s : engine_ok s → cx_output_queue (ctx_of s) = [] →
  wp (engine_schedule (BSM := BSM) c) s (λ '(l, o, allow, _) s3, allow = false ∧ ∃ s2, scheduled_to l o s s2 ∧ vs_groups s3 = vs_groups s2 ∧
    pending_of s3 = pending_of s ∧ cx_executor (ctx_of s3) = cx_executor (ctx_of s) ∧ names_of (ctx_of s3) = names_of (ctx_of s)) any_exn.
Proof.
  move=> Hok Hq. rw /engine_schedule /engine_callback Hsync. wp_step. eapply wp_mono; [by apply v0_schedule_to| |done].
  move=> [[l o] allow] s2 [-> Hto]. have Hc := framed_ctx _ _ (sd_frame _ _ _ _ Hto). wp_step.
  eapply wp_mono; [apply ctx_step| |done]. move=> u3 s3 [G3 C3]. wp_step. eapply wp_mono; [apply ctx_step| |done]. move=> u4 s4 [G4 C4].
  wp_step. rw /get_and_reset_finished_requests_ids. wp_step. wp_step. wp_step. apply wp_put. wp_step. set (s5 := set_vs_finished_requests_ids [] s4).
  have C5 : ctx_of s5 = set_cx_scheduler_outputs (Some o) (set_cx_seq_group_metadata_list (Some l) (ctx_of s)) by rw -Hc -C3 -C4.
  cbn [mwhen negb]. wp_step. eapply wp_mono; [apply nothing_pending; by rw C5| |done]. move=> u6 s6 ->. wp_step.
  rw Hstep. cbn [andb mwhen]. wp_step. wp_step. split; [done|]. exists s2. rw /pending_of C5. split_and!; try done. by rw /s5 /= G4 G3.
Qed.
(** What the executor did with the schedule: nothing, if it is empty. *)
Definition executed_for l o s s' : Prop :=
  (so_is_empty o = true ∧ cx_executed (ctx_of s') = cx_executed (ctx_of s)) ∨
  (∃ req, cx_executed (ctx_of s') = cx_executed (ctx_of s) ++ [req] ∧ ex_seq_group_metadata_list req = l).
Lemma execute_schedule_to l o ids s n out : cx_output_queue (ctx_of s) = [] → cx_executor (ctx_of s) 0 = (n, [out]) →
  wp (execute_schedule c l o false ids) s (λ outputs s', vs_groups s' = vs_groups s ∧ names_of (ctx_of s') = names_of (ctx_of s) ∧
    cx_output_queue (ctx_of s') = [] ∧ executed_for l o s s' ∧ outputs = if so_is_empty o then [] else [out]) any_exn.
Proof.
  move=> Hq Hex. rw /execute_schedule. destruct (so_is_empty o) eqn:He.
  { wp_step. eapply wp_mono; [by apply nothing_pending| |done]. move=> u s' ->. wp_step. split_and!; [done|done|done|by left|done]. }
  rw /execute_model. wp_step. wp_step. rw Hex. wp_step. eapply wp_mono; [apply ctx_step| |done]. move=> u s1 [G1 C1]. cbn [ex_async_callback].
  wp_step. wp_step; first done. wp_step. rw C1 G1. split_and!; try done. right. eexists. by rw C1.
Qed.
Lemma finish_batch_to outputs l o s out : cx_output_queue (ctx_of s) = [] → names_ok (names_of (ctx_of s)) →
  NoDup (groups_of (so_scheduled_seq_groups o)) → (outputs = [out] ∨ outputs = [] ∧ l = []) →
  wp (finish_batch c outputs l o false) s (λ _ s', stepped l (so_scheduled_seq_groups o) out s s' ∧
    pending_of s' = ([], cx_executed (ctx_of s))) any_exn.
Proof.
  move=> Hq Hn Hnd Hout. rw /finish_batch Hstep. cbn [mwhen]. wp_step. wp_step. wp_step.
  eapply (wp_mono _ _ (λ _ s1, stat s s1 ∧ vs_groups s1 = vs_groups s ∧ ctx_of s1 = ctx_of s) _ any_exn); [| |done].
  { have Hp : ∀ m x, keeps eq any_exn (state_of (B := B) m x).
    { move=> m x. rw /state_of. destruct m; [|apply keeps_ret, _]. apply on_group_pure; [apply _|apply keeps_gets, _]. }
    destruct l as [|m l']; first by wp_step. destruct (so_scheduled_seq_groups o) as [|x xs]; first by wp_step.
    wp_step. eapply wp_mono; [apply Hp| |done]. move=> st s1 <-. by wp_step. }
  move=> f s1 [_ [G1 C1]]. wp_step. rw /append_output. eapply wp_mono; [apply ctx_step| |done]. move=> u s2 [G2 C2].
  rw C1 Hq in C2. cbn [app] in C2. wp_step. rw andb_false_r. cbn [mwhen negb]. wp_step. rw /process_model_outputs.
  wp_step. rw /v0_time. wp_step. wp_step. wp_step. wp_step. wp_step. wp_step. wp_step.
  set (s3 := set_vs_clock _ s2). have C3 : ctx_of s3 = ctx_of s2 by done. rw C3 C2. cbn [cx_output_queue set_cx_output_queue named].
  set (d := {| od_outputs := outputs |}).
  eapply wp_mono; [apply (process_data_delivers _ d s3 out)| |done]; try done.
  - by rw C3 C2.
  - move=> u3 s4 [H4 P4]. rw C3 C2 in P4. split; [|done].
    have Heq : ∀ r, output_at s3 r = output_at s r ∧ done_at s3 r = done_at s r.
    { move=> r. by rw /output_at /done_at /head_mark /s3 /= G2 G1. }
    destruct H4 as [A4 O4]. split; [move=> i m x Hm Hx|move=> r Hr].
    + rw (A4 i m x Hm Hx). by destruct (Heq (ssg_seq_group x)) as [-> ->].
    + rw (O4 r Hr). by destruct (Heq r) as [-> _].
Qed.
Lemma drain_to s : cx_output_queue (ctx_of s) = [] → wp (drain c) s (λ _ s', s' = s) any_exn.
Proof.
  move=> Hq. rw /drain. wp_step. wp_step. wp_step; last done. wp_step. eapply wp_mono; [by apply nothing_pending| |done]. move=> u s' ->.
  wp_step. wp_step. by wp_step.
Qed.
Definition fresh_outputs s : Engine := set_ctx (set_cx_request_outputs [] (ctx_of s)) s.
Lemma no_remaining l xs s : wp (has_remaining_steps c l xs) s (λ b s', b = false ∧ s' = s) any_exn.
Proof. rw /has_remaining_steps Hstep. by wp_step. Qed.
Lemma engine_step_to s n out : engine_ok s → cx_output_queue (ctx_of s) = [] → cx_executor (ctx_of s) 0 = (n, [out]) →
  wp (engine_step (BSM := BSM) c) s (λ _ s', ∃ l o s2, scheduled_to l o (fresh_outputs s) s2 ∧ stepped l (so_scheduled_seq_groups o) out s2 s' ∧
    executed_for l o s s' ∧ cx_output_queue (ctx_of s') = []) any_exn.
Proof.
  move=> Hok Hq Hex. rw /engine_step. destruct (_ <? _)%Z; first by wp_step. wp_step. wp_step. wp_step.
  eapply (wp_mono _ _ (λ _ s1, s1 = fresh_outputs s) _ any_exn); [by rw /on_ctx; wp_step; wp_step| |done].
  move=> u s1 ->. wp_step. eapply wp_mono; [apply no_remaining| |done]. move=> b s1' [-> ->]. wp_step.
  have Hok1 : engine_ok (fresh_outputs s) by destruct Hok.
  eapply wp_mono; [by apply engine_schedule_to| |done]. move=> [[[l o] allow] ids] s3 [-> [s2 [Hto [G3 [P3 [E3 N3]]]]]].
  injection P3 as Q3 X3. have Q0 : cx_output_queue (ctx_of (fresh_outputs s)) = [] by exact Hq.
  wp_step. eapply wp_mono; [eapply execute_schedule_to; [by rw Q3|by rw E3]| |done]. move=> outputs s4 [G4 [N4 [Q4 [X4 Hout]]]].
  rw Hstep. cbn [mwhen]. wp_step. wp_step. wp_step. eapply wp_mono; [apply no_remaining| |done]. move=> b2 s5 [-> ->]. cbn [mwhen negb].
  wp_step. wp_step. eapply wp_mono; [apply (finish_batch_to _ _ _ _ out)| |done].
  - done.
  - rw N4 N3. apply Hok.
  - apply Hto.
  - rw Hout. destruct (so_is_empty o) eqn:He; [right|by left]. split; [done|]. have Hm := sd_messages _ _ _ _ Hto.
    rw /so_is_empty !andb_true_iff Nat.eqb_eq in He. destruct He as [[[He _] _] _]. apply nil_length_inv in He.
    rw /messages_for He in Hm. by apply Forall2_nil_inv_r in Hm.
  - move=> u5 s7 [H5 P5]. injection P5 as Q5 X5. eapply wp_mono; [by apply drain_to| |done]. move=> u6 s6 ->. wp_step. wp_step. wp_step.
    exists l, o, s2. split_and!; [done| | |done].
    + have Heq : ∀ r, output_at s4 r = output_at s2 r ∧ done_at s4 r = done_at s2 r. { move=> r. by rw /output_at /done_at /head_mark G4 G3. }
      destruct H5 as [A5 O5]. split; [move=> i m x Hm Hx|move=> r Hr].
      * rw (A5 i m x Hm Hx). by destruct (Heq (ssg_seq_group x)) as [-> ->].
      * rw (O5 r Hr). by destruct (Heq r) as [-> _].
    + move: X4. rw /executed_for X5 X3. done.
Qed.
End groups.

(** * Properties

    What the V0 engine guarantees in all states it reaches without asynchronous
    output processing, whatever the scheduler's policy, the block manager, the
    clock, the tokenizer and the answers of the model. *)

Section properties.
Context {B : Type} `{BSM : BlockSpaceManager B} (c : EngineConf).
Abbreviation Engine := (V0Scheduler (B * V0Ctx)).
Implicit Types s : V0Scheduler (B * V0Ctx).
Context {Image ProcKwargs Prompt : Type} (token_prompt : Prompt → option (list Z)) (max_token_id : option LoRARequest → option Z).
Context (preprocess : string → Prompt → option LoRARequest → option PromptAdapterRequest →
  result (ProcessorInputs (Image := Image) (ProcKwargs := ProcKwargs))).
Context (make : Z → option Z → option Z → option Z → bool → result B).
Context (executor : nat → nat * list SamplerOutput) (clock : nat → Z) (draws : nat → bool).

(** The states of the engine, with the ids of the groups of all requests it took. *)
Inductive reaches : list string → Engine → Prop :=
| reaches_init s : engine_init c make executor clock draws = Ok s → reaches [] s
| reaches_add l s id prompt p t lora adapter prio s' : reaches l s →
    v0_add_request c token_prompt max_token_id preprocess id prompt p t lora adapter prio s = Ok (tt, s') →
    reaches (l ++ group_ids id p) s'
| reaches_abort l s ids s' : reaches l s → abort_request ids s = Ok (tt, s') → reaches l s'
| reaches_step l s outs s' : reaches l s → engine_step c s = Ok (outs, s') → reaches l s'.

Lemma stable_ok {A} (m : M Engine A) s a s' : stable any_exn m → m s = Ok (a, s') → engine_ok s → engine_ok s' ∧ evolves s s'.
Proof. move=> H Hm Hok. exact (wp_ok _ _ _ _ _ _ (H s Hok) Hm). Qed.
Lemma any_tokenizer_sound get q : ec_get_tokenizer c = Some get → tokenizer_sound any_exn (get q).
Proof. done. Qed.
Lemma reaches_ok l s : ec_use_async_output_proc c = false → reaches l s → engine_ok s ∧ sg_request_id <$> vs_groups s = l.
Proof.
  move=> Hsync. elim.
  - move=> s0 /engine_init_ok [H1 [H2 _]]. by rw H2.
  - move=> l0 s0 id prompt p t lora adapter prio s1 _ [IH1 IH2] H.
    have [H1 [_ H3]] := wp_ok _ _ _ _ _ _ (add_request_spec c _ _ _ _ _ _ _ _ _ _ _ IH1) H. by rw H3 IH2.
  - move=> l0 s0 ids s1 _ [IH1 IH2] H.
    destruct (stable_ok _ _ _ _ (abort_request_stable any_exn manager_quiet_any ids) H IH1) as [H1 [H2 _]]. by rw H2.
  - move=> l0 s0 outs s1 _ [IH1 IH2] H.
    destruct (stable_ok _ _ _ _ (engine_step_stable any_exn manager_quiet_any I I c Hsync any_tokenizer_sound) H IH1) as [H1 [H2 _]].
    by rw H2.
Qed.

(** C15: The engine loses no request: the groups it keeps are those of the requests
    it took, in their order, several for a request with several samples; whatever
    was added, aborted, scheduled, preempted, swapped or ignored since, each of
    them is in exactly one place of the queues, or its sequence is finished; and
    when [step] would find nothing unfinished, all of them are finished. *)
Theorem engine_loses_no_request l s : ec_use_async_output_proc c = false → reaches l s →
  sg_request_id <$> vs_groups s = l ∧
  NoDup (vs_waiting s ++ vs_running s ++ vs_swapped s) ∧
  (∀ r, r < length l → r ∈ vs_waiting s ++ vs_running s ++ vs_swapped s ∨ fin_at s r) ∧
  (has_unfinished_seqs s = false → ∀ r, r < length l → fin_at s r).
Proof.
  move=> Hsync H. destruct (reaches_ok _ _ Hsync H) as [[O1 O2 O3 O4 O5 O6] <-]. rw length_fmap.
  split_and!; [done|exact O1|exact O4|]. move=> Hn r Hr. destruct (O4 r Hr) as [Hq|]; last done.
  move: Hq. rw /queue. move: Hn. rw /has_unfinished_seqs !orb_false_iff !negb_false_iff !Nat.eqb_eq.
  move=> [[/nil_length_inv -> /nil_length_inv ->] /nil_length_inv ->]. by move=> /elem_of_nil.
Qed.

(** C17: Without asynchronous output processing, in any reachable state, [step] comes
    back, if the block manager and the tokenizers come back and raise none of the
    scheduler's own errors: none of its loops, those of the scheduler, of the
    output processing or of the assembly of several samples into one output, uses up
    its fuel; and three of the scheduler's assertions never fail, those that the
    schedule does not swap blocks in and out at once, that its number of prefills
    is between 0 and its length, and that the set of LoRA ids exists where it is
    read. Nothing is said of its other assertions, those on the budget among them. *)
Theorem engine_step_returns l s : ec_use_async_output_proc c = false → manager_quiet no_fault →
  (∀ get q, ec_get_tokenizer c = Some get → tokenizer_sound no_fault (get q)) → reaches l s →
  engine_step c s ≠ Raise OutOfFuel ∧ ∀ m, m ∈ checks → engine_step c s ≠ Raise (AssertionError m).
Proof.
  move=> Hsync HB HTok Hr. destruct (reaches_ok _ _ Hsync Hr) as [Hok _].
  have Hs : stable sane (engine_step c).
  { apply (engine_step_stable sane (manager_quiet_sane HB)); [| |done|].
    - split; [done|]. by move=> m [= <-]; rw /checks !elem_of_cons elem_of_nil; naive_solver.
    - split; [done|]. by move=> m [= <-]; rw /checks !elem_of_cons elem_of_nil; naive_solver.
    - move=> get q Hget l' e' He. apply sane_faultless. by apply (HTok get q Hget l'). }
  have Hw := Hs s Hok. rw /wp in Hw. split; [by move=> H; rw H in Hw; destruct Hw|]. move=> m Hm H. rw H in Hw. by apply (proj2 Hw m).
Qed.

(** C16: With single-step scheduling ([num_scheduler_steps = 1], no lookahead slots, so
    the single-step output processor) and without asynchronous output processing, a
    step to which the executor answers with the outputs of one model run appends to
    each sequence the token the model sampled for it, and touches no other token:
    from a reachable state with nothing left to process, [step] runs the scheduler
    once, which changes no token; the messages it sends are for the scheduled groups, one each and in
    their order; and when it returns, a scheduled group that was not finished has
    grown by the first sample of the model's answer at its place, if it asked for
    a sample, whatever stop conditions, prompt log probabilities, preemptions and
    samples of other requests there are; all other groups have the tokens they
    had, and no output is left to process. *)
Theorem step_delivers_tokens ids s n out outs s' :
  ec_use_async_output_proc c = false → single_step_processor c = true → is_multi_step (vc_scheduler (ec_sched c)) = false →
  reaches ids s → cx_output_queue (ctx_of s) = [] → cx_executor (ctx_of s) 0 = (n, [out]) →
  engine_step c s = Ok (outs, s') →
  ∃ l o s2, v0_schedule (ec_sched c) None (fresh_outputs s) = Ok ((l, o, false), s2) ∧
    messages_for s2 l (so_scheduled_seq_groups o) ∧
    (∀ i m x, l !! i = Some m → so_scheduled_seq_groups o !! i = Some x →
      output_at s' (ssg_seq_group x) =
        (λ t, t ++ if done_at s2 (ssg_seq_group x) then [] else answer out i m) <$> output_at s (ssg_seq_group x)) ∧
    (∀ r, r ∉ groups_of (so_scheduled_seq_groups o) → output_at s' r = output_at s r) ∧
    executed_for l o s s' ∧ cx_output_queue (ctx_of s') = [].
Proof.
  move=> Hsync Hone Hstep Hr Hq Hex Hrun. destruct (reaches_ok _ _ Hsync Hr) as [Hok _].
  have := wp_ok _ _ _ _ _ _ (engine_step_to c Hone Hstep Hsync s n out Hok Hq Hex) Hrun.
  move=> [l [o [s2 [Hto [[A O] [X Q]]]]]]. exists l, o, s2.
  have Hs : ∀ r, output_at s2 r = output_at s r by move=> r; apply (cm_output _ _ (frame_calm _ _ (sd_frame _ _ _ _ _ Hto))).
  split_and!; [apply Hto|apply Hto| | |done|done].
  - move=> i m x Hm Hx. by rw (A i m x Hm Hx) Hs.
  - move=> r Hr'. by rw (O r Hr') Hs.
Qed.
End properties.
