(* ===== verification/V0EngineDemos.v ===== *)
(** Runs of the V0 engine over the block manager with the naive allocator, the
    properties of the engine applied to them, and defects. *)
From Stdlib Require Import ssreflect ZArith Lia PrimFloat.
From stdpp Require Import base numbers list gmap strings.
From S2P Require Import Prelude SamplingParams KVCacheBlock Request FreeQueue BlockHash KVCacheManager EncoderCache Scheduler LRUCache MMInputMapper Detokenizer DetokTheorems Processor.
From S2P Require Import SequenceData Sequences NaiveBlocks PrefixCaching BlockTable CpuGpu BlockManager ManagerDemos SchedConfig V0Types V0Sched V0Phases V0Schedule V0Frame.
From S2P Require Import V0SchedFrame V0Running V0Admission V0SchedTheorems V0Quiet V0Demos V0Outputs V0Engine V0ProcTheorems V0EngineFrame V0EngineInv V0EngineProps.

#[local] Instance naive_manager : BlockSpaceManager NaiveMgr := demo_manager.
Abbreviation Engine := (V0Scheduler (NaiveMgr * V0Ctx)).

(** * Configurations and requests *)
Definition conf_of (sched : V0Config) (async : bool) : EngineConf :=
  {| ec_sched := sched; ec_use_async_output_proc := async; ec_multi_step_stream_outputs := true; ec_speculative_config := false;
     ec_pipeline_parallel_size := 1; ec_max_logprobs := 5; ec_max_model_len := 16; ec_is_multimodal_model := false;
     ec_generation_config_eos := None; ec_eos_token_id := λ _, Some 2%Z; ec_get_tokenizer := Some (λ _, demo_tokenizer);
     ec_tokenizer_eos := λ _, Some 2%Z |}.
Definition sync : EngineConf := conf_of fcfs false.
(** Prompts are lists of token ids. *)
Definition preprocess (id : string) (p : list Z) (lora : option LoRARequest) (adapter : option PromptAdapterRequest)
    : result (ProcessorInputs (Image := unit) (ProcKwargs := unit)) :=
  Ok (DecoderOnlyInputs (TokenInputs None (Some p) None None None)).
Definition params (n max_tokens : Z) (kind : RequestOutputKind) : SamplingParams :=
  {| sp_n := n; sp_best_of := None; sp_real_n := None; presence_penalty := 0; frequency_penalty := 0;
     repetition_penalty := 1; temperature := 1; top_p := 1; top_k := -1; min_p := 0; seed := None;
     sp_stop := StopNone; stop_token_ids := None; bad_words := None; ignore_eos := false;
     sp_max_tokens := Some max_tokens; min_tokens := 0; sp_logprobs := None; prompt_logprobs := None;
     detokenize := true; skip_special_tokens := true; spaces_between_special_tokens := true;
     include_stop_str_in_output := false; truncate_prompt_tokens := None; output_kind := kind;
     output_text_buffer_length := 0; all_stop_token_ids := [] |}.
Definition sample (id : Z) : CompletionSequenceGroupOutput :=
  {| cso_samples := [{| sx_parent_seq_id := 0; sx_output_token := id;
       sx_logprobs := [(id, {| lp_logprob := 0; lp_rank := None; lp_decoded_token := None |})] |}];
     cso_prompt_logprobs := None |}.
(** The executor answers with the given samples, and calls back a given number of
    times. *)
Definition executor (calls : nat) (answers : list (list Z)) (n : nat) : nat * list SamplerOutput := (calls, [sample <$> default [] (answers !! n)]).
Definition engine_0 (c : EngineConf) (answers : list (list Z)) : result Engine :=
  engine_init c make_naive (executor (if ec_use_async_output_proc c then 1 else 0) answers) (λ n, Z.of_nat n) (λ _, false).
Inductive Op := Take (id : string) (prompt : list Z) (p : SamplingParams) | Leave (ids : list string) | Step.
Definition take_request c id prompt p : M Engine unit :=
  v0_add_request c (λ p, Some p) (λ _, Some 1000%Z) preprocess id prompt p (Some 0%Z) None None 0.
Definition run_op (c : EngineConf) (op : Op) : M Engine (list V0RequestOutput) :=
  match op with
  | Take id prompt p => take_request c id prompt p;;; mret []
  | Leave ids => abort_request ids;;; mret []
  | Step => engine_step c
  end.
Fixpoint run_ops (c : EngineConf) (ops : list Op) (s : Engine) : result (list (list V0RequestOutput) * Engine) :=
  match ops with
  | [] => Ok ([], s)
  | op :: ops =>
    '(o, s) ← run_op c op s;
    '(l, s) ← run_ops c ops s;
    Ok (o :: l, s)
  end.
Definition run (c : EngineConf) (answers : list (list Z)) (ops : list Op) : result (list (list V0RequestOutput) * Engine) :=
  s ← engine_0 c answers; run_ops c ops s.
(** What a caller sees: for each call, the requests that have an output, the tokens
    of their samples, and whether they are finished. *)
Definition seen (r : result (list (list V0RequestOutput) * Engine)) : option (list (list (string * list (list Z) * bool))) :=
  match r with
  | Ok (l, _) => Some (List.map (List.map (λ o, (vo_request_id o, List.map co_token_ids (vo_outputs o), vo_finished o))) l)
  | Raise _ => None
  end.

(** * The properties of the engine *)
Definition nothing : Engine :=
  {| vs_groups := []; vs_waiting := []; vs_running := []; vs_swapped := []; vs_finished_requests_ids := []; vs_prev_time := 0;
     vs_prev_prompt := false; vs_last_prompt_latency := 0; vs_artificial_preempt_cnt := 0; vs_num_cumulative_preemption := 0;
     vs_cache_id := 0; vs_async_stopped := []; vs_block_manager := (naive_0, ctx_init (executor 0 [])); vs_clock := λ n, Z.of_nat n;
     vs_draws := λ _, false |}.
Definition is_ok {A} (r : result A) : bool := match r with Ok _ => true | Raise _ => false end.
Lemma ran {A S} (d : A * S) (r : result (A * S)) : is_ok r = true → r = Ok ((run_of d r).1, (run_of d r).2).
Proof. by destruct r as [[a s]|e]. Qed.
Lemma ran_unit {S} (d : S) (r : result (unit * S)) : is_ok r = true → r = Ok (tt, state d r).
Proof. by destruct r as [[[] s]|e]. Qed.
(** Two requests, one of them for two samples. *)
Definition answers_3 : list (list Z) := [[10; 20; 30]; [11; 21; 31]; [12; 22; 32]]%Z.
Definition demo_0 : Engine := value nothing (engine_0 sync answers_3).
Definition demo_1 : Engine := state nothing (take_request sync "a" [5; 6; 7]%Z (params 1 3 CUMULATIVE) demo_0).
Definition demo_2 : Engine := state nothing (take_request sync "b" [8; 9]%Z (params 2 2 CUMULATIVE) demo_1).
Definition demo_3 : Engine := (run_of ([], nothing) (engine_step sync demo_2)).2.
Definition demo_4 : Engine := state nothing (abort_request ["a"] demo_3).
Abbreviation demo_reaches :=
  (reaches sync (λ p, Some p) (λ _, Some 1000%Z) preprocess make_naive (executor 0 answers_3) (λ n, Z.of_nat n) (λ _, false)).
Definition demo_ids : list string := ["a"; "b_parallel_sample_0"; "b_parallel_sample_1"].
Lemma demo_0_ok : is_ok (engine_0 sync answers_3) = true.
Proof. vm_compute. reflexivity. Qed.
Lemma demo_1_ok : is_ok (take_request sync "a" [5; 6; 7]%Z (params 1 3 CUMULATIVE) demo_0) = true.
Proof. vm_compute. reflexivity. Qed.
Lemma demo_2_ok : is_ok (take_request sync "b" [8; 9]%Z (params 2 2 CUMULATIVE) demo_1) = true.
Proof. vm_compute. reflexivity. Qed.
Lemma demo_3_ok : is_ok (engine_step sync demo_2) = true.
Proof. vm_compute. reflexivity. Qed.
Lemma demo_4_ok : is_ok (abort_request ["a"] demo_3) = true.
Proof. vm_compute. reflexivity. Qed.
Lemma value_ok {A} (d : A) (r : result A) : is_ok r = true → r = Ok (value d r).
Proof. by destruct r. Qed.
Lemma demo_ids_eq : demo_ids = ([] ++ group_ids "a" (params 1 3 CUMULATIVE)) ++ group_ids "b" (params 2 2 CUMULATIVE).
Proof. vm_compute. reflexivity. Qed.
(** The runs are compared by name. *)
#[local] Opaque state value run_of v0_add_request engine_step abort_request engine_init v0_schedule.
Lemma demo_2_reached : demo_reaches demo_ids demo_2.
Proof.
  rw demo_ids_eq.
  eapply reaches_add; [eapply reaches_add; [apply reaches_init|]|].
  - exact (value_ok nothing _ demo_0_ok).
  - exact (ran_unit nothing _ demo_1_ok).
  - exact (ran_unit nothing _ demo_2_ok).
Qed.
Lemma demo_4_reached : demo_reaches demo_ids demo_4.
Proof.
  eapply reaches_abort; [eapply reaches_step; [exact demo_2_reached|]|].
  - exact (ran ([], nothing) _ demo_3_ok).
  - exact (ran_unit nothing _ demo_4_ok).
Qed.
Definition places (s : Engine) : list nat * list nat * list nat := (vs_waiting s, vs_running s, vs_swapped s).
Definition all_statuses (s : Engine) : list (list SequenceStatus) := (λ g, sq_status <$> sg_seqs g) <$> vs_groups s.
Lemma engine_loses_no_request_witness :
  places demo_4 = ([], [1; 2], []) ∧ all_statuses demo_4 = [[SEQ_FINISHED_ABORTED]; [SEQ_RUNNING]; [SEQ_RUNNING]] ∧
  sg_request_id <$> vs_groups demo_4 = demo_ids ∧ fin_at demo_4 0.
Proof.
  assert (P : places demo_4 = ([], [1; 2], [])) by (vm_compute; reflexivity).
  assert (Q : all_statuses demo_4 = [[SEQ_FINISHED_ABORTED]; [SEQ_RUNNING]; [SEQ_RUNNING]]) by (vm_compute; reflexivity).
  destruct (engine_loses_no_request sync _ _ _ _ _ _ _ demo_ids demo_4 eq_refl demo_4_reached) as (H1 & _ & H3 & _).
  assert (N : 0 ∉ vs_waiting demo_4 ++ vs_running demo_4 ++ vs_swapped demo_4) by (apply (bool_decide_unpack _); vm_compute; exact I).
  split; [exact P|]. split; [exact Q|]. split; [exact H1|]. destruct (H3 0) as [H|H]; [cbn; lia|exfalso; exact (N H)|exact H].
Defined.
Lemma engine_step_returns_witness : engine_step sync demo_4 ≠ Raise OutOfFuel.
Proof.
  refine (proj1 (engine_step_returns sync _ _ _ _ _ _ _ demo_ids demo_4 eq_refl demo_manager_quiet _ demo_4_reached)).
  intros get q E l e H. injection E as <-. discriminate H.
Defined.
(** The first step gives each of the scheduled groups its token. *)
Lemma step_delivers_tokens_witness :
  output_at demo_3 0 = Some [10]%Z ∧ output_at demo_3 1 = Some [20]%Z ∧
  ∃ l o (s2 : Engine), messages_for s2 l (so_scheduled_seq_groups o) ∧
    ∀ i m x, l !! i = Some m → so_scheduled_seq_groups o !! i = Some x →
      output_at demo_3 (ssg_seq_group x) =
        (λ t, t ++ if done_at s2 (ssg_seq_group x) then [] else answer (sample <$> [10; 20; 30]%Z) i m) <$> output_at demo_2 (ssg_seq_group x).
Proof.
  split; [vm_compute; reflexivity|]. split; [vm_compute; reflexivity|].
  assert (Q : cx_output_queue (ctx_of demo_2) = []) by (vm_compute; reflexivity).
  assert (X : cx_executor (ctx_of demo_2) 0 = (0, [sample <$> [10; 20; 30]%Z])) by (vm_compute; reflexivity).
  destruct (step_delivers_tokens sync _ _ _ _ _ _ _ demo_ids demo_2 0 _ _ demo_3 eq_refl eq_refl eq_refl demo_2_reached Q X
    (ran ([], nothing) _ demo_3_ok)) as (l & o & s2 & _ & H1 & H2 & _).
  exists l, o, s2. split; [exact H1|exact H2].
Defined.
(** Four tokens at once, of which the last is over the limit. *)
Definition burst_seq : Sequence :=
  let s := value seq0 (sequence_init 1 None [5; 6; 7]%Z 2 (Some 2%Z) None None) in
  set_sq_status SEQ_RUNNING (set_sq_data (set_sd_stage DECODE (set_sd_num_computed_tokens 3
    (state (sq_data s) (sd_append_token_id 10 0%float (sq_data s))))) s).
Definition burst : list SequenceOutput := mjoin (cso_samples <$> (sample <$> [11; 12; 13; 14]%Z)).
Definition tokens_and_status (r : result (unit * Sequence)) : option (list Z * SequenceStatus) :=
  match r with Ok (_, s) => Some (tokens s, sq_status s) | Raise _ => None end.
(** A LoRA adapter of the usual context length. *)
Definition burst_lora : LoRARequest := {| lora_name := "adapter"; lora_int_id := 1; long_lora_max_len := None |}.
Lemma multi_step_is_single_step_witness :
  process_seq_outputs sync burst (params 1 4 CUMULATIVE) burst_seq =
    one_by_one sync (params 1 4 CUMULATIVE) (Some burst_lora) burst false burst_seq ∧
  tokens_and_status (process_seq_outputs sync burst (params 1 4 CUMULATIVE) burst_seq) = Some ([10; 11; 12; 13]%Z, SEQ_FINISHED_LENGTH_CAPPED).
Proof.
  split; [|vm_compute; reflexivity]. assert (U : sd_get_num_uncomputed_tokens (sq_data burst_seq) = 1%Z) by (vm_compute; reflexivity).
  assert (H := multi_step_is_single_step sync (params 1 4 CUMULATIVE) (Some burst_lora) 4 burst burst_seq). rw U in H. apply H; clear H.
  - reflexivity.
  - cbn. lia.
  - vm_compute. reflexivity.
  - eexists. reflexivity.
  - reflexivity.
  - vm_compute. reflexivity.
  - vm_compute. reflexivity.
  - vm_compute. reflexivity.
  - lia.
  - intros _ i o Hi He. exfalso.
    assert (F : Forall (λ o, Some (sx_output_token o) ≠ Some 2%Z) burst) by (apply (bool_decide_unpack _); vm_compute; exact I).
    apply (Forall_lookup_1 _ _ _ _ F Hi). rw He. vm_compute. reflexivity.
Defined.

(** * Defects *)
(** With deltas only the first sample of a request brings an output, of all samples
    so far; what the others still get after it finished is never handed out, and
    the request is reported as finished while they run. *)
Definition delta_run : list (list Z) → result (list (list V0RequestOutput) * Engine) := λ answers,
  run sync answers [Take "a" [5; 6; 7]%Z (params 2 3 DELTA); Step; Step; Step; Step].
Lemma streamed_samples_cut :
  seen (delta_run [[10; 20]; [2; 21]; [22]; []]%Z) =
    Some [[]; [("a", [[10]; [20]]%Z, false)]; [("a", [[2]; [21]]%Z, true)]; []; []] ∧
  ∃ l s, delta_run [[10; 20]; [2; 21]; [22]; []]%Z = Ok (l, s) ∧ output_at s 1 = Some [20; 21; 22]%Z.
Proof. split; [vm_compute; reflexivity|]. eexists _, _. split; vm_compute; reflexivity. Qed.
(** Aborting a request with several samples has no effect: its groups have other
    ids, and they run to their ends. *)
Lemma parallel_abort_ignored :
  seen (run sync answers_3 [Take "a" [5; 6; 7]%Z (params 2 2 CUMULATIVE); Step; Leave ["a"]; Step]) =
    Some [[]; []; []; [("a", [[10; 11]; [20; 21]]%Z, true)]].
Proof. vm_compute. reflexivity. Qed.
